(* ===== verification/_CoqProject ===== *)
-Q . S2P
Prelude.v
Types.v
Floats.v
FloatRound.v
Json.v
JsonProps.v
V41Config.v
Manifest.v
ManifestParse.v
Slab.v
ShardSet.v
ExpertStore.v
StoreInv.v
StoreProps.v
Router.v
Planner.v
PlannerInv.v
PlannerProps.v
IoTuning.v
IoEngine.v
IoEngineInv.v
IoEngineProps.v
Dequant.v
DequantProps.v
DsparkTree.v
Speculate.v
VerifyRow.v
SpeculateProps.v
KvPack.v
KvLayout.v
KvStore.v
KvRows.v
KvStoreProps.v
KvInv.v
KvContext.v
KvRing.v
Unicode.v
Utf8.v
Tokenizer.v
BpeProps.v
TokenizerTrie.v
TokenizerProps.v
TokenizerLoad.v
EngramNorm.v
Engram.v
EngramTables.v
EngramProps.v
SessionDisk.v
SessionWriter.v
SessionWriterProps.v
SessionPool.v
SessionPoolProps.v
Sampling.v
SamplingProps.v
Routing.v
RoutingProps.v
EngineContext.v
SessionReplay.v
ReplayRows.v
ReplayProps.v
SessionContext.v
BakedPrompt.v
BakedProps.v
SessionTurn.v
TurnProps.v
EngineSpeculate.v
EngineSpeculateProps.v
CacheSizing.v
CacheSizingProps.v
CacheHeat.v
CacheHeatProps.v
