(* ===== verification/Prelude.v ===== *)
(** * cachedMoE: a verification development of its storage and decode core

    cachedMoE decodes a mixture-of-experts model whose experts do not fit in memory: they
    stay in checkpoint shards on one or more drives, and a fixed number of slots in
    GPU-visible memory caches them.  This library models the host program ([src/], C++) that
    decides what is read, where it is put, when it may be replaced and which tokens are
    emitted.  Everything is a shallow embedding: definitions keep the source's names and are
    executable; the theorems are about those definitions.

    ** The program's parts and the files that model them

    - Values.  [Prelude] (this file): [core/status.h], [core/align.h], fixed-width integers as
      [Z] with the wrap written out, [std::sort], little-endian bytes.  [Types]:
      [core/types.h] and the constants of [model/layout.h].  [Floats]: binary32 and binary64;
      [FloatRound]: their rounding follows the order.
    - Texts.  [Json] ([core/json.cpp], [json.h], [json_write.h]) with [JsonProps];
      [V41Config] ([model/v41_config.cpp]) and [ManifestParse] ([Manifest::parse]) read
      through it; [Manifest] holds the address book, its lookups and its [validate].
    - Expert cache.  [Slab] ([store/slab.cpp]) owns the memory, [ShardSet]
      ([store/shard_set.h]) the open files.  [ExpertStore] ([store/expert_store.cpp]) is the
      slot machine, with [StoreInv] and [StoreProps].  [Planner] ([store/planner.cpp]) turns a
      layer's routing into hits, evictions and reads, with [PlannerInv], [PlannerProps].
    - Input and output.  [Router] ([storage/source_router.h]) picks a drive, [IoTuning] the
      limits and chunks, [IoEngine] ([storage/io_engine.cpp]) is the engine itself with
      [IoEngineInv], [IoEngineProps].
    - Numbers.  [Dequant] ([cpu/dequant.cpp]) with [DequantProps].
    - Drafting and verifying tokens.  [DsparkTree] ([cpu/dspark_tree.cpp]), [Speculate] and
      [VerifyRow] ([runtime/speculate.cpp]) with [SpeculateProps].
    - Decode state.  [KvPack], [KvLayout], [KvStore] ([runtime/kvstore.cpp]) with [KvRows],
      [KvStoreProps], [KvInv], [KvContext] and [KvRing].
    - Text to tokens.  [Unicode], [Utf8], [Tokenizer] ([text/tokenizer.cpp] with its generated
      tables): character classes, the three pre-tokenizers, added tokens, merging, decoding
      and streams, with [BpeProps], [TokenizerTrie], [TokenizerProps]; [TokenizerLoad] holds
      the reading of tokenizer.json and the theorems about a loaded tokenizer.
    - N-gram tables.  [EngramNorm], [EngramTables] ([runtime/engram_tables.cpp]) derive the
      hash constants from a seed, [Engram] ([runtime/engram.cpp]) hashes a history to rows and
      reads an export; [EngramProps].
    - Sampling and routing.  [Sampling] ([runtime/sampling.cpp], [sampler.h]) with
      [SamplingProps]; [Routing] ([cpu/gate.cpp], the reference products of
      [cpu/gemv_avx512.cpp], [runtime/resident_route.h], [mask_wait.h]) with [RoutingProps].
    - The engine's conversation.  [EngineContext] ([runtime/engine.cpp]): what one stream keeps
      of a conversation, its decode step, feed, prefill, reset and reuse of a prompt.
      [EngineSpeculate]: the engine's own speculative step, with [EngineSpeculateProps].
    - Sessions.  [SessionReplay] ([runtime/session.cpp]): replay of the window ring, rollback,
      parking and restoring, with [ReplayRows], [ReplayProps], [SessionContext].
      [SessionTurn]: a turn from prompt to finish reason, with [TurnProps].  [SessionDisk],
      [SessionWriter], [SessionPool]: copies on disk, the background writer, the pool of
      parked sessions, with [SessionWriterProps], [SessionPoolProps].  [BakedPrompt]
      ([runtime/baked_prompt.cpp]): prompts computed ahead, with [BakedProps].
    - Sizes and policies of the cache.  [CacheSizing] ([runtime/engine.cpp]): the budget, the
      sizes tried at start-up, the two memory paths, with [CacheSizingProps].  [CacheHeat]
      ([runtime/decode_boundary.h], [Engine::reheat]): room at a decode boundary and the pass
      between turns, with [CacheHeatProps].

    ** How they interact

    A layer's router chooses experts; [Planner.plan_layer] looks each up in the store (a hit
    pins nothing, it only stamps the slot), reserves a slot for each miss, evicting when none
    is free, and submits one read per run of the manifest's fill plan to the engine.  The
    engine queues it by priority, picks a source, cuts it into chunks and hands them to the
    operating system's backend; completions come back in any order.  The last chunk of a run
    calls the planner back, which reports it to the store ([finish_run]); the last run settles
    the slot, and only then does the pointer table the GPU reads name it.  The speculative
    cycle drives the model through such layers, and rolls the KV store back over the drafts
    it rejects.

    A turn ([SessionTurn.generate]) finds the longest prefix of its prompt the live context,
    a parked boundary or a baked prompt already holds, rolls the engine back to it (which
    replays the positions whose ring slots were overwritten), feeds the rest, and then
    samples, emits and steps until a stop, a limit or a cancel.  Four classes carry these
    joints.  [Device] is what the GPU does in a step or a prefill, with the laws
    [DeviceWrites] (a step writes the rows of its own position, its ring slot and the carried
    state) and [DevicePrefills] (a prefill hands over the prompt it was given);
    [SpeculativeStep] is what a turn asks of speculation, with the law [SpeculationOk], which
    [engine_speculation_ok] proves of [engine_speculative_step] over any [Verifier] (drafter and
    batch kernels); [ContextEngine] is what the pool of sessions asks of an engine, of which
    [SessionReplay] gives the instance, with the laws [ContextEngineLaws] (a parked context fits,
    restoring it gives the same conversation), which [SessionContext.engine_laws] proves.
    Examples instantiate every class with a concrete device, on which the witnesses run.

    Each mutex-protected section is one atomic step on an explicit state; other threads act
    between steps: as arbitrary operations in a sequence ([run_ops]), or as an [env]
    argument at the points where the code drops its lock.  Callbacks are data: an entry of the
    engine's log, an element of the planner's [ps_inflight] that [deliver] runs.  The planner
    is proved against the class [IoEngineOk] (a submitted request is refused, or accepted
    under a fresh id below [2^62]); memory for slabs and for the KV store comes from the
    classes [SlabBacking] and [MemoryAllocator].  Errors are values of [Result]; code that
    leaves something changed behind an error returns the state beside the result.

    ** What the theorems show

    - Expert store: the invariant of every reachable state, refinement of a four-state slot
      machine, a pointer table that never dangles, guards that hold, exact settling of fills,
      least-recently-used eviction, a frozen cache that stays frozen.
    - Planner: a slot being filled always has its reads in flight, or is the slot of one open
      streamed admission whose end settles it; admission evicts only what is older, backfill
      disturbs nothing when left alone; and where it fails to under a race.
    - Engine: its counters are exact, accepted requests are answered once, [drain] returns only
      when all are answered or the engine has stopped, the issue loop ends, chunks tile their
      request, a mirror's failure is retried on the primary; and the ways a source's charge is lost.
    - Texts: the JSON reader is total with bounded nesting, the writer's texts read back, a
      parsed manifest is typed and a validated one gives sound fill plans.
    - Numbers: codecs round-trip on all codes, FP8 encoding is nearest-even, rows decode.
    - Tokens: greedy speculation emits exactly the one-at-a-time stream; the tree reductions of
      the verify row equal a sequential scan; paths stay in the lattice.
    - KV store: regions are disjoint, growth keeps live bytes, a context packed and unpacked
      comes back bit for bit, ring snapshots and window lists are exact, every sequence of
      operations, on packs that fit, keeps the store well-formed.
    - Tokenizer: decoding undoes encoding up to invalid bytes, the merge queue computes the
      naive best-pair merging and ends, a stream's pieces add up to the decoded text.
    - N-gram tables: derived tables answer distinct rows without overflow; the prime search
      ends; a derivation reproduces an export.
    - Sampling and routing: the nucleus from the kernel's set is a prefix of the sorted
      vocabulary, the router's choice is the best k, resident-only routing never names a slot
      that is absent, what is waited for is the heaviest.
    - Engine and sessions: a turn's transcript and finish reason, its end; replay leaves rows,
      keys, carry and history as they were; rollback keeps exactly a prefix; a parked context
      comes back in another engine; a speculative step commits exactly what it answers and its
      rejected rows leave no trace; baked prompts and copies on disk read back exactly and torn
      ones are refused; the writer writes the latest snapshot and drains; a session left comes
      back with its conversation, or is reset and answers cold when its copy is refused.
    - Sizes and policies: a size is kept only when its probe passed, memory paths are told
      apart as the backing filled them; a settled boundary admits the layer; the pass between
      turns evicts cold experts only, each for a replacement.

    ** Bounds and fuel

    Recursion in the source is mirrored structurally where it can be.  The JSON reader recurses
    on the levels of nesting left ([kMaxDepth], 64 in the source) and its member loops on the
    length of the text, which every iteration shortens: [json_parse_total] shows that fuel
    never runs out.  The engine's issue loop carries the number of queued chunks plus one;
    [issue_ready_ends] shows that it stops before.  The speculative loop and the backfill pump
    carry what is left to emit or to fetch.  A vector or slab accessed out of range, undefined
    in the source, is the error [Internal] or a write that changes nothing; the
    well-formedness theorems exclude it, and the findings name the places where it happens.
    A turn's loop carries [turn_fuel], the tokens asked for: [turn_ends] shows that every turn
    ends within it; feeding carries the length of the suffix plus one.  The prime search carries
    [2^64] candidates, of which [bucket_sizes_found] needs few; PCG64's bounded draw carries a
    number of rejections and answers nothing past it.  The writer is at rest after three steps
    per snapshot and two more ([writer_always_drains]).  Loops over fixed lanes and tables are
    folds over their index lists.
    A pack given to [unpack] is taken to have vectors as long as its rows need; the planes'
    well-formedness is proved for packs with no more rows than belong to their positions.
    Sampling's bin test is proved to follow the order of the logits ([FloatRound]: rounding is
    monotone), for logits the 32-bit format has.

    ** Not modelled

    Message texts, wall-clock statistics and formatting: nothing branches on them.  Code that
    only calls the operating system or the GPU (the I/O backends, the Vulkan layer, shaders,
    the profiler, gamemode).  Of the engine: how GPU commands are recorded and experts bound
    ([decode_layer.cpp], [moe_bridge.cpp], [dspark_runtime.cpp], [gpu_route_state.cpp], most
    of [engine.cpp]); what a step does to the state is the interface [Device].  Of the
    sessions: turns over several streams at once.  The engram row reader's threads.  The
    command line, the serve loop and the configuration it reads from the environment.  SIMD
    variants of the reference routines, tools, benchmarks and tests. *)

From Stdlib Require Export ZArith Lia ZifyNat Bool.
From stdpp Require Export base gmap strings sorting numbers list.
#[export] Set Default Goal Selector "!".
#[global] Open Scope Z_scope.

(** ** Error values ([core/status.h])

    [Status] carries a code, a formatted message and an OS code; the model keeps
    the code, which is the only part any caller branches on. *)

Inductive Err :=
| ErrOk | Unimplemented | InvalidArgument | OutOfRange | NotFound | AlreadyExists
| ResourceExhausted | FailedPrecondition | Io | Unavailable | Corrupt | Cancelled
| Internal.

#[export] Instance Err_eq_dec : EqDecision Err.
Proof. solve_decision. Defined.

Definition err_name (e : Err) : string :=
  match e with
  | ErrOk => "ok"
  | Unimplemented => "unimplemented"
  | InvalidArgument => "invalid-argument"
  | OutOfRange => "out-of-range"
  | NotFound => "not-found"
  | AlreadyExists => "already-exists"
  | ResourceExhausted => "resource-exhausted"
  | FailedPrecondition => "failed-precondition"
  | Io => "io"
  | Unavailable => "unavailable"
  | Corrupt => "corrupt"
  | Cancelled => "cancelled"
  | Internal => "internal"
  end.

(** [Result<T> = std::expected<T, Status>] *)
Inductive Result (A : Type) :=
| Ret (a : A)
| Fail (e : Err).
Arguments Ret {A} a.
Arguments Fail {A} e.

#[export] Instance Result_eq_dec `{EqDecision A} : EqDecision (Result A).
Proof. solve_decision. Defined.

#[export] Instance Result_ret : MRet Result := @Ret.
#[export] Instance Result_bind : MBind Result := fun A B f m =>
  match m with Ret a => f a | Fail e => Fail e end.
#[export] Instance Result_fmap : FMap Result := fun A B f m =>
  match m with Ret a => Ret (f a) | Fail e => Fail e end.

(** [if (bad) return fail(e)] *)
Definition fail_if (bad : bool) (e : Err) : Result unit := if bad then Fail e else Ret tt.

Definition is_ok {A} (r : Result A) : bool := match r with Ret _ => true | Fail _ => false end.

Lemma bind_Ret {A B} (f : A -> Result B) (m : Result A) (b : B) :
  (m ≫= f) = Ret b <-> exists a, m = Ret a /\ f a = Ret b.
Proof. destruct m; simpl; split; naive_solver. Qed.

Lemma fail_if_Ret b e : fail_if b e = Ret tt <-> b = false.
Proof. destruct b; simpl; split; done. Qed.

(** A left fold that stops at the first error, the shape of every validating loop. *)
Fixpoint foldM {A S} (f : S -> A -> Result S) (s : S) (l : list A) : Result S :=
  match l with
  | [] => Ret s
  | x :: l => s' ← f s x; foldM f s' l
  end.

Lemma foldM_inv {A S} (f : S -> A -> Result S) (P : S -> Prop) s l s' :
  (forall s x s', P s -> f s x = Ret s' -> P s') -> P s -> foldM f s l = Ret s' -> P s'.
Proof.
  intros Hf. revert s. induction l as [|x l IH]; intros s Hs; cbn; [by intros [= <-]|].
  intros (s1 & H1 & H2)%bind_Ret. eapply IH; [|done]. by eapply Hf.
Qed.

Lemma foldM_done {A S} (f : S -> A -> Result S) (P : list A -> S -> Prop) l s s' :
  (forall done x s s', x ∈ l -> P done s -> f s x = Ret s' -> P (done ++ [x]) s') -> P [] s ->
  foldM f s l = Ret s' -> P l s'.
Proof.
  intros Hf Hs. assert (Hgo : forall l' done s, (forall x, x ∈ l' -> x ∈ l) -> P done s -> foldM f s l' = Ret s' -> P (done ++ l') s').
  { induction l' as [|x l' IH]; intros done s1 Hl H1; cbn; [intros [= <-]; by rewrite app_nil_r|].
    intros (s2 & H2 & H3)%bind_Ret. replace (done ++ x :: l') with ((done ++ [x]) ++ l') by (by rewrite <- app_assoc).
    apply (IH _ s2); [intros; apply Hl; by right| |done]. apply (Hf _ _ s1); [apply Hl; by left|done|done]. }
  intros H. by apply (Hgo l [] s).
Qed.

(** Inverts chains of [x ← m; k] and [fail_if] that ended in [Ret]. *)
Ltac inv_result :=
  repeat match goal with
  | H : Ret _ = Ret _ |- _ => simplify_eq H
  | H : Fail _ = Ret _ |- _ => discriminate H
  | H : Ret _ = Fail _ |- _ => discriminate H
  | H : Fail _ = Fail _ |- _ => simplify_eq H
  | H : mret _ = Ret _ |- _ => unfold mret, Result_ret in H
  | H : fail_if _ _ = Ret ?u |- _ => destruct u; apply fail_if_Ret in H
  | H : (_ ≫= _) = Ret _ |- _ => apply bind_Ret in H; destruct H as (? & ? & ?)
  end; simplify_eq.

(** Linear arithmetic with quotients and remainders, on [Z] and on [nat]. *)
Ltac div_lia := zify; Z.to_euclidean_division_equations; lia.

Lemma guard_ltb a b : (b <= a)%nat -> (a <? b)%nat = false.
Proof. apply Nat.ltb_ge. Qed.

(** ** Machine integers: values are [Z], each operation wraps at its width. *)

Definition u8 (x : Z) : Z := x mod 2 ^ 8.
Definition u16 (x : Z) : Z := x mod 2 ^ 16.
Definition u32 (x : Z) : Z := x mod 2 ^ 32.
Definition u64 (x : Z) : Z := x mod 2 ^ 64.
Definition UINT32_MAX : Z := 2 ^ 32 - 1.

Lemma u32_small x : 0 <= x < 2 ^ 32 -> u32 x = x.
Proof. intros. by apply Z.mod_small. Qed.
Lemma u64_small x : 0 <= x < 2 ^ 64 -> u64 x = x.
Proof. intros. by apply Z.mod_small. Qed.
Lemma u16_small x : 0 <= x < 2 ^ 16 -> u16 x = x.
Proof. intros. by apply Z.mod_small. Qed.
Lemma u32_range x : 0 <= u32 x < 2 ^ 32.
Proof. apply Z.mod_pos_bound. lia. Qed.
Lemma u64_range x : 0 <= u64 x < 2 ^ 64.
Proof. apply Z.mod_pos_bound. lia. Qed.
Lemma u16_range x : 0 <= u16 x < 2 ^ 16.
Proof. apply Z.mod_pos_bound. lia. Qed.

(** A value of a 32-bit or 64-bit field. *)
Definition u32_val (x : Z) : Prop := 0 <= x < 2 ^ 32.
Definition u64_val (x : Z) : Prop := 0 <= x < 2 ^ 64.

(** Fields packed side by side: [or] is addition when the low field fits. *)
Lemma lor_shiftl a b k : 0 <= k -> 0 <= b < 2 ^ k -> Z.lor (Z.shiftl a k) b = a * 2 ^ k + b.
Proof.
  intros Hk Hb. rewrite <- Z.shiftl_mul_pow2 by done.
  assert (Hd : Z.land (Z.shiftl a k) b = 0); [|pose proof (Z.add_lor_land (Z.shiftl a k) b); lia].
  apply Z.bits_inj'. intros n Hn. rewrite Z.land_spec, Z.bits_0.
  destruct (decide (n < k)); [by rewrite Z.shiftl_spec_low|].
  destruct (decide (b = 0)) as [->|]; [by rewrite Z.bits_0, andb_false_r|].
  rewrite (Z.bits_above_log2 b); [apply andb_false_r|lia|].
  assert (Z.log2 b < k) by (apply Z.log2_lt_pow2; lia). lia.
Qed.

(** Bitwise complement of a [uint64_t]. *)
Definition not64 (x : Z) : Z := u64 (Z.lnot x).

(** ** 4 KiB alignment ([core/align.h]) *)

Definition kPageSize : Z := 4096.

Definition is_pow2 (v : Z) : bool := negb (v =? 0) && (Z.land v (u64 (v - 1)) =? 0).

Definition align_up (v a : Z) : Z := Z.land (u64 (v + a - 1)) (not64 (a - 1)).
Definition align_down (v a : Z) : Z := Z.land v (not64 (a - 1)).
Definition is_aligned (v a : Z) : bool := Z.land v (u64 (a - 1)) =? 0.

(** Number of [a]-sized pages spanned by [off, off+bytes). *)
Definition page_span (off bytes a : Z) : Z :=
  if bytes =? 0 then 0
  else u64 (align_up (u64 (off + bytes)) a - align_down off a) / a.

Section Align.
Context (k : Z) (Hk : 0 <= k < 64).
#[local] Abbreviation a := (2 ^ k).

Lemma pow2_pos : 0 < a.
Proof. apply Z.pow_pos_nonneg; lia. Qed.

Lemma pow2_lt_64 : a < 2 ^ 64.
Proof. apply Z.pow_lt_mono_r; lia. Qed.

Lemma land_not64_mask v : 0 <= v < 2 ^ 64 -> Z.land v (not64 (a - 1)) = v - v mod a.
Proof.
  intros Hv. pose proof pow2_pos. pose proof pow2_lt_64.
  assert (v - v mod a = Z.ldiff v (Z.ones k)) as ->.
  { pose proof (Z.ldiff_ones_r v k ltac:(lia)) as E. rewrite E.
    rewrite Z.shiftr_div_pow2, Z.shiftl_mul_pow2 by lia.
    pose proof (Z.div_mod v a). lia. }
  apply Z.bits_inj'. intros n Hn.
  rewrite Z.land_spec, Z.ldiff_spec. unfold not64, u64.
  replace (a - 1) with (Z.ones k) by (rewrite Z.ones_equiv; lia).
  destruct (decide (n < 64)).
  - by rewrite Z.mod_pow2_bits_low, Z.lnot_spec by lia.
  - assert (Z.testbit v n = false) as ->; [|done].
    destruct (decide (v = 0)) as [->|]; [apply Z.bits_0|].
    apply Z.bits_above_log2; [lia|].
    assert (Z.log2 v < 64) by (apply Z.log2_lt_pow2; lia). lia.
Qed.

Lemma align_down_spec v : 0 <= v < 2 ^ 64 -> align_down v a = v - v mod a.
Proof. apply land_not64_mask. Qed.

Lemma align_up_spec v :
  0 <= v -> v + a - 1 < 2 ^ 64 -> align_up v a = a * ((v + a - 1) / a).
Proof.
  intros. pose proof pow2_pos. unfold align_up.
  rewrite u64_small by lia. rewrite land_not64_mask by lia.
  pose proof (Z.div_mod (v + a - 1) a). lia.
Qed.

Lemma is_aligned_spec v : 0 <= v < 2 ^ 64 -> is_aligned v a = true <-> v mod a = 0.
Proof.
  intros. pose proof pow2_pos. pose proof pow2_lt_64. unfold is_aligned.
  rewrite u64_small, Z.eqb_eq by lia.
  replace (a - 1) with (Z.ones k) by (rewrite Z.ones_equiv; lia).
  by rewrite Z.land_ones by lia.
Qed.
End Align.

Lemma align_down_page v :
  0 <= v < 2 ^ 64 ->
  align_down v kPageSize <= v < align_down v kPageSize + kPageSize /\
  align_down v kPageSize mod kPageSize = 0 /\ 0 <= align_down v kPageSize.
Proof.
  intros. unfold kPageSize. rewrite (align_down_spec 12) by lia. change (2 ^ 12) with 4096.
  pose proof (Z.mod_pos_bound v 4096). pose proof (Z.div_mod v 4096).
  replace (v - v mod 4096) with (v / 4096 * 4096) by lia.
  rewrite Z.mod_mul by lia. lia.
Qed.

Lemma align_up_page v :
  0 <= v <= 2 ^ 64 - kPageSize ->
  v <= align_up v kPageSize < v + kPageSize /\ align_up v kPageSize mod kPageSize = 0.
Proof.
  unfold kPageSize. intros. rewrite (align_up_spec 12) by lia. change (2 ^ 12) with 4096.
  replace (4096 * ((v + 4096 - 1) / 4096)) with ((v + 4096 - 1) / 4096 * 4096) by lia.
  rewrite Z.mod_mul by lia.
  pose proof (Z.mod_pos_bound (v + 4096 - 1) 4096). pose proof (Z.div_mod (v + 4096 - 1) 4096). lia.
Qed.

Lemma is_aligned_page v :
  0 <= v < 2 ^ 64 -> is_aligned v kPageSize = true <-> v mod kPageSize = 0.
Proof. apply (is_aligned_spec 12). lia. Qed.

(** ** Record update: [r <| field := v |>] and [r <| field ::= f |>]

    A record declares its eta-expansion once ([Eta]); the setter of any of its
    projections is found by abstracting that projection in the expansion. *)

Class Eta (R : Type) := eta : R -> R.
Class Setter {R T : Type} (proj : R -> T) := update_field : (T -> T) -> R -> R.

Ltac solve_setter :=
  match goal with
  | |- @Setter ?R ?T ?proj =>
      let i := constr:(_ : Eta R) in
      let e := eval hnf in i in
      match eval pattern proj in e with
      | ?g _ =>
          let t := eval cbv beta in (fun f : T -> T => g (fun r : R => f (proj r))) in
          exact t
      end
  end.
#[export] Hint Extern 1 (Setter _) => solve_setter : typeclass_instances.

Declare Scope record_scope.
Notation "r <| p ::= f |>" := (update_field (proj := p) f r)
  (at level 1, left associativity, f at level 200) : record_scope.
Notation "r <| p := v |>" := (update_field (proj := p) (fun _ => v) r)
  (at level 1, left associativity, v at level 200) : record_scope.
#[global] Open Scope record_scope.

(** ** Generic list lemmas *)

Definition sum_Z (l : list Z) : Z := foldr Z.add 0 l.

Lemma sum_Z_app l1 l2 : sum_Z (l1 ++ l2) = sum_Z l1 + sum_Z l2.
Proof. induction l1; simpl; lia. Qed.

Lemma sum_Z_nonneg l : Forall (fun x => 0 <= x) l -> 0 <= sum_Z l.
Proof. induction 1; simpl; lia. Qed.

(** Running-sum fold of a [uint64_t] accumulator. *)
Lemma foldl_u64_sum (l : list Z) a :
  0 <= a -> Forall (fun x => 0 <= x) l -> a + sum_Z l < 2 ^ 64 ->
  foldl (fun c x => u64 (c + x)) a l = a + sum_Z l.
Proof.
  revert a. induction l as [|x l IH]; simpl; intros a Ha Hl Hb; [lia|].
  apply Forall_cons in Hl as [Hx Hl]. pose proof (sum_Z_nonneg l Hl).
  rewrite u64_small by lia. rewrite IH by (done || lia). lia.
Qed.

Lemma foldl_invariant {A B} (P : A -> Prop) (f : A -> B -> A) a l :
  P a -> (forall a b, b ∈ l -> P a -> P (f a b)) -> P (foldl f a l).
Proof.
  revert a. induction l as [|b l IH]; intros a Ha Hf; cbn; [done|].
  apply IH; [apply Hf; [by left|done]|]. intros a' b' Hb. apply Hf. by right.
Qed.

(** Taking one element out. *)
Lemma foldl_insert_length {X} (f : X -> nat) (g : X -> Z) (xs : list X) (sp : list Z) :
  length (foldl (fun sp x => <[f x := g x]> sp) sp xs) = length sp.
Proof. revert sp. induction xs as [|x xs IH]; intros sp; [done|]. cbn. by rewrite IH, length_insert. Qed.

Lemma filter_ne_perm {A} `{EqDecision A} (x : A) l : NoDup l -> x ∈ l -> x :: filter (fun i => i <> x) l ≡ₚ l.
Proof.
  intros Hl Hx. apply NoDup_Permutation; [|done|].
  - constructor; [|by apply NoDup_filter]. by intros [? _]%list_elem_of_filter.
  - intros y. rewrite elem_of_cons, list_elem_of_filter. destruct (decide (y = x)); naive_solver.
Qed.

(** ** Sums over a finite map *)

Definition msum `{Countable K} {A} (f : A -> Z) (m : gmap K A) : Z := map_fold (fun _ x acc => f x + acc) 0 m.

Section MapSum.
Context {K} `{HK : Countable K} {A : Type}.
Implicit Types (f g : A -> Z) (m : gmap K A) (k : K).

Lemma msum_empty f : msum f (∅ : gmap K A) = 0.
Proof. apply map_fold_empty. Qed.

Lemma msum_insert f m k x : m !! k = None -> msum f (<[k:=x]> m) = f x + msum f m.
Proof. intros H. unfold msum. rewrite map_fold_insert_L; [done|intros; lia|done]. Qed.

Lemma msum_delete f m k x : m !! k = Some x -> msum f m = f x + msum f (delete k m).
Proof. intros H. unfold msum. rewrite (map_fold_delete_L _ _ k x m); [done|intros; lia|done]. Qed.

Lemma msum_ext f g m : (forall k x, m !! k = Some x -> f x = g x) -> msum f m = msum g m.
Proof.
  induction m as [|k x m Hk IH] using map_ind; intros H; [done|].
  rewrite !msum_insert by done. rewrite (H k x), IH; [done| |by rewrite lookup_insert_eq].
  intros k' x' H'. apply (H k'). rewrite lookup_insert_ne; congruence.
Qed.

Lemma msum_le f g m : (forall k x, m !! k = Some x -> f x <= g x) -> msum f m <= msum g m.
Proof.
  induction m as [|k x m Hk IH] using map_ind; intros H; [done|].
  rewrite !msum_insert by done. pose proof (H k x ltac:(by rewrite lookup_insert_eq)).
  assert (msum f m <= msum g m); [|lia]. apply IH.
  intros k' x' H'. apply (H k'). rewrite lookup_insert_ne; congruence.
Qed.

Lemma msum_scale f c m : msum (fun x => c * f x) m = c * msum f m.
Proof.
  induction m as [|k x m Hk IH] using map_ind; [rewrite !msum_empty; lia|].
  rewrite !msum_insert by done. lia.
Qed.

Lemma msum_nonneg f m : (forall k x, m !! k = Some x -> 0 <= f x) -> 0 <= msum f m.
Proof.
  intros H. pose proof (msum_le (fun _ => 0 * 0) f m H) as Hle. rewrite msum_scale in Hle. lia.
Qed.

Lemma msum_pos f m k x : (forall k x, m !! k = Some x -> 0 <= f x) -> m !! k = Some x -> 0 < f x -> 0 < msum f m.
Proof.
  intros H Hk Hp. rewrite (msum_delete f m k x) by done.
  pose proof (msum_nonneg f (delete k m)) as Hn. enough (0 <= msum f (delete k m)) by lia.
  apply Hn. intros k' x' [_ H']%lookup_delete_Some. eauto.
Qed.

Lemma msum_zero f m : (forall k x, m !! k = Some x -> f x = 0) -> msum f m = 0.
Proof. intros H. rewrite (msum_ext f (fun _ => 0 * 0)), msum_scale by done. lia. Qed.
End MapSum.

(** [span.subspan(off, n)] within bounds. *)
Definition subspan {A} (l : list A) (off n : nat) : list A := take n (drop off l).
Lemma nth_subspan {A} (l : list A) off n i d : (i < n)%nat -> nth i (subspan l off n) d = nth (off + i) l d.
Proof.
  intros Hi. unfold subspan. rewrite !nth_lookup, lookup_take by done.
  by rewrite decide_True, lookup_drop by done.
Qed.

Lemma subspan_length {A} (l : list A) off n : (off + n <= length l)%nat -> length (subspan l off n) = n.
Proof. intros. unfold subspan. rewrite length_take, length_drop. lia. Qed.

(** ** [std::sort]

    Insertion sort by a C++ comparator: on a strict weak ordering without ties every
    sorting algorithm returns the same list. *)

Fixpoint sort_insert {A} (lt : A -> A -> bool) (x : A) (l : list A) : list A :=
  match l with
  | [] => [x]
  | y :: l' => if lt y x then y :: sort_insert lt x l' else x :: l
  end.

Definition std_sort {A} (lt : A -> A -> bool) (l : list A) : list A := foldr (sort_insert lt) [] l.

Lemma sort_insert_perm {A} (lt : A -> A -> bool) x l : sort_insert lt x l ≡ₚ x :: l.
Proof.
  induction l as [|y l IH]; simpl; [done|]. destruct (lt y x); [|done].
  rewrite IH. constructor.
Qed.

Lemma std_sort_perm {A} (lt : A -> A -> bool) l : std_sort lt l ≡ₚ l.
Proof. induction l as [|x l IH]; simpl; [done|]. by rewrite sort_insert_perm, IH. Qed.

Section Sorted.
Context {A : Type} (lt : A -> A -> bool) (P : A -> Prop).
(** Negative transitivity on the elements considered (part of strict weak ordering). *)
Context (lt_neg_trans : forall x y z, P x -> P y -> P z -> lt x y = false -> lt y z = false -> lt x z = false).
Context (lt_asym : forall x y, P x -> P y -> lt x y = true -> lt y x = false).

(** No later element precedes an earlier one. *)
Definition sorted_by (l : list A) : Prop := StronglySorted (fun x y => lt y x = false) l.

Lemma sort_insert_sorted x l : P x -> Forall P l -> sorted_by l -> sorted_by (sort_insert lt x l).
Proof.
  unfold sorted_by. intros Hx Hl Hs.
  induction Hs as [|y l Hs IH Hy]; simpl; [repeat constructor|].
  apply Forall_cons in Hl as [Py Pl].
  destruct (lt y x) eqn:E.
  - constructor; [by apply IH|]. rewrite sort_insert_perm. constructor; [by apply lt_asym|done].
  - constructor; [by constructor|]. constructor; [done|].
    rewrite Forall_forall in Hy, Pl |- *. intros z Hz. eapply (lt_neg_trans z y x); auto.
Qed.

Lemma std_sort_sorted l : Forall P l -> sorted_by (std_sort lt l).
Proof.
  induction l as [|x l IH]; simpl; intros Hl; [constructor|].
  apply Forall_cons in Hl as [Px Pl]. apply sort_insert_sorted; [done| |by apply IH].
  by rewrite std_sort_perm.
Qed.
End Sorted.

(** ** Little-endian memory

    A cell of memory is a byte, whatever number stands in it: reads take it modulo 256. *)

Fixpoint le_bytes (n : nat) (x : Z) : list Z :=
  match n with O => [] | S n => x mod 256 :: le_bytes n (x / 256) end.
Fixpoint le_value (bs : list Z) : Z :=
  match bs with [] => 0 | b :: bs => b mod 256 + 256 * le_value bs end.

(** A vector of [n]-byte numbers as memory, and [k] of them read back. *)
Definition to_bytes (n : nat) (xs : list Z) : list Z := flat_map (le_bytes n) xs.
Fixpoint of_bytes (n k : nat) (bs : list Z) : list Z :=
  match k with O => [] | S k => le_value (take n bs) :: of_bytes n k (drop n bs) end.

Lemma le_bytes_length n x : length (le_bytes n x) = n.
Proof. revert x. induction n; intros; cbn; auto. Qed.

Lemma le_bytes_range n x : Forall (fun b => 0 <= b < 256) (le_bytes n x).
Proof. revert x. induction n; intros; constructor; auto. apply Z.mod_pos_bound. lia. Qed.

Lemma le_value_range bs : 0 <= le_value bs < 256 ^ Z.of_nat (length bs).
Proof.
  induction bs as [|b bs IH]; [cbn; lia|].
  replace (256 ^ Z.of_nat (length (b :: bs))) with (256 * 256 ^ Z.of_nat (length bs))
    by (cbn [length]; rewrite Nat2Z.inj_succ, Z.pow_succ_r; lia).
  cbn [le_value]. pose proof (Z.mod_pos_bound b 256). lia.
Qed.

Lemma le_value_bytes n x : 0 <= x < 256 ^ Z.of_nat n -> le_value (le_bytes n x) = x.
Proof.
  revert x. induction n as [|n IH]; intros x Hx; [cbn in *; lia|].
  rewrite Nat2Z.inj_succ, Z.pow_succ_r in Hx by lia. cbn [le_bytes le_value].
  rewrite IH by (split; [apply Z.div_pos; lia|apply Z.div_lt_upper_bound; lia]).
  rewrite Z.mod_mod by lia. pose proof (Z.div_mod x 256). lia.
Qed.

Lemma le_bytes_value bs : Forall (fun b => 0 <= b < 256) bs -> le_bytes (length bs) (le_value bs) = bs.
Proof.
  induction 1 as [|b bs Hb _ IH]; [done|]. cbn [length le_value le_bytes].
  rewrite (Z.mod_small b) by done. f_equal.
  - rewrite Z.mul_comm, Z.mod_add by lia. by apply Z.mod_small.
  - rewrite Z.mul_comm, Z.div_add, Z.div_small by lia. exact IH.
Qed.

Lemma to_bytes_length n xs : length (to_bytes n xs) = (length xs * n)%nat.
Proof. unfold to_bytes. induction xs; cbn; [done|]. rewrite length_app, le_bytes_length, IHxs. done. Qed.

Lemma of_bytes_length n k bs : length (of_bytes n k bs) = k.
Proof. revert bs. induction k; intros; cbn; auto. Qed.

Lemma of_to_bytes n xs rest : Forall (fun x => 0 <= x < 256 ^ Z.of_nat n) xs ->
  of_bytes n (length xs) (to_bytes n xs ++ rest) = xs.
Proof.
  unfold to_bytes. induction 1 as [|x xs Hx _ IH]; cbn [length of_bytes flat_map]; [done|].
  rewrite <- app_assoc, take_app_length', drop_app_length' by (by rewrite le_bytes_length).
  by rewrite le_value_bytes, IH.
Qed.

Lemma of_bytes_range n k bs : Forall (fun x => 0 <= x < 256 ^ Z.of_nat n) (of_bytes n k bs).
Proof.
  revert bs. induction k as [|k IH]; intros bs; constructor; [|apply IH].
  pose proof (le_value_range (take n bs)) as H. rewrite length_take in H.
  assert (256 ^ Z.of_nat (n `min` length bs) <= 256 ^ Z.of_nat n) by (apply Z.pow_le_mono_r; lia). lia.
Qed.
