(* ===== verification/Types.v ===== *)
(** Core value types ([src/core/types.h]) and the layout constants
    ([src/model/layout.h]) the store, the manifest and the planner share. *)

From S2P Require Import Prelude.

(** ** Weight element formats *)

Inductive QuantType :=
| Fp4E2M1 | Fp8E4M3 | E8M0 | Bf16 | Fp32 | Fp16 | QUnknown.
#[export] Instance QuantType_eq_dec : EqDecision QuantType.
Proof. solve_decision. Defined.

Definition quant_name (q : QuantType) : string :=
  match q with
  | Fp4E2M1 => "fp4_e2m1"
  | Fp8E4M3 => "fp8_e4m3"
  | E8M0 => "e8m0"
  | Bf16 => "bf16"
  | Fp32 => "f32"
  | Fp16 => "f16"
  | QUnknown => "unknown"
  end.

Definition quant_bits (q : QuantType) : Z :=
  match q with
  | Fp4E2M1 => 4
  | Fp8E4M3 | E8M0 => 8
  | Bf16 | Fp16 => 16
  | Fp32 => 32
  | QUnknown => 0
  end.

(** ** Residency *)

Inductive Tier := Pinned | Cached | Cold.
#[export] Instance Tier_eq_dec : EqDecision Tier.
Proof. solve_decision. Defined.

Inductive SlotState := Free | Filling | Resident.
#[export] Instance SlotState_eq_dec : EqDecision SlotState.
Proof. solve_decision. Defined.

Definition slot_state_name (s : SlotState) : string :=
  match s with Free => "free" | Filling => "filling" | Resident => "resident" end.

(** ** Identity: [layer] and [expert] are [uint16_t]. *)

Record ExpertKey := mkKey { layer : Z; expert : Z }.

#[export] Instance ExpertKey_eq_dec : EqDecision ExpertKey.
Proof. solve_decision. Defined.
#[export] Instance ExpertKey_countable : Countable ExpertKey.
Proof.
  refine (inj_countable' (fun k => (layer k, expert k)) (fun p => mkKey p.1 p.2) _).
  by intros [].
Defined.

Definition key_ok (k : ExpertKey) : Prop :=
  0 <= layer k < 2 ^ 16 /\ 0 <= expert k < 2 ^ 16.

Definition packed (k : ExpertKey) : Z := Z.lor (u32 (Z.shiftl (layer k) 16)) (expert k).
Definition unpack (v : Z) : ExpertKey := mkKey (u16 (Z.shiftr v 16)) (u16 (Z.land v 65535)).

Lemma packed_sum k : key_ok k -> packed k = layer k * 2 ^ 16 + expert k.
Proof.
  intros [Hl He]. unfold packed. rewrite u32_small, lor_shiftl by (rewrite ?Z.shiftl_mul_pow2; lia). done.
Qed.

Lemma unpack_packed k : key_ok k -> unpack (packed k) = k.
Proof.
  intros Hk. pose proof Hk as [Hl He]. unfold unpack. rewrite packed_sum by done.
  change 65535 with (Z.ones 16). rewrite Z.land_ones, Z.shiftr_div_pow2 by lia.
  rewrite Z.div_add_l, (Z.div_small (expert k)), Z.add_0_r by lia.
  rewrite Z.add_comm, Z.mod_add, Z.mod_small by lia.
  rewrite !u16_small by lia. by destruct k.
Qed.

Lemma packed_range k : key_ok k -> 0 <= packed k < 2 ^ 32.
Proof. intros Hk. rewrite packed_sum by done. destruct Hk. lia. Qed.

Lemma packed_unpack v : 0 <= v < 2 ^ 32 -> packed (unpack v) = v.
Proof.
  intros. assert (Hs : 0 <= Z.shiftr v 16 < 2 ^ 16).
  { rewrite Z.shiftr_div_pow2 by lia. split; [apply Z.div_pos; lia|].
    apply Z.div_lt_upper_bound; lia. }
  assert (Hm : 0 <= v mod 2 ^ 16 < 2 ^ 16) by (apply Z.mod_pos_bound; lia).
  rewrite packed_sum.
  - unfold unpack; cbn [layer expert]. change 65535 with (Z.ones 16).
    rewrite Z.land_ones, !u16_small by lia. rewrite Z.shiftr_div_pow2 by lia.
    pose proof (Z.div_mod v (2 ^ 16)). lia.
  - unfold unpack; split; cbn [layer expert]; apply u16_range.
Qed.

(** [operator<=>] = default: lexicographic. *)
Definition key_ltb (a b : ExpertKey) : bool :=
  if layer a =? layer b then expert a <? expert b else layer a <? layer b.

(** [splitmix]-style finaliser of [ExpertKeyHash]. *)
Definition ExpertKeyHash (k : ExpertKey) : Z :=
  let x := u64 (packed k * 0x9E3779B97F4A7C15) in
  let x := Z.lxor x (Z.shiftr x 31) in
  let x := u64 (x * 0xBF58476D1CE4E5B9) in
  Z.lxor x (Z.shiftr x 29).

Definition kNoDeviceAddress : Z := 0.

(** ** I/O priorities *)

Inductive IoPriority := BlockingMiss | Lookahead | Engram | Backfill.
#[export] Instance IoPriority_eq_dec : EqDecision IoPriority.
Proof. solve_decision. Defined.

Definition io_priority_name (p : IoPriority) : string :=
  match p with
  | BlockingMiss => "p0_blocking"
  | Lookahead => "p1_lookahead"
  | Engram => "p2_engram"
  | Backfill => "p3_backfill"
  end.

(** ** Geometry ([model/layout.h]) *)

Definition kNumLayers : Z := 40.
Definition kMtpBlocks : Z := 3.
Definition kTotalLogicalLayers : Z := kNumLayers + kMtpBlocks.
Definition kRoutedExperts : Z := 384.
Definition kExpertWeightBytesPerMat : Z := 5898240.
Definition kExpertScaleBytesPerMat : Z := 368640.
Definition kExpertMats : Z := 3.
Definition kExpertBytes : Z := kExpertMats * (kExpertWeightBytesPerMat + kExpertScaleBytesPerMat).
Definition kExpertSlotBytes : Z := 18808832.
Definition kExpertParts : nat := 6.
Definition kExpertPartCount : nat := kExpertParts.
Definition kMaxExpertRuns : nat := kExpertParts.
Definition kEngramValueRowBytes : Z := 256.
Definition kEngramScaleRowBytes : Z := 8.

Lemma kExpertBytes_value : kExpertBytes = 18800640.
Proof. reflexivity. Qed.
Lemma kExpertSlotBytes_aligned : is_aligned kExpertSlotBytes kPageSize = true.
Proof. reflexivity. Qed.
