(* ===== verification/Floats.v ===== *)
(** IEEE-754 arithmetic for [float] and [double]: the Standard Library's [SpecFloat],
    every operation rounded to nearest even at binary32 or binary64 (no contraction),
    NaN payloads forgotten, and the bit patterns [memcpy] exposes. *)

From S2P Require Import Prelude.
From Stdlib Require Export Floats.SpecFloat.

Abbreviation float := spec_float (only parsing).

(** ** binary32 *)

Definition f32_add : float -> float -> float := SFadd 24 128.
Definition f32_sub : float -> float -> float := SFsub 24 128.
Definition f32_mul : float -> float -> float := SFmul 24 128.
Definition f32_div : float -> float -> float := SFdiv 24 128.
Definition f32_ldexp : float -> Z -> float := SFldexp 24 128.
(** [m * 2^e], rounded: literals and integer conversions. *)
Definition f32_lit (m e : Z) : float := binary_normalize 24 128 m e false.
Definition f32_of_Z (m : Z) : float := f32_lit m 0.
Definition f32_zero : float := S754_zero false.
Definition f32_one : float := Eval compute in f32_of_Z 1.

(** ** binary64 *)

Definition f64_add : float -> float -> float := SFadd 53 1024.
Definition f64_sub : float -> float -> float := SFsub 53 1024.
Definition f64_mul : float -> float -> float := SFmul 53 1024.
Definition f64_div : float -> float -> float := SFdiv 53 1024.
Definition f64_ldexp : float -> Z -> float := SFldexp 53 1024.
Definition f64_lit (m e : Z) : float := binary_normalize 53 1024 m e false.
Definition f64_of_Z (m : Z) : float := f64_lit m 0.
Definition f64_zero : float := S754_zero false.
Definition f64_one : float := Eval compute in f64_of_Z 1.

(** [static_cast<double>] of a [float] is exact; [static_cast<float>] of a [double]
    rounds. *)
Definition f32_to_f64 (x : float) : float :=
  match x with
  | S754_finite s m e => binary_normalize 53 1024 (if s then Zneg m else Zpos m) e s
  | _ => x
  end.
Definition f64_to_f32 (x : float) : float :=
  match x with
  | S754_finite s m e => binary_normalize 24 128 (if s then Zneg m else Zpos m) e s
  | _ => x
  end.

(** C++ comparisons: all false on NaN. *)
Definition f_ltb : float -> float -> bool := SFltb.
Definition f_leb : float -> float -> bool := SFleb.
Definition f_gtb (x y : float) : bool := f_ltb y x.
Definition f_geb (x y : float) : bool := f_leb y x.
Definition f_eqb : float -> float -> bool := SFeqb.
Definition f_isnan (x : float) : bool := match x with S754_nan => true | _ => false end.
Definition f_isfinite (x : float) : bool :=
  match x with S754_zero _ | S754_finite _ _ _ => true | _ => false end.
Definition f_abs : float -> float := SFabs.
Definition f_neg : float -> float := SFopp.
(** [std::max(a, b)] is [a < b ? b : a]. *)
Definition f_max (a b : float) : float := if f_ltb a b then b else a.

(** [std::floor], [std::fmod] and the truncating conversion to an integer. *)
Definition signed (s : bool) (m : positive) : Z := if s then Zneg m else Zpos m.

Definition f32_floor (x : float) : float :=
  match x with
  | S754_finite s m e => if e <? 0 then binary_normalize 24 128 (Z.shiftr (signed s m) (- e)) 0 s else x
  | _ => x
  end.

Definition f64_floor (x : float) : float :=
  match x with
  | S754_finite s m e => if e <? 0 then binary_normalize 53 1024 (Z.shiftr (signed s m) (- e)) 0 s else x
  | _ => x
  end.

(** [std::frexp] of a positive finite double: a mantissa in [[1/2, 1)] and its exponent. *)
Definition f64_frexp : float -> float * Z := SFfrexp 53 1024.

Definition f_neg_infinity : float := S754_infinity true.

Definition f32_fmod (x y : float) : float :=
  match x, y with
  | S754_finite s m e, S754_finite _ m' e' =>
      let d := Z.min e e' in
      let r := Z.rem (Z.shiftl (signed s m) (e - d)) (Z.shiftl (Zpos m') (e' - d)) in
      binary_normalize 24 128 r d s
  | S754_finite _ _ _, S754_infinity _ => x
  | S754_zero _, (S754_finite _ _ _ | S754_infinity _) => x
  | _, _ => S754_nan
  end.

Definition f_trunc (x : float) : Z :=
  match x with
  | S754_finite s m e =>
      if e <? 0 then (if s then - Z.shiftr (Zpos m) (- e) else Z.shiftr (Zpos m) (- e))
      else Z.shiftl (signed s m) e
  | _ => 0
  end.

(** ** Bit patterns *)

Definition f32_of_bits (b : Z) : float :=
  let s := Z.testbit b 31 in
  let e := Z.land (Z.shiftr b 23) 255 in
  let m := Z.land b 0x7FFFFF in
  if e =? 255 then (if m =? 0 then S754_infinity s else S754_nan)
  else if e =? 0 then
    match m with Zpos p => S754_finite s p (-149) | _ => S754_zero s end
  else
    match m + 2 ^ 23 with Zpos p => S754_finite s p (e - 150) | _ => S754_nan end.

Definition bits_of_f32 (x : float) : Z :=
  let sgn (s : bool) := if s then 2 ^ 31 else 0 in
  match x with
  | S754_zero s => sgn s
  | S754_infinity s => sgn s + 255 * 2 ^ 23
  | S754_nan => 0x7FC00000
  | S754_finite s m e =>
      if Zpos m <? 2 ^ 23 then sgn s + Zpos m
      else sgn s + (e + 150) * 2 ^ 23 + (Zpos m - 2 ^ 23)
  end.

(** ** The order on floats

    [f_ltb] is a strict weak order on the values that are not NaN. *)

(** Magnitudes with the same sign compare by exponent, then mantissa. *)
Definition mag_lt (m1 : positive) (e1 : Z) (m2 : positive) (e2 : Z) : Prop :=
  e1 < e2 \/ (e1 = e2 /\ Zpos m1 < Zpos m2).

Lemma f_ltb_pos m1 e1 m2 e2 :
  f_ltb (S754_finite false m1 e1) (S754_finite false m2 e2) = true <-> mag_lt m1 e1 m2 e2.
Proof.
  unfold mag_lt, f_ltb, SFltb. cbn. change (Pos.compare_cont Eq m1 m2) with (m1 ?= m2)%positive.
  destruct (Z.compare_spec e1 e2) as [->|?|?]; [|split; [lia|done]|split; [done|lia]].
  destruct (Pos.compare_spec m1 m2); split; try done; lia.
Qed.

Lemma f_ltb_neg m1 e1 m2 e2 :
  f_ltb (S754_finite true m1 e1) (S754_finite true m2 e2) = true <-> mag_lt m2 e2 m1 e1.
Proof.
  unfold mag_lt, f_ltb, SFltb. cbn. change (Pos.compare_cont Eq m1 m2) with (m1 ?= m2)%positive.
  destruct (Z.compare_spec e1 e2) as [->|?|?]; [|split; [done|lia]|split; [lia|done]].
  destruct (Pos.compare_spec m1 m2); cbn; split; try done; lia.
Qed.

Ltac float_cases :=
  repeat match goal with
  | x : float |- _ =>
      lazymatch goal with |- context [x] => destruct x as [[]|[]| |[] ? ?] | _ => fail end
  end.

Lemma f_ltb_trans x y z : f_ltb x y = true -> f_ltb y z = true -> f_ltb x z = true.
Proof.
  float_cases; try done; rewrite ?f_ltb_pos, ?f_ltb_neg; unfold mag_lt; try done; lia.
Qed.

Lemma f_ltb_irrefl x : f_ltb x x = false.
Proof.
  apply not_true_is_false. float_cases; try done; rewrite ?f_ltb_pos, ?f_ltb_neg; unfold mag_lt; lia.
Qed.

Lemma f_ltb_asym x y : f_ltb x y = true -> f_ltb y x = false.
Proof.
  intros H. apply not_true_is_false. intros H'. pose proof (f_ltb_trans _ _ _ H H') as E.
  by rewrite f_ltb_irrefl in E.
Qed.

(** Among non-NaN values, "not less" composes. *)
Lemma f_ltb_neg_trans x y z : f_isnan x = false -> f_isnan y = false -> f_isnan z = false ->
  f_ltb x y = false -> f_ltb y z = false -> f_ltb x z = false.
Proof.
  rewrite <- !not_true_iff_false. float_cases; try done;
    rewrite ?f_ltb_pos, ?f_ltb_neg; unfold mag_lt; try done; try (by intuition); lia.
Qed.

(** Equality as C++ has it: the same value, or two zeros. *)
Lemma f_eqb_eq x y : f_eqb x y = true -> x = y \/ exists s s', x = S754_zero s /\ y = S754_zero s'.
Proof.
  unfold f_eqb, SFeqb, SFcompare.
  destruct x as [s|[]| |[] m e], y as [s'|[]| |[] m' e']; try done; try (by eauto);
    destruct (Z.compare_spec e e') as [->| |]; try done;
    change (Pos.compare_cont Eq m m') with (m ?= m')%positive;
    destruct (Pos.compare_spec m m') as [->| |]; try done; by left.
Qed.

Lemma f_eqb_refl x : f_isnan x = false -> f_eqb x x = true.
Proof.
  unfold f_eqb, SFeqb, SFcompare. destruct x as [s|[]| |[] m e]; try done; intros _;
    rewrite Z.compare_refl; change (Pos.compare_cont Eq m m) with (m ?= m)%positive; by rewrite Pos.compare_refl.
Qed.

Lemma f_eqb_ltb_l x y z : f_eqb x y = true -> f_ltb x z = f_ltb y z.
Proof. intros [->|(s & s' & -> & ->)]%f_eqb_eq; [done|]. by destruct z as [[]|[]| |[] m e]. Qed.

Lemma f_eqb_ltb_r x y z : f_eqb x y = true -> f_ltb z x = f_ltb z y.
Proof. intros [->|(s & s' & -> & ->)]%f_eqb_eq; [done|]. by destruct z as [[]|[]| |[] m e]. Qed.

Lemma f_eqb_sym x y : f_eqb x y = true -> f_eqb y x = true.
Proof.
  intros H. pose proof H as [->|(s & s' & -> & ->)]%f_eqb_eq; [done|by destruct s, s'].
Qed.

Lemma f_eqb_trans x y z : f_eqb x y = true -> f_eqb y z = true -> f_eqb x z = true.
Proof.
  intros H H'. pose proof H as [->|(s & s' & -> & ->)]%f_eqb_eq; [done|].
  pose proof H' as [<-|(s2 & s3 & _ & ->)]%f_eqb_eq; [by destruct s, s'|by destruct s, s3].
Qed.

Lemma f_trichotomy x y : f_isnan x = false -> f_isnan y = false ->
  f_ltb x y = true \/ f_eqb x y = true \/ f_ltb y x = true.
Proof.
  unfold f_eqb, f_ltb, SFeqb, SFltb, SFcompare.
  destruct x as [s|[]| |[] m e], y as [s'|[]| |[] m' e']; try done; try (by eauto); intros _ _;
    rewrite (Z.compare_antisym e' e); destruct (e' ?= e); cbn; try (by eauto);
    change (Pos.compare_cont Eq m m') with (m ?= m')%positive;
    change (Pos.compare_cont Eq m' m) with (m' ?= m)%positive;
    rewrite (Pos.compare_antisym m' m); destruct (m' ?= m)%positive; cbn; eauto.
Qed.

Lemma f_ltb_nan x y : f_ltb x y = true -> f_isnan x = false /\ f_isnan y = false.
Proof. by destruct x as [s|[]| |[] m e], y as [s'|[]| |[] m' e']. Qed.

Lemma f_eqb_not_ltb x y : f_eqb x y = true -> f_ltb x y = false.
Proof. intros H. rewrite (f_eqb_ltb_l _ _ _ H). apply f_ltb_irrefl. Qed.

(** The number of binary digits of a mantissa. *)
Lemma digits2_pos_bounds p : 2 ^ (Zpos (digits2_pos p) - 1) <= Zpos p < 2 ^ Zpos (digits2_pos p).
Proof.
  induction p as [p IH|p IH|]; cbn [digits2_pos]; [| |cbn; lia];
    rewrite Pos2Z.inj_succ; unfold Z.succ; rewrite Z.add_simpl_r, Z.pow_add_r by lia;
    replace (Zpos (digits2_pos p)) with (Zpos (digits2_pos p) - 1 + 1) by lia;
    rewrite Z.pow_add_r by lia;
    replace (Zpos (digits2_pos p)) with (Zpos (digits2_pos p) - 1 + 1) in IH at 2 by lia;
    rewrite Z.pow_add_r in IH by lia; lia.
Qed.
