(* ===== verification/FloatRound.v ===== *)
(** Rounding in the float arithmetic of the standard library is monotone, for the 32-bit format.

    A float is read as a whole number of units [2^-200] ([ev]; the infinities stand at the first
    magnitude past the range), so that comparisons, sums and products are comparisons, sums and
    products of integers followed by one rounding function on integers ([rnd]). *)

From S2P Require Import Prelude Floats.

(** ** Rounding integers *)

(** The multiple of [2^t] nearest to [v], in those units, ties to even. *)
Definition rne (v t : Z) : Z :=
  let q := v / 2 ^ t in let r := v mod 2 ^ t in
  if 2 * r <? 2 ^ t then q else if 2 ^ t <? 2 * r then q + 1 else if Z.even q then q else q + 1.

Lemma rne_bounds v t : 0 <= t -> v / 2 ^ t <= rne v t <= v / 2 ^ t + 1.
Proof. intros Ht. unfold rne. repeat case_match; lia. Qed.

Lemma rne_mono v v' t : 0 <= t -> v <= v' -> rne v t <= rne v' t.
Proof.
  intros Ht Hv. pose proof (Z.pow_pos_nonneg 2 t ltac:(lia) Ht) as Hp.
  pose proof (Z.div_le_mono v v' (2 ^ t) Hp Hv) as Hq. pose proof (rne_bounds v t Ht). pose proof (rne_bounds v' t Ht).
  destruct (decide (v / 2 ^ t = v' / 2 ^ t)) as [E|E]; [|lia].
  pose proof (Z.div_mod v (2 ^ t) ltac:(lia)). pose proof (Z.div_mod v' (2 ^ t) ltac:(lia)).
  assert (Hr : v mod 2 ^ t <= v' mod 2 ^ t) by nia. unfold rne. rewrite <- E.
  repeat (case_match; try lia); rewrite ?Z.ltb_lt, ?Z.ltb_ge in *; lia.
Qed.

Lemma rne_exact n t : 0 <= t -> rne (n * 2 ^ t) t = n.
Proof.
  intros Ht. pose proof (Z.pow_pos_nonneg 2 t ltac:(lia) Ht). unfold rne.
  rewrite Z.div_mul, Z.mod_mul by lia. by rewrite (proj2 (Z.ltb_lt _ _)) by lia.
Qed.

Lemma rne_scale x n a : 0 <= n -> 0 <= a -> rne (x * 2 ^ a) (n + a) = rne x n.
Proof.
  intros Hn Ha. pose proof (Z.pow_pos_nonneg 2 n ltac:(lia) Hn). pose proof (Z.pow_pos_nonneg 2 a ltac:(lia) Ha).
  unfold rne. rewrite Z.pow_add_r by lia. rewrite Z.div_mul_cancel_r, Z.mul_mod_distr_r by lia.
  replace (2 * (x mod 2 ^ n * 2 ^ a) <? 2 ^ n * 2 ^ a) with (2 * (x mod 2 ^ n) <? 2 ^ n)
    by (apply eq_iff_eq_true; rewrite !Z.ltb_lt; nia).
  replace (2 ^ n * 2 ^ a <? 2 * (x mod 2 ^ n * 2 ^ a)) with (2 ^ n <? 2 * (x mod 2 ^ n))
    by (apply eq_iff_eq_true; rewrite !Z.ltb_lt; nia).
  done.
Qed.

(** Units below the smallest subnormal's last place. *)
Definition kScale : Z := 200.
Definition kUlpMin : Z := 51.
Definition last_place (v : Z) : Z := Z.max (Z.log2 v - 23) kUlpMin.
(** [v] with 24 significant bits, or to the smallest last place. *)
Definition rnd (v : Z) : Z := rne v (last_place v) * 2 ^ last_place v.

Lemma rnd_le_pow v n : 0 <= v < 2 ^ n -> last_place v <= n -> rnd v <= 2 ^ n.
Proof.
  intros Hv Hn. assert (Ht : 0 <= last_place v) by (unfold last_place, kUlpMin; lia). unfold rnd.
  replace n with (n - last_place v + last_place v) in * by lia. rewrite Z.pow_add_r in * by lia.
  apply Z.mul_le_mono_nonneg_r; [apply Z.pow_nonneg; lia|].
  rewrite <- (rne_exact (2 ^ (n - last_place v)) (last_place v)) by lia. apply rne_mono; lia.
Qed.
Lemma rnd_ge_pow v n : 2 ^ n <= v -> last_place v <= n -> 2 ^ n <= rnd v.
Proof.
  intros Hv Hn. assert (Ht : 0 <= last_place v) by (unfold last_place, kUlpMin; lia). unfold rnd.
  replace n with (n - last_place v + last_place v) in * by lia. rewrite Z.pow_add_r in * by lia.
  apply Z.mul_le_mono_nonneg_r; [apply Z.pow_nonneg; lia|].
  rewrite <- (rne_exact (2 ^ (n - last_place v)) (last_place v)) at 1 by lia. apply rne_mono; lia.
Qed.

Lemma rnd_mono v v' : 0 <= v <= v' -> rnd v <= rnd v'.
Proof.
  intros [H0 Hv]. assert (Hl : Z.log2 v <= Z.log2 v') by (by apply Z.log2_le_mono).
  destruct (decide (last_place v = last_place v')) as [E|Hne].
  - unfold rnd. rewrite E. apply Z.mul_le_mono_nonneg_r; [apply Z.pow_nonneg; lia|]. apply rne_mono; [unfold last_place, kUlpMin; lia|done].
  - assert (Hlt : Z.log2 v < Z.log2 v' /\ kUlpMin < Z.log2 v' - 23) by (unfold last_place in Hne; lia).
    assert (H1 : 0 < v') by (destruct (decide (v' <= 0)); [|lia]; rewrite (Z.log2_nonpos v') in Hlt by lia; pose proof (Z.log2_nonneg v); lia).
    etransitivity; [apply (rnd_le_pow v (Z.log2 v'))|apply rnd_ge_pow].
    + split; [done|]. destruct (decide (v = 0)) as [->|]; [apply Z.pow_pos_nonneg; unfold kUlpMin in *; lia|].
      pose proof (Z.log2_spec v ltac:(lia)). pose proof (Z.pow_le_mono_r 2 (Z.succ (Z.log2 v)) (Z.log2 v') ltac:(lia) ltac:(lia)). lia.
    + unfold last_place. lia.
    + by apply Z.log2_spec.
    + unfold last_place. lia.
Qed.

Lemma rnd_nonneg v : 0 <= v -> 0 <= rnd v.
Proof. intros Hv. pose proof (rnd_mono 0 v ltac:(lia)) as H. etransitivity; [|exact H]. by vm_compute. Qed.

(** ** The shifts of the specification *)

Lemma iter_pos_nat {A} (f : A -> A) p x : iter_pos f p x = Nat.iter (Pos.to_nat p) f x.
Proof.
  revert x. induction p as [p IH|p IH|]; intros x; cbn [iter_pos].
  - rewrite !IH. rewrite Pos2Nat.inj_xI. replace (S (2 * Pos.to_nat p)) with (Pos.to_nat p + (Pos.to_nat p + 1))%nat by lia.
    by rewrite !Nat.iter_add.
  - rewrite !IH. rewrite Pos2Nat.inj_xO. replace (2 * Pos.to_nat p)%nat with (Pos.to_nat p + Pos.to_nat p)%nat by lia. by rewrite Nat.iter_add.
  - done.
Qed.
Lemma shr_1_spec m r s : 0 <= m -> shr_1 (Build_shr_record m r s) = Build_shr_record (m / 2) (Z.odd m) (r || s).
Proof. intros Hm. rewrite <- Z.div2_div. by destruct m as [|[]|]; [..|lia]. Qed.

(** What [k] shifts leave of [x]: the quotient, and the remainder as a round and a sticky bit. *)
Definition shifted (x : Z) (k : nat) (mrs : shr_record) : Prop :=
  0 <= shr_m mrs /\ exists rem sticky, x = shr_m mrs * 2 ^ Z.of_nat k + rem /\ 0 <= rem < 2 ^ Z.of_nat k /\
    2 * rem = (if shr_r mrs then 2 ^ Z.of_nat k else 0) + sticky /\ 0 <= sticky < 2 ^ Z.of_nat k /\ shr_s mrs = negb (sticky =? 0).

Lemma shifted_start x : 0 <= x -> shifted x 0 (Build_shr_record x false false).
Proof. intros Hx. split; [done|]. exists 0, 0. cbn. lia. Qed.
Lemma shifted_step x k mrs : shifted x k mrs -> shifted x (S k) (shr_1 mrs).
Proof.
  intros (Hm & rem & st & Hx & Hr & H2 & Hst & Hs). destruct mrs as [m r s]. cbn [shr_m shr_r shr_s] in *. rewrite shr_1_spec by done.
  assert (Hp : 2 ^ Z.of_nat (S k) = 2 * 2 ^ Z.of_nat k) by (rewrite Nat2Z.inj_succ, Z.pow_succ_r; lia).
  split; cbn [shr_m shr_r shr_s]; [by apply Z.div_pos|].
  pose proof (Z.div_mod m 2 ltac:(lia)) as Hd. rewrite Zmod_odd in Hd.
  exists (rem + (if Z.odd m then 1 else 0) * 2 ^ Z.of_nat k), (2 * rem). rewrite Hp. split_and!; try (destruct (Z.odd m); nia).
  rewrite Hs. destruct r; cbn [orb].
  - destruct (Z.eqb_spec (2 * rem) 0); [lia|done].
  - destruct (Z.eqb_spec st 0), (Z.eqb_spec (2 * rem) 0); (done || lia).
Qed.
Lemma shifted_iter x k : 0 <= x -> shifted x k (Nat.iter k shr_1 (Build_shr_record x false false)).
Proof. intros Hx. induction k as [|k IH]; [by apply shifted_start|]. by apply shifted_step. Qed.

Lemma shifted_round x k mrs : 0 <= x -> shifted x k mrs ->
  round_nearest_even (shr_m mrs) (loc_of_shr_record mrs) = rne x (Z.of_nat k).
Proof.
  intros Hx0 (Hm & rem & st & Hx & Hr & H2 & Hst & Hs). destruct mrs as [m r s]. cbn [shr_m shr_r shr_s] in *.
  assert (Hq : x / 2 ^ Z.of_nat k = m) by (symmetry; apply (Z.div_unique x (2 ^ Z.of_nat k) m rem); [by left|lia]).
  assert (Hre : x mod 2 ^ Z.of_nat k = rem) by (rewrite Z.mod_eq by lia; rewrite Hq; lia).
  unfold rne. rewrite Hq, Hre, H2. destruct (Z.eqb_spec st 0) as [->|Hne]; subst s.
  - destruct r; cbn [negb loc_of_shr_record round_nearest_even]; rewrite Z.add_0_r.
    + by rewrite Z.ltb_irrefl.
    + by rewrite (proj2 (Z.ltb_lt _ _)) by lia.
  - destruct r; cbn [negb loc_of_shr_record round_nearest_even].
    + by rewrite (proj2 (Z.ltb_ge _ _)), (proj2 (Z.ltb_lt _ _)) by lia.
    + by rewrite (proj2 (Z.ltb_lt _ _)) by lia.
Qed.

(** A shift by [n] from exactness, and the rounding after it. *)
Lemma shr_round x e n : 0 <= x -> 0 <= n ->
  let '(mrs, e') := shr (Build_shr_record x false false) e n in
  e' = e + n /\ round_nearest_even (shr_m mrs) (loc_of_shr_record mrs) = rne x n.
Proof.
  intros Hx Hn. destruct n as [|n|n]; [| |lia]; cbn [shr].
  - split; [lia|]. pose proof (rne_exact x 0 ltac:(lia)) as E. rewrite Z.pow_0_r, Z.mul_1_r in E. by rewrite E.
  - split; [done|]. rewrite iter_pos_nat. rewrite <- (positive_nat_Z n). apply shifted_round, shifted_iter; lia.
Qed.

(** ** Floats as whole numbers of units *)

Definition kInf : Z := 2 ^ (128 + kScale).
Definition neg_if (s : bool) (v : Z) : Z := if s then - v else v.
Definition ev (x : float) : Z :=
  match x with
  | S754_zero _ | S754_nan => 0
  | S754_infinity s => neg_if s kInf
  | S754_finite s m e => neg_if s (Zpos m * 2 ^ (e + kScale))
  end.
(** A number the 32-bit format has. *)
Definition number32 (x : float) : Prop := valid_binary 24 128 x = true /\ f_isnan x = false.

Lemma digits_log2 p : Zpos (digits2_pos p) = Z.log2 (Zpos p) + 1.
Proof.
  pose proof (digits2_pos_bounds p) as H. rewrite (Z.log2_unique (Zpos p) (Zpos (digits2_pos p) - 1)); [lia|lia|].
  by replace (Z.succ (Zpos (digits2_pos p) - 1)) with (Zpos (digits2_pos p)) by lia.
Qed.
Lemma fexp_max x : fexp 24 128 x = Z.max (x - 24) (-149).
Proof. done. Qed.
Lemma bounded_iff m e : bounded 24 128 m e = true <-> -149 <= e <= 104 /\ Zpos m < 2 ^ 24 /\ (-149 < e -> 2 ^ 23 <= Zpos m).
Proof.
  unfold bounded, canonical_mantissa. rewrite fexp_max, digits_log2, andb_true_iff, Z.leb_le.
  rewrite Z.eqb_eq. pose proof (Z.log2_spec (Zpos m) ltac:(lia)) as Hm. pose proof (Z.log2_nonneg (Zpos m)).
  split.
  - intros [H1 H2]. split; [lia|]. split.
    + pose proof (Z.pow_le_mono_r 2 (Z.succ (Z.log2 (Zpos m))) 24 ltac:(lia) ltac:(lia)). lia.
    + intros He. pose proof (Z.pow_le_mono_r 2 23 (Z.log2 (Zpos m)) ltac:(lia) ltac:(lia)). lia.
  - intros (H1 & H2 & H3). split; [|lia]. assert (Z.log2 (Zpos m) <= 23) by (enough (Z.log2 (Zpos m) < 24) by lia; apply Z.log2_lt_pow2; lia).
    destruct (decide (e = -149)); [lia|]. specialize (H3 ltac:(lia)). apply Z.log2_le_pow2 in H3; lia.
Qed.
Lemma finite_below m e : bounded 24 128 m e = true -> 0 < Zpos m * 2 ^ (e + kScale) < kInf.
Proof.
  intros (He & Hm & _)%bounded_iff. unfold kInf, kScale in *. pose proof (Z.pow_pos_nonneg 2 (e + 200) ltac:(lia) ltac:(lia)). split; [nia|].
  change (2 ^ (128 + 200)) with (2 ^ 24 * 2 ^ (104 + 200)). pose proof (Z.pow_le_mono_r 2 (e + 200) (104 + 200) ltac:(lia) ltac:(lia)). nia.
Qed.

Lemma shr_none mrs e n : n <= 0 -> shr mrs e n = (mrs, e).
Proof. by destruct n. Qed.

(** The mantissa after rounding, brought back to 24 digits. *)
Lemma renormalized q te : 0 <= q <= 2 ^ 24 -> -149 <= te -> (-149 < te -> 2 ^ 23 <= q) ->
  let '(mrs, e) := shr_fexp 24 128 q te loc_Exact in
  (q = 0 /\ shr_m mrs = 0) \/
  exists p, shr_m mrs = Zpos p /\ te <= e /\ Zpos p * 2 ^ (e + kScale) = q * 2 ^ (te + kScale) /\ Zpos p < 2 ^ 24 /\ (-149 < e -> 2 ^ 23 <= Zpos p).
Proof.
  intros Hq Hte Hn. unfold shr_fexp. cbn [shr_record_of_loc]. rewrite fexp_max. destruct (decide (q = 2 ^ 24)) as [->|Hne].
  - change (Zdigits2 (2 ^ 24)) with 25. replace (Z.max (25 + te - 24) (-149) - te) with 1 by lia. cbn [shr iter_pos].
    change (shr_1 (Build_shr_record (2 ^ 24) false false)) with (Build_shr_record 8388608 false false). right.
    exists 8388608%positive. split; [done|]. split; [lia|]. unfold kScale. split; [|lia].
    replace (te + 1 + 200) with (1 + (te + 200)) by lia. rewrite (Z.pow_add_r 2 1) by lia. lia.
  - destruct q as [|p|p]; [| |lia].
    + cbn [Zdigits2]. rewrite shr_none by lia. by left.
    + assert (Z.log2 (Zpos p) <= 23) by (enough (Z.log2 (Zpos p) < 24) by lia; apply Z.log2_lt_pow2; lia).
      change (Zdigits2 (Zpos p)) with (Zpos (digits2_pos p)). rewrite digits_log2, shr_none by lia. right. exists p. split; [done|]. split; [lia|]. split; [done|].
      split; [lia|exact Hn].
Qed.

(** A mantissa with digits to spare rounds to the number its value rounds to. *)
Lemma round_aux_spec s m e : - kScale <= e -> e <= fexp 24 128 (Zpos (digits2_pos m) + e) ->
  let r := binary_round_aux 24 128 s (Zpos m) e loc_Exact in
  number32 r /\ ev r = neg_if s (Z.min (rnd (Zpos m * 2 ^ (e + kScale))) kInf).
Proof.
  intros He Hf. rewrite fexp_max, digits_log2 in Hf. set (d := Z.log2 (Zpos m) + 1) in *. set (te := Z.max (d + e - 24) (-149)) in *.
  set (v := Zpos m * 2 ^ (e + kScale)). pose proof (Z.log2_spec (Zpos m) ltac:(lia)) as Hm. pose proof (Z.log2_nonneg (Zpos m)).
  assert (Hlp : last_place v = te + kScale).
  { unfold last_place, v. rewrite Z.log2_mul_pow2 by (unfold kScale in *; lia). unfold kUlpMin, kScale, te, d in *. lia. }
  assert (Hr : rnd v = rne (Zpos m) (te - e) * 2 ^ (te + kScale)).
  { unfold rnd. rewrite Hlp. f_equal. unfold v. replace (te + kScale) with (te - e + (e + kScale)) by lia. apply rne_scale; unfold kScale in *; lia. }
  assert (Hq : 0 <= rne (Zpos m) (te - e) <= 2 ^ 24 /\ (-149 < te -> 2 ^ 23 <= rne (Zpos m) (te - e))).
  { assert (Hn : 0 <= te - e) by lia. split; [split|].
    - rewrite <- (rne_exact 0 (te - e)) by lia. apply rne_mono; lia.
    - rewrite <- (rne_exact (2 ^ 24) (te - e)) by lia. apply rne_mono; [lia|]. rewrite <- Z.pow_add_r by lia.
      pose proof (Z.pow_le_mono_r 2 (Z.succ (Z.log2 (Zpos m))) (24 + (te - e)) ltac:(lia) ltac:(unfold te, d; lia)). lia.
    - intros Hte. rewrite <- (rne_exact (2 ^ 23) (te - e)) by lia. apply rne_mono; [lia|]. rewrite <- Z.pow_add_r by lia.
      replace (23 + (te - e)) with (Z.log2 (Zpos m)) by (unfold te, d in *; lia). lia. }
  assert (E : binary_round_aux 24 128 s (Zpos m) e loc_Exact =
    let '(mrs, e2) := shr_fexp 24 128 (rne (Zpos m) (te - e)) te loc_Exact in
    match shr_m mrs with
    | Z0 => S754_zero s
    | Zpos p => if e2 <=? 128 - 24 then S754_finite s p e2 else S754_infinity s
    | Zneg _ => S754_nan
    end).
  { unfold binary_round_aux, shr_fexp at 1. cbn [shr_record_of_loc]. rewrite fexp_max. change (Zdigits2 (Zpos m)) with (Zpos (digits2_pos m)).
    rewrite digits_log2. fold d. fold te. pose proof (shr_round (Zpos m) e (te - e) ltac:(lia) ltac:(lia)) as Hs.
    destruct (shr _ e (te - e)) as [mrs e']. destruct Hs as [-> ->]. by replace (e + (te - e)) with te by lia. }
  rewrite E. clear E.
  set (q := rne (Zpos m) (te - e)) in *. pose proof (renormalized q te ltac:(lia) ltac:(unfold te; lia) ltac:(lia)) as Hn.
  rewrite Hr. destruct (shr_fexp 24 128 q te loc_Exact) as [mrs2 e2].
  assert (Hinf : 0 < kInf) by (by vm_compute). destruct Hn as [(-> & ->)|(p & -> & Hte & Hv & Hp & Hp2)].
  - split; [done|]. cbn [ev]. rewrite Z.mul_0_l, Z.min_l by lia. by destruct s.
  - rewrite <- Hv. destruct (Z.leb_spec e2 (128 - 24)) as [H2|H2].
    + assert (Hb : bounded 24 128 p e2 = true) by (apply bounded_iff; unfold te in *; split_and!; (lia || done)).
      split; [by split|]. cbn [ev]. f_equal. pose proof (finite_below p e2 Hb). lia.
    + split; [by split|]. cbn [ev]. f_equal. symmetry. apply Z.min_r. specialize (Hp2 ltac:(lia)). unfold kInf, kScale in *.
      pose proof (Z.pow_le_mono_r 2 (105 + 200) (e2 + 200) ltac:(lia) ltac:(lia)). change (2 ^ (128 + 200)) with (2 ^ 23 * 2 ^ (105 + 200)). nia.
Qed.

Lemma shl_value m d : Zpos (Pos.iter xO m d) = Zpos m * 2 ^ Zpos d.
Proof.
  revert m. induction d as [|d IH] using Pos.peano_ind; intros m; [cbn; lia|].
  rewrite Pos.iter_succ. rewrite Pos2Z.inj_xO, IH, Pos2Z.inj_succ, Z.pow_succ_r by lia. lia.
Qed.
Lemma align_spec m e e' : let '(m', e1) := shl_align m e e' in
  e1 = Z.min e e' /\ Zpos m' = Zpos m * 2 ^ (e - Z.min e e').
Proof.
  unfold shl_align. destruct (e' - e) as [|p|p] eqn:E.
  - split; [lia|]. replace (e - Z.min e e') with 0 by lia. lia.
  - split; [lia|]. replace (e - Z.min e e') with 0 by lia. lia.
  - split; [lia|]. rewrite shl_value. do 2 f_equal. lia.
Qed.

Lemma round_spec s m e : - kScale <= e ->
  let r := binary_round 24 128 s m e in number32 r /\ ev r = neg_if s (Z.min (rnd (Zpos m * 2 ^ (e + kScale))) kInf).
Proof.
  intros He. unfold binary_round. rewrite fexp_max, digits_log2. set (te := Z.max _ _). pose proof (align_spec m e te) as Ha.
  destruct (shl_align m e te) as [m' e1]. destruct Ha as [-> Hm]. pose proof (Z.log2_nonneg (Zpos m)).
  assert (Hv : Zpos m' * 2 ^ (Z.min e te + kScale) = Zpos m * 2 ^ (e + kScale)).
  { rewrite Hm, <- Z.mul_assoc, <- Z.pow_add_r by (unfold te, kScale in *; lia). do 2 f_equal. lia. }
  rewrite <- Hv. apply round_aux_spec; [unfold te, kScale in *; lia|].
  rewrite fexp_max, digits_log2, Hm, Z.log2_mul_pow2 by (unfold te, kScale in *; lia). unfold te in *. lia.
Qed.

(** The rounding of a signed value. *)
Definition rounded (v : Z) : Z := if v <? 0 then - Z.min (rnd (- v)) kInf else Z.min (rnd v) kInf.
Lemma rounded_mono v v' : v <= v' -> rounded v <= rounded v'.
Proof.
  intros Hv. assert (0 < kInf) by (by vm_compute). unfold rounded. destruct (Z.ltb_spec v 0), (Z.ltb_spec v' 0); try lia.
  - pose proof (rnd_mono (- v') (- v) ltac:(lia)). lia.
  - pose proof (rnd_nonneg (- v) ltac:(lia)). pose proof (rnd_nonneg v' ltac:(lia)). lia.
  - pose proof (rnd_mono v v' ltac:(lia)). lia.
Qed.

Lemma normalize_spec m e sz : - kScale <= e ->
  let r := binary_normalize 24 128 m e sz in number32 r /\ ev r = rounded (m * 2 ^ (e + kScale)).
Proof.
  intros He. pose proof (Z.pow_pos_nonneg 2 (e + kScale) ltac:(lia) ltac:(lia)) as Hp. destruct m as [|m|m]; cbn [binary_normalize].
  - split; [done|]. by vm_compute.
  - destruct (round_spec false m e He) as [H1 ->]. split; [done|]. unfold rounded. by rewrite (proj2 (Z.ltb_ge _ _)) by lia.
  - destruct (round_spec true m e He) as [H1 ->]. split; [done|]. unfold rounded. rewrite (proj2 (Z.ltb_lt _ _)) by nia.
    cbn [neg_if]. do 3 f_equal. lia.
Qed.

(** ** The order is the order of the values *)

Lemma ev_range x : number32 x -> - kInf <= ev x <= kInf /\ (f_isfinite x = true -> - kInf < ev x < kInf).
Proof.
  intros [Hx _]. assert (0 < kInf) by (by vm_compute). destruct x as [s|s| |s m e]; cbn [ev]; try (destruct s; cbn; lia); [cbn; lia|].
  pose proof (finite_below m e Hx). destruct s; cbn [neg_if f_isfinite]; lia.
Qed.

Lemma mag_lt_value m1 e1 m2 e2 : bounded 24 128 m1 e1 = true -> bounded 24 128 m2 e2 = true ->
  mag_lt m1 e1 m2 e2 <-> Zpos m1 * 2 ^ (e1 + kScale) < Zpos m2 * 2 ^ (e2 + kScale).
Proof.
  assert (Hlt : forall m1 e1 m2 e2, bounded 24 128 m1 e1 = true -> bounded 24 128 m2 e2 = true -> e1 < e2 ->
    Zpos m1 * 2 ^ (e1 + kScale) < Zpos m2 * 2 ^ (e2 + kScale)).
  { clear. intros m1 e1 m2 e2 (H1 & H2 & _)%bounded_iff (H3 & _ & H5)%bounded_iff He. specialize (H5 ltac:(lia)). unfold kScale.
    replace (e2 + 200) with (e2 - e1 - 1 + (1 + (e1 + 200))) by lia. rewrite (Z.pow_add_r 2 (e2 - e1 - 1)), (Z.pow_add_r 2 1) by lia.
    pose proof (Z.pow_pos_nonneg 2 (e1 + 200) ltac:(lia) ltac:(lia)). pose proof (Z.pow_pos_nonneg 2 (e2 - e1 - 1) ltac:(lia) ltac:(lia)).
    set (b := 2 ^ (e1 + 200)) in *. set (d := 2 ^ (e2 - e1 - 1)) in *. change (2 ^ 1) with 2.
    assert (Zpos m1 * b < Zpos m2 * (2 * b)) by nia. assert (Zpos m2 * (2 * b) * 1 <= Zpos m2 * (2 * b) * d) by (apply Z.mul_le_mono_nonneg_l; lia). lia. }
  intros Hb1 Hb2. unfold mag_lt. pose proof Hb1 as (H1 & _)%bounded_iff.
  destruct (Z.lt_trichotomy e1 e2) as [H|[->|H]].
  - split; [intros _; by apply Hlt|auto].
  - pose proof (Z.pow_pos_nonneg 2 (e2 + kScale) ltac:(lia) ltac:(unfold kScale; lia)). split; [intros [|[_ ?]]; nia|]. right. split; [done|nia].
  - pose proof (Hlt m2 e2 m1 e1 Hb2 Hb1 H). split; lia.
Qed.

Lemma ltb_ev x y : number32 x -> number32 y -> f_ltb x y = true <-> ev x < ev y.
Proof.
  intros [Hx Nx] [Hy Ny]. assert (0 < kInf) by (by vm_compute).
  destruct x as [sx|sx| |sx mx ex], y as [sy|sy| |sy my ey]; try done;
    try (pose proof (finite_below _ _ Hx)); try (pose proof (finite_below _ _ Hy));
    try (destruct sx; cbn [ev neg_if]); try (destruct sy; cbn [ev neg_if]); try (split; (done || lia)).
  - rewrite f_ltb_neg, (mag_lt_value _ _ _ _ Hy Hx). lia.
  - rewrite f_ltb_pos. by apply mag_lt_value.
Qed.

(** ** Differences and products *)

Lemma rnd_exact m e : bounded 24 128 m e = true -> Z.min (rnd (Zpos m * 2 ^ (e + kScale))) kInf = Zpos m * 2 ^ (e + kScale).
Proof.
  intros Hb. pose proof (finite_below m e Hb). apply bounded_iff in Hb as (He & Hm & _). set (v := Zpos m * 2 ^ (e + kScale)) in *.
  assert (Hl : kUlpMin <= last_place v <= e + kScale).
  { unfold last_place, v. rewrite Z.log2_mul_pow2 by (unfold kScale; lia).
    assert (Z.log2 (Zpos m) < 24) by (apply Z.log2_lt_pow2; lia). unfold kUlpMin, kScale in *. lia. }
  assert (Hr : rnd v = v); [|lia]. unfold rnd, v at 1. replace (e + kScale) with (e + kScale - last_place v + last_place v) by lia.
  unfold kUlpMin in Hl. rewrite Z.pow_add_r, Z.mul_assoc, rne_exact, <- Z.mul_assoc, <- Z.pow_add_r by lia. unfold v. do 2 f_equal. fold v. lia.
Qed.
Lemma rounded_exact x : number32 x -> rounded (ev x) = ev x.
Proof.
  intros [Hx Hn]. destruct x as [s|[]| |[] m e]; try done; cbn [ev neg_if]; unfold rounded;
    pose proof (finite_below m e Hx); pose proof (rnd_exact m e Hx).
  - rewrite (proj2 (Z.ltb_lt _ _)) by lia. rewrite Z.opp_involutive. lia.
  - by rewrite (proj2 (Z.ltb_ge _ _)) by lia.
Qed.

Definition within (x : float) : bool := match x with S754_zero _ | S754_finite _ _ _ => true | _ => false end.

Lemma cond_opp_align s m e e' : - kScale <= Z.min e e' ->
  cond_Zopp s (Zpos (shl_align m e (Z.min e e')).1) * 2 ^ (Z.min e e' + kScale) = neg_if s (Zpos m * 2 ^ (e + kScale)).
Proof.
  intros He. pose proof (align_spec m e (Z.min e e')) as Ha. destruct (shl_align m e (Z.min e e')) as [m' e1]. cbn [fst]. destruct Ha as [_ ->].
  rewrite (Z.min_r e) by lia. assert (Hv : Zpos m * 2 ^ (e - Z.min e e') * 2 ^ (Z.min e e' + kScale) = Zpos m * 2 ^ (e + kScale)).
  { rewrite <- Z.mul_assoc, <- Z.pow_add_r by lia. do 2 f_equal. lia. }
  destruct s; cbn [cond_Zopp neg_if]; [by rewrite Z.mul_opp_l, Hv|done].
Qed.

Lemma sub_spec x y : number32 x -> number32 y -> within x = true -> within y = true ->
  number32 (f32_sub x y) /\ ev (f32_sub x y) = rounded (ev x - ev y).
Proof.
  intros Hx Hy Wx Wy. destruct x as [sx|sx| |sx mx ex], y as [sy|sy| |sy my ey]; try done; unfold f32_sub; cbn [SFsub].
  - split; [by destruct sx, sy|]. cbn [ev]. rewrite Z.sub_0_r. by destruct sx, sy; vm_compute.
  - assert (Hn : number32 (S754_finite (negb sy) my ey)) by (by destruct Hy). split; [done|].
    symmetry. etransitivity; [|by apply rounded_exact]. f_equal. destruct sy; cbn [ev neg_if negb]; lia.
  - split; [done|]. symmetry. etransitivity; [|by apply rounded_exact]. f_equal. cbn [ev]. lia.
  - destruct Hx as [Hx _], Hy as [Hy _]. pose proof Hx as (Hex & _)%bounded_iff. pose proof Hy as (Hey & _)%bounded_iff.
    assert (Hz : - kScale <= Z.min ex ey) by (unfold kScale; lia).
    destruct (normalize_spec (cond_Zopp sx (Zpos (fst (shl_align mx ex (Z.min ex ey)))) - cond_Zopp sy (Zpos (fst (shl_align my ey (Z.min ex ey)))))
      (Z.min ex ey) false Hz) as [H1 H2]. split; [exact H1|]. rewrite H2. f_equal. rewrite Z.mul_sub_distr_r. cbn [ev]. f_equal.
    + by apply cond_opp_align.
    + rewrite (Z.min_comm ex ey). apply cond_opp_align. lia.
Qed.

Definition sixteen : float := S754_finite false 8388608 (-19).
Lemma mul16_spec x : number32 x -> number32 (f32_mul x sixteen) /\ ev (f32_mul x sixteen) = rounded (ev x * 16).
Proof.
  intros [Hx Hn]. destruct x as [s|s| |s m e]; try done; unfold f32_mul, sixteen; cbn [SFmul].
  - destruct s; (split; [by split|by vm_compute]).
  - pose proof Hx as (He & Hm & _)%bounded_iff. pose proof (Z.log2_nonneg (Zpos m)).
    assert (Hd : Z.log2 (Zpos (m * 8388608)) = Z.log2 (Zpos m) + 23).
    { change (Zpos (m * 8388608)) with (Zpos m * 2 ^ 23). rewrite Z.log2_mul_pow2; lia. }
    destruct (round_aux_spec (xorb s false) (m * 8388608) (e + -19)) as [H1 H2]; [unfold kScale; lia|rewrite fexp_max, digits_log2, Hd; lia|].
    split; [exact H1|]. rewrite H2. pose proof (finite_below m e Hx).
    assert (Hv : Zpos (m * 8388608) * 2 ^ (e + -19 + kScale) = Zpos m * 2 ^ (e + kScale) * 16).
    { change (Zpos (m * 8388608)) with (Zpos m * 2 ^ 23). rewrite <- Z.mul_assoc, <- Z.pow_add_r by (unfold kScale; lia).
      replace (23 + (e + -19 + kScale)) with (e + kScale + 4) by lia. rewrite Z.pow_add_r by (unfold kScale; lia). lia. }
    rewrite Hv, xorb_false_r. cbn [ev]. unfold rounded. destruct s; cbn [neg_if].
    + rewrite (proj2 (Z.ltb_lt _ _)) by lia. do 3 f_equal. lia.
    + by rewrite (proj2 (Z.ltb_ge _ _)) by lia.
Qed.

(** The bin of a logit grows as the logit falls: a smaller difference to [m], times 16, is not
    at or past a bound the larger one is below. *)
Lemma difference_order m a b bound : number32 m -> number32 a -> number32 b -> number32 bound -> within bound = true -> f_ltb a b = false ->
  f_ltb (f32_mul (f32_sub m b) sixteen) bound = true -> f_ltb (f32_mul (f32_sub m a) sixteen) bound = true.
Proof.
  intros Hm Ha Hb Hbd Wbd Hab Hin.
  destruct (within m) eqn:Wm; [destruct (within a) eqn:Wa; [destruct (within b) eqn:Wb|]|].
  - destruct (sub_spec m a) as [Na Ea], (sub_spec m b) as [Nb Eb]; [done..|].
    destruct (mul16_spec _ Na) as [Ma Fa], (mul16_spec _ Nb) as [Mb Fb].
    apply ltb_ev in Hin; [|done..]. apply ltb_ev; [done..|]. rewrite Fb, Eb in Hin. rewrite Fa, Ea. eapply Z.le_lt_trans; [|exact Hin].
    apply rounded_mono, Z.mul_le_mono_nonneg_r; [lia|]. apply rounded_mono.
    assert (~ ev a < ev b) by (rewrite <- ltb_ev by done; by rewrite Hab). lia.
  - destruct Hb as [_ Nb]. destruct b as [|[]| |]; try done.
    + exfalso. revert Hin. destruct m as [|[]| |]; try done; by destruct bound as [|[]| |].
    + exfalso. revert Hab. by destruct a as [|[]| |[]].
  - destruct Ha as [_ Na]. destruct a as [|[]| |]; try done.
    + exfalso. destruct Hb as [_ Nb]. revert Hab Hin. destruct b as [|[]| |]; try done. intros _.
      destruct m as [|[]| |]; try done; by destruct bound as [|[]| |].
    + destruct m as [|[]| |]; try done; by destruct bound as [|[]| |].
  - destruct Hm as [_ Nm], Ha as [_ Na], Hb as [_ Nb]. destruct m as [|[]| |]; try done.
    + revert Hab Hin. destruct a as [|[]| |[]], b as [|[]| |[]]; try done; by destruct bound as [|[]| |].
    + exfalso. revert Hin. destruct b as [|[]| |]; try done; by destruct bound as [|[]| |].
Qed.
