(* ===== verification/Json.v ===== *)
(** The JSON reader and writer ([src/core/json.h], [json.cpp], [json_write.h]).

    Texts are lists of bytes ([ascii]).  Error messages and positions are dropped, so every
    syntax error is [Corrupt].  [value d] reads one value with [d] levels of nesting left;
    the loops over members carry the length of the text as fuel and answer [Internal] when
    it runs out, which no text makes happen ([json_parse_total] in [JsonProps]). *)

From Stdlib Require Import Ascii.
From S2P Require Import Prelude Floats.

Abbreviation text := (list ascii).
Definition to_text (s : string) : text := String.list_ascii_of_string s.
Definition of_text (t : text) : string := String.string_of_list_ascii t.
Definition byte_of (c : ascii) : Z := Z.of_N (N_of_ascii c).
Definition byte (b : Z) : ascii := ascii_of_N (Z.to_N b).

(** ** Values *)

(** A number keeps its text; a [JsonObject] is a [std::map], sorted by key. *)
Inductive JsonValue :=
| JNull
| JBool (b : bool)
| JNumber (d : float) (raw : text)
| JString (s : string)
| JArray (a : list JsonValue)
| JObject (o : list (string * JsonValue)).

(** [insert_or_assign] *)
Fixpoint obj_insert (k : string) (v : JsonValue) (o : list (string * JsonValue)) : list (string * JsonValue) :=
  match o with
  | [] => [(k, v)]
  | (k', v') :: o' =>
      if decide (k = k') then (k, v) :: o'
      else if String.ltb k k' then (k, v) :: o
      else (k', v') :: obj_insert k v o'
  end.

Definition find (v : JsonValue) (key : string) : option JsonValue :=
  match v with JObject o => (fun kv => kv.2.2) <$> list_find (fun kv => kv.1 = key) o | _ => None end.
Definition json_size (v : JsonValue) : nat :=
  match v with JArray a => length a | JObject o => length o | _ => 0 end.

(** ** Numbers *)

Definition is_digit (c : ascii) : bool := (48 <=? byte_of c) && (byte_of c <=? 57).
Definition digit_val (c : ascii) : Z := byte_of c - 48.
Definition is_char (c : ascii) (t : text) : bool := match t with x :: _ => bool_decide (x = c) | [] => false end.

(** The run of digits at the front. *)
Fixpoint digits (t : text) : text * text :=
  match t with
  | c :: t' => if is_digit c then let '(ds, r) := digits t' in (c :: ds, r) else ([], t)
  | [] => ([], [])
  end.
Definition digits_val (ds : text) : Z := foldl (fun n c => n * 10 + digit_val c) 0 ds.

Definition sign_text (t : text) : text * text :=
  match t with
  | c :: t' => if decide (c = "-"%char \/ c = "+"%char) then ([c], t') else ([], t)
  | [] => ([], [])
  end.

(** The parts of a number's text: sign, digits, fraction, exponent's sign and digits. *)
Record NumberText := mkNumberText {
  nt_sign : text; nt_int : text; nt_dot : text; nt_frac : text; nt_e : text; nt_esign : text; nt_exp : text }.
Definition raw_of (n : NumberText) : text :=
  nt_sign n ++ nt_int n ++ nt_dot n ++ nt_frac n ++ nt_e n ++ nt_esign n ++ nt_exp n.

Definition scan_number (t : text) : NumberText * text :=
  let '(sg, t) := sign_text t in
  let '(int, t) := digits t in
  let '(dot, t) := if is_char "." t then (["."%char], tail t) else ([], t) in
  let '(frac, t) := if bool_decide (dot = []) then ([], t) else digits t in
  let '(e, t) := if is_char "e" t || is_char "E" t then (take 1 t, tail t) else ([], t) in
  let '(esg, t) := if bool_decide (e = []) then ([], t) else sign_text t in
  let '(exp, t) := if bool_decide (e = []) then ([], t) else digits t in
  (mkNumberText sg int dot frac e esg exp, t).

(** The double nearest to [m * 10^e]: the quotient with at least two more bits than a double
    holds, and a sticky bit for what was cut off. *)
Definition f64_of_decimal (neg : bool) (m e : Z) : float :=
  let signed x := if neg then - x else x in
  if m =? 0 then S754_zero neg
  else if 0 <=? e then f64_lit (signed (m * 10 ^ e)) 0
  else
    let den := 10 ^ (- e) in
    let k := Z.max 0 (Z.log2 den - Z.log2 m + 66) in
    let q := Z.shiftl m k / den in
    let sticky := if Z.shiftl m k mod den =? 0 then 0 else 1 in
    f64_lit (signed (2 * q + sticky)) (- k - 1).

(** [std::strtod] on a number's text; an exponent without digits is no exponent. *)
Definition strtod (n : NumberText) : float :=
  let ex := digits_val (nt_exp n) in
  let ex := if bool_decide (nt_esign n = ["-"%char]) then - ex else ex in
  f64_of_decimal (bool_decide (nt_sign n = ["-"%char])) (digits_val (nt_int n ++ nt_frac n))
    (ex - Z.of_nat (length (nt_frac n))).

Definition number (t : text) : Result (JsonValue * text) :=
  let '(n, rest) := scan_number t in
  if bool_decide (nt_int n = []) && bool_decide (nt_frac n = []) then Fail Corrupt
  else Ret (JNumber (strtod n) (raw_of n), rest).

(** [std::from_chars] into a type of range [lo, hi], the whole text consumed; [as_int] and
    [as_uint] skip one plus sign first. *)
Definition skip_plus (t : text) : text := if is_char "+" t then tail t else t.
Definition from_chars (is_signed : bool) (lo hi : Z) (t : text) : option Z :=
  let '(neg, t) := if is_signed && is_char "-" t then (true, tail t) else (false, t) in
  let '(ds, rest) := digits t in
  let v := if neg then - digits_val ds else digits_val ds in
  if bool_decide (ds = []) || negb (bool_decide (rest = [])) || (v <? lo) || (hi <? v) then None else Some v.

(** [static_cast<int64_t>]. *)
Definition i64 (x : Z) : Z := let y := u64 x in if y <? 2 ^ 63 then y else y - 2 ^ 64.

Definition as_bool (v : JsonValue) : Result bool := match v with JBool b => Ret b | _ => Fail Corrupt end.
Definition as_double (v : JsonValue) : Result float := match v with JNumber d _ => Ret d | _ => Fail Corrupt end.
Definition as_int (v : JsonValue) : Result Z :=
  match v with
  | JNumber d raw =>
      match from_chars true (- 2 ^ 63) (2 ^ 63 - 1) (skip_plus raw) with
      | Some n => Ret n
      | None => let lim := f64_of_Z 9220000000000000000 in
                if f_ltb d (f_neg lim) || f_gtb d lim then Fail Corrupt else Ret (i64 (f_trunc d))
      end
  | _ => Fail Corrupt
  end.
Definition as_uint (v : JsonValue) : Result Z :=
  match v with
  | JNumber d raw =>
      match from_chars false 0 (2 ^ 64 - 1) (skip_plus raw) with
      | Some n => Ret n
      | None => if f_ltb d f64_zero || f_gtb d (f64_of_Z 18000000000000000000) then Fail Corrupt else Ret (u64 (f_trunc d))
      end
  | _ => Fail Corrupt
  end.
Definition as_string (v : JsonValue) : Result string := match v with JString s => Ret s | _ => Fail Corrupt end.
Definition as_array (v : JsonValue) : Result (list JsonValue) := match v with JArray a => Ret a | _ => Fail Corrupt end.
Definition as_object (v : JsonValue) : Result (list (string * JsonValue)) :=
  match v with JObject o => Ret o | _ => Fail Corrupt end.

Definition at_key (v : JsonValue) (key : string) : Result JsonValue :=
  match find v key with Some x => Ret x | None => Fail NotFound end.
Definition recast {A} (r : Result A) : Result A := match r with Ret a => Ret a | Fail _ => Fail Corrupt end.
Definition int_at (v : JsonValue) (key : string) : Result Z := x ← at_key v key; recast (as_int x).
Definition uint_at (v : JsonValue) (key : string) : Result Z := x ← at_key v key; recast (as_uint x).
Definition double_at (v : JsonValue) (key : string) : Result float := x ← at_key v key; recast (as_double x).
Definition bool_at (v : JsonValue) (key : string) : Result bool := x ← at_key v key; recast (as_bool x).
Definition string_at (v : JsonValue) (key : string) : Result string := x ← at_key v key; recast (as_string x).

(** [for (e : a) out.push_back(f(e))], stopping at the first error. *)
Fixpoint mapM_res {A B} (f : A -> Result B) (l : list A) : Result (list B) :=
  match l with [] => Ret [] | x :: l => y ← f x; ys ← mapM_res f l; Ret (y :: ys) end.
Definition int_array_at (v : JsonValue) (key : string) : Result (list Z) :=
  x ← at_key v key; a ← recast (as_array x); recast (mapM_res as_int a).

Definition read_or {A} (read : JsonValue -> Result A) (v : JsonValue) (key : string) (dflt : A) : A :=
  match find v key with
  | None | Some JNull => dflt
  | Some x => match read x with Ret a => a | Fail _ => dflt end
  end.
Definition int_or := read_or as_int.
Definition double_or := read_or as_double.
Definition bool_or := read_or as_bool.
Definition string_or := read_or as_string.

(** ** Strings *)

Definition cons_fst {A B} (a : A) (r : Result (list A * B)) : Result (list A * B) :=
  '(l, b) ← r; Ret (a :: l, b).
Definition app_fst {A B} (l0 : list A) (r : Result (list A * B)) : Result (list A * B) :=
  '(l, b) ← r; Ret (l0 ++ l, b).

Definition utf8 (cp : Z) : text :=
  let cont s := byte (Z.lor 128 (Z.land (Z.shiftr cp s) 63)) in
  if cp <? 128 then [byte cp]
  else if cp <? 2048 then [byte (Z.lor 192 (Z.shiftr cp 6)); cont 0]
  else if cp <? 65536 then [byte (Z.lor 224 (Z.shiftr cp 12)); cont 6; cont 0]
  else [byte (Z.lor 240 (Z.shiftr cp 18)); cont 12; cont 6; cont 0].

Definition hex_val (c : ascii) : option Z :=
  let b := byte_of c in
  if (48 <=? b) && (b <=? 57) then Some (b - 48)
  else if (97 <=? b) && (b <=? 102) then Some (b - 97 + 10)
  else if (65 <=? b) && (b <=? 70) then Some (b - 65 + 10)
  else None.
Definition hex4 (a b c d : ascii) : option Z :=
  a ← hex_val a; b ← hex_val b; c ← hex_val c; d ← hex_val d; Some (a * 4096 + b * 256 + c * 16 + d).

(** The character a one-letter escape stands for. *)
Definition escape (e : ascii) : option ascii :=
  match e with
  | "034"%char => Some "034"%char | "\"%char => Some "\"%char | "/"%char => Some "/"%char
  | "b"%char => Some (byte 8) | "f"%char => Some (byte 12) | "n"%char => Some (byte 10)
  | "r"%char => Some (byte 13) | "t"%char => Some (byte 9)
  | _ => None
  end.

Definition is_high (cp : Z) : bool := (0xD800 <=? cp) && (cp <=? 0xDBFF).
Definition is_low (cp : Z) : bool := (0xDC00 <=? cp) && (cp <=? 0xDFFF).

(** The text after the opening quote, up to and past the closing one. *)
Fixpoint string_literal (t : text) : Result (text * text) :=
  match t with
  | [] => Fail Corrupt
  | c :: t =>
      if bool_decide (c = "034"%char) then Ret ([], t)
      else if negb (bool_decide (c = "\"%char)) then
        if byte_of c <? 32 then Fail Corrupt else cons_fst c (string_literal t)
      else
        match t with
        | [] => Fail Corrupt
        | e :: t =>
            if bool_decide (e = "u"%char) then
              match t with
              | a :: b :: c :: d :: t =>
                  match hex4 a b c d with
                  | None => Fail Corrupt
                  | Some cp =>
                      match t with
                      | x :: y :: t' =>
                          if is_high cp && bool_decide (x = "\"%char) && bool_decide (y = "u"%char) then
                            match t' with
                            | a :: b :: c :: d :: t =>
                                match hex4 a b c d with
                                | None => Fail Corrupt
                                | Some lo =>
                                    app_fst (if is_low lo then utf8 (0x10000 + Z.shiftl (cp - 0xD800) 10 + (lo - 0xDC00))
                                             else utf8 cp ++ utf8 lo) (string_literal t)
                                end
                            | _ => Fail Corrupt
                            end
                          else app_fst (utf8 cp) (string_literal t)
                      | _ => app_fst (utf8 cp) (string_literal t)
                      end
                  end
              | _ => Fail Corrupt
              end
            else match escape e with None => Fail Corrupt | Some x => cons_fst x (string_literal t) end
        end
  end.

(** ** Values *)

Definition is_space (c : ascii) : bool := bool_decide (byte_of c ∈ [32; 9; 10; 13]).
Fixpoint skip_ws (t : text) : text :=
  match t with c :: t' => if is_space c then skip_ws t' else t | [] => [] end.

Fixpoint starts_with (p t : text) : option text :=
  match p, t with
  | [], _ => Some t
  | x :: p, y :: t => if decide (x = y) then starts_with p t else None
  | _ :: _, [] => None
  end.
Definition literal (word : string) (v : JsonValue) (t : text) : Result (JsonValue * text) :=
  match starts_with (to_text word) t with Some rest => Ret (v, rest) | None => Fail Corrupt end.

Section Members.
Context (pv : text -> Result (JsonValue * text)).

(** The loop of [array], after its bracket. *)
Fixpoint array_loop (fuel : nat) (t : text) : Result (list JsonValue * text) :=
  match fuel with
  | O => Fail Internal
  | S fuel =>
      '(v, t) ← pv t;
      match skip_ws t with
      | c :: t => if bool_decide (c = ","%char) then cons_fst v (array_loop fuel t)
                  else if bool_decide (c = "]"%char) then Ret ([v], t)
                  else Fail Corrupt
      | [] => Fail Corrupt
      end
  end.

Definition array (t : text) : Result (JsonValue * text) :=
  let t := skip_ws t in
  if is_char "]" t then Ret (JArray [], tail t)
  else '(a, t) ← array_loop (S (length t)) t; Ret (JArray a, t).

(** The loop of [object]. *)
Fixpoint object_loop (fuel : nat) (o : list (string * JsonValue)) (t : text)
  : Result (list (string * JsonValue) * text) :=
  match fuel with
  | O => Fail Internal
  | S fuel =>
      let t := skip_ws t in
      if negb (is_char "034" t) then Fail Corrupt
      else
        '(k, t) ← string_literal (tail t);
        let t := skip_ws t in
        if negb (is_char ":" t) then Fail Corrupt
        else
          '(v, t) ← pv (tail t);
          let o := obj_insert (of_text k) v o in
          match skip_ws t with
          | c :: t => if bool_decide (c = ","%char) then object_loop fuel o t
                      else if bool_decide (c = "}"%char) then Ret (o, t)
                      else Fail Corrupt
          | [] => Fail Corrupt
          end
  end.

Definition object (t : text) : Result (JsonValue * text) :=
  let t := skip_ws t in
  if is_char "}" t then Ret (JObject [], tail t)
  else '(o, t) ← object_loop (S (length t)) [] t; Ret (JObject o, t).
End Members.

Definition kMaxDepth : nat := 64.

Fixpoint value (d : nat) (t : text) : Result (JsonValue * text) :=
  match d with
  | O => Fail Corrupt
  | S d =>
      match skip_ws t with
      | [] => Fail Corrupt
      | c :: t' =>
          if bool_decide (c = "{"%char) then object (value d) t'
          else if bool_decide (c = "["%char) then array (value d) t'
          else if bool_decide (c = "034"%char) then '(s, t) ← string_literal t'; Ret (JString (of_text s), t)
          else if bool_decide (c = "t"%char) then literal "true" (JBool true) (c :: t')
          else if bool_decide (c = "f"%char) then literal "false" (JBool false) (c :: t')
          else if bool_decide (c = "n"%char) then literal "null" JNull (c :: t')
          else number (c :: t')
      end
  end.

Definition bom : text := [byte 239; byte 187; byte 191].

Definition json_parse (t : text) : Result JsonValue :=
  let t := match starts_with bom t with Some t => t | None => t end in
  '(v, t) ← value kMaxDepth t;
  if bool_decide (skip_ws t = []) then Ret v else Fail Corrupt.

(** ** Writing *)

Definition hex_digit (v : Z) : ascii := byte (if v <? 10 then 48 + v else 97 + v - 10).

Definition quote_char (c : ascii) : text :=
  let b := byte_of c in
  if bool_decide (c = "034"%char) then ["\"%char; "034"%char]
  else if bool_decide (c = "\"%char) then ["\"%char; "\"%char]
  else if b =? 10 then ["\"%char; "n"%char]
  else if b =? 13 then ["\"%char; "r"%char]
  else if b =? 9 then ["\"%char; "t"%char]
  else if b =? 8 then ["\"%char; "b"%char]
  else if b =? 12 then ["\"%char; "f"%char]
  else if b <? 32 then ["\"%char; "u"%char; "0"%char; "0"%char; hex_digit (b / 16); hex_digit (b mod 16)]
  else [c].

Definition json_quote (s : string) : text :=
  ["034"%char] ++ flat_map quote_char (to_text s) ++ ["034"%char].

(** [std::to_string] of an unsigned number. *)
Fixpoint to_digits (fuel : nat) (n : Z) (acc : text) : text :=
  match fuel with
  | O => acc
  | S fuel => let acc := byte (48 + n mod 10) :: acc in
              if n <? 10 then acc else to_digits fuel (n / 10) acc
  end.
Definition u_to_string (n : Z) : text := to_digits 20 n [].

Definition json_uint_array (v : list Z) : text :=
  ["["%char] ++ mjoin (imap (fun i n => (if (i =? 0)%nat then [] else [","%char]) ++ u_to_string n) v) ++ ["]"%char].
