(* ===== verification/JsonProps.v ===== *)
(** Properties of the JSON reader and writer: every text is parsed or refused, nesting is
    bounded, and what the writer emits reads back. *)

From Stdlib Require Import Ascii.
From S2P Require Import Prelude Floats Json.

(** ** The parser ends *)

(** Some of the text is consumed, or the answer is [Corrupt]. *)
Definition consumes {A} (t : text) (r : Result (A * text)) : Prop :=
  match r with Ret (_, rest) => (length rest < length t)%nat | Fail e => e = Corrupt end.
Definition parser {A} (pv : text -> Result (A * text)) : Prop := forall t, consumes t (pv t).

Lemma consumes_le {A} t t' (r : Result (A * text)) : (length t <= length t')%nat -> consumes t r -> consumes t' r.
Proof. intros Hl. destruct r as [[a rest]|e]; cbn; [lia|done]. Qed.

Lemma consumes_bind {A B} t (r : Result (A * text)) (f : A * text -> Result (B * text)) :
  consumes t r -> (forall a rest, (length rest < length t)%nat -> consumes t (f (a, rest))) -> consumes t (r ≫= f).
Proof. destruct r as [[a rest]|e]; cbn; auto. Qed.

Lemma consumes_cons {A} t (c : A) r : consumes t r -> consumes t (cons_fst c r).
Proof. intros H. apply consumes_bind; [done|]. intros l rest Hl. done. Qed.

Lemma consumes_app {A} t (l0 : list A) r : consumes t r -> consumes t (app_fst l0 r).
Proof. intros H. apply consumes_bind; [done|]. intros l rest Hl. done. Qed.

Lemma string_literal_consumes t : consumes t (string_literal t).
Proof.
  induction t as [t IH] using (induction_ltof1 _ (@length ascii)). unfold ltof in IH.
  assert (IH' : forall t', (length t' < length t)%nat -> consumes t (string_literal t')).
  { intros t' Hl. eapply consumes_le; [|by apply IH]. lia. }
  clear IH. destruct t as [|c t]; [done|]. cbn [string_literal].
  destruct (bool_decide _); [cbn; lia|]. destruct (negb _).
  { destruct (_ <? _); [done|]. apply consumes_cons, IH'. cbn. lia. }
  destruct t as [|e t]; [done|]. destruct (bool_decide _).
  - destruct t as [|a [|b [|c' [|d t]]]]; try done. destruct (hex4 a b c' d) as [cp|]; [|done].
    assert (Hplain : consumes (c :: e :: a :: b :: c' :: d :: t) (app_fst (utf8 cp) (string_literal t)))
      by (apply consumes_app, IH'; cbn; lia).
    destruct t as [|x [|y t']]; [done..|]. destruct (_ && _); [|done].
    destruct t' as [|a' [|b' [|c'' [|d' t']]]]; try done. destruct (hex4 a' b' c'' d'); [|done].
    apply consumes_app, IH'. cbn. lia.
  - destruct (escape e); [|done]. apply consumes_cons, IH'. cbn. lia.
Qed.

Lemma skip_ws_le t : (length (skip_ws t) <= length t)%nat.
Proof. induction t as [|c t IH]; cbn; [done|]. destruct (is_space c); cbn; lia. Qed.

Lemma is_char_tail c t : is_char c t = true -> (length (tail t) < length t)%nat.
Proof. destruct t; cbn; [done|lia]. Qed.

Lemma digits_le t : (length (digits t).2 <= length t)%nat.
Proof.
  induction t as [|c t IH]; cbn; [done|]. destruct (is_digit c); cbn; [|lia]. destruct (digits t). cbn in *. lia.
Qed.

Lemma digits_app t : (digits t).1 ++ (digits t).2 = t.
Proof.
  induction t as [|c t IH]; cbn; [done|]. destruct (is_digit c); cbn; [|done].
  destruct (digits t). cbn in *. by rewrite IH.
Qed.

Lemma sign_text_app t : (sign_text t).1 ++ (sign_text t).2 = t.
Proof. destruct t as [|c t]; cbn; [done|]. by case_decide. Qed.

(** What [number] scans is the front of the text. *)
Lemma scan_number_app t : raw_of (scan_number t).1 ++ (scan_number t).2 = t.
Proof.
  unfold scan_number. pose proof (sign_text_app t) as Hs. destruct (sign_text t) as [sg t1]. cbn in Hs.
  pose proof (digits_app t1) as Hi. destruct (digits t1) as [int t2]. cbn in Hi.
  set (dt := if is_char "." t2 then _ else _).
  assert (Hd : dt.1 ++ dt.2 = t2) by (unfold dt; destruct t2 as [|x t2]; cbn; [done|]; by case_bool_decide; subst).
  destruct dt as [dot t3]. cbn in Hd. set (fr := if bool_decide (dot = []) then _ else _).
  assert (Hf : fr.1 ++ fr.2 = t3) by (unfold fr; case_bool_decide; [done|apply digits_app]).
  destruct fr as [frac t4]. cbn in Hf. set (ee := if is_char "e" t4 || _ then _ else _).
  assert (He : ee.1 ++ ee.2 = t4) by (unfold ee; destruct t4 as [|x t4]; cbn; [done|]; by destruct (_ || _)).
  destruct ee as [e t5]. cbn in He. set (es := if bool_decide (e = []) then _ else _).
  assert (Hes : es.1 ++ es.2 = t5) by (unfold es; case_bool_decide; [done|apply sign_text_app]).
  destruct es as [esg t6]. cbn in Hes. set (ex := if bool_decide (e = []) then _ else _).
  assert (Hex : ex.1 ++ ex.2 = t6) by (unfold ex; case_bool_decide; [done|apply digits_app]).
  destruct ex as [exp t7]. cbn in Hex. unfold raw_of. cbn. rewrite <- !app_assoc. by subst.
Qed.

Lemma number_parser : parser number.
Proof.
  intros t. unfold number. pose proof (scan_number_app t) as H. destruct (scan_number t) as [n rest]. cbn in H.
  destruct (_ && _) eqn:Hb; [done|]. cbn. rewrite <- H, length_app.
  assert ((0 < length (raw_of n))%nat); [|lia]. unfold raw_of. rewrite !length_app.
  apply andb_false_iff in Hb as [Hb|Hb]; apply bool_decide_eq_false in Hb;
    [destruct (nt_int n)|destruct (nt_frac n)]; cbn; try done; lia.
Qed.

Lemma starts_with_app p t rest : starts_with p t = Some rest -> t = p ++ rest.
Proof.
  revert t. induction p as [|x p IH]; intros t; cbn; [by intros [= <-]|].
  destruct t as [|y t]; [done|]. case_decide; [|done]. subst. by intros ->%IH.
Qed.

Lemma literal_consumes word v t : word <> EmptyString -> consumes t (literal word v t).
Proof.
  intros Hw. unfold literal. destruct (starts_with _ t) as [rest|] eqn:E; [|done].
  apply starts_with_app in E as ->. cbn. rewrite length_app. destruct word; [done|]. cbn. lia.
Qed.

Section Loops.
Context (pv : text -> Result (JsonValue * text)) (Hpv : parser pv).

Lemma array_loop_consumes fuel t : (length t < fuel)%nat -> consumes t (array_loop pv fuel t).
Proof.
  revert t. induction fuel as [|fuel IH]; intros t Hf; [lia|]. cbn [array_loop].
  apply consumes_bind; [apply Hpv|]. intros v rest Hr. pose proof (skip_ws_le rest).
  destruct (skip_ws rest) as [|c t'] eqn:E; [done|]. cbn in H. destruct (bool_decide _).
  - apply consumes_cons. eapply consumes_le; [|apply IH]; lia.
  - destruct (bool_decide _); [cbn; lia|done].
Qed.

Lemma array_consumes t : consumes (byte 0 :: t) (array pv t).
Proof.
  unfold array. pose proof (skip_ws_le t). destruct (is_char _ _) eqn:E.
  - apply is_char_tail in E. cbn. lia.
  - apply consumes_bind; [|intros a rest Hr; cbn in *; lia].
    eapply consumes_le; [|apply array_loop_consumes]; cbn; lia.
Qed.

Lemma object_loop_consumes fuel o t : (length t < fuel)%nat -> consumes t (object_loop pv fuel o t).
Proof.
  revert o t. induction fuel as [|fuel IH]; intros o t Hf; [lia|]. cbn [object_loop].
  pose proof (skip_ws_le t). destruct (is_char "034" (skip_ws t)) eqn:E; [|done]. cbn [negb]. apply is_char_tail in E.
  apply consumes_bind; [eapply consumes_le; [|apply string_literal_consumes]; lia|]. intros k t1 H1.
  pose proof (skip_ws_le t1). destruct (is_char ":" (skip_ws t1)) eqn:E1; [|done]. cbn [negb]. apply is_char_tail in E1.
  apply consumes_bind; [eapply consumes_le; [|apply Hpv]; lia|]. intros v t2 H2.
  pose proof (skip_ws_le t2). destruct (skip_ws t2) as [|c t'] eqn:E2; [done|]. cbn in *. destruct (bool_decide _).
  - eapply consumes_le; [|apply IH]; lia.
  - destruct (bool_decide _); [cbn; lia|done].
Qed.

Lemma object_consumes t : consumes (byte 0 :: t) (object pv t).
Proof.
  unfold object. pose proof (skip_ws_le t). destruct (is_char _ _) eqn:E.
  - apply is_char_tail in E. cbn. lia.
  - apply consumes_bind; [|intros a rest Hr; cbn in *; lia].
    eapply consumes_le; [|apply object_loop_consumes]; cbn; lia.
Qed.
End Loops.

Lemma value_parser d : parser (value d).
Proof.
  induction d as [|d IH]; intros t; [done|]. cbn [value]. pose proof (skip_ws_le t) as Hl.
  destruct (skip_ws t) as [|c t']; [done|]. cbn in Hl.
  apply (consumes_le (c :: t')); [done|].
  destruct (bool_decide _); [by apply object_consumes|]. destruct (bool_decide _); [by apply array_consumes|].
  destruct (bool_decide _).
  { apply consumes_bind; [eapply consumes_le; [|apply string_literal_consumes]; cbn; lia|]. done. }
  repeat (destruct (bool_decide _); [by apply literal_consumes|]). apply number_parser.
Qed.

(** ** Nesting *)

(** Levels of values: a scalar or an empty container is one. *)
Fixpoint json_depth (v : JsonValue) : nat :=
  match v with
  | JArray a => S (foldr (fun x n => Nat.max (json_depth x) n) 0%nat a)
  | JObject o => S (foldr (fun kv n => Nat.max (json_depth kv.2) n) 0%nat o)
  | _ => 1%nat
  end.

Definition shallow (d : nat) (v : JsonValue) : Prop := (json_depth v <= d)%nat.

Lemma depth_array d a : Forall (shallow d) a -> shallow (S d) (JArray a).
Proof. unfold shallow. intros H. cbn. apply le_n_S. induction H; cbn; lia. Qed.
Lemma depth_object d (o : list (string * JsonValue)) : Forall (fun kv => shallow d kv.2) o -> shallow (S d) (JObject o).
Proof. unfold shallow. intros H. cbn. apply le_n_S. induction H; cbn; lia. Qed.

Lemma obj_insert_Forall (P : string * JsonValue -> Prop) k v o : P (k, v) -> Forall P o -> Forall P (obj_insert k v o).
Proof.
  intros Hkv. induction 1 as [|[k' v'] o Hx Ho IH]; cbn; [by repeat constructor|].
  case_decide; [by constructor|]. destruct (String.ltb k k'); by repeat constructor.
Qed.

Lemma bind_Ret_pair {A B C} (r : Result (A * B)) (f : A -> B -> Result C) c :
  ('(a, b) ← r; f a b) = Ret c -> exists a b, r = Ret (a, b) /\ f a b = Ret c.
Proof. destruct r as [[a b]|]; cbn; [|done]. eauto. Qed.

Section Depth.
Context (pv : text -> Result (JsonValue * text)) (d : nat).
Context (Hpv : forall t v rest, pv t = Ret (v, rest) -> shallow d v).

Lemma array_loop_depth fuel t a rest : array_loop pv fuel t = Ret (a, rest) -> Forall (shallow d) a.
Proof.
  revert t a rest. induction fuel as [|fuel IH]; intros t a rest; [done|]. cbn [array_loop].
  intros (v & t1 & Hv & H)%bind_Ret_pair. destruct (skip_ws t1) as [|c t2]; [done|]. destruct (bool_decide _).
  - unfold cons_fst in H. apply bind_Ret_pair in H as (a' & t3 & Ha & [= <- <-]). constructor; [by eapply Hpv|by eapply IH].
  - destruct (bool_decide _); [|done]. injection H as <- <-. constructor; [by eapply Hpv|constructor].
Qed.

Lemma object_loop_depth fuel o t o' rest : object_loop pv fuel o t = Ret (o', rest) ->
  Forall (fun kv => shallow d kv.2) o -> Forall (fun kv => shallow d kv.2) o'.
Proof.
  revert o t o' rest. induction fuel as [|fuel IH]; intros o t o' rest; [done|]. cbn [object_loop].
  destruct (negb _); [done|]. intros (k & t1 & _ & H)%bind_Ret_pair. destruct (negb _) in H; [done|].
  apply bind_Ret_pair in H as (v & t2 & Hv & H). apply Hpv in Hv.
  intros Ho. assert (Ho' : Forall (fun kv => shallow d kv.2) (obj_insert (of_text k) v o)) by (by apply obj_insert_Forall).
  destruct (skip_ws t2) as [|c t3]; [done|]. destruct (bool_decide _); [by eapply IH|].
  destruct (bool_decide _); [|done]. by injection H as <- <-.
Qed.
End Depth.

Lemma value_depth d t v rest : value d t = Ret (v, rest) -> shallow d v.
Proof.
  revert t v rest. induction d as [|d IH]; intros t v rest; [done|]. cbn [value].
  assert (Hscalar : forall x, json_depth x = 1%nat -> shallow (S d) x) by (unfold shallow; lia).
  destruct (skip_ws t) as [|c t']; [done|]. destruct (bool_decide _).
  { unfold object. destruct (is_char _ _); [intros [= <- <-]; by apply Hscalar|].
    intros (o & t1 & Ho & [= <- <-])%bind_Ret_pair. apply depth_object. eapply object_loop_depth; [done|done|constructor]. }
  destruct (bool_decide _).
  { unfold array. destruct (is_char _ _); [intros [= <- <-]; by apply Hscalar|].
    intros (a & t1 & Ha & [= <- <-])%bind_Ret_pair. apply depth_array. by eapply array_loop_depth. }
  destruct (bool_decide _); [intros (s & t1 & _ & [= <- <-])%bind_Ret_pair; by apply Hscalar|].
  unfold literal. repeat (destruct (bool_decide _); [case_match; [intros [= <- <-]; by apply Hscalar|done]|]).
  unfold number. destruct (scan_number _). destruct (_ && _); [done|]. intros [= <- <-]. by apply Hscalar.
Qed.

(** The JSON parser ends on every text: it returns a value or [Corrupt] (the fuel of its
    loops never runs out), and a value it returns is nested at most 64 levels, so reading it
    back recursively is bounded; 64 levels are accepted and 65 refused. *)
Theorem json_parse_total t :
  match json_parse t with
  | Ret v => (json_depth v <= kMaxDepth)%nat
  | Fail e => e = Corrupt
  end /\
  (let nested n := replicate n "["%char ++ replicate n "]"%char in
   is_ok (json_parse (nested 64%nat)) = true /\ json_parse (nested 65%nat) = Fail Corrupt).
Proof.
  split; [|vm_compute; done]. unfold json_parse. set (t' := match starts_with bom t with Some _ => _ | None => _ end).
  pose proof (value_parser kMaxDepth t') as H. pose proof (value_depth kMaxDepth t') as Hd.
  destruct (value kMaxDepth t') as [[v rest]|e]; cbn; [|done]. destruct (bool_decide _); [|done].
  by apply (Hd v rest).
Qed.

(** ** Reading back what was written *)

Lemma literal_quote_char c t : string_literal (quote_char c ++ t) = cons_fst c (string_literal t).
Proof. destruct c as [[] [] [] [] [] [] [] []], t as [|x [|y t]]; reflexivity. Qed.

Lemma literal_quote s t : string_literal (flat_map quote_char s ++ "034"%char :: t) = Ret (s, t).
Proof.
  induction s as [|c s IH]; [done|]. cbn [flat_map]. by rewrite <- app_assoc, literal_quote_char, IH.
Qed.

Lemma to_of_text s : of_text (to_text s) = s.
Proof. apply String.string_of_list_ascii_of_string. Qed.

Lemma digits_val_snoc ds c : digits_val (ds ++ [c]) = digits_val ds * 10 + digit_val c.
Proof. unfold digits_val. by rewrite foldl_snoc. Qed.

Lemma digit_byte n : 0 <= n < 10 -> is_digit (byte (48 + n)) = true /\ digit_val (byte (48 + n)) = n.
Proof.
  intros H. assert (n ∈ [0;1;2;3;4;5;6;7;8;9]) as Hin by (rewrite !elem_of_cons; lia).
  clear H. repeat (apply elem_of_cons in Hin as [->|Hin]; [done|]). by apply elem_of_nil in Hin.
Qed.

Lemma to_digits_spec fuel n acc : 0 <= n < 10 ^ Z.of_nat fuel -> (0 < fuel)%nat ->
  exists ds, to_digits fuel n acc = ds ++ acc /\ ds <> [] /\ Forall (fun c => is_digit c = true) ds /\ digits_val ds = n.
Proof.
  revert n acc. induction fuel as [|fuel IH]; intros n acc Hn Hf; [lia|]. cbn [to_digits].
  destruct (digit_byte (n mod 10)) as [Hd Hv]; [apply Z.mod_pos_bound; lia|].
  destruct (Z.ltb_spec n 10) as [Hlt|Hge].
  - exists [byte (48 + n mod 10)]. split_and!; [done|done|by repeat constructor|].
    unfold digits_val. cbn [foldl]. rewrite Hv, Z.mod_small; lia.
  - rewrite Nat2Z.inj_succ, Z.pow_succ_r in Hn by lia.
    assert (0 < fuel)%nat by (destruct fuel; [change (10 ^ Z.of_nat 0) with 1 in Hn; lia|lia]).
    destruct (IH (n / 10) (byte (48 + n mod 10) :: acc)) as (ds & E & Hne & Hall & Hval);
      [split; [apply Z.div_pos; lia|apply Z.div_lt_upper_bound; lia]|done|].
    exists (ds ++ [byte (48 + n mod 10)]). rewrite <- app_assoc. split; [done|]. split; [by destruct ds|].
    split; [apply Forall_app; split; [done|by repeat constructor]|].
    rewrite digits_val_snoc, Hval, Hv. pose proof (Z.div_mod n 10). lia.
Qed.

Lemma u_to_string_spec n : 0 <= n < 2 ^ 64 ->
  u_to_string n <> [] /\ Forall (fun c => is_digit c = true) (u_to_string n) /\ digits_val (u_to_string n) = n.
Proof.
  intros Hn. destruct (to_digits_spec 20 n []) as (ds & E & H); [split; [lia|]; cbn; lia|lia|].
  unfold u_to_string. by rewrite E, app_nil_r.
Qed.

Lemma digits_all ds t : Forall (fun c => is_digit c = true) ds ->
  match t with c :: _ => is_digit c = false | [] => True end -> digits (ds ++ t) = (ds, t).
Proof.
  intros H Ht. induction H as [|c ds Hc _ IH]; cbn.
  - destruct t as [|c t]; cbn; [done|]. by rewrite Ht.
  - by rewrite Hc, IH.
Qed.

(** A digit starts a number and nothing else. *)
Lemma digit_dispatch c : is_digit c = true ->
  is_space c = false /\ c <> "{"%char /\ c <> "["%char /\ c <> "034"%char /\ c <> "t"%char /\ c <> "f"%char /\
  c <> "n"%char /\ c <> "-"%char /\ c <> "+"%char /\ c <> "]"%char /\ c <> ","%char.
Proof. destruct c as [[] [] [] [] [] [] [] []]; vm_compute; try done; intros _; by split_and!. Qed.

Lemma value_uint d ds c t : (0 < d)%nat -> ds <> [] -> Forall (fun c => is_digit c = true) ds ->
  c = ","%char \/ c = "]"%char ->
  exists f, value d (ds ++ c :: t) = Ret (JNumber f ds, c :: t).
Proof.
  intros Hd Hne Hall Hc. destruct d as [|d]; [lia|]. cbn [value].
  assert (Hdig : digits (ds ++ c :: t) = (ds, c :: t)) by (apply digits_all; [done|by destruct Hc as [->| ->]]).
  destruct ds as [|x ds]; [done|]. apply Forall_cons in Hall as [Hx Hall].
  destruct (digit_dispatch x Hx) as (Hsp & H1 & H2 & H3 & H4 & H5 & H6 & H7 & H8 & _).
  cbn [app skip_ws]. rewrite Hsp. rewrite !bool_decide_eq_false_2 by done.
  unfold number, scan_number, sign_text. rewrite decide_False by tauto.
  change (x :: ds ++ c :: t) with ((x :: ds) ++ c :: t). rewrite Hdig.
  assert (Hc' : is_char "." (c :: t) = false /\ is_char "e" (c :: t) = false /\ is_char "E" (c :: t) = false)
    by (destruct Hc as [->| ->]; done).
  destruct Hc' as (E1 & E2 & E3). rewrite E1. cbv beta iota.
  rewrite (bool_decide_eq_true_2 ([] = [])) by done. cbv beta iota. rewrite E2, E3. cbn [orb]. cbv beta iota.
  rewrite !(bool_decide_eq_true_2 ([] = [])) by done. cbv beta iota. cbn [nt_int nt_frac].
  rewrite bool_decide_eq_false_2 by done. cbn [andb]. unfold raw_of. cbn [nt_sign nt_int nt_dot nt_frac nt_e nt_esign nt_exp app].
  rewrite !app_nil_r. by eexists.
Qed.

Lemma as_uint_digits f ds n : ds <> [] -> Forall (fun c => is_digit c = true) ds -> digits_val ds = n -> 0 <= n < 2 ^ 64 ->
  as_uint (JNumber f ds) = Ret n.
Proof.
  intros Hne Hall Hval Hn. unfold as_uint, from_chars.
  assert (Hp : skip_plus ds = ds).
  { destruct ds as [|x ds]; [done|]. apply Forall_cons in Hall as [Hx _]. unfold skip_plus. cbn.
    destruct (digit_dispatch x Hx) as (_ & _ & _ & _ & _ & _ & _ & _ & H & _). by rewrite bool_decide_eq_false_2. }
  rewrite Hp. cbn [andb]. pose proof (digits_all ds [] Hall I) as Hd. rewrite app_nil_r in Hd. rewrite Hd, Hval.
  rewrite (bool_decide_eq_false_2 (ds = [])), bool_decide_eq_true_2 by done. cbn [negb orb].
  rewrite (proj2 (Z.ltb_ge n 0)), (proj2 (Z.ltb_ge (2 ^ 64 - 1) n)) by lia. done.
Qed.

(** The items of an array after the first, as written. *)
Definition more_items (v : list Z) : text := flat_map (fun n => ","%char :: u_to_string n) v.

Lemma json_uint_array_cons n v : json_uint_array (n :: v) = "["%char :: u_to_string n ++ more_items v ++ ["]"%char].
Proof.
  assert (Hm : forall (x : text) l, mjoin (x :: l) = x ++ mjoin l) by done.
  unfold json_uint_array, more_items. rewrite imap_cons, Hm. cbn [app Nat.eqb].
  f_equal. rewrite <- app_assoc. f_equal. f_equal.
  assert (E : forall f : nat -> Z -> text, (forall i x, f i x = ","%char :: u_to_string x) ->
    mjoin (imap f v) = flat_map (fun n => ","%char :: u_to_string n) v); [|by apply E].
  induction v as [|x v IH]; intros f Hf; [done|]. rewrite imap_cons, Hm, Hf, (IH (f ∘ S)); [done|].
  intros i y. apply Hf.
Qed.

Definition u64_ok (n : Z) : Prop := 0 <= n < 2 ^ 64.
Definition reads_as (n : Z) (j : JsonValue) : Prop := as_uint j = Ret n.

Lemma mapM_reads v a : Forall2 reads_as v a -> mapM_res as_uint a = Ret v.
Proof. induction 1 as [|n j v a Hj _ IH]; cbn; [done|]. unfold reads_as in Hj. by rewrite Hj, IH. Qed.

Lemma array_loop_items d n v fuel : (0 < d)%nat -> u64_ok n -> Forall u64_ok v -> (length v < fuel)%nat ->
  exists a, array_loop (value d) fuel (u_to_string n ++ more_items v ++ ["]"%char]) = Ret (a, []) /\
    Forall2 reads_as (n :: v) a.
Proof.
  intros Hd. revert n fuel. induction v as [|m v IH]; intros n fuel Hn Hv Hf.
  - destruct fuel as [|fuel]; [lia|]. cbn [more_items flat_map app array_loop].
    destruct (u_to_string_spec n Hn) as (Hne & Hall & Hval).
    destruct (value_uint d (u_to_string n) "]" [] Hd Hne Hall ltac:(by right)) as [f E]. rewrite E.
    exists [JNumber f (u_to_string n)]. split; [done|]. repeat constructor. by apply as_uint_digits.
  - destruct fuel as [|fuel]; [lia|]. cbn [array_loop]. apply Forall_cons in Hv as [Hm Hv].
    destruct (u_to_string_spec n Hn) as (Hne & Hall & Hval).
    change (more_items (m :: v)) with (","%char :: u_to_string m ++ more_items v).
    cbn [app]. rewrite <- app_assoc.
    destruct (value_uint d (u_to_string n) "," (u_to_string m ++ more_items v ++ ["]"%char]) Hd Hne Hall ltac:(by left)) as [f E].
    rewrite E. destruct (IH m fuel Hm Hv ltac:(cbn in Hf; lia)) as (a & Ea & Ha).
    exists (JNumber f (u_to_string n) :: a). split.
    + cbn [mbind Result_bind skip_ws]. change (is_space ",") with false. cbv iota.
      rewrite bool_decide_eq_true_2 by done. by rewrite Ea.
    + constructor; [by apply as_uint_digits|done].
Qed.

Lemma value_quoted d s : value (S d) (json_quote s) = Ret (JString s, []).
Proof.
  unfold json_quote. cbn [app value skip_ws]. change (is_space "034") with false. cbv iota.
  rewrite !(bool_decide_eq_false_2 ("034"%char = _)), bool_decide_eq_true_2 by done.
  rewrite literal_quote. cbn [mbind Result_bind]. by rewrite to_of_text.
Qed.

Lemma value_uint_array d v : Forall u64_ok v ->
  exists a, value (S (S d)) (json_uint_array v) = Ret (JArray a, []) /\ Forall2 reads_as v a.
Proof.
  destruct v as [|n v]; intros Hv; [by exists []|]. apply Forall_cons in Hv as [Hn Hv].
  rewrite json_uint_array_cons. remember (S d) as d' eqn:Hd. cbn [value skip_ws].
  change (is_space "[") with false. cbv iota.
  rewrite (bool_decide_eq_false_2 ("["%char = _)), bool_decide_eq_true_2 by done. unfold array.
  destruct (u_to_string_spec n Hn) as (Hne & Hall & _).
  assert (Hws : skip_ws (u_to_string n ++ more_items v ++ ["]"%char]) = u_to_string n ++ more_items v ++ ["]"%char] /\
    is_char "]" (u_to_string n ++ more_items v ++ ["]"%char]) = false).
  { destruct (u_to_string n) as [|x ds]; [done|]. apply Forall_cons in Hall as [Hx _].
    destruct (digit_dispatch x Hx) as (Hsp & _ & _ & _ & _ & _ & _ & _ & _ & Hb & _). cbn [app skip_ws is_char].
    rewrite Hsp. by rewrite bool_decide_eq_false_2. }
  destruct Hws as [-> ->].
  set (t := u_to_string n ++ _). assert (Hlen : (length v < S (length t))%nat).
  { unfold t. rewrite !length_app. assert ((length v <= length (more_items v))%nat); [|lia].
    clear. induction v as [|x v IH]; [cbn; lia|].
    change (more_items (x :: v)) with (","%char :: u_to_string x ++ more_items v). cbn [length]. rewrite length_app. lia. }
  destruct (array_loop_items d' n v (S (length t)) ltac:(lia) Hn Hv Hlen) as (a & Ea & Ha).
  fold t in Ea. exists a. split; [|done]. by rewrite Ea.
Qed.

(** C34: what the JSON writer emits reads back: every string, whatever bytes it holds, is
    quoted to a text that parses to that string, and every array of unsigned 64-bit numbers
    to an array whose elements read as those numbers, exactly. *)
Theorem json_writer_roundtrip :
  (forall s, json_parse (json_quote s) = Ret (JString s)) /\
  (forall v, Forall u64_ok v ->
     exists a, json_parse (json_uint_array v) = Ret (JArray a) /\ mapM_res as_uint a = Ret v).
Proof.
  split.
  - intros s. unfold json_parse. change (starts_with bom (json_quote s)) with (@None text). cbv iota.
    change kMaxDepth with (S 63). by rewrite value_quoted.
  - intros v Hv. destruct (value_uint_array 62 v Hv) as (a & Ea & Ha). exists a. split; [|by apply mapM_reads].
    unfold json_parse. change (starts_with bom (json_uint_array v)) with (@None text). cbv iota.
    change kMaxDepth with 64%nat. by rewrite Ea.
Qed.
