(* ===== verification/V41Config.v ===== *)
(** The model's configuration ([src/model/v41_config.h], [v41_config.cpp]): reading
    config.json and checking it against the constants the kernels are built for
    ([model/layout.h]).  [summary] only formats text and has no counterpart. *)

From Stdlib Require Import Ascii.
From S2P Require Import Prelude Types Floats Json.

(** ** Constants of [model/layout.h] *)

Definition kHiddenSize : Z := 5120.
Definition kHcMult : Z := 4.
Definition kSinkhornIters : Z := 20.
Definition kSharedExperts : Z := 1.
Definition kExpertsPerTok : Z := 6.
Definition kMoeIntermediate : Z := 2304.
Definition kDsparkExperts : Z := 128.
Definition kDsparkTopK : Z := 3.
Definition kDsparkBlockSize : Z := 5.
Definition kDsparkMarkovRank : Z := 256.
Definition kAttnHeads : Z := 64.
Definition kKvHeads : Z := 1.
Definition kHeadDim : Z := 512.
Definition kRopeHeadDim : Z := 64.
Definition kQLoraRank : Z := 1280.
Definition kOLoraRank : Z := 1024.
Definition kOGroups : Z := 8.
Definition kSlidingWindow : Z := 128.
Definition kIndexHeads : Z := 32.
Definition kIndexHeadDim : Z := 128.
Definition kIndexTopK : Z := 512.
Definition kEngramLayers : Z := 2.
Definition kEngramHeads : Z := 8.
Definition kEngramHeadDim : Z := 256.
Definition kEngramMaxNgram : Z := 4.
Definition kVocabSize : Z := 129280.
Definition kFp8ScaleBlockK : Z := 32.
Definition kFp8ScaleBlockM : Z := 32.

(** ** Data *)

Record QuantConfig := mkQuantConfig {
  qc_quant_method : string; qc_activation_scheme : string; qc_scale_fmt : string; qc_expert_dtype : string;
  qc_weight_block_m : Z; qc_weight_block_k : Z }.

Record RopeScaling := mkRopeScaling {
  rs_type : string; rs_factor : float; rs_beta_fast : float; rs_beta_slow : float; rs_original_max_position : Z }.
Definition RopeScaling_default : RopeScaling := mkRopeScaling EmptyString f64_one (f64_of_Z 32) f64_one 0.

Record TextConfig := mkTextConfig {
  tc_model_type : string; tc_vocab_size : Z; tc_hidden_size : Z; tc_moe_intermediate_size : Z;
  tc_num_hidden_layers : Z; tc_num_attention_heads : Z; tc_num_key_value_heads : Z;
  tc_head_dim : Z; tc_qk_rope_head_dim : Z; tc_q_lora_rank : Z; tc_o_lora_rank : Z;
  tc_o_groups : Z; tc_hidden_act : string; tc_swiglu_limit : float; tc_rms_norm_eps : float;
  tc_attention_bias : bool; tc_attention_dropout : float; tc_initializer_range : float;
  tc_use_cache : bool; tc_tie_word_embeddings : bool; tc_max_position_embeddings : Z;
  tc_rope_theta : float; tc_rope_scaling : RopeScaling; tc_n_routed_experts : Z;
  tc_n_shared_experts : Z; tc_num_experts_per_tok : Z; tc_scoring_func : string;
  tc_topk_method : string; tc_norm_topk_prob : bool; tc_routed_scaling_factor : float;
  tc_sliding_window : Z; tc_compress_ratios : list Z; tc_compress_rope_theta : float;
  tc_kv_source_layer_ids : list Z; tc_index_source_layer_ids : list Z; tc_index_n_heads : Z;
  tc_index_head_dim : Z; tc_index_topk : Z; tc_candidate_source_layer_id : Z;
  tc_candidate_topk_blocks : Z; tc_candidate_block_size : Z; tc_hc_mult : Z;
  tc_hc_sinkhorn_iters : Z; tc_hc_eps : float; tc_engram_layer_ids : list Z;
  tc_engram_num_embeddings : list Z; tc_engram_max_ngram_size : Z; tc_engram_vocab_size : Z;
  tc_engram_n_heads : Z; tc_engram_head_dim : Z; tc_engram_pad_token_id : Z;
  tc_engram_compressed_vocab_size : Z; tc_num_nextn_predict_layers : Z; tc_dspark_block_size : Z;
  tc_dspark_noise_token_id : Z; tc_dspark_target_layer_ids : list Z; tc_dspark_markov_rank : Z;
  tc_dspark_n_routed_experts : Z; tc_dspark_num_experts_per_tok : Z }.

Record VisionConfig := mkVisionConfig {
  vc_model_type : string; vc_num_hidden_layers : Z; vc_hidden_size : Z; vc_num_attention_heads : Z;
  vc_intermediate_size : Z; vc_patch_size : Z; vc_rope_theta : float; vc_downsample_ratio : Z;
  vc_max_image_tokens : Z; vc_min_pixels : Z }.

(** [has_vision] is [vision] being there. *)
Record V41Config := mkV41Config {
  architectures : list string; v41_model_type : string; v41_dtype : string;
  bos_token_id : Z; eos_token_id : Z; pad_token_id : Z; image_token_id : Z;
  quantization : QuantConfig; text_config : TextConfig; vision : option VisionConfig }.

(** ** Reading *)

Definition req_u32 (o : JsonValue) (k : string) : Result Z :=
  v ← uint_at o k; if 0xFFFFFFFF <? v then Fail Corrupt else Ret (u32 v).
Definition opt_int_array (o : JsonValue) (k : string) : list Z :=
  match int_array_at o k with Ret l => l | Fail _ => [] end.

Definition parse_rope (t : JsonValue) : Result RopeScaling :=
  match find t "rope_scaling" with
  | None | Some JNull => Ret RopeScaling_default
  | Some n =>
      Ret (mkRopeScaling (string_or n "rope_type" (string_or n "type" EmptyString))
             (double_or n "factor" f64_one) (double_or n "beta_fast" (f64_of_Z 32))
             (double_or n "beta_slow" f64_one) (u32 (int_or n "original_max_position_embeddings" 0)))
  end.

Definition parse_quant (root : JsonValue) : Result QuantConfig :=
  match find root "quantization_config" with
  | None | Some JNull => Fail Corrupt
  | Some n =>
      let '(bm, bk) := match int_array_at n "weight_block_size" with
                       | Ret [m; k] => (u32 m, u32 k)
                       | _ => (32, 32)
                       end in
      Ret (mkQuantConfig (string_or n "quant_method" EmptyString) (string_or n "activation_scheme" EmptyString)
             (string_or n "scale_fmt" EmptyString) (string_or n "expert_dtype" EmptyString) bm bk)
  end.

Definition parse_text (root : JsonValue) : Result TextConfig :=
  t ← recast (at_key root "text_config");
  vocab_size ← req_u32 t "vocab_size";
  hidden_size ← req_u32 t "hidden_size";
  moe_intermediate_size ← req_u32 t "moe_intermediate_size";
  num_hidden_layers ← req_u32 t "num_hidden_layers";
  num_attention_heads ← req_u32 t "num_attention_heads";
  num_key_value_heads ← req_u32 t "num_key_value_heads";
  head_dim ← req_u32 t "head_dim";
  qk_rope_head_dim ← req_u32 t "qk_rope_head_dim";
  q_lora_rank ← req_u32 t "q_lora_rank";
  o_lora_rank ← req_u32 t "o_lora_rank";
  o_groups ← req_u32 t "o_groups";
  hidden_act ← string_at t "hidden_act";
  swiglu_limit ← double_at t "swiglu_limit";
  rms_norm_eps ← double_at t "rms_norm_eps";
  max_position_embeddings ← req_u32 t "max_position_embeddings";
  rope_theta ← double_at t "rope_theta";
  rope_scaling ← parse_rope t;
  n_routed_experts ← req_u32 t "n_routed_experts";
  n_shared_experts ← req_u32 t "n_shared_experts";
  num_experts_per_tok ← req_u32 t "num_experts_per_tok";
  scoring_func ← string_at t "scoring_func";
  topk_method ← string_at t "topk_method";
  routed_scaling_factor ← double_at t "routed_scaling_factor";
  sliding_window ← req_u32 t "sliding_window";
  index_n_heads ← req_u32 t "index_n_heads";
  index_head_dim ← req_u32 t "index_head_dim";
  index_topk ← req_u32 t "index_topk";
  hc_mult ← req_u32 t "hc_mult";
  hc_sinkhorn_iters ← req_u32 t "hc_sinkhorn_iters";
  engram_max_ngram_size ← req_u32 t "engram_max_ngram_size";
  engram_vocab_size ← uint_at t "engram_vocab_size";
  engram_n_heads ← req_u32 t "engram_n_heads";
  engram_head_dim ← req_u32 t "engram_head_dim";
  engram_compressed_vocab_size ← req_u32 t "engram_compressed_vocab_size";
  num_nextn_predict_layers ← req_u32 t "num_nextn_predict_layers";
  dspark_block_size ← req_u32 t "dspark_block_size";
  dspark_markov_rank ← req_u32 t "dspark_markov_rank";
  dspark_n_routed_experts ← req_u32 t "dspark_n_routed_experts";
  dspark_num_experts_per_tok ← req_u32 t "dspark_num_experts_per_tok";
  Ret (mkTextConfig
    (string_or t "model_type" EmptyString) vocab_size hidden_size moe_intermediate_size
    num_hidden_layers num_attention_heads num_key_value_heads head_dim qk_rope_head_dim q_lora_rank
    o_lora_rank o_groups hidden_act swiglu_limit rms_norm_eps (bool_or t "attention_bias" false)
    (double_or t "attention_dropout" f64_zero) (double_or t "initializer_range" f64_zero)
    (bool_or t "use_cache" true) (bool_or t "tie_word_embeddings" false) max_position_embeddings
    rope_theta rope_scaling n_routed_experts n_shared_experts num_experts_per_tok scoring_func
    topk_method (bool_or t "norm_topk_prob" true) routed_scaling_factor sliding_window
    (opt_int_array t "compress_ratios") (double_or t "compress_rope_theta" f64_zero)
    (opt_int_array t "kv_source_layer_ids") (opt_int_array t "index_source_layer_ids")
    index_n_heads index_head_dim index_topk (u32 (int_or t "candidate_source_layer_id" 0))
    (u32 (int_or t "candidate_topk_blocks" 0)) (u32 (int_or t "candidate_block_size" 0)) hc_mult
    hc_sinkhorn_iters (double_or t "hc_eps" f64_zero) (opt_int_array t "engram_layer_ids")
    (opt_int_array t "engram_num_embeddings") engram_max_ngram_size engram_vocab_size
    engram_n_heads engram_head_dim (u32 (int_or t "engram_pad_token_id" 0))
    engram_compressed_vocab_size num_nextn_predict_layers dspark_block_size
    (u32 (int_or t "dspark_noise_token_id" 0)) (opt_int_array t "dspark_target_layer_ids")
    dspark_markov_rank dspark_n_routed_experts dspark_num_experts_per_tok).

Definition parse_vision (n : JsonValue) : VisionConfig :=
  let u key := u32 (int_or n key 0) in
  mkVisionConfig (string_or n "model_type" EmptyString) (u "num_hidden_layers") (u "hidden_size")
    (u "num_attention_heads") (u "intermediate_size") (u "patch_size") (double_or n "rope_theta" f64_zero)
    (u "downsample_ratio") (u "max_image_tokens") (u64 (int_or n "min_pixels" 0)).

Definition architectures_of (doc : JsonValue) : list string :=
  match find doc "architectures" with
  | Some (JArray a) => omap (fun e => match e with JString s => Some s | _ => None end) a
  | _ => []
  end.

Definition parse_v41 (doc : JsonValue) : Result V41Config :=
  _ ← fail_if (match doc with JObject _ => false | _ => true end) Corrupt;
  q ← parse_quant doc;
  t ← parse_text doc;
  Ret (mkV41Config (architectures_of doc) (string_or doc "model_type" EmptyString)
         (string_or doc "dtype" (string_or doc "torch_dtype" EmptyString))
         (int_or doc "bos_token_id" (-1)) (int_or doc "eos_token_id" (-1))
         (int_or doc "pad_token_id" (-1)) (int_or doc "image_token_id" (-1)) q t
         (match find doc "vision_config" with Some (JObject o) => Some (parse_vision (JObject o)) | _ => None end)).

Definition v41_parse (json : text) : Result V41Config := doc ← json_parse json; parse_v41 doc.
Definition v41_load (read_file : string -> Result text) (path : string) : Result V41Config :=
  json ← read_file path; v41_parse json.

(** ** Lookups *)

Definition contains (l : list Z) (x : Z) : bool := bool_decide (x ∈ l).

Definition engram_rows_for_layer (c : TextConfig) (layer : Z) : Result Z :=
  match list_find (fun l => l = layer) (tc_engram_layer_ids c) with
  | None => Fail NotFound
  | Some (i, _) => match tc_engram_num_embeddings c !! i with
                   | None => Fail Corrupt
                   | Some n => Ret (u64 n)
                   end
  end.
Definition compress_ratio (c : TextConfig) (layer : Z) : Z :=
  match tc_compress_ratios c !! Z.to_nat layer with
  | None => 0
  | Some r => if 0 <? r then u32 r else 0
  end.
Definition is_kv_source (c : TextConfig) (layer : Z) : bool := contains (tc_kv_source_layer_ids c) layer.
Definition is_index_source (c : TextConfig) (layer : Z) : bool := contains (tc_index_source_layer_ids c) layer.
Definition is_engram_layer (c : TextConfig) (layer : Z) : bool := contains (tc_engram_layer_ids c) layer.

(** ** [validate_against_layout]: the names of the checks that failed. *)

Definition check (name : string) (got want : Z) : list string := if got =? want then [] else [name].
Definition expect (name : string) (ok : bool) : list string := if ok then [] else [name].

Definition layout_mismatches (c : V41Config) : list string :=
  let t := text_config c in let q := quantization c in
  mjoin [
    check "hidden_size" (tc_hidden_size t) kHiddenSize;
    check "num_hidden_layers" (tc_num_hidden_layers t) kNumLayers;
    check "moe_intermediate_size" (tc_moe_intermediate_size t) kMoeIntermediate;
    check "n_routed_experts" (tc_n_routed_experts t) kRoutedExperts;
    check "n_shared_experts" (tc_n_shared_experts t) kSharedExperts;
    check "num_experts_per_tok" (tc_num_experts_per_tok t) kExpertsPerTok;
    check "num_attention_heads" (tc_num_attention_heads t) kAttnHeads;
    check "num_key_value_heads" (tc_num_key_value_heads t) kKvHeads;
    check "head_dim" (tc_head_dim t) kHeadDim;
    check "qk_rope_head_dim" (tc_qk_rope_head_dim t) kRopeHeadDim;
    check "q_lora_rank" (tc_q_lora_rank t) kQLoraRank;
    check "o_lora_rank" (tc_o_lora_rank t) kOLoraRank;
    check "o_groups" (tc_o_groups t) kOGroups;
    check "hc_mult" (tc_hc_mult t) kHcMult;
    check "hc_sinkhorn_iters" (tc_hc_sinkhorn_iters t) kSinkhornIters;
    check "sliding_window" (tc_sliding_window t) kSlidingWindow;
    check "vocab_size" (tc_vocab_size t) kVocabSize;
    check "engram_n_heads" (tc_engram_n_heads t) kEngramHeads;
    check "engram_head_dim" (tc_engram_head_dim t) kEngramHeadDim;
    check "engram_max_ngram_size" (tc_engram_max_ngram_size t) kEngramMaxNgram;
    check "index_n_heads" (tc_index_n_heads t) kIndexHeads;
    check "index_head_dim" (tc_index_head_dim t) kIndexHeadDim;
    check "index_topk" (tc_index_topk t) kIndexTopK;
    check "num_nextn_predict_layers" (tc_num_nextn_predict_layers t) kMtpBlocks;
    check "dspark_block_size" (tc_dspark_block_size t) kDsparkBlockSize;
    check "dspark_n_routed_experts" (tc_dspark_n_routed_experts t) kDsparkExperts;
    check "dspark_num_experts_per_tok" (tc_dspark_num_experts_per_tok t) kDsparkTopK;
    check "dspark_markov_rank" (tc_dspark_markov_rank t) kDsparkMarkovRank;
    check "dspark_target_layer_ids count" (Z.of_nat (length (tc_dspark_target_layer_ids t))) kMtpBlocks;
    mjoin ((fun l => expect "dspark_target_layer_ids" (negb ((l <? 0) || (tc_num_hidden_layers t <=? l)))) <$>
      tc_dspark_target_layer_ids t);
    expect "dspark_noise_token_id" (negb (tc_vocab_size t <=? tc_dspark_noise_token_id t));
    check "quant weight_block_m" (qc_weight_block_m q) kFp8ScaleBlockM;
    check "quant weight_block_k" (qc_weight_block_k q) kFp8ScaleBlockK;
    expect "scoring_func" (bool_decide (tc_scoring_func t = "sqrtsoftplus"));
    expect "topk_method" (bool_decide (tc_topk_method t = "noaux_tc"));
    expect "expert_dtype" (bool_decide (qc_expert_dtype q = "fp4"));
    expect "scale_fmt" (bool_decide (qc_scale_fmt q = "ue8m0"));
    check "engram_layer_ids" (Z.of_nat (length (tc_engram_layer_ids t))) kEngramLayers ].

Definition validate_against_layout (c : V41Config) : Result unit :=
  fail_if (negb (bool_decide (layout_mismatches c = []))) FailedPrecondition.

(** ** A parsed configuration *)

Definition u32_fields (c : TextConfig) : list Z := [
    tc_vocab_size c; tc_hidden_size c; tc_moe_intermediate_size c; tc_num_hidden_layers c;
    tc_num_attention_heads c; tc_num_key_value_heads c; tc_head_dim c; tc_qk_rope_head_dim c;
    tc_q_lora_rank c; tc_o_lora_rank c; tc_o_groups c; tc_max_position_embeddings c;
    tc_n_routed_experts c; tc_n_shared_experts c; tc_num_experts_per_tok c; tc_sliding_window c;
    tc_index_n_heads c; tc_index_head_dim c; tc_index_topk c; tc_candidate_source_layer_id c;
    tc_candidate_topk_blocks c; tc_candidate_block_size c; tc_hc_mult c; tc_hc_sinkhorn_iters c;
    tc_engram_max_ngram_size c; tc_engram_n_heads c; tc_engram_head_dim c; tc_engram_pad_token_id c;
    tc_engram_compressed_vocab_size c; tc_num_nextn_predict_layers c; tc_dspark_block_size c;
    tc_dspark_noise_token_id c; tc_dspark_markov_rank c; tc_dspark_n_routed_experts c;
    tc_dspark_num_experts_per_tok c].

Definition required_keys : list string := [
    "vocab_size"; "hidden_size"; "moe_intermediate_size"; "num_hidden_layers"; "num_attention_heads";
    "num_key_value_heads"; "head_dim"; "qk_rope_head_dim"; "q_lora_rank"; "o_lora_rank"; "o_groups";
    "hidden_act"; "swiglu_limit"; "rms_norm_eps"; "max_position_embeddings"; "rope_theta";
    "n_routed_experts"; "n_shared_experts"; "num_experts_per_tok"; "scoring_func"; "topk_method";
    "routed_scaling_factor"; "sliding_window"; "index_n_heads"; "index_head_dim"; "index_topk";
    "hc_mult"; "hc_sinkhorn_iters"; "engram_max_ngram_size"; "engram_n_heads"; "engram_head_dim";
    "engram_compressed_vocab_size"; "num_nextn_predict_layers"; "dspark_block_size";
    "dspark_markov_rank"; "dspark_n_routed_experts"; "dspark_num_experts_per_tok"; "engram_vocab_size"].

Lemma Ret_inj {A} (a b : A) : Ret a = Ret b -> a = b.
Proof. congruence. Qed.

Lemma req_u32_inv o k v : req_u32 o k = Ret v -> is_Some (find o k) /\ u32_val v.
Proof.
  unfold req_u32. intros (x & Hx & H)%bind_Ret. destruct (_ <? x); [done|]. injection H as <-. split; [|apply u32_range].
  unfold uint_at, at_key in Hx. by destruct (find o k).
Qed.

Lemma keyed_inv {A} (as_a : JsonValue -> Result A) o k v :
  (x ← at_key o k; recast (as_a x)) = Ret v -> is_Some (find o k).
Proof. unfold at_key. by destruct (find o k). Qed.

(** A field of a record just built: a number [req_u32] read, or one cut to 32 bits. *)
Ltac field_range :=
  lazymatch goal with |- u32_val (?f (mkTextConfig _ _ _ _ _ _ _ _ _ _ _ _ _ _ _ _ _ _ _ _ _ _ _ _ _ _ _ _ _ _ _ _ _ _ _ _ _ _ _ _ _ _ _ _ _ _ _ _ _ _ _ _ _ _ _ _ _ _ _)) => cbn [f] end;
  lazymatch goal with
  | |- u32_val (u32 _) => apply u32_range
  | H : u32_val ?x |- u32_val ?x => exact H
  end.

(** A configuration that parses has every required key, none of them defaulted, and its
    numbers fit their 32-bit fields. *)
Theorem parse_v41_typed doc c : parse_v41 doc = Ret c ->
  exists t, find doc "text_config" = Some t /\
    Forall (fun k => is_Some (find t k)) required_keys /\
    Forall u32_val (u32_fields (text_config c)).
Proof.
  unfold parse_v41. intros (u & _ & H)%bind_Ret. apply bind_Ret in H as (q & _ & H).
  apply bind_Ret in H as (tc & Ht & H). apply Ret_inj in H as <-. cbn [text_config].
  unfold parse_text in Ht. apply bind_Ret in Ht as (t & Hr & Ht).
  unfold at_key in Hr. destruct (find doc "text_config") as [t'|]; [|done]. apply Ret_inj in Hr as ->.
  exists t. split; [done|].
  repeat (let x := fresh "x" in apply bind_Ret in Ht as (x & ? & Ht)).
  apply Ret_inj in Ht as <-.
  repeat match goal with
  | H : req_u32 _ _ = Ret _ |- _ => apply req_u32_inv in H as [? ?]
  | H : double_at _ _ = Ret _ |- _ => apply keyed_inv in H
  | H : string_at _ _ = Ret _ |- _ => apply keyed_inv in H
  | H : uint_at _ _ = Ret _ |- _ => apply keyed_inv in H
  end.
  split; unfold required_keys, u32_fields.
  - repeat (apply Forall_cons; split; [assumption|]). by apply Forall_nil.
  - repeat (apply Forall_cons; split; [field_range|]). by apply Forall_nil.
Qed.

Definition example_config : JsonValue :=
  JObject [("text_config", JObject ((fun k =>
     (k, if bool_decide (k ∈ ["hidden_act"; "scoring_func"; "topk_method"]) then JString EmptyString
         else JNumber f64_one ["1"%char])) <$> required_keys));
   ("quantization_config", JObject [])].

Lemma parse_v41_typed_witness :
  is_ok (parse_v41 example_config) = true /\
  exists t, find example_config "text_config" = Some t /\ Forall (fun k => is_Some (find t k)) required_keys.
Proof.
  split; [by vm_compute|].
  destruct (parse_v41 example_config) as [c|e] eqn:E; [|by vm_compute in E].
  destruct (parse_v41_typed example_config c E) as (t & Ht & Hk & _). by exists t.
Defined.

(** A required key that is missing is [NotFound], where the header promises [Corrupt]. *)
Lemma missing_key_is_not_found : parse_v41 (JObject [("text_config", JObject []); ("quantization_config", JObject [])]) = Fail NotFound.
Proof. reflexivity. Qed.

(** A list key that is malformed is silently empty: the model then has no compressed layer. *)
Lemma malformed_list_is_empty o : find o "compress_ratios" = Some (JString "2,2") -> opt_int_array o "compress_ratios" = [].
Proof. intros H. unfold opt_int_array, int_array_at, at_key. by rewrite H. Qed.
