(* ===== verification/Manifest.v ===== *)
(** The checkpoint manifest ([src/model/manifest.h], [manifest.cpp]): the address
    book that turns an expert, a tensor or an engram row into sector-aligned reads.
    Data, lookups, [align_read] and [validate]; the JSON reader is [ManifestParse]. *)

From S2P Require Import Prelude Types.

(** ** Data *)

Inductive ExpertPart := W1Weight | W1Scale | W2Weight | W2Scale | W3Weight | W3Scale.
#[export] Instance ExpertPart_eq_dec : EqDecision ExpertPart.
Proof. solve_decision. Defined.

Definition all_parts : list ExpertPart :=
  [W1Weight; W1Scale; W2Weight; W2Scale; W3Weight; W3Scale].

(** [static_cast<uint8_t>(p)] *)
Definition part_index (p : ExpertPart) : nat :=
  match p with
  | W1Weight => 0 | W1Scale => 1 | W2Weight => 2 | W2Scale => 3 | W3Weight => 4 | W3Scale => 5
  end%nat.

Definition expert_part_name (p : ExpertPart) : string :=
  match p with
  | W1Weight => "w1.weight" | W1Scale => "w1.scale"
  | W2Weight => "w2.weight" | W2Scale => "w2.scale"
  | W3Weight => "w3.weight" | W3Scale => "w3.scale"
  end.

Definition expert_part_from_string (s : string) : option ExpertPart :=
  List.find (fun p => bool_decide (s = expert_part_name p)) all_parts.

Definition quant_from_string (s : string) : QuantType :=
  if bool_decide (s ∈ ["fp4_e2m1"; "fp4"; "e2m1"]) then Fp4E2M1
  else if bool_decide (s ∈ ["fp8_e4m3"; "fp8"; "e4m3"]) then Fp8E4M3
  else if bool_decide (s ∈ ["e8m0"; "ue8m0"]) then E8M0
  else if bool_decide (s ∈ ["bf16"; "bfloat16"]) then Bf16
  else if bool_decide (s ∈ ["f32"; "float32"; "fp32"]) then Fp32
  else if bool_decide (s ∈ ["f16"; "float16"; "fp16"]) then Fp16
  else QUnknown.

Definition quant_to_string (q : QuantType) : string :=
  match q with
  | Fp4E2M1 => "fp4_e2m1" | Fp8E4M3 => "fp8_e4m3" | E8M0 => "e8m0" | Bf16 => "bf16"
  | Fp32 => "f32" | Fp16 => "f16" | QUnknown => "unknown"
  end.

Record FileEntry := mkFileEntry {
  fe_path : string; fe_bytes : Z; fe_data_start : Z; fe_sha256 : string }.

Record ScaleEntry := mkScaleEntry {
  sc_file : Z; sc_offset : Z; sc_bytes : Z; sc_dtype : QuantType; sc_shape : list Z;
  sc_block_m : Z; sc_block_k : Z }.
Definition ScaleEntry_default : ScaleEntry := mkScaleEntry 0 0 0 QUnknown [] 0 0.
Definition sc_present (s : ScaleEntry) : bool := negb (sc_bytes s =? 0).

Record TensorEntry := mkTensorEntry {
  te_name : string; te_file : Z; te_offset : Z; te_bytes : Z; te_dtype : QuantType;
  te_shape : list Z; te_scale : ScaleEntry }.

Definition elements (t : TensorEntry) : Z :=
  foldl (fun n d => u64 (n * d)) (if bool_decide (te_shape t = []) then 0 else 1) (te_shape t).

Record RunPart := mkRunPart {
  rp_part : ExpertPart; rp_skew : Z; rp_bytes : Z; rp_slot_offset : Z }.

Record Run := mkRun {
  run_file : Z; run_aligned_off : Z; run_aligned_bytes : Z; run_slot_offset : Z;
  run_parts : list RunPart }.

Record ExpertEntry := mkExpertEntry {
  ee_runs : list Run; ee_slot_bytes : Z;
  ee_part_offset : list Z; ee_part_bytes : list Z }.
#[export] Instance ExpertEntry_eta : Eta ExpertEntry := fun e =>
  mkExpertEntry (ee_runs e) (ee_slot_bytes e) (ee_part_offset e) (ee_part_bytes e).
Definition ExpertEntry_default : ExpertEntry :=
  mkExpertEntry [] 0 (replicate kExpertPartCount 0) (replicate kExpertPartCount 0).

Definition offset_of (e : ExpertEntry) (p : ExpertPart) : Z :=
  default 0 (ee_part_offset e !! part_index p).
Definition bytes_of (e : ExpertEntry) (p : ExpertPart) : Z :=
  default 0 (ee_part_bytes e !! part_index p).

Record EngramPlane := mkEngramPlane {
  ep_file : Z; ep_offset : Z; ep_bytes : Z; ep_row_bytes : Z; ep_dtype : QuantType }.

Record EngramEntry := mkEngramEntry {
  eg_layer : Z; eg_rows : Z; eg_value : EngramPlane; eg_scale : EngramPlane }.

Record AlignedRead := mkAlignedRead {
  ar_file : Z; ar_aligned_off : Z; ar_aligned_bytes : Z; ar_skew : Z; ar_bytes : Z }.

Record EngramRowPlan := mkEngramRowPlan { pl_value : AlignedRead; pl_scale : AlignedRead }.

Record Manifest := mkManifest {
  version : Z; alignment : Z; expert_slot_bytes : Z; model : string;
  files : list FileEntry; tensors : gmap string TensorEntry;
  experts : list (list ExpertEntry); engram : list EngramEntry }.
#[export] Instance Manifest_eta : Eta Manifest := fun m =>
  mkManifest (version m) (alignment m) (expert_slot_bytes m) (model m)
             (files m) (tensors m) (experts m) (engram m).

(** ** Aligned reads and lookups *)

Definition align_read (file off bytes : Z) : AlignedRead :=
  let aligned_off := align_down off kPageSize in
  mkAlignedRead file aligned_off
    (u64 (align_up (u64 (off + bytes)) kPageSize - aligned_off))
    (u32 (u64 (off - aligned_off))) bytes.

Definition file (m : Manifest) (i : Z) : option FileEntry := files m !! Z.to_nat i.

Fixpoint file_index_from (fs : list FileEntry) (path : string) (i : Z) : option Z :=
  match fs with
  | [] => None
  | f :: fs => if bool_decide (fe_path f = path) then Some i else file_index_from fs path (i + 1)
  end.
Definition file_index (m : Manifest) (path : string) : option Z := file_index_from (files m) path 0.

Definition tensor (m : Manifest) (name : string) : option TensorEntry := tensors m !! name.

Definition require_tensor (m : Manifest) (name : string) : Result TensorEntry :=
  match tensor m name with Some t => Ret t | None => Fail NotFound end.

Definition tensor_read (m : Manifest) (name : string) : Result AlignedRead :=
  t ← require_tensor m name;
  Ret (align_read (te_file t) (te_offset t) (te_bytes t)).

Definition tensor_scale_read (m : Manifest) (name : string) : Result AlignedRead :=
  t ← require_tensor m name;
  if sc_present (te_scale t)
  then Ret (align_read (sc_file (te_scale t)) (sc_offset (te_scale t)) (sc_bytes (te_scale t)))
  else Fail NotFound.

Definition experts_in_layer (m : Manifest) (layer : Z) : Z :=
  match experts m !! Z.to_nat layer with Some row => Z.of_nat (length row) | None => 0 end.

Definition expert_entry (m : Manifest) (key : ExpertKey) : option ExpertEntry :=
  row ← experts m !! Z.to_nat (layer key); row !! Z.to_nat (expert key).

Definition require_expert (m : Manifest) (key : ExpertKey) : Result ExpertEntry :=
  match expert_entry m key with Some e => Ret e | None => Fail OutOfRange end.

Definition engram_for_layer (m : Manifest) (layer : Z) : option EngramEntry :=
  List.find (fun e => eg_layer e =? layer) (engram m).

Definition engram_row (m : Manifest) (layer row : Z) : Result EngramRowPlan :=
  match engram_for_layer m layer with
  | None => Fail NotFound
  | Some e =>
      if eg_rows e <=? row then Fail OutOfRange
      else
        let plane p := align_read (ep_file p)
                         (u64 (ep_offset p + u64 (row * ep_row_bytes p))) (ep_row_bytes p) in
        Ret (mkEngramRowPlan (plane (eg_value e)) (plane (eg_scale e)))
  end.

(** ** Validation

    [validate] appends one line per inconsistency to a message and fails when the
    message is not empty; the model keeps the kind of each line. *)

Inductive Violation :=
| BadAlignment | BadFileIndex | PastEnd | StartsPastEnd | Overshoots
| UnknownDtype | NotReadable | NoSlotBytes | SlotBytesUnaligned | SlotBytesMismatch
| NoRuns | TooManyRuns | SlotTooSmall | RunUnaligned | RunOffsetMismatch | RunOffsetUnaligned
| PartSpills | PartOffsetMismatch | RunSumMismatch | PayloadMismatch | MissingPart
| EngramValueRow | EngramScaleRow.

(** [if (b) bad += ...] *)
Definition note (b : bool) (v : Violation) : list Violation := if b then [v] else [].

Definition check_range (m : Manifest) (fi off bytes : Z) : list Violation :=
  match file m fi with
  | None => [BadFileIndex]
  | Some f => note (negb (fe_bytes f =? 0) && (fe_bytes f <? u64 (off + bytes))) PastEnd
  end.

Definition check_read (m : Manifest) (fi aligned_off aligned_bytes : Z) : list Violation :=
  match file m fi with
  | None => [BadFileIndex]
  | Some f =>
      if fe_bytes f =? 0 then []
      else if fe_bytes f <=? aligned_off then [StartsPastEnd]
      else note (align_up (fe_bytes f) kPageSize <? u64 (aligned_off + aligned_bytes)) Overshoots
  end.

Definition check_tensor (m : Manifest) (t : TensorEntry) : list Violation :=
  check_range m (te_file t) (te_offset t) (te_bytes t)
  ++ note (bool_decide (te_dtype t = QUnknown)) UnknownDtype
  ++ (if sc_present (te_scale t)
      then check_range m (sc_file (te_scale t)) (sc_offset (te_scale t)) (sc_bytes (te_scale t))
      else [])
  ++ (let r := align_read (te_file t) (te_offset t) (te_bytes t) in
      match file m (te_file t) with
      | None => []
      | Some f =>
          note (negb (fe_bytes f =? 0) &&
                (align_up (fe_bytes f) kPageSize
                   <? u64 (ar_aligned_off r + ar_aligned_bytes r))) NotReadable
      end).

Definition check_part (m : Manifest) (r : Run) (p : RunPart) : list Violation :=
  check_range m (run_file r) (u64 (run_aligned_off r + rp_skew p)) (rp_bytes p)
  ++ note (run_aligned_bytes r <? u64 (rp_skew p + rp_bytes p)) PartSpills
  ++ note (negb (rp_slot_offset p =? u64 (run_slot_offset r + rp_skew p))) PartOffsetMismatch.

Definition check_run (m : Manifest) (cursor : Z) (r : Run) : list Violation :=
  note (negb (is_aligned (run_aligned_off r) kPageSize)
        || negb (is_aligned (run_aligned_bytes r) kPageSize)) RunUnaligned
  ++ note (negb (run_slot_offset r =? cursor)) RunOffsetMismatch
  ++ note (negb (is_aligned (run_slot_offset r) kPageSize)) RunOffsetUnaligned
  ++ check_read m (run_file r) (run_aligned_off r) (run_aligned_bytes r)
  ++ flat_map (check_part m r) (run_parts r).

(** The run loop with its two accumulators. *)
Fixpoint check_runs (m : Manifest) (rs : list Run) (cursor payload : Z)
  : Z * Z * list Violation :=
  match rs with
  | [] => (cursor, payload, [])
  | r :: rs =>
      let here := check_run m cursor r in
      let payload := foldl (fun n p => u64 (n + rp_bytes p)) payload (run_parts r) in
      let '(c, p, bad) := check_runs m rs (u64 (cursor + run_aligned_bytes r)) payload in
      (c, p, here ++ bad)
  end.

Definition check_expert (m : Manifest) (e : ExpertEntry) : list Violation :=
  if bool_decide (ee_runs e = []) then [NoRuns]
  else
    let '(cursor, payload, bad) := check_runs m (ee_runs e) 0 0 in
    note (Nat.ltb kMaxExpertRuns (length (ee_runs e))) TooManyRuns
    ++ note (expert_slot_bytes m <? ee_slot_bytes e) SlotTooSmall
    ++ bad
    ++ note (negb (cursor =? ee_slot_bytes e)) RunSumMismatch
    ++ note (negb (payload =? kExpertBytes)) PayloadMismatch
    ++ flat_map (fun p => note (bytes_of e p =? 0) MissingPart) all_parts.

Definition check_engram (m : Manifest) (e : EngramEntry) : list Violation :=
  note (negb (ep_row_bytes (eg_value e) =? kEngramValueRowBytes)) EngramValueRow
  ++ note (negb (ep_row_bytes (eg_scale e) =? kEngramScaleRowBytes)) EngramScaleRow
  ++ check_range m (ep_file (eg_value e)) (ep_offset (eg_value e))
       (u64 (eg_rows e * ep_row_bytes (eg_value e)))
  ++ check_range m (ep_file (eg_scale e)) (ep_offset (eg_scale e))
       (u64 (eg_rows e * ep_row_bytes (eg_scale e))).

Definition violations (m : Manifest) : list Violation :=
  note (negb ((if alignment m =? 0 then kPageSize else alignment m) =? kPageSize)) BadAlignment
  ++ flat_map (fun nt => check_tensor m nt.2) (map_to_list (tensors m))
  ++ note ((expert_slot_bytes m =? 0) && negb (bool_decide (experts m = []))) NoSlotBytes
  ++ note (negb (expert_slot_bytes m =? 0) && negb (expert_slot_bytes m mod kPageSize =? 0))
          SlotBytesUnaligned
  ++ note (negb (expert_slot_bytes m =? 0) && negb (expert_slot_bytes m =? kExpertSlotBytes))
          SlotBytesMismatch
  ++ flat_map (flat_map (check_expert m)) (experts m)
  ++ flat_map (check_engram m) (engram m).

Definition validate (m : Manifest) : Result unit :=
  if bool_decide (violations m = []) then Ret tt else Fail Corrupt.

Definition total_bytes (m : Manifest) : Z :=
  let t := foldl (fun n nt => u64 (n + u64 (te_bytes nt.2 + sc_bytes (te_scale nt.2)))) 0
             (map_to_list (tensors m)) in
  foldl (fun n e => foldl (fun n p => u64 (n + bytes_of e p)) n all_parts) t (concat (experts m)).

Definition file_bytes (m : Manifest) : Z := foldl (fun n f => u64 (n + fe_bytes f)) 0 (files m).

(** ** Aligned reads *)

(** Shared form: [align_read] over the mathematical integers. *)
Lemma align_read_exact fi off bytes :
  0 <= off -> 0 <= bytes -> off + bytes <= 2 ^ 64 - kPageSize ->
  let r := align_read fi off bytes in
  ar_aligned_off r = align_down off kPageSize /\
  ar_aligned_bytes r = align_up (off + bytes) kPageSize - align_down off kPageSize /\
  ar_skew r = off - align_down off kPageSize.
Proof.
  unfold kPageSize. intros Ho Hb Hs.
  pose proof (align_down_page off ltac:(lia)) as (Hd & _ & Hn).
  pose proof (align_up_page (off + bytes) ltac:(unfold kPageSize; lia)) as [Hu _].
  unfold align_read; cbn [ar_aligned_off ar_aligned_bytes ar_skew]. unfold kPageSize in *.
  rewrite (u64_small (off + bytes)) by lia.
  rewrite !u64_small by lia. rewrite u32_small by lia. done.
Qed.

(** [align_read] widens a byte range to sector boundaries: offset and length are
    4 KiB multiples, the payload starts [skew < 4096] bytes into the read, lies wholly
    inside it, and at most one sector is read on each side. *)
Theorem align_read_covers fi off bytes :
  0 <= off -> 0 <= bytes -> off + bytes <= 2 ^ 64 - kPageSize ->
  let r := align_read fi off bytes in
  ar_file r = fi /\ ar_bytes r = bytes /\
  ar_aligned_off r mod kPageSize = 0 /\ ar_aligned_bytes r mod kPageSize = 0 /\
  ar_aligned_off r + ar_skew r = off /\ 0 <= ar_skew r < kPageSize /\
  ar_skew r + bytes <= ar_aligned_bytes r < bytes + 2 * kPageSize.
Proof.
  intros Ho Hb Hs r.
  pose proof (align_read_exact fi off bytes Ho Hb Hs) as (E1 & E2 & E3). fold r in E1, E2, E3.
  pose proof (align_down_page off ltac:(unfold kPageSize in *; lia)) as (Hd & Hdm & Hn).
  pose proof (align_up_page (off + bytes) ltac:(lia)) as [Hu Hum].
  rewrite E1, E2, E3. repeat split; try done; unfold kPageSize in *; lia.
Qed.

Lemma align_read_covers_witness :
  (0 <= 664 /\ 0 <= 256 /\ 664 + 256 <= 2 ^ 64 - kPageSize) /\
  ar_aligned_off (align_read 46 664 256) mod kPageSize = 0.
Proof.
  split; [unfold kPageSize; lia|].
  apply (align_read_covers 46 664 256); unfold kPageSize; lia.
Defined.

(** ** Validation *)

Lemma note_nil b v : note b v = [] <-> b = false.
Proof. destruct b; simpl; split; done. Qed.

Lemma flat_map_nil {A B} (f : A -> list B) (l : list A) :
  flat_map f l = [] <-> Forall (fun x => f x = []) l.
Proof.
  induction l as [|x l IH]; simpl; [by split|].
  by rewrite app_nil, Forall_cons, IH.
Qed.

(** Splits the violation lists of the checks into one equation per check. *)
Ltac split_checks :=
  repeat match goal with
  | H : _ ++ _ = [] |- _ => apply app_nil in H as [? ?]
  | H : note _ _ = [] |- _ => apply note_nil in H
  | H : negb _ = false |- _ => apply negb_false_iff in H
  | H : (_ =? _) = true |- _ => apply Z.eqb_eq in H
  | H : (_ <? _) = false |- _ => apply Z.ltb_ge in H
  | H : _ || _ = false |- _ => apply orb_false_iff in H as [? ?]
  end.


(** What the C++ types guarantee of a parsed run. *)
Definition part_typed (p : RunPart) : Prop :=
  0 <= rp_skew p < 2 ^ 32 /\ u64_val (rp_bytes p) /\ u64_val (rp_slot_offset p).
Definition run_typed (r : Run) : Prop :=
  u64_val (run_aligned_off r) /\ u64_val (run_aligned_bytes r) /\ u64_val (run_slot_offset r)
  /\ Forall part_typed (run_parts r).

Definition run_lengths (rs : list Run) : list Z := run_aligned_bytes <$> rs.

Lemma run_lengths_nonneg rs : Forall run_typed rs -> Forall (fun x => 0 <= x) (run_lengths rs).
Proof. intros H. apply Forall_fmap. eapply Forall_impl; [exact H|]. intros r (_ & [? ?] & _). done. Qed.

Lemma check_runs_cursor m rs cursor payload c p bad :
  check_runs m rs cursor payload = (c, p, bad) ->
  0 <= cursor -> Forall run_typed rs -> cursor + sum_Z (run_lengths rs) < 2 ^ 64 ->
  c = cursor + sum_Z (run_lengths rs).
Proof.
  revert cursor payload c p bad. induction rs as [|r rs IH]; intros cursor payload c p bad E Hc Ht Hs.
  { simpl in *. simplify_eq. lia. }
  simpl in E. destruct (check_runs m rs _ _) as [[c' p'] bad'] eqn:E'. simplify_eq.
  apply Forall_cons in Ht as [(_ & [Hr _] & _) Ht]. simpl in Hs.
  pose proof (sum_Z_nonneg _ (run_lengths_nonneg rs Ht)).
  rewrite u64_small in E' by lia.
  simpl. apply IH in E'; try done; lia.
Qed.

(** A run that passed [check_run] at a cursor. *)
Lemma check_run_sound m cursor r :
  check_run m cursor r = [] -> run_typed r ->
  run_aligned_off r mod kPageSize = 0 /\ run_aligned_bytes r mod kPageSize = 0 /\
  run_slot_offset r mod kPageSize = 0 /\ run_slot_offset r = cursor /\
  is_Some (file m (run_file r)) /\
  (cursor + run_aligned_bytes r < 2 ^ 64 ->
   forall p, p ∈ run_parts r -> u64 (rp_skew p + rp_bytes p) = rp_skew p + rp_bytes p ->
     rp_skew p + rp_bytes p <= run_aligned_bytes r /\
     rp_slot_offset p = run_slot_offset r + rp_skew p).
Proof.
  unfold check_run. intros H (Ho & Hb & Hs & Hp). unfold u64_val in *.
  apply app_nil in H as [Hal [Hoff [Hsal [Hrd Hpt]%app_nil]%app_nil]%app_nil].
  split_checks. rewrite is_aligned_page in * by lia.
  split; [done|]. split; [done|]. split; [done|]. split; [done|]. split.
  { unfold check_read in Hrd. destruct (file m (run_file r)); [eauto|done]. }
  intros Hc p Hin Hw. apply flat_map_nil in Hpt. rewrite Forall_forall in Hpt, Hp.
  specialize (Hpt p Hin). destruct (Hp p Hin) as ([? ?] & [? ?] & [? ?]).
  unfold check_part in Hpt. split_checks. rewrite Hw in *.
  assert (rp_skew p + rp_bytes p <= run_aligned_bytes r) by lia.
  split; [done|].
  match goal with E : rp_slot_offset _ = u64 _ |- _ => rewrite u64_small in E by lia; lia end.
Qed.

(** The arithmetic the check relies on not to wrap: a run's and a part's end, and the
    totals, are below [2^64].  [validate_accepts_wrapping_run] shows it is needed. *)
Definition entry_sane (e : ExpertEntry) : Prop :=
  Forall run_typed (ee_runs e) /\ sum_Z (run_lengths (ee_runs e)) < 2 ^ 64 /\
  Forall (fun r => Forall (fun p => rp_skew p + rp_bytes p < 2 ^ 64) (run_parts r)) (ee_runs e).

(** What the store relies on when it turns an entry into a fill of one slot. *)
Record fill_plan_ok (e : ExpertEntry) (slot_bytes : Z) : Prop := {
  fp_count : (1 <= length (ee_runs e) <= kMaxExpertRuns)%nat;
  fp_total : ee_slot_bytes e = sum_Z (run_lengths (ee_runs e)) /\ ee_slot_bytes e <= slot_bytes;
  fp_run : forall i r, ee_runs e !! i = Some r ->
    run_slot_offset r = sum_Z (run_lengths (take i (ee_runs e))) /\
    run_slot_offset r + run_aligned_bytes r <= slot_bytes /\
    run_aligned_off r mod kPageSize = 0 /\ run_aligned_bytes r mod kPageSize = 0 /\
    run_slot_offset r mod kPageSize = 0;
  fp_part : forall r p, r ∈ ee_runs e -> p ∈ run_parts r ->
    rp_slot_offset p = run_slot_offset r + rp_skew p /\
    rp_slot_offset p + rp_bytes p <= run_slot_offset r + run_aligned_bytes r;
  fp_parts_present : forall q, bytes_of e q <> 0 }.

Lemma check_runs_lookup m rs cursor payload c p i r :
  check_runs m rs cursor payload = (c, p, []) ->
  0 <= cursor -> Forall run_typed rs -> cursor + sum_Z (run_lengths rs) < 2 ^ 64 ->
  rs !! i = Some r -> check_run m (cursor + sum_Z (run_lengths (take i rs))) r = [].
Proof.
  revert cursor payload c p i. induction rs as [|r0 rs IH]; intros cursor payload c p i E Hc Ht Hs Hi.
  { done. }
  simpl in E. destruct (check_runs m rs _ _) as [[c' p'] bad'] eqn:E'. simplify_eq.
  match goal with H : _ ++ _ = [] |- _ => apply app_nil in H as [Hhere ->] end.
  apply Forall_cons in Ht as [(_ & [Hr _] & _) Ht]. simpl in Hs.
  pose proof (sum_Z_nonneg _ (run_lengths_nonneg rs Ht)).
  rewrite u64_small in E' by lia. destruct i as [|i]; simpl in Hi.
  { simplify_eq. simpl. by rewrite Z.add_0_r. }
  eapply (IH _ _ _ _ i) in E'; try done; try lia.
  simpl. by rewrite Z.add_assoc.
Qed.

Lemma sum_Z_take_le (l : list Z) i x :
  Forall (fun y => 0 <= y) l -> l !! i = Some x -> sum_Z (take i l) + x <= sum_Z l.
Proof.
  intros Hl Hi. rewrite <- (take_drop_middle l i x Hi) at 2.
  rewrite sum_Z_app. simpl.
  assert (0 <= sum_Z (drop (S i) l)) by (apply sum_Z_nonneg; by apply Forall_drop). lia.
Qed.

Lemma all_parts_complete q : q ∈ all_parts.
Proof. rewrite list_elem_of_In. destruct q; simpl; tauto. Qed.

Lemma check_expert_sound m e :
  check_expert m e = [] -> entry_sane e -> fill_plan_ok e (expert_slot_bytes m).
Proof.
  unfold check_expert. intros H (Ht & Hs & Hp).
  destruct (bool_decide (ee_runs e = [])) eqn:Hne; [done|]. apply bool_decide_eq_false in Hne.
  destruct (check_runs m (ee_runs e) 0 0) as [[c p] bad] eqn:E.
  apply app_nil in H as [Hn [Hsl [-> [Hsum [_ Hpres]%app_nil]%app_nil]%app_nil]%app_nil].
  split_checks. pose proof (check_runs_cursor _ _ _ _ _ _ _ E ltac:(lia) Ht ltac:(lia)) as Hc.
  pose proof (run_lengths_nonneg _ Ht) as Hnn.
  assert (Hrun : forall i r, ee_runs e !! i = Some r ->
    check_run m (sum_Z (run_lengths (take i (ee_runs e)))) r = [] /\ run_typed r /\
    sum_Z (run_lengths (take i (ee_runs e))) + run_aligned_bytes r <= ee_slot_bytes e).
  { intros i r Hi. split; [|split].
    - eapply (check_runs_lookup m _ 0 0) in Hi; [exact Hi|done|lia|done|lia].
    - rewrite Forall_lookup in Ht. eauto.
    - rewrite <- Hsum, Hc. unfold run_lengths. rewrite fmap_take.
      apply (sum_Z_take_le _ i); [done|].
      unfold run_lengths. by rewrite list_lookup_fmap, Hi. }
  split.
  - apply Nat.ltb_ge in Hn. destruct (ee_runs e); [done|simpl in *; lia].
  - lia.
  - intros i r Hi. destruct (Hrun i r Hi) as (Hck & Htr & Hle).
    apply check_run_sound in Hck as (? & ? & ? & Hoff & _); [|done].
    repeat split; try done; lia.
  - intros r q [i Hi]%list_elem_of_lookup Hq. destruct (Hrun i r Hi) as (Hck & Htr & Hle).
    apply check_run_sound in Hck as (_ & _ & _ & Hoff & _ & Hck); [|done].
    rewrite Forall_lookup in Hp. specialize (Hp i r Hi). rewrite Forall_forall in Hp.
    pose proof Htr as (_ & [? ?] & _ & Hpt). rewrite Forall_forall in Hpt.
    destruct (Hpt q Hq) as ([? ?] & [? ?] & _).
    specialize (Hck ltac:(lia) q Hq ltac:(apply u64_small; split; [lia|by apply Hp])). lia.
  - intros q Hq. rewrite flat_map_nil, Forall_forall in Hpres.
    specialize (Hpres q (all_parts_complete q)). apply note_nil in Hpres.
    rewrite Hq in Hpres. done.
Qed.

(** A manifest [validate] accepts gives every expert a fill plan the store can
    execute: one to six runs laid end to end from offset 0 of the slot, each a whole
    number of sectors, all inside [kExpertSlotBytes], every part inside its run at the
    slot offset the pointer table will publish, and no part missing. *)
Theorem validate_fill_plan m key e :
  validate m = Ret tt -> expert_entry m key = Some e -> entry_sane e ->
  fill_plan_ok e kExpertSlotBytes.
Proof.
  unfold validate. intros Hv He Hsane.
  destruct (bool_decide (violations m = [])) eqn:Hb; [|done]. apply bool_decide_eq_true in Hb.
  unfold violations in Hb.
  apply app_nil in Hb as
    [_ [_ [Hz [_ [Hsz [Hexp _]%app_nil]%app_nil]%app_nil]%app_nil]%app_nil].
  unfold expert_entry in He. apply bind_Some in He as (row & Hrow & He).
  rewrite flat_map_nil, Forall_lookup in Hexp. specialize (Hexp _ _ Hrow). cbv beta in Hexp.
  rewrite flat_map_nil, Forall_lookup in Hexp. specialize (Hexp _ _ He). cbv beta in Hexp.
  apply note_nil in Hz, Hsz.
  replace kExpertSlotBytes with (expert_slot_bytes m); [by apply check_expert_sound|].
  destruct (expert_slot_bytes m =? 0) eqn:E0; simpl in Hz, Hsz; split_checks; [|done].
  apply bool_decide_eq_true in Hz. by rewrite Hz in Hrow.
Qed.

(** A one-expert manifest for the examples: the shipped layout, a scales run and a
    weights run ([layout.h]: 1,110,016 B and 17,698,816 B). *)
Definition shipped_parts (o s : Z) (ps : list (ExpertPart * Z)) : list RunPart :=
  (foldl (fun '(off, out) '(p, b) => (off + b, out ++ [mkRunPart p off b (o + off)])) (s, []) ps).2.

Definition shipped_expert : ExpertEntry :=
  let scales := shipped_parts 0 3896 [(W1Scale, 368640); (W2Scale, 368640); (W3Scale, 368640)] in
  let weights := shipped_parts 1110016 808
                   [(W1Weight, 5898240); (W2Weight, 5898240); (W3Weight, 5898240)] in
  mkExpertEntry
    [mkRun 0 8269824 1110016 0 scales; mkRun 0 9400320 17698816 1110016 weights]
    18808832
    [1110824; 3896; 7009064; 372536; 12907304; 741176]
    [5898240; 368640; 5898240; 368640; 5898240; 368640].

Definition shipped_manifest : Manifest :=
  mkManifest 2 4096 18808832 "DeepSeek-V4.1-Flash"
    [mkFileEntry "model-00001-of-00048.safetensors" 970533624 4184 ""]
    {[ "norm.weight" := mkTensorEntry "norm.weight" 0 664 10240 Bf16 [5120] ScaleEntry_default ]}
    [[shipped_expert]]
    [mkEngramEntry 1 1000 (mkEngramPlane 0 664 256000 256 Fp8E4M3)
       (mkEngramPlane 0 400000 8000 8 E8M0)].

Lemma shipped_expert_sane : entry_sane shipped_expert.
Proof.
  split; [|split]; [|vm_compute; done|]; repeat constructor; vm_compute; done.
Qed.

Lemma validate_fill_plan_witness :
  validate shipped_manifest = Ret tt /\ fill_plan_ok shipped_expert kExpertSlotBytes.
Proof.
  split; [vm_compute; reflexivity|].
  apply (validate_fill_plan shipped_manifest (mkKey 0 0)).
  - vm_compute; reflexivity.
  - vm_compute; reflexivity.
  - apply shipped_expert_sane.
Defined.

(** The same six parts, but in a run whose length is [2^64 - 4096]: the running total
    wraps back to the slot size, so every comparison of [validate] holds. *)
Definition wrapping_expert : ExpertEntry :=
  let parts := shipped_parts 0 0
    [(W1Weight, 5898240); (W1Scale, 368640); (W2Weight, 5898240); (W2Scale, 368640);
     (W3Weight, 5898240); (W3Scale, 368640)] in
  mkExpertEntry
    [mkRun 0 4096 (2 ^ 64 - 4096) 0 parts; mkRun 0 0 18812928 (2 ^ 64 - 4096) []]
    18808832
    (map rp_slot_offset parts) (map rp_bytes parts).

Definition wrapping_manifest : Manifest := shipped_manifest <| experts := [[wrapping_expert]] |>.

(** The sums of [validate] are unguarded [uint64_t] arithmetic: it accepts a manifest
    whose expert has a run longer than the slot it is to be read into. *)
Theorem validate_accepts_wrapping_run :
  exists m e r, validate m = Ret tt /\ expert_entry m (mkKey 0 0) = Some e /\
    r ∈ ee_runs e /\ run_slot_offset r + run_aligned_bytes r > kExpertSlotBytes.
Proof.
  exists wrapping_manifest, wrapping_expert, (mkRun 0 4096 (2 ^ 64 - 4096) 0
    (run_parts (default (mkRun 0 0 0 0 []) (ee_runs wrapping_expert !! 0%nat)))).
  split; [vm_compute; reflexivity|]. split; [vm_compute; reflexivity|].
  split; [apply list_elem_of_here|]. vm_compute. done.
Qed.

(** ** Engram rows *)

Definition plane_typed (rows : Z) (p : EngramPlane) : Prop :=
  0 <= ep_offset p /\ 0 <= ep_row_bytes p /\ 0 <= rows /\
  ep_offset p + rows * ep_row_bytes p <= 2 ^ 64 - kPageSize.

(** The read [r] delivers exactly [bytes] bytes at [off] of shard [f], inside the shard. *)
Definition read_of (m : Manifest) (f off bytes : Z) (r : AlignedRead) : Prop :=
  r = align_read f off bytes /\
  exists fe, file m f = Some fe /\ (fe_bytes fe = 0 \/ off + bytes <= fe_bytes fe).

Lemma plane_row_in_file m rows row p :
  plane_typed rows p -> 0 <= row < rows ->
  check_range m (ep_file p) (ep_offset p) (u64 (rows * ep_row_bytes p)) = [] ->
  read_of m (ep_file p) (ep_offset p + row * ep_row_bytes p) (ep_row_bytes p)
    (align_read (ep_file p) (u64 (ep_offset p + u64 (row * ep_row_bytes p))) (ep_row_bytes p)).
Proof.
  unfold kPageSize. intros (Ho & Hb & Hr & Hs) Hrow Hck. unfold plane_typed, kPageSize in *.
  assert (0 <= row * ep_row_bytes p) by (apply Z.mul_nonneg_nonneg; lia).
  assert (row * ep_row_bytes p + ep_row_bytes p <= rows * ep_row_bytes p) by nia.
  rewrite (u64_small (row * _)), u64_small by lia.
  split; [done|]. unfold check_range in Hck.
  destruct (file m (ep_file p)) as [fe|]; [|done]. exists fe. split; [done|].
  apply note_nil in Hck. rewrite (u64_small (rows * _)), u64_small in Hck by lia.
  apply andb_false_iff in Hck as [Hz|Hle].
  - left. apply negb_false_iff in Hz. lia.
  - right. apply Z.ltb_ge in Hle. lia.
Qed.

(** After [validate], [engram_row] turns a row index into the two reads of that row,
    256 B of values and 8 B of scales, each inside its shard; a layer without a table is
    [NotFound] and a row past the table is [OutOfRange]. *)
Theorem engram_row_plan m layer row :
  validate m = Ret tt ->
  (forall e, e ∈ engram m -> plane_typed (eg_rows e) (eg_value e) /\ plane_typed (eg_rows e) (eg_scale e)) ->
  0 <= row ->
  match engram_row m layer row with
  | Ret pl => exists e, e ∈ engram m /\ eg_layer e = layer /\ row < eg_rows e /\
      read_of m (ep_file (eg_value e)) (ep_offset (eg_value e) + row * 256) 256 (pl_value pl) /\
      read_of m (ep_file (eg_scale e)) (ep_offset (eg_scale e) + row * 8) 8 (pl_scale pl)
  | Fail NotFound => forall e, e ∈ engram m -> eg_layer e <> layer
  | Fail OutOfRange => exists e, e ∈ engram m /\ eg_layer e = layer /\ eg_rows e <= row
  | Fail _ => False
  end.
Proof.
  intros Hv Ht Hrow. unfold validate in Hv.
  destruct (bool_decide (violations m = [])) eqn:Hb; [|done]. apply bool_decide_eq_true in Hb.
  unfold violations in Hb. rewrite !app_assoc in Hb. apply app_nil in Hb as [_ Heng].
  rewrite flat_map_nil, Forall_forall in Heng. unfold engram_row, engram_for_layer.
  destruct (List.find _ (engram m)) as [e|] eqn:Hf.
  2: { intros e He. rewrite list_elem_of_In in He.
       pose proof (List.find_none _ _ Hf e He) as Hn. cbv beta in Hn. lia. }
  apply List.find_some in Hf as [He Hl]. rewrite <- list_elem_of_In in He.
  destruct (Ht e He) as [Hpv Hps]. specialize (Heng e He).
  apply app_nil in Heng as [Hv1 [Hs1 [Hv2 Hs2]%app_nil]%app_nil]. split_checks.
  destruct (Z.leb_spec (eg_rows e) row); [exists e; split; [done|]; split; lia|].
  exists e. split; [done|]. split; [lia|]. split; [lia|]. simpl.
  change kEngramValueRowBytes with 256 in Hv1. change kEngramScaleRowBytes with 8 in Hs1.
  split; [rewrite <- Hv1|rewrite <- Hs1]; apply (plane_row_in_file m (eg_rows e)); done.
Qed.

Lemma engram_row_plan_witness :
  exists pl, engram_row shipped_manifest 1 999 = Ret pl /\
    read_of shipped_manifest 0 (664 + 999 * 256) 256 (pl_value pl).
Proof.
  destruct (engram_row shipped_manifest 1 999) as [pl|err] eqn:E.
  2: { exfalso. vm_compute in E. discriminate E. }
  exists pl. split; [done|].
  pose proof (engram_row_plan shipped_manifest 1 999) as H. rewrite E in H.
  destruct H as (e & He & _ & _ & Hv & _).
  - vm_compute; reflexivity.
  - intros e He. apply list_elem_of_singleton in He as ->. unfold plane_typed, kPageSize. simpl. lia.
  - lia.
  - apply list_elem_of_singleton in He as ->. exact Hv.
Defined.
