(* ===== verification/ManifestParse.v ===== *)
(** Reading a manifest ([Manifest::parse] in [src/model/manifest.cpp]).

    Every number goes through [int64_t] or [uint64_t] and is cut to its field's width; the
    expert table grows by a [uint32_t] index, so the largest index wraps the new size to zero
    and the row is then written out of bounds: that undefined behaviour is [Internal] here. *)

From Stdlib Require Import Ascii.
From S2P Require Import Prelude Types Floats Json Manifest.

Definition shape_of (n : JsonValue) (key : string) : Result (list Z) :=
  match find n key with
  | None => Ret []
  | Some v => a ← recast (as_array v); recast (mapM_res as_uint a)
  end.

Definition is_object (v : JsonValue) : bool := match v with JObject _ => true | _ => false end.

Definition parse_scale (t : JsonValue) : Result ScaleEntry :=
  match find t "scale" with
  | None | Some JNull => Ret ScaleEntry_default
  | Some n =>
      _ ← fail_if (negb (is_object n)) Corrupt;
      off ← uint_at n "offset";
      by_ ← uint_at n "bytes";
      sh ← shape_of n "shape";
      let '(bm, bk) := match int_array_at n "block" with
                       | Ret [m; k] => (u32 m, u32 k)
                       | _ => (0, 0)
                       end in
      Ret (mkScaleEntry (u32 (int_or n "file" 0)) off by_ (quant_from_string (string_or n "dtype" "e8m0")) sh bm bk)
  end.

Definition parse_part (slot_offset : Z) (pv : JsonValue) : Result RunPart :=
  name ← string_at pv "tensor";
  match expert_part_from_string name with
  | None => Fail Corrupt
  | Some part =>
      let skew := u32 (int_or pv "skew" 0) in
      Ret (mkRunPart part skew (u64 (int_or pv "bytes" 0))
             (u64 (int_or pv "slot_offset" (i64 (u64 (slot_offset + skew))))))
  end.

Definition parse_run (v : JsonValue) : Result Run :=
  _ ← fail_if (negb (is_object v)) Corrupt;
  off ← uint_at v "aligned_off";
  by_ ← uint_at v "aligned_bytes";
  let slot := u64 (int_or v "slot_offset" 0) in
  match find v "parts" with
  | None => Fail Corrupt
  | Some ps =>
      arr ← recast (as_array ps);
      parts ← mapM_res (parse_part slot) arr;
      Ret (mkRun (u32 (int_or v "file" 0)) off by_ slot parts)
  end.

Definition parse_file (v : JsonValue) : Result FileEntry :=
  let path := string_or v "path" EmptyString in
  _ ← fail_if (bool_decide (path = EmptyString)) Corrupt;
  Ret (mkFileEntry path (u64 (int_or v "bytes" 0)) (u64 (int_or v "data_start" 0)) (string_or v "sha256" EmptyString)).

Definition parse_tensor (name : string) (v : JsonValue) : Result TensorEntry :=
  off ← recast (uint_at v "offset");
  by_ ← recast (uint_at v "bytes");
  sh ← recast (shape_of v "shape");
  sc ← recast (parse_scale v);
  Ret (mkTensorEntry name (u32 (int_or v "file" 0)) off by_ (quant_from_string (string_or v "dtype" "unknown")) sh sc).

(** One run joins its expert: the parts' places and the bytes of the slot. *)
Definition add_run (e : ExpertEntry) (r : Run) : ExpertEntry :=
  let e := foldl (fun e p =>
    e <| ee_part_offset ::= <[part_index (rp_part p) := rp_slot_offset p]> |>
      <| ee_part_bytes ::= <[part_index (rp_part p) := rp_bytes p]> |>) e (run_parts r) in
  e <| ee_slot_bytes ::= fun n => u64 (n + run_aligned_bytes r) |> <| ee_runs ::= fun l => l ++ [r] |>.

Definition parse_expert (xv : JsonValue) : Result ExpertEntry :=
  runs ← recast (as_array xv);
  foldM (fun e rv => r ← recast (parse_run rv); Ret (add_run e r)) ExpertEntry_default runs.

(** [experts_.resize(n)] *)
Definition resize (n : Z) (l : list (list ExpertEntry)) : list (list ExpertEntry) :=
  take (Z.to_nat n) l ++ replicate (Z.to_nat n - length l) [].

Definition parse_layer (table : list (list ExpertEntry)) (lv : JsonValue) : Result (list (list ExpertEntry)) :=
  let layer := u32 (int_or lv "layer" 0) in
  match find lv "experts" with
  | None => Fail Corrupt
  | Some ev =>
      earr ← recast (as_array ev);
      let table := if Z.of_nat (length table) <=? layer then resize (u32 (layer + 1)) table else table in
      if Z.of_nat (length table) <=? layer then Fail Internal
      else row ← mapM_res parse_expert earr; Ret (<[Z.to_nat layer := row]> table)
  end.

Definition parse_plane (v : option JsonValue) : EngramPlane :=
  match v with
  | None => mkEngramPlane 0 0 0 0 QUnknown
  | Some v => mkEngramPlane (u32 (int_or v "file" 0)) (u64 (int_or v "offset" 0)) (u64 (int_or v "bytes" 0))
                (u32 (int_or v "row_bytes" 0)) (quant_from_string (string_or v "dtype" "unknown"))
  end.

Definition parse_engram (v : JsonValue) : EngramEntry :=
  mkEngramEntry (u32 (int_or v "layer" 0)) (u64 (int_or v "rows" 0)) (parse_plane (find v "value")) (parse_plane (find v "scale")).

(** An optional section: absent is empty. *)
Definition section {A} (doc : JsonValue) (key : string) (dflt : A) (f : list JsonValue -> Result A) : Result A :=
  match find doc key with None => Ret dflt | Some v => arr ← recast (as_array v); f arr end.

Definition parse_manifest (doc : JsonValue) : Result Manifest :=
  _ ← fail_if (negb (is_object doc)) Corrupt;
  let version := u32 (int_or doc "version" 0) in
  _ ← fail_if (negb (version =? 2)) Corrupt;
  fs ← section doc "files" [] (mapM_res parse_file);
  _ ← fail_if (bool_decide (fs = [])) Corrupt;
  match find doc "tensors" with
  | None => Fail Corrupt
  | Some tp =>
      obj ← recast (as_object tp);
      ts ← mapM_res (fun kv => parse_tensor kv.1 kv.2) obj;
      ex ← section doc "experts" [] (foldM parse_layer []);
      eg ← section doc "engram" [] (fun a => Ret (parse_engram <$> a));
      Ret (mkManifest version (u32 (int_or doc "alignment" kPageSize)) (u64 (int_or doc "expert_slot_bytes" 0))
             (string_or doc "model" EmptyString) fs
             (foldl (fun m t => if decide (is_Some (m !! te_name t)) then m else <[te_name t := t]> m) ∅ ts) ex eg)
  end.

Definition parse (t : text) : Result Manifest := doc ← json_parse t; parse_manifest doc.

(** [load]; [read_file] is the operating system's. *)
Definition load (read_file : string -> Result text) (path : string) : Result Manifest :=
  t ← read_file path; parse t.

(** ** What a parsed manifest satisfies *)

Definition all_run_parts (rs : list Run) : list RunPart := flat_map run_parts rs.

(** The last part of a name decides where the pointer table will say it is. *)
Definition last_part (rs : list Run) (q : ExpertPart) : option RunPart :=
  last (filter (fun p => rp_part p = q) (all_run_parts rs)).

Record expert_typed (e : ExpertEntry) : Prop := {
  et_runs : Forall run_typed (ee_runs e);
  et_bytes : ee_slot_bytes e = u64 (sum_Z (run_lengths (ee_runs e)));
  et_lengths : length (ee_part_offset e) = kExpertPartCount /\ length (ee_part_bytes e) = kExpertPartCount;
  et_parts : forall q, offset_of e q = default 0 (rp_slot_offset <$> last_part (ee_runs e) q) /\
                       bytes_of e q = default 0 (rp_bytes <$> last_part (ee_runs e) q) }.

Record file_typed (f : FileEntry) : Prop := {
  ft_path : fe_path f <> EmptyString;
  ft_bytes : u64_val (fe_bytes f);
  ft_data_start : u64_val (fe_data_start f) }.

Record scale_typed (s : ScaleEntry) : Prop := {
  st_file : u32_val (sc_file s);
  st_place : u64_val (sc_offset s) /\ u64_val (sc_bytes s);
  st_shape : Forall u64_val (sc_shape s);
  st_block : u32_val (sc_block_m s) /\ u32_val (sc_block_k s) }.

Record tensor_typed (name : string) (t : TensorEntry) : Prop := {
  tt_name : te_name t = name;
  tt_file : u32_val (te_file t);
  tt_place : u64_val (te_offset t) /\ u64_val (te_bytes t);
  tt_shape : Forall u64_val (te_shape t);
  tt_scale : scale_typed (te_scale t) }.

Record plane_typed (p : EngramPlane) : Prop := {
  pt_file : u32_val (ep_file p);
  pt_place : u64_val (ep_offset p) /\ u64_val (ep_bytes p);
  pt_row : u32_val (ep_row_bytes p) }.

Record engram_typed (e : EngramEntry) : Prop := {
  gt_layer : u32_val (eg_layer e);
  gt_rows : u64_val (eg_rows e);
  gt_planes : plane_typed (eg_value e) /\ plane_typed (eg_scale e) }.

(** The runs' file numbers, on top of what an expert satisfies. *)
Definition entry_typed (e : ExpertEntry) : Prop := expert_typed e /\ Forall (fun r => u32_val (run_file r)) (ee_runs e).

Record manifest_typed (m : Manifest) : Prop := {
  mt_version : version m = 2;
  mt_widths : u32_val (alignment m) /\ u64_val (expert_slot_bytes m);
  mt_files : files m <> [] /\ Forall file_typed (files m);
  mt_tensors : forall n t, tensors m !! n = Some t -> tensor_typed n t;
  mt_experts : u32_val (Z.of_nat (length (experts m))) /\ Forall (Forall entry_typed) (experts m);
  mt_engram : Forall engram_typed (engram m) }.

(** *** Loops *)

Lemma mapM_Forall {A B} (f : A -> Result B) (P : B -> Prop) l ys :
  (forall x y, f x = Ret y -> P y) -> mapM_res f l = Ret ys -> Forall P ys.
Proof.
  intros Hf. revert ys. induction l as [|x l IH]; intros ys; cbn; [intros [= <-]; constructor|].
  intros (y & Hy & (zs & Hzs & [= <-])%bind_Ret)%bind_Ret. constructor; [by eapply Hf|by apply IH].
Qed.

Lemma recast_Ret {A} (r : Result A) a : recast r = Ret a -> r = Ret a.
Proof. by destruct r. Qed.

Lemma section_Forall {A} (P : A -> Prop) doc key f l :
  (forall x y, f x = Ret y -> P y) -> section doc key [] (mapM_res f) = Ret l -> Forall P l.
Proof.
  intros Hf. unfold section. destruct (find doc key) as [v|]; [|intros [= <-]; constructor].
  intros (arr & _ & H)%bind_Ret. by eapply mapM_Forall.
Qed.

Lemma u64_val_u64 x : u64_val (u64 x).
Proof. apply u64_range. Qed.

Lemma from_chars_range sg lo hi t v : from_chars sg lo hi t = Some v -> lo <= v <= hi.
Proof.
  unfold from_chars. destruct (sg && _); destruct (digits _);
    match goal with |- (if ?b then _ else _) = _ -> _ => destruct b eqn:H; [done|] end;
    intros [= <-]; rewrite !orb_false_iff, !Z.ltb_ge in H; lia.
Qed.

Lemma as_uint_range v n : as_uint v = Ret n -> u64_val n.
Proof.
  unfold as_uint. destruct v; try done. destruct (from_chars _ _ _ _) eqn:E.
  - intros [= <-]. apply from_chars_range in E. unfold u64_val. lia.
  - destruct (_ || _); [done|]. intros [= <-]. apply u64_val_u64.
Qed.

Lemma uint_at_range v key n : uint_at v key = Ret n -> u64_val n.
Proof. intros (x & _ & H%recast_Ret)%bind_Ret. exact (as_uint_range x n H). Qed.

Lemma shape_typed n key l : shape_of n key = Ret l -> Forall u64_val l.
Proof.
  unfold shape_of. destruct (find n key) as [v|]; [|intros [= <-]; constructor].
  intros (a & _ & H%recast_Ret)%bind_Ret. eapply mapM_Forall; [|exact H]. apply as_uint_range.
Qed.
Lemma parse_scale_typed t s : parse_scale t = Ret s -> scale_typed s.
Proof.
  assert (H0 : scale_typed ScaleEntry_default) by (split; cbn; unfold u32_val, u64_val; [lia|lia|constructor|lia]).
  unfold parse_scale. destruct (find t "scale") as [n|]; [|by intros [= <-]].
  assert (Hgo : (_ ← fail_if (negb (is_object n)) Corrupt;
      off ← uint_at n "offset"; by_ ← uint_at n "bytes"; sh ← shape_of n "shape";
      let '(bm, bk) := match int_array_at n "block" with Ret [m; k] => (u32 m, u32 k) | _ => (0, 0) end in
      Ret (mkScaleEntry (u32 (int_or n "file" 0)) off by_ (quant_from_string (string_or n "dtype" "e8m0")) sh bm bk)) = Ret s -> scale_typed s).
  { intros (_ & _ & (off & Ho & (by_ & Hb & (sh & Hs & H)%bind_Ret)%bind_Ret)%bind_Ret)%bind_Ret.
    assert (Hbk : let '(bm, bk) := match int_array_at n "block" with Ret [m; k] => (u32 m, u32 k) | _ => (0, 0) end in u32_val bm /\ u32_val bk).
    { destruct (int_array_at n "block") as [[|m [|k [|? ?]]]|?]; try (unfold u32_val; lia). split; apply u32_range. }
    destruct (match int_array_at n "block" with Ret [m; k] => _ | _ => _ end) as [bm bk]. injection H as <-.
    split; cbn; [apply u32_range|split; by eapply uint_at_range|by eapply shape_typed|exact Hbk]. }
  destruct n; [by intros [= <-]|exact Hgo..].
Qed.
Lemma parse_plane_typed v : plane_typed (parse_plane v).
Proof. destruct v; [split; [apply u32_range|split; apply u64_val_u64|apply u32_range]|split; cbn; unfold u32_val, u64_val; lia]. Qed.

(** *** Runs and experts *)

Lemma parse_part_typed slot pv p : parse_part slot pv = Ret p -> part_typed p.
Proof.
  unfold parse_part. intros (name & _ & H)%bind_Ret. destruct (expert_part_from_string name); [|done].
  injection H as <-. split; [apply u32_range|]. split; apply u64_val_u64.
Qed.

Lemma parse_run_typed v r : parse_run v = Ret r -> run_typed r.
Proof.
  unfold parse_run. intros ([] & _ & (off & Ho & (by_ & Hb & H)%bind_Ret)%bind_Ret)%bind_Ret.
  destruct (find v "parts"); [|done]. apply bind_Ret in H as (arr & _ & (parts & Hp & [= <-])%bind_Ret).
  split; [by eapply uint_at_range|]. split; [by eapply uint_at_range|]. split; [apply u64_val_u64|].
  eapply mapM_Forall; [|done]. apply parse_part_typed.
Qed.

Lemma parse_run_file v r : parse_run v = Ret r -> u32_val (run_file r).
Proof.
  unfold parse_run. intros ([] & _ & (off & _ & (by_ & _ & H)%bind_Ret)%bind_Ret)%bind_Ret.
  destruct (find v "parts"); [|done]. apply bind_Ret in H as (arr & _ & (parts & _ & [= <-])%bind_Ret). apply u32_range.
Qed.

Lemma last_part_snoc rs r q : last_part (rs ++ [r]) q =
  match last (filter (fun p => rp_part p = q) (run_parts r)) with Some p => Some p | None => last_part rs q end.
Proof.
  unfold last_part, all_run_parts. rewrite flat_map_app, filter_app, last_app. cbn. by rewrite app_nil_r.
Qed.

Lemma part_index_lt q : (part_index q < kExpertPartCount)%nat.
Proof. destruct q; vm_compute; lia. Qed.
Lemma part_index_inj p q : part_index p = part_index q -> p = q.
Proof. destruct p, q; done. Qed.

Lemma lookup_parts (f : RunPart -> Z) ps q (l : list Z) : length l = kExpertPartCount ->
  let l' := foldl (fun l p => <[part_index (rp_part p) := f p]> l) l ps in
  length l' = kExpertPartCount /\
  default 0 (l' !! part_index q) =
    match last (filter (fun p => rp_part p = q) ps) with Some p => f p | None => default 0 (l !! part_index q) end.
Proof.
  intros Hl. induction ps as [|p ps IH] using rev_ind; [done|]. cbv zeta in *. rewrite foldl_snoc, filter_app, last_app.
  destruct IH as [Hlen IH]. split; [by rewrite length_insert|]. rewrite filter_cons, filter_nil. case_decide as Hq.
  - cbn. rewrite Hq, list_lookup_insert_eq; [done|]. rewrite Hlen. apply part_index_lt.
  - cbn. rewrite list_lookup_insert_ne; [done|]. by intros E%part_index_inj.
Qed.

Lemma add_run_parts e r :
  ee_runs (add_run e r) = ee_runs e ++ [r] /\ ee_slot_bytes (add_run e r) = u64 (ee_slot_bytes e + run_aligned_bytes r) /\
  ee_part_offset (add_run e r) = foldl (fun l p => <[part_index (rp_part p) := rp_slot_offset p]> l) (ee_part_offset e) (run_parts r) /\
  ee_part_bytes (add_run e r) = foldl (fun l p => <[part_index (rp_part p) := rp_bytes p]> l) (ee_part_bytes e) (run_parts r).
Proof.
  unfold add_run. set (g := foldl _ e _).
  assert (H : ee_runs g = ee_runs e /\ ee_slot_bytes g = ee_slot_bytes e /\
    ee_part_offset g = foldl (fun l p => <[part_index (rp_part p) := rp_slot_offset p]> l) (ee_part_offset e) (run_parts r) /\
    ee_part_bytes g = foldl (fun l p => <[part_index (rp_part p) := rp_bytes p]> l) (ee_part_bytes e) (run_parts r)).
  { unfold g. clear g. induction (run_parts r) as [|p ps IH] using rev_ind; [done|]. rewrite !foldl_snoc.
    destruct IH as (E0 & E1 & E2 & E3). cbn. by rewrite E0, E1, E2, E3. }
  destruct H as (E0 & E1 & E2 & E3). cbn. by rewrite E0, E1, E2, E3.
Qed.

Lemma add_run_typed e r : expert_typed e -> run_typed r -> expert_typed (add_run e r).
Proof.
  intros [Hr Hb [Hlo Hlb] Hp] Ht. destruct (add_run_parts e r) as (E0 & E1 & E2 & E3).
  split; [| | |intros q; unfold offset_of, bytes_of]; rewrite ?E0, ?E1, ?E2, ?E3.
  - apply Forall_app. by split; [|constructor].
  - rewrite Hb. unfold run_lengths. rewrite fmap_app, sum_Z_app. cbn. unfold u64. by rewrite Zplus_mod_idemp_l, Z.add_0_r.
  - split; [apply (lookup_parts rp_slot_offset _ W1Weight)|apply (lookup_parts rp_bytes _ W1Weight)]; done.
  - rewrite last_part_snoc. destruct (lookup_parts rp_slot_offset (run_parts r) q _ Hlo) as [_ ->],
      (lookup_parts rp_bytes (run_parts r) q _ Hlb) as [_ ->]. destruct (last (filter _ (run_parts r))); [done|]. apply Hp.
Qed.

Lemma parse_expert_typed xv e : parse_expert xv = Ret e -> entry_typed e.
Proof.
  unfold parse_expert. intros (runs & _ & H)%bind_Ret. eapply foldM_inv; [| |exact H].
  - intros s x s' [Hs Hf] (r & Hr%recast_Ret & [= <-])%bind_Ret. split; [apply add_run_typed; [done|]; by eapply parse_run_typed|].
    destruct (add_run_parts s r) as (-> & _). apply Forall_app. split; [done|]. apply Forall_singleton. by eapply parse_run_file.
  - split; [|constructor]. split; [constructor|done|done|]. intros []; done.
Qed.

Lemma resize_Forall (P : list ExpertEntry -> Prop) n l : P [] -> Forall P l -> Forall P (resize n l).
Proof. intros H0 H. apply Forall_app. split; [by apply Forall_take|]. by apply Forall_replicate. Qed.
Lemma resize_length n l : 0 <= n -> Z.of_nat (length l) <= n -> Z.of_nat (length (resize n l)) = n.
Proof. intros Hn Hl. unfold resize. rewrite length_app, length_take, length_replicate. lia. Qed.

(** The table of experts while it grows. *)
Definition table_typed (table : list (list ExpertEntry)) : Prop :=
  u32_val (Z.of_nat (length table)) /\ Forall (Forall entry_typed) table.

Lemma parse_layer_typed table lv table' : table_typed table -> parse_layer table lv = Ret table' -> table_typed table'.
Proof.
  intros [Hn Ht]. unfold parse_layer. set (layer := u32 _). destruct (find lv "experts"); [|done]. intros (earr & _ & H)%bind_Ret.
  set (t := if _ <=? _ then resize _ _ else _) in H. assert (Ht' : Forall (Forall entry_typed) t).
  { unfold t. destruct (_ <=? _); [|done]. apply resize_Forall; [constructor|done]. }
  destruct (Z.leb_spec (Z.of_nat (length t)) layer) as [|Hl]; [done|]. apply bind_Ret in H as (row & Hrow & [= <-]). split.
  - rewrite length_insert. clear Ht' Hrow. unfold t in *. revert Hl. destruct (Z.leb_spec (Z.of_nat (length table)) layer) as [Hg|]; [intros Hl|done].
    assert (Hr : 0 <= layer < 2 ^ 32) by apply u32_range. assert (Hc : 0 <= u32 (layer + 1) < 2 ^ 32) by apply u32_range.
    destruct (decide (layer + 1 < 2 ^ 32)).
    + rewrite resize_length; [done|lia|]. rewrite u32_small; lia.
    + exfalso. assert (layer + 1 = 2 ^ 32) as E by lia. rewrite E in Hl. change (u32 (2 ^ 32)) with 0 in Hl.
      unfold resize in Hl. rewrite length_app, length_take, length_replicate in Hl. lia.
  - apply Forall_insert; [done|]. eapply mapM_Forall; [|done]. apply parse_expert_typed.
Qed.

Lemma parse_tensor_typed name v t : parse_tensor name v = Ret t -> tensor_typed name t.
Proof.
  unfold parse_tensor.
  intros (off & Ho%recast_Ret & (by_ & Hb%recast_Ret & (sh & Hs%recast_Ret & (sc & Hsc%recast_Ret & [= <-])%bind_Ret)%bind_Ret)%bind_Ret)%bind_Ret.
  split; cbn; [done|apply u32_range|split; by eapply uint_at_range|by eapply shape_typed|by eapply parse_scale_typed].
Qed.

Lemma tensors_typed ts (m : gmap string TensorEntry) n t : (forall n t, m !! n = Some t -> tensor_typed n t) ->
  Forall (fun t => tensor_typed (te_name t) t) ts ->
  foldl (fun m t => if decide (is_Some (m !! te_name t)) then m else <[te_name t := t]> m) m ts !! n = Some t -> tensor_typed n t.
Proof.
  intros Hm Hts. revert m Hm. induction Hts as [|x ts Hx _ IH]; intros m Hm; cbn; [apply Hm|]. apply IH.
  intros n' t'. case_decide; [apply Hm|]. rewrite lookup_insert_Some. intros [[<- <-]|[_ H']]; [done|by apply Hm].
Qed.

(** C35: whatever text is read as a manifest has the types the code relies on: every integer of
    it fits its field, the 32-bit ones (alignment, file numbers, skews, block sizes, row sizes,
    layers, the number of layers) as the 64-bit ones (offsets, sizes, dimensions, rows); every
    file has a path, a tensor is found under its own name, and every expert's slot size is the
    sum of its runs and its pointer-table offsets and sizes those of the last part of each name. *)
Theorem parse_well_typed t m : parse t = Ret m -> manifest_typed m.
Proof.
  unfold parse. intros (doc & _ & H)%bind_Ret. unfold parse_manifest in H.
  apply bind_Ret in H as ([] & _ & H). apply bind_Ret in H as ([] & Hver%fail_if_Ret & H).
  apply bind_Ret in H as (fs & Hfs & H). apply bind_Ret in H as ([] & Hne%fail_if_Ret & H).
  destruct (find doc "tensors") as [tp|]; [|done]. apply bind_Ret in H as (obj & _ & H).
  apply bind_Ret in H as (ts & Hts & H). apply bind_Ret in H as (ex & Hex & H).
  apply bind_Ret in H as (eg & Heg & [= <-]). apply negb_false_iff, Z.eqb_eq in Hver.
  split; cbn [version alignment expert_slot_bytes files tensors experts engram].
  - done.
  - split; [apply u32_range|apply u64_val_u64].
  - split; [by apply bool_decide_eq_false in Hne|]. eapply section_Forall; [|done]. intros x y. unfold parse_file.
    intros ([] & Hp%fail_if_Ret & [= <-])%bind_Ret. apply bool_decide_eq_false in Hp. split; [done|apply u64_val_u64..].
  - intros n x. apply tensors_typed; [by intros ? ? ?%lookup_empty_Some|].
    eapply mapM_Forall; [|exact Hts]. intros kv y Hy%parse_tensor_typed. by rewrite (tt_name _ _ Hy).
  - unfold section in Hex. destruct (find doc "experts"); [|by injection Hex as <-].
    apply bind_Ret in Hex as (arr & _ & Hex). refine (foldM_inv _ table_typed _ _ _ _ _ Hex); [apply parse_layer_typed|done].
  - unfold section in Heg. destruct (find doc "engram"); [|injection Heg as <-; constructor].
    apply bind_Ret in Heg as (arr & _ & [= <-]). apply Forall_fmap, Forall_true. intros v.
    split; [apply u32_range|apply u64_val_u64|split; apply parse_plane_typed].
Qed.

(** A JSON object with these members. *)
Definition quoted (s : string) : text := json_quote s.
Definition field (k : string) (v : text) : text := quoted k ++ [":"%char] ++ v.
Fixpoint commas (l : list text) : text :=
  match l with [] => [] | [x] => x | x :: l => x ++ [","%char] ++ commas l end.
Definition obj (fs : list text) : text := ["{"%char] ++ commas fs ++ ["}"%char].
Definition arr (vs : list text) : text := ["["%char] ++ commas vs ++ ["]"%char].
Definition num (n : Z) : text := u_to_string n.

Definition example_manifest (layer : Z) : text :=
  obj [field "version" (num 2); field "files" (arr [obj [field "path" (quoted "a"); field "bytes" (num 8192)]]);
       field "tensors" (obj []);
       field "experts" (arr [obj [field "layer" (num layer); field "experts" (arr [arr [obj
         [field "aligned_off" (num 4096); field "aligned_bytes" (num 4096);
          field "parts" (arr [obj [field "tensor" (quoted "w1.weight"); field "skew" (num 16); field "bytes" (num 100)]])]]])]])].

Lemma parse_well_typed_witness :
  exists m, parse (example_manifest 1) = Ret m /\ manifest_typed m /\
    (e ← expert_entry m (mkKey 1 0); Some (offset_of e W1Weight, bytes_of e W1Weight, ee_slot_bytes e)) = Some (16, 100, 4096).
Proof.
  destruct (parse (example_manifest 1)) as [m|e] eqn:E; [|vm_compute in E; discriminate E].
  exists m. split; [done|]. split; [exact (parse_well_typed _ _ E)|].
  revert E. vm_compute. intros [= <-]. reflexivity.
Defined.

(** The layer index 2^32 - 1 (a layer of -1, say) wraps the table's new size to zero, and the
    row is written outside it. *)
Lemma parse_layer_wraps : parse (example_manifest (2 ^ 32 - 1)) = Fail Internal.
Proof. vm_compute. reflexivity. Qed.
