(* ===== verification/Slab.v ===== *)
(** The slab pool ([src/store/slab.h], [slab.cpp]): whole slabs from a backing, and the
    address of a global slot index.  Host pointers are [Z] (0 is null).  [prefault] only
    touches pages and has no state of its own, so it has no counterpart. *)

From S2P Require Import Prelude Types.

Record SlabMemory := mkSlabMemory { sm_host_ptr : Z; sm_device_address : Z; sm_bytes : Z }.
#[export] Instance SlabMemory_eq_dec : EqDecision SlabMemory.
Proof. solve_decision. Defined.

Record SlotAddress := mkSlotAddress { host_addr : Z; device_addr : Z }.
#[export] Instance SlotAddress_eq_dec : EqDecision SlotAddress.
Proof. solve_decision. Defined.

(** [SlabBacking]: an allocator interface.  [allocate] answers each request in turn, and
    [release] gives a slab back. *)
Class SlabBacking (B : Type) := {
  allocate : B -> Z -> B * Result SlabMemory;
  release : B -> SlabMemory -> B }.

(** The contract of [allocate]: a slab of the requested size, asked for in whole pages. *)
Definition kMaxSlab : Z := 2 * 2 ^ 30.
Class SlabBackingOk (B : Type) `{SlabBacking B} := {
  allocate_bytes : forall b n b' m,
    n mod kPageSize = 0 -> 0 < n <= kMaxSlab -> allocate b n = (b', Ret m) -> sm_bytes m = n }.

(** ** HostSlabBacking: [::operator new] is the parameter [new] (0 on failure); a buffer
    is rounded up to whole pages. *)
Record HostSlabBacking := mkHost { host_owned : list SlabMemory; host_new : Z -> Z; host_count : Z }.

Definition host_allocate (b : HostSlabBacking) (bytes : Z) : HostSlabBacking * Result SlabMemory :=
  let n := align_up bytes kPageSize in
  let p := if bytes =? 0 then 0 else host_new b (host_count b) in
  if negb (bytes =? 0) && (p =? 0) then (b, Fail ResourceExhausted)
  else
    let m := mkSlabMemory p kNoDeviceAddress (if bytes =? 0 then 0 else n) in
    (mkHost (host_owned b ++ [m]) (host_new b) (host_count b + 1), Ret m).

Fixpoint erase_first (p : Z) (l : list SlabMemory) : list SlabMemory :=
  match l with
  | [] => []
  | m :: l => if sm_host_ptr m =? p then l else m :: erase_first p l
  end.

Definition host_release (b : HostSlabBacking) (m : SlabMemory) : HostSlabBacking :=
  mkHost (erase_first (sm_host_ptr m) (host_owned b)) (host_new b) (host_count b).

#[export] Instance HostSlabBacking_backing : SlabBacking HostSlabBacking :=
  { allocate := host_allocate; release := host_release }.

(** ** The pool *)

Record SlabConfig := mkSlabConfig { slots_per_slab : Z; slot_bytes : Z; budget_bytes : Z }.

Section Pool.
Context {B : Type} `{SlabBacking B}.

Record SlabPool := mkSlabPool {
  backing : option B; pool_cfg : SlabConfig; slabs : list SlabMemory;
  slab_bytes : Z; slot_count : Z }.

Definition pool_reset (p : SlabPool) : SlabPool :=
  mkSlabPool None (pool_cfg p) [] 0 0.

(** The backing as [reset] leaves it: every slab released in order. *)
Definition reset_backing (p : SlabPool) : option B :=
  (fun b => foldl release b (slabs p)) <$> backing p.

(** The allocation loop: stops at the first refusal. *)
Fixpoint alloc_slabs (n : nat) (bytes : Z) (b : B) (acc : list SlabMemory)
  : B * list SlabMemory * option Err :=
  match n with
  | O => (b, acc, None)
  | S n =>
      match allocate b bytes with
      | (b, Ret m) => alloc_slabs n bytes b (acc ++ [m])
      | (b, Fail e) => (b, acc, Some e)
      end
  end.

Definition pool_init (p : SlabPool) (bk : option B) (cfg : SlabConfig) : SlabPool * Result unit :=
  match bk with
  | None => (p, Fail InvalidArgument)
  | Some b =>
      if (slot_bytes cfg =? 0) || (slots_per_slab cfg =? 0) then (p, Fail InvalidArgument)
      else if negb (is_aligned (slot_bytes cfg) kPageSize) then (p, Fail InvalidArgument)
      else
        let sb := u64 (slot_bytes cfg * slots_per_slab cfg) in
        let p0 := mkSlabPool (Some b) cfg [] sb 0 in
        if kMaxSlab <? sb then (p0, Fail InvalidArgument)
        else
          let want := u32 (budget_bytes cfg / sb) in
          if want =? 0 then (p0, Fail ResourceExhausted)
          else
            match alloc_slabs (Z.to_nat want) sb b [] with
            | (b', [], Some e) => (mkSlabPool None cfg [] 0 0, Fail e)
            | (b', ms, _) =>
                (mkSlabPool (Some b') cfg ms sb
                   (u32 (u32 (Z.of_nat (length ms)) * slots_per_slab cfg)), Ret tt)
            end
  end.

Definition decompose (p : SlabPool) (slot : Z) : Z * Z :=
  (u16 (slot / slots_per_slab (pool_cfg p)), slot mod slots_per_slab (pool_cfg p)).

Definition address (p : SlabPool) (slot : Z) : Result SlotAddress :=
  if slot_count p <=? slot then Fail OutOfRange
  else
    let '(slab, idx) := decompose p slot in
    match slabs p !! Z.to_nat slab with
    | None => Fail Internal                      (* an out-of-range vector read *)
    | Some m =>
        let off := u64 (idx * slot_bytes (pool_cfg p)) in
        Ret (mkSlotAddress
               (if sm_host_ptr m =? 0 then 0 else sm_host_ptr m + off)
               (if sm_device_address m =? 0 then kNoDeviceAddress
                else u64 (sm_device_address m + off)))
    end.

Definition pool_bytes (p : SlabPool) : Z := u64 (Z.of_nat (length (slabs p)) * slab_bytes p).
End Pool.
Arguments SlabPool B : clear implicits.

(** ** The pool hands out disjoint slots *)

Section PoolProofs.
Context {B : Type} `{SlabBackingOk B}.

(** Sizes a real configuration has: nothing wraps, and [decompose]'s [uint16_t] slab
    index and the 32-bit slot count can hold the pool. *)
Definition cfg_sane (cfg : SlabConfig) : Prop :=
  0 <= slot_bytes cfg /\ 0 <= slots_per_slab cfg /\ 0 <= budget_bytes cfg /\
  slot_bytes cfg * slots_per_slab cfg < 2 ^ 64 /\
  budget_bytes cfg < 2 ^ 16 * (slot_bytes cfg * slots_per_slab cfg) /\
  budget_bytes cfg < 2 ^ 32 * slot_bytes cfg.

Lemma alloc_slabs_spec n bytes b acc b' ms e :
  bytes mod kPageSize = 0 -> 0 < bytes <= kMaxSlab ->
  alloc_slabs n bytes b acc = (b', ms, e) ->
  Forall (fun m => sm_bytes m = bytes) acc ->
  Forall (fun m => sm_bytes m = bytes) ms /\ (length ms <= length acc + n)%nat.
Proof.
  intros Hal Hpos. revert b acc. induction n as [|n IH]; simpl; intros b acc E Ha.
  { simplify_eq. split; [done|lia]. }
  destruct (allocate b bytes) as [b1 [m|err]] eqn:Eb.
  - apply IH in E as [? Hl].
    + rewrite length_app in Hl. simpl in Hl. split; [done|lia].
    + apply Forall_app. split; [done|]. apply Forall_singleton. by eapply allocate_bytes.
  - simplify_eq. split; [done|lia].
Qed.

Record pool_ok (p : SlabPool B) : Prop := {
  po_slab : slab_bytes p = slot_bytes (pool_cfg p) * slots_per_slab (pool_cfg p);
  po_pos : 0 < slot_bytes (pool_cfg p) /\ 0 < slots_per_slab (pool_cfg p);
  po_cap : slab_bytes p <= kMaxSlab;
  po_count : slot_count p = Z.of_nat (length (slabs p)) * slots_per_slab (pool_cfg p);
  po_slabs : Z.of_nat (length (slabs p)) < 2 ^ 16;
  po_bytes : Forall (fun m => sm_bytes m = slab_bytes p) (slabs p) }.

Lemma pool_init_ok p bk cfg p' :
  pool_init p bk cfg = (p', Ret tt) -> cfg_sane cfg -> pool_ok p' /\ slabs p' <> [].
Proof.
  intros E (Hb & Hs & Hbud & Hw & Hn & Hc). unfold pool_init in E.
  destruct bk as [b|]; [|done].
  destruct (_ || _) eqn:Hz; [done|]. apply orb_false_iff in Hz as [Hz1 Hz2].
  destruct (negb _) eqn:Hal; [done|].
  rewrite u64_small in E by nia. destruct (kMaxSlab <? _) eqn:Hmax; [done|].
  apply Z.ltb_ge in Hmax. assert (0 < slot_bytes cfg * slots_per_slab cfg) as Hpos by nia.
  assert (0 <= budget_bytes cfg / (slot_bytes cfg * slots_per_slab cfg) < 2 ^ 16) as Hq.
  { split; [apply Z.div_pos; lia|]. apply Z.div_lt_upper_bound; lia. }
  rewrite u32_small in E by lia. destruct (_ / _ =? 0) eqn:Hwant; [done|].
  destruct (alloc_slabs _ _ b []) as [[b' ms] e] eqn:Ea.
  assert (Hpage : (slot_bytes cfg * slots_per_slab cfg) mod kPageSize = 0).
  { apply negb_false_iff, is_aligned_page in Hal; [|nia].
    rewrite Zmult_mod, Hal. done. }
  pose proof Ea as Ea'. apply alloc_slabs_spec in Ea' as [Hms Hlen]; [|done|lia|done].
  simpl in Hlen.
  assert (Hcount : Z.of_nat (length ms) * slots_per_slab cfg < 2 ^ 32).
  { assert (slot_bytes cfg * (Z.of_nat (length ms) * slots_per_slab cfg) <= budget_bytes cfg).
    { pose proof (Z.mul_div_le (budget_bytes cfg) (slot_bytes cfg * slots_per_slab cfg)).
      assert (Z.of_nat (length ms) <= budget_bytes cfg / (slot_bytes cfg * slots_per_slab cfg)) by lia.
      nia. }
    nia. }
  assert (Hne : ms <> [] /\ p' = mkSlabPool (Some b') cfg ms (slot_bytes cfg * slots_per_slab cfg)
                   (u32 (u32 (Z.of_nat (length ms)) * slots_per_slab cfg))).
  { destruct ms as [|m ms]; [|destruct e; simpl in E; simplify_eq; done].
    destruct e as [e|]; [done|]. exfalso.
    assert (0 < Z.to_nat (budget_bytes cfg / (slot_bytes cfg * slots_per_slab cfg)))%nat as Hw' by lia.
    destruct (Z.to_nat _) as [|k]; [lia|]. simpl in Ea.
    destruct (allocate b _) as [b1 [m|err]] eqn:Eb; [|done].
    assert (G : forall n c acc, acc <> [] -> (alloc_slabs n (slot_bytes cfg * slots_per_slab cfg) c acc).1.2 <> []).
    { clear. induction n as [|n IH]; simpl; intros c acc Hacc; [done|].
      destruct (allocate c _) as [c1 [m|err]]; [|done]. apply IH. by destruct acc. }
    apply (G k b1 [m]); [done|]. by rewrite Ea. }
  destruct Hne as [Hne ->]. split; [|done].
  split; simpl; try done; try lia.
  rewrite (u32_small (Z.of_nat _)) by lia. rewrite u32_small by nia. done.
Qed.

(** A slot lives at a whole multiple of [slot_bytes] inside one slab. *)
Lemma address_in_slab p slot :
  pool_ok p -> 0 <= slot < slot_count p ->
  exists m idx, slabs p !! Z.to_nat (slot / slots_per_slab (pool_cfg p)) = Some m /\
    idx = slot mod slots_per_slab (pool_cfg p) /\
    address p slot = Ret (mkSlotAddress
      (if sm_host_ptr m =? 0 then 0 else sm_host_ptr m + idx * slot_bytes (pool_cfg p))
      (if sm_device_address m =? 0 then kNoDeviceAddress
       else u64 (sm_device_address m + idx * slot_bytes (pool_cfg p)))) /\
    0 <= idx /\ (idx + 1) * slot_bytes (pool_cfg p) <= sm_bytes m.
Proof.
  intros [Hsb [Hp1 Hp2] Hcap Hcnt Hn Hms] Hslot.
  assert (0 <= slot / slots_per_slab (pool_cfg p) < Z.of_nat (length (slabs p))) as Hq.
  { split; [apply Z.div_pos; lia|]. apply Z.div_lt_upper_bound; lia. }
  destruct (lookup_lt_is_Some_2 (slabs p) (Z.to_nat (slot / slots_per_slab (pool_cfg p)))) as [m Hm];
    [lia|].
  exists m, (slot mod slots_per_slab (pool_cfg p)). split; [done|]. split; [done|].
  pose proof (Z.mod_pos_bound slot (slots_per_slab (pool_cfg p)) ltac:(lia)) as Hmod.
  rewrite Forall_lookup in Hms. specialize (Hms _ _ Hm).
  assert ((slot mod slots_per_slab (pool_cfg p) + 1) * slot_bytes (pool_cfg p) <= sm_bytes m)
    by (rewrite Hms, Hsb; nia).
  split; [|lia]. unfold address, decompose.
  destruct (Z.leb_spec (slot_count p) slot); [lia|].
  rewrite u16_small, Hm by lia.
  unfold kMaxSlab in Hcap. rewrite (u64_small (_ * _)) by nia. done.
Qed.
End PoolProofs.

(** On a pool [init] accepted, every slot index below [slot_count] has an address
    inside one slab, any other index is [OutOfRange], and two different slots of a pool
    whose slabs do not overlap never share a byte. *)
Theorem slots_disjoint {B} `{SlabBackingOk B} (p : SlabPool B) bk cfg p' :
  pool_init p bk cfg = (p', Ret tt) -> cfg_sane cfg ->
  (forall i j mi mj, slabs p' !! i = Some mi -> slabs p' !! j = Some mj -> i <> j ->
     sm_host_ptr mi <> 0 -> sm_host_ptr mj <> 0 ->
     sm_host_ptr mi + sm_bytes mi <= sm_host_ptr mj \/
     sm_host_ptr mj + sm_bytes mj <= sm_host_ptr mi) ->
  0 < slot_count p' /\
  (forall s, slot_count p' <= s -> address p' s = Fail OutOfRange) /\
  (forall s, 0 <= s < slot_count p' -> is_ok (address p' s) = true) /\
  (forall s t a b, 0 <= s < slot_count p' -> 0 <= t < slot_count p' -> s <> t ->
     address p' s = Ret a -> address p' t = Ret b -> host_addr a <> 0 -> host_addr b <> 0 ->
     host_addr a + slot_bytes cfg <= host_addr b \/ host_addr b + slot_bytes cfg <= host_addr a).
Proof.
  intros E Hsane Hdisj. destruct (pool_init_ok _ _ _ _ E Hsane) as [Hok Hne].
  assert (Hcfg : pool_cfg p' = cfg).
  { unfold pool_init in E. repeat (case_match; simplify_eq; try done). }
  pose proof Hok as [_ [Hp1 Hp2] _ Hcnt _ _].
  split. { destruct (slabs p'); [done|]. simpl in *. nia. }
  split. { intros s Hs. unfold address. by rewrite (proj2 (Z.leb_le _ _) Hs). }
  split. { intros s Hs. by destruct (address_in_slab p' s Hok Hs) as (m & i & _ & _ & -> & _). }
  intros s t a b Hs Ht Hst Ea Eb Ha Hb. rewrite <- Hcfg in *.
  destruct (address_in_slab p' s Hok Hs) as (m & i & Hm & Hi & Em & Hi0 & Hi1).
  destruct (address_in_slab p' t Hok Ht) as (m' & i' & Hm' & Hi' & Em' & Hi0' & Hi1').
  rewrite Ea in Em. rewrite Eb in Em'. simplify_eq. simpl in *.
  set (n := slots_per_slab (pool_cfg p')) in *. set (w := slot_bytes (pool_cfg p')) in *.
  destruct (sm_host_ptr m =? 0) eqn:Z1; [done|]. destruct (sm_host_ptr m' =? 0) eqn:Z2; [done|].
  apply Z.eqb_neq in Z1, Z2.
  destruct (decide (s / n = t / n)) as [Hq|Hq].
  - rewrite <- Hq in Hm'. rewrite Hm in Hm'. simplify_eq.
    pose proof (Z.div_mod s n ltac:(lia)). pose proof (Z.div_mod t n ltac:(lia)).
    assert (s mod n <> t mod n) by congruence. nia.
  - destruct (Hdisj _ _ _ _ Hm Hm') as [?|?]; try done; [|nia|nia].
    intros Heq. apply Hq. apply Z2Nat.inj; [apply Z.div_pos; lia..|done].
Qed.

#[export] Instance HostSlabBacking_ok : SlabBackingOk HostSlabBacking.
Proof.
  split. intros b n b' m Hal Hn E. simpl in E. unfold host_allocate in E.
  destruct (Z.eqb_spec n 0) as [->|Hz]; [lia|]. case_match; simplify_eq. simpl.
  pose proof (align_up_page n ltac:(unfold kMaxSlab, kPageSize in *; lia)) as [Hu Hm].
  unfold kPageSize in *.
  pose proof (Z.div_mod n 4096). pose proof (Z.div_mod (align_up n 4096) 4096). lia.
Qed.

(** A two-slab pool over host memory: 16 slots of 8 KiB, allocated 2^32 apart. *)
Definition example_host : HostSlabBacking := mkHost [] (fun n => 2 ^ 32 * (n + 1)) 0.
Definition example_cfg : SlabConfig := mkSlabConfig 8 8192 131072.

Lemma slots_disjoint_witness :
  exists p', pool_init (mkSlabPool None example_cfg [] 0 0) (Some example_host) example_cfg
             = (p', Ret tt) /\
    slot_count p' = 16 /\
    (forall a b, address p' 3 = Ret a -> address p' 9 = Ret b -> host_addr a <> 0 -> host_addr b <> 0 ->
       host_addr a + 8192 <= host_addr b \/ host_addr b + 8192 <= host_addr a).
Proof.
  eexists. split; [vm_compute; reflexivity|]. split; [reflexivity|].
  intros a b Ha Hb Hna Hnb.
  eapply (slots_disjoint (mkSlabPool None example_cfg [] 0 0) (Some example_host) example_cfg);
    [vm_compute; reflexivity| | | | | |exact Ha|exact Hb|exact Hna|exact Hnb].
  - unfold cfg_sane. simpl. lia.
  - intros [|[|i]] [|[|j]] mi mj Hi Hj; simpl in *; simplify_eq; simpl; try lia;
      by rewrite ?lookup_nil in *.
  - simpl. lia.
  - simpl. lia.
  - lia.
Defined.
