(* ===== verification/ShardSet.v ===== *)
(** The opened checkpoint shards and their mirrors ([src/store/shard_set.h]).  Opening a
    file is the operating system's: [open_file] is a parameter, and a [File] is what the
    program reads of an open one. *)

From Stdlib Require Import Ascii.
From S2P Require Import Prelude Types Manifest.

Record File := mkFile {
  f_handle : Z; f_path : string; f_size : Z; f_sector_size : Z; f_open : bool; f_unbuffered : bool }.
#[export] Instance File_eq_dec : EqDecision File.
Proof. solve_decision. Defined.

Record Mirror := mkMirror {
  mi_root : string; mi_files : list (option File); mi_n_present : Z; mi_bytes : Z }.

Record ShardSet := mkShardSet { ss_files : list File; ss_mirrors : list Mirror }.
Definition ShardSet_empty : ShardSet := mkShardSet [] [].

Definition last_char (s : string) : option Ascii.ascii := String.get (String.length s - 1) s.

(** [join] with the POSIX separator. *)
Definition join (dir name : string) : string :=
  match last_char dir with
  | None => name
  | Some c => if bool_decide (c = "/"%char) || bool_decide (c = "\"%char) then dir +:+ name
              else dir +:+ "/" +:+ name
  end.

Section Open.
Context (open_file : string -> Result File).

(** One shard of [open_all]: open, size against the manifest, sector size. *)
Definition open_shard (dir : string) (e : FileEntry) : Result File :=
  f ← open_file (join dir (fe_path e));
  _ ← fail_if (negb (fe_bytes e =? 0) && negb (f_size f =? fe_bytes e)) Corrupt;
  _ ← fail_if (kPageSize <? f_sector_size f) FailedPrecondition;
  Ret f.

(** The files opened before an error stay in [files_]. *)
Fixpoint open_shards (dir : string) (es : list FileEntry) : list File * Result unit :=
  match es with
  | [] => ([], Ret tt)
  | e :: es =>
      match open_shard dir e with
      | Fail err => ([], Fail err)
      | Ret f => let '(fs, r) := open_shards dir es in (f :: fs, r)
      end
  end.

Definition open_all (dir : string) (m : Manifest) (s : ShardSet) : Result unit * ShardSet :=
  let '(fs, r) := open_shards dir (files m) in (r, mkShardSet fs (ss_mirrors s)).

(** One shard of [open_mirror]: absent, of another size or on large sectors is no mirror. *)
Definition mirror_shard (dir : string) (e : FileEntry) (primary : File) : option File :=
  match open_file (join dir (fe_path e)) with
  | Fail _ => None
  | Ret f =>
      if negb (f_size f =? f_size primary) then None
      else if kPageSize <? f_sector_size f then None
      else Some f
  end.

Definition open_mirror (dir : string) (m : Manifest) (s : ShardSet) : Result unit * ShardSet :=
  if bool_decide (ss_files s = []) then (Fail FailedPrecondition, s)
  else if Nat.leb 4 (length (ss_mirrors s) + 1) then (Fail OutOfRange, s)
  else
    let found := zip_with (mirror_shard dir) (files m) (ss_files s) in
    let n := u32 (Z.of_nat (length (omap id found))) in
    let bytes := foldl (fun b f => u64 (b + f_size f)) 0 (omap id found) in
    if n =? 0 then (Fail NotFound, s)
    else (Ret tt, mkShardSet (ss_files s) (ss_mirrors s ++ [mkMirror dir found n bytes])).
End Open.

Definition shard_at (s : ShardSet) (index : Z) : option File := ss_files s !! Z.to_nat index.

(** Source 0 is the primary; 1.. are the mirrors. *)
Definition source_at (s : ShardSet) (index source : Z) : option File :=
  if source =? 0 then shard_at s index
  else
    m ← ss_mirrors s !! Z.to_nat (source - 1);
    f ← mi_files m !! Z.to_nat index;
    f.

Definition require (s : ShardSet) (index : Z) : Result File :=
  match shard_at s index with Some f => Ret f | None => Fail OutOfRange end.

Definition shards_total_bytes (s : ShardSet) : Z := foldl (fun n f => u64 (n + f_size f)) 0 (ss_files s).
Definition shards_close (s : ShardSet) : ShardSet := ShardSet_empty.

(** ** What an opened set promises *)

Section Promise.
Context (open_file : string -> Result File).

Lemma open_shard_Ret dir e f : open_shard open_file dir e = Ret f ->
  open_file (join dir (fe_path e)) = Ret f /\ (fe_bytes e <> 0 -> f_size f = fe_bytes e) /\
  f_sector_size f <= kPageSize.
Proof.
  unfold open_shard. destruct (open_file _) as [g|]; [|done]. cbn [mbind Result_bind].
  destruct (negb _ && _) eqn:H0; [done|]. destruct (kPageSize <? _) eqn:H1; [done|].
  cbn [fail_if mbind Result_bind]. intros H. injection H as ->. split; [done|].
  apply andb_false_iff in H0. rewrite !negb_false_iff, !Z.eqb_eq in H0. apply Z.ltb_ge in H1. tauto.
Qed.

Lemma open_shards_Ret dir es fs : open_shards open_file dir es = (fs, Ret tt) ->
  Forall2 (fun e f => open_shard open_file dir e = Ret f) es fs.
Proof.
  revert fs. induction es as [|e es IH]; intros fs; simpl; intros H; [by simplify_eq; constructor|].
  destruct (open_shard open_file dir e) as [f|] eqn:E; [|done].
  destruct (open_shards open_file dir es) as [fs' r]. simplify_eq. constructor; auto.
Qed.

(** Every mirrored copy is as long as the primary's. *)
Definition mirrors_ok (s : ShardSet) : Prop :=
  Forall (fun m => forall i f, mi_files m !! i = Some (Some f) ->
    exists p, ss_files s !! i = Some p /\ f_size f = f_size p /\ f_sector_size f <= kPageSize) (ss_mirrors s).

Lemma open_mirror_keeps dir m s : mirrors_ok s -> mirrors_ok (open_mirror open_file dir m s).2 /\
  ss_files (open_mirror open_file dir m s).2 = ss_files s.
Proof.
  intros Hm. unfold open_mirror. do 3 (case_match; [done|]). simpl. split; [|done].
  apply Forall_app. split; [done|]. apply Forall_singleton. cbn [mi_files]. intros i f Hi.
  rewrite lookup_zip_with_Some in Hi. destruct Hi as (e & p & Hf & He & Hp). exists p. split; [done|].
  unfold mirror_shard in Hf. repeat case_match; try done. injection Hf as ->.
  apply negb_false_iff, Z.eqb_eq in H3. apply Z.ltb_ge in H4. done.
Qed.
End Promise.

(** After [open_all] succeeded, every shard of the manifest has an open file, of the
    recorded size where one is recorded and on sectors the 4 KiB plan fits; and any mirror
    opened afterwards only ever serves files exactly as long as the primary's, at the same
    index, so a read may go to any source that [at] names. *)
Theorem shard_sources_agree open_file dir m s s1 dirs :
  open_all open_file dir m s = (Ret tt, s1) -> ss_mirrors s = [] ->
  let s' := foldl (fun s d => (open_mirror open_file d m s).2) s1 dirs in
  length (ss_files s') = length (files m) /\
  (forall i e, files m !! i = Some e -> exists f, ss_files s' !! i = Some f /\
     (fe_bytes e <> 0 -> f_size f = fe_bytes e) /\ f_sector_size f <= kPageSize) /\
  (forall index source f, 0 <= source -> source_at s' index source = Some f ->
     exists p, shard_at s' index = Some p /\ f_size f = f_size p) /\
  (length (ss_mirrors s') <= 3)%nat.
Proof.
  intros Hopen Hnone. unfold open_all in Hopen. rewrite Hnone in Hopen.
  destruct (open_shards open_file dir (files m)) as [fs r] eqn:E. injection Hopen as -> <-.
  apply open_shards_Ret in E. intros s'.
  assert (Hinv : ss_files s' = fs /\ mirrors_ok s' /\ (length (ss_mirrors s') <= 3)%nat).
  { unfold s'. clear s'. induction dirs as [|d ds IH] using rev_ind.
    - cbn [foldl ss_files ss_mirrors length]. split; [done|]. split; [apply Forall_nil; done|lia].
    - rewrite foldl_snoc. destruct IH as (Hf & Hm & Hl). set (s0 := foldl _ _ ds) in *.
      destruct (open_mirror_keeps open_file d m s0 Hm) as [Hm' Hf'].
      split; [by rewrite Hf'|]. split; [done|]. unfold open_mirror.
      case_match; [done|]. destruct (Nat.leb_spec 4 (length (ss_mirrors s0) + 1)); [done|].
      case_match; [done|]. simpl. rewrite length_app. simpl. lia. }
  destruct Hinv as (Hf & Hm & Hl). rewrite Hf. split; [symmetry; exact (Forall2_length _ _ _ E)|]. split; [|split; [|done]].
  - intros i e He. destruct (Forall2_lookup_l _ _ _ _ _ E He) as (f & Hfi & Ho).
    exists f. apply open_shard_Ret in Ho as (_ & ? & ?). done.
  - intros index source f Hs Hat. unfold source_at in Hat. destruct (source =? 0); [by exists f|].
    destruct (ss_mirrors s' !! _) as [mi|] eqn:Emi; [|done]. simpl in Hat.
    destruct (mi_files mi !! _) as [o|] eqn:Eo; [|done]. simpl in Hat. subst o.
    unfold mirrors_ok in Hm. rewrite Forall_lookup in Hm. destruct (Hm _ _ Emi _ _ Eo) as (p & Hp & ? & ?).
    exists p. split; [by unfold shard_at|done].
Qed.

(** Two shards under [/m], one of them mirrored under [/e]. *)
Definition example_open (path : string) : Result File :=
  if bool_decide (path = "/m/a") then Ret (mkFile 3 path 8192 512 true true)
  else if bool_decide (path = "/m/b") then Ret (mkFile 4 path 100 4096 true true)
  else if bool_decide (path = "/e/a") then Ret (mkFile 5 path 8192 4096 true true)
  else if bool_decide (path = "/e/b") then Ret (mkFile 6 path 99 4096 true true)
  else Fail NotFound.
Definition example_manifest : Manifest :=
  mkManifest 1 4096 0 "m" [mkFileEntry "a" 8192 0 ""; mkFileEntry "b" 0 0 ""] ∅ [] [].

Lemma shard_sources_agree_witness :
  let s1 := (open_all example_open "/m" example_manifest ShardSet_empty).2 in
  let s' := foldl (fun s d => (open_mirror example_open d example_manifest s).2) s1 ["/e"] in
  source_at s' 0 1 = Some (mkFile 5 "/e/a" 8192 4096 true true) /\ source_at s' 1 1 = None /\
  exists p, shard_at s' 0 = Some p /\ 8192 = f_size p.
Proof.
  intros s1 s'. split; [vm_compute; reflexivity|]. split; [vm_compute; reflexivity|].
  refine (proj1 (proj2 (proj2 (shard_sources_agree example_open "/m" example_manifest ShardSet_empty s1 ["/e"] _ _)))
    0 1 (mkFile 5 "/e/a" 8192 4096 true true) _ _); [vm_compute; reflexivity|reflexivity|lia|vm_compute; reflexivity].
Defined.
