(* ===== verification/ExpertStore.v ===== *)
(** The expert store ([src/store/expert_store.h], [expert_store.cpp]): the slot machine
    that holds routed experts.  Every public method runs under the store's mutex, so it
    is one atomic step on the state; threads interleave between steps. *)

From S2P Require Import Prelude Types Floats Manifest Slab.

(** ** Data *)

Record ExpertSlot := mkExpertSlot {
  s_key : ExpertKey; s_state : SlotState; s_tier : Tier; s_slab : Z; s_slot : nat;
  s_host_ptr : Z; s_dev_addr : Z; s_last_use_token : Z; s_heat : float;
  s_guard_timeline : Z; s_runs_total : Z; s_runs_done : Z; s_run_failed : bool;
  s_part_offset : list Z; s_part_bytes : list Z }.
#[export] Instance ExpertSlot_eta : Eta ExpertSlot := fun s =>
  mkExpertSlot (s_key s) (s_state s) (s_tier s) (s_slab s) (s_slot s) (s_host_ptr s)
    (s_dev_addr s) (s_last_use_token s) (s_heat s) (s_guard_timeline s) (s_runs_total s)
    (s_runs_done s) (s_run_failed s) (s_part_offset s) (s_part_bytes s).
Definition zero_parts : list Z := replicate kExpertPartCount 0.
Definition ExpertSlot_default : ExpertSlot :=
  mkExpertSlot (mkKey 0 0) Free Cached 0 0 0 0 0 f32_zero 0 0 0 false zero_parts zero_parts.

Record ExpertStoreStats := mkStats {
  st_lookups : Z; st_hits : Z; st_misses : Z;
  st_fills_started : Z; st_fills_ok : Z; st_fills_failed : Z;
  st_runs_started : Z; st_runs_done : Z;
  st_evictions : Z; st_eviction_blocked_by_guard : Z;
  st_resident : Z; st_filling : Z; st_free : Z; st_pinned : Z;
  st_hits_path_a : Z; st_hits_path_b : Z; st_fills_path_a : Z; st_fills_path_b : Z }.
#[export] Instance ExpertStoreStats_eta : Eta ExpertStoreStats := fun s =>
  mkStats (st_lookups s) (st_hits s) (st_misses s) (st_fills_started s) (st_fills_ok s)
    (st_fills_failed s) (st_runs_started s) (st_runs_done s) (st_evictions s)
    (st_eviction_blocked_by_guard s) (st_resident s) (st_filling s) (st_free s) (st_pinned s)
    (st_hits_path_a s) (st_hits_path_b s) (st_fills_path_a s) (st_fills_path_b s).
Definition Stats_default : ExpertStoreStats := mkStats 0 0 0 0 0 0 0 0 0 0 0 0 0 0 0 0 0 0.

(** [++x], [--x] at 64 and 32 bits. *)
Definition inc64 (x : Z) : Z := u64 (x + 1).
Definition inc32 (x : Z) : Z := u32 (x + 1).
Definition dec32 (x : Z) : Z := u32 (x - 1).

Inductive EvictPath := EvictOff | PreferA | PreferB.

Record FillRun := mkFillRun {
  fr_file : Z; fr_file_off : Z; fr_bytes : Z; fr_dst : Z; fr_dev_dst : Z }.

Record Reservation := mkReservation {
  r_slot : nat; r_addr : SlotAddress; r_runs : list FillRun }.

(** [free_list] is a vector used as a stack; its back is the head of the list. *)
Record ExpertStore := mkStore {
  fixed_cache : bool; cache_frozen : bool; store_slot_bytes : Z;
  layers : Z; experts_per_layer : Z; path_b_first_slab : Z; evict_path : EvictPath;
  slots : list ExpertSlot; free_list : list nat; index : gmap ExpertKey nat;
  table : list Z; completed_timeline : Z; stats : ExpertStoreStats }.
#[export] Instance ExpertStore_eta : Eta ExpertStore := fun st =>
  mkStore (fixed_cache st) (cache_frozen st) (store_slot_bytes st) (layers st)
    (experts_per_layer st) (path_b_first_slab st) (evict_path st) (slots st) (free_list st)
    (index st) (table st) (completed_timeline st) (stats st).

Definition upd_slot (i : nat) (f : ExpertSlot -> ExpertSlot) (st : ExpertStore) : ExpertStore :=
  st <| slots ::= alter f i |>.
Definition upd_stats (f : ExpertStoreStats -> ExpertStoreStats) (st : ExpertStore) : ExpertStore :=
  st <| stats ::= f |>.

(** ** Construction *)

Definition ExpertStore_empty : ExpertStore :=
  mkStore false false 0 0 0 UINT32_MAX EvictOff [] [] ∅ [] 0 Stats_default.

(** The slots a pool provides: [init]'s loop, stopping at the first bad address. *)
Fixpoint init_slots {B} `{SlabBacking B} (p : SlabPool B) (n : nat) : Result (list ExpertSlot) :=
  match n with
  | O => Ret []
  | S i =>
      before ← init_slots p i;
      a ← address p (Z.of_nat i);
      Ret (before ++ [ExpertSlot_default
             <| s_slot := i |> <| s_slab := (decompose p (Z.of_nat i)).1 |>
             <| s_host_ptr := host_addr a |> <| s_dev_addr := device_addr a |>])
  end.

Definition store_init {B} `{SlabBacking B} (st : ExpertStore) (bk : option B)
    (slots_per_slab budget_bytes layers_ experts_per_layer_ : Z) : Result ExpertStore :=
  if (layers_ =? 0) || (experts_per_layer_ =? 0) then Fail InvalidArgument
  else
    let sc := mkSlabConfig slots_per_slab kExpertSlotBytes budget_bytes in
    match pool_init (mkSlabPool None sc [] 0 0) bk sc with
    | (_, Fail e) => Fail e
    | (p, Ret _) =>
        let n := Z.to_nat (slot_count p) in
        ss ← init_slots p n;
        Ret (mkStore false false (slot_bytes (pool_cfg p)) layers_ experts_per_layer_
               (path_b_first_slab st) (evict_path st) ss (seq 0 n) ∅
               (replicate (Z.to_nat (layers_ * experts_per_layer_) * kExpertPartCount) kNoDeviceAddress)
               (completed_timeline st)
               (Stats_default <| st_free := u32 (Z.of_nat n) |>))
    end.

Definition store_reset (st : ExpertStore) : ExpertStore :=
  mkStore false false 0 0 0 (path_b_first_slab st) (evict_path st) [] [] ∅ [] 0 Stats_default.

(** ** Geometry *)

(** Row of a key in the flat [layer][expert][part] table. *)
Definition table_index (st : ExpertStore) (k : ExpertKey) : nat :=
  (Z.to_nat (layer k * experts_per_layer st + expert k) * kExpertPartCount)%nat.
Definition key_in_range (st : ExpertStore) (k : ExpertKey) : bool :=
  (layer k <? layers st) && (expert k <? experts_per_layer st).

(** [for (p = 0; p < 6; ++p) table_[row + p] = f(p)] *)
Definition write_row (row : nat) (f : nat -> Z) (t : list Z) : list Z :=
  foldl (fun t p => <[(row + p)%nat := f p]> t) t (seq 0 kExpertPartCount).

Definition slot_base (s : ExpertSlot) : Z := if s_dev_addr s =? 0 then s_host_ptr s else s_dev_addr s.

Definition part_address (s : ExpertSlot) (p : nat) : Z :=
  if slot_base s =? 0 then kNoDeviceAddress
  else u64 (slot_base s + default 0 (s_part_offset s !! p)).

Definition publish_locked (i : nat) (st : ExpertStore) : ExpertStore :=
  match slots st !! i with
  | Some s => st <| table ::= write_row (table_index st (s_key s)) (part_address s) |>
  | None => st
  end.

Definition unpublish_locked (i : nat) (st : ExpertStore) : ExpertStore :=
  match slots st !! i with
  | Some s => st <| table ::= write_row (table_index st (s_key s)) (fun _ => kNoDeviceAddress) |>
  | None => st
  end.

(** ** Lookup *)

Definition find_slot (st : ExpertStore) (k : ExpertKey) : option (nat * ExpertSlot) :=
  i ← index st !! k; s ← slots st !! i; Some (i, s).

Definition find_resident (st : ExpertStore) (k : ExpertKey) : option (nat * ExpertSlot) :=
  '(i, s) ← find_slot st k; if decide (s_state s = Resident) then Some (i, s) else None.

Definition resident (st : ExpertStore) (k : ExpertKey) : bool :=
  bool_decide (is_Some (find_resident st k)).

Definition on_path_b (st : ExpertStore) (s : ExpertSlot) : bool := path_b_first_slab st <=? s_slab s.

Definition lookup (k : ExpertKey) (token guard : Z) (st : ExpertStore)
  : option SlotAddress * ExpertStore :=
  let st := upd_stats (fun c => c <| st_lookups ::= inc64 |>) st in
  match find_resident st k with
  | None => (None, upd_stats (fun c => c <| st_misses ::= inc64 |>) st)
  | Some (i, s) =>
      let st := upd_slot i (fun s =>
        s <| s_last_use_token ::= fun t => if fixed_cache st then t else token |>
          <| s_guard_timeline ::= Z.max guard |>) st in
      let st := upd_stats (fun c =>
        let c := c <| st_hits ::= inc64 |> in
        if on_path_b st s then c <| st_hits_path_b ::= inc64 |> else c <| st_hits_path_a ::= inc64 |>) st in
      (Some (mkSlotAddress (s_host_ptr s) (s_dev_addr s)), st)
  end.

(** ** Filling *)

Definition reserve_locked (k : ExpertKey) (t : Tier) (st : ExpertStore)
  : Result (nat * SlotAddress * ExpertStore) :=
  if cache_frozen st then Fail ResourceExhausted
  else if negb (key_in_range st k) then Fail OutOfRange
  else if bool_decide (is_Some (index st !! k)) then Fail AlreadyExists
  else
    match free_list st with
    | [] => Fail ResourceExhausted
    | i :: rest =>
        let s := default ExpertSlot_default (slots st !! i) in
        let st := st <| free_list := rest |> <| index ::= <[k := i]> |> in
        let st := upd_slot i (fun s =>
          s <| s_key := k |> <| s_state := Filling |> <| s_last_use_token := 0 |> <| s_tier := t |>
            <| s_guard_timeline := 0 |> <| s_runs_done := 0 |> <| s_run_failed := false |>) st in
        let st := upd_stats (fun c =>
          c <| st_free ::= dec32 |> <| st_filling ::= inc32 |> <| st_fills_started ::= inc64 |>) st in
        Ret (i, mkSlotAddress (s_host_ptr s) (s_dev_addr s), st)
    end.

Definition fill_run (a : SlotAddress) (r : Run) : FillRun :=
  mkFillRun (run_file r) (run_aligned_off r) (run_aligned_bytes r)
    (if host_addr a =? 0 then 0 else host_addr a + run_slot_offset r)
    (if device_addr a =? 0 then kNoDeviceAddress else u64 (device_addr a + run_slot_offset r)).

Definition begin_fill (k : ExpertKey) (e : ExpertEntry) (t : Tier) (st : ExpertStore)
  : Result (Reservation * ExpertStore) :=
  _ ← fail_if (bool_decide (ee_runs e = [])) InvalidArgument;
  _ ← fail_if (Nat.ltb kMaxExpertRuns (length (ee_runs e))) InvalidArgument;
  _ ← fail_if (store_slot_bytes st <? ee_slot_bytes e) InvalidArgument;
  '(i, a, st) ← reserve_locked k t st;
  let n := Z.of_nat (length (ee_runs e)) in
  let st := upd_slot i (fun s =>
    s <| s_runs_total := n |> <| s_part_offset := ee_part_offset e |>
      <| s_part_bytes := ee_part_bytes e |>) st in
  let st := upd_stats (fun c => c <| st_runs_started ::= fun x => u64 (x + n) |>) st in
  Ret (mkReservation i a (fill_run a <$> ee_runs e), st).

(** The synthetic planar layout: w1 | w1.scale | w2 | w2.scale | w3 | w3.scale. *)
Definition planar_bytes : list Z :=
  (fun p => if Nat.odd p then kExpertScaleBytesPerMat else kExpertWeightBytesPerMat)
    <$> seq 0 kExpertPartCount.
Definition planar_offset : list Z := (fun p => sum_Z (take p planar_bytes)) <$> seq 0 kExpertPartCount.

Definition begin_fill_planar (k : ExpertKey) (t : Tier) (st : ExpertStore)
  : Result (Reservation * ExpertStore) :=
  '(i, a, st) ← reserve_locked k t st;
  let st := upd_slot i (fun s =>
    s <| s_runs_total := 1 |> <| s_part_offset := planar_offset |>
      <| s_part_bytes := planar_bytes |>) st in
  let st := upd_stats (fun c => c <| st_runs_started ::= inc64 |>) st in
  Ret (mkReservation i a [mkFillRun 0 0 (store_slot_bytes st) (host_addr a) (device_addr a)], st).

Definition release_locked (i : nat) (st : ExpertStore) : ExpertStore :=
  match slots st !! i with
  | None => st
  | Some s =>
      let st := st <| index ::= delete (s_key s) |> in
      let st := upd_slot i (fun s =>
        s <| s_key := mkKey 0 0 |> <| s_state := Free |> <| s_heat := f32_zero |>
          <| s_guard_timeline := 0 |> <| s_runs_total := 0 |> <| s_runs_done := 0 |>
          <| s_run_failed := false |> <| s_part_offset := zero_parts |>
          <| s_part_bytes := zero_parts |>) st in
      let st := st <| free_list ::= cons i |> in
      upd_stats (fun c => c <| st_free ::= inc32 |>) st
  end.

Definition settle_locked (i : nat) (ok : bool) (token : Z) (st : ExpertStore) : ExpertStore :=
  let st := upd_stats (fun c => c <| st_filling ::= dec32 |>) st in
  if ok then
    let st := upd_slot i (fun s =>
      s <| s_state := Resident |> <| s_last_use_token ::= fun t => Z.max t token |>) st in
    let st := publish_locked i st in
    let st := upd_stats (fun c => c <| st_resident ::= inc32 |> <| st_fills_ok ::= inc64 |>) st in
    let st := if fixed_cache st && (st_resident (stats st) =? Z.of_nat (length (slots st)))
              then st <| cache_frozen := true |> else st in
    let s := default ExpertSlot_default (slots st !! i) in
    let st := upd_stats (fun c =>
      if on_path_b st s then c <| st_fills_path_b ::= inc64 |> else c <| st_fills_path_a ::= inc64 |>) st in
    if decide (s_tier s = Pinned) then upd_stats (fun c => c <| st_pinned ::= inc32 |>) st else st
  else
    let st := release_locked i st in
    upd_stats (fun c => c <| st_fills_failed ::= inc64 |>) st.

Definition finish_run (i : nat) (ok : bool) (token : Z) (st : ExpertStore)
  : Result bool * ExpertStore :=
  match slots st !! i with
  | None => (Fail OutOfRange, st)
  | Some s =>
      if negb (bool_decide (s_state s = Filling)) then (Fail FailedPrecondition, st)
      else if s_runs_total s <=? s_runs_done s then (Fail FailedPrecondition, st)
      else
        let s' := s <| s_runs_done ::= inc32 |>
                    <| s_run_failed ::= fun f => f || negb ok |> in
        let st := upd_slot i (fun _ => s') st in
        let st := upd_stats (fun c => c <| st_runs_done ::= inc64 |>) st in
        if s_runs_done s' <? s_runs_total s' then (Ret false, st)
        else (Ret true, settle_locked i (negb (s_run_failed s')) token st)
  end.

Definition finish_fill (i : nat) (ok : bool) (token : Z) (st : ExpertStore)
  : Result unit * ExpertStore :=
  match slots st !! i with
  | None => (Fail OutOfRange, st)
  | Some s =>
      if negb (bool_decide (s_state s = Filling)) then (Fail FailedPrecondition, st)
      else
        let st := upd_stats (fun c =>
          c <| st_runs_done ::= fun x => u64 (x + u32 (s_runs_total s - s_runs_done s)) |>) st in
        let st := upd_slot i (fun s => s <| s_runs_done := s_runs_total s |>) st in
        (Ret tt, settle_locked i (ok && negb (s_run_failed s)) token st)
  end.

(** ** Eviction *)

Definition drop_resident (i : nat) (st : ExpertStore) : ExpertStore :=
  upd_stats (fun c => c <| st_resident ::= dec32 |> <| st_evictions ::= inc64 |>)
    (release_locked i (unpublish_locked i st)).

Definition evict (i : nat) (st : ExpertStore) : Result unit * ExpertStore :=
  if fixed_cache st then (Fail FailedPrecondition, st)
  else
    match slots st !! i with
    | None => (Fail OutOfRange, st)
    | Some s =>
        if negb (bool_decide (s_state s = Resident)) then (Fail FailedPrecondition, st)
        else if bool_decide (s_tier s = Pinned) then (Fail FailedPrecondition, st)
        else if completed_timeline st <? s_guard_timeline s then
          (Fail FailedPrecondition, upd_stats (fun c => c <| st_eviction_blocked_by_guard ::= inc64 |>) st)
        else (Ret tt, drop_resident i st)
    end.

(** [evict_key] is two critical sections: the lookup of the slot, then [evict]. *)
Definition evict_key_find (k : ExpertKey) (st : ExpertStore) : Result nat :=
  match index st !! k with Some i => Ret i | None => Fail NotFound end.

Definition is_evictable (st : ExpertStore) (s : ExpertSlot) : bool :=
  bool_decide (s_state s = Resident) && negb (bool_decide (s_tier s = Pinned))
  && (s_guard_timeline s <=? completed_timeline st).

Definition evictable (st : ExpertStore) : list ExpertSlot :=
  if fixed_cache st then [] else filter (fun s => is_evictable st s = true) (slots st).

(** The scan of [evict_lru]: strictly older wins, so equal stamps keep the lowest index. *)
Definition lru_better (best : option (nat * Z)) (i : nat) (s : ExpertSlot) : option (nat * Z) :=
  match best with
  | None => Some (i, s_last_use_token s)
  | Some (_, oldest) => if s_last_use_token s <? oldest then Some (i, s_last_use_token s) else best
  end.

Fixpoint lru_scan (p : ExpertSlot -> bool) (i : nat) (ss : list ExpertSlot) (best : option (nat * Z))
  : option (nat * Z) :=
  match ss with
  | [] => best
  | s :: ss => lru_scan p (S i) ss (if p s then lru_better best i s else best)
  end.

Definition lru_candidate (st : ExpertStore) (restrict_to : option bool) (s : ExpertSlot) : bool :=
  is_evictable st s
  && match restrict_to with None => true | Some b => Bool.eqb (on_path_b st s) b end.

Definition scan (st : ExpertStore) (restrict_to : option bool) : option nat :=
  fst <$> lru_scan (lru_candidate st restrict_to) 0 (slots st) None.

Definition evict_lru (st : ExpertStore) : Result nat * ExpertStore :=
  if fixed_cache st then (Fail FailedPrecondition, st)
  else
    let preferred := match evict_path st with
                     | PreferA => scan st (Some false)
                     | PreferB => scan st (Some true)
                     | EvictOff => None
                     end in
    let best := match preferred with Some i => Some i | None => scan st None end in
    match best with
    | None => (Fail NotFound, st)
    | Some i => (Ret i, drop_resident i st)
    end.

Definition oldest_evictable_stamp (st : ExpertStore) : option Z :=
  if fixed_cache st then None
  else foldl (fun best s =>
         if is_evictable st s then
           match best with
           | None => Some (s_last_use_token s)
           | Some b => if s_last_use_token s <? b then Some (s_last_use_token s) else best
           end
         else best) None (slots st).

(** ** Guards and the GPU timeline *)

Definition set_completed_timeline (v : Z) (st : ExpertStore) : ExpertStore :=
  st <| completed_timeline ::= fun c => if c <? v then v else c |>.

Definition set_guard (i : nat) (v : Z) (st : ExpertStore) : Result unit * ExpertStore :=
  match slots st !! i with
  | None => (Fail OutOfRange, st)
  | Some s =>
      (Ret tt, upd_slot i (fun s => s <| s_guard_timeline ::= fun g => if g <? v then v else g |>) st)
  end.

Definition guarded_snapshot (guard : Z) (st : ExpertStore) : Result (list Z) * ExpertStore :=
  if guard <=? completed_timeline st then (Fail InvalidArgument, st)
  else (Ret (table st),
        st <| slots ::= fmap (fun s =>
          if decide (s_state s = Resident) then s <| s_guard_timeline ::= fun g => Z.max g guard |> else s) |>).

(** ** Policy metadata *)

Definition set_fixed_cache (enabled : bool) (st : ExpertStore) : ExpertStore :=
  st <| fixed_cache := enabled |>
     <| cache_frozen := enabled && negb (bool_decide (slots st = []))
                        && (st_resident (stats st) =? Z.of_nat (length (slots st))) |>.

Definition frozen_cache_identity (st : ExpertStore) : Result (list (nat * Z * Z * Z)) :=
  if negb (fixed_cache st) || negb (cache_frozen st) || bool_decide (slots st = [])
     || negb (st_filling (stats st) =? 0) || negb (st_free (stats st) =? 0)
  then Fail FailedPrecondition
  else foldM (fun acc s =>
         if decide (s_state s = Resident)
         then Ret (acc ++ [(s_slot s, layer (s_key s), expert (s_key s),
                            if decide (s_tier s = Pinned) then 1 else 0)])
         else Fail FailedPrecondition) [] (slots st).

Definition pin (k : ExpertKey) (st : ExpertStore) : Result unit * ExpertStore :=
  match find_slot st k with
  | None => (Fail NotFound, st)
  | Some (i, s) =>
      if negb (bool_decide (s_state s = Resident)) then (Fail FailedPrecondition, st)
      else if bool_decide (s_tier s = Pinned) then (Ret tt, st)
      else (Ret tt, upd_stats (fun c => c <| st_pinned ::= inc32 |>)
                      (upd_slot i (fun s => s <| s_tier := Pinned |>) st))
  end.

Definition touch (k : ExpertKey) (stamp : Z) (include_filling : bool) (st : ExpertStore)
  : bool * ExpertStore :=
  match find_slot st k with
  | None => (false, st)
  | Some (i, s) =>
      if negb (bool_decide (s_state s = Resident))
         && negb (include_filling && bool_decide (s_state s = Filling))
      then (false, st)
      else (true, if negb (fixed_cache st) && (s_last_use_token s <? stamp)
                  then upd_slot i (fun s => s <| s_last_use_token := stamp |>) st else st)
  end.

(** [h = (1 - alpha) * h + alpha * score] in [float]. *)
Definition ewma (alpha score h : float) : float :=
  f32_add (f32_mul (f32_sub f32_one alpha) h) (f32_mul alpha score).

Definition note_heat (k : ExpertKey) (score alpha : float) (st : ExpertStore) : ExpertStore :=
  if fixed_cache st then st
  else match index st !! k with
       | None => st
       | Some i => upd_slot i (fun s => s <| s_heat ::= ewma alpha score |>) st
       end.

Definition heat_max (st : ExpertStore) : float :=
  foldl (fun top s => if f_gtb (s_heat s) top then s_heat s else top) f32_zero (slots st).

Definition decay_heat (factor : float) (st : ExpertStore) : ExpertStore :=
  if f_geb factor f32_one then st
  else
    let factor := if f_ltb factor f32_zero then f32_zero else factor in
    let top := heat_max st in
    if f_leb top f32_zero then st
    else
      let scale := f32_div f32_one top in
      st <| slots ::= fmap (fun s => s <| s_heat ::= fun h => f32_mul h scale |>) |>.

(** [heat_order]'s comparator: hottest first, then layer, then expert. *)
Definition hotter (a b : ExpertSlot) : bool :=
  if negb (f_eqb (s_heat a) (s_heat b)) then f_gtb (s_heat a) (s_heat b)
  else if negb (layer (s_key a) =? layer (s_key b)) then layer (s_key a) <? layer (s_key b)
  else expert (s_key a) <? expert (s_key b).

Definition is_live (s : ExpertSlot) : bool :=
  bool_decide (s_state s = Resident) && negb (bool_decide (s_tier s = Pinned)).

Definition heat_order (st : ExpertStore) : list ExpertKey :=
  s_key <$> std_sort hotter (filter (fun s => is_live s = true) (slots st)).

Definition heat_slots (st : ExpertStore) : nat :=
  length (filter (fun s => is_live s = true) (slots st)).

Definition slot_info (i : nat) (st : ExpertStore) : option ExpertSlot := slots st !! i.
Definition slot_for (k : ExpertKey) (st : ExpertStore) : option ExpertSlot := snd <$> find_slot st k.
Definition slot_of (k : ExpertKey) (st : ExpertStore) : option nat := index st !! k.
Definition free_slots (st : ExpertStore) : Z := Z.of_nat (length (free_list st)).

(** ** The pointer table *)

Definition table_entry (k : ExpertKey) (p : ExpertPart) (st : ExpertStore) : Result Z :=
  if negb (key_in_range st k) then Fail OutOfRange
  else Ret (default 0 (table st !! (table_index st k + part_index p)%nat)).

Definition table_row (k : ExpertKey) (st : ExpertStore) : Result (list Z) :=
  if negb (key_in_range st k) then Fail OutOfRange
  else if negb (resident st k) then Fail FailedPrecondition
  else Ret ((fun p => default 0 (table st !! (table_index st k + p)%nat)) <$> seq 0 kExpertPartCount).

(** ** Statistics *)

Definition get_stats (st : ExpertStore) : ExpertStoreStats :=
  (stats st) <| st_free := u32 (free_slots st) |>.

Definition reset_stats (st : ExpertStore) : ExpertStore :=
  let c := stats st in
  let fresh := Stats_default
    <| st_resident := st_resident c |> <| st_filling := st_filling c |>
    <| st_pinned := st_pinned c |> <| st_free := u32 (free_slots st) |> in
  st <| stats := fresh |>.

(** ** The store as a step machine

    One constructor per state-changing critical section; any thread may take any step. *)

Inductive StoreOp :=
| OpLookup (k : ExpertKey) (token guard : Z)
| OpBeginFill (k : ExpertKey) (e : ExpertEntry) (t : Tier)
| OpBeginFillPlanar (k : ExpertKey) (t : Tier)
| OpFinishRun (i : nat) (ok : bool) (token : Z)
| OpFinishFill (i : nat) (ok : bool) (token : Z)
| OpEvict (i : nat)
| OpEvictLru
| OpSetCompleted (v : Z)
| OpSetGuard (i : nat) (v : Z)
| OpSnapshot (guard : Z)
| OpSetFixed (enabled : bool)
| OpPin (k : ExpertKey)
| OpTouch (k : ExpertKey) (stamp : Z) (include_filling : bool)
| OpNoteHeat (k : ExpertKey) (score alpha : float)
| OpDecayHeat (factor : float)
| OpResetStats.

Definition keep_on_fail {A} (r : Result (A * ExpertStore)) (st : ExpertStore) : ExpertStore :=
  match r with Ret (_, st') => st' | Fail _ => st end.

Definition store_step (op : StoreOp) (st : ExpertStore) : ExpertStore :=
  match op with
  | OpLookup k token guard => (lookup k token guard st).2
  | OpBeginFill k e t => keep_on_fail (begin_fill k e t st) st
  | OpBeginFillPlanar k t => keep_on_fail (begin_fill_planar k t st) st
  | OpFinishRun i ok token => (finish_run i ok token st).2
  | OpFinishFill i ok token => (finish_fill i ok token st).2
  | OpEvict i => (evict i st).2
  | OpEvictLru => (evict_lru st).2
  | OpSetCompleted v => set_completed_timeline v st
  | OpSetGuard i v => (set_guard i v st).2
  | OpSnapshot guard => (guarded_snapshot guard st).2
  | OpSetFixed enabled => set_fixed_cache enabled st
  | OpPin k => (pin k st).2
  | OpTouch k stamp f => (touch k stamp f st).2
  | OpNoteHeat k score alpha => note_heat k score alpha st
  | OpDecayHeat factor => decay_heat factor st
  | OpResetStats => reset_stats st
  end.

Definition run_ops (ops : list StoreOp) (st : ExpertStore) : ExpertStore :=
  foldl (fun st op => store_step op st) st ops.

Definition is_filling (k : ExpertKey) (st : ExpertStore) : bool :=
  match find_slot st k with
  | Some (_, s) => bool_decide (s_state s = Filling)
  | None => false
  end.

(** [wait_settled] releases the mutex while it waits: [others] are the steps other
    threads take meanwhile; the list ends when the timeout passes. *)
Fixpoint wait_settled (k : ExpertKey) (others : list StoreOp) (st : ExpertStore)
  : bool * ExpertStore :=
  if is_filling k st then
    match others with
    | [] => (resident st k, st)
    | op :: others => wait_settled k others (store_step op st)
    end
  else (resident st k, st).

(** [evict_key]: other threads may run between the two critical sections. *)
Definition evict_key (k : ExpertKey) (others : list StoreOp) (st : ExpertStore)
  : Result unit * ExpertStore :=
  match evict_key_find k st with
  | Fail e => (Fail e, st)
  | Ret i => evict i (run_ops others st)
  end.

