(* ===== verification/StoreInv.v ===== *)
(** The expert store's invariant and the theorems about [ExpertStore.v]: every reachable
    state is consistent, the pointer table never dangles, guarded slots survive, eviction
    is least-recently-used and fills settle exactly once. *)

From S2P Require Import Prelude Types Floats Manifest Slab ExpertStore.

(** ** The invariant *)

Fixpoint count (p : ExpertSlot -> bool) (ss : list ExpertSlot) : Z :=
  match ss with [] => 0 | s :: ss => Z.b2z (p s) + count p ss end.
Definition in_state (x : SlotState) (s : ExpertSlot) : bool := bool_decide (s_state s = x).
Definition pinned_resident (s : ExpertSlot) : bool := in_state Resident s && bool_decide (s_tier s = Pinned).

(** What the pointer table must hold for part [p] of key [k]: the address inside the slot
    that is resident for [k], or null. *)
Definition expected_entry (st : ExpertStore) (k : ExpertKey) (p : nat) : Z :=
  match find_resident st k with Some (_, s) => part_address s p | None => kNoDeviceAddress end.

(** A fill still waits for at least one run, and has at most [kMaxExpertRuns]. *)
Definition run_progress (s : ExpertSlot) : Prop :=
  0 <= s_runs_done s < s_runs_total s /\ s_runs_total s <= Z.of_nat kMaxExpertRuns.

Record store_core (st : ExpertStore) : Prop := {
  ok_dims : 0 <= layers st /\ 0 <= experts_per_layer st;
  ok_size : Z.of_nat (length (slots st)) < 2 ^ 32;
  ok_id : forall i s, slots st !! i = Some s -> s_slot s = i;
  ok_index : forall k i, index st !! k = Some i ->
    exists s, slots st !! i = Some s /\ s_key s = k /\ s_state s <> Free;
  ok_held : forall i s, slots st !! i = Some s -> s_state s <> Free -> index st !! s_key s = Some i;
  ok_keys : forall k i, index st !! k = Some i -> key_ok k /\ key_in_range st k = true;
  ok_free_nodup : NoDup (free_list st);
  ok_free_list : forall i, i ∈ free_list st <-> exists s, slots st !! i = Some s /\ s_state s = Free;
  ok_table_length : length (table st)
    = (Z.to_nat (layers st * experts_per_layer st) * kExpertPartCount)%nat;
  ok_table : forall k p, key_ok k -> key_in_range st k = true -> (p < kExpertPartCount)%nat ->
    table st !! (table_index st k + p)%nat = Some (expected_entry st k p);
  ok_resident : st_resident (stats st) = count (in_state Resident) (slots st);
  ok_filling : st_filling (stats st) = count (in_state Filling) (slots st);
  ok_free : st_free (stats st) = count (in_state Free) (slots st);
  ok_pinned : st_pinned (stats st) = count pinned_resident (slots st);
  ok_frozen : cache_frozen st = true ->
    fixed_cache st = true /\ forall i s, slots st !! i = Some s -> s_state s = Resident }.

(** Between two steps every slot being filled also has a run outstanding. *)
Record store_ok (st : ExpertStore) : Prop := {
  ok_core :> store_core st;
  ok_runs : forall i s, slots st !! i = Some s -> s_state s = Filling -> run_progress s }.

(** *** Counting *)

Lemma count_insert p ss i s t :
  ss !! i = Some s -> count p (<[i := t]> ss) = count p ss - Z.b2z (p s) + Z.b2z (p t).
Proof.
  revert i. induction ss as [|x ss IH]; intros [|i] Hi; simplify_eq/=; [lia|].
  rewrite (IH _ Hi). lia.
Qed.

Lemma count_range p ss : 0 <= count p ss <= Z.of_nat (length ss).
Proof. induction ss as [|s ss IH]; simpl; [lia|]. destruct (p s); simpl in *; lia. Qed.

Lemma count_pos p ss i s : ss !! i = Some s -> p s = true -> 0 < count p ss.
Proof.
  revert i. induction ss as [|x ss IH]; intros [|i] Hi Hp; simplify_eq/=.
  - rewrite Hp. pose proof (count_range p ss). simpl. lia.
  - pose proof (IH _ Hi Hp). destruct (p x); simpl; lia.
Qed.

Lemma count_all p ss : count p ss = Z.of_nat (length ss) -> Forall (fun s => p s = true) ss.
Proof.
  induction ss as [|s ss IH]; [constructor|]. simpl. pose proof (count_range p ss).
  destruct (p s) eqn:E; simpl; intros; [|lia]. constructor; [done|]. apply IH. lia.
Qed.

Lemma count_ext p q ss : (forall s, p s = q s) -> count p ss = count q ss.
Proof. intros H. induction ss as [|s ss IH]; simpl; [done|]. by rewrite H, IH. Qed.

Lemma count_state_sum ss :
  count (in_state Free) ss + count (in_state Filling) ss + count (in_state Resident) ss
  = Z.of_nat (length ss).
Proof.
  induction ss as [|s ss IH]; [done|]. simpl. unfold in_state at 1 3 5.
  destruct (s_state s); simpl in *; lia.
Qed.

(** *** The table *)

Lemma write_row_length row f t : length (write_row row f t) = length t.
Proof. apply (foldl_insert_length (fun p => (row + p)%nat) f). Qed.

Lemma write_row_in row f t p :
  (p < kExpertPartCount)%nat -> (row + kExpertPartCount <= length t)%nat ->
  write_row row f t !! (row + p)%nat = Some (f p).
Proof.
  unfold write_row, kExpertPartCount, kExpertParts. intros Hp Hl. simpl.
  do 6 (destruct p as [|p];
    [repeat (rewrite list_lookup_insert_ne by lia); apply list_lookup_insert_eq;
     rewrite ?length_insert; lia|]). lia.
Qed.

Lemma write_row_out row f t j :
  (j < row \/ row + kExpertPartCount <= j)%nat -> write_row row f t !! j = t !! j.
Proof.
  unfold write_row, kExpertPartCount, kExpertParts. intros Hj. simpl.
  by rewrite !list_lookup_insert_ne by lia.
Qed.

Section Rows.
Context (st : ExpertStore) (Hok : store_core st).

Lemma row_bound k : key_ok k -> key_in_range st k = true ->
  (table_index st k + kExpertPartCount <= length (table st))%nat.
Proof.
  intros [Hl He] Hr. rewrite ok_table_length by done. unfold table_index, key_in_range in *.
  apply andb_true_iff in Hr as [H1 H2]. apply Z.ltb_lt in H1, H2.
  assert (layer k * experts_per_layer st + expert k + 1 <= layers st * experts_per_layer st) by nia.
  assert (0 <= layer k * experts_per_layer st) by nia.
  unfold kExpertPartCount, kExpertParts. lia.
Qed.

Lemma rows_disjoint k k' : key_ok k -> key_in_range st k = true ->
  key_ok k' -> key_in_range st k' = true -> k <> k' ->
  (table_index st k + kExpertPartCount <= table_index st k' \/
   table_index st k' + kExpertPartCount <= table_index st k)%nat.
Proof.
  intros [Hl He] Hr [Hl' He'] Hr' Hne. unfold table_index, key_in_range in *.
  apply andb_true_iff in Hr as [H1 H2], Hr' as [H3 H4]. apply Z.ltb_lt in H1, H2, H3, H4.
  assert (layer k * experts_per_layer st + expert k <> layer k' * experts_per_layer st + expert k').
  { intros Heq. apply Hne. destruct k as [l e], k' as [l' e']; simpl in *.
    assert (l = l') by nia. subst. f_equal. lia. }
  assert (0 <= layer k * experts_per_layer st) by nia.
  assert (0 <= layer k' * experts_per_layer st) by nia.
  unfold kExpertPartCount, kExpertParts. lia.
Qed.
End Rows.

Create HintDb store.
#[local] Arguments write_row : simpl never.

(** *** What a slot update does to the invariant's parts *)

Lemma alter_insert_slot (f : ExpertSlot -> ExpertSlot) (i : nat) (ss : list ExpertSlot) s :
  ss !! i = Some s -> alter f i ss = <[i := f s]> ss.
Proof.
  intros Hi. apply list_eq. intros j. destruct (decide (i = j)) as [->|Hj].
  - rewrite list_lookup_alter_eq, Hi, list_lookup_insert_eq; [done|]. by eapply lookup_lt_Some.
  - by rewrite list_lookup_alter_ne, list_lookup_insert_ne by done.
Qed.

Lemma lookup_insert_slot (ss : list ExpertSlot) i t j u s :
  ss !! i = Some s -> <[i := t]> ss !! j = Some u ->
  (j = i /\ u = t) \/ (j <> i /\ ss !! j = Some u).
Proof.
  intros Hi Hj. destruct (decide (i = j)) as [->|Hne].
  - rewrite list_lookup_insert_eq in Hj by (by eapply lookup_lt_Some). simplify_eq. by left.
  - rewrite list_lookup_insert_ne in Hj by done. by right.
Qed.

Lemma lookup_insert_slot_eq (ss : list ExpertSlot) i t s :
  ss !! i = Some s -> <[i := t]> ss !! i = Some t.
Proof. intros. apply list_lookup_insert_eq. by eapply lookup_lt_Some. Qed.

Lemma find_resident_Some st k i s :
  store_core st ->
  find_resident st k = Some (i, s) <-> slots st !! i = Some s /\ s_state s = Resident /\ s_key s = k.
Proof.
  intros Hok. unfold find_resident, find_slot. split.
  - destruct (index st !! k) as [j|] eqn:Hj; [|done]. simpl.
    destruct (ok_index _ Hok _ _ Hj) as (u & Hu & Hk & _). rewrite Hu. simpl.
    case_decide; intros; simplify_eq. done.
  - intros (Hs & Hr & <-). rewrite (ok_held _ Hok i s Hs) by (by rewrite Hr). simpl.
    rewrite Hs. simpl. by rewrite decide_True.
Qed.

Lemma find_slot_Some st k i s :
  store_core st -> find_slot st k = Some (i, s) ->
  slots st !! i = Some s /\ s_state s <> Free /\ s_key s = k /\ index st !! k = Some i.
Proof.
  intros Hok. unfold find_slot. destruct (index st !! k) as [j|] eqn:Hj; [|done]. simpl.
  destruct (ok_index _ Hok _ _ Hj) as (u & Hu & Hk & Hn). rewrite Hu. simpl. intros; by simplify_eq.
Qed.

Definition slot_entry (t : ExpertSlot) (p : nat) : Z :=
  if decide (s_state t = Resident) then part_address t p else kNoDeviceAddress.

Lemma expected_entry_alt st k p i s :
  store_core st -> index st !! k = Some i -> slots st !! i = Some s -> expected_entry st k p = slot_entry s p.
Proof.
  intros Hok Hi Hs. unfold expected_entry, find_resident, find_slot, slot_entry.
  rewrite Hi. simpl. rewrite Hs. simpl. by case_decide.
Qed.

Lemma expected_entry_insert st st' k p i s t :
  slots st !! i = Some s -> slots st' = <[i := t]> (slots st) -> index st' = index st ->
  expected_entry st' k p
  = if decide (index st !! k = Some i) then slot_entry t p else expected_entry st k p.
Proof.
  intros Hi Hs Hx. unfold expected_entry, find_resident, find_slot, slot_entry. rewrite Hs, Hx.
  destruct (index st !! k) as [j|]; simpl; [|done].
  destruct (decide (Some j = Some i)) as [Hj|Hj].
  - simplify_eq. rewrite (lookup_insert_slot_eq _ _ _ s) by done. simpl. by case_decide.
  - by rewrite list_lookup_insert_ne by congruence.
Qed.

(** Fields of [s] no bookkeeping step may change while the slot keeps its occupant; with
    [r] the step also leaves every fill with a run outstanding. *)
Record same_core (r : bool) (s t : ExpertSlot) : Prop := {
  core_key : s_key t = s_key s; core_state : s_state t = s_state s; core_tier : s_tier t = s_tier s;
  core_slot : s_slot t = s_slot s; core_host : s_host_ptr t = s_host_ptr s;
  core_dev : s_dev_addr t = s_dev_addr s; core_parts : s_state t = Resident -> s_part_offset t = s_part_offset s;
  core_runs : r = true -> s_state t = Filling -> run_progress s -> run_progress t }.

Lemma same_core_refl r s : same_core r s s.
Proof. by split. Qed.
#[export] Hint Resolve same_core_refl : store.

Lemma same_core_address r s t p : same_core r s t -> slot_entry t p = slot_entry s p.
Proof.
  intros H. unfold slot_entry, part_address, slot_base.
  rewrite (core_host _ _ _ H), (core_dev _ _ _ H). case_decide as E.
  - rewrite (core_parts _ _ _ H E). rewrite (core_state _ _ _ H) in E. by rewrite decide_True.
  - rewrite (core_state _ _ _ H) in E. by rewrite decide_False.
Qed.

Lemma count_same_core r p ss ts :
  (forall s t, same_core r s t -> p s = p t) -> Forall2 (same_core r) ss ts -> count p ss = count p ts.
Proof. intros Hp. induction 1 as [|s t ss ts H _ IH]; simpl; [done|]. by rewrite (Hp s t H), IH. Qed.

Lemma in_state_core r x s t : same_core r s t -> in_state x s = in_state x t.
Proof. intros H. unfold in_state. by rewrite (core_state _ _ _ H). Qed.
Lemma pinned_core r s t : same_core r s t -> pinned_resident s = pinned_resident t.
Proof. intros H. unfold pinned_resident, in_state. by rewrite (core_state _ _ _ H), (core_tier _ _ _ H). Qed.
#[export] Hint Resolve in_state_core pinned_core : store.

Lemma Forall2_same_core_alter r i f ss :
  (forall s, ss !! i = Some s -> same_core r s (f s)) -> Forall2 (same_core r) ss (alter f i ss).
Proof.
  revert i. induction ss as [|s ss IH]; intros [|i] H; simpl; constructor; auto with store.
  - clear. induction ss; constructor; auto with store.
  - apply IH. intros; by apply H.
Qed.

(** Steps that only touch a slot's LRU stamp, guard, heat or run progress. *)
Record same_frame (r : bool) (st st' : ExpertStore) : Prop := {
  sf_dims : layers st' = layers st /\ experts_per_layer st' = experts_per_layer st;
  sf_index : index st' = index st; sf_free : free_list st' = free_list st;
  sf_table : table st' = table st; sf_fixed : fixed_cache st' = fixed_cache st;
  sf_frozen : cache_frozen st' = cache_frozen st;
  sf_resident : st_resident (stats st') = st_resident (stats st);
  sf_filling : st_filling (stats st') = st_filling (stats st);
  sf_stfree : st_free (stats st') = st_free (stats st);
  sf_pinned : st_pinned (stats st') = st_pinned (stats st);
  sf_slots : Forall2 (same_core r) (slots st) (slots st') }.

Lemma same_frame_lookup r st st' i t :
  same_frame r st st' -> slots st' !! i = Some t ->
  exists s, slots st !! i = Some s /\ same_core r s t.
Proof. intros H Hi. destruct (Forall2_lookup_r _ _ _ _ _ (sf_slots _ _ _ H) Hi) as (s & ? & ?). eauto. Qed.

Lemma same_frame_lookup_l r st st' i s :
  same_frame r st st' -> slots st !! i = Some s ->
  exists t, slots st' !! i = Some t /\ same_core r s t.
Proof. intros H Hi. destruct (Forall2_lookup_l _ _ _ _ _ (sf_slots _ _ _ H) Hi) as (s0 & ? & ?). eauto. Qed.

Lemma same_frame_entry r st st' k p :
  store_core st -> same_frame r st st' -> expected_entry st' k p = expected_entry st k p.
Proof.
  intros Hok H. unfold expected_entry, find_resident, find_slot. rewrite (sf_index _ _ _ H).
  destruct (index st !! k) as [i|] eqn:Hi; [|done]. simpl.
  destruct (ok_index _ Hok _ _ Hi) as (s & Hs & _). rewrite Hs. simpl.
  destruct (same_frame_lookup_l _ _ _ _ _ H Hs) as (t & -> & Hc). simpl.
  pose proof (same_core_address _ s t p Hc) as E. unfold slot_entry in E.
  rewrite (core_state _ _ _ Hc) in *. by case_decide.
Qed.

Lemma store_core_frame r st st' : store_core st -> same_frame r st st' -> store_core st'.
Proof.
  intros Hok H. pose proof (sf_dims _ _ _ H) as [Hd1 Hd2].
  assert (Hkr : forall k, key_in_range st' k = key_in_range st k)
    by (intros; unfold key_in_range; by rewrite Hd1, Hd2).
  assert (Hti : forall k, table_index st' k = table_index st k)
    by (intros; unfold table_index; by rewrite Hd2).
  pose proof (Forall2_length _ _ _ (sf_slots _ _ _ H)) as Hlen.
  assert (Hcnt : forall p, (forall s t, same_core r s t -> p s = p t) ->
     count p (slots st') = count p (slots st))
    by (intros p Hp; symmetry; by eapply count_same_core, sf_slots).
  split.
  - rewrite Hd1, Hd2. apply Hok.
  - rewrite <- Hlen. apply Hok.
  - intros i t Hi. destruct (same_frame_lookup _ _ _ _ _ H Hi) as (s & Hs & Hc).
    rewrite (core_slot _ _ _ Hc). by apply (ok_id _ Hok).
  - intros k i. rewrite (sf_index _ _ _ H). intros Hi.
    destruct (ok_index _ Hok _ _ Hi) as (s & Hs & Hk & Hn).
    destruct (same_frame_lookup_l _ _ _ _ _ H Hs) as (t & Ht & Hc). exists t.
    by rewrite (core_key _ _ _ Hc), (core_state _ _ _ Hc).
  - intros i t Hi Hn. destruct (same_frame_lookup _ _ _ _ _ H Hi) as (s & Hs & Hc).
    rewrite (sf_index _ _ _ H), (core_key _ _ _ Hc). rewrite (core_state _ _ _ Hc) in Hn.
    by apply (ok_held _ Hok).
  - intros k i. rewrite (sf_index _ _ _ H), Hkr. apply (ok_keys _ Hok).
  - rewrite (sf_free _ _ _ H). apply Hok.
  - intros i. rewrite (sf_free _ _ _ H), (ok_free_list _ Hok). split; intros (s & Hs & Hf).
    + destruct (same_frame_lookup_l _ _ _ _ _ H Hs) as (t & Ht & Hc).
      exists t. by rewrite (core_state _ _ _ Hc).
    + destruct (same_frame_lookup _ _ _ _ _ H Hs) as (t & Ht & Hc).
      exists t. by rewrite <- (core_state _ _ _ Hc).
  - rewrite (sf_table _ _ _ H), Hd1, Hd2. apply Hok.
  - intros k p Hk Hin Hp. rewrite Hkr in Hin.
    rewrite (sf_table _ _ _ H), Hti, (same_frame_entry r st st' k p Hok H). by apply (ok_table _ Hok).
  - rewrite (sf_resident _ _ _ H), Hcnt by eauto with store. apply Hok.
  - rewrite (sf_filling _ _ _ H), Hcnt by eauto with store. apply Hok.
  - rewrite (sf_stfree _ _ _ H), Hcnt by eauto with store. apply Hok.
  - rewrite (sf_pinned _ _ _ H), Hcnt by eauto with store. apply Hok.
  - rewrite (sf_frozen _ _ _ H), (sf_fixed _ _ _ H). intros Hf.
    destruct (ok_frozen _ Hok Hf) as [? Hall]. split; [done|]. intros i t Hi.
    destruct (same_frame_lookup _ _ _ _ _ H Hi) as (s & Hs & Hc). rewrite (core_state _ _ _ Hc). eauto.
Qed.

Lemma store_ok_frame st st' : store_ok st -> same_frame true st st' -> store_ok st'.
Proof.
  intros [Hok Hr] H. split; [by eapply store_core_frame|]. intros i t Hi Hf.
  destruct (same_frame_lookup _ _ _ _ _ H Hi) as (s & Hs & Hc).
  apply (core_runs _ _ _ Hc); [done..|]. rewrite (core_state _ _ _ Hc) in Hf. eauto.
Qed.

(** *** A slot changing hands *)

Section SlotMove.
Context (st st' : ExpertStore) (i : nat) (s t : ExpertSlot).

Definition vacated : gmap ExpertKey nat :=
  if decide (s_state s = Free) then index st else delete (s_key s) (index st).

Definition moved_count (p : ExpertSlot -> bool) (before after : Z) : Prop :=
  after = u32 (before - Z.b2z (p s) + Z.b2z (p t)).

Definition moved_entry (k : ExpertKey) (p : nat) : Z :=
  if decide (s_state t <> Free /\ k = s_key t) then slot_entry t p
  else if decide (s_state s <> Free /\ k = s_key s) then kNoDeviceAddress
  else expected_entry st k p.

(** Slot [i] goes from [s] to [t]; index, free list, table and counters follow. *)
Record slot_move : Prop := {
  mv_slots : slots st' = <[i := t]> (slots st);
  mv_slot : s_slot t = s_slot s;
  mv_dims : layers st' = layers st /\ experts_per_layer st' = experts_per_layer st;
  mv_index : index st' = if decide (s_state t = Free) then vacated else <[s_key t := i]> vacated;
  mv_key : s_state t <> Free ->
    vacated !! s_key t = None /\ key_ok (s_key t) /\ key_in_range st (s_key t) = true;
  mv_nodup : NoDup (free_list st');
  mv_free : forall j, j ∈ free_list st' <-> if decide (j = i) then s_state t = Free else j ∈ free_list st;
  mv_table_length : length (table st') = length (table st);
  mv_table : forall k p, key_ok k -> key_in_range st k = true -> (p < kExpertPartCount)%nat ->
    table st' !! (table_index st k + p)%nat = Some (moved_entry k p);
  mv_resident : moved_count (in_state Resident) (st_resident (stats st)) (st_resident (stats st'));
  mv_filling : moved_count (in_state Filling) (st_filling (stats st)) (st_filling (stats st'));
  mv_stfree : moved_count (in_state Free) (st_free (stats st)) (st_free (stats st'));
  mv_pinned : moved_count pinned_resident (st_pinned (stats st)) (st_pinned (stats st'));
  mv_frozen : cache_frozen st' = true ->
    fixed_cache st' = true /\ forall j u, slots st' !! j = Some u -> s_state u = Resident }.

Context (Hok : store_core st) (Hs : slots st !! i = Some s) (Hmv : slot_move).

Lemma vacated_Some k j : vacated !! k = Some j ->
  j <> i /\ index st !! k = Some j /\ (s_state s <> Free -> k <> s_key s).
Proof.
  unfold vacated. case_decide as Hf; intros Hk.
  - destruct (ok_index _ Hok _ _ Hk) as (u & Hu & _ & Hn). split; [|done]. intros ->. congruence.
  - apply lookup_delete_Some in Hk as [Hne Hk]. repeat split; [|done|congruence].
    intros ->. destruct (ok_index _ Hok _ _ Hk) as (u & Hu & <- & _). congruence.
Qed.

Lemma moved_index k j : index st' !! k = Some j ->
  (j = i /\ k = s_key t /\ s_state t <> Free) \/ (vacated !! k = Some j /\ j <> i).
Proof.
  rewrite (mv_index Hmv). case_decide as Hf; intros Hk.
  - right. split; [done|]. by apply vacated_Some in Hk as (? & _).
  - apply lookup_insert_Some in Hk as [[<- <-]|[_ Hk]]; [by left|].
    right. split; [done|]. by apply vacated_Some in Hk as (? & _).
Qed.

Lemma moved_expected k p : expected_entry st' k p = moved_entry k p.
Proof.
  unfold moved_entry, expected_entry, find_resident, find_slot.
  rewrite (mv_index Hmv), (mv_slots Hmv).
  destruct (decide (s_state t <> Free /\ k = s_key t)) as [[Hn ->]|Hnew].
  - rewrite decide_False by done. rewrite lookup_insert_eq. simpl.
    rewrite (lookup_insert_slot_eq _ _ _ s) by done. simpl. unfold slot_entry. by case_decide.
  - assert ((if decide (s_state t = Free) then vacated else <[s_key t := i]> vacated) !! k
            = vacated !! k) as ->.
    { case_decide; [done|]. apply lookup_insert_ne. naive_solver. }
    destruct (decide (s_state s <> Free /\ k = s_key s)) as [[Hn ->]|Hold].
    + unfold vacated. rewrite decide_False by done.
      by rewrite lookup_delete_eq.
    + assert (vacated !! k = index st !! k) as ->.
      { unfold vacated. case_decide; [done|]. apply lookup_delete_ne. naive_solver. }
      destruct (index st !! k) as [j|] eqn:Hj; simpl; [|done].
      rewrite list_lookup_insert_ne; [done|]. intros <-.
      destruct (ok_index _ Hok _ _ Hj) as (u & Hu & Hk & Hn). simplify_eq. by apply Hold.
Qed.

Lemma moved_count_ok p before after :
  before = count p (slots st) -> moved_count p before after -> after = count p (slots st').
Proof.
  intros -> ->. rewrite (mv_slots Hmv), (count_insert _ _ _ _ _ Hs). apply u32_small.
  rewrite <- (count_insert _ _ _ _ t Hs). pose proof (count_range p (<[i:=t]> (slots st))) as Hc.
  rewrite length_insert in Hc. pose proof (ok_size _ Hok). lia.
Qed.

Lemma slot_move_lookup j u : slots st' !! j = Some u -> (j = i /\ u = t) \/ (j <> i /\ slots st !! j = Some u).
Proof. rewrite (mv_slots Hmv). by apply lookup_insert_slot with s. Qed.

Lemma slot_move_new : slots st' !! i = Some t.
Proof. rewrite (mv_slots Hmv). by eapply lookup_insert_slot_eq. Qed.

Lemma slot_move_old j u : j <> i -> slots st !! j = Some u -> slots st' !! j = Some u.
Proof. intros. rewrite (mv_slots Hmv). by rewrite list_lookup_insert_ne. Qed.

Lemma slot_move_index : forall k j, index st' !! k = Some j ->
  exists u, slots st' !! j = Some u /\ s_key u = k /\ s_state u <> Free.
Proof.
  intros k j Hj. destruct (moved_index _ _ Hj) as [(-> & -> & Hn)|[Hv Hne]].
  - exists t. by rewrite slot_move_new.
  - apply vacated_Some in Hv as (_ & Hv & _). destruct (ok_index _ Hok _ _ Hv) as (u & Hu & ?).
    exists u. by rewrite (slot_move_old _ _ Hne Hu).
Qed.

Lemma slot_move_held j u : slots st' !! j = Some u -> s_state u <> Free -> index st' !! s_key u = Some j.
Proof.
  intros Hj Hn. rewrite (mv_index Hmv). apply slot_move_lookup in Hj as [[-> ->]|[Hne Hj]].
  - rewrite decide_False by done. by rewrite lookup_insert_eq.
  - pose proof (ok_held _ Hok _ _ Hj Hn) as Hk.
    assert (Hv : vacated !! s_key u = Some j).
    { unfold vacated. case_decide as Hf; [done|]. rewrite lookup_delete_ne; [done|].
      intros Heq. pose proof (ok_held _ Hok _ _ Hs Hf). congruence. }
    case_decide as Hf; [done|]. rewrite lookup_insert_ne; [done|].
    destruct (mv_key Hmv Hf) as [Hnew _]. congruence.
Qed.

Lemma slot_move_free j : j ∈ free_list st' <-> exists u, slots st' !! j = Some u /\ s_state u = Free.
Proof.
  rewrite (mv_free Hmv). case_decide as Hj; [subst|rewrite (ok_free_list _ Hok)].
  - rewrite slot_move_new. naive_solver.
  - split; intros (u & Hu & Hf); exists u; (split; [|done]).
    + by apply slot_move_old.
    + by apply slot_move_lookup in Hu as [[? _]|[_ ?]].
Qed.

Lemma slot_move_ok : store_core st'.
Proof.
  destruct (mv_dims Hmv) as [Hd1 Hd2].
  assert (Hkr : forall k, key_in_range st' k = key_in_range st k)
    by (intros; unfold key_in_range; by rewrite Hd1, Hd2).
  split.
  - rewrite Hd1, Hd2. apply Hok.
  - rewrite (mv_slots Hmv), length_insert. apply Hok.
  - intros j u Hj. apply slot_move_lookup in Hj as [[-> ->]|[_ Hj]]; [|by apply (ok_id _ Hok)].
    rewrite (mv_slot Hmv). by apply (ok_id _ Hok).
  - apply slot_move_index.
  - apply slot_move_held.
  - intros k j Hj. rewrite Hkr. destruct (moved_index _ _ Hj) as [(-> & -> & Hn)|[Hv Hne]].
    + by destruct (mv_key Hmv Hn) as (_ & ? & ?).
    + apply vacated_Some in Hv as (_ & Hv & _). by apply (ok_keys _ Hok _ _ Hv).
  - apply (mv_nodup Hmv).
  - apply slot_move_free.
  - rewrite (mv_table_length Hmv), Hd1, Hd2. apply Hok.
  - intros k p Hk. rewrite Hkr. intros Hin Hp. rewrite moved_expected.
    unfold table_index. rewrite Hd2. by apply (mv_table Hmv).
  - eapply moved_count_ok; [apply Hok|apply Hmv].
  - eapply moved_count_ok; [apply Hok|apply Hmv].
  - eapply moved_count_ok; [apply Hok|apply Hmv].
  - eapply moved_count_ok; [apply Hok|apply Hmv].
  - apply (mv_frozen Hmv).
Qed.

Lemma slot_move_runs :
  (forall j u, j <> i -> slots st !! j = Some u -> s_state u = Filling -> run_progress u) ->
  (s_state t = Filling -> run_progress t) ->
  forall j u, slots st' !! j = Some u -> s_state u = Filling -> run_progress u.
Proof. intros Hr Ht j u Hj Hf. apply slot_move_lookup in Hj as [[-> ->]|[? ?]]; eauto. Qed.
End SlotMove.

(** *** Bookkeeping operations *)

Definition keeps_counts (f : ExpertStoreStats -> ExpertStoreStats) : Prop := forall c,
  st_resident (f c) = st_resident c /\ st_filling (f c) = st_filling c /\
  st_free (f c) = st_free c /\ st_pinned (f c) = st_pinned c.

Lemma Forall2_same_core_refl r ss : Forall2 (same_core r) ss ss.
Proof. induction ss; constructor; auto with store. Qed.
#[export] Hint Resolve Forall2_same_core_refl Forall2_same_core_alter : store.

Lemma upd_stats_frame r f st : keeps_counts f -> same_frame r st (upd_stats f st).
Proof. intros Hf. destruct (Hf (stats st)) as (?&?&?&?). split; cbn; auto with store. Qed.

Lemma upd_slot_frame r i f st :
  (forall s, slots st !! i = Some s -> same_core r s (f s)) -> same_frame r st (upd_slot i f st).
Proof. intros Hf. split; cbn; auto with store. Qed.

Lemma map_slots_frame r f st :
  (forall s, same_core r s (f s)) -> same_frame r st (st <| slots ::= fmap f |>).
Proof.
  intros Hf. split; cbn; auto with store. induction (slots st); simpl; constructor; auto.
Qed.

Lemma upd_stats_ok f st : keeps_counts f -> store_ok st -> store_ok (upd_stats f st).
Proof. intros Hf Hok. eapply store_ok_frame; [done|]. by apply upd_stats_frame. Qed.

Lemma upd_slot_ok i f st :
  (forall s, slots st !! i = Some s -> same_core true s (f s)) -> store_ok st -> store_ok (upd_slot i f st).
Proof. intros Hf Hok. eapply store_ok_frame; [done|]. by apply upd_slot_frame. Qed.

Lemma store_core_upd_stats f st : keeps_counts f -> store_core st -> store_core (upd_stats f st).
Proof. intros Hf Hok. eapply (store_core_frame true); [done|]. by apply upd_stats_frame. Qed.

(** Discharges [keeps_counts] and [same_core] of a concrete update. *)
Ltac frame :=
  intros; repeat case_match; cbn;
  lazymatch goal with
  | |- same_core _ _ _ => split; cbn; intros; try done
  | _ => repeat split
  end.

Lemma lookup_ok k token guard st : store_ok st -> store_ok (lookup k token guard st).2.
Proof.
  intros Hok. unfold lookup. destruct (find_resident _ _) as [[i s]|]; cbn [snd].
  - apply upd_stats_ok; [frame|]. apply upd_slot_ok; [frame|]. apply upd_stats_ok; [frame|done].
  - do 2 (apply upd_stats_ok; [frame|]). done.
Qed.

Lemma touch_ok k stamp f st : store_ok st -> store_ok (touch k stamp f st).2.
Proof.
  intros Hok. unfold touch. destruct (find_slot st k) as [[i s]|]; [|done].
  repeat case_match; cbn [snd]; try done. apply upd_slot_ok; [frame|done].
Qed.

Lemma note_heat_ok k score alpha st : store_ok st -> store_ok (note_heat k score alpha st).
Proof.
  intros Hok. unfold note_heat. repeat case_match; try done. apply upd_slot_ok; [frame|done].
Qed.

Lemma decay_heat_ok factor st : store_ok st -> store_ok (decay_heat factor st).
Proof.
  intros Hok. unfold decay_heat. repeat case_match; try done.
  eapply store_ok_frame; [done|]. apply map_slots_frame. frame.
Qed.

Lemma set_completed_ok v st : store_ok st -> store_ok (set_completed_timeline v st).
Proof. intros Hok. eapply store_ok_frame; [done|]. split; cbn; auto with store. Qed.

Lemma set_guard_ok i v st : store_ok st -> store_ok (set_guard i v st).2.
Proof.
  intros Hok. unfold set_guard. case_match; [|done]. cbn [snd]. apply upd_slot_ok; [frame|done].
Qed.

Lemma guarded_snapshot_ok guard st : store_ok st -> store_ok (guarded_snapshot guard st).2.
Proof.
  intros Hok. unfold guarded_snapshot. case_match; [done|].
  eapply store_ok_frame; [done|]. apply map_slots_frame. intros s. case_decide; frame.
Qed.

Lemma NoDup_split_cons {A} (l1 l2 : list A) x : NoDup (l1 ++ x :: l2) -> x ∉ l1 ++ l2 /\ NoDup (l1 ++ l2).
Proof. rewrite <- Permutation_middle. apply NoDup_cons. Qed.

(** [l] lists the free slots of [ss], whose first slot has number [o]. *)
Definition lists_free (l : list nat) (o : nat) (ss : list ExpertSlot) : Prop :=
  forall i, i ∈ l <-> exists s, (o <= i)%nat /\ ss !! (i - o)%nat = Some s /\ s_state s = Free.

Lemma lists_free_cons l o s ss i : lists_free l o (s :: ss) -> i <> o ->
  i ∈ l <-> exists u, (S o <= i)%nat /\ ss !! (i - S o)%nat = Some u /\ s_state u = Free.
Proof.
  intros Hl Hne. rewrite (Hl i). split; intros (u & Ho & Hu & Hf); exists u.
  - replace (i - o)%nat with (S (i - S o)) in Hu by lia. split; [lia|done].
  - replace (i - o)%nat with (S (i - S o)) by lia. split; [lia|done].
Qed.

Lemma lists_free_length ss l o :
  NoDup l -> lists_free l o ss -> Z.of_nat (length l) = count (in_state Free) ss.
Proof.
  revert l o. induction ss as [|s ss IH]; intros l o Hnd Hl; simpl.
  - destruct l as [|i l]; [done|]. destruct (proj1 (Hl i)) as (s & _ & Hi & _); [left|done].
  - unfold in_state at 1. destruct (decide (s_state s = Free)) as [Hf|Hf].
    + assert (Hin : o ∈ l) by (apply Hl; exists s; rewrite Nat.sub_diag; auto).
      apply list_elem_of_split in Hin as (l1 & l2 & ->).
      destruct (NoDup_split_cons _ _ _ Hnd) as [Hn Hnd'].
      rewrite <- (IH (l1 ++ l2) (S o) Hnd'), !length_app; simpl.
      * rewrite bool_decide_true by done. simpl. lia.
      * intros i. destruct (decide (i = o)) as [->|Hne].
        -- split; [done|]. intros (u & ? & _). lia.
        -- rewrite <- (lists_free_cons _ _ _ _ _ Hl Hne).
           rewrite !elem_of_app, elem_of_cons. tauto.
    + rewrite bool_decide_false by done. rewrite <- (IH l (S o) Hnd); [done|].
      intros i. destruct (decide (i = o)) as [->|Hne].
      * rewrite (Hl o), Nat.sub_diag. split; intros (u & ? & ? & ?); [naive_solver|lia].
      * by apply lists_free_cons with s.
Qed.

Lemma free_list_length st : store_core st ->
  Z.of_nat (length (free_list st)) = count (in_state Free) (slots st).
Proof.
  intros Hok. apply (lists_free_length _ _ 0%nat); [apply Hok|].
  intros i. rewrite (ok_free_list _ Hok), Nat.sub_0_r.
  split; intros (s & ?); exists s; [split; [lia|done]|tauto].
Qed.

Lemma reset_stats_ok st : store_ok st -> store_ok (reset_stats st).
Proof.
  intros Hok. eapply store_ok_frame; [done|]. split; cbn; auto with store.
  unfold free_slots. rewrite (free_list_length st Hok), (ok_free _ Hok). apply u32_small.
  pose proof (count_range (in_state Free) (slots st)). pose proof (ok_size _ Hok). lia.
Qed.

(** *** Filling *)

Definition reserved_slot (k : ExpertKey) (t : Tier) (s : ExpertSlot) : ExpertSlot :=
  s <| s_key := k |> <| s_state := Filling |> <| s_last_use_token := 0 |> <| s_tier := t |>
    <| s_guard_timeline := 0 |> <| s_runs_done := 0 |> <| s_run_failed := false |>.

Lemma moved_count_same p x s t : p s = p t -> 0 <= x < 2 ^ 32 -> moved_count s t p x x.
Proof. intros Hp Hx. unfold moved_count. rewrite Hp. rewrite u32_small by lia. lia. Qed.

Lemma stat_range st p x : store_core st -> x = count p (slots st) -> 0 <= x < 2 ^ 32.
Proof. intros Hok ->. pose proof (count_range p (slots st)). pose proof (ok_size _ Hok). lia. Qed.

(** [u32] after [u32] collapses: two counter updates in a row count as one. *)
Lemma u32_add_l x y : u32 (u32 x + y) = u32 (x + y).
Proof. unfold u32. by rewrite Zplus_mod_idemp_l. Qed.
Lemma u32_sub_l x y : u32 (u32 x - y) = u32 (x - y).
Proof. unfold u32. by rewrite Zminus_mod_idemp_l. Qed.

(** Discharges a [moved_count] goal about concrete slots. *)
Ltac eval_states :=
  repeat match goal with
  | |- context [@bool_decide (?a = ?b :> SlotState) ?d] =>
      let v := eval vm_compute in (@bool_decide (a = b) d) in
      change (@bool_decide (a = b) d) with v
  end.
Ltac solve_count :=
  unfold moved_count, pinned_resident, in_state, inc32, dec32; cbn;
  repeat match goal with H : s_state ?s = _ |- _ => rewrite H end;
  eval_states; cbn; rewrite ?u32_add_l, ?u32_sub_l;
  first [f_equal; lia | rewrite u32_small by lia; lia].

Lemma reserve_move k t st i a st' :
  store_core st -> key_ok k -> reserve_locked k t st = Ret (i, a, st') ->
  exists s, slots st !! i = Some s /\ s_state s = Free /\ cache_frozen st = false /\
    key_in_range st k = true /\ index st !! k = None /\
    a = mkSlotAddress (s_host_ptr s) (s_dev_addr s) /\
    slot_move st st' i s (reserved_slot k t s).
Proof.
  intros Hok Hk. unfold reserve_locked.
  destruct (cache_frozen st) eqn:Hfz; [done|].
  destruct (key_in_range st k) eqn:Hin; [|done].
  destruct (index st !! k) as [?|] eqn:Hix; [done|]. rewrite bool_decide_false by (by intros []).
  destruct (free_list st) as [|j rest] eqn:Hfl; [done|]. cbn [negb]. intros Heq. simplify_eq.
  destruct (proj1 (ok_free_list _ Hok i)) as (s & Hs & Hf); [rewrite Hfl; left|].
  pose proof (ok_free_nodup _ Hok) as Hnd. rewrite Hfl in Hnd.
  apply NoDup_cons in Hnd as [Hni Hnd].
  exists s. rewrite Hs. repeat split_and; try done.
  pose proof (stat_range _ _ _ Hok (ok_resident _ Hok)).
  pose proof (stat_range _ _ _ Hok (ok_pinned _ Hok)).
  split; try done.
  - cbn. by rewrite (alter_insert_slot _ _ _ s).
  - rewrite decide_False by done. unfold vacated. by rewrite decide_True.
  - intros _. unfold vacated. by rewrite decide_True.
  - intros j. case_decide; cbn; [subst; naive_solver|]. rewrite Hfl, elem_of_cons. tauto.
  - intros k' p Hk' Hin' Hp. cbn. rewrite (ok_table _ Hok) by done.
    unfold moved_entry, slot_entry. cbn. f_equal. case_decide as Hd.
    + destruct Hd as [_ ->]. unfold expected_entry, find_resident, find_slot. by rewrite Hix.
    + rewrite decide_False; [done|]. naive_solver.
  - solve_count.
  - solve_count.
  - solve_count.
  - solve_count.
  - cbn. by rewrite Hfz.
Qed.

Lemma fill_started_ok st st1 i s k t f :
  store_ok st -> slots st !! i = Some s -> s_state s = Free ->
  slot_move st st1 i s (reserved_slot k t s) ->
  (forall u, same_core false u (f u) \/ s_state u <> Filling) ->
  run_progress (f (reserved_slot k t s)) -> store_ok (upd_slot i f st1).
Proof.
  intros Hok Hs Hf Hmv Hc Hr. pose proof (slot_move_ok _ _ _ _ _ Hok Hs Hmv) as Hok1.
  pose proof (slot_move_new _ _ _ _ _ Hs Hmv) as Hn. split.
  - eapply (store_core_frame false); [done|]. apply upd_slot_frame. intros u Hu.
    rewrite Hn in Hu. simplify_eq. by destruct (Hc (reserved_slot k t s)).
  - intros j u. unfold upd_slot. cbn. rewrite (alter_insert_slot _ _ _ _ Hn). intros Hj Huf.
    destruct (lookup_insert_slot _ _ _ _ _ _ Hn Hj) as [[-> ->]|[Hne Hu]]; [done|].
    destruct (slot_move_lookup _ _ _ _ _ Hs Hmv _ _ Hu) as [[? _]|[_ Hu']]; [done|].
    by apply (ok_runs _ Hok j).
Qed.

Lemma begin_fill_inv k e t st r st' : begin_fill k e t st = Ret (r, st') ->
  exists i a st1, reserve_locked k t st = Ret (i, a, st1) /\
    (1 <= length (ee_runs e) <= kMaxExpertRuns)%nat /\ ee_slot_bytes e <= store_slot_bytes st /\
    r = mkReservation i a (fill_run a <$> ee_runs e) /\
    st' = upd_stats (fun c => c <| st_runs_started ::= fun x => u64 (x + Z.of_nat (length (ee_runs e))) |>)
      (upd_slot i (fun s => s <| s_runs_total := Z.of_nat (length (ee_runs e)) |>
         <| s_part_offset := ee_part_offset e |> <| s_part_bytes := ee_part_bytes e |>) st1).
Proof.
  unfold begin_fill.
  destruct (bool_decide _) eqn:H1; [done|]. destruct (Nat.ltb _ _) eqn:H2; [done|].
  destruct (_ <? _) eqn:H3; [done|]. cbn [fail_if mbind Result_bind].
  destruct (reserve_locked k t st) as [[[i a] st1]|]; [|done]. cbn. intros Heq.
  injection Heq as <- <-. exists i, a, st1. apply bool_decide_eq_false in H1.
  apply Nat.ltb_ge in H2. apply Z.ltb_ge in H3. repeat split; try lia.
  destruct (ee_runs e); [done|]. simpl. lia.
Qed.

Lemma begin_fill_planar_inv k t st r st' : begin_fill_planar k t st = Ret (r, st') ->
  exists i a st1, reserve_locked k t st = Ret (i, a, st1) /\
    r = mkReservation i a [mkFillRun 0 0 (store_slot_bytes st') (host_addr a) (device_addr a)] /\
    st' = upd_stats (fun c => c <| st_runs_started ::= inc64 |>)
      (upd_slot i (fun s => s <| s_runs_total := 1 |>
         <| s_part_offset := planar_offset |> <| s_part_bytes := planar_bytes |>) st1).
Proof.
  unfold begin_fill_planar.
  destruct (reserve_locked k t st) as [[[i a] st1]|]; [|done]. cbn [mbind Result_bind].
  intros Heq. injection Heq as <- <-. by exists i, a, st1.
Qed.

Lemma filling_core u v : s_state v = s_state u -> s_key v = s_key u -> s_tier v = s_tier u ->
  s_slot v = s_slot u -> s_host_ptr v = s_host_ptr u -> s_dev_addr v = s_dev_addr u ->
  same_core false u v \/ s_state u <> Filling.
Proof.
  intros H1 **. destruct (decide (s_state u = Filling)) as [Hu|]; [left|by right].
  split; try done. by rewrite H1, Hu.
Qed.

Lemma begin_fill_ok k e t st : key_ok k -> store_ok st ->
  store_ok (keep_on_fail (begin_fill k e t st) st).
Proof.
  intros Hk Hok. destruct (begin_fill k e t st) as [[r st']|] eqn:E; cbn; [|done].
  apply begin_fill_inv in E as (i & a & st1 & Hr & Hn & _ & _ & ->).
  destruct (reserve_move _ _ _ _ _ _ Hok Hk Hr) as (s & Hs & Hf & _ & _ & _ & _ & Hmv).
  apply upd_stats_ok; [frame|]. eapply (fill_started_ok st); try done.
  - intros u. by apply filling_core.
  - unfold run_progress. cbn. lia.
Qed.

Lemma begin_fill_planar_ok k t st : key_ok k -> store_ok st ->
  store_ok (keep_on_fail (begin_fill_planar k t st) st).
Proof.
  intros Hk Hok. destruct (begin_fill_planar k t st) as [[r st']|] eqn:E; cbn; [|done].
  apply begin_fill_planar_inv in E as (i & a & st1 & Hr & _ & ->).
  destruct (reserve_move _ _ _ _ _ _ Hok Hk Hr) as (s & Hs & Hf & _ & _ & _ & _ & Hmv).
  apply upd_stats_ok; [frame|]. eapply (fill_started_ok st); try done.
  intros u. by apply filling_core.
Qed.

(** *** Settling and releasing *)

Lemma table_write st k0 f k p :
  store_core st -> key_ok k0 -> key_in_range st k0 = true -> key_ok k -> key_in_range st k = true ->
  (p < kExpertPartCount)%nat ->
  write_row (table_index st k0) f (table st) !! (table_index st k + p)%nat
  = Some (if decide (k = k0) then f p else expected_entry st k p).
Proof.
  intros Hok H0 H0' Hk Hk' Hp. case_decide as E; [subst|].
  - apply write_row_in; [done|]. by apply row_bound.
  - rewrite write_row_out; [by apply (ok_table _ Hok)|].
    destruct (rows_disjoint st k k0); [done..|lia|lia].
Qed.

Lemma held_key st i s : store_core st -> slots st !! i = Some s -> s_state s <> Free ->
  index st !! s_key s = Some i /\ key_ok (s_key s) /\ key_in_range st (s_key s) = true.
Proof.
  intros Hok Hs Hn. pose proof (ok_held _ Hok _ _ Hs Hn) as Hx. split; [done|].
  by apply (ok_keys _ Hok) with i.
Qed.

Lemma vacated_key st s : store_core st -> s_state s <> Free -> vacated st s !! s_key s = None.
Proof. intros Hok Hn. unfold vacated. rewrite decide_False by done. apply lookup_delete_eq. Qed.

Lemma revacated st i s : store_core st -> slots st !! i = Some s -> s_state s <> Free ->
  <[s_key s := i]> (vacated st s) = index st.
Proof.
  intros Hok Hs Hn. unfold vacated. rewrite decide_False by done.
  rewrite insert_delete_id; [done|]. by apply (ok_held _ Hok).
Qed.

Lemma not_free_list st i s : store_core st -> slots st !! i = Some s -> s_state s <> Free -> i ∉ free_list st.
Proof. intros Hok Hs Hn Hi. apply (ok_free_list _ Hok) in Hi as (u & Hu & Hf). congruence. Qed.

Definition released_slot (s : ExpertSlot) : ExpertSlot :=
  s <| s_key := mkKey 0 0 |> <| s_state := Free |> <| s_heat := f32_zero |>
    <| s_guard_timeline := 0 |> <| s_runs_total := 0 |> <| s_runs_done := 0 |>
    <| s_run_failed := false |> <| s_part_offset := zero_parts |> <| s_part_bytes := zero_parts |>.

Lemma release_failed_move i s token st :
  store_core st -> slots st !! i = Some s -> s_state s = Filling ->
  slot_move st (settle_locked i false token st) i s (released_slot s).
Proof.
  intros Hok Hs Hf. assert (Hn : s_state s <> Free) by (by rewrite Hf).
  destruct (held_key _ _ _ Hok Hs Hn) as (Hx & Hk & Hin).
  pose proof (not_free_list _ _ _ Hok Hs Hn).
  pose proof (stat_range _ _ _ Hok (ok_resident _ Hok)).
  pose proof (stat_range _ _ _ Hok (ok_pinned _ Hok)).
  unfold settle_locked, release_locked. cbn. rewrite Hs. split; try done.
  - cbn. by apply alter_insert_slot.
  - unfold vacated. by rewrite decide_True, decide_False.
  - cbn. constructor; [done|apply Hok].
  - intros j. cbn. rewrite elem_of_cons. case_decide; [subst; naive_solver|naive_solver].
  - intros k p Hk' Hin' Hp. cbn. rewrite (ok_table _ Hok) by done. f_equal.
    unfold moved_entry. rewrite decide_False by (by intros [[] _]). case_decide as E; [|done].
    destruct E as [_ ->]. rewrite (expected_entry_alt _ _ _ _ _ Hok Hx Hs).
    unfold slot_entry. by rewrite Hf.
  - solve_count.
  - solve_count.
  - solve_count.
  - solve_count.
  - cbn. intros Hz. destruct (ok_frozen _ Hok Hz) as [_ Hall]. rewrite (Hall _ _ Hs) in Hf. done.
Qed.

Lemma drop_resident_move i s st :
  store_core st -> slots st !! i = Some s -> s_state s = Resident -> s_tier s <> Pinned ->
  fixed_cache st = false -> slot_move st (drop_resident i st) i s (released_slot s).
Proof.
  intros Hok Hs Hf Ht Hfix. assert (Hn : s_state s <> Free) by (by rewrite Hf).
  destruct (held_key _ _ _ Hok Hs Hn) as (Hx & Hk & Hin).
  pose proof (not_free_list _ _ _ Hok Hs Hn).
  pose proof (stat_range _ _ _ Hok (ok_filling _ Hok)).
  pose proof (stat_range _ _ _ Hok (ok_pinned _ Hok)).
  unfold drop_resident, unpublish_locked, release_locked. rewrite Hs. cbn. rewrite Hs.
  split; try done.
  - cbn. by apply alter_insert_slot.
  - unfold vacated. by rewrite decide_True, decide_False.
  - cbn. constructor; [done|apply Hok].
  - intros j. cbn. rewrite elem_of_cons. case_decide; [subst; naive_solver|naive_solver].
  - cbn. apply write_row_length.
  - intros k p Hk' Hin' Hp. cbn. rewrite table_write by done. f_equal.
    unfold moved_entry. destruct (decide (_ /\ _)) as [[[] _]|_]; [done|].
    destruct (decide (k = s_key s)); [rewrite decide_True by done|rewrite decide_False by naive_solver]; done.
  - solve_count.
  - solve_count.
  - solve_count.
  - apply (bool_decide_eq_false_2 (s_tier s = Pinned)) in Ht. unfold moved_count, pinned_resident, in_state. cbn.
    rewrite Hf, Ht. eval_states. cbn. rewrite u32_small by lia. lia.
  - cbn. intros Hz. destruct (ok_frozen _ Hok Hz) as [? _]. congruence.
Qed.

Definition settled_slot (token : Z) (s : ExpertSlot) : ExpertSlot :=
  s <| s_state := Resident |> <| s_last_use_token ::= fun t => Z.max t token |>.

(** The state [settle_locked] reaches on success, written once instead of step by step. *)
Record settled_as (i : nat) (st st' : ExpertStore) (s t : ExpertSlot) : Prop := {
  sa_slots : slots st' = <[i := t]> (slots st);
  sa_dims : layers st' = layers st /\ experts_per_layer st' = experts_per_layer st;
  sa_index : index st' = index st; sa_free : free_list st' = free_list st;
  sa_table : table st' = write_row (table_index st (s_key s)) (part_address t) (table st);
  sa_resident : st_resident (stats st') = inc32 (st_resident (stats st));
  sa_filling : st_filling (stats st') = dec32 (st_filling (stats st));
  sa_stfree : st_free (stats st') = st_free (stats st);
  sa_pinned : st_pinned (stats st') = if decide (s_tier s = Pinned) then inc32 (st_pinned (stats st))
                                      else st_pinned (stats st);
  sa_frozen : cache_frozen st' = true -> cache_frozen st = true \/
    (fixed_cache st' = true /\ inc32 (st_resident (stats st)) = Z.of_nat (length (slots st))) }.

Lemma settle_ok_as i s token st : slots st !! i = Some s ->
  settled_as i st (settle_locked i true token st) s (settled_slot token s).
Proof.
  intros Hs. unfold settle_locked, publish_locked. cbn.
  rewrite (alter_insert_slot _ _ _ _ Hs), (lookup_insert_slot_eq _ _ _ _ Hs). cbn.
  rewrite length_alter.
  destruct (fixed_cache st && _) eqn:E; cbn;
    rewrite (alter_insert_slot _ _ _ _ Hs), (lookup_insert_slot_eq _ _ _ _ Hs); cbn;
    destruct (decide (s_tier s = Pinned)) eqn:Ht; split; cbn; repeat case_match; try done;
    try (by apply alter_insert_slot); try (intros Hz; by left).
  all: intros _; right; apply andb_true_iff in E as [Hfx E]; apply Z.eqb_eq in E; done.
Qed.

Lemma count_settled i s token ss : ss !! i = Some s -> s_state s = Filling ->
  count (in_state Resident) (<[i := settled_slot token s]> ss) = count (in_state Resident) ss + 1.
Proof.
  intros Hs Hf. rewrite (count_insert _ _ _ _ _ Hs). unfold in_state at 2 3. rewrite Hf.
  eval_states. cbn. lia.
Qed.

Lemma settle_ok_move i s token st :
  store_core st -> slots st !! i = Some s -> s_state s = Filling ->
  slot_move st (settle_locked i true token st) i s (settled_slot token s).
Proof.
  intros Hok Hs Hf. assert (Hn : s_state s <> Free) by (by rewrite Hf).
  pose proof (settle_ok_as i s token st Hs) as Ha. revert Ha.
  generalize (settle_locked i true token st). intros st' Ha.
  destruct (held_key _ _ _ Hok Hs Hn) as (Hx & Hk & Hin).
  pose proof (stat_range _ _ _ Hok (ok_free _ Hok)).
  pose proof (stat_range _ _ _ Hok (ok_pinned _ Hok)).
  split; try apply Ha; try done.
  - rewrite decide_False by done. rewrite (sa_index _ _ _ _ _ Ha). symmetry. exact (revacated _ _ _ Hok Hs Hn).
  - intros _. split; [exact (vacated_key _ _ Hok Hn)|done].
  - rewrite (sa_free _ _ _ _ _ Ha). apply Hok.
  - intros j. rewrite (sa_free _ _ _ _ _ Ha). case_decide; [subst|done].
    split; [|done]. intros Hj. by destruct (not_free_list _ _ _ Hok Hs Hn).
  - rewrite (sa_table _ _ _ _ _ Ha). apply write_row_length.
  - intros k p Hk' Hin' Hp. rewrite (sa_table _ _ _ _ _ Ha), table_write by done. f_equal.
    unfold moved_entry. destruct (decide (_ /\ _)) as [[_ E]|E].
    + by rewrite decide_True.
    + rewrite (decide_False (P := k = s_key s)) by naive_solver.
      rewrite decide_False by naive_solver. done.
  - rewrite (sa_resident _ _ _ _ _ Ha). solve_count.
  - rewrite (sa_filling _ _ _ _ _ Ha). solve_count.
  - rewrite (sa_stfree _ _ _ _ _ Ha). solve_count.
  - rewrite (sa_pinned _ _ _ _ _ Ha). unfold moved_count, pinned_resident, in_state, inc32. cbn.
    rewrite Hf. eval_states. destruct (decide (s_tier s = Pinned)); cbn.
    + rewrite bool_decide_true by done. cbn. f_equal. lia.
    + rewrite bool_decide_false by done. cbn. rewrite u32_small by lia. lia.
  - intros Hz. destruct (sa_frozen _ _ _ _ _ Ha Hz) as [Hold|[Hfx Hall]].
    + destruct (ok_frozen _ Hok Hold) as [_ Hall]. rewrite (Hall _ _ Hs) in Hf. done.
    + split; [done|]. intros j u Hj.
      assert (Hc : count (in_state Resident) (slots st') = Z.of_nat (length (slots st'))).
      { rewrite (sa_slots _ _ _ _ _ Ha), length_insert, <- Hall, (ok_resident _ Hok).
        pose proof (count_settled i s token (slots st) Hs Hf) as Hc. unfold inc32. rewrite u32_small; [exact Hc|].
        pose proof (count_range (in_state Resident) (<[i:=settled_slot token s]> (slots st))) as Hr.
        rewrite length_insert in Hr. pose proof (count_range (in_state Resident) (slots st)).
        pose proof (ok_size _ Hok). lia. }
      apply count_all in Hc. rewrite Forall_lookup in Hc. specialize (Hc _ _ Hj).
      by apply bool_decide_eq_true in Hc.
Qed.

Lemma settle_ok i s ok token st :
  store_core st -> slots st !! i = Some s -> s_state s = Filling ->
  (forall j u, j <> i -> slots st !! j = Some u -> s_state u = Filling -> run_progress u) ->
  store_ok (settle_locked i ok token st).
Proof.
  intros Hok Hs Hf Hr. destruct ok.
  - pose proof (settle_ok_move i s token st Hok Hs Hf) as Hmv. split; [by eapply slot_move_ok|].
    by apply (slot_move_runs _ _ _ _ _ Hs Hmv).
  - pose proof (release_failed_move i s token st Hok Hs Hf) as Hmv. split; [by eapply slot_move_ok|].
    by apply (slot_move_runs _ _ _ _ _ Hs Hmv).
Qed.

Lemma upd_slot_lookup i f st s j u : slots st !! i = Some s -> slots (upd_slot i f st) !! j = Some u ->
  (j = i /\ u = f s) \/ (j <> i /\ slots st !! j = Some u).
Proof. intros Hs. unfold upd_slot. cbn. rewrite (alter_insert_slot _ _ _ _ Hs). by apply lookup_insert_slot with s. Qed.

Lemma upd_slot_lookup_eq i f st s : slots st !! i = Some s -> slots (upd_slot i f st) !! i = Some (f s).
Proof. intros Hs. unfold upd_slot. cbn. rewrite (alter_insert_slot _ _ _ _ Hs). by eapply lookup_insert_slot_eq. Qed.

Lemma upd_slot_stats i f g st : upd_slot i f (upd_stats g st) = upd_stats g (upd_slot i f st).
Proof. reflexivity. Qed.

(** Closing the run counters of slot [i] and settling it. *)
Lemma close_and_settle_ok i s f g ok token st :
  store_ok st -> slots st !! i = Some s -> s_state s = Filling ->
  same_core false s (f s) -> keeps_counts g ->
  store_ok (settle_locked i ok token (upd_stats g (upd_slot i f st))).
Proof.
  intros Hok Hs Hf Hc Hg. apply (settle_ok i (f s)).
  - apply store_core_upd_stats; [done|]. eapply (store_core_frame false); [apply Hok|].
    apply upd_slot_frame. intros u Hu. by simplify_eq.
  - by apply upd_slot_lookup_eq.
  - by rewrite (core_state _ _ _ Hc).
  - intros j u Hne Hu. destruct (upd_slot_lookup _ _ _ _ _ _ Hs Hu) as [[? _]|[_ ?]]; [done|].
    by apply (ok_runs _ Hok j).
Qed.

Lemma finish_run_ok i ok token st : store_ok st -> store_ok (finish_run i ok token st).2.
Proof.
  intros Hok. unfold finish_run. destruct (slots st !! i) as [s|] eqn:Hs; [|done].
  destruct (bool_decide (s_state s = Filling)) eqn:Hf; [|done]. apply bool_decide_eq_true in Hf.
  cbn [negb]. destruct (s_runs_total s <=? s_runs_done s) eqn:Hd; [done|].
  destruct (ok_runs _ Hok _ _ Hs Hf) as [Hp Hmax].
  assert (Hinc : inc32 (s_runs_done s) = s_runs_done s + 1).
  { unfold inc32. unfold kMaxExpertRuns, kExpertParts in Hmax. rewrite u32_small; lia. }
  destruct (_ <? _) eqn:Hlt; cbn [snd].
  - apply upd_stats_ok; [frame|]. apply upd_slot_ok; [|done]. intros u Hu. simplify_eq.
    split; cbn; try done. intros _ _ _. cbn in Hlt. apply Z.ltb_lt in Hlt.
    unfold run_progress; cbn. rewrite Hinc in *. lia.
  - by eapply close_and_settle_ok.
Qed.

Lemma finish_fill_ok i ok token st : store_ok st -> store_ok (finish_fill i ok token st).2.
Proof.
  intros Hok. unfold finish_fill. destruct (slots st !! i) as [s|] eqn:Hs; [|done].
  destruct (bool_decide (s_state s = Filling)) eqn:Hf; [|done]. apply bool_decide_eq_true in Hf.
  cbn [negb snd]. rewrite upd_slot_stats. by eapply close_and_settle_ok.
Qed.

(** *** Eviction *)

(** [best] is the least recently used slot of [ss] satisfying [p], ties to the lowest index. *)
Definition lru_best (p : ExpertSlot -> bool) (ss : list ExpertSlot) (best : option (nat * Z)) : Prop :=
  match best with
  | None => forall j u, ss !! j = Some u -> p u = false
  | Some (i, v) => (exists s, ss !! i = Some s /\ p s = true /\ v = s_last_use_token s) /\
      forall j u, ss !! j = Some u -> p u = true ->
        v < s_last_use_token u \/ (v = s_last_use_token u /\ (i <= j)%nat)
  end.

Lemma lru_best_snoc p pre s best : lru_best p pre best ->
  lru_best p (pre ++ [s]) (if p s then lru_better best (length pre) s else best).
Proof.
  intros Hb. assert (Hl : forall j u, (pre ++ [s]) !! j = Some u ->
    pre !! j = Some u \/ (j = length pre /\ u = s)).
  { intros j u Hj. apply lookup_app_Some in Hj as [?|[Hge Hj]]; [by left|right].
    apply list_lookup_singleton_Some in Hj as [? ->]. split; [lia|done]. }
  assert (Hlast : (pre ++ [s]) !! length pre = Some s) by (by rewrite list_lookup_middle).
  unfold lru_better. destruct (p s) eqn:Hp; destruct best as [[i v]|]; simpl in *.
  - destruct Hb as [(t & Ht & Hpt & ->) Hmin]. pose proof (lookup_lt_Some _ _ _ Ht).
    destruct (Z.ltb_spec (s_last_use_token s) (s_last_use_token t)); split.
    + eauto.
    + intros j u Hj Hu. destruct (Hl _ _ Hj) as [Hj'|[-> ->]]; [|lia].
      destruct (Hmin _ _ Hj' Hu); lia.
    + exists t. rewrite lookup_app_l by done. done.
    + intros j u Hj Hu. destruct (Hl _ _ Hj) as [Hj'|[-> ->]]; [eauto|lia].
  - split; [eauto|]. intros j u Hj Hu. destruct (Hl _ _ Hj) as [Hj'|[-> ->]]; [|lia].
    rewrite (Hb _ _ Hj') in Hu. done.
  - destruct Hb as [(t & Ht & Hpt & ->) Hmin]. pose proof (lookup_lt_Some _ _ _ Ht). split.
    + exists t. rewrite lookup_app_l by done. done.
    + intros j u Hj Hu. destruct (Hl _ _ Hj) as [Hj'|[-> ->]]; [eauto|congruence].
  - intros j u Hj. destruct (Hl _ _ Hj) as [Hj'|[-> ->]]; eauto.
Qed.

Lemma lru_scan_spec p ss : forall pre best, lru_best p pre best ->
  lru_best p (pre ++ ss) (lru_scan p (length pre) ss best).
Proof.
  induction ss as [|s ss IH]; intros pre best Hb; simpl; [by rewrite app_nil_r|].
  rewrite cons_middle, app_assoc. replace (S (length pre)) with (length (pre ++ [s])).
  - by apply IH, lru_best_snoc.
  - rewrite length_app. simpl. lia.
Qed.

Lemma scan_spec st r :
  match scan st r with
  | None => forall j u, slots st !! j = Some u -> lru_candidate st r u = false
  | Some i => exists s, slots st !! i = Some s /\ lru_candidate st r s = true /\
      forall j u, slots st !! j = Some u -> lru_candidate st r u = true ->
        s_last_use_token s < s_last_use_token u \/
        (s_last_use_token s = s_last_use_token u /\ (i <= j)%nat)
  end.
Proof.
  unfold scan. pose proof (lru_scan_spec (lru_candidate st r) (slots st) [] None ltac:(done)) as H.
  simpl in H. destruct (lru_scan _ _ _ _) as [[i v]|]; simpl in *; [|exact H].
  destruct H as [(s & Hs & Hp & ->) Hmin]. eauto.
Qed.

Lemma lru_candidate_evictable st r s : lru_candidate st r s = true -> is_evictable st s = true.
Proof. unfold lru_candidate. intros [? _]%andb_true_iff. done. Qed.

Lemma is_evictable_spec st s : is_evictable st s = true <->
  s_state s = Resident /\ s_tier s <> Pinned /\ s_guard_timeline s <= completed_timeline st.
Proof.
  unfold is_evictable. rewrite !andb_true_iff, negb_true_iff, bool_decide_eq_true,
    bool_decide_eq_false, Z.leb_le. tauto.
Qed.

Lemma drop_resident_ok i s st : store_ok st -> slots st !! i = Some s -> s_state s = Resident ->
  s_tier s <> Pinned -> fixed_cache st = false -> store_ok (drop_resident i st).
Proof.
  intros Hok Hs Hf Ht Hfx. pose proof (drop_resident_move i s st Hok Hs Hf Ht Hfx) as Hmv.
  split; [exact (slot_move_ok _ _ _ _ _ Hok Hs Hmv)|].
  apply (slot_move_runs _ _ _ _ _ Hs Hmv); [|done]. intros j u _. apply (ok_runs _ Hok).
Qed.

(** What an eviction that succeeded did: it dropped one unguarded, unpinned resident. *)
Lemma evict_inv i st st' : evict i st = (Ret tt, st') ->
  exists s, slots st !! i = Some s /\ is_evictable st s = true /\ fixed_cache st = false /\
    st' = drop_resident i st.
Proof.
  unfold evict. destruct (fixed_cache st) eqn:Hfx; [done|].
  destruct (slots st !! i) as [s|] eqn:Hs; [|done].
  destruct (bool_decide (s_state s = Resident)) eqn:Hr; [|done].
  destruct (bool_decide (s_tier s = Pinned)) eqn:Ht; [done|]. cbn [negb].
  destruct (_ <? _) eqn:Hg; [done|]. intros Heq. injection Heq as <-. exists s.
  rewrite is_evictable_spec. apply bool_decide_eq_true in Hr.
  apply bool_decide_eq_false in Ht. apply Z.ltb_ge in Hg. done.
Qed.

Lemma evict_fail i st e st' : evict i st = (Fail e, st') ->
  exists f, keeps_counts f /\ st' = upd_stats f st.
Proof.
  intros E. assert (st = upd_stats id st) as Hid by (by destruct st).
  unfold evict in E. repeat case_match; simplify_eq; try (exists id; done).
  eexists. split; [|done]. frame.
Qed.

Lemma evict_ok i st : store_ok st -> store_ok (evict i st).2.
Proof.
  intros Hok. destruct (evict i st) as [[[]|e] st'] eqn:E; simpl.
  - apply evict_inv in E as (s & Hs & He & Hfx & ->). apply is_evictable_spec in He as (? & ? & ?).
    by apply (drop_resident_ok i s).
  - apply evict_fail in E as (f & Hf & ->). by apply upd_stats_ok.
Qed.

Lemma evict_lru_inv st i st' : evict_lru st = (Ret i, st') ->
  exists s, slots st !! i = Some s /\ is_evictable st s = true /\ fixed_cache st = false /\
    st' = drop_resident i st.
Proof.
  unfold evict_lru. destruct (fixed_cache st) eqn:Hfx; [done|].
  assert (Hsc : forall r j, scan st r = Some j ->
    exists s, slots st !! j = Some s /\ is_evictable st s = true).
  { intros r j Hj. pose proof (scan_spec st r) as H. rewrite Hj in H.
    destruct H as (s & Hs & Hc & _). apply lru_candidate_evictable in Hc. eauto. }
  intros E. repeat case_match; simplify_eq;
    match goal with H : scan st _ = Some _ |- _ => destruct (Hsc _ _ H) as (s & ? & ?) end;
    by exists s.
Qed.

Lemma evict_lru_ok st : store_ok st -> store_ok (evict_lru st).2.
Proof.
  intros Hok. destruct (evict_lru st) as [[i|e] st'] eqn:E; simpl.
  - apply evict_lru_inv in E as (s & Hs & He & Hfx & ->). apply is_evictable_spec in He as (? & ? & ?).
    by apply (drop_resident_ok i s).
  - unfold evict_lru in E. by repeat case_match; simplify_eq.
Qed.

(** *** Pinning, fixed mode *)

Lemma pin_move i s st : store_core st -> slots st !! i = Some s -> s_state s = Resident ->
  s_tier s <> Pinned ->
  slot_move st (upd_stats (fun c => c <| st_pinned ::= inc32 |>)
                  (upd_slot i (fun s => s <| s_tier := Pinned |>) st)) i s (s <| s_tier := Pinned |>).
Proof.
  intros Hok Hs Hf Ht. assert (Hn : s_state s <> Free) by (by rewrite Hf).
  destruct (held_key _ _ _ Hok Hs Hn) as (Hx & Hk & Hin).
  pose proof (stat_range _ _ _ Hok (ok_free _ Hok)).
  pose proof (stat_range _ _ _ Hok (ok_filling _ Hok)).
  pose proof (stat_range _ _ _ Hok (ok_resident _ Hok)).
  split; try done.
  - cbn. by apply alter_insert_slot.
  - rewrite decide_False by done. symmetry. exact (revacated _ _ _ Hok Hs Hn).
  - intros _. split; [exact (vacated_key _ _ Hok Hn)|done].
  - apply Hok.
  - intros j. cbn. case_decide; [subst|done]. split; [|done].
    intros Hj. by destruct (not_free_list _ _ _ Hok Hs Hn).
  - intros k p Hk' Hin' Hp. cbn. rewrite (ok_table _ Hok) by done. f_equal. unfold moved_entry.
    destruct (decide (_ /\ _)) as [[_ ->]|E].
    + by rewrite (expected_entry_alt _ _ _ _ _ Hok Hx Hs).
    + done.
  - solve_count.
  - solve_count.
  - solve_count.
  - apply (bool_decide_eq_false_2 (s_tier s = Pinned)) in Ht. unfold moved_count, pinned_resident, in_state.
    cbn. rewrite Hf, Ht, (bool_decide_true (Pinned = Pinned)) by done. eval_states. unfold inc32.
    f_equal. cbn. lia.
  - cbn. intros Hz. destruct (ok_frozen _ Hok Hz) as [? Hall]. split; [done|].
    intros j u Hj. rewrite (alter_insert_slot _ _ _ _ Hs) in Hj.
    destruct (lookup_insert_slot _ _ _ _ _ _ Hs Hj) as [[_ ->]|[_ ?]]; [done|eauto].
Qed.

Lemma pin_ok k st : store_ok st -> store_ok (pin k st).2.
Proof.
  intros Hok. unfold pin. destruct (find_slot st k) as [[i s]|] eqn:E; [|done].
  destruct (find_slot_Some _ _ _ _ Hok E) as (Hs & _ & _ & _).
  destruct (bool_decide (s_state s = Resident)) eqn:Hf; [|done]. apply bool_decide_eq_true in Hf.
  destruct (bool_decide (s_tier s = Pinned)) eqn:Ht; [done|]. apply bool_decide_eq_false in Ht.
  cbn [negb snd]. pose proof (pin_move i s st Hok Hs Hf Ht) as Hmv.
  split; [exact (slot_move_ok _ _ _ _ _ Hok Hs Hmv)|].
  apply (slot_move_runs _ _ _ _ _ Hs Hmv); [|cbn; congruence]. intros j u _. apply (ok_runs _ Hok).
Qed.

Lemma set_fixed_ok b st : store_ok st -> store_ok (set_fixed_cache b st).
Proof.
  intros [[] Hr]. split; [|done]. split; try done. cbn.
  intros [[-> Hne]%andb_true_iff Hall]%andb_true_iff. split; [done|].
  apply Z.eqb_eq in Hall. rewrite ok_resident0 in Hall. apply count_all in Hall.
  intros i s Hi. rewrite Forall_lookup in Hall. by apply Hall, bool_decide_eq_true in Hi.
Qed.

(** *** Every reachable state *)

(** Keys are pairs of [uint16_t]. *)
Definition op_typed (op : StoreOp) : Prop :=
  match op with
  | OpBeginFill k _ _ | OpBeginFillPlanar k _ => key_ok k
  | _ => True
  end.

Lemma store_step_ok op st : op_typed op -> store_ok st -> store_ok (store_step op st).
Proof.
  destruct op; cbn [op_typed store_step]; auto using lookup_ok, begin_fill_ok, begin_fill_planar_ok,
    finish_run_ok, finish_fill_ok, evict_ok, evict_lru_ok, set_completed_ok, set_guard_ok,
    guarded_snapshot_ok, set_fixed_ok, pin_ok, touch_ok, note_heat_ok, decay_heat_ok, reset_stats_ok.
Qed.

Lemma init_slots_spec {B} `{SlabBacking B} (p : SlabPool B) n ss :
  init_slots p n = Ret ss ->
  length ss = n /\ forall i s, ss !! i = Some s -> s_slot s = i /\ s_state s = Free.
Proof.
  revert ss. induction n as [|n IH]; intros ss E; simpl in E.
  - simplify_eq. split; [done|]. intros i s Hi. by destruct i.
  - destruct (init_slots p n) as [before|]; [|done]. cbn in E.
    destruct (address p _) as [a|]; [|done]. cbn in E. injection E as <-.
    destruct (IH _ eq_refl) as [Hl Hb]. split; [rewrite length_app; simpl; lia|].
    intros i s [Hi|[Hge Hi]]%lookup_app_Some; [by apply Hb|].
    apply list_lookup_singleton_Some in Hi as [Hi <-]. cbn. split; [lia|done].
Qed.

Lemma count_none p ss : (forall i s, ss !! i = Some s -> p s = false) -> count p ss = 0.
Proof.
  induction ss as [|s ss IH]; intros Hp; simpl; [done|].
  rewrite (Hp 0%nat s) by done. rewrite IH; [done|]. intros i. apply (Hp (S i)).
Qed.

Lemma pool_init_count {B} `{SlabBacking B} (p p' : SlabPool B) bk cfg :
  pool_init p bk cfg = (p', Ret tt) -> 0 <= slot_count p' < 2 ^ 32.
Proof.
  unfold pool_init. intros E. repeat case_match; simplify_eq; apply u32_range.
Qed.

Lemma store_init_ok {B} `{SlabBacking B} st (bk : option B) spp budget ls es st' :
  0 <= ls -> 0 <= es -> store_init st bk spp budget ls es = Ret st' -> store_ok st'.
Proof.
  intros Hl He. unfold store_init. destruct (_ || _); [done|].
  destruct (pool_init _ _ _) as [p [[]|]] eqn:Hp; [|done]. apply pool_init_count in Hp.
  destruct (init_slots p _) as [ss|] eqn:Hss; [|done]. cbn [mbind Result_bind]. intros E. injection E as <-.
  apply init_slots_spec in Hss as [Hlen Hss].
  assert (Hc : forall p, (forall s, s_state s = Free -> p s = false) -> 0 = count p ss).
  { intros q Hq. symmetry. apply count_none. intros i s Hi. apply Hq, (Hss _ _ Hi). }
  split; [|cbn; intros i s Hi; destruct (Hss _ _ Hi) as [_ ->]; done]. split; cbn; try done.
  - lia.
  - intros i s Hi. by apply Hss.
  - intros i s Hi Hn. by destruct (Hss _ _ Hi).
  - apply NoDup_seq.
  - intros i. rewrite elem_of_seq. split.
    + intros [_ Hi]. simpl in Hi. rewrite <- Hlen in Hi. apply lookup_lt_is_Some_2 in Hi as [s Hi].
      exists s. split; [done|]. exact (proj2 (Hss _ _ Hi)).
    + intros (s & Hi & _). apply lookup_lt_Some in Hi. lia.
  - by rewrite length_replicate.
  - intros k q Hk Hin Hq. rewrite lookup_replicate_2; [done|].
    unfold key_in_range in Hin. cbn in Hin. apply andb_true_iff in Hin as [H1 H2].
    apply Z.ltb_lt in H1, H2. destruct Hk. unfold table_index, kExpertPartCount, kExpertParts in *. cbn.
    assert (layer k * es + expert k + 1 <= ls * es) by nia. assert (0 <= layer k * es) by nia. lia.
  - apply Hc. intros s Hf. unfold in_state. by rewrite Hf.
  - apply Hc. intros s Hf. unfold in_state. by rewrite Hf.
  - rewrite u32_small by lia. pose proof (count_state_sum ss) as Hsum.
    rewrite <- (Hc (in_state Filling)), <- (Hc (in_state Resident)) in Hsum; [lia|..];
      intros s Hf; unfold in_state; by rewrite Hf.
  - apply Hc. intros s Hf. unfold pinned_resident, in_state. by rewrite Hf.
Qed.

(** States reachable from a successful [init], threads interleaving their steps freely. *)
Inductive reachable {B} `{SlabBacking B} (bk : option B) (spp budget ls es : Z) : ExpertStore -> Prop :=
| reach_init st st' : store_init st bk spp budget ls es = Ret st' -> reachable bk spp budget ls es st'
| reach_step op st : reachable bk spp budget ls es st -> op_typed op ->
    reachable bk spp budget ls es (store_step op st).

Lemma reachable_ok {B} `{SlabBacking B} (bk : option B) spp budget ls es st :
  0 <= ls -> 0 <= es -> reachable bk spp budget ls es st -> store_ok st.
Proof. intros Hl He. induction 1 as [st st' Hi|]; [exact (store_init_ok _ _ _ _ _ _ _ Hl He Hi)|by apply store_step_ok]. Qed.
