(* ===== verification/StoreProps.v ===== *)
(** Theorems about the expert store: each slot follows a small state machine, the pointer
    table never dangles, guarded slots survive, frozen caches do not change, fills settle
    exactly once, eviction is least-recently-used. *)

From S2P Require Import Prelude Types Floats Manifest Slab ExpertStore StoreInv.

#[local] Arguments write_row : simpl never.

(** ** The slot state machine every store operation refines *)

(** What survives a step that leaves the slot with its occupant. *)
Record kept (s t : ExpertSlot) : Prop := {
  kp_key : s_key t = s_key s; kp_state : s_state t = s_state s; kp_slot : s_slot t = s_slot s;
  kp_host : s_host_ptr t = s_host_ptr s; kp_dev : s_dev_addr t = s_dev_addr s;
  kp_tier : s_tier s = Pinned -> s_tier t = Pinned;
  kp_guard : s_guard_timeline s <= s_guard_timeline t;
  kp_total : s_runs_total t = s_runs_total s; kp_done : s_runs_done t = s_runs_done s;
  kp_failed : s_run_failed t = s_run_failed s;
  kp_offset : s_part_offset t = s_part_offset s }.

Definition begins (op : StoreOp) (k : ExpertKey) : Prop :=
  match op with OpBeginFill k' _ _ | OpBeginFillPlanar k' _ => k' = k | _ => False end.
Definition finishes (op : StoreOp) (i : nat) : Prop :=
  match op with OpFinishRun j _ _ | OpFinishFill j _ _ => j = i | _ => False end.
Definition evicts (op : StoreOp) (i : nat) : Prop :=
  match op with OpEvict j => j = i | OpEvictLru => True | _ => False end.

(** One step of slot [i], seen from outside: nothing but these transitions. *)
Inductive slot_step (op : StoreOp) (st : ExpertStore) (i : nat) (s : ExpertSlot) : ExpertSlot -> Prop :=
| ss_keep t : kept s t -> slot_step op st i s t
| ss_reserve t : begins op (s_key t) -> s_state s = Free -> s_state t = Filling ->
    cache_frozen st = false -> index st !! s_key t = None -> slot_step op st i s t
| ss_run ok token t : op = OpFinishRun i ok token -> s_state s = Filling -> s_state t = Filling ->
    s_key t = s_key s -> s_runs_total t = s_runs_total s -> s_runs_done t = s_runs_done s + 1 ->
    s_run_failed t = s_run_failed s || negb ok -> s_runs_done t < s_runs_total s ->
    slot_step op st i s t
| ss_publish t : finishes op i -> s_state s = Filling -> s_state t = Resident ->
    s_key t = s_key s -> s_part_offset t = s_part_offset s -> slot_step op st i s t
| ss_fail t : finishes op i -> s_state s = Filling -> s_state t = Free -> slot_step op st i s t
| ss_evict t : evicts op i -> is_evictable st s = true -> fixed_cache st = false ->
    s_state t = Free -> slot_step op st i s t.

Definition steps_to (op : StoreOp) (st : ExpertStore) (i : nat) (s : ExpertSlot) (st' : ExpertStore) : Prop :=
  exists t, slots st' !! i = Some t /\ slot_step op st i s t /\
    s_host_ptr t = s_host_ptr s /\ s_dev_addr t = s_dev_addr s.

Lemma kept_refl s : kept s s.
Proof. by split. Qed.
#[export] Hint Resolve kept_refl : store.

Section StepSlot.
Context (op : StoreOp) (st : ExpertStore) (i : nat) (s : ExpertSlot).
Context (Hok : store_ok st) (Hs : slots st !! i = Some s).

Lemma steps_same st' : slots st' = slots st -> steps_to op st i s st'.
Proof. intros Heq. exists s. rewrite Heq. repeat split; [done|]. apply ss_keep, kept_refl. Qed.

Lemma steps_upd j f st0 : slots st0 = slots st -> (forall u, kept u (f u)) ->
  steps_to op st i s (upd_slot j f st0).
Proof.
  intros Heq Hf. unfold steps_to, upd_slot. cbn. rewrite Heq.
  destruct (decide (j = i)) as [->|Hne].
  - exists (f s). rewrite list_lookup_alter_eq, Hs. split; [done|].
    split; [by apply ss_keep|]. by destruct (Hf s).
  - exists s. rewrite list_lookup_alter_ne by done. repeat split; [done|]. apply ss_keep, kept_refl.
Qed.

Lemma steps_map f st0 : slots st0 = f <$> slots st -> (forall u, kept u (f u)) -> steps_to op st i s st0.
Proof.
  intros Heq Hf. exists (f s). rewrite Heq, list_lookup_fmap, Hs. split; [done|].
  split; [by apply ss_keep|]. by destruct (Hf s).
Qed.

(** A slot that changes hands keeps the others as they were. *)
Lemma steps_move st' j u t : slots st !! j = Some u -> slot_move st st' j u t ->
  (j = i -> slot_step op st i u t) -> s_host_ptr t = s_host_ptr u -> s_dev_addr t = s_dev_addr u ->
  steps_to op st i s st'.
Proof.
  intros Hj Hmv Ht Hh Hd. destruct (decide (j = i)) as [->|Hne].
  - simplify_eq. exists t. split; [by eapply slot_move_new|auto].
  - exists s. split; [by eapply slot_move_old|]. repeat split. apply ss_keep, kept_refl.
Qed.

Lemma steps_stats f st' : steps_to op st i s st' -> steps_to op st i s (upd_stats f st').
Proof. done. Qed.
End StepSlot.

Ltac solve_kept := intros; split; cbn; try done; intros; repeat (case_match; cbn); try done; lia.

Section StepOps.
Context (st : ExpertStore) (i : nat) (s : ExpertSlot).
Context (Hok : store_ok st) (Hs : slots st !! i = Some s).

Lemma lookup_steps op k token guard : steps_to op st i s (lookup k token guard st).2.
Proof.
  unfold lookup. destruct (find_resident _ _) as [[j u]|]; cbn [snd].
  - apply steps_stats. apply steps_upd; [done|done|solve_kept].
  - by apply steps_same.
Qed.

Lemma touch_steps op k stamp f : steps_to op st i s (touch k stamp f st).2.
Proof.
  unfold touch. repeat case_match; cbn [snd]; try (by apply steps_same).
  apply steps_upd; [done|done|solve_kept].
Qed.

Lemma set_guard_steps op j v : steps_to op st i s (set_guard j v st).2.
Proof.
  unfold set_guard. case_match; cbn [snd]; [|by apply steps_same].
  apply steps_upd; [done|done|]. solve_kept.
Qed.

Lemma note_heat_steps op k a b : steps_to op st i s (note_heat k a b st).
Proof.
  unfold note_heat. repeat case_match; try (by apply steps_same).
  apply steps_upd; [done|done|solve_kept].
Qed.

Lemma decay_heat_steps op f : steps_to op st i s (decay_heat f st).
Proof.
  unfold decay_heat. repeat case_match; try (by apply steps_same).
  eapply steps_map; [done|reflexivity|solve_kept].
Qed.

Lemma snapshot_steps op g : steps_to op st i s (guarded_snapshot g st).2.
Proof.
  unfold guarded_snapshot. case_match; [by apply steps_same|].
  eapply steps_map; [done|reflexivity|]. solve_kept.
Qed.

Lemma pin_steps op k : steps_to op st i s (pin k st).2.
Proof.
  unfold pin. repeat case_match; cbn [snd]; try (by apply steps_same).
  apply steps_stats, steps_upd; [done|done|solve_kept].
Qed.

(** A reservation: slot [j] is taken over for [k], then its run list is recorded. *)
Lemma reserved_steps op k t j a st1 f :
  key_ok k -> begins op k -> reserve_locked k t st = Ret (j, a, st1) ->
  (forall u, s_key (f u) = s_key u /\ s_state (f u) = s_state u /\
     s_host_ptr (f u) = s_host_ptr u /\ s_dev_addr (f u) = s_dev_addr u) ->
  steps_to op st i s (upd_slot j f st1).
Proof.
  intros Hk Hop Hr Hf.
  destruct (reserve_move _ _ _ _ _ _ Hok Hk Hr) as (u & Hu & Hfree & Hfz & _ & Hix & _ & Hmv).
  pose proof (slot_move_new _ _ _ _ _ Hu Hmv) as Hn. destruct (decide (j = i)) as [->|Hne].
  - simplify_eq. destruct (Hf (reserved_slot k t s)) as (E1 & E2 & E3 & E4).
    exists (f (reserved_slot k t s)). split; [by apply upd_slot_lookup_eq|].
    split; [|by rewrite E3, E4]. apply ss_reserve; rewrite ?E1, ?E2; done.
  - exists s. unfold upd_slot. cbn. rewrite list_lookup_alter_ne by done.
    split; [by eapply slot_move_old|]. repeat split. apply ss_keep, kept_refl.
Qed.

Lemma begin_fill_steps k e t : key_ok k ->
  steps_to (OpBeginFill k e t) st i s (keep_on_fail (begin_fill k e t st) st).
Proof.
  intros Hk. destruct (begin_fill k e t st) as [[r st']|] eqn:E; cbn; [|by apply steps_same].
  apply begin_fill_inv in E as (j & a & st1 & Hr & _ & _ & _ & ->).
  apply steps_stats. by eapply reserved_steps.
Qed.

Lemma begin_fill_planar_steps k t : key_ok k ->
  steps_to (OpBeginFillPlanar k t) st i s (keep_on_fail (begin_fill_planar k t st) st).
Proof.
  intros Hk. destruct (begin_fill_planar k t st) as [[r st']|] eqn:E; cbn; [|by apply steps_same].
  apply begin_fill_planar_inv in E as (j & a & st1 & Hr & _ & ->).
  apply steps_stats. by eapply reserved_steps.
Qed.

(** Closing the run counters of [j] by [f] and settling it. *)
Lemma settled_steps op j f g u ok token : finishes op j -> slots st !! j = Some u ->
  s_state u = Filling -> same_core false u (f u) -> s_part_offset (f u) = s_part_offset u ->
  keeps_counts g ->
  steps_to op st i s (settle_locked j ok token (upd_stats g (upd_slot j f st))).
Proof.
  intros Hop Hu Hf Hc Hpo Hg. set (st1 := upd_stats g (upd_slot j f st)).
  assert (Hok1 : store_core st1).
  { apply store_core_upd_stats; [done|]. eapply (store_core_frame false); [apply Hok|].
    apply upd_slot_frame. intros u' Hu'. by simplify_eq. }
  assert (Hu1 : slots st1 !! j = Some (f u)) by (by apply upd_slot_lookup_eq).
  assert (Hf1 : s_state (f u) = Filling) by (by rewrite (core_state _ _ _ Hc)).
  assert (Hother : forall t, j <> i -> slot_move st1 (settle_locked j ok token st1) j (f u) t ->
    steps_to op st i s (settle_locked j ok token st1)).
  { intros t Hne Hmv. exists s. split.
    - eapply (slot_move_old _ _ _ _ _ Hmv); [done|]. unfold st1, upd_stats, upd_slot. cbn.
      by rewrite list_lookup_alter_ne.
    - repeat split. apply ss_keep, kept_refl. }
  destruct ok.
  - pose proof (settle_ok_move j _ token st1 Hok1 Hu1 Hf1) as Hmv.
    destruct (decide (j = i)) as [->|Hne]; [simplify_eq|by eapply Hother].
    exists (settled_slot token (f s)). split; [by eapply slot_move_new|]. cbn.
    rewrite (core_host _ _ _ Hc), (core_dev _ _ _ Hc). split; [|done].
    apply ss_publish; try done. apply (core_key _ _ _ Hc).
  - pose proof (release_failed_move j _ token st1 Hok1 Hu1 Hf1) as Hmv.
    destruct (decide (j = i)) as [->|Hne]; [simplify_eq|by eapply Hother].
    exists (released_slot (f s)). split; [by eapply slot_move_new|]. cbn.
    rewrite (core_host _ _ _ Hc), (core_dev _ _ _ Hc). split; [|done]. by apply ss_fail.
Qed.

Lemma finish_run_steps j ok token :
  steps_to (OpFinishRun j ok token) st i s (finish_run j ok token st).2.
Proof.
  unfold finish_run. destruct (slots st !! j) as [u|] eqn:Hu; [|by apply steps_same].
  destruct (bool_decide (s_state u = Filling)) eqn:Hf; [|by apply steps_same].
  apply bool_decide_eq_true in Hf. cbn [negb].
  destruct (s_runs_total u <=? s_runs_done u) eqn:Hd; [by apply steps_same|].
  destruct (ok_runs _ Hok _ _ Hu Hf) as [Hp Hmax].
  assert (Hinc : inc32 (s_runs_done u) = s_runs_done u + 1).
  { unfold inc32. unfold kMaxExpertRuns, kExpertParts in Hmax. rewrite u32_small; lia. }
  destruct (_ <? _) eqn:Hlt; cbn [snd].
  - destruct (decide (j = i)) as [->|Hne].
    + simplify_eq. eexists. split; [by apply upd_slot_lookup_eq|]. split; [|done].
      cbn in Hlt. apply Z.ltb_lt in Hlt.
      apply ss_run with (ok := ok) (token := token); cbn; auto.
    + exists s. unfold upd_stats, upd_slot. cbn. rewrite list_lookup_alter_ne by done.
      repeat split; [done|]. apply ss_keep, kept_refl.
  - by eapply settled_steps.
Qed.

Lemma finish_fill_steps j ok token :
  steps_to (OpFinishFill j ok token) st i s (finish_fill j ok token st).2.
Proof.
  unfold finish_fill. destruct (slots st !! j) as [u|] eqn:Hu; [|by apply steps_same].
  destruct (bool_decide (s_state u = Filling)) eqn:Hf; [|by apply steps_same].
  apply bool_decide_eq_true in Hf. cbn [negb snd]. rewrite upd_slot_stats.
  by eapply settled_steps.
Qed.

Lemma drop_steps op j u : evicts op j -> slots st !! j = Some u -> is_evictable st u = true ->
  fixed_cache st = false -> steps_to op st i s (drop_resident j st).
Proof.
  intros Hop Hu He Hfx. pose proof He as He'. apply is_evictable_spec in He' as (H1 & H2 & H3).
  eapply steps_move; [done|done|exact (drop_resident_move j u st Hok Hu H1 H2 Hfx)| |done|done].
  intros ->. by apply ss_evict.
Qed.

Lemma evict_steps j : steps_to (OpEvict j) st i s (evict j st).2.
Proof.
  destruct (evict j st) as [[[]|e] st'] eqn:E; simpl.
  - apply evict_inv in E as (u & Hu & He & Hfx & ->). by eapply drop_steps.
  - apply evict_fail in E as (f & _ & ->). by apply steps_stats, steps_same.
Qed.

Lemma evict_lru_steps : steps_to OpEvictLru st i s (evict_lru st).2.
Proof.
  destruct (evict_lru st) as [[j|e] st'] eqn:E; simpl.
  - apply evict_lru_inv in E as (u & Hu & He & Hfx & ->). by eapply drop_steps.
  - unfold evict_lru in E. repeat case_match; simplify_eq; by apply steps_same.
Qed.
End StepOps.

(** Every operation moves every slot by the slot state machine. *)
Lemma store_step_steps op st i s : store_ok st -> op_typed op -> slots st !! i = Some s ->
  steps_to op st i s (store_step op st).
Proof.
  intros Hok Hop Hs. destruct op; cbn [op_typed store_step] in *;
    eauto using lookup_steps, begin_fill_steps, begin_fill_planar_steps, finish_run_steps,
      finish_fill_steps, evict_steps, evict_lru_steps, set_guard_steps, snapshot_steps, pin_steps,
      touch_steps, note_heat_steps, decay_heat_steps, steps_same.
Qed.

(** ** The store's control fields *)

Record same_ctl (st st' : ExpertStore) : Prop := {
  ct_completed : completed_timeline st <= completed_timeline st';
  ct_fixed : fixed_cache st' = fixed_cache st;
  ct_frozen : cache_frozen st = true -> cache_frozen st' = true;
  ct_dims : layers st' = layers st /\ experts_per_layer st' = experts_per_layer st;
  ct_length : length (slots st') = length (slots st) }.

#[export] Instance same_ctl_preorder : PreOrder same_ctl.
Proof.
  split; [by split|]. intros a b c [H1 H2 H3 H4 H5] [K1 K2 K3 K4 K5].
  split; [lia|congruence|auto|intuition congruence|congruence].
Qed.

Lemma same_ctl_stats f st st' : same_ctl st st' -> same_ctl st (upd_stats f st').
Proof. by intros []. Qed.
Lemma same_ctl_slot i f st st' : same_ctl st st' -> same_ctl st (upd_slot i f st').
Proof. intros []. split; try done. unfold upd_slot. cbn. by rewrite length_alter. Qed.
Lemma same_ctl_release i st st' : same_ctl st st' -> same_ctl st (release_locked i st').
Proof.
  intros []. unfold release_locked. case_match; [|done]. split; try done. unfold upd_slot. cbn.
  by rewrite length_alter.
Qed.
Lemma same_ctl_publish i st st' : same_ctl st st' -> same_ctl st (publish_locked i st').
Proof. intros []. unfold publish_locked. by case_match. Qed.
Lemma same_ctl_unpublish i st st' : same_ctl st st' -> same_ctl st (unpublish_locked i st').
Proof. intros []. unfold unpublish_locked. by case_match. Qed.
Lemma same_ctl_refl st : same_ctl st st.
Proof. done. Qed.
#[export] Hint Resolve same_ctl_refl same_ctl_stats same_ctl_slot same_ctl_release same_ctl_publish
  same_ctl_unpublish : store.

Lemma same_ctl_settle i ok token st st' : same_ctl st st' -> same_ctl st (settle_locked i ok token st').
Proof.
  intros H. unfold settle_locked. destruct ok; [|auto with store].
  assert (Hf : forall x, same_ctl st x -> same_ctl st (x <| cache_frozen := true |>))
    by (intros x []; by split).
  repeat case_match; auto 10 with store.
Qed.

Lemma same_ctl_drop i st st' : same_ctl st st' -> same_ctl st (drop_resident i st').
Proof. unfold drop_resident. auto with store. Qed.
#[export] Hint Resolve same_ctl_settle same_ctl_drop : store.

Lemma same_ctl_reserve k t st i a st' : reserve_locked k t st = Ret (i, a, st') -> same_ctl st st'.
Proof.
  unfold reserve_locked. intros E. repeat case_match; simplify_eq. split; try done.
  unfold upd_slot. cbn. by rewrite length_alter.
Qed.
#[export] Hint Resolve same_ctl_reserve : store.

Definition sets_fixed (op : StoreOp) : bool := match op with OpSetFixed _ => true | _ => false end.

Lemma store_step_ctl op st : sets_fixed op = false -> same_ctl st (store_step op st).
Proof.
  destruct op; cbn [sets_fixed store_step]; intros Hop; try done.
  - unfold lookup. repeat case_match; cbn [snd]; auto with store.
  - destruct (begin_fill k e t st) as [[]|] eqn:E; simpl; [|done].
    apply begin_fill_inv in E as (? & ? & ? & ? & _ & _ & _ & ->). eauto with store.
  - destruct (begin_fill_planar k t st) as [[]|] eqn:E; simpl; [|done].
    apply begin_fill_planar_inv in E as (? & ? & ? & ? & _ & ->). eauto with store.
  - unfold finish_run. repeat case_match; cbn [snd]; auto with store.
  - unfold finish_fill. repeat case_match; cbn [snd]; auto with store.
  - unfold evict. repeat case_match; cbn [snd]; auto with store.
  - unfold evict_lru. repeat case_match; cbn [snd]; auto with store.
  - split; try done. cbn. destruct (Z.ltb_spec (completed_timeline st) v); lia.
  - unfold set_guard. repeat case_match; cbn [snd]; auto with store.
  - unfold guarded_snapshot. case_match; [done|]. split; try done. cbn. by rewrite length_fmap.
  - unfold pin. repeat case_match; cbn [snd]; auto with store.
  - unfold touch. repeat case_match; cbn [snd]; auto with store.
  - unfold note_heat. repeat case_match; auto with store.
  - unfold decay_heat. repeat case_match; try done; split; try done; cbn; by rewrite length_fmap.
Qed.

Lemma store_step_length op st : length (slots (store_step op st)) = length (slots st).
Proof.
  destruct (sets_fixed op) eqn:E; [by destruct op|]. apply (ct_length _ _ (store_step_ctl op st E)).
Qed.

Lemma store_step_completed op st : completed_timeline st <= completed_timeline (store_step op st).
Proof.
  destruct (sets_fixed op) eqn:E; [by destruct op|]. apply (ct_completed _ _ (store_step_ctl op st E)).
Qed.

Lemma store_step_dims op st :
  layers (store_step op st) = layers st /\ experts_per_layer (store_step op st) = experts_per_layer st.
Proof.
  destruct (sets_fixed op) eqn:E; [by destruct op|]. apply (ct_dims _ _ (store_step_ctl op st E)).
Qed.

(** ** Sequences of operations *)

Lemma run_ops_app ops1 ops2 st : run_ops (ops1 ++ ops2) st = run_ops ops2 (run_ops ops1 st).
Proof. apply foldl_app. Qed.

Lemma run_ops_ok ops st : Forall op_typed ops -> store_ok st -> store_ok (run_ops ops st).
Proof. intros Ho. revert st. induction Ho; simpl; auto using store_step_ok. Qed.

Lemma run_ops_completed ops st : completed_timeline st <= completed_timeline (run_ops ops st).
Proof.
  revert st. induction ops as [|op ops IH]; intros st; simpl; [done|].
  pose proof (store_step_completed op st). pose proof (IH (store_step op st)). lia.
Qed.

Lemma key_in_range_run ops st k : key_in_range (run_ops ops st) k = key_in_range st k.
Proof.
  revert st. induction ops as [|op ops IH]; intros st; simpl; [done|].
  rewrite IH. unfold key_in_range. by destruct (store_step_dims op st) as [-> ->].
Qed.

(** The address the table holds for [k], from the invariant. *)
Lemma table_entry_expected st k p : store_ok st -> key_ok k -> key_in_range st k = true ->
  table_entry k p st = Ret (expected_entry st k (part_index p)).
Proof.
  intros Hok Hk Hin. unfold table_entry. rewrite Hin. cbn.
  rewrite (ok_table _ Hok); [done..|]. destruct p; unfold kExpertPartCount, kExpertParts; simpl; lia.
Qed.

Lemma resident_entry st i s p : store_ok st -> slots st !! i = Some s -> s_state s = Resident ->
  table_entry (s_key s) p st = Ret (part_address s (part_index p)).
Proof.
  intros Hok Hs Hr. assert (Hn : s_state s <> Free) by (by rewrite Hr).
  destruct (held_key _ _ _ Hok Hs Hn) as (Hx & Hk & Hin).
  rewrite table_entry_expected, (expected_entry_alt _ _ _ _ _ Hok Hx Hs) by done.
  unfold slot_entry. by rewrite decide_True.
Qed.

(** ** A concrete store for the witnesses: 4 slots in 2 slabs, 2 layers of 4 experts. *)

Definition example_store : ExpertStore :=
  match store_init ExpertStore_empty (Some example_host) 2 (4 * kExpertSlotBytes) 2 4 with
  | Ret st => st
  | Fail _ => ExpertStore_empty
  end.
Definition exA : ExpertKey := mkKey 0 1.
Definition exB : ExpertKey := mkKey 1 3.
(** [exA] resident in slot 0 with stamp 5 and guard 9, [exB] in slot 1 with stamp 7. *)
Definition example_ops : list StoreOp :=
  [OpBeginFillPlanar exA Cached; OpFinishFill 0 true 5; OpBeginFillPlanar exB Cached;
   OpFinishRun 1 true 7; OpLookup exA 5 9].

Definition ex_reachable := reachable (Some example_host) 2 (4 * kExpertSlotBytes) 2 4.

Lemma example_init : ex_reachable example_store.
Proof. apply reach_init with ExpertStore_empty. vm_compute. reflexivity. Qed.

Lemma reachable_run {B} `{SlabBacking B} (bk : option B) spp budget ls es ops st :
  reachable bk spp budget ls es st -> Forall op_typed ops ->
  reachable bk spp budget ls es (run_ops ops st).
Proof.
  intros Hr Ho. revert st Hr. induction Ho as [|op ops Hop Ho IH]; intros st Hr; [done|].
  apply IH. by apply reach_step.
Qed.

(** Discharges [Forall op_typed] of a concrete schedule. *)
Ltac typed_ops := repeat constructor; unfold key_ok; simpl; try lia.

Lemma example_reachable : ex_reachable (run_ops example_ops example_store).
Proof. apply reachable_run; [apply example_init|]. typed_ops. Qed.

Section Theorems.
Context {B : Type} `{SlabBacking B} (bk : option B) (spp budget ls es : Z).
Context (Hls : 0 <= ls) (Hes : 0 <= es).
#[local] Abbreviation reach := (reachable bk spp budget ls es).

(** C9: the store refines the slot state machine: whatever operation any thread runs in
    any reachable state, each slot makes one of the machine's transitions (keep, reserve,
    run, publish, fail, evict) under that transition's guard, and its memory never moves. *)
Theorem store_refines_slot_machine op st i s :
  reach st -> op_typed op -> slots st !! i = Some s -> steps_to op st i s (store_step op st).
Proof. intros Hr. apply store_step_steps. by apply (reachable_ok _ _ _ _ _ _ Hls Hes Hr). Qed.

(** C10: the pointer table never dangles: in every reachable state the entry of a part is
    that part's address inside the slot that is resident for the key, and null exactly
    when no slot is resident for it. *)
Theorem table_never_dangles st k p :
  reach st -> key_ok k -> key_in_range st k = true ->
  (forall i s, slots st !! i = Some s -> s_state s = Resident -> s_key s = k ->
     table_entry k p st = Ret (part_address s (part_index p))) /\
  ((forall i s, slots st !! i = Some s -> s_state s = Resident -> s_key s <> k) ->
     table_entry k p st = Ret kNoDeviceAddress).
Proof.
  intros Hr Hk Hin. pose proof (reachable_ok _ _ _ _ _ _ Hls Hes Hr) as Hok. split.
  - intros i s Hs Hres <-. by apply (resident_entry _ i).
  - intros Hnone. rewrite table_entry_expected by done. f_equal. unfold expected_entry.
    destruct (find_resident st k) as [[i s]|] eqn:E; [|done].
    apply find_resident_Some in E as (Hs & Hres & Hkey); [|apply Hok]. by destruct (Hnone _ _ Hs Hres).
Qed.

(** Slot accounting: in every reachable state the statistics count the slots in each
    state, those counts add up to the number of slots, the free list holds exactly the
    free slots once each, and no two occupied slots hold the same expert. *)
Theorem slot_accounting st :
  reach st ->
  let c := get_stats st in
  st_free c = count (in_state Free) (slots st) /\
  st_filling c = count (in_state Filling) (slots st) /\
  st_resident c = count (in_state Resident) (slots st) /\
  st_pinned c = count pinned_resident (slots st) /\
  st_free c + st_filling c + st_resident c = Z.of_nat (length (slots st)) /\
  NoDup (free_list st) /\
  (forall i, i ∈ free_list st <-> exists s, slots st !! i = Some s /\ s_state s = Free) /\
  (forall i j s t, slots st !! i = Some s -> slots st !! j = Some t ->
     s_state s <> Free -> s_state t <> Free -> s_key s = s_key t -> i = j).
Proof.
  intros Hr c. pose proof (reachable_ok _ _ _ _ _ _ Hls Hes Hr) as Hok.
  assert (Hf : st_free c = count (in_state Free) (slots st)).
  { unfold c, get_stats, free_slots. cbn. rewrite (free_list_length st Hok).
    apply u32_small, (stat_range st (in_state Free) _ Hok eq_refl). }
  split; [done|]. split; [apply Hok|]. split; [apply Hok|]. split; [apply Hok|].
  split. { rewrite Hf. change (st_filling c) with (st_filling (stats st)).
    change (st_resident c) with (st_resident (stats st)).
    rewrite (ok_filling _ Hok), (ok_resident _ Hok). apply count_state_sum. }
  split; [apply Hok|]. split; [apply Hok|].
  intros i j s t Hs Ht Hsn Htn Hk.
  pose proof (ok_held _ Hok _ _ Hs Hsn). pose proof (ok_held _ Hok _ _ Ht Htn). congruence.
Qed.
End Theorems.

Lemma store_refines_slot_machine_witness :
  exists s, slots (run_ops example_ops example_store) !! 1%nat = Some s /\
    steps_to OpEvictLru (run_ops example_ops example_store) 1 s
      (store_step OpEvictLru (run_ops example_ops example_store)).
Proof.
  eexists. split; [vm_compute; reflexivity|].
  apply (store_refines_slot_machine (Some example_host) 2 (4 * kExpertSlotBytes) 2 4);
    [lia|lia|apply example_reachable|exact I|vm_compute; reflexivity].
Defined.

Lemma table_never_dangles_witness :
  exists s, slots (run_ops example_ops example_store) !! 1%nat = Some s /\ s_key s = exB /\
    part_address s 3 = 2 ^ 32 + kExpertSlotBytes + 12165120 /\
    table_entry exB W2Scale (run_ops example_ops example_store) = Ret (part_address s 3).
Proof.
  eexists. split; [vm_compute; reflexivity|]. split; [reflexivity|]. split; [vm_compute; reflexivity|].
  refine (proj1 (table_never_dangles (Some example_host) 2 (4 * kExpertSlotBytes) 2 4 ltac:(lia) ltac:(lia)
    _ exB W2Scale example_reachable _ _) 1%nat _ _ _ _);
    [unfold key_ok; simpl; lia|reflexivity|vm_compute; reflexivity|reflexivity|reflexivity].
Defined.

Lemma slot_accounting_witness :
  st_resident (get_stats (run_ops example_ops example_store)) = 2 /\
  NoDup (free_list (run_ops example_ops example_store)).
Proof.
  pose proof (slot_accounting (Some example_host) 2 (4 * kExpertSlotBytes) 2 4 ltac:(lia) ltac:(lia)
    _ example_reachable) as (_ & _ & _ & _ & _ & Hnd & _).
  split; [vm_compute; reflexivity|exact Hnd].
Defined.

(** ** Slots that must stay *)

Lemma kept_trans s t u : kept s t -> kept t u -> kept s u.
Proof.
  intros [] []. split; try congruence; [auto|lia].
Qed.

Lemma kept_address s t p : kept s t -> part_address t p = part_address s p.
Proof. intros []. unfold part_address, slot_base. by rewrite kp_host0, kp_dev0, kp_offset0. Qed.

(** A property of slot [i] that holds along [ops] and rules out every transition but [keep]. *)
Lemma run_ops_kept i s ops st :
  store_ok st -> Forall op_typed ops -> slots st !! i = Some s ->
  (forall ops1 op ops2 t, ops = ops1 ++ op :: ops2 -> kept s t ->
     slots (run_ops ops1 st) !! i = Some t -> forall u, slot_step op (run_ops ops1 st) i t u -> kept t u) ->
  exists t, slots (run_ops ops st) !! i = Some t /\ kept s t.
Proof.
  intros Hok Ho Hs. induction ops as [|op ops IH] using rev_ind; intros Hall; [by exists s|].
  apply Forall_app in Ho as [Ho Hop]. apply Forall_cons in Hop as [Hop _].
  destruct IH as (t & Ht & Hk); [done| |].
  { intros ops1 op' ops2 t ->. rewrite <- app_assoc in Hall. apply Hall with (ops2 := ops2 ++ [op]).
    done. }
  rewrite run_ops_app. simpl.
  destruct (store_step_steps op (run_ops ops st) i t) as (u & Hu & Hstep & _); try done.
  { by apply run_ops_ok. }
  exists u. split; [done|]. apply (kept_trans _ t); [done|]. by apply (Hall ops op []).
Qed.

Lemma kept_entry st st' i s t p : store_ok st -> store_ok st' -> slots st !! i = Some s ->
  slots st' !! i = Some t -> kept s t -> s_state s = Resident ->
  table_entry (s_key s) p st' = table_entry (s_key s) p st.
Proof.
  intros Hok Hok' Hs Ht Hk Hr. rewrite (resident_entry st i s p) by done.
  rewrite <- (kp_key _ _ Hk), (resident_entry st' i t p); try done; [|by rewrite (kp_state _ _ Hk)].
  by rewrite (kept_address _ _ _ Hk).
Qed.

Lemma run_ops_length ops st : length (slots (run_ops ops st)) = length (slots st).
Proof.
  revert st. induction ops as [|op ops IH]; intros st; simpl; [done|]. by rewrite IH, store_step_length.
Qed.

Section Stays.
Context {B : Type} `{SlabBacking B} (bk : option B) (spp budget ls es : Z).
Context (Hls : 0 <= ls) (Hes : 0 <= es).
#[local] Abbreviation reach := (reachable bk spp budget ls es).

(** C11: a guard protects a slot: whatever other threads do, until the GPU timeline passes
    the guard a resident slot keeps its expert and its addresses, and the published
    table row of the expert does not change. *)
Theorem guarded_slot_survives st i s ops :
  reach st -> Forall op_typed ops -> slots st !! i = Some s -> s_state s = Resident ->
  completed_timeline (run_ops ops st) < s_guard_timeline s ->
  (exists t, slots (run_ops ops st) !! i = Some t /\ kept s t) /\
  forall p, table_entry (s_key s) p (run_ops ops st) = table_entry (s_key s) p st.
Proof.
  intros Hr Ho Hs Hres Hg. pose proof (reachable_ok _ _ _ _ _ _ Hls Hes Hr) as Hok.
  destruct (run_ops_kept i s ops st Hok Ho Hs) as (t & Ht & Hk).
  { intros ops1 op ops2 t -> Hk Ht u Hstep.
    assert (Hle : completed_timeline (run_ops ops1 st) <= completed_timeline (run_ops (ops1 ++ op :: ops2) st))
      by (rewrite run_ops_app; apply run_ops_completed).
    destruct Hk. destruct Hstep; try congruence.
    match goal with H : is_evictable _ _ = true |- _ => apply is_evictable_spec in H as (? & ? & ?) end. lia. }
  split; [eauto|]. intros p. apply (kept_entry _ _ i s t); try done. by apply run_ops_ok.
Qed.

Lemma run_ops_frozen ops st : forallb (fun op => negb (sets_fixed op)) ops = true ->
  cache_frozen st = true -> fixed_cache st = true ->
  cache_frozen (run_ops ops st) = true /\ fixed_cache (run_ops ops st) = true.
Proof.
  revert st. induction ops as [|op ops IH]; intros st; simpl; [done|].
  intros [Hop Ho]%andb_true_iff Hz Hf. apply negb_true_iff in Hop.
  pose proof (store_step_ctl op st Hop) as Hc. apply IH; [done|by apply (ct_frozen _ _ Hc)|].
  by rewrite (ct_fixed _ _ Hc).
Qed.

(** A frozen cache is immutable: until fixed mode is switched off, no sequence of
    operations changes which expert any slot holds, where it is, or any table entry. *)
Theorem frozen_cache_immutable st ops :
  reach st -> Forall op_typed ops -> cache_frozen st = true ->
  forallb (fun op => negb (sets_fixed op)) ops = true ->
  cache_frozen (run_ops ops st) = true /\
  (forall i s, slots st !! i = Some s -> exists t, slots (run_ops ops st) !! i = Some t /\ kept s t) /\
  forall k p, key_ok k -> table_entry k p (run_ops ops st) = table_entry k p st.
Proof.
  intros Hr Ho Hz Hns. pose proof (reachable_ok _ _ _ _ _ _ Hls Hes Hr) as Hok.
  destruct (ok_frozen _ Hok Hz) as [Hfx Hall].
  split; [by apply (run_ops_frozen ops st)|].
  assert (Hkeep : forall i s, slots st !! i = Some s ->
    exists t, slots (run_ops ops st) !! i = Some t /\ kept s t).
  { intros i s Hs. apply (run_ops_kept i s ops st Hok Ho Hs). intros ops1 op ops2 t -> Hk Ht u Hstep.
    rewrite forallb_app in Hns. apply andb_true_iff in Hns as [Hns _].
    destruct (run_ops_frozen ops1 st Hns Hz Hfx) as [Hz1 Hf1].
    assert (Hrt : s_state t = Resident) by (rewrite (kp_state _ _ Hk); eauto).
    destruct Hstep; congruence. }
  split; [done|]. intros k p Hk. pose proof (run_ops_ok ops st Ho Hok) as Hok'.
  destruct (key_in_range st k) eqn:Hin.
  - rewrite !table_entry_expected; try done; [|by rewrite key_in_range_run]. f_equal.
    unfold expected_entry. destruct (find_resident st k) as [[i s]|] eqn:E.
    + apply find_resident_Some in E as (Hs & Hres & <-); [|apply Hok].
      destruct (Hkeep i s Hs) as (t & Ht & Hkt).
      assert (find_resident (run_ops ops st) (s_key s) = Some (i, t)) as ->.
      { apply find_resident_Some; [apply Hok'|]. destruct Hkt. split; [done|]. by rewrite kp_state0. }
      by rewrite (kept_address _ _ _ Hkt).
    + destruct (find_resident (run_ops ops st) k) as [[i t]|] eqn:E'; [|done].
      apply find_resident_Some in E' as (Ht & Hres & Hkey); [|apply Hok'].
      pose proof (lookup_lt_Some _ _ _ Ht) as Hlt. rewrite run_ops_length in Hlt.
      apply lookup_lt_is_Some_2 in Hlt as [s Hs]. destruct (Hkeep i s Hs) as (t' & Ht' & Hkt).
      simplify_eq. destruct Hkt. assert (find_resident st (s_key s) = Some (i, s)) as E1
        by (apply find_resident_Some; [apply Hok|split; [done|split; congruence]]).
      congruence.
  - unfold table_entry. by rewrite key_in_range_run, Hin.
Qed.
End Stays.

Lemma guarded_slot_survives_witness :
  exists s, slots (run_ops example_ops example_store) !! 0%nat = Some s /\ s_guard_timeline s = 9 /\
    exists t, slots (run_ops [OpSetCompleted 8; OpEvict 0; OpEvictLru; OpEvictLru]
                       (run_ops example_ops example_store)) !! 0%nat = Some t /\ kept s t.
Proof.
  eexists. split; [vm_compute; reflexivity|]. split; [reflexivity|].
  refine (proj1 (guarded_slot_survives (Some example_host) 2 (4 * kExpertSlotBytes) 2 4 ltac:(lia) ltac:(lia)
    _ 0%nat _ [OpSetCompleted 8; OpEvict 0; OpEvictLru; OpEvictLru] example_reachable _ _ _ _));
    [typed_ops|vm_compute; reflexivity|reflexivity|vm_compute; reflexivity].
Defined.

(** All four slots filled, then frozen by the last settle. *)
Definition example_frozen : ExpertStore :=
  run_ops [OpSetFixed true; OpBeginFillPlanar (mkKey 0 0) Cached; OpFinishFill 0 true 1;
    OpBeginFillPlanar (mkKey 0 1) Cached; OpFinishFill 1 true 2; OpBeginFillPlanar (mkKey 0 2) Cached;
    OpFinishFill 2 true 3; OpBeginFillPlanar (mkKey 1 0) Pinned; OpFinishFill 3 true 4] example_store.

Lemma frozen_cache_immutable_witness :
  cache_frozen example_frozen = true /\
  table_entry (mkKey 0 2) W1Weight
    (run_ops [OpEvictLru; OpEvict 2; OpBeginFillPlanar exB Cached; OpFinishFill 2 false 0] example_frozen)
  = table_entry (mkKey 0 2) W1Weight example_frozen.
Proof.
  split; [vm_compute; reflexivity|].
  refine (proj2 (proj2 (frozen_cache_immutable (Some example_host) 2 (4 * kExpertSlotBytes) 2 4
    ltac:(lia) ltac:(lia) example_frozen
    [OpEvictLru; OpEvict 2; OpBeginFillPlanar exB Cached; OpFinishFill 2 false 0] _ _ _ _)) _ _ _).
  - apply reachable_run; [apply example_init|]. typed_ops.
  - typed_ops.
  - vm_compute. reflexivity.
  - reflexivity.
  - unfold key_ok; simpl; lia.
Defined.

(** ** Fills settle exactly once *)

Definition fill_flags (i : nat) (ops : list StoreOp) : list bool :=
  omap (fun op => match op with OpFinishRun j ok _ => if decide (j = i) then Some ok else None | _ => None end) ops.
Definition whole_fill (i : nat) (op : StoreOp) : bool :=
  match op with OpFinishFill j _ _ => bool_decide (j = i) | _ => false end.

(** Slot [i] is filling for [k]: [n] runs, the outcomes in [oks] already reported. *)
Definition filling_for (st : ExpertStore) (i : nat) (k : ExpertKey) (n : Z) (oks : list bool) : Prop :=
  exists s, slots st !! i = Some s /\ s_state s = Filling /\ s_key s = k /\ s_runs_total s = n /\
    s_runs_done s = Z.of_nat (length oks) /\ s_run_failed s = negb (forallb id oks).

Lemma begin_fill_filling k e t st r st' : store_ok st -> key_ok k ->
  begin_fill k e t st = Ret (r, st') ->
  filling_for st' (r_slot r) k (Z.of_nat (length (ee_runs e))) [].
Proof.
  intros Hok Hk E. apply begin_fill_inv in E as (i & a & st1 & Hr & _ & _ & -> & ->).
  destruct (reserve_move _ _ _ _ _ _ Hok Hk Hr) as (s & Hs & _ & _ & _ & _ & _ & Hmv).
  eexists. split; [eapply upd_slot_lookup_eq; by eapply slot_move_new|]. done.
Qed.

(** The last report: [finish_run] returns true and settles on the conjunction. *)
Definition settled_for (st : ExpertStore) (i : nat) (k : ExpertKey) (ok : bool) : Prop :=
  if ok then resident st k = true /\ index st !! k = Some i
  else index st !! k = None /\ exists s, slots st !! i = Some s /\ s_state s = Free.

Section Fill.
Context (i : nat) (k : ExpertKey) (n : Z).

Lemma filling_other st op oks : store_ok st -> op_typed op -> filling_for st i k n oks ->
  whole_fill i op = false -> fill_flags i [op] = [] -> filling_for (store_step op st) i k n oks.
Proof.
  intros Hok Hop (s & Hs & Hf & Hk & Hn & Hd & Hb) Hw Hno.
  destruct (store_step_steps op st i s Hok Hop Hs) as (t & Ht & Hstep & _).
  assert (Hnf : ~ finishes op i).
  { destruct op; simpl in *; try tauto; intros ->.
    - by rewrite decide_True in Hno.
    - by rewrite bool_decide_true in Hw. }
  exists t. split; [done|]. destruct Hstep as [t []| | | | |]; try congruence; try done.
  - repeat split; congruence.
  - subst op. by destruct Hnf.
  - match goal with H : is_evictable _ _ = true |- _ => apply is_evictable_spec in H as (? & _) end.
    congruence.
Qed.

Lemma filling_run st ok token oks : store_ok st -> filling_for st i k n oks ->
  Z.of_nat (length oks) + 1 < n ->
  (finish_run i ok token st).1 = Ret false /\
  filling_for (finish_run i ok token st).2 i k n (oks ++ [ok]).
Proof.
  intros Hok (s & Hs & Hf & Hk & Hn & Hd & Hb) Hlt.
  destruct (ok_runs _ Hok _ _ Hs Hf) as [Hp Hmax]. unfold kMaxExpertRuns, kExpertParts in Hmax.
  unfold finish_run. rewrite Hs, bool_decide_true by done. cbn [negb].
  destruct (Z.leb_spec (s_runs_total s) (s_runs_done s)); [lia|]. cbn.
  assert (Hinc : inc32 (s_runs_done s) = s_runs_done s + 1) by (apply u32_small; lia).
  destruct (Z.ltb_spec (inc32 (s_runs_done s)) (s_runs_total s)); [|lia].
  split; [done|]. eexists. split; [cbn; by apply upd_slot_lookup_eq|]. cbn.
  repeat split; try done.
  - rewrite length_app. simpl. lia.
  - rewrite forallb_app, Hb. simpl. rewrite andb_true_r. unfold id. by destruct (forallb _ _), ok.
Qed.

Lemma filling_last st ok token oks : store_ok st -> filling_for st i k n oks ->
  Z.of_nat (length oks) + 1 = n ->
  (finish_run i ok token st).1 = Ret true /\
  settled_for (finish_run i ok token st).2 i k (forallb id (oks ++ [ok])).
Proof.
  intros Hok (s & Hs & Hf & Hk & Hn & Hd & Hb) Hlt.
  pose proof (finish_run_ok i ok token st Hok) as Hok'.
  destruct (ok_runs _ Hok _ _ Hs Hf) as [Hp Hmax]. unfold kMaxExpertRuns, kExpertParts in Hmax.
  revert Hok'. unfold finish_run. rewrite Hs, bool_decide_true by done. cbn [negb].
  destruct (Z.leb_spec (s_runs_total s) (s_runs_done s)); [lia|]. cbn.
  assert (Hinc : inc32 (s_runs_done s) = s_runs_done s + 1) by (apply u32_small; lia).
  destruct (Z.ltb_spec (inc32 (s_runs_done s)) (s_runs_total s)); [lia|].
  split; [done|]. revert Hok'.
  assert (negb (s_run_failed s || negb ok) = forallb id (oks ++ [ok])) as ->.
  { rewrite forallb_app, Hb. simpl. unfold id. by destruct (forallb _ _), ok. }
  cbn [snd]. set (s1 := s <| s_runs_done ::= inc32 |> <| s_run_failed ::= fun f => f || negb ok |>).
  set (st1 := upd_stats (fun c => c <| st_runs_done ::= inc64 |>) (upd_slot i (fun _ => s1) st)).
  assert (Hs1 : slots st1 !! i = Some s1) by (by apply (upd_slot_lookup_eq i _ _ s)).
  assert (Hok1 : store_core st1).
  { apply store_core_upd_stats; [frame|]. eapply (store_core_frame false); [apply Hok|].
    apply upd_slot_frame. intros u Hu. simplify_eq. by split. }
  intros Hok'. destruct (forallb id (oks ++ [ok])); unfold settled_for.
  - pose proof (settle_ok_move i s1 token st1 Hok1 Hs1 Hf) as Hmv.
    pose proof (slot_move_new _ _ _ _ _ Hs1 Hmv) as Hn1.
    pose proof (ok_held _ Hok' _ _ Hn1 ltac:(done)) as Hx. cbn [settled_slot] in Hx.
    change (s_key (settled_slot token s1)) with (s_key s) in Hx. rewrite Hk in Hx. split; [|done].
    unfold resident. apply bool_decide_eq_true. exists (i, settled_slot token s1).
    apply find_resident_Some; [apply Hok'|]. done.
  - pose proof (release_failed_move i s1 token st1 Hok1 Hs1 Hf) as Hmv. split.
    + rewrite (mv_index _ _ _ _ _ Hmv). rewrite decide_True by done.
      rewrite <- Hk. apply (vacated_key st1 s1 Hok1). change (s_state s <> Free). by rewrite Hf.
    + eexists. split; [by eapply slot_move_new|done].
Qed.
End Fill.

Lemma filling_ops i k n ops st oks :
  store_ok st -> Forall op_typed ops -> filling_for st i k n oks ->
  forallb (fun op => negb (whole_fill i op)) ops = true ->
  Z.of_nat (length oks + length (fill_flags i ops)) < n ->
  filling_for (run_ops ops st) i k n (oks ++ fill_flags i ops).
Proof.
  revert st oks. induction ops as [|op ops IH]; intros st oks Hok Ho Hf Hw Hn.
  - by rewrite app_nil_r.
  - apply Forall_cons in Ho as [Hop Ho]. simpl in Hw. apply andb_true_iff in Hw as [Hw1 Hw].
    apply negb_true_iff in Hw1. pose proof (store_step_ok op st Hop Hok) as Hok1.
    change (op :: ops) with ([op] ++ ops) in *. unfold fill_flags in *. rewrite omap_app in *.
    rewrite length_app in Hn. rewrite app_assoc.
    destruct (decide (fill_flags i [op] = [])) as [E|E].
    + unfold fill_flags in E. rewrite E in *. rewrite app_nil_r. cbn [length] in Hn.
      apply IH; try done. by apply (filling_other i k n).
    + destruct op; try done. unfold fill_flags in E. simpl in *.
      destruct (decide (i0 = i)) as [->|]; [|done]. simpl in *.
      apply IH; try done; [|rewrite length_app; simpl; lia].
      apply filling_run; [done..|lia].
Qed.

(** C12: a fill settles exactly once, on its last run: after [begin_fill] returns a
    reservation of n runs, n reports in any order, interleaved with any other operations
    of any threads, leave the first n-1 reports answered false and the last answered true;
    then the expert is resident in the reserved slot iff every run succeeded, and otherwise
    the key is gone and the slot is free again. *)
Theorem fill_settles_once {B} `{SlabBacking B} (bk : option B) spp budget ls es
    st k e t r st' ops ok token :
  0 <= ls -> 0 <= es -> reachable bk spp budget ls es st -> key_ok k ->
  begin_fill k e t st = Ret (r, st') ->
  Forall op_typed ops -> forallb (fun op => negb (whole_fill (r_slot r) op)) ops = true ->
  (length (fill_flags (r_slot r) ops) + 1 = length (ee_runs e))%nat ->
  let mid := run_ops ops st' in
  filling_for mid (r_slot r) k (Z.of_nat (length (ee_runs e))) (fill_flags (r_slot r) ops) /\
  (finish_run (r_slot r) ok token mid).1 = Ret true /\
  settled_for (finish_run (r_slot r) ok token mid).2 (r_slot r) k
    (forallb id (fill_flags (r_slot r) ops ++ [ok])).
Proof.
  intros Hls Hes Hr Hk E Ho Hw Hn mid. pose proof (reachable_ok _ _ _ _ _ _ Hls Hes Hr) as Hok.
  assert (Hok' : store_ok st').
  { pose proof (begin_fill_ok k e t st Hk Hok) as Hb. by rewrite E in Hb. }
  pose proof (begin_fill_filling _ _ _ _ _ _ Hok Hk E) as Hf.
  assert (Hmid : filling_for mid (r_slot r) k (Z.of_nat (length (ee_runs e))) (fill_flags (r_slot r) ops)).
  { apply (filling_ops (r_slot r) k _ ops st' []); try done. simpl. lia. }
  split; [done|]. apply filling_last with (n := Z.of_nat (length (ee_runs e))); [|done|lia].
  by apply run_ops_ok.
Qed.

(** An expert fetched by three sector-aligned runs. *)
Definition example_entry : ExpertEntry :=
  mkExpertEntry [mkRun 0 4096 8192 0 []; mkRun 0 65536 4096 8192 []; mkRun 1 0 4096 12288 []]
    kExpertSlotBytes planar_offset planar_bytes.

(** The reports of [exB] and another thread's operations, interleaved. *)
Definition example_schedule : list StoreOp :=
  [OpEvictLru; OpFinishRun 2 true 8; OpLookup exA 9 9; OpFinishRun 0 true 1; OpFinishRun 2 false 8].

Lemma fill_settles_once_witness :
  exists r st', begin_fill (mkKey 1 0) example_entry Cached (run_ops example_ops example_store) = Ret (r, st') /\
    (finish_run (r_slot r) true 8 (run_ops example_schedule st')).1 = Ret true /\
    settled_for (finish_run (r_slot r) true 8 (run_ops example_schedule st')).2 (r_slot r) (mkKey 1 0) false.
Proof.
  do 2 eexists. split; [vm_compute; reflexivity|].
  refine (proj2 (fill_settles_once (Some example_host) 2 (4 * kExpertSlotBytes) 2 4
    (run_ops example_ops example_store) (mkKey 1 0) example_entry Cached _ _ example_schedule true 8
    ltac:(lia) ltac:(lia) example_reachable _ _ _ _ _));
    [unfold key_ok; simpl; lia|vm_compute; reflexivity|typed_ops|reflexivity|reflexivity].
Defined.

(** ** Eviction order *)

Definition older (s t : ExpertSlot) : Prop := s_last_use_token s <= s_last_use_token t.

(** The group [evict_lru] searches first. *)
Definition preferred_group (st : ExpertStore) (s : ExpertSlot) : bool :=
  match evict_path st with
  | EvictOff => true
  | PreferA => negb (on_path_b st s)
  | PreferB => on_path_b st s
  end.

Lemma preferred_candidate st b s : lru_candidate st (Some b) s = is_evictable st s && Bool.eqb (on_path_b st s) b.
Proof. done. Qed.

Lemma candidate_all st s : lru_candidate st None s = is_evictable st s.
Proof. unfold lru_candidate. by rewrite andb_true_r. Qed.

(** [scan] by group: the oldest evictable slot of the group, or none exists. *)
Definition oldest_in (st : ExpertStore) (g : ExpertSlot -> bool) (i : nat) : Prop :=
  exists s, slots st !! i = Some s /\ is_evictable st s = true /\ g s = true /\
    forall j u, slots st !! j = Some u -> is_evictable st u = true -> g u = true -> older s u.

Lemma scan_oldest st r g :
  (forall s, lru_candidate st r s = is_evictable st s && g s) ->
  match scan st r with
  | Some i => oldest_in st g i
  | None => forall j u, slots st !! j = Some u -> is_evictable st u = true -> g u = false
  end.
Proof.
  intros Hg. pose proof (scan_spec st r) as H. destruct (scan st r) as [i|].
  - destruct H as (s & Hs & Hc & Hmin). rewrite Hg in Hc. apply andb_true_iff in Hc as [He Hgs].
    exists s. repeat split; try done. intros j u Hj Hu Hgu.
    destruct (Hmin j u Hj) as [?|[? _]]; [by rewrite Hg, Hu, Hgu|unfold older; lia|unfold older; lia].
  - intros j u Hj Hu. specialize (H j u Hj). by rewrite Hg, Hu in H.
Qed.

(** [evict_lru] drops the least recently used evictable slot (unpinned, resident, its
    guard passed): of the preferred read path when that path has one, else of all; the
    slot is freed, its key forgotten and the other slots are untouched.  It answers
    FailedPrecondition exactly in fixed mode and NotFound exactly when nothing is evictable. *)
Theorem evict_lru_spec {B} `{SlabBacking B} (bk : option B) spp budget ls es st :
  0 <= ls -> 0 <= es -> reachable bk spp budget ls es st ->
  match evict_lru st with
  | (Ret i, st') => fixed_cache st = false /\
      (oldest_in st (preferred_group st) i \/
       (oldest_in st (fun _ => true) i /\
        forall j u, slots st !! j = Some u -> is_evictable st u = true -> preferred_group st u = false)) /\
      (exists s, slots st !! i = Some s /\ index st' !! s_key s = None) /\ i ∈ free_list st' /\
      (forall j, j <> i -> slots st' !! j = slots st !! j)
  | (Fail FailedPrecondition, st') => fixed_cache st = true /\ st' = st
  | (Fail e, st') => e = NotFound /\ fixed_cache st = false /\ st' = st /\ evictable st = []
  end.
Proof.
  intros Hls Hes Hr. pose proof (reachable_ok _ _ _ _ _ _ Hls Hes Hr) as Hok.
  destruct (evict_lru st) as [[i|err] st'] eqn:E.
  - destruct (evict_lru_inv _ _ _ E) as (s & Hs & He & Hfx & ->).
    pose proof He as He'. apply is_evictable_spec in He' as (Hres & Htier & _).
    pose proof (drop_resident_move i s st Hok Hs Hres Htier Hfx) as Hmv.
    split; [done|]. split.
    + unfold evict_lru in E. rewrite Hfx in E.
      pose proof (scan_oldest st None (fun _ => true) (fun s => eq_trans (candidate_all st s) (eq_sym (andb_true_r _)))) as Hall.
      unfold preferred_group. destruct (evict_path st).
      * left. destruct (scan st None); by simplify_eq.
      * pose proof (scan_oldest st (Some false) (fun s => negb (on_path_b st s))) as Hp.
        destruct (scan st (Some false)); [left|right; destruct (scan st None)]; simplify_eq; try split; try done;
          apply Hp; intros u; rewrite preferred_candidate; by destruct (on_path_b st u).
      * pose proof (scan_oldest st (Some true) (on_path_b st)) as Hp.
        destruct (scan st (Some true)); [left|right; destruct (scan st None)]; simplify_eq; try split; try done;
          apply Hp; intros u; rewrite preferred_candidate; by destruct (on_path_b st u).
    + split; [|split].
      * exists s. split; [done|]. rewrite (mv_index _ _ _ _ _ Hmv), decide_True by done.
        apply (vacated_key st s Hok). by rewrite Hres.
      * apply (mv_free _ _ _ _ _ Hmv). by rewrite decide_True.
      * intros j Hne. rewrite (mv_slots _ _ _ _ _ Hmv). by rewrite list_lookup_insert_ne.
  - unfold evict_lru in E. destruct (fixed_cache st) eqn:Hfx; [by simplify_eq|].
    assert (Hnone : scan st None = None) by (repeat case_match; simplify_eq; done).
    assert (Hev : evictable st = []).
    { unfold evictable. rewrite Hfx. pose proof (scan_spec st None) as Hs. rewrite Hnone in Hs.
      destruct (filter _ _) as [|u l] eqn:Hl; [done|].
      assert (Hu : u ∈ filter (fun s => is_evictable st s = true) (slots st)) by (rewrite Hl; left).
      apply list_elem_of_filter in Hu as [Hu Hin]. apply list_elem_of_lookup in Hin as [j Hj].
      specialize (Hs j u Hj). rewrite candidate_all in Hs. congruence. }
    repeat case_match; simplify_eq; done.
Qed.

Lemma evict_lru_spec_witness :
  match evict_lru (run_ops example_ops example_store) with
  | (Ret i, st') => i = 1%nat /\ i ∈ free_list st'
  | _ => False
  end.
Proof.
  pose proof (evict_lru_spec (Some example_host) 2 (4 * kExpertSlotBytes) 2 4
    (run_ops example_ops example_store) ltac:(lia) ltac:(lia) example_reachable) as Hspec.
  destruct (evict_lru (run_ops example_ops example_store)) as [[i|e] st'] eqn:E.
  - split; [|apply Hspec]. assert (Hi : (evict_lru (run_ops example_ops example_store)).1 = Ret 1%nat)
      by (vm_compute; reflexivity). rewrite E in Hi. by injection Hi.
  - assert (Hi : (evict_lru (run_ops example_ops example_store)).1 = Ret 1%nat)
      by (vm_compute; reflexivity). by rewrite E in Hi.
Defined.

(** ** Waiting, eviction by key, decay *)

(** [wait_settled] stops at the first moment the expert is not being filled, or when
    the time is up, and answers whether the expert is resident at that moment. *)
Theorem wait_settled_spec k others st :
  exists before after, others = before ++ after /\
    wait_settled k others st = (resident (run_ops before st) k, run_ops before st) /\
    (after = [] \/ is_filling k (run_ops before st) = false) /\
    (forall n, (n < length before)%nat -> is_filling k (run_ops (take n before) st) = true).
Proof.
  revert st. induction others as [|op others IH]; intros st; simpl.
  - exists [], []. repeat split; [by destruct (is_filling k st)|by left|simpl; lia].
  - destruct (is_filling k st) eqn:E.
    + destruct (IH (store_step op st)) as (b & a & -> & -> & Ha & Hb).
      exists (op :: b), a. repeat split; [done|]. intros [|n] Hn; simpl in *; [done|]. apply Hb. lia.
    + exists [], (op :: others). repeat split; [by right|simpl; lia].
Qed.

(** [evict_key] without interference evicts the expert it names, or leaves the store
    (its counters apart) alone. *)
Theorem evict_key_alone {B} `{SlabBacking B} (bk : option B) spp budget ls es st k :
  0 <= ls -> 0 <= es -> reachable bk spp budget ls es st ->
  match evict_key k [] st with
  | (Ret _, st') => index st' !! k = None /\ (forall k', k' <> k -> index st' !! k' = index st !! k')
  | (Fail NotFound, st') => index st !! k = None /\ st' = st
  | (Fail e, st') => e = FailedPrecondition /\ index st' = index st /\ slots st' = slots st /\ table st' = table st
  end.
Proof.
  intros Hls Hes Hr. pose proof (reachable_ok _ _ _ _ _ _ Hls Hes Hr) as Hok.
  unfold evict_key, evict_key_find. destruct (index st !! k) as [i|] eqn:Hi; [|done]. cbn [run_ops foldl].
  destruct (ok_index _ Hok _ _ Hi) as (s & Hs & Hk & Hn).
  destruct (evict i st) as [[[]|e] st'] eqn:E.
  - apply evict_inv in E as (u & Hu & He & Hfx & ->). simplify_eq.
    apply is_evictable_spec in He as (Hres & Ht & _).
    pose proof (drop_resident_move i s st Hok Hs Hres Ht Hfx) as Hmv.
    rewrite (mv_index _ _ _ _ _ Hmv), decide_True by done. split.
    + exact (vacated_key st s Hok Hn).
    + intros k' Hne. unfold vacated. rewrite decide_False by done. by apply lookup_delete_ne.
  - unfold evict in E. rewrite Hs in E. repeat case_match; simplify_eq; done.
Qed.

Lemma evict_key_alone_witness :
  index (evict_key exB [] (run_ops example_ops example_store)).2 !! exB = None.
Proof.
  pose proof (evict_key_alone (Some example_host) 2 (4 * kExpertSlotBytes) 2 4
    (run_ops example_ops example_store) exB ltac:(lia) ltac:(lia) example_reachable) as Hspec.
  destruct (evict_key exB [] (run_ops example_ops example_store)) as [[u|e] st'] eqn:E; [apply Hspec|].
  assert (Hi : (evict_key exB [] (run_ops example_ops example_store)).1 = Ret tt) by (vm_compute; reflexivity).
  by rewrite E in Hi.
Defined.

(** [evict_key] is not atomic: between its lookup and its eviction another thread can
    recycle the slot, and then the call drops a different expert and reports success. *)
Theorem evict_key_evicts_another :
  let st := run_ops example_ops example_store in
  let others := [OpEvict 1; OpBeginFillPlanar (mkKey 0 0) Cached; OpFinishFill 1 true 20] in
  Forall op_typed others /\
  resident (run_ops others st) (mkKey 0 0) = true /\
  (evict_key exB others st).1 = Ret tt /\
  resident (evict_key exB others st).2 (mkKey 0 0) = false.
Proof. split; [typed_ops|]. vm_compute. done. Qed.

(** Below 1 the factor [decay_heat] is given has no effect: any two factors leave the
    same heats (the loop only renormalises by the hottest slot). *)
Theorem decay_heat_ignores_factor st f g :
  f_geb f f32_one = false -> f_geb g f32_one = false -> decay_heat f st = decay_heat g st.
Proof. intros Hf Hg. unfold decay_heat. by rewrite Hf, Hg. Qed.

Lemma decay_heat_ignores_factor_witness :
  f_geb f32_zero f32_one = false /\ f_geb (f32_div f32_one (f32_add f32_one f32_one)) f32_one = false /\
  decay_heat f32_zero example_store
  = decay_heat (f32_div f32_one (f32_add f32_one f32_one)) example_store.
Proof.
  split; [reflexivity|]. split; [reflexivity|].
  exact (decay_heat_ignores_factor example_store f32_zero (f32_div f32_one (f32_add f32_one f32_one))
    eq_refl eq_refl).
Defined.
