(* ===== verification/Router.v ===== *)
(** Choosing the drive of a read ([src/storage/source_router.h]): weighted least outstanding
    bytes, dropping a source that keeps failing, resting one that runs hot, and keeping an
    idle one awake. *)

From S2P Require Import Prelude Floats.

Definition kMaxIoSources : Z := 4.

(** [mask & (1u << s)] *)
Definition has_bit (mask s : Z) : bool := Z.testbit mask s.
Definition set_bit (mask s : Z) : Z := Z.lor mask (Z.shiftl 1 s).
Definition clear_bit (mask s : Z) : Z := Z.ldiff mask (Z.shiftl 1 s).

(** ** [pick_source] *)

(** The double nearest to [1e-9]. *)
Definition f64_1em9 : float := f64_lit 0x112e0be826d695 (-82).

(** When the request would land: (queue + me) / rate. *)
Definition eta (weight : float) (outstanding bytes : Z) : float :=
  let w := if f_gtb weight f64_zero then weight else f64_1em9 in
  f64_div (f64_add (f64_of_Z outstanding) (f64_of_Z bytes)) w.

Definition source_eta (weights : list float) (outstanding : list Z) (bytes : Z) (s : nat) : float :=
  eta (default f64_zero (weights !! s)) (default 0 (outstanding !! s)) bytes.

(** One turn of the loop; [best = kMaxIoSources] means none yet. *)
Definition pick_step (weights : list float) (outstanding : list Z) (mask bytes : Z)
    (acc : Z * float) (s : nat) : Z * float :=
  let '(best, best_eta) := acc in
  if negb (has_bit mask (Z.of_nat s)) then acc
  else
    let e := source_eta weights outstanding bytes s in
    if (best =? kMaxIoSources) || f_ltb e best_eta then (Z.of_nat s, e) else acc.

Definition pick_source (weights : list float) (outstanding : list Z) (mask bytes : Z) : Z :=
  let n := Nat.min (length weights) (length outstanding) in
  (foldl (pick_step weights outstanding mask bytes) (kMaxIoSources, f64_zero) (seq 0 n)).1.

(** ** [SourceHealth] *)

Record SourceHealth := mkSourceHealth { budget : Z; consecutive : list Z; dropped_mask : Z }.
#[export] Instance SourceHealth_eta : Eta SourceHealth := fun h =>
  mkSourceHealth (budget h) (consecutive h) (dropped_mask h).

Definition SourceHealth_init (b : Z) : SourceHealth :=
  mkSourceHealth (if b =? 0 then 1 else b) (replicate 4 0) 0.

Definition routable (s : Z) : bool := (0 <? s) && (s <? kMaxIoSources).

Definition note_error (s : Z) (h : SourceHealth) : bool * SourceHealth :=
  if negb (routable s) then (false, h)
  else if has_bit (dropped_mask h) s then (false, h)
  else
    let c := u32 (default 0 (consecutive h !! Z.to_nat s) + 1) in
    let h := h <| consecutive ::= <[Z.to_nat s := c]> |> in
    if budget h <=? c then (true, h <| dropped_mask ::= fun m => set_bit m s |>) else (false, h).

Definition note_success (s : Z) (h : SourceHealth) : SourceHealth :=
  if routable s then h <| consecutive ::= <[Z.to_nat s := 0]> |> else h.

Definition drop (s : Z) (h : SourceHealth) : SourceHealth :=
  if routable s then h <| dropped_mask ::= fun m => set_bit m s |> else h.

Definition readmit (s : Z) (h : SourceHealth) : SourceHealth :=
  if routable s then
    h <| dropped_mask ::= fun m => clear_bit m s |> <| consecutive ::= <[Z.to_nat s := 0]> |>
  else h.

Definition dropped (s : Z) (h : SourceHealth) : bool :=
  (s <? kMaxIoSources) && has_bit (dropped_mask h) s.
Definition consecutive_errors (s : Z) (h : SourceHealth) : Z :=
  if s <? kMaxIoSources then default 0 (consecutive h !! Z.to_nat s) else 0.
Definition live_mask (candidates : Z) (h : SourceHealth) : Z := Z.ldiff candidates (dropped_mask h).
Definition health_reset (h : SourceHealth) : SourceHealth :=
  h <| dropped_mask := 0 |> <| consecutive ::= fmap (fun _ => 0) |>.

Inductive HealthEvent :=
| HError (s : Z) | HSuccess (s : Z) | HDrop (s : Z) | HReadmit (s : Z) | HReset.

Definition health_step (h : SourceHealth) (e : HealthEvent) : SourceHealth :=
  match e with
  | HError s => (note_error s h).2
  | HSuccess s => note_success s h
  | HDrop s => drop s h
  | HReadmit s => readmit s h
  | HReset => health_reset h
  end.

(** ** [ThermalGate] *)

Definition kMirrorCoolDropC : Z := 8.
Record ThermalGate := mkThermalGate { hot_c : Z; cool_c : Z; resting : Z }.
#[export] Instance ThermalGate_eta : Eta ThermalGate := fun g =>
  mkThermalGate (hot_c g) (cool_c g) (resting g).

Definition thermal_update (s temp_c : Z) (g : ThermalGate) : bool * ThermalGate :=
  if negb (routable s) then (false, g)
  else
    let was := has_bit (resting g) s in
    let g' := if negb was && (hot_c g <=? temp_c) then g <| resting ::= fun m => set_bit m s |>
              else if was && (temp_c <=? cool_c g) then g <| resting ::= fun m => clear_bit m s |>
              else g in
    (negb (Bool.eqb was (has_bit (resting g') s)), g').

Definition thermal_live_mask (candidates : Z) (g : ThermalGate) : Z := Z.ldiff candidates (resting g).

(** ** Keep-alive *)

Record KeepAliveState := mkKeepAlive {
  has_file : bool; ka_dropped : bool; probe_inflight : bool; real_inflight : Z;
  last_activity_ns : Z }.

Definition keepalive_due (s : KeepAliveState) (now_ns idle_ns : Z) : bool :=
  if idle_ns <=? 0 then false
  else if negb (has_file s) || ka_dropped s then false
  else if probe_inflight s then false
  else if negb (real_inflight s =? 0) then false
  else idle_ns <=? now_ns - last_activity_ns s.

(** ** Bit masks *)

#[local] Arguments has_bit : simpl never.
#[local] Arguments set_bit : simpl never.
#[local] Arguments clear_bit : simpl never.

Lemma has_bit_set m s t : 0 <= s -> 0 <= t -> has_bit (set_bit m s) t = has_bit m t || (t =? s).
Proof.
  intros. unfold has_bit, set_bit. rewrite Z.lor_spec. f_equal.
  rewrite Z.shiftl_1_l, Z.pow2_bits_eqb by lia. apply Z.eqb_sym.
Qed.

Lemma has_bit_clear m s t : 0 <= s -> 0 <= t -> has_bit (clear_bit m s) t = has_bit m t && negb (t =? s).
Proof.
  intros. unfold has_bit, clear_bit. rewrite Z.ldiff_spec. do 2 f_equal.
  rewrite Z.shiftl_1_l, Z.pow2_bits_eqb by lia. apply Z.eqb_sym.
Qed.

(** ** [pick_source] is an argmin *)

Section Pick.
Context (weights : list float) (outstanding : list Z) (mask bytes : Z).
#[local] Abbreviation e := (source_eta weights outstanding bytes).
#[local] Abbreviation candidate s := (has_bit mask (Z.of_nat s) = true).

(** [b] is the candidate of [pre] that finishes soonest, the first of equals. *)
Definition soonest (pre : list nat) (b : nat) : Prop :=
  b ∈ pre /\ candidate b /\
  forall s, s ∈ pre -> candidate s -> f_ltb (e s) (e b) = false /\ ((s < b)%nat -> e s <> e b).

Definition picked (pre : list nat) (acc : Z * float) : Prop :=
  (acc.1 = kMaxIoSources /\ forall s, s ∈ pre -> ~ candidate s) \/
  (exists b, acc = (Z.of_nat b, e b) /\ soonest pre b).

Lemma pick_step_picked pre acc s :
  Forall (fun t => (t < s)%nat) pre -> (s < 4)%nat -> picked pre acc ->
  picked (pre ++ [s]) (pick_step weights outstanding mask bytes acc s).
Proof.
  intros Hpre Hs Hp. rewrite Forall_forall in Hpre. destruct acc as [best be]. unfold pick_step.
  assert (Hin : forall t, t ∈ pre ++ [s] <-> t ∈ pre \/ t = s)
    by (intros t; rewrite elem_of_app, list_elem_of_singleton; tauto).
  destruct (has_bit mask (Z.of_nat s)) eqn:Hc; cbn [negb].
  - destruct Hp as [[Hb Hnone]|(b & E & Hbin & Hcb & Hmin)]; [|injection E as -> ->].
    + simpl in Hb. subst best. cbn. right. exists s. split; [done|]. split; [apply Hin; by right|].
      split; [done|]. intros t Ht Hct. apply Hin in Ht as [Ht| ->]; [by destruct (Hnone t)|].
      split; [apply f_ltb_irrefl|lia].
    + assert ((Z.of_nat b =? kMaxIoSources) = false) as ->.
      { apply Z.eqb_neq. unfold kMaxIoSources. specialize (Hpre b Hbin). lia. }
      cbn [orb]. destruct (f_ltb (e s) (e b)) eqn:Hlt; right.
      * exists s. split; [done|]. split; [apply Hin; by right|]. split; [done|].
        intros t Ht Hct. apply Hin in Ht as [Ht| ->]; [|split; [apply f_ltb_irrefl|lia]].
        destruct (Hmin t Ht Hct) as [Hge _]. split.
        -- apply not_true_is_false. intros Hts. by rewrite (f_ltb_trans _ _ _ Hts Hlt) in Hge.
        -- intros _ Heq. by rewrite Heq, Hlt in Hge.
      * exists b. split; [done|]. split; [apply Hin; by left|]. split; [done|].
        intros t Ht Hct. apply Hin in Ht as [Ht| ->]; [by apply Hmin|].
        split; [done|]. specialize (Hpre b Hbin). lia.
  - destruct Hp as [[Hb Hnone]|(b & E & Hbin & Hcb & Hmin)]; [|injection E as -> ->].
    + left. split; [done|]. intros t Ht. apply Hin in Ht as [Ht| ->]; [by apply Hnone|by rewrite Hc].
    + right. exists b. split; [done|]. split; [apply Hin; by left|]. split; [done|].
      intros t Ht Hct. apply Hin in Ht as [Ht| ->]; [by apply Hmin|congruence].
Qed.

Lemma pick_picked n : (n <= 4)%nat ->
  picked (seq 0 n) (foldl (pick_step weights outstanding mask bytes) (kMaxIoSources, f64_zero) (seq 0 n)).
Proof.
  induction n as [|n IH]; intros Hn.
  - left. split; [done|]. intros s Hs. by apply elem_of_nil in Hs.
  - rewrite seq_S, foldl_app. cbn [foldl]. apply pick_step_picked; [|lia|apply IH; lia].
    rewrite Forall_forall. intros t Ht%elem_of_seq. lia.
Qed.
End Pick.

(** [pick_source] is weighted least-outstanding-bytes: among the sources the mask names
    it returns one that no other would finish before, the lowest index of those that tie,
    and [kMaxIoSources] exactly when the mask names none. *)
Theorem pick_source_argmin weights outstanding mask bytes :
  let n := Nat.min (length weights) (length outstanding) in
  let e := source_eta weights outstanding bytes in
  let r := pick_source weights outstanding mask bytes in
  (n <= 4)%nat ->
  (r = kMaxIoSources <-> forall s, (s < n)%nat -> has_bit mask (Z.of_nat s) = false) /\
  (r <> kMaxIoSources -> exists b, r = Z.of_nat b /\ (b < n)%nat /\ has_bit mask (Z.of_nat b) = true /\
     forall s, (s < n)%nat -> has_bit mask (Z.of_nat s) = true ->
       f_ltb (e s) (e b) = false /\ ((s < b)%nat -> e s <> e b)).
Proof.
  intros n e r Hn. unfold r, pick_source. fold n.
  destruct (pick_picked weights outstanding mask bytes n Hn) as [[-> Hnone]|(b & -> & Hbin & Hcb & Hmin)].
  - split; [|done]. split; [|done]. intros _ s Hs. apply not_true_is_false, Hnone, elem_of_seq. lia.
  - cbn [fst]. apply elem_of_seq in Hbin. split.
    + unfold kMaxIoSources. split; [lia|]. intros Hall. rewrite (Hall b) in Hcb by lia. done.
    + intros _. exists b. split; [done|]. split; [lia|]. split; [done|].
      intros s Hs Hc. apply Hmin; [|done]. apply elem_of_seq. lia.
Qed.

(** A 4.6 GB/s drive carrying 46 MB and a 1.0 GB/s mirror carrying 4 MB: a 1 MB read goes
    to the mirror. *)
Definition example_weights : list float :=
  [f64_div (f64_of_Z 46) (f64_of_Z 10); f64_one].

Lemma pick_source_argmin_witness :
  pick_source example_weights [46000000; 4000000] 3 1000000 = 1 /\
  exists b, pick_source example_weights [46000000; 4000000] 3 1000000 = Z.of_nat b /\ (b < 2)%nat.
Proof.
  split; [vm_compute; reflexivity|].
  destruct (proj2 (pick_source_argmin example_weights [46000000; 4000000] 3 1000000 ltac:(simpl; lia)))
    as (b & Hb & Hn & _); [vm_compute; discriminate|].
  exists b. split; [exact Hb|exact Hn].
Defined.

(** ** [SourceHealth]: consecutive, not cumulative *)

(** Errors of [s] since its last success. *)
Definition streak (s : Z) (evs : list HealthEvent) : Z :=
  foldl (fun c e => match e with
                    | HError t => if t =? s then c + 1 else c
                    | HSuccess t => if t =? s then 0 else c
                    | _ => c
                    end) 0 evs.

Definition is_report (e : HealthEvent) : bool :=
  match e with HError s | HSuccess s => 0 <=? s | _ => false end.

Lemma streak_snoc s evs e : streak s (evs ++ [e]) =
  match e with
  | HError t => if t =? s then streak s evs + 1 else streak s evs
  | HSuccess t => if t =? s then 0 else streak s evs
  | _ => streak s evs
  end.
Proof. unfold streak. by rewrite foldl_snoc. Qed.

Lemma streak_nonneg s evs : 0 <= streak s evs.
Proof.
  induction evs as [|e evs IH] using rev_ind; [done|]. rewrite streak_snoc.
  destruct e; try done; case_match; lia.
Qed.

Lemma tripped_snoc s b evs e :
  (exists n, b <= streak s (take n (evs ++ [e]))) <->
  (exists n, b <= streak s (take n evs)) \/ b <= streak s (evs ++ [e]).
Proof.
  split.
  - intros [n Hn]. destruct (decide (n <= length evs)%nat).
    + left. exists n. by rewrite take_app_le in Hn.
    + right. rewrite take_ge in Hn; [done|]. rewrite length_app. simpl. lia.
  - intros [[n Hn]|Hn].
    + destruct (decide (n <= length evs)%nat).
      * exists n. by rewrite take_app_le.
      * exists (length evs). rewrite take_app_length. by rewrite take_ge in Hn by lia.
    + exists (length (evs ++ [e])). by rewrite take_ge.
Qed.

Lemma tripped_last s b evs : b <= streak s evs -> exists n, b <= streak s (take n evs).
Proof. intros. exists (length evs). by rewrite take_ge. Qed.

(** What the pair (dropped, consecutive errors) of source [s] must be after [evs]. *)
Definition tracks (s b : Z) (evs : list HealthEvent) (d : bool) (c : Z) : Prop :=
  (d = true <-> exists n, b <= streak s (take n evs)) /\ (d = false -> c = streak s evs).

Section Tracks.
Context (s b : Z) (Hb : 1 <= b < 2 ^ 32) (evs : list HealthEvent).

Lemma tracks_same e d c : streak s (evs ++ [e]) = streak s evs -> tracks s b evs d c -> tracks s b (evs ++ [e]) d c.
Proof.
  intros E [Hd Hc]. split; [|by rewrite E]. rewrite tripped_snoc, Hd. split; [by left|].
  intros [?|?]; [done|]. apply tripped_last. lia.
Qed.

Lemma tracks_reset e d c : streak s (evs ++ [e]) = 0 -> tracks s b evs d c -> tracks s b (evs ++ [e]) d 0.
Proof.
  intros E [Hd Hc]. split; [|by rewrite E]. rewrite tripped_snoc, Hd. split; [by left|].
  intros [?|?]; [done|lia].
Qed.

Lemma tracks_dropped e c : tracks s b evs true c -> tracks s b (evs ++ [e]) true c.
Proof. intros [Hd Hc]. split; [|done]. rewrite tripped_snoc, <- Hd. split; [by left|done]. Qed.

Lemma tracks_error e c : streak s (evs ++ [e]) = streak s evs + 1 -> tracks s b evs false c ->
  c + 1 < 2 ^ 32 /\ tracks s b (evs ++ [e]) (b <=? c + 1) (c + 1).
Proof.
  intros E [Hd Hc]. specialize (Hc eq_refl) as ->. pose proof (streak_nonneg s evs).
  assert (~ exists n, b <= streak s (take n evs)) as Hno by (rewrite <- Hd; done).
  assert (streak s evs < b).
  { destruct (Z.lt_ge_cases (streak s evs) b); [done|]. destruct Hno. apply tripped_last. lia. }
  split; [lia|]. split; [|by rewrite E]. rewrite tripped_snoc, E, Z.leb_le. tauto.
Qed.
End Tracks.

(** The pair the code keeps for source [s]. *)
Definition source_tracks (s b : Z) (evs : list HealthEvent) (h : SourceHealth) : Prop :=
  length (consecutive h) = 4%nat /\ budget h = b /\
  tracks s b evs (has_bit (dropped_mask h) s) (default 0 (consecutive h !! Z.to_nat s)).

Section Health.
Context (s : Z) (Hs : 0 < s < 4).

Lemma routable_iff t : routable t = true <-> 0 < t < 4.
Proof. unfold routable, kMaxIoSources. rewrite andb_true_iff, !Z.ltb_lt. lia. Qed.

Lemma consecutive_insert (l : list Z) t v : length l = 4%nat -> 0 < t < 4 ->
  default 0 (<[Z.to_nat t := v]> l !! Z.to_nat s) = if t =? s then v else default 0 (l !! Z.to_nat s).
Proof.
  intros Hl Ht. destruct (Z.eqb_spec t s) as [->|Hne].
  - by rewrite list_lookup_insert_eq by lia.
  - by rewrite list_lookup_insert_ne by lia.
Qed.

Lemma set_bit_other m t : 0 < t -> t <> s -> has_bit (set_bit m t) s = has_bit m s.
Proof. intros. rewrite has_bit_set by lia. by rewrite (proj2 (Z.eqb_neq s t)), orb_false_r by lia. Qed.

Lemma source_tracks_update b evs h t v m : length (consecutive h) = 4%nat -> budget h = b -> 0 < t < 4 ->
  tracks s b evs (has_bit m s) (if t =? s then v else default 0 (consecutive h !! Z.to_nat s)) ->
  source_tracks s b evs (mkSourceHealth (budget h) (<[Z.to_nat t := v]> (consecutive h)) m).
Proof.
  intros Hl Hb Ht Htr. split; [by simpl; rewrite length_insert|]. split; [done|]. cbn [consecutive dropped_mask].
  by rewrite consecutive_insert.
Qed.

Lemma note_error_tracks b evs t h : 1 <= b < 2 ^ 32 -> source_tracks s b evs h ->
  source_tracks s b (evs ++ [HError t]) (note_error t h).2.
Proof.
  intros Hb (Hl & Hbud & Ht). unfold note_error.
  assert (Hsame : t <> s -> streak s (evs ++ [HError t]) = streak s evs)
    by (intros; rewrite streak_snoc; by rewrite (proj2 (Z.eqb_neq t s))).
  destruct (routable t) eqn:Hr; cbn [negb snd].
  2: { split; [done|]. split; [done|]. apply tracks_same; [|done]. apply Hsame. intros ->.
       apply routable_iff in Hs. congruence. }
  apply routable_iff in Hr. destruct (decide (t = s)) as [->|Hne].
  - destruct (has_bit (dropped_mask h) s) eqn:Hbit; cbn [snd].
    + split; [done|]. split; [done|]. rewrite Hbit. by apply tracks_dropped.
    + destruct (tracks_error s b Hb evs (HError s) _ ltac:(rewrite streak_snoc, Z.eqb_refl; done) Ht) as [Hlt Htr].
      pose proof (proj2 Ht eq_refl) as Hc. pose proof (streak_nonneg s evs).
      rewrite u32_small by lia. change (budget (h <| consecutive ::= _ |>)) with (budget h). rewrite Hbud.
      destruct (b <=? _) eqn:Hle; apply (source_tracks_update _ _ h); try done; rewrite Z.eqb_refl, ?Hbit; try done.
      by rewrite has_bit_set, Z.eqb_refl, orb_true_r by lia.
  - pose proof (tracks_same s b evs _ _ _ (Hsame Hne) Ht) as Htr.
    destruct (has_bit (dropped_mask h) t); [done|].
    destruct (_ <=? _); apply (source_tracks_update _ _ h); try done;
      rewrite (proj2 (Z.eqb_neq t s)) by done; rewrite ?set_bit_other by lia; done.
Qed.

Lemma note_success_tracks b evs t h : 1 <= b < 2 ^ 32 -> source_tracks s b evs h ->
  source_tracks s b (evs ++ [HSuccess t]) (note_success t h).
Proof.
  intros Hb (Hl & Hbud & Ht). unfold note_success. destruct (decide (t = s)) as [->|Hne].
  - rewrite (proj2 (routable_iff s)) by done. apply (source_tracks_update _ _ h); try done. rewrite Z.eqb_refl.
    eapply tracks_reset; [done| |done]. by rewrite streak_snoc, Z.eqb_refl.
  - assert (Hsame : streak s (evs ++ [HSuccess t]) = streak s evs)
      by (rewrite streak_snoc; by rewrite (proj2 (Z.eqb_neq t s))).
    pose proof (tracks_same s b evs _ _ _ Hsame Ht) as Htr.
    destruct (routable t) eqn:Hr; [|done]. apply routable_iff in Hr.
    apply (source_tracks_update _ _ h); try done. by rewrite (proj2 (Z.eqb_neq t s)).
Qed.

Lemma health_run_tracks b evs : 1 <= b < 2 ^ 32 -> forallb is_report evs = true ->
  source_tracks s b evs (foldl health_step (SourceHealth_init b) evs).
Proof.
  intros Hb. induction evs as [|e evs IH] using rev_ind; intros He.
  - simpl. unfold SourceHealth_init. rewrite (proj2 (Z.eqb_neq b 0)) by lia.
    split; [done|]. split; [done|]. split.
    + unfold has_bit. cbn. rewrite Z.bits_0. split; [done|]. intros [n Hn].
      rewrite take_nil in Hn. unfold streak in Hn. simpl in Hn. lia.
    + intros _. cbn [consecutive]. rewrite lookup_replicate_2 by lia. done.
  - rewrite forallb_app in He. apply andb_true_iff in He as [He1 He2]. simpl in He2.
    rewrite foldl_snoc. destruct e; try done; [apply note_error_tracks|apply note_success_tracks]; auto.
Qed.
End Health.

Lemma primary_live_step h e : has_bit (dropped_mask h) 0 = false ->
  has_bit (dropped_mask (health_step h e)) 0 = false.
Proof.
  intros H0. destruct e as [t|t|t|t|]; cbn [health_step]; [| | | |done].
  - unfold note_error. destruct (routable t) eqn:Hr; [|done]. apply routable_iff in Hr.
    repeat case_match; cbn; try done. rewrite has_bit_set, H0, (proj2 (Z.eqb_neq 0 t)) by lia. done.
  - unfold note_success. by case_match.
  - unfold drop. destruct (routable t) eqn:Hr; [|done]. apply routable_iff in Hr. cbn.
    rewrite has_bit_set, H0, (proj2 (Z.eqb_neq 0 t)) by lia. done.
  - unfold readmit. destruct (routable t) eqn:Hr; [|done]. apply routable_iff in Hr. cbn.
    by rewrite has_bit_clear, H0 by lia.
Qed.

(** A source is dropped for consecutive failures only: after any sequence of read
    outcomes a mirror is out exactly if at some moment it had failed [budget] times since
    its last success; and whatever happens (drops, readmissions, resets) the primary stays
    a candidate. *)
Theorem source_health_consecutive s b evs : 0 < s < 4 -> 1 <= b < 2 ^ 32 ->
  (forallb is_report evs = true ->
     dropped s (foldl health_step (SourceHealth_init b) evs) = true
     <-> exists n, b <= streak s (take n evs)) /\
  (forall candidates,
     has_bit (live_mask candidates (foldl health_step (SourceHealth_init b) evs)) 0 = has_bit candidates 0).
Proof.
  intros Hs Hb. split.
  - intros He. destruct (health_run_tracks s Hs b evs Hb He) as (_ & _ & Hd & _).
    unfold dropped. rewrite (proj2 (Z.ltb_lt s kMaxIoSources)) by (unfold kMaxIoSources; lia). exact Hd.
  - intros c. unfold live_mask, has_bit at 1. rewrite Z.ldiff_spec.
    assert (H0 : has_bit (dropped_mask (foldl health_step (SourceHealth_init b) evs)) 0 = false).
    { induction evs as [|e evs IH] using rev_ind; [done|]. rewrite foldl_snoc. by apply primary_live_step. }
    unfold has_bit in *. by rewrite H0, andb_true_r.
Qed.

Lemma source_health_consecutive_witness :
  dropped 1 (foldl health_step (SourceHealth_init 3)
    [HError 1; HError 1; HSuccess 1; HError 1; HError 2; HError 1; HError 1]) = true.
Proof.
  apply (source_health_consecutive 1 3 _ ltac:(lia) ltac:(lia)); [reflexivity|].
  exists 7%nat. vm_compute. discriminate.
Defined.

(** ** [ThermalGate]: hysteresis *)

(** The last reading of [s] outside the band decides: hot rests it, cool brings it back. *)
Definition thermal_spec (s hot cool : Z) (readings : list (Z * Z)) : bool :=
  foldl (fun r p => if p.1 =? s then (if hot <=? p.2 then true else if p.2 <=? cool then false else r) else r)
    false readings.

Definition thermal_run (g : ThermalGate) (readings : list (Z * Z)) : ThermalGate :=
  foldl (fun g p => (thermal_update p.1 p.2 g).2) g readings.

Lemma thermal_update_spec g t c s r : cool_c g < hot_c g -> 0 <= s -> 0 <= t ->
  has_bit (resting g) s = (if routable s then r else false) ->
  let g' := (thermal_update t c g).2 in
  hot_c g' = hot_c g /\ cool_c g' = cool_c g /\
  has_bit (resting g') s =
    if routable s then
      (if t =? s then (if hot_c g <=? c then true else if c <=? cool_c g then false else r) else r)
    else false.
Proof.
  intros Hch Hs Ht Hb. unfold thermal_update.
  destruct (routable t) eqn:Hrt; cbn [negb snd].
  2: { split; [done|]. split; [done|]. rewrite Hb. destruct (Z.eqb_spec t s) as [->|]; [by rewrite Hrt|done]. }
  destruct (Z.eqb_spec t s) as [->|Hne].
  - rewrite Hrt in *. rewrite Hb.
    destruct r; cbn [negb andb]; destruct (Z.leb_spec (hot_c g) c), (Z.leb_spec c (cool_c g)); cbn;
      rewrite ?has_bit_set, ?has_bit_clear, ?Z.eqb_refl, ?Hb, ?orb_true_r, ?andb_false_r by lia; done || lia.
  - repeat case_match; cbn; rewrite ?has_bit_set, ?has_bit_clear, ?(proj2 (Z.eqb_neq s t)) by lia;
      rewrite ?orb_false_r, ?andb_true_r, ?Hb; try congruence; done.
Qed.

(** A mirror rests exactly when its last reading outside the (cool, hot) band was hot;
    the primary is never rested, and [update] reports a change exactly when there is one. *)
Theorem thermal_hysteresis hot cool readings s : cool < hot -> 0 <= s ->
  Forall (fun p => 0 <= p.1) readings ->
  let g := thermal_run (mkThermalGate hot cool 0) readings in
  has_bit (resting g) s = (if routable s then thermal_spec s hot cool readings else false) /\
  (forall t c, (thermal_update t c g).1 = true <-> resting (thermal_update t c g).2 <> resting g).
Proof.
  intros Hch Hs Hr g. assert (Hg : hot_c g = hot /\ cool_c g = cool /\ has_bit (resting g) s
    = if routable s then thermal_spec s hot cool readings else false).
  { unfold g, thermal_run, thermal_spec. clear g. induction readings as [|[t c] l IH] using rev_ind.
    - cbn. rewrite Z.bits_0. by destruct (routable s).
    - apply Forall_app in Hr as [Hl Ht]. apply Forall_cons in Ht as [Ht _]. simpl in Ht.
      rewrite !foldl_snoc. cbn [fst snd]. destruct (IH Hl) as (Hh & Hc & Hb).
      pose proof (thermal_update_spec _ t c s _ ltac:(rewrite Hh, Hc; done) Hs Ht Hb) as Hstep.
      rewrite Hh, Hc in Hstep. exact Hstep. }
  split; [apply Hg|]. intros t c. unfold thermal_update.
  destruct (routable t) eqn:Hrt; cbn [negb fst snd]; [|split; [done|by intros []]].
  apply routable_iff in Hrt. destruct (has_bit (resting g) t) eqn:Hb; cbn [negb andb].
  - destruct (c <=? cool_c g); cbn; [|rewrite Hb; split; [done|by intros []]].
    rewrite has_bit_clear, Z.eqb_refl, andb_false_r by lia. split; [|done]. intros _ Heq.
    assert (Hx : has_bit (clear_bit (resting g) t) t = true) by (by rewrite Heq).
    by rewrite has_bit_clear, Z.eqb_refl, andb_false_r in Hx by lia.
  - destruct (hot_c g <=? c); cbn; [|rewrite Hb; split; [done|by intros []]].
    rewrite has_bit_set, Z.eqb_refl, orb_true_r by lia. split; [|done]. intros _ Heq.
    assert (Hx : has_bit (set_bit (resting g) t) t = false) by (by rewrite Heq).
    by rewrite has_bit_set, Z.eqb_refl, orb_true_r in Hx by lia.
Qed.

Lemma thermal_hysteresis_witness :
  has_bit (resting (thermal_run (mkThermalGate 80 72 0) [(1, 63); (1, 81); (2, 60); (1, 75)])) 1 = true.
Proof.
  pose proof (proj1 (thermal_hysteresis 80 72 [(1, 63); (1, 81); (2, 60); (1, 75)] 1 ltac:(lia) ltac:(lia)
    ltac:(repeat constructor; simpl; lia))) as H. exact H.
Defined.
