(* ===== verification/Planner.v ===== *)
(** The planner ([src/store/planner.h], [planner.cpp]): turns a layer's routing decision
    into cache hits, evictions and reads.

    Completions arrive on the I/O engine's dispatcher thread, so callbacks are data here:
    a submitted run is an entry of [ps_inflight] naming its fetch, and [deliver] runs the
    callback when the engine reports the run.  [env] stands for what other threads do at a
    point where the code holds no lock. *)

From S2P Require Import Prelude Types Floats Manifest Slab ShardSet ExpertStore.

(** ** The I/O engine as the planner sees it ([storage/io_engine.h]) *)

Record IoRequest := mkIoRequest {
  q_key : ExpertKey; q_priority : IoPriority; q_file : File; q_file_off : Z; q_bytes : Z;
  q_dst : Z; q_issue_token : Z; q_deadline_layer : Z }.

(** [submit] queues a request under a new id, or refuses it. *)
Class IoEngine (E : Type) := { io_submit : IoRequest -> E -> Result Z * E }.

(** An id [submit] hands out was not handed out before. *)
Class IoEngineOk (E : Type) `{IoEngine E} := {
  io_used : E -> Z -> Prop;
  io_fresh : forall q e e' id, io_submit q e = (Ret id, e') -> ~ io_used e id /\ io_used e' id;
  io_keeps : forall q e e' r id, io_submit q e = (r, e') -> io_used e id -> io_used e' id }.

(** ** Eviction policies *)

Inductive CachePolicy := PolicyLru | PolicyScoreAwareLru | PolicyLfu | PolicyStaticPinPlusLru.

(** [make_policy(which)->name()] *)
Definition policy_name (p : CachePolicy) : string :=
  match p with
  | PolicyScoreAwareLru => "score-aware-lru(fallback:lru)"
  | PolicyLru | PolicyLfu | PolicyStaticPinPlusLru => "lru"
  end.

Definition worse (a b : ExpertSlot) : bool :=
  if negb (s_last_use_token a =? s_last_use_token b) then s_last_use_token a <? s_last_use_token b
  else Nat.ltb (s_slot a) (s_slot b).

(** Every policy there is ranks by [LruPolicy::choose_victims]. *)
Definition choose_victims (c : list ExpertSlot) (count : nat) : list nat :=
  s_slot <$> take count (std_sort worse c).

(** ** Streamed admission *)

Inductive StreamKind := StreamDrop | StreamFill | StreamResident.
Record StreamAdmit := mkStreamAdmit { sa_kind : StreamKind; sa_slot : nat; sa_addr : SlotAddress }.
Definition StreamAdmit_default : StreamAdmit := mkStreamAdmit StreamDrop 0 (mkSlotAddress 0 kNoDeviceAddress).

(** A null entry means the synthetic single-run layout. *)
Definition begin_fill_opt (k : ExpertKey) (e : option ExpertEntry) (st : ExpertStore)
  : Result (Reservation * ExpertStore) :=
  match e with
  | Some e => begin_fill k e Cached st
  | None => begin_fill_planar k Cached st
  end.

(** The key is held: touch it, or wait for its fill; [others] runs while it waits. *)
Definition admit_touch (k : ExpertKey) (stamp : Z) (others : list StoreOp) (st : ExpertStore) : ExpertStore :=
  match touch k stamp false st with
  | (true, st) => st
  | (false, st) =>
      match wait_settled k others st with
      | (true, st) => (touch k stamp false st).2
      | (false, st) => st
      end
  end.

Definition admit_new (k : ExpertKey) (stamp : Z) (e : option ExpertEntry) (st : ExpertStore)
  : Result StreamAdmit * ExpertStore :=
  let reserve st :=
    match begin_fill_opt k e st with
    | Ret (r, st) => (Ret (mkStreamAdmit StreamFill (r_slot r) (r_addr r)), st)
    | Fail ResourceExhausted => (Ret StreamAdmit_default, st)
    | Fail err => (Fail err, st)
    end in
  if free_slots st =? 0 then
    match oldest_evictable_stamp st with
    | None => (Ret StreamAdmit_default, st)
    | Some oldest =>
        if stamp <=? oldest then (Ret StreamAdmit_default, st)
        else match evict_lru st with
             | (Fail _, st) => (Ret StreamAdmit_default, st)
             | (Ret _, st) => reserve st
             end
    end
  else reserve st.

(** What follows the waiting for a key that was held in slot [i]. *)
Definition admit_held (i : nat) (k : ExpertKey) (stamp : Z) (e : option ExpertEntry) (guard : Z) (st : ExpertStore)
  : Result StreamAdmit * ExpertStore :=
  if resident st k then
    match set_guard i guard st with
    | (Fail err, st) => (Fail err, st)
    | (Ret _, st) =>
        let s := default ExpertSlot_default (slot_info i st) in
        (Ret (mkStreamAdmit StreamResident i (mkSlotAddress (s_host_ptr s) (s_dev_addr s))), st)
    end
  else admit_new k stamp e st.

Definition admit_streamed (k : ExpertKey) (stamp : Z) (e : option ExpertEntry) (guard : Z)
    (others : list StoreOp) (st : ExpertStore) : Result StreamAdmit * ExpertStore :=
  match slot_of k st with
  | Some i => admit_held i k stamp e guard (admit_touch k stamp others st)
  | None => admit_new k stamp e st
  end.

Definition finish_streamed (a : StreamAdmit) (ok : bool) (stamp : Z) (st : ExpertStore)
  : Result unit * ExpertStore :=
  match sa_kind a with
  | StreamFill => finish_fill (sa_slot a) ok stamp st
  | _ => (Ret tt, st)
  end.

(** ** The planner's state *)

Record PlannerStats := mkPlannerStats {
  pt_layers_planned : Z; pt_requests : Z; pt_hits : Z; pt_misses : Z;
  pt_evictions : Z; pt_evict_failures : Z;
  pt_prefetch_issued : Z; pt_prefetch_used : Z; pt_prefetch_wasted : Z;
  pt_miss_layers : Z; pt_wait_calls : Z; pt_stall_waits : Z; pt_joined_fills : Z;
  pt_backfill_issued : Z; pt_backfill_done : Z; pt_backfill_failed : Z;
  pt_streamed_resident : Z; pt_streamed_filled : Z; pt_streamed_dropped : Z;
  pt_p0_reserve_failed : Z; pt_p0_submit_failed : Z; pt_p0_io_failed : Z }.
#[export] Instance PlannerStats_eta : Eta PlannerStats := fun s =>
  mkPlannerStats (pt_layers_planned s) (pt_requests s) (pt_hits s) (pt_misses s)
    (pt_evictions s) (pt_evict_failures s) (pt_prefetch_issued s) (pt_prefetch_used s)
    (pt_prefetch_wasted s) (pt_miss_layers s) (pt_wait_calls s) (pt_stall_waits s)
    (pt_joined_fills s) (pt_backfill_issued s) (pt_backfill_done s) (pt_backfill_failed s)
    (pt_streamed_resident s) (pt_streamed_filled s) (pt_streamed_dropped s)
    (pt_p0_reserve_failed s) (pt_p0_submit_failed s) (pt_p0_io_failed s).
Definition PlannerStats_default : PlannerStats :=
  mkPlannerStats 0 0 0 0 0 0 0 0 0 0 0 0 0 0 0 0 0 0 0 0 0 0.

(** What [on_done] a fetch was given: none, a layer's group, or a backfill pass. *)
Inductive OnDone := DoneNone | DoneGroup (g : nat) | DoneBackfill (b : nat).

(** [FetchState], with what the run callbacks captured. *)
Record FetchState := mkFetchState { ft_slot : nat; ft_stamp : Z; ft_ok : bool; ft_cb : OnDone }.
#[export] Instance FetchState_eta : Eta FetchState := fun f =>
  mkFetchState (ft_slot f) (ft_stamp f) (ft_ok f) (ft_cb f).

Record FetchGroup := mkFetchGroup { gr_pending : Z; gr_failed : bool }.
#[export] Instance FetchGroup_eta : Eta FetchGroup := fun g => mkFetchGroup (gr_pending g) (gr_failed g).

Record Backfill := mkBackfill {
  bf_order : list ExpertKey; bf_next : nat; bf_inflight : Z; bf_max_inflight : Z;
  bf_keep : bool; bf_active : bool }.
#[export] Instance Backfill_eta : Eta Backfill := fun b =>
  mkBackfill (bf_order b) (bf_next b) (bf_inflight b) (bf_max_inflight b) (bf_keep b) (bf_active b).

(** Demand stamps start here; [1, kDemandStampBase] is free for backfill. *)
Definition kDemandStampBase : Z := 2 ^ 32.

Record Planner (E : Type) := mkPlanner {
  ps_store : ExpertStore; ps_io : E; ps_manifest : Manifest; ps_shards : ShardSet;
  ps_policy : CachePolicy; access_clock : Z; ps_stats : PlannerStats;
  ps_fetches : list FetchState; ps_groups : list FetchGroup; ps_backfills : list Backfill;
  ps_current : option nat; ps_inflight : gmap Z nat }.
Arguments mkPlanner {E}.
Arguments ps_store {E}. Arguments ps_io {E}. Arguments ps_manifest {E}. Arguments ps_shards {E}.
Arguments ps_policy {E}. Arguments access_clock {E}. Arguments ps_stats {E}.
Arguments ps_fetches {E}. Arguments ps_groups {E}. Arguments ps_backfills {E}.
Arguments ps_current {E}. Arguments ps_inflight {E}.
#[export] Instance Planner_eta {E} : Eta (Planner E) := fun p =>
  mkPlanner (ps_store p) (ps_io p) (ps_manifest p) (ps_shards p) (ps_policy p) (access_clock p)
    (ps_stats p) (ps_fetches p) (ps_groups p) (ps_backfills p) (ps_current p) (ps_inflight p).

(** [init] on freshly opened shards. *)
Definition planner_init {E} (st : ExpertStore) (io : E) (m : Manifest) (ss : ShardSet)
    (policy : CachePolicy) : Result (Planner E) :=
  if bool_decide (ss_files ss = []) then Fail InvalidArgument
  else if negb (Nat.eqb (length (ss_files ss)) (length (files m))) then Fail InvalidArgument
  else Ret (mkPlanner st io m ss policy kDemandStampBase PlannerStats_default [] [] [] None ∅).

Section Planner.
Context {E : Type} `{IoEngine E}.
#[local] Abbreviation P := (Planner E).

Definition pstat (f : PlannerStats -> PlannerStats) (p : P) : P := p <| ps_stats ::= f |>.
Definition on_store (f : ExpertStore -> ExpertStore) (p : P) : P := p <| ps_store ::= f |>.
Definition in_group (g : nat) (f : FetchGroup -> FetchGroup) (p : P) : P :=
  p <| ps_groups ::= alter f g |>.
Definition in_backfill (b : nat) (f : Backfill -> Backfill) (p : P) : P :=
  p <| ps_backfills ::= alter f b |>.

(** [access_clock_.fetch_add(1) + 1] *)
Definition next_stamp (p : P) : Z * P :=
  (u64 (access_clock p + 1), p <| access_clock ::= fun c => u64 (c + 1) |>).
(** Returns the first of [n] reserved stamps. *)
Definition reserve_stamps (n : Z) (p : P) : Z * P :=
  (u64 (access_clock p + 1), p <| access_clock ::= fun c => u64 (c + n) |>).

(** ** Making room *)

Fixpoint evict_all (victims : list nat) (count freed : nat) (p : P) : nat * P :=
  match victims with
  | [] => (freed, p)
  | v :: victims =>
      if Nat.leb count freed then (freed, p)
      else match evict v (ps_store p) with
           | (Ret _, st) => evict_all victims count (S freed) (p <| ps_store := st |>)
           | (Fail _, st) =>
               evict_all victims count freed
                 (pstat (fun c => c <| pt_evict_failures ::= inc64 |>) (p <| ps_store := st |>))
           end
  end.

Definition reclaim (count : nat) (p : P) : nat * P :=
  if Nat.eqb count 0 then (O, p)
  else
    let candidates := evictable (ps_store p) in
    if bool_decide (candidates = []) then (O, p)
    else
      let victims := choose_victims candidates (Nat.min (length candidates) (count * 2)) in
      let '(freed, p) := evict_all victims count 0 p in
      (freed, pstat (fun c => c <| pt_evictions ::= fun x => u64 (x + Z.of_nat freed) |>) p).

(** ** Fetching one expert *)

Record Fetch := mkFetch { fe_slot : nat; fe_ids : list Z; fe_run_bytes : Z }.

(** Hands one run to the engine; its callback captures fetch [fid]. *)
Definition submit_run (fid : nat) (k : ExpertKey) (prio : IoPriority) (token deadline : Z)
    (run : FillRun) (p : P) : Result Z * P :=
  match require (ps_shards p) (fr_file run) with
  | Fail e => (Fail e, p)
  | Ret f =>
      match io_submit (mkIoRequest k prio f (fr_file_off run) (fr_bytes run) (fr_dst run) token deadline)
              (ps_io p) with
      | (Fail e, io) => (Fail e, p <| ps_io := io |>)
      | (Ret id, io) => (Ret id, p <| ps_io := io |> <| ps_inflight ::= <[id := fid]> |>)
      end
  end.

Fixpoint submit_runs (fid : nat) (k : ExpertKey) (prio : IoPriority) (token deadline : Z)
    (runs : list FillRun) (p : P) : list Z * Z * option Err * P :=
  match runs with
  | [] => ([], 0, None, p)
  | run :: runs =>
      match submit_run fid k prio token deadline run p with
      | (Fail e, p) => ([], 0, Some e, p)
      | (Ret id, p) =>
          let '(ids, bytes, err, p) := submit_runs fid k prio token deadline runs p in
          (id :: ids, u64 (fr_bytes run + bytes), err, p)
      end
  end.

(** [begin_fill], once more after [reclaim(1)] when the cache is full. *)
Definition reserve_for (k : ExpertKey) (e : ExpertEntry) (p : P) : Result Reservation * P :=
  match begin_fill k e Cached (ps_store p) with
  | Ret (r, st) => (Ret r, p <| ps_store := st |>)
  | Fail ResourceExhausted =>
      match reclaim 1 p with
      | (O, p) => (Fail ResourceExhausted, p)
      | (_, p) =>
          match begin_fill k e Cached (ps_store p) with
          | Ret (r, st) => (Ret r, p <| ps_store := st |>)
          | Fail err => (Fail err, p)
          end
      end
  | Fail err => (Fail err, p)
  end.

(** [stamp_in] or the next tick; then the runs are submitted one by one. *)
Definition fetch (k : ExpertKey) (prio : IoPriority) (token deadline : Z) (on_done : OnDone)
    (stamp_in : Z) (p : P) : Result Fetch * P :=
  match require_expert (ps_manifest p) k with
  | Fail err => (Fail err, p)
  | Ret e =>
      match reserve_for k e p with
      | (Fail err, p) => (Fail err, p)
      | (Ret res, p) =>
          let '(stamp, p) := if stamp_in =? 0 then next_stamp p else (stamp_in, p) in
          let fid := length (ps_fetches p) in
          let p := p <| ps_fetches ::= fun l => l ++ [mkFetchState (r_slot res) stamp true on_done] |> in
          let '(ids, bytes, err, p) := submit_runs fid k prio token deadline (r_runs res) p in
          match err with
          | Some err =>
              let p := p <| ps_fetches ::= alter (fun f => f <| ft_ok := false |>) fid |> in
              (* one [finish_run] for each run that was never handed over *)
              (Fail err, on_store (fun st =>
                 Nat.iter (length (r_runs res) - length ids)
                   (fun st => (finish_run (r_slot res) false stamp st).2) st) p)
          | None =>
              let p := match prio with
                       | Lookahead | Types.Backfill => pstat (fun c => c <| pt_prefetch_issued ::= inc64 |>) p
                       | _ => p
                       end in
              (Ret (mkFetch (r_slot res) ids bytes), p)
          end
      end
  end.

(** ** Backfill *)

(** [backfill_pump]; [env n] runs between the [n]-th choice of a key, made under the
    pass's own mutex, and the fetch of that key. *)
Fixpoint backfill_pump (env : nat -> P -> P) (fuel : nat) (b : nat) (p : P) : P :=
  match fuel with
  | O => p
  | S fuel =>
      match ps_backfills p !! b with
      | None => p
      | Some bf =>
          if negb (bf_active bf) || (bf_max_inflight bf <=? bf_inflight bf) then p
          else if (free_slots (ps_store p) =? 0) || Nat.leb (length (bf_order bf)) (bf_next bf) then
            if bf_inflight bf =? 0 then in_backfill b (fun x => x <| bf_active := false |>) p else p
          else
            let rank := bf_next bf in
            let key := default (mkKey 0 0) (bf_order bf !! rank) in
            let p := in_backfill b (fun x => x <| bf_next ::= S |>) p in
            if bool_decide (is_Some (slot_of key (ps_store p))) then backfill_pump env fuel b p
            else
              let stamp := if bf_keep bf then u64 (kDemandStampBase + Z.of_nat rank)
                           else u64 (kDemandStampBase - 1 - Z.of_nat rank) in
              let p := in_backfill b (fun x => x <| bf_inflight ::= inc32 |>) p in
              match fetch key Types.Backfill 0 0 (DoneBackfill b) stamp (env rank p) with
              | (Ret _, p) =>
                  backfill_pump env fuel b (pstat (fun c => c <| pt_backfill_issued ::= inc64 |>) p)
              | (Fail err, p) =>
                  let p := in_backfill b (fun x => x <| bf_inflight ::= dec32 |>) p in
                  if decide (err = AlreadyExists) then backfill_pump env fuel b p
                  else in_backfill b (fun x => x <| bf_active := false |>)
                         (pstat (fun c => c <| pt_backfill_failed ::= inc64 |>) p)
              end
      end
  end.

(** Every turn of the loop that does not return consumes one key. *)
Definition pump_fuel (b : nat) (p : P) : nat :=
  match ps_backfills p !! b with
  | Some bf => S (length (bf_order bf) - bf_next bf)
  | None => O
  end.
Definition pump (env : nat -> P -> P) (b : nat) (p : P) : P := backfill_pump env (pump_fuel b p) b p.
End Planner.

(** ** Layers *)

Record RouteDecision := mkRouteDecision {
  rd_layer : Z; rd_chosen : list Z; rd_near_ids : list Z; rd_near_scores : list float;
  rd_guard_hits : Z }.

Record LayerPlan := mkLayerPlan {
  lp_layer : Z; lp_hits : list ExpertKey; lp_misses : list ExpertKey; lp_issued : list Z;
  lp_miss_bytes : Z; lp_group : nat; lp_joined : list (ExpertKey * Z) }.
#[export] Instance LayerPlan_eta : Eta LayerPlan := fun l =>
  mkLayerPlan (lp_layer l) (lp_hits l) (lp_misses l) (lp_issued l) (lp_miss_bytes l) (lp_group l)
    (lp_joined l).

Section Layers.
Context {E : Type} `{IoEngine E}.
#[local] Abbreviation P := (Planner E).

(** The callback the user of a fetch passed, run once its slot has settled. *)
Definition run_on_done (env : nat -> P -> P) (cb : OnDone) (ok : bool) (p : P) : P :=
  match cb with
  | DoneNone => p
  | DoneGroup g =>
      in_group g (fun x => x <| gr_pending ::= dec32 |> <| gr_failed ::= fun f => f || negb ok |>)
        (if ok then p else pstat (fun c => c <| pt_p0_io_failed ::= inc64 |>) p)
  | DoneBackfill b =>
      let p := in_backfill b (fun x => x <| bf_inflight ::= dec32 |>) p in
      pump env b (pstat (fun c => if ok then c <| pt_backfill_done ::= inc64 |>
                                  else c <| pt_backfill_failed ::= inc64 |>) p)
  end.

(** The engine reports request [id]: the run callback of [fetch]. *)
Definition deliver (env : nat -> P -> P) (id : Z) (ok : bool) (p : P) : P :=
  match ps_inflight p !! id with
  | None => p
  | Some fid =>
      let p := p <| ps_inflight ::= delete id |> in
      match ps_fetches p !! fid with
      | None => p
      | Some f =>
          let p := if ok then p else p <| ps_fetches ::= alter (fun f => f <| ft_ok := false |>) fid |> in
          let all_ok := ft_ok f && ok in
          match finish_run (ft_slot f) ok (ft_stamp f) (ps_store p) with
          | (Ret true, st) => run_on_done env (ft_cb f) all_ok (p <| ps_store := st |>)
          | (_, st) => p <| ps_store := st |>
          end
      end
  end.

Definition plan_miss (k : ExpertKey) (token layer : Z) (plan : LayerPlan) (p : P) : LayerPlan * P :=
  let lru := bool_decide (policy_name (ps_policy p) = "lru") in
  let p :=
    if free_slots (ps_store p) =? 0 then
      if lru then
        match evict_lru (ps_store p) with
        | (Ret _, st) => pstat (fun c => c <| pt_evictions ::= inc64 |>) (p <| ps_store := st |>)
        | (Fail _, st) => p <| ps_store := st |>
        end
      else (reclaim 1 p).2
    else p in
  let p := in_group (lp_group plan) (fun x => x <| gr_pending ::= inc32 |>) p in
  match fetch k BlockingMiss token layer (DoneGroup (lp_group plan)) 0 p with
  | (Ret f, p) =>
      (plan <| lp_issued ::= fun l => l ++ fe_ids f |> <| lp_miss_bytes ::= fun b => u64 (b + fe_run_bytes f) |>, p)
  | (Fail err, p) =>
      let p := pstat (fun c => if decide (err = ResourceExhausted)
                               then c <| pt_p0_reserve_failed ::= inc64 |>
                               else c <| pt_p0_submit_failed ::= inc64 |>) p in
      (plan, in_group (lp_group plan) (fun x => x <| gr_pending ::= dec32 |>) p)
  end.

(** One chosen expert, in the gate's order. *)
Definition plan_key (fixed : bool) (k : ExpertKey) (token layer guard : Z) (plan : LayerPlan) (p : P)
  : LayerPlan * P :=
  let '(stamp, p) := if fixed then (0, p) else next_stamp p in
  match lookup k stamp guard (ps_store p) with
  | (Some _, st) => (plan <| lp_hits ::= fun l => l ++ [k] |>, p <| ps_store := st |>)
  | (None, st) =>
      let p := p <| ps_store := st |> in
      let plan := plan <| lp_misses ::= fun l => l ++ [k] |> in
      if fixed && (free_slots (ps_store p) =? 0) then (plan, p)
      else if bool_decide (is_Some (slot_of k (ps_store p))) then
        let '(stamp, p) := next_stamp p in
        (plan <| lp_joined ::= fun l => l ++ [(k, stamp)] |>,
         pstat (fun c => c <| pt_joined_fills ::= inc64 |>) p)
      else plan_miss k token layer plan p
  end.

(** [env n] runs before the [n]-th chosen expert is looked up. *)
Fixpoint plan_keys (env : nat -> P -> P) (n : nat) (fixed : bool) (ids : list Z) (token layer guard : Z)
    (plan : LayerPlan) (p : P) : LayerPlan * P :=
  match ids with
  | [] => (plan, p)
  | id :: ids =>
      let '(plan, p) := plan_key fixed (mkKey (u16 layer) id) token layer guard plan (env n p) in
      plan_keys env (S n) fixed ids token layer guard plan p
  end.

(** [note_heat]'s default alpha, [0.125f]. *)
Definition f32_eighth : float := f32_lit 1 (-3).

Definition note_near (layer : Z) (ids : list Z) (scores : list float) (st : ExpertStore) : ExpertStore :=
  foldl (fun st '(id, score) => note_heat (mkKey (u16 layer) id) score f32_eighth st) st (zip ids scores).

Definition plan_layer (env : nat -> P -> P) (route : RouteDecision) (token : Z) (p : P) : LayerPlan * P :=
  let p := on_store (note_near (rd_layer route) (rd_near_ids route) (rd_near_scores route)) p in
  let g := length (ps_groups p) in
  let p := p <| ps_groups ::= fun l => l ++ [mkFetchGroup 0 false] |> in
  let '(plan, p) := plan_keys env 0 (fixed_cache (ps_store p)) (rd_chosen route) token (rd_layer route)
                      (rd_guard_hits route) (mkLayerPlan (rd_layer route) [] [] [] 0 g []) p in
  (plan, pstat (fun c =>
     let c := c <| pt_layers_planned ::= inc64 |>
                <| pt_requests ::= fun x => u64 (x + Z.of_nat (length (rd_chosen route))) |>
                <| pt_hits ::= fun x => u64 (x + Z.of_nat (length (lp_hits plan))) |>
                <| pt_misses ::= fun x => u64 (x + Z.of_nat (length (lp_misses plan))) |> in
     if bool_decide (lp_misses plan = []) then c else c <| pt_miss_layers ::= inc64 |>) p).

(** ** Waiting: [events] are the completions that arrive before the timeout. *)

Definition group_pending (g : nat) (p : P) : bool :=
  match ps_groups p !! g with Some x => negb (gr_pending x =? 0) | None => false end.

Fixpoint wait_group (env : nat -> P -> P) (g : nat) (events : list (Z * bool)) (p : P)
  : Result unit * list (Z * bool) * P :=
  if group_pending g p then
    match events with
    | [] => (Fail Io, [], p)
    | (id, ok) :: events => wait_group env g events (deliver env id ok p)
    end
  else
    match ps_groups p !! g with
    | Some x => (if gr_failed x then Fail Io else Ret tt, events, p)
    | None => (Ret tt, events, p)
    end.

(** [wait_settled] on the planner's state. *)
Fixpoint wait_key (env : nat -> P -> P) (k : ExpertKey) (events : list (Z * bool)) (p : P)
  : bool * list (Z * bool) * P :=
  if is_filling k (ps_store p) then
    match events with
    | [] => (resident (ps_store p) k, [], p)
    | (id, ok) :: events => wait_key env k events (deliver env id ok p)
    end
  else (resident (ps_store p) k, events, p).

Fixpoint wait_joined (env : nat -> P -> P) (joined : list (ExpertKey * Z)) (events : list (Z * bool)) (p : P)
  : Result unit * P :=
  match joined with
  | [] => (Ret tt, p)
  | (k, stamp) :: joined =>
      match wait_key env k events p with
      | (false, _, p) => (Fail Io, p)
      | (true, events, p) => wait_joined env joined events (on_store (fun st => (touch k stamp false st).2) p)
      end
  end.

Definition wait_layer (env : nat -> P -> P) (plan : LayerPlan) (events : list (Z * bool)) (p : P)
  : Result unit * P :=
  let count := pstat (fun c =>
    let c := c <| pt_wait_calls ::= inc64 |> in
    if bool_decide (lp_misses plan = []) then c else c <| pt_stall_waits ::= inc64 |>) in
  match wait_group env (lp_group plan) events p with
  | (Fail e, _, p) => (Fail e, count p)
  | (Ret _, events, p) =>
      let '(r, p) := wait_joined env (lp_joined plan) events p in (r, count p)
  end.

Definition wait_expert (env : nat -> P -> P) (k : ExpertKey) (events : list (Z * bool)) (p : P) : bool * P :=
  let '(settled, _, p) := wait_key env k events p in
  (settled && resident (ps_store p) k,
   pstat (fun c => c <| pt_wait_calls ::= inc64 |> <| pt_stall_waits ::= inc64 |>) p).

(** ** The rest of the interface *)

(** [admit_touch] on the planner's state: the completions in [events] arrive while it waits. *)
Definition planner_touch (env : nat -> P -> P) (k : ExpertKey) (stamp : Z) (events : list (Z * bool)) (p : P) : P :=
  match touch k stamp false (ps_store p) with
  | (true, st) => p <| ps_store := st |>
  | (false, _) =>
      match wait_key env k events p with
      | (true, _, p) => on_store (fun st => (touch k stamp false st).2) p
      | (false, _, p) => p
      end
  end.
Definition planner_admit (env : nat -> P -> P) (k : ExpertKey) (stamp guard : Z) (events : list (Z * bool)) (p : P)
  : Result StreamAdmit * P :=
  match require_expert (ps_manifest p) k with
  | Fail e => (Fail e, p)
  | Ret e =>
      let '(a, p) :=
        match slot_of k (ps_store p) with
        | Some i =>
            let p := planner_touch env k stamp events p in
            let '(a, st) := admit_held i k stamp (Some e) guard (ps_store p) in (a, p <| ps_store := st |>)
        | None => let '(a, st) := admit_new k stamp (Some e) (ps_store p) in (a, p <| ps_store := st |>)
        end in
      match a with
      | Fail _ => (a, p)
      | Ret x =>
          (a, pstat (fun c => match sa_kind x with
                              | StreamResident => c <| pt_streamed_resident ::= inc64 |>
                              | StreamFill => c <| pt_streamed_filled ::= inc64 |>
                              | StreamDrop => c <| pt_streamed_dropped ::= inc64 |>
                              end) p)
      end
  end.

Definition planner_finish_streamed (a : StreamAdmit) (ok : bool) (stamp : Z) (p : P) : Result unit * P :=
  let '(r, st) := finish_streamed a ok stamp (ps_store p) in (r, p <| ps_store := st |>).

Definition planner_pin (k : ExpertKey) (p : P) : Result unit * P :=
  let '(r, st) := pin k (ps_store p) in (r, p <| ps_store := st |>).

Definition stop_backfill (p : P) : P :=
  match ps_current p with
  | Some b => in_backfill b (fun x => x <| bf_active := false |>) p
  | None => p
  end.

Definition start_backfill (env : nat -> P -> P) (order : list ExpertKey) (inflight : Z) (keep : bool) (p : P)
  : Result unit * P :=
  let p := stop_backfill p in
  if kDemandStampBase <=? Z.of_nat (length order) then (Fail InvalidArgument, p)
  else
    let b := length (ps_backfills p) in
    let p := p <| ps_backfills ::= fun l => l ++ [mkBackfill order 0 0 (Z.max 1 inflight) keep true] |>
               <| ps_current := Some b |> in
    (Ret tt, pump env b p).

Definition backfill_active (p : P) : bool :=
  match ps_current p with
  | Some b => match ps_backfills p !! b with Some x => bf_active x | None => false end
  | None => false
  end.

Definition prefetch_lookahead (from_layer token : Z) (p : P) : Result Z := Fail Unimplemented.
Definition backfill (token : Z) (p : P) : Result Z := Fail Unimplemented.
Definition planner_reset_stats (p : P) : P := p <| ps_stats := PlannerStats_default |>.
End Layers.
