(* ===== verification/PlannerInv.v ===== *)
(** The planner's invariant: every slot being filled is owed exactly the runs the I/O engine
    still has in flight for it, whatever fails on the way, so no slot is stuck in Filling. *)

From S2P Require Import Prelude Types Floats Manifest Slab ShardSet ExpertStore StoreInv StoreProps Planner.

(** ** Runs a slot still waits for *)

Definition owed (st : ExpertStore) (i : nat) : Z :=
  match slots st !! i with
  | Some s => if decide (s_state s = Filling) then s_runs_total s - s_runs_done s else 0
  | None => 0
  end.

Lemma owed_nonneg st i : store_ok st -> 0 <= owed st i.
Proof.
  intros Hok. unfold owed. destruct (slots st !! i) as [s|] eqn:Hs; [|done]. case_decide as Hf; [|done].
  destruct (ok_runs _ Hok _ _ Hs Hf). lia.
Qed.

Definition neither (op : StoreOp) : Prop := (forall k, ~ begins op k) /\ (forall i, ~ finishes op i).

(** Operations that neither begin nor finish fills leave every debt alone. *)
Lemma owed_neither op st i : store_ok st -> op_typed op -> neither op -> owed (store_step op st) i = owed st i.
Proof.
  intros Hok Hop [Hb Hf]. unfold owed. destruct (slots st !! i) as [s|] eqn:Hs.
  - destruct (store_step_steps op st i s Hok Hop Hs) as (t & -> & Hstep & _).
    destruct Hstep as [t []| |? ? ? ->| | |t ? He].
    + by rewrite kp_state, kp_total, kp_done.
    + by destruct (Hb (s_key t)).
    + by destruct (Hf i).
    + by destruct (Hf i).
    + by destruct (Hf i).
    + apply is_evictable_spec in He as (Hr & _). rewrite Hr. by match goal with H : s_state t = Free |- _ => rewrite H end.
  - assert (slots (store_step op st) !! i = None) as ->; [|done].
    apply lookup_ge_None in Hs. apply lookup_ge_None. by rewrite store_step_length.
Qed.

Lemma owed_begin_fill k e t st r st' i : store_ok st -> key_ok k -> begin_fill k e t st = Ret (r, st') ->
  owed st (r_slot r) = 0 /\
  owed st' i = if decide (i = r_slot r) then Z.of_nat (length (ee_runs e)) else owed st i.
Proof.
  intros Hok Hk Hb. pose proof (begin_fill_filling _ _ _ _ _ _ Hok Hk Hb) as (s' & Hs' & Hf & _ & Hn & Hd & _).
  apply begin_fill_inv in Hb as (j & a & st1 & Hr & _ & _ & -> & ->). cbn [r_slot] in *.
  destruct (reserve_move _ _ _ _ _ _ Hok Hk Hr) as (s & Hs & Hfree & _ & _ & _ & _ & Hmv).
  split; [unfold owed; by rewrite Hs, Hfree|]. case_decide as Hi; [subst|].
  - unfold owed. rewrite Hs'. rewrite decide_True by done. simpl in Hd. lia.
  - unfold owed, upd_stats, upd_slot. cbn. rewrite list_lookup_alter_ne by done.
    by rewrite (mv_slots _ _ _ _ _ Hmv), list_lookup_insert_ne by done.
Qed.

(** Settling slot [i] ends its fill. *)
Lemma settle_locked_slots i s b token st : store_core st -> slots st !! i = Some s -> s_state s = Filling ->
  exists t, slots (settle_locked i b token st) = <[i := t]> (slots st) /\ s_state t <> Filling.
Proof.
  intros Hok Hs Hf. destruct b.
  - exists (settled_slot token s). by rewrite (mv_slots _ _ _ _ _ (settle_ok_move i s token st Hok Hs Hf)).
  - exists (released_slot s). by rewrite (mv_slots _ _ _ _ _ (release_failed_move i s token st Hok Hs Hf)).
Qed.

(** What a report does to the slots, settling or not. *)
Lemma finish_run_effect st i s ok token : store_ok st -> slots st !! i = Some s -> s_state s = Filling ->
  exists t, slots (finish_run i ok token st).2 = <[i := t]> (slots st) /\
    ((finish_run i ok token st).1 = Ret false /\ s_state t = Filling /\
       s_runs_total t - s_runs_done t = s_runs_total s - s_runs_done s - 1 /\ 0 < s_runs_total t - s_runs_done t \/
     (finish_run i ok token st).1 = Ret true /\ s_state t <> Filling /\ s_runs_total s - s_runs_done s = 1).
Proof.
  intros Hok Hs Hf. destruct (ok_runs _ Hok _ _ Hs Hf) as [Hp Hmax].
  assert (Hinc : inc32 (s_runs_done s) = s_runs_done s + 1)
    by (apply u32_small; unfold kMaxExpertRuns, kExpertParts in Hmax; lia).
  unfold finish_run. rewrite Hs, bool_decide_true by done. cbn [negb].
  destruct (Z.leb_spec (s_runs_total s) (s_runs_done s)); [lia|].
  set (s1 := s <| s_runs_done ::= inc32 |> <| s_run_failed ::= fun f => f || negb ok |>).
  change (s_runs_done s1) with (inc32 (s_runs_done s)). change (s_runs_total s1) with (s_runs_total s).
  set (st1 := upd_stats (fun c => c <| st_runs_done ::= inc64 |>) (upd_slot i (fun _ => s1) st)).
  assert (Hslots : slots st1 = <[i := s1]> (slots st)) by (apply (alter_insert_slot (fun _ => s1) _ _ _ Hs)).
  destruct (Z.ltb_spec (inc32 (s_runs_done s)) (s_runs_total s)); cbn [fst snd].
  - exists s1. split; [done|]. left. split; [done|]. split; [done|].
    change (s_runs_done s1) with (inc32 (s_runs_done s)). change (s_runs_total s1) with (s_runs_total s). lia.
  - assert (Hs1 : slots st1 !! i = Some s1) by (rewrite Hslots; by eapply lookup_insert_slot_eq).
    assert (Hok1 : store_core st1).
    { apply store_core_upd_stats; [frame|]. eapply (store_core_frame false); [apply Hok|].
      apply upd_slot_frame. intros u Hu. simplify_eq. by split. }
    destruct (settle_locked_slots i s1 (negb (s_run_failed s1)) token st1 Hok1 Hs1 Hf) as (t & Ht & Htf).
    exists t. rewrite Ht, Hslots, list_insert_insert_eq. split; [done|]. right. split; [done|]. split; [done|lia].
Qed.

(** A whole fill reported at once: the slot owes nothing any more, and no other slot changes. *)
Lemma finish_fill_settles st i s ok token : store_ok st -> slots st !! i = Some s -> s_state s = Filling ->
  exists st', finish_fill i ok token st = (Ret tt, st') /\ store_ok st' /\ (exists t, slots st' !! i = Some t /\ s_state t <> Filling) /\
    forall j, owed st' j = if decide (j = i) then 0 else owed st j.
Proof.
  intros Hok Hs Hf. pose proof (finish_fill_ok i ok token st Hok) as Hok'. unfold finish_fill in *. rewrite Hs, bool_decide_true in * by done. cbn [negb snd] in *.
  eexists. split; [reflexivity|]. split; [exact Hok'|].
  match goal with |- context [settle_locked i ?b token ?q] => set (st1 := q); set (ok' := b) end.
  set (s1 := s <| s_runs_done := s_runs_total s |>).
  assert (Hslots : slots st1 = <[i := s1]> (slots st)) by (apply (alter_insert_slot (fun s => s <| s_runs_done := s_runs_total s |>) _ _ _ Hs)).
  assert (Hs1 : slots st1 !! i = Some s1) by (rewrite Hslots; by eapply lookup_insert_slot_eq).
  assert (Hok1 : store_core st1).
  { eapply (store_core_frame false); [apply (store_core_upd_stats (fun c => c <| st_runs_done ::= fun x => u64 (x + u32 (s_runs_total s - s_runs_done s)) |>) st); [frame|apply Hok]|].
    apply upd_slot_frame. intros u Hu. cbn in Hu. simplify_eq. by split. }
  destruct (settle_locked_slots i s1 ok' token st1 Hok1 Hs1 Hf) as (t & Ht & Htf).
  rewrite Hslots, list_insert_insert_eq in Ht. split; [exists t; by rewrite Ht, (lookup_insert_slot_eq _ _ _ _ Hs)|].
  intros j. unfold owed. rewrite Ht. case_decide as Hj; [subst|by rewrite list_lookup_insert_ne].
  rewrite (lookup_insert_slot_eq _ _ _ _ Hs). by rewrite decide_False.
Qed.

Lemma owed_pos st i : 0 < owed st i ->
  exists s, slots st !! i = Some s /\ s_state s = Filling /\ owed st i = s_runs_total s - s_runs_done s.
Proof.
  unfold owed. destruct (slots st !! i) as [s|]; [|done]. case_decide; [|done]. eauto.
Qed.

Lemma owed_finish_run st i j ok token : store_ok st -> 0 < owed st i ->
  owed (finish_run i ok token st).2 j = if decide (j = i) then owed st i - 1 else owed st j.
Proof.
  intros Hok Ho. destruct (owed_pos _ _ Ho) as (s & Hs & Hf & ->).
  destruct (finish_run_effect st i s ok token Hok Hs Hf) as (t & Ht & Heff).
  unfold owed at 1. rewrite Ht. case_decide as Hj; [subst|].
  - rewrite (lookup_insert_slot_eq _ _ _ _ Hs). destruct Heff as [(_ & Htf & Hd & _)|(_ & Htf & Hd)].
    + by rewrite decide_True.
    + rewrite decide_False by done. lia.
  - by rewrite list_lookup_insert_ne.
Qed.

(** ** The invariant *)

Section Invariant.
Context {E : Type} `{IoEngineOk E}.
#[local] Abbreviation P := (Planner E).
(** The runs of each slot that callers of [admit_streamed] hold: they read the expert themselves
    and report it with [finish_streamed]. *)
Context (held : nat -> Z).

Definition fetch_slot (p : P) (fid : nat) : option nat := ft_slot <$> ps_fetches p !! fid.

(** Requests in flight for slot [i]. *)
Definition in_flight_of (fs : list FetchState) (m : gmap Z nat) (i : nat) : Z :=
  Z.of_nat (size (filter (fun x : Z * nat => ft_slot <$> fs !! x.2 = Some i) m)).
Definition in_flight (p : P) (i : nat) : Z := in_flight_of (ps_fetches p) (ps_inflight p) i.

(** Slot [i] is owed [d] runs more than are held or in flight; every other slot exactly those.
    What a caller holds is not in flight. *)
Record planner_ok_but (i : nat) (d : Z) (p : P) : Prop := {
  po_store : store_ok (ps_store p);
  po_ids : forall id fid, ps_inflight p !! id = Some fid -> io_used (ps_io p) id /\ is_Some (ps_fetches p !! fid);
  po_owed : forall j, owed (ps_store p) j = in_flight p j + held j + if decide (j = i) then d else 0;
  po_orders : Forall (fun b => Forall key_ok (bf_order b)) (ps_backfills p);
  po_held : forall j, 0 <= held j /\ (0 < held j -> in_flight p j = 0) }.

Definition planner_ok (p : P) : Prop := planner_ok_but 0 0 p.

Lemma planner_ok_any i p : planner_ok p <-> planner_ok_but i 0 p.
Proof.
  split; intros [H1 H2 H3 H4 H5]; split; try done; intros j; rewrite H3; by repeat case_decide.
Qed.

(** The parts of the state the invariant reads. *)
Definition same_parts (p p' : P) : Prop :=
  ps_io p' = ps_io p /\ ps_inflight p' = ps_inflight p /\ ps_fetches p' = ps_fetches p /\
  bf_order <$> ps_backfills p' = bf_order <$> ps_backfills p.

Lemma same_orders (l l' : list Backfill) : bf_order <$> l' = bf_order <$> l ->
  Forall (fun b => Forall key_ok (bf_order b)) l -> Forall (fun b => Forall key_ok (bf_order b)) l'.
Proof.
  intros Heq Hf. change (Forall (Forall key_ok ∘ bf_order) l'). apply Forall_fmap. rewrite Heq.
  by apply Forall_fmap.
Qed.

Lemma planner_ok_parts i d p p' : same_parts p p' -> store_ok (ps_store p') ->
  (forall j, owed (ps_store p') j = owed (ps_store p) j) -> planner_ok_but i d p -> planner_ok_but i d p'.
Proof.
  intros (Hio & Hin & Hft & Hbf) Hst Ho [H1 H2 H3 H4 H5].
  assert (Hfl : forall j, in_flight p' j = in_flight p j) by (intros j; unfold in_flight; by rewrite Hin, Hft).
  split; [done| | | |].
  - rewrite Hin, Hio, Hft. apply H2.
  - intros j. by rewrite Ho, H3, Hfl.
  - by apply (same_orders (ps_backfills p)).
  - intros j. rewrite Hfl. apply H5.
Qed.

Lemma planner_ok_store_op op p p' : same_parts p p' -> ps_store p' = store_step op (ps_store p) ->
  op_typed op -> neither op -> planner_ok p -> planner_ok p'.
Proof.
  intros Hp Hs Ht Hn Hok. pose proof (po_store _ _ _ Hok). apply (planner_ok_parts _ _ p); try done.
  - rewrite Hs. by apply store_step_ok.
  - intros j. rewrite Hs. by apply owed_neither.
Qed.

Lemma planner_ok_same i d p p' : same_parts p p' -> ps_store p' = ps_store p -> planner_ok_but i d p ->
  planner_ok_but i d p'.
Proof.
  intros Hp Hs Hok. apply (planner_ok_parts _ _ p); try done; [rewrite Hs; by destruct Hok|by rewrite Hs].
Qed.

Lemma same_parts_backfill b f p : (forall x, bf_order (f x) = bf_order x) -> same_parts p (in_backfill b f p).
Proof.
  intros Hf. repeat split. unfold in_backfill. cbn. apply list_eq. intros j.
  rewrite !list_lookup_fmap. destruct (decide (b = j)) as [->|].
  - rewrite list_lookup_alter_eq. destruct (ps_backfills p !! j); simpl; [by rewrite Hf|done].
  - by rewrite list_lookup_alter_ne.
Qed.

(** *** Making room *)

Lemma evict_all_ok vs : forall count freed p, planner_ok p -> planner_ok (evict_all vs count freed p).2.
Proof.
  induction vs as [|v vs IH]; intros count freed p Hok; simpl; [done|].
  case_match; [done|]. destruct (evict v (ps_store p)) as [[u|e] st] eqn:Ev; apply IH;
    (apply (planner_ok_store_op (OpEvict v) p); [done|cbn [store_step]; by rewrite Ev|done|split; by intros ? []|done]).
Qed.

Lemma reclaim_ok n p : planner_ok p -> planner_ok (reclaim n p).2.
Proof.
  intros Hok. unfold reclaim. case_match; [done|]. case_match; [done|].
  destruct (evict_all _ _ _ _) as [freed p'] eqn:Ev. cbn [snd].
  apply (planner_ok_same _ _ p'); [done|done|].
  pose proof (evict_all_ok (choose_victims (evictable (ps_store p)) (Nat.min (length (evictable (ps_store p))) (n * 2))) n 0 p Hok) as Hr.
  by rewrite Ev in Hr.
Qed.

(** *** Submitting runs *)

Lemma in_flight_fetches fs m l i : (forall id fid, m !! id = Some fid -> is_Some (fs !! fid)) ->
  in_flight_of (fs ++ l) m i = in_flight_of fs m i.
Proof.
  intros Hin. unfold in_flight_of. do 2 f_equal. apply map_filter_strong_ext. intros id fid. cbn.
  split; intros [Hf Hid]; (split; [|done]); destruct (Hin _ _ Hid) as [f Hft];
    [rewrite lookup_app_l in Hf by (by eapply lookup_lt_Some)|rewrite lookup_app_l by (by eapply lookup_lt_Some)];
    done.
Qed.

Lemma in_flight_insert fs m id fid i : m !! id = None ->
  in_flight_of fs (<[id := fid]> m) i
  = in_flight_of fs m i + if decide (ft_slot <$> fs !! fid = Some i) then 1 else 0.
Proof.
  intros Hid. unfold in_flight_of. case_decide as Hf.
  - rewrite map_filter_insert_True by done. rewrite map_size_insert_None; [lia|].
    apply map_lookup_filter_None. by left.
  - rewrite map_filter_insert_False by done. rewrite delete_id by done. lia.
Qed.

Lemma in_flight_delete fs m id fid i : m !! id = Some fid ->
  in_flight_of fs m i
  = in_flight_of fs (delete id m) i + if decide (ft_slot <$> fs !! fid = Some i) then 1 else 0.
Proof.
  intros Hid. rewrite <- (insert_delete_id m id fid Hid) at 1. apply in_flight_insert, lookup_delete_eq.
Qed.

Lemma in_flight_alter fs m g f i : (forall x, ft_slot (f x) = ft_slot x) ->
  in_flight_of (alter f g fs) m i = in_flight_of fs m i.
Proof.
  intros Hf. unfold in_flight_of. do 2 f_equal. apply map_filter_ext. intros id fid _. cbn.
  destruct (decide (g = fid)) as [->|]; [rewrite list_lookup_alter_eq|by rewrite list_lookup_alter_ne].
  destruct (fs !! fid); simpl; [by rewrite Hf|done].
Qed.

Lemma submit_run_ok fid i k prio token dl run d p r p' :
  fetch_slot p fid = Some i -> held i = 0 -> planner_ok_but i d p ->
  submit_run fid k prio token dl run p = (r, p') ->
  fetch_slot p' fid = Some i /\ ps_store p' = ps_store p /\
  match r with Ret _ => planner_ok_but i (d - 1) p' | Fail _ => planner_ok_but i d p' end.
Proof.
  intros Hfid Hi0 Hok. unfold submit_run. destruct (require _ _) as [f|]; [|by intros [= <- <-]].
  destruct (io_submit _ _) as [[id|e] io] eqn:Eio; intros [= <- <-]; (split; [done|split; [done|]]).
  - destruct (io_fresh _ _ _ _ Eio) as [Hfresh Hused]. destruct Hok as [H1 H2 H3 H4 H5].
    assert (Hnone : ps_inflight p !! id = None).
    { destruct (ps_inflight p !! id) as [g|] eqn:Eg; [|done]. by destruct (H2 _ _ Eg). }
    assert (Hfl : forall j, in_flight (p <| ps_io := io |> <| ps_inflight ::= <[id := fid]> |>) j = in_flight p j + if decide (j = i) then 1 else 0).
    { intros j. unfold in_flight. cbn -[in_flight_of]. unfold fetch_slot in Hfid. rewrite in_flight_insert, Hfid by done.
      repeat case_decide; simplify_eq; try congruence; lia. }
    split; [done| | |done|].
    + intros id' g. cbn. intros [[<- <-]|[_ Hg]]%lookup_insert_Some.
      * split; [done|]. unfold fetch_slot in Hfid. destruct (ps_fetches p !! fid); [done|done].
      * destruct (H2 _ _ Hg). split; [by eapply io_keeps|done].
    + intros j. rewrite Hfl. cbn [ps_store]. change (owed (ps_store p) j = in_flight p j + (if decide (j = i) then 1 else 0) + held j + (if decide (j = i) then d - 1 else 0)).
      rewrite H3. case_decide; lia.
    + intros j. rewrite Hfl. destruct (H5 j) as [? Hz]. split; [done|]. intros Hj. rewrite Hz by done. case_decide; [subst; lia|done].
  - destruct Hok as [H1 H2 H3 H4 H5]. split; [done| |done|done|done].
    intros id' g Hg. destruct (H2 _ _ Hg). split; [by eapply io_keeps|done].
Qed.

Lemma submit_runs_ok fid i k prio token dl runs : forall p d ids bytes err p',
  fetch_slot p fid = Some i -> held i = 0 -> planner_ok_but i d p ->
  submit_runs fid k prio token dl runs p = (ids, bytes, err, p') ->
  fetch_slot p' fid = Some i /\ ps_store p' = ps_store p /\
  planner_ok_but i (d - Z.of_nat (length ids)) p' /\
  (length ids <= length runs)%nat /\ (err = None -> length ids = length runs).
Proof.
  induction runs as [|run runs IH]; intros p d ids bytes err p' Hfid Hi0 Hok; simpl.
  - intros [= <- <- <- <-]. replace (d - Z.of_nat (length [])) with d by (simpl; lia).
    split; [done|]. split; [done|]. split; [done|]. simpl. split; [lia|done].
  - destruct (submit_run fid k prio token dl run p) as [[id|e] p1] eqn:E1.
    + destruct (submit_run_ok _ _ _ _ _ _ _ _ _ _ _ Hfid Hi0 Hok E1) as (Hfid1 & Hst1 & Hok1).
      destruct (submit_runs fid k prio token dl runs p1) as [[[ids1 b1] err1] p2] eqn:E2.
      intros [= <- <- <- <-]. destruct (IH _ _ _ _ _ _ Hfid1 Hi0 Hok1 E2) as (Hf2 & Hst2 & Hok2 & Hl & He).
      split; [done|]. split; [congruence|]. split.
      * replace (d - Z.of_nat (length (id :: ids1))) with (d - 1 - Z.of_nat (length ids1)) by (simpl; lia). done.
      * simpl. split; [lia|]. intros ->. by rewrite He.
    + destruct (submit_run_ok _ _ _ _ _ _ _ _ _ _ _ Hfid Hi0 Hok E1) as (Hfid1 & Hst1 & Hok1).
      intros [= <- <- <- <-]. replace (d - Z.of_nat (length [])) with d by (simpl; lia).
      split; [done|]. split; [done|]. split; [done|].
      simpl. split; [lia|done].
Qed.

(** Reporting the runs that were never handed over. *)
Lemma iter_finish_run_ok i stamp n : forall st, store_ok st -> Z.of_nat n <= owed st i ->
  let st' := Nat.iter n (fun st => (finish_run i false stamp st).2) st in
  store_ok st' /\ forall j, owed st' j = owed st j - if decide (j = i) then Z.of_nat n else 0.
Proof.
  induction n as [|n IH]; intros st Hok Hn.
  - split; [done|]. intros j. cbn -[owed]. case_decide; lia.
  - destruct (IH st Hok) as [Hok' Ho']; [lia|]. rewrite Nat.iter_succ. set (st1 := Nat.iter n _ st) in *.
    pose proof (Ho' i) as Hi. rewrite decide_True in Hi by done.
    split; [by apply finish_run_ok|]. intros j. rewrite owed_finish_run by (done || lia).
    case_decide; subst; rewrite Ho'; [rewrite decide_True by done|rewrite decide_False by done]; lia.
Qed.

Lemma on_store_iter_ok i d stamp n p : Z.of_nat n = d -> planner_ok_but i d p ->
  planner_ok (on_store (fun st => Nat.iter n (fun st => (finish_run i false stamp st).2) st) p).
Proof.
  intros <- Hok. apply (planner_ok_any i). destruct Hok as [H1 H2 H3 H4 H5].
  assert (Hge : 0 <= in_flight p i) by (unfold in_flight, in_flight_of; lia).
  destruct (iter_finish_run_ok i stamp n (ps_store p) H1) as [Hok' Ho'].
  { rewrite H3, decide_True by done. pose proof (proj1 (H5 i)). lia. }
  split; [done|done| |done|exact H5]. intros j. unfold on_store. cbn.
  change (in_flight (p <| ps_store ::= _ |>) j) with (in_flight p j). rewrite Ho', H3.
  case_decide; lia.
Qed.

Lemma reserve_for_ok k e p r p' : key_ok k -> planner_ok p -> reserve_for k e p = (r, p') ->
  match r with
  | Ret res => planner_ok_but (r_slot res) (Z.of_nat (length (ee_runs e))) p' /\
      length (r_runs res) = length (ee_runs e) /\ held (r_slot res) = 0
  | Fail _ => planner_ok p'
  end.
Proof.
  intros Hk Hok.
  assert (Hb : forall q res st, planner_ok q -> begin_fill k e Cached (ps_store q) = Ret (res, st) ->
    planner_ok_but (r_slot res) (Z.of_nat (length (ee_runs e))) (q <| ps_store := st |>) /\
    length (r_runs res) = length (ee_runs e) /\ held (r_slot res) = 0).
  { intros q res st Hq Hb. pose proof (proj1 (planner_ok_any (r_slot res) q) Hq) as [H1 H2 H3 H4 H5].
    assert (Hz : in_flight q (r_slot res) = 0 /\ held (r_slot res) = 0).
    { destruct (owed_begin_fill _ _ _ _ _ _ 0%nat H1 Hk Hb) as [Hz _]. rewrite H3, decide_True in Hz by done.
      pose proof (proj1 (H5 (r_slot res))). unfold in_flight, in_flight_of in *. lia. }
    split_and!; [| |apply Hz].
    - split; [|done| |done|exact H5].
      + pose proof (begin_fill_ok k e Cached _ Hk H1) as Hs. by rewrite Hb in Hs.
      + intros j. cbn. change (in_flight (q <| ps_store := st |>) j) with (in_flight q j).
        destruct (owed_begin_fill _ _ _ _ _ _ j H1 Hk Hb) as [_ ->]. case_decide; subst; [lia|]. rewrite H3. by rewrite decide_False.
    - apply begin_fill_inv in Hb as (? & ? & ? & _ & _ & _ & -> & _). simpl. by rewrite length_fmap. }
  unfold reserve_for. destruct (begin_fill k e Cached (ps_store p)) as [[res st]|err] eqn:E1.
  - intros [= <- <-]. by apply Hb.
  - pose proof (reclaim_ok 1 p Hok) as Hrec. destruct err; try (by intros [= <- <-]).
    destruct (reclaim 1 p) as [[|n] p1]; simpl in Hrec; [by intros [= <- <-]|].
    destruct (begin_fill k e Cached (ps_store p1)) as [[res st]|err] eqn:E2; intros [= <- <-]; [by apply Hb|done].
Qed.

Lemma fetch_ok k prio token dl cb stamp p : key_ok k -> planner_ok p ->
  planner_ok (fetch k prio token dl cb stamp p).2.
Proof.
  intros Hk Hok. unfold fetch. destruct (require_expert _ _) as [e|]; [|done].
  destruct (reserve_for k e p) as [[res|err] p1] eqn:Er.
  2: { by apply (reserve_for_ok k e p _ _ Hk Hok) in Er. }
  apply (reserve_for_ok k e p _ _ Hk Hok) in Er as (Hok1 & Hlen & Hi0).
  destruct (if stamp =? 0 then next_stamp p1 else (stamp, p1)) as [stamp' p2] eqn:Est.
  assert (Hok2 : planner_ok_but (r_slot res) (Z.of_nat (length (r_runs res))) p2).
  { rewrite Hlen. apply (planner_ok_same _ _ p1); [| |done]; case_match; unfold next_stamp in *; by simplify_eq. }
  clear Est. set (fid := length (ps_fetches p2)).
  set (p3 := p2 <| ps_fetches ::= _ |>).
  assert (Hfid : fetch_slot p3 fid = Some (r_slot res)).
  { unfold fetch_slot, p3, fid. cbn. by rewrite list_lookup_middle. }
  assert (Hok3 : planner_ok_but (r_slot res) (Z.of_nat (length (r_runs res))) p3).
  { destruct Hok2 as [H1 H2 H3 H4 H5].
    assert (Hfl : forall j, in_flight p3 j = in_flight p2 j) by (intros j; unfold p3, in_flight; cbn; apply in_flight_fetches; intros id g Hg; by apply (H2 id g)).
    split; [done| | |done|].
    - intros id g Hg. destruct (H2 id g Hg) as [Hu [f Hf]]. split; [done|]. unfold p3. cbn.
      rewrite lookup_app_l by (by eapply lookup_lt_Some). by exists f.
    - intros j. rewrite Hfl. apply H3.
    - intros j. rewrite Hfl. apply H5. }
  destruct (submit_runs fid k prio token dl (r_runs res) p3) as [[[ids bytes] err] p4] eqn:Es.
  destruct (submit_runs_ok _ _ _ _ _ _ _ _ _ _ _ _ _ Hfid Hi0 Hok3 Es) as (Hf4 & Hst4 & Hok4 & Hle & Hnone).
  destruct err as [err|].
  - cbn [snd]. apply (on_store_iter_ok _ (Z.of_nat (length (r_runs res)) - Z.of_nat (length ids))); [lia|].
    destruct Hok4 as [H1 H2 H3 H4 H5].
    match goal with |- planner_ok_but _ _ ?q => assert (Hfl : forall j, in_flight q j = in_flight p4 j) by (intros j; unfold in_flight; cbn; by apply in_flight_alter) end.
    split; [done| | |done|].
    + intros id g Hg. destruct (H2 id g Hg) as [Hu Hf]. split; [done|]. cbn.
      destruct (decide (fid = g)) as [->|]; [rewrite list_lookup_alter_eq|by rewrite list_lookup_alter_ne].
      by apply fmap_is_Some.
    + intros j. rewrite Hfl. apply H3.
    + intros j. rewrite Hfl. apply H5.
  - rewrite Hnone, Z.sub_diag in Hok4 by done. apply planner_ok_any in Hok4. cbn [snd].
    destruct prio; try done; apply (planner_ok_same _ _ p4); done.
Qed.

(** *** Backfill and completions *)

(** What other threads do between two critical sections keeps the invariant. *)
Definition env_ok (env : nat -> P -> P) : Prop := forall n p, planner_ok p -> planner_ok (env n p).

Context (env : nat -> P -> P) (Henv : env_ok env).

Lemma planner_ok_backfill b f p : (forall x, bf_order (f x) = bf_order x) -> planner_ok p ->
  planner_ok (in_backfill b f p).
Proof. intros Hf Hok. apply (planner_ok_same _ _ p); [by apply same_parts_backfill|done|done]. Qed.

Lemma planner_ok_pstat f p : planner_ok p -> planner_ok (pstat f p).
Proof. intros Hok. by apply (planner_ok_same _ _ p). Qed.

Lemma planner_ok_group g f p : planner_ok p -> planner_ok (in_group g f p).
Proof. intros Hok. by apply (planner_ok_same _ _ p). Qed.

Lemma order_key_ok p b bf rank : planner_ok p -> ps_backfills p !! b = Some bf ->
  key_ok (default (mkKey 0 0) (bf_order bf !! rank)).
Proof.
  intros Hok Hb. pose proof (po_orders _ _ _ Hok) as Ho. rewrite Forall_lookup in Ho.
  specialize (Ho _ _ Hb). destruct (bf_order bf !! rank) as [k|] eqn:Hk; simpl.
  - rewrite Forall_lookup in Ho. by apply (Ho rank).
  - unfold key_ok. simpl. lia.
Qed.

Lemma pump_ok fuel b p : planner_ok p -> planner_ok (backfill_pump env fuel b p).
Proof.
  revert p. induction fuel as [|fuel IH]; intros p Hok; simpl; [done|].
  destruct (ps_backfills p !! b) as [bf|] eqn:Hb; [|done].
  pose proof (order_key_ok p b bf (bf_next bf) Hok Hb) as Hk.
  case_match; [done|]. case_match; [case_match; [by apply planner_ok_backfill|done]|].
  case_match; [by apply IH, planner_ok_backfill|].
  set (p1 := in_backfill b _ (in_backfill b _ p)).
  assert (Hok1 : planner_ok p1) by (apply planner_ok_backfill; [done|]; by apply planner_ok_backfill).
  pose proof (fetch_ok (default (mkKey 0 0) (bf_order bf !! bf_next bf)) Types.Backfill 0 0 (DoneBackfill b)
    (if bf_keep bf then u64 (kDemandStampBase + Z.of_nat (bf_next bf))
     else u64 (kDemandStampBase - 1 - Z.of_nat (bf_next bf))) _ Hk (Henv (bf_next bf) _ Hok1)) as Hf.
  destruct (fetch _ _ _ _ _ _ _) as [[f|err] p2]; cbn [snd] in Hf.
  - by apply IH, planner_ok_pstat.
  - case_match; [by apply IH, planner_ok_backfill|].
    by apply planner_ok_backfill, planner_ok_pstat, planner_ok_backfill.
Qed.

Lemma run_on_done_ok cb ok p : planner_ok p -> planner_ok (run_on_done env cb ok p).
Proof.
  intros Hok. destruct cb; simpl; [done|apply planner_ok_group; destruct ok; [done|by apply planner_ok_pstat]|].
  apply pump_ok, planner_ok_pstat. by apply planner_ok_backfill.
Qed.

(** Taking a report off the list and counting it in the store keeps the balance. *)
Lemma deliver_store_ok id fid f ok p : planner_ok p -> ps_inflight p !! id = Some fid ->
  ps_fetches p !! fid = Some f ->
  planner_ok (p <| ps_inflight ::= delete id |>
                <| ps_store := (finish_run (ft_slot f) ok (ft_stamp f) (ps_store p)).2 |>).
Proof.
  intros Hok Hid Hf. pose proof (proj1 (planner_ok_any (ft_slot f) p) Hok) as [H1 H2 H3 H4 H5].
  assert (Hdel : forall i, in_flight p i = in_flight_of (ps_fetches p) (delete id (ps_inflight p)) i
    + if decide (i = ft_slot f) then 1 else 0).
  { intros i. unfold in_flight. rewrite (in_flight_delete _ _ _ _ i Hid), Hf. simpl.
    repeat case_decide; simplify_eq; congruence || lia. }
  assert (Hpos : 0 < owed (ps_store p) (ft_slot f)).
  { rewrite H3, Hdel, !decide_True by done. pose proof (proj1 (H5 (ft_slot f))). unfold in_flight_of. lia. }
  split; [by apply finish_run_ok| | |done|].
  - intros id' g. cbn. intros [_ Hg]%lookup_delete_Some. by apply H2.
  - intros j. unfold in_flight. cbn -[in_flight_of finish_run]. rewrite owed_finish_run by done.
    pose proof (Hdel j) as Hj. pose proof (H3 j) as Hoj. repeat case_decide; subst; lia.
  - intros j. destruct (H5 j) as [? Hz]. split; [done|]. intros Hj%Hz. rewrite Hdel in Hj. unfold in_flight. cbn -[in_flight_of].
    unfold in_flight_of in *. case_decide; lia.
Qed.

Lemma planner_ok_failed fid p : planner_ok p ->
  planner_ok (p <| ps_fetches ::= alter (fun f => f <| ft_ok := false |>) fid |>).
Proof.
  intros [H1 H2 H3 H4 H5].
  match goal with |- planner_ok ?q => assert (Hfl : forall j, in_flight q j = in_flight p j) by (intros j; unfold in_flight; cbn; by apply in_flight_alter) end.
  split; [done| | |done|].
  - intros id g Hg. destruct (H2 id g Hg) as [Hu Hf]. split; [done|]. cbn.
    destruct (decide (fid = g)) as [->|]; [rewrite list_lookup_alter_eq|by rewrite list_lookup_alter_ne].
    by apply fmap_is_Some.
  - intros j. rewrite Hfl. apply H3.
  - intros j. rewrite Hfl. apply H5.
Qed.

Lemma deliver_ok id ok p : planner_ok p -> planner_ok (deliver env id ok p).
Proof.
  intros Hok. unfold deliver. destruct (ps_inflight p !! id) as [fid|] eqn:Hid; [|done].
  destruct (po_ids _ _ _ Hok _ _ Hid) as [_ [f Hf]]. cbn. rewrite Hf.
  pose proof (deliver_store_ok id fid f ok p Hok Hid Hf) as Hd.
  assert (Hd' : planner_ok ((if ok then p <| ps_inflight ::= delete id |>
      else p <| ps_inflight ::= delete id |> <| ps_fetches ::= alter (fun f => f <| ft_ok := false |>) fid |>)
      <| ps_store := (finish_run (ft_slot f) ok (ft_stamp f) (ps_store p)).2 |>)).
  { destruct ok; [done|]. apply (planner_ok_failed fid) in Hd. done. }
  replace (ps_store (if ok then _ else _)) with (ps_store p) by (by destruct ok).
  destruct (finish_run (ft_slot f) ok (ft_stamp f) (ps_store p)) as [[[]|] st]; [|done|done].
  by apply run_on_done_ok.
Qed.

(** *** Layers *)

Lemma planner_ok_lookup k stamp guard p r st : planner_ok p -> lookup k stamp guard (ps_store p) = (r, st) ->
  planner_ok (p <| ps_store := st |>).
Proof.
  intros Hok Hl. apply (planner_ok_store_op (OpLookup k stamp guard) p); try done.
  - simpl. by rewrite Hl.
  - split; by intros ? [].
Qed.

Lemma planner_ok_touch k stamp p : planner_ok p ->
  planner_ok (on_store (fun st => (touch k stamp false st).2) p).
Proof.
  intros Hok. apply (planner_ok_store_op (OpTouch k stamp false) p); try done. split; by intros ? [].
Qed.

Lemma planner_ok_evict_lru p : planner_ok p -> planner_ok (p <| ps_store := (evict_lru (ps_store p)).2 |>).
Proof. intros Hok. apply (planner_ok_store_op OpEvictLru p); try done. split; by intros ? []. Qed.

Lemma next_stamp_ok p : planner_ok p -> planner_ok (next_stamp p).2.
Proof. intros Hok. by apply (planner_ok_same _ _ p). Qed.

Lemma plan_miss_ok k token layer plan p : key_ok k -> planner_ok p ->
  planner_ok (plan_miss k token layer plan p).2.
Proof.
  intros Hk Hok. unfold plan_miss.
  set (p1 := if free_slots (ps_store p) =? 0 then _ else p).
  assert (Hok1 : planner_ok p1).
  { unfold p1. case_match; [|done]. case_match; [|by apply reclaim_ok].
    pose proof (planner_ok_evict_lru p Hok) as He.
    destruct (evict_lru (ps_store p)) as [[i|e] st]; [by apply planner_ok_pstat|done]. }
  pose proof (fetch_ok k BlockingMiss token layer (DoneGroup (lp_group plan)) 0
    (in_group (lp_group plan) (fun x => x <| gr_pending ::= inc32 |>) p1) Hk
    (planner_ok_group _ _ _ Hok1)) as Hf.
  destruct (fetch _ _ _ _ _ _ _) as [[f|err] p2]; cbn [snd] in *; [done|].
  by apply planner_ok_group, planner_ok_pstat.
Qed.

Lemma plan_key_ok fixed k token layer guard plan p : key_ok k -> planner_ok p ->
  planner_ok (plan_key fixed k token layer guard plan p).2.
Proof.
  intros Hk Hok. unfold plan_key.
  destruct (if fixed then (0, p) else next_stamp p) as [stamp p1] eqn:Es.
  assert (Hok1 : planner_ok p1).
  { destruct fixed; [by simplify_eq|]. pose proof (next_stamp_ok p Hok) as Hn. by rewrite Es in Hn. }
  destruct (lookup k stamp guard (ps_store p1)) as [[a|] st] eqn:El;
    pose proof (planner_ok_lookup _ _ _ _ _ _ Hok1 El) as Hok2; [done|].
  destruct (fixed && _); [done|]. destruct (bool_decide _); [|by apply plan_miss_ok].
  by apply planner_ok_pstat, (next_stamp_ok (p1 <| ps_store := st |>)).
Qed.

Lemma u16_key_ok layer id : 0 <= id < 2 ^ 16 -> key_ok (mkKey (u16 layer) id).
Proof. intros Hid. split; simpl; [apply u16_range|done]. Qed.

Lemma plan_keys_ok ids : forall n fixed token layer guard plan p,
  Forall (fun id => 0 <= id < 2 ^ 16) ids -> planner_ok p ->
  planner_ok (plan_keys env n fixed ids token layer guard plan p).2.
Proof.
  induction ids as [|id ids IH]; intros n fixed token layer guard plan p Hids Hok; simpl; [done|].
  apply Forall_cons in Hids as [Hid Hids].
  pose proof (plan_key_ok fixed (mkKey (u16 layer) id) token layer guard plan (env n p)
    (u16_key_ok layer id Hid) (Henv n p Hok)) as Hk.
  destruct (plan_key _ _ _ _ _ _ _) as [plan1 p1]. by apply IH.
Qed.

Lemma note_near_ok layer ids scores p : planner_ok p -> planner_ok (on_store (note_near layer ids scores) p).
Proof.
  unfold note_near. revert p. induction (zip ids scores) as [|[id sc] l IH]; intros p Hok; [by apply (planner_ok_same _ _ p)|].
  apply (IH (on_store (fun st => note_heat (mkKey (u16 layer) id) sc f32_eighth st) p)).
  apply (planner_ok_store_op (OpNoteHeat (mkKey (u16 layer) id) sc f32_eighth) p); try done.
  split; by intros ? [].
Qed.

Lemma plan_layer_ok route token p : Forall (fun id => 0 <= id < 2 ^ 16) (rd_chosen route) ->
  planner_ok p -> planner_ok (plan_layer env route token p).2.
Proof.
  intros Hids Hok. unfold plan_layer.
  set (p1 := on_store (note_near _ _ _) p). set (p2 := p1 <| ps_groups ::= _ |>).
  assert (Hok2 : planner_ok p2) by (apply (planner_ok_same _ _ p1); [done|done|by apply note_near_ok]).
  pose proof (plan_keys_ok (rd_chosen route) 0 (fixed_cache (ps_store p2)) token (rd_layer route)
    (rd_guard_hits route) (mkLayerPlan (rd_layer route) [] [] [] 0 (length (ps_groups p1)) []) p2 Hids Hok2) as Hk.
  destruct (plan_keys _ _ _ _ _ _ _ _ _) as [plan p3]. by apply planner_ok_pstat.
Qed.

Lemma wait_group_ok g events : forall p, planner_ok p -> planner_ok (wait_group env g events p).2.
Proof.
  induction events as [|[id ok] events IH]; intros p Hok; simpl; repeat case_match; try done.
  by apply IH, deliver_ok.
Qed.

Lemma wait_key_ok k events : forall p, planner_ok p -> planner_ok (wait_key env k events p).2.
Proof.
  induction events as [|[id ok] events IH]; intros p Hok; simpl; case_match; try done.
  by apply IH, deliver_ok.
Qed.

Lemma wait_joined_ok joined : forall events p, planner_ok p -> planner_ok (wait_joined env joined events p).2.
Proof.
  induction joined as [|[k stamp] joined IH]; intros events p Hok; simpl; [done|].
  pose proof (wait_key_ok k events p Hok) as Hw. destruct (wait_key env k events p) as [[[] ev] p1]; [|done].
  by apply IH, planner_ok_touch.
Qed.

Lemma wait_layer_ok plan events p : planner_ok p -> planner_ok (wait_layer env plan events p).2.
Proof.
  intros Hok. unfold wait_layer. pose proof (wait_group_ok (lp_group plan) events p Hok) as Hg.
  destruct (wait_group env (lp_group plan) events p) as [[[u|e] ev] p1]; cbn [snd] in Hg.
  - pose proof (wait_joined_ok (lp_joined plan) ev p1 Hg) as Hj.
    destruct (wait_joined env _ ev p1) as [r p2]. by apply planner_ok_pstat.
  - by apply planner_ok_pstat.
Qed.

Lemma start_backfill_ok order inflight keep p : Forall key_ok order -> planner_ok p ->
  planner_ok (start_backfill env order inflight keep p).2.
Proof.
  intros Ho Hok. unfold start_backfill.
  assert (Hok1 : planner_ok (stop_backfill p)).
  { unfold stop_backfill. case_match; [by apply planner_ok_backfill|done]. }
  case_match; [done|]. cbn [snd]. apply pump_ok. destruct Hok1 as [? ? ? G4 ?]. split; try done.
  apply Forall_app. split; [done|]. by apply Forall_singleton.
Qed.
End Invariant.

(** ** Streamed admissions *)

Section Streamed.
Context {E : Type} `{IoEngineOk E}.
#[local] Abbreviation P := (Planner E).

(** [held] with slot [i] holding [d]. *)
Definition hold (i : nat) (d : Z) (held : nat -> Z) (j : nat) : Z := if decide (j = i) then d else held j.

Lemma admit_reserve_ok held k e t p res st : key_ok k -> planner_ok held p -> begin_fill k e t (ps_store p) = Ret (res, st) ->
  held (r_slot res) = 0 /\ 0 < owed st (r_slot res) /\
  planner_ok (hold (r_slot res) (owed st (r_slot res)) held) (p <| ps_store := st |>).
Proof.
  intros Hk [H1 H2 H3 H4 H5] Hb. pose proof (begin_fill_ok k e t (ps_store p) Hk H1) as Hok. rewrite Hb in Hok.
  assert (Hrun : (1 <= length (ee_runs e))%nat) by (by apply begin_fill_inv in Hb as (? & ? & ? & _ & [? _] & _)).
  pose proof (fun i => owed_begin_fill k e t (ps_store p) res st i H1 Hk Hb) as Ho. destruct (Ho 0%nat) as [Hz _].
  set (i := r_slot res) in *. assert (Hi : owed st i = Z.of_nat (length (ee_runs e))) by (destruct (Ho i) as [_ ->]; by rewrite decide_True).
  rewrite H3 in Hz. pose proof (proj1 (H5 i)). assert (Hfl : 0 <= in_flight p i) by (unfold in_flight, in_flight_of; lia).
  assert (in_flight p i = 0 /\ held i = 0) as [Hf0 Hh0] by (case_decide; lia).
  split_and!; [done|lia|]. split; [done|done| |done|].
  - intros j. destruct (Ho j) as [_ Hj]. cbn [ps_store]. change (in_flight (p <| ps_store := st |>) j) with (in_flight p j).
    change (ps_store (p <| ps_store := st |>)) with st. rewrite Hj. unfold hold. pose proof (H3 j) as H3j. repeat case_decide; subst; lia.
  - intros j. change (in_flight (p <| ps_store := st |>) j) with (in_flight p j). unfold hold. destruct (decide (j = i)) as [Hj|Hj]; [rewrite Hj; lia|apply H5].
Qed.

(** What an admission leaves: a reserved slot is held by its caller. *)
Definition admission_ok (held : nat -> Z) (r : Result StreamAdmit) (p : P) : Prop :=
  match r with
  | Ret (mkStreamAdmit StreamFill i _) => held i = 0 /\ exists d, 0 < d /\ planner_ok (hold i d held) p
  | _ => planner_ok held p
  end.

Lemma admit_new_ok held k stamp e p : key_ok k -> planner_ok held p ->
  admission_ok held (admit_new k stamp (Some e) (ps_store p)).1 (p <| ps_store := (admit_new k stamp (Some e) (ps_store p)).2 |>).
Proof.
  intros Hk. revert p.
  assert (Hres : forall p, planner_ok held p ->
    let '(r, st) := match begin_fill k e Cached (ps_store p) with
       | Ret (r, st) => (Ret (mkStreamAdmit StreamFill (r_slot r) (r_addr r)), st)
       | Fail ResourceExhausted => (Ret StreamAdmit_default, ps_store p)
       | Fail err => (Fail err, ps_store p) end in admission_ok held r (p <| ps_store := st |>)).
  { intros p Hok. destruct (begin_fill k e Cached (ps_store p)) as [[r st]|err] eqn:Hb.
    - destruct (admit_reserve_ok held k e Cached p r st Hk Hok Hb) as (H0' & Hpos & Hok'). split; [done|]. by exists (owed st (r_slot r)).
    - by destruct err, p. }
  intros p Hok. unfold admit_new. cbn [begin_fill_opt]. destruct (free_slots (ps_store p) =? 0).
  - destruct (oldest_evictable_stamp (ps_store p)) as [o|]; [|by destruct p]. destruct (stamp <=? o); [by destruct p|].
    pose proof (planner_ok_evict_lru held p Hok) as He. destruct (evict_lru (ps_store p)) as [[v|err] st]; [|exact He].
    pose proof (Hres _ He) as Hr. cbn [ps_store snd] in *. change (ps_store (p <| ps_store := st |>)) with st in Hr.
    destruct (begin_fill k e Cached st) as [[r st']|[]]; exact Hr.
  - pose proof (Hres _ Hok) as Hr. destruct (begin_fill k e Cached (ps_store p)) as [[r st']|[]]; exact Hr.
Qed.

Lemma admit_held_ok held i k stamp e guard p : key_ok k -> planner_ok held p ->
  admission_ok held (admit_held i k stamp (Some e) guard (ps_store p)).1 (p <| ps_store := (admit_held i k stamp (Some e) guard (ps_store p)).2 |>).
Proof.
  intros Hk Hok. unfold admit_held. destruct (resident (ps_store p) k); [|by apply admit_new_ok].
  assert (Hg : planner_ok held (p <| ps_store := (set_guard i guard (ps_store p)).2 |>)).
  { apply (planner_ok_store_op held (OpSetGuard i guard) p); try done. split; by intros ? []. }
  by destruct (set_guard i guard (ps_store p)) as [[u|err] st].
Qed.

Lemma planner_touch_ok held env k stamp events p : env_ok held env -> planner_ok held p -> planner_ok held (planner_touch env k stamp events p).
Proof.
  intros Henv Hok. unfold planner_touch. assert (Ht : planner_ok held (p <| ps_store := (touch k stamp false (ps_store p)).2 |>)) by exact (planner_ok_touch held k stamp p Hok).
  destruct (touch k stamp false (ps_store p)) as [[] st]; [exact Ht|].
  pose proof (wait_key_ok held env Henv k events p Hok) as Hw. destruct (wait_key env k events p) as [[[] ev] p1]; [|exact Hw].
  by apply planner_ok_touch.
Qed.

Lemma planner_admit_ok held env k stamp guard events p : env_ok held env -> key_ok k -> planner_ok held p ->
  admission_ok held (planner_admit env k stamp guard events p).1 (planner_admit env k stamp guard events p).2.
Proof.
  intros Henv Hk Hok. unfold planner_admit. destruct (require_expert _ _) as [e|]; [|done].
  set (q := match slot_of k (ps_store p) with Some i => _ | None => _ end).
  assert (Hq : admission_ok held q.1 q.2).
  { unfold q. destruct (slot_of k (ps_store p)) as [i|].
    - pose proof (admit_held_ok held i k stamp e guard _ Hk (planner_touch_ok held env k stamp events p Henv Hok)) as Ha.
      by destruct (admit_held _ _ _ _ _ _).
    - pose proof (admit_new_ok held k stamp e p Hk Hok) as Ha. by destruct (admit_new _ _ _ _). }
  destruct q as [[[kind i a]|err] p1]; [|exact Hq]. cbn [fst snd] in *. destruct kind; cbn in *.
  - by apply planner_ok_pstat.
  - destruct Hq as (H0' & d & Hd & Hq). split; [done|]. exists d. split; [done|]. by apply planner_ok_pstat.
  - by apply planner_ok_pstat.
Qed.

(** The report of a held admission settles its slot, whatever the read came to. *)
Lemma planner_finish_ok held a ok stamp p : sa_kind a = StreamFill -> 0 < held (sa_slot a) -> planner_ok held p ->
  exists p', planner_finish_streamed a ok stamp p = (Ret tt, p') /\
    (exists t, slots (ps_store p') !! sa_slot a = Some t /\ s_state t <> Filling) /\ planner_ok (hold (sa_slot a) 0 held) p'.
Proof.
  intros Ha Hpos [H1 H2 H3 H4 H5]. unfold planner_finish_streamed, finish_streamed. rewrite Ha. set (i := sa_slot a) in *.
  destruct (H5 i) as [_ Hfl]. specialize (Hfl Hpos).
  assert (Ho : 0 < owed (ps_store p) i) by (rewrite H3, Hfl; destruct (decide _); lia).
  destruct (owed_pos _ _ Ho) as (s & Hs & Hf & _). destruct (finish_fill_settles (ps_store p) i s ok stamp H1 Hs Hf) as (st' & -> & Hok' & Ht & Howed).
  eexists. split; [reflexivity|]. split; [exact Ht|]. split; [done|done| |done|].
  - intros j. change (in_flight (p <| ps_store := st' |>) j) with (in_flight p j). change (ps_store (p <| ps_store := st' |>)) with st'.
    rewrite Howed. unfold hold. pose proof (H3 j). destruct (decide (j = i)) as [Hj|Hj]; [rewrite Hj in *|]; destruct (decide _); lia.
  - intros j. change (in_flight (p <| ps_store := st' |>) j) with (in_flight p j). unfold hold. destruct (decide (j = i)); [lia|apply H5].
Qed.
End Streamed.
