(* ===== verification/PlannerProps.v ===== *)
(** Theorems about the planner: no fill is ever stuck, victims come in LRU order, streamed
    admission, and two places where concurrency breaks what the comments promise. *)

From S2P Require Import Prelude Types Floats Manifest Slab ShardSet ExpertStore StoreInv StoreProps Planner PlannerInv.

(** ** Operations of the planner as steps *)

Inductive PlannerOp :=
| PPlan (route : RouteDecision) (token : Z)
| PWait (plan : LayerPlan) (events : list (Z * bool))
| PWaitExpert (k : ExpertKey) (events : list (Z * bool))
| PDeliver (id : Z) (ok : bool)
| PFetch (k : ExpertKey) (prio : IoPriority) (token dl : Z) (stamp : Z)
| PReclaim (n : nat)
| PStart (order : list ExpertKey) (inflight : Z) (keep : bool)
| PStop
| PPin (k : ExpertKey)
| PReserveStamps (n : Z)
| PAdmit (k : ExpertKey) (stamp guard : Z) (events : list (Z * bool))
| PFinish (n : nat) (ok : bool) (stamp : Z)
| PStore (op : StoreOp).

Definition planner_op_typed (op : PlannerOp) : Prop :=
  match op with
  | PPlan route _ => Forall (fun id => 0 <= id < 2 ^ 16) (rd_chosen route)
  | PFetch k _ _ _ _ | PAdmit k _ _ _ => key_ok k
  | PStart order _ _ => Forall key_ok order
  | PStore op => op_typed op /\ neither op
  | _ => True
  end.

Section Steps.
Context {E : Type} `{IoEngine E}.

(** The planner, and the admissions whose caller has yet to report its read. *)
Definition planner_step (env : nat -> Planner E -> Planner E) (op : PlannerOp) (q : Planner E * list StreamAdmit)
  : Planner E * list StreamAdmit :=
  let '(p, open) := q in
  match op with
  | PPlan route token => ((plan_layer env route token p).2, open)
  | PWait plan events => ((wait_layer env plan events p).2, open)
  | PWaitExpert k events => ((wait_expert env k events p).2, open)
  | PDeliver id ok => (deliver env id ok p, open)
  | PFetch k prio token dl stamp => ((fetch k prio token dl DoneNone stamp p).2, open)
  | PReclaim n => ((reclaim n p).2, open)
  | PStart order inflight keep => ((start_backfill env order inflight keep p).2, open)
  | PStop => (stop_backfill p, open)
  | PPin k => ((planner_pin k p).2, open)
  | PReserveStamps n => ((reserve_stamps n p).2, open)
  | PAdmit k stamp guard events =>
      match planner_admit env k stamp guard events p with
      | (Ret (mkStreamAdmit StreamFill i addr), p) => (p, open ++ [mkStreamAdmit StreamFill i addr])
      | (_, p) => (p, open)
      end
  | PFinish n ok stamp =>
      match open !! n with
      | Some a => ((planner_finish_streamed a ok stamp p).2, delete n open)
      | None => (p, open)
      end
  | PStore op => (on_store (store_step op) p, open)
  end.
End Steps.

Section NoStuckFill.
Context {E : Type} `{IoEngineOk E}.

(** The slots held are those of the open admissions. *)
Definition open_ok (held : nat -> Z) (open : list StreamAdmit) : Prop :=
  Forall (fun a => sa_kind a = StreamFill) open /\ NoDup (sa_slot <$> open) /\ forall i, 0 < held i <-> i ∈ sa_slot <$> open.

Definition planner_state_ok (q : Planner E * list StreamAdmit) : Prop :=
  exists held, planner_ok held q.1 /\ open_ok held q.2.

Lemma open_ok_add held i d a open : sa_kind a = StreamFill -> sa_slot a = i -> held i = 0 -> 0 < d ->
  open_ok held open -> open_ok (hold i d held) (open ++ [a]).
Proof.
  intros Ha <- H0' Hd (H1 & H2 & H3). split; [by apply Forall_app; split; [|by apply Forall_singleton]|].
  rewrite fmap_app. split.
  - apply NoDup_app. split; [done|]. split; [|apply NoDup_singleton].
    intros j Hj ->%list_elem_of_singleton. apply H3 in Hj. lia.
  - intros j. rewrite elem_of_app, <- H3. cbn. rewrite list_elem_of_singleton. unfold hold. case_decide; [subst; split; [by right|done]|].
    split; [by left|]. by intros [|].
Qed.

Lemma open_ok_delete held n a open : open !! n = Some a -> open_ok held open ->
  open_ok (hold (sa_slot a) 0 held) (delete n open).
Proof.
  intros Hn (H1 & H2 & H3). assert (Hp : open ≡ₚ a :: delete n open) by (by apply delete_Permutation).
  assert (Hq : sa_slot <$> open ≡ₚ sa_slot a :: (sa_slot <$> delete n open)) by exact (fmap_Permutation sa_slot _ _ Hp).
  split; [by rewrite Hp in H1; apply Forall_cons in H1 as [_ H1]|].
  rewrite Hq in H2. apply NoDup_cons in H2 as [H2 H2']. split; [done|].
  assert (Hin : forall j, j ∈ sa_slot <$> open <-> j = sa_slot a \/ j ∈ sa_slot <$> delete n open)
    by (intros j; by rewrite <- elem_of_cons, Hq).
  intros j. unfold hold. case_decide as Hj; [subst; split; [lia|done]|]. rewrite H3, Hin. split; [by intros [->|]|by right].
Qed.

Lemma planner_step_ok env op q : (forall held, env_ok held env) -> planner_op_typed op ->
  planner_state_ok q -> planner_state_ok (planner_step env op q).
Proof.
  intros Henv Hop (held & Hok & Hopen). destruct q as [p open].
  destruct op; cbn [planner_op_typed planner_step fst snd] in *; try (exists held; split; [|exact Hopen]; cbn [fst]).
  - by apply plan_layer_ok.
  - by apply wait_layer_ok.
  - unfold wait_expert. pose proof (wait_key_ok held env (Henv held) k events p Hok) as Hw.
    destruct (wait_key env k events p) as [[b ev] p']. by apply planner_ok_pstat.
  - by apply deliver_ok.
  - by apply fetch_ok.
  - by apply reclaim_ok.
  - by apply start_backfill_ok.
  - unfold stop_backfill. case_match; [by apply planner_ok_backfill|done].
  - unfold planner_pin. destruct (pin k (ps_store p)) as [r st] eqn:E1.
    apply (planner_ok_store_op held (OpPin k) p); [done|by cbn; rewrite E1|done|split; by intros ? []|done].
  - by apply (planner_ok_same held _ _ p).
  - pose proof (planner_admit_ok held env k stamp guard events p (Henv held) Hop Hok) as Ha.
    destruct (planner_admit _ _ _ _ _ _) as [[[[] i addr]|err] p']; cbn [fst snd admission_ok] in Ha; try (by exists held).
    destruct Ha as (Hz & d & Hd & Ha). exists (hold i d held). split; [done|]. by apply open_ok_add.
  - destruct (open !! n) as [a|] eqn:Hn; [|by exists held]. exists (hold (sa_slot a) 0 held).
    pose proof (proj1 (Forall_lookup _ _) (proj1 Hopen) _ _ Hn) as Hkind.
    assert (Hpos : 0 < held (sa_slot a)) by (apply Hopen; by apply list_elem_of_fmap_2, (list_elem_of_lookup_2 _ n)).
    destruct (planner_finish_ok held a ok stamp p Hkind Hpos Hok) as (p' & -> & _ & Hok'). split; [done|]. by apply open_ok_delete.
  - destruct Hop. by apply (planner_ok_store_op held op p).
Qed.

Lemma planner_init_ok st io m ss policy (p : Planner E) :
  planner_init st io m ss policy = Ret p -> store_ok st ->
  (forall i s, slots st !! i = Some s -> s_state s <> Filling) -> planner_ok (fun _ => 0) p.
Proof.
  unfold planner_init. intros Hi Hok Hnf. repeat case_match; try done. injection Hi as <-.
  split; [done| | |by apply Forall_nil|done].
  - intros id fid. cbn. by rewrite lookup_empty.
  - intros j. cbn. unfold in_flight, in_flight_of. cbn. rewrite map_filter_empty, map_size_empty.
    unfold owed. destruct (slots st !! j) as [s|] eqn:Hs; [|by case_decide].
    rewrite decide_False by eauto. by case_decide.
Qed.

Lemma planner_runs_ok env ops q : (forall held, env_ok held env) -> Forall planner_op_typed ops ->
  planner_state_ok q -> planner_state_ok (foldl (fun q op => planner_step env op q) q ops).
Proof.
  intros Henv Hops. revert q. induction Hops as [|op ops Hop Hops IH]; intros q Hq; simpl; [done|].
  by apply IH, planner_step_ok.
Qed.

(** A slot being filled that nobody holds has all the runs it waits for in flight. *)
Lemma filling_in_flight held p i s : planner_ok held p -> slots (ps_store p) !! i = Some s -> s_state s = Filling ->
  held i = 0 -> in_flight p i = s_runs_total s - s_runs_done s /\ 0 < in_flight p i /\
    exists id fid, ps_inflight p !! id = Some fid /\ fetch_slot p fid = Some i.
Proof.
  intros Hok Hs Hf Hz. pose proof (po_owed _ _ _ _ Hok i) as Ho. unfold owed in Ho. rewrite Hs, decide_True in Ho by done.
  destruct (ok_runs _ (po_store _ _ _ _ Hok) _ _ Hs Hf) as [Hp _].
  assert (Hc : in_flight p i = s_runs_total s - s_runs_done s) by (case_decide; lia).
  split; [done|]. split; [lia|]. unfold in_flight, in_flight_of in Hc.
  set (m' := filter _ (ps_inflight p)) in Hc. destruct (decide (m' = ∅)) as [He|He].
  - rewrite He, map_size_empty in Hc. lia.
  - apply map_choose in He as (id & fid & Hid). apply map_lookup_filter_Some in Hid as [Hid Hfs]. by exists id, fid.
Qed.
End NoStuckFill.

(** C13: no slot is stuck in Filling: starting from a store with nothing in flight, whatever
    layers are planned, waited for, fetched or backfilled, with submissions refused half
    way and reads failing in any order, and whatever is admitted streamed, pinned, looked up
    or evicted in between, a slot being filled is of one of two kinds.  Either it was given
    to the caller of [admit_streamed], whose report is outstanding: then it is the slot of
    that one admission, no request of the planner is in flight for it, and [finish_streamed]
    with whatever outcome ends its fill.  Or it has exactly as many requests in flight as it
    still waits for, at least one, so a completion is on its way. *)
Theorem fills_are_in_flight {E} `{IoEngineOk E} env st io m ss policy (p0 : Planner E) ops :
  (forall held, env_ok held env) -> planner_init st io m ss policy = Ret p0 -> store_ok st ->
  (forall i s, slots st !! i = Some s -> s_state s <> Filling) -> Forall planner_op_typed ops ->
  let '(p, open) := foldl (fun q op => planner_step env op q) (p0, []) ops in
  forall i s, slots (ps_store p) !! i = Some s -> s_state s = Filling ->
    (exists n a, open !! n = Some a /\ sa_slot a = i /\ (forall n' a', open !! n' = Some a' -> sa_slot a' = i -> n' = n) /\
       in_flight p i = 0 /\ forall ok stamp, exists p' t, planner_finish_streamed a ok stamp p = (Ret tt, p') /\
         slots (ps_store p') !! i = Some t /\ s_state t <> Filling) \/
    ((forall n a, open !! n = Some a -> sa_slot a <> i) /\
     in_flight p i = s_runs_total s - s_runs_done s /\ 0 < in_flight p i /\
     exists id fid, ps_inflight p !! id = Some fid /\ fetch_slot p fid = Some i).
Proof.
  intros Henv Hi Hst Hnf Hops.
  assert (H0' : planner_state_ok (p0, [])).
  { exists (fun _ => 0). split; [by apply (planner_init_ok st io m ss policy)|]. split; [done|]. split; [apply NoDup_nil_2|].
    intros i. split; [lia|]. by intros ?%not_elem_of_nil. }
  destruct (planner_runs_ok env ops _ Henv Hops H0') as (held & Hok & Hkind & Hnd & Hheld).
  destruct (foldl _ _ _) as [p open]. cbn [fst snd] in *. intros i s Hs Hf. destruct (decide (0 < held i)) as [Hpos|Hpos].
  - left. pose proof (proj1 (Hheld i) Hpos) as Hin. apply list_elem_of_fmap in Hin as (a & -> & Ha).
    apply list_elem_of_lookup in Ha as [n Hn]. exists n, a. split; [done|]. split; [done|]. split; [|split].
    + intros n' a' Hn' He. apply (NoDup_lookup (sa_slot <$> open) _ _ (sa_slot a)); [done| |]; rewrite list_lookup_fmap; [rewrite Hn'|rewrite Hn]; cbn; by rewrite ?He.
    + by apply (po_held _ _ _ _ Hok).
    + intros ok stamp. destruct (planner_finish_ok held a ok stamp p) as (p' & E1 & (t & Ht & Htf) & _); [|done..|by exists p', t].
      by apply (proj1 (Forall_lookup _ _) Hkind _ _ Hn).
  - right. split; [|eapply filling_in_flight; try done; pose proof (po_held _ _ _ _ Hok i); lia].
    intros n a Hn <-. apply Hpos, Hheld. by apply list_elem_of_fmap_2, (list_elem_of_lookup_2 _ n).
Qed.

(** ** An engine for the examples: it numbers requests and refuses the ones listed. *)

Record CountingIo := mkCountingIo { ci_next : nat; ci_refused : list nat }.
#[export] Instance CountingIo_engine : IoEngine CountingIo := {
  io_submit q e :=
    let e' := mkCountingIo (S (ci_next e)) (ci_refused e) in
    if bool_decide (ci_next e ∈ ci_refused e) then (Fail FailedPrecondition, e')
    else (Ret (Z.of_nat (ci_next e)), e') }.
#[export] Instance CountingIo_ok : IoEngineOk CountingIo.
Proof.
  refine {| io_used e id := id < Z.of_nat (ci_next e) |}.
  - intros q e e' id. simpl. case_match; intros [= <- <-]. simpl. lia.
  - intros q e e' r id. simpl. case_match; intros [= <- <-]; simpl; lia.
Defined.

Definition quiet {E} (n : nat) (p : Planner E) : Planner E := p.

(** Every expert is [example_entry]: three runs over two shards. *)
Definition planner_manifest : Manifest :=
  mkManifest 1 4096 kExpertSlotBytes "m" [mkFileEntry "a" 0 0 ""; mkFileEntry "b" 0 0 ""] ∅
    (replicate 2 (replicate 4 example_entry)) [].
Definition planner_shards : ShardSet := mkShardSet [mkFile 3 "/m/a" 1000000 512 true true; mkFile 4 "/m/b" 1000000 512 true true] [].
Definition example_planner (refused : list nat) : Planner CountingIo :=
  mkPlanner example_store (mkCountingIo 0 refused) planner_manifest planner_shards PolicyLru
    kDemandStampBase PlannerStats_default [] [] [] None ∅.
Definition route (ids : list Z) : RouteDecision := mkRouteDecision 0 ids [] [] 0.

Lemma example_store_ok : store_ok example_store.
Proof. apply (reachable_ok (Some example_host) 2 (4 * kExpertSlotBytes) 2 4); [lia|lia|apply example_init]. Qed.

Definition example_planner_ops : list PlannerOp :=
  [PPlan (route [1; 2]) 1; PAdmit (mkKey 1 3) (kDemandStampBase + 9) 0 []; PDeliver 2 true; PDeliver 0 false].

Lemma fills_are_in_flight_witness :
  let '(p, open) := foldl (fun q op => planner_step quiet op q) (example_planner [4%nat], []) example_planner_ops in
  (exists s, slots (ps_store p) !! 0%nat = Some s /\ s_state s = Filling /\ 0 < in_flight p 0) /\
  (exists t a, slots (ps_store p) !! 2%nat = Some t /\ s_state t = Filling /\ open = [a] /\ sa_slot a = 2%nat /\ in_flight p 2 = 0).
Proof.
  pose proof (fills_are_in_flight quiet example_store (mkCountingIo 0 [4%nat]) planner_manifest
    planner_shards PolicyLru (example_planner [4%nat]) example_planner_ops) as Ht.
  destruct (foldl _ _ _) as [p open] eqn:E.
  assert (Hopen : open = [mkStreamAdmit StreamFill 2 (mkSlotAddress 8589934592 0)]) by (change open with (p, open).2; rewrite <- E; by vm_compute).
  assert (Hst : forall i, i = 0%nat \/ i = 2%nat -> s_state <$> slots (ps_store p) !! i = Some Filling).
  { change p with (p, open).1. rewrite <- E. intros i [-> | ->]; vm_cast_no_check (eq_refl (Some Filling)). }
  destruct (proj1 (fmap_Some _ _ _) (Hst 0%nat (or_introl eq_refl))) as (s & Hs & Hsf).
  destruct (proj1 (fmap_Some _ _ _) (Hst 2%nat (or_intror eq_refl))) as (t & Ht2 & Htf). symmetry in Hsf, Htf. clear E Hst. subst open.
  assert (Hall : Forall planner_op_typed example_planner_ops) by (repeat constructor; simpl; lia).
  assert (Hnf : forall i s, slots example_store !! i = Some s -> s_state s <> Filling)
    by (intros i u; do 5 (destruct i as [|i]; [vm_compute; by intros [= <-]|]); done).
  specialize (Ht ltac:(by intros ? n q) eq_refl example_store_ok Hnf Hall). split; [exists s|exists t; eexists].
  - split_and!; [done|done| ]. destruct (Ht 0%nat s Hs Hsf) as [(n & a & Hn & Ha & _)|(_ & _ & Hp & _)]; [|done].
    destruct n as [|n]; [|done]. by injection Hn as <-.
  - split_and!; [done|done|done|done|]. destruct (Ht 2%nat t Ht2 Htf) as [(n & a & _ & _ & _ & Hz & _)|(Hno & _)]; [done|].
    by destruct (Hno 0%nat _ eq_refl).
Defined.

(** A fetch that fails half way is reported twice: when the engine refuses a later run
    of an expert, [fetch] returns the error and the layer's pending count is given back,
    but the runs already in flight still end in the group's callback, which gives it back
    again; the count wraps to 2^32 - 1 and [wait_layer] never sees the layer complete. *)
Theorem refused_run_counts_twice :
  let '(plan, p) := plan_layer quiet (route [1]) 1 (example_planner [2%nat]) in
  gr_pending <$> ps_groups p !! lp_group plan = Some 0 /\
  let p' := deliver quiet 1 true (deliver quiet 0 true p) in
  gr_pending <$> ps_groups p' !! lp_group plan = Some (2 ^ 32 - 1) /\
  ps_inflight p' = ∅ /\ is_filling (mkKey 0 1) (ps_store p') = false /\
  (wait_layer quiet plan [] p').1 = Fail Io.
Proof. vm_compute. done. Qed.

(** ** Backfill never evicts *)

(** Residents are where they were and the eviction counter did not move. *)
Record undisturbed (st st' : ExpertStore) : Prop := {
  ud_slots : forall i s, slots st !! i = Some s -> s_state s = Resident -> slots st' !! i = Some s;
  ud_evictions : st_evictions (stats st') = st_evictions (stats st) }.

#[export] Instance undisturbed_preorder : PreOrder undisturbed.
Proof. split; [by split|]. intros a b c [H1 H2] [H3 H4]. split; [eauto|congruence]. Qed.

(** Only slot [i] changes, and no eviction is counted. *)
Record only_slot (i : nat) (st st' : ExpertStore) : Prop := {
  os_slots : forall j, j <> i -> slots st' !! j = slots st !! j;
  os_evictions : st_evictions (stats st') = st_evictions (stats st) }.

Lemma only_slot_refl i st : only_slot i st st.
Proof. done. Qed.
Lemma only_slot_trans i a b c : only_slot i a b -> only_slot i b c -> only_slot i a c.
Proof. intros [H1 H2] [H3 H4]. split; [intros; by rewrite H3, H1|congruence]. Qed.
Lemma only_slot_stats i f st st' : (forall c, st_evictions (f c) = st_evictions c) ->
  only_slot i st st' -> only_slot i st (upd_stats f st').
Proof. intros Hf [H1 H2]. split; [done|]. cbn. by rewrite Hf. Qed.
Lemma only_slot_upd i f st st' : only_slot i st st' -> only_slot i st (upd_slot i f st').
Proof. intros [H1 H2]. split; [|done]. intros j Hj. cbn. rewrite list_lookup_alter_ne by done. by apply H1. Qed.
Lemma only_slot_release i st st' : only_slot i st st' -> only_slot i st (release_locked i st').
Proof.
  intros H. unfold release_locked. case_match; [|done].
  apply only_slot_stats; [done|]. destruct H as [H1 H2].
  split; [|done]. intros j Hj. cbn. rewrite list_lookup_alter_ne by done. by apply H1.
Qed.
Lemma only_slot_publish i st st' : only_slot i st st' -> only_slot i st (publish_locked i st').
Proof. intros [H1 H2]. unfold publish_locked. case_match; by split. Qed.

Lemma only_slot_settle i ok token st st' : only_slot i st st' -> only_slot i st (settle_locked i ok token st').
Proof.
  intros H. unfold settle_locked. destruct ok.
  - assert (Hz : forall x, only_slot i st x -> only_slot i st (x <| cache_frozen := true |>)) by (intros x []; by split).
    assert (Hmid : only_slot i st (upd_stats (fun c => c <| st_resident ::= inc32 |> <| st_fills_ok ::= inc64 |>)
      (publish_locked i (upd_slot i (fun s => s <| s_state := Resident |> <| s_last_use_token ::= fun t => Z.max t token |>)
         (upd_stats (fun c => c <| st_filling ::= dec32 |>) st'))))).
    { apply only_slot_stats; [done|]. apply only_slot_publish, only_slot_upd. by apply only_slot_stats. }
    cbn zeta. repeat first [exact Hmid | apply Hz | apply only_slot_stats; [intros; by repeat case_match|] | case_match].
  - apply only_slot_stats; [done|]. apply only_slot_release. by apply only_slot_stats.
Qed.

Lemma only_slot_finish_run i ok token st : only_slot i st (finish_run i ok token st).2.
Proof.
  unfold finish_run. repeat case_match; cbn [snd]; try apply only_slot_refl.
  - apply only_slot_stats; [done|]. apply only_slot_upd, only_slot_refl.
  - apply only_slot_settle, only_slot_stats; [done|]. apply only_slot_upd, only_slot_refl.
Qed.

Lemma only_slot_iter i token n st : only_slot i st (Nat.iter n (fun st => (finish_run i false token st).2) st).
Proof.
  induction n as [|n IH]; [apply only_slot_refl|]. rewrite Nat.iter_succ.
  eapply only_slot_trans; [exact IH|apply only_slot_finish_run].
Qed.

Lemma only_slot_undisturbed i st st' s : slots st !! i = Some s -> s_state s <> Resident ->
  only_slot i st st' -> undisturbed st st'.
Proof.
  intros Hs Hn [H1 H2]. split; [|done]. intros j u Hu Hr. rewrite H1; [done|]. intros ->. congruence.
Qed.

Lemma reserve_not_full k t st : store_ok st -> free_slots st <> 0 -> reserve_locked k t st <> Fail ResourceExhausted.
Proof.
  intros Hok Hfree Er. unfold free_slots in Hfree. unfold reserve_locked in Er. destruct (cache_frozen st) eqn:Hz.
  - destruct (free_list st) as [|i l] eqn:Hl; [done|].
    destruct (proj1 (ok_free_list _ Hok i)) as (s & Hs & Hf); [rewrite Hl; left|].
    destruct (ok_frozen _ Hok Hz) as [_ Hall]. rewrite (Hall _ _ Hs) in Hf. done.
  - repeat case_match; try done.
Qed.

Lemma begin_fill_free k e st : store_ok st -> key_ok k -> free_slots st <> 0 ->
  match begin_fill k e Cached st with
  | Ret (r, st') => (exists s, slots st !! r_slot r = Some s /\ s_state s = Free) /\ only_slot (r_slot r) st st'
  | Fail err => err <> ResourceExhausted
  end.
Proof.
  intros Hok Hk Hfree. destruct (begin_fill k e Cached st) as [[r st']|err] eqn:E.
  - apply begin_fill_inv in E as (i & a & st1 & Hr & _ & _ & -> & ->). cbn [r_slot].
    destruct (reserve_move _ _ _ _ _ _ Hok Hk Hr) as (s & Hs & Hf & _ & _ & _ & _ & Hmv). split; [eauto|].
    apply only_slot_stats; [done|]. apply only_slot_upd. split.
    + intros j Hj. rewrite (mv_slots _ _ _ _ _ Hmv). by rewrite list_lookup_insert_ne.
    + unfold reserve_locked in Hr. repeat case_match; try done. by injection Hr as <- <- <-.
  - intros ->. unfold begin_fill in E.
    destruct (bool_decide _); [done|]. destruct (Nat.ltb _ _); [done|]. destruct (_ <? _); [done|].
    cbn [fail_if mbind Result_bind] in E.
    destruct (reserve_locked k Cached st) as [[[i a] st1]|err] eqn:Er; [done|]. injection E as ->.
    by apply (reserve_not_full k Cached st Hok Hfree).
Qed.

Section BackfillKeeps.
Context {E : Type} `{IoEngineOk E} (held : nat -> Z).

Lemma fetch_undisturbed k prio token dl cb stamp (p : Planner E) : planner_ok held p -> key_ok k ->
  free_slots (ps_store p) <> 0 ->
  undisturbed (ps_store p) (ps_store (fetch k prio token dl cb stamp p).2).
Proof.
  intros Hok Hk Hfree. unfold fetch. destruct (require_expert _ _) as [e|]; [|done].
  pose proof (begin_fill_free k e (ps_store p) (po_store _ _ _ _ Hok) Hk Hfree) as Hb.
  unfold reserve_for. destruct (begin_fill k e Cached (ps_store p)) as [[r st]|err]; [|by destruct err].
  destruct Hb as [(s & Hs & Hsf) Honly]. apply (only_slot_undisturbed (r_slot r) _ _ s Hs); [by rewrite Hsf|].
  destruct (if stamp =? 0 then next_stamp (p <| ps_store := st |>) else (stamp, p <| ps_store := st |>))
    as [stamp' p2] eqn:Est.
  assert (Hst2 : ps_store p2 = st) by (case_match; unfold next_stamp in *; by simplify_eq).
  destruct (submit_runs _ _ _ _ _ _ _) as [[[ids bytes] err] p4] eqn:Es.
  assert (Hst4 : ps_store p4 = st).
  { rewrite <- Hst2. revert Es. generalize (length (ps_fetches p2)). intros fid.
    change (ps_store p2) with (ps_store (p2 <| ps_fetches ::= fun l => l ++ [mkFetchState (r_slot r) stamp' true cb] |>)).
    generalize (p2 <| ps_fetches ::= fun l => l ++ [mkFetchState (r_slot r) stamp' true cb] |>).
    clear. revert ids bytes err p4. induction (r_runs r) as [|run runs IH]; intros ids bytes err p4 q; simpl.
    - by intros [= <- <- <- <-].
    - destruct (submit_run fid k prio token dl run q) as [[id|err1] q1] eqn:E1.
      + destruct (submit_runs fid k prio token dl runs q1) as [[[? ?] ?] q2] eqn:E2.
        intros [= <- <- <- <-]. rewrite (IH _ _ _ _ _ E2). unfold submit_run in E1. by repeat case_match; simplify_eq.
      + intros [= <- <- <- <-]. unfold submit_run in E1. by repeat case_match; simplify_eq. }
  destruct err; cbn [snd].
  - unfold on_store. cbn. rewrite Hst4. eapply only_slot_trans; [exact Honly|apply only_slot_iter].
  - by destruct prio; cbn; rewrite ?Hst4.
Qed.

Lemma pump_undisturbed fuel b : forall p : Planner E, planner_ok held p ->
  undisturbed (ps_store p) (ps_store (backfill_pump quiet fuel b p)).
Proof.
  induction fuel as [|fuel IH]; intros p Hok; simpl; [done|].
  destruct (ps_backfills p !! b) as [bf|] eqn:Hb; [|done].
  pose proof (order_key_ok held p b bf (bf_next bf) Hok Hb) as Hk.
  destruct (negb _ || _); [done|]. destruct ((free_slots (ps_store p) =? 0) || _) eqn:Hfull.
  { by case_match. }
  apply orb_false_iff in Hfull as [Hfree%Z.eqb_neq _].
  destruct (bool_decide _).
  { apply (IH (in_backfill b (fun x => x <| bf_next ::= S |>) p)). by apply planner_ok_backfill. }
  unfold quiet at 1. set (p1 := in_backfill b _ (in_backfill b _ p)).
  assert (Hok1 : planner_ok held p1) by (apply planner_ok_backfill; [done|]; by apply planner_ok_backfill).
  set (stamp := if bf_keep bf then _ else _).
  pose proof (fetch_undisturbed _ Types.Backfill 0 0 (DoneBackfill b) stamp p1 Hok1 Hk Hfree) as Hu.
  pose proof (fetch_ok held _ Types.Backfill 0 0 (DoneBackfill b) stamp p1 Hk Hok1) as Hf.
  change (ps_store p1) with (ps_store p) in Hu. destruct (fetch _ _ _ _ _ stamp p1) as [[f|err] p2]; cbn [snd] in *.
  - etrans; [exact Hu|]. apply (IH (pstat (fun c => c <| pt_backfill_issued ::= inc64 |>) p2)).
    by apply planner_ok_pstat.
  - case_decide; [|exact Hu]. etrans; [exact Hu|].
    apply (IH (in_backfill b (fun x => x <| bf_inflight ::= dec32 |>) p2)). by apply planner_ok_backfill.
Qed.
End BackfillKeeps.

(** When nothing interferes, a backfill pass only takes free slots: every resident
    expert keeps its slot exactly as it was and no eviction happens, however long the
    order and whatever the engine refuses. *)
Theorem backfill_only_fills {E} `{IoEngineOk E} order inflight keep held (p : Planner E) :
  planner_ok held p -> Forall key_ok order ->
  undisturbed (ps_store p) (ps_store (start_backfill quiet order inflight keep p).2).
Proof.
  intros Hok Ho. unfold start_backfill.
  assert (Hok1 : planner_ok held (stop_backfill p)).
  { unfold stop_backfill. case_match; [by apply planner_ok_backfill|done]. }
  assert (Hst : ps_store (stop_backfill p) = ps_store p) by (unfold stop_backfill; by case_match).
  case_match; [by cbn; rewrite Hst|]. cbn [snd]. rewrite <- Hst. set (p1 := _ <| ps_current := _ |>).
  change (ps_store (stop_backfill p)) with (ps_store p1). apply (pump_undisturbed held).
  destruct Hok1 as [? ? ? G4 ?]. split; try done. apply Forall_app. split; [done|]. by apply Forall_singleton.
Qed.

(** Three experts resident by demand, one slot free. *)
Definition warm_planner : Planner CountingIo :=
  foldl (fun p id => deliver quiet id true p) (plan_layer quiet (route [0; 1; 2]) 1 (example_planner [])).2
    [0; 1; 2; 3; 4; 5; 6; 7; 8].

Lemma quiet_ok held : env_ok held (E := CountingIo) quiet.
Proof. by intros n p. Qed.

Lemma example_planner_ok refused : planner_ok (fun _ => 0) (example_planner refused).
Proof.
  apply (planner_init_ok example_store (mkCountingIo 0 refused) planner_manifest planner_shards PolicyLru);
    [reflexivity|apply example_store_ok|].
  intros i s Hi Hf. revert Hi Hf. do 5 (destruct i as [|i]; [vm_compute; by intros [= <-]|]). done.
Qed.

Lemma delivers_ok ids held (p : Planner CountingIo) : planner_ok held p ->
  planner_ok held (foldl (fun p id => deliver quiet id true p) p ids).
Proof. revert p. induction ids as [|id ids IH]; intros p Hok; simpl; [done|]. apply IH, deliver_ok; [apply quiet_ok|done]. Qed.

Lemma warm_planner_ok : planner_ok (fun _ => 0) warm_planner.
Proof.
  apply delivers_ok, plan_layer_ok; [apply quiet_ok| |apply example_planner_ok].
  repeat constructor; simpl; lia.
Qed.

Lemma backfill_only_fills_witness :
  resident (ps_store warm_planner) (mkKey 0 0) = true /\
  st_evictions (stats (ps_store (start_backfill quiet [mkKey 1 0; mkKey 1 1] 2 false warm_planner).2))
  = st_evictions (stats (ps_store warm_planner)).
Proof.
  split; [vm_compute; reflexivity|].
  apply (backfill_only_fills [mkKey 1 0; mkKey 1 1] 2 false (fun _ => 0) warm_planner warm_planner_ok).
  repeat constructor; simpl; lia.
Defined.

(** Under interference backfill does evict: the pass checks for a free slot, another
    thread's demand read takes the last one, and the pass's own fetch then makes room by
    evicting a resident expert, against "never evict for a guess". *)
Theorem backfill_evicts_under_race :
  let demand n p := if Nat.eqb n 0 then (fetch (mkKey 0 3) BlockingMiss 1 0 DoneNone 0 p).2 else p in
  free_slots (ps_store warm_planner) = 1 /\
  resident (ps_store warm_planner) (mkKey 0 0) = true /\
  let p := (start_backfill demand [mkKey 1 0] 2 false warm_planner).2 in
  resident (ps_store p) (mkKey 0 0) = false /\
  st_evictions (stats (ps_store p)) = 1 /\ is_filling (mkKey 1 0) (ps_store p) = true.
Proof. vm_compute. done. Qed.

(** ** Victims *)

Lemma worse_asym a b : worse a b = true -> worse b a = false.
Proof.
  unfold worse. rewrite (Z.eqb_sym (s_last_use_token b)).
  destruct (Z.eqb_spec (s_last_use_token a) (s_last_use_token b)) as [E|E]; simpl.
  - rewrite Nat.ltb_lt, Nat.ltb_ge. lia.
  - rewrite Z.ltb_lt, Z.ltb_ge. lia.
Qed.

Lemma worse_neg_trans a b c : worse a b = false -> worse b c = false -> worse a c = false.
Proof.
  unfold worse.
  destruct (Z.eqb_spec (s_last_use_token a) (s_last_use_token b)),
    (Z.eqb_spec (s_last_use_token b) (s_last_use_token c)),
    (Z.eqb_spec (s_last_use_token a) (s_last_use_token c)); simpl;
    rewrite ?Nat.ltb_ge, ?Z.ltb_ge; lia.
Qed.

(** [choose_victims] returns the [count] worst candidates and no others, oldest stamp
    first and lowest slot among equals: nothing it leaves out ranks before anything it
    returns. *)
Theorem choose_victims_spec c count :
  exists chosen rest, choose_victims c count = s_slot <$> chosen /\ chosen ++ rest ≡ₚ c /\
    length chosen = Nat.min count (length c) /\ sorted_by worse chosen /\
    (forall v r, v ∈ chosen -> r ∈ rest -> worse r v = false).
Proof.
  exists (take count (std_sort worse c)), (drop count (std_sort worse c)).
  assert (Hs : sorted_by worse (std_sort worse c)).
  { apply (std_sort_sorted worse (fun _ => True)).
    - intros x y z _ _ _. apply worse_neg_trans.
    - intros x y _ _. apply worse_asym.
    - by apply Forall_true. }
  split; [done|]. split; [rewrite take_drop; apply std_sort_perm|].
  split; [rewrite length_take; by rewrite std_sort_perm|].
  rewrite <- (take_drop count (std_sort worse c)) in Hs. apply StronglySorted_app in Hs as (Hvr & Hch & _).
  split; [done|]. intros v r Hv Hr. by apply Hvr.
Qed.

(** ** Streamed admission *)

(** Residents stay resident with their experts. *)
Definition residents_kept (st st' : ExpertStore) : Prop :=
  forall i s, slots st !! i = Some s -> s_state s = Resident -> exists t, slots st' !! i = Some t /\ kept s t.

Lemma kept_step op st : store_ok st -> op_typed op -> (forall i, ~ evicts op i) ->
  residents_kept st (store_step op st).
Proof.
  intros Hok Hop He i s Hs Hr.
  destruct (store_step_steps op st i s Hok Hop Hs) as (t & Ht & Hstep & _). exists t. split; [done|].
  destruct Hstep; try done; try congruence. by destruct (He i).
Qed.

Lemma residents_kept_trans a b c : residents_kept a b -> residents_kept b c -> residents_kept a c.
Proof.
  intros H1 H2 i s Hs Hr. destruct (H1 i s Hs Hr) as (t & Ht & Hk).
  destruct (H2 i t Ht) as (u & Hu & Hk'); [by rewrite (kp_state _ _ Hk)|]. exists u. split; [done|]. by eapply kept_trans.
Qed.

Lemma residents_kept_refl st : residents_kept st st.
Proof. intros i s Hs _. exists s. split; [done|apply kept_refl]. Qed.

Lemma touch_kept k stamp f st : store_ok st -> residents_kept st (touch k stamp f st).2.
Proof.
  intros Hok. apply (kept_step (OpTouch k stamp f)); try done. by intros i [].
Qed.

Lemma admit_touch_ok k stamp st : store_ok st ->
  store_ok (admit_touch k stamp [] st) /\ residents_kept st (admit_touch k stamp [] st).
Proof.
  intros Hok. unfold admit_touch.
  assert (Ht : forall st, store_ok st -> store_ok (touch k stamp false st).2) by (intros; by apply touch_ok).
  pose proof (Ht st Hok) as Hok1. pose proof (touch_kept k stamp false st Hok) as Hk1.
  destruct (touch k stamp false st) as [[] st1]; cbn [snd] in *; [done|]. cbn [wait_settled].
  replace (if is_filling k st1 then (resident st1 k, st1) else (resident st1 k, st1))
    with (resident st1 k, st1) by (by destruct (is_filling k st1)).
  destruct (resident st1 k); [|done]. split; [by apply Ht|].
  eapply residents_kept_trans; [exact Hk1|by apply touch_kept].
Qed.

(** The slot reserved by a streamed admission. *)
Definition reserved_for (st : ExpertStore) (k : ExpertKey) (a : StreamAdmit) : Prop :=
  exists s, slots st !! sa_slot a = Some s /\ s_key s = k /\ s_state s = Filling.

Lemma begin_fill_opt_reserved k e st r st' : store_ok st -> key_ok k -> begin_fill_opt k e st = Ret (r, st') ->
  exists s, slots st' !! r_slot r = Some s /\ s_key s = k /\ s_state s = Filling.
Proof.
  intros Hok Hk. destruct e as [e|]; simpl; intros E.
  - destruct (begin_fill_filling _ _ _ _ _ _ Hok Hk E) as (s & Hs & Hf & Hkey & _). by exists s.
  - apply begin_fill_planar_inv in E as (i & a & st1 & Hr & -> & ->).
    destruct (reserve_move _ _ _ _ _ _ Hok Hk Hr) as (s & Hs & _ & _ & _ & _ & _ & Hmv).
    eexists. split; [eapply upd_slot_lookup_eq; by eapply slot_move_new|]. done.
Qed.

Lemma begin_fill_opt_kept k e st r st' : store_ok st -> key_ok k -> begin_fill_opt k e st = Ret (r, st') ->
  residents_kept st st'.
Proof.
  intros Hok Hk E. destruct e as [e|]; simpl in E.
  - pose proof (kept_step (OpBeginFill k e Cached) st Hok Hk) as Hs. simpl in Hs. rewrite E in Hs. apply Hs. by intros i [].
  - pose proof (kept_step (OpBeginFillPlanar k Cached) st Hok Hk) as Hs. simpl in Hs. rewrite E in Hs. apply Hs. by intros i [].
Qed.

Lemma oldest_evictable_some st o : oldest_evictable_stamp st = Some o ->
  exists i s, slots st !! i = Some s /\ is_evictable st s = true /\ s_last_use_token s = o.
Proof.
  unfold oldest_evictable_stamp. destruct (fixed_cache st); [done|].
  assert (Hg : forall l best, (forall s, s ∈ l -> s ∈ slots st) ->
    (forall v, best = Some v -> exists s, s ∈ slots st /\ is_evictable st s = true /\ s_last_use_token s = v) ->
    foldl (fun best s => if is_evictable st s then
        match best with
        | None => Some (s_last_use_token s)
        | Some b => if s_last_use_token s <? b then Some (s_last_use_token s) else best
        end else best) best l = Some o ->
    exists s, s ∈ slots st /\ is_evictable st s = true /\ s_last_use_token s = o).
  { induction l as [|x l IH]; intros best Hl Hb; simpl; [by apply Hb|]. apply IH.
    - intros s Hs. apply Hl. by right.
    - intros v. destruct (is_evictable st x) eqn:Ex; [|by apply Hb].
      assert (Hx : x ∈ slots st) by (apply Hl; left).
      destruct best as [b|]; [case_match; [|by apply Hb]|]; intros [= <-]; by exists x. }
  intros Ho. destruct (Hg (slots st) None ltac:(done) ltac:(done) Ho) as (s & Hs & ? & ?).
  apply list_elem_of_lookup in Hs as [i Hs]. by exists i, s.
Qed.

Definition admitted (k : ExpertKey) (stamp guard : Z) (st : ExpertStore) (a : StreamAdmit) (st' : ExpertStore) : Prop :=
  match sa_kind a with
  | StreamResident => exists s, slots st' !! sa_slot a = Some s /\ s_key s = k /\ s_state s = Resident /\
      guard <= s_guard_timeline s /\ residents_kept st st'
  | StreamFill => reserved_for st' k a /\
      forall i s, slots st !! i = Some s -> s_state s = Resident ->
        (exists t, slots st' !! i = Some t /\ kept s t) \/
        (s_last_use_token s < stamp /\ is_evictable st s = true)
  | StreamDrop => residents_kept st st'
  end.

Lemma admit_new_admitted k stamp e guard st a st' : store_ok st -> key_ok k -> evict_path st = EvictOff ->
  admit_new k stamp e st = (Ret a, st') -> admitted k stamp guard st a st'.
Proof.
  intros Hok Hk Hpath. unfold admit_new.
  destruct (free_slots st =? 0) eqn:Hfree.
  2: { destruct (begin_fill_opt k e st) as [[r st1]|err] eqn:E.
       - intros [= <- <-]. split; [exact (begin_fill_opt_reserved k e st r st1 Hok Hk E)|].
         intros i s Hs Hr. left. by apply (begin_fill_opt_kept k e st r st1 Hok Hk E).
       - destruct err; intros [= <- <-]; apply residents_kept_refl. }
  destruct (oldest_evictable_stamp st) as [o|] eqn:Ho; [|intros [= <- <-]; apply residents_kept_refl].
  destruct (Z.leb_spec stamp o); [intros [= <- <-]; apply residents_kept_refl|].
  destruct (evict_lru st) as [[v|err] st1] eqn:Ev.
  2: { intros [= <- <-]. unfold evict_lru in Ev. repeat case_match; simplify_eq; apply residents_kept_refl. }
  destruct (evict_lru_inv _ _ _ Ev) as (s & Hs & He & Hfx & ->).
  pose proof He as He'. apply is_evictable_spec in He' as (Hres & Ht & _).
  pose proof (drop_resident_ok v s st Hok Hs Hres Ht Hfx) as Hok1.
  pose proof (drop_resident_move v s st Hok Hs Hres Ht Hfx) as Hmv.
  assert (Hold : s_last_use_token s <= o).
  { destruct (oldest_evictable_some st o Ho) as (j & u & Hu & Hue & <-).
    unfold evict_lru in Ev. rewrite Hfx, Hpath in Ev. pose proof (scan_oldest st None (fun _ => true)
      (fun x => eq_trans (candidate_all st x) (eq_sym (andb_true_r _)))) as Hsc.
    destruct (scan st None) as [w|]; [|done]. injection Ev as -> _.
    destruct Hsc as (s' & Hs' & _ & _ & Hmin). simplify_eq. by apply (Hmin j u). }
  destruct (begin_fill_opt k e (drop_resident v st)) as [[r st2]|err] eqn:E.
  - intros [= <- <-]. split; [exact (begin_fill_opt_reserved k e _ r st2 Hok1 Hk E)|].
    intros i u Hu Hur. destruct (decide (i = v)) as [->|Hne].
    + right. simplify_eq. split; [lia|done].
    + left. apply (begin_fill_opt_kept k e _ r st2 Hok1 Hk E); [|done]. by apply (slot_move_old _ _ _ _ _ Hmv).
  - assert (Hfree1 : free_slots (drop_resident v st) <> 0).
    { unfold free_slots. rewrite (free_list_length _ Hok1).
      pose proof (count_pos (in_state Free) _ v _ (slot_move_new _ _ _ _ _ Hs Hmv) eq_refl). lia. }
    destruct err; try (by intros [= <- <-]). exfalso. destruct e as [e|]; simpl in E.
    + pose proof (begin_fill_free k e _ Hok1 Hk Hfree1) as Hb. by rewrite E in Hb.
    + unfold begin_fill_planar in E. destruct (reserve_locked _ _ _) as [[[? ?] ?]|err'] eqn:Er; [done|].
      injection E as ->. by apply (reserve_not_full k Cached _ Hok1 Hfree1).
Qed.

Lemma resident_slot st k i s : store_ok st -> slots st !! i = Some s -> s_state s = Resident -> s_key s = k ->
  resident st k = true.
Proof.
  intros Hok Hs Hr Hk. apply bool_decide_eq_true. exists (i, s). by apply find_resident_Some; [apply Hok|].
Qed.

Lemma touch_true_resident k stamp st st' : store_ok st -> touch k stamp false st = (true, st') -> resident st' k = true.
Proof.
  intros Hok E. pose proof (touch_ok k stamp false st Hok) as Hok'. pose proof (touch_kept k stamp false st Hok) as Hk.
  rewrite E in *. cbn [snd] in *. unfold touch in E. destruct (find_slot st k) as [[i s]|] eqn:Hf; [|done].
  destruct (find_slot_Some _ _ _ _ Hok Hf) as (Hs & _ & Hkey & _).
  destruct (bool_decide (s_state s = Resident)) eqn:Hr; [|done]. apply bool_decide_eq_true in Hr.
  destruct (Hk i s Hs Hr) as (t & Ht & Hkt). apply (resident_slot st' k i t); try done.
  - by rewrite (kp_state _ _ Hkt).
  - by rewrite (kp_key _ _ Hkt).
Qed.

Lemma touch_false_same k stamp st st' : touch k stamp false st = (false, st') -> st' = st.
Proof. unfold touch. intros E. by repeat case_match; simplify_eq. Qed.

Lemma admit_touch_absent k stamp st : store_ok st -> resident (admit_touch k stamp [] st) k = false ->
  admit_touch k stamp [] st = st.
Proof.
  intros Hok. unfold admit_touch. destruct (touch k stamp false st) as [[] st1] eqn:E.
  - by rewrite (touch_true_resident _ _ _ _ Hok E).
  - apply touch_false_same in E as ->. cbn [wait_settled].
    replace (if is_filling k st then (resident st k, st) else (resident st k, st))
      with (resident st k, st) by (by destruct (is_filling k st)).
    destruct (resident st k) eqn:Hr; [|done]. intros Hr2.
    destruct (touch k stamp false st) as [[] st2] eqn:E2; cbn [snd] in *.
    + by rewrite (touch_true_resident _ _ _ _ Hok E2) in Hr2.
    + by apply touch_false_same in E2 as ->.
Qed.

Lemma index_upd_slot i f st k : index (upd_slot i f st) !! k = index st !! k.
Proof. done. Qed.

Lemma touch_index k stamp f st : index (touch k stamp f st).2 = index st.
Proof. unfold touch. by repeat case_match. Qed.

Lemma admit_touch_index k stamp st : index (admit_touch k stamp [] st) = index st.
Proof.
  unfold admit_touch. pose proof (touch_index k stamp false st) as H1.
  destruct (touch k stamp false st) as [[] st1]; cbn [snd] in H1; [done|]. cbn [wait_settled].
  replace (if is_filling k st1 then (resident st1 k, st1) else (resident st1 k, st1))
    with (resident st1 k, st1) by (by destruct (is_filling k st1)).
  destruct (resident st1 k); [by rewrite touch_index|done].
Qed.

(** [admit_streamed] on a settled store answers in one of three ways: Resident, the
    expert's own slot, guarded through [guard]; Fill, a slot reserved for it, freed if need
    be by evicting only an expert with an older stamp; or Drop, with nothing evicted. *)
Theorem admit_streamed_spec {B} `{SlabBacking B} (bk : option B) spp budget ls es st k stamp e guard a st' :
  0 <= ls -> 0 <= es -> reachable bk spp budget ls es st -> key_ok k -> evict_path st = EvictOff ->
  admit_streamed k stamp e guard [] st = (Ret a, st') -> admitted k stamp guard st a st'.
Proof.
  intros Hls Hes Hr Hk Hpath. pose proof (reachable_ok _ _ _ _ _ _ Hls Hes Hr) as Hok.
  unfold admit_streamed. destruct (slot_of k st) as [i|] eqn:Hi; [|by apply admit_new_admitted].
  destruct (admit_touch_ok k stamp st Hok) as [Hok1 Hkept].
  destruct (resident (admit_touch k stamp [] st) k) eqn:Hres.
  2: { unfold admit_held. rewrite Hres, (admit_touch_absent _ _ _ Hok Hres). by apply admit_new_admitted. }
  unfold admit_held. rewrite Hres. pose proof (admit_touch_index k stamp st) as Hix. set (st1 := admit_touch k stamp [] st) in *.
  apply bool_decide_eq_true in Hres as [[j s] Hf].
  apply find_resident_Some in Hf as (Hs & Hsr & Hkey); [|apply Hok1].
  assert (j = i) as ->.
  { pose proof (ok_held _ Hok1 j s Hs ltac:(by rewrite Hsr)) as Hx. rewrite Hix, Hkey in Hx.
    unfold slot_of in Hi. congruence. }
  unfold set_guard. rewrite Hs. intros Heq. injection Heq as <- <-. unfold admitted. cbn [sa_kind sa_slot].
  eexists. split; [by apply upd_slot_lookup_eq|]. cbn. split; [done|]. split; [done|]. split.
  - destruct (Z.ltb_spec (s_guard_timeline s) guard); lia.
  - eapply residents_kept_trans; [exact Hkept|].
    pose proof (kept_step (OpSetGuard i guard) st1 Hok1 I ltac:(by intros ? [])) as Hg.
    simpl in Hg. unfold set_guard in Hg. rewrite Hs in Hg. exact Hg.
Qed.

Lemma admit_streamed_spec_witness :
  exists a st', admit_streamed (mkKey 0 3) 6 (Some example_entry) 20 [] (run_ops example_ops example_store) = (Ret a, st') /\
    sa_kind a = StreamFill /\ reserved_for st' (mkKey 0 3) a.
Proof.
  do 2 eexists. split; [vm_compute; reflexivity|]. split; [reflexivity|].
  refine (proj1 (admit_streamed_spec (Some example_host) 2 (4 * kExpertSlotBytes) 2 4
    (run_ops example_ops example_store) (mkKey 0 3) 6 (Some example_entry) 20
    (mkStreamAdmit StreamFill 2 (mkSlotAddress 8589934592 0)) _ ltac:(lia) ltac:(lia) example_reachable _ _ _));
    [unfold key_ok; simpl; lia|reflexivity|vm_compute; reflexivity].
Defined.

(** With fills outstanding, streamed admission depends on the order of arrival: of the
    stamps 1, 5, 6, 7 and 3 on four slots the newest four are kept when the stamp-1 fill
    settles before 3 arrives, but if 3 arrives first it is dropped and the oldest stays. *)
Theorem admission_order_matters :
  let a := mkKey 0 0 in let c := mkKey 1 3 in
  let st := run_ops [OpBeginFillPlanar a Cached;
     OpBeginFillPlanar (mkKey 0 1) Cached; OpFinishFill 1 true 5; OpBeginFillPlanar (mkKey 0 2) Cached;
     OpFinishFill 2 true 6; OpBeginFillPlanar (mkKey 0 3) Cached; OpFinishFill 3 true 7] example_store in
  let settle st := (finish_fill 0 true 1 st).2 in
  let admitted st :=
    match admit_streamed c 3 None 0 [] st with
    | (Ret x, st) => (finish_streamed x true 3 st).2
    | (_, st) => st
    end in
  (resident (admitted (settle st)) c = true /\ resident (admitted (settle st)) a = false) /\
  (resident (settle (admitted st)) c = false /\ resident (settle (admitted st)) a = true).
Proof. vm_compute. done. Qed.
