(* ===== verification/IoTuning.v ===== *)
(** Configuration of the I/O engine ([src/core/config.h], [src/storage/io_engine.cpp]): the
    limits [start] settles on, and the chunks a request is cut into. *)

From S2P Require Import Prelude Types Floats.

(** ** Limits *)

Record IoConfig := mkIoConfig {
  chunk_bytes : Z; max_inflight_bytes : Z; max_inflight_ops : Z;
  cfg_p0_chunk_bytes : Z; cfg_p0_qd : Z; cfg_engram_qd : Z }.
#[export] Instance IoConfig_eta : Eta IoConfig := fun c =>
  mkIoConfig (chunk_bytes c) (max_inflight_bytes c) (max_inflight_ops c)
    (cfg_p0_chunk_bytes c) (cfg_p0_qd c) (cfg_engram_qd c).

(** [IoConfig{}] *)
Definition IoConfig_default : IoConfig := mkIoConfig (Z.shiftl 4 20) (Z.shiftl 32 20) 8 0 0 0.

(** What the environment overrides ([configuration::IoOverrides]). *)
Record IoOverrides := mkIoOverrides {
  o_bg_cap_busy : option Z; o_bg_qd : option Z; o_p0_qd : option Z; o_p0_inflight_mb : option Z;
  o_p0_chunk_mb : option Z; o_engram_qd : option Z; o_submit_threads : option Z;
  o_throttle_engram : bool; o_error_budget : Z; o_keepalive_ms : Z; o_static_split : float;
  o_stripe : bool; o_route_classes : option Z; o_mirror_hot_c : Z }.

(** [BackendCaps] *)
Record BackendCaps := mkCaps { alignment : Z; max_queue_depth : Z; max_chunk_bytes : Z }.

Record Tuning := mkTuning {
  bg_cap_busy : Z; throttle_engram : bool; p0_qd : Z; p0_inflight_bytes : Z; p0_chunk_bytes : Z;
  bg_qd : Z; bg_inflight_bytes : Z; engram_qd : Z; submit_threads : Z }.
#[export] Instance Tuning_eta : Eta Tuning := fun t =>
  mkTuning (bg_cap_busy t) (throttle_engram t) (p0_qd t) (p0_inflight_bytes t) (p0_chunk_bytes t)
    (bg_qd t) (bg_inflight_bytes t) (engram_qd t) (submit_threads t).

Definition kBackgroundOpsWhileBusy : Z := 1.
(** The two platforms differ in the submit threads and in [runtime_shape]. *)
Definition kDefaultSubmitThreads (windows : bool) : Z := if windows then 8 else 1.

(** [if (v) x = *v] and [a ? a : b] *)
Definition override (o : option Z) (x : Z) : Z := default x o.
Definition or_else (a b : Z) : Z := if a =? 0 then b else a.
Definition mb_override (o : option Z) (x : Z) : Z :=
  if default 0 o =? 0 then x else u64 (Z.shiftl (default 0 o) 20).

Definition resolve_tuning (windows : bool) (cfg : IoConfig) (o : IoOverrides) : Tuning :=
  let d := IoConfig_default in
  let bg := override (o_bg_qd o) (Z.min (max_inflight_ops cfg) (max_inflight_ops d)) in
  let threads := override (o_submit_threads o) (kDefaultSubmitThreads windows) in
  {| bg_cap_busy := override (o_bg_cap_busy o) kBackgroundOpsWhileBusy;
     throttle_engram := o_throttle_engram o;
     p0_qd := override (o_p0_qd o) (or_else (cfg_p0_qd cfg) (max_inflight_ops cfg));
     p0_inflight_bytes := mb_override (o_p0_inflight_mb o) (max_inflight_bytes cfg);
     p0_chunk_bytes :=
       u32 (mb_override (o_p0_chunk_mb o) (or_else (cfg_p0_chunk_bytes cfg) (chunk_bytes cfg)));
     bg_qd := bg;
     bg_inflight_bytes := Z.min (max_inflight_bytes cfg) (max_inflight_bytes d);
     engram_qd := override (o_engram_qd o) (or_else (cfg_engram_qd cfg) bg);
     submit_threads := Z.min 16 (or_else threads 1) |}.

(** The ring has to hold the deepest class; [max_inflight_bytes] is 32 bits wide. *)
Definition widen_for_env (windows : bool) (o : IoOverrides) (cfg : IoConfig) : IoConfig :=
  let t := resolve_tuning windows cfg o in
  let cfg := if max_inflight_ops cfg <? engram_qd t then
               (if cfg_p0_qd cfg =? 0 then cfg <| cfg_p0_qd := max_inflight_ops cfg |> else cfg)
                 <| max_inflight_ops := engram_qd t |>
             else cfg in
  let cfg := if max_inflight_ops cfg <? p0_qd t then cfg <| max_inflight_ops := p0_qd t |> else cfg in
  let cfg := if max_inflight_bytes cfg <? p0_inflight_bytes t
             then cfg <| max_inflight_bytes := u32 (p0_inflight_bytes t) |> else cfg in
  if chunk_bytes cfg <? p0_chunk_bytes t then cfg <| chunk_bytes := p0_chunk_bytes t |> else cfg.

Definition runtime_shape (windows : bool) (o : IoOverrides) (cfg : IoConfig) : IoConfig :=
  let cfg := cfg <| max_inflight_ops ::= fun n => Z.max n 24 |>
                 <| max_inflight_bytes ::= fun n => Z.max n (Z.shiftl 96 20) |> in
  let cfg := if windows then cfg
             else cfg <| cfg_p0_chunk_bytes ::= fun n => or_else n (Z.shiftl 1 20) |>
                      <| cfg_p0_qd ::= fun n => or_else n 8 |>
                      <| cfg_engram_qd ::= fun n => or_else n 512 |> in
  widen_for_env windows o cfg.

(** The limits [start] leaves the engine with: its configuration and its tuning clamped to
    what the backend can take, and the chunk size of the background classes. *)
Record Limits := mkLimits { l_cfg : IoConfig; l_tune : Tuning; l_bg_chunk : Z }.

Definition start_limits (windows : bool) (caps : BackendCaps) (o : IoOverrides) (cfg : IoConfig) : Limits :=
  let cfg := cfg <| chunk_bytes ::= fun n => Z.min n (max_chunk_bytes caps) |>
                 <| max_inflight_ops ::= fun n => Z.min n (max_queue_depth caps) |> in
  let t := resolve_tuning windows cfg o in
  let d := chunk_bytes IoConfig_default in
  let bg := if (d <? p0_chunk_bytes t) && (d <? chunk_bytes cfg) then d else chunk_bytes cfg in
  mkLimits cfg
    (t <| p0_qd ::= fun n => Z.min n (max_queue_depth caps) |>
       <| engram_qd ::= fun n => Z.min n (max_queue_depth caps) |>
       <| p0_chunk_bytes ::= fun n => Z.min n (max_chunk_bytes caps) |>) bg.

(** ** Cutting a request into chunks *)

Record Chunk := mkChunk { ch_off : Z; ch_bytes : Z }.

(** The step between chunks: the limit rounded down to the alignment. *)
Definition chunk_step (max_chunk align : Z) : Z :=
  let s := if align =? 0 then max_chunk else u32 (align_down max_chunk align) in
  if s =? 0 then (if align =? 0 then max_chunk else align) else s.

(** The loop of [plan_chunks]; what is left over when the fuel ends comes second. *)
Fixpoint chunk_loop (fuel : nat) (step cur rem : Z) : list Chunk * Z :=
  match fuel with
  | O => ([], rem)
  | S fuel =>
      if rem =? 0 then ([], rem)
      else let n := u32 (Z.min step rem) in
           let '(cs, r) := chunk_loop fuel step (u64 (cur + n)) (rem - n) in
           (mkChunk cur n :: cs, r)
  end.

(** The fuel is the count [plan_chunks] reserves room for. *)
Definition chunk_count (bytes step : Z) : nat := Z.to_nat ((bytes + step - 1) / step).

Definition plan_chunks (off bytes max_chunk align : Z) : list Chunk :=
  if (bytes =? 0) || (max_chunk =? 0) then []
  else let s := chunk_step max_chunk align in (chunk_loop (chunk_count bytes s) s off bytes).1.

(** ** [plan_chunks] covers the range *)

(** [cs] are non-empty pieces that follow each other from [off] to [fin]. *)
Fixpoint tiles (off : Z) (cs : list Chunk) (fin : Z) : Prop :=
  match cs with
  | [] => off = fin
  | c :: cs => ch_off c = off /\ 0 < ch_bytes c /\ tiles (off + ch_bytes c) cs fin
  end.

Lemma tiles_sum off cs fin : tiles off cs fin -> off + sum_Z (map ch_bytes cs) = fin.
Proof.
  revert off. induction cs as [|c cs IH]; intros off; cbn; [lia|].
  intros (_ & _ & H%IH). unfold sum_Z in H. lia.
Qed.

Lemma tiles_le off cs fin : tiles off cs fin -> off <= fin.
Proof. revert off. induction cs as [|c cs IH]; intros off; cbn; [lia|]. intros (_ & Hp & H%IH). lia. Qed.

Lemma chunk_count_more bytes step : 0 < step -> 0 < bytes ->
  chunk_count bytes step = S (chunk_count (bytes - Z.min step bytes) step).
Proof.
  intros. unfold chunk_count. destruct (Z.le_gt_cases step bytes).
  - rewrite Z.min_l by lia. replace (bytes + step - 1) with (bytes - step + step - 1 + 1 * step) by lia.
    rewrite Z.div_add, Z2Nat.inj_add by (lia || apply Z.div_pos; lia). lia.
  - rewrite Z.min_r by lia. replace (bytes + step - 1) with (bytes - 1 + 1 * step) by lia.
    rewrite Z.div_add, !Z.div_small by lia. done.
Qed.

Lemma chunk_loop_tiles fuel step cur rem : 0 < step < 2 ^ 32 -> 0 <= rem -> 0 <= cur ->
  cur + rem < 2 ^ 64 -> fuel = chunk_count rem step ->
  let '(cs, r) := chunk_loop fuel step cur rem in
  r = 0 /\ tiles cur cs (cur + rem) /\ Forall (fun c => ch_bytes c <= step) cs /\
  (forall i c, cs !! i = Some c -> ch_off c = cur + Z.of_nat i * step) /\
  (forall i c, cs !! i = Some c -> (S i < length cs)%nat -> ch_bytes c = step).
Proof.
  intros Hs. revert cur rem. induction fuel as [|fuel IH]; intros cur rem Hr Hc Hb Hf.
  - assert (rem = 0) as -> by (unfold chunk_count in Hf; div_lia).
    cbn. split_and!; [done|lia|by apply Forall_nil|..]; by intros i c Hi; rewrite lookup_nil in Hi.
  - cbn [chunk_loop]. destruct (Z.eqb_spec rem 0) as [->|Hne].
    { unfold chunk_count in Hf. by rewrite Z.div_small in Hf by lia. }
    rewrite (u32_small (Z.min step rem)), (u64_small (cur + _)) by lia.
    rewrite chunk_count_more in Hf by lia. injection Hf as Hf.
    assert (Hf' : fuel = chunk_count (rem - Z.min step rem) step) by done.
    specialize (IH (cur + Z.min step rem) (rem - Z.min step rem) ltac:(lia) ltac:(lia) ltac:(lia) Hf').
    destruct (chunk_loop _ _ _ _) as [cs r]. destruct IH as (-> & Ht & Hle & Hoff & Hfull).
    replace (cur + Z.min step rem + (rem - Z.min step rem)) with (cur + rem) in Ht by lia.
    assert (Hmin : cs <> [] -> Z.min step rem = step).
    { intros Hcs. destruct cs as [|c cs]; [done|]. destruct Ht as (_ & Hp & Hle'%tiles_le). lia. }
    split_and!; [done| |constructor; [cbn; lia|done]| |].
    + cbn. split_and!; [done|lia|done].
    + intros [|i] c; cbn; [intros [= <-]; cbn; lia|]. intros Hi. specialize (Hoff i c Hi).
      rewrite Hmin in Hoff; [lia|]. by intros ->.
    + intros [|i] c; cbn; [intros [= <-]; cbn; destruct cs; cbn; [lia|auto]|].
      intros Hi Hl. apply (Hfull i c Hi). lia.
Qed.

(** Either no alignment or a power of two that fits. *)
Definition alignment_ok (align : Z) : Prop := align = 0 \/ exists k, 0 <= k < 32 /\ align = 2 ^ k.

Lemma page_alignment_ok : alignment_ok 4096.
Proof. right. exists 12. split; [lia|done]. Qed.

Lemma chunk_step_spec max_chunk align : 0 < max_chunk < 2 ^ 32 -> alignment_ok align ->
  let s := chunk_step max_chunk align in
  0 < s < 2 ^ 32 /\ (align <= max_chunk -> s <= max_chunk) /\ (align <> 0 -> s mod align = 0).
Proof.
  intros Hm [->|(k & Hk & ->)]; unfold chunk_step; cbn zeta.
  - cbn. rewrite (proj2 (Z.eqb_neq max_chunk 0)) by lia. lia.
  - assert (0 < 2 ^ k < 2 ^ 32) by (split; [apply Z.pow_pos_nonneg|apply Z.pow_lt_mono_r]; lia).
    rewrite (proj2 (Z.eqb_neq (2 ^ k) 0)), align_down_spec by lia.
    pose proof (Z.mod_pos_bound max_chunk (2 ^ k)) as Hr.
    rewrite u32_small by (pose proof (Z.mod_le max_chunk (2 ^ k)); lia).
    destruct (Z.eqb_spec (max_chunk - max_chunk mod 2 ^ k) 0) as [Hz|Hz].
    + split; [lia|]. split; [lia|]. intros _. apply Z.mod_same. lia.
    + split; [pose proof (Z.mod_le max_chunk (2 ^ k)); lia|]. split; [lia|]. intros _.
      rewrite Zminus_mod_idemp_r, Z.sub_diag. by apply Z.mod_0_l; lia.
Qed.

(** Cutting a request into chunks ends with nothing left over: the chunks are non-empty,
    follow each other and cover exactly the requested range; none is longer than the step,
    which is at most the class's chunk size (when that is at least one sector); and if the
    request starts on a sector boundary every chunk does, and every chunk but the last is
    one full step. *)
Theorem plan_chunks_tiles off bytes max_chunk align :
  0 <= off -> 0 < bytes -> off + bytes < 2 ^ 64 -> 0 < max_chunk < 2 ^ 32 -> alignment_ok align ->
  let s := chunk_step max_chunk align in
  let cs := plan_chunks off bytes max_chunk align in
  (chunk_loop (chunk_count bytes s) s off bytes).2 = 0 /\
  tiles off cs (off + bytes) /\
  Forall (fun c => ch_bytes c <= s) cs /\ (align <= max_chunk -> s <= max_chunk) /\
  (forall i c, cs !! i = Some c ->
     (align <> 0 -> off mod align = 0 -> ch_off c mod align = 0) /\
     ((S i < length cs)%nat -> ch_bytes c = s)).
Proof.
  intros Ho Hb Hob Hm Ha s cs. destruct (chunk_step_spec max_chunk align Hm Ha) as (Hs & Hle & Hmod).
  fold s in Hs, Hle, Hmod.
  pose proof (chunk_loop_tiles (chunk_count bytes s) s off bytes Hs ltac:(lia) Ho Hob eq_refl) as H.
  unfold cs, plan_chunks. rewrite (proj2 (Z.eqb_neq bytes 0)), (proj2 (Z.eqb_neq max_chunk 0)) by lia.
  cbn [orb]. fold s. destruct (chunk_loop _ _ _ _) as [l r]. cbn [fst snd].
  destruct H as (-> & Ht & Hl & Hoff & Hfull).
  split_and!; [done|done|done|done|]. intros i c Hi. split; [|by apply Hfull]. intros Hne Hz.
  destruct Ha as [?|(k & Hk & ->)]; [lia|]. assert (0 < 2 ^ k) by (apply Z.pow_pos_nonneg; lia).
  rewrite (Hoff i c Hi), Zplus_mod, Hz, Z.mul_mod, Hmod by lia.
  rewrite Z.mul_0_r, !Z.mod_0_l by lia. done.
Qed.

(** A 9.4 MB run in 4 MiB chunks: three of them. *)
Lemma plan_chunks_tiles_witness :
  length (plan_chunks 8192 9404416 4194304 4096) = 3%nat /\
  tiles 8192 (plan_chunks 8192 9404416 4194304 4096) 9412608.
Proof.
  split; [vm_compute; reflexivity|].
  destruct (plan_chunks_tiles 8192 9404416 4194304 4096 ltac:(lia) ltac:(lia) ltac:(lia) ltac:(lia) page_alignment_ok) as (_ & H & _). exact H.
Defined.

(** ** The limits [start] settles on *)

Definition overrides_default : IoOverrides :=
  mkIoOverrides None None None None None None None false 8 0 f64_zero true None 0.

(** The deepest queue any class may reach: an engram read rescued past a P0 burst included. *)
Definition kEngramWaitChunks : Z := 96.
Definition rescue_qd (t : Tuning) : Z := Z.min (engram_qd t) (p0_qd t + kEngramWaitChunks).
Definition depth_cap (t : Tuning) : Z := Z.max (Z.max (p0_qd t) (bg_qd t)) (engram_qd t).

(** Without an override of the background depth no class runs deeper than the backend's queue. *)
Lemma start_limits_depth windows caps o cfg : o_bg_qd o = None ->
  depth_cap (l_tune (start_limits windows caps o cfg)) <= max_queue_depth caps.
Proof. intros Ho. unfold depth_cap, start_limits, resolve_tuning. rewrite Ho. cbn. lia. Qed.

(** With one it does: [start] clamps the depth of P0 and of the engram class only, so the
    comment in [do_submit] that no class's cap is above the backend's is wrong. *)
Lemma bg_depth_not_clamped :
  let o := {| o_bg_cap_busy := None; o_bg_qd := Some 1000; o_p0_qd := None; o_p0_inflight_mb := None;
              o_p0_chunk_mb := None; o_engram_qd := None; o_submit_threads := None;
              o_throttle_engram := false; o_error_budget := 8; o_keepalive_ms := 0;
              o_static_split := f64_zero; o_stripe := true; o_route_classes := None;
              o_mirror_hot_c := 0 |} in
  let caps := mkCaps 4096 64 (Z.shiftl 32 20) in
  max_queue_depth caps < bg_qd (l_tune (start_limits false caps o (runtime_shape false o IoConfig_default))).
Proof. vm_compute. reflexivity. Qed.

(** A 4096 MiB override wraps: the P0 chunk size becomes zero, so requests of that class are
    cut into no chunks at all; as a byte ceiling it leaves the background classes none. *)
Lemma size_overrides_wrap :
  let o chunk inflight := {| o_bg_cap_busy := None; o_bg_qd := None; o_p0_qd := None;
              o_p0_inflight_mb := inflight; o_p0_chunk_mb := chunk; o_engram_qd := None;
              o_submit_threads := None; o_throttle_engram := false; o_error_budget := 8;
              o_keepalive_ms := 0; o_static_split := f64_zero; o_stripe := true;
              o_route_classes := None; o_mirror_hot_c := 0 |} in
  let caps := mkCaps 4096 64 (Z.shiftl 32 20) in
  let limits o := l_tune (start_limits false caps o (runtime_shape false o IoConfig_default)) in
  p0_chunk_bytes (limits (o (Some 4096) None)) = 0 /\
  bg_inflight_bytes (limits (o None (Some 4096))) = 0 /\
  plan_chunks 0 4096 0 4096 = [].
Proof. vm_compute. done. Qed.
