(* ===== verification/IoEngine.v ===== *)
(** The I/O engine ([src/storage/io_engine.h], [io_engine.cpp]): priority queues, chunks in
    flight, read sources, failover.

    The engine's threads take turns: every operation here is one critical section (or a
    sequence of them that nothing else can tell apart), [now] is the clock it reads.  What
    the backend answers is an input of [OpHand] and [OpComplete]; a caller's callback is an
    entry of [e_log], and the dispatcher is inside it until [OpReturn]. *)

From S2P Require Import Prelude Types Floats ShardSet ExpertStore Router Planner IoTuning.

(** ** Data ([storage/backend.h], [io_engine.h]) *)

Definition prio_index (p : IoPriority) : nat :=
  match p with BlockingMiss => 0 | Lookahead => 1 | Engram => 2 | Types.Backfill => 3 end.

Record IoResult := mkIoResult { ir_id : Z; ir_key : ExpertKey; ir_bytes_moved : Z; ir_status : Err }.

Record ChunkRequest := mkChunkRequest {
  cq_id : Z; cq_file : option File; cq_off : Z; cq_bytes : Z; cq_min_bytes : Z; cq_dst : Z }.

Record ChunkCompletion := mkCompletion { cc_id : Z; cc_bytes_moved : Z; cc_status : Err }.
Definition cc_ok (c : ChunkCompletion) : bool := bool_decide (cc_status c = ErrOk).

Definition no_files : list (option File) := replicate 4 None.
Definition zero4 : list Z := replicate 4 0.

Record Pending := mkPending {
  p_id : Z; p_req : IoRequest; p_chunks : list Chunk; p_required : Z;
  p_next : nat; p_issued : nat; p_done : nat; p_moved : Z;
  p_issued_once : bool; p_bg_at_issue : Z; p_p0_ahead : Z;
  p_source : Z; p_routed : bool; p_primary : option File;
  p_chunk_src : list Z; p_src_file : list (option File);
  p_src_charged : list Z; p_src_moved : list Z; p_src_used : Z; p_src_err : Z;
  p_status : Err; p_failed : bool }.
#[export] Instance Pending_eta : Eta Pending := fun p =>
  mkPending (p_id p) (p_req p) (p_chunks p) (p_required p) (p_next p) (p_issued p) (p_done p)
    (p_moved p) (p_issued_once p) (p_bg_at_issue p) (p_p0_ahead p) (p_source p) (p_routed p)
    (p_primary p) (p_chunk_src p) (p_src_file p) (p_src_charged p) (p_src_moved p)
    (p_src_used p) (p_src_err p) (p_status p) (p_failed p).

Definition kNoStripeSource : Z := 255.
Record InflightChunk := mkInflight { ic_owner : Z; ic_bytes : Z; ic_src : Z }.

(** Every chunk of the request has been issued, or given up. *)
Definition fully_issued (p : Pending) : bool := (length (p_chunks p) <=? p_next p)%nat.

Definition with_file (f : File) (q : IoRequest) : IoRequest :=
  mkIoRequest (q_key q) (q_priority q) f (q_file_off q) (q_bytes q) (q_dst q) (q_issue_token q)
    (q_deadline_layer q).

Record SourceStats := mkSourceStats {
  so_requests : Z; so_bytes : Z; so_p0_requests : Z; so_p0_bytes : Z; so_errors : Z;
  so_failovers : Z; so_readmits : Z; so_stripe_chunks : Z; so_idle_gaps : Z; so_idle_gap_sum : Z;
  so_idle_gap_max : Z; so_ka_reads : Z; so_ka_done : Z; so_ka_refused : Z; so_rests : Z;
  so_temp : Z; so_temp_max : Z; so_dropped : bool; so_resting : bool }.
#[export] Instance SourceStats_eta : Eta SourceStats := fun s =>
  mkSourceStats (so_requests s) (so_bytes s) (so_p0_requests s) (so_p0_bytes s) (so_errors s)
    (so_failovers s) (so_readmits s) (so_stripe_chunks s) (so_idle_gaps s) (so_idle_gap_sum s)
    (so_idle_gap_max s) (so_ka_reads s) (so_ka_done s) (so_ka_refused s) (so_rests s)
    (so_temp s) (so_temp_max s) (so_dropped s) (so_resting s).
Definition SourceStats_default : SourceStats :=
  mkSourceStats 0 0 0 0 0 0 0 0 0 0 0 0 0 0 0 (-1) (-1) false false.

Record KeepAliveSlot := mkKaSlot { ka_file : option File; ka_chunk_id : Z; ka_cursor : Z }.
#[export] Instance KeepAliveSlot_eta : Eta KeepAliveSlot := fun k =>
  mkKaSlot (ka_file k) (ka_chunk_id k) (ka_cursor k).

(** What [src_mutex_] guards; the lists are the arrays of [kMaxIoSources]. *)
Record Sources := mkSources {
  src_roots : list string; src_weights : list float; src_alts : list (File * list (option File));
  mirrors_on : bool; stripe : bool; static_split : float; route_classes : Z;
  src_health : SourceHealth; src_thermal : ThermalGate;
  src_outstanding : list Z; src_inflight : list Z; static_split_bytes : list Z;
  src_idle_since : list Z; src_last_activity : list Z; src_stats : list SourceStats;
  ka_slots : list KeepAliveSlot; ka_idle_ns : Z }.
#[export] Instance Sources_eta : Eta Sources := fun s =>
  mkSources (src_roots s) (src_weights s) (src_alts s) (mirrors_on s) (stripe s) (static_split s)
    (route_classes s) (src_health s) (src_thermal s) (src_outstanding s) (src_inflight s)
    (static_split_bytes s) (src_idle_since s) (src_last_activity s) (src_stats s) (ka_slots s)
    (ka_idle_ns s).

(** The counters of [IoStats]; its times are not modelled. *)
Record IoStats := mkIoStats {
  n_submitted : Z; n_completed : Z; n_failed : Z; n_cancelled : Z; n_chunks_submitted : Z;
  n_chunks_completed : Z; n_bytes_requested : Z; n_bytes_completed : Z; n_peak_ops : Z;
  n_peak_bytes : Z; n_p0_requests : Z; n_p0_bytes : Z; n_p0_first : Z; n_p0_behind : Z;
  n_p0_with_bg : Z; n_p0_chunks_issued : Z; n_p2_requests : Z; n_p2_deadline_chunks : Z;
  n_per_priority : list Z; n_per_priority_bytes : list Z; n_peak_by_priority : list Z }.
#[export] Instance IoStats_eta : Eta IoStats := fun c =>
  mkIoStats (n_submitted c) (n_completed c) (n_failed c) (n_cancelled c) (n_chunks_submitted c)
    (n_chunks_completed c) (n_bytes_requested c) (n_bytes_completed c) (n_peak_ops c)
    (n_peak_bytes c) (n_p0_requests c) (n_p0_bytes c) (n_p0_first c) (n_p0_behind c)
    (n_p0_with_bg c) (n_p0_chunks_issued c) (n_p2_requests c) (n_p2_deadline_chunks c)
    (n_per_priority c) (n_per_priority_bytes c) (n_peak_by_priority c).
Definition IoStats_default : IoStats :=
  mkIoStats 0 0 0 0 0 0 0 0 0 0 0 0 0 0 0 0 0 0 zero4 zero4 zero4.

Record Engine := mkEngine {
  e_caps : BackendCaps; e_tune : Tuning; e_p0_qd_tuned : Z; e_p0_inflight_tuned : Z; e_bg_chunk : Z;
  e_running : bool; e_stopping : bool;
  e_queues : list (list Z); e_pend : gmap Z Pending; e_owner : gmap Z InflightChunk;
  e_next_req : Z; e_next_chunk : Z; e_outstanding : Z; e_p0_outstanding : Z;
  e_ops : Z; e_bytes : Z; e_class : list Z;
  e_waiters : Z; e_wait_priority : bool; e_last_p0 : Z;
  e_submit_q : list ChunkRequest; e_failed_q : list ChunkCompletion;
  e_src : Sources; e_ka_inflight : Z; e_stats : IoStats;
  e_log : list IoResult; e_in_cb : option Z; e_cancelling : list Z }.
#[export] Instance Engine_eta : Eta Engine := fun e =>
  mkEngine (e_caps e) (e_tune e) (e_p0_qd_tuned e) (e_p0_inflight_tuned e) (e_bg_chunk e)
    (e_running e) (e_stopping e) (e_queues e) (e_pend e) (e_owner e) (e_next_req e) (e_next_chunk e)
    (e_outstanding e) (e_p0_outstanding e) (e_ops e) (e_bytes e) (e_class e) (e_waiters e)
    (e_wait_priority e) (e_last_p0 e) (e_submit_q e) (e_failed_q e) (e_src e) (e_ka_inflight e)
    (e_stats e) (e_log e) (e_in_cb e) (e_cancelling e).

Definition at_src (l : list Z) (s : Z) : Z := default 0 (l !! Z.to_nat s).
Definition set_src (s : Z) (f : Z -> Z) (l : list Z) : list Z := alter f (Z.to_nat s) l.
Definition src_stat (s : Z) (f : SourceStats -> SourceStats) (src : Sources) : Sources :=
  src <| src_stats ::= alter f (Z.to_nat s) |>.
Definition on_src (f : Sources -> Sources) (e : Engine) : Engine := e <| e_src ::= f |>.
Definition stat (f : IoStats -> IoStats) (e : Engine) : Engine := e <| e_stats ::= f |>.
Definition sat_sub (x y : Z) : Z := if y <=? x then x - y else 0.
Definition dec_pos (x : Z) : Z := if x =? 0 then 0 else u32 (x - 1).

(** ** Sources *)

Definition kDefaultKeepAliveMs : Z := 15.

Definition note_source_start (now s : Z) (src : Sources) : Sources :=
  let src := src <| src_inflight ::= set_src s inc32 |> in
  let since := at_src (src_idle_since src) s in
  if since =? 0 then src
  else
    let gap := now - since in
    let src := if kDefaultKeepAliveMs * 1000000 <=? gap
               then src_stat s (fun c => c <| so_idle_gaps ::= inc64 |>
                      <| so_idle_gap_sum ::= fun x => u64 (x + gap) |>
                      <| so_idle_gap_max ::= fun x => Z.max x gap |>) src
               else src in
    src <| src_idle_since ::= set_src s (fun _ => 0) |>.

Definition note_source_result (s : Z) (ok : bool) (src : Sources) : Sources :=
  if ok then src <| src_health ::= note_success s |>
  else
    let '(tripped, h) := note_error s (src_health src) in
    src_stat s (fun c => (if tripped then c <| so_dropped := true |> else c) <| so_errors ::= inc64 |>)
      (src <| src_health := h |>).

(** A source stops carrying one request. *)
Definition note_source_end (now s : Z) (src : Sources) : Sources :=
  let src := src <| src_inflight ::= set_src s dec_pos |> in
  if at_src (src_inflight src) s =? 0 then src <| src_idle_since ::= set_src s (fun _ => now) |> else src.

Definition uncharge (s b : Z) (src : Sources) : Sources :=
  src <| src_outstanding ::= set_src s (fun x => sat_sub x b) |>.
Definition charge (s b : Z) (src : Sources) : Sources :=
  src <| src_outstanding ::= set_src s (fun x => u64 (x + b)) |>.

(** The sources a request can name. *)
Definition all_sources : list Z := [0; 1; 2; 3].
Definition bits_of (mask : Z) : list Z := filter (fun s => has_bit mask s = true) all_sources.

(** *** [pick_static]: the candidate furthest below its share *)

Definition static_target (mirrors : Z) (split : float) (s : Z) : float :=
  if s =? 0 then f64_sub f64_one split else f64_div split (f64_of_Z mirrors).

Definition static_step (src : Sources) (mirrors mask bytes : Z) (acc : Z * float) (s : Z) : Z * float :=
  let '(best, best_score) := acc in
  let target := static_target mirrors (static_split src) s in
  if negb (has_bit mask s) || negb (f_gtb target f64_zero) then acc
  else
    let score := f64_div (f64_add (f64_of_Z (at_src (static_split_bytes src) s)) (f64_of_Z bytes)) target in
    if (best =? kMaxIoSources) || f_ltb score best_score then (s, score) else acc.

Definition pick_static (mask bytes : Z) (src : Sources) : Z :=
  let n := Z.of_nat (length (src_roots src)) in
  let mirrors := if 1 <? n then n - 1 else 1 in
  let best := (foldl (static_step src mirrors mask bytes) (kMaxIoSources, f64_zero)
                 (filter (fun s => s < n) all_sources)).1 in
  if (best =? kMaxIoSources) && negb (mask =? 0) then default best (head (bits_of mask)) else best.

(** *** Routing a request *)

Definition alt_row (f : File) (src : Sources) : option (list (option File)) :=
  (fun kv => kv.2.2) <$> list_find (fun kv => kv.1 = f) (src_alts src).

Record Route := mkRoute {
  rt_req : IoRequest; rt_source : Z; rt_routed : bool; rt_stripe_mask : Z; rt_row : list (option File) }.
Definition unrouted (q : IoRequest) : Route := mkRoute q 0 false 0 no_files.

Definition row_file (row : list (option File)) (s : Z) : option File :=
  if (0 <=? s) && (s <? kMaxIoSources) then mjoin (row !! Z.to_nat s) else None.

Definition candidate_mask (row : list (option File)) : Z :=
  foldl (fun m s => match row_file row s with
                    | Some f => if f_open f then set_bit m s else m
                    | None => m
                    end) 0 all_sources.

(** The drive is picked before anything else looks at the request's file. *)
Definition route_request (now : Z) (q : IoRequest) (src : Sources) : Route * Sources :=
  if mirrors_on src && has_bit (route_classes src) (Z.of_nat (prio_index (q_priority q))) then
    match alt_row (q_file q) src with
    | None => (unrouted q, src)
    | Some row =>
        let mask := thermal_live_mask (live_mask (candidate_mask row) (src_health src)) (src_thermal src) in
        let blocking := bool_decide (q_priority q = BlockingMiss) in
        if stripe src && blocking && Nat.ltb 1 (length (bits_of mask)) then (mkRoute q 0 false mask row, src)
        else
          let pick := if f_gtb (static_split src) f64_zero && blocking
                      then pick_static mask (q_bytes q) src
                      else pick_source (src_weights src)
                             (take (length (src_weights src)) (src_outstanding src)) mask (q_bytes q) in
          match row_file row pick with
          | None => (unrouted q, src)
          | Some f =>
              (mkRoute (with_file f q) pick true 0 no_files,
               note_source_start now pick
                 (charge pick (q_bytes q) src
                    <| static_split_bytes ::= set_src pick (fun x => u64 (x + q_bytes q)) |>))
          end
    end
  else (unrouted q, src).

(** [RouteGuard]: a refused request gives its bytes back. *)
Definition route_guard (now : Z) (rt : Route) (src : Sources) : Sources :=
  if rt_routed rt then note_source_end now (rt_source rt) (uncharge (rt_source rt) (q_bytes (rt_req rt)) src)
  else src.

(** *** Striping: each chunk is routed on its own *)

Record Stripes := mkStripes { sp_chunk_src : list Z; sp_charged : list Z; sp_used : Z; sp_src : Sources }.

Definition stripe_chunk (now : Z) (rt : Route) (st : Stripes) (c : Chunk) : Stripes :=
  let src := sp_src st in
  let b := ch_bytes c in
  let pick := pick_source (src_weights src) (take (length (src_weights src)) (src_outstanding src))
                (rt_stripe_mask rt) b in
  let s := match row_file (rt_row rt) pick with Some _ => pick | None => 0 end in
  let src := src_stat s (fun x => x <| so_stripe_chunks ::= inc64 |>) (charge s b src) in
  let fresh := negb (has_bit (sp_used st) s) in
  mkStripes (sp_chunk_src st ++ [s]) (set_src s (fun x => u64 (x + b)) (sp_charged st))
    (if fresh then set_bit (sp_used st) s else sp_used st)
    (if fresh then note_source_start now s src else src).

Definition stripe_all (now : Z) (rt : Route) (cs : list Chunk) (src : Sources) : Stripes :=
  foldl (stripe_chunk now rt) (mkStripes [] zero4 0 src) cs.

(** A share on a mirror. *)
Definition on_mirror (mask : Z) : bool := negb (Z.land mask (u32 (Z.lnot 1)) =? 0).

(** ** [submit] *)

Definition push_back (pr : nat) (id : Z) (qs : list (list Z)) : list (list Z) :=
  alter (fun q => q ++ [id]) pr qs.
Definition push_front (pr : nat) (id : Z) (qs : list (list Z)) : list (list Z) := alter (cons id) pr qs.

Definition unaligned (e : Engine) (q : IoRequest) : bool :=
  let a := alignment (e_caps e) in
  f_unbuffered (q_file q) &&
  negb (is_aligned (q_file_off q) a && is_aligned (q_dst q) a && is_aligned (q_bytes q) a).

(** Only the part of a request inside the file has to arrive. *)
Definition in_file (f : File) (off : Z) : Z := if off <? f_size f then f_size f - off else 0.

Definition new_pending (e : Engine) (rt : Route) (primary : File) (sp : Stripes) (striped : bool)
    (cs : list Chunk) : Pending :=
  let q := rt_req rt in
  mkPending (e_next_req e) q cs (Z.min (q_bytes q) (in_file (q_file q) (q_file_off q)))
    0 0 0 0 false 0 (if decide (q_priority q = BlockingMiss) then e_p0_outstanding e else 0)
    (rt_source rt) (rt_routed rt)
    (if (rt_routed rt && negb (rt_source rt =? 0)) || (striped && on_mirror (sp_used sp))
     then Some primary else None)
    (if striped then sp_chunk_src sp else []) (if striped then rt_row rt else no_files)
    (if striped then sp_charged sp else zero4) zero4 (if striped then sp_used sp else 0) 0 ErrOk false.

Definition enqueue (now : Z) (p : Pending) (e : Engine) : Engine :=
  let pr := prio_index (q_priority (p_req p)) in
  let p0 := bool_decide (q_priority (p_req p) = BlockingMiss) in
  let e := if p0 then e <| e_last_p0 := now |> <| e_p0_outstanding ::= inc32 |> else e in
  let e := e <| e_next_req ::= inc64 |> <| e_pend ::= <[p_id p := p]> |>
             <| e_queues ::= push_back pr (p_id p) |> <| e_outstanding ::= inc32 |> in
  stat (fun c => c <| n_submitted ::= inc64 |>
                   <| n_bytes_requested ::= fun x => u64 (x + q_bytes (p_req p)) |>
                   <| n_per_priority ::= alter inc64 pr |>
                   <| n_per_priority_bytes ::= alter (fun x => u64 (x + q_bytes (p_req p))) pr |>) e.

Definition submit (now : Z) (q0 : IoRequest) (e : Engine) : Result Z * Engine :=
  if negb (e_running e) then (Fail FailedPrecondition, e)
  else if negb (f_open (q_file q0)) then (Fail InvalidArgument, e)
  else
    let '(rt, src) := route_request now q0 (e_src e) in
    let q := rt_req rt in
    let e := e <| e_src := src |> in
    if q_dst q =? 0 then (Fail InvalidArgument, e)
    else if q_bytes q =? 0 then (Fail InvalidArgument, e)
    else if unaligned e q then (Fail InvalidArgument, on_src (route_guard now rt) e)
    else if Z.min (q_bytes q) (in_file (q_file q) (q_file_off q)) =? 0
    then (Fail OutOfRange, on_src (route_guard now rt) e)
    else
      let chunk := if decide (q_priority q = BlockingMiss) then p0_chunk_bytes (e_tune e) else e_bg_chunk e in
      let cs := plan_chunks (q_file_off q) (q_bytes q) chunk (alignment (e_caps e)) in
      let striped := negb (rt_stripe_mask rt =? 0) in
      let sp := if striped then stripe_all now rt cs src else mkStripes [] zero4 0 src in
      let p := new_pending e rt (q_file q0) sp striped cs in
      (Ret (e_next_req e), enqueue now p (e <| e_src := sp_src sp |>)).

(** ** [cancel]: the request is taken off its queue, later its callback is told *)

Definition the_pending (e : Engine) (id : Z) : option Pending := e_pend e !! id.

(** The charge a striped request still holds at [s] is given back. *)
Definition settle_stripe (now : Z) (p : Pending) (src : Sources) (s : Z) : Sources :=
  note_source_end now s (uncharge s (at_src (p_src_charged p) s) src).

Definition cancel (now id : Z) (e : Engine) : Result unit * Engine :=
  match list_find (fun q => id ∈ q) (e_queues e), the_pending e id with
  | Some (pr, _), Some p =>
      if negb (p_next p =? 0)%nat then (Fail FailedPrecondition, e)
      else
        let e := e <| e_queues ::= alter (fun q => filter (fun i => i <> id) q) pr |>
                   <| e_outstanding ::= dec32 |> in
        let e := on_src (fun src => foldl (settle_stripe now p) src (bits_of (p_src_used p))) e in
        let e := e <| e_pend ::= <[id := p <| p_src_charged := zero4 |>]> |> in
        (Ret tt, stat (fun c => c <| n_cancelled ::= inc64 |>) (e <| e_cancelling ::= cons id |>))
  | _, _ => (Fail NotFound, e)
  end.

Definition cancel_notify (id : Z) (e : Engine) : Engine :=
  match the_pending e id with
  | Some p =>
      if decide (id ∈ e_cancelling e) then
        e <| e_cancelling ::= filter (fun i => i <> id) |>
          <| e_log ::= fun l => l ++ [mkIoResult id (q_key (p_req p)) 0 Cancelled] |>
      else e
  | None => e
  end.

(** [drain] returns when this holds (or the engine has stopped). *)
Definition drained (e : Engine) : bool := (e_outstanding e =? 0) || negb (e_running e).

(** ** Issuing chunks *)

Definition kBackgroundQuiet : Z := 100000000.

Fixpoint drop_front (pend : gmap Z Pending) (q : list Z) : list Z :=
  match q with
  | [] => []
  | id :: q' =>
      match pend !! id with
      | Some p => if fully_issued p then drop_front pend q' else q
      | None => q
      end
  end.

(** Fully issued requests leave the front of their queue. *)
Definition drop_issued (e : Engine) : Engine :=
  e <| e_queues ::= fmap (M := list) (drop_front (e_pend e)) |>.

Definition queue_front (e : Engine) (pr : IoPriority) : option Z := head (default [] (e_queues e !! prio_index pr)).
Definition inflight_class (e : Engine) (pr : IoPriority) : Z := default 0 (e_class e !! prio_index pr).
Definition is_nil {A} (l : option A) : bool := match l with None => true | Some _ => false end.

(** A small engram read may pass a P0 burst while a token waits for it. *)
Definition rescue (e : Engine) : option Z :=
  match queue_front e Engram with
  | None => None
  | Some id =>
      let bytes := match the_pending e id with Some p => q_bytes (p_req p) | None => 0 end in
      if negb (e_waiters e =? 0) && negb (is_nil (queue_front e BlockingMiss)) &&
         (bytes <=? 2 * kPageSize) && (e_ops e <? rescue_qd (e_tune e)) &&
         (inflight_class e Engram <? kEngramWaitChunks) && (e_bytes e <? bg_inflight_bytes (e_tune e))
      then Some id else None
  end.

(** The first class with work, in priority order. *)
Definition first_queued (e : Engine) : option Z :=
  head (omap (queue_front e) [BlockingMiss; Lookahead; Engram; Types.Backfill]).

Definition qd_cap (t : Tuning) (cls : IoPriority) (rescued : bool) : Z :=
  if rescued then rescue_qd t
  else match cls with BlockingMiss => p0_qd t | Engram => engram_qd t | _ => bg_qd t end.

Definition byte_cap (t : Tuning) (cls : IoPriority) : Z :=
  match cls with BlockingMiss => p0_inflight_bytes t | _ => bg_inflight_bytes t end.

(** While P0 work is recent the background classes hold at most [bg_cap_busy] chunks. *)
Definition throttled (now : Z) (e : Engine) (cls : IoPriority) : bool :=
  let t := e_tune e in
  let held := match cls with
              | Lookahead | Types.Backfill => true
              | Engram => throttle_engram t
              | BlockingMiss => false
              end in
  let bg := u32 (inflight_class e Lookahead + inflight_class e Types.Backfill) in
  let bg := if throttle_engram t then u32 (bg + inflight_class e Engram) else bg in
  held && (now - e_last_p0 e <? kBackgroundQuiet) && (bg_cap_busy t <=? bg).

Definition may_issue (now : Z) (e : Engine) (cls : IoPriority) (rescued : bool) : bool :=
  (e_ops e <? qd_cap (e_tune e) cls rescued) && (e_bytes e <? byte_cap (e_tune e) cls) &&
  negb (throttled now e cls).

Definition chunk_request (p : Pending) (cid csrc : Z) (c : Chunk) : ChunkRequest :=
  let q := p_req p in
  mkChunkRequest cid
    (if csrc =? kNoStripeSource then Some (q_file q) else mjoin (p_src_file p !! Z.to_nat csrc))
    (ch_off c) (ch_bytes c) (u32 (Z.min (ch_bytes c) (in_file (q_file q) (ch_off c))))
    (q_dst q + (ch_off c - q_file_off q)).

(** One turn of [issue_ready_chunks]: the chunk is charged and handed over. *)
Definition issue_chunk (id : Z) (p : Pending) (rescued : bool) (e : Engine) : Engine :=
  let c := default (mkChunk 0 0) (p_chunks p !! p_next p) in
  let cid := e_next_chunk e in
  let csrc := default kNoStripeSource (p_chunk_src p !! p_next p) in
  let pr := prio_index (q_priority (p_req p)) in
  let p0 := bool_decide (q_priority (p_req p) = BlockingMiss) in
  let bg := u32 (inflight_class e Lookahead + inflight_class e Types.Backfill + inflight_class e Engram) in
  let p' := p <| p_next ::= S |> <| p_issued ::= S |> in
  let p' := if p_issued_once p then p' else p' <| p_issued_once := true |> <| p_bg_at_issue := bg |> in
  let e := stat (fun s => s <| n_chunks_submitted ::= inc64 |>
      <| n_p0_chunks_issued ::= fun x => if p0 then inc64 x else x |>
      <| n_p2_deadline_chunks ::= fun x => if rescued then inc64 x else x |>
      <| n_peak_ops ::= fun x => Z.max x (u32 (e_ops e + 1)) |>
      <| n_peak_bytes ::= fun x => Z.max x (u64 (e_bytes e + ch_bytes c)) |>
      <| n_peak_by_priority ::= alter (fun x => Z.max x (u32 (default 0 (e_class e !! pr) + 1))) pr |>) e in
  e <| e_pend ::= <[id := p']> |>
    <| e_owner ::= fun m => match m !! cid with
                            | Some _ => m
                            | None => <[cid := mkInflight id (ch_bytes c) csrc]> m
                            end |>
    <| e_next_chunk ::= inc64 |> <| e_ops ::= inc32 |>
    <| e_bytes ::= fun x => u64 (x + ch_bytes c) |> <| e_class ::= alter inc32 pr |>
    <| e_submit_q ::= fun l => l ++ [chunk_request p cid csrc c] |>.

(** The request whose chunk goes next, and whether it was rescued past P0. *)
Definition next_request (e : Engine) : option (Z * bool) :=
  match rescue e with Some id => Some (id, true) | None => (fun id => (id, false)) <$> first_queued e end.

Definition issue_one (now : Z) (e : Engine) : bool * Engine :=
  let e := drop_issued e in
  match next_request e with
  | None => (false, e)
  | Some (id, rescued) =>
      match the_pending e id with
      | None => (false, e)
      | Some p =>
          if may_issue now e (q_priority (p_req p)) rescued then (true, issue_chunk id p rescued e) else (false, e)
      end
  end.

(** The loop of [issue_ready_chunks] at one reading of the clock. *)
Fixpoint issue_loop (fuel : nat) (now : Z) (e : Engine) : nat * Engine :=
  match fuel with
  | O => (0%nat, e)
  | S fuel => match issue_one now e with
              | (false, e) => (0%nat, e)
              | (true, e) => let '(n, e) := issue_loop fuel now e in (S n, e)
              end
  end.

(** Chunks not issued yet: the fuel that is always enough. *)
Definition unissued (p : Pending) : nat := length (p_chunks p) - p_next p.
Definition total_unissued (m : gmap Z Pending) : nat := Z.to_nat (msum (fun p => Z.of_nat (unissued p)) m).
Definition issue_ready_chunks (now : Z) (e : Engine) : nat * Engine :=
  issue_loop (S (total_unissued (e_pend e))) now e.

(** The backend's answer for the next chunk handed over: a refusal becomes a failed
    completion for the dispatcher to unwind. *)
Definition do_submit (answer : Result unit) (e : Engine) : Engine :=
  match e_submit_q e with
  | [] => e
  | cr :: rest =>
      let e := e <| e_submit_q := rest |> in
      match answer with
      | Ret _ => e
      | Fail err => e <| e_failed_q ::= fun l => l ++ [mkCompletion (cq_id cr) 0 err] |>
      end
  end.

(** ** Completions *)

(** The result [finish] reports: a request that failed in no chunk may still be short. *)
Definition result_of (p : Pending) : IoResult :=
  mkIoResult (p_id p) (q_key (p_req p)) (p_moved p)
    (if negb (p_failed p) && (p_moved p <? p_required p) then Io else p_status p).
Definition ir_ok (r : IoResult) : bool := bool_decide (ir_status r = ErrOk).

Definition is_p0 (p : Pending) : bool := bool_decide (q_priority (p_req p) = BlockingMiss).
Definition striped (p : Pending) : bool := negb (Nat.eqb (length (p_chunk_src p)) 0).

(** The routed request's source, or each source of a striped one, is done with it. *)
Definition account_source (now : Z) (p : Pending) (s charged moved : Z) (ok : bool) (src : Sources) : Sources :=
  let src := note_source_end now s (uncharge s charged src) in
  let src := src_stat s (fun c => let c := c <| so_requests ::= inc64 |> <| so_bytes ::= fun x => u64 (x + moved) |> in
                if is_p0 p then c <| so_p0_requests ::= inc64 |> <| so_p0_bytes ::= fun x => u64 (x + moved) |>
                else c) src in
  note_source_result s ok (src <| src_last_activity ::= set_src s (fun _ => now) |>).

Definition account_finish (now : Z) (p : Pending) (src : Sources) : Sources :=
  if p_routed p then
    account_source now p (p_source p) (q_bytes (p_req p)) (p_moved p) (ir_ok (result_of p)) src
  else
    foldl (fun src s => account_source now p s (at_src (p_src_charged p) s) (at_src (p_src_moved p) s)
             (negb (has_bit (p_src_err p) s)) src) src (bits_of (p_src_used p)).

(** A mirror's failure is retried once, on the primary. *)
Definition retries (p : Pending) : bool :=
  negb (is_nil (p_primary p)) && negb (ir_ok (result_of p)) &&
  (negb (striped p) || on_mirror (p_src_err p)).

Definition failed_mirrors (p : Pending) : list Z :=
  if striped p then filter (fun s => 0 < s) (bits_of (p_src_err p)) else [p_source p].

Definition reset_pending (f : File) (p : Pending) : Pending :=
  mkPending (p_id p) (with_file f (p_req p)) (p_chunks p) (p_required p) 0 0 0 0
    (p_issued_once p) (p_bg_at_issue p) (p_p0_ahead p) 0 false None
    [] (p_src_file p) (p_src_charged p) zero4 0 0 ErrOk false.

Definition finish_stats (p : Pending) (c : IoStats) : IoStats :=
  let r := result_of p in
  let c := if ir_ok r then c <| n_completed ::= inc64 |> else c <| n_failed ::= inc64 |> in
  let c := if decide (q_priority (p_req p) = Engram) then c <| n_p2_requests ::= inc64 |> else c in
  if is_p0 p then
    let c := c <| n_p0_requests ::= inc64 |> <| n_p0_bytes ::= fun x => u64 (x + p_moved p) |> in
    let c := if p_p0_ahead p =? 0 then c <| n_p0_first ::= inc64 |> else c <| n_p0_behind ::= inc64 |> in
    if p_bg_at_issue p =? 0 then c else c <| n_p0_with_bg ::= inc64 |>
  else c.

(** The whole of [finish] up to the callback, which [e_in_cb] says is running. *)
Definition finish (now : Z) (p : Pending) (e : Engine) : Engine :=
  let e := on_src (account_finish now p) e in
  let p := p <| p_src_charged := if p_routed p then p_src_charged p else zero4 |> in
  if retries p then
    let e := on_src (fun src => foldl (fun src s => src_stat s (fun c => c <| so_failovers ::= inc64 |>) src)
                                  src (failed_mirrors p)) e in
    let pr := prio_index (q_priority (p_req p)) in
    match p_primary p with
    | Some f => e <| e_pend ::= <[p_id p := reset_pending f p]> |>
                  <| e_queues ::= fun qs => push_front pr (p_id p) (alter (fun q => filter (fun i => i <> p_id p) q) pr qs) |>
    | None => e
    end
  else
    stat (finish_stats p)
      (e <| e_pend ::= <[p_id p := p]> |> <| e_log ::= fun l => l ++ [result_of p] |> <| e_in_cb := Some (p_id p) |>).

(** The callback has returned: only now does the request stop counting as outstanding. *)
Definition callback_return (e : Engine) : Engine :=
  match e_in_cb e with
  | None => e
  | Some id =>
      let e := e <| e_in_cb := None |> <| e_outstanding ::= dec32 |> in
      match the_pending e id with
      | Some p => if is_p0 p then e <| e_p0_outstanding ::= dec_pos |> else e
      | None => e
      end
  end.

(** *** Keep-alive reads *)

Definition kKeepAliveBytes : Z := 4096.
Definition kKeepAliveChunkBase : Z := 2 ^ 62.
Definition on_slot (s : Z) (f : KeepAliveSlot -> KeepAliveSlot) (src : Sources) : Sources :=
  src <| ka_slots ::= alter f (Z.to_nat s) |>.
Definition ka_slot (src : Sources) (s : Z) : KeepAliveSlot := default (mkKaSlot None 0 0) (ka_slots src !! Z.to_nat s).

(** A poke's completion, or [None] when the chunk is a request's. *)
Definition finish_keepalive (now : Z) (c : ChunkCompletion) (e : Engine) : option Engine :=
  if cc_id c <? kKeepAliveChunkBase then None
  else
    let hit := head (filter (fun s => ka_chunk_id (ka_slot (e_src e) s) = cc_id c) all_sources) in
    let e := match hit with
             | None => e
             | Some s => on_src (fun src =>
                 src_stat s (fun x => if cc_ok c then x <| so_ka_done ::= inc64 |> else x <| so_ka_refused ::= inc64 |>)
                   (on_slot s (fun k => k <| ka_chunk_id := 0 |>) src)
                   <| src_last_activity ::= set_src s (fun _ => now) |>) e
             end in
    Some (e <| e_ka_inflight ::= dec32 |>).

(** The poke of source [s] on one tick: its offset rotates by 1 MiB. *)
Definition keepalive_poke (s : Z) (src : Sources) : Z * Z * Sources :=
  let k := ka_slot src s in
  let size := match ka_file k with Some f => f_size f | None => 0 end in
  let span := u64 (size - kKeepAliveBytes) in
  let off := align_down (u64 (ka_cursor k * 2 ^ 20) mod (if span =? 0 then 1 else span)) kPageSize in
  let cursor := inc64 (ka_cursor k) in
  let cid := Z.lor (Z.lor kKeepAliveChunkBase (u64 (Z.shiftl s 56))) cursor in
  (cid, off, src_stat s (fun x => x <| so_ka_reads ::= inc64 |>)
               (on_slot s (fun _ => mkKaSlot (ka_file k) cid cursor) src)).

Definition keepalive_state (s : Z) (src : Sources) : KeepAliveState :=
  let k := ka_slot src s in
  mkKeepAlive (match ka_file k with Some f => f_open f | None => false end) (dropped s (src_health src))
    (negb (ka_chunk_id k =? 0)) (at_src (src_inflight src) s) (at_src (src_last_activity src) s).

(** [tick_keepalive] for source [s], the backend's [answer] to the poke given. *)
Definition tick_keepalive (now s : Z) (answer : bool) (e : Engine) : Engine :=
  let src := e_src e in
  if negb ((0 <? s) && (s <? kMaxIoSources) && (s <? Z.of_nat (length (src_roots src)))) then e
  else if (ka_idle_ns src <=? 0) || negb (mirrors_on src) then e
  else if negb (keepalive_due (keepalive_state s src) now (ka_idle_ns src)) then e
  else
    let '(_, _, src) := keepalive_poke s src in
    if answer then e <| e_src := src |> <| e_ka_inflight ::= inc32 |>
    else e <| e_src := src_stat s (fun x => x <| so_ka_reads ::= fun n => u64 (n - 1) |> <| so_ka_refused ::= inc64 |>)
                         (on_slot s (fun k => k <| ka_chunk_id := 0 |>) src) |>.

(** *** [handle_completion] *)

(** What one completed chunk does to its request. *)
Definition complete_chunk (c : ChunkCompletion) (p : Pending) : Pending :=
  let p := p <| p_done ::= S |> <| p_moved ::= fun x => u64 (x + cc_bytes_moved c) |> in
  if negb (cc_ok c) && negb (p_failed p)
  then p <| p_failed := true |> <| p_status := cc_status c |> <| p_next := length (p_chunks p) |>
  else p.

(** What a completed chunk of a striped request does to its source's share. *)
Definition complete_stripe (s charged : Z) (c : ChunkCompletion) (p : Pending) : Pending :=
  let b := Z.min charged (at_src (p_src_charged p) s) in
  let p := p <| p_src_charged ::= set_src s (fun x => x - b) |>
             <| p_src_moved ::= set_src s (fun x => u64 (x + cc_bytes_moved c)) |> in
  if cc_ok c then p else p <| p_src_err ::= fun m => set_bit m s |>.

Definition release_chunk (cid : Z) (ic : InflightChunk) (pr : nat) (e : Engine) : Engine :=
  e <| e_owner ::= delete cid |> <| e_ops ::= dec32 |>
    <| e_bytes ::= fun x => u64 (x - ic_bytes ic) |> <| e_class ::= alter dec32 pr |>.

Definition handle_completion (now : Z) (c : ChunkCompletion) (e : Engine) : Engine :=
  match finish_keepalive now c e with
  | Some e => e
  | None =>
      match e_owner e !! cc_id c with
      | None => e
      | Some ic =>
          match the_pending e (ic_owner ic) with
          | None => e
          | Some p0 =>
              let s := ic_src ic in
              let p := complete_chunk c p0 in
              let b := Z.min (ic_bytes ic) (at_src (p_src_charged p) s) in
              let e := release_chunk (cc_id c) ic (prio_index (q_priority (p_req p))) e in
              let e := if s =? kNoStripeSource then e
                       else on_src (fun src => uncharge s b src <| src_last_activity ::= set_src s (fun _ => now) |>) e in
              let p := if s =? kNoStripeSource then p else complete_stripe s (ic_bytes ic) c p in
              let e := stat (fun x => x <| n_chunks_completed ::= inc64 |>
                                        <| n_bytes_completed ::= fun n => u64 (n + cc_bytes_moved c) |>) e in
              let e := e <| e_pend ::= <[ic_owner ic := p]> |> in
              if Nat.eqb (p_done p) (p_issued p) && Nat.eqb (p_next p) (length (p_chunks p))
              then finish now p e else e
          end
      end
  end.

(** The next synchronous refusal, unwound by the dispatcher. *)
Definition unwind_failed (now : Z) (e : Engine) : Engine :=
  match e_failed_q e with
  | [] => e
  | c :: rest => handle_completion now c (e <| e_failed_q := rest |>)
  end.

(** ** Setting up and steering *)

(** [route_classes] by default: P0 and the idle backfill. *)
Definition kDefaultRouteClasses : Z := Z.lor (Z.shiftl 1 0) (Z.shiftl 1 3).

Fixpoint weights_of (n : nat) (ws : list float) : list float :=
  match n, ws with
  | O, _ => []
  | S n, [] => f64_one :: weights_of n []
  | S n, w :: ws => (if f_gtb w f64_zero then w else f64_one) :: weights_of n ws
  end.

(** [set_sources]; [sensor root] is the temperature a drive with a sensor reads. *)
Definition set_sources (now : Z) (sensor : string -> option Z) (o : IoOverrides) (roots : list string)
    (weights : list float) (src : Sources) : Sources :=
  let roots := take 4 roots in
  let n := length roots in
  let on := Nat.ltb 1 n in
  let hot := o_mirror_hot_c o in
  let first s := default SourceStats_default
    (root ← roots !! s;
     guard (on = true /\ s <> 0%nat /\ 0 < hot);;
     t ← sensor root;
     Some (SourceStats_default <| so_temp := t |> <| so_temp_max := t |>)) in
  mkSources roots (weights_of n weights) (src_alts src) on (on && o_stripe o) (o_static_split o)
    (override (o_route_classes o) kDefaultRouteClasses) (SourceHealth_init (o_error_budget o))
    (mkThermalGate hot (hot - kMirrorCoolDropC) 0) zero4 zero4 zero4 (replicate 4 now) (replicate 4 now)
    (first <$> seq 0 4) (replicate 4 (mkKaSlot None 0 0)) (if on then o_keepalive_ms o * 1000000 else 0).

Definition add_mirror (primary : File) (s : Z) (alt : File) (src : Sources) : Result unit * Sources :=
  if (s =? 0) || (kMaxIoSources <=? s) then (Fail OutOfRange, src)
  else if negb (f_open alt) then (Fail InvalidArgument, src)
  else if negb (f_size alt =? f_size primary) then (Fail Corrupt, src)
  else if negb (Bool.eqb (f_unbuffered alt) (f_unbuffered primary)) then (Fail FailedPrecondition, src)
  else
    let src := if is_nil (ka_file (ka_slot src s)) && (kKeepAliveBytes <? f_size alt)
               then on_slot s (fun k => k <| ka_file := Some alt |>) src else src in
    let row := <[Z.to_nat s := Some alt]> (<[0%nat := Some primary]> (default no_files (alt_row primary src))) in
    (Ret tt, src <| src_alts ::= fun l => (primary, row) :: filter (fun kv => kv.1 <> primary) l |>).

Definition drop_source (s : Z) (src : Sources) : Sources :=
  if (s =? 0) || (kMaxIoSources <=? s) || dropped s (src_health src) then src
  else src_stat s (fun c => c <| so_dropped := true |>) (src <| src_health ::= drop s |>).

Definition live_source_count (src : Sources) : Z :=
  let n := Z.of_nat (length (filter (fun s => dropped (Z.of_nat s) (src_health src) = false)
                               (seq 0 (length (src_roots src))))) in
  if n =? 0 then 1 else n.

(** The shards [readmit_source] has to see again: (primary, mirror). *)
Definition mirrored_shards (s : Z) (src : Sources) : list (File * File) :=
  omap (fun kv => (fun f => (kv.1, f)) <$> row_file kv.2 s) (src_alts src).

(** [readmit_source]; [probe primary mirror] reopens the mirror and compares one page. *)
Definition readmit_source (probe : File -> File -> Result unit) (s : Z) (src : Sources)
  : Result unit * Sources :=
  if (s =? 0) || (Z.of_nat (length (src_roots src)) <=? s) || negb (dropped s (src_health src))
  then (Fail FailedPrecondition, src)
  else if negb (at_src (src_inflight src) s =? 0) then (Fail FailedPrecondition, src)
  else match mirrored_shards s src with
       | [] => (Fail NotFound, src)
       | shards =>
           match foldM (fun _ kv => probe kv.1 kv.2) tt shards with
           | Fail err => (Fail err, src)
           | Ret _ => (Ret tt, src_stat s (fun c => c <| so_dropped := false |> <| so_readmits ::= inc64 |>)
                                 (src <| src_health ::= readmit s |>))
           end
       end.

(** One temperature reading of [mirror_watch]. *)
Definition watch_temp (s t : Z) (src : Sources) : Sources :=
  if t <? 0 then src
  else
    let '(changed, g) := thermal_update s t (src_thermal src) in
    let r := has_bit (resting g) s in
    src_stat s (fun c => c <| so_temp := t |> <| so_temp_max ::= Z.max t |> <| so_resting := r |>
                           <| so_rests ::= fun x => if changed && r then inc64 x else x |>)
      (src <| src_thermal := g |>).

(** When [mirror_watch] tries a dropped mirror again: (next try, interval), times in ns. *)
Definition kReadmitFirstNs : Z := 10000000000.
Definition kReadmitMaxNs : Z := 600000000000.
Definition readmit_backoff (now backoff : Z) : Z * Z :=
  let b := if backoff =? 0 then kReadmitFirstNs else Z.min (backoff * 2) kReadmitMaxNs in
  (now + b, b).
Definition readmit_due (now retry_at : Z) : bool := negb (retry_at =? 0) && (retry_at <=? now).

(** [engram_wait]: whether the guard it returns counts, and the count's two ends. *)
Definition engram_wait (e : Engine) : bool * Engine :=
  if e_wait_priority e then (true, e <| e_waiters ::= inc32 |>) else (false, e).
Definition engram_wait_end (counted : bool) (e : Engine) : Engine :=
  if counted then e <| e_waiters ::= dec32 |> else e.

Definition set_p0_depth (qd bytes : Z) (e : Engine) : Engine :=
  e <| e_tune ::= fun t =>
        t <| p0_qd := Z.min (or_else qd (e_p0_qd_tuned e)) (max_queue_depth (e_caps e)) |>
          <| p0_inflight_bytes := or_else bytes (e_p0_inflight_tuned e) |> |>.

Definition io_reset_stats (e : Engine) : Engine :=
  on_src (fun src => src <| src_stats ::= imap (fun i c =>
      if Nat.ltb i (length (src_roots src)) then
        mkSourceStats 0 0 0 0 (so_errors c) (so_failovers c) (so_readmits c) 0 0 0 0 0 0 0 0
          (so_temp c) (so_temp c) (so_dropped c) (so_resting c)
      else c) |>)
    (e <| e_stats := IoStats_default |>).

Definition Sources_default : Sources :=
  mkSources [] [] [] false false f64_zero kDefaultRouteClasses (SourceHealth_init 3) (mkThermalGate 0 0 0)
    zero4 zero4 zero4 zero4 zero4 (replicate 4 SourceStats_default) (replicate 4 (mkKaSlot None 0 0)) 0.

(** [start] on an engine whose sources are set up. *)
Definition io_start (windows : bool) (caps : BackendCaps) (o : IoOverrides) (cfg : IoConfig) (src : Sources)
  : Engine :=
  let l := start_limits windows caps o cfg in
  mkEngine caps (l_tune l) (p0_qd (l_tune l)) (p0_inflight_bytes (l_tune l)) (l_bg_chunk l)
    true false (replicate 4 []) ∅ ∅ 1 1 0 0 0 0 zero4 0 false (- 2 ^ 62) [] [] src 0 IoStats_default [] None [].

Definition io_stop (e : Engine) : Engine :=
  if e_running e then on_src (fun src => src <| ka_idle_ns := 0 |>)
                        (e <| e_running := false |> <| e_stopping := true |>)
  else e.

(** The dispatcher leaves its loop only when nothing is outstanding. *)
Definition dispatcher_exits (e : Engine) : bool :=
  e_stopping e && (e_outstanding e =? 0) && (e_ka_inflight e =? 0).

(** *** One turn of the dispatcher

    [answers] are the backend's to the chunks handed over, [pokes s] its answer to a poke of
    source [s], [comps] what [poll] returned; callbacks run to their end on this thread. *)

Definition complete_and_call (now : Z) (e : Engine) (c : ChunkCompletion) : Engine :=
  callback_return (handle_completion now c e).

Fixpoint unwind_all (fuel : nat) (now : Z) (e : Engine) : Engine :=
  match fuel with
  | O => e
  | S fuel => unwind_all fuel now (callback_return (unwind_failed now e))
  end.

Definition dispatcher_turn (now : Z) (answers : list (Result unit)) (pokes : Z -> bool)
    (comps : list ChunkCompletion) (e : Engine) : Engine :=
  let e := (issue_ready_chunks now e).2 in
  let e := foldl (fun e a => do_submit a e) e answers in
  let e := unwind_all (length (e_failed_q e)) now e in
  let e := foldl (fun e s => tick_keepalive now s (pokes s) e) e [1; 2; 3] in
  if (0 <? e_ops e) || (0 <? e_ka_inflight e) then foldl (complete_and_call now) e comps else e.

(** ** Runs *)

Inductive IoOp :=
| OpSubmit (q : IoRequest) | OpCancel (id : Z) | OpCancelNotify (id : Z)
| OpIssue | OpHand (answer : Result unit) | OpUnwind | OpComplete (c : ChunkCompletion) | OpReturn
| OpTick (s : Z) (answer : bool) | OpWaitPriority (on : bool) | OpWait | OpWaitEnd
| OpDepth (qd bytes : Z) | OpDrop (s : Z) | OpTemp (s t : Z)
| OpReadmit (probe : File -> File -> Result unit) (s : Z) | OpMirror (primary alt : File) (s : Z)
| OpResetStats | OpStop.

(** The dispatcher's own steps, which wait while it runs a callback. *)
Definition dispatched (op : IoOp) : bool :=
  match op with OpIssue | OpUnwind | OpComplete _ | OpTick _ _ => true | _ => false end.

Definition io_step (now : Z) (op : IoOp) (e : Engine) : Engine :=
  if dispatched op && negb (is_nil (e_in_cb e)) then e
  else match op with
  | OpSubmit q => (submit now q e).2
  | OpCancel id => (cancel now id e).2
  | OpCancelNotify id => cancel_notify id e
  | OpIssue => (issue_one now e).2
  | OpHand answer => do_submit answer e
  | OpUnwind => unwind_failed now e
  | OpComplete c => handle_completion now c e
  | OpReturn => callback_return e
  | OpTick s answer => tick_keepalive now s answer e
  | OpWaitPriority on => e <| e_wait_priority := on |>
  | OpWait => (engram_wait e).2
  | OpWaitEnd => engram_wait_end true e
  | OpDepth qd bytes => set_p0_depth qd bytes e
  | OpDrop s => on_src (drop_source s) e
  | OpTemp s t => on_src (watch_temp s t) e
  | OpReadmit probe s => on_src (fun src => (readmit_source probe s src).2) e
  | OpMirror primary alt s => on_src (fun src => (add_mirror primary s alt src).2) e
  | OpResetStats => io_reset_stats e
  | OpStop => io_stop e
  end.

Definition io_run (ops : list (Z * IoOp)) (e : Engine) : Engine :=
  foldl (fun e x => io_step x.1 x.2 e) e ops.
