(* ===== verification/IoEngineInv.v ===== *)
(** The invariant of the I/O engine: the queues, the chunks in flight and the counters agree,
    and no accepted request is lost.  Every step preserves it. *)

From S2P Require Import Prelude Types Floats ShardSet ExpertStore Router Planner IoTuning IoEngine.

(** ** The invariant *)

Definition queue_of (qs : list (list Z)) (pr : nat) : list Z := default [] (qs !! pr).
Definition prio (p : Pending) : nat := prio_index (q_priority (p_req p)).
Definition log_ids (log : list IoResult) : list Z := ir_id <$> log.
Definition settled (log : list IoResult) (canc : list Z) (id : Z) : Prop := id ∈ log_ids log ++ canc.

Definition owned_by (id : Z) (ic : InflightChunk) : Z := if ic_owner ic =? id then 1 else 0.
Definition prio_of (pend : gmap Z Pending) (id : Z) : option nat := prio <$> pend !! id.
Definition of_class (pend : gmap Z Pending) (pr : nat) (ic : InflightChunk) : Z :=
  if decide (prio_of pend (ic_owner ic) = Some pr) then 1 else 0.

Record pend_ok (qs : list (list Z)) (owner : gmap Z InflightChunk) (log : list IoResult)
    (canc : list Z) (id : Z) (p : Pending) : Prop := {
  po_id : p_id p = id;
  po_done : (p_done p <= p_issued p)%nat;
  po_issued : (p_issued p <= p_next p)%nat;
  po_next : (p_next p <= length (p_chunks p))%nat;
  po_chunks : (0 < length (p_chunks p))%nat;
  po_sizes : Forall (fun c => 0 <= ch_bytes c < 2 ^ 32) (p_chunks p);
  po_inflight : Z.of_nat (p_issued p) - Z.of_nat (p_done p) = msum (owned_by id) owner;
  po_live : ~ settled log canc id ->
    ((p_next p < length (p_chunks p))%nat -> id ∈ queue_of qs (prio p)) /\
    (p_next p = length (p_chunks p) -> (p_done p < p_issued p)%nat);
  po_settled : settled log canc id ->
    p_done p = p_issued p /\ (forall pr, id ∈ queue_of qs pr -> p_next p = length (p_chunks p)) }.

(** [B] bounds the ids handed out so far, [D] the depth any class may run to. *)
Record core_ok (B D : Z) (qs : list (list Z)) (pend : gmap Z Pending) (owner : gmap Z InflightChunk)
    (nreq nchunk outst ops bytes : Z) (cls : list Z) (log : list IoResult) (in_cb : option Z)
    (canc : list Z) : Prop := {
  ok_qlen : length qs = 4%nat;
  ok_clen : length cls = 4%nat;
  ok_queue : forall pr id, id ∈ queue_of qs pr -> exists p, pend !! id = Some p /\ prio p = pr;
  ok_qnodup : forall pr, NoDup (queue_of qs pr);
  ok_pend : forall id p, pend !! id = Some p -> pend_ok qs owner log canc id p;
  ok_ids : forall id, is_Some (pend !! id) -> 1 <= id < nreq;
  ok_nreq : 1 <= nreq <= B;
  ok_owner : forall cid ic, owner !! cid = Some ic ->
    0 <= cid < nchunk /\ is_Some (pend !! ic_owner ic) /\ 0 <= ic_bytes ic < 2 ^ 32;
  ok_nchunk : 1 <= nchunk <= B;
  ok_log : NoDup (log_ids log ++ canc);
  ok_log_ids : forall id, settled log canc id -> is_Some (pend !! id);
  ok_cb : forall id, in_cb = Some id -> id ∈ log_ids log;
  ok_ops : ops = msum (fun _ => 1) owner;
  ok_depth : msum (fun _ => 1) owner <= D;
  ok_bytes : bytes = msum ic_bytes owner;
  ok_class : forall pr, (pr < 4)%nat -> cls !! pr = Some (msum (of_class pend pr) owner);
  ok_outst : outst = u32 (Z.of_nat (size pend) - Z.of_nat (length log) - Z.of_nat (length canc)
                          + (if in_cb then 1 else 0)) }.

Definition engine_core (B D : Z) (e : Engine) : Prop :=
  core_ok B D (e_queues e) (e_pend e) (e_owner e) (e_next_req e) (e_next_chunk e) (e_outstanding e)
    (e_ops e) (e_bytes e) (e_class e) (e_log e) (e_in_cb e) (e_cancelling e).

(** The limits that stay put while the engine runs. *)
Record limits_ok (D : Z) (t : Tuning) (bg_chunk : Z) (caps : BackendCaps) : Prop := {
  tu_p0_chunk : 0 < p0_chunk_bytes t < 2 ^ 32;
  tu_bg_chunk : 0 < bg_chunk < 2 ^ 32;
  tu_align : alignment_ok (alignment caps);
  tu_depth : depth_cap t <= D;
  tu_caps : max_queue_depth caps <= D;
  tu_D : 0 <= D < 2 ^ 32 }.

Definition tune_ok (D : Z) (e : Engine) : Prop := limits_ok D (e_tune e) (e_bg_chunk e) (e_caps e).
Definition engine_ok (B D : Z) (e : Engine) : Prop := engine_core B D e /\ tune_ok D e.

(** ** Queues *)

Lemma queue_of_alter qs f pr pr' : (pr < length qs)%nat ->
  queue_of (alter f pr qs) pr' = if decide (pr' = pr) then f (queue_of qs pr) else queue_of qs pr'.
Proof.
  intros Hl. unfold queue_of. destruct (decide (pr' = pr)) as [->|Hne].
  - rewrite list_lookup_alter_eq. apply lookup_lt_is_Some_2 in Hl as [q ->]. done.
  - by rewrite list_lookup_alter_ne.
Qed.

Lemma queue_of_fmap qs f pr : f [] = [] -> queue_of (fmap (M := list) f qs) pr = f (queue_of qs pr).
Proof. intros Hf. unfold queue_of. rewrite list_lookup_fmap. by destruct (qs !! pr). Qed.

Lemma prio_lt p : (prio p < 4)%nat.
Proof. unfold prio, prio_index. case_match; lia. Qed.

Lemma drop_front_suffix pend q : drop_front pend q `suffix_of` q.
Proof.
  induction q as [|id q IH]; cbn; [done|]. repeat case_match; try done. by apply suffix_cons_r.
Qed.

Lemma drop_front_subset pend q id : id ∈ drop_front pend q -> id ∈ q.
Proof. intros H. destruct (drop_front_suffix pend q) as [l ->]. apply elem_of_app. by right. Qed.

Lemma drop_front_NoDup pend q : NoDup q -> NoDup (drop_front pend q).
Proof. intros H. destruct (drop_front_suffix pend q) as [l E]. rewrite E in H. by apply NoDup_app in H as (_ & _ & H). Qed.

Lemma drop_front_keeps pend q id p : pend !! id = Some p -> fully_issued p = false -> id ∈ q -> id ∈ drop_front pend q.
Proof.
  intros Hp Hf. induction q as [|i q IH]; cbn; [done|]. intros [<-|Hin]%elem_of_cons.
  - rewrite Hp, Hf. by left.
  - repeat case_match; [by apply IH|by right|by right].
Qed.

Lemma drop_front_head pend q id : head (drop_front pend q) = Some id ->
  id ∈ q /\ forall p, pend !! id = Some p -> fully_issued p = false.
Proof.
  induction q as [|i q IH]; cbn; [done|]. destruct (pend !! i) as [p|] eqn:Hi.
  - destruct (fully_issued p) eqn:Hf.
    + intros H%IH. split; [right; apply H|apply H].
    + intros [= <-]. split; [by left|]. congruence.
  - intros [= <-]. split; [by left|]. congruence.
Qed.

(** ** In flight *)

Lemma owned_nonneg id ic : 0 <= owned_by id ic.
Proof. unfold owned_by. case_match; lia. Qed.

Lemma owned_count_pos id (owner : gmap Z InflightChunk) cid ic : owner !! cid = Some ic -> ic_owner ic = id -> 0 < msum (owned_by id) owner.
Proof.
  intros H E. eapply msum_pos; [intros; apply owned_nonneg|done|]. unfold owned_by. by rewrite E, Z.eqb_refl.
Qed.

Lemma of_class_ext pend pend' pr (owner : gmap Z InflightChunk) :
  (forall id, prio_of pend id = prio_of pend' id) -> msum (of_class pend pr) owner = msum (of_class pend' pr) owner.
Proof. intros H. apply msum_ext. intros k x _. unfold of_class. by rewrite H. Qed.

Lemma of_class_bool pend pr ic : 0 <= of_class pend pr ic <= 1.
Proof. unfold of_class. case_decide; lia. Qed.

Lemma class_nonneg pend pr (owner : gmap Z InflightChunk) : 0 <= msum (of_class pend pr) owner.
Proof. apply msum_nonneg. intros. apply of_class_bool. Qed.

Lemma class_le_ops pend pr (owner : gmap Z InflightChunk) : msum (of_class pend pr) owner <= msum (fun _ => 1) owner.
Proof. apply msum_le. intros. apply of_class_bool. Qed.

Lemma prio_of_insert (pend : gmap Z Pending) id p p' id' :
  pend !! id = Some p -> prio p' = prio p -> prio_of (<[id:=p']> pend) id' = prio_of pend id'.
Proof.
  intros H E. unfold prio_of. destruct (decide (id' = id)) as [->|].
  - rewrite lookup_insert_eq, H. cbn. by rewrite E.
  - by rewrite lookup_insert_ne.
Qed.

(** ** Requests an operation does not touch *)

Lemma pend_ok_frame qs owner log canc qs' owner' log' canc' id p :
  pend_ok qs owner log canc id p ->
  msum (owned_by id) owner' = msum (owned_by id) owner ->
  (settled log' canc' id <-> settled log canc id) ->
  (forall pr, id ∈ queue_of qs' pr <-> id ∈ queue_of qs pr) ->
  pend_ok qs' owner' log' canc' id p.
Proof.
  intros [] Ho Hs Hq. split; try done; [by rewrite Ho| |].
  - intros H. rewrite Hs in H. rewrite Hq. by apply po_live0.
  - intros H%Hs. destruct (po_settled0 H) as [Hd Hn]. split; [done|]. intros pr Hin%Hq. by apply (Hn pr).
Qed.

Lemma engine_core_mono B B' D e : B <= B' -> engine_core B D e -> engine_core B' D e.
Proof. intros H []. split; try done; lia. Qed.

(** A request in a queue that still has chunks to issue is live. *)
Lemma queued_live qs owner log canc id p pr : pend_ok qs owner log canc id p -> id ∈ queue_of qs pr ->
  fully_issued p = false -> ~ settled log canc id.
Proof.
  intros H Hq Hf Hs. destruct (po_settled _ _ _ _ _ _ H Hs) as [_ Hn]. specialize (Hn pr Hq).
  unfold fully_issued in Hf. apply Nat.leb_gt in Hf. lia.
Qed.

(** A request with a chunk in flight is live. *)
Lemma inflight_live qs owner log canc cid ic p : pend_ok qs owner log canc (ic_owner ic) p ->
  owner !! cid = Some ic -> ~ settled log canc (ic_owner ic) /\ (p_done p < p_issued p)%nat.
Proof.
  intros H Ho. pose proof (owned_count_pos (ic_owner ic) owner cid ic Ho eq_refl) as Hp.
  rewrite <- (po_inflight _ _ _ _ _ _ H) in Hp. split; [|lia].
  intros Hs. destruct (po_settled _ _ _ _ _ _ H Hs) as [Hd _]. lia.
Qed.

(** ** [submit] *)

Lemma plan_chunks_sizes off bytes mc al : Forall (fun c => 0 <= ch_bytes c < 2 ^ 32) (plan_chunks off bytes mc al).
Proof.
  unfold plan_chunks. case_match; [constructor|]. cbn zeta. generalize (chunk_step mc al) as s. intros s.
  generalize (chunk_count bytes s) as fuel. intros fuel. clear.
  revert off bytes. induction fuel as [|fuel IH]; intros off bytes; cbn [chunk_loop]; [constructor|].
  case_match; [constructor|]. specialize (IH (u64 (off + u32 (Z.min s bytes))) (bytes - u32 (Z.min s bytes))).
  destruct (chunk_loop _ _ _ _) as [cs r]. constructor; [apply u32_range|apply IH].
Qed.

Lemma plan_chunks_nonempty off bytes mc al : 0 < bytes -> 0 < mc < 2 ^ 32 -> alignment_ok al ->
  (0 < length (plan_chunks off bytes mc al))%nat.
Proof.
  intros Hb Hm Ha. pose proof (chunk_step_spec mc al Hm Ha) as [Hs _].
  unfold plan_chunks. rewrite (proj2 (Z.eqb_neq bytes 0)), (proj2 (Z.eqb_neq mc 0)) by lia.
  cbn [orb]. cbn zeta. rewrite chunk_count_more by lia. cbn [chunk_loop].
  rewrite (proj2 (Z.eqb_neq bytes 0)) by lia. destruct (chunk_loop _ _ _ _). cbn. lia.
Qed.

Lemma u32_succ x : u32 (u32 x + 1) = u32 (x + 1).
Proof. unfold u32. by rewrite Zplus_mod_idemp_l. Qed.
Lemma u32_pred x : u32 (u32 x - 1) = u32 (x - 1).
Proof. unfold u32. by rewrite Zminus_mod_idemp_l. Qed.

Lemma log_ids_length log : length (log_ids log) = length log.
Proof. apply length_fmap. Qed.

Lemma core_enqueue B D p qs pend owner nreq nchunk outst ops bytes cls log in_cb canc :
  core_ok B D qs pend owner nreq nchunk outst ops bytes cls log in_cb canc -> B < 2 ^ 62 ->
  p_id p = nreq -> p_next p = 0%nat /\ p_issued p = 0%nat /\ p_done p = 0%nat ->
  (0 < length (p_chunks p))%nat -> Forall (fun c => 0 <= ch_bytes c < 2 ^ 32) (p_chunks p) ->
  core_ok (B + 1) D (push_back (prio p) nreq qs) (<[nreq := p]> pend) owner (inc64 nreq) nchunk (inc32 outst)
    ops bytes cls log in_cb canc.
Proof.
  intros [] HB Hid (Hn & Hi & Hd) Hc Hs.
  assert (Hfresh : pend !! nreq = None).
  { destruct (pend !! nreq) eqn:E; [|done]. destruct (ok_ids0 nreq ltac:(by eexists)). lia. }
  assert (Hnq : forall pr, nreq ∉ queue_of qs pr).
  { intros pr Hin. destruct (ok_queue0 pr _ Hin) as (? & ? & _). congruence. }
  assert (Hnl : ~ settled log canc nreq).
  { intros Hl%ok_log_ids0. by rewrite Hfresh in Hl; destruct Hl. }
  assert (Hown : msum (owned_by nreq) owner = 0).
  { apply msum_zero. intros cid ic Ho. unfold owned_by. destruct (Z.eqb_spec (ic_owner ic) nreq) as [E|]; [|done].
    apply ok_owner0 in Ho as (_ & Hx & _). rewrite E, Hfresh in Hx. by destruct Hx. }
  assert (Hne : forall id q, pend !! id = Some q -> id <> nreq) by (intros id q Hq ->; congruence).
  assert (Hq : forall pr id, id ∈ queue_of (push_back (prio p) nreq qs) pr <->
    id ∈ queue_of qs pr \/ (id = nreq /\ pr = prio p)).
  { intros pr id. unfold push_back. rewrite queue_of_alter by (rewrite ok_qlen0; apply prio_lt).
    case_decide; subst; [rewrite elem_of_app, list_elem_of_singleton|]; naive_solver. }
  assert (Hinc : inc64 nreq = nreq + 1) by (apply u64_small; lia).
  split; try done.
  - unfold push_back. by rewrite length_alter.
  - intros pr id [Hin|[-> ->]]%Hq; [|exists p; by rewrite lookup_insert_eq].
    destruct (ok_queue0 pr id Hin) as (q & Hl & Hpr). exists q. split; [|done].
    rewrite lookup_insert_ne; [done|]. by apply not_eq_sym, (Hne _ q).
  - intros pr. unfold push_back. rewrite queue_of_alter by (rewrite ok_qlen0; apply prio_lt).
    case_decide; [|done]. apply NoDup_app. split; [apply ok_qnodup0|].
    split; [|apply NoDup_singleton]. intros x Hx ->%list_elem_of_singleton. by apply Hnq in Hx.
  - intros id q. destruct (decide (id = nreq)) as [->|Hid'].
    + rewrite lookup_insert_eq. intros [= <-]. split; try done; try lia.
      intros _. split; [intros _; apply Hq; by right|lia].
    + rewrite lookup_insert_ne by done. intros Hq'. eapply pend_ok_frame; [by apply ok_pend0|done|done|].
      intros pr. rewrite Hq. naive_solver.
  - intros id Hx. rewrite lookup_insert_is_Some in Hx. destruct Hx as [<-|[_ Hx%ok_ids0]]; lia.
  - lia.
  - intros cid ic Ho. destruct (ok_owner0 cid ic Ho) as (? & ? & ?). split_and!; try lia.
    by apply lookup_insert_is_Some'; right.
  - lia.
  - intros id Hx%ok_log_ids0. by apply lookup_insert_is_Some'; right.
  - intros pr Hpr. rewrite ok_class0 by done. f_equal. apply msum_ext. intros cid ic Ho. unfold of_class, prio_of.
    rewrite lookup_insert_ne; [done|]. intros E. apply ok_owner0 in Ho as (_ & Hx & _).
    rewrite <- E, Hfresh in Hx. by destruct Hx.
  - rewrite ok_outst0. unfold inc32. rewrite u32_succ, map_size_insert_None by done. f_equal. lia.
Qed.

(** ** One request changes *)

Lemma pend_update qs owner log canc qs' owner' log' canc' (pend : gmap Z Pending) id p' :
  (forall i q, pend !! i = Some q -> pend_ok qs owner log canc i q) ->
  (forall i, i <> id -> msum (owned_by i) owner' = msum (owned_by i) owner /\
     (settled log' canc' i <-> settled log canc i) /\
     (forall pr, i ∈ queue_of qs' pr <-> i ∈ queue_of qs pr)) ->
  pend_ok qs' owner' log' canc' id p' ->
  forall i q, <[id := p']> pend !! i = Some q -> pend_ok qs' owner' log' canc' i q.
Proof.
  intros Hp Hf Hid i q. destruct (decide (i = id)) as [->|Hne].
  - rewrite lookup_insert_eq. by intros [= <-].
  - rewrite lookup_insert_ne by done. intros Hq. destruct (Hf i Hne) as (? & ? & ?).
    by apply (pend_ok_frame qs owner log canc); auto.
Qed.

Lemma queue_update (pend : gmap Z Pending) qs id p p' : pend !! id = Some p -> prio p' = prio p ->
  (forall pr i, i ∈ queue_of qs pr -> exists q, pend !! i = Some q /\ prio q = pr) ->
  forall pr i, i ∈ queue_of qs pr -> exists q, <[id := p']> pend !! i = Some q /\ prio q = pr.
Proof.
  intros Hp E H pr i Hi. destruct (H pr i Hi) as (q & Hq & Hpr). destruct (decide (i = id)) as [->|].
  - exists p'. rewrite lookup_insert_eq. split; [done|]. congruence.
  - exists q. by rewrite lookup_insert_ne.
Qed.

Lemma insert_present (pend : gmap Z Pending) id p p' i :
  pend !! id = Some p -> is_Some (<[id := p']> pend !! i) <-> is_Some (pend !! i).
Proof.
  intros H. rewrite lookup_insert_is_Some'. split; [intros [->|?]; [by eexists|done]|by right].
Qed.

(** The counters when the queues, the log or one request change but nothing in flight does. *)
Lemma class_update (pend : gmap Z Pending) (owner : gmap Z InflightChunk) (cls : list Z) id p p' : pend !! id = Some p -> prio p' = prio p ->
  (forall pr, (pr < 4)%nat -> cls !! pr = Some (msum (of_class pend pr) owner)) ->
  forall pr, (pr < 4)%nat -> cls !! pr = Some (msum (of_class (<[id := p']> pend) pr) owner).
Proof.
  intros Hp E H pr Hpr. rewrite H by done. f_equal. apply of_class_ext. intros i.
  by rewrite (prio_of_insert pend id p p').
Qed.

(** ** Issuing a chunk *)

Lemma core_drop B D qs pend owner nreq nchunk outst ops bytes cls log in_cb canc :
  core_ok B D qs pend owner nreq nchunk outst ops bytes cls log in_cb canc ->
  core_ok B D (fmap (M := list) (drop_front pend) qs) pend owner nreq nchunk outst ops bytes cls log in_cb canc.
Proof.
  intros []. assert (Hq : forall pr, queue_of (fmap (M := list) (drop_front pend) qs) pr = drop_front pend (queue_of qs pr))
    by (intros; by apply queue_of_fmap).
  split; try done.
  - by rewrite length_fmap.
  - intros pr id. rewrite Hq. intros H%drop_front_subset. by apply ok_queue0.
  - intros pr. rewrite Hq. by apply drop_front_NoDup.
  - intros id p Hp. destruct (ok_pend0 id p Hp). split; try done.
    + intros Hl. destruct (po_live0 Hl) as [H1 H2]. split; [|done]. intros Hn. rewrite Hq.
      eapply drop_front_keeps; [done| |by apply H1]. by apply Nat.leb_gt.
    + intros Hs. destruct (po_settled0 Hs) as [H1 H2]. split; [done|]. intros pr. rewrite Hq.
      intros H%drop_front_subset. by apply (H2 pr).
Qed.

Lemma owned_insert i cid ic (owner : gmap Z InflightChunk) : owner !! cid = None ->
  msum (owned_by i) (<[cid := ic]> owner) = owned_by i ic + msum (owned_by i) owner.
Proof. apply msum_insert. Qed.

Section Issue.
Context (B D : Z) (qs : list (list Z)) (pend : gmap Z Pending) (owner : gmap Z InflightChunk).
Context (nreq nchunk outst ops bytes : Z) (cls : list Z) (log : list IoResult) (in_cb : option Z) (canc : list Z).
Context (Hcore : core_ok B D qs pend owner nreq nchunk outst ops bytes cls log in_cb canc).

Lemma owner_fresh : owner !! nchunk = None.
Proof.
  destruct (owner !! nchunk) eqn:E; [|done]. apply (ok_owner _ _ _ _ _ _ _ _ _ _ _ _ _ _ Hcore) in E. lia.
Qed.

Lemma bytes_bound : D < 2 ^ 32 -> 0 <= msum ic_bytes owner <= D * (2 ^ 32 - 1).
Proof.
  intros HD. destruct Hcore. split.
  - apply msum_nonneg. intros k x Hx. apply ok_owner0 in Hx. lia.
  - transitivity (msum (fun _ => (2 ^ 32 - 1) * 1) owner).
    + apply msum_le. intros k x Hx. apply ok_owner0 in Hx. lia.
    + rewrite (msum_scale (fun _ => 1)). lia.
Qed.

Lemma core_issue id p p' ic :
  B < 2 ^ 62 -> ops < D -> D < 2 ^ 32 -> in_cb = None ->
  pend !! id = Some p -> fully_issued p = false -> id ∈ queue_of qs (prio p) ->
  p_id p' = p_id p -> p_chunks p' = p_chunks p -> p_req p' = p_req p -> p_done p' = p_done p ->
  p_next p' = S (p_next p) -> p_issued p' = S (p_issued p) ->
  ic_owner ic = id -> 0 <= ic_bytes ic < 2 ^ 32 ->
  core_ok (B + 1) D qs (<[id := p']> pend) (<[nchunk := ic]> owner) nreq (inc64 nchunk) outst
    (inc32 ops) (u64 (bytes + ic_bytes ic)) (alter inc32 (prio p) cls) log in_cb canc.
Proof.
  intros HB Hops HD Hcb Hp Hf Hin Ei Ec Er Ed En Eis Hic Hib. pose proof (bytes_bound HD) as Hbb.
  pose proof owner_fresh as Hfr. destruct Hcore.
  pose proof (ok_pend0 id p Hp) as Hpo. pose proof (queued_live _ _ _ _ _ _ _ Hpo Hin Hf) as Hlive.
  assert (Epr : prio p' = prio p) by (unfold prio; by rewrite Er).
  unfold fully_issued in Hf. apply Nat.leb_gt in Hf.
  assert (Hincc : inc64 nchunk = nchunk + 1) by (apply u64_small; lia).
  assert (0 <= ops) by (rewrite ok_ops0; apply msum_nonneg; lia).
  split; try done.
  - by rewrite length_alter.
  - by eapply queue_update.
  - apply (pend_update qs owner log canc); [done| |].
    + intros i Hne. rewrite owned_insert by done. split; [|done]. unfold owned_by.
      rewrite (proj2 (Z.eqb_neq (ic_owner ic) i)); [lia|congruence].
    + destruct Hpo. split; rewrite ?Ec, ?Ed, ?En, ?Eis; try done; try lia.
      * rewrite owned_insert by done. unfold owned_by at 1. rewrite Hic, Z.eqb_refl. lia.
      * intros _. rewrite Epr. split; [done|lia].
  - intros i Hi%(insert_present pend id p); auto.
  - lia.
  - intros cid x Hx. apply lookup_insert_Some in Hx as [[<- <-]|[_ Hx]].
    + split; [lia|]. split; [|done]. rewrite Hic, lookup_insert_eq. by eexists.
    + destruct (ok_owner0 cid x Hx) as (? & ? & ?). split_and!; try lia. by apply (insert_present pend id p).
  - lia.
  - intros i Hi%ok_log_ids0. by apply (insert_present pend id p).
  - rewrite msum_insert by done. unfold inc32. rewrite u32_small by lia. lia.
  - rewrite msum_insert by done. lia.
  - rewrite msum_insert by done. rewrite u64_small by nia. lia.
  - intros pr Hpr. rewrite msum_insert by done.
    rewrite (of_class_ext (<[id:=p']> pend) pend) by (intros; by apply (prio_of_insert pend id p)).
    assert (E : of_class (<[id:=p']> pend) pr ic = if decide (pr = prio p) then 1 else 0).
    { unfold of_class, prio_of. rewrite Hic, lookup_insert_eq. cbn. rewrite Epr.
      repeat case_decide; congruence. }
    rewrite E. case_decide as Hd.
    + subst pr. rewrite list_lookup_alter_eq, ok_class0 by done. cbn. f_equal. unfold inc32.
      pose proof (class_le_ops pend (prio p) owner). pose proof (class_nonneg pend (prio p) owner).
      rewrite u32_small; lia.
    + rewrite list_lookup_alter_ne by done. by rewrite ok_class0.
  - rewrite ok_outst0. by rewrite map_size_insert_Some by (by eexists).
Qed.
End Issue.

(** ** A chunk completes *)

Lemma settled_snoc log canc r i : settled (log ++ [r]) canc i <-> settled log canc i \/ i = ir_id r.
Proof.
  unfold settled, log_ids. rewrite fmap_app, !elem_of_app. cbn. rewrite list_elem_of_singleton. tauto.
Qed.

Lemma nodup_log_snoc log canc r : NoDup (log_ids log ++ canc) -> ~ settled log canc (ir_id r) ->
  NoDup (log_ids (log ++ [r]) ++ canc).
Proof.
  intros H Hn. unfold log_ids in *. rewrite fmap_app. cbn. rewrite <- app_assoc. cbn.
  rewrite <- Permutation_middle. by constructor.
Qed.

Section Release.
Context (B D : Z) (qs : list (list Z)) (pend : gmap Z Pending) (owner : gmap Z InflightChunk).
Context (nreq nchunk outst ops bytes : Z) (cls : list Z) (log : list IoResult) (canc : list Z).
Context (Hcore : core_ok B D qs pend owner nreq nchunk outst ops bytes cls log None canc) (HD : D < 2 ^ 32).

(** What becomes of the request [id] of a completed chunk: it stays, moves to the front of
    its queue, or its callback starts. *)
Definition log_moves (id : Z) (log' : list IoResult) (in_cb' : option Z) : Prop :=
  (log' = log /\ in_cb' = None) \/
  (exists r, log' = log ++ [r] /\ ir_id r = id /\ in_cb' = Some id).

Lemma core_release cid ic p p' qs' log' in_cb' :
  owner !! cid = Some ic -> pend !! ic_owner ic = Some p -> prio p' = prio p ->
  length qs' = 4%nat -> (forall pr, NoDup (queue_of qs' pr)) ->
  (forall pr, ic_owner ic ∈ queue_of qs' pr -> pr = prio p) ->
  (forall pr i, i <> ic_owner ic -> i ∈ queue_of qs' pr <-> i ∈ queue_of qs pr) ->
  log_moves (ic_owner ic) log' in_cb' ->
  pend_ok qs' (delete cid owner) log' canc (ic_owner ic) p' ->
  core_ok B D qs' (<[ic_owner ic := p']> pend) (delete cid owner) nreq nchunk outst
    (dec32 ops) (u64 (bytes - ic_bytes ic)) (alter dec32 (prio p) cls) log' in_cb' canc.
Proof.
  set (id := ic_owner ic). intros Ho Hp Epr Hql Hqn Hqid Hqf Hlog Hpo'.
  pose proof (bytes_bound _ _ _ _ _ _ _ _ _ _ _ _ _ _ Hcore HD) as Hbb. destruct Hcore.
  destruct (inflight_live _ _ _ _ _ _ _ (ok_pend0 id p Hp) Ho) as [Hlive _]. fold id in Hlive.
  assert (Hops : ops = 1 + msum (fun _ => 1) (delete cid owner)) by (rewrite ok_ops0; exact (msum_delete (fun _ => 1) owner cid ic Ho)).
  assert (Hbytes : bytes = ic_bytes ic + msum ic_bytes (delete cid owner)) by (rewrite ok_bytes0; exact (msum_delete ic_bytes owner cid ic Ho)).
  assert (Hdel : forall k x, delete cid owner !! k = Some x -> owner !! k = Some x) by (intros k x []%lookup_delete_Some; done).
  assert (0 <= msum (fun _ => 1) (delete cid owner)) by (apply msum_nonneg; lia).
  assert (0 <= msum ic_bytes (delete cid owner)) by (apply msum_nonneg; intros k x Hx%Hdel%ok_owner0; lia).
  assert (Hset : forall i, i <> id -> settled log' canc i <-> settled log canc i).
  { intros i Hne. destruct Hlog as [[-> _]|(r & -> & Hr & _)]; [done|]. rewrite settled_snoc, Hr. tauto. }
  split; try done.
  - by rewrite length_alter.
  - intros pr i Hi. destruct (decide (i = id)) as [->|Hne].
    + exists p'. rewrite lookup_insert_eq. split; [done|]. rewrite Epr. symmetry. by apply Hqid.
    + apply Hqf in Hi; [|done]. destruct (ok_queue0 pr i Hi) as (q & Hq & Hpr). exists q. by rewrite lookup_insert_ne.
  - apply (pend_update qs owner log canc); [done| |done]. intros i Hne. split_and!; [|by apply Hset|by intros; apply Hqf].
    rewrite (msum_delete (owned_by i) owner cid ic) by done. unfold owned_by at 2.
    rewrite (proj2 (Z.eqb_neq (ic_owner ic) i)); [lia|]. unfold id in Hne. congruence.
  - intros i Hi%(insert_present pend id p); auto.
  - intros k x Hx%Hdel. destruct (ok_owner0 k x Hx) as (? & ? & ?). split_and!; try lia. by apply (insert_present pend id p).
  - destruct Hlog as [[-> _]|(r & -> & Hr & _)]; [done|]. apply nodup_log_snoc; [done|by rewrite Hr].
  - intros i Hi. apply (insert_present pend id p); [done|]. destruct (decide (i = id)) as [->|]; [by eexists|].
    apply ok_log_ids0. by apply Hset.
  - intros i Hi. destruct Hlog as [[_ ->]|(r & -> & Hr & ->)]; [done|]. injection Hi as <-.
    unfold log_ids. rewrite fmap_app. apply elem_of_app. right. cbn. rewrite Hr. by left.
  - unfold dec32. rewrite u32_small; lia.
  - lia.
  - destruct (ok_owner0 cid ic Ho) as (_ & _ & ?). rewrite u64_small; lia.
  - intros pr Hpr. rewrite (of_class_ext (<[id:=p']> pend) pend) by (intros; by apply (prio_of_insert pend id p)).
    assert (Hc : msum (of_class pend pr) owner = of_class pend pr ic + msum (of_class pend pr) (delete cid owner))
      by (by apply msum_delete).
    assert (E : of_class pend pr ic = if decide (pr = prio p) then 1 else 0).
    { unfold of_class, prio_of. fold id. rewrite Hp. cbn. repeat case_decide; congruence. }
    rewrite E in Hc. pose proof (class_nonneg pend pr (delete cid owner)). pose proof (class_le_ops pend pr owner).
    case_decide as Hd.
    + subst pr. rewrite list_lookup_alter_eq, ok_class0 by done. cbn. f_equal. unfold dec32.
      rewrite u32_small; lia.
    + rewrite list_lookup_alter_ne by done. rewrite ok_class0 by done. f_equal. lia.
  - rewrite ok_outst0, map_size_insert_Some by (by eexists). f_equal.
    destruct Hlog as [[-> ->]|(r & -> & _ & ->)]; [lia|]. rewrite length_app. cbn. lia.
Qed.
End Release.

(** ** The engine's steps *)

Lemma enqueue_ok B D now p e : engine_ok B D e -> B < 2 ^ 62 -> p_id p = e_next_req e ->
  p_next p = 0%nat /\ p_issued p = 0%nat /\ p_done p = 0%nat ->
  (0 < length (p_chunks p))%nat -> Forall (fun c => 0 <= ch_bytes c < 2 ^ 32) (p_chunks p) ->
  engine_ok (B + 1) D (enqueue now p e).
Proof.
  intros [Hc Ht] HB Hid Hz Hl Hs. split.
  - pose proof (core_enqueue _ _ p _ _ _ _ _ _ _ _ _ _ _ _ Hc HB Hid Hz Hl Hs) as H.
    rewrite <- Hid in H. unfold engine_core, enqueue, prio in *.
    destruct (bool_decide _); cbn; rewrite <- Hid; exact H.
  - unfold enqueue. by destruct (bool_decide _).
Qed.

(** Requests are sized by a [uint64_t]. *)
Definition op_ok (op : IoOp) : Prop := match op with OpSubmit q => 0 <= q_bytes q | _ => True end.

Lemma route_keeps_request now q src : let rt := (route_request now q src).1 in
  rt_req rt = q \/ exists f, rt_req rt = with_file f q.
Proof. unfold route_request, unrouted. repeat case_match; cbn; eauto. Qed.

Lemma engine_ok_mono B B' D e : B <= B' -> engine_ok B D e -> engine_ok B' D e.
Proof. intros H []. split; [by eapply engine_core_mono|done]. Qed.

Lemma submit_ok B D now q e : engine_ok B D e -> B < 2 ^ 62 -> 0 <= q_bytes q ->
  engine_ok (B + 1) D (submit now q e).2.
Proof.
  intros He HB Hq. assert (Hmono : engine_ok (B + 1) D e) by (apply (engine_ok_mono B); [lia|done]).
  unfold submit. destruct (negb (e_running e)); [done|]. destruct (negb (f_open _)); [done|].
  destruct (route_request now q (e_src e)) as [rt src] eqn:Hr.
  assert (Hb : q_bytes (rt_req rt) = q_bytes q).
  { pose proof (route_keeps_request now q (e_src e)) as Hrt. rewrite Hr in Hrt. cbn in Hrt.
    destruct Hrt as [->|[f ->]]; done. }
  destruct (q_dst (rt_req rt) =? 0); [done|]. destruct (Z.eqb_spec (q_bytes (rt_req rt)) 0) as [|Hne]; [done|].
  destruct (unaligned _ _); [done|]. destruct (Z.min _ _ =? 0); [done|]. cbn [snd].
  apply enqueue_ok; try done.
  - unfold new_pending. cbn [p_chunks]. destruct He as [_ []]. apply plan_chunks_nonempty; [lia| |done].
    by case_decide.
  - unfold new_pending. cbn [p_chunks]. apply plan_chunks_sizes.
Qed.

(** *** [cancel] *)

Lemma queue_filter_mem qs pr pr' id i : (pr < length qs)%nat ->
  i ∈ queue_of (alter (fun q => filter (fun j => j <> id) q) pr qs) pr' ->
  i ∈ queue_of qs pr' /\ (pr' = pr -> i <> id).
Proof.
  intros Hl. rewrite queue_of_alter by done. case_decide; [|done].
  subst. rewrite list_elem_of_filter. tauto.
Qed.

Lemma core_cancel B D qs pend owner nreq nchunk outst ops bytes cls log in_cb canc id pr p p' :
  core_ok B D qs pend owner nreq nchunk outst ops bytes cls log in_cb canc ->
  id ∈ queue_of qs pr -> (pr < 4)%nat -> pend !! id = Some p -> p_next p = 0%nat ->
  p_id p' = p_id p -> p_chunks p' = p_chunks p -> p_req p' = p_req p -> p_done p' = p_done p ->
  p_next p' = p_next p -> p_issued p' = p_issued p ->
  core_ok B D (alter (fun q => filter (fun j => j <> id) q) pr qs) (<[id := p']> pend) owner nreq nchunk
    (dec32 outst) ops bytes cls log in_cb (id :: canc).
Proof.
  intros [] Hin Hpr Hp Hn Ei Ec Er Ed En Eis.
  assert (Epr : prio p' = prio p) by (unfold prio; by rewrite Er).
  assert (Hq : forall pr' i, i ∈ queue_of (alter (fun q => filter (fun j => j <> id) q) pr qs) pr' <->
            i ∈ queue_of qs pr' /\ i <> id).
  { intros pr' i. rewrite queue_of_alter by (by rewrite ok_qlen0). case_decide as E.
    - subst. rewrite list_elem_of_filter. tauto.
    - split; [|tauto]. intros Hi. split; [done|]. intros ->.
      destruct (ok_queue0 pr id Hin) as (a & Ha & <-), (ok_queue0 pr' id Hi) as (b & Hb & <-). congruence. }
  destruct (ok_pend0 id p Hp) as [].
  assert (Hlive : ~ settled log canc id) by (intros Hs; destruct (po_settled0 Hs) as [_ Hx]; specialize (Hx pr Hin); lia).
  assert (Hset : forall i, settled log (id :: canc) i <-> settled log canc i \/ i = id).
  { intros i. unfold settled. rewrite !elem_of_app, elem_of_cons. tauto. }
  split; try done.
  - by rewrite length_alter.
  - intros pr' i [Hi Hne]%Hq. destruct (ok_queue0 pr' i Hi) as (q & Hl & Hx). exists q. by rewrite lookup_insert_ne.
  - intros pr'. rewrite queue_of_alter by (by rewrite ok_qlen0). case_decide; [|done]. by apply NoDup_filter.
  - apply (pend_update qs owner log canc); [done| |].
    + intros i Hne. split; [done|]. split; [rewrite Hset; tauto|]. intros pr'. rewrite Hq. tauto.
    + split; rewrite ?Ec, ?Ed, ?En, ?Eis; try done; try lia.
      * intros Hs. exfalso. apply Hs, Hset. by right.
      * intros _. split; [lia|]. intros pr' [_ ?]%Hq. done.
  - intros i Hi%(insert_present pend id p); auto.
  - intros cid x Hx. destruct (ok_owner0 cid x Hx) as (? & ? & ?). split_and!; try lia. by apply (insert_present pend id p).
  - rewrite <- Permutation_middle. by constructor.
  - intros i [Hi%ok_log_ids0| ->]%Hset; [by apply (insert_present pend id p)|]. rewrite lookup_insert_eq. by eexists.
  - by eapply class_update.
  - rewrite ok_outst0, map_size_insert_Some by (by eexists). unfold dec32. rewrite u32_pred. f_equal. cbn. lia.
Qed.

Lemma foldl_on_src {A} (f : Sources -> A -> Sources) l e :
  on_src (fun src => foldl f src l) e = e <| e_src := foldl f (e_src e) l |>.
Proof. done. Qed.

Lemma cancel_ok B D now id e : engine_ok B D e -> engine_ok B D (cancel now id e).2.
Proof.
  intros He. unfold cancel. destruct (list_find _ _) as [[pr q]|] eqn:Hf; [|done].
  unfold the_pending. destruct (e_pend e !! id) as [p|] eqn:Hp; [|done].
  destruct (Nat.eqb_spec (p_next p) 0) as [Hn|]; cbn [negb]; [|done]. cbn [snd].
  apply list_find_Some in Hf as (Hq & Hin & _). destruct He as [Hc Ht].
  assert (id ∈ queue_of (e_queues e) pr) by (unfold queue_of; by rewrite Hq).
  assert (pr < 4)%nat by (rewrite <- (ok_qlen _ _ _ _ _ _ _ _ _ _ _ _ _ _ Hc); by eapply lookup_lt_Some).
  split; [|done]. unfold engine_core. cbn.
  by eapply core_cancel.
Qed.

Lemma cancel_notify_ok B D id e : engine_ok B D e -> engine_ok B D (cancel_notify id e).
Proof.
  intros [Hc Ht]. unfold cancel_notify, the_pending. destruct (e_pend e !! id) as [p|] eqn:Hp; [|done].
  case_decide as Hin; [|done]. split; [|done]. unfold engine_core. cbn. destruct Hc.
  assert (Hperm : id :: filter (fun i => i <> id) (e_cancelling e) ≡ₚ e_cancelling e).
  { apply NoDup_app in ok_log0 as (_ & _ & Hnd). by apply filter_ne_perm. }
  assert (Hset : forall i, settled (e_log e ++ [mkIoResult id (q_key (p_req p)) 0 Cancelled])
      (filter (fun i => i <> id) (e_cancelling e)) i <-> settled (e_log e) (e_cancelling e) i).
  { intros i. rewrite settled_snoc. cbn. unfold settled. rewrite !elem_of_app, <- (elem_of_Permutation_proper i _ _ Hperm), elem_of_cons. tauto. }
  split; try done.
  - intros i q Hq. eapply pend_ok_frame; [by apply ok_pend0|done|apply Hset|done].
  - unfold log_ids. rewrite fmap_app, <- app_assoc. cbn. by rewrite Hperm.
  - intros i Hi%Hset. auto.
  - intros i Hi%ok_cb0. unfold log_ids. rewrite fmap_app. apply elem_of_app. by left.
  - rewrite ok_outst0. f_equal. rewrite length_app. cbn [length]. apply Permutation_length in Hperm. cbn in Hperm. lia.
Qed.

(** *** Issuing *)

Lemma drop_issued_ok B D e : engine_ok B D e -> engine_ok B D (drop_issued e).
Proof. intros [Hc Ht]. split; [|done]. by apply core_drop. Qed.

Lemma queue_front_elem e pr id : queue_front e pr = Some id -> id ∈ queue_of (e_queues e) (prio_index pr).
Proof. unfold queue_front, queue_of. intros H. destruct (default _ _); [done|]. injection H as ->. by left. Qed.

Lemma front_ready e pr id p : queue_front (drop_issued e) pr = Some id -> e_pend e !! id = Some p ->
  fully_issued p = false.
Proof.
  unfold queue_front, drop_issued. cbn. intros H Hp.
  change (default [] _) with (queue_of (fmap (M := list) (drop_front (e_pend e)) (e_queues e)) (prio_index pr)) in H.
  rewrite queue_of_fmap in H by done. apply drop_front_head in H as [_ H]. by apply H.
Qed.

Lemma next_request_front e id rescued : next_request e = Some (id, rescued) ->
  exists pr, queue_front e pr = Some id /\ (rescued = true -> pr = Engram).
Proof.
  unfold next_request. destruct (rescue e) as [i|] eqn:Hr.
  - intros [= <- <-]. exists Engram. split; [|done]. unfold rescue in Hr.
    destruct (queue_front e Engram); [|done]. by destruct (_ && _); simplify_eq.
  - unfold first_queued. intros H. destruct (head _) as [i|] eqn:Hh; [|done]. injection H as <- <-.
    assert (Hx : forall pr, queue_front e pr = Some i ->
      exists pr, queue_front e pr = Some i /\ (false = true -> pr = Engram)) by (intros pr Hpr; by exists pr).
    cbn in Hh. destruct (queue_front e BlockingMiss) eqn:H0; [apply (Hx BlockingMiss); cbn in Hh; congruence|].
    destruct (queue_front e Lookahead) eqn:H1; [apply (Hx Lookahead); cbn in Hh; congruence|].
    destruct (queue_front e Engram) eqn:H2; [apply (Hx Engram); cbn in Hh; congruence|].
    destruct (queue_front e Types.Backfill) eqn:H3; [apply (Hx Types.Backfill); cbn in Hh; congruence|done].
Qed.

Lemma qd_cap_le t cls rescued : qd_cap t cls rescued <= depth_cap t.
Proof. unfold qd_cap, depth_cap, rescue_qd. destruct rescued, cls; lia. Qed.

Lemma issue_chunk_ok B D id p rescued e : engine_ok B D e -> B < 2 ^ 62 -> e_in_cb e = None ->
  e_ops e < depth_cap (e_tune e) -> e_pend e !! id = Some p -> fully_issued p = false ->
  id ∈ queue_of (e_queues e) (prio p) -> engine_ok (B + 1) D (issue_chunk id p rescued e).
Proof.
  intros [Hc Ht] HB Hcb Hops Hp Hf Hin. split; [|done]. destruct Ht.
  pose proof (owner_fresh _ _ _ _ _ _ _ _ _ _ _ _ _ _ Hc) as Hfr.
  pose proof (ok_pend _ _ _ _ _ _ _ _ _ _ _ _ _ _ Hc id p Hp) as Hpo.
  unfold issue_chunk, engine_core. cbn. rewrite Hfr.
  set (c := default (mkChunk 0 0) (p_chunks p !! p_next p)).
  assert (Hb : 0 <= ch_bytes c < 2 ^ 32).
  { unfold c. unfold fully_issued in Hf. apply Nat.leb_gt in Hf.
    destruct (lookup_lt_is_Some_2 (p_chunks p) (p_next p) Hf) as [x Hx]. rewrite Hx. cbn.
    exact (Forall_lookup_1 _ _ _ _ (po_sizes _ _ _ _ _ _ Hpo) Hx). }
  eapply (core_issue _ _ _ _ _ _ _ _ _ _ _ _ _ _ Hc id p _ (mkInflight id (ch_bytes c) _)); try done; try lia;
    by destruct (p_issued_once p).
Qed.

Lemma issue_one_ok B D now e : engine_ok B D e -> B < 2 ^ 62 -> e_in_cb e = None ->
  engine_ok (B + 1) D (issue_one now e).2.
Proof.
  intros He HB Hcb. apply drop_issued_ok in He. assert (Hm : engine_ok (B + 1) D (drop_issued e))
    by (apply (engine_ok_mono B); [lia|done]).
  unfold issue_one. destruct (next_request _) as [[id rescued]|] eqn:Hn; [|done].
  unfold the_pending. destruct (e_pend (drop_issued e) !! id) as [p|] eqn:Hp; [|done].
  destruct (may_issue _ _ _ _) eqn:Hmay; [|done]. cbn [snd].
  destruct (next_request_front _ _ _ Hn) as (pr & Hfr & _).
  pose proof (queue_front_elem _ _ _ Hfr) as Hin.
  destruct (ok_queue _ _ _ _ _ _ _ _ _ _ _ _ _ _ (proj1 He) _ _ Hin) as (q & Hq & Hpr).
  assert (q = p) as -> by congruence. rewrite <- Hpr in Hin.
  apply issue_chunk_ok; try done.
  - unfold may_issue in Hmay. apply andb_true_iff in Hmay as [[Hops _]%andb_true_iff _].
    apply Z.ltb_lt in Hops. pose proof (qd_cap_le (e_tune (drop_issued e)) (q_priority (p_req p)) rescued). lia.
  - by apply (front_ready e pr id).
Qed.

(** *** Completing *)

(** What a completed chunk leaves of its request. *)
Record completed (p0 p : Pending) : Prop := {
  cm_id : p_id p = p_id p0; cm_req : p_req p = p_req p0; cm_chunks : p_chunks p = p_chunks p0;
  cm_issued : p_issued p = p_issued p0; cm_done : p_done p = S (p_done p0);
  cm_next : p_next p = p_next p0 \/ p_next p = length (p_chunks p0) }.

Lemma complete_chunk_spec c p : completed p (complete_chunk c p).
Proof. unfold complete_chunk. destruct (_ && _); split; try done; [by right|by left]. Qed.

Lemma completed_stripe s b c p0 p : completed p0 p -> completed p0 (complete_stripe s b c p).
Proof. intros []. unfold complete_stripe. case_match; by split. Qed.

Lemma completed_prio p0 p : completed p0 p -> prio p = prio p0.
Proof. intros []. unfold prio. congruence. Qed.

Section Completed.
Context (B D : Z) (qs : list (list Z)) (pend : gmap Z Pending) (owner : gmap Z InflightChunk).
Context (nreq nchunk outst ops bytes : Z) (cls : list Z) (log : list IoResult) (canc : list Z).
Context (Hcore : core_ok B D qs pend owner nreq nchunk outst ops bytes cls log None canc) (HD : D < 2 ^ 32).
Context (cid : Z) (ic : InflightChunk) (p0 p : Pending).
Context (Ho : owner !! cid = Some ic) (Hp : pend !! ic_owner ic = Some p0) (Hcm : completed p0 p).
#[local] Abbreviation id := (ic_owner ic).

Lemma completed_pend : pend_ok qs owner log canc id p0 /\ ~ settled log canc id /\ (p_done p0 < p_issued p0)%nat.
Proof.
  pose proof (ok_pend _ _ _ _ _ _ _ _ _ _ _ _ _ _ Hcore _ _ Hp) as H.
  destruct (inflight_live _ _ _ _ _ _ _ H Ho). done.
Qed.

Lemma released_inflight : Z.of_nat (p_issued p) - Z.of_nat (p_done p) = msum (owned_by id) (delete cid owner).
Proof.
  destruct completed_pend as (H & _ & Hd). pose proof (po_inflight _ _ _ _ _ _ H) as Hi.
  rewrite (msum_delete (owned_by id) owner cid ic) in Hi by done. unfold owned_by at 1 in Hi.
  rewrite Z.eqb_refl in Hi. rewrite (cm_issued _ _ Hcm), (cm_done _ _ Hcm). lia.
Qed.

Lemma queue_own pr : id ∈ queue_of qs pr -> pr = prio p0.
Proof.
  intros Hi. destruct (ok_queue _ _ _ _ _ _ _ _ _ _ _ _ _ _ Hcore _ _ Hi) as (q & Hq & <-). congruence.
Qed.

(** The request still has chunks to issue or in flight. *)
Lemma core_continue : ~ (p_done p = p_issued p /\ p_next p = length (p_chunks p)) ->
  core_ok B D qs (<[id := p]> pend) (delete cid owner) nreq nchunk outst (dec32 ops) (u64 (bytes - ic_bytes ic))
    (alter dec32 (prio p0) cls) log None canc.
Proof.
  intros Hnot. pose proof completed_pend as (Hpo & Hlive & Hd). pose proof released_inflight as Hrel.
  apply (core_release B D qs pend owner nreq nchunk outst ops bytes cls log canc Hcore HD cid ic p0); try done.
  - by apply completed_prio.
  - apply (ok_qlen _ _ _ _ _ _ _ _ _ _ _ _ _ _ Hcore).
  - apply (ok_qnodup _ _ _ _ _ _ _ _ _ _ _ _ _ _ Hcore).
  - apply queue_own.
  - by left.
  - pose proof (completed_prio _ _ Hcm) as Epr. destruct Hpo, Hcm as [? ? Ec Ei Ed En].
    split; rewrite ?Ec; try done; try lia; try congruence. intros _. destruct (po_live0 Hlive) as [H1 H2].
    rewrite Ec in Hnot. rewrite Epr. split; [intros Hlt; apply H1; lia|lia].
Qed.

(** The request is finished and its callback starts. *)
Lemma core_deliver p' r : p_done p = p_issued p -> p_next p = length (p_chunks p) -> completed p0 p' -> p_next p' = p_next p ->
  ir_id r = id ->
  core_ok B D qs (<[id := p']> pend) (delete cid owner) nreq nchunk outst (dec32 ops) (u64 (bytes - ic_bytes ic))
    (alter dec32 (prio p0) cls) (log ++ [r]) (Some id) canc.
Proof.
  intros Hdi Hnl Hcm' Hn' Hr. pose proof completed_pend as (Hpo & Hlive & Hd). pose proof released_inflight as Hrel.
  apply (core_release B D qs pend owner nreq nchunk outst ops bytes cls log canc Hcore HD cid ic p0); try done.
  - by apply completed_prio.
  - apply (ok_qlen _ _ _ _ _ _ _ _ _ _ _ _ _ _ Hcore).
  - apply (ok_qnodup _ _ _ _ _ _ _ _ _ _ _ _ _ _ Hcore).
  - apply queue_own.
  - right. by exists r.
  - destruct Hpo, Hcm as [? ? Ec Ei Ed En], Hcm' as [? ? Ec' Ei' Ed' En'].
    split; rewrite ?Ec'; try done; try lia; try congruence.
    + intros Hs. exfalso. apply Hs, settled_snoc. by right.
    + intros _. split; [lia|]. intros _ _. rewrite Hn', Hnl. congruence.
Qed.

(** The request goes back to the front of its queue, to be read again. *)
Lemma core_retry f : p_done p = p_issued p -> 
  core_ok B D (push_front (prio p0) id (alter (fun q => filter (fun i => i <> id) q) (prio p0) qs))
    (<[id := reset_pending f p]> pend) (delete cid owner) nreq nchunk outst (dec32 ops) (u64 (bytes - ic_bytes ic))
    (alter dec32 (prio p0) cls) log None canc.
Proof.
  intros Hdi. pose proof completed_pend as (Hpo & Hlive & Hd). pose proof released_inflight as Hrel.
  pose proof (ok_qlen _ _ _ _ _ _ _ _ _ _ _ _ _ _ Hcore) as Hql. pose proof (prio_lt p0) as Hlt.
  assert (Hq : forall pr, queue_of (push_front (prio p0) id (alter (fun q => filter (fun i => i <> id) q) (prio p0) qs)) pr
    = if decide (pr = prio p0) then id :: filter (fun i => i <> id) (queue_of qs pr) else queue_of qs pr).
  { intros pr. unfold push_front. rewrite queue_of_alter by (by rewrite length_alter, Hql). case_decide.
    - subst. rewrite queue_of_alter by (by rewrite Hql). by rewrite decide_True.
    - rewrite queue_of_alter by (by rewrite Hql). by rewrite decide_False. }
  assert (Epr : prio (reset_pending f p) = prio p0).
  { unfold prio, reset_pending. cbn. by rewrite (cm_req _ _ Hcm). }
  apply (core_release B D qs pend owner nreq nchunk outst ops bytes cls log canc Hcore HD cid ic p0); try done.
  - unfold push_front. by rewrite !length_alter.
  - intros pr. rewrite Hq. pose proof (ok_qnodup _ _ _ _ _ _ _ _ _ _ _ _ _ _ Hcore pr). case_decide; [|done].
    constructor; [by intros [? _]%list_elem_of_filter|by apply NoDup_filter].
  - intros pr. rewrite Hq. case_decide; [done|]. apply queue_own.
  - intros pr i Hne. rewrite Hq. case_decide; [|done]. rewrite elem_of_cons, list_elem_of_filter. naive_solver.
  - by left.
  - destruct Hpo, Hcm as [? ? Ec Ei Ed En]. unfold reset_pending.
    split; cbn [p_id p_done p_issued p_next p_chunks]; rewrite ?Ec; try done; try lia.
    + intros _. split; [|lia]. intros _. rewrite Hq, decide_True by exact Epr. by left.
Qed.
End Completed.

Lemma account_finish_engine now p e :
  on_src (account_finish now p) e = e <| e_src := account_finish now p (e_src e) |>.
Proof. done. Qed.

Lemma retries_primary p : retries p = true -> exists f, p_primary p = Some f.
Proof. unfold retries. destruct (p_primary p) as [f|]; [by exists f|done]. Qed.

(** The steps of [finish]: the result is logged or the request requeued. *)
Lemma finish_cases now p e : p_req (p <| p_src_charged := if p_routed p then p_src_charged p else zero4 |>) = p_req p ->
  let p' := p <| p_src_charged := if p_routed p then p_src_charged p else zero4 |> in
  (retries p' = false /\ finish now p e =
     stat (finish_stats p') ((on_src (account_finish now p) e) <| e_pend ::= <[p_id p := p']> |>
        <| e_log ::= fun l => l ++ [result_of p'] |> <| e_in_cb := Some (p_id p) |>)) \/
  (exists f src, retries p' = true /\ p_primary p' = Some f /\
     finish now p e = (e <| e_src := src |>) <| e_pend ::= <[p_id p := reset_pending f p']> |>
       <| e_queues ::= fun qs => push_front (prio p) (p_id p) (alter (fun q => filter (fun i => i <> p_id p) q) (prio p) qs) |>).
Proof.
  intros _ p'. unfold finish. fold p'. destruct (retries p') eqn:Hr; [right|by left].
  destruct (retries_primary p' Hr) as [f Hf]. rewrite Hf. by eexists f, _.
Qed.

(** [e1] is [e] with one chunk released; its sources and statistics are free. *)
Record released (cid : Z) (ic : InflightChunk) (pr : nat) (e e1 : Engine) : Prop := {
  rl_queues : e_queues e1 = e_queues e; rl_pend : e_pend e1 = e_pend e;
  rl_owner : e_owner e1 = delete cid (e_owner e); rl_nreq : e_next_req e1 = e_next_req e;
  rl_nchunk : e_next_chunk e1 = e_next_chunk e; rl_outst : e_outstanding e1 = e_outstanding e;
  rl_ops : e_ops e1 = dec32 (e_ops e); rl_bytes : e_bytes e1 = u64 (e_bytes e - ic_bytes ic);
  rl_class : e_class e1 = alter dec32 pr (e_class e); rl_log : e_log e1 = e_log e;
  rl_cb : e_in_cb e1 = e_in_cb e; rl_canc : e_cancelling e1 = e_cancelling e;
  rl_tune : e_tune e1 = e_tune e; rl_chunk : e_bg_chunk e1 = e_bg_chunk e; rl_caps : e_caps e1 = e_caps e }.

Definition settle_request (now id : Z) (p : Pending) (e : Engine) : Engine :=
  let e := e <| e_pend ::= <[id := p]> |> in
  if Nat.eqb (p_done p) (p_issued p) && Nat.eqb (p_next p) (length (p_chunks p)) then finish now p e else e.

Lemma settle_request_ok B D now cid ic p0 p e e1 :
  engine_ok B D e -> e_in_cb e = None -> e_owner e !! cid = Some ic -> e_pend e !! ic_owner ic = Some p0 ->
  completed p0 p -> p_id p = ic_owner ic -> released cid ic (prio p0) e e1 ->
  engine_ok B D (settle_request now (ic_owner ic) p e1).
Proof.
  intros [Hc Ht] Hcb Ho Hp Hcm Hid Hrl. unfold engine_core in Hc. rewrite Hcb in Hc.
  assert (HD : D < 2 ^ 32) by (destruct Ht; lia).
  pose proof (fun H => core_continue B D _ _ _ _ _ _ _ _ _ _ _ Hc HD cid ic p0 p Ho Hp Hcm H) as Hcont.
  pose proof (fun p' r => core_deliver B D _ _ _ _ _ _ _ _ _ _ _ Hc HD cid ic p0 p Ho Hp Hcm p' r) as Hdel.
  set (p' := p <| p_src_charged := if p_routed p then p_src_charged p else zero4 |>).
  assert (Hcm' : completed p0 p') by (destruct Hcm; by split).
  pose proof (fun f => core_retry B D _ _ _ _ _ _ _ _ _ _ _ Hc HD cid ic p0 p' Ho Hp Hcm' f) as Hret.
  unfold tune_ok in Ht. destruct Hrl. rewrite <- rl_tune0, <- rl_chunk0, <- rl_caps0 in Ht.
  rewrite <- rl_queues0, <- rl_pend0, <- rl_owner0, <- rl_nreq0, <- rl_nchunk0, <- rl_outst0, <- rl_ops0,
    <- rl_bytes0, <- rl_class0, <- rl_log0, <- rl_canc0 in Hcont, Hdel, Hret.
  rewrite Hcb in rl_cb0. unfold settle_request.
  destruct (Nat.eqb_spec (p_done p) (p_issued p)) as [Hdi|Hdi];
    destruct (Nat.eqb_spec (p_next p) (length (p_chunks p))) as [Hnl|Hnl]; cbn [andb];
    try (split; [|exact Ht]; unfold engine_core; cbn; rewrite rl_cb0; apply Hcont; by intros []).
  destruct (finish_cases now p (e1 <| e_pend ::= <[ic_owner ic := p]> |>) eq_refl)
    as [(_ & ->)|(f & src' & _ & _ & ->)]; (split; [|exact Ht]);
    fold p'; unfold engine_core; cbn; rewrite Hid, insert_insert_eq.
  - by apply Hdel.
  - rewrite rl_cb0, (completed_prio _ _ Hcm). by apply Hret.
Qed.

Lemma handle_completion_ok B D now c e : engine_ok B D e -> e_in_cb e = None ->
  engine_ok B D (handle_completion now c e).
Proof.
  intros He Hcb. unfold handle_completion, finish_keepalive.
  destruct (cc_id c <? kKeepAliveChunkBase) eqn:Hka; [|by destruct (head _)].
  destruct (e_owner e !! cc_id c) as [ic|] eqn:Ho; [|done]. unfold the_pending.
  destruct (e_pend e !! ic_owner ic) as [p0|] eqn:Hp; [|done].
  assert (Hid : p_id p0 = ic_owner ic)
    by apply (po_id _ _ _ _ _ _ (ok_pend _ _ _ _ _ _ _ _ _ _ _ _ _ _ (proj1 He) _ _ Hp)).
  assert (Hpr : prio_index (q_priority (p_req (complete_chunk c p0))) = prio p0)
    by (apply completed_prio, complete_chunk_spec).
  rewrite Hpr. destruct (ic_src ic =? kNoStripeSource);
    (eapply (settle_request_ok B D now (cc_id c) ic p0); [done..| | |by split]).
  - apply complete_chunk_spec.
  - by rewrite (cm_id _ _ (complete_chunk_spec c p0)).
  - apply completed_stripe, complete_chunk_spec.
  - by rewrite (cm_id _ _ (completed_stripe _ _ _ _ _ (complete_chunk_spec c p0))).
Qed.

Lemma callback_return_ok B D e : engine_ok B D e -> engine_ok B D (callback_return e).
Proof.
  intros [Hc Ht]. unfold callback_return, the_pending. destruct (e_in_cb e) as [id|] eqn:Hcb; [|done].
  unfold engine_core in Hc. rewrite Hcb in Hc.
  assert (H : core_ok B D (e_queues e) (e_pend e) (e_owner e) (e_next_req e) (e_next_chunk e) (dec32 (e_outstanding e))
    (e_ops e) (e_bytes e) (e_class e) (e_log e) None (e_cancelling e)).
  { destruct Hc. split; try done. rewrite ok_outst0. unfold dec32. rewrite u32_pred. f_equal. lia. }
  destruct (e_pend _ !! id) as [p|]; [destruct (is_p0 p)|]; done.
Qed.

(** *** All steps *)

Lemma depth_ok D t qd bytes tuned tuned_bytes caps bg : limits_ok D t bg caps ->
  limits_ok D (t <| p0_qd := Z.min (or_else qd tuned) (max_queue_depth caps) |>
                 <| p0_inflight_bytes := or_else bytes tuned_bytes |>) bg caps.
Proof. intros []. split; try done. unfold depth_cap in *. cbn. lia. Qed.

Lemma io_step_ok B D now op e : engine_ok B D e -> B < 2 ^ 62 -> op_ok op -> engine_ok (B + 1) D (io_step now op e).
Proof.
  intros He HB Hop. assert (Hm : engine_ok (B + 1) D e) by (apply (engine_ok_mono B); [lia|done]).
  unfold io_step. destruct (dispatched op && negb (is_nil (e_in_cb e))) eqn:Hd; [done|].
  assert (Hcb : dispatched op = true -> e_in_cb e = None).
  { intros E. rewrite E in Hd. by destruct (e_in_cb e). }
  destruct op; try done.
  - by apply submit_ok.
  - by apply cancel_ok.
  - by apply cancel_notify_ok.
  - by apply issue_one_ok; [| |apply Hcb].
  - unfold do_submit. destruct (e_submit_q e); [done|]. by destruct answer.
  - unfold unwind_failed. destruct (e_failed_q e) as [|c rest]; [done|]. apply handle_completion_ok; [done|by apply Hcb].
  - by apply handle_completion_ok; [|apply Hcb].
  - by apply callback_return_ok.
  - unfold tick_keepalive. repeat (destruct (negb _); [done|]). destruct (_ || _); [done|].
    destruct (negb _); [done|]. destruct (keepalive_poke _ _) as [[? ?] ?]. by destruct answer.
  - unfold engram_wait. by destruct (e_wait_priority e).
  - destruct Hm as [Hc Ht]. split; [done|]. by apply depth_ok.
  - unfold io_stop. by destruct (e_running e).
Qed.
