(* ===== verification/IoEngineProps.v ===== *)
(** Properties of the I/O engine: its accounts are exact, no accepted request is lost, its
    depth limits hold, a mirror's failure is retried on the primary, and the issue loop
    ends; and the ways a source's charge is lost. *)

From S2P Require Import Prelude Types Floats ShardSet ExpertStore Router Planner IoTuning IoEngine IoEngineInv.

(** ** Runs *)

(** The deepest any class may run, or be told to run by [set_p0_depth]. *)
Definition max_depth (l : Limits) (caps : BackendCaps) : Z := Z.max (depth_cap (l_tune l)) (max_queue_depth caps).

(** The limits a start leaves are usable: chunk sizes and widths as the types have them. *)
Definition usable (l : Limits) (caps : BackendCaps) : Prop :=
  limits_ok (max_depth l caps) (l_tune l) (l_bg_chunk l) caps.

Section Run.
Context (windows : bool) (caps : BackendCaps) (o : IoOverrides) (cfg : IoConfig) (src : Sources).
#[local] Abbreviation limits := (start_limits windows caps o cfg).
Context (Hl : usable limits caps).

Lemma start_ok : engine_ok 1 (max_depth limits caps) (io_start windows caps o cfg src).
Proof.
  split; [|done]. unfold engine_core. cbn.
  assert (Hq : forall pr, queue_of (replicate 4 []) pr = []) by (intros pr; do 4 (destruct pr as [|pr]; [done|]); done).
  split; try done.
  - intros pr id. rewrite Hq. by intros H%elem_of_nil.
  - intros pr. rewrite Hq. constructor.
  - intros id []. done.
  - constructor.
  - intros id H. by apply elem_of_nil in H.
  - destruct Hl. rewrite msum_empty. lia.
  - intros pr Hpr. rewrite msum_empty. by do 4 (destruct pr as [|pr]; [done|]); lia.
Qed.

Lemma run_ok ops e B D : engine_ok B D e -> B + Z.of_nat (length ops) < 2 ^ 62 ->
  Forall (fun x => op_ok x.2) ops -> engine_ok (B + Z.of_nat (length ops)) D (io_run ops e).
Proof.
  revert B e. induction ops as [|[now op] ops IH]; intros B e He HB Ho; [by rewrite Z.add_0_r|].
  apply Forall_cons in Ho as [Ho Hos]. cbn [length] in HB |- *.
  replace (B + Z.of_nat (S (length ops))) with (B + 1 + Z.of_nat (length ops)) by lia.
  apply IH; [|lia|done]. apply io_step_ok; [done|lia|done].
Qed.

(** Everything reached by fewer than 2^61 operations. *)
Definition reached (ops : list (Z * IoOp)) (e : Engine) : Prop :=
  Z.of_nat (length ops) < 2 ^ 61 /\ Forall (fun x => op_ok x.2) ops /\
  e = io_run ops (io_start windows caps o cfg src).

Lemma reached_ok ops e : reached ops e -> engine_ok (2 ^ 61) (max_depth limits caps) e.
Proof.
  intros (Hlen & Ho & ->). eapply engine_ok_mono; [|apply run_ok; [apply start_ok|lia|done]]. lia.
Qed.
End Run.

(** ** The accounts *)

Lemma msum_size {A} (m : gmap Z A) : msum (fun _ => 1) m = Z.of_nat (size m).
Proof.
  induction m as [|k x m Hk IH] using map_ind; [done|].
  rewrite msum_insert, map_size_insert_None, IH by done. lia.
Qed.

(** The chunks in flight of one request, of one class. *)
Definition chunks_of (e : Engine) (id : Z) : Z := msum (owned_by id) (e_owner e).
Definition chunks_in_class (e : Engine) (pr : nat) : Z := msum (of_class (e_pend e) pr) (e_owner e).

(** C16: the engine's accounts are exact.  In every state its operations reach (submits,
    cancels, issues, refusals, completions true or spurious, source changes, in any order)
    the three in-flight counters equal the number of chunks handed out and not completed,
    their bytes, and their number in each class; no counter has wrapped; and no more chunks
    are in flight than the larger of the depths [start] left and the backend's queue depth.
    That is the backend's queue depth itself when the background depth was not overridden;
    an override is not clamped ([bg_depth_not_clamped]), so with one only the first bound
    holds. *)
Theorem io_accounting windows caps o cfg src ops e :
  usable (start_limits windows caps o cfg) caps -> reached windows caps o cfg src ops e ->
  e_ops e = Z.of_nat (size (e_owner e)) /\
  e_bytes e = msum ic_bytes (e_owner e) /\
  (forall pr, (pr < 4)%nat -> e_class e !! pr = Some (chunks_in_class e pr)) /\
  (forall id p, e_pend e !! id = Some p ->
     Z.of_nat (p_issued p) - Z.of_nat (p_done p) = chunks_of e id) /\
  e_ops e <= max_depth (start_limits windows caps o cfg) caps /\
  (o_bg_qd o = None -> e_ops e <= max_queue_depth caps).
Proof.
  intros Hl Hr. destruct (reached_ok _ _ _ _ _ Hl _ _ Hr) as [[] _]. rewrite msum_size in ok_ops, ok_depth.
  split_and!; try done; [|lia|].
  - intros id p Hp. apply (po_inflight _ _ _ _ _ _ (ok_pend _ _ Hp)).
  - intros Ho. pose proof (start_limits_depth windows caps o cfg Ho). unfold max_depth in ok_depth. lia.
Qed.

(** ** No request is lost *)

Definition called_back (e : Engine) (id : Z) : Prop := id ∈ log_ids (e_log e).

Lemma owned_exists id (owner : gmap Z InflightChunk) : 0 < msum (owned_by id) owner -> exists cid ic, owner !! cid = Some ic /\ ic_owner ic = id.
Proof.
  induction owner as [|k x m Hk IH] using map_ind; [rewrite msum_empty; lia|].
  rewrite msum_insert by done. unfold owned_by at 1. destruct (Z.eqb_spec (ic_owner x) id) as [E|Hne]; intros H.
  - exists k, x. by rewrite lookup_insert_eq.
  - destruct IH as (cid & ic & Hc & E); [lia|]. exists cid, ic. split; [|done]. rewrite lookup_insert_ne; congruence.
Qed.

Section Quiet.
Context (B D : Z) (e : Engine) (He : engine_ok B D e).

(** Where an accepted request is. *)
Lemma request_place id p : e_pend e !! id = Some p ->
  called_back e id \/ id ∈ e_cancelling e \/
  ((p_next p < length (p_chunks p))%nat /\ id ∈ queue_of (e_queues e) (prio p)) \/
  (exists cid ic, e_owner e !! cid = Some ic /\ ic_owner ic = id).
Proof.
  intros Hp. destruct He as [[] _]. destruct (ok_pend id p Hp).
  destruct (decide (id ∈ log_ids (e_log e) ++ e_cancelling e)) as [Hs|Hs].
  { apply elem_of_app in Hs as [?|?]; auto. }
  right. right. destruct (po_live Hs) as [Hq Hi]. destruct (decide (p_next p < length (p_chunks p))%nat); [auto|].
  right. apply owned_exists. rewrite <- po_inflight. specialize (Hi ltac:(lia)). lia.
Qed.

Lemma settled_count : Z.of_nat (length (e_log e)) + Z.of_nat (length (e_cancelling e)) <= Z.of_nat (size (e_pend e)) /\
  (Z.of_nat (length (e_log e)) + Z.of_nat (length (e_cancelling e)) = Z.of_nat (size (e_pend e)) ->
   forall id, is_Some (e_pend e !! id) -> called_back e id \/ id ∈ e_cancelling e).
Proof.
  destruct He as [[] _]. set (ids := log_ids (e_log e) ++ e_cancelling e) in *.
  assert (Hlen : length ids = (length (e_log e) + length (e_cancelling e))%nat)
    by (unfold ids; by rewrite length_app, log_ids_length).
  assert (Hsub : (list_to_set ids : gset Z) ⊆ dom (e_pend e)).
  { intros id Hid%elem_of_list_to_set. apply elem_of_dom. by apply ok_log_ids. }
  pose proof (subseteq_size _ _ Hsub) as Hle. rewrite size_list_to_set, size_dom in Hle by done. split; [lia|].
  intros Heq id Hid. destruct (decide (id ∈ ids)) as [Hin|Hnin].
  { apply elem_of_app in Hin as [?|?]; auto. }
  exfalso. assert (Hsub' : (list_to_set ids : gset Z) ⊂ dom (e_pend e)).
  { split; [done|]. intros H. assert (Hx : id ∈ (list_to_set ids : gset Z)) by (by apply H, elem_of_dom).
    by apply elem_of_list_to_set in Hx. }
  apply subset_size in Hsub'. rewrite size_list_to_set, size_dom in Hsub' by done. lia.
Qed.
(** The count of outstanding requests, callback under way included. *)
Lemma outstanding_zero : Z.of_nat (size (e_pend e)) < 2 ^ 32 - 1 ->
  e_outstanding e = 0 <-> e_in_cb e = None /\ forall id p, e_pend e !! id = Some p -> called_back e id \/ id ∈ e_cancelling e.
Proof.
  intros Hs. destruct settled_count as [Hle Hall]. pose proof He as [[] _].
  rewrite ok_outst, u32_small by (destruct (e_in_cb e); lia). split.
  - intros Ho. split; [destruct (e_in_cb e); [lia|done]|]. intros id p Hp. apply Hall; [destruct (e_in_cb e); lia|by eexists].
  - intros [-> Hin]. set (ids := log_ids (e_log e) ++ e_cancelling e) in *.
    assert (Hlen : length ids = (length (e_log e) + length (e_cancelling e))%nat)
      by (unfold ids; by rewrite length_app, log_ids_length).
    assert (Hsub : dom (e_pend e) ⊆ (list_to_set ids : gset Z)).
    { intros id [p Hp]%elem_of_dom. apply elem_of_list_to_set, elem_of_app. by apply (Hin id p). }
    apply subseteq_size in Hsub. rewrite size_list_to_set, size_dom in Hsub by done. lia.
Qed.
End Quiet.

(** *** Only [stop] ends the running *)

Lemma submit_running now q e : e_running (submit now q e).2 = e_running e.
Proof. unfold submit, enqueue. by repeat case_match. Qed.
Lemma issue_running now e : e_running (issue_one now e).2 = e_running e.
Proof. unfold issue_one. by repeat case_match. Qed.
Lemma finish_running now p e : e_running (finish now p e) = e_running e.
Proof. unfold finish. by repeat case_match. Qed.
Lemma completion_running now c e : e_running (handle_completion now c e) = e_running e.
Proof.
  unfold handle_completion. destruct (finish_keepalive now c e) as [e'|] eqn:E.
  - unfold finish_keepalive in E. repeat case_match; by simplify_eq.
  - repeat case_match; by rewrite ?finish_running.
Qed.

Lemma io_step_running now op e : op <> OpStop -> e_running (io_step now op e) = e_running e.
Proof.
  intros Hop. unfold io_step. case_match; [done|]. destruct op; try done.
  - apply submit_running.
  - unfold cancel. by repeat case_match.
  - unfold cancel_notify. by repeat case_match.
  - apply issue_running.
  - unfold do_submit. by repeat case_match.
  - unfold unwind_failed. repeat case_match; by rewrite ?completion_running.
  - apply completion_running.
  - unfold callback_return. by repeat case_match.
  - unfold tick_keepalive. by repeat case_match.
  - unfold engram_wait. by repeat case_match.
Qed.

Lemma io_run_running ops e : Forall (fun x => x.2 <> OpStop) ops -> e_running (io_run ops e) = e_running e.
Proof.
  intros Ho. revert e. induction Ho as [|[now op] ops Hop Ho IH]; intros e; [done|].
  exact (eq_trans (IH (io_step now op e)) (io_step_running now op e Hop)).
Qed.

(** Every request accepted so far has been called back or taken by [cancel]. *)
Definition all_answered (e : Engine) : Prop :=
  forall id p, e_pend e !! id = Some p -> called_back e id \/ id ∈ e_cancelling e.

(** C15: no accepted request is lost and none is answered twice.  In every reachable state a
    request [submit] accepted either has had its callback called, exactly once, or is being
    cancelled, or waits in the queue of its class with chunks still to issue, or has a chunk
    in flight.  And while fewer than 2^32 requests exist, the condition [drain] waits for
    holds exactly when the engine was stopped, or when no callback is under way and every
    request has been called back or taken by [cancel]; so [drain] on an engine nobody has
    stopped returns then and not before.  The dispatcher of a stopped engine leaves its loop
    only when every request is answered. *)
Theorem no_request_lost windows caps o cfg src ops e :
  usable (start_limits windows caps o cfg) caps -> reached windows caps o cfg src ops e ->
  NoDup (log_ids (e_log e)) /\
  (forall id p, e_pend e !! id = Some p ->
     called_back e id \/ id ∈ e_cancelling e \/
     ((p_next p < length (p_chunks p))%nat /\ id ∈ queue_of (e_queues e) (prio p)) \/
     (exists cid ic, e_owner e !! cid = Some ic /\ ic_owner ic = id)) /\
  (Forall (fun x => x.2 <> OpStop) ops -> e_running e = true) /\
  (Z.of_nat (size (e_pend e)) < 2 ^ 32 - 1 ->
     (drained e = true <-> e_running e = false \/ (e_in_cb e = None /\ all_answered e)) /\
     (dispatcher_exits e = true -> all_answered e)).
Proof.
  intros Hl Hr. pose proof (reached_ok _ _ _ _ _ Hl _ _ Hr) as He. split_and!.
  - destruct He as [[] _]. by apply NoDup_app in ok_log as (H & _ & _).
  - intros id p Hp. by apply (request_place _ _ e He).
  - destruct Hr as (_ & _ & ->). intros Ho. by rewrite io_run_running.
  - intros Hs. pose proof (outstanding_zero _ _ e He Hs) as Hz. unfold drained, dispatcher_exits. split.
    + rewrite orb_true_iff, Z.eqb_eq, negb_true_iff, Hz. unfold all_answered. tauto.
    + intros [[_ Ho%Z.eqb_eq]%andb_true_iff _]%andb_true_iff. exact (proj2 (proj1 Hz Ho)).
Qed.

(** *** A concrete run *)

Definition io_caps : BackendCaps := mkCaps 4096 64 33554432.
Definition io_file : File := mkFile 3 "/m/a" 9412608 512 true true.
Definition io_mirror : File := mkFile 5 "/e/a" 9412608 512 true true.
Definition io_request (prio : IoPriority) (bytes dst : Z) : IoRequest :=
  mkIoRequest (mkKey 1 2) prio io_file 8192 bytes dst 0 0.
Definition io_example (src : Sources) : Engine := io_start false io_caps overrides_default IoConfig_default src.

Lemma io_example_usable : usable (start_limits false io_caps overrides_default IoConfig_default) io_caps.
Proof. split; try (vm_compute; split; congruence); try (vm_compute; congruence). exact page_alignment_ok. Qed.

(** A P0 read of three chunks; a backfill that waits behind it. *)
Definition io_example_ops : list (Z * IoOp) :=
  [(5, OpSubmit (io_request BlockingMiss 9404416 4096)); (6, OpSubmit (io_request Types.Backfill 4096 8192));
   (7, OpIssue); (7, OpIssue); (7, OpIssue); (8, OpIssue); (9, OpHand (Ret tt)); (10, OpComplete (mkCompletion 2 4194304 ErrOk))].

Lemma io_example_reached src :
  reached false io_caps overrides_default IoConfig_default src io_example_ops (io_run io_example_ops (io_example src)).
Proof. split; [vm_compute; done|]. split; [|done]. repeat constructor; vm_compute; congruence. Qed.

Lemma io_accounting_witness :
  let e := io_run io_example_ops (io_example Sources_default) in
  e_ops e = 3 /\ e_bytes e = 5214208 /\ e_ops e <= 64.
Proof.
  pose proof (io_accounting _ _ _ _ _ _ _ io_example_usable (io_example_reached Sources_default)) as (H1 & H2 & _ & _ & _ & H3).
  split; [rewrite H1; vm_compute; reflexivity|]. split; [rewrite H2; vm_compute; reflexivity|]. by apply H3.
Defined.

(** After the other chunks land, and the backfill's, both requests have been called back. *)
Definition io_example_end : list (Z * IoOp) :=
  io_example_ops ++
  [(11, OpComplete (mkCompletion 1 4194304 ErrOk)); (12, OpComplete (mkCompletion 3 1015808 ErrOk)); (12, OpReturn);
   (13, OpComplete (mkCompletion 4 4096 ErrOk)); (13, OpReturn)].

Lemma no_request_lost_witness :
  let e := io_run io_example_end (io_example Sources_default) in
  drained e = true /\ e_running e = true /\ called_back e 1 /\ ir_status <$> e_log e = [ErrOk; ErrOk].
Proof.
  assert (Hr : reached false io_caps overrides_default IoConfig_default Sources_default io_example_end
    (io_run io_example_end (io_example Sources_default)))
    by (split; [vm_compute; done|split; [|done]; repeat constructor; vm_compute; congruence]).
  pose proof (no_request_lost _ _ _ _ _ _ _ io_example_usable Hr) as (_ & _ & Hrun & H).
  specialize (Hrun ltac:(repeat constructor; discriminate)).
  destruct (H ltac:(vm_compute; reflexivity)) as [Hd _].
  assert (Hdr : drained (io_run io_example_end (io_example Sources_default)) = true) by (vm_compute; reflexivity).
  split; [exact Hdr|]. split; [exact Hrun|]. split; [|vm_compute; reflexivity].
  destruct (e_pend (io_run io_example_end (io_example Sources_default)) !! 1) as [p|] eqn:E; [|vm_compute in E; discriminate E].
  destruct (proj1 Hd Hdr) as [Hno|[_ Hall]]; [by rewrite Hrun in Hno|].
  destruct (Hall 1 p E) as [Hc|Hc]; [exact Hc|].
  exfalso. revert Hc. vm_compute. intros Hc. inversion Hc.
Defined.

(** ** Failover *)

(** C17: a mirror's failure never reaches the caller.  When a request that was routed to a
    mirror (or striped with a share failing on one) ends in an error or short, [finish] calls
    nothing back: the request goes to the front of its class's queue, to be read again from
    its first chunk, whole, on the primary, with nothing charged to a source any more; and
    since it has no mirror left, what that second read ends in is what the caller is told. *)
Theorem mirror_failover now p e f : length (e_queues e) = 4%nat ->
  p_primary p = Some f -> ir_ok (result_of p) = false ->
  (striped p = true -> on_mirror (p_src_err p) = true) ->
  let e' := finish now p e in
  e_log e' = e_log e /\ e_in_cb e' = e_in_cb e /\ e_outstanding e' = e_outstanding e /\
  queue_front e' (q_priority (p_req p)) = Some (p_id p) /\
  (exists q, e_pend e' !! p_id p = Some q /\ q_file (p_req q) = f /\ p_chunks q = p_chunks p /\
     p_required q = p_required p /\ (p_next q, p_issued q, p_done q, p_moved q) = (0%nat, 0%nat, 0%nat, 0) /\
     p_primary q = None /\ p_routed q = false /\ striped q = false /\ p_src_used q = 0 /\ p_status q = ErrOk) /\
  (forall q e2 now', p_primary q = None ->
     e_log (finish now' q e2) = e_log e2 ++ [result_of q]).
Proof.
  intros Hq Hf Hres Hst e'.
  set (p' := p <| p_src_charged := if p_routed p then p_src_charged p else zero4 |>).
  assert (Hret : retries p' = true).
  { unfold retries. change (p_primary p') with (p_primary p). rewrite Hf. cbn [is_nil negb andb].
    change (ir_ok (result_of p')) with (ir_ok (result_of p)). rewrite Hres. cbn [negb andb].
    change (striped p') with (striped p). change (p_src_err p') with (p_src_err p).
    destruct (striped p); [by rewrite Hst|done]. }
  unfold e'. pose proof (finish_cases now p e eq_refl) as Hc. cbv zeta in Hc. fold p' in Hc.
  destruct Hc as [(Hno & _)|(g & src & _ & Hg & ->)]; [congruence|].
  assert (g = f) as -> by (change (p_primary p') with (p_primary p) in Hg; congruence).
  split_and!; try done.
  - unfold queue_front. cbn. change (prio_index (q_priority (p_req p))) with (prio p).
    unfold push_front. rewrite list_lookup_alter_eq.
    assert (Hl : is_Some (alter (fun q => filter (fun i => i <> p_id p) q) (prio p) (e_queues e) !! prio p))
      by (apply lookup_lt_is_Some_2; rewrite length_alter, Hq; apply prio_lt).
    destruct Hl as [q ->]. done.
  - exists (reset_pending f p'). cbn. rewrite lookup_insert_eq. done.
  - intros q e2 now' Hn. destruct (finish_cases now' q e2 eq_refl) as [(_ & ->)|(g & s & _ & Hg' & _)]; [done|].
    cbn in Hg'. congruence.
Qed.

(** A mirrored engine: the mirror fails the second chunk of a striped P0 read, the primary
    reads it all again. *)
Definition io_sources : Sources :=
  (add_mirror io_file 1 io_mirror
     (set_sources 1 (fun _ => None) overrides_default ["/m"; "/e"] [f64_of_Z 4; f64_one] Sources_default)).2.

Definition failing_pending : Pending :=
  mkPending 1 (with_file io_mirror (io_request Types.Backfill 4096 4096)) [mkChunk 8192 4096] 4096 1 1 1 0 true 0 0 1 true
    (Some io_file) [] no_files zero4 zero4 0 0 Io true.

Lemma mirror_failover_witness :
  let e' := finish 9 failing_pending (io_example io_sources) in
  e_log e' = [] /\ queue_front e' Types.Backfill = Some 1.
Proof.
  destruct (mirror_failover 9 failing_pending (io_example io_sources) io_file eq_refl eq_refl
    ltac:(vm_compute; reflexivity) ltac:(vm_compute; congruence)) as (H1 & _ & _ & H2 & _).
  split; [exact H1|exact H2].
Defined.

(** The same through the operations: a striped read, a failed chunk on the mirror, a retry,
    one successful answer. *)
Definition striped_ops : list (Z * IoOp) :=
  [(20, OpSubmit (io_request BlockingMiss 9404416 4096)); (21, OpIssue); (21, OpIssue); (21, OpIssue);
   (22, OpComplete (mkCompletion 1 4194304 ErrOk)); (23, OpComplete (mkCompletion 2 4194304 ErrOk));
   (24, OpComplete (mkCompletion 3 0 Io)); (25, OpIssue); (25, OpIssue); (25, OpIssue);
   (26, OpComplete (mkCompletion 4 4194304 ErrOk)); (26, OpComplete (mkCompletion 5 4194304 ErrOk));
   (26, OpComplete (mkCompletion 6 1015808 ErrOk)); (27, OpReturn)].

Lemma striped_retry_answers :
  let e := io_run striped_ops (io_example io_sources) in
  p_chunk_src <$> (e_pend (io_run (take 1 striped_ops) (io_example io_sources)) !! 1) = Some [0; 0; 1] /\
  ir_status <$> e_log e = [ErrOk] /\ ir_bytes_moved <$> e_log e = [9404416] /\
  e_outstanding e = 0 /\ src_outstanding (e_src e) = zero4 /\ src_inflight (e_src e) = zero4 /\
  so_failovers <$> src_stats (e_src e) = [0; 1; 0; 0].
Proof. vm_compute. done. Qed.

(** ** The issue loop ends *)

Lemma drop_front_idem pend q : drop_front pend (drop_front pend q) = drop_front pend q.
Proof.
  induction q as [|id q IH]; cbn; [done|]. destruct (pend !! id) as [p|] eqn:Hp.
  - destruct (fully_issued p) eqn:Hf; [done|]. cbn. by rewrite Hp, Hf.
  - cbn. by rewrite Hp.
Qed.

Lemma drop_issued_idem e : drop_issued (drop_issued e) = drop_issued e.
Proof.
  assert (H : drop_issued (drop_issued e) =
    e <| e_queues := fmap (M := list) (drop_front (e_pend e)) (fmap (M := list) (drop_front (e_pend e)) (e_queues e)) |>)
    by done.
  rewrite H, <- list_fmap_compose. assert (E : (drop_front (e_pend e) ∘ drop_front (e_pend e)) <$> e_queues e =
    drop_front (e_pend e) <$> e_queues e) by (apply list_fmap_ext; intros; apply drop_front_idem).
  by rewrite E.
Qed.

Definition remaining (e : Engine) : Z := msum (fun p => Z.of_nat (unissued p)) (e_pend e).

Lemma remaining_nonneg e : 0 <= remaining e.
Proof. apply msum_nonneg. lia. Qed.

Lemma issue_one_cases now e :
  (issue_one now e = (false, drop_issued e) /\
     forall id rescued p, next_request (drop_issued e) = Some (id, rescued) -> e_pend e !! id = Some p ->
       may_issue now (drop_issued e) (q_priority (p_req p)) rescued = false) \/
  (exists e', issue_one now e = (true, e') /\ remaining e = remaining e' + 1).
Proof.
  unfold issue_one. destruct (next_request (drop_issued e)) as [[id rescued]|] eqn:Hn; [|by left].
  unfold the_pending. change (e_pend (drop_issued e)) with (e_pend e).
  destruct (e_pend e !! id) as [p|] eqn:Hp; [|left; split; [done|intros ??? [= <- <-]; congruence]].
  destruct (may_issue _ _ _ _) eqn:Hm; [right|left; split; [done|intros ??? [= <- <-]; congruence]].
  eexists. split; [done|]. destruct (next_request_front _ _ _ Hn) as (pr & Hf & _).
  pose proof (front_ready e pr id p Hf Hp) as Hr. unfold fully_issued in Hr. apply Nat.leb_gt in Hr.
  unfold remaining, issue_chunk. cbn. change (e_pend (drop_issued e)) with (e_pend e).
  set (p' := if p_issued_once p then _ else _).
  assert (Hu : Z.of_nat (unissued p) = Z.of_nat (unissued p') + 1).
  { unfold unissued. assert (p_chunks p' = p_chunks p /\ p_next p' = S (p_next p)) as [-> ->] by (unfold p'; by case_match). lia. }
  rewrite (msum_delete _ (e_pend e) id p) by done.
  rewrite (msum_delete _ (<[id := p']> (e_pend e)) id p') by (by rewrite lookup_insert_eq).
  rewrite delete_insert_eq. lia.
Qed.

Lemma issue_loop_ends fuel now e : remaining e < Z.of_nat fuel ->
  let '(n, e') := issue_loop fuel now e in
  remaining e = remaining e' + Z.of_nat n /\ (issue_one now e').1 = false /\ drop_issued e' = e'.
Proof.
  revert e. induction fuel as [|fuel IH]; intros e Hf; [pose proof (remaining_nonneg e); lia|].
  cbn [issue_loop]. destruct (issue_one_cases now e) as [[-> Hstop]|(e1 & -> & Hr)].
  - split; [cbn; unfold remaining; cbn; lia|]. split; [|apply drop_issued_idem].
    destruct (issue_one_cases now (drop_issued e)) as [[-> _]|(e2 & H2 & _)]; [done|].
    exfalso. unfold issue_one in H2. rewrite drop_issued_idem in H2.
    destruct (next_request _) as [[id rescued]|] eqn:Hn; [|done]. unfold the_pending in H2.
    destruct (e_pend (drop_issued e) !! id) as [p|] eqn:Hp; [|done].
    by rewrite (Hstop id rescued p eq_refl Hp) in H2.
  - specialize (IH e1 ltac:(lia)). destruct (issue_loop fuel now e1) as [n e']. destruct IH as (H1 & H2 & H3).
    split_and!; [lia|done|done].
Qed.

(** [issue_ready_chunks] ends.  From any state, with as many turns as there are chunks not
    yet issued (one more to see there is nothing left), it hands over some number of chunks,
    each once, and stops where either no request waits or the next one is held back by its
    class's depth or byte limit or the background throttle. *)
Theorem issue_ready_ends now e :
  let '(n, e') := issue_ready_chunks now e in
  remaining e = remaining e' + Z.of_nat n /\ (issue_one now e').1 = false /\
  (forall id rescued p, next_request e' = Some (id, rescued) -> e_pend e' !! id = Some p ->
     may_issue now e' (q_priority (p_req p)) rescued = false).
Proof.
  unfold issue_ready_chunks. pose proof (issue_loop_ends (S (total_unissued (e_pend e))) now e) as H.
  unfold total_unissued in *. fold (remaining e) in *. pose proof (remaining_nonneg e). specialize (H ltac:(lia)).
  destruct (issue_loop _ _ _) as [n e']. destruct H as (Hr & Hs & Hd). split_and!; [done|done|].
  destruct (issue_one_cases now e') as [[_ H']|(e2 & H2 & _)]; [|by rewrite H2 in Hs].
  rewrite Hd in H'. exact H'.
Qed.

(** ** Where a source's charge is lost *)

(** Two backfills, the second routed to the mirror and cancelled while queued; the first is
    read and answered; then the mirror is dropped. *)
Definition cancel_ops : list (Z * IoOp) :=
  [(20, OpSubmit (io_request Types.Backfill 9404416 4096)); (21, OpSubmit (io_request Types.Backfill 4096 8192));
   (22, OpCancel 2); (23, OpCancelNotify 2); (24, OpIssue); (25, OpComplete (mkCompletion 1 4194304 ErrOk));
   (26, OpIssue); (26, OpComplete (mkCompletion 2 4194304 ErrOk)); (27, OpIssue);
   (28, OpComplete (mkCompletion 3 1015808 ErrOk)); (29, OpReturn); (30, OpDrop 1)].

(** Two ways a routed request's charge is never given back, so its source looks busy for
    good.  [cancel] returns the charge of a striped request only: after cancelling a request
    routed whole to a mirror, with every request answered and nothing in flight, the mirror
    still counts its bytes and one read, and [readmit_source] refuses it for ever.  And a
    request refused for a null destination (or zero length) was charged before the check
    whose guard would return it. *)
Theorem source_charges_leak :
  let e := io_run cancel_ops (io_example io_sources) in
  (e_outstanding e = 0 /\ e_owner e = ∅ /\ ir_status <$> e_log e = [Cancelled; ErrOk] /\
   src_outstanding (e_src e) = [0; 4096; 0; 0] /\ src_inflight (e_src e) = [0; 1; 0; 0] /\
   (readmit_source (fun _ _ => Ret tt) 1 (e_src e)).1 = Fail FailedPrecondition) /\
  (let '(r, e') := submit 20 (io_request Types.Backfill 4096 0) (io_example io_sources) in
   r = Fail InvalidArgument /\ e_pend e' = ∅ /\
   src_outstanding (e_src e') = [4096; 0; 0; 0] /\ src_inflight (e_src e') = [1; 0; 0; 0]).
Proof. vm_compute. done. Qed.

(** [cancel] stops counting a request before its callback is called, so [drain] may return
    first; and it leaves [p0_outstanding_] counting a cancelled P0 read. *)
Lemma cancel_drains_early :
  let e := io_run [(20, OpSubmit (io_request BlockingMiss 4096 4096)); (22, OpCancel 1)] (io_example Sources_default) in
  drained e = true /\ e_log e = [] /\ e_cancelling e = [1] /\ e_p0_outstanding e = 1.
Proof. vm_compute. done. Qed.

(** ** The dispatcher's turns are runs *)

(** [e'] is reached from [e] by operations, and no callback is left running. *)
Definition steps_to (e e' : Engine) : Prop :=
  (exists ops, Forall (fun x => op_ok x.2) ops /\ e' = io_run ops e) /\ e_in_cb e' = None.

Lemma steps_refl e : e_in_cb e = None -> steps_to e e.
Proof. split; [by exists []|done]. Qed.

Lemma steps_trans e1 e2 e3 : steps_to e1 e2 -> steps_to e2 e3 -> steps_to e1 e3.
Proof.
  intros [(l1 & H1 & ->) _] [(l2 & H2 & ->) H3]. split; [|done]. exists (l1 ++ l2).
  split; [by apply Forall_app|]. unfold io_run. by rewrite foldl_app.
Qed.

Lemma steps_one now op e : op_ok op -> e_in_cb e = None -> e_in_cb (io_step now op e) = None ->
  steps_to e (io_step now op e).
Proof. intros Ho _ Hc. split; [|done]. exists [(now, op)]. by repeat constructor. Qed.

Lemma steps_fold {A} (f : Engine -> A -> Engine) l e : e_in_cb e = None ->
  (forall e a, e_in_cb e = None -> steps_to e (f e a)) -> steps_to e (foldl f e l).
Proof.
  intros He Hf. revert e He. induction l as [|a l IH]; intros e He; [by apply steps_refl|].
  cbn. pose proof (Hf e a He) as H1. eapply steps_trans; [done|]. by apply IH; destruct H1.
Qed.

Lemma step_undispatched now op e : e_in_cb e = None -> io_step now op e =
  match op with
  | OpIssue => (issue_one now e).2 | OpHand a => do_submit a e | OpUnwind => unwind_failed now e
  | OpComplete c => handle_completion now c e | OpTick s a => tick_keepalive now s a e
  | OpReturn => callback_return e | _ => io_step now op e
  end.
Proof. intros He. unfold io_step. rewrite He, andb_false_r. by destruct op. Qed.

Lemma callback_return_none e : e_in_cb (callback_return e) = None.
Proof. unfold callback_return, the_pending. destruct (e_in_cb e) eqn:H; [|done]. by repeat case_match. Qed.

(** A completion, then the callback it may start. *)
Lemma steps_call now op e : dispatched op = true -> op_ok op -> e_in_cb e = None ->
  steps_to e (callback_return (io_step now op e)).
Proof.
  intros Hd Ho He. split; [|apply callback_return_none]. exists [(now, op); (now, OpReturn)].
  split; [by repeat constructor|]. cbn. f_equal.
Qed.

Lemma issue_one_cb now e : e_in_cb (issue_one now e).2 = e_in_cb e.
Proof. unfold issue_one. by repeat case_match. Qed.

Lemma steps_issue fuel now e : e_in_cb e = None -> steps_to e (issue_loop fuel now e).2.
Proof.
  revert e. induction fuel as [|fuel IH]; intros e He; [by apply steps_refl|]. cbn [issue_loop].
  assert (H1 : steps_to e (issue_one now e).2).
  { rewrite <- (step_undispatched now OpIssue e He). apply steps_one; [done|done|].
    rewrite step_undispatched by done. by rewrite issue_one_cb. }
  destruct (issue_one now e) as [[] e1]; [|done]. specialize (IH e1 ltac:(by destruct H1)).
  destruct (issue_loop fuel now e1). eapply steps_trans; done.
Qed.

Lemma steps_unwind fuel now e : e_in_cb e = None -> steps_to e (unwind_all fuel now e).
Proof.
  revert e. induction fuel as [|fuel IH]; intros e He; [by apply steps_refl|]. cbn [unwind_all].
  eapply steps_trans; [|apply IH, callback_return_none].
  rewrite <- (step_undispatched now OpUnwind e He). by apply steps_call.
Qed.

(** Every turn of the dispatcher is a run of the operations above. *)
Lemma dispatcher_turn_run now answers pokes comps e : e_in_cb e = None ->
  steps_to e (dispatcher_turn now answers pokes comps e).
Proof.
  intros He. unfold dispatcher_turn, issue_ready_chunks. cbv zeta.
  pose proof (steps_issue (S (total_unissued (e_pend e))) now e He) as H1. set (e1 := (issue_loop _ _ _).2) in *.
  pose proof (steps_fold (fun e a => do_submit a e) answers e1 ltac:(by destruct H1)) as H2.
  set (e2 := foldl _ e1 answers) in *.
  assert (Ha : steps_to e1 e2).
  { apply H2. intros x a Hx. rewrite <- (step_undispatched now (OpHand a) x Hx). apply steps_one; [done|done|].
    rewrite step_undispatched by done. unfold do_submit. destruct (e_submit_q x); [done|]. by destruct a. }
  pose proof (steps_unwind (length (e_failed_q e2)) now e2 ltac:(by destruct Ha)) as H3. set (e3 := unwind_all _ _ e2) in *.
  pose proof (steps_fold (fun e s => tick_keepalive now s (pokes s) e) [1; 2; 3] e3 ltac:(by destruct H3)) as H4.
  set (e4 := foldl _ e3 _) in *.
  assert (Hb : steps_to e3 e4).
  { apply H4. intros x s Hx. rewrite <- (step_undispatched now (OpTick s (pokes s)) x Hx). apply steps_one; [done|done|].
    rewrite step_undispatched by done. unfold tick_keepalive.
    repeat (destruct (negb _); [done|]). destruct (_ || _); [done|]. destruct (negb _); [done|].
    destruct (keepalive_poke _ _) as [[? ?] ?]. by destruct (pokes s). }
  assert (Hc : steps_to e e4) by (eapply steps_trans; [done|]; eapply steps_trans; [done|]; by eapply steps_trans).
  destruct (_ || _); [|done]. eapply steps_trans; [done|]. apply steps_fold; [by destruct Hc|].
  intros x c Hx. unfold complete_and_call. rewrite <- (step_undispatched now (OpComplete c) x Hx). by apply steps_call.
Qed.
