(* ===== verification/Dequant.v ===== *)
(** The reference decoders of the stored weight formats and the activation quantiser
    ([cpu/dequant.h], [cpu/dequant.cpp]): FP4 E2M1, FP8 E4M3, E8M0, bf16 and fp16
    elements, and the row and matrix decoders built on them. *)

From S2P Require Import Prelude Floats.

(** ** Elements *)

Definition fp4_mag : list float :=
  [f32_zero; f32_lit 1 (-1); f32_lit 1 0; f32_lit 3 (-1); f32_lit 2 0; f32_lit 3 0; f32_lit 4 0; f32_lit 6 0].

Definition fp4_e2m1_to_float (nibble : Z) : float :=
  let v := nth (Z.to_nat (Z.land nibble 7)) fp4_mag f32_zero in
  if Z.land nibble 8 =? 0 then v else f_neg v.

Definition fp8_e4m3_to_float (b : Z) : float :=
  let sign := Z.land b 0x80 in
  let e := Z.land (Z.shiftr b 3) 0x0F in
  let m := Z.land b 7 in
  let signed v := if sign =? 0 then v else f_neg v in
  if e =? 0 then signed (f32_mul (f32_of_Z m) (f32_lit 1 (-9)))
  else if (e =? 0x0F) && (m =? 7) then S754_nan
  else
    let mant := f32_add f32_one (f32_mul (f32_of_Z m) (f32_lit 1 (-3))) in
    let exp := e - 7 in
    signed (if 0 <=? exp then f32_mul mant (f32_of_Z (u32 (Z.shiftl 1 exp)))
            else f32_div mant (f32_of_Z (u32 (Z.shiftl 1 (- exp))))).

Definition build_table (N : nat) (f : Z -> float) : list float := map (fun i => f (u8 (Z.of_nat i))) (seq 0 N).
Definition kFp4E2M1Table : list float := build_table 16 fp4_e2m1_to_float.
Definition kFp8E4M3Table : list float := build_table 256 fp8_e4m3_to_float.

Definition e8m0_is_nan (e : Z) : bool := e =? 0xFF.
Definition e8m0_to_float (e : Z) : float := if e =? 0xFF then S754_nan else f32_ldexp f32_one (e - 127).
Definition e8m0_scale (v : float) (e : Z) : float := if e =? 0xFF then S754_nan else f32_ldexp v (e - 127).
Definition e8m0_encode (pow2 : float) : Z := u8 (Z.land (Z.shiftr (bits_of_f32 pow2) 23) 0xFF).

(** [amax < 1e-4f ? 1e-4f : amax], times [1 / 448], rounded up to a power of two. *)
Definition f32_1e_4 : float := f32_of_bits 0x38D1B717.
Definition kFp8E4M3Max : float := f32_of_Z 448.
Definition fp8_round_scale (amax : float) : float :=
  let v := f32_mul (if f_ltb amax f32_1e_4 then f32_1e_4 else amax) (f32_div f32_one kFp8E4M3Max) in
  let b := bits_of_f32 v in
  let e := Z.land (Z.shiftr b 23) 0xFF - 127 + (if Z.land b 0x7FFFFF =? 0 then 0 else 1) in
  f32_ldexp f32_one e.

(** Round to nearest even onto the E4M3 grid: the subnormal grid below [2^-6], the top
    three mantissa bits above it. *)
Definition fp8_encode_sub (a : float) : Z :=
  let t := f32_mul a (f32_of_Z 512) in
  let f := f32_floor t in
  let d := f32_sub t f in
  let up := f32_add f f32_one in
  let n := if f_gtb d (f32_lit 1 (-1)) then up
           else if f_ltb d (f32_lit 1 (-1)) then f
           else if f_eqb (f32_fmod f (f32_of_Z 2)) f32_zero then f else up in
  u32 (f_trunc n).

(** The clamps at 448 and at exponent 0, and the assembled magnitude. *)
Definition fp8_pack (e keep : Z) : Z :=
  let ee := e - 127 + 7 in
  let '(ee, keep) := if (15 <? ee) || ((ee =? 15) && (keep =? 7)) then (15, 6) else (ee, keep) in
  let '(ee, keep) := if ee <? 0 then (0, 0) else (ee, keep) in
  Z.lor (Z.shiftl ee 3) keep.

Definition fp8_encode_norm (a : float) : Z :=
  let b := bits_of_f32 a in
  let e := Z.land (Z.shiftr b 23) 0xFF in
  let keep := Z.shiftr (Z.land b 0x7FFFFF) 20 in
  let rem := Z.land b 0xFFFFF in
  if (0x80000 <? rem) || ((rem =? 0x80000) && negb (Z.land keep 1 =? 0)) then
    if keep + 1 =? 8 then fp8_pack (e + 1) 0 else fp8_pack e (keep + 1)
  else fp8_pack e keep.

Definition fp8_encode_rn (v : float) : Z :=
  let sign := Z.land (Z.shiftr (bits_of_f32 v) 24) 0x80 in
  let a := f_abs v in
  let mag := if f_ltb a (f32_lit 1 (-6)) then fp8_encode_sub a else fp8_encode_norm a in
  u8 (Z.lor sign mag).

(** The half formats convert bit patterns: [memcpy] moves them in and out of a [float]. *)
Definition bf16_to_float_bits (h : Z) : Z := u32 (Z.shiftl h 16).
Definition bf16_to_float (h : Z) : float := f32_of_bits (bf16_to_float_bits h).

Definition float_to_bf16_bits (x : Z) : Z :=
  if (Z.land (Z.shiftr x 23) 0xFF =? 0xFF) && negb (Z.land x 0x7FFFFF =? 0)
  then u16 (Z.lor (Z.shiftr x 16) 0x40)
  else
    let bias := Z.land (Z.shiftr x 16) 1 + 0x7FFF in
    u16 (Z.shiftr (u32 (x + bias)) 16).
Definition float_to_bf16 (f : float) : Z := float_to_bf16_bits (bits_of_f32 f).

Definition fp16_to_float (h : Z) : float :=
  let sign := if Z.land h 0x8000 =? 0 then 0 else 0x80000000 in
  let e := Z.land (Z.shiftr h 10) 0x1F in
  let m := Z.land h 0x3FF in
  if e =? 0 then
    if m =? 0 then f32_of_bits sign
    else
      let v := f32_mul (f32_of_Z m) (f32_lit 1 (-24)) in
      if sign =? 0 then v else f_neg v
  else if e =? 0x1F then f32_of_bits (Z.lor (Z.lor sign 0x7F800000) (Z.shiftl m 13))
  else f32_of_bits (Z.lor (Z.lor sign (Z.shiftl (e + 112) 23)) (Z.shiftl m 13)).

Definition float_to_fp16 (f : float) : Z :=
  let x := bits_of_f32 f in
  let sign := Z.land (Z.shiftr x 16) 0x8000 in
  let be := Z.land (Z.shiftr x 23) 0xFF in
  let man := Z.land x 0x7FFFFF in
  if be =? 0xFF then Z.lor sign (if man =? 0 then 0x7C00 else 0x7E00)
  else
    let exp := be - 127 + 15 in
    if 0x1F <=? exp then Z.lor sign 0x7C00
    else if exp <=? 0 then
      if exp <? -10 then sign
      else
        let man := Z.lor man 0x800000 in
        let shift := 14 - exp in
        let sub := Z.shiftr man shift in
        let rem := Z.land man (u32 (Z.shiftl 1 shift) - 1) in
        let half := Z.shiftl 1 (shift - 1) in
        let sub := if (half <? rem) || ((rem =? half) && negb (Z.land sub 1 =? 0)) then sub + 1 else sub in
        Z.lor sign sub
    else
      let h := Z.lor (Z.shiftl exp 10) (Z.shiftr man 13) in
      let rem := Z.land man 0x1FFF in
      let h := if (0x1000 <? rem) || ((rem =? 0x1000) && negb (Z.land h 1 =? 0)) then h + 1 else h in
      u16 (Z.lor sign h).

(** ** Activation and weight-row quantisation *)

Definition amax_of (l : list float) : float :=
  foldl (fun amax x => let a := f_abs x in if f_gtb a amax then a else amax) f32_zero l.

(** One block: the E4M3 bytes, the round-tripped values and the scale. *)
Definition act_quant_block (v : list float) : list Z * list float * float :=
  let s := fp8_round_scale (amax_of v) in
  let inv := f32_div f32_one s in
  let clamp q := if f_ltb q (f_neg kFp8E4M3Max) then f_neg kFp8E4M3Max
                 else if f_gtb q kFp8E4M3Max then kFp8E4M3Max else q in
  let bytes := map (fun x => fp8_encode_rn (clamp (f32_mul x inv))) v in
  (bytes, map (fun b => f32_mul (fp8_e4m3_to_float b) s) bytes, s).

Definition quantize_bf16_row_fp8 (source : list Z) (destination_size : nat) : Result (list Z * float) :=
  _ ← fail_if (bool_decide (source = []) || negb (length source =? destination_size)%nat) InvalidArgument;
  amax ← foldM (fun amax bits =>
      let value := bf16_to_float bits in
      if f_isfinite value then Ret (f_max amax (f_abs value)) else Fail InvalidArgument) f32_zero source;
  let scale := if f_eqb amax f32_zero then f32_one else f32_div amax kFp8E4M3Max in
  _ ← fail_if (f_eqb scale f32_zero) InvalidArgument;
  Ret (map (fun bits => fp8_encode_rn (f32_div (bf16_to_float bits) scale)) source, scale).

(** ** Rows and matrices

    The decoders write through a caller-owned span: they return their verdict and the
    span's contents, which a [Corrupt] scale leaves partly written. *)

Definition fp4_nibble (packed : list Z) (i : nat) : Z :=
  let b := nth (i / 2) packed 0 in
  if Nat.even i then Z.land b 0x0F else Z.shiftr b 4.

(** [for j < len: out[base + j] = f j] *)
Definition write_span {A} (out : list A) (base len : nat) (f : nat -> A) : list A :=
  foldl (fun out j => <[(base + j)%nat := f j]> out) out (seq 0 len).

Fixpoint dequant_blocks (elem : nat -> Z -> float) (scales : list Z) (blk_len : nat) (blks : list nat)
    (out : list float) : Result unit * list float :=
  match blks with
  | [] => (Ret tt, out)
  | blk :: blks =>
      let e := nth blk scales 0 in
      if e8m0_is_nan e then (Fail Corrupt, out)
      else dequant_blocks elem scales blk_len blks
             (write_span out (blk * blk_len) blk_len (fun j => elem (blk * blk_len + j)%nat (e - 127)))
  end.

Definition dequant_fp4_row (packed scales : list Z) (n : nat) (out : list float) : Result unit * list float :=
  if negb (n mod 32 =? 0)%nat then (Fail InvalidArgument, out)
  else if (length packed <? n / 2)%nat then (Fail InvalidArgument, out)
  else if (length scales <? n / 32)%nat then (Fail InvalidArgument, out)
  else if (length out <? n)%nat then (Fail InvalidArgument, out)
  else dequant_blocks (fun i shift => f32_ldexp (nth (Z.to_nat (fp4_nibble packed i)) kFp4E2M1Table f32_zero) shift)
         scales 32 (seq 0 (n / 32)) out.

Definition dequant_fp8_row (bytes scales : list Z) (n : nat) (out : list float) (scale_block : nat)
    : Result unit * list float :=
  if (scale_block =? 0)%nat || negb (n mod scale_block =? 0)%nat then (Fail InvalidArgument, out)
  else if (length bytes <? n)%nat then (Fail InvalidArgument, out)
  else
    let nblocks := (n / scale_block)%nat in
    if (length scales <? nblocks)%nat then (Fail InvalidArgument, out)
    else if (length out <? n)%nat then (Fail InvalidArgument, out)
    else dequant_blocks (fun i shift => f32_ldexp (nth (Z.to_nat (nth i bytes 0)) kFp8E4M3Table f32_zero) shift)
           scales scale_block (seq 0 nblocks) out.

Definition dequant_bf16_row (src : list Z) (out : list float) : Result unit * list float :=
  if (length out <? length src)%nat then (Fail InvalidArgument, out)
  else (Ret tt, write_span out 0 (length src) (fun i => bf16_to_float (nth i src 0))).

(** A [size_t] product compared with a span's size. *)
Definition too_small {A} (l : list A) (a b : nat) : bool :=
  Z.of_nat (length l) <? u64 (Z.of_nat a * Z.of_nat b).

Definition dequant_fp4_matrix_row (weights scales : list Z) (row rows K : nat) (out : list float)
    : Result unit * list float :=
  if (rows <=? row)%nat then (Fail OutOfRange, out)
  else if negb (K mod 32 =? 0)%nat then (Fail InvalidArgument, out)
  else
    let row_bytes := (K / 2)%nat in
    let row_scales := (K / 32)%nat in
    if too_small weights rows row_bytes then (Fail InvalidArgument, out)
    else if too_small scales rows row_scales then (Fail InvalidArgument, out)
    else dequant_fp4_row (subspan weights (row * row_bytes) row_bytes)
           (subspan scales (row * row_scales) row_scales) K out.

Definition dequant_fp8_matrix_row (weights scales : list Z) (row rows K : nat) (out : list float)
    : Result unit * list float :=
  if (rows <=? row)%nat then (Fail OutOfRange, out)
  else if negb (K mod 32 =? 0)%nat then (Fail InvalidArgument, out)
  else
    let kblocks := (K / 32)%nat in
    let scale_row := (row / 32)%nat in
    if too_small weights rows K then (Fail InvalidArgument, out)
    else if too_small scales (scale_row + 1) kblocks then (Fail InvalidArgument, out)
    else dequant_fp8_row (subspan weights (row * K) K) (subspan scales (scale_row * kblocks) kblocks) K out 32.
