(* ===== verification/DequantProps.v ===== *)
(** Theorems about the element formats and the row decoders: exhaustive round trips, round
    to nearest even, and what the decoders write. *)

From S2P Require Import Prelude Floats Dequant.

(** ** Round trips over every code *)

(** [f] holds of every [k]-bit continuation of [base], checked by enumeration. *)
Fixpoint all_codes (k : nat) (base : Z) (f : Z -> bool) : bool :=
  match k with
  | O => f base
  | S k => all_codes k (2 * base) f && all_codes k (2 * base + 1) f
  end.

Lemma all_codes_spec k base f : all_codes k base f = true ->
  forall x, base * 2 ^ Z.of_nat k <= x < (base + 1) * 2 ^ Z.of_nat k -> f x = true.
Proof.
  revert base. induction k as [|k IH]; intros base H x Hx.
  - cbn in *. by replace x with base by lia.
  - cbn in H. apply andb_true_iff in H as [H0 H1]. rewrite Nat2Z.inj_succ, Z.pow_succ_r in Hx by lia.
    destruct (Z.lt_ge_cases x ((2 * base + 1) * 2 ^ Z.of_nat k)).
    + apply (IH (2 * base)); [done|nia].
    + apply (IH (2 * base + 1)); [done|nia].
Qed.

(** The codes the formats reserve: NaN bytes of E4M3, signalling NaNs of bf16, NaNs of fp16. *)
Definition fp8_is_nan (b : Z) : bool := Z.land b 0x7F =? 0x7F.
Definition bf16_is_snan (h : Z) : bool :=
  (Z.land h 0x7F80 =? 0x7F80) && negb (Z.land h 0x3F =? 0) && (Z.land h 0x40 =? 0).
Definition fp16_is_nan (h : Z) : bool := (Z.land h 0x7C00 =? 0x7C00) && negb (Z.land h 0x3FF =? 0).

Lemma fp8_codes : all_codes 8 0 (fun b => fp8_is_nan b || (fp8_encode_rn (fp8_e4m3_to_float b) =? b)) = true.
Proof. vm_compute. done. Qed.
Lemma e8m0_codes : all_codes 8 0 (fun b => e8m0_encode (e8m0_to_float b) =? b) = true.
Proof. vm_compute. done. Qed.
Lemma bf16_codes : all_codes 16 0 (fun h => bf16_is_snan h || (float_to_bf16_bits (bf16_to_float_bits h) =? h)) = true.
Proof. vm_compute. done. Qed.
Lemma fp16_codes : all_codes 16 0 (fun h => fp16_is_nan h || (float_to_fp16 (fp16_to_float h) =? h)) = true.
Proof. vm_compute. done. Qed.

(** C33: encoding undoes decoding on every code of the four formats: all E8M0 bytes, the
    E4M3 bytes that are not NaN, the bf16 patterns that are not signalling NaNs (those come
    back quiet) and the fp16 patterns that are not NaN. *)
Theorem codes_roundtrip x :
  (0 <= x < 2 ^ 8 -> e8m0_encode (e8m0_to_float x) = x) /\
  (0 <= x < 2 ^ 8 -> fp8_is_nan x = false -> fp8_encode_rn (fp8_e4m3_to_float x) = x) /\
  (0 <= x < 2 ^ 16 -> bf16_is_snan x = false -> float_to_bf16_bits (bf16_to_float_bits x) = x) /\
  (0 <= x < 2 ^ 16 -> fp16_is_nan x = false -> float_to_fp16 (fp16_to_float x) = x).
Proof.
  repeat split; intros Hx; [|intros Hn ..]; apply Z.eqb_eq.
  - by apply (all_codes_spec _ _ _ e8m0_codes).
  - pose proof (all_codes_spec _ _ _ fp8_codes x Hx) as H. cbv beta in H. by rewrite Hn in H.
  - pose proof (all_codes_spec _ _ _ bf16_codes x Hx) as H. cbv beta in H. by rewrite Hn in H.
  - pose proof (all_codes_spec _ _ _ fp16_codes x Hx) as H. cbv beta in H. by rewrite Hn in H.
Qed.

Lemma codes_roundtrip_witness :
  e8m0_encode (e8m0_to_float 0) = 0 /\ fp8_encode_rn (fp8_e4m3_to_float 0x7E) = 0x7E /\
  float_to_bf16_bits (bf16_to_float_bits 0xFFC1) = 0xFFC1 /\ float_to_fp16 (fp16_to_float 0x8001) = 0x8001.
Proof.
  split; [|split; [|split]].
  - apply (proj1 (codes_roundtrip 0)). lia.
  - apply (proj1 (proj2 (codes_roundtrip 0x7E))); [lia|reflexivity].
  - apply (proj1 (proj2 (proj2 (codes_roundtrip 0xFFC1)))); [lia|reflexivity].
  - apply (proj2 (proj2 (proj2 (codes_roundtrip 0x8001)))); [lia|reflexivity].
Defined.

(** ** Round to nearest even

    Finite values at least [2^-32] apart are compared as integers, in units of [2^-32]. *)

Definition scaled (x : float) : Z :=
  match x with S754_finite s m e => signed s m * 2 ^ (e + 32) | _ => 0 end.

(** The values of the E4M3 codes, up to sign: [k] times [2^(E - 10)]. *)
Definition fp8_grid (w : Z) : Prop := exists k E, 0 <= k < 16 /\ 1 <= E <= 15 /\ Z.abs w = k * 2 ^ (E + 22).

Definition fp8_magnitude (c : Z) : Z :=
  let E := Z.land (Z.shiftr c 3) 15 in
  let k := Z.land c 7 in
  if E =? 0 then k * 2 ^ 23 else (8 + k) * 2 ^ (E + 22).

Lemma fp8_decoded_codes : all_codes 8 0 (fun c => fp8_is_nan c ||
  ((scaled (fp8_e4m3_to_float c) =? (if c <? 128 then fp8_magnitude c else - fp8_magnitude c)) &&
   f_isfinite (fp8_e4m3_to_float c))) = true.
Proof. vm_compute. reflexivity. Qed.

Lemma fp8_decoded c : 0 <= c < 256 -> fp8_is_nan c = false ->
  scaled (fp8_e4m3_to_float c) = (if c <? 128 then fp8_magnitude c else - fp8_magnitude c).
Proof.
  intros Hc Hn. pose proof (all_codes_spec _ _ _ fp8_decoded_codes c Hc) as H. cbv beta in H.
  rewrite Hn in H. cbn in H. apply andb_true_iff in H as [H _]. by apply Z.eqb_eq in H.
Qed.

Lemma fp8_decoded_grid c : 0 <= c < 256 -> fp8_is_nan c = false -> fp8_grid (scaled (fp8_e4m3_to_float c)).
Proof.
  intros Hc Hn. rewrite fp8_decoded by done.
  assert (forall w, Z.abs (if c <? 128 then w else - w) = Z.abs w) as E by (intros; destruct (c <? 128); lia).
  unfold fp8_grid. rewrite E. unfold fp8_magnitude.
  change 15 with (Z.ones 4) at 2 3. change 7 with (Z.ones 3). rewrite !Z.land_ones by lia.
  pose proof (Z.mod_pos_bound (Z.shiftr c 3) (2 ^ 4)). pose proof (Z.mod_pos_bound c (2 ^ 3)).
  destruct (Z.eqb_spec (Z.shiftr c 3 mod 2 ^ 4) 0) as [_|E0].
  - exists (c mod 2 ^ 3), 1. lia.
  - exists (8 + c mod 2 ^ 3), (Z.shiftr c 3 mod 2 ^ 4). repeat split; try lia.
Qed.

(** The nearest multiple of [2^20] to a 24-bit mantissa is nearest on the whole grid, and
    only a mantissa half way between two multiples has two nearest values. *)
Lemma grid_nearest m q E w : 2 ^ 23 <= m < 2 ^ 24 -> 8 <= q <= 16 -> 1 <= E <= 15 ->
  Z.abs (m - q * 2 ^ 20) <= 2 ^ 19 -> fp8_grid w ->
  let near := Z.abs (m * 2 ^ (E + 2) - q * 2 ^ (E + 22)) in
  near <= Z.abs (m * 2 ^ (E + 2) - w) /\
  (near = Z.abs (m * 2 ^ (E + 2) - w) -> w = q * 2 ^ (E + 22) \/ Z.abs (m - q * 2 ^ 20) = 2 ^ 19).
Proof.
  intros Hm Hq HE Hd (k & E' & Hk & HE' & Hw) near. unfold near; clear near.
  set (N := 2 ^ (E + 2)). assert (0 < N) by (apply Z.pow_pos_nonneg; lia).
  assert (2 ^ (E + 22) = 2 ^ 20 * N) as HN by (unfold N; rewrite <- Z.pow_add_r by lia; f_equal; lia).
  rewrite HN. replace (m * N - q * (2 ^ 20 * N)) with ((m - q * 2 ^ 20) * N) by ring.
  rewrite Z.abs_mul, (Z.abs_eq N) by lia.
  destruct (Z.le_gt_cases w (8 * 2 ^ 20 * N)) as [Hlow|Hhigh].
  - assert (Z.abs (m - q * 2 ^ 20) <= m - 8 * 2 ^ 20) by lia.
    split; [nia|]. intros Heq.
    destruct (Z.eq_dec w (8 * 2 ^ 20 * N)) as [->|Hne]; [|nia].
    assert (Z.abs (m - q * 2 ^ 20) = m - 8 * 2 ^ 20) as Hd' by nia.
    destruct (Z.eq_dec q 8) as [->|]; [left; ring|right; lia].
  - assert (E <= E') as Hle.
    { destruct (Z.le_gt_cases E E'); [done|exfalso].
      assert (2 ^ (E' + 23) <= 2 ^ (E + 22)) by (apply Z.pow_le_mono_r; lia).
      rewrite (Z.pow_add_r 2 E' 23), (Z.pow_add_r 2 E' 22) in * by lia.
      assert (0 < 2 ^ E') by (apply Z.pow_pos_nonneg; lia). nia. }
    assert (Z.abs w = k * 2 ^ (E' - E) * 2 ^ 20 * N) as Hj.
    { rewrite Hw. unfold N. rewrite <- !Z.mul_assoc, <- !Z.pow_add_r by lia. do 2 f_equal. lia. }
    set (j := k * 2 ^ (E' - E)) in *. rewrite (Z.abs_eq w) in Hj by nia. rewrite Hj.
    replace (m * N - j * 2 ^ 20 * N) with ((m - j * 2 ^ 20) * N) by ring.
    rewrite Z.abs_mul, (Z.abs_eq N) by lia.
    destruct (Z.eq_dec j q) as [->|Hjq]; [split; [lia|intros _; left; ring]|].
    split; [apply Z.mul_le_mono_nonneg_r; lia|]. intros Heq. right.
    apply Z.mul_reg_r in Heq; lia.
Qed.

(** The end of the encoder: no clamp triggers on an exponent and mantissa in range. *)
Lemma fp8_pack_spec ee k : 0 <= ee <= 15 -> 0 <= k < 8 -> (ee = 15 -> k <= 6) ->
  fp8_pack (ee + 120) k = 8 * ee + k.
Proof.
  intros. unfold fp8_pack. replace (ee + 120 - 127 + 7) with ee by lia.
  replace (15 <? ee) with false by (symmetry; apply Z.ltb_ge; lia).
  replace ((ee =? 15) && (k =? 7)) with false by (symmetry; apply andb_false_iff; lia).
  cbn [orb]. replace (ee <? 0) with false by (symmetry; apply Z.ltb_ge; lia).
  rewrite lor_shiftl by lia. lia.
Qed.

(** What the bit manipulation computes: the mantissa rounded to a multiple of [2^20], ties
    to even, the carry landing in the exponent. *)
Definition rounds_to (m q : Z) : Prop :=
  Z.abs (m - q * 2 ^ 20) <= 2 ^ 19 /\ (Z.abs (m - q * 2 ^ 20) = 2 ^ 19 -> Z.even q = true).

Lemma fp8_fields m e : 2 ^ 23 <= m < 2 ^ 24 -> -29 <= e <= -15 ->
  let b := bits_of_f32 (S754_finite false (Z.to_pos m) e) in
  Z.land (Z.shiftr b 23) 0xFF = e + 150 /\ Z.shiftr (Z.land b 0x7FFFFF) 20 = m / 2 ^ 20 - 8 /\
  Z.land b 0xFFFFF = m mod 2 ^ 20.
Proof.
  intros Hm He b.
  assert (b = (e + 150) * 2 ^ 23 + (m - 2 ^ 23)) as ->.
  { unfold b. cbn [bits_of_f32]. rewrite Z2Pos.id by lia.
    replace (m <? 2 ^ 23) with false by (symmetry; apply Z.ltb_ge; lia). lia. }
  change 0xFF with (Z.ones 8). change 0x7FFFFF with (Z.ones 23). change 0xFFFFF with (Z.ones 20).
  rewrite !Z.land_ones, !Z.shiftr_div_pow2 by lia.
  repeat split; div_lia.
Qed.

Lemma fp8_encode_norm_spec m e : 2 ^ 23 <= m < 2 ^ 24 -> -29 <= e <= -15 -> (e = -15 -> m <= 14 * 2 ^ 20) ->
  exists q, fp8_encode_norm (S754_finite false (Z.to_pos m) e) = 8 * (e + 30) + (q - 8) /\ 8 <= q <= 16 /\
    (e = -15 -> q <= 14) /\ rounds_to m q.
Proof.
  intros Hm He Htop. unfold fp8_encode_norm.
  destruct (fp8_fields m e Hm He) as (-> & -> & ->).
  pose proof (Z.div_mod m (2 ^ 20)) as Hdm. pose proof (Z.mod_pos_bound m (2 ^ 20)) as Hr.
  set (f := m / 2 ^ 20) in *. set (r := m mod 2 ^ 20) in *.
  replace (Z.land (f - 8) 1) with ((f - 8) mod 2) by (symmetry; apply (Z.land_ones _ 1); lia).
  assert (Z.even f = ((f - 8) mod 2 =? 0)) as Hev.
  { rewrite Zmod_even. replace (Z.even (f - 8)) with (Z.even f) by (rewrite Z.even_sub; by destruct (Z.even f)).
    by destruct (Z.even f). }
  destruct (_ || _) eqn:Eup; rewrite <- Hev in Eup.
  - exists (f + 1).
    assert (0x80000 <= r /\ (r = 0x80000 -> Z.even f = false)) as [Hr0 Hr1] by (destruct (Z.even f); lia).
    split; [|unfold rounds_to; repeat split; try lia].
    + destruct (Z.eqb_spec (f - 8 + 1) 8).
      * replace (e + 150 + 1) with (e + 31 + 120) by lia. rewrite fp8_pack_spec; lia.
      * replace (e + 150) with (e + 30 + 120) by lia. rewrite fp8_pack_spec; lia.
    + intros. rewrite Z.even_add, Hr1; [done|lia].
  - exists f. assert (r <= 0x80000 /\ (r = 0x80000 -> Z.even f = true)) as [Hr0 Hr1] by (destruct (Z.even f); lia).
    split; [|unfold rounds_to; repeat split; try lia].
    + replace (e + 150) with (e + 30 + 120) by lia. rewrite fp8_pack_spec; lia.
    + intros. apply Hr1. lia.
Qed.

(** ** From floats to mantissas *)

(** A binary32 value above the subnormals has a 24-bit mantissa. *)
Lemma valid_normal s m e : valid_binary 24 128 (S754_finite s m e) = true -> -149 < e -> 2 ^ 23 <= Zpos m < 2 ^ 24.
Proof.
  intros H He. cbn [valid_binary] in H. unfold bounded, canonical_mantissa, fexp, SpecFloat.emin in H.
  apply andb_true_iff in H as [H _]. apply Zeq_bool_eq in H.
  pose proof (digits2_pos_bounds m) as Hd. assert (Zpos (digits2_pos m) = 24) as Hn by lia. rewrite Hn in Hd. lia.
Qed.

Lemma f_leb_pos m1 e1 m2 e2 : f_leb (S754_finite false m1 e1) (S754_finite false m2 e2) = true ->
  e1 < e2 \/ (e1 = e2 /\ Zpos m1 <= Zpos m2).
Proof.
  unfold f_leb, SFleb. cbn. change (Pos.compare_cont Eq m1 m2) with (m1 ?= m2)%positive.
  destruct (Z.compare_spec e1 e2) as [->|?|?]; [|by left|done].
  destruct (Pos.compare_spec m1 m2); try done; lia.
Qed.

(** The operands [fp8_encode_rn] rounds through the mantissa: [2^-6 <= |v| <= 448]. *)
Definition fp8_normal_range (v : float) : bool :=
  valid_binary 24 128 v && f_leb (f32_lit 1 (-6)) (f_abs v) && f_leb (f_abs v) kFp8E4M3Max.

Lemma fp8_normal_range_finite v : fp8_normal_range v = true ->
  exists s m e, v = S754_finite s (Z.to_pos m) e /\ 2 ^ 23 <= m < 2 ^ 24 /\ -29 <= e <= -15 /\
    (e = -15 -> m <= 14 * 2 ^ 20).
Proof.
  unfold fp8_normal_range. rewrite !andb_true_iff. intros [[Hv Hlo] Hhi].
  destruct v as [s|s| |s m e]; [discriminate Hlo|discriminate Hhi|discriminate Hlo|].
  change (f32_lit 1 (-6)) with (S754_finite false 8388608 (-29)) in Hlo.
  change kFp8E4M3Max with (S754_finite false 14680064 (-15)) in Hhi.
  apply f_leb_pos in Hlo, Hhi. apply valid_normal in Hv; [|lia].
  exists s, (Zpos m), e. rewrite Pos2Z.id. split; [done|lia].
Qed.

Lemma fp8_sign_bit s m e : 2 ^ 23 <= m < 2 ^ 24 -> -29 <= e <= -15 ->
  Z.land (Z.shiftr (bits_of_f32 (S754_finite s (Z.to_pos m) e)) 24) 0x80 = if s then 128 else 0.
Proof.
  intros Hm He. cbn [bits_of_f32]. rewrite Z2Pos.id by lia.
  replace (m <? 2 ^ 23) with false by (symmetry; apply Z.ltb_ge; lia).
  set (x := Z.shiftr _ 24). assert (x / 2 ^ 7 = if s then 1 else 0) as Hx
    by (unfold x; rewrite Z.shiftr_div_pow2 by lia; destruct s; div_lia).
  assert (0 <= x < 2 ^ 8) by (destruct s; div_lia).
  apply Z.bits_inj'. intros n Hn. rewrite Z.land_spec. change 0x80 with (2 ^ 7). rewrite Z.pow2_bits_eqb by lia.
  destruct (Z.eqb_spec 7 n) as [<-|].
  - rewrite andb_true_r. rewrite <- (Z.add_0_l 7) at 1. rewrite <- Z.div_pow2_bits, Hx by lia. by destruct s.
  - rewrite andb_false_r. destruct s; [|by rewrite Z.bits_0].
    change 128 with (2 ^ 7). rewrite Z.pow2_bits_eqb by lia. symmetry. by apply Z.eqb_neq.
Qed.

Lemma fp8_magnitude_norm E k : 1 <= E <= 15 -> 0 <= k < 8 -> fp8_magnitude (8 * E + k) = (8 + k) * 2 ^ (E + 22).
Proof.
  intros. unfold fp8_magnitude. change 15 with (Z.ones 4) at 1. change 15 with (Z.ones 4). change 7 with (Z.ones 3).
  rewrite !Z.land_ones, Z.shiftr_div_pow2 by lia.
  replace ((8 * E + k) / 2 ^ 3 mod 2 ^ 4) with E by (div_lia).
  replace ((8 * E + k) mod 2 ^ 3) with k by (div_lia).
  by replace (E =? 0) with false by (symmetry; apply Z.eqb_neq; lia).
Qed.

Lemma fp8_magnitude_sign x : 0 <= x < 128 -> fp8_magnitude (128 + x) = fp8_magnitude x.
Proof.
  intros. unfold fp8_magnitude. change 15 with (Z.ones 4). change 7 with (Z.ones 3).
  rewrite !Z.land_ones, !Z.shiftr_div_pow2 by lia.
  replace ((128 + x) / 2 ^ 3 mod 2 ^ 4) with (x / 2 ^ 3 mod 2 ^ 4) by (div_lia).
  by replace ((128 + x) mod 2 ^ 3) with (x mod 2 ^ 3) by (div_lia).
Qed.

(** The code a rounded mantissa assembles to decodes to the rounded value, carry included. *)
Lemma fp8_assembled E q : 1 <= E <= 15 -> 8 <= q <= 16 -> (E = 15 -> q <= 14) ->
  fp8_magnitude (8 * E + (q - 8)) = q * 2 ^ (E + 22) /\ 0 <= 8 * E + (q - 8) < 127.
Proof.
  intros HE Hq Htop. split; [|lia]. destruct (Z.eq_dec q 16) as [->|].
  - replace (8 * E + (16 - 8)) with (8 * (E + 1) + 0) by lia. rewrite fp8_magnitude_norm by lia.
    replace (E + 1 + 22) with (1 + (E + 22)) by lia. rewrite Z.pow_add_r by lia. lia.
  - rewrite fp8_magnitude_norm by lia. f_equal. lia.
Qed.

Lemma fp8_not_nan c : 0 <= c < 127 \/ 128 <= c < 255 -> fp8_is_nan c = false.
Proof.
  intros Hc. unfold fp8_is_nan. change 127 with (Z.ones 7). rewrite Z.land_ones by lia.
  apply Z.eqb_neq. change (Z.ones 7) with 127. div_lia.
Qed.

Lemma u8_sign_mag (s : bool) mag : 0 <= mag < 128 -> u8 (Z.lor (if s then 128 else 0) mag) = (if s then 128 else 0) + mag.
Proof.
  intros. replace (if s then 128 else 0) with (Z.shiftl (Z.b2z s) 7) at 1 by (by destruct s).
  rewrite lor_shiftl by lia. unfold u8. destruct s; cbn [Z.b2z]; rewrite Z.mod_small; lia.
Qed.

(** The encoder on a normal operand, as its sign, its exponent and the rounded mantissa. *)
Lemma fp8_encode_rn_norm s m e : 2 ^ 23 <= m < 2 ^ 24 -> -29 <= e <= -15 -> (e = -15 -> m <= 14 * 2 ^ 20) ->
  let c := fp8_encode_rn (S754_finite s (Z.to_pos m) e) in
  exists q, 8 <= q <= 16 /\ rounds_to m q /\ 0 <= c < 256 /\ fp8_is_nan c = false /\
    Z.even c = Z.even q /\
    scaled (fp8_e4m3_to_float c) = (if s then - (q * 2 ^ (e + 30 + 22)) else q * 2 ^ (e + 30 + 22)).
Proof.
  intros Hm He Htop c. destruct (fp8_encode_norm_spec m e Hm He Htop) as (q & Hc & Hq & Hq15 & Hr).
  destruct (fp8_assembled (e + 30) q) as [Hmag Hb]; [lia..|].
  assert (c = (if s then 128 else 0) + (8 * (e + 30) + (q - 8))) as Ec.
  { unfold c, fp8_encode_rn. rewrite fp8_sign_bit by done.
    replace (f_ltb _ _) with false.
    - change (f_abs (S754_finite s (Z.to_pos m) e)) with (S754_finite false (Z.to_pos m) e).
      rewrite Hc. apply u8_sign_mag. lia.
    - symmetry. apply not_true_iff_false.
      change (f_abs (S754_finite s (Z.to_pos m) e)) with (S754_finite false (Z.to_pos m) e).
      change (f32_lit 1 (-6)) with (S754_finite false 8388608 (-29)).
      rewrite f_ltb_pos. unfold mag_lt. rewrite Z2Pos.id by lia. lia. }
  clearbody c. exists q. split_and!; try done; try (destruct s; lia).
  - apply fp8_not_nan. destruct s; lia.
  - subst c. rewrite !Z.even_add, Z.even_sub, Z.even_mul. by destruct s, (Z.even q).
  - rewrite fp8_decoded by (try apply fp8_not_nan; destruct s; lia). subst c. rewrite <- Hmag. destruct s.
    + replace (_ <? 128) with false by (symmetry; apply Z.ltb_ge; lia).
      f_equal. apply fp8_magnitude_sign. lia.
    + replace (0 + _) with (8 * (e + 30) + (q - 8)) by lia.
      by replace (_ <? 128) with true by (symmetry; apply Z.ltb_lt; lia).
Qed.

(** C32: on the operands with [2^-6 <= |v| <= 448] the E4M3 encoder rounds to nearest: its
    code is no NaN, no other code decodes to a closer value, and when another value is as
    close the code is the even one. *)
Theorem fp8_encode_nearest v c' :
  fp8_normal_range v = true -> 0 <= c' < 256 -> fp8_is_nan c' = false ->
  let c := fp8_encode_rn v in
  let distance c := Z.abs (scaled v - scaled (fp8_e4m3_to_float c)) in
  0 <= c < 256 /\ fp8_is_nan c = false /\ distance c <= distance c' /\
  (distance c = distance c' -> scaled (fp8_e4m3_to_float c) = scaled (fp8_e4m3_to_float c') \/ Z.even c = true).
Proof.
  intros Hv Hc' Hn' c distance. unfold distance.
  destruct (fp8_normal_range_finite v Hv) as (s & m & e & -> & Hm & He & Htop).
  destruct (fp8_encode_rn_norm s m e Hm He Htop) as (q & Hq & [Hr Ht] & Hc & Hn & Hev & Hs).
  fold c in Hc, Hn, Hev, Hs. rewrite Hs.
  pose proof (fp8_decoded_grid c' Hc' Hn') as Hg. set (w := scaled (fp8_e4m3_to_float c')) in *.
  assert (scaled (S754_finite s (Z.to_pos m) e) = if s then - (m * 2 ^ (e + 30 + 2)) else m * 2 ^ (e + 30 + 2)) as ->.
  { cbn [scaled]. replace (e + 30 + 2) with (e + 32) by lia. destruct s; cbn [signed]; [|by rewrite Z2Pos.id by lia].
    change (Z.neg (Z.to_pos m)) with (- Z.pos (Z.to_pos m)). rewrite Z2Pos.id by lia. ring. }
  split; [done|split; [done|]]. rewrite Hev. destruct s.
  - assert (fp8_grid (- w)) as Hg' by (unfold fp8_grid in *; by rewrite Z.abs_opp).
    destruct (grid_nearest m q (e + 30) (- w) Hm Hq ltac:(lia) Hr Hg') as [H1 H2].
    split; [lia|]. intros Heq. destruct H2 as [H2|H2]; [lia|left; lia|right; auto].
  - destruct (grid_nearest m q (e + 30) w Hm Hq ltac:(lia) Hr Hg) as [H1 H2].
    split; [lia|]. intros Heq. destruct H2 as [H2|H2]; [lia|left; lia|right; auto].
Qed.

Lemma fp8_encode_nearest_witness :
  let v := f32_lit 33 (-4) in
  let distance c := Z.abs (scaled v - scaled (fp8_e4m3_to_float c)) in
  fp8_encode_rn v = 0x40 /\ distance (fp8_encode_rn v) <= distance 0x41.
Proof.
  split; [reflexivity|]. apply (fp8_encode_nearest (f32_lit 33 (-4)) 0x41); [reflexivity|lia|reflexivity].
Defined.

(** ** Rows *)

Lemma write_span_length {A} (out : list A) base len f : length (write_span out base len f) = length out.
Proof.
  unfold write_span. generalize (seq 0 len). intros l. revert out.
  induction l as [|j l IH]; intros out; cbn; [done|]. by rewrite IH, length_insert.
Qed.

Lemma write_span_lookup {A} (out : list A) base len f i : (base + len <= length out)%nat ->
  write_span out base len f !! i = if decide (base <= i < base + len)%nat then Some (f (i - base)%nat) else out !! i.
Proof.
  unfold write_span. induction len as [|len IH]; intros Hlen.
  - cbn. by rewrite decide_False by lia.
  - rewrite seq_S, foldl_app. cbn [foldl Nat.add].
    pose proof (write_span_length out base len f) as Hl. unfold write_span in Hl.
    destruct (decide (i = base + len)%nat) as [->|Hi].
    + rewrite list_lookup_insert_eq by lia. rewrite decide_True by lia. do 2 f_equal. lia.
    + rewrite list_lookup_insert_ne, IH by lia.
      destruct (decide (base <= i < base + len)%nat); [by rewrite decide_True by lia|by rewrite decide_False by lia].
Qed.

(** What a decoder of [n] elements promises of its verdict and of the span it wrote: Corrupt
    exactly when a block's scale is NaN, otherwise element [i] is [value i] below [n] and the
    rest of the span is untouched. *)
Definition decoded (n blk_len : nat) (scale : nat -> Z) (value : nat -> float) (out : list float)
    (res : Result unit * list float) : Prop :=
  if existsb (fun blk => e8m0_is_nan (scale blk)) (seq 0 (n / blk_len)) then res.1 = Fail Corrupt
  else res.1 = Ret tt /\ forall i, res.2 !! i = if decide (i < n)%nat then Some (value i) else out !! i.

Lemma dequant_blocks_decoded elem scales blk_len k nb out : (0 < blk_len)%nat ->
  ((k + nb) * blk_len <= length out)%nat ->
  let res := dequant_blocks elem scales blk_len (seq k nb) out in
  if existsb (fun blk => e8m0_is_nan (nth blk scales 0)) (seq k nb) then res.1 = Fail Corrupt
  else res.1 = Ret tt /\
    forall i, res.2 !! i = if decide (k * blk_len <= i < (k + nb) * blk_len)%nat
                           then Some (elem i (nth (i / blk_len) scales 0 - 127)) else out !! i.
Proof.
  intros Hb. revert k out. induction nb as [|nb IH]; intros k out Hlen; cbn [seq existsb dequant_blocks].
  - split; [done|]. intros i. by rewrite decide_False by lia.
  - destruct (e8m0_is_nan (nth k scales 0)); [done|]. cbn [orb].
    set (out' := write_span _ _ _ _).
    specialize (IH (S k) out'). unfold out' in IH at 1. rewrite write_span_length in IH.
    specialize (IH ltac:(lia)). cbn zeta in IH. destruct (existsb _ _); [done|].
    destruct IH as [H1 H2]. split; [done|]. intros i. rewrite H2. unfold out'.
    rewrite write_span_lookup by lia.
    destruct (decide (S k * blk_len <= i < (S k + nb) * blk_len)%nat); [by rewrite decide_True by nia|].
    destruct (decide (k * blk_len <= i < k * blk_len + blk_len)%nat).
    + rewrite decide_True by nia.
      replace (k * blk_len + (i - k * blk_len))%nat with i by lia.
      by replace (i / blk_len)%nat with k by (apply (Nat.div_unique _ _ _ (i - k * blk_len)%nat); nia).
    + by rewrite decide_False by nia.
Qed.

Lemma blocks_cover n blk_len : (0 < blk_len)%nat -> (n mod blk_len = 0)%nat -> (n / blk_len * blk_len = n)%nat.
Proof. intros Hb Hn. pose proof (Nat.div_mod n blk_len). lia. Qed.

Lemma dequant_blocks_row elem scales blk_len n out : (0 < blk_len)%nat -> (n mod blk_len = 0)%nat ->
  (n <= length out)%nat ->
  decoded n blk_len (fun blk => nth blk scales 0) (fun i => elem i (nth (i / blk_len) scales 0 - 127)) out
    (dequant_blocks elem scales blk_len (seq 0 (n / blk_len)) out).
Proof.
  intros Hb Hn Hlen. pose proof (blocks_cover n blk_len Hb Hn) as Hc.
  pose proof (dequant_blocks_decoded elem scales blk_len 0 (n / blk_len) out Hb ltac:(cbn [Nat.add]; lia)) as H.
  unfold decoded. cbn zeta in H. destruct (existsb _ _); [done|]. destruct H as [H1 H2]. split; [done|].
  intros i. rewrite H2. cbn [Nat.add Nat.mul]. rewrite Hc.
  destruct (decide (i < n)%nat); [by rewrite decide_True by lia|by rewrite decide_False by lia].
Qed.

(** A decoder's promise only looks at the scales and values below [n]. *)
Lemma decoded_ext n blk_len scale scale' value value' out res : (0 < blk_len)%nat ->
  (forall b, (b < n / blk_len)%nat -> scale b = scale' b) -> (forall i, (i < n)%nat -> value i = value' i) ->
  decoded n blk_len scale value out res -> decoded n blk_len scale' value' out res.
Proof.
  intros Hb Hs Hv. unfold decoded.
  assert (existsb (fun b => e8m0_is_nan (scale b)) (seq 0 (n / blk_len)) =
          existsb (fun b => e8m0_is_nan (scale' b)) (seq 0 (n / blk_len))) as ->.
  { apply eq_true_iff_eq. rewrite !existsb_exists. setoid_rewrite in_seq. split; intros (b & ? & H); exists b;
      (split; [done|]); [rewrite <- Hs by lia|rewrite Hs by lia]; done. }
  destruct (existsb _ _); [done|]. intros [? H]. split; [done|]. intros i. rewrite H.
  destruct (decide (i < n)%nat); [by rewrite Hv|done].
Qed.

Lemma too_small_false {A} (l : list A) a b : (a * b <= length l)%nat -> Z.of_nat (length l) < 2 ^ 64 ->
  too_small l a b = false.
Proof. intros. unfold too_small. apply Z.ltb_ge. rewrite u64_small; lia. Qed.

(** ** Matrices *)

Lemma fp4_nibble_range b i : 0 <= b < 256 -> 0 <= (if Nat.even i then Z.land b 0x0F else Z.shiftr b 4) < 16.
Proof.
  intros. change 0x0F with (Z.ones 4). rewrite Z.land_ones, Z.shiftr_div_pow2 by lia.
  destruct (Nat.even i); div_lia.
Qed.

Lemma build_table_nth N f x : 0 <= x < Z.of_nat N -> x < 256 -> nth (Z.to_nat x) (build_table N f) f32_zero = f x.
Proof.
  intros. unfold build_table. rewrite nth_lookup, list_lookup_fmap, lookup_seq_lt by lia. cbn.
  f_equal. unfold u8. rewrite Z2Nat.id, Z.mod_small by lia. done.
Qed.

Lemma fp4_nibble_row weights row K i : (K mod 32 = 0)%nat -> (i < K)%nat ->
  fp4_nibble (subspan weights (row * (K / 2)) (K / 2)) i = fp4_nibble weights (row * K + i).
Proof.
  intros HK Hi. unfold fp4_nibble.
  assert (K = 2 * (K / 2))%nat as HK2 by (div_lia).
  assert (Nat.even (row * K + i) = Nat.even i) as ->
    by (rewrite HK2, Nat.even_add, !Nat.even_mul, orb_true_r; by destruct (Nat.even i)).
  rewrite nth_subspan by (div_lia).
  by replace ((row * K + i) / 2)%nat with (row * (K / 2) + i / 2)%nat
    by (rewrite HK2 at 2; replace (row * (2 * (K / 2)) + i)%nat with (i + row * (K / 2) * 2)%nat by lia;
        rewrite Nat.div_add by lia; lia).
Qed.

Lemma row_slice row rows k n : (row < rows)%nat -> (rows * k <= n)%nat -> (row * k + k <= n)%nat.
Proof. nia. Qed.

(** A row of a weight matrix decodes to the matrix's own elements: row [row] of a packed
    FP4 matrix takes nibble [row * K + i] and the scale of its 32-element block, row [row] of
    an FP8 matrix takes byte [row * K + i] and the scale of its 32x32 tile, both answer
    Corrupt exactly when a scale they use is NaN, and neither writes past the row. *)
Theorem matrix_rows_decode weights scales row rows K out :
  Forall (fun b => 0 <= b < 256) weights -> (row < rows)%nat -> (K mod 32 = 0)%nat -> (K <= length out)%nat ->
  Z.of_nat (length weights) < 2 ^ 64 -> Z.of_nat (length scales) < 2 ^ 64 ->
  ((rows * (K / 2) <= length weights)%nat -> (rows * (K / 32) <= length scales)%nat ->
   let scale i := nth (row * (K / 32) + i) scales 0 in
   decoded K 32 scale
     (fun i => f32_ldexp (fp4_e2m1_to_float (fp4_nibble weights (row * K + i))) (scale (i / 32)%nat - 127)) out
     (dequant_fp4_matrix_row weights scales row rows K out)) /\
  ((rows * K <= length weights)%nat -> ((rows + 31) / 32 * (K / 32) <= length scales)%nat ->
   let scale i := nth (row / 32 * (K / 32) + i) scales 0 in
   decoded K 32 scale
     (fun i => f32_ldexp (fp8_e4m3_to_float (nth (row * K + i) weights 0)) (scale (i / 32)%nat - 127)) out
     (dequant_fp8_matrix_row weights scales row rows K out)).
Proof.
  intros Hb Hrow HK Hout Hw Hs.
  assert (forall i, 0 <= nth i weights 0 < 256) as Hbyte.
  { intros i. rewrite nth_lookup. destruct (weights !! i) as [b|] eqn:E; cbn; [|lia].
    by apply (Forall_lookup_1 _ _ _ _ Hb E). }
  split; intros Hwl Hsl scale.
  - pose proof (row_slice _ _ _ _ Hrow Hwl). pose proof (row_slice _ _ _ _ Hrow Hsl).
    unfold dequant_fp4_matrix_row, dequant_fp4_row.
    rewrite (proj2 (Nat.leb_gt rows row)), HK, !too_small_false, !subspan_length, !guard_ltb by lia. cbn [negb Nat.eqb].
    eapply decoded_ext; [lia|..|apply dequant_blocks_row; lia].
    + intros b Hbl. unfold scale. by rewrite nth_subspan.
    + intros i Hi. unfold scale. cbn beta.
      rewrite nth_subspan, fp4_nibble_row by (done || div_lia).
      f_equal. unfold kFp4E2M1Table. apply build_table_nth;
        pose proof (fp4_nibble_range _ (row * K + i) (Hbyte ((row * K + i) / 2)%nat)); unfold fp4_nibble; lia.
  - pose proof (row_slice _ _ _ _ Hrow Hwl).
    assert ((row / 32 + 1) * (K / 32) <= length scales)%nat as Htile.
    { etransitivity; [|exact Hsl]. apply Nat.mul_le_mono_r. div_lia. }
    unfold dequant_fp8_matrix_row, dequant_fp8_row.
    rewrite (proj2 (Nat.leb_gt rows row)), HK, !too_small_false, !subspan_length, !guard_ltb by lia.
    cbn [negb Nat.eqb orb].
    eapply decoded_ext; [lia|..|apply dequant_blocks_row; lia].
    + intros b Hbl. unfold scale. by rewrite nth_subspan.
    + intros i Hi. unfold scale. cbn beta.
      rewrite !nth_subspan by (done || div_lia).
      f_equal. unfold kFp8E4M3Table. apply build_table_nth; pose proof (Hbyte (row * K + i)%nat); lia.
Qed.

(** Two rows of 32 FP4 elements: row 1 is all ones (nibble 2) scaled by [2^1]. *)
Lemma matrix_rows_decode_witness :
  let weights := repeat 0x11 16 ++ repeat 0x22 16 in
  (dequant_fp4_matrix_row weights [127; 128] 1 2 32 (repeat f32_zero 33)).2 !! 31%nat = Some (f32_of_Z 2) /\
  (dequant_fp4_matrix_row weights [127; 128] 1 2 32 (repeat f32_zero 33)).1 = Ret tt.
Proof.
  pose (weights := repeat 0x11 16 ++ repeat 0x22 16). cbn zeta.
  assert (Forall (fun b => 0 <= b < 256) weights) as Hb by (repeat constructor; lia).
  pose proof (proj1 (matrix_rows_decode weights [127; 128] 1 2 32 (repeat f32_zero 33) Hb
    ltac:(lia) ltac:(reflexivity) ltac:(cbn; lia) ltac:(cbn; lia) ltac:(cbn; lia)) ltac:(cbn; lia) ltac:(cbn; lia)) as H.
  destruct H as [Hr Hl]. split; [|exact Hr]. exact (Hl 31%nat).
Defined.
