(* ===== verification/DsparkTree.v ===== *)
(** The draft tree of speculative decoding ([cpu/dspark_tree.h], [cpu/dspark_tree.cpp]):
    the libm-free exponential and logarithm, the candidate lattice, the paths through it and
    the acceptance rules.

    Arrays are lists; an array of fixed size keeps its size.  A row of the lattice's
    [P * K * K] tables is the slice of [K] entries starting at [(i * K + prev) * K]. *)

From S2P Require Import Prelude Floats.

Definition kPositions : nat := 5.
Definition kRank : nat := 256.
Definition kHidden : nat := 5120.
Definition kMaxK : nat := 64.
Definition kMaxKv : nat := 256.

(** ** float64 series *)

Definition kLn2 : float := f64_lit 0x162E42FEFA39EF (-53).
Definition kSqrtHalf : float := f64_lit 0x16A09E667F3BCD (-53).
Definition kExpTerms : nat := 16.
Definition kLogTerms : nat := 14.
Definition kExpLo : float := f64_of_Z (-745).
Definition kNegInf : float := f_neg_infinity.

Definition exp_inv : list float := f64_zero :: map (fun n => f64_div f64_one (f64_of_Z (Z.of_nat n))) (seq 1 kExpTerms).
Definition log_c : list float :=
  map (fun n => f64_div (f64_of_Z 2) (f64_of_Z (2 * Z.of_nat n + 1))) (seq 0 (S kLogTerms)).

Definition dm_exp (x : float) : float :=
  if negb (f_geb x kExpLo) then f64_zero
  else
    let k := f64_floor (f64_add (f64_div x kLn2) (f64_lit 1 (-1))) in
    let r := f64_sub x (f64_mul k kLn2) in
    let p := foldr (fun n p => f64_add f64_one (f64_mul (f64_mul p r) (nth n exp_inv f64_zero))) f64_one
               (seq 1 kExpTerms) in
    f64_ldexp p (f_trunc k).

Definition dm_log (y : float) : float :=
  if negb (f_gtb y f64_zero) then kNegInf
  else
    let '(m, e) := f64_frexp y in
    let '(m, e) := if f_ltb m kSqrtHalf then (f64_mul m (f64_of_Z 2), e - 1) else (m, e) in
    let f := f64_div (f64_sub m f64_one) (f64_add m f64_one) in
    let f2 := f64_mul f f in
    let s := foldr (fun n s => f64_add (nth n log_c f64_zero) (f64_mul f2 s)) (nth kLogTerms log_c f64_zero)
               (seq 0 kLogTerms) in
    f64_add (f64_mul f s) (f64_mul (f64_of_Z e) kLn2).

(** ** Sequential reductions *)

Definition f64_at (v : list float) (i : nat) : float := nth i v f64_zero.

(** [for (i = 1; i < n; ++i) if (v[i] > best) ...] from [v[0]]. *)
Definition first_argmax (v : list float) : nat :=
  (foldl (fun '(best, arg) i => if f_gtb (f64_at v i) best then (f64_at v i, i) else (best, arg))
     (f64_at v 0, 0%nat) (seq 1 (length v - 1))).2.

(** The first index whose cumulative weight exceeds [t], else the last positive weight. *)
Fixpoint sample_scan (w : list float) (t : float) (i : nat) (cum : float) (last : nat) : option nat * nat :=
  match w with
  | [] => (None, last)
  | x :: w =>
      let last := if f_gtb x f64_zero then i else last in
      let cum := f64_add cum x in
      if f_gtb cum t then (Some i, last) else sample_scan w t (S i) cum last
  end.

Definition sum64 (w : list float) : float := foldl f64_add f64_zero w.

Definition sample_index (w : list float) (u : float) : nat :=
  let '(pick, last) := sample_scan w (f64_mul u (sum64 w)) 0 f64_zero 0 in
  match pick with Some i => i | None => last end.

Definition lse_seq (x : list float) (extra : option float) : float :=
  let m := foldl (fun m v => if f_gtb v m then v else m) (f64_at x 0) (drop 1 x) in
  let m := match extra with Some e => if f_gtb e m then e else m | None => m end in
  if negb (f_isfinite m) then m
  else
    let s := foldl (fun s v => f64_add s (dm_exp (f64_sub v m))) f64_zero x in
    let s := match extra with Some e => f64_add s (dm_exp (f64_sub e m)) | None => s end in
    f64_add m (dm_log s).

(** ** 16-lane dot products *)

(** One step of the loop: lane [l] adds [a[r + l] * b[r + l]]. *)
Fixpoint lanes16 (fuel : nat) (a b acc : list float) : list float :=
  match fuel with
  | O => acc
  | S fuel =>
      lanes16 fuel (drop 16 a) (drop 16 b)
        (zip_with f32_add acc (zip_with f32_mul (take 16 a) (take 16 b)))
  end.

Definition zero_lanes : list float := repeat f32_zero 16.
Definition sum_lanes (acc : list float) : float := foldl f32_add f32_zero acc.

Definition dot16 (a b : list float) (n : nat) : float := sum_lanes (lanes16 (n / 16) a b zero_lanes).

(** The dot product over [cat(x, e)], the lanes continuing across the seam. *)
Definition confidence (x e w : list float) (bias : float) : float :=
  let acc := lanes16 (kHidden / 16) x w zero_lanes in
  let acc := lanes16 (kRank / 16) e (drop kHidden w) acc in
  f32_add (sum_lanes acc) bias.

Definition sigmoid (c : float) : float := f64_div f64_one (f64_add f64_one (dm_exp (f_neg c))).

(** Longest prefix whose cumulative [sigmoid(conf)] stays at least [theta]. *)
Fixpoint k_from_confidence_from (conf : list float) (theta run : float) (k : nat) : nat :=
  match conf with
  | [] => k
  | c :: conf =>
      let run := f64_mul run (sigmoid (f32_to_f64 c)) in
      if f_ltb run theta then k else k_from_confidence_from conf theta run (S k)
  end.
Definition k_from_confidence (conf : list float) (theta : float) : nat :=
  k_from_confidence_from (take kPositions conf) theta f64_one 0.

(** ** The lattice *)

Inductive Objective := Viterbi | Eal | Chain.

(** Candidate index per position. *)
Definition Path := list nat.
Definition path_at (p : Path) (i : nat) : nat := nth i p 0%nat.

Record LatticeInput := mkLatticeInput {
  in_K : nat;
  in_cand_ids : list Z;
  in_cand_logit : list float;
  in_e_in : list float;
  in_e_cand : list float;
  in_h_cand : list float;
  in_lse_anchor : list float
}.

Record Lattice := mkLattice {
  lat_K : nat;
  lat_ids : list Z;
  lat_e_in : list float;
  lat_e_cand : list float;
  lat_bias : list float;
  lat_logq : list float
}.

Definition empty_lattice : Lattice := mkLattice 0 [] [] [] [] [].

Definition logq_row (lat : Lattice) (i prev : nat) : list float :=
  subspan (lat_logq lat) ((i * lat_K lat + (if (i =? 0)%nat then 0 else prev)) * lat_K lat) (lat_K lat).
Definition logq (lat : Lattice) (i prev c : nat) : float :=
  f64_at (lat_logq lat) ((i * lat_K lat + (if (i =? 0)%nat then 0 else prev)) * lat_K lat + c).
Definition lat_bias_at (lat : Lattice) (i prev c : nat) : float :=
  nth ((i * lat_K lat + (if (i =? 0)%nat then 0 else prev)) * lat_K lat + c) (lat_bias lat) f32_zero.
Definition token (lat : Lattice) (i c : nat) : Z := nth (i * lat_K lat + c) (lat_ids lat) 0.

(** The embedding the position is biased with: the input token's, then its predecessor's. *)
Definition prev_row (K : nat) (e_in e_cand : list float) (i p : nat) : list float :=
  if (i =? 0)%nat then e_in else subspan e_cand (((i - 1) * K + p) * kRank) kRank.
Definition prev_embed (lat : Lattice) (path : Path) (i : nat) : list float :=
  prev_row (lat_K lat) (lat_e_in lat) (lat_e_cand lat) i (path_at path (i - 1)).

Section Build.
Context (inp : LatticeInput).
#[local] Abbreviation K := (in_K inp).

Definition bias_row (i p : nat) : list float :=
  let prev := prev_row K (take kRank (in_e_in inp)) (in_e_cand inp) i p in
  map (fun c => dot16 prev (drop ((i * K + c) * kRank) (in_h_cand inp)) kRank) (seq 0 K).

Definition score_row (i p : nat) : list float :=
  zip_with (fun l b => f64_add (f32_to_f64 l) (f32_to_f64 b)) (subspan (in_cand_logit inp) (i * K) K) (bias_row i p).

(** Mass outside the candidates, from the anchor row's logsumexp. *)
Definition tail_of (i : nat) : option float :=
  match in_lse_anchor inp with
  | [] => None
  | _ =>
      let la := f32_to_f64 (nth i (in_lse_anchor inp) f32_zero) in
      let s := foldl (fun s sc => f64_add s (dm_exp (f64_sub sc la))) f64_zero (score_row i 0) in
      let rest := f64_sub f64_one s in
      Some (if f_gtb rest f64_zero then f64_add la (dm_log rest) else kNegInf)
  end.

Definition logq_norm (i p : nat) : list float :=
  let score := score_row i p in
  let lse := lse_seq score (tail_of i) in
  map (fun s => f64_sub s lse) score.

(** A [P * K * K] table: at position 0 only row [prev = 0] is filled, the rest are zero. *)
Definition table (row : nat -> nat -> list float) (zero : float) : list float :=
  flat_map (fun i => flat_map (fun p => if (i =? 0)%nat && negb (p =? 0)%nat then repeat zero K else row i p) (seq 0 K))
    (seq 0 kPositions).

Definition build : Result Lattice :=
  _ ← fail_if ((K =? 0)%nat || (kMaxK <? K)%nat) InvalidArgument;
  _ ← fail_if ((length (in_cand_ids inp) <? kPositions * K)%nat || (length (in_cand_logit inp) <? kPositions * K)%nat)
        InvalidArgument;
  _ ← fail_if ((length (in_e_in inp) <? kRank)%nat || (length (in_e_cand inp) <? (kPositions - 1) * K * kRank)%nat ||
               (length (in_h_cand inp) <? kPositions * K * kRank)%nat) InvalidArgument;
  _ ← fail_if (negb (length (in_lse_anchor inp) =? 0)%nat && (length (in_lse_anchor inp) <? kPositions)%nat)
        InvalidArgument;
  Ret (mkLattice K (take (kPositions * K) (in_cand_ids inp)) (take kRank (in_e_in inp))
         (take ((kPositions - 1) * K * kRank) (in_e_cand inp)) (table bias_row f32_zero) (table logq_norm f64_zero)).
End Build.

(** ** Paths *)

Section Paths.
Context (lat : Lattice).
#[local] Abbreviation K := (lat_K lat).

(** Greedy chain: the best candidate given the one before it. *)
Fixpoint chain_from (n i prev : nat) : Path :=
  match n with
  | O => []
  | S n => let c := first_argmax (logq_row lat i prev) in c :: chain_from n (S i) c
  end.

(** Viterbi: [best[c] = max_p v[p] + logq(i, p, c)], the first [p] on a tie. *)
Definition viterbi_step (v : list float) (i : nat) : list float * list nat :=
  split (map (fun c =>
    foldl (fun '(best, back) p =>
        let t := f64_add (f64_at v p) (logq lat i p c) in
        if f_gtb t best then (t, p) else (best, back))
      (f64_add (f64_at v 0) (logq lat i 0 c), 0%nat) (seq 1 (K - 1))) (seq 0 K)).

Fixpoint viterbi_forward (n i : nat) (v : list float) : list float * list (list nat) :=
  match n with
  | O => (v, [])
  | S n => let '(v', back) := viterbi_step v i in
           let '(vf, backs) := viterbi_forward n (S i) v' in (vf, back :: backs)
  end.

(** The path read backwards through the back pointers. *)
Definition backtrack (backs : list (list nat)) (c : nat) : Path :=
  foldr (fun back path => nth (path_at path 0) back 0%nat :: path) [c] backs.

(** Expected accepted length, from the last position to the first:
    [g_i(p) = max_c exp(logq(i, p, c)) * (1 + g_(i+1)(c))]. *)
Definition eal_step (i : nat) (g : list float) : list float * list nat :=
  split (map (fun p =>
    let val := map (fun c => f64_mul (dm_exp (logq lat i p c)) (f64_add f64_one (f64_at g c))) (seq 0 K) in
    let a := first_argmax val in (f64_at val a, a)) (seq 0 (if (i =? 0)%nat then 1 else K))).

Fixpoint eal_choices (n i : nat) : list float * list (list nat) :=
  match n with
  | O => (repeat f64_zero K, [])
  | S n => let '(g, choices) := eal_choices n (S i) in
           let '(g', choice) := eal_step i g in (g', choice :: choices)
  end.

Fixpoint follow (choices : list (list nat)) (prev : nat) : Path :=
  match choices with
  | [] => []
  | choice :: choices => let c := nth prev choice 0%nat in c :: follow choices c
  end.

Definition path (obj : Objective) : Path :=
  match obj with
  | Chain => chain_from kPositions 0 0
  | Viterbi =>
      let '(v, backs) := viterbi_forward (kPositions - 1) 1 (logq_row lat 0 0) in
      backtrack backs (first_argmax v)
  | Eal => follow (eal_choices kPositions 0).2 0
  end.

(** One ancestral sample. *)
Fixpoint sample_from (u : list float) (i prev : nat) : Path :=
  match u with
  | [] => []
  | x :: u => let c := sample_index (map dm_exp (logq_row lat i prev)) x in c :: sample_from u (S i) c
  end.
Definition sample (u : list float) : Path := sample_from (take kPositions u) 0 0.

Fixpoint eal_from (n i : nat) (p : Path) (prev : nat) (tot run : float) : float :=
  match n with
  | O => tot
  | S n =>
      let run := f64_mul run (dm_exp (logq lat i prev (path_at p i))) in
      eal_from n (S i) p (path_at p i) (f64_add tot run) run
  end.
Definition eal_value (p : Path) (k : nat) : float := eal_from k 0 p 0 f64_zero f64_one.

Definition tokens (p : Path) : list Z := map (fun i => token lat i (path_at p i)) (seq 0 kPositions).
End Paths.

(** ** Acceptance *)

Record Accept := mkAccept {
  accepted : nat;
  n_emitted : nat;
  acc_tokens : list Z
}.

(** The loop the three rules share: position [j] of the path is kept while [test j], the
    first one that is not ends the prefix with a correction, and a path kept whole is
    followed by a bonus token. *)
Fixpoint accept_loop (test : nat -> bool) (drafted corrected bonus : nat -> Z) (n j : nat) (toks : list Z) : Accept :=
  match n with
  | O => mkAccept j (j + 1) (<[j := bonus j]> toks)
  | S n =>
      if test j then accept_loop test drafted corrected bonus n (S j) (<[j := drafted j]> toks)
      else mkAccept j (j + 1) (<[j := corrected j]> toks)
  end.

Definition no_tokens : list Z := repeat 0 (kPositions + 1).

Definition accept_greedy (path_tokens argmax : list Z) (k : nat) : Accept :=
  accept_loop (fun a => nth a path_tokens 0 =? nth a argmax 0)
    (fun a => nth a path_tokens 0) (fun a => nth a argmax 0) (fun a => nth a argmax 0) k 0 no_tokens.

Section AcceptSampling.
Context (lat : Lattice) (p : Path).
#[local] Abbreviation K := (lat_K lat).

(** The draft distribution at position [j], given the path before it. *)
Definition qrow (j : nat) : list float :=
  map (fun c => dm_exp (logq lat j (if (j =? 0)%nat then 0%nat else path_at p (j - 1)) c)) (seq 0 K).

(** Acceptance against top-Kv rows. *)
Section TopKv.
Context (ver_ids : list Z) (ver_logit : list float) (Kv : nat) (u_acc u_res : list float).

Definition target (j : nat) : list float :=
  let pl := map f32_to_f64 (subspan ver_logit (j * Kv) Kv) in
  let lse := lse_seq pl None in
  map (fun l => dm_exp (f64_sub l lse)) pl.
Definition ver_id (j v : nat) : Z := nth (j * Kv + v) ver_ids 0.

(** The value beside the first key equal to [x], 0 when there is none. *)
Definition mass_of (keys : list Z) (vals : list float) (x : Z) : float :=
  match list_find (fun kv => kv.1 = x) (zip keys vals) with Some (_, (_, v)) => v | None => f64_zero end.

Definition residual (j : nat) : list float :=
  zip_with (fun v pv => let d := f64_sub pv (mass_of (map (token lat j) (seq 0 K)) (qrow j) (ver_id j v)) in
                        if f_gtb d f64_zero then d else f64_zero) (seq 0 Kv) (target j).

Definition accept_sampling (k : nat) : Accept :=
  let x j := token lat j (path_at p j) in
  accept_loop
    (fun j => f_ltb (f64_mul (f64_at u_acc j) (f64_at (qrow j) (path_at p j)))
                (mass_of (subspan ver_ids (j * Kv) Kv) (target j) (x j)))
    x
    (fun j => let res := residual j in
              ver_id j (if f_gtb (sum64 res) f64_zero then sample_index res (f64_at u_res j) else first_argmax (target j)))
    (fun j => ver_id j (sample_index (target j) (f64_at u_res j)))
    k 0 no_tokens.
End TopKv.

(** Acceptance lossless against plain sampling at temperature 1. *)
Section Exact.
Context (cand_logit : list float) (stride : nat) (lse : list float) (masked full : list Z) (u_acc u_res : list float).

Definition prow (j : nat) : list float :=
  map (fun l => dm_exp (f64_sub (f32_to_f64 l) (f32_to_f64 (nth j lse f32_zero)))) (subspan cand_logit (j * stride) K).

Definition exact_correction (j : nat) : Z :=
  let pc := prow j in
  let w := zip_with (fun a b => let d := f64_sub a b in if f_gtb d f64_zero then d else f64_zero) pc (qrow j) in
  let sw := sum64 w in
  let rest := f64_sub f64_one (sum64 pc) in
  let rest := if f_gtb rest f64_zero then rest else f64_zero in
  let t := f64_mul (f64_at u_res j) (f64_add sw rest) in
  if f_ltb t sw then
    let '(pick, last) := sample_scan w t 0 f64_zero 0 in
    token lat j (match pick with Some i => i | None => last end)
  else nth j masked 0.

Definition accept_sampling_exact (k : nat) : Accept :=
  accept_loop
    (fun j => f_ltb (f64_mul (f64_at u_acc j) (f64_at (qrow j) (path_at p j))) (f64_at (prow j) (path_at p j)))
    (fun j => token lat j (path_at p j)) exact_correction (fun j => nth j full 0) k 0 no_tokens.
End Exact.
End AcceptSampling.
