(* ===== verification/Speculate.v ===== *)
(** The speculative decoding cycle ([runtime/speculate.h], [runtime/speculate.cpp]): draft,
    verify, accept, roll back, commit; its statistics; and the top-K acceptance rule.

    The model the cycle drives is a [SpecModel]: a record of state-passing operations, the
    virtual functions of the class.  Wall-clock fields are not modelled. *)

From S2P Require Import Prelude Floats DsparkTree.

(** ** Prefix rules *)

(** [while (k < size && test(v[k])) ++k] *)
Fixpoint prefix_length {A} (test : A -> bool) (l : list A) : nat :=
  match l with
  | [] => 0
  | x :: l => if test x then S (prefix_length test l) else 0
  end.

Definition draft_prefix_from_confidence (confidence : list float) (minimum : float) : Result nat :=
  _ ← fail_if ((5 <? length confidence)%nat || negb (f_isfinite minimum)) InvalidArgument;
  _ ← fail_if (existsb (fun c => negb (f_isfinite c)) confidence) InvalidArgument;
  Ret (prefix_length (fun c => f_geb c minimum) confidence).

(** How many entries of the row beat [value] for token [draft]: larger, or equal with a lower id. *)
Fixpoint count_better (row : list float) (value : float) (draft id better : Z) : Result Z :=
  match row with
  | [] => Ret better
  | x :: row =>
      _ ← fail_if (negb (f_isfinite x)) InvalidArgument;
      count_better row value draft (id + 1)
        (if f_gtb x value || (f_eqb x value && (id <? draft)) then better + 1 else better)
  end.

Fixpoint accept_topk_from (draft : list Z) (matrix : list float) (vocab topk : Z) (j acc : nat) : Result nat :=
  match draft with
  | [] => Ret acc
  | d :: draft =>
      _ ← fail_if (vocab <=? d) OutOfRange;
      let row := subspan matrix (j * Z.to_nat vocab) (Z.to_nat vocab) in
      let value := nth (Z.to_nat d) row f32_zero in
      _ ← fail_if (negb (f_isfinite value)) InvalidArgument;
      better ← count_better row value d 0 0;
      if topk <=? better then Ret acc else accept_topk_from draft matrix vocab topk (S j) (S acc)
  end.

Definition accept_topk_prefix (draft : list Z) (matrix : list float) (vocab topk : Z) : Result nat :=
  _ ← fail_if ((vocab =? 0) || (topk =? 0) || (vocab <? topk) ||
               negb (Z.of_nat (length matrix) =? u64 ((Z.of_nat (length draft) + 1) * vocab))) InvalidArgument;
  accept_topk_from draft matrix vocab topk 0 0.

(** ** Configuration and accounting *)

Inductive SpecMode := SpecOff | SpecGreedy | SpecSample.
#[export] Instance SpecMode_eq_dec : EqDecision SpecMode.
Proof. solve_decision. Defined.

Definition spec_mode_name (m : SpecMode) : string :=
  match m with SpecOff => "off" | SpecGreedy => "greedy" | SpecSample => "sample" end.

Definition parse_spec_mode (s : string) : Result SpecMode :=
  if String.eqb s "off" then Ret SpecOff
  else if String.eqb s "greedy" then Ret SpecGreedy
  else if String.eqb s "sample" then Ret SpecSample
  else Fail InvalidArgument.

Record SpecConfig := mkSpecConfig {
  cfg_mode : SpecMode;
  cfg_k : nat;
  cfg_theta : float;
  cfg_lattice_k : nat;
  cfg_objective : Objective;
  cfg_seed : Z
}.

Definition kDsVerifyMaxCand : nat := 64.

Record SpecCycle := mkSpecCycle {
  c_k : nat;
  c_accepted : nat;
  c_emitted : nat;
  c_gpu_readout : bool;
  c_union_experts : Z;
  c_miss_bytes : Z
}.

Record SpecStats := mkSpecStats {
  s_cycles : Z;
  s_tokens : Z;
  s_accepted : Z;
  s_verified : Z;
  s_gpu_readout_cycles : Z;
  s_union_experts : Z;
  s_miss_bytes : Z
}.

Definition stats_add (st : SpecStats) (c : SpecCycle) : SpecStats :=
  mkSpecStats (u64 (s_cycles st + 1)) (u64 (s_tokens st + Z.of_nat (c_emitted c)))
    (u64 (s_accepted st + Z.of_nat (c_accepted c))) (u64 (s_verified st + Z.of_nat (c_k c)))
    (u64 (s_gpu_readout_cycles st + Z.b2z (c_gpu_readout c)))
    (u64 (s_union_experts st + c_union_experts c)) (u64 (s_miss_bytes st + c_miss_bytes c)).

(** ** What a cycle needs from the model *)

Record DsparkVerifyRow := mkVerifyRecord {
  vr_rows : Z;
  vr_max_logit : float;
  vr_lse : float;
  vr_masked_token : Z;
  vr_full_token : Z;
  vr_n_cand : nat;
  vr_masked_key : float;
  vr_full_key : float;
  vr_cand_logit : list float
}.
Definition no_record : DsparkVerifyRow :=
  mkVerifyRecord 0 f32_zero f32_zero 0 0 0 f32_zero f32_zero (repeat f32_zero kDsVerifyMaxCand).

Record VerifyRow := mkVerifyRow { row_argmax : Z; row_top1 : float; row_top2 : float; row_exact : DsparkVerifyRow }.
Definition no_row : VerifyRow := mkVerifyRow 0 f32_zero f32_zero no_record.

Record SpecModel (M : Type) := mkSpecModel {
  draft_forward : Z -> Z -> nat -> M -> Result (Lattice * list float) * M;
  verify_forward : Z -> list Z -> list Z -> nat -> bool -> M -> Result (list VerifyRow) * M;
  snapshot_ring : Z -> nat -> M -> Result unit * M;
  restore_ring : Z -> nat -> nat -> M -> Result unit * M;
  commit : Z -> list Z -> M -> Result unit * M;
  last_union_experts : M -> Z;
  last_miss_bytes : M -> Z
}.
Arguments draft_forward {M}.
Arguments verify_forward {M}.
Arguments snapshot_ring {M}.
Arguments restore_ring {M}.
Arguments commit {M}.
Arguments last_union_experts {M}.
Arguments last_miss_bytes {M}.

(** ** The cycle *)

Record Speculator (M : Type) := mkSpeculator {
  sp_model : M;
  sp_cfg : SpecConfig;
  sp_stats : SpecStats;
  sp_last_k : nat;
  sp_rng : Z
}.
Arguments mkSpeculator {M}.
Arguments sp_model {M}.
Arguments sp_cfg {M}.
Arguments sp_stats {M}.
Arguments sp_last_k {M}.
Arguments sp_rng {M}.

Definition with_model {M} (sp : Speculator M) (m : M) : Speculator M :=
  mkSpeculator m (sp_cfg sp) (sp_stats sp) (sp_last_k sp) (sp_rng sp).
Definition with_rng {M} (sp : Speculator M) (rng : Z) : Speculator M :=
  mkSpeculator (sp_model sp) (sp_cfg sp) (sp_stats sp) (sp_last_k sp) rng.
Definition with_last_k {M} (sp : Speculator M) (k : nat) : Speculator M :=
  mkSpeculator (sp_model sp) (sp_cfg sp) (sp_stats sp) k (sp_rng sp).
Definition with_stats {M} (sp : Speculator M) (st : SpecStats) : Speculator M :=
  mkSpeculator (sp_model sp) (sp_cfg sp) st (sp_last_k sp) (sp_rng sp).

(** splitmix64, then 53 bits mapped into (0, 1). *)
Definition next_u (rng : Z) : float * Z :=
  let rng := u64 (rng + 0x9E3779B97F4A7C15) in
  let z := rng in
  let z := u64 (Z.lxor z (Z.shiftr z 30) * 0xBF58476D1CE4E5B9) in
  let z := u64 (Z.lxor z (Z.shiftr z 27) * 0x94D049BB133111EB) in
  let z := Z.lxor z (Z.shiftr z 31) in
  (f64_mul (f64_add (f64_of_Z (Z.shiftr z 11)) (f64_lit 1 (-1))) (f64_lit 1 (-53)), rng).

Fixpoint draws (n : nat) (rng : Z) : list float * Z :=
  match n with
  | O => ([], rng)
  | S n => let '(u, rng) := next_u rng in let '(us, rng) := draws n rng in (u :: us, rng)
  end.

(** [static_cast<int32_t>] of a [uint32_t]. *)
Definition i32 (x : Z) : Z := if u32 x <? 2 ^ 31 then u32 x else u32 x - 2 ^ 32.

(** The draft length: fixed, or chosen by the confidence head; never zero. *)
Definition choose_k (cfg : SpecConfig) (conf : list float) : nat :=
  let k := if (cfg_k cfg =? 0)%nat then k_from_confidence conf (cfg_theta cfg) else Nat.min (cfg_k cfg) kPositions in
  if (k =? 0)%nat then 1%nat else k.

(** Row [j]'s candidates, [-1] past the lattice's. *)
Definition verify_candidates (lat : Lattice) (K m : nat) : list Z :=
  flat_map (fun j => if (j <? kPositions)%nat
                     then map (token lat j) (seq 0 K) ++ repeat (-1) (kDsVerifyMaxCand - K)
                     else repeat (-1) kDsVerifyMaxCand) (seq 0 m).

Definition row_at (rows : list VerifyRow) (j : nat) : VerifyRow := nth j rows no_row.

(** Acceptance from the verified rows; the sampling rule draws its uniforms first. *)
Definition accept_rows (cfg : SpecConfig) (lat : Lattice) (p : Path) (k : nat) (rows : list VerifyRow) (rng : Z)
    : Accept * Z :=
  let m := (k + 1)%nat in
  match cfg_mode cfg with
  | SpecGreedy =>
      (accept_greedy (take k (tokens lat p)) (map (fun j => i32 (row_argmax (row_at rows j))) (seq 0 m)) k, rng)
  | _ =>
      let exact j := row_exact (row_at rows j) in
      let K := cfg_lattice_k cfg in
      let cand_logit := flat_map (fun j =>
        if (j <? m)%nat then take K (vr_cand_logit (exact j)) ++ repeat f32_zero (kDsVerifyMaxCand - K)
        else repeat f32_zero kDsVerifyMaxCand) (seq 0 kPositions) in
      let lse := map (fun j => vr_lse (exact j)) (seq 0 m) in
      let full := map (fun j => i32 (vr_full_token (exact j))) (seq 0 m) in
      let masked := map (fun j => i32 (vr_masked_token (exact j))) (seq 0 k) in
      let '(u_acc, rng) := draws kPositions rng in
      let '(u_res, rng) := draws (kPositions + 1) rng in
      (accept_sampling_exact lat p cand_logit kDsVerifyMaxCand lse masked full u_acc u_res k, rng)
  end.

(** The path: the objective's in greedy mode, an ancestral sample otherwise. *)
Definition choose_path (cfg : SpecConfig) (lat : Lattice) (rng : Z) : Path * Z :=
  match cfg_mode cfg with
  | SpecSample => let '(u, rng) := draws kPositions rng in (sample lat u, rng)
  | _ => (path lat (cfg_objective cfg), rng)
  end.

Definition emitted_tokens (acc : Accept) : list Z := map u32 (take (n_emitted acc) (acc_tokens acc)).

Section Cycle.
Context {M : Type} (ops : SpecModel M).

(** Step 6: the rejected positions' ring slots, the commit, the accounting. *)
Definition roll_back_and_commit (p0 : Z) (k : nat) (acc : Accept) (sp : Speculator M) (out : list Z)
    : Result SpecCycle * Speculator M * list Z :=
  let c := mkSpecCycle k (accepted acc) (n_emitted acc) false
             (last_union_experts ops (sp_model sp)) (last_miss_bytes ops (sp_model sp)) in
  let '(r, st) := if (accepted acc <? k)%nat then restore_ring ops p0 (accepted acc) (k + 1) (sp_model sp)
                  else (Ret tt, sp_model sp) in
  let sp := with_model sp st in
  match r with
  | Fail e => (Fail e, sp, out)
  | Ret _ =>
      let emitted := emitted_tokens acc in
      let '(r, st) := commit ops p0 emitted (sp_model sp) in
      let sp := with_model sp st in
      match r with
      | Fail e => (Fail e, sp, out)
      | Ret _ => (Ret c, with_stats sp (stats_add (sp_stats sp) c), out ++ emitted)
      end
  end.

(** Steps 4 and 5: the verify batch and the acceptance. *)
Definition verify_and_commit (p0 last_token : Z) (lat : Lattice) (p : Path) (k : nat) (sp : Speculator M)
    (out : list Z) : Result SpecCycle * Speculator M * list Z :=
  let cfg := sp_cfg sp in
  let m := (k + 1)%nat in
  let batch := last_token :: map u32 (take k (tokens lat p)) in
  let exact := bool_decide (cfg_mode cfg = SpecSample) in
  let cand := if exact then verify_candidates lat (cfg_lattice_k cfg) m else [] in
  let '(r, st) := snapshot_ring ops p0 m (sp_model sp) in
  let sp := with_model sp st in
  match r with
  | Fail e => (Fail e, sp, out)
  | Ret _ =>
      let '(r, st) := verify_forward ops p0 batch cand kDsVerifyMaxCand exact (sp_model sp) in
      let sp := with_model sp st in
      match r with
      | Fail e => (Fail e, sp, out)
      | Ret rows =>
          let '(acc, rng) := accept_rows cfg lat p k rows (sp_rng sp) in
          roll_back_and_commit p0 k acc (with_rng sp rng) out
      end
  end.

Definition cycle (p0 last_token : Z) (sp : Speculator M) (out : list Z) : Result SpecCycle * Speculator M * list Z :=
  let cfg := sp_cfg sp in
  if bool_decide (cfg_mode cfg = SpecOff) then (Fail FailedPrecondition, sp, out)
  else if (cfg_lattice_k cfg =? 0)%nat || (kDsVerifyMaxCand <? cfg_lattice_k cfg)%nat
  then (Fail InvalidArgument, sp, out)
  else
    let sp := if sp_rng sp =? 0 then with_rng sp (cfg_seed cfg) else sp in
    let '(r, st) := draft_forward ops p0 last_token (cfg_lattice_k cfg) (sp_model sp) in
    let sp := with_model sp st in
    match r with
    | Fail e => (Fail e, sp, out)
    | Ret (lat, conf) =>
        let k := choose_k cfg conf in
        let sp := with_last_k sp k in
        let '(p, rng) := choose_path cfg lat (sp_rng sp) in
        verify_and_commit p0 last_token lat p k (with_rng sp rng) out
    end.

(** Decoding is a sequence of cycles: each starts after the tokens the previous one
    emitted, from the last of them. *)
Fixpoint decode (n : nat) (p0 last_token : Z) (sp : Speculator M) (out : list Z) : Result Z * Speculator M * list Z :=
  match n with
  | O => (Ret p0, sp, out)
  | S n =>
      let '(r, sp, out) := cycle p0 last_token sp out in
      match r with
      | Fail e => (Fail e, sp, out)
      | Ret c => decode n (p0 + Z.of_nat (c_emitted c)) (List.last out last_token) sp out
      end
  end.
End Cycle.
