(* ===== verification/VerifyRow.v ===== *)
(** The host mirror of the verify-row kernel ([runtime/speculate.cpp], [emulate_verify_row]):
    the counter-based hash, the Gumbel keys, the 256-lane strided passes and the fixed-shape
    reduction trees.  [std::exp] and [std::log] on [float] are arguments. *)

From S2P Require Import Prelude Floats DsparkTree Speculate.

Definition kWg : nat := 256.

Definition mix32 (z : Z) : Z :=
  let z := Z.lxor z (Z.shiftr z 16) in
  let z := u32 (z * 0x7FEB352D) in
  let z := Z.lxor z (Z.shiftr z 15) in
  let z := u32 (z * 0x846CA68B) in
  Z.lxor z (Z.shiftr z 16).

Definition verify_hash3 (a b c : Z) : Z :=
  mix32 (Z.lxor (Z.lxor (mix32 (Z.lxor a 0x9E3779B9)) (mix32 (u32 (b + 0x85EBCA6B)))) (u32 (c * 0xC2B2AE35))).

Definition verify_u01 (h : Z) : float :=
  f32_mul (f32_add (f32_of_Z (Z.shiftr h 8)) (f32_lit 1 (-1))) (f32_lit 1 (-24)).

(** The lowest key a lane starts from: [-3.0e38f]. *)
Definition f32_lowest : float := f32_of_bits 0xFF61B1E6.

(** The indices lane [t] visits: [for (i = t; i < rows; i += kWg)]. *)
Definition strided (t rows : nat) : list nat := map (fun q => (t + q * kWg)%nat) (seq 0 ((rows - t + (kWg - 1)) / kWg)).

(** [for (s = kWg / 2; s > 0; s /= 2) for (t < s) red[t] = op(red[t], red[t + s])], read off
    lane 0: [n] is the number of rounds left, each halving the live lanes. *)
Fixpoint reduce_tree {A} (op : A -> A -> A) (n : nat) (lanes : list A) : list A :=
  match n with
  | O => lanes
  | S n => reduce_tree op n (zip_with op (take (2 ^ n) lanes) (drop (2 ^ n) lanes))
  end.
Definition tree_root {A} (op : A -> A -> A) (d : A) (lanes : list A) : A := nth 0 (reduce_tree op 8 lanes) d.

Definition lanes {A} (pass : nat -> A) : list A := map pass (seq 0 kWg).

(** The candidate list, ascending: stops at the first negative entry or at 64. *)
Fixpoint upper_insert (v : Z) (l : list Z) : list Z :=
  match l with
  | [] => [v]
  | y :: l' => if v <? y then v :: l else y :: upper_insert v l'
  end.
Fixpoint sorted_candidates (cand : list Z) (sorted : list Z) : list Z :=
  match cand with
  | [] => sorted
  | v :: cand =>
      if v <? 0 then sorted
      else if (kDsVerifyMaxCand <=? length sorted)%nat then sorted
      else sorted_candidates cand (upper_insert v sorted)
  end.

(** A key and the token it belongs to. *)
Definition Keyed : Type := float * nat.

(** One lane of a Gumbel-max pass: the first strictly greatest key. *)
Definition lane_argmax (keep : nat -> bool) (key : nat -> float) (ids : list nat) : Keyed :=
  foldl (fun '(k, id) i => if keep i && f_gtb (key i) k then (key i, i) else (k, id)) (f32_lowest, 0%nat) ids.

(** Two lanes: the greater key, the lower id on a tie. *)
Definition argmax_op (a b : Keyed) : Keyed :=
  if f_gtb b.1 a.1 || (f_eqb b.1 a.1 && (b.2 <? a.2)%nat) then b else a.

Definition argmax_pass (keep : nat -> bool) (key : nat -> float) (rows : nat) : Keyed :=
  tree_root argmax_op (f32_lowest, 0%nat) (lanes (fun t => lane_argmax keep key (strided t rows))).

Section Emulate.
Context (std_exp std_log : float -> float).

Definition verify_gumbel (seed row id : Z) : float :=
  f_neg (std_log (f_neg (std_log (verify_u01 (verify_hash3 seed row id))))).

(** The key of token [i]: its logit scaled, plus the Gumbel noise of its counter. *)
Definition gumbel_key (logits : list float) (seed row : Z) (inv_t : float) (i : nat) : float :=
  f32_add (f32_mul (nth i logits f32_zero) inv_t) (verify_gumbel seed row (Z.of_nat i)).

Definition row_max (logits : list float) : float :=
  tree_root f_max f32_lowest
    (lanes (fun t => foldl (fun m i => f_max m (nth i logits f32_zero)) f32_lowest (strided t (length logits)))).

Definition row_sum (logits : list float) (mx : float) : float :=
  tree_root f32_add f32_zero
    (lanes (fun t => foldl (fun acc i => f32_add acc (std_exp (f32_sub (nth i logits f32_zero) mx))) f32_zero
                       (strided t (length logits)))).

Definition emulate_verify_row (logits : list float) (cand : list Z) (seed row : Z) (inv_t : float) : DsparkVerifyRow :=
  let rows := length logits in
  let sorted := sorted_candidates cand [] in
  let is_cand i := existsb (Z.eqb (Z.of_nat i)) sorted in
  let mx := row_max logits in
  let lse := f32_add mx (std_log (row_sum logits mx)) in
  let key := gumbel_key logits seed row inv_t in
  let all := argmax_pass (fun _ => true) key rows in
  let msk := argmax_pass (fun i => negb (is_cand i)) key rows in
  let cl v := if (0 <=? v) && (v <? Z.of_nat rows) then nth (Z.to_nat v) logits f32_zero else f32_lowest in
  let first := take kDsVerifyMaxCand cand in
  mkVerifyRecord (Z.of_nat rows) mx lse (Z.of_nat msk.2) (Z.of_nat all.2) (length sorted) msk.1 all.1
    (map cl first ++ repeat f32_zero (kDsVerifyMaxCand - length first)).
End Emulate.
