(* ===== verification/SpeculateProps.v ===== *)
(** Theorems about speculative decoding: the reduction trees of the verify row, the paths and
    the acceptance rules, and the token stream a sequence of cycles emits. *)

From S2P Require Import Prelude Floats DsparkTree Speculate VerifyRow.

(** ** The tree is a global argmax *)

(** [r] is the winner among the ids of [P]: the greatest key, the lowest id on a tie; the
    lanes' initial value stands where no key exceeds it. *)
Definition wins (P : nat -> Prop) (key : nat -> float) (r : Keyed) : Prop :=
  (r = (f32_lowest, 0%nat) /\ forall i, P i -> f_gtb (key i) f32_lowest = false) \/
  (exists i, P i /\ r = (key i, i) /\ f_gtb (key i) f32_lowest = true /\
     forall j, P j -> f_gtb (key j) (key i) = false /\ (f_eqb (key j) (key i) = true -> (i <= j)%nat)).

Lemma gtb_trans x y z : f_gtb x y = true -> f_gtb y z = true -> f_gtb x z = true.
Proof. unfold f_gtb. eauto using f_ltb_trans. Qed.

(** An id below the initial value is no rival of one above it. *)
Lemma loser_below x y : f_gtb x f32_lowest = false -> f_gtb y f32_lowest = true ->
  f_gtb x y = false /\ f_eqb x y = false.
Proof.
  intros Hx Hy. split; apply not_true_iff_false; intros H; apply not_true_iff_false in Hx; apply Hx.
  - by eapply gtb_trans.
  - unfold f_gtb in *. by rewrite (f_eqb_ltb_r _ _ _ H).
Qed.

Section Wins.
Context (key : nat -> float).

(** The rival test of [argmax_op]. *)
Definition beats (b a : Keyed) : bool := f_gtb b.1 a.1 || (f_eqb b.1 a.1 && (b.2 <? a.2)%nat).

Lemma wins_stay P Q i : P i -> f_gtb (key i) f32_lowest = true ->
  (forall j, P j \/ Q j -> f_gtb (key j) (key i) = false /\ (f_eqb (key j) (key i) = true -> (i <= j)%nat)) ->
  wins (fun j => P j \/ Q j) key (key i, i).
Proof. intros HP Hi H. right. exists i. auto. Qed.

(** If [b] does not beat [a], nothing that [b] dominates beats it either. *)
Lemma dominated i b j : f_gtb (key i) f32_lowest = true -> f_gtb (key b) f32_lowest = true ->
  beats (key b, b) (key i, i) = false ->
  f_gtb (key j) (key b) = false -> (f_eqb (key j) (key b) = true -> (b <= j)%nat) ->
  f_gtb (key j) (key i) = false /\ (f_eqb (key j) (key i) = true -> (i <= j)%nat).
Proof.
  unfold beats, f_gtb. cbn. intros Hi Hb Hn Hj He.
  apply orb_false_iff in Hn as [Hlt Htie].
  pose proof (f_ltb_nan _ _ Hi) as [_ Ni]. pose proof (f_ltb_nan _ _ Hb) as [_ Nb].
  split.
  - apply not_true_iff_false. intros H. pose proof (f_ltb_nan _ _ H) as [_ Nj].
    destruct (f_trichotomy (key b) (key i) Nb Ni) as [E|[E|E]]; [|
      by rewrite (f_eqb_ltb_l _ _ _ E), H in Hj|by rewrite E in Hlt].
    by rewrite (f_ltb_trans _ _ _ E H) in Hj.
  - intros E.
    assert (f_isnan (key j) = false) as Nj.
    { destruct (f_isnan (key j)) eqn:Nj; [|done]. by destruct (key j). }
    destruct (f_trichotomy (key b) (key i) Nb Ni) as [E'|[E'|E']]; [| |by rewrite E' in Hlt].
    + by rewrite <- (f_eqb_ltb_r _ _ _ E) in E'; rewrite E' in Hj.
    + rewrite E' in Htie. cbn in Htie. apply Nat.ltb_ge in Htie.
      specialize (He (f_eqb_trans _ _ _ E (f_eqb_sym _ _ E'))). lia.
Qed.

(** If [b] beats [a], nothing that [a] dominates beats [b]. *)
Lemma dominated_r i b j : f_gtb (key i) f32_lowest = true -> f_gtb (key b) f32_lowest = true ->
  beats (key b, b) (key i, i) = true ->
  f_gtb (key j) (key i) = false -> (f_eqb (key j) (key i) = true -> (i <= j)%nat) ->
  f_gtb (key j) (key b) = false /\ (f_eqb (key j) (key b) = true -> (b <= j)%nat).
Proof.
  unfold beats. cbn. intros Hi Hb Hn Hj He.
  apply (dominated b i j); auto. unfold beats, f_gtb. cbn.
  apply orb_true_iff in Hn as [Hn|Hn].
  - unfold f_gtb in Hn. rewrite (f_ltb_asym _ _ Hn). cbn.
    destruct (f_eqb (key i) (key b)) eqn:E; [|done]. apply f_eqb_sym in E.
    by rewrite (f_eqb_ltb_r _ _ _ E), f_ltb_irrefl in Hn.
  - apply andb_true_iff in Hn as [E Hlt]. apply Nat.ltb_lt in Hlt.
    rewrite (f_eqb_not_ltb _ _ E). cbn. rewrite (f_eqb_sym _ _ E). cbn. apply Nat.ltb_ge. lia.
Qed.

Lemma wins_op P Q a b : wins P key a -> wins Q key b -> wins (fun j => P j \/ Q j) key (argmax_op a b).
Proof.
  unfold argmax_op. fold (beats b a).
  intros [[-> Ha]|(i & Pi & -> & Hi & Hai)] [[-> Hb]|(k & Qk & -> & Hk & Hbk)].
  - left. split; [by destruct (beats _ _)|]. naive_solver.
  - unfold beats. cbn [fst snd]. rewrite Hk. cbn [orb].
    right. exists k. split; [auto|split; [done|split; [done|]]]. intros j [Hj|Hj]; [|auto].
    destruct (loser_below _ _ (Ha j Hj) Hk) as [-> ->]. done.
  - unfold beats. cbn [fst snd]. unfold f_gtb at 1. rewrite (f_ltb_asym _ _ Hi).
    replace (f_eqb f32_lowest (key i)) with false.
    + cbn [orb andb]. apply wins_stay; [done..|]. intros j [Hj|Hj]; [auto|].
      destruct (loser_below _ _ (Hb j Hj) Hi) as [-> ->]. done.
    + symmetry. apply not_true_iff_false. intros E. unfold f_gtb in Hi.
      by rewrite (f_eqb_ltb_l _ _ _ E), f_ltb_irrefl in Hi.
  - destruct (beats (key k, k) (key i, i)) eqn:E.
    + right. exists k. split; [auto|split; [done|split; [done|]]]. intros j [Hj|Hj]; [|auto].
      destruct (Hai j Hj). by apply (dominated_r i k j).
    + apply wins_stay; [done..|]. intros j [Hj|Hj]; [auto|]. destruct (Hbk j Hj). by apply (dominated i k j).
Qed.

Lemma wins_ext P Q r : (forall j, P j <-> Q j) -> wins P key r -> wins Q key r.
Proof.
  intros H [[-> Ha]|(i & Pi & -> & Hi & Hai)]; [left|right].
  - split; [done|]. intros i Hq. by apply Ha, H.
  - exists i. split; [by apply H|]. split; [done|split; [done|]]. intros j Hq. by apply Hai, H.
Qed.

Lemma wins_unique P r r' : wins P key r -> wins P key r' -> r = r'.
Proof.
  intros [[-> Ha]|(i & Pi & -> & Hi & Hai)] [[-> Hb]|(k & Pk & -> & Hk & Hbk)]; [done|..].
  - by rewrite (Ha k Pk) in Hk.
  - by rewrite (Hb i Pi) in Hi.
  - destruct (Hai k Pk) as [Hki Eki], (Hbk i Pi) as [Hik Eik].
    pose proof (f_ltb_nan _ _ Hi) as [_ Ni]. pose proof (f_ltb_nan _ _ Hk) as [_ Nk].
    destruct (f_trichotomy (key i) (key k) Ni Nk) as [E|[E|E]];
      [unfold f_gtb in Hki; congruence| |unfold f_gtb in Hik; congruence].
    specialize (Eik E). specialize (Eki (f_eqb_sym _ _ E)). by replace k with i by lia.
Qed.

(** ** Lanes *)

Lemma wins_not_below P r : wins P key r -> f_gtb f32_lowest r.1 = false /\ (f_eqb f32_lowest r.1 && (0 <? r.2)%nat) = false.
Proof.
  intros [[-> Ha]|(i & Pi & -> & Hi & Hai)]; [done|]. unfold f_gtb in *. cbn.
  rewrite (f_ltb_asym _ _ Hi). split; [done|].
  replace (f_eqb f32_lowest (key i)) with false; [done|].
  symmetry. apply not_true_iff_false. intros E. by rewrite (f_eqb_ltb_l _ _ _ E), f_ltb_irrefl in Hi.
Qed.

Lemma wins_above P r x : wins P key r -> f_gtb x r.1 = true -> f_gtb x f32_lowest = true.
Proof. intros [[-> Ha]|(i & Pi & -> & Hi & Hai)] H; [done|]. by eapply gtb_trans. Qed.

(** One more id at the end of an ascending lane. *)
Lemma wins_step (keep : nat -> bool) P r i : wins P key r -> (forall j, P j -> (j < i)%nat) ->
  wins (fun j => P j \/ (j = i /\ keep i = true)) key
    (if keep i && f_gtb (key i) r.1 then (key i, i) else r).
Proof.
  intros Hr Hlt. destruct (keep i) eqn:Ek.
  2:{ eapply wins_ext; [|exact Hr]. naive_solver. }
  destruct (f_gtb (key i) f32_lowest) eqn:Ei.
  - assert (wins (fun j => j = i /\ true = true) key (key i, i)) as Hi.
    { right. exists i. split; [done|]. split; [done|]. split; [done|].
      intros j [-> _]. split; [apply f_ltb_irrefl|done]. }
    pose proof (wins_op _ _ _ _ Hr Hi) as H.
    unfold argmax_op in H. cbn [fst snd] in H. cbn [andb].
    destruct (f_gtb (key i) r.1) eqn:Eg; [done|]. cbn [orb] in H.
    replace (_ && _) with false in H; [done|]. symmetry. apply andb_false_iff. right. apply Nat.ltb_ge.
    destruct Hr as [[-> _]|(k & Pk & -> & _)]; cbn; [lia|]. specialize (Hlt k Pk). lia.
  - replace (f_gtb (key i) r.1) with false.
    + cbn [andb]. destruct Hr as [[-> Ha]|(k & Pk & -> & Hk & Hak)].
      * left. split; [done|]. naive_solver.
      * apply wins_stay; [done..|]. intros j [Hj|[-> _]]; [auto|].
        destruct (loser_below _ _ Ei Hk) as [-> ->]. done.
    + symmetry. apply not_true_iff_false. intros E. apply (wins_above _ _ _ Hr) in E. congruence.
Qed.

Lemma lane_wins (keep : nat -> bool) ids : StronglySorted lt ids ->
  wins (fun j => In j ids /\ keep j = true) key (lane_argmax keep key ids).
Proof.
  induction ids as [|i ids IH] using rev_ind; intros Hs.
  - left. split; [done|]. by intros i [[] _].
  - unfold lane_argmax. rewrite foldl_app. cbn [foldl].
    apply StronglySorted_app in Hs as (Hx & Hs & _). specialize (IH Hs).
    fold (lane_argmax keep key ids). destruct (lane_argmax keep key ids) as [k id] eqn:E.
    pose proof (wins_step keep _ (k, id) i IH) as H. cbn [fst] in H.
    eapply wins_ext; [|apply H].
    + intros j. rewrite in_app_iff. cbn. naive_solver.
    + intros j [Hj _]. apply (Hx j i); [by apply list_elem_of_In|by left].
Qed.
End Wins.

(** ** The tree *)

Lemma tree_wins key n P l d : length l = (2 ^ n)%nat ->
  (forall t r, l !! t = Some r -> wins (P t) key r) ->
  wins (fun j => exists t, (t < 2 ^ n)%nat /\ P t j) key (nth 0 (reduce_tree argmax_op n l) d).
Proof.
  revert P l. induction n as [|n IH]; intros P l Hl HP.
  - destruct l as [|r [|]]; try done. cbn. eapply wins_ext; [|apply (HP 0%nat); done].
    intros j. split; [intros; exists 0%nat; split; [lia|done]|intros (t & Ht & H); by replace t with 0%nat in H by lia].
  - cbn [reduce_tree]. rewrite Nat.pow_succ_r' in Hl.
    eapply wins_ext; [|apply (IH (fun t j => P t j \/ P (t + 2 ^ n)%nat j))].
    + intros j. rewrite Nat.pow_succ_r'. split.
      * intros (t & Ht & [H|H]); [exists t|exists (t + 2 ^ n)%nat]; (split; [lia|done]).
      * intros (t & Ht & H). destruct (Nat.lt_ge_cases t (2 ^ n)); [exists t; auto|].
        exists (t - 2 ^ n)%nat. split; [lia|]. right. by replace (t - 2 ^ n + 2 ^ n)%nat with t by lia.
    + rewrite length_zip_with, length_take, length_drop. lia.
    + intros t r H. apply lookup_zip_with_Some in H as (a & b & -> & Ha & Hb).
      apply lookup_take_Some in Ha as [Ha _]. rewrite lookup_drop in Hb.
      apply wins_op; apply HP; [done|]. by rewrite Nat.add_comm.
Qed.

Lemma strided_spec t rows i : (t < kWg)%nat -> In i (strided t rows) <-> (i < rows /\ i mod kWg = t)%nat.
Proof.
  unfold strided, kWg. intros Ht. rewrite in_map_iff. setoid_rewrite in_seq. split.
  - intros (q & <- & Hq). div_lia.
  - intros [Hi Hm]. exists (i / 256)%nat. div_lia.
Qed.

Lemma seq_sorted a n : StronglySorted lt (seq a n).
Proof.
  revert a. induction n as [|n IH]; intros a; cbn; constructor; [apply IH|].
  apply Forall_forall. intros x Hx. apply list_elem_of_In, in_seq in Hx. lia.
Qed.

Lemma strided_sorted t rows : StronglySorted lt (strided t rows).
Proof.
  unfold strided. generalize (seq_sorted 0 ((rows - t + (kWg - 1)) / kWg)). generalize (seq 0 ((rows - t + (kWg - 1)) / kWg)).
  intros l Hl. induction Hl as [|x l Hl IH Hx]; cbn; constructor; [done|].
  apply Forall_map. eapply Forall_impl; [exact Hx|]. unfold kWg. cbn. lia.
Qed.

(** 256 strided lanes and eight halvings find what one sequential scan finds. *)
Lemma argmax_pass_sequential keep key rows : argmax_pass keep key rows = lane_argmax keep key (seq 0 rows).
Proof.
  apply (wins_unique key (fun j => (j < rows)%nat /\ keep j = true)).
  - unfold argmax_pass, tree_root.
    eapply wins_ext; [|apply (tree_wins key 8 (fun t j => In j (strided t rows) /\ keep j = true))].
    + intros j. change (2 ^ 8)%nat with kWg. split.
      * intros (t & Ht & Hj & Hk). by apply strided_spec in Hj as [? _].
      * intros [Hj Hk]. exists (j mod kWg)%nat.
        assert (j mod kWg < kWg)%nat by (unfold kWg; div_lia). split; [done|].
        split; [by apply strided_spec|done].
    + unfold lanes. by rewrite length_map, length_seq.
    + intros t r H. unfold lanes in H. rewrite list_lookup_fmap in H.
      destruct (seq 0 kWg !! t) as [t'|] eqn:E; [|done]. apply lookup_seq in E as [-> _]. injection H as <-.
      apply lane_wins, strided_sorted.
  - eapply wins_ext; [|apply lane_wins, seq_sorted]. intros j. cbv beta. rewrite in_seq. naive_solver lia.
Qed.

(** The candidates the kernel keeps: the entries before the first negative one, 64 at most. *)
Fixpoint nonnegative_prefix (cand : list Z) : list Z :=
  match cand with
  | [] => []
  | v :: cand => if v <? 0 then [] else v :: nonnegative_prefix cand
  end.
Definition live_candidates (cand : list Z) : list Z := take kDsVerifyMaxCand (nonnegative_prefix cand).

Lemma upper_insert_perm v l : upper_insert v l ≡ₚ v :: l.
Proof. induction l as [|y l IH]; cbn; [done|]. destruct (v <? y); [done|]. rewrite IH. constructor. Qed.

Lemma sorted_candidates_perm cand sorted :
  sorted_candidates cand sorted ≡ₚ sorted ++ take (kDsVerifyMaxCand - length sorted) (nonnegative_prefix cand).
Proof.
  revert sorted. induction cand as [|v cand IH]; intros sorted; cbn [sorted_candidates nonnegative_prefix].
  - by rewrite take_nil, app_nil_r.
  - destruct (v <? 0); [by rewrite take_nil, app_nil_r|].
    destruct (Nat.leb_spec kDsVerifyMaxCand (length sorted)) as [H|H].
    + replace (kDsVerifyMaxCand - length sorted)%nat with 0%nat by lia. by rewrite take_0, app_nil_r.
    + rewrite IH. rewrite (Permutation_length (upper_insert_perm v sorted)). cbn [length].
      replace (kDsVerifyMaxCand - length sorted)%nat with (S (kDsVerifyMaxCand - S (length sorted))) by lia.
      cbn [take]. rewrite upper_insert_perm. cbn. apply Permutation_middle.
Qed.

(** C31: the verify row's two draws are what one left-to-right scan of the row finds: the
    256 strided lanes and the eight-round reduction tree return the first greatest Gumbel
    key among all tokens, and among the tokens that are not live candidates. *)
Theorem verify_row_draws (std_exp std_log : float -> float) logits cand seed row inv_t :
  let r := emulate_verify_row std_exp std_log logits cand seed row inv_t in
  let key := gumbel_key std_log logits seed row inv_t in
  let scan keep := lane_argmax keep key (seq 0 (length logits)) in
  let full := scan (fun _ => true) in
  let masked := scan (fun i => bool_decide (Z.of_nat i ∉ live_candidates cand)) in
  vr_full_token r = Z.of_nat full.2 /\ vr_full_key r = full.1 /\
  vr_masked_token r = Z.of_nat masked.2 /\ vr_masked_key r = masked.1 /\
  vr_n_cand r = length (live_candidates cand).
Proof.
  intros r key scan full masked. pose proof (sorted_candidates_perm cand []) as Hperm. cbn [app length] in Hperm.
  rewrite Nat.sub_0_r in Hperm. fold (live_candidates cand) in Hperm.
  assert (forall i, negb (existsb (Z.eqb (Z.of_nat i)) (sorted_candidates cand [])) =
                    bool_decide (Z.of_nat i ∉ live_candidates cand)) as Hk.
  { intros i. apply eq_true_iff_eq. rewrite negb_true_iff, bool_decide_eq_true, <- Hperm, <- not_true_iff_false, existsb_exists.
    setoid_rewrite list_elem_of_In. split; intros H H'; apply H.
    - exists (Z.of_nat i). split; [done|apply Z.eqb_refl].
    - destruct H' as (x & Hx & <-%Z.eqb_eq). done. }
  unfold r, emulate_verify_row. cbn [vr_full_token vr_full_key vr_masked_token vr_masked_key vr_n_cand].
  rewrite !argmax_pass_sequential.
  assert (forall k ids, lane_argmax (fun i => negb (existsb (Z.eqb (Z.of_nat i)) (sorted_candidates cand []))) k ids =
    lane_argmax (fun i => bool_decide (Z.of_nat i ∉ live_candidates cand)) k ids) as ->.
  { intros k ids. unfold lane_argmax. generalize (f32_lowest, 0%nat).
    induction ids as [|i ids IH]; intros [k0 id0]; cbn [foldl]; [done|].
    cbv beta iota. rewrite Hk. apply IH. }
  split_and!; try reflexivity. by rewrite Hperm.
Qed.

(** ** Paths stay inside the lattice *)

Lemma first_argmax_lt v : v <> [] -> (first_argmax v < length v)%nat.
Proof.
  intros Hv. unfold first_argmax.
  apply (foldl_invariant (fun r : float * nat => (r.2 < length v)%nat)).
  - destruct v; cbn; [done|lia].
  - intros [b a] i Hi Ha. apply list_elem_of_In, in_seq in Hi. destruct (f_gtb _ _); cbn in *; lia.
Qed.

Lemma sample_scan_lt w t i cum last : (last < i + length w)%nat \/ w = [] -> 
  forall r, sample_scan w t i cum last = r ->
  (forall j, r.1 = Some j -> (j < i + length w)%nat) /\ (w <> [] -> (r.2 < i + length w)%nat).
Proof.
  revert i cum last. induction w as [|x w IH]; intros i cum last Hl r <-; cbn [sample_scan].
  - split; [done|done].
  - assert ((if f_gtb x f64_zero then i else last) < i + length (x :: w))%nat as Hl'.
    { destruct (f_gtb _ _); cbn in *; [lia|]. destruct Hl; [lia|done]. }
    destruct (f_gtb (f64_add cum x) t).
    + split; [intros j [= <-]; cbn; lia|done].
    + destruct w as [|y w].
      * split; [done|]. intros _. cbn in *. lia.
      * specialize (IH (S i) (f64_add cum x) (if f_gtb x f64_zero then i else last)).
        destruct (IH ltac:(left; cbn in *; lia) _ eq_refl) as [H1 H2].
        split; [intros j Hj; specialize (H1 j Hj); cbn in *; lia|intros _; specialize (H2 ltac:(done)); cbn in *; lia].
Qed.

Lemma sample_index_lt w u : w <> [] -> (sample_index w u < length w)%nat.
Proof.
  intros Hw. unfold sample_index.
  destruct (sample_scan_lt w (f64_mul u (sum64 w)) 0 f64_zero 0) with (r := sample_scan w (f64_mul u (sum64 w)) 0 f64_zero 0) as [H1 H2];
    [left; destruct w; cbn; [done|lia]|done|].
  destruct (sample_scan _ _ _ _ _) as [[j|] last]; cbn in *; auto.
Qed.

(** A lattice [build] returned: its tables have their sizes. *)
Record lattice_ok (lat : Lattice) : Prop := {
  lat_K_pos : (0 < lat_K lat)%nat;
  lat_logq_length : length (lat_logq lat) = (kPositions * (lat_K lat * lat_K lat))%nat;
  lat_ids_length : length (lat_ids lat) = (kPositions * lat_K lat)%nat
}.

Lemma flat_map_length_const {A B} (f : A -> list B) l n : (forall x, x ∈ l -> length (f x) = n) ->
  length (flat_map f l) = (length l * n)%nat.
Proof.
  induction l as [|x l IH]; intros H; cbn; [done|]. rewrite length_app, H by left.
  rewrite IH; [done|]. intros y Hy. apply H. by right.
Qed.

Lemma build_ok inp lat : build inp = Ret lat -> lattice_ok lat /\ lat_K lat = in_K inp /\
  lat_ids lat = take (kPositions * in_K inp) (in_cand_ids inp).
Proof.
  unfold build. intros H.
  apply bind_Ret in H as ([] & H1%fail_if_Ret & H). apply bind_Ret in H as ([] & H2%fail_if_Ret & H).
  apply bind_Ret in H as ([] & H3%fail_if_Ret & H). apply bind_Ret in H as ([] & H4%fail_if_Ret & H).
  injection H as <-. clear H3 H4.
  apply orb_false_iff in H1 as [H1%Nat.eqb_neq _], H2 as [H2%Nat.ltb_ge H2'%Nat.ltb_ge].
  split; [|done]. constructor; cbn [lat_K lat_logq lat_ids]; [lia| |rewrite length_take; cbn [lat_K]; unfold kPositions in *; lia].
  unfold table. rewrite (flat_map_length_const _ _ (in_K inp * in_K inp)).
  - by rewrite length_seq.
  - intros i Hi. rewrite (flat_map_length_const _ _ (in_K inp)); [by rewrite length_seq|].
    intros p _. destruct ((i =? 0)%nat && _); [apply repeat_length|].
    unfold logq_norm. rewrite length_map. unfold score_row. rewrite length_zip_with. unfold bias_row.
    rewrite length_map, length_seq, subspan_length; [lia|]. apply list_elem_of_In, in_seq in Hi. nia.
Qed.

Section InBounds.
Context (lat : Lattice) (Hok : lattice_ok lat).
#[local] Abbreviation K := (lat_K lat).

(** [n] candidate indices, all below [K]. *)
Definition in_bounds (n : nat) (p : Path) : Prop := length p = n /\ Forall (fun c => c < K)%nat p.

Lemma logq_row_length i prev : (i < kPositions)%nat -> (prev < K)%nat -> length (logq_row lat i prev) = K.
Proof.
  intros Hi Hp. unfold logq_row. apply subspan_length. rewrite (lat_logq_length _ Hok).
  assert ((if (i =? 0)%nat then 0 else prev) < K)%nat by (destruct (i =? 0)%nat; lia). nia.
Qed.

Lemma nonempty_of_length {A} (l : list A) : length l = K -> l <> [].
Proof. pose proof (lat_K_pos _ Hok). destruct l; cbn; [lia|done]. Qed.

Lemma argmax_in_bounds v : length v = K -> (first_argmax v < K)%nat.
Proof. intros Hl. rewrite <- Hl. by apply first_argmax_lt, nonempty_of_length. Qed.

Lemma chain_in_bounds n i prev : (i + n <= kPositions)%nat -> (prev < K)%nat -> in_bounds n (chain_from lat n i prev).
Proof.
  revert i prev. induction n as [|n IH]; intros i prev Hi Hp; cbn [chain_from]; [by split|].
  assert (first_argmax (logq_row lat i prev) < K)%nat as Hc by (apply argmax_in_bounds, logq_row_length; lia).
  destruct (IH (S i) _ ltac:(lia) Hc) as [Hl Hf]. split; [cbn; lia|by constructor].
Qed.

Lemma sample_in_bounds u i prev : (i + length u <= kPositions)%nat -> (prev < K)%nat ->
  in_bounds (length u) (sample_from lat u i prev).
Proof.
  revert i prev. induction u as [|x u IH]; intros i prev Hi Hp; cbn [sample_from]; [by split|]. cbn [length] in *.
  set (w := map dm_exp (logq_row lat i prev)).
  assert (length w = K) as Hw by (unfold w; rewrite length_map; apply logq_row_length; lia).
  assert (sample_index w x < K)%nat as Hc by (rewrite <- Hw; apply sample_index_lt, nonempty_of_length, Hw).
  destruct (IH (S i) _ ltac:(lia) Hc) as [Hl Hf]. split; [cbn; lia|by constructor].
Qed.

(** Back pointers and choices: each level a list of [n] indices below [K]. *)
Definition level_ok (n : nat) (l : list nat) : Prop := length l = n /\ Forall (fun c => c < K)%nat l.

Lemma level_lookup n l c : level_ok n l -> (c < n)%nat -> (nth c l 0 < K)%nat.
Proof.
  intros [Hl Hf] Hc. rewrite nth_lookup. destruct (l !! c) as [x|] eqn:E; cbn; [|apply (lat_K_pos _ Hok)].
  by apply (Forall_lookup_1 _ _ _ _ Hf E).
Qed.

(** [split] of a table of (value, index) pairs. *)
Lemma split_level {A} (f : nat -> A * nat) n : (forall i, (i < n)%nat -> ((f i).2 < K)%nat) ->
  length (split (map f (seq 0 n))).1 = n /\ level_ok n (split (map f (seq 0 n))).2.
Proof.
  intros Hf. pose proof (length_fst_split (map f (seq 0 n))) as H1. pose proof (length_snd_split (map f (seq 0 n))) as H2.
  rewrite length_map, length_seq in H1, H2. split; [done|]. split; [done|].
  assert (Forall (fun x => x.2 < K)%nat (map f (seq 0 n))) as Hall.
  { apply Forall_map, Forall_forall. intros i Hi. apply list_elem_of_In, in_seq in Hi. apply Hf. lia. }
  clear -Hall. induction Hall as [|[a b] l Hx Hall IH]; cbn; [constructor|].
  destruct (split l) as [la lb]. cbn in *. by constructor.
Qed.

Lemma viterbi_step_ok v i : length v = K ->
  length (viterbi_step lat v i).1 = K /\ level_ok K (viterbi_step lat v i).2.
Proof.
  intros Hv. apply split_level. intros c Hc. pose proof (lat_K_pos _ Hok).
  apply (foldl_invariant (fun r : float * nat => (r.2 < K)%nat)); [cbn; lia|].
  intros [b back] p Hp Hb. apply list_elem_of_In, in_seq in Hp. cbv zeta. destruct (f_gtb _ b); cbn in *; lia.
Qed.

Lemma viterbi_forward_ok n i v : length v = K ->
  length (viterbi_forward lat n i v).1 = K /\ length (viterbi_forward lat n i v).2 = n /\
  Forall (level_ok K) (viterbi_forward lat n i v).2.
Proof.
  revert i v. induction n as [|n IH]; intros i v Hv; cbn [viterbi_forward]; [by split_and!|].
  destruct (viterbi_step_ok v i Hv) as [Hs Hb]. destruct (viterbi_step lat v i) as [v' back].
  destruct (IH (S i) v' Hs) as (H1 & H2 & H3). destruct (viterbi_forward lat n (S i) v') as [vf backs].
  cbn in *. split_and!; [done|lia|by constructor].
Qed.

Lemma backtrack_in_bounds backs c : Forall (level_ok K) backs -> (c < K)%nat ->
  in_bounds (S (length backs)) (backtrack backs c).
Proof.
  intros Hb Hc. induction Hb as [|back backs Hx Hb IH]; cbn [backtrack foldr].
  - split; [done|by repeat constructor].
  - destruct IH as [Hl Hf]. fold (backtrack backs c).
    split; [cbn; by rewrite Hl|]. constructor; [|done].
    apply (level_lookup K); [done|]. unfold path_at. destruct (backtrack backs c) as [|x l]; [done|]. cbn. by inversion Hf.
Qed.

Lemma eal_step_ok i g : level_ok (if (i =? 0)%nat then 1 else K) (eal_step lat i g).2.
Proof.
  unfold eal_step. apply split_level. intros p _. cbv zeta. cbn [snd].
  apply argmax_in_bounds. by rewrite length_map, length_seq.
Qed.

Lemma eal_choices_ok n i : (i + n = kPositions)%nat ->
  length (eal_choices lat n i).2 = n /\
  forall j, (j < n)%nat -> exists l, (eal_choices lat n i).2 !! j = Some l /\
    level_ok (if (i + j =? 0)%nat then 1 else K) l.
Proof.
  revert i. induction n as [|n IH]; intros i Hi; cbn [eal_choices]; [split; [done|lia]|].
  destruct (IH (S i) ltac:(lia)) as [H1 H2]. destruct (eal_choices lat n (S i)) as [g choices]. cbn [snd] in H1, H2.
  pose proof (eal_step_ok i g) as Hlev. destruct (eal_step lat i g) as [g' choice]. cbn [snd] in *.
  split; [cbn [length]; lia|]. intros [|j] Hj.
  - exists choice. rewrite Nat.add_0_r. by split.
  - destruct (H2 j ltac:(lia)) as (l & Hl & Hk). exists l. split; [done|]. by rewrite Nat.add_succ_r.
Qed.

Lemma follow_in_bounds choices prev i :
  (forall j, (j < length choices)%nat -> exists l, choices !! j = Some l /\ level_ok (if (i + j =? 0)%nat then 1 else K) l) ->
  (prev < if (i =? 0)%nat then 1 else K)%nat -> in_bounds (length choices) (follow choices prev).
Proof.
  revert prev i. induction choices as [|choice choices IH]; intros prev i H Hp; cbn [follow]; [by split|].
  destruct (H 0%nat ltac:(cbn; lia)) as (l & [= <-] & Hl). rewrite Nat.add_0_r in Hl.
  pose proof (level_lookup _ _ _ Hl Hp) as Hc.
  destruct (IH (nth prev choice 0%nat) (S i)) as [H1 H2].
  - intros j Hj. destruct (H (S j) ltac:(cbn; lia)) as (l & E & Hk). exists l. split; [done|].
    by rewrite Nat.add_succ_r in Hk.
  - done.
  - split; [cbn; lia|by constructor].
Qed.

Lemma path_in_bounds obj : in_bounds kPositions (path lat obj).
Proof.
  pose proof (lat_K_pos _ Hok). destruct obj; unfold path.
  - destruct (viterbi_forward_ok (kPositions - 1) 1 (logq_row lat 0 0)) as (H1 & H2 & H3);
      [by apply logq_row_length; [unfold kPositions; lia|]|].
    destruct (viterbi_forward _ _ _ _) as [v backs]. cbn [fst snd] in *.
    replace kPositions with (S (length backs)) by (rewrite H2; done).
    apply backtrack_in_bounds; [done|by apply argmax_in_bounds].
  - destruct (eal_choices_ok kPositions 0 ltac:(done)) as [H1 H2]. rewrite <- H1 at 1.
    apply (follow_in_bounds _ _ 0); [|cbn; lia]. rewrite H1. exact H2.
  - apply chain_in_bounds; lia.
Qed.

Lemma sample_path_in_bounds u : (kPositions <= length u)%nat -> in_bounds kPositions (sample lat u).
Proof.
  intros Hu. unfold sample. pose proof (lat_K_pos _ Hok).
  replace kPositions with (length (take kPositions u)) at 1 by (rewrite length_take; lia).
  apply sample_in_bounds; [rewrite length_take|]; lia.
Qed.
End InBounds.

(** Every path through a built lattice, whatever the objective and whatever the uniforms
    of an ancestral sample, has one candidate index below [K] per position, so each drafted
    token is one of the position's candidates. *)
Theorem paths_in_bounds inp lat obj u : build inp = Ret lat -> (kPositions <= length u)%nat ->
  forall p, p = path lat obj \/ p = sample lat u ->
  length p = kPositions /\ Forall (fun c => c < in_K inp)%nat p /\
  forall i, (i < kPositions)%nat ->
    exists t, tokens lat p !! i = Some t /\ t ∈ subspan (in_cand_ids inp) (i * in_K inp) (in_K inp).
Proof.
  intros Hb Hu p Hp. destruct (build_ok inp lat Hb) as (Hok & HK & Hids).
  assert (in_bounds lat kPositions p) as [Hl Hf]
    by (destruct Hp as [-> | ->]; [by apply path_in_bounds|by apply sample_path_in_bounds]).
  rewrite HK in Hf. split; [done|split; [done|]]. intros i Hi.
  exists (token lat i (path_at p i)). unfold tokens. rewrite list_lookup_fmap, lookup_seq_lt by done.
  split; [done|]. unfold token, path_at. rewrite HK, Hids.
  destruct (lookup_lt_is_Some_2 p i ltac:(lia)) as [c Hc]. rewrite (nth_lookup_Some _ _ _ _ Hc).
  pose proof (Forall_lookup_1 _ _ _ _ Hf Hc) as Hck. cbn beta in Hck.
  pose proof (lat_ids_length _ Hok) as Hlen. rewrite Hids, HK, length_take in Hlen.
  destruct (lookup_lt_is_Some_2 (in_cand_ids inp) (i * in_K inp + c) ltac:(nia)) as [t Ht].
  assert (take (kPositions * in_K inp) (in_cand_ids inp) !! (i * in_K inp + c)%nat = Some t) as Ht'
    by (rewrite lookup_take_Some; split; [done|nia]).
  rewrite (nth_lookup_Some _ _ _ _ Ht'). apply (list_elem_of_lookup_2 _ c).
  unfold subspan. rewrite lookup_take_Some, lookup_drop. by split.
Qed.


(** Two candidates per position, no bias: the logits alone decide. *)
Definition example_input : LatticeInput :=
  mkLatticeInput 2 (map Z.of_nat (seq 10 10)) (map f32_of_Z [2; 1; 0; 3; 1; 1; 5; 4; 0; 1]) (repeat f32_zero kRank)
    (repeat f32_zero (4 * 2 * kRank)) (repeat f32_zero (5 * 2 * kRank)) [].

Lemma example_input_builds : is_ok (build example_input) = true.
Proof. vm_compute. reflexivity. Qed.

Lemma paths_in_bounds_witness :
  exists lat, build example_input = Ret lat /\ Forall (fun c => c < 2)%nat (path lat Eal) /\ length (path lat Eal) = 5%nat.
Proof.
  pose proof example_input_builds as H. destruct (build example_input) as [lat|e] eqn:E; [|discriminate H].
  exists lat. destruct (paths_in_bounds example_input lat Eal (repeat f64_zero 5) E ltac:(cbn; unfold kPositions; lia)
    (path lat Eal) (or_introl eq_refl)) as (H1 & H2 & _).
  split; [reflexivity|]. split; [exact H2|exact H1].
Defined.

(** ** Acceptance *)

Lemma take_insert_last {A} (l : list A) j x : (j < length l)%nat -> take (S j) (<[j := x]> l) = take j l ++ [x].
Proof.
  intros Hj. rewrite (take_S_r _ _ x) by (by apply list_lookup_insert_eq). by rewrite take_insert_ge by lia.
Qed.

Lemma accept_loop_spec test drafted corrected bonus n j toks : (j + n < length toks)%nat ->
  let r := accept_loop test drafted corrected bonus n j toks in
  (j <= accepted r <= j + n)%nat /\ n_emitted r = S (accepted r) /\
  (forall i, (j <= i < accepted r)%nat -> test i = true) /\
  ((accepted r < j + n)%nat -> test (accepted r) = false) /\
  take (n_emitted r) (acc_tokens r) =
    take j toks ++ map drafted (seq j (accepted r - j)) ++
    [if (accepted r =? j + n)%nat then bonus (accepted r) else corrected (accepted r)].
Proof.
  revert j toks. induction n as [|n IH]; intros j toks Hl; cbn [accept_loop].
  - cbn [accepted n_emitted acc_tokens]. rewrite Nat.add_0_r, Nat.eqb_refl, Nat.sub_diag, Nat.add_1_r.
    split_and!; try lia. cbn [seq map app].
    by rewrite take_insert_last by lia.
  - destruct (test j) eqn:Et.
    + destruct (IH (S j) (<[j := drafted j]> toks)) as (H1 & H2 & H3 & H4 & H5); [rewrite length_insert; lia|].
      set (r := accept_loop test drafted corrected bonus n (S j) (<[j := drafted j]> toks)) in *.
      split_and!; try lia; try done.
      * intros i Hi. destruct (Nat.eq_dec i j) as [->|]; [done|]. apply H3. lia.
      * intros Hlt. apply H4. lia.
      * rewrite H5. rewrite take_insert_last by lia.
        replace (accepted r - j)%nat with (S (accepted r - S j)) by lia. cbn [seq map].
        replace (j + S n)%nat with (S j + n)%nat by lia. by rewrite <- !app_assoc.
    + cbn [accepted n_emitted acc_tokens]. rewrite Nat.add_1_r, Nat.sub_diag. split_and!; try lia; try done.
      replace (j =? j + S n)%nat with false by (symmetry; apply Nat.eqb_neq; lia). cbn [seq map app].
      by rewrite take_insert_last by lia.
Qed.

(** ** The greedy stream *)

(** What decoding one token at a time produces after the history [h]. *)
Fixpoint greedy (next : list Z -> Z) (h : list Z) (n : nat) : list Z :=
  match n with
  | O => []
  | S n => next h :: greedy next (h ++ [next h]) n
  end.

Lemma greedy_length next h n : length (greedy next h n) = n.
Proof. revert h. induction n; intros h; cbn; auto. Qed.

Lemma greedy_app next h n k : greedy next h (n + k) = greedy next h n ++ greedy next (h ++ greedy next h n) k.
Proof.
  revert h. induction n as [|n IH]; intros h; cbn; [by rewrite app_nil_r|]. by rewrite IH, <- app_assoc.
Qed.

(** What a cycle relies on, for a model whose next token after a history is [next]: the
    committed history survives a draft and a snapshot; a verify forward over saved ring
    slots answers each row with the model's own next token and leaves the drafted positions
    written; a rollback forgets the positions past the accepted ones; a commit makes the
    written positions and the correction part of the history. *)
Class GreedyModel {M : Type} (ops : SpecModel M) (next : list Z -> Z) := {
  holds : M -> list Z -> Prop;
  saved : M -> list Z -> nat -> Prop;
  ahead : M -> list Z -> list Z -> Prop;
  next_range h : 0 <= next h < 2 ^ 32;
  draft_holds m h l K : holds m h -> holds (draft_forward ops (Z.of_nat (length h) - 1) l K m).2 h;
  snapshot_saves m h n : holds m h ->
    (snapshot_ring ops (Z.of_nat (length h) - 1) n m).1 = Ret tt ->
    saved (snapshot_ring ops (Z.of_nat (length h) - 1) n m).2 h n;
  verify_rows m h l d cand stride exact rows : saved m h (length d + 1) -> last h = Some l ->
    (verify_forward ops (Z.of_nat (length h) - 1) (l :: d) cand stride exact m).1 = Ret rows ->
    ahead (verify_forward ops (Z.of_nat (length h) - 1) (l :: d) cand stride exact m).2 h d /\
    forall j, (j <= length d)%nat -> row_argmax (row_at rows j) = next (h ++ take j d);
  restore_forgets m h d a : ahead m h d -> (a < length d)%nat ->
    (restore_ring ops (Z.of_nat (length h) - 1) a (length d + 1) m).1 = Ret tt ->
    ahead (restore_ring ops (Z.of_nat (length h) - 1) a (length d + 1) m).2 h (take a d);
  commit_appends m h d t : ahead m h d ->
    (commit ops (Z.of_nat (length h) - 1) (d ++ [t]) m).1 = Ret tt ->
    holds (commit ops (Z.of_nat (length h) - 1) (d ++ [t]) m).2 (h ++ d ++ [t])
}.

(** A model whose operations never report an error. *)
Definition never_fails {M} (ops : SpecModel M) : Prop :=
  (forall p l K m, is_ok (draft_forward ops p l K m).1 = true) /\
  (forall p b c s e m, is_ok (verify_forward ops p b c s e m).1 = true) /\
  (forall p n m, is_ok (snapshot_ring ops p n m).1 = true) /\
  (forall p a n m, is_ok (restore_ring ops p a n m).1 = true) /\
  (forall p t m, is_ok (commit ops p t m).1 = true).

Lemma u32_i32 x : 0 <= x < 2 ^ 32 -> u32 (i32 x) = x.
Proof.
  intros Hx. unfold i32. rewrite (u32_small x) by done. destruct (x <? 2 ^ 31); [by apply u32_small|].
  unfold u32. replace (x - 2 ^ 32) with (x + (-1) * 2 ^ 32) by lia. rewrite Z.mod_add by lia. by apply Z.mod_small.
Qed.

(** The accepted drafts and the correction are the model's own stream. *)
Lemma accept_greedy_stream next h (drafts argmax : list Z) k :
  (forall h, 0 <= next h < 2 ^ 32) -> length drafts = k -> (k <= kPositions)%nat ->
  (forall j, (j <= k)%nat -> nth j argmax 0 = i32 (next (h ++ take j (map u32 drafts)))) ->
  let acc := accept_greedy drafts argmax k in
  (accepted acc <= k)%nat /\ n_emitted acc = S (accepted acc) /\
  take (accepted acc) (map u32 drafts) = greedy next h (accepted acc) /\
  emitted_tokens acc = greedy next h (S (accepted acc)).
Proof.
  intros Hnext Hlen Hk Hrows acc.
  assert (length no_tokens = S kPositions) as Hno by done.
  destruct (accept_loop_spec (fun a => nth a drafts 0 =? nth a argmax 0) (fun a => nth a drafts 0)
    (fun a => nth a argmax 0) (fun a => nth a argmax 0) k 0 no_tokens) as (H1 & H2 & H3 & _ & H5);
    [rewrite Hno; unfold kPositions in *; lia|].
  fold (accept_greedy drafts argmax k) in H1, H2, H3, H5. fold acc in H1, H2, H3, H5.
  set (a := accepted acc) in *. rewrite take_0, app_nil_l, Nat.sub_0_r in H5.
  assert (forall i, (i <= a)%nat -> take i (map u32 drafts) = greedy next h i) as Hpre.
  { induction i as [|i IH]; intros Hi; [done|]. specialize (IH ltac:(lia)).
    destruct (lookup_lt_is_Some_2 drafts i ltac:(lia)) as [x Hx].
    rewrite (take_S_r _ _ (u32 x)) by (by rewrite list_lookup_fmap, Hx). rewrite IH.
    rewrite <- (Nat.add_1_r i), greedy_app. f_equal. cbn. f_equal.
    specialize (H3 i ltac:(lia)). apply Z.eqb_eq in H3. rewrite Hrows, IH in H3 by lia.
    rewrite (nth_lookup_Some _ _ _ _ Hx) in H3. subst x. by apply u32_i32. }
  split; [lia|split; [done|split; [by apply Hpre|]]].
  unfold emitted_tokens. rewrite H5, map_app. rewrite <- (Nat.add_1_r a), greedy_app. f_equal.
  - rewrite <- (Hpre a) by lia. rewrite firstn_map. f_equal.
    apply list_eq. intros i. destruct (Nat.lt_ge_cases i a) as [Hi|Hi].
    + rewrite list_lookup_fmap, lookup_seq_lt, lookup_take_lt by lia. cbn.
      destruct (lookup_lt_is_Some_2 drafts i ltac:(lia)) as [x Hx]. by rewrite (nth_lookup_Some _ _ _ _ Hx), Hx.
    + rewrite lookup_ge_None_2 by (rewrite length_map, length_seq; lia).
      by rewrite lookup_ge_None_2 by (rewrite length_take; lia).
  - cbn [map greedy]. f_equal.
    assert ((if (a =? 0 + k)%nat then nth a argmax 0 else nth a argmax 0) = nth a argmax 0) as ->
      by (by destruct (a =? 0 + k)%nat).
    rewrite Hrows, u32_i32, Hpre by (done || lia). done.
Qed.

(** ** One cycle *)

Lemma choose_k_range cfg conf : (1 <= choose_k cfg conf <= kPositions)%nat.
Proof.
  assert (forall l theta run k, (k_from_confidence_from l theta run k <= k + length l)%nat) as Hc.
  { induction l as [|c l IH]; intros theta run k; cbn [k_from_confidence_from length]; [lia|].
    destruct (f_ltb _ _); [lia|]. specialize (IH theta (f64_mul run (sigmoid (f32_to_f64 c))) (S k)). lia. }
  unfold choose_k, k_from_confidence. specialize (Hc (take kPositions conf) (cfg_theta cfg) f64_one 0%nat).
  rewrite length_take in Hc. unfold kPositions in *.
  destruct (cfg_k cfg =? 0)%nat eqn:E; [|apply Nat.eqb_neq in E];
    match goal with |- context [if ?b then _ else _] => destruct b eqn:E' end; try apply Nat.eqb_neq in E'; lia.
Qed.

Section GreedyCycle.
Context {M : Type} (ops : SpecModel M) (next : list Z -> Z) {Hops : GreedyModel ops next}.

(** What a cycle has done when it returns: [e] is emitted, committed and greedy, and at
    least one token long; a cycle that fails has emitted nothing. *)
Definition cycle_post (h out : list Z) (cfg : SpecConfig) (res : Result SpecCycle * Speculator M * list Z) : Prop :=
  let '(r, sp', out') := res in
  sp_cfg sp' = cfg /\
  match r with
  | Fail _ => out' = out
  | Ret c =>
      let e := greedy next h (c_emitted c) in
      out' = out ++ e /\ holds (sp_model sp') (h ++ e) /\
      c_emitted c = S (c_accepted c) /\ (c_accepted c <= c_k c <= kPositions)%nat
  end.

Lemma roll_back_and_commit_greedy h d k acc sp out :
  ahead (sp_model sp) h d -> length d = k -> (k <= kPositions)%nat ->
  (accepted acc <= k)%nat -> n_emitted acc = S (accepted acc) ->
  take (accepted acc) d = greedy next h (accepted acc) ->
  emitted_tokens acc = greedy next h (S (accepted acc)) ->
  cycle_post h out (sp_cfg sp) (roll_back_and_commit ops (Z.of_nat (length h) - 1) k acc sp out).
Proof.
  intros Hah Hd Hk Ha Hn Hpre Hem. unfold roll_back_and_commit. set (p0 := Z.of_nat (length h) - 1).
  assert (emitted_tokens acc = take (accepted acc) d ++ [next (h ++ take (accepted acc) d)]) as Hem'
    by (rewrite Hem, Hpre, <- Nat.add_1_r, greedy_app; done).
  set (rolled := if (accepted acc <? k)%nat then _ else _).
  assert (rolled.1 = Ret tt -> ahead rolled.2 h (take (accepted acc) d)) as Hroll.
  { unfold rolled. destruct (Nat.ltb_spec (accepted acc) k); [|by rewrite take_ge by lia].
    rewrite <- Hd. apply restore_forgets; [done|lia]. }
  destruct rolled as [[[]|e] m3]; [|done]. specialize (Hroll eq_refl). cbn [snd with_model sp_model] in *.
  pose proof (commit_appends _ _ _ (next (h ++ take (accepted acc) d)) Hroll) as Hc. rewrite <- Hem' in Hc. fold p0 in Hc.
  destruct (commit ops p0 (emitted_tokens acc) m3) as [[[]|e] m4]; [|done]. specialize (Hc eq_refl).
  cbn. split; [done|]. rewrite Hn, <- Hem. split_and!; try done; lia.
Qed.

Lemma verify_and_commit_greedy h l lat p k sp out :
  holds (sp_model sp) h -> last h = Some l -> cfg_mode (sp_cfg sp) = SpecGreedy -> (k <= kPositions)%nat ->
  cycle_post h out (sp_cfg sp) (verify_and_commit ops (Z.of_nat (length h) - 1) l lat p k sp out).
Proof.
  intros Hh Hl Hmode Hk. unfold verify_and_commit. set (p0 := Z.of_nat (length h) - 1).
  assert (length (tokens lat p) = kPositions) as Htok by (unfold tokens; by rewrite length_map, length_seq).
  set (d := map u32 (take k (tokens lat p))).
  assert (length d = k) as Hd by (unfold d; rewrite length_map, length_take; lia).
  set (exact := bool_decide _). set (cand := if exact then _ else _). clearbody cand exact.
  pose proof (snapshot_saves _ _ (k + 1)%nat Hh) as Hsnap. fold p0 in Hsnap.
  destruct (snapshot_ring ops p0 (k + 1) (sp_model sp)) as [[[]|e] m1]; [|done].
  specialize (Hsnap eq_refl). cbn [snd with_model sp_model sp_cfg sp_rng] in *. rewrite <- Hd in Hsnap.
  pose proof (fun rows => verify_rows _ h l d cand kDsVerifyMaxCand exact rows Hsnap Hl) as Hver. fold p0 in Hver.
  destruct (verify_forward ops p0 (l :: d) cand kDsVerifyMaxCand exact m1) as [[rows|e] m2]; [|done].
  destruct (Hver rows eq_refl) as [Hah Hrows]. unfold accept_rows. rewrite Hmode.
  destruct (accept_greedy_stream next h (take k (tokens lat p))
    (map (fun j => i32 (row_argmax (row_at rows j))) (seq 0 (k + 1))) k) as (Ha & Hn & Hpre & Hem);
    [apply next_range|rewrite length_take; lia|done| |].
  { intros j Hj. rewrite (nth_lookup_Some _ _ _ (i32 (row_argmax (row_at rows j)))).
    - rewrite Hrows by lia. done.
    - by rewrite list_lookup_fmap, lookup_seq_lt by lia. }
  pose proof (roll_back_and_commit_greedy h d k _ (with_rng (with_model (with_model sp m1) m2) (sp_rng sp)) out
    Hah Hd Hk Ha Hn Hpre Hem) as H.
  exact H.
Qed.

Lemma cycle_greedy h l sp out : holds (sp_model sp) h -> last h = Some l -> cfg_mode (sp_cfg sp) = SpecGreedy ->
  cycle_post h out (sp_cfg sp) (cycle ops (Z.of_nat (length h) - 1) l sp out).
Proof.
  intros Hh Hl Hmode. unfold cycle. rewrite Hmode. rewrite bool_decide_eq_false_2 by done.
  destruct ((_ =? 0)%nat || _); [done|].
  set (sp0 := if sp_rng sp =? 0 then with_rng sp (cfg_seed (sp_cfg sp)) else sp).
  assert (sp_model sp0 = sp_model sp /\ sp_cfg sp0 = sp_cfg sp) as [Em Ec] by (unfold sp0; by destruct (sp_rng sp =? 0)).
  rewrite Em, <- Ec. pose proof (draft_holds _ _ l (cfg_lattice_k (sp_cfg sp0)) Hh) as Hd.
  destruct (draft_forward ops _ l (cfg_lattice_k (sp_cfg sp0)) (sp_model sp)) as [[[lat conf]|e] m1]; [|done].
  pose proof (choose_k_range (sp_cfg sp0) conf) as Hk. rewrite <- Ec in Hmode.
  destruct (choose_path _ _ _) as [p rng].
  pose proof (verify_and_commit_greedy h l lat p (choose_k (sp_cfg sp0) conf)
    (with_rng (with_last_k (with_model sp0 m1) (choose_k (sp_cfg sp0) conf)) rng) out Hd Hl Hmode ltac:(lia)) as H.
  exact H.
Qed.

(** A reliable model and a sane configuration make every cycle return. *)
Lemma cycle_returns p0 l sp out : never_fails ops -> cfg_mode (sp_cfg sp) <> SpecOff ->
  (1 <= cfg_lattice_k (sp_cfg sp) <= kDsVerifyMaxCand)%nat ->
  is_ok (cycle ops p0 l sp out).1.1 = true.
Proof.
  intros (Hdr & Hvf & Hsn & Hre & Hco) Hmode [Hk1 Hk2]. unfold cycle, verify_and_commit, roll_back_and_commit.
  rewrite bool_decide_eq_false_2 by done.
  replace (cfg_lattice_k (sp_cfg sp) =? 0)%nat with false by (symmetry; apply Nat.eqb_neq; lia).
  rewrite (guard_ltb _ _ Hk2). cbn [orb].
  set (sp0 := if sp_rng sp =? 0 then _ else sp).
  match goal with |- context [draft_forward ops ?p ?l ?K ?m] =>
    pose proof (Hdr p l K m) as H; destruct (draft_forward ops p l K m) as [[[lat conf]|e] m1]; [clear H|done] end.
  destruct (choose_path _ _ _) as [p rng].
  match goal with |- context [snapshot_ring ops ?p ?n ?m] =>
    pose proof (Hsn p n m) as H; destruct (snapshot_ring ops p n m) as [[u|e] m2]; [clear H|done] end.
  match goal with |- context [verify_forward ops ?p ?b ?c ?s ?e ?m] =>
    pose proof (Hvf p b c s e m) as H; destruct (verify_forward ops p b c s e m) as [[rows|e'] m3]; [clear H|done] end.
  destruct (accept_rows _ _ _ _ _ _) as [acc rng'].
  match goal with |- context [if (accepted acc <? ?k)%nat then restore_ring ops ?p ?a ?n ?m else ?x] =>
    pose proof (Hre p a n m) as H;
    assert (is_ok (if (accepted acc <? k)%nat then restore_ring ops p a n m else x).1 = true) as Hr
      by (destruct (accepted acc <? k)%nat; done);
    destruct (if (accepted acc <? k)%nat then restore_ring ops p a n m else x) as [[u'|e] m4]; [clear H Hr|done] end.
  match goal with |- context [commit ops ?p ?t ?m] =>
    pose proof (Hco p t m) as H; destruct (commit ops p t m) as [[u''|e] m5]; done end.
Qed.

Lemma last_default (out e : list Z) (l : Z) : e <> [] -> last (out ++ e) = Some (List.last (out ++ e) l).
Proof.
  destruct e as [|x e] using rev_ind; [done|]. intros _. rewrite app_assoc, last_snoc. by rewrite List.last_last.
Qed.

(** C14: at temperature 0 speculation changes no token: whatever the draft model proposed,
    whatever was accepted or rolled back and even when a cycle reports an error, the tokens
    a sequence of cycles emits are the tokens decoding one at a time would have produced;
    and with a model that never fails, [n] cycles always return, with at least one token and
    at most six each, the position advanced by exactly the tokens emitted. *)
Theorem greedy_stream h l sp out n :
  holds (sp_model sp) h -> last h = Some l -> cfg_mode (sp_cfg sp) = SpecGreedy ->
  let '(r, sp', out') := decode ops n (Z.of_nat (length h) - 1) l sp out in
  exists e, out' = out ++ e /\ e = greedy next h (length e) /\
    (never_fails ops -> (1 <= cfg_lattice_k (sp_cfg sp) <= kDsVerifyMaxCand)%nat ->
     r = Ret (Z.of_nat (length h) - 1 + Z.of_nat (length e)) /\
     (n <= length e <= 6 * n)%nat /\ holds (sp_model sp') (h ++ e)).
Proof.
  revert h l sp out. induction n as [|n IH]; intros h l sp out Hh Hl Hmode; cbn [decode].
  - exists []. rewrite !app_nil_r. cbn. split_and!; try done. intros _ _. split_and!; try done; try lia. f_equal. lia.
  - pose proof (cycle_greedy h l sp out Hh Hl Hmode) as Hpost.
    pose proof (cycle_returns (Z.of_nat (length h) - 1) l sp out) as Hret.
    destruct (cycle ops _ l sp out) as [[[c|e] sp1] out1]; cbn in Hpost.
    2:{ destruct Hpost as [_ ->]. exists []. rewrite app_nil_r. split_and!; try done.
        intros Hf Hk. cbn in Hret. specialize (Hret Hf ltac:(by rewrite Hmode) Hk). done. }
    destruct Hpost as (Hcfg & -> & Hh1 & Hem & Hacc).
    set (e1 := greedy next h (c_emitted c)) in *.
    assert (length e1 = c_emitted c) as Hlen by apply greedy_length.
    assert (e1 <> []) as Hne by (destruct e1; cbn in Hlen; [lia|done]).
    specialize (IH (h ++ e1) (List.last (out ++ e1) l) sp1 (out ++ e1) Hh1).
    rewrite last_app in IH. pose proof (last_default out e1 l Hne) as Hlast. rewrite last_app in Hlast.
    destruct (last e1) as [x|] eqn:Ex; [|by apply last_None in Ex].
    specialize (IH Hlast ltac:(by rewrite Hcfg)).
    rewrite length_app, Nat2Z.inj_add in IH.
    replace (Z.of_nat (length h) + Z.of_nat (length e1) - 1) with (Z.of_nat (length h) - 1 + Z.of_nat (c_emitted c))
      in IH by lia.
    destruct (decode ops n _ _ sp1 (out ++ e1)) as [[r sp2] out2].
    destruct IH as (e2 & -> & He2 & Hend). exists (e1 ++ e2).
    rewrite app_assoc. split; [done|]. split.
    { rewrite length_app, Hlen, greedy_app. fold e1. f_equal. exact He2. }
    rewrite Hcfg in Hend. intros Hf Hk. destruct (Hend Hf Hk) as (-> & Hn & Hh2).
    rewrite length_app. unfold kPositions in *. split_and!; [f_equal; lia|lia|lia|by rewrite app_assoc].
Qed.
End GreedyCycle.

(** ** A model to replay

    It commits to a rule for the next token, and drafts whatever its lattice holds. *)

Record Replay := mkReplay { rp_history : list Z; rp_ahead : list Z }.

Definition replay_ops (next : list Z -> Z) (lat : Lattice) : SpecModel Replay :=
  mkSpecModel _ (fun _ _ _ m => (Ret (lat, repeat f32_one 5), m))
    (fun _ batch _ _ _ m =>
       (Ret (map (fun j => mkVerifyRow (next (rp_history m ++ take j (drop 1 batch))) f32_zero f32_zero no_record)
               (seq 0 (length batch))), mkReplay (rp_history m) (drop 1 batch)))
    (fun _ _ m => (Ret tt, m))
    (fun _ a _ m => (Ret tt, mkReplay (rp_history m) (take a (rp_ahead m))))
    (fun _ t m => (Ret tt, mkReplay (rp_history m ++ t) []))
    (fun _ => 0) (fun _ => 0).

Lemma replay_row (f : nat -> VerifyRow) j n : (j <= n)%nat -> row_argmax (row_at (map f (seq 0 (S n))) j) = row_argmax (f j).
Proof.
  intros Hj. unfold row_at. by rewrite (nth_lookup_Some _ _ _ (f j)) by (by rewrite list_lookup_fmap, lookup_seq_lt by lia).
Qed.

#[export] Instance replay_greedy next lat (Hnext : forall h, 0 <= next h < 2 ^ 32) : GreedyModel (replay_ops next lat) next.
Proof.
  refine {| holds m h := rp_history m = h; saved m h _ := rp_history m = h;
            ahead m h d := rp_history m = h /\ rp_ahead m = d |}; cbn; try done.
  - intros m h l d cand stride exact rows <- _ [= <-]. split; [by split|]. intros j Hj.
    by apply (replay_row (fun j => mkVerifyRow (next (rp_history m ++ take j d)) f32_zero f32_zero no_record)).
  - intros m h d a [<- <-] _ _. done.
  - intros m h d t [<- <-] _. done.
Defined.

Lemma replay_never_fails next lat : never_fails (replay_ops next lat).
Proof. by repeat split. Qed.

(** Drafts [1; 2; 3; 4; 5] at every cycle, against a stream that counts modulo 4. *)
Definition example_lattice : Lattice := mkLattice 1 [1; 2; 3; 4; 5] [] [] (repeat f32_zero 5) (repeat f64_zero 5).
Definition count4 (h : list Z) : Z := Z.of_nat (length h) mod 4.
Lemma count4_range h : 0 <= count4 h < 2 ^ 32.
Proof. unfold count4. div_lia. Qed.

Definition example_speculator : Speculator Replay :=
  mkSpeculator (mkReplay [0] []) (mkSpecConfig SpecGreedy 5 f64_zero 1 Chain 7) (mkSpecStats 0 0 0 0 0 0 0) 0 0.

Lemma greedy_stream_witness :
  (decode (replay_ops count4 example_lattice) 2 0 0 example_speculator []).2 = [1; 2; 3; 0; 1; 2; 3; 0] /\
  exists e, (decode (replay_ops count4 example_lattice) 2 0 0 example_speculator []).2 = e /\ e = greedy count4 [0] (length e).
Proof.
  split; [vm_compute; reflexivity|].
  pose proof (greedy_stream (Hops := replay_greedy count4 example_lattice count4_range)
    (replay_ops count4 example_lattice) count4 [0] 0 example_speculator [] 2 eq_refl eq_refl eq_refl) as H.
  change (Z.of_nat (length [0]) - 1) with 0 in H.
  destruct (decode (replay_ops count4 example_lattice) 2 0 0 example_speculator []) as [[r sp'] out'].
  destruct H as (e & He & Hg & _). exists e. split; [exact He|exact Hg].
Defined.


(** ** Top-K acceptance *)

Section TopK.
Context (matrix : list float) (vocab : Z).
#[local] Abbreviation V := (Z.to_nat vocab).

Definition logit_at (j : nat) (id : Z) : float := nth (j * V + Z.to_nat id) matrix f32_zero.

(** Token [id] outranks token [d] in row [j]. *)
Definition outranks (j : nat) (d : Z) (id : nat) : bool :=
  f_gtb (logit_at j (Z.of_nat id)) (logit_at j d) ||
  (f_eqb (logit_at j (Z.of_nat id)) (logit_at j d) && (Z.of_nat id <? d)).

(** The rank of token [d] in row [j]: how many tokens outrank it. *)
Definition rank (j : nat) (d : Z) : Z := Z.of_nat (length (List.filter (outranks j d) (seq 0 V))).

Lemma count_better_spec row value d id b : Forall (fun x => f_isfinite x = true) row ->
  count_better row value d id b =
  Ret (b + Z.of_nat (length (List.filter (fun i => f_gtb (nth i row f32_zero) value ||
                         (f_eqb (nth i row f32_zero) value && (id + Z.of_nat i <? d))) (seq 0 (length row))))).
Proof.
  intros Hf. revert id b. induction Hf as [|x row Hx Hf IH]; intros id b; cbn [count_better length seq List.filter].
  - f_equal. cbn. lia.
  - rewrite Hx. cbn [negb fail_if mbind Result_bind]. unfold mbind. cbn [Result_bind]. rewrite IH.
    rewrite <- seq_shift.
    assert (forall l (f g : nat -> bool), (forall i, f (S i) = g i) ->
      length (List.filter f (map S l)) = length (List.filter g l)) as Hshift.
    { intros l f g Hfg. induction l as [|i l IHl]; cbn; [done|]. rewrite Hfg. destruct (g i); cbn; lia. }
    cbn [nth Z.of_nat]. rewrite Z.add_0_r.
    set (g := fun i : nat => f_gtb (nth i row f32_zero) value ||
                 (f_eqb (nth i row f32_zero) value && (id + 1 + Z.of_nat i <? d))).
    destruct (f_gtb x value || _); cbn [length];
      rewrite (Hshift (seq 0 (length row)) _ g)
        by (intros i; unfold g; by rewrite Nat2Z.inj_succ, <- Z.add_1_l, Z.add_assoc); f_equal; lia.
Qed.

Hypothesis Hvocab : 0 < vocab.
Hypothesis Hfinite : Forall (fun x => f_isfinite x = true) matrix.

Lemma logit_finite j id : f_isfinite (logit_at j id) = true.
Proof.
  unfold logit_at. rewrite nth_lookup. destruct (matrix !! _) as [x|] eqn:E; [|done]. cbn.
  by apply (Forall_lookup_1 _ _ _ _ Hfinite E).
Qed.

Lemma count_better_rank j d : 0 <= d < vocab -> (j * V + V <= length matrix)%nat ->
  count_better (subspan matrix (j * V) V) (logit_at j d) d 0 0 = Ret (rank j d).
Proof.
  intros Hd Hl. rewrite count_better_spec; [|by apply Forall_take, Forall_drop].
  rewrite subspan_length by done. f_equal. unfold rank. rewrite Z.add_0_l. f_equal. f_equal.
  apply List.filter_ext_in. intros i Hi%in_seq. unfold outranks, logit_at.
  rewrite nth_subspan by lia. by rewrite Nat2Z.id, Z.add_0_l.
Qed.

(** The loop accepts up to the first draft whose rank is not below [topk]. *)
Lemma accept_topk_from_spec draft topk j acc :
  Forall (fun d => 0 <= d < vocab) draft -> ((j + length draft) * V <= length matrix)%nat ->
  exists a, accept_topk_from draft matrix vocab topk j acc = Ret (acc + a)%nat /\ (a <= length draft)%nat /\
    (forall i d, (i < a)%nat -> draft !! i = Some d -> rank (j + i) d < topk) /\
    (forall d, draft !! a = Some d -> topk <= rank (j + a) d).
Proof.
  intros Hd. revert j acc. induction Hd as [|d draft Hd0 Hd IH]; intros j acc Hl; cbn [accept_topk_from length] in *.
  - exists 0%nat. rewrite Nat.add_0_r. split_and!; try done; lia.
  - replace (vocab <=? d) with false by (symmetry; apply Z.leb_gt; lia). unfold fail_if at 1. unfold mbind at 1. cbn [Result_bind].
    assert (nth (Z.to_nat d) (subspan matrix (j * V) V) f32_zero = logit_at j d) as ->
      by (rewrite nth_subspan by lia; done).
    rewrite logit_finite. cbn [negb]. unfold fail_if, mbind at 1. cbn [Result_bind].
    rewrite count_better_rank by (done || nia). cbn [mbind Result_bind]. unfold mbind. cbn [Result_bind].
    destruct (Z.leb_spec topk (rank j d)) as [Hr|Hr].
    + exists 0%nat. rewrite Nat.add_0_r. split_and!; [done|lia|lia|]. intros d' [= <-]. by rewrite Nat.add_0_r.
    + destruct (IH (S j) (S acc) ltac:(nia)) as (a & -> & Ha & H1 & H2). exists (S a). split_and!.
      * f_equal. lia.
      * lia.
      * intros [|i] d' Hi [= Hi']; [subst d'; by rewrite Nat.add_0_r|].
        rewrite Nat.add_succ_r. apply (H1 i d'); [lia|done].
      * intros d' Hd'. rewrite Nat.add_succ_r. by apply H2.
Qed.

(** Rank 0: nothing outranks it. *)
Lemma rank_top j d : rank j d < 1 -> forall id, (id < V)%nat -> outranks j d id = false.
Proof.
  unfold rank. intros Hr id Hid. apply not_true_iff_false. intros H.
  assert (In id (List.filter (outranks j d) (seq 0 V))) as Hin by (apply filter_In; split; [apply in_seq; lia|done]).
  destruct (List.filter (outranks j d) (seq 0 V)); [done|cbn in Hr; lia].
Qed.
End TopK.

(** On finite logits [accept_topk_prefix] accepts the longest prefix of drafts that each
    rank among their row's top K, by logit and then by lower id; with K = 1 that is exactly
    the prefix whose tokens are their rows' greedy choices. *)
Theorem accept_topk_prefix_spec draft matrix vocab topk :
  0 < topk <= vocab -> Forall (fun x => f_isfinite x = true) matrix -> Forall (fun d => 0 <= d < vocab) draft ->
  Z.of_nat (length matrix) = (Z.of_nat (length draft) + 1) * vocab -> Z.of_nat (length matrix) < 2 ^ 64 ->
  exists a, accept_topk_prefix draft matrix vocab topk = Ret a /\ (a <= length draft)%nat /\
    (forall j d, (j < a)%nat -> draft !! j = Some d -> rank matrix vocab j d < topk) /\
    (forall d, draft !! a = Some d -> topk <= rank matrix vocab a d) /\
    (topk = 1 -> forall j d id, (j < a)%nat -> draft !! j = Some d -> (id < Z.to_nat vocab)%nat ->
       outranks matrix vocab j d id = false).
Proof.
  intros Hk Hf Hd Hl Hsz. unfold accept_topk_prefix.
  assert ((vocab =? 0) || (topk =? 0) || (vocab <? topk) ||
          negb (Z.of_nat (length matrix) =? u64 ((Z.of_nat (length draft) + 1) * vocab)) = false) as ->.
  { rewrite u64_small, <- Hl, Z.eqb_refl by lia. lia. }
  unfold fail_if, mbind. cbn [Result_bind].
  destruct (accept_topk_from_spec matrix vocab ltac:(lia) Hf draft topk 0 0 Hd) as (a & -> & Ha & H1 & H2).
  { apply Nat2Z.inj_le. rewrite Nat2Z.inj_mul, Z2Nat.id by lia. lia. }
  exists a. cbn [Nat.add] in *. split_and!; try done.
  intros -> j d id Hj Hdj Hid. apply rank_top; [by apply H1|done].
Qed.

(** Three rows of four logits; the second draft is its row's second best. *)
Lemma accept_topk_prefix_spec_witness :
  let row := map f32_of_Z [3; 5; 1; 5] in
  exists a, accept_topk_prefix [1; 3] (row ++ row ++ row) 4 1 = Ret a /\ a = 1%nat /\
    (forall d, [1; 3] !! a = Some d -> 1 <= rank (row ++ row ++ row) 4 a d).
Proof.
  pose (m := map f32_of_Z [3; 5; 1; 5] ++ map f32_of_Z [3; 5; 1; 5] ++ map f32_of_Z [3; 5; 1; 5]).
  assert (Forall (fun x => f_isfinite x = true) m) as Hf by (repeat constructor).
  destruct (accept_topk_prefix_spec [1; 3] m 4 1 ltac:(lia) Hf ltac:(repeat constructor; lia) eq_refl ltac:(reflexivity))
    as (a & H & _ & _ & Hr & _).
  assert (accept_topk_prefix [1; 3] m 4 1 = Ret 1%nat) as E by (vm_compute; reflexivity).
  exists a. split; [exact H|]. split; [congruence|exact Hr].
Defined.
