(* ===== verification/KvPack.v ===== *)
(** Packing rows of the KV store ([src/runtime/kvstore.cpp]): bf16 values that an FP4
    quantiser put on its grid become E2M1 nibbles and one scale a block, and come back
    bit for bit. *)

From S2P Require Import Prelude Floats Dequant DequantProps.

Definition scale_of (code : Z) (e8m0 : bool) : float :=
  if e8m0 then e8m0_to_float code else fp8_e4m3_to_float code.

(** [kMag[m] * sc]; the magnitudes are those of [fp4_mag]. *)
Definition grid_value (m : nat) (sc : float) : float := f32_mul (nth m fp4_mag f32_zero) sc.
Definition with_sign (neg : bool) (v : float) : float := if neg then f_neg v else v.
Definition bf16_sign (b : Z) : bool := negb (Z.land b 0x8000 =? 0).

(** One value at a scale: its nibble, unless it is off the grid. *)
Definition pack_value (sc : float) (b : Z) : option Z :=
  let a := f_abs (bf16_to_float b) in
  let neg := bf16_sign b in
  j ← fst <$> list_find (fun m => f_eqb (grid_value m sc) a = true) (seq 0 8);
  if float_to_bf16 (with_sign neg (grid_value j sc)) =? b
  then Some (Z.lor (if neg then 8 else 0) (Z.of_nat j)) else None.

Definition pack_block (blk : list Z) (sc : float) : option (list Z) := mapM (pack_value sc) blk.

(** The largest magnitude; none when a value is not finite. *)
Definition block_amax (blk : list Z) : option float :=
  foldl (fun amax b => m ← amax; let v := bf16_to_float b in
    if f_isfinite v then Some (f_max m (f_abs v)) else None) (Some f32_zero) blk.

(** [try_code], on success with the block's nibbles. *)
Definition try_code (blk : list Z) (amax : float) (e8m0 : bool) (c : Z) : option (Z * list Z) :=
  if (if e8m0 then 254 <? c else (127 <? c) || negb (f_isfinite (fp8_e4m3_to_float (u8 c)))) then None
  else if f_gtb amax f32_zero && f_leb (scale_of (u8 c) e8m0) f32_zero then None
  else codes ← pack_block blk (scale_of (u8 c) e8m0); Some (u8 c, codes).

Fixpoint first_some {A B} (f : A -> option B) (l : list A) : option B :=
  match l with [] => None | x :: l => match f x with Some y => Some y | None => first_some f l end end.

Definition codes_from (a n : nat) : list Z := Z.of_nat <$> seq a n.
Definition all_scales (e8m0 : bool) : list Z := codes_from 0 (if e8m0 then 255 else 128).

(** [std::frexp]'s exponent. *)
Definition f32_exponent (x : float) : Z :=
  match x with S754_finite _ _ _ => snd (SFfrexp 24 128 x) | _ => 0 end.

(** The scales tried first: the quantiser's own choice. *)
Definition own_choice (amax : float) (e8m0 : bool) : list Z :=
  if f_eqb amax f32_zero then [0]
  else
    let want := f32_div amax (f32_of_Z 6) in
    if e8m0 then filter (fun c => 0 <= c <= 254) ((fun d => f32_exponent want - 1 + d + 127) <$> [-1; 0; 1; 2])
    else filter (fun c => f_eqb (fp8_e4m3_to_float c) want = true) (codes_from 1 127).

Definition choose_scale (blk : list Z) (e8m0 : bool) : option (Z * list Z) :=
  amax ← block_amax blk;
  first_some (try_code blk amax e8m0) (own_choice amax e8m0 ++ all_scales e8m0).

(** [nibbles[k >> 1] |= code], in the half that belongs to [k]. *)
Definition put_code (nibbles : list Z) (k : nat) (code : Z) : list Z :=
  alter (fun x => Z.lor x (if Nat.odd k then u8 (Z.shiftl code 4) else code)) (k / 2)%nat nibbles.
Fixpoint put_codes (nibbles : list Z) (k : nat) (codes : list Z) : list Z :=
  match codes with [] => nibbles | c :: codes => put_codes (put_code nibbles k c) (S k) codes end.

(** The loop over the blocks, from block [bi]; the outputs as a failure leaves them. *)
Fixpoint pack_blocks (bf16 : list Z) (block : nat) (e8m0 : bool) (bi todo : nat) (nibbles scales : list Z)
  : bool * list Z * list Z :=
  match todo with
  | O => (true, nibbles, scales)
  | S todo =>
      match choose_scale (subspan bf16 (bi * block)%nat block) e8m0 with
      | None => (false, nibbles, scales)
      | Some (code, codes) =>
          pack_blocks bf16 block e8m0 (S bi) todo (put_codes nibbles (bi * block)%nat codes) (<[bi := code]> scales)
      end
  end.

Definition pack_fp4_row (bf16 : list Z) (n block : nat) (e8m0 : bool) (nibbles scales : list Z)
  : bool * list Z * list Z :=
  if (block =? 0)%nat || negb (n mod block =? 0)%nat || negb (n mod 2 =? 0)%nat || (64 <? block)%nat
  then (false, nibbles, scales)
  else pack_blocks bf16 block e8m0 0 (n / block)%nat (replicate (n / 2)%nat 0 ++ drop (n / 2)%nat nibbles) scales.

Definition code_at (nibbles : list Z) (k : nat) : Z :=
  let x := nth (k / 2)%nat nibbles 0 in
  if Nat.odd k then Z.shiftr x 4 else Z.land x 0x0F.
Definition unpack_value (c : Z) (sc : float) : Z :=
  float_to_bf16 (with_sign (negb (Z.land c 8 =? 0)) (grid_value (Z.to_nat (Z.land c 7)) sc)).
Definition unpack_fp4_row (nibbles scales : list Z) (n block : nat) (e8m0 : bool) : list Z :=
  (fun k => unpack_value (code_at nibbles k) (scale_of (nth (k / block)%nat scales 0) e8m0)) <$> seq 0 n.

(** ** A packed value comes back *)

Lemma pack_value_back sc b c : pack_value sc b = Some c -> 0 <= c < 16 /\ unpack_value c sc = b.
Proof.
  unfold pack_value. destruct (list_find _ _) as [[j m]|] eqn:Hj; cbn; [|done].
  apply list_find_Some in Hj as (Hl%lookup_seq & _). destruct Hl as [-> Hlt]. cbn.
  destruct (_ =? b) eqn:Hb; [|done]. intros [= <-]. apply Z.eqb_eq in Hb.
  unfold unpack_value. destruct (bf16_sign b); cbn [with_sign] in Hb;
    destruct j as [|[|[|[|[|[|[|[|j]]]]]]]]; try lia; split; (done || exact Hb).
Qed.

Lemma pack_block_back blk sc codes : pack_block blk sc = Some codes ->
  Forall2 (fun b c => 0 <= c < 16 /\ unpack_value c sc = b) blk codes.
Proof.
  unfold pack_block. intros H%mapM_Some. induction H as [|b c blk codes Hbc H IH]; constructor; [|done].
  by apply pack_value_back.
Qed.

Lemma first_some_in {A B} (f : A -> option B) l y : first_some f l = Some y -> exists x, x ∈ l /\ f x = Some y.
Proof.
  induction l as [|x l IH]; cbn; [done|]. destruct (f x) eqn:E.
  - intros [= <-]. exists x. split; [by left|done].
  - intros (x' & Hx & Hf)%IH. exists x'. split; [by right|done].
Qed.

Lemma first_some_is_Some {A B} (f : A -> option B) l x : x ∈ l -> is_Some (f x) -> is_Some (first_some f l).
Proof.
  induction l as [|a l IH]; [by intros H%elem_of_nil|]. cbn. intros [->|H]%elem_of_cons Hf.
  - destruct Hf as [y ->]. done.
  - destruct (f a); [done|]. by apply IH.
Qed.

Lemma choose_scale_back blk e8m0 code codes : choose_scale blk e8m0 = Some (code, codes) ->
  Forall2 (fun b c => 0 <= c < 16 /\ unpack_value c (scale_of code e8m0) = b) blk codes.
Proof.
  unfold choose_scale. destruct (block_amax blk); cbn; [|done].
  intros (c & _ & H)%first_some_in. unfold try_code in H. case_match; [done|]. case_match; [done|].
  destruct (pack_block _ _) eqn:Hp; cbn in H; [|done]. simplify_eq. by apply pack_block_back.
Qed.

(** ** Nibbles *)

Lemma put_code_same nb k c : 0 <= c < 16 -> (k / 2 < length nb)%nat -> code_at nb k = 0 -> code_at (put_code nb k c) k = c.
Proof.
  intros Hc Hk H0. unfold code_at, put_code in *.
  destruct (lookup_lt_is_Some_2 nb (k / 2)%nat Hk) as [x Hx].
  rewrite !nth_lookup, ?list_lookup_alter_eq, Hx in *. cbn [default from_option id fmap option_fmap option_map] in *. destruct (Nat.odd k).
  - rewrite Z.shiftr_lor, H0. unfold u8.
    rewrite Z.shiftl_mul_pow2, Z.mod_small, Z.shiftr_div_pow2, Z.div_mul by lia. done.
  - rewrite Z.land_lor_distr_l, H0. change 15 with (Z.ones 4). rewrite Z.land_ones, Z.mod_small by lia. done.
Qed.

Lemma put_code_other nb k k' c : 0 <= c < 16 -> k <> k' -> code_at (put_code nb k c) k' = code_at nb k'.
Proof.
  intros Hc Hk. unfold code_at, put_code. destruct (decide (k / 2 = k' / 2)%nat) as [He|He].
  - rewrite He, !nth_lookup, list_lookup_alter_eq.
    destruct (nb !! (k' / 2)%nat) as [x|]; cbn [default from_option id fmap option_fmap option_map]; [|done].
    assert (Ho : Nat.odd k = negb (Nat.odd k')).
    { pose proof (Nat.div2_odd k) as Hdk. pose proof (Nat.div2_odd k') as Hdk'. rewrite !Nat.div2_div in *.
      destruct (Nat.odd k), (Nat.odd k'); cbn in *; done || lia. }
    rewrite Ho. destruct (Nat.odd k'); cbn [negb].
    + rewrite Z.shiftr_lor, (Z.shiftr_div_pow2 c), Z.div_small by lia. apply Z.lor_0_r.
    + rewrite Z.land_lor_distr_l. unfold u8. rewrite Z.shiftl_mul_pow2, Z.mod_small by lia.
      change 15 with (Z.ones 4). rewrite (Z.land_ones (c * 2 ^ 4)), Z.mod_mul by lia. apply Z.lor_0_r.
  - by rewrite !nth_lookup, list_lookup_alter_ne.
Qed.

Lemma put_codes_length nb k codes : length (put_codes nb k codes) = length nb.
Proof. revert nb k. induction codes as [|c codes IH]; intros nb k; cbn [put_codes]; [done|]. rewrite IH. apply length_alter. Qed.

Lemma put_codes_other nb k0 codes k : Forall (fun c => 0 <= c < 16) codes ->
  (k < k0 \/ k0 + length codes <= k)%nat -> code_at (put_codes nb k0 codes) k = code_at nb k.
Proof.
  intros Hc. revert nb k0. induction Hc as [|c codes Hc _ IH]; intros nb k0; cbn [put_codes length]; [done|].
  intros Hk. rewrite IH by lia. apply put_code_other; [done|lia].
Qed.

Lemma put_codes_at nb k0 codes i c : Forall (fun c => 0 <= c < 16) codes ->
  (k0 + length codes <= 2 * length nb)%nat -> (forall k, k0 <= k < k0 + length codes -> code_at nb k = 0%Z)%nat ->
  codes !! i = Some c -> code_at (put_codes nb k0 codes) (k0 + i) = c.
Proof.
  intros Hc. revert nb k0 i. induction Hc as [|c' codes Hc' Hc IH]; intros nb k0 i; cbn [put_codes length]; [done|].
  intros Hl H0 Hi. destruct i as [|i]; cbn in Hi.
  - simplify_eq. rewrite Nat.add_0_r, put_codes_other by (done || lia).
    apply put_code_same; [done| |apply H0; lia]. apply Nat.Div0.div_lt_upper_bound. lia.
  - replace (k0 + S i)%nat with (S k0 + i)%nat by lia. apply IH; [| |done].
    + unfold put_code. rewrite length_alter. lia.
    + intros k Hk. rewrite put_code_other by (done || lia). apply H0. lia.
Qed.

(** ** A packed row comes back *)

Lemma subspan_lookup {A} (l : list A) off n i : (i < n)%nat -> subspan l off n !! i = l !! (off + i)%nat.
Proof. intros. unfold subspan. rewrite lookup_take by done. by rewrite decide_True, lookup_drop. Qed.

Definition unpacked (bf16 : list Z) (block : nat) (e8m0 : bool) (nibbles scales : list Z) (k : nat) : Prop :=
  unpack_value (code_at nibbles k) (scale_of (nth (k / block)%nat scales 0) e8m0) = nth k bf16 0.

Lemma pack_blocks_back bf16 block e8m0 bi todo nb sc nb' sc' : (0 < block)%nat ->
  ((bi + todo) * block <= length bf16)%nat -> ((bi + todo) * block <= 2 * length nb)%nat -> (bi + todo <= length sc)%nat ->
  (forall k, bi * block <= k < (bi + todo) * block -> code_at nb k = 0%Z)%nat ->
  pack_blocks bf16 block e8m0 bi todo nb sc = (true, nb', sc') ->
  (forall k, k < bi * block -> code_at nb' k = code_at nb k)%nat /\
  (forall i, i < bi -> nth i sc' 0%Z = nth i sc 0%Z)%nat /\
  (forall k, bi * block <= k < (bi + todo) * block -> unpacked bf16 block e8m0 nb' sc' k)%nat /\
  length nb' = length nb /\ length sc' = length sc.
Proof.
  intros Hb. revert bi nb sc. induction todo as [|todo IH]; intros bi nb sc Hl Hn Hs H0; cbn.
  { intros [= <- <-]. split_and!; try done. lia. }
  destruct (choose_scale _ _) as [[code codes]|] eqn:Hch; [|done].
  apply choose_scale_back in Hch. pose proof (Forall2_length _ _ _ Hch) as Hlen.
  rewrite subspan_length in Hlen by lia.
  assert (Hc : Forall (fun c => 0 <= c < 16) codes) by (eapply Forall2_Forall_r; [exact Hch|]; apply Forall_true; naive_solver).
  assert (Hz : forall k, (S bi * block <= k < (S bi + todo) * block)%nat -> code_at (put_codes nb (bi * block) codes) k = 0).
  { intros k Hk. rewrite put_codes_other by (done || lia). apply H0. lia. }
  intros H. apply IH in H as (H1 & H2 & H3 & H4 & H5); rewrite ?put_codes_length, ?length_insert in *; try lia; [|done].
  split_and!; [| | |done|done].
  - intros k Hk. rewrite H1 by lia. apply put_codes_other; [done|lia].
  - intros i Hi. rewrite H2 by lia. rewrite !nth_lookup, list_lookup_insert_ne by lia. done.
  - intros k Hk. destruct (decide (S bi * block <= k)%nat); [apply H3; lia|].
    assert (Hdiv : (k / block = bi)%nat).
    { symmetry. apply (Nat.div_unique k block bi (k - bi * block)); lia. }
    assert (Hi : (k - bi * block < length codes)%nat) by lia.
    apply lookup_lt_is_Some_2 in Hi as [c Hi].
    destruct (Forall2_lookup_r _ _ _ _ _ Hch Hi) as (b & Hbk & Hc16 & Hback).
    rewrite subspan_lookup in Hbk by lia. replace (bi * block + (k - bi * block))%nat with k in Hbk by lia.
    unfold unpacked. rewrite Hdiv, H1, H2 by lia.
    replace k with (bi * block + (k - bi * block))%nat at 1 by lia.
    rewrite (put_codes_at nb _ codes _ c) by (done || lia || (intros; apply H0; lia)).
    rewrite !nth_lookup, list_lookup_insert_eq, Hbk by lia. exact Hback.
Qed.

Lemma code_at_zeros m l k : (k / 2 < m)%nat -> code_at (replicate m 0 ++ l) k = 0.
Proof.
  intros Hk. unfold code_at. rewrite nth_lookup, lookup_app_l by (by rewrite length_replicate).
  rewrite lookup_replicate_2 by done. by destruct (Nat.odd k).
Qed.

(** ** A quantiser's row is packed *)

(** The scale bytes a quantiser writes. *)
Definition scale_limit (e8m0 : bool) : nat := if e8m0 then 255 else 127.
Definition scale_valid (e8m0 : bool) (c : Z) : Prop := 0 <= c < Z.of_nat (scale_limit e8m0).

Definition all_grid (P : bool -> Z -> Z -> bool) : bool :=
  forallb (fun e8m0 => forallb (fun c => forallb (P e8m0 c) (codes_from 0 16)) (codes_from 0 (scale_limit e8m0))) [false; true].

Lemma codes_from_spec a n x : x ∈ codes_from a n <-> Z.of_nat a <= x < Z.of_nat (a + n).
Proof.
  unfold codes_from. rewrite list_elem_of_fmap. setoid_rewrite elem_of_seq. split; [naive_solver lia|].
  intros H. exists (Z.to_nat x). lia.
Qed.

Lemma all_grid_spec P e8m0 c j : all_grid P = true -> scale_valid e8m0 c -> 0 <= j < 16 -> P e8m0 c j = true.
Proof.
  intros H Hc Hj. unfold all_grid in H. rewrite forallb_forall in H.
  specialize (H e8m0 ltac:(destruct e8m0; [right; left|left]; done)). rewrite forallb_forall in H.
  specialize (H c ltac:(apply list_elem_of_In, codes_from_spec; unfold scale_valid in Hc; lia)).
  rewrite forallb_forall in H. apply H, list_elem_of_In, codes_from_spec. lia.
Qed.

(** A finite value on the grid of a scale is packed at that scale, and only a zero is on the
    grid of a scale that is not positive. *)
Definition grid_point_packs (e8m0 : bool) (c j : Z) : bool :=
  let b := unpack_value j (scale_of c e8m0) in
  negb (f_isfinite (bf16_to_float b)) ||
  (bool_decide (is_Some (pack_value (scale_of c e8m0) b)) &&
   (negb (f_leb (scale_of c e8m0) f32_zero) || match f_abs (bf16_to_float b) with S754_zero false => true | _ => false end)).

Lemma grid_packs : all_grid grid_point_packs = true.
Proof. by vm_compute. Qed.

Lemma grid_packs_at e8m0 c j : scale_valid e8m0 c -> 0 <= j < 16 ->
  let b := unpack_value j (scale_of c e8m0) in
  f_isfinite (bf16_to_float b) = true ->
  is_Some (pack_value (scale_of c e8m0) b) /\
  (f_leb (scale_of c e8m0) f32_zero = true -> f_abs (bf16_to_float b) = f32_zero).
Proof.
  intros Hc Hj b Hf. pose proof (all_grid_spec _ e8m0 c j grid_packs Hc Hj) as H.
  unfold grid_point_packs in H. cbv zeta in H. fold b in H. rewrite Hf in H. cbn [negb orb] in H.
  apply andb_true_iff in H as [H1 H2]. apply bool_decide_eq_true in H1. split; [done|].
  intros Hl. rewrite Hl in H2. cbn [negb orb] in H2. by destruct (f_abs _) as [[]| | |].
Qed.

Lemma block_amax_acc blk m :
  foldl (fun amax b => m ← amax; let v := bf16_to_float b in
    if f_isfinite v then Some (f_max m (f_abs v)) else None) (Some m) blk =
  if forallb (fun b => f_isfinite (bf16_to_float b)) blk
  then Some (foldl (fun m b => f_max m (f_abs (bf16_to_float b))) m blk) else None.
Proof.
  revert m. induction blk as [|b blk IH]; intros m; cbn; [done|].
  destruct (f_isfinite (bf16_to_float b)); cbn; [apply IH|].
  clear. by induction blk.
Qed.

Lemma block_amax_spec blk :
  block_amax blk = if forallb (fun b => f_isfinite (bf16_to_float b)) blk
    then Some (foldl (fun m b => f_max m (f_abs (bf16_to_float b))) f32_zero blk) else None.
Proof. apply block_amax_acc. Qed.

Lemma amax_zero blk : Forall (fun b => f_abs (bf16_to_float b) = f32_zero) blk ->
  foldl (fun m b => f_max m (f_abs (bf16_to_float b))) f32_zero blk = f32_zero.
Proof. induction 1 as [|b blk Hb _ IH]; cbn; [done|]. rewrite Hb. exact IH. Qed.

(** The values of a block a quantiser wrote at scale [c]. *)
Definition on_grid (e8m0 : bool) (c : Z) (b : Z) : Prop :=
  exists j, 0 <= j < 16 /\ b = unpack_value j (scale_of c e8m0) /\ f_isfinite (bf16_to_float b) = true.

Lemma choose_scale_grid blk e8m0 c : scale_valid e8m0 c -> Forall (on_grid e8m0 c) blk ->
  is_Some (choose_scale blk e8m0).
Proof.
  intros Hc Hg. unfold choose_scale. rewrite block_amax_spec.
  assert (Hfin : forallb (fun b => f_isfinite (bf16_to_float b)) blk = true).
  { apply forallb_forall. intros b Hb%list_elem_of_In. by destruct (proj1 (Forall_forall _ _) Hg b Hb) as (j & _ & _ & Hf). }
  rewrite Hfin. cbn [mbind option_bind].
  apply (first_some_is_Some _ _ c).
  { apply elem_of_app. right. apply codes_from_spec. unfold scale_valid, scale_limit in Hc. destruct e8m0; lia. }
  unfold try_code. assert (Hu : u8 c = c) by (apply Z.mod_small; unfold scale_valid, scale_limit in Hc; destruct e8m0; lia).
  rewrite !Hu. assert (Hr : (if e8m0 then 254 <? c else (127 <? c) || negb (f_isfinite (fp8_e4m3_to_float c))) = false).
  { unfold scale_valid, scale_limit in Hc. destruct e8m0; [apply Z.ltb_ge; lia|].
    assert (Hall : forallb (fun c => negb ((127 <? c) || negb (f_isfinite (fp8_e4m3_to_float c)))) (codes_from 0 127) = true)
      by (by vm_compute).
    rewrite forallb_forall in Hall. apply negb_true_iff, Hall, list_elem_of_In, codes_from_spec. lia. }
  rewrite Hr. destruct (f_gtb _ _ && _) eqn:Hz.
  { apply andb_true_iff in Hz as [Hgt Hle]. rewrite amax_zero in Hgt; [by vm_compute in Hgt|].
    eapply Forall_impl; [exact Hg|]. intros b (j & Hj & -> & Hf). by apply grid_packs_at. }
  assert (is_Some (pack_block blk (scale_of c e8m0))) as [codes ->]; [|by eexists].
  apply mapM_is_Some, (Forall_impl _ _ _ Hg). intros b (j & Hj & -> & Hf). by apply grid_packs_at.
Qed.

Lemma pack_blocks_grid bf16 block e8m0 scales bi todo nb sc : (0 < block)%nat ->
  ((bi + todo) * block <= length bf16)%nat ->
  (forall i, bi <= i < bi + todo -> scale_valid e8m0 (nth i scales 0%Z))%nat ->
  (forall k b, bf16 !! k = Some b -> on_grid e8m0 (nth (k / block)%nat scales 0) b) ->
  (pack_blocks bf16 block e8m0 bi todo nb sc).1.1 = true.
Proof.
  intros Hb. revert bi nb sc. induction todo as [|todo IH]; intros bi nb sc Hl Hv Hg; cbn [pack_blocks]; [done|].
  destruct (choose_scale_grid (subspan bf16 (bi * block) block) e8m0 (nth bi scales 0)) as [[code codes] ->];
    [apply Hv; lia| |apply IH; [lia|intros; apply Hv; lia|done]].
  apply Forall_lookup. intros i b Hi.
  assert (Hib : (i < block)%nat) by (apply lookup_lt_Some in Hi; rewrite subspan_length in Hi; lia).
  rewrite subspan_lookup in Hi by done. specialize (Hg _ _ Hi).
  by rewrite <- (Nat.div_unique (bi * block + i) block bi i) in Hg by lia.
Qed.

Lemma code_at_range nb k : Forall (fun x => 0 <= x < 256) nb -> 0 <= code_at nb k < 16.
Proof.
  intros Hn. unfold code_at. assert (Hx : 0 <= nth (k / 2)%nat nb 0 < 256).
  { rewrite nth_lookup. destruct (nb !! (k / 2)%nat) eqn:E; cbn [default from_option id]; [|lia].
    by eapply (proj1 (Forall_lookup _ _) Hn). }
  destruct (Nat.odd k).
  - rewrite Z.shiftr_div_pow2 by lia. change (2 ^ 4) with 16. div_lia.
  - change 0x0F with (Z.ones 4). rewrite Z.land_ones by lia. change (2 ^ 4) with 16. div_lia.
Qed.

(** A row's shape, and outputs large enough for it. *)
Definition row_fits (n block : nat) (nibbles scales : list Z) : Prop :=
  (0 < block <= 64)%nat /\ (n mod block = 0)%nat /\ (n mod 2 = 0)%nat /\
  (n / 2 <= length nibbles)%nat /\ (n / block <= length scales)%nat.

Lemma row_blocks n block : (0 < block)%nat -> (n mod block = 0)%nat -> (n / block * block = n)%nat.
Proof. intros. pose proof (Nat.div_mod_eq n block). lia. Qed.

(** What packing a row means: a packed row unpacks to the same bits, negative zeros
    included; and a row that was unpacked from nibbles and valid scales is packed. *)
Lemma pack_row_back row n block e8m0 nibbles scales nb' sc' : length row = n -> row_fits n block nibbles scales ->
  pack_fp4_row row n block e8m0 nibbles scales = (true, nb', sc') -> unpack_fp4_row nb' sc' n block e8m0 = row.
Proof.
  intros Hl (Hb & Hnb & Hn2 & Hnib & Hsc). unfold pack_fp4_row.
  rewrite Hnb, Hn2, !Nat.eqb_refl, (proj2 (Nat.eqb_neq block 0)), (proj2 (Nat.ltb_ge 64 block)) by lia. cbn [negb orb].
  pose proof (row_blocks n block ltac:(lia) Hnb) as Hd. pose proof (row_blocks n 2 ltac:(lia) Hn2) as Hd2.
  intros H. apply pack_blocks_back in H as (_ & _ & H & _ & _); [|lia|lia| |lia|].
  - apply list_eq. intros k. unfold unpack_fp4_row. rewrite list_lookup_fmap.
    destruct (decide (k < n)%nat) as [Hk|Hk].
    + rewrite lookup_seq_lt by done. cbn [fmap option_fmap option_map Nat.add].
      specialize (H k ltac:(lia)). unfold unpacked in H. rewrite H, nth_lookup.
      destruct (lookup_lt_is_Some_2 row k) as [x ->]; [lia|done].
    + rewrite lookup_seq_ge, lookup_ge_None_2 by lia. done.
  - rewrite length_app, length_replicate, length_drop. lia.
  - intros k Hk. apply code_at_zeros, Nat.Div0.div_lt_upper_bound. lia.
Qed.

Lemma pack_row_grid n block e8m0 nibbles scales nb0 sc0 : row_fits n block nibbles scales ->
  Forall (fun x => 0 <= x < 256) nb0 -> (forall i, i < n / block -> scale_valid e8m0 (nth i sc0 0%Z))%nat ->
  forallb (fun b => f_isfinite (bf16_to_float b)) (unpack_fp4_row nb0 sc0 n block e8m0) = true ->
  (pack_fp4_row (unpack_fp4_row nb0 sc0 n block e8m0) n block e8m0 nibbles scales).1.1 = true.
Proof.
  intros (Hb & Hnb & Hn2 & _ & _) Hnib Hv Hfin. unfold pack_fp4_row.
  rewrite Hnb, Hn2, !Nat.eqb_refl, (proj2 (Nat.eqb_neq block 0)), (proj2 (Nat.ltb_ge 64 block)) by lia. cbn [negb orb].
  pose proof (row_blocks n block ltac:(lia) Hnb) as Hd.
  apply (pack_blocks_grid _ _ _ sc0); [lia| |intros; apply Hv; lia|].
  { unfold unpack_fp4_row. rewrite length_fmap, length_seq. lia. }
  rewrite forallb_forall in Hfin. intros k b Hk.
  specialize (Hfin b ltac:(eapply list_elem_of_In, list_elem_of_lookup_2, Hk)).
  unfold unpack_fp4_row in Hk. apply list_lookup_fmap_Some in Hk as (k' & -> & Hk).
  apply lookup_seq in Hk as [-> Hk]. exists (code_at nb0 k). split_and!; [apply code_at_range; done..|done|done].
Qed.

(** Packing a row is exact and complete.  A row that packs unpacks to the very same
    bf16 bits (negative zero included), and every finite row that some FP4 quantiser wrote
    (nibbles times one valid scale a block) does pack, so it is never kept raw. *)
Theorem pack_row_exact row n block e8m0 nibbles scales : length row = n -> row_fits n block nibbles scales ->
  let '(ok, nb', sc') := pack_fp4_row row n block e8m0 nibbles scales in
  (ok = true -> unpack_fp4_row nb' sc' n block e8m0 = row) /\
  ((exists nb0 sc0, row = unpack_fp4_row nb0 sc0 n block e8m0 /\ Forall (fun x => 0 <= x < 256) nb0 /\
      (forall i, i < n / block -> scale_valid e8m0 (nth i sc0 0%Z))%nat /\
      forallb (fun b => f_isfinite (bf16_to_float b)) row = true) -> ok = true).
Proof.
  intros Hl Hf. destruct (pack_fp4_row _ _ _ _ _ _) as [[ok nb'] sc'] eqn:E. split.
  - intros ->. by eapply pack_row_back.
  - intros (nb0 & sc0 & -> & Hn & Hv & Hfin).
    pose proof (pack_row_grid n block e8m0 nibbles scales nb0 sc0 Hf Hn Hv Hfin) as H. by rewrite E in H.
Qed.

Lemma pack_row_exact_witness :
  let row := [0x3F00; 0xC080; 0x8000; 0x4140] in
  pack_fp4_row row 4 2 false [0; 0] [0; 0] = (true, [225; 120], [56; 64]) /\
  unpack_fp4_row [225; 120] [56; 64] 4 2 false = row.
Proof.
  intros row.
  assert (E : pack_fp4_row row 4 2 false [0; 0] [0; 0] = (true, [225; 120], [56; 64])) by (by vm_compute).
  split; [exact E|].
  pose proof (pack_row_exact row 4 2 false [0; 0] [0; 0] eq_refl ltac:(unfold row_fits; cbn; lia)) as H.
  rewrite E in H. exact (proj1 H eq_refl).
Defined.
