(* ===== verification/KvLayout.v ===== *)
(** Geometry and memory of the KV store ([src/runtime/kvstore.h], [kvstore.cpp]): whose planes
    a layer reads, the regions of the store, the slabs they are cut into, and the bytes behind
    a flat offset.

    Mapped memory is a list of bytes per slab.  An access outside its slab is undefined in the
    source: a write there changes nothing here and a read comes back short.  The lemmas on
    regions in [KvStoreProps], [KvContext] and [KvRing] place the accesses inside. *)

From S2P Require Import Prelude Types V41Config.

(** ** Configuration *)

Definition kNoPlane : Z := 0xFFFFFFFF.

Record KvStoreConfig := mkKvConfig {
  kc_layers : Z; kc_window : Z; kc_latent_dim : Z; kc_index_dim : Z; kc_max_context : Z; kc_scale_block : Z;
  kc_max_ratio : Z; kc_index_topk : Z; kc_initial_context : Z; kc_slab_bytes : Z;
  kc_plane_of : list Z; kc_ratio : list Z }.
#[export] Instance KvStoreConfig_eta : Eta KvStoreConfig := fun c =>
  mkKvConfig (kc_layers c) (kc_window c) (kc_latent_dim c) (kc_index_dim c) (kc_max_context c) (kc_scale_block c)
    (kc_max_ratio c) (kc_index_topk c) (kc_initial_context c) (kc_slab_bytes c) (kc_plane_of c) (kc_ratio c).

Definition KvStoreConfig_default : KvStoreConfig := mkKvConfig 40 128 512 128 1024 32 8 512 0 (2 ^ 31) [] [].

Definition layer_ids (n : Z) : list Z := Z.of_nat <$> seq 0 (Z.to_nat n).

(** [for_model]: every layer with a ratio reads the planes of the latest KV source. *)
Definition model_ratio (c : TextConfig) : list Z := compress_ratio c <$> layer_ids (tc_num_hidden_layers c).
Fixpoint model_planes (c : TextConfig) (cur : Z) (ls : list Z) : list Z :=
  match ls with
  | [] => []
  | l :: ls =>
      let r := compress_ratio c l in
      let cur := if is_kv_source c l && negb (r =? 0) then l else cur in
      (if r =? 0 then kNoPlane else cur) :: model_planes c cur ls
  end.
Definition for_model (c : TextConfig) (max_context initial_context : Z) : KvStoreConfig :=
  mkKvConfig (tc_num_hidden_layers c) (tc_sliding_window c) (tc_head_dim c) (tc_index_head_dim c) max_context 32
    8 (tc_index_topk c) initial_context (2 ^ 31)
    (model_planes c kNoPlane (layer_ids (tc_num_hidden_layers c))) (model_ratio c).

Section Config.
Context (c : KvStoreConfig).

Definition per_source : bool := negb (bool_decide (kc_plane_of c = [])).
Definition owner (l : Z) : Z :=
  if kc_layers c <=? l then kNoPlane
  else if per_source then nth (Z.to_nat l) (kc_plane_of c) kNoPlane else l.
Definition plane_ratio (o : Z) : Z :=
  if negb per_source || (Z.of_nat (length (kc_ratio c)) <=? o) then 1
  else Z.max 1 (nth (Z.to_nat o) (kc_ratio c) 0).
Definition owners : list Z := filter (fun l => owner l = l) (layer_ids (kc_layers c)).
Definition rows_for (o positions : Z) : Z := let r := plane_ratio o in u32 (positions + r - 1) / r.
Definition topk_rows : Z := u32 (kc_window c + Z.min (kc_index_topk c) (kc_max_context c)).
Definition window_scales : Z := kc_latent_dim c / kc_scale_block c.

(** Bytes of each kind of region. *)
Definition window_bytes : Z := u64 (kc_layers c * kc_window c * u32 (kc_latent_dim c + window_scales)).
Definition compressed_bytes (positions : Z) : Z :=
  foldl (fun n o => u64 (n + rows_for o positions * kc_latent_dim c * 2)) 0 owners.
Definition index_key_bytes (positions : Z) : Z :=
  foldl (fun n o => u64 (n + rows_for o positions * kc_index_dim c * 2)) 0 owners.
Definition cmp_state_bytes : Z := u64 (Z.of_nat (length owners) * kc_max_ratio c * kc_latent_dim c * 4 * 2).
Definition topk_bytes : Z := u64 (kc_layers c * topk_rows * 4).
Definition total_bytes (positions : Z) : Z :=
  u64 (window_bytes + compressed_bytes positions + index_key_bytes positions + cmp_state_bytes + topk_bytes).
Definition min_slabs (positions : Z) : Z :=
  if kc_slab_bytes c =? 0 then 1 else u32 (u64 (total_bytes positions + kc_slab_bytes c - 1) / kc_slab_bytes c).
Definition packed_bytes (positions : Z) : Z :=
  foldl (fun n o =>
    let r := plane_ratio o in
    let n := u64 (n + positions / r *
      u32 (kc_latent_dim c / 2 + kc_latent_dim c / 16 + kc_index_dim c / 2 + kc_index_dim c / 32)) in
    if 1 <? r then u64 (n + r * kc_latent_dim c * 4 * 2) else n) 0 owners.
End Config.

(** ** Layout *)

Record Layout := mkLayout {
  l_cap : Z; l_win_val : Z; l_win_scale : Z; l_top : Z; l_state : Z; l_total : Z;
  l_cmp : list Z; l_idx : list Z; l_slab_at : list Z; l_slab_size : list Z }.
Definition Layout_default : Layout := mkLayout 0 0 0 0 0 0 [] [] [] [].

Definition slab_of (l : Layout) (off : Z) : nat :=
  foldl (fun best ia => if ia.2 <=? off then ia.1 else best) 0%nat (imap pair (l_slab_at l)).

(** The state of [layout_for]'s loop: where the next region goes, the slabs opened and the
    sizes of those closed. *)
Record Placer := mkPlacer { pl_off : Z; pl_at : list Z; pl_size : list Z }.
Definition slab_base (p : Placer) : Z := default 0 (last (pl_at p)).

Definition place (limit bytes : Z) (p : Placer) : Z * Placer :=
  let at_ := align_up (pl_off p) 256 in
  if negb (bytes =? 0) && (limit <? u64 (u64 (at_ + bytes) - slab_base p)) && (slab_base p <? at_) then
    let size := u64 (align_up at_ 4096 - slab_base p) in
    let at_ := u64 (slab_base p + size) in
    (at_, mkPlacer (u64 (at_ + bytes)) (pl_at p ++ [at_]) (pl_size p ++ [size]))
  else (at_, mkPlacer (u64 (at_ + bytes)) (pl_at p) (pl_size p)).

Fixpoint place_all (limit : Z) (sizes : list Z) (p : Placer) : list Z * Placer :=
  match sizes with
  | [] => ([], p)
  | n :: sizes =>
      let '(o, p) := place limit n p in
      let '(os, p) := place_all limit sizes p in (o :: os, p)
  end.

(** The regions in the order they are placed: window values, window scales, top-k lists,
    carried state, then a compressed plane and an index-key plane an owner. *)
Definition region_sizes (c : KvStoreConfig) (os : list Z) (cap : Z) : list Z :=
  [u64 (kc_layers c * kc_window c * kc_latent_dim c);
   u64 (kc_layers c * kc_window c * window_scales c);
   topk_bytes c;
   u64 (Z.of_nat (length os) * kc_max_ratio c * kc_latent_dim c * 4 * 2)] ++
  ((fun o => u64 (rows_for c o cap * kc_latent_dim c * 2)) <$> os) ++
  ((fun o => u64 (rows_for c o cap * kc_index_dim c * 2)) <$> os).

Definition layout_for (c : KvStoreConfig) (os : list Z) (cap : Z) : Layout :=
  let limit := if kc_slab_bytes c =? 0 then 2 ^ 64 - 1 else kc_slab_bytes c in
  let '(offs, p) := place_all limit (region_sizes c os cap) (mkPlacer 0 [0] []) in
  let total := align_up (pl_off p) 4096 in
  mkLayout cap (nth 0 offs 0) (nth 1 offs 0) (nth 2 offs 0) (nth 3 offs 0) total
    (take (length os) (drop 4 offs)) (drop (4 + length os) offs)
    (pl_at p) (pl_size p ++ [u64 (total - slab_base p)]).

(** ** Memory *)

(** A mapped, device-addressable allocation; [b_host] says [host_ptr] is not null. *)
Record GpuBuffer := mkGpuBuffer { b_bytes : Z; b_host : bool; b_dev : Z; b_data : list Z }.
#[export] Instance GpuBuffer_eta : Eta GpuBuffer := fun b => mkGpuBuffer (b_bytes b) (b_host b) (b_dev b) (b_data b).

(** A host pointer: a slab and an offset in it. *)
Definition HostPtr : Type := nat * Z.

Definition overlay (o : nat) (bs l : list Z) : list Z :=
  if (o + length bs <=? length l)%nat then take o l ++ bs ++ drop (o + length bs) l else l.

Definition ptr_read (bufs : list GpuBuffer) (p : HostPtr) (n : Z) : list Z :=
  take (Z.to_nat n) (drop (Z.to_nat p.2) (default [] (b_data <$> bufs !! p.1))).
Definition ptr_write (bufs : list GpuBuffer) (p : HostPtr) (bs : list Z) : list GpuBuffer :=
  alter (fun b => b <| b_data ::= overlay (Z.to_nat p.2) bs |>) p.1 bufs.

(** [at(off)] and [dev(off)] *)
Definition host_at (l : Layout) (off : Z) : HostPtr :=
  let s := slab_of l off in (s, off - nth s (l_slab_at l) 0).
Definition dev_at (l : Layout) (bufs : list GpuBuffer) (off : Z) : Z :=
  let s := slab_of l off in u64 (default 0 (b_dev <$> bufs !! s) + (off - nth s (l_slab_at l) 0)).

(** [memcpy] from and to a flat offset, and several of them in a row. *)
Definition mem_read (l : Layout) (bufs : list GpuBuffer) (off n : Z) : list Z := ptr_read bufs (host_at l off) n.
Definition mem_write (l : Layout) (bufs : list GpuBuffer) (off : Z) (bs : list Z) : list GpuBuffer :=
  ptr_write bufs (host_at l off) bs.
Definition mem_writes (l : Layout) (bufs : list GpuBuffer) (ws : list (Z * list Z)) : list GpuBuffer :=
  foldl (fun bufs w => mem_write l bufs w.1 w.2) bufs ws.
Definition zeros (n : Z) : list Z := replicate (Z.to_nat n) 0.

(** ** Where the regions lie *)

Lemma align_up_bounds k v : 0 <= k < 64 -> 0 <= v -> v + 2 ^ k <= 2 ^ 64 -> v <= align_up v (2 ^ k) < v + 2 ^ k.
Proof.
  intros Hk Hv Hb. assert (0 < 2 ^ k) by (apply Z.pow_pos_nonneg; lia).
  rewrite align_up_spec by lia.
  pose proof (Z.div_mod (v + 2 ^ k - 1) (2 ^ k)). pose proof (Z.mod_pos_bound (v + 2 ^ k - 1) (2 ^ k)). lia.
Qed.

(** What is placed so far: slabs tile an initial stretch, each region ends in its slab, and
    the regions come one after another. *)
Record placed (p : Placer) (rs : list (Z * Z)) : Prop := {
  pd_last : last (pl_at p) = Some (slab_base p) /\ length (pl_at p) = S (length (pl_size p)) /\ pl_at p !! 0%nat = Some 0;
  pd_sizes : forall i a b, pl_at p !! i = Some a -> pl_at p !! S i = Some b -> a < b /\ pl_size p !! i = Some (b - a);
  pd_off : 0 <= slab_base p <= pl_off p;
  pd_regs : forall i r, rs !! i = Some r -> 0 <= r.1 /\ 0 <= r.2 /\ exists s a, pl_at p !! s = Some a /\ a <= r.1 /\
    r.1 + r.2 <= default (pl_off p) (pl_at p !! S s);
  pd_below : forall i r, rs !! i = Some r -> r.1 + r.2 <= pl_off p;
  pd_disj : forall i j r q, (i < j)%nat -> rs !! i = Some r -> rs !! j = Some q -> r.1 + r.2 <= q.1 }.

Lemma lookup_snoc {X} (l : list X) x i y : (l ++ [x]) !! i = Some y <-> l !! i = Some y \/ (i = length l /\ y = x).
Proof.
  rewrite lookup_app_Some, list_lookup_singleton_Some. split; [intros [?|[? []]]; [by left|right; split; [lia|done]]|].
  intros [?|[-> ->]]; [by left|right; split; [lia|split; [lia|done]]].
Qed.

Lemma slab_base_snoc off ats x sizes : slab_base (mkPlacer off (ats ++ [x]) sizes) = x.
Proof. unfold slab_base. cbn [pl_at]. by rewrite last_snoc. Qed.

(** The next region, in the open slab or in a new one that starts past it. *)
Lemma placed_next p rs o bytes : placed p rs -> 0 <= bytes -> pl_off p <= o ->
  placed (mkPlacer (o + bytes) (pl_at p) (pl_size p)) (rs ++ [(o, bytes)]).
Proof.
  intros [Hl Hs Ho Hr Hb Hd] Hby Hpo. destruct Hl as (Hl & Hlen & H0).
  assert (Hlk : pl_at p !! pred (length (pl_at p)) = Some (slab_base p)) by (by rewrite <- last_lookup).
  split; cbn [pl_off pl_at pl_size];
    change (slab_base (mkPlacer (o + bytes) (pl_at p) (pl_size p))) with (slab_base p); [done|done|lia| | |].
  - intros i r [Hi|[-> ->]]%lookup_snoc.
    + destruct (Hr i r Hi) as (? & ? & s & a & Ha & ? & Hend). split_and!; [done..|]. exists s, a. split_and!; [done..|].
      destruct (pl_at p !! S s); cbn [default from_option id] in *; lia.
    + cbn [fst snd]. split_and!; [lia|done|]. exists (pred (length (pl_at p))), (slab_base p).
      split_and!; [done|lia|]. rewrite lookup_ge_None_2 by lia. cbn [default from_option id]. lia.
  - intros i r [Hi|[-> ->]]%lookup_snoc; [specialize (Hb _ _ Hi); lia|cbn; lia].
  - intros i j r q Hij [Hi|[-> ->]]%lookup_snoc [Hj|[-> ->]]%lookup_snoc.
    + by eapply Hd.
    + cbn. specialize (Hb _ _ Hi). lia.
    + apply lookup_lt_Some in Hj. lia.
    + lia.
Qed.

Lemma placed_slab p rs size : placed p rs -> pl_off p <= slab_base p + size -> 0 < size ->
  placed (mkPlacer (slab_base p + size) (pl_at p ++ [slab_base p + size]) (pl_size p ++ [size])) rs.
Proof.
  intros [Hl Hs Ho Hr Hb Hd] Hoff Hsize. destruct Hl as (Hl & Hlen & H0).
  split; cbn [pl_off pl_at pl_size]; rewrite ?slab_base_snoc; [| |lia| | |done].
  - rewrite last_snoc, !length_app, lookup_app_l by (apply lookup_lt_Some in H0; done). cbn [length]. split_and!; [done|lia|done].
  - intros i a b [Ha|[-> ->]]%lookup_snoc [Hb'|[Hi ->]]%lookup_snoc.
    + destruct (Hs i a b Ha Hb') as [? Hsz]. split; [done|]. apply lookup_snoc. by left.
    + rewrite last_lookup in Hl. replace (pred (length (pl_at p))) with i in Hl by lia.
      rewrite Ha in Hl. injection Hl as ->. split; [lia|]. apply lookup_snoc. right. split; [lia|lia].
    + apply lookup_lt_Some in Hb'. lia.
    + lia.
  - intros i r Hi. destruct (Hr i r Hi) as (? & ? & s & a & Ha & ? & Hend). split_and!; [done..|].
    exists s, a. split_and!; [by apply lookup_snoc; left|done|].
    destruct (pl_at p !! S s) as [b|] eqn:Hn; cbn in Hend.
    + rewrite lookup_app_l, Hn by (by apply lookup_lt_Some in Hn). done.
    + destruct (decide (S s = length (pl_at p))) as [Heq|Hne].
      * rewrite Heq, lookup_app_r, Nat.sub_diag by lia. cbn. lia.
      * rewrite lookup_ge_None_2 by (rewrite length_app; cbn; apply lookup_ge_None in Hn; lia). cbn. lia.
  - intros i r Hi. specialize (Hb _ _ Hi). lia.
Qed.

(** The room one region can take: itself, its alignment, and the rest of a closed slab. *)
Definition kPlaceSlack : Z := 8192.

Lemma place_placed limit bytes p rs o p' : placed p rs -> 0 <= bytes -> pl_off p + bytes + kPlaceSlack < 2 ^ 63 ->
  place limit bytes p = (o, p') ->
  placed p' (rs ++ [(o, bytes)]) /\ pl_off p' <= pl_off p + bytes + kPlaceSlack.
Proof.
  unfold kPlaceSlack. intros Hp Hby Hb. pose proof (pd_off _ _ Hp) as Ho. unfold place.
  pose proof (align_up_bounds 8 (pl_off p) ltac:(lia) ltac:(lia) ltac:(lia)) as H8. change (2 ^ 8) with 256 in H8.
  set (a := align_up (pl_off p) 256) in *.
  pose proof (align_up_bounds 12 a ltac:(lia) ltac:(lia) ltac:(lia)) as H12. change (2 ^ 12) with 4096 in H12.
  destruct (negb _ && _ && (_ <? a)) eqn:E; intros [= <- <-].
  - apply andb_true_iff in E as [_ E%Z.ltb_lt].
    rewrite !(u64_small (align_up a 4096 - _)) by lia. rewrite !(u64_small (slab_base p + _)) by lia.
    rewrite u64_small by lia. set (size := align_up a 4096 - slab_base p) in *. split; [|cbn; lia].
    pose proof (placed_slab p rs size Hp ltac:(lia) ltac:(lia)) as Hs.
    exact (placed_next _ _ (slab_base p + size) bytes Hs Hby ltac:(cbn; lia)).
  - rewrite u64_small by lia. split; [|cbn; lia]. apply placed_next; [done|done|lia].
Qed.

Lemma place_all_placed limit sizes p rs os p' : placed p rs -> Forall (fun n => 0 <= n) sizes ->
  pl_off p + sum_Z sizes + kPlaceSlack * Z.of_nat (length sizes) < 2 ^ 63 ->
  place_all limit sizes p = (os, p') ->
  length os = length sizes /\ placed p' (rs ++ zip os sizes) /\
  pl_off p' <= pl_off p + sum_Z sizes + kPlaceSlack * Z.of_nat (length sizes).
Proof.
  revert p rs os. unfold kPlaceSlack. induction sizes as [|n sizes IH]; intros p rs os Hp Hs Hb; cbn [place_all].
  { intros [= <- <-]. cbn [length zip]. rewrite app_nil_r. split_and!; [done|done|cbn; lia]. }
  apply Forall_cons in Hs as [Hn Hs]. pose proof (sum_Z_nonneg _ Hs). cbn [sum_Z foldr length] in Hb |- *.
  fold (sum_Z sizes) in *.
  destruct (place limit n p) as [o p1] eqn:E1. destruct (place_all limit sizes p1) as [os' p2] eqn:E2. intros [= <- <-].
  pose proof (pd_off _ _ Hp).
  apply (place_placed _ _ _ _ _ _ Hp Hn) in E1 as [Hp1 Ho1]; [|unfold kPlaceSlack; lia]. unfold kPlaceSlack in Ho1.
  apply (IH _ _ _ Hp1 Hs) in E2 as (Hl & Hp2 & Ho2); [|lia].
  split_and!; [cbn; lia| |lia]. change (zip (o :: os') (n :: sizes)) with ([(o, n)] ++ zip os' sizes).
  rewrite app_assoc. exact Hp2.
Qed.

(** ** One flat memory *)

(** The slabs tile the flat space in order. *)
Record slabs_ok (l : Layout) : Prop := {
  sl_first : l_slab_at l !! 0%nat = Some 0;
  sl_len : length (l_slab_at l) = length (l_slab_size l);
  sl_next : forall i a b, l_slab_at l !! i = Some a -> l_slab_at l !! S i = Some b ->
    a < b /\ l_slab_size l !! i = Some (b - a) }.

Definition maps (bufs : list GpuBuffer) (l : Layout) : Prop :=
  Forall2 (fun b n => Z.of_nat (length (b_data b)) = n) bufs (l_slab_size l).

(** [n] bytes at [off] lie in one slab. *)
Definition in_slab (l : Layout) (off n : Z) : Prop :=
  0 <= n /\ exists s a z, l_slab_at l !! s = Some a /\ l_slab_size l !! s = Some z /\ a <= off /\ off + n <= a + z.

(** The byte at a flat offset. *)
Definition mem_at (l : Layout) (bufs : list GpuBuffer) (off : Z) : option Z :=
  let s := slab_of l off in
  b ← bufs !! s; b_data b !! Z.to_nat (off - nth s (l_slab_at l) 0).

Section Flat.
Context (l : Layout) (Hl : slabs_ok l).

Lemma slab_at_mono i j a b : (i <= j)%nat -> l_slab_at l !! i = Some a -> l_slab_at l !! j = Some b -> a <= b.
Proof.
  intros Hij Ha. revert b. induction Hij as [|j Hij IH]; intros b Hb; [rewrite Ha in Hb; by simplify_eq|].
  destruct (l_slab_at l !! j) as [m|] eqn:Hm.
  - specialize (IH m eq_refl). destruct (sl_next _ Hl j m b Hm Hb). lia.
  - apply lookup_ge_None in Hm. apply lookup_lt_Some in Hb. lia.
Qed.

Lemma slab_fold_after (ls : list (nat * Z)) best off : Forall (fun ia => off < ia.2) ls ->
  foldl (fun best ia => if ia.2 <=? off then ia.1 else best) best ls = best.
Proof.
  revert best. induction ls as [|ia ls IH]; intros best; [done|]. intros [H1 H2]%Forall_cons. cbn.
  rewrite (proj2 (Z.leb_gt ia.2 off)) by done. by apply IH.
Qed.

Lemma slab_of_spec s a off : l_slab_at l !! s = Some a -> a <= off ->
  (forall b, l_slab_at l !! S s = Some b -> off < b) -> slab_of l off = s.
Proof.
  intros Hs Ha Hb. unfold slab_of. rewrite <- (take_drop_middle _ _ _ Hs), imap_app. cbn [imap].
  rewrite length_take_le by (apply lookup_lt_Some in Hs; lia).
  rewrite foldl_app. cbn [foldl snd fst]. rewrite Nat.add_0_r, (proj2 (Z.leb_le a off)) by done.
  apply slab_fold_after, Forall_lookup. intros i [k x] Hi. apply list_lookup_imap_Some in Hi as (y & Hy & [= -> ->]).
  cbn [snd]. rewrite lookup_drop in Hy.
  destruct (l_slab_at l !! S s) as [b|] eqn:Hn.
  - apply Z.lt_le_trans with b; [by apply Hb|]. eapply (slab_at_mono (S s)); [|done|exact Hy]. lia.
  - apply lookup_ge_None in Hn. apply lookup_lt_Some in Hy. lia.
Qed.

Lemma slab_of_base off : 0 <= off -> exists a, l_slab_at l !! slab_of l off = Some a /\ a <= off.
Proof.
  intros Ho. unfold slab_of.
  cut (exists a, l_slab_at l !! (foldl (fun best ia => if ia.2 <=? off then ia.1 else best) 0%nat (imap pair (l_slab_at l))) = Some a /\ a <= off); [done|].
  assert (Hall : Forall (fun ia => l_slab_at l !! ia.1 = Some ia.2) (imap pair (l_slab_at l))).
  { apply Forall_lookup. intros i [k x] Hi. by apply list_lookup_imap_Some in Hi as (y & Hy & [= -> ->]). }
  assert (H0 : exists a, l_slab_at l !! 0%nat = Some a /\ a <= off) by (exists 0; split; [apply sl_first; exact Hl|done]).
  revert Hall H0. generalize 0%nat. induction (imap pair (l_slab_at l)) as [|[k x] ls IH]; intros best Hall H0; [done|].
  apply Forall_cons in Hall as [Hk Hall]. cbn [foldl fst snd] in *. apply IH; [done|].
  destruct (Z.leb_spec x off); [by exists x|done].
Qed.

(** Every byte of a range in a slab is found in that slab. *)
Lemma in_slab_slab off n : in_slab l off n -> exists s a z, l_slab_at l !! s = Some a /\ l_slab_size l !! s = Some z /\
  a <= off /\ off + n <= a + z /\ forall x, off <= x < off + n -> slab_of l x = s.
Proof.
  intros (Hn & s & a & z & Ha & Hz & Ho & He). exists s, a, z. split_and!; [done..|].
  intros x Hx. apply (slab_of_spec s a); [done|lia|]. intros b Hb.
  destruct (sl_next _ Hl s a b Ha Hb) as [_ Hz']. rewrite Hz in Hz'. simplify_eq. lia.
Qed.

Context (bufs : list GpuBuffer) (Hb : maps bufs l).

Lemma maps_slab s z : l_slab_size l !! s = Some z -> exists b, bufs !! s = Some b /\ Z.of_nat (length (b_data b)) = z.
Proof. intros Hz. destruct (Forall2_lookup_r _ _ _ _ _ Hb Hz) as (b & Hs & H). by exists b. Qed.

Lemma mem_read_lookup off n i : in_slab l off n ->
  mem_read l bufs off n !! i = if decide (Z.of_nat i < n) then mem_at l bufs (off + Z.of_nat i) else None.
Proof.
  intros Hin. unfold mem_read, ptr_read, host_at. cbn [fst snd].
  destruct (decide (Z.of_nat i < n)) as [Hi|Hi]; [|apply lookup_ge_None_2; rewrite length_take; lia].
  destruct (in_slab_slab off n Hin) as (s & a & z & Ha & Hz & Ho & He & Hs).
  rewrite lookup_take by lia. rewrite decide_True, lookup_drop by lia. unfold mem_at.
  rewrite (Hs off), (Hs (off + Z.of_nat i)), !nth_lookup, Ha by lia. cbn [default from_option id].
  destruct (maps_slab s z Hz) as (b & -> & Hlen). cbn. f_equal. lia.
Qed.

Lemma mem_read_length off n : in_slab l off n -> length (mem_read l bufs off n) = Z.to_nat n.
Proof.
  intros Hin. unfold mem_read, ptr_read, host_at. cbn [fst snd]. rewrite length_take, length_drop.
  destruct (decide (n <= 0)); [destruct Hin; lia|].
  destruct (in_slab_slab off n Hin) as (s & a & z & Ha & Hz & Ho & He & Hs).
  rewrite (Hs off), nth_lookup, Ha by lia. cbn [default from_option id].
  destruct (maps_slab s z Hz) as (b & -> & Hlen). cbn [fmap option_fmap option_map default from_option id]. lia.
Qed.

Lemma overlay_lookup o bs (d : list Z) i : (o + length bs <= length d)%nat ->
  overlay o bs d !! i = if decide (o <= i < o + length bs)%nat then bs !! (i - o)%nat else d !! i.
Proof.
  intros Hlen. unfold overlay. rewrite (proj2 (Nat.leb_le _ _)) by done.
  destruct (decide (i < o)%nat).
  - rewrite decide_False, lookup_app_l, lookup_take by (rewrite ?length_take; lia). by rewrite decide_True by lia.
  - rewrite lookup_app_r by (rewrite length_take; lia). rewrite length_take_le by lia.
    destruct (decide (i < o + length bs)%nat).
    + rewrite decide_True, lookup_app_l by lia. done.
    + rewrite decide_False, lookup_app_r, lookup_drop by lia. f_equal. lia.
Qed.

Lemma overlay_length o bs d : length (overlay o bs d) = length d.
Proof.
  unfold overlay. destruct (Nat.leb_spec (o + length bs) (length d)); [|done].
  rewrite !length_app, length_take, length_drop. lia.
Qed.

Lemma mem_write_maps off bs : maps (mem_write l bufs off bs) l.
Proof.
  unfold mem_write, ptr_write, maps in *. apply Forall2_alter_l; [done|].
  intros b n _ _ Hlen. cbn. by rewrite overlay_length.
Qed.

Lemma mem_write_at off bs x : in_slab l off (Z.of_nat (length bs)) -> 0 <= x ->
  mem_at l (mem_write l bufs off bs) x =
  if decide (off <= x < off + Z.of_nat (length bs)) then bs !! Z.to_nat (x - off) else mem_at l bufs x.
Proof.
  intros Hin Hx. unfold mem_at, mem_write, ptr_write, host_at. cbn [fst snd].
  destruct (decide (length bs = 0%nat)) as [Hz|Hnz].
  { rewrite decide_False by lia. apply nil_length_inv in Hz as ->.
    destruct (decide (slab_of l off = slab_of l x)) as [->|Hne].
    - rewrite list_lookup_alter_eq. destruct (bufs !! slab_of l x) as [b|]; [|done]. cbn. f_equal.
      unfold overlay. destruct (_ <=? _)%nat; [|done]. cbn. rewrite Nat.add_0_r. apply take_drop.
    - by rewrite list_lookup_alter_ne. }
  destruct (in_slab_slab off _ Hin) as (s & a & z & Ha & Hz & Ho & He & Hs).
  rewrite (Hs off) by lia. rewrite !nth_lookup, Ha. cbn [default from_option id].
  destruct (maps_slab s z Hz) as (b & Hb' & Hlen).
  destruct (slab_of_base x Hx) as (a' & Ha' & Hax).
  destruct (decide (slab_of l x = s)) as [Heq|Hne].
  - rewrite Heq, list_lookup_alter_eq, Hb', Ha. cbn [fmap option_fmap option_map mbind option_bind default from_option id].
    rewrite Heq, Ha in Ha'. simplify_eq. cbn [b_data update_field].
    change (b_data (b <| b_data ::= overlay (Z.to_nat (off - a')) bs |>)) with (overlay (Z.to_nat (off - a')) bs (b_data b)).
    rewrite overlay_lookup by lia.
    destruct (decide (off <= x < off + Z.of_nat (length bs))).
    + rewrite decide_True by lia. f_equal. lia.
    + by rewrite decide_False by lia.
  - rewrite list_lookup_alter_ne by done. rewrite decide_False; [done|]. intros Hr. by apply Hne, Hs.
Qed.
End Flat.

(** ** Several writes, and reading a range back *)

Definition covers (w : Z * list Z) (x : Z) : Prop := w.1 <= x < w.1 + Z.of_nat (length w.2).
Definition write_fits (l : Layout) (w : Z * list Z) : Prop := in_slab l w.1 (Z.of_nat (length w.2)).

Section Writes.
Context (l : Layout) (Hl : slabs_ok l).

Lemma mem_writes_maps bufs ws : maps bufs l -> maps (mem_writes l bufs ws) l.
Proof. revert bufs. induction ws as [|w ws IH]; intros bufs Hb; [done|]. apply IH, mem_write_maps, Hb. Qed.

Lemma mem_writes_other bufs ws x : maps bufs l -> Forall (write_fits l) ws -> 0 <= x ->
  Forall (fun w => ~ covers w x) ws -> mem_at l (mem_writes l bufs ws) x = mem_at l bufs x.
Proof.
  intros Hb Hf Hx. revert bufs Hb. induction Hf as [|w ws Hw _ IH]; intros bufs Hb Hn; [done|].
  apply Forall_cons in Hn as [Hnw Hn]. cbn [mem_writes foldl]. fold (mem_writes l (mem_write l bufs w.1 w.2) ws).
  rewrite IH by (done || by apply mem_write_maps). rewrite mem_write_at by done. by rewrite decide_False.
Qed.

(** The last write over a byte decides it. *)
Lemma mem_writes_at bufs l1 w l2 x : maps bufs l -> Forall (write_fits l) (l1 ++ w :: l2) -> 0 <= x ->
  covers w x -> Forall (fun w => ~ covers w x) l2 ->
  mem_at l (mem_writes l bufs (l1 ++ w :: l2)) x = w.2 !! Z.to_nat (x - w.1).
Proof.
  intros Hb [H1 [Hw H2]%Forall_cons]%Forall_app Hx Hc Hn. unfold mem_writes. rewrite foldl_app. cbn [foldl].
  fold (mem_writes l bufs l1). fold (mem_writes l (mem_write l (mem_writes l bufs l1) w.1 w.2) l2).
  rewrite mem_writes_other by (done || apply mem_write_maps, mem_writes_maps, Hb).
  rewrite mem_write_at by (done || apply mem_writes_maps, Hb). by rewrite decide_True.
Qed.

Lemma mem_read_ext bufs l' bufs' off off' n : maps bufs l -> slabs_ok l' -> maps bufs' l' ->
  in_slab l off n -> in_slab l' off' n ->
  (forall i, 0 <= i < n -> mem_at l bufs (off + i) = mem_at l' bufs' (off' + i)) ->
  mem_read l bufs off n = mem_read l' bufs' off' n.
Proof.
  intros Hb Hl' Hb' Hi Hi' H. apply list_eq. intros i.
  rewrite !mem_read_lookup by done. destruct (decide _); [apply H; lia|done].
Qed.

Lemma mem_read_is bufs off n bs : maps bufs l -> in_slab l off n -> Z.of_nat (length bs) = n ->
  (forall i, 0 <= i < n -> mem_at l bufs (off + i) = bs !! Z.to_nat i) -> mem_read l bufs off n = bs.
Proof.
  intros Hb Hi Hlen H. apply list_eq. intros i. rewrite mem_read_lookup by done. destruct (decide _).
  - rewrite H by lia. f_equal. lia.
  - symmetry. apply lookup_ge_None_2. lia.
Qed.
End Writes.

Lemma in_slab_sub l off n off' n' : in_slab l off n -> off <= off' -> 0 <= n' -> off' + n' <= off + n -> in_slab l off' n'.
Proof. intros (Hn & s & a & z & Ha & Hz & Ho & He) H1 H2 H3. split; [done|]. exists s, a, z. split_and!; [done..|lia|lia]. Qed.

Lemma in_slab_nonneg l off n : slabs_ok l -> in_slab l off n -> 0 <= off.
Proof.
  intros Hl (_ & s & a & z & Ha & _ & Ho & _). pose proof (slab_at_mono l Hl 0 s 0 a ltac:(lia) (sl_first _ Hl) Ha). lia.
Qed.

(** ** The regions of a layout *)

Inductive Region := RWinVal | RWinScale | RTop | RState | RCmp (i : nat) | RIdx (i : nat).
#[export] Instance Region_eq_dec : EqDecision Region.
Proof. solve_decision. Defined.

Definition region_off (l : Layout) (r : Region) : Z :=
  match r with
  | RWinVal => l_win_val l | RWinScale => l_win_scale l | RTop => l_top l | RState => l_state l
  | RCmp i => nth i (l_cmp l) 0 | RIdx i => nth i (l_idx l) 0
  end.
Definition region_index (n : nat) (r : Region) : nat :=
  match r with RWinVal => 0 | RWinScale => 1 | RTop => 2 | RState => 3 | RCmp i => 4 + i | RIdx i => 4 + n + i end.
Definition region_in (n : nat) (r : Region) : Prop := match r with RCmp i | RIdx i => (i < n)%nat | _ => True end.

(** The sizes as they are, and that they stay far below what 64 bits hold. *)
Definition region_bytes (c : KvStoreConfig) (os : list Z) (cap : Z) (r : Region) : Z :=
  match r with
  | RWinVal => kc_layers c * kc_window c * kc_latent_dim c
  | RWinScale => kc_layers c * kc_window c * window_scales c
  | RTop => kc_layers c * topk_rows c * 4
  | RState => Z.of_nat (length os) * kc_max_ratio c * kc_latent_dim c * 4 * 2
  | RCmp i => rows_for c (nth i os 0) cap * kc_latent_dim c * 2
  | RIdx i => rows_for c (nth i os 0) cap * kc_index_dim c * 2
  end.
Definition regions (n : nat) : list Region :=
  [RWinVal; RWinScale; RTop; RState] ++ (RCmp <$> seq 0 n) ++ (RIdx <$> seq 0 n).
Definition layout_fits (c : KvStoreConfig) (os : list Z) (cap : Z) : Prop :=
  Forall (fun r => 0 <= region_bytes c os cap r) (regions (length os)) /\
  sum_Z (region_bytes c os cap <$> regions (length os)) + kPlaceSlack * (4 + 2 * Z.of_nat (length os)) < 2 ^ 62.

Lemma regions_lookup n r : region_in n r -> regions n !! region_index n r = Some r.
Proof.
  intros Hr. destruct r; try done; cbn [region_index region_in] in *; unfold regions.
  - rewrite lookup_app_r, lookup_app_l by (rewrite ?length_fmap, ?length_seq; cbn; lia).
    rewrite list_lookup_fmap, lookup_seq_lt by (cbn; lia). cbn. do 2 f_equal. lia.
  - rewrite lookup_app_r, lookup_app_r by (rewrite ?length_fmap, ?length_seq; cbn; lia).
    rewrite length_fmap, length_seq, list_lookup_fmap, lookup_seq_lt by (cbn; lia). cbn. do 2 f_equal. lia.
Qed.

Lemma sum_Z_le (l : list Z) i x : Forall (fun x => 0 <= x) l -> l !! i = Some x -> x <= sum_Z l.
Proof.
  intros Hl. revert i. induction Hl as [|y l Hy Hl IH]; intros i; [done|]. pose proof (sum_Z_nonneg _ Hl).
  destruct i as [|i]; cbn [lookup list_lookup sum_Z foldr]; fold (sum_Z l); [intros [= ->]; lia|].
  intros Hi%IH. lia.
Qed.

Lemma region_sizes_exact c os cap : layout_fits c os cap ->
  region_sizes c os cap = region_bytes c os cap <$> regions (length os).
Proof.
  intros [Hn Hs]. assert (Hr : forall i r, regions (length os) !! i = Some r -> u64 (region_bytes c os cap r) = region_bytes c os cap r).
  { intros i r Hi. apply u64_small. rewrite Forall_lookup in Hn. split; [by eapply Hn|].
    assert (region_bytes c os cap r <= sum_Z (region_bytes c os cap <$> regions (length os))); [|unfold kPlaceSlack in Hs; lia].
    apply (sum_Z_le _ i); [by apply Forall_fmap, Forall_lookup|]. by rewrite list_lookup_fmap, Hi. }
  assert (Heq : region_sizes c os cap = (fun r => u64 (region_bytes c os cap r)) <$> regions (length os)).
  { unfold region_sizes, regions, topk_bytes. rewrite !fmap_app, <- !list_fmap_compose. f_equal. f_equal.
    - apply list_eq. intros i. rewrite !list_lookup_fmap. destruct (os !! i) as [o|] eqn:E.
      + rewrite lookup_seq_lt by (by eapply lookup_lt_Some). cbn. by rewrite nth_lookup, E.
      + rewrite lookup_seq_ge by (by apply lookup_ge_None). done.
    - apply list_eq. intros i. rewrite !list_lookup_fmap. destruct (os !! i) as [o|] eqn:E.
      + rewrite lookup_seq_lt by (by eapply lookup_lt_Some). cbn. by rewrite nth_lookup, E.
      + rewrite lookup_seq_ge by (by apply lookup_ge_None). done. }
  rewrite Heq. apply list_fmap_ext. intros i r Hi. by apply (Hr i).
Qed.

Lemma placed_start : placed (mkPlacer 0 [0] []) [].
Proof.
  split; cbn; [done| |unfold slab_base; cbn; lia|intros ?? ?; done..].
  intros [|i] a b Ha Hb; done.
Qed.

(** The layout after the last region: the slabs tile what was placed. *)
Lemma layout_slabs c os cap : layout_fits c os cap ->
  exists offs p, layout_for c os cap =
      mkLayout cap (nth 0 offs 0) (nth 1 offs 0) (nth 2 offs 0) (nth 3 offs 0) (align_up (pl_off p) 4096)
        (take (length os) (drop 4 offs)) (drop (4 + length os) offs)
        (pl_at p) (pl_size p ++ [align_up (pl_off p) 4096 - slab_base p]) /\
    length offs = (4 + 2 * length os)%nat /\
    placed p (zip offs (region_bytes c os cap <$> regions (length os))) /\ pl_off p <= align_up (pl_off p) 4096.
Proof.
  intros Hf. pose proof (region_sizes_exact c os cap Hf) as Hsz. destruct Hf as [Hn Hs]. unfold layout_for.
  assert (Hlen : length (regions (length os)) = (4 + 2 * length os)%nat)
    by (unfold regions; rewrite !length_app, !length_fmap, !length_seq; cbn; lia).
  set (limit := if kc_slab_bytes c =? 0 then _ else _).
  destruct (place_all limit (region_sizes c os cap) (mkPlacer 0 [0] [])) as [offs p] eqn:E.
  rewrite Hsz in E. apply (place_all_placed _ _ _ _ _ _ placed_start) in E as (Hlo & Hp & Hoff);
    [|by apply Forall_fmap, Forall_lookup; rewrite Forall_lookup in Hn|rewrite length_fmap, Hlen; cbn [pl_off]; lia].
  rewrite length_fmap, Hlen in Hlo, Hoff. cbn [pl_off] in Hoff. pose proof (pd_off _ _ Hp) as Hpo.
  pose proof (align_up_bounds 12 (pl_off p) ltac:(lia) ltac:(lia) ltac:(lia)) as H12. change (2 ^ 12) with 4096 in H12.
  exists offs, p. rewrite (u64_small (align_up _ _ - _)) by lia. split_and!; [done|done|exact Hp|lia].
Qed.

Lemma layout_slabs_ok c os cap : layout_fits c os cap -> slabs_ok (layout_for c os cap).
Proof.
  intros Hf. destruct (layout_slabs c os cap Hf) as (offs & p & -> & _ & Hp & Ht). destruct (pd_last _ _ Hp) as (_ & Hlen & H0).
  split; cbn [l_slab_at l_slab_size]; [done|rewrite length_app; cbn; lia|].
  intros i a b Ha Hb. destruct (pd_sizes _ _ Hp i a b Ha Hb) as [? Hi]. split; [done|].
  rewrite lookup_app_l; [done|]. by eapply lookup_lt_Some.
Qed.

(** Every region of the layout is a placed one. *)
Lemma layout_placed c os cap : layout_fits c os cap ->
  exists offs p, l_slab_at (layout_for c os cap) = pl_at p /\
    l_slab_size (layout_for c os cap) = pl_size p ++ [align_up (pl_off p) 4096 - slab_base p] /\
    pl_off p <= align_up (pl_off p) 4096 /\ placed p (zip offs (region_bytes c os cap <$> regions (length os))) /\
    forall r, region_in (length os) r ->
      zip offs (region_bytes c os cap <$> regions (length os)) !! region_index (length os) r =
      Some (region_off (layout_for c os cap) r, region_bytes c os cap r).
Proof.
  intros Hf. destruct (layout_slabs c os cap Hf) as (offs & p & -> & Hlen & Hp & Ht). exists offs, p.
  split_and!; [done..|]. intros r Hr.
  assert (Hin : (region_index (length os) r < length offs)%nat) by (destruct r; cbn in *; lia).
  apply lookup_lt_is_Some_2 in Hin as [o Ho]. apply lookup_zip_with_Some. exists o, (region_bytes c os cap r).
  split_and!; [|done|by rewrite list_lookup_fmap, regions_lookup]. f_equal.
  destruct r; cbn [region_off region_index region_in l_win_val l_win_scale l_top l_state l_cmp l_idx] in *; rewrite nth_lookup.
  1-4: by rewrite Ho.
  - by rewrite lookup_take, decide_True, lookup_drop, Ho by done.
  - by rewrite lookup_drop, Ho.
Qed.

(** A region lies in one slab. *)
Lemma layout_region c os cap r : layout_fits c os cap -> region_in (length os) r ->
  in_slab (layout_for c os cap) (region_off (layout_for c os cap) r) (region_bytes c os cap r).
Proof.
  intros Hf Hr. destruct (layout_placed c os cap Hf) as (offs & p & Hat & Hsz & Ht & Hp & Hz).
  specialize (Hz r Hr). destruct (pd_last _ _ Hp) as (Hlast & Hln & _).
  destruct (pd_regs _ _ Hp _ _ Hz) as (H1 & H2 & s & a & Ha & Hle & Hend). cbn [fst snd] in *.
  split; [done|]. rewrite Hat, Hsz. destruct (pl_at p !! S s) as [b|] eqn:Hb; cbn [default from_option id] in Hend.
  - destruct (pd_sizes _ _ Hp s a b Ha Hb) as [_ Hs]. exists s, a, (b - a).
    split_and!; [done|by apply lookup_app_l_Some|done|lia].
  - exists s, a, (align_up (pl_off p) 4096 - slab_base p). apply lookup_ge_None in Hb. pose proof (lookup_lt_Some _ _ _ Ha).
    assert (Hs : s = length (pl_size p)) by lia.
    assert (Hab : a = slab_base p). { rewrite last_lookup in Hlast. replace (pred (length (pl_at p))) with s in Hlast by lia. congruence. }
    split_and!; [done|by rewrite lookup_app_r, Hs, Nat.sub_diag by lia|done|lia].
Qed.

Lemma region_index_inj n r q : region_in n r -> region_in n q -> region_index n r = region_index n q -> r = q.
Proof. destruct r, q; cbn; intros; try lia; f_equal; lia. Qed.

(** Two regions share no byte. *)
Lemma layout_disjoint c os cap r q : layout_fits c os cap -> region_in (length os) r -> region_in (length os) q -> r <> q ->
  region_off (layout_for c os cap) r + region_bytes c os cap r <= region_off (layout_for c os cap) q \/
  region_off (layout_for c os cap) q + region_bytes c os cap q <= region_off (layout_for c os cap) r.
Proof.
  intros Hf Hr Hq Hne. destruct (layout_placed c os cap Hf) as (offs & p & _ & _ & _ & Hp & Hz).
  destruct (Nat.lt_trichotomy (region_index (length os) r) (region_index (length os) q)) as [H|[H|H]].
  - left. exact (pd_disj _ _ Hp _ _ _ _ H (Hz r Hr) (Hz q Hq)).
  - by apply region_index_inj in H.
  - right. exact (pd_disj _ _ Hp _ _ _ _ H (Hz q Hq) (Hz r Hr)).
Qed.

(** No slab is larger than the cap when no region is. *)
Record capped (limit : Z) (p : Placer) : Prop := {
  cp_base : slab_base p mod 4096 = 0;
  cp_open : pl_off p - slab_base p <= limit;
  cp_closed : Forall (fun z => z <= limit) (pl_size p) }.

Lemma align_up_le k v w : 0 <= k < 64 -> 0 <= v -> v + 2 ^ k <= 2 ^ 64 -> v <= w -> w mod 2 ^ k = 0 -> align_up v (2 ^ k) <= w.
Proof.
  intros Hk Hv Hb Hle Hw. assert (0 < 2 ^ k) by (apply Z.pow_pos_nonneg; lia).
  rewrite align_up_spec by lia. pose proof (Z.div_mod w (2 ^ k)).
  assert ((v + 2 ^ k - 1) / 2 ^ k < w / 2 ^ k + 1) by (apply Z.div_lt_upper_bound; lia). nia.
Qed.

Lemma place_capped limit bytes p rs o p' : placed p rs -> capped limit p -> limit mod 4096 = 0 -> 0 <= bytes <= limit ->
  pl_off p + bytes + kPlaceSlack < 2 ^ 63 -> slab_base p + limit < 2 ^ 63 -> place limit bytes p = (o, p') -> capped limit p'.
Proof.
  unfold kPlaceSlack. intros Hp [Hbase Hopen Hclosed] Hlim Hby Hb Hbl. pose proof (pd_off _ _ Hp) as Ho. unfold place.
  assert (Hw : (slab_base p + limit) mod 2 ^ 12 = 0) by (change (2 ^ 12) with 4096; rewrite Z.add_mod, Hbase, Hlim by lia; done).
  assert (Hw8 : (slab_base p + limit) mod 2 ^ 8 = 0) by (change (2 ^ 8) with 256; change (2 ^ 12) with 4096 in Hw; div_lia).
  pose proof (align_up_bounds 8 (pl_off p) ltac:(lia) ltac:(lia) ltac:(lia)) as H8.
  pose proof (align_up_le 8 (pl_off p) (slab_base p + limit) ltac:(lia) ltac:(lia) ltac:(lia) ltac:(lia) Hw8) as H8'.
  change (2 ^ 8) with 256 in H8, H8'. set (a := align_up (pl_off p) 256) in *.
  pose proof (align_up_bounds 12 a ltac:(lia) ltac:(lia) ltac:(lia)) as H12.
  pose proof (align_up_le 12 a (slab_base p + limit) ltac:(lia) ltac:(lia) ltac:(lia) H8' Hw) as H12'.
  change (2 ^ 12) with 4096 in H12, H12', Hw.
  destruct (negb _ && _ && (_ <? a)) eqn:E; intros [= <- <-].
  - rewrite !(u64_small (align_up a 4096 - _)) by lia. rewrite !(u64_small (slab_base p + _)) by lia.
    rewrite u64_small by lia. split; rewrite ?slab_base_snoc; cbn [pl_off pl_size].
    + rewrite Zplus_minus. change 4096 with (2 ^ 12). rewrite align_up_spec by lia.
      rewrite Z.mul_comm. apply Z.mod_mul. lia.
    + lia.
    + apply Forall_app_2; [done|]. constructor; [lia|done].
  - rewrite u64_small by lia. split; change (slab_base (mkPlacer (a + bytes) (pl_at p) (pl_size p))) with (slab_base p); cbn [pl_off pl_size]; [done| |done].
    rewrite !andb_false_iff, negb_false_iff, Z.eqb_eq, !Z.ltb_ge in E.
    rewrite (u64_small (a + bytes)), u64_small in E by lia. destruct E as [[E|E]|E]; lia.
Qed.

Lemma place_all_capped limit sizes p rs os p' : placed p rs -> capped limit p -> limit mod 4096 = 0 -> limit < 2 ^ 62 ->
  Forall (fun n => 0 <= n <= limit) sizes ->
  pl_off p + sum_Z sizes + kPlaceSlack * Z.of_nat (length sizes) < 2 ^ 62 ->
  place_all limit sizes p = (os, p') -> capped limit p'.
Proof.
  revert p rs os. unfold kPlaceSlack. induction sizes as [|n sizes IH]; intros p rs os Hp Hc Hlim Hl Hs Hb; cbn [place_all].
  { by intros [= _ <-]. }
  apply Forall_cons in Hs as [Hn Hs]. pose proof (pd_off _ _ Hp).
  assert (0 <= sum_Z sizes) by (apply sum_Z_nonneg; eapply Forall_impl; [exact Hs|cbn; lia]).
  cbn [sum_Z foldr length] in Hb. fold (sum_Z sizes) in Hb.
  destruct (place limit n p) as [o p1] eqn:E1. destruct (place_all limit sizes p1) as [os' p2] eqn:E2. intros [= _ <-].
  pose proof (place_capped _ _ _ _ _ _ Hp Hc Hlim Hn ltac:(unfold kPlaceSlack; lia) ltac:(lia) E1) as Hc1.
  apply (place_placed _ _ _ _ _ _ Hp) in E1 as [Hp1 Ho1]; [|lia|unfold kPlaceSlack; lia]. unfold kPlaceSlack in Ho1.
  apply (IH _ _ _ Hp1 Hc1) in E2; [done|done|done|done|lia].
Qed.

Lemma layout_capped c os cap : layout_fits c os cap -> 0 < kc_slab_bytes c < 2 ^ 62 -> kc_slab_bytes c mod 4096 = 0 ->
  Forall (fun r => region_bytes c os cap r <= kc_slab_bytes c) (regions (length os)) ->
  Forall (fun z => z <= kc_slab_bytes c) (l_slab_size (layout_for c os cap)).
Proof.
  intros Hf Hpos Hpage Hle. pose proof (region_sizes_exact c os cap Hf) as Hsz. destruct Hf as [Hn Hs].
  assert (Hlen : length (regions (length os)) = (4 + 2 * length os)%nat)
    by (unfold regions; rewrite !length_app, !length_fmap, !length_seq; cbn; lia).
  unfold layout_for. rewrite (proj2 (Z.eqb_neq _ _)) by lia. rewrite Hsz.
  destruct (place_all _ _ _) as [offs p] eqn:E. cbn [l_slab_size].
  assert (Hall : Forall (fun n => 0 <= n <= kc_slab_bytes c) (region_bytes c os cap <$> regions (length os))).
  { apply Forall_fmap. rewrite Forall_forall in Hn, Hle |- *. intros r Hr. split; [by apply Hn|by apply Hle]. }
  pose proof E as Ec. apply (place_all_placed _ _ _ _ _ _ placed_start) in E as (_ & Hp & Hoff);
    [|eapply Forall_impl; [exact Hall|cbn; lia]|rewrite length_fmap, Hlen; cbn [pl_off]; lia].
  apply (place_all_capped _ _ _ _ _ _ placed_start) in Ec as [Hb Ho Hc];
    [|split; unfold slab_base; cbn; [done|lia|done]|done|lia|exact Hall|rewrite length_fmap, Hlen; cbn [pl_off]; lia].
  rewrite length_fmap, Hlen in Hoff. cbn [pl_off] in Hoff. pose proof (pd_off _ _ Hp).
  pose proof (align_up_bounds 12 (pl_off p) ltac:(lia) ltac:(lia) ltac:(unfold kPlaceSlack in *; lia)) as H12.
  pose proof (align_up_le 12 (pl_off p) (slab_base p + kc_slab_bytes c) ltac:(lia) ltac:(lia) ltac:(unfold kPlaceSlack in *; lia)
    ltac:(lia) ltac:(change (2 ^ 12) with 4096; rewrite Z.add_mod, Hb, Hpage by lia; done)) as H12'.
  change (2 ^ 12) with 4096 in *. apply Forall_app_2; [done|]. constructor; [|done].
  rewrite u64_small by (unfold kPlaceSlack in *; lia). lia.
Qed.

(** C36: The layout puts every region (window, top-k lists, carried state, each owner's planes)
    whole inside one slab, no two of them share a byte, and no slab is larger than the cap
    when no region is: an address plus an offset inside a region stays in one allocation. *)
Theorem layout_sound c os cap r q : layout_fits c os cap -> region_in (length os) r -> region_in (length os) q ->
  let l := layout_for c os cap in
  in_slab l (region_off l r) (region_bytes c os cap r) /\
  (r <> q -> region_off l r + region_bytes c os cap r <= region_off l q \/
             region_off l q + region_bytes c os cap q <= region_off l r) /\
  (0 < kc_slab_bytes c < 2 ^ 62 -> kc_slab_bytes c mod 4096 = 0 ->
   Forall (fun r => region_bytes c os cap r <= kc_slab_bytes c) (regions (length os)) ->
   Forall (fun z => z <= kc_slab_bytes c) (l_slab_size l)).
Proof.
  intros Hf Hr Hq l. split_and!; [by apply layout_region|by apply layout_disjoint|by apply layout_capped].
Qed.

(** The store of the tests, cut into slabs of one page. *)
Definition kv_example : KvStoreConfig := mkKvConfig 2 4 64 32 64 32 2 8 64 4096 [] [].

Lemma layout_sound_witness :
  l_slab_at (layout_for kv_example [0; 1] 64) = [0; 4096; 12288; 20480; 24576] /\
  in_slab (layout_for kv_example [0; 1] 64) (region_off (layout_for kv_example [0; 1] 64) (RCmp 1)) 8192.
Proof.
  split; [by vm_compute|]. refine (proj1 (layout_sound kv_example [0; 1] 64 (RCmp 1) RState _ _ _)); [|cbn; lia|done].
  split; [repeat constructor; by vm_compute|by vm_compute].
Defined.
