(* ===== verification/KvStore.v ===== *)
(** The KV store ([src/runtime/kvstore.h], [kvstore.cpp]): the decode-time KV state in
    GPU-addressable slabs, its growth, the window ring, packing and rollback.

    The allocator ([gpu/vulkan/memory.cpp]) is the interface [MemoryAllocator]; its state is
    threaded beside the store's, and what an operation did before it failed stays done.
    Numbers that are only copied (the compressor's carried state) are their bit patterns. *)

From S2P Require Import Prelude Types Floats Dequant KvPack V41Config KvLayout.

(** ** Data *)

Record KvPackedPlane := mkPackedPlane {
  pp_layer : Z; pp_ratio : Z; pp_rows : Z;
  pp_cmp_fp4 : list Z; pp_cmp_scale : list Z; pp_key_fp4 : list Z; pp_key_scale : list Z;
  pp_raw_rows : list Z; pp_raw_cmp : list Z; pp_raw_key : list Z;
  pp_carry_kv : list Z; pp_carry_score : list Z }.
Record KvPacked := mkKvPacked { kp_positions : Z; kp_planes : list KvPackedPlane }.

Record BackupPlane := mkBackupPlane {
  bp_layer : Z; bp_ratio : Z; bp_first_row : Z; bp_rows : Z;
  bp_cmp : list Z; bp_key : list Z; bp_carry_kv : list Z; bp_carry_score : list Z }.
Record KvRowBackup := mkKvRowBackup { kb_first_pos : Z; kb_end_pos : Z; kb_planes : list BackupPlane }.

Record RingSnapshot := mkRingSnapshot {
  rg_layer : list Z; rg_slot : list Z; rg_position : list Z; rg_val : list Z; rg_scale : list Z; rg_latent_dim : Z }.
Definition RingSnapshot_default : RingSnapshot := mkRingSnapshot [] [] [] [] [] 0.

Record PromptRingDiff := mkRingDiff {
  rd_bytes : Z; rd_falsely_present_bytes : Z; rd_rows : Z; rd_first_position : Z; rd_first_layer : Z }.

(** [bytes()] and [raw_rows()] of the copies; a [KvPacked] itself is 32 bytes. *)
Definition len_Z {A} (l : list A) : Z := Z.of_nat (length l).
Definition plane_packed_bytes (p : KvPackedPlane) : Z :=
  len_Z (pp_cmp_fp4 p) + len_Z (pp_cmp_scale p) + len_Z (pp_key_fp4 p) + len_Z (pp_key_scale p) +
  len_Z (pp_raw_rows p) * 4 + (len_Z (pp_raw_cmp p) + len_Z (pp_raw_key p)) * 2 +
  (len_Z (pp_carry_kv p) + len_Z (pp_carry_score p)) * 4.
Definition packed_size (p : KvPacked) : Z := 32 + sum_Z (plane_packed_bytes <$> kp_planes p).
Definition raw_rows (p : KvPacked) : Z := u32 (sum_Z (len_Z ∘ pp_raw_rows <$> kp_planes p)).
Definition backup_size (b : KvRowBackup) : Z :=
  sum_Z ((fun p => (len_Z (bp_cmp p) + len_Z (bp_key p)) * 2 + (len_Z (bp_carry_kv p) + len_Z (bp_carry_score p)) * 4) <$>
    kb_planes b).

(** Where one layer's KV lives; a null host pointer is [None]. *)
Record KvLayerView := mkLayerView {
  v_win_val : Z; v_win_scale : Z; v_cmp_kv : Z; v_top_idx : Z; v_idx_key : Z; v_state_kv : Z; v_state_score : Z;
  v_win_val_host : HostPtr; v_win_scale_host : HostPtr; v_top_idx_host : HostPtr;
  v_cmp_kv_host : option HostPtr; v_idx_key_host : option HostPtr;
  v_state_kv_host : option HostPtr; v_state_score_host : option HostPtr;
  v_n_cmp : Z; v_n_kv : Z; v_plane_owner : Z }.

Definition kSlotEmpty : Z := -1.
Definition kSlotUnknown : Z := -2.

Record KvStore := mkKvStore {
  k_alloc : bool; k_bufs : list GpuBuffer; k_cfg : KvStoreConfig; k_lay : Layout; k_cap : Z;
  k_owners : list Z; k_owner_of : list Z; k_rows_hw : list Z; k_n_cmp : list Z; k_n_kv : list Z;
  k_win_lo : Z; k_slot_pos : list Z; k_prompt_ring : RingSnapshot; k_prompt_slot_pos : list Z }.
#[export] Instance KvStore_eta : Eta KvStore := fun k =>
  mkKvStore (k_alloc k) (k_bufs k) (k_cfg k) (k_lay k) (k_cap k) (k_owners k) (k_owner_of k) (k_rows_hw k)
    (k_n_cmp k) (k_n_kv k) (k_win_lo k) (k_slot_pos k) (k_prompt_ring k) (k_prompt_slot_pos k).
Definition KvStore_default : KvStore :=
  mkKvStore false [] KvStoreConfig_default Layout_default 0 [] [] [] [] [] 0 [] RingSnapshot_default [].

(** ** The allocator *)

Class MemoryAllocator (A : Type) := {
  gpu_allocate : A -> Z -> Result GpuBuffer * A;
  gpu_free : A -> GpuBuffer -> A }.

(** Its contract: a buffer of the size asked for. *)
Class MemoryAllocatorOk (A : Type) `{MemoryAllocator A} := {
  gpu_allocate_size : forall a n b a', gpu_allocate a n = (Ret b, a') -> b_bytes b = n /\ Z.of_nat (length (b_data b)) = n }.

Section Store.
Context {A : Type} `{MemoryAllocator A}.

(** ** Operations: what they answer, and the allocator and the store they leave. *)

Definition KM (T : Type) : Type := A * KvStore -> Result T * (A * KvStore).
#[export] Instance KM_ret : MRet KM := fun T x s => (Ret x, s).
#[export] Instance KM_bind : MBind KM := fun T U f m s =>
  match m s with (Ret x, s) => f x s | (Fail e, s) => (Fail e, s) end.
Definition km_fail {T} (e : Err) : KM T := fun s => (Fail e, s).
Definition km_guard (bad : bool) (e : Err) : KM unit := fun s => (fail_if bad e, s).
Definition km_of {T} (r : Result T) : KM T := fun s => (r, s).
Definition km_get : KM KvStore := fun s => (Ret s.2, s).
Definition km_update (f : KvStore -> KvStore) : KM unit := fun s => (Ret tt, (s.1, f s.2)).

Definition valid (k : KvStore) : bool := negb (bool_decide (k_bufs k = [])).
Definition owner_index (k : KvStore) (l : Z) : Z := nth (Z.to_nat l) (k_owner_of k) kNoPlane.
Definition kv_read (k : KvStore) (off n : Z) : list Z := mem_read (k_lay k) (k_bufs k) off n.
Definition kv_writes (k : KvStore) (ws : list (Z * list Z)) : KvStore := k <| k_bufs ::= fun b => mem_writes (k_lay k) b ws |>.

Definition kv_bytes (k : KvStore) : Z := foldl (fun n b => u64 (n + b_bytes b)) 0 (k_bufs k).
Definition largest_slab (k : KvStore) : Z := foldl (fun n b => Z.max n (b_bytes b)) 0 (k_bufs k).

Definition free_slabs (attached : bool) (a : A) (v : list GpuBuffer) : A :=
  if attached then foldl (fun a b => if b_bytes b =? 0 then a else gpu_free a b) a v else a.

Fixpoint allocate_slabs (a : A) (sizes : list Z) (out : list GpuBuffer) : Result (list GpuBuffer) * A :=
  match sizes with
  | [] => (Ret out, a)
  | n :: sizes =>
      match gpu_allocate a n with
      | (Fail e, a) => (Fail e, free_slabs true a out)
      | (Ret b, a) =>
          if negb (b_host b) || (b_dev b =? kNoDeviceAddress)
          then (Fail Internal, free_slabs true (gpu_free a b) out)
          else allocate_slabs a sizes (out ++ [b])
      end
  end.

(** [memset(b.host_ptr, 0, b.bytes)] over every slab. *)
Definition zeroed (bufs : list GpuBuffer) : list GpuBuffer :=
  (fun b => b <| b_data ::= overlay 0 (zeros (b_bytes b)) |>) <$> bufs.

(** [clear]: everything zero, every [score_state] slot minus infinity. *)
Definition ninf_bits : Z := 0xFF800000.
Definition ninf (n : Z) : list Z := to_bytes 4 (replicate (Z.to_nat n) ninf_bits).
Definition clear_writes (k : KvStore) : list (Z * list Z) :=
  let c := k_cfg k in let l := k_lay k in
  let n := len_Z (k_owners k) * kc_max_ratio c * kc_latent_dim c in
  [(l_win_val l, zeros (kc_layers c * kc_window c * kc_latent_dim c));
   (l_win_scale l, zeros (kc_layers c * kc_window c * window_scales c));
   (l_top l, zeros (topk_bytes c));
   (l_state l, zeros (n * 4)); (l_state l + n * 4, ninf n)] ++
  mjoin (imap (fun oi hw =>
    [(nth oi (l_cmp l) 0, zeros (hw * kc_latent_dim c * 2)); (nth oi (l_idx l) 0, zeros (hw * kc_index_dim c * 2))])
    (k_rows_hw k)).
Definition forget_prompt (k : KvStore) : KvStore := k <| k_prompt_ring := RingSnapshot_default |> <| k_prompt_slot_pos := [] |>.
Definition clear_store (k : KvStore) : KvStore :=
  let k := forget_prompt k in
  if negb (valid k) then k
  else
    (kv_writes k (clear_writes k)) <| k_rows_hw ::= fmap (fun _ => 0) |> <| k_n_cmp ::= fmap (fun _ => 0) |>
      <| k_n_kv ::= fmap (fun _ => 0) |> <| k_win_lo := 0 |>
      <| k_slot_pos := replicate (Z.to_nat (kc_window (k_cfg k))) kSlotEmpty |>.
Definition clear : KM unit := km_update clear_store.

(** [destroy] keeps the configuration. *)
Definition destroy : KM unit := fun '(a, k) =>
  (Ret tt, (free_slabs (k_alloc k) a (k_bufs k),
    mkKvStore false [] (k_cfg k) Layout_default 0 [] [] [] [] [] 0 [] RingSnapshot_default [])).

(** The owner's index a layer, until a layer whose owner owns nothing. *)
Definition owner_entry (c : KvStoreConfig) (os : list Z) (l : Z) : option Z :=
  let o := owner c l in
  if o =? kNoPlane then Some kNoPlane else (fun ix => Z.of_nat ix.1) <$> list_find (fun x => x = o) os.
Fixpoint owner_entries (c : KvStoreConfig) (os : list Z) (ls : list Z) : bool * list Z :=
  match ls with
  | [] => (true, [])
  | l :: rest =>
      match owner_entry c os l with
      | None => (false, replicate (length ls) kNoPlane)
      | Some x => let '(ok, xs) := owner_entries c os rest in (ok, x :: xs)
      end
  end.

(** The allocation, the slab cap halved while the driver refuses the size. *)
Fixpoint create_slabs (tries : nat) (os : list Z) (cap : Z) (a : A) (c : KvStoreConfig) (last_err : Err)
  : Result (list GpuBuffer * Layout) * A * KvStoreConfig :=
  match tries with
  | O => (Fail last_err, a, c)
  | S tries =>
      let lay := layout_for c os cap in
      match allocate_slabs a (l_slab_size lay) [] with
      | (Ret bufs, a) => (Ret (bufs, lay), a, c)
      | (Fail e, a) =>
          if negb (bool_decide (e = InvalidArgument)) || (kc_slab_bytes c <=? 64 * 2 ^ 20) then (Fail e, a, c)
          else create_slabs tries os cap a (c <| kc_slab_bytes ::= fun n => n / 2 |>) e
      end
  end.

Definition create_cap (c : KvStoreConfig) : Z :=
  if kc_initial_context c =? 0 then kc_max_context c else Z.min (kc_initial_context c) (kc_max_context c).

(** Takes the slabs, or gives up; [cfg_] is the one configured before. *)
Definition attach_slabs (os entries : list Z) (cap : Z) : KM unit := fun '(a, k) =>
  match create_slabs 8 os cap a (k_cfg k) ErrOk with
  | (Fail e, a, c) => (Fail e, (a, k <| k_cfg := c |>))
  | (Ret (bufs, lay), a, c) =>
      let n := Z.to_nat (kc_layers c) in
      (Ret tt, (a, clear_store (mkKvStore true (zeroed bufs) c lay cap os entries (replicate (length os) 0)
                                  (replicate n 0) (replicate n 0) (k_win_lo k) [] RingSnapshot_default [])))
  end.

Definition create (cfg : KvStoreConfig) : KM unit :=
  _ ← destroy;
  _ ← km_guard (negb (kc_latent_dim cfg mod kc_scale_block cfg =? 0) || negb (kc_latent_dim cfg mod 16 =? 0) ||
                negb (kc_index_dim cfg mod 32 =? 0)) InvalidArgument;
  _ ← km_guard (per_source cfg && (negb (len_Z (kc_plane_of cfg) =? kc_layers cfg) ||
                negb (len_Z (kc_ratio cfg) =? kc_layers cfg))) InvalidArgument;
  _ ← km_guard (kc_max_context cfg =? 0) InvalidArgument;
  let os := owners cfg in
  let '(ok, entries) := owner_entries cfg os (layer_ids (kc_layers cfg)) in
  _ ← km_update (fun k => k <| k_cfg := cfg |> <| k_owners := os |> <| k_owner_of := entries |>);
  _ ← km_guard (negb ok) InvalidArgument;
  attach_slabs os entries (create_cap cfg).

(** [reserve]: a larger layout, the live rows copied region by region. *)
Definition live_regions (k : KvStore) : list (Region * Z) :=
  let c := k_cfg k in
  [(RWinVal, kc_layers c * kc_window c * kc_latent_dim c);
   (RWinScale, kc_layers c * kc_window c * window_scales c);
   (RTop, topk_bytes c);
   (RState, len_Z (k_owners k) * kc_max_ratio c * kc_latent_dim c * 4 * 2)] ++
  mjoin (imap (fun oi hw => [(RCmp oi, hw * kc_latent_dim c * 2); (RIdx oi, hw * kc_index_dim c * 2)]) (k_rows_hw k)).
Definition grown_cap (k : KvStore) (positions : Z) : Z :=
  let max := kc_max_context (k_cfg k) in
  let doubled := if max / 2 <? k_cap k then max else u32 (k_cap k * 2) in
  Z.min max (Z.max positions doubled).
Definition copy_live (k : KvStore) (nl : Layout) : list (Z * list Z) :=
  (fun rn => (region_off nl rn.1, kv_read k (region_off (k_lay k) rn.1) rn.2)) <$> live_regions k.

Definition grow (nl : Layout) (nc : Z) : KM unit := fun '(a, k) =>
  match allocate_slabs a (l_slab_size nl) [] with
  | (Fail e, a) => (Fail e, (a, k))
  | (Ret nb, a) =>
      (Ret tt, (free_slabs (k_alloc k) a (k_bufs k),
        k <| k_bufs := mem_writes nl (zeroed nb) (copy_live k nl) |> <| k_lay := nl |> <| k_cap := nc |>))
  end.
Definition reserve (positions : Z) : KM unit :=
  k ← km_get;
  _ ← km_guard (negb (valid k)) FailedPrecondition;
  if positions <=? k_cap k then mret tt
  else
    _ ← km_guard (kc_max_context (k_cfg k) <? positions) ResourceExhausted;
    let nc := grown_cap k positions in
    let nl := layout_for (k_cfg k) (k_owners k) nc in
    grow nl nc.

(** Bytes of one owner's carried state, and where the scores start. *)
Definition state_stride (k : KvStore) : Z := kc_max_ratio (k_cfg k) * kc_latent_dim (k_cfg k) * 4.
Definition score_base (k : KvStore) : Z := l_state (k_lay k) + len_Z (k_owners k) * state_stride k.

Definition layer_view (k : KvStore) (l : Z) : Result KvLayerView :=
  let c := k_cfg k in let lay := k_lay k in
  _ ← fail_if (negb (valid k)) FailedPrecondition;
  _ ← fail_if (kc_layers c <=? l) OutOfRange;
  let win := lay.(l_win_val) + l * (kc_window c * kc_latent_dim c) in
  let wins := lay.(l_win_scale) + l * (kc_window c * window_scales c) in
  let top := lay.(l_top) + l * (topk_rows c * 4) in
  let own := negb (owner_index k l =? kNoPlane) in
  let oi := if own then owner_index k l else 0 in
  let i := Z.to_nat oi in
  let dev off := dev_at lay (k_bufs k) off in
  let host off := Some (host_at lay off) in
  let none := bool_decide (k_owners k = []) in
  let pick off := if none then kNoDeviceAddress else dev off in
  let hpick off := if none then None else host off in
  let skv := lay.(l_state) + oi * state_stride k in
  let ssc := score_base k + oi * state_stride k in
  Ret (mkLayerView (dev win) (dev wins) (pick (nth i (l_cmp lay) 0)) (dev top) (pick (nth i (l_idx lay) 0)) (pick skv) (pick ssc)
         (host_at lay win) (host_at lay wins) (host_at lay top)
         (hpick (nth i (l_cmp lay) 0)) (hpick (nth i (l_idx lay) 0)) (hpick skv) (hpick ssc)
         (nth (Z.to_nat l) (k_n_cmp k) 0) (nth (Z.to_nat l) (k_n_kv k) 0)
         (if negb none && own then nth i (k_owners k) kNoPlane else kNoPlane)).
Definition layer (l : Z) : KM KvLayerView := k ← km_get; km_of (layer_view k l).

(** ** Seeding *)

Definition ptr_add (p : HostPtr) (d : Z) : HostPtr := (p.1, p.2 + d).
Definition write_ptr (p : HostPtr) (bs : list Z) : KM unit := km_update (fun k => k <| k_bufs ::= fun b => ptr_write b p bs |>).
Definition write_opt (p : option HostPtr) (bs : list Z) : KM unit :=
  match p with Some p => write_ptr p bs | None => mret tt end.

(** [for (x : l) body(x)] *)
Fixpoint km_for {X} (l : list X) (body : X -> KM unit) : KM unit :=
  match l with [] => mret tt | x :: l => _ ← body x; km_for l body end.
Definition upto (n : Z) : list Z := layer_ids n.

Definition seed_window (l : Z) (values : list float) (rows : Z) : KM unit :=
  _ ← km_update forget_prompt;
  v ← layer l;
  k ← km_get;
  let c := k_cfg k in
  _ ← km_guard (kc_window c <? rows) InvalidArgument;
  let blocks := window_scales c in
  _ ← km_update (fun k => k <| k_slot_pos ::= fun sp =>
        replicate (Z.to_nat (Z.min rows (len_Z sp))) kSlotUnknown ++ drop (Z.to_nat rows) sp |>);
  km_for (upto rows) (fun r =>
    km_for (upto blocks) (fun b =>
      let at_ := r * kc_latent_dim c + b * kc_scale_block c in
      let '(bytes, _, s) := act_quant_block (subspan values (Z.to_nat at_) (Z.to_nat (kc_scale_block c))) in
      _ ← write_ptr (ptr_add (v_win_val_host v) at_) bytes;
      write_ptr (ptr_add (v_win_scale_host v) (r * blocks + b)) [e8m0_encode s])).

(** [v[i] = x]; past the end it is undefined, which answers [Internal]. *)
Definition set_at (i : Z) (x : Z) (l : list Z) : Result (list Z) :=
  if i <? len_Z l then Ret (<[Z.to_nat i := x]> l) else Fail Internal.
Definition set_n_cmp (l n : Z) : KM unit := fun '(a, k) =>
  match set_at l n (k_n_cmp k) with Ret v => (Ret tt, (a, k <| k_n_cmp := v |>)) | Fail e => (Fail e, (a, k)) end.
Definition set_n_kv (l n : Z) : KM unit := fun '(a, k) =>
  match set_at l n (k_n_kv k) with Ret v => (Ret tt, (a, k <| k_n_kv := v |>)) | Fail e => (Fail e, (a, k)) end.
Definition raise_hw (oi n : Z) (k : KvStore) : KvStore := k <| k_rows_hw ::= alter (Z.max n) (Z.to_nat oi) |>.
Definition owned_by (k : KvStore) (oi l : Z) : bool :=
  negb (oi =? kNoPlane) && (nth (Z.to_nat oi) (k_owners k) kNoPlane =? l).
Definition bf16_bytes (values : list float) (n : Z) : list Z := to_bytes 2 (float_to_bf16 <$> take (Z.to_nat n) values).

Definition seed_compressed (l : Z) (values : list float) (n_cmp : Z) : KM unit :=
  k ← km_get;
  let c := k_cfg k in
  _ ← km_guard (kc_layers c <=? l) OutOfRange;
  let oi := owner_index k l in
  if negb (owned_by k oi l) then set_n_cmp l n_cmp
  else
    let ratio := plane_ratio c l in
    _ ← km_guard (kc_max_context c <? u64 (n_cmp * ratio)) InvalidArgument;
    _ ← reserve (u32 (n_cmp * ratio));
    v ← layer l;
    _ ← write_opt (v_cmp_kv_host v) (bf16_bytes values (n_cmp * kc_latent_dim c));
    _ ← km_update (raise_hw oi n_cmp);
    set_n_cmp l n_cmp.

Definition seed_topk (l : Z) (idx : list Z) (n_kv : Z) : KM unit :=
  v ← layer l;
  k ← km_get;
  _ ← km_guard (topk_rows (k_cfg k) <? n_kv) InvalidArgument;
  _ ← write_ptr (v_top_idx_host v) (to_bytes 4 (u32 <$> take (Z.to_nat n_kv) idx));
  set_n_kv l n_kv.

Definition seed_index_k (l : Z) (values : list float) (rows : Z) : KM unit :=
  k ← km_get;
  let c := k_cfg k in
  _ ← km_guard (kc_layers c <=? l) OutOfRange;
  let oi := owner_index k l in
  if negb (owned_by k oi l) then mret tt
  else
    let ratio := plane_ratio c l in
    _ ← km_guard (kc_max_context c <? u64 (rows * ratio)) InvalidArgument;
    _ ← reserve (u32 (rows * ratio));
    v ← layer l;
    _ ← write_opt (v_idx_key_host v) (bf16_bytes values (rows * kc_index_dim c));
    km_update (raise_hw oi rows).

Definition seed_cmp_state (l : Z) (kv score : list Z) (ratio : Z) : KM unit :=
  k ← km_get;
  let c := k_cfg k in
  _ ← km_guard (kc_layers c <=? l) OutOfRange;
  let oi := owner_index k l in
  if negb (owned_by k oi l) then mret tt
  else
    _ ← km_guard (kc_max_ratio c <? ratio) InvalidArgument;
    v ← layer l;
    let n := Z.to_nat (ratio * kc_latent_dim c) in
    _ ← write_opt (v_state_kv_host v) (to_bytes 4 (take n kv));
    write_opt (v_state_score_host v) (to_bytes 4 (take n score)).

Definition set_counts (l n_cmp n_kv : Z) : KM unit :=
  k ← km_get;
  let c := k_cfg k in
  _ ← km_guard (kc_layers c <=? l) OutOfRange;
  let oi := owner_index k l in
  let none := oi =? kNoPlane in
  let ratio := if none then 1 else plane_ratio c (nth (Z.to_nat oi) (k_owners k) kNoPlane) in
  _ ← km_guard ((kc_max_context c <? u64 (n_cmp * ratio)) || (topk_rows c <? n_kv)) InvalidArgument;
  _ ← (if none then mret tt else _ ← reserve (u32 (n_cmp * ratio)); km_update (raise_hw oi n_cmp));
  _ ← set_n_cmp l n_cmp;
  set_n_kv l n_kv.

(** ** The window ring *)

(** The last position below [n] that slot [s] of the ring held, or -1. *)
Definition ring_slot_position (s n window : Z) : Z :=
  if (window =? 0) || (n <=? s) then -1 else s + (n - 1 - s) / window * window.

Definition resolve_slot (w n : Z) (s : nat) (p : Z) : Z :=
  if negb (p =? kSlotUnknown) then p
  else let p := ring_slot_position (Z.of_nat s) n w in if p <? 0 then kSlotEmpty else p.
Definition resolve_ring_store (n : Z) (k : KvStore) : KvStore :=
  k <| k_slot_pos ::= imap (resolve_slot (kc_window (k_cfg k)) n) |>.
Definition resolve_ring (n : Z) : KM unit := km_update (resolve_ring_store n).

Definition slot_index (w position : Z) : nat := Z.to_nat (position mod w).
Definition mark_ring_written (first count : Z) : KM unit := km_update (fun k =>
  if bool_decide (k_slot_pos k = []) then k
  else k <| k_slot_pos ::= fun sp => foldl (fun sp j =>
         <[slot_index (kc_window (k_cfg k)) (u32 (first + j)) := first + j]> sp) sp (upto count) |>).

Definition ring_holds (k : KvStore) (position : Z) : bool :=
  if bool_decide (k_slot_pos k = []) || (position <? k_win_lo k) then false
  else nth (slot_index (kc_window (k_cfg k)) position) (k_slot_pos k) kSlotEmpty =? position.

Definition set_window_floor (position : Z) : KM unit := km_update (fun k => k <| k_win_lo := position |>).

(** One entry of the window half of the top-k list, as an [int32_t]'s bit pattern. *)
Definition window_entry (w lo position i : Z) : Z :=
  let slot := (position mod w + 1 + i) mod w in
  let pos := position - (w - 1 - i) in
  if (pos <? 0) || (pos <? lo) then u32 (-1) else slot.
Definition window_list (w lo position : Z) : list Z := window_entry w lo position <$> upto w.

Definition set_decode_topk (l position n_cmp n_sel : Z) : KM unit :=
  _ ← km_guard (n_cmp <? n_sel) InvalidArgument;
  _ ← reserve (u32 (position + 1));
  k ← km_get;
  _ ← set_counts l n_cmp (u32 (kc_window (k_cfg k) + n_sel));
  v ← layer l;
  let w := kc_window (k_cfg k) in
  _ ← km_update (fun k => k <| k_slot_pos ::= <[slot_index w position := position]> |>);
  k ← km_get;
  write_ptr (v_top_idx_host v) (to_bytes 4 (window_list w (k_win_lo k) position)).

(** ** Packing whole contexts *)

Definition chunk {X} (n : Z) (i : Z) (l : list X) : list X := subspan l (Z.to_nat (i * n)) (Z.to_nat n).

(** Rows [[first, first + rows)] of an owner's planes and words of its carried state, read
    as the kernels read them. *)
Definition cmp_rows (k : KvStore) (oi : nat) (first rows : Z) : list Z :=
  let d := kc_latent_dim (k_cfg k) in
  of_bytes 2 (Z.to_nat (rows * d)) (kv_read k (nth oi (l_cmp (k_lay k)) 0 + first * d * 2) (rows * d * 2)).
Definition key_rows (k : KvStore) (oi : nat) (first rows : Z) : list Z :=
  let d := kc_index_dim (k_cfg k) in
  of_bytes 2 (Z.to_nat (rows * d)) (kv_read k (nth oi (l_idx (k_lay k)) 0 + first * d * 2) (rows * d * 2)).
Definition carry_words (k : KvStore) (base : Z) (oi : nat) (n : Z) : list Z :=
  of_bytes 4 (Z.to_nat n) (kv_read k (base + Z.of_nat oi * state_stride k) (n * 4)).

(** A row's two halves packed, and whether both were exact. *)
Definition pack_rows (c : KvStoreConfig) (cmp key : list Z) (rows : Z)
  : list (bool * (list Z * list Z) * (list Z * list Z)) :=
  let cd := Z.to_nat (kc_latent_dim c) in let kd := Z.to_nat (kc_index_dim c) in
  (fun r =>
    let '(okc, fc, sc) := pack_fp4_row (chunk (kc_latent_dim c) r cmp) cd 16 false
                            (replicate (cd / 2)%nat 0) (replicate (cd / 16)%nat 0) in
    let '(okk, fk, sk) := pack_fp4_row (chunk (kc_index_dim c) r key) kd 32 true
                            (replicate (kd / 2)%nat 0) (replicate (kd / 32)%nat 0) in
    (okc && okk, (fc, sc), (fk, sk))) <$> upto rows.

Definition pack_plane (k : KvStore) (positions : Z) (oi : nat) (o : Z) : Result KvPackedPlane :=
  let c := k_cfg k in
  let ratio := plane_ratio c o in
  let rows := positions / ratio in
  _ ← fail_if ((nth oi (k_rows_hw k) 0 <? rows) || (rows_for c o (k_cap k) <? rows)) FailedPrecondition;
  let cd := kc_latent_dim c in let kd := kc_index_dim c in
  let cmp := cmp_rows k oi 0 rows in
  let key := key_rows k oi 0 rows in
  let packed := pack_rows c cmp key rows in
  let raw := filter (fun r => (nth (Z.to_nat r) packed (true, ([], []), ([], []))).1.1 = false) (upto rows) in
  let carry base := if 1 <? ratio then carry_words k base oi (ratio * cd) else [] in
  Ret (mkPackedPlane o ratio rows
         (mjoin ((fun p => p.1.2.1) <$> packed)) (mjoin ((fun p => p.1.2.2) <$> packed))
         (mjoin ((fun p => p.2.1) <$> packed)) (mjoin ((fun p => p.2.2) <$> packed))
         raw (mjoin ((fun r => chunk cd r cmp) <$> raw)) (mjoin ((fun r => chunk kd r key) <$> raw))
         (carry (l_state (k_lay k))) (carry (score_base k))).

Definition pack (k : KvStore) (positions : Z) : Result KvPacked :=
  _ ← fail_if (negb (valid k)) FailedPrecondition;
  planes ← foldM (fun out '(oi, o) => p ← pack_plane k positions oi o; Ret (out ++ [p])) [] (imap pair (k_owners k));
  Ret (mkKvPacked positions planes).

(** [memcpy] of one raw row over the unpacked ones. *)
Definition put_raw (d : Z) (raw : list Z) (rows : list Z) (all : list Z) : list Z :=
  foldl (fun all ir => overlay (Z.to_nat (ir.2 * d)) (chunk d (Z.of_nat ir.1) raw) all) all (imap pair rows).
Definition unpack_plane_rows (d : Z) (block : nat) (e8m0 : bool) (rows : Z) (fp4 scale raw raw_at : list Z) : list Z :=
  let n := Z.to_nat d in
  put_raw d raw raw_at (mjoin ((fun r =>
    unpack_fp4_row (subspan fp4 (Z.to_nat r * (n / 2))%nat (n / 2)%nat)
      (subspan scale (Z.to_nat r * (n / block))%nat (n / block)%nat) n block e8m0) <$> upto rows)).
Definition unpacked_cmp (c : KvStoreConfig) (p : KvPackedPlane) : list Z :=
  unpack_plane_rows (kc_latent_dim c) 16 false (pp_rows p) (pp_cmp_fp4 p) (pp_cmp_scale p) (pp_raw_cmp p) (pp_raw_rows p).
Definition unpacked_key (c : KvStoreConfig) (p : KvPackedPlane) : list Z :=
  unpack_plane_rows (kc_index_dim c) 32 true (pp_rows p) (pp_key_fp4 p) (pp_key_scale p) (pp_raw_key p) (pp_raw_rows p).

Definition unpack_writes (k : KvStore) (p : KvPackedPlane) (oi : Z) : list (Z * list Z) :=
  let c := k_cfg k in let i := Z.to_nat oi in
  [(nth i (l_cmp (k_lay k)) 0, to_bytes 2 (unpacked_cmp c p)); (nth i (l_idx (k_lay k)) 0, to_bytes 2 (unpacked_key c p))] ++
  if (1 <? pp_ratio p) && (len_Z (pp_carry_kv p) =? pp_ratio p * kc_latent_dim c)
  then [(l_state (k_lay k) + oi * state_stride k, to_bytes 4 (pp_carry_kv p));
        (score_base k + oi * state_stride k, to_bytes 4 (pp_carry_score p))]
  else [].
(** The vectors of a pack are taken to be as long as its rows need, as [pack] makes them: the
    code asks neither that nor whether the plane has room. *)
Definition unpack_plane (p : KvPackedPlane) : KM unit :=
  k ← km_get;
  let oi := owner_index k (pp_layer p) in
  _ ← km_guard ((oi =? kNoPlane) || negb (nth (Z.to_nat oi) (k_owners k) kNoPlane =? pp_layer p) ||
                negb (plane_ratio (k_cfg k) (pp_layer p) =? pp_ratio p)) InvalidArgument;
  km_update (fun k => raise_hw oi (pp_rows p) (kv_writes k (unpack_writes k p oi))).

(** Every layer's count of compressed rows after [positions] tokens. *)
Definition counts_at (k : KvStore) (positions : Z) : list Z :=
  (fun l => let oi := owner_index k l in
    if oi =? kNoPlane then 0 else positions / plane_ratio (k_cfg k) (nth (Z.to_nat oi) (k_owners k) kNoPlane)) <$>
  layer_ids (kc_layers (k_cfg k)).

Definition unpack (pk : KvPacked) : KM unit :=
  _ ← km_update forget_prompt;
  k ← km_get;
  _ ← km_guard (negb (valid k)) FailedPrecondition;
  _ ← reserve (Z.max (kp_positions pk) 1);
  _ ← foldr (fun p rest => _ ← unpack_plane p; rest) (mret tt) (kp_planes pk);
  km_update (fun k => k <| k_n_cmp := counts_at k (kp_positions pk) |>).

(** ** Rows saved before a replay *)

Definition backup_plane (k : KvStore) (first_pos end_pos : Z) (oi : nat) (o : Z) : Result BackupPlane :=
  let c := k_cfg k in
  let ratio := plane_ratio c o in
  let first_row := first_pos / ratio in
  let end_row := end_pos / ratio in
  let rows := if first_row <? end_row then end_row - first_row else 0 in
  _ ← fail_if (nth oi (k_rows_hw k) 0 <? u32 (first_row + rows)) FailedPrecondition;
  let n := kc_max_ratio c * kc_latent_dim c in
  Ret (mkBackupPlane o ratio first_row rows (cmp_rows k oi first_row rows) (key_rows k oi first_row rows)
         (carry_words k (l_state (k_lay k)) oi n) (carry_words k (score_base k) oi n)).

Definition backup_rows (k : KvStore) (first_pos end_pos : Z) : Result KvRowBackup :=
  _ ← fail_if (negb (valid k)) FailedPrecondition;
  planes ← foldM (fun out '(oi, o) => p ← backup_plane k first_pos end_pos oi o; Ret (out ++ [p])) [] (imap pair (k_owners k));
  Ret (mkKvRowBackup first_pos end_pos planes).

Definition restore_plane_row (position : Z) (p : BackupPlane) : KM unit :=
  k ← km_get;
  let r := u32 (position + 1) / bp_ratio p - 1 in
  if negb (u32 (position + 1) mod bp_ratio p =? 0) || (u32 r <? bp_first_row p) || (u32 (bp_first_row p + bp_rows p) <=? u32 r)
  then mret tt
  else
    let oi := owner_index k (bp_layer p) in
    _ ← km_guard (oi =? kNoPlane) InvalidArgument;
    let c := k_cfg k in let i := Z.to_nat oi in
    let cd := kc_latent_dim c in let kd := kc_index_dim c in
    km_update (fun k => kv_writes k
      [(nth i (l_cmp (k_lay k)) 0 + r * cd * 2, to_bytes 2 (chunk cd (r - bp_first_row p) (bp_cmp p)));
       (nth i (l_idx (k_lay k)) 0 + r * kd * 2, to_bytes 2 (chunk kd (r - bp_first_row p) (bp_key p)))]).
Definition restore_rows (b : KvRowBackup) (position : Z) : KM unit :=
  k ← km_get;
  _ ← km_guard (negb (valid k)) FailedPrecondition;
  foldr (fun p rest => _ ← restore_plane_row position p; rest) (mret tt) (kb_planes b).

Definition restore_plane_carry (p : BackupPlane) : KM unit :=
  k ← km_get;
  let oi := owner_index k (bp_layer p) in
  _ ← km_guard (oi =? kNoPlane) InvalidArgument;
  km_update (fun k => kv_writes k
    [(l_state (k_lay k) + oi * state_stride k, to_bytes 4 (bp_carry_kv p));
     (score_base k + oi * state_stride k, to_bytes 4 (bp_carry_score p))]).
Definition restore_carry (b : KvRowBackup) : KM unit :=
  k ← km_get;
  _ ← km_guard (negb (valid k)) FailedPrecondition;
  foldr (fun p rest => _ ← restore_plane_carry p; rest) (mret tt) (kb_planes b).

Definition exact_plane (c : KvStoreConfig) (positions : Z) (po : BackupPlane * Z) : bool :=
  let '(p, o) := po in
  (bp_layer p =? o) && (bp_ratio p =? plane_ratio c (bp_layer p)) && (bp_first_row p =? 0) &&
  (bp_rows p =? positions / bp_ratio p) && (len_Z (bp_cmp p) =? bp_rows p * kc_latent_dim c) &&
  (len_Z (bp_key p) =? bp_rows p * kc_index_dim c) &&
  (len_Z (bp_carry_kv p) =? kc_max_ratio c * kc_latent_dim c) && (len_Z (bp_carry_score p) =? len_Z (bp_carry_kv p)).
Definition restore_exact_rows (b : KvRowBackup) (positions : Z) : KM unit :=
  k ← km_get;
  _ ← km_guard (negb (len_Z (kb_planes b) =? len_Z (k_owners k))) Corrupt;
  _ ← km_guard (negb (forallb (exact_plane (k_cfg k) positions) (zip (kb_planes b) (k_owners k)))) Corrupt;
  _ ← reserve positions;
  _ ← km_update (fun k => (kv_writes k (mjoin (imap (fun i p =>
        [(nth i (l_cmp (k_lay k)) 0, to_bytes 2 (bp_cmp p)); (nth i (l_idx (k_lay k)) 0, to_bytes 2 (bp_key p))]) (kb_planes b))))
        <| k_rows_hw := bp_rows <$> kb_planes b |> <| k_n_cmp := counts_at k positions |>);
  restore_carry b.

(** ** Ring snapshots *)

(** Where slot [s] of layer [l] keeps its values and its scales. *)
Definition ring_val_off (k : KvStore) (l s : Z) : Z :=
  l_win_val (k_lay k) + (l * kc_window (k_cfg k) + s) * kc_latent_dim (k_cfg k).
Definition ring_scale_off (k : KvStore) (l s : Z) : Z :=
  l_win_scale (k_lay k) + (l * kc_window (k_cfg k) + s) * window_scales (k_cfg k).
Definition ring_val (k : KvStore) (l s : Z) : list Z := kv_read k (ring_val_off k l s) (kc_latent_dim (k_cfg k)).
Definition ring_scale (k : KvStore) (l s : Z) : list Z := kv_read k (ring_scale_off k l s) (window_scales (k_cfg k)).

(** [for (l : layers) for (s : slots)] *)
Definition cells (layers slots : list Z) : list (Z * Z) := mjoin ((fun l => (fun s => (l, s)) <$> slots) <$> layers).

Definition snapshot_ring (k : KvStore) (slots layers : list Z) : Result RingSnapshot :=
  let c := k_cfg k in
  _ ← fail_if (negb (valid k)) FailedPrecondition;
  _ ← fail_if (bool_decide (slots = []) || bool_decide (layers = [])) InvalidArgument;
  _ ← fail_if (existsb (fun l => kc_layers c <=? l) layers) OutOfRange;
  _ ← fail_if (existsb (fun s => kc_window c <=? s) slots) OutOfRange;
  Ret (mkRingSnapshot layers slots ((fun s => nth (Z.to_nat s) (k_slot_pos k) 0) <$> slots)
         (mjoin ((fun ls => ring_val k ls.1 ls.2) <$> cells layers slots))
         (mjoin ((fun ls => ring_scale k ls.1 ls.2) <$> cells layers slots)) (kc_latent_dim c)).

Definition ring_writes (k : KvStore) (s : RingSnapshot) : list (Z * list Z) :=
  let c := k_cfg k in
  mjoin (imap (fun o ls =>
    [(ring_val_off k ls.1 ls.2, chunk (kc_latent_dim c) (Z.of_nat o) (rg_val s));
     (ring_scale_off k ls.1 ls.2, chunk (window_scales c) (Z.of_nat o) (rg_scale s))]) (cells (rg_layer s) (rg_slot s))).
Definition restore_ring (s : RingSnapshot) : KM unit :=
  k ← km_get;
  let c := k_cfg k in
  _ ← km_guard (negb (valid k)) FailedPrecondition;
  _ ← km_guard (negb (rg_latent_dim s =? kc_latent_dim c) ||
                (negb (bool_decide (rg_position s = [])) && negb (length (rg_position s) =? length (rg_slot s))%nat)) InvalidArgument;
  _ ← km_guard (existsb (fun l => kc_layers c <=? l) (rg_layer s)) InvalidArgument;
  _ ← km_guard (existsb (fun sl => kc_window c <=? sl) (rg_slot s)) InvalidArgument;
  _ ← km_update (fun k => kv_writes k (ring_writes k s));
  if bool_decide (rg_position s = []) then mret tt
  else
    let all_layers := forallb (fun l => bool_decide (l ∈ rg_layer s)) (layer_ids (kc_layers c)) in
    km_update (fun k => k <| k_slot_pos ::= fun sp =>
      foldl (fun sp x => <[Z.to_nat x.1 := if all_layers then x.2 else kSlotEmpty]> sp) sp (zip (rg_slot s) (rg_position s)) |>).

(** ** The prompt window *)

Definition has_prompt_ring (k : KvStore) : bool := len_Z (k_prompt_slot_pos k) =? kc_window (k_cfg k).

Definition retain_prompt_ring (positions : Z) : KM unit :=
  _ ← resolve_ring positions;
  k ← km_get;
  s ← km_of (snapshot_ring k (upto (kc_window (k_cfg k))) (upto (kc_layers (k_cfg k))));
  km_update (fun k => k <| k_prompt_ring := s |>
    <| k_prompt_slot_pos := (fun p => if (0 <=? p) && (p <? k_win_lo k) then kSlotEmpty else p) <$> k_slot_pos k |>).

Definition truncate_prompt_ring (keep : Z) : KM unit :=
  km_update (fun k => k <| k_prompt_slot_pos ::= fmap (fun p => if keep <=? p then kSlotEmpty else p) |>).

Definition prompt_lo (k : KvStore) (keep : Z) : Z :=
  let w := kc_window (k_cfg k) in if w <=? keep then u32 (keep - w + 1) else 0.
(** The positions of [[lo, keep)] the prompt window retains. *)
Definition retained (k : KvStore) (keep : Z) : list Z :=
  filter (fun p => nth (slot_index (kc_window (k_cfg k)) p) (k_prompt_slot_pos k) kSlotEmpty = p)
    ((fun i => prompt_lo k keep + i) <$> upto (keep - prompt_lo k keep)).

Definition differing (a b : list Z) : Z := len_Z (filter (fun xy => xy.1 <> xy.2) (zip a b)).
Definition prompt_val (k : KvStore) (l s : Z) : list Z :=
  chunk (kc_latent_dim (k_cfg k)) (l * kc_window (k_cfg k) + s) (rg_val (k_prompt_ring k)).
Definition prompt_scale (k : KvStore) (l s : Z) : list Z :=
  chunk (window_scales (k_cfg k)) (l * kc_window (k_cfg k) + s) (rg_scale (k_prompt_ring k)).
Definition no_ring_diff : PromptRingDiff := mkRingDiff 0 0 0 UINT32_MAX UINT32_MAX.
Definition compare_prompt_ring (k : KvStore) (keep : Z) : PromptRingDiff :=
  if negb (has_prompt_ring k) then no_ring_diff
  else
    foldl (fun out pl =>
      let '(p, l) := pl in
      let s := p mod kc_window (k_cfg k) in
      let d := u64 (differing (ring_val k l s) (prompt_val k l s) + differing (ring_scale k l s) (prompt_scale k l s)) in
      if d =? 0 then out
      else mkRingDiff (u64 (rd_bytes out + d))
             (if ring_holds k p then u64 (rd_falsely_present_bytes out + d) else rd_falsely_present_bytes out)
             (u32 (rd_rows out + 1))
             (if rd_rows out =? 0 then p else rd_first_position out) (if rd_rows out =? 0 then l else rd_first_layer out))
      no_ring_diff (cells (retained k keep) (upto (kc_layers (k_cfg k)))).

Definition recover_writes (k : KvStore) (p : Z) : list (Z * list Z) :=
  let s := p mod kc_window (k_cfg k) in
  mjoin ((fun l => [(ring_val_off k l s, prompt_val k l s); (ring_scale_off k l s, prompt_scale k l s)]) <$>
    upto (kc_layers (k_cfg k))).
Definition recover_store (keep : Z) (k : KvStore) : KvStore :=
  let ps := retained k keep in
  let k1 := (kv_writes k (mjoin (recover_writes k <$> ps)))
    <| k_slot_pos ::= fun sp => foldl (fun sp p => <[slot_index (kc_window (k_cfg k)) p := p]> sp) sp ps |> in
  if bool_decide (ps = []) then k1 else k1 <| k_win_lo ::= fun lo => Z.min lo (prompt_lo k keep) |>.
Definition recover_prompt_ring (keep : Z) : KM Z := fun '(a, k) =>
  if negb (has_prompt_ring k) then (Ret 0, (a, k)) else (Ret (len_Z (retained k keep)), (a, recover_store keep k)).
End Store.
