(* ===== verification/KvRows.v ===== *)
(** Rows laid end to end, and a plane packed and unpacked row by row. *)

From S2P Require Import Prelude Types Floats Dequant KvPack V41Config KvLayout KvStore.

(** ** Pieces of one length *)

Lemma subspan_app_l {X} (l1 l2 : list X) a n : (a + n <= length l1)%nat -> subspan (l1 ++ l2) a n = subspan l1 a n.
Proof. intros Hl. unfold subspan. rewrite drop_app_le, take_app_le by (rewrite ?length_drop; lia). done. Qed.

Lemma subspan_app_r {X} (l1 l2 : list X) a n : (length l1 <= a)%nat -> subspan (l1 ++ l2) a n = subspan l2 (a - length l1) n.
Proof. intros Hl. unfold subspan. by rewrite drop_app_ge. Qed.

Lemma subspan_all {X} (l : list X) n : length l = n -> subspan l 0 n = l.
Proof. intros <-. unfold subspan. by rewrite drop_0, firstn_all. Qed.

(** The pieces of a join. *)
Lemma subspan_join {X} (ls : list (list X)) d r : Forall (fun l => length l = d) ls -> (r < length ls)%nat ->
  subspan (mjoin ls) (r * d) d = nth r ls [].
Proof.
  intros Hl. revert r. induction Hl as [|l ls Hl Hls IH]; intros r Hr; [cbn in Hr; lia|].
  change (mjoin (l :: ls)) with (l ++ mjoin ls). destruct r as [|r]; cbn [nth].
  - change (0 * d)%nat with 0%nat. rewrite subspan_app_l by lia. by apply subspan_all.
  - rewrite subspan_app_r by nia. replace (S r * d - length l)%nat with (r * d)%nat by nia. apply IH. cbn in Hr. lia.
Qed.

Lemma join_length {X} (ls : list (list X)) d : Forall (fun l => length l = d) ls -> length (mjoin ls) = (length ls * d)%nat.
Proof. induction 1 as [|l ls Hl _ IH]; [done|]. change (mjoin (l :: ls)) with (l ++ mjoin ls). rewrite length_app, IH, Hl. cbn. lia. Qed.

(** Two lists of [n] pieces are equal piece by piece. *)
Lemma pieces_eq {X} (l1 l2 : list X) d n : length l1 = (n * d)%nat -> length l2 = (n * d)%nat ->
  (forall r, r < n -> subspan l1 (r * d) d = subspan l2 (r * d) d)%nat -> l1 = l2.
Proof.
  revert l1 l2. induction n as [|n IH]; intros l1 l2 H1 H2 H.
  { apply nil_length_inv in H1 as ->. by apply nil_length_inv in H2 as ->. }
  rewrite <- (take_drop d l1), <- (take_drop d l2). f_equal.
  - specialize (H 0%nat ltac:(lia)). unfold subspan in H. by rewrite !drop_0 in H.
  - apply IH; rewrite ?length_drop; [lia|lia|]. intros r Hr. specialize (H (S r) ltac:(lia)).
    unfold subspan in *. rewrite !drop_drop. cbn [Nat.mul] in H. exact H.
Qed.

Lemma overlay_piece d r r' (bs l : list Z) n : length l = (n * d)%nat -> length bs = d -> (r' < n)%nat -> (r < n)%nat ->
  subspan (overlay (r' * d) bs l) (r * d) d = if decide (r = r') then bs else subspan l (r * d) d.
Proof.
  intros Hl Hb Hr' Hr. apply list_eq. intros i. destruct (decide (i < d)%nat) as [Hi|Hi].
  2: { rewrite !lookup_ge_None_2; [done| |]; [destruct (decide _); [lia|]|]; unfold subspan; rewrite length_take; lia. }
  rewrite subspan_lookup, overlay_lookup by nia. destruct (decide (r = r')) as [->|Hne].
  - rewrite decide_True by lia. f_equal. lia.
  - rewrite decide_False by nia. by rewrite subspan_lookup.
Qed.

Lemma foldl_same {X Y} (f g : X -> Y -> X) (l : list Y) x : (forall x y, f x y = g x y) -> foldl f x l = foldl g x l.
Proof. intros Hfg. revert x. induction l as [|y l IH]; intros x; [done|]. cbn. by rewrite Hfg. Qed.

(** ** A plane's rows *)

Lemma put_raw_piece d n raw_at raws (all : list Z) r : length all = (n * d)%nat -> NoDup raw_at ->
  Forall (fun x => 0 <= x < Z.of_nat n) raw_at -> length raws = (length raw_at * d)%nat -> (r < n)%nat ->
  length (put_raw (Z.of_nat d) raws raw_at all) = (n * d)%nat /\
  subspan (put_raw (Z.of_nat d) raws raw_at all) (r * d) d =
    match list_find (fun x => x = Z.of_nat r) raw_at with
    | Some (j, _) => subspan raws (j * d) d
    | None => subspan all (r * d) d
    end.
Proof.
  intros Hall Hnd Hrng Hraws Hr. unfold put_raw, chunk.
  assert (Hgen : forall (ats : list Z) m all, length all = (n * d)%nat -> NoDup ats -> Forall (fun x => 0 <= x < Z.of_nat n) ats ->
    (length raws >= (m + length ats) * d)%nat ->
    let res := foldl (fun all ir => overlay (Z.to_nat (ir.2 * Z.of_nat d))
      (subspan raws (Z.to_nat (Z.of_nat (m + ir.1) * Z.of_nat d)) (Z.to_nat (Z.of_nat d))) all) all (imap pair ats) in
    length res = (n * d)%nat /\
    subspan res (r * d) d = match list_find (fun x => x = Z.of_nat r) ats with
      | Some (j, _) => subspan raws ((m + j) * d) d | None => subspan all (r * d) d end).
  { clear Hall Hnd Hrng Hraws all raw_at. induction ats as [|x ats IH]; intros m all Hall Hnd Hrng Hraws; [done|].
    apply NoDup_cons in Hnd as [Hx Hnd]. apply Forall_cons in Hrng as [Hxr Hrng]. cbn [imap foldl fst snd length] in *.
    rewrite Nat.add_0_r. set (all' := overlay _ _ all).
    assert (Hall' : length all' = (n * d)%nat) by (unfold all'; by rewrite overlay_length).
    specialize (IH (S m) all' Hall' Hnd Hrng ltac:(lia)). cbn zeta in IH.
    assert (Hext : imap (pair ∘ S) ats = (fun ir => (S ir.1, ir.2)) <$> imap pair ats).
    { rewrite fmap_imap. by apply imap_ext. }
    rewrite Hext, foldl_fmap. cbn [fst snd].
    rewrite (foldl_same _ (fun all ir => overlay (Z.to_nat (ir.2 * Z.of_nat d))
      (subspan raws (Z.to_nat (Z.of_nat (S m + ir.1) * Z.of_nat d)) (Z.to_nat (Z.of_nat d))) all));
      [|by intros; rewrite Nat.add_succ_r].
    destruct IH as [IHl IHs]. split; [exact IHl|]. rewrite IHs. clear IHl IHs.
    assert (Hp : subspan all' (r * d) d = if decide (r = Z.to_nat x) then subspan raws (m * d) d else subspan all (r * d) d).
    { unfold all'. rewrite (Z2Nat.inj_mul x), (Z2Nat.inj_mul (Z.of_nat m)), !Nat2Z.id by lia.
      apply (overlay_piece _ _ _ _ _ n); [done|apply subspan_length; lia|lia|done]. }
    cbn [list_find]. destruct (decide (x = Z.of_nat r)) as [->|Hne].
    - destruct (list_find _ ats) as [[j y]|] eqn:Hf.
      { apply list_find_Some in Hf as (Hj & -> & _). apply list_elem_of_lookup_2 in Hj. done. }
      cbn. rewrite Nat.add_0_r, Hp, decide_True by lia. done.
    - destruct (list_find _ ats) as [[j y]|]; cbn; [f_equal; lia|]. rewrite Hp, decide_False by lia. done. }
  exact (Hgen raw_at 0%nat all Hall Hnd Hrng ltac:(lia)).
Qed.

Lemma pack_blocks_length bf16 block e8m0 bi todo nb sc :
  length (pack_blocks bf16 block e8m0 bi todo nb sc).1.2 = length nb /\ length (pack_blocks bf16 block e8m0 bi todo nb sc).2 = length sc.
Proof.
  revert bi nb sc. induction todo as [|todo IH]; intros bi nb sc; cbn [pack_blocks]; [done|].
  destruct (choose_scale _ _) as [[code codes]|]; [|done].
  destruct (IH (S bi) (put_codes nb (bi * block) codes) (<[bi:=code]> sc)) as [-> ->].
  by rewrite put_codes_length, length_insert.
Qed.

Lemma pack_row_length row n block e8m0 nb sc : length nb = (n / 2)%nat ->
  length (pack_fp4_row row n block e8m0 nb sc).1.2 = (n / 2)%nat /\ length (pack_fp4_row row n block e8m0 nb sc).2 = length sc.
Proof.
  intros Hn. unfold pack_fp4_row. destruct (_ || _); [done|].
  destruct (pack_blocks_length row block e8m0 0 (n / block) (replicate (n / 2) 0 ++ drop (n / 2) nb) sc) as [-> ->].
  rewrite length_app, length_replicate, length_drop. split; [lia|done].
Qed.

Lemma upto_lookup n r : (r < Z.to_nat n)%nat -> upto n !! r = Some (Z.of_nat r).
Proof. intros Hr. unfold upto, layer_ids. by rewrite list_lookup_fmap, lookup_seq_lt by done. Qed.
Lemma upto_length n : length (upto n) = Z.to_nat n.
Proof. unfold upto, layer_ids. by rewrite length_fmap, length_seq. Qed.
Lemma upto_spec n x : x ∈ upto n <-> 0 <= x < n.
Proof.
  unfold upto, layer_ids. rewrite list_elem_of_fmap. setoid_rewrite elem_of_seq. split; [naive_solver lia|].
  intros Hx. exists (Z.to_nat x). lia.
Qed.
Lemma upto_NoDup n : NoDup (upto n).
Proof. unfold upto, layer_ids. apply NoDup_fmap_2; [apply _|apply NoDup_seq]. Qed.

Lemma fmap_pieces {X} (f : Z -> list X) n d : (forall r, 0 <= r < n -> length (f r) = d) -> Forall (fun l => length l = d) (f <$> upto n).
Proof. intros Hf. apply Forall_fmap, Forall_forall. intros r Hr%upto_spec. by apply Hf. Qed.

Lemma nth_fmap_upto {X} (f : Z -> list X) n r : (r < Z.to_nat n)%nat -> nth r (f <$> upto n) [] = f (Z.of_nat r).
Proof. intros Hr. by rewrite nth_lookup, list_lookup_fmap, upto_lookup. Qed.

(** A plane's rows of width [d], packed in blocks of [block], the rows of [raw] kept raw. *)
Definition row_packed (d : Z) (block : nat) (e8m0 : bool) (data : list Z) (r : Z) : bool * list Z * list Z :=
  let n := Z.to_nat d in
  pack_fp4_row (chunk d r data) n block e8m0 (replicate (n / 2)%nat 0) (replicate (n / block)%nat 0).

Lemma unpack_rows_back d block e8m0 rows data raw : 0 < d -> row_fits (Z.to_nat d) block (replicate (Z.to_nat d / 2)%nat 0) (replicate (Z.to_nat d / block)%nat 0) ->
  length data = Z.to_nat (rows * d) -> 0 <= rows -> NoDup raw -> Forall (fun r => 0 <= r < rows) raw ->
  (forall r, 0 <= r < rows -> r ∉ raw -> (row_packed d block e8m0 data r).1.1 = true) ->
  unpack_plane_rows d block e8m0 rows
    (mjoin ((fun r => (row_packed d block e8m0 data r).1.2) <$> upto rows))
    (mjoin ((fun r => (row_packed d block e8m0 data r).2) <$> upto rows))
    (mjoin ((fun r => chunk d r data) <$> raw)) raw = data.
Proof.
  intros Hd Hfit Hlen Hrows Hnd Hraw Hok. set (n := Z.to_nat d) in *. set (m := Z.to_nat rows).
  assert (Hdata : length data = (m * n)%nat) by (unfold m, n; lia).
  assert (Hpl : forall r, length (row_packed d block e8m0 data r).1.2 = (n / 2)%nat /\ length (row_packed d block e8m0 data r).2 = (n / block)%nat).
  { intros r. unfold row_packed. fold n. destruct (pack_row_length (chunk d r data) n block e8m0 (replicate (n / 2) 0) (replicate (n / block) 0)) as [-> ->];
      [apply length_replicate|split; [done|apply length_replicate]]. }
  assert (Hchunk : forall r, 0 <= r < rows -> length (chunk d r data) = n).
  { intros r Hr. unfold chunk. fold n. apply subspan_length. rewrite Hdata. unfold m, n. nia. }
  assert (Hsub : forall r, (r < m)%nat -> chunk d (Z.of_nat r) data = subspan data (r * n) n).
  { intros r Hr. unfold chunk. fold n. f_equal. unfold n. lia. }
  unfold unpack_plane_rows. fold n.
  set (fp4 := mjoin ((fun r => (row_packed d block e8m0 data r).1.2) <$> upto rows)).
  set (sc := mjoin ((fun r => (row_packed d block e8m0 data r).2) <$> upto rows)).
  set (raws := mjoin ((fun r => chunk d r data) <$> raw)).
  set (all := mjoin ((fun r => unpack_fp4_row (subspan fp4 (Z.to_nat r * (n / 2)) (n / 2))
    (subspan sc (Z.to_nat r * (n / block)) (n / block)) n block e8m0) <$> upto rows)).
  assert (Hall : length all = (m * n)%nat).
  { unfold all. rewrite (join_length _ n), length_fmap, upto_length; [done|]. apply fmap_pieces. intros r _.
    unfold unpack_fp4_row. by rewrite length_fmap, length_seq. }
  assert (Hraws : Forall (fun l => length l = n) ((fun r => chunk d r data) <$> raw)).
  { apply Forall_fmap. eapply Forall_impl; [exact Hraw|]. intros r Hr. by apply Hchunk. }
  assert (Hput : forall r, (r < m)%nat -> _) by (intros r Hr; exact (put_raw_piece n m raw raws all r Hall Hnd
    ltac:(eapply Forall_impl; [exact Hraw|unfold m; lia]) ltac:(unfold raws; rewrite (join_length _ n), length_fmap by done; done) Hr)).
  replace (Z.of_nat n) with d in Hput by (unfold n; lia).
  destruct (decide (m = 0%nat)) as [Hm|Hm].
  { assert (Hz : raw = []). { destruct raw as [|x raw']; [done|]. apply Forall_cons in Hraw as [Hx _]. lia. }
    subst raw. unfold put_raw. cbn [imap foldl]. rewrite Hm in *. by rewrite (nil_length_inv data), (nil_length_inv all). }
  apply (pieces_eq _ _ n m); [by apply (Hput 0%nat ltac:(lia))|done|].
  intros r Hr. rewrite (proj2 (Hput r Hr)). destruct (list_find _ raw) as [[j x]|] eqn:Hf.
  - apply list_find_Some in Hf as (Hj & -> & _). unfold raws.
    rewrite (subspan_join _ n) by (done || by rewrite length_fmap; eapply lookup_lt_Some).
    rewrite nth_lookup, list_lookup_fmap, Hj. cbn [fmap option_fmap option_map default from_option id]. by apply Hsub.
  - assert (Hnr : Z.of_nat r ∉ raw).
    { intros Hin. rewrite list_find_None in Hf. by eapply Forall_forall in Hf; [|exact Hin]. }
    unfold all. rewrite (subspan_join _ n), nth_fmap_upto; [|done| |by rewrite length_fmap, upto_length].
    2: { apply fmap_pieces. intros r' _. unfold unpack_fp4_row. by rewrite length_fmap, length_seq. }
    rewrite Nat2Z.id. unfold fp4, sc.
    rewrite (subspan_join _ (n / 2)), (subspan_join _ (n / block)), !nth_fmap_upto by
      (done || (by rewrite length_fmap, upto_length) || (apply fmap_pieces; intros; apply Hpl)).
    rewrite <- Hsub by done.
    destruct (row_packed d block e8m0 data (Z.of_nat r)) as [[ok nb] s] eqn:Hp. cbn [fst snd].
    specialize (Hok (Z.of_nat r) ltac:(unfold m in Hr; lia) Hnr). rewrite Hp in Hok. cbn [fst] in Hok. subst ok.
    unfold row_packed in Hp. fold n in Hp. eapply pack_row_back; [|exact Hfit|exact Hp]. apply Hchunk. unfold m in Hr; lia.
Qed.
