(* ===== verification/KvStoreProps.v ===== *)
(** The KV store's regions in memory, what makes a store well-formed, and growth: what
    [reserve] answers, what it keeps, and that it changes nothing else. *)

From S2P Require Import Prelude Types Floats Dequant KvPack V41Config KvLayout KvStore.

(** ** Writes named by their region *)

Section Regions.
Context (c : KvStoreConfig) (os : list Z) (cap : Z) (Hf : layout_fits c os cap).
#[local] Abbreviation l := (layout_for c os cap).
#[local] Abbreviation n := (length os).

(** [len] bytes at [d] inside region [r]. *)
Definition inside (r : Region) (d len : Z) : Prop := region_in n r /\ 0 <= d /\ 0 <= len /\ d + len <= region_bytes c os cap r.

Lemma inside_slab r d len : inside r d len -> in_slab l (region_off l r + d) len.
Proof.
  intros (Hr & Hd & Hlen & Hend). eapply in_slab_sub; [by apply (layout_region c os cap r)|lia..].
Qed.

Lemma region_off_nonneg r : region_in n r -> 0 <= region_off l r.
Proof. intros Hr. eapply in_slab_nonneg; [by apply layout_slabs_ok|by apply (layout_region c os cap r)]. Qed.

Lemma inside_apart r d len q e m x : inside r d len -> inside q e m ->
  (r = q -> d + len <= e \/ e + m <= d) ->
  region_off l r + d <= x < region_off l r + d + len -> ~ (region_off l q + e <= x < region_off l q + e + m).
Proof.
  intros (Hr & ? & ? & ?) (Hq & ? & ? & ?) Hsame Hx Hy. destruct (decide (r = q)) as [->|Hne]; [lia|].
  destruct (layout_disjoint c os cap r q Hf Hr Hq Hne); lia.
Qed.

(** A write of data at an offset of a region. *)
Definition RWrite : Type := Region * Z * list Z.
Definition rw_inside (w : RWrite) : Prop := inside w.1.1 w.1.2 (Z.of_nat (length w.2)).
Definition flat_write (w : RWrite) : Z * list Z := (region_off l w.1.1 + w.1.2, w.2).
Definition rw_covers (r : Region) (d : Z) (w : RWrite) : Prop :=
  w.1.1 = r /\ w.1.2 <= d < w.1.2 + Z.of_nat (length w.2).

Lemma flat_covers r d w : inside r d 1 -> rw_inside w -> covers (flat_write w) (region_off l r + d) <-> rw_covers r d w.
Proof.
  intros Hr Hw. unfold covers, flat_write, rw_covers. cbn [fst snd]. split.
  - intros Hc. destruct (decide (w.1.1 = r)) as [<-|Hne]; [split; [done|lia]|]. exfalso.
    apply (inside_apart _ _ _ r d 1 (region_off l r + d) Hw Hr); [done|lia|lia].
  - intros [<- Hd]. lia.
Qed.

Lemma flat_writes_fit ws : Forall rw_inside ws -> Forall (write_fits l) (flat_write <$> ws).
Proof. intros H. apply Forall_fmap, (Forall_impl _ _ _ H). intros w Hw. by apply inside_slab. Qed.

(** What memory holds after the writes: the last one that covers a byte, else what it held. *)
Lemma region_writes_other bufs ws r d : maps bufs l -> Forall rw_inside ws -> inside r d 1 ->
  Forall (fun w => ~ rw_covers r d w) ws ->
  mem_at l (mem_writes l bufs (flat_write <$> ws)) (region_off l r + d) = mem_at l bufs (region_off l r + d).
Proof.
  intros Hb Hws Hr Hn. apply mem_writes_other; [by apply layout_slabs_ok|done|by apply flat_writes_fit| |].
  - pose proof (region_off_nonneg r (proj1 Hr)). destruct Hr as (_ & ? & _). lia.
  - apply Forall_fmap. rewrite Forall_forall in Hws, Hn |- *. intros w Hw. cbn. rewrite flat_covers by auto. by apply Hn.
Qed.

Lemma region_writes_at bufs l1 w l2 r d : maps bufs l -> Forall rw_inside (l1 ++ w :: l2) -> inside r d 1 ->
  rw_covers r d w -> Forall (fun w => ~ rw_covers r d w) l2 ->
  mem_at l (mem_writes l bufs (flat_write <$> l1 ++ w :: l2)) (region_off l r + d) = w.2 !! Z.to_nat (d - w.1.2).
Proof.
  intros Hb Hws Hr Hc Hn. pose proof (region_off_nonneg r (proj1 Hr)). destruct Hr as (Hin & Hd & Hr).
  assert (Hr' : inside r d 1) by done.
  pose proof (flat_writes_fit _ Hws) as Hfit. rewrite fmap_app, fmap_cons in *.
  apply Forall_app in Hws as [Hws1 [Hw Hws2]%Forall_cons].
  rewrite mem_writes_at; [|by apply layout_slabs_ok|done|done|lia|by apply flat_covers|].
  - unfold flat_write; cbn [fst snd]. destruct Hc as [<- _]. f_equal. lia.
  - apply Forall_fmap. rewrite Forall_forall in Hws2, Hn |- *. intros w' Hw'. cbn. rewrite flat_covers by auto. by apply Hn.
Qed.
End Regions.

(** ** A store between operations *)

(** Geometry the kernels can use: positive sizes, rows of whole blocks, ratios the carried
    state has slots for, and a context that counts in 32 bits. *)
Record kv_dims (c : KvStoreConfig) : Prop := {
  kd_layers : 0 <= kc_layers c < 2 ^ 32;
  kd_window : 0 < kc_window c < 2 ^ 31;
  kd_latent : 0 < kc_latent_dim c /\ kc_latent_dim c mod 16 = 0;
  kd_index : 0 < kc_index_dim c /\ kc_index_dim c mod 32 = 0;
  kd_scale : 0 < kc_scale_block c /\ kc_latent_dim c mod kc_scale_block c = 0;
  kd_context : 0 < kc_max_context c < 2 ^ 32;
  kd_ratio : forall o, o ∈ owners c -> 1 <= plane_ratio c o <= kc_max_ratio c /\ kc_max_context c + plane_ratio c o <= 2 ^ 32 }.

Record kv_ok (k : KvStore) : Prop := {
  ko_valid : k_bufs k <> [];
  ko_alloc : k_alloc k = true;
  ko_dims : kv_dims (k_cfg k);
  ko_lay : k_lay k = layout_for (k_cfg k) (k_owners k) (k_cap k);
  ko_cap : 0 < k_cap k <= kc_max_context (k_cfg k);
  ko_fits : layout_fits (k_cfg k) (k_owners k) (kc_max_context (k_cfg k));
  ko_maps : maps (k_bufs k) (k_lay k);
  ko_owners : k_owners k = owners (k_cfg k);
  ko_owner_of : forall l, 0 <= l < kc_layers (k_cfg k) -> owner_index k l = kNoPlane \/
    0 <= owner_index k l < Z.of_nat (length (k_owners k));
  ko_own : forall i o, k_owners k !! i = Some o -> owner_index k o = Z.of_nat i;
  ko_hw_len : length (k_rows_hw k) = length (k_owners k);
  ko_hw : forall i o hw, k_owners k !! i = Some o -> k_rows_hw k !! i = Some hw -> 0 <= hw <= rows_for (k_cfg k) o (k_cap k);
  ko_counts : Z.of_nat (length (k_n_cmp k)) = kc_layers (k_cfg k) /\ Z.of_nat (length (k_n_kv k)) = kc_layers (k_cfg k);
  ko_slots : Z.of_nat (length (k_slot_pos k)) = kc_window (k_cfg k) }.

(** Byte [d] of a region. *)
Definition kv_at (k : KvStore) (r : Region) (d : Z) : option Z := mem_at (k_lay k) (k_bufs k) (region_off (k_lay k) r + d).

Section Geometry.
Context (c : KvStoreConfig) (Hd : kv_dims c).

Lemma rows_for_exact o p : o ∈ owners c -> 0 <= p <= kc_max_context c -> rows_for c o p = (p + plane_ratio c o - 1) / plane_ratio c o.
Proof. intros Ho Hp. destruct (kd_ratio c Hd o Ho). unfold rows_for. rewrite u32_small by lia. done. Qed.

Lemma rows_for_mono o p q : o ∈ owners c -> 0 <= p <= q -> q <= kc_max_context c -> 0 <= rows_for c o p <= rows_for c o q.
Proof.
  intros Ho Hp Hq. destruct (kd_ratio c Hd o Ho). rewrite !rows_for_exact by (done || lia). split.
  - apply Z.div_pos; lia.
  - apply Z.div_le_mono; lia.
Qed.

Lemma rows_below o p rows : o ∈ owners c -> 0 <= p <= kc_max_context c -> rows <= p / plane_ratio c o -> rows <= rows_for c o p.
Proof.
  intros Ho Hp Hr. destruct (kd_ratio c Hd o Ho). rewrite rows_for_exact by done.
  assert (p / plane_ratio c o <= (p + plane_ratio c o - 1) / plane_ratio c o) by (apply Z.div_le_mono; lia). lia.
Qed.

Lemma window_scales_pos : 0 < window_scales c.
Proof.
  destruct (kd_scale c Hd) as [Hs Hm], (kd_latent c Hd) as [Hl _]. unfold window_scales. apply Z.div_str_pos.
  pose proof (Z.div_mod (kc_latent_dim c) (kc_scale_block c)). split; [done|].
  destruct (Z.le_gt_cases (kc_scale_block c) (kc_latent_dim c)); [done|]. rewrite Z.mod_small in Hm by lia. lia.
Qed.

(** A smaller context fits when the largest does. *)
Lemma region_bytes_mono os p q r : Forall (fun o => o ∈ owners c) os -> 0 <= p <= q -> q <= kc_max_context c ->
  region_in (length os) r -> 0 <= region_bytes c os p r -> 0 <= region_bytes c os q r -> region_bytes c os p r <= region_bytes c os q r.
Proof.
  intros Hos Hp Hq Hr _ _. destruct (kd_latent c Hd), (kd_index c Hd).
  destruct r as [| | | |i|i]; cbn [region_bytes region_in] in *; try lia;
    destruct (lookup_lt_is_Some_2 os i Hr) as [o Ho]; rewrite nth_lookup, Ho; cbn [default from_option id];
    pose proof (rows_for_mono o p q (Forall_lookup_1 _ _ _ _ Hos Ho) Hp Hq); nia.
Qed.

Lemma region_bytes_nonneg os p r : Forall (fun o => o ∈ owners c) os -> 0 <= p <= kc_max_context c ->
  0 <= kc_layers c * topk_rows c -> 0 <= kc_max_ratio c -> region_in (length os) r -> 0 <= region_bytes c os p r.
Proof.
  intros Hos Hp Ht Hm Hr. destruct (kd_latent c Hd), (kd_index c Hd), (kd_layers c Hd), (kd_window c Hd). pose proof window_scales_pos.
  destruct r as [| | | |i|i]; cbn [region_bytes region_in] in *; [nia..| |];
    destruct (lookup_lt_is_Some_2 os i Hr) as [o Ho]; rewrite nth_lookup, Ho; cbn [default from_option id];
    pose proof (rows_for_mono o p p (Forall_lookup_1 _ _ _ _ Hos Ho) ltac:(lia) ltac:(lia)); nia.
Qed.

Lemma regions_in m r : r ∈ regions m -> region_in m r.
Proof.
  unfold regions. rewrite !elem_of_app, !list_elem_of_fmap. setoid_rewrite elem_of_seq.
  intros [H|[(i & -> & Hi)|(i & -> & Hi)]]; [|cbn; lia..].
  rewrite !elem_of_cons, elem_of_nil in H. by destruct H as [->|[->|[->|[->|[]]]]].
Qed.

Lemma sum_Z_map_le {X} (f g : X -> Z) (l : list X) : Forall (fun x => f x <= g x) l -> sum_Z (f <$> l) <= sum_Z (g <$> l).
Proof. induction 1 as [|x l Hx _ IH]; cbn; [lia|]. unfold sum_Z in IH. lia. Qed.

Lemma layout_fits_mono os p q : Forall (fun o => o ∈ owners c) os -> 0 <= p <= q -> q <= kc_max_context c ->
  layout_fits c os q -> layout_fits c os p.
Proof.
  intros Hos Hp Hq [Hn Hs]. rewrite Forall_forall in Hn.
  assert (Ht : 0 <= kc_layers c * topk_rows c).
  { assert (H : RTop ∈ regions (length os)) by (unfold regions; set_solver). specialize (Hn _ H). cbn in Hn. lia. }
  assert (Hm : os = [] \/ 0 <= kc_max_ratio c).
  { destruct os as [|o os]; [by left|right]. apply Forall_cons in Hos as [Ho _]. destruct (kd_ratio c Hd o Ho). lia. }
  assert (Hpos : forall r, r ∈ regions (length os) -> 0 <= region_bytes c os p r).
  { intros r Hr. destruct Hm as [->|Hm].
    - apply regions_in in Hr as Hin. destruct r; cbn in Hin; try lia; specialize (Hn _ Hr); cbn in *; done.
    - apply region_bytes_nonneg; [done|lia|done|done|by apply regions_in]. }
  split; [by apply Forall_forall|].
  assert (sum_Z (region_bytes c os p <$> regions (length os)) <= sum_Z (region_bytes c os q <$> regions (length os))); [|lia].
  apply sum_Z_map_le, Forall_forall. intros r Hr. apply region_bytes_mono; [done|done|done|by apply regions_in|by apply Hpos|by apply Hn].
Qed.
End Geometry.

(** Writes to different regions: each one stands. *)
Lemma region_writes_distinct c os cap bufs (ws : list RWrite) w d : layout_fits c os cap ->
  maps bufs (layout_for c os cap) -> Forall (rw_inside c os cap) ws -> NoDup ((fun w => w.1.1) <$> ws) ->
  w ∈ ws -> w.1.2 <= d < w.1.2 + Z.of_nat (length w.2) ->
  mem_at (layout_for c os cap) (mem_writes (layout_for c os cap) bufs (flat_write c os cap <$> ws))
    (region_off (layout_for c os cap) w.1.1 + d) = w.2 !! Z.to_nat (d - w.1.2).
Proof.
  intros Hf Hb Hws Hnd Hw Hd. apply list_elem_of_split in Hw as (l1 & l2 & ->).
  assert (Hin : inside c os cap w.1.1 d 1).
  { apply Forall_app in Hws as [_ [Hw _]%Forall_cons]. destruct Hw as (? & ? & ? & ?). split_and!; [done|lia..]. }
  apply region_writes_at; [done|done|done|done|done|].
  rewrite fmap_app, fmap_cons in Hnd. apply NoDup_app in Hnd as (_ & _ & [Hn _]%NoDup_cons).
  apply Forall_forall. intros w' Hw' [He _]. apply Hn, list_elem_of_fmap. by exists w'.
Qed.

Lemma plane_regions (f g : Z -> Z) m hws :
  let rs := (mjoin (imap (fun oi hw => [(RCmp (m + oi), f hw); (RIdx (m + oi), g hw)]) hws)).*1 in
  NoDup rs /\ forall r, r ∈ rs -> exists i, (m <= i)%nat /\ (r = RCmp i \/ r = RIdx i).
Proof.
  revert m. induction hws as [|hw hws IH]; intros m; [split; [constructor|intros r Hr; by apply elem_of_nil in Hr]|].
  specialize (IH (S m)). cbn zeta in *. cbn [imap].
  rewrite (imap_ext _ (fun oi hw => [(RCmp (S m + oi), f hw); (RIdx (S m + oi), g hw)]) hws)
    by (intros i x _; cbn; by rewrite Nat.add_succ_r).
  destruct IH as [Hn Hin]. unfold mjoin in *. cbn [list_join app fmap list_fmap fst]. rewrite Nat.add_0_r. split.
  - constructor; [|constructor; [|exact Hn]].
    + rewrite elem_of_cons. intros [?|(i & Hi & [Hr|Hr])%Hin]; [done|simplify_eq; lia|done].
    + intros (i & Hi & [Hr|Hr])%Hin; [done|simplify_eq; lia].
  - intros r. rewrite !elem_of_cons. intros [->|[->|(i & Hi & Hr)%Hin]]; [exists m; auto|exists m; auto|exists i; split; [lia|done]].
Qed.

Section Live.
Context (k : KvStore) (Hk : kv_ok k).
#[local] Abbreviation c := (k_cfg k).

Lemma kv_owners_in : Forall (fun o => o ∈ owners c) (k_owners k).
Proof. rewrite (ko_owners k Hk). by apply Forall_forall. Qed.

Lemma kv_fits cap : 0 <= cap <= kc_max_context c -> layout_fits c (k_owners k) cap.
Proof.
  intros Hc. eapply layout_fits_mono; [apply Hk|apply kv_owners_in|exact Hc|lia|apply Hk].
Qed.

Lemma region_bound cap r : layout_fits c (k_owners k) cap -> region_in (length (k_owners k)) r ->
  0 <= region_bytes c (k_owners k) cap r < 2 ^ 62.
Proof.
  intros [Hn Hs] Hr. apply regions_lookup in Hr. rewrite Forall_lookup in Hn. split; [by eapply Hn|].
  assert (region_bytes c (k_owners k) cap r <= sum_Z (region_bytes c (k_owners k) cap <$> regions (length (k_owners k)))).
  { eapply sum_Z_le; [by apply Forall_fmap, Forall_lookup|]. by rewrite list_lookup_fmap, Hr. }
  unfold kPlaceSlack in Hs. lia.
Qed.

Lemma topk_bytes_exact : topk_bytes c = kc_layers c * topk_rows c * 4.
Proof.
  apply u64_small. pose proof (region_bound _ RTop (kv_fits (kc_max_context c) ltac:(pose proof (kd_context c (ko_dims k Hk)); lia)) I) as H.
  cbn [region_bytes] in H. lia.
Qed.

Lemma live_plane oi hw : k_rows_hw k !! oi = Some hw -> exists o, k_owners k !! oi = Some o /\ nth oi (k_owners k) 0 = o /\
  0 <= hw <= rows_for c o (k_cap k).
Proof.
  intros Hhw. assert (Hlt : (oi < length (k_owners k))%nat) by (rewrite <- (ko_hw_len k Hk); by eapply lookup_lt_Some).
  apply lookup_lt_is_Some_2 in Hlt as [o Ho]. exists o. rewrite nth_lookup, Ho. split_and!; [done|done|by eapply (ko_hw k Hk)..].
Qed.

(** Live ranges start their regions and stay inside them, at this capacity and any larger. *)
Lemma live_inside cap rn : k_cap k <= cap <= kc_max_context c -> rn ∈ live_regions k ->
  inside c (k_owners k) cap rn.1 0 rn.2.
Proof.
  intros Hc. unfold live_regions. rewrite topk_bytes_exact.
  pose proof (ko_cap k Hk). pose proof (kv_fits cap ltac:(lia)) as Hf. pose proof (ko_dims k Hk) as Hd.
  rewrite elem_of_app. intros [Hr|Hr].
  - assert (Hb : forall r, region_in (length (k_owners k)) r -> 0 <= region_bytes c (k_owners k) cap r) by (intros; by apply region_bound).
    unfold len_Z in Hr. rewrite !elem_of_cons, elem_of_nil in Hr. destruct Hr as [->|[->|[->|[->|[]]]]]; cbn [fst snd];
      split_and!; try done; try lia; match goal with |- 0 <= _ => first [exact (Hb RWinVal I)|exact (Hb RWinScale I)|exact (Hb RTop I)|exact (Hb RState I)] end.
  - apply list_elem_of_join in Hr as (x & Hrn & Hx). apply list_elem_of_lookup in Hx as [i Hx].
    apply list_lookup_imap_Some in Hx as (hw & Hhw & ->). destruct (live_plane i hw Hhw) as (o & Ho & Hn & Hw).
    pose proof (rows_for_mono c Hd o (k_cap k) cap (Forall_lookup_1 _ _ _ _ kv_owners_in Ho) ltac:(lia) ltac:(lia)).
    destruct (kd_latent c Hd), (kd_index c Hd). apply lookup_lt_Some in Ho.
    rewrite !elem_of_cons, elem_of_nil in Hrn. destruct Hrn as [->|[->|[]]]; cbn [fst snd];
      split_and!; cbn [region_in region_bytes]; rewrite ?Hn; try done; try lia; nia.
Qed.

Lemma live_distinct : NoDup (live_regions k).*1.
Proof.
  unfold live_regions. rewrite fmap_app. cbn [fmap list_fmap fst].
  destruct (plane_regions (fun hw => hw * kc_latent_dim c * 2) (fun hw => hw * kc_index_dim c * 2) 0 (k_rows_hw k)) as [Hn Hin].
  cbn [Nat.add] in Hn, Hin. cbn [app].
  assert (Hno : forall r, (forall i, r <> RCmp i /\ r <> RIdx i) -> r ∉ (mjoin (imap (fun oi hw =>
    [(RCmp oi, hw * kc_latent_dim c * 2); (RIdx oi, hw * kc_index_dim c * 2)]) (k_rows_hw k))).*1).
  { intros r Hr H. apply Hin in H as (i & _ & [->| ->]); by destruct (Hr i). }
  rewrite !NoDup_cons, !not_elem_of_cons. split_and!; try done; by apply Hno.
Qed.
End Live.

(** ** Growth *)

Section Operations.
Context {A : Type} `{Hal : MemoryAllocatorOk A}.

Definition buffer_of (b : GpuBuffer) (n : Z) : Prop := b_bytes b = n /\ Z.of_nat (length (b_data b)) = n.

Lemma allocate_slabs_sizes a sizes out bufs a' : allocate_slabs a sizes out = (Ret bufs, a') ->
  exists nb, bufs = out ++ nb /\ Forall2 buffer_of nb sizes.
Proof.
  revert a out. induction sizes as [|n sizes IH]; intros a out; cbn [allocate_slabs].
  { intros [= <- <-]. exists []. by rewrite app_nil_r. }
  destruct (gpu_allocate a n) as [[b|e] a1] eqn:E; [|done]. destruct (_ || _); [done|].
  intros (nb & -> & Hnb)%IH. exists (b :: nb). rewrite <- app_assoc. split; [done|]. constructor; [|done].
  by eapply gpu_allocate_size.
Qed.

Lemma zeroed_maps nb l : Forall2 buffer_of nb (l_slab_size l) -> maps (zeroed nb) l.
Proof.
  unfold maps, zeroed. intros Hm. apply Forall2_fmap_l. eapply Forall2_impl; [exact Hm|].
  intros b n [_ Hl]. cbn. by rewrite overlay_length.
Qed.

(** The live bytes as writes, each filling its range. *)
Definition live_writes (k : KvStore) : list RWrite :=
  (fun rn => (rn.1, 0, kv_read k (region_off (k_lay k) rn.1) rn.2)) <$> live_regions k.

Lemma copy_live_flat k cap : copy_live k (layout_for (k_cfg k) (k_owners k) cap) =
  flat_write (k_cfg k) (k_owners k) cap <$> live_writes k.
Proof.
  unfold copy_live, live_writes. rewrite <- list_fmap_compose. apply list_fmap_ext. intros i [r n] _.
  unfold flat_write. cbn. by rewrite Z.add_0_r.
Qed.

Lemma kv_read_length k r d n : kv_ok k -> inside (k_cfg k) (k_owners k) (k_cap k) r d n ->
  length (kv_read k (region_off (k_lay k) r + d) n) = Z.to_nat n.
Proof.
  intros Hk Hin. pose proof (ko_cap k Hk). pose proof (kv_fits k Hk (k_cap k) ltac:(lia)) as Hf.
  unfold kv_read. apply mem_read_length; rewrite (ko_lay k Hk); [by apply layout_slabs_ok|by rewrite <- (ko_lay k Hk); apply Hk|].
  by apply inside_slab.
Qed.

Lemma kv_read_lookup k r d n i : kv_ok k -> inside (k_cfg k) (k_owners k) (k_cap k) r d n -> 0 <= i < n ->
  kv_read k (region_off (k_lay k) r + d) n !! Z.to_nat i = kv_at k r (d + i).
Proof.
  intros Hk Hin Hi. pose proof (ko_cap k Hk). pose proof (kv_fits k Hk (k_cap k) ltac:(lia)) as Hf.
  unfold kv_read. rewrite mem_read_lookup; [|rewrite (ko_lay k Hk); by apply layout_slabs_ok|by apply Hk|rewrite (ko_lay k Hk); by apply inside_slab].
  rewrite decide_True by lia. unfold kv_at. f_equal. lia.
Qed.

Lemma live_writes_inside k cap : kv_ok k -> k_cap k <= cap <= kc_max_context (k_cfg k) ->
  Forall (rw_inside (k_cfg k) (k_owners k) cap) (live_writes k).
Proof.
  intros Hk Hc. apply Forall_fmap, Forall_forall. intros [r n] Hrn.
  change (inside (k_cfg k) (k_owners k) cap r 0 (Z.of_nat (length (kv_read k (region_off (k_lay k) r) n)))).
  pose proof (live_inside k Hk (k_cap k) (r, n) ltac:(pose proof (ko_cap k Hk); lia) Hrn) as Hin. cbn [fst snd] in Hin.
  pose proof (kv_read_length k r 0 n Hk Hin) as Hlen. rewrite Z.add_0_r in Hlen. rewrite Hlen.
  rewrite Z2Nat.id by (destruct Hin as (_ & _ & ? & _); lia). exact (live_inside k Hk cap (r, n) Hc Hrn).
Qed.

(** The store after growing to [nc] positions. *)
Definition grown (k k' : KvStore) (nc : Z) : Prop :=
  k' = k <| k_bufs := k_bufs k' |> <| k_lay := layout_for (k_cfg k) (k_owners k) nc |> <| k_cap := nc |> /\
  maps (k_bufs k') (layout_for (k_cfg k) (k_owners k) nc) /\ k_bufs k' <> [] /\
  forall r n d, (r, n) ∈ live_regions k -> 0 <= d < n -> kv_at k' r d = kv_at k r d.

Lemma km_store {T} (x y : Result T) (a a' : A) (k k' : KvStore) : (x, (a, k)) = (y, (a', k')) -> k = k'.
Proof. congruence. Qed.

Lemma grow_grown k nc a a' k' : kv_ok k -> k_cap k <= nc <= kc_max_context (k_cfg k) ->
  grow (layout_for (k_cfg k) (k_owners k) nc) nc (a, k) = (Ret tt, (a', k')) -> grown k k' nc.
Proof.
  intros Hk Hnc. pose proof (ko_cap k Hk). pose proof (kv_fits k Hk nc ltac:(lia)) as Hf.
  set (nl := layout_for (k_cfg k) (k_owners k) nc). unfold grow.
  destruct (allocate_slabs a (l_slab_size nl) []) as [[nb|e] a1] eqn:E; [|done]. intros <-%km_store.
  apply allocate_slabs_sizes in E as (nb' & Heq & Hnb). cbn [app] in Heq. subst nb.
  pose proof (zeroed_maps nb' nl Hnb) as Hz. unfold grown. split_and!; [done|by apply mem_writes_maps| |].
  - intros Hnil. pose proof (mem_writes_maps nl (zeroed nb') (copy_live k nl) Hz) as Hm.
    assert (Hb : mem_writes nl (zeroed nb') (copy_live k nl) = []) by exact Hnil. rewrite Hb in Hm.
    apply Forall2_nil_inv_l in Hm.
    pose proof (sl_first nl (layout_slabs_ok _ _ _ Hf)) as Hz0. apply lookup_lt_Some in Hz0.
    rewrite (sl_len nl (layout_slabs_ok _ _ _ Hf)), Hm in Hz0. cbn in Hz0. lia.
  - intros r n d Hrn Hd. unfold kv_at.
    change (mem_at nl (mem_writes nl (zeroed nb') (copy_live k nl)) (region_off nl r + d) = mem_at (k_lay k) (k_bufs k) (region_off (k_lay k) r + d)).
    unfold nl. rewrite copy_live_flat.
    pose proof (live_inside k Hk (k_cap k) (r, n) ltac:(lia) Hrn) as Hin. cbn [fst snd] in Hin.
    pose proof (kv_read_length k r 0 n Hk Hin) as Hlen. rewrite Z.add_0_r in Hlen.
    pose proof (region_writes_distinct (k_cfg k) (k_owners k) nc (zeroed nb') (live_writes k)
      (r, 0, kv_read k (region_off (k_lay k) r) n) d Hf Hz (live_writes_inside k nc Hk Hnc)) as Hw.
    cbn [fst snd] in Hw. rewrite Hw.
    + rewrite <- (Z.add_0_r (region_off (k_lay k) r)) at 1. rewrite kv_read_lookup by (done || lia). unfold kv_at. do 2 f_equal. lia.
    + unfold live_writes. rewrite <- list_fmap_compose.
      rewrite (list_fmap_ext _ fst) by done. exact (live_distinct k).
    + apply list_elem_of_fmap. by exists (r, n).
    + rewrite Hlen. lia.
Qed.

Lemma grown_ok k k' nc : kv_ok k -> k_cap k <= nc <= kc_max_context (k_cfg k) -> grown k k' nc -> kv_ok k'.
Proof.
  intros Hk Hnc (Heq & Hm & Hne & _). pose proof (ko_cap k Hk). destruct Hk.
  rewrite Heq in *. split; try done; cbn; try lia.
  intros i o hw Ho Hhw. specialize (ko_hw0 i o hw Ho Hhw).
  assert (Hin : o ∈ owners (k_cfg k)) by (rewrite <- ko_owners0; by eapply list_elem_of_lookup_2).
  pose proof (rows_for_mono (k_cfg k) ko_dims0 o (k_cap k) nc Hin). lia.
Qed.

Lemma grown_cap_range k positions : kv_ok k -> k_cap k < positions <= kc_max_context (k_cfg k) ->
  k_cap k <= grown_cap k positions <= kc_max_context (k_cfg k) /\ positions <= grown_cap k positions.
Proof.
  intros Hk Hp. pose proof (ko_cap k Hk). pose proof (kd_context _ (ko_dims k Hk)). unfold grown_cap.
  destruct (Z.ltb_spec (kc_max_context (k_cfg k) / 2) (k_cap k)); [lia|].
  rewrite u32_small by div_lia. lia.
Qed.

(** The live bytes of a store are those of another. *)
Definition same_live (k k' : KvStore) : Prop :=
  forall r n d, (r, n) ∈ live_regions k -> 0 <= d < n -> kv_at k' r d = kv_at k r d.

Lemma reserve_cases k positions a r a' k' : kv_ok k -> reserve positions (a, k) = (r, (a', k')) ->
  (r = Ret tt /\ positions <= k_cap k /\ k' = k) \/
  (r = Ret tt /\ k_cap k < positions <= kc_max_context (k_cfg k) /\ grown k k' (grown_cap k positions)) \/
  (exists e, r = Fail e /\ k' = k /\ k_cap k < positions /\
    (e = ResourceExhausted \/ positions <= kc_max_context (k_cfg k)) /\ (kc_max_context (k_cfg k) < positions -> e = ResourceExhausted)).
Proof.
  intros Hk Hr. unfold reserve, km_get, km_guard, mbind, KM_bind in Hr. cbn [snd] in Hr.
  assert (Hv : valid k = true) by (unfold valid; rewrite bool_decide_false by apply Hk; done).
  rewrite Hv in Hr. cbn [negb fail_if] in Hr.
  destruct (Z.leb_spec positions (k_cap k)); [left; inversion Hr; subst; done|right].
  destruct (Z.ltb_spec (kc_max_context (k_cfg k)) positions); cbn [fail_if] in Hr.
  { right. exists ResourceExhausted. inversion Hr; subst. split_and!; try done. by left. }
  destruct (grown_cap_range k positions Hk ltac:(lia)) as [Hg _].
  destruct r as [[]|e].
  - left. split_and!; [done|lia|lia|]. eapply grow_grown; [done|exact Hg|exact Hr].
  - right. exists e. split_and!; [done| |lia|by right|lia].
    unfold grow in Hr. destruct (allocate_slabs _ _ _) as [[nb|e'] a2]; inversion Hr; done.
Qed.

(** A store grown, or large enough as it was. *)
Lemma reserve_frame k n a a' k' : kv_ok k -> reserve n (a, k) = (Ret tt, (a', k')) ->
  kv_ok k' /\ k' = k <| k_bufs := k_bufs k' |> <| k_lay := k_lay k' |> <| k_cap := k_cap k' |> /\ n <= k_cap k'.
Proof.
  intros Hk Hr. destruct (reserve_cases _ _ _ _ _ _ Hk Hr) as [(_ & Hp & ->)|[(_ & Hp & Hg)|(e & [=] & _)]]; [by destruct k|].
  destruct (grown_cap_range _ _ Hk Hp) as [Hc Hn]. split; [by eapply grown_ok|]. destruct Hg as (-> & _). split; [done|exact Hn].
Qed.
End Operations.

(** ** Reading back what was written *)

Definition apart (w w' : RWrite) : Prop := forall r d, rw_covers r d w -> ~ rw_covers r d w'.

Lemma apart_regions (w w' : RWrite) : w.1.1 <> w'.1.1 -> apart w w'.
Proof. intros Hne r d [<- _] [? _]. done. Qed.

Lemma apart_ranges (w w' : RWrite) :
  w.1.2 + Z.of_nat (length w.2) <= w'.1.2 \/ w'.1.2 + Z.of_nat (length w'.2) <= w.1.2 -> apart w w'.
Proof. intros Hd r d [_ ?] [_ ?]. lia. Qed.

Lemma written_back c os cap bufs l1 w l2 : layout_fits c os cap -> maps bufs (layout_for c os cap) ->
  Forall (rw_inside c os cap) (l1 ++ w :: l2) -> Forall (apart w) l2 ->
  mem_read (layout_for c os cap) (mem_writes (layout_for c os cap) bufs (flat_write c os cap <$> l1 ++ w :: l2))
    (region_off (layout_for c os cap) w.1.1 + w.1.2) (Z.of_nat (length w.2)) = w.2.
Proof.
  intros Hf Hb Hws Ha. assert (Hw : rw_inside c os cap w) by (by apply Forall_app in Hws as [_ [Hw _]%Forall_cons]).
  apply mem_read_is; [by apply layout_slabs_ok|by apply mem_writes_maps|by apply inside_slab|done|].
  intros i Hi. rewrite <- Z.add_assoc. rewrite region_writes_at; [|done|done|done| | |].
  - f_equal. lia.
  - destruct Hw as (? & ? & ? & ?). split_and!; [done|lia..].
  - split; [done|lia].
  - eapply Forall_impl; [exact Ha|]. intros w' Hw'. apply Hw'. split; [done|lia].
Qed.

(** Everything but memory and the rows written is as before. *)
Definition memory_only (k k' : KvStore) : Prop := k' = k <| k_bufs := k_bufs k' |> <| k_rows_hw := k_rows_hw k' |>.

Lemma kv_writes_ok k ws hws : kv_ok k ->
  length hws = length (k_owners k) ->
  (forall i o hw, k_owners k !! i = Some o -> hws !! i = Some hw -> 0 <= hw <= rows_for (k_cfg k) o (k_cap k)) ->
  kv_ok ((kv_writes k ws) <| k_rows_hw := hws |>).
Proof.
  intros Hk Hlen Hhw. pose proof (ko_maps k Hk) as Hm. pose proof (mem_writes_maps (k_lay k) (k_bufs k) ws Hm) as Hm'.
  assert (Hne : mem_writes (k_lay k) (k_bufs k) ws <> []).
  { intros Hnil. rewrite Hnil in Hm'. apply Forall2_nil_inv_l in Hm'. unfold maps in Hm. rewrite Hm' in Hm. apply Forall2_nil_inv_r in Hm.
    by apply (ko_valid k Hk). }
  destruct Hk. split; done.
Qed.

Lemma kv_cap_fits k : kv_ok k -> layout_fits (k_cfg k) (k_owners k) (k_cap k).
Proof. intros Hk. apply kv_fits; [done|]. pose proof (ko_cap k Hk). lia. Qed.

Lemma forget_ok k : kv_ok k -> kv_ok (forget_prompt k).
Proof. intros Hk. destruct Hk. by split. Qed.

Lemma n_cmp_ok k v : kv_ok k -> Z.of_nat (length v) = kc_layers (k_cfg k) -> kv_ok (k <| k_n_cmp := v |>).
Proof. intros Hk Hv. pose proof (ko_counts k Hk) as [_ Hn]. destruct Hk. split; try done. Qed.

Lemma counts_at_length k positions : kv_ok k -> Z.of_nat (length (counts_at k positions)) = kc_layers (k_cfg k).
Proof. intros Hk. pose proof (kd_layers _ (ko_dims k Hk)). unfold counts_at, layer_ids. rewrite !length_fmap, length_seq. lia. Qed.

Lemma counted_ok k positions : kv_ok k -> kv_ok (k <| k_n_cmp := counts_at k positions |>).
Proof. intros Hk. apply n_cmp_ok; [done|]. by apply counts_at_length. Qed.
