(* ===== verification/KvInv.v ===== *)
(** Every operation of the KV store keeps it well-formed: a small logic for programs of [KM],
    the operations one by one, and [create] that establishes it. *)

From S2P Require Import Prelude Types Floats Dequant KvPack V41Config KvLayout KvStore KvStoreProps.

(** ** Triples

    [triple P m Q]: from a store with [P], an answer leaves [Q] of it and a failure leaves a
    well-formed store. *)

Definition triple {A T} (P : KvStore -> Prop) (m : KM (A:=A) T) (Q : T -> KvStore -> Prop) : Prop :=
  forall a k r a' k', P k -> m (a, k) = (r, (a', k')) -> match r with Ret x => Q x k' | Fail _ => kv_ok k' end.

Section Rules.
Context {A : Type} `{Hal : MemoryAllocatorOk A}.
Implicit Types (P : KvStore -> Prop) (m : KM (A:=A) unit).

Lemma triple_ret {T} P (x : T) : triple P (mret x : KM (A:=A) T) (fun _ k => P k).
Proof. intros a k r a' k' Hp [= <- <- <-]. exact Hp. Qed.

Lemma triple_bind {T U} P Q R (m : KM (A:=A) T) (f : T -> KM (A:=A) U) :
  triple P m Q -> (forall x, triple (Q x) (f x) R) -> triple P (m ≫= f) R.
Proof.
  intros Hm Hf a k r a' k' Hp. unfold mbind, KM_bind. destruct (m (a, k)) as [[x|e] [a1 k1]] eqn:E.
  - specialize (Hm _ _ _ _ _ Hp E). intros Hr. exact (Hf x _ _ _ _ _ Hm Hr).
  - specialize (Hm _ _ _ _ _ Hp E). intros [= <- <- <-]. exact Hm.
Qed.

Lemma triple_guard P b e : (forall k, P k -> kv_ok k) -> triple P (km_guard (A:=A) b e) (fun _ k => P k /\ b = false).
Proof. intros Hok a k r a' k' Hp [= <- <- <-]. unfold fail_if. destruct b; [by apply Hok|done]. Qed.

Lemma triple_get P : triple P (km_get (A:=A)) (fun x k => P k /\ x = k).
Proof. intros a k r a' k' Hp [= <- <- <-]. done. Qed.

Lemma triple_of {T} P (x : Result T) : (forall k, P k -> kv_ok k) -> triple P (km_of (A:=A) x) (fun _ k => P k).
Proof. intros Hok a k r a' k' Hp [= <- <- <-]. destruct x; [done|by apply Hok]. Qed.

Lemma triple_update P Q f : (forall k, P k -> Q (f k)) -> triple P (km_update (A:=A) f) (fun _ => Q).
Proof. intros Hf a k r a' k' Hp [= <- <- <-]. by apply Hf. Qed.

Lemma triple_weaken {T} P P' Q Q' (m : KM (A:=A) T) :
  (forall k, P' k -> P k) -> (forall x k, Q x k -> Q' x k) -> triple P m Q -> triple P' m Q'.
Proof. intros HP HQ Hm a k r a' k' Hp Hr. specialize (Hm _ _ _ _ _ (HP _ Hp) Hr). destruct r; auto. Qed.

Lemma triple_for {X} P (l : list X) (body : X -> KM (A:=A) unit) :
  (forall x, x ∈ l -> triple P (body x) (fun _ => P)) -> triple P (km_for l body) (fun _ => P).
Proof.
  induction l as [|x l IH]; intros Hb; [apply triple_ret|]. cbn [km_for].
  eapply triple_bind; [apply Hb, list_elem_of_here|]. intros []. apply IH. intros y Hy. apply Hb. by apply list_elem_of_further.
Qed.

Lemma triple_each {X} P (l : list X) (body : X -> KM (A:=A) unit) :
  (forall x, x ∈ l -> triple P (body x) (fun _ => P)) -> triple P (foldr (fun x rest => _ ← body x; rest) (mret tt) l) (fun _ => P).
Proof.
  induction l as [|x l IH]; intros Hb; [apply triple_ret|]. cbn [foldr].
  eapply triple_bind; [apply Hb, list_elem_of_here|]. intros []. apply IH. intros y Hy. apply Hb. by apply list_elem_of_further.
Qed.

(** ** Stores of one shape *)

(** What no operation after [create] changes, and the capacity that only grows. *)
Definition frame (k0 k : KvStore) : Prop :=
  k_cfg k = k_cfg k0 /\ k_owners k = k_owners k0 /\ k_owner_of k = k_owner_of k0 /\ k_cap k0 <= k_cap k.
Definition like (k0 k : KvStore) : Prop := kv_ok k /\ frame k0 k.

Lemma like_ok k0 k : like k0 k -> kv_ok k.
Proof. by intros []. Qed.
Lemma like_refl k : kv_ok k -> like k k.
Proof. intros Hk. split; [done|]. by unfold frame. Qed.
Lemma like_trans k0 k1 k : like k0 k1 -> like k1 k -> like k0 k.
Proof.
  intros (_ & H1 & H2 & H3 & H4) (Hk & H1' & H2' & H3' & H4'). split; [done|]. unfold frame. split_and!; congruence || lia.
Qed.

(** Memory of the same shape. *)
Lemma bufs_ok k bufs : kv_ok k -> maps bufs (k_lay k) -> kv_ok (k <| k_bufs := bufs |>).
Proof.
  intros Hk Hm. assert (Hne : bufs <> []).
  { intros ->. apply Forall2_nil_inv_l in Hm. pose proof (ko_maps k Hk) as Hm'. unfold maps in Hm'. rewrite Hm in Hm'.
    apply Forall2_nil_inv_r in Hm'. by apply (ko_valid k Hk). }
  destruct Hk. split; done.
Qed.

Lemma ptr_write_maps bufs p bs l : maps bufs l -> maps (ptr_write bufs p bs) l.
Proof. intros Hm. apply Forall2_alter_l; [done|]. intros b n _ _ Hl. cbn. by rewrite overlay_length. Qed.

Lemma writes_like k0 k ws : like k0 k -> like k0 (kv_writes k ws).
Proof. intros [Hk Hf]. split; [|done]. apply bufs_ok; [done|]. apply mem_writes_maps, Hk. Qed.

Lemma slots_ok k sp : kv_ok k -> length sp = length (k_slot_pos k) -> kv_ok (k <| k_slot_pos := sp |>).
Proof.
  intros Hk Hl. pose proof (ko_slots k Hk) as Hs. destruct Hk. split; try done.
  change (Z.of_nat (length sp) = kc_window (k_cfg k)). lia.
Qed.
Lemma slots_like k0 k sp : like k0 k -> length sp = length (k_slot_pos k) -> like k0 (k <| k_slot_pos := sp |>).
Proof. intros [Hk Hf] Hl. split; [by apply slots_ok|done]. Qed.

Lemma prompt_like k0 k rg sp : like k0 k -> like k0 (k <| k_prompt_ring := rg |> <| k_prompt_slot_pos := sp |>).
Proof. intros [Hk Hf]. split; [|done]. destruct Hk. by split. Qed.
Lemma floor_like k0 k lo : like k0 k -> like k0 (k <| k_win_lo := lo |>).
Proof. intros [Hk Hf]. split; [|done]. destruct Hk. by split. Qed.

Lemma raise_ok k oi o n : kv_ok k -> k_owners k !! Z.to_nat oi = Some o -> 0 <= n -> n <= rows_for (k_cfg k) o (k_cap k) ->
  kv_ok (raise_hw oi n k).
Proof.
  intros Hk Ho H0 Hn. apply (kv_writes_ok k [] (alter (Z.max n) (Z.to_nat oi) (k_rows_hw k)) Hk).
  { rewrite length_alter. apply Hk. }
  intros j o' hw Ho' Hhw. destruct (decide (j = Z.to_nat oi)) as [->|Hne].
  - rewrite list_lookup_alter_eq in Hhw. destruct (k_rows_hw k !! Z.to_nat oi) as [h|] eqn:Hh; [|done].
    injection Hhw as <-. pose proof (ko_hw k Hk _ o' h Ho' Hh). rewrite Ho in Ho'. injection Ho' as <-. lia.
  - rewrite list_lookup_alter_ne in Hhw by done. by apply (ko_hw k Hk j o').
Qed.

Lemma reserve_like k0 n : triple (A:=A) (like k0) (reserve n) (fun _ k => like k0 k /\ n <= k_cap k).
Proof.
  intros a k r a' k' [Hk Hf] Hr. destruct (reserve_cases _ _ _ _ _ _ Hk Hr) as [(-> & Hp & ->)|[(-> & Hp & Hg)|(e & -> & -> & _)]]; [done| |done].
  destruct (grown_cap_range _ _ Hk Hp) as [Hgc Hgp]. split; [split; [by eapply grown_ok|]|].
  - destruct Hg as (-> & _). destruct Hf as (? & ? & ? & ?). unfold frame. split_and!; try done. cbn. lia.
  - destruct Hg as (-> & _). exact Hgp.
Qed.

Lemma layer_like k0 l : triple (A:=A) (like k0) (layer l) (fun _ => like k0).
Proof.
  eapply triple_bind; [apply triple_get|]. intros k. apply (triple_weaken (like k0) _ (fun _ => like k0)); [by intros ? []|done|].
  apply triple_of, like_ok.
Qed.

Lemma write_opt_like k0 p bs : triple (A:=A) (like k0) (write_opt p bs) (fun _ => like k0).
Proof.
  destruct p as [p|]; [|apply triple_ret]. apply triple_update. intros k [Hk Hf]. split; [|done].
  apply bufs_ok; [done|]. apply ptr_write_maps, Hk.
Qed.
Lemma write_ptr_like k0 p bs : triple (A:=A) (like k0) (write_ptr p bs) (fun _ => like k0).
Proof. exact (write_opt_like k0 (Some p) bs). Qed.

Lemma set_n_cmp_like k0 l n : triple (A:=A) (like k0) (set_n_cmp l n) (fun _ => like k0).
Proof.
  intros a k r a' k' [Hk Hf]. unfold set_n_cmp, set_at. destruct (l <? len_Z (k_n_cmp k)); intros [= <- <- <-]; [|done].
  split; [|done]. pose proof (ko_counts k Hk) as Hc. destruct Hk. split; try done. cbn. by rewrite length_insert.
Qed.
Lemma set_n_kv_like k0 l n : triple (A:=A) (like k0) (set_n_kv l n) (fun _ => like k0).
Proof.
  intros a k r a' k' [Hk Hf]. unfold set_n_kv, set_at. destruct (l <? len_Z (k_n_kv k)); intros [= <- <- <-]; [|done].
  split; [|done]. pose proof (ko_counts k Hk) as Hc. destruct Hk. split; try done. cbn. by rewrite length_insert.
Qed.

(** ** Rules for what keeps a store well-formed *)

Definition keeps {T} (m : KM (A:=A) T) : Prop := forall k0, triple (like k0) m (fun _ => like k0).

Lemma keeps_bind {T U} (m : KM (A:=A) T) (f : T -> KM (A:=A) U) : keeps m -> (forall x, keeps (f x)) -> keeps (m ≫= f).
Proof. intros Hm Hf k0. eapply triple_bind; [apply Hm|]. intros x. apply Hf. Qed.

(** From a store on, everything is relative to it. *)
Lemma keeps_from {T} (m : KM (A:=A) T) P k0 : (forall k1, like k0 k1 -> P k1 -> triple (like k1) m (fun _ => like k1)) ->
  triple (fun k => like k0 k /\ P k) m (fun _ => like k0).
Proof.
  intros Hm a k r a' k' [Hl Hp] Hr. specialize (Hm k Hl Hp a k r a' k' (like_refl k (like_ok _ _ Hl)) Hr).
  destruct r; [by eapply like_trans|done].
Qed.

Lemma keeps_get {T} (f : KvStore -> KM (A:=A) T) : (forall k0, kv_ok k0 -> triple (like k0) (f k0) (fun _ => like k0)) -> keeps (km_get ≫= f).
Proof.
  intros Hf k0. eapply triple_bind; [apply triple_get|]. intros k. apply keeps_from. intros k1 Hl ->. apply Hf. by eapply like_ok.
Qed.

Lemma like_guard {T} k0 b e (m : KM (A:=A) T) Q : (b = false -> triple (like k0) m Q) -> triple (like k0) (km_guard b e ≫= fun _ => m) Q.
Proof.
  intros Hm. eapply triple_bind; [apply triple_guard, like_ok|]. intros _ a k r a' k' [Hl Hb] Hr. exact (Hm Hb _ _ _ _ _ Hl Hr).
Qed.

Lemma like_reserve {T} k0 n (m : KM (A:=A) T) : (forall k1, like k0 k1 -> n <= k_cap k1 -> triple (like k1) m (fun _ => like k1)) ->
  triple (like k0) (reserve n ≫= fun _ => m) (fun _ => like k0).
Proof. intros Hm. eapply triple_bind; [apply reserve_like|]. intros []. apply keeps_from. exact Hm. Qed.

Lemma like_bind {T U} k0 (m : KM (A:=A) T) (f : T -> KM (A:=A) U) : keeps m -> (forall x, triple (like k0) (f x) (fun _ => like k0)) ->
  triple (like k0) (m ≫= f) (fun _ => like k0).
Proof. intros Hm Hf. eapply triple_bind; [apply Hm|]. exact Hf. Qed.

Lemma like_update k0 f : (forall k, like k0 k -> like k0 (f k)) -> triple (A:=A) (like k0) (km_update f) (fun _ => like k0).
Proof. intros Hf. by apply triple_update. Qed.

Lemma keeps_forget : keeps (km_update forget_prompt).
Proof. intros k0. apply like_update. intros k Hl. by apply prompt_like. Qed.

(** ** The operations *)

Lemma seed_window_keeps l values rows : keeps (seed_window l values rows).
Proof.
  apply keeps_bind; [apply keeps_forget|intros _]. apply keeps_bind; [intros k0; apply layer_like|intros v].
  apply keeps_get. intros k0 _. apply like_guard. intros _. apply like_bind.
  - intros k1. apply like_update. intros k Hl. apply (slots_like k1 k); [done|]. rewrite length_app, length_replicate, length_drop. unfold len_Z. lia.
  - intros _. apply triple_for. intros r _. apply triple_for. intros b _.
    cbn zeta. case_match. case_match. apply like_bind; [intros k1; apply write_ptr_like|intros _; apply write_ptr_like].
Qed.

(** The rows an owner has written fit what was reserved for them. *)
Lemma raise_like k0 k oi l n : like k0 k -> owned_by k0 oi l = true -> 0 <= l < kc_layers (k_cfg k0) -> 0 <= n ->
  n * plane_ratio (k_cfg k0) l <= k_cap k0 -> like k0 (raise_hw oi n k).
Proof.
  intros [Hk Hf] Hown Hl Hn Hc. split; [|exact Hf]. destruct Hf as (Hcf & Hos & _ & Hcap).
  unfold owned_by in Hown. apply andb_true_iff in Hown as [_ Ho%Z.eqb_eq]. pose proof (kd_layers _ (ko_dims k Hk)) as Hlay.
  assert (Hlk : k_owners k !! Z.to_nat oi = Some l).
  { rewrite Hos. rewrite nth_lookup in Ho. destruct (k_owners k0 !! Z.to_nat oi) as [o|]; cbn in Ho; [by subst|].
    rewrite Hcf in Hlay. unfold kNoPlane in Ho. lia. }
  apply (raise_ok k oi l n Hk Hlk Hn). pose proof (ko_cap k Hk). pose proof (ko_dims k Hk) as Hd.
  assert (Hin : l ∈ owners (k_cfg k)) by (rewrite <- (ko_owners k Hk); by eapply list_elem_of_lookup_2).
  destruct (kd_ratio _ Hd l Hin) as [Hr _]. rewrite <- Hcf in Hc.
  apply (rows_below _ Hd l (k_cap k) n Hin); [lia|]. apply Z.div_le_lower_bound; lia.
Qed.

(** Positions that [n] rows stand for, as the code computes and bounds them. *)
Lemma rows_positions k0 l n : kv_ok k0 -> owned_by k0 (owner_index k0 l) l = true -> 0 <= l < kc_layers (k_cfg k0) -> 0 <= n < 2 ^ 32 ->
  u64 (n * plane_ratio (k_cfg k0) l) <= kc_max_context (k_cfg k0) -> u32 (n * plane_ratio (k_cfg k0) l) = n * plane_ratio (k_cfg k0) l.
Proof.
  intros Hk Hown Hl Hn. unfold owned_by in Hown. apply andb_true_iff in Hown as [_ Ho%Z.eqb_eq]. pose proof (kd_layers _ (ko_dims k0 Hk)).
  assert (Hin : l ∈ owners (k_cfg k0)).
  { rewrite <- (ko_owners k0 Hk). rewrite nth_lookup in Ho. destruct (k_owners k0 !! _) as [o|] eqn:E; cbn in Ho.
    - subst o. by eapply list_elem_of_lookup_2.
    - unfold kNoPlane in Ho. lia. }
  destruct (kd_ratio _ (ko_dims k0 Hk) l Hin) as [Hr Hr']. pose proof (kd_context _ (ko_dims k0 Hk)).
  assert (n * plane_ratio (k_cfg k0) l < 2 ^ 32 * 2 ^ 32) by nia. rewrite u64_small by lia. intros. apply u32_small. lia.
Qed.

Lemma not_owner k0 l : negb (owned_by k0 (owner_index k0 l) l) = false -> owned_by k0 (owner_index k0 l) l = true.
Proof. by intros ?%negb_false_iff. Qed.

Lemma seed_compressed_keeps l values n : 0 <= l -> 0 <= n < 2 ^ 32 -> keeps (seed_compressed l values n).
Proof.
  intros H0 Hn. apply keeps_get. intros k0 Hk. apply like_guard. intros Hl%Z.leb_gt.
  cbn zeta. destruct (negb (owned_by k0 (owner_index k0 l) l)) eqn:Hown; [apply set_n_cmp_like|]. apply not_owner in Hown.
  apply like_guard. intros Hmax%Z.ltb_ge. pose proof (rows_positions k0 l n Hk Hown ltac:(lia) Hn Hmax) as Hu. rewrite Hu.
  apply like_reserve. intros k1 Hk1 Hcap. apply like_bind; [intros k2; apply layer_like|]. intros v.
  apply like_bind; [intros k2; apply write_opt_like|]. intros _. apply (triple_bind _ (fun _ => like k1)); [|intros _; apply set_n_cmp_like].
  apply like_update. intros k Hl1. destruct Hk1 as [_ (Hc & Ho & Hoo & _)].
  apply (raise_like k1 k _ l n Hl1); rewrite ?Hc; [|lia|lia|done]. unfold owned_by in *. by rewrite Ho.
Qed.

Lemma seed_index_k_keeps l values n : 0 <= l -> 0 <= n < 2 ^ 32 -> keeps (seed_index_k l values n).
Proof.
  intros H0 Hn. apply keeps_get. intros k0 Hk. apply like_guard. intros Hl%Z.leb_gt.
  cbn zeta. destruct (negb (owned_by k0 (owner_index k0 l) l)) eqn:Hown; [apply triple_ret|]. apply not_owner in Hown.
  apply like_guard. intros Hmax%Z.ltb_ge. pose proof (rows_positions k0 l n Hk Hown ltac:(lia) Hn Hmax) as Hu. rewrite Hu.
  apply like_reserve. intros k1 Hk1 Hcap. apply like_bind; [intros k2; apply layer_like|]. intros v.
  apply like_bind; [intros k2; apply write_opt_like|]. intros _.
  apply like_update. intros k Hl1. destruct Hk1 as [_ (Hc & Ho & Hoo & _)].
  apply (raise_like k1 k _ l n Hl1); rewrite ?Hc; [|lia|lia|done]. unfold owned_by in *. by rewrite Ho.
Qed.

Lemma seed_topk_keeps l idx n : keeps (seed_topk l idx n).
Proof.
  apply keeps_bind; [intros k0; apply layer_like|]. intros v. apply keeps_get. intros k0 _. apply like_guard. intros _.
  apply like_bind; [intros k1; apply write_ptr_like|]. intros _. apply set_n_kv_like.
Qed.

Lemma seed_cmp_state_keeps l kv score ratio : keeps (seed_cmp_state l kv score ratio).
Proof.
  apply keeps_get. intros k0 _. apply like_guard. intros _. cbn zeta. case_match; [apply triple_ret|].
  apply like_guard. intros _. apply like_bind; [intros k1; apply layer_like|]. intros v.
  apply like_bind; [intros k1; apply write_opt_like|]. intros _. apply write_opt_like.
Qed.

Lemma owner_below k0 o : kv_ok k0 -> o ∈ k_owners k0 -> 0 <= o < kc_layers (k_cfg k0).
Proof.
  intros Hk Ho. rewrite (ko_owners k0 Hk) in Ho. apply list_elem_of_filter in Ho as [_ Ho].
  unfold layer_ids in Ho. apply list_elem_of_fmap in Ho as (m & -> & Hm%elem_of_seq). lia.
Qed.

(** An owner found through a layer that reads its planes. *)
Lemma found_owner k0 l : kv_ok k0 -> 0 <= l < kc_layers (k_cfg k0) -> owner_index k0 l <> kNoPlane ->
  let o := nth (Z.to_nat (owner_index k0 l)) (k_owners k0) kNoPlane in
  owned_by k0 (owner_index k0 l) o = true /\ 0 <= o < kc_layers (k_cfg k0) /\ owner_index k0 o = owner_index k0 l.
Proof.
  intros Hk Hl Hne o. destruct (ko_owner_of k0 Hk l Hl) as [?|Hr]; [done|].
  destruct (lookup_lt_is_Some_2 (k_owners k0) (Z.to_nat (owner_index k0 l)) ltac:(lia)) as [x Hx].
  assert (Ho : o = x) by (unfold o; by rewrite nth_lookup, Hx). rewrite Ho. split_and!.
  - unfold owned_by. rewrite nth_lookup, Hx, (proj2 (Z.eqb_neq _ _) Hne). cbn. apply Z.eqb_refl.
  - apply (owner_below k0 x Hk). by eapply list_elem_of_lookup_2.
  - apply (owner_below k0 x Hk). by eapply list_elem_of_lookup_2.
  - rewrite (ko_own k0 Hk _ _ Hx). lia.
Qed.

Lemma set_counts_keeps l n n_kv : 0 <= l -> 0 <= n < 2 ^ 32 -> keeps (set_counts l n n_kv).
Proof.
  intros H0 Hn. apply keeps_get. intros k0 Hk. apply like_guard. intros Hl%Z.leb_gt. cbn zeta. apply like_guard.
  intros [Hmax%Z.ltb_ge _]%orb_false_iff.
  apply (triple_bind _ (fun _ => like k0)); [|intros _; apply (triple_bind _ (fun _ => like k0)); [apply set_n_cmp_like|intros _; apply set_n_kv_like]].
  destruct (Z.eqb_spec (owner_index k0 l) kNoPlane) as [Hno|Hne]; [apply triple_ret|].
  destruct (found_owner k0 l Hk ltac:(lia) Hne) as (Hown & Ho & Hoi). set (o := nth _ _ kNoPlane) in *. rewrite <- Hoi in Hown.
  rewrite (rows_positions k0 o n Hk Hown Ho Hn Hmax). apply like_reserve. intros k1 Hk1 Hcap. apply like_update. intros k Hl1.
  destruct Hk1 as [_ (Hc & Hos & Hoo & _)]. rewrite <- Hoi.
  apply (raise_like k1 k _ o n Hl1); rewrite ?Hc; [|lia|lia|done]. unfold owned_by in *. by rewrite Hos.
Qed.

Lemma resolve_keeps n : keeps (resolve_ring n).
Proof. intros k0. apply like_update. intros k Hl. apply (slots_like k0 k); [done|]. by rewrite length_imap. Qed.

Lemma mark_keeps first count : keeps (mark_ring_written first count).
Proof.
  intros k0. apply like_update. intros k Hl. case_bool_decide; [done|]. apply (slots_like k0 k); [done|].
  apply (foldl_insert_length (fun j => slot_index (kc_window (k_cfg k)) (u32 (first + j))) (fun j => first + j)).
Qed.

Lemma window_floor_keeps p : keeps (set_window_floor p).
Proof. intros k0. apply like_update. intros k Hl. by apply floor_like. Qed.

Lemma set_decode_topk_keeps l position n_cmp n_sel : 0 <= l -> 0 <= n_cmp < 2 ^ 32 -> keeps (set_decode_topk l position n_cmp n_sel).
Proof.
  intros H0 Hn k0. apply like_guard. intros _. apply like_reserve. intros k1 Hk1 _. revert k1 Hk1.
  enough (Hk : keeps (k ← km_get; _ ← set_counts l n_cmp (u32 (kc_window (k_cfg k) + n_sel)); v ← layer l;
    _ ← km_update (fun k0 => k0 <| k_slot_pos ::= <[slot_index (kc_window (k_cfg k)) position := position]> |>);
    k1 ← km_get; write_ptr (v_top_idx_host v) (to_bytes 4 (window_list (kc_window (k_cfg k)) (k_win_lo k1) position)))) by (intros; apply Hk).
  apply keeps_get. intros k1 _. apply like_bind; [by apply set_counts_keeps|]. intros _. apply like_bind; [intros k2; apply layer_like|].
  intros v. apply like_bind; [|intros _; apply keeps_get; intros k2 _; apply write_ptr_like]. intros k2. apply like_update. intros k Hl.
  apply (slots_like k2 k); [done|]. by rewrite length_insert.
Qed.

Lemma clear_like k0 k : like k0 k -> like k0 (clear_store k).
Proof.
  intros [Hk Hf]. unfold clear_store. change (valid (forget_prompt k)) with (valid k).
  assert (Hv : valid k = true) by (unfold valid; rewrite bool_decide_false by apply Hk; done). rewrite Hv. cbn [negb].
  split; [|exact Hf].
  pose proof (kv_writes_ok k (clear_writes k) ((fun _ => 0) <$> k_rows_hw k) Hk) as Hw. rewrite length_fmap in Hw.
  specialize (Hw (ko_hw_len k Hk)). pose proof (kd_window _ (ko_dims k Hk)).
  assert (Hw' : kv_ok ((kv_writes k (clear_writes k)) <| k_rows_hw := (fun _ => 0) <$> k_rows_hw k |>)).
  { apply Hw. intros i o hw Ho Hhw. apply list_lookup_fmap_Some in Hhw as (h & -> & Hh). pose proof (ko_hw k Hk i o h Ho Hh). lia. }
  destruct Hw'. split; try done; cbn; rewrite ?length_fmap; try done. rewrite length_replicate. lia.
Qed.
Lemma clear_keeps : keeps clear.
Proof. intros k0. apply like_update. intros k. apply clear_like. Qed.

(** ** Rows and rings restored *)

Lemma restore_plane_row_keeps position p : keeps (restore_plane_row position p).
Proof.
  apply keeps_get. intros k0 _. cbn zeta. case_match; [apply triple_ret|]. apply like_guard. intros _.
  apply like_update. intros k Hl. by apply writes_like.
Qed.
Lemma restore_rows_keeps b position : keeps (restore_rows b position).
Proof.
  apply keeps_get. intros k0 _. apply like_guard. intros _. apply triple_each. intros p _. apply restore_plane_row_keeps.
Qed.
Lemma restore_plane_carry_keeps p : keeps (restore_plane_carry p).
Proof. apply keeps_get. intros k0 _. apply like_guard. intros _. apply like_update. intros k Hl. by apply writes_like. Qed.
Lemma restore_carry_keeps b : keeps (restore_carry b).
Proof.
  apply keeps_get. intros k0 _. apply like_guard. intros _. apply triple_each. intros p _. apply restore_plane_carry_keeps.
Qed.

Lemma restore_ring_keeps s : keeps (restore_ring s).
Proof.
  apply keeps_get. intros k0 _. apply like_guard. intros _. apply like_guard. intros _. apply like_guard. intros _. apply like_guard. intros _.
  apply like_bind; [intros k1; apply like_update; intros k Hl; by apply writes_like|]. intros _. case_match; [apply triple_ret|].
  cbn zeta. apply like_update. intros k Hl. apply (slots_like k0 k); [done|]. apply foldl_insert_length.
Qed.

Lemma retain_keeps n : keeps (retain_prompt_ring n).
Proof.
  apply keeps_bind; [apply resolve_keeps|intros _]. apply keeps_get. intros k0 _. eapply triple_bind; [apply triple_of, like_ok|].
  intros s. apply like_update. intros k Hl. by apply prompt_like.
Qed.
Lemma truncate_keeps n : keeps (truncate_prompt_ring n).
Proof. intros k0. apply like_update. intros k Hl. apply (prompt_like k0 k (k_prompt_ring k)). by destruct k. Qed.

Lemma recover_like k0 keep k : like k0 k -> like k0 (recover_store keep k).
Proof.
  intros Hl. unfold recover_store. cbn zeta.
  assert (H1 : like k0 ((kv_writes k (mjoin (recover_writes k <$> retained k keep))) <| k_slot_pos ::= fun sp =>
    foldl (fun sp p => <[slot_index (kc_window (k_cfg k)) p := p]> sp) sp (retained k keep) |>)).
  { apply (slots_like k0 (kv_writes k _)); [by apply writes_like|]. apply (foldl_insert_length (slot_index (kc_window (k_cfg k))) id). }
  case_match; [done|]. by apply (floor_like k0 _ _ H1).
Qed.
Lemma recover_keeps keep : keeps (recover_prompt_ring keep).
Proof.
  intros k0 a k r a' k' Hl. unfold recover_prompt_ring. destruct (negb _); intros [= <- <- <-]; [done|by apply recover_like].
Qed.

(** ** Contexts restored *)

Lemma reserve_keeps_ok n : keeps (reserve n).
Proof. intros k0. eapply triple_weaken; [| |apply reserve_like]; [done|by intros [] ? []]. Qed.

Lemma exact_rows_fit k positions i o p : kv_ok k -> k_owners k !! i = Some o -> 0 <= positions <= k_cap k ->
  exact_plane (k_cfg k) positions (p, o) = true -> 0 <= bp_rows p <= rows_for (k_cfg k) o (k_cap k).
Proof.
  intros Hk Ho Hpos Hx. unfold exact_plane in Hx. rewrite !andb_true_iff, !Z.eqb_eq in Hx.
  destruct Hx as (((((((Hl & Hr) & _) & Hrows) & _) & _) & _) & _). rewrite Hl in Hr.
  pose proof (ko_dims k Hk) as Hd. pose proof (ko_cap k Hk).
  assert (Hin : o ∈ owners (k_cfg k)) by (rewrite <- (ko_owners k Hk); by eapply list_elem_of_lookup_2).
  destruct (kd_ratio _ Hd o Hin) as [Hrat _]. rewrite Hrows, Hr. split; [apply Z.div_pos; lia|].
  apply (rows_below _ Hd o (k_cap k)); [done|lia|]. apply Z.div_le_mono; lia.
Qed.

Lemma restore_exact_keeps b positions : 0 <= positions -> keeps (restore_exact_rows b positions).
Proof.
  intros Hpos. apply keeps_get. intros k0 Hk. apply like_guard. intros Hlen%negb_false_iff%Z.eqb_eq. apply like_guard.
  intros Hex%negb_false_iff. apply like_reserve. intros k1 Hk1 Hcap.
  apply (triple_bind _ (fun _ => like k1)); [|intros _; apply restore_carry_keeps].
  apply like_update. intros k Hl. destruct Hk1 as [_ (Hc & Hos & _ & _)]. destruct Hl as [Hk' Hf]. pose proof Hf as (Hcf & Hosf & _ & Hcapf).
  split; [|exact Hf]. apply (n_cmp_ok ((kv_writes k _) <| k_rows_hw := bp_rows <$> kb_planes b |>)); [|exact (counts_at_length k positions Hk')].
  unfold len_Z in Hlen. apply kv_writes_ok; [done|rewrite length_fmap, Hosf, Hos; lia|].
  intros i o hw Ho (p & -> & Hp)%list_lookup_fmap_Some.
  assert (Hx : exact_plane (k_cfg k0) positions (p, o) = true).
  { rewrite forallb_forall in Hex. apply Hex, list_elem_of_In, list_elem_of_lookup. exists i. apply lookup_zip_with_Some.
    exists p, o. split_and!; [done|done|]. by rewrite Hosf, Hos in Ho. }
  apply (exact_rows_fit k positions i o p Hk' Ho); [lia|]. by rewrite Hcf, Hc.
Qed.

(** A packed plane of some layer, whose rows fit the context it belongs to ([unpack] does not
    check the rows). *)
Definition plane_in (positions : Z) (p : KvPackedPlane) : Prop :=
  pp_layer p <> kNoPlane /\ 0 <= pp_rows p /\ pp_rows p * pp_ratio p <= positions.

Lemma plane_ratio_pos c o : 1 <= plane_ratio c o.
Proof. unfold plane_ratio. case_match; lia. Qed.

(** Every plane [pack] makes is one. *)
Lemma packed_plane_in k positions i o p : kv_ok k -> o ∈ k_owners k -> 0 <= positions -> pack_plane k positions i o = Ret p -> plane_in positions p.
Proof.
  intros Hk Ho Hp. unfold pack_plane. intros (_ & _ & [= <-])%bind_Ret. unfold plane_in. cbn [pp_rows pp_ratio pp_layer].
  pose proof (plane_ratio_pos (k_cfg k) o). pose proof (owner_below k o Hk Ho). pose proof (kd_layers _ (ko_dims k Hk)).
  split; [unfold kNoPlane; lia|]. split; [apply Z.div_pos; lia|]. pose proof (Z.mul_div_le positions (plane_ratio (k_cfg k) o)). lia.
Qed.
Lemma packed_in k positions pk : kv_ok k -> 0 <= positions -> pack k positions = Ret pk -> Forall (plane_in (kp_positions pk)) (kp_planes pk).
Proof.
  intros Hk Hp. unfold pack. intros (_ & _ & (ps & Hf & [= <-])%bind_Ret)%bind_Ret. cbn.
  refine (foldM_done _ (fun _ out => Forall (plane_in positions) out) _ _ _ _ (Forall_nil_2 _) Hf).
  intros done' [i o] out out' Hin Hout (q & Hq & [= <-])%bind_Ret. apply Forall_app. split; [done|]. apply Forall_singleton.
  apply (packed_plane_in k positions i o q Hk); [|done..]. apply elem_of_lookup_imap in Hin as (j & x & [= <- <-] & Hx). by eapply list_elem_of_lookup_2.
Qed.

Lemma unpack_plane_like k0 positions p : kv_ok k0 -> positions <= k_cap k0 -> plane_in positions p ->
  triple (A:=A) (like k0) (unpack_plane p) (fun _ => like k0).
Proof.
  intros Hk Hcap (Hno & H0 & Hr). eapply triple_bind; [apply triple_get|]. intros k. apply keeps_from. intros k1 Hl <-.
  destruct Hl as [Hk1 (Hc & Hos & Hoo & Hcap1)].
  cbn zeta. apply like_guard. intros [[Hoi Ho%negb_false_iff%Z.eqb_eq]%orb_false_iff Hrat%negb_false_iff%Z.eqb_eq]%orb_false_iff.
  apply like_update. intros k2 Hl. apply (raise_like k (kv_writes k2 _) _ (pp_layer p)); [by apply writes_like| | |done|rewrite Hrat; lia].
  - unfold owned_by. rewrite Hoi, Ho, Z.eqb_refl. done.
  - apply (owner_below k _ Hk1). rewrite nth_lookup in Ho. destruct (k_owners k !! _) as [o|] eqn:E; cbn in Ho; [subst o; by eapply list_elem_of_lookup_2|].
    by subst.
Qed.

Lemma unpack_keeps pk : Forall (plane_in (kp_positions pk)) (kp_planes pk) -> keeps (unpack pk).
Proof.
  intros Hp. apply keeps_bind; [apply keeps_forget|intros _]. apply keeps_get. intros k0 _. apply like_guard. intros _.
  apply like_reserve. intros k1 Hl Hcap. pose proof (like_ok _ _ Hl) as Hk1.
  apply (triple_bind _ (fun _ => like k1)).
  - apply triple_each. intros p Hin. rewrite Forall_forall in Hp. apply (unpack_plane_like k1 (kp_positions pk)); [done|lia|by apply Hp].
  - intros _. apply like_update. intros k [Hk Hf]. split; [by apply counted_ok|done].
Qed.
End Rules.

(** ** A store from its creation on *)

Lemma owner_entries_spec c os ls xs : owner_entries c os ls = (true, xs) ->
  forall i l, ls !! i = Some l -> exists x, owner_entry c os l = Some x /\ xs !! i = Some x.
Proof.
  revert xs. induction ls as [|l ls IH]; intros xs; cbn [owner_entries]; [done|].
  destruct (owner_entry c os l) as [x|] eqn:E; [|done]. destruct (owner_entries c os ls) as [ok ys] eqn:E2.
  intros [= -> <-]. intros [|i] l' Hl; cbn in Hl; [simplify_eq; by exists x|]. by apply (IH ys eq_refl).
Qed.

Lemma owner_entry_cases c os l x : owner_entry c os l = Some x -> x = kNoPlane \/ 0 <= x < Z.of_nat (length os).
Proof.
  unfold owner_entry. destruct (_ =? _); [intros [= <-]; by left|]. intros Hx. right.
  apply fmap_Some in Hx as ([i y] & (Hi & _)%list_find_Some & ->). apply lookup_lt_Some in Hi. cbn. lia.
Qed.

Lemma owners_lookup c i o : owners c !! i = Some o -> owner c o = o /\ 0 <= o < kc_layers c.
Proof.
  intros Ho%list_elem_of_lookup_2. apply list_elem_of_filter in Ho as [? Ho]. split; [done|].
  unfold layer_ids in Ho. apply list_elem_of_fmap in Ho as (m & -> & Hm%elem_of_seq). lia.
Qed.

Lemma owner_entry_own c i o : kc_layers c < 2 ^ 32 -> owners c !! i = Some o -> owner_entry c (owners c) o = Some (Z.of_nat i).
Proof.
  intros Hl Ho. destruct (owners_lookup c i o Ho) as [Hoo Hr]. unfold owner_entry. rewrite Hoo.
  rewrite (proj2 (Z.eqb_neq o kNoPlane)) by (unfold kNoPlane; lia).
  assert (Hf : list_find (fun x => x = o) (owners c) = Some (i, o)); [|by rewrite Hf].
  apply list_find_Some. split_and!; [done|done|]. intros j y Hj Hji ->.
  assert (Hnd : NoDup (owners c)) by (apply NoDup_filter, NoDup_fmap_2; [apply _|apply NoDup_seq]).
  pose proof (NoDup_lookup _ _ _ _ Hnd Ho Hj). lia.
Qed.

Section Create.
Context {A : Type} `{Hal : MemoryAllocatorOk A}.

Lemma create_slabs_spec tries os cap (a : A) c e bufs lay a' c' :
  create_slabs tries os cap a c e = (Ret (bufs, lay), a', c') ->
  lay = layout_for c' os cap /\ Forall2 buffer_of bufs (l_slab_size lay) /\ c' = c <| kc_slab_bytes := kc_slab_bytes c' |>.
Proof.
  revert a c e. induction tries as [|n IH]; intros a c e; cbn [create_slabs]; [done|].
  destruct (allocate_slabs _ _ _) as [[nb|e'] a1] eqn:E.
  - intros [= <- <- <- <-]. apply allocate_slabs_sizes in E as (nb' & -> & Hnb). split_and!; [done|done|by destruct c].
  - destruct (_ || _); [done|]. intros (-> & Hb & Hc)%IH. split_and!; [done|done|]. rewrite Hc. by destruct c.
Qed.

Lemma slabs_dims c x : kv_dims c -> kv_dims (c <| kc_slab_bytes := x |>).
Proof. intros Hd. destruct Hd. by split. Qed.
Lemma slabs_fit c os cap x : layout_fits c os cap -> layout_fits (c <| kc_slab_bytes := x |>) os cap.
Proof. intros [Hn Hs]. by split. Qed.

Lemma zeroed_nonempty nb l : slabs_ok l -> Forall2 buffer_of nb (l_slab_size l) -> zeroed nb <> [].
Proof.
  intros Hl Hb Hz. apply fmap_nil_inv in Hz. subst nb. apply Forall2_nil_inv_l in Hb.
  pose proof (sl_first l Hl) as H0. apply lookup_lt_Some in H0. rewrite (sl_len l Hl), Hb in H0. cbn in H0. lia.
Qed.

(** The store [create] ends with. *)
Lemma created_ok cfg c' bufs entries lo : kv_dims cfg -> layout_fits cfg (owners cfg) (kc_max_context cfg) -> 0 <= kc_initial_context cfg ->
  owner_entries cfg (owners cfg) (layer_ids (kc_layers cfg)) = (true, entries) ->
  Forall2 buffer_of bufs (l_slab_size (layout_for c' (owners cfg) (create_cap cfg))) ->
  c' = cfg <| kc_slab_bytes := kc_slab_bytes c' |> ->
  kv_ok (clear_store (mkKvStore true (zeroed bufs) c' (layout_for c' (owners cfg) (create_cap cfg)) (create_cap cfg) (owners cfg) entries
    (replicate (length (owners cfg)) 0) (replicate (Z.to_nat (kc_layers c')) 0) (replicate (Z.to_nat (kc_layers c')) 0) lo []
    RingSnapshot_default [])).
Proof.
  intros Hd Hf Hi He Hb Hc'. set (cap := create_cap cfg) in *. pose proof (kd_context _ Hd). pose proof (kd_layers _ Hd) as Hl.
  assert (Hcap : 0 < cap <= kc_max_context cfg) by (unfold cap, create_cap; destruct (Z.eqb_spec (kc_initial_context cfg) 0); lia).
  set (x := kc_slab_bytes c') in *. clearbody x. subst c'. pose proof (slabs_dims cfg x Hd) as Hd'. pose proof (slabs_fit cfg _ _ x Hf) as Hf'.
  set (c := cfg <| kc_slab_bytes := x |>) in *.
  assert (Hfc : layout_fits c (owners cfg) cap).
  { eapply (layout_fits_mono c Hd'); [by apply Forall_forall| | |exact Hf']; [lia|done]. }
  pose proof (zeroed_nonempty bufs _ (layout_slabs_ok _ _ _ Hfc) Hb) as Hne. pose proof (owner_entries_spec _ _ _ _ He) as Hent.
  set (K := mkKvStore _ _ _ _ _ _ _ _ _ _ _ _ _ _).
  assert (Hcl : clear_store K = clear_store (K <| k_slot_pos := replicate (Z.to_nat (kc_window c)) 0 |>)).
  { unfold clear_store, valid. cbn. by rewrite bool_decide_false by exact Hne. }
  rewrite Hcl. eapply like_ok, clear_like, like_refl. pose proof (kd_window _ Hd) as Hw. split; try done; cbn.
  - by apply zeroed_maps.
  - intros l Hlr. destruct (Hent (Z.to_nat l) l) as (y & Hy & Hyl).
    { unfold layer_ids. rewrite list_lookup_fmap, lookup_seq_lt by lia. cbn. f_equal. lia. }
    unfold owner_index. cbn. rewrite nth_lookup, Hyl. by eapply owner_entry_cases.
  - intros i o Ho. destruct (owners_lookup cfg i o Ho) as [_ Hr]. destruct (Hent (Z.to_nat o) o) as (y & Hy & Hyl).
    { unfold layer_ids. rewrite list_lookup_fmap, lookup_seq_lt by lia. cbn. f_equal. lia. }
    unfold owner_index. cbn. rewrite nth_lookup, Hyl. cbn. rewrite (owner_entry_own cfg i o) in Hy by (done || lia). by simplify_eq.
  - by rewrite length_replicate.
  - intros i o hw Ho Hhw. apply lookup_replicate in Hhw as [-> _]. split; [done|].
    apply (rows_for_mono c Hd' o cap cap); [by eapply list_elem_of_lookup_2|lia|cbn; lia].
  - rewrite length_replicate. lia.
  - rewrite length_replicate. lia.
Qed.

Lemma create_ok cfg (a : A) k a' k' : kv_dims cfg -> layout_fits cfg (owners cfg) (kc_max_context cfg) -> 0 <= kc_initial_context cfg ->
  create cfg (a, k) = (Ret tt, (a', k')) -> kv_ok k'.
Proof.
  intros Hd Hf Hi. unfold create. destruct (owner_entries _ _ _) as [ok entries] eqn:E. revert E.
  unfold km_guard, km_update, mbind, KM_bind, destroy. cbn [snd fst].
  destruct (fail_if _ _) as [[]|]; [|done]. destruct (fail_if _ _) as [[]|]; [|done]. destruct (fail_if _ _) as [[]|]; [|done].
  destruct ok; [|done]. cbn [negb fail_if]. intros He. unfold attach_slabs.
  destruct (create_slabs _ _ _ _ _ _) as [[[[bufs lay]|e] a1] c'] eqn:Ec; [|done].
  apply (create_slabs_spec 8 (owners cfg) _ _ cfg) in Ec as (-> & Hb & Hc'). intros <-%km_store.
  apply (created_ok cfg); done.
Qed.
End Create.

(** ** Any sequence of operations *)

Inductive KvOp :=
  | OpClear | OpReserve (n : Z) | OpSeedWindow (l : Z) (values : list float) (rows : Z)
  | OpSeedCompressed (l : Z) (values : list float) (n : Z) | OpSeedTopk (l : Z) (idx : list Z) (n : Z)
  | OpSeedIndexK (l : Z) (values : list float) (rows : Z) | OpSeedCmpState (l : Z) (kv score : list Z) (ratio : Z)
  | OpSetCounts (l n_cmp n_kv : Z) | OpDecodeTopk (l position n_cmp n_sel : Z) | OpMarkRing (first count : Z) | OpResolveRing (n : Z)
  | OpWindowFloor (position : Z) | OpUnpack (pk : KvPacked) | OpRestoreRows (b : KvRowBackup) (position : Z)
  | OpRestoreCarry (b : KvRowBackup) | OpRestoreExact (b : KvRowBackup) (positions : Z) | OpRestoreRing (s : RingSnapshot)
  | OpRetainPrompt (positions : Z) | OpTruncatePrompt (keep : Z) | OpRecoverPrompt (keep : Z).

Definition run_op {A} `{MemoryAllocator A} (op : KvOp) : KM (A:=A) unit :=
  match op with
  | OpClear => clear | OpReserve n => reserve n | OpSeedWindow l v n => seed_window l v n
  | OpSeedCompressed l v n => seed_compressed l v n | OpSeedTopk l i n => seed_topk l i n
  | OpSeedIndexK l v n => seed_index_k l v n | OpSeedCmpState l kv s r => seed_cmp_state l kv s r
  | OpSetCounts l n m => set_counts l n m | OpDecodeTopk l p n m => set_decode_topk l p n m
  | OpMarkRing p n => mark_ring_written p n | OpResolveRing n => resolve_ring n | OpWindowFloor p => set_window_floor p | OpUnpack pk => unpack pk
  | OpRestoreRows b p => restore_rows b p | OpRestoreCarry b => restore_carry b | OpRestoreExact b p => restore_exact_rows b p
  | OpRestoreRing s => restore_ring s | OpRetainPrompt n => retain_prompt_ring n | OpTruncatePrompt n => truncate_prompt_ring n
  | OpRecoverPrompt n => _ ← recover_prompt_ring n; mret tt
  end.

(** Arguments are unsigned 32-bit numbers; a pack's rows belong to its positions, as [pack]
    makes them. *)
Definition op_ok (op : KvOp) : Prop :=
  match op with
  | OpSeedCompressed l _ n | OpSeedIndexK l _ n | OpSetCounts l n _ | OpDecodeTopk l _ n _ => 0 <= l /\ 0 <= n < 2 ^ 32
  | OpUnpack pk => Forall (plane_in (kp_positions pk)) (kp_planes pk)
  | OpRestoreExact _ p => 0 <= p
  | _ => True
  end.

Definition run_ops {A} `{MemoryAllocator A} (ops : list KvOp) (s : A * KvStore) : A * KvStore :=
  foldl (fun s op => (run_op op s).2) s ops.

Create HintDb kv_keeps.
#[export] Hint Resolve clear_keeps reserve_keeps_ok seed_window_keeps seed_compressed_keeps seed_topk_keeps seed_index_k_keeps
  seed_cmp_state_keeps set_counts_keeps set_decode_topk_keeps mark_keeps resolve_keeps window_floor_keeps unpack_keeps restore_rows_keeps
  restore_carry_keeps restore_exact_keeps restore_ring_keeps retain_keeps truncate_keeps : kv_keeps.

Section Ops.
Context {A : Type} `{Hal : MemoryAllocatorOk A}.

Lemma run_op_keeps op : op_ok op -> keeps (A:=A) (run_op op).
Proof.
  destruct op; cbn [op_ok run_op]; intros Hok.
  all: try (destruct Hok as [H0 Hn]); try solve [auto with kv_keeps].
  - apply keeps_bind; [apply recover_keeps|]. intros n k0. apply triple_ret.
Qed.

Lemma store_ops_ok (a : A) k ops : kv_ok k -> Forall op_ok ops -> kv_ok (run_ops ops (a, k)).2.
Proof.
  intros Hk Hops. revert a k Hk. induction Hops as [|op ops Hop _ IH]; intros a1 k1 Hk; [done|]. cbn [run_ops foldl].
  destruct (run_op op (a1, k1)) as [r [a2 k2]] eqn:E. apply IH.
  pose proof (run_op_keeps op Hop k1 a1 k1 r a2 k2 (like_refl k1 Hk) E) as Hk2. destruct r; [by eapply like_ok|done].
Qed.

(** C22: A store that [create] made stays well-formed through any sequence of operations with
    any outcomes, as long as a pack given to [unpack] has no more rows than belong to its
    positions: the slabs are the layout's, sized for its capacity; a layer's owner index is
    none or in range and an owner's is its own; no plane counts more rows as written than the
    capacity has room for; the counters have one entry a layer and the ring one a slot.  Every
    pack [pack] makes is such a pack; [unpack] itself does not check it ([unfit_pack_overruns]). *)
Theorem store_stays_well_formed cfg (a : A) k s ops : kv_dims cfg -> layout_fits cfg (owners cfg) (kc_max_context cfg) ->
  0 <= kc_initial_context cfg -> create cfg (a, k) = (Ret tt, s) -> Forall op_ok ops ->
  kv_ok (run_ops ops s).2 /\
  forall n pk, 0 <= n -> pack (run_ops ops s).2 n = Ret pk -> op_ok (OpUnpack pk).
Proof.
  intros Hd Hf Hi Hc Hops. assert (Hk : kv_ok (run_ops ops s).2).
  { destruct s as [a1 k1]. apply store_ops_ok; [|done]. exact (create_ok cfg a k a1 k1 Hd Hf Hi Hc). }
  split; [done|]. intros n pk Hn. by apply packed_in.
Qed.

(** Growing the store keeps it well-formed and every live byte: the window ring, the
    top-k lists, the carried state and the written rows of every plane read the same after
    the move to new slabs.  It answers [ResourceExhausted] exactly past [max_context]; a refused
    allocation changes nothing. *)
Theorem reserve_keeps k positions a r a' k' : kv_ok k -> reserve positions (a, k) = (r, (a', k')) ->
  kv_ok k' /\ same_live k k' /\
  k' = k <| k_bufs := k_bufs k' |> <| k_lay := k_lay k' |> <| k_cap := k_cap k' |> /\
  (r = Ret tt -> positions <= k_cap k') /\ (r <> Ret tt -> k' = k) /\
  (kc_max_context (k_cfg k) < positions -> r = Fail ResourceExhausted).
Proof.
  intros Hk Hr. pose proof (ko_cap k Hk).
  destruct (reserve_cases k positions a r a' k' Hk Hr) as [(-> & Hp & ->)|[(-> & Hp & Hg)|(e & -> & -> & Hp & _ & He)]].
  - split_and!; try done; try lia. by destruct k.
  - destruct (grown_cap_range k positions Hk Hp) as [Hc Hpos].
    split_and!; [by eapply grown_ok|by destruct Hg as (_ & _ & _ & ?)| | |done|lia].
    + destruct Hg as (-> & _). by destruct k.
    + intros _. destruct Hg as (-> & _). cbn. lia.
  - split_and!; try done; [by destruct k|]. intros Hm. by rewrite He.
Qed.
End Ops.

(** ** An example: two layers over one plane of ratio 2 *)

(** Buffers one after another in device memory. *)
#[export] Instance bump_allocator : MemoryAllocator Z := {
  gpu_allocate next n := if n <? 0 then (Fail InvalidArgument, next) else (Ret (mkGpuBuffer n true next (zeros n)), next + n);
  gpu_free next b := next }.
#[export] Instance bump_allocator_ok : MemoryAllocatorOk Z.
Proof.
  constructor. intros a n b a'. cbn. destruct (Z.ltb_spec n 0); [done|]. intros [= <- <-]. cbn. split; [done|].
  unfold zeros. rewrite length_replicate. lia.
Qed.

Definition kv_shared : KvStoreConfig := mkKvConfig 2 4 64 32 64 32 2 8 16 4096 [0; 0] [2; 2].

Lemma kv_shared_ok : kv_dims kv_shared /\ layout_fits kv_shared (owners kv_shared) (kc_max_context kv_shared).
Proof.
  split.
  - split; [cbn; lia|cbn; lia|by split|by split|by split|cbn; lia|]. intros o Ho. assert (Hos : owners kv_shared = [0]) by by vm_compute.
    rewrite Hos in Ho. apply list_elem_of_singleton in Ho as ->. by vm_compute.
  - split; [repeat constructor; by vm_compute|by vm_compute].
Qed.

Definition kv_new : Z * KvStore := (create kv_shared (65536, KvStore_default)).2.
Lemma kv_new_created : create kv_shared (65536, KvStore_default) = (Ret tt, kv_new).
Proof. by vm_compute. Qed.
Lemma kv_new_ok : kv_ok kv_new.2.
Proof.
  destruct kv_shared_ok as [Hd Hf]. pose proof kv_new_created as Hc. destruct kv_new as [a k].
  exact (create_ok kv_shared _ _ a k Hd Hf ltac:(cbn; lia) Hc).
Qed.

Definition kv_example_ops : list KvOp :=
  [OpSeedCompressed 0 (replicate 192 (S754_zero false)) 3; OpSeedIndexK 0 (replicate 96 (S754_zero false)) 3; OpReserve 40;
   OpDecodeTopk 1 40 3 2; OpResolveRing 41].
Lemma store_stays_well_formed_witness :
  let s := run_ops kv_example_ops kv_new in
  k_rows_hw s.2 = [3] /\ k_cap s.2 = 64 /\ kv_ok s.2 /\ exists pk, pack s.2 6 = Ret pk /\ op_ok (OpUnpack pk).
Proof.
  cbn zeta. split; [by vm_compute|]. split; [by vm_compute|]. destruct kv_shared_ok as [Hd Hf].
  destruct (store_stays_well_formed kv_shared 65536 KvStore_default kv_new kv_example_ops) as [Hk Hpk]; [exact Hd|exact Hf|cbn; lia|exact kv_new_created|repeat constructor; cbn; lia|].
  split; [exact Hk|]. assert (Hp : is_ok (pack (run_ops kv_example_ops kv_new).2 6) = true) by by vm_compute.
  destruct (pack (run_ops kv_example_ops kv_new).2 6) as [pk|] eqn:E; [|discriminate Hp]. exists pk. split; [reflexivity|].
  apply (Hpk 6); [lia|exact E].
Defined.

(** [unpack] takes a pack that says it has 4 positions and 100 rows, in a store of room for 16
    rows: it answers that all is well, has written past the plane, and counts 100 rows. *)
Definition unfit_pack : KvPacked :=
  let zeros per_row := replicate (Z.to_nat (100 * per_row)) 0 in
  let cd := kc_latent_dim kv_shared in let kd := kc_index_dim kv_shared in
  mkKvPacked 4 [mkPackedPlane 0 2 100 (zeros (cd / 2)) (zeros (cd / 16)) (zeros (kd / 2)) (zeros (kd / 32)) [] [] [] [] []].
Lemma unfit_pack_overruns : let s := unpack unfit_pack kv_new in
  s.1 = Ret tt /\ k_rows_hw s.2.2 = [100] /\ rows_for (k_cfg s.2.2) 0 (k_cap s.2.2) < 100.
Proof. cbn zeta. split_and!; by vm_compute. Qed.

Lemma reserve_keeps_witness : let s := reserve 40 kv_new in s.1 = Ret tt /\ k_cap s.2.2 = 40 /\ kv_ok s.2.2 /\ same_live kv_new.2 s.2.2.
Proof.
  cbn zeta. destruct (reserve 40 kv_new) as [r [a' k']] eqn:E. pose proof (f_equal (fun x => (x.1, k_cap x.2.2)) E) as Hx.
  assert (Hy : (r, k_cap k') = (Ret tt, 40)) by (etransitivity; [symmetry; exact Hx|by vm_compute]). injection Hy as -> Hcap.
  destruct kv_new as [a k] eqn:En. pose proof kv_new_ok as Hk. rewrite En in Hk.
  destruct (reserve_keeps k 40 a _ a' k' Hk E) as (H1 & H2 & _). split_and!; done.
Defined.

(** On a store never created (or destroyed: the configuration stays) counting a layer's rows
    writes past an empty vector. *)
Lemma uncreated_store_overruns : (seed_compressed 0 [] 1 (0, KvStore_default)).1 = Fail Internal.
Proof. reflexivity. Qed.
