(* ===== verification/KvContext.v ===== *)
(** A context packed out of one KV store and unpacked into another. *)

From S2P Require Import Prelude Types Floats Dequant KvPack V41Config KvLayout KvStore KvRows KvStoreProps KvInv.

(** ** Rows and words of a store *)

Section Ranges.
Context (k : KvStore) (Hk : kv_ok k) (i : nat) (o : Z) (Ho : k_owners k !! i = Some o).
#[local] Abbreviation c := (k_cfg k).

Lemma owner_nth : nth i (k_owners k) 0 = o.
Proof. by rewrite nth_lookup, Ho. Qed.

Lemma owner_in : o ∈ owners c.
Proof. rewrite <- (ko_owners k Hk). by eapply list_elem_of_lookup_2. Qed.

Lemma cmp_inside first rows : 0 <= first -> 0 <= rows -> first + rows <= rows_for c o (k_cap k) ->
  inside c (k_owners k) (k_cap k) (RCmp i) (first * kc_latent_dim c * 2) (rows * kc_latent_dim c * 2).
Proof.
  intros. destruct (kd_latent c (ko_dims k Hk)). unfold inside. split_and!; cbn [region_in region_bytes]; rewrite ?owner_nth; [by eapply lookup_lt_Some|nia..].
Qed.
Lemma idx_inside first rows : 0 <= first -> 0 <= rows -> first + rows <= rows_for c o (k_cap k) ->
  inside c (k_owners k) (k_cap k) (RIdx i) (first * kc_index_dim c * 2) (rows * kc_index_dim c * 2).
Proof.
  intros. destruct (kd_index c (ko_dims k Hk)). unfold inside. split_and!; cbn [region_in region_bytes]; rewrite ?owner_nth; [by eapply lookup_lt_Some|nia..].
Qed.
(** Half [h] (0: values, 1: scores) of the owner's carried state. *)
Definition state_at (h : Z) : Z := (h * len_Z (k_owners k) + Z.of_nat i) * state_stride k.
Lemma state_inside h ratio : 0 <= h <= 1 -> 0 <= ratio <= kc_max_ratio c ->
  inside c (k_owners k) (k_cap k) RState (state_at h) (ratio * kc_latent_dim c * 4).
Proof.
  intros Hh Hr. destruct (kd_latent c (ko_dims k Hk)) as [Hd _]. apply lookup_lt_Some in Ho. unfold state_at, state_stride, len_Z.
  set (m := kc_max_ratio c * kc_latent_dim c * 4). assert (Hm : 0 <= ratio * kc_latent_dim c * 4 <= m) by (unfold m; nia).
  unfold inside. split_and!; cbn [region_in region_bytes]; [done|apply Z.mul_nonneg_nonneg; [nia|lia]|lia|].
  replace (Z.of_nat (length (k_owners k)) * kc_max_ratio c * kc_latent_dim c * 4 * 2) with (2 * Z.of_nat (length (k_owners k)) * m)
    by (unfold m; lia). set (n := Z.of_nat (length (k_owners k))) in *.
  assert ((h * n + Z.of_nat i) * m <= (2 * n - 1) * m) by (apply Z.mul_le_mono_nonneg_r; nia). lia.
Qed.
End Ranges.

Lemma carry_kv_at k i n : carry_words k (l_state (k_lay k)) i n = of_bytes 4 (Z.to_nat n) (kv_read k (region_off (k_lay k) RState + state_at k i 0) (n * 4)).
Proof. unfold carry_words, state_at. cbn [region_off]. f_equal. Qed.
Lemma carry_score_at k i n : carry_words k (score_base k) i n = of_bytes 4 (Z.to_nat n) (kv_read k (region_off (k_lay k) RState + state_at k i 1) (n * 4)).
Proof. unfold carry_words, state_at, score_base. cbn [region_off]. do 2 f_equal. lia. Qed.

(** ** What a packed plane holds *)

Definition u16_list (l : list Z) : Prop := Forall (fun x => 0 <= x < 256 ^ Z.of_nat 2) l.
Definition u32_list (l : list Z) : Prop := Forall (fun x => 0 <= x < 256 ^ Z.of_nat 4) l.

(** The plane's rows and words, as [unpack] will write them. *)
Record plane_holds (k : KvStore) (positions : Z) (i : nat) (o : Z) (p : KvPackedPlane) : Prop := {
  ph_layer : pp_layer p = o;
  ph_ratio : pp_ratio p = plane_ratio (k_cfg k) o;
  ph_rows : pp_rows p = positions / plane_ratio (k_cfg k) o;
  ph_written : pp_rows p <= nth i (k_rows_hw k) 0;
  ph_cmp : unpacked_cmp (k_cfg k) p = cmp_rows k i 0 (pp_rows p);
  ph_key : unpacked_key (k_cfg k) p = key_rows k i 0 (pp_rows p);
  ph_carry : 1 < pp_ratio p ->
    pp_carry_kv p = carry_words k (l_state (k_lay k)) i (pp_ratio p * kc_latent_dim (k_cfg k)) /\
    pp_carry_score p = carry_words k (score_base k) i (pp_ratio p * kc_latent_dim (k_cfg k)) }.

Lemma pack_rows_lookup c cmp key rows r : (r < Z.to_nat rows)%nat -> pack_rows c cmp key rows !! r =
  Some ((row_packed (kc_latent_dim c) 16 false cmp (Z.of_nat r)).1.1 && (row_packed (kc_index_dim c) 32 true key (Z.of_nat r)).1.1,
    ((row_packed (kc_latent_dim c) 16 false cmp (Z.of_nat r)).1.2, (row_packed (kc_latent_dim c) 16 false cmp (Z.of_nat r)).2),
    ((row_packed (kc_index_dim c) 32 true key (Z.of_nat r)).1.2, (row_packed (kc_index_dim c) 32 true key (Z.of_nat r)).2)).
Proof.
  intros Hr. unfold pack_rows, row_packed. rewrite list_lookup_fmap, upto_lookup by done. cbn [fmap option_fmap option_map].
  destruct (pack_fp4_row (chunk (kc_latent_dim c) _ _) _ _ _ _ _) as [[okc fc] sc].
  by destruct (pack_fp4_row (chunk (kc_index_dim c) _ _) _ _ _ _ _) as [[okk fk] sk].
Qed.

(** One component of every packed row, from the row's latent half or its key half. *)
Lemma pack_rows_part {X} c cmp key rows (f : bool * (list Z * list Z) * (list Z * list Z) -> X) (g : Z -> X) :
  (forall ok a b r, f (ok, ((row_packed (kc_latent_dim c) 16 false cmp r).1.2, a), (b, (row_packed (kc_index_dim c) 32 true key r).2)) = g r) \/
  (forall ok a b r, f (ok, (a, (row_packed (kc_latent_dim c) 16 false cmp r).2), ((row_packed (kc_index_dim c) 32 true key r).1.2, b)) = g r) ->
  f <$> pack_rows c cmp key rows = g <$> upto rows.
Proof.
  intros Hfg. apply list_eq. intros r. rewrite !list_lookup_fmap. destruct (decide (r < Z.to_nat rows)%nat) as [Hr|Hr].
  - rewrite pack_rows_lookup, upto_lookup by done. cbn. by destruct Hfg as [->| ->].
  - rewrite !lookup_ge_None_2; [done|rewrite upto_length; lia|unfold pack_rows; rewrite length_fmap, upto_length; lia].
Qed.

Lemma latent_row_fits c : kv_dims c -> row_fits (Z.to_nat (kc_latent_dim c)) 16
  (replicate (Z.to_nat (kc_latent_dim c) / 2)%nat 0) (replicate (Z.to_nat (kc_latent_dim c) / 16)%nat 0).
Proof.
  intros Hd. destruct (kd_latent c Hd). unfold row_fits. rewrite !length_replicate. split_and!; try done; try lia; div_lia.
Qed.
Lemma index_row_fits c : kv_dims c -> row_fits (Z.to_nat (kc_index_dim c)) 32
  (replicate (Z.to_nat (kc_index_dim c) / 2)%nat 0) (replicate (Z.to_nat (kc_index_dim c) / 32)%nat 0).
Proof.
  intros Hd. destruct (kd_index c Hd). unfold row_fits. rewrite !length_replicate. split_and!; try done; try lia; div_lia.
Qed.

Lemma pack_plane_holds k positions i o p : kv_ok k -> k_owners k !! i = Some o -> 0 <= positions ->
  pack_plane k positions i o = Ret p -> plane_holds k positions i o p.
Proof.
  intros Hk Ho Hpos. pose proof (ko_dims k Hk) as Hd. destruct (kd_ratio _ Hd o (owner_in k Hk i o Ho)) as [Hr _].
  unfold pack_plane. set (rows := positions / plane_ratio (k_cfg k) o).
  assert (Hrows : 0 <= rows) by (apply Z.div_pos; lia).
  set (cmp := cmp_rows k i 0 rows). set (key := key_rows k i 0 rows). set (packed := pack_rows _ _ _ _). set (raw := filter _ _).
  intros ([] & Hg%fail_if_Ret & [= <-])%bind_Ret. apply orb_false_iff in Hg as [Hhw%Z.ltb_ge _].
  assert (Hnd : NoDup raw) by (apply NoDup_filter, upto_NoDup).
  assert (Hin : Forall (fun r => 0 <= r < rows) raw).
  { apply Forall_forall. intros r Hr'. apply list_elem_of_filter in Hr' as [_ Hr'%upto_spec]. exact Hr'. }
  assert (Hok : forall r, 0 <= r < rows -> r ∉ raw ->
    (row_packed (kc_latent_dim (k_cfg k)) 16 false cmp r).1.1 = true /\ (row_packed (kc_index_dim (k_cfg k)) 32 true key r).1.1 = true).
  { intros r Hr' Hnr. apply andb_true_iff, not_false_iff_true. intros Hf. apply Hnr, list_elem_of_filter.
    split; [|by apply upto_spec]. unfold packed. rewrite nth_lookup, pack_rows_lookup, Z2Nat.id by lia. exact Hf. }
  split; cbn [pp_layer pp_ratio pp_rows pp_carry_kv pp_carry_score]; try done.
  - unfold unpacked_cmp. unfold packed. cbn [pp_rows pp_cmp_fp4 pp_cmp_scale pp_raw_cmp pp_raw_rows].
    rewrite (pack_rows_part _ _ _ _ (fun p => p.1.2.1) (fun r => (row_packed (kc_latent_dim (k_cfg k)) 16 false cmp r).1.2)) by (first [by left|by right]).
    rewrite (pack_rows_part _ _ _ _ (fun p => p.1.2.2) (fun r => (row_packed (kc_latent_dim (k_cfg k)) 16 false cmp r).2)) by (first [by left|by right]).
    apply unpack_rows_back; [apply (kd_latent _ Hd)|by apply latent_row_fits|by apply of_bytes_length|done|done|done|intros; by apply Hok].
  - unfold unpacked_key. unfold packed. cbn [pp_rows pp_key_fp4 pp_key_scale pp_raw_key pp_raw_rows].
    rewrite (pack_rows_part _ _ _ _ (fun p => p.2.1) (fun r => (row_packed (kc_index_dim (k_cfg k)) 32 true key r).1.2)) by (first [by left|by right]).
    rewrite (pack_rows_part _ _ _ _ (fun p => p.2.2) (fun r => (row_packed (kc_index_dim (k_cfg k)) 32 true key r).2)) by (first [by left|by right]).
    apply unpack_rows_back; [apply (kd_index _ Hd)|by apply index_row_fits|by apply of_bytes_length|done|done|done|intros; by apply Hok].
  - intros H1. rewrite (proj2 (Z.ltb_lt _ _)) by done. done.
Qed.

(** ** Writes into a store *)

Definition kflat (k : KvStore) (w : RWrite) : Z * list Z := (region_off (k_lay k) w.1.1 + w.1.2, w.2).
Definition kv_inside (k : KvStore) : RWrite -> Prop := rw_inside (k_cfg k) (k_owners k) (k_cap k).

Lemma kflat_flat k : kv_ok k -> kflat k = flat_write (k_cfg k) (k_owners k) (k_cap k).
Proof. intros Hk. unfold kflat, flat_write. by rewrite (ko_lay k Hk). Qed.

Lemma kv_maps k : kv_ok k -> maps (k_bufs k) (layout_for (k_cfg k) (k_owners k) (k_cap k)).
Proof. intros Hk. rewrite <- (ko_lay k Hk). apply Hk. Qed.

Lemma kv_written_back k l1 w l2 : kv_ok k -> Forall (kv_inside k) (l1 ++ w :: l2) -> Forall (apart w) l2 ->
  kv_read (kv_writes k (kflat k <$> l1 ++ w :: l2)) (region_off (k_lay k) w.1.1 + w.1.2) (Z.of_nat (length w.2)) = w.2.
Proof.
  intros Hk Hin Ha. rewrite (kflat_flat k Hk). pose proof (kv_maps k Hk) as Hm.
  pose proof (written_back _ _ _ _ l1 w l2 (kv_cap_fits k Hk) Hm Hin Ha) as Hw. rewrite <- (ko_lay k Hk) in Hw. exact Hw.
Qed.

Lemma kv_read_apart k ws r d n : kv_ok k -> Forall (kv_inside k) ws -> inside (k_cfg k) (k_owners k) (k_cap k) r d n ->
  Forall (fun w => w.1.1 <> r \/ w.1.2 + Z.of_nat (length w.2) <= d \/ d + n <= w.1.2) ws ->
  kv_read (kv_writes k (kflat k <$> ws)) (region_off (k_lay k) r + d) n = kv_read k (region_off (k_lay k) r + d) n.
Proof.
  intros Hk Hws Hin Ha. rewrite (kflat_flat k Hk). pose proof (kv_maps k Hk) as Hm. pose proof (kv_cap_fits k Hk) as Hf.
  unfold kv_read. cbn [k_lay kv_writes k_bufs]. change (k_lay (kv_writes k ?x)) with (k_lay k).
  change (k_bufs (kv_writes k ?x)) with (mem_writes (k_lay k) (k_bufs k) x). rewrite (ko_lay k Hk).
  assert (Hsl : slabs_ok (layout_for (k_cfg k) (k_owners k) (k_cap k))) by (by apply layout_slabs_ok).
  apply mem_read_ext; [done|by apply mem_writes_maps|done|done|by apply inside_slab..|].
  intros i Hi. rewrite <- Z.add_assoc. apply region_writes_other; [done|done|done| |].
  - destruct Hin as (? & ? & ? & ?). split_and!; [done|lia..].
  - eapply Forall_impl; [exact Ha|]. intros w [Hw|Hw] [? ?]; [done|lia].
Qed.

(** ** One plane unpacked *)

(** What [unpack] needs of a plane. *)
Record plane_shape (c : KvStoreConfig) (positions o : Z) (p : KvPackedPlane) : Prop := {
  ps_layer : pp_layer p = o;
  ps_ratio : pp_ratio p = plane_ratio c o;
  ps_rows : pp_rows p = positions / plane_ratio c o;
  ps_cmp : length (unpacked_cmp c p) = Z.to_nat (pp_rows p * kc_latent_dim c) /\ u16_list (unpacked_cmp c p);
  ps_key : length (unpacked_key c p) = Z.to_nat (pp_rows p * kc_index_dim c) /\ u16_list (unpacked_key c p);
  ps_carry : 1 < pp_ratio p ->
    (len_Z (pp_carry_kv p) = pp_ratio p * kc_latent_dim c /\ u32_list (pp_carry_kv p)) /\
    (len_Z (pp_carry_score p) = pp_ratio p * kc_latent_dim c /\ u32_list (pp_carry_score p)) }.

Lemma plane_holds_shape k positions i o p : kv_ok k -> k_owners k !! i = Some o -> plane_holds k positions i o p ->
  plane_shape (k_cfg k) positions o p.
Proof.
  intros Hk Ho [Hl Hr Hrows _ Hc Hy Hs]. destruct (kd_latent _ (ko_dims k Hk)) as [Hlat _].
  split; try done.
  - rewrite Hc. unfold cmp_rows. split; [apply of_bytes_length|apply of_bytes_range].
  - rewrite Hy. unfold key_rows. split; [apply of_bytes_length|apply of_bytes_range].
  - intros H1. destruct (Hs H1) as [-> ->]. unfold carry_words, len_Z. rewrite !of_bytes_length, Z2Nat.id by nia.
    split; (split; [done|apply of_bytes_range]).
Qed.

Definition carried (p : KvPackedPlane) : bool := 1 <? pp_ratio p.
Definition unpack_rws (k : KvStore) (i : nat) (p : KvPackedPlane) : list RWrite :=
  [(RCmp i, 0, to_bytes 2 (unpacked_cmp (k_cfg k) p)); (RIdx i, 0, to_bytes 2 (unpacked_key (k_cfg k) p))] ++
  if carried p then [(RState, state_at k i 0, to_bytes 4 (pp_carry_kv p)); (RState, state_at k i 1, to_bytes 4 (pp_carry_score p))] else [].

Section Step.
Context (k : KvStore) (Hk : kv_ok k) (positions : Z) (i : nat) (o : Z) (Ho : k_owners k !! i = Some o).
Context (Hpos : 0 <= positions <= k_cap k) (p : KvPackedPlane) (Hp : plane_shape (k_cfg k) positions o p).
#[local] Abbreviation c := (k_cfg k).
#[local] Abbreviation ws := (unpack_rws k i p).

Lemma unpack_flat : unpack_writes k p (Z.of_nat i) = kflat k <$> ws.
Proof.
  unfold unpack_writes, unpack_rws, carried. rewrite Nat2Z.id. destruct (Z.ltb_spec 1 (pp_ratio p)) as [H1|H1].
  - destruct (ps_carry _ _ _ _ Hp H1) as [[Hl _] _]. rewrite (proj2 (Z.eqb_eq _ _) Hl). cbn [andb].
    assert (Hs : score_base k + Z.of_nat i * state_stride k = l_state (k_lay k) + state_at k i 1) by (unfold score_base, state_at; lia).
    rewrite Hs. unfold kflat, state_at. cbn. by rewrite !Z.add_0_r.
  - unfold kflat. cbn. by rewrite !Z.add_0_r.
Qed.

Lemma rows_range : 0 <= pp_rows p /\ pp_rows p <= rows_for c o (k_cap k).
Proof.
  pose proof (ko_dims k Hk) as Hd. pose proof (owner_in k Hk i o Ho) as Hin. destruct (kd_ratio c Hd o Hin) as [Hr _].
  pose proof (ko_cap k Hk). rewrite (ps_rows _ _ _ _ Hp). split; [apply Z.div_pos; lia|].
  apply (rows_below c Hd); [done|lia|]. apply Z.div_le_mono; lia.
Qed.

Lemma cmp_len : Z.of_nat (length (to_bytes 2 (unpacked_cmp c p))) = pp_rows p * kc_latent_dim c * 2.
Proof.
  destruct (kd_latent c (ko_dims k Hk)), rows_range. rewrite to_bytes_length, (proj1 (ps_cmp _ _ _ _ Hp)). nia.
Qed.
Lemma key_len : Z.of_nat (length (to_bytes 2 (unpacked_key c p))) = pp_rows p * kc_index_dim c * 2.
Proof.
  destruct (kd_index c (ko_dims k Hk)), rows_range. rewrite to_bytes_length, (proj1 (ps_key _ _ _ _ Hp)). nia.
Qed.
Lemma carry_len : 1 < pp_ratio p ->
  Z.of_nat (length (to_bytes 4 (pp_carry_kv p))) = pp_ratio p * kc_latent_dim c * 4 /\
  Z.of_nat (length (to_bytes 4 (pp_carry_score p))) = pp_ratio p * kc_latent_dim c * 4.
Proof. intros H1. destruct (ps_carry _ _ _ _ Hp H1) as [[Hl _] [Hl' _]]. rewrite !to_bytes_length. unfold len_Z in *. lia. Qed.

Lemma ratio_range : 1 <= pp_ratio p <= kc_max_ratio c.
Proof. rewrite (ps_ratio _ _ _ _ Hp). by apply (kd_ratio c (ko_dims k Hk) o), (owner_in k Hk i). Qed.

Lemma unpack_inside : Forall (kv_inside k) ws.
Proof.
  destruct rows_range as [Hr0 Hr]. pose proof ratio_range as Hrat. unfold unpack_rws, kv_inside, rw_inside.
  pose proof (cmp_inside k Hk i o Ho 0 (pp_rows p) ltac:(lia) Hr0 ltac:(lia)) as Hc.
  pose proof (idx_inside k Hk i o Ho 0 (pp_rows p) ltac:(lia) Hr0 ltac:(lia)) as Hy.
  constructor; [|constructor]; cbn [fst snd]; [by rewrite cmp_len|by rewrite key_len|].
  unfold carried. destruct (Z.ltb_spec 1 (pp_ratio p)) as [H1|H1]; [|done]. destruct (carry_len H1) as [Hk1 Hk2].
  constructor; [|constructor; [|done]]; cbn [fst snd]; rewrite ?Hk1, ?Hk2; apply (state_inside k Hk i o Ho); lia.
Qed.

Lemma owner_index_some : owner_index k o = Z.of_nat i /\ Z.of_nat i <> kNoPlane.
Proof.
  split; [by apply (ko_own k Hk)|]. apply lookup_lt_Some in Ho. rewrite (ko_owners k Hk) in Ho.
  pose proof (length_filter (fun l => owner c l = l) (layer_ids (kc_layers c))) as Hl.
  unfold owners in Ho. unfold layer_ids in *. rewrite length_fmap, length_seq in Hl.
  destruct (kd_layers c (ko_dims k Hk)). unfold kNoPlane. lia.
Qed.

Definition unpacked : KvStore := raise_hw (Z.of_nat i) (pp_rows p) (kv_writes k (kflat k <$> ws)).
#[local] Abbreviation k' := unpacked.

Lemma unpacked_hw j : nth j (k_rows_hw k') 0 = if decide (j = i) then Z.max (pp_rows p) (nth i (k_rows_hw k) 0) else nth j (k_rows_hw k) 0.
Proof.
  change (k_rows_hw k') with (alter (Z.max (pp_rows p)) (Z.to_nat (Z.of_nat i)) (k_rows_hw k)). rewrite Nat2Z.id, !nth_lookup.
  destruct (decide (j = i)) as [->|Hne]; [|by rewrite list_lookup_alter_ne by done].
  rewrite list_lookup_alter_eq. apply lookup_lt_Some in Ho. rewrite <- (ko_hw_len k Hk) in Ho.
  by apply lookup_lt_is_Some_2 in Ho as [hw ->].
Qed.

Lemma unpacked_ok : kv_ok k'.
Proof.
  apply (kv_writes_ok k (kflat k <$> ws) (alter (Z.max (pp_rows p)) (Z.to_nat (Z.of_nat i)) (k_rows_hw k)) Hk).
  { rewrite length_alter. apply Hk. }
  intros j o' hw Ho' Hhw. rewrite Nat2Z.id in Hhw. destruct (decide (j = i)) as [->|Hne].
  - rewrite list_lookup_alter_eq in Hhw. destruct (k_rows_hw k !! i) as [h|] eqn:Hh; [|done].
    injection Hhw as <-. pose proof (ko_hw k Hk i o' h Ho' Hh). rewrite Ho in Ho'. injection Ho' as <-. pose proof rows_range. lia.
  - rewrite list_lookup_alter_ne in Hhw by done. by apply (ko_hw k Hk j o').
Qed.

Lemma unpack_plane_runs {A} `{MemoryAllocator A} (a : A) : unpack_plane p (a, k) = (Ret tt, (a, k')).
Proof.
  destruct owner_index_some as [Hoi Hne]. unfold unpack_plane, km_get, km_guard, km_update, mbind, KM_bind. cbn [snd fst].
  rewrite (ps_layer _ _ _ _ Hp), Hoi, Nat2Z.id, nth_lookup, Ho, (ps_ratio _ _ _ _ Hp).
  cbn [default from_option id]. rewrite (proj2 (Z.eqb_neq _ _) Hne), !Z.eqb_refl. cbn [orb negb fail_if].
  by rewrite unpack_flat.
Qed.

(** A vector the writes end with is what its range reads. *)
Lemma words_back w l1 reg d xs l2 n m : ws = l1 ++ (reg, d, to_bytes w xs) :: l2 ->
  Forall (apart (reg, d, to_bytes w xs)) l2 -> Forall (fun x => 0 <= x < 256 ^ Z.of_nat w) xs ->
  n = length xs -> m = Z.of_nat (length (to_bytes w xs)) ->
  of_bytes w n (kv_read k' (region_off (k_lay k) reg + d) m) = xs.
Proof.
  intros Hws Ha Hr -> ->. pose proof unpack_inside as Hin. rewrite Hws in Hin.
  assert (Hrd : forall x y, kv_read k' x y = kv_read (kv_writes k (kflat k <$> ws)) x y) by done. rewrite Hrd, Hws.
  pose proof (kv_written_back k l1 (reg, d, to_bytes w xs) l2 Hk Hin Ha) as Hw. cbn [fst snd] in Hw.
  transitivity (of_bytes w (length xs) (to_bytes w xs)); [f_equal; exact Hw|].
  rewrite <- (app_nil_r (to_bytes w xs)). by apply of_to_bytes.
Qed.

Lemma state_apart bs bs' : 1 < pp_ratio p -> Z.of_nat (length bs) = pp_ratio p * kc_latent_dim c * 4 ->
  apart (RState, state_at k i 0, bs) (RState, state_at k i 1, bs').
Proof.
  intros H1 Hl. apply apart_ranges. cbn [fst snd]. left. rewrite Hl. pose proof ratio_range.
  destruct (kd_latent c (ko_dims k Hk)). apply lookup_lt_Some in Ho. unfold state_at, state_stride, len_Z.
  set (n := Z.of_nat (length (k_owners k))). set (m := kc_max_ratio c * kc_latent_dim c * 4).
  assert (pp_ratio p * kc_latent_dim c * 4 <= m) by (unfold m; nia). assert (1 * m <= n * m) by (apply Z.mul_le_mono_nonneg_r; lia). lia.
Qed.

Lemma unpacked_own : plane_holds k' positions i o p.
Proof.
  destruct (ps_cmp _ _ _ _ Hp) as [Hcl Hcr], (ps_key _ _ _ _ Hp) as [Hyl Hyr].
  pose proof (ps_layer _ _ _ _ Hp). pose proof (ps_ratio _ _ _ _ Hp). pose proof (ps_rows _ _ _ _ Hp).
  split; change (k_cfg k') with c; try done.
  - rewrite unpacked_hw, decide_True by done. lia.
  - symmetry. apply (words_back 2 [] (RCmp i) 0 _ (drop 1 ws)); [done| |done|done|by rewrite cmp_len].
    unfold unpack_rws. cbn [drop app]. destruct (carried p); repeat constructor; by apply apart_regions.
  - symmetry. apply (words_back 2 (take 1 ws) (RIdx i) 0 _ (drop 2 ws)); [done| |done|done|by rewrite key_len].
    unfold unpack_rws. cbn [drop app]. destruct (carried p); repeat constructor; by apply apart_regions.
  - intros Hc1. destruct (ps_carry _ _ _ _ Hp Hc1) as [[Hkl Hkr] [Hsl Hsr]], (carry_len Hc1) as [Hkb Hsb].
    assert (Hc : carried p = true) by by apply Z.ltb_lt. unfold len_Z in *.
    rewrite (carry_kv_at k' i), (carry_score_at k' i). split; symmetry.
    + apply (words_back 4 (take 2 ws) RState (state_at k i 0) _ (drop 3 ws)); unfold unpack_rws; rewrite ?Hc; [done| |done|lia|by rewrite Hkb].
      repeat constructor. by apply state_apart.
    + apply (words_back 4 (take 3 ws) RState (state_at k i 1) _ []); unfold unpack_rws; rewrite ?Hc; [done|constructor|done|lia|by rewrite Hsb].
Qed.

(** Other owners' planes stay as they were. *)
Lemma states_apart j h h' n n' : j <> i -> (j < length (k_owners k))%nat -> 0 <= h <= 1 -> 0 <= h' <= 1 ->
  n <= state_stride k -> n' <= state_stride k ->
  state_at k i h + n <= state_at k j h' \/ state_at k j h' + n' <= state_at k i h.
Proof.
  intros Hne Hj Hh Hh' Hn Hn'. pose proof (lookup_lt_Some _ _ _ Ho) as Hi. unfold state_at.
  assert (0 <= state_stride k) by (destruct (kd_latent c (ko_dims k Hk)); pose proof ratio_range; unfold state_stride; nia).
  set (x := h * len_Z (k_owners k) + Z.of_nat i). set (y := h' * len_Z (k_owners k) + Z.of_nat j).
  assert (x < y \/ y < x) as [Hxy|Hxy].
  { assert (h = 0 \/ h = 1) as [->| ->] by lia; assert (h' = 0 \/ h' = 1) as [->| ->] by lia; unfold x, y, len_Z; lia. }
  - left. assert ((x + 1) * state_stride k <= y * state_stride k) by (apply Z.mul_le_mono_nonneg_r; lia). lia.
  - right. assert ((y + 1) * state_stride k <= x * state_stride k) by (apply Z.mul_le_mono_nonneg_r; lia). lia.
Qed.

Lemma carry_in_stride r : r <= kc_max_ratio c -> r * kc_latent_dim c * 4 <= state_stride k.
Proof. intros Hr. destruct (kd_latent c (ko_dims k Hk)). unfold state_stride. nia. Qed.

Lemma plane_untouched j o' d n reg : j <> i -> k_owners k !! j = Some o' -> reg = RCmp j \/ reg = RIdx j ->
  inside c (k_owners k) (k_cap k) reg d n -> kv_read k' (region_off (k_lay k) reg + d) n = kv_read k (region_off (k_lay k) reg + d) n.
Proof.
  intros Hne Ho' Hreg Hin. pose proof unpack_inside as Hws. apply (kv_read_apart k ws reg d n Hk Hws Hin).
  unfold unpack_rws. destruct (carried p); cbn [app];
    repeat (apply Forall_cons; split; [left; cbn [fst snd]; destruct Hreg as [->| ->]; congruence|]); constructor.
Qed.

Lemma state_untouched j o' h r : j <> i -> k_owners k !! j = Some o' -> 0 <= h <= 1 -> 0 <= r <= kc_max_ratio c ->
  kv_read k' (region_off (k_lay k) RState + state_at k j h) (r * kc_latent_dim c * 4) =
  kv_read k (region_off (k_lay k) RState + state_at k j h) (r * kc_latent_dim c * 4).
Proof.
  intros Hne Ho' Hh Hr. pose proof unpack_inside as Hws. pose proof ratio_range.
  apply (kv_read_apart k ws RState (state_at k j h) _ Hk Hws); [by apply (state_inside k Hk j o' Ho')|].
  unfold unpack_rws. apply Forall_cons; split; [by left|]. apply Forall_cons; split; [by left|]. unfold carried.
  destruct (Z.ltb_spec 1 (pp_ratio p)) as [H1|H1]; [|constructor]. destruct (carry_len H1) as [Hkb Hsb].
  assert (Hj : (j < length (k_owners k))%nat) by by eapply lookup_lt_Some.
  repeat (apply Forall_cons; split; [right; cbn [fst snd]; rewrite ?Hkb, ?Hsb; apply states_apart; try done; try lia; apply carry_in_stride; lia|]).
  constructor.
Qed.

Lemma unpacked_other j o' q : j <> i -> k_owners k !! j = Some o' -> plane_holds k positions j o' q -> plane_holds k' positions j o' q.
Proof.
  intros Hne Ho' [Hl Hr Hrows Hhw Hc Hy Hs]. pose proof (ko_dims k Hk) as Hd. pose proof (ko_cap k Hk).
  assert (Hin : o' ∈ owners c) by by eapply owner_in. destruct (kd_ratio c Hd o' Hin) as [Hrat _].
  assert (0 <= pp_rows q) by (rewrite Hrows; apply Z.div_pos; lia).
  assert (pp_rows q <= rows_for c o' (k_cap k)).
  { apply (rows_below c Hd); [done|lia|]. rewrite Hrows. apply Z.div_le_mono; lia. }
  split; change (k_cfg k') with c; try done.
  - by rewrite unpacked_hw, decide_False by done.
  - rewrite Hc. unfold cmp_rows. f_equal. symmetry. apply (plane_untouched j o' _ _ (RCmp j)); [done|done|by left|]. exact (cmp_inside k Hk j o' Ho' 0 (pp_rows q) ltac:(lia) ltac:(lia) ltac:(lia)).
  - rewrite Hy. unfold key_rows. f_equal. symmetry. apply (plane_untouched j o' _ _ (RIdx j)); [done|done|by right|]. exact (idx_inside k Hk j o' Ho' 0 (pp_rows q) ltac:(lia) ltac:(lia) ltac:(lia)).
  - intros Hc1. destruct (Hs Hc1) as [-> ->]. rewrite (carry_kv_at k j), (carry_score_at k j), (carry_kv_at k' j), (carry_score_at k' j).
    split; f_equal; symmetry; [exact (state_untouched j o' 0 (pp_ratio q) Hne Ho' ltac:(lia) ltac:(lia))|
      exact (state_untouched j o' 1 (pp_ratio q) Hne Ho' ltac:(lia) ltac:(lia))].
Qed.
End Step.

(** ** A whole context *)

Lemma unpacked_memory k i p : memory_only k (unpacked k i p).
Proof. done. Qed.

Lemma memory_only_trans k1 k2 k3 : memory_only k1 k2 -> memory_only k2 k3 -> memory_only k1 k3.
Proof. unfold memory_only. intros -> ->. by destruct k1. Qed.

Lemma unpack_planes_run {A} `{MemoryAllocator A} (a : A) positions ps m k : kv_ok k -> 0 <= positions <= k_cap k ->
  (forall n p, ps !! n = Some p -> exists o, k_owners k !! (m + n)%nat = Some o /\ plane_shape (k_cfg k) positions o p) ->
  exists k', foldr (fun p rest => _ ← unpack_plane p; rest) (mret tt) ps (a, k) = (Ret tt, (a, k')) /\
    kv_ok k' /\ memory_only k k' /\
    (forall n p o, ps !! n = Some p -> k_owners k !! (m + n)%nat = Some o -> plane_holds k' positions (m + n) o p) /\
    (forall j o q, (j < m)%nat -> k_owners k !! j = Some o -> plane_holds k positions j o q -> plane_holds k' positions j o q).
Proof.
  revert m k. induction ps as [|p ps IH]; intros m k Hk Hpos Hps; cbn [foldr].
  { exists k. split_and!; [done|done|by destruct k|done|done]. }
  destruct (Hps 0%nat p eq_refl) as (o & Ho & Hp). rewrite Nat.add_0_r in Ho.
  pose proof (unpacked_ok k Hk positions m o Ho Hpos p Hp) as Hk1. set (k1 := unpacked k m p) in *.
  destruct (IH (S m) k1 Hk1 Hpos) as (k' & Hrun & Hk' & Hm & Hin & Hout).
  { intros n q Hq. destruct (Hps (S n) q Hq) as (o' & Ho' & Hq'). exists o'. split; [|done]. by rewrite Nat.add_succ_r in Ho'. }
  exists k'. split_and!.
  - unfold mbind at 1, KM_bind. erewrite unpack_plane_runs by done. exact Hrun.
  - done.
  - eapply memory_only_trans; [apply unpacked_memory|exact Hm].
  - intros [|n] q o' Hq Ho'; cbn in Hq.
    + injection Hq as <-. rewrite Nat.add_0_r in *. rewrite Ho in Ho'. injection Ho' as <-.
      apply Hout; [lia|done|]. by apply unpacked_own.
    + rewrite Nat.add_succ_r in *. by apply (Hin n q o').
  - intros j o' q Hj Ho' Hq. apply Hout; [lia|done|]. eapply unpacked_other; try done. lia.
Qed.

Lemma collect_Ret {X Y} (f : nat -> X -> Result Y) (l : list X) m out res :
  foldM (fun out '(i, x) => y ← f i x; Ret (out ++ [y])) out (imap (fun i x => ((m + i)%nat, x)) l) = Ret res <->
  exists ys, res = out ++ ys /\ length ys = length l /\ forall i x y, l !! i = Some x -> ys !! i = Some y -> f (m + i)%nat x = Ret y.
Proof.
  revert m out. induction l as [|x l IH]; intros m out; cbn [imap foldM].
  { split; [intros [= <-]; exists []; by rewrite app_nil_r|]. intros (ys & -> & Hy%nil_length_inv & _). subst. by rewrite app_nil_r. }
  rewrite Nat.add_0_r, (imap_ext _ (fun i x => ((S m + i)%nat, x)) l) by (intros; cbn; by rewrite Nat.add_succ_r).
  split.
  - intros (out' & (y & Hy & [= <-])%bind_Ret & Hr)%bind_Ret. apply IH in Hr as (ys & -> & Hl & Hf).
    exists (y :: ys). rewrite <- app_assoc. split_and!; [done|cbn; lia|].
    intros [|i] x' y' Hx Hy'; cbn in *; [by simplify_eq; rewrite Nat.add_0_r|]. rewrite Nat.add_succ_r. by apply (Hf i).
  - intros ([|y ys] & -> & Hl & Hf); [done|]. apply bind_Ret. exists (out ++ [y]). split.
    + apply bind_Ret. exists y. split; [|done]. rewrite <- (Nat.add_0_r m) at 1. by apply (Hf 0%nat).
    + apply IH. exists ys. rewrite <- app_assoc. split_and!; [done|cbn in Hl; lia|].
      intros i x' y' Hx Hy'. specialize (Hf (S i) x' y' Hx Hy'). by rewrite Nat.add_succ_r in Hf.
Qed.

Lemma pack_planes k positions pk : kv_ok k -> pack k positions = Ret pk <->
  exists ps, pk = mkKvPacked positions ps /\ length ps = length (k_owners k) /\
    forall i o p, k_owners k !! i = Some o -> ps !! i = Some p -> pack_plane k positions i o = Ret p.
Proof.
  intros Hk. unfold pack. assert (Hv : valid k = true) by (unfold valid; rewrite bool_decide_false by apply Hk; done).
  rewrite Hv. cbn [negb fail_if]. pose proof (fun res => collect_Ret (pack_plane k positions) (k_owners k) 0 [] res) as Hc.
  cbn [Nat.add app] in Hc. split.
  - intros ([] & _ & (ps & Hps & [= <-])%bind_Ret)%bind_Ret. apply Hc in Hps as (ys & -> & Hl & Hf). by exists ys.
  - intros (ps & -> & Hl & Hf). apply bind_Ret. exists tt. split; [done|]. apply bind_Ret. exists ps. split; [|done]. apply Hc. by exists ps.
Qed.

(** A plane that stands in another store of the same shape packs the same there. *)
Lemma pack_plane_same k k2 positions i o p : kv_ok k -> kv_ok k2 -> k_cfg k2 = k_cfg k -> k_owners k !! i = Some o ->
  0 <= positions <= k_cap k2 -> plane_holds k positions i o p -> plane_holds k2 positions i o p ->
  pack_plane k positions i o = Ret p -> pack_plane k2 positions i o = Ret p.
Proof.
  intros Hk Hk2 Hc Ho Hpos Hp Hp2 Hpk. assert (Ho2 : k_owners k2 !! i = Some o) by (by rewrite (ko_owners k2 Hk2), Hc, <- (ko_owners k Hk)).
  pose proof (rows_range k2 Hk2 positions i o Ho2 Hpos p (plane_holds_shape _ _ _ _ _ Hk2 Ho2 Hp2)) as [_ Hr].
  destruct Hp as [_ Hra Hrow Hhw Hcm Hy Hs], Hp2 as [_ _ _ Hhw2 Hcm2 Hy2 Hs2]. rewrite Hc in *.
  revert Hpk. unfold pack_plane. rewrite Hc, <- Hrow, <- Hra, (proj2 (Z.ltb_ge _ _) Hhw), (proj2 (Z.ltb_ge _ _) Hhw2), (proj2 (Z.ltb_ge _ _) Hr).
  rewrite <- Hcm, <- Hcm2, <- Hy, <- Hy2. cbn [orb]. intros ([] & _ & Hpk)%bind_Ret. cbn [fail_if]. rewrite <- Hpk.
  destruct (Z.ltb_spec 1 (pp_ratio p)) as [H1|H1]; [|done]. destruct (Hs H1) as [<- <-], (Hs2 H1) as [<- <-]. done.
Qed.

(** The same context in both stores: every owner's rows, its carried state, and that they count as written. *)
Definition same_context (k k2 : KvStore) (positions : Z) : Prop :=
  forall i o, k_owners k !! i = Some o ->
    let r := plane_ratio (k_cfg k) o in let rows := positions / r in let n := r * kc_latent_dim (k_cfg k) in
    cmp_rows k2 i 0 rows = cmp_rows k i 0 rows /\ key_rows k2 i 0 rows = key_rows k i 0 rows /\
    rows <= nth i (k_rows_hw k2) 0 /\
    (1 < r -> carry_words k2 (l_state (k_lay k2)) i n = carry_words k (l_state (k_lay k)) i n /\
              carry_words k2 (score_base k2) i n = carry_words k (score_base k) i n).

Lemma holds_same k k2 positions i o p : k_cfg k2 = k_cfg k -> plane_holds k positions i o p -> plane_holds k2 positions i o p ->
  let r := plane_ratio (k_cfg k) o in let rows := positions / r in let n := r * kc_latent_dim (k_cfg k) in
  cmp_rows k2 i 0 rows = cmp_rows k i 0 rows /\ key_rows k2 i 0 rows = key_rows k i 0 rows /\ rows <= nth i (k_rows_hw k2) 0 /\
  (1 < r -> carry_words k2 (l_state (k_lay k2)) i n = carry_words k (l_state (k_lay k)) i n /\
            carry_words k2 (score_base k2) i n = carry_words k (score_base k) i n).
Proof.
  intros Hc [_ Hra Hrow Hhw Hcm Hy Hs] [_ _ _ Hhw2 Hcm2 Hy2 Hs2]. rewrite Hc in *. cbn zeta. rewrite <- Hrow, <- Hra, <- Hcm, <- Hcm2, <- Hy, <- Hy2.
  split_and!; [done..|]. intros H1. destruct (Hs H1) as [<- <-], (Hs2 H1) as [<- <-]. done.
Qed.

Section Context_.
Context {A : Type} `{Hal : MemoryAllocatorOk A}.

Lemma context_unpacked k k1 positions pk a a1 k1' : kv_ok k -> kv_ok k1 -> k_cfg k1 = k_cfg k -> 0 <= positions ->
  pack k positions = Ret pk -> reserve (Z.max positions 1) (a, forget_prompt k1) = (Ret tt, (a1, k1')) ->
  exists k2, unpack pk (a, k1) = (Ret tt, (a1, k2)) /\ kv_ok k2 /\ same_context k k2 positions /\
    pack k2 positions = Ret pk /\ k_n_cmp k2 = counts_at k1 positions /\
    Z.max positions 1 <= k_cap k2 /\ k_cfg k2 = k_cfg k /\ k_owner_of k2 = k_owner_of k1.
Proof.
  intros Hk Hk1 Hc Hpos Hpk Hres. apply (pack_planes k positions pk Hk) in Hpk as (ps & -> & Hl & Hps).
  pose proof (forget_ok k1 Hk1) as Hf.
  destruct (reserve_frame _ _ _ _ _ Hf Hres) as (Hok & Heq & Hcap).
  assert (Hc' : k_cfg k1' = k_cfg k) by (rewrite Heq; exact Hc).
  assert (Hos : k_owners k1' = k_owners k) by (by rewrite (ko_owners _ Hok), Hc', <- (ko_owners _ Hk)).
  assert (Hh : forall i o p, k_owners k !! i = Some o -> ps !! i = Some p -> plane_holds k positions i o p)
    by (intros i o p Ho Hp; eapply pack_plane_holds; eauto).
  destruct (unpack_planes_run a1 positions ps 0 k1' Hok ltac:(lia)) as (k' & Hrun & Hk' & Hm & Hin & _).
  { intros n p Hp. rewrite Hos, Hc'. assert (Hlt : (n < length (k_owners k))%nat) by (rewrite <- Hl; by eapply lookup_lt_Some).
    apply lookup_lt_is_Some_2 in Hlt as [o Ho]. exists o. split; [done|]. eapply plane_holds_shape; eauto. }
  cbn [Nat.add] in Hin. rewrite Hos in Hin.
  assert (Hc2 : k_cfg k' = k_cfg k) by (rewrite Hm; exact Hc').
  exists (k' <| k_n_cmp := counts_at k' positions |>).
  pose proof (counted_ok k' positions Hk') as Hk2. set (k2 := k' <| k_n_cmp := _ |>) in *.
  assert (Hh2 : forall i o p, k_owners k !! i = Some o -> ps !! i = Some p -> plane_holds k2 positions i o p).
  { intros i o p Ho Hp. destruct (Hin i p o Hp Ho). by split. }
  split_and!.
  - unfold unpack, km_update, km_get, km_guard, mbind, KM_bind. cbn [snd fst].
    assert (Hv : valid (forget_prompt k1) = true) by (unfold valid; rewrite bool_decide_false by apply Hf; done).
    rewrite Hv. cbn [negb fail_if kp_positions kp_planes]. rewrite Hres. unfold mbind, KM_bind in Hrun. rewrite Hrun. done.
  - exact Hk2.
  - intros i o Ho. assert (Hlt : (i < length ps)%nat) by (rewrite Hl; by eapply lookup_lt_Some).
    apply lookup_lt_is_Some_2 in Hlt as [p Hp]. apply (holds_same k k2 positions i o p); [done|by apply Hh|by apply Hh2].
  - apply (pack_planes k2 positions _ Hk2). exists ps. change (k_owners k2) with (k_owners k'). assert (Ho2 : k_owners k' = k_owners k) by (rewrite Hm; exact Hos).
    rewrite Ho2. split_and!; [done|done|]. intros i o p Ho Hp. apply (pack_plane_same k); auto.
    change (k_cap k2) with (k_cap k'). rewrite Hm. cbn. lia.
  - change (k_n_cmp k2) with (counts_at k' positions). rewrite Hm, Heq. done.
  - change (k_cap k2) with (k_cap k'). rewrite Hm. exact Hcap.
  - exact Hc2.
  - change (k_owner_of k2) with (k_owner_of k'). rewrite Hm, Heq. done.
Qed.

(** C21: A context packed out of one store and unpacked into another of the same configuration
    comes back bit for bit: every owner's latent rows, index keys and carried compressor
    state read the same, [unpack] answers what its one allocation answers, no plane's write
    disturbs another's, and packing the second store gives the same pack again. *)
Theorem context_back k k1 positions pk a a1 k1' : kv_ok k -> kv_ok k1 -> k_cfg k1 = k_cfg k -> 0 <= positions ->
  pack k positions = Ret pk -> reserve (Z.max positions 1) (a, forget_prompt k1) = (Ret tt, (a1, k1')) ->
  exists k2, unpack pk (a, k1) = (Ret tt, (a1, k2)) /\ kv_ok k2 /\ same_context k k2 positions /\
    pack k2 positions = Ret pk /\ k_n_cmp k2 = counts_at k1 positions.
Proof.
  intros Hk Hk1 Hc Hp Hpk Hr. destruct (context_unpacked k k1 positions pk a a1 k1' Hk Hk1 Hc Hp Hpk Hr) as (k2 & ? & ? & ? & ? & ? & _).
  by exists k2.
Qed.
End Context_.

(** Three rows seeded into one store, one of them not representable in 4 bits, come back in another. *)
Definition seed_rows : list KvOp :=
  let one := S754_finite false 8388608 (-23) in
  [OpSeedCompressed 0 (replicate 64 one ++ replicate 64 (S754_finite false 12345677 (-20)) ++ replicate 64 (S754_zero true)) 3;
   OpSeedIndexK 0 (replicate 96 one) 3; OpSeedCmpState 0 (replicate 128 7) (replicate 128 9) 2].
Definition kv_seeded : Z * KvStore := run_ops seed_rows kv_new.

Lemma kv_seeded_ok : kv_ok kv_seeded.2.
Proof.
  unfold kv_seeded. pose proof kv_new_ok as Hk. destruct kv_new as [a k]. apply store_ops_ok; [exact Hk|].
  repeat constructor; cbn; lia.
Qed.

Lemma context_back_witness :
  exists pk k2, pack kv_seeded.2 6 = Ret pk /\ (pp_raw_rows <$> kp_planes pk) = [[1]] /\
    unpack pk kv_new = (Ret tt, (kv_new.1, k2)) /\ same_context kv_seeded.2 k2 6.
Proof.
  destruct (pack kv_seeded.2 6) as [pk|e] eqn:Ep; [|exfalso; revert Ep; by vm_compute].
  assert (Hraw : (pp_raw_rows <$> kp_planes pk) = [[1]]).
  { assert (H : match pack kv_seeded.2 6 with Ret pk => (pp_raw_rows <$> kp_planes pk) | Fail _ => [] end = [[1]]) by by vm_compute.
    by rewrite Ep in H. }
  destruct (context_back kv_seeded.2 kv_new.2 6 pk kv_new.1 kv_new.1 (forget_prompt kv_new.2)) as (k2 & Hun & _ & Hsame & _).
  - exact kv_seeded_ok.
  - exact kv_new_ok.
  - by vm_compute.
  - lia.
  - exact Ep.
  - by vm_compute.
  - exists pk, k2. split_and!; [done|done| |done]. by rewrite <- surjective_pairing in Hun.
Defined.
