(* ===== verification/KvRing.v ===== *)
(** The window ring of the KV store: which slot a decode step lists, snapshots put back, and
    the retained prompt window. *)

From S2P Require Import Prelude Types Floats Dequant KvPack V41Config KvLayout KvStore KvRows KvStoreProps KvInv KvContext.

(** ** One cell: a layer's slot with its values and scales *)

Definition Cell : Type := (Z * Z) * (list Z * list Z).
Definition cell_writes (k : KvStore) (c : Cell) : list (Z * list Z) :=
  [(ring_val_off k c.1.1 c.1.2, c.2.1); (ring_scale_off k c.1.1 c.1.2, c.2.2)].
Definition cell_in (c : KvStoreConfig) (ls : Z * Z) : Prop := 0 <= ls.1 < kc_layers c /\ 0 <= ls.2 < kc_window c.
Definition cell_ok (c : KvStoreConfig) (x : Cell) : Prop :=
  cell_in c x.1 /\ Z.of_nat (length x.2.1) = kc_latent_dim c /\ Z.of_nat (length x.2.2) = window_scales c.
(** What the ring holds in a cell. *)
Definition ring_cell (k : KvStore) (ls : Z * Z) : list Z * list Z := (ring_val k ls.1 ls.2, ring_scale k ls.1 ls.2).

Section Cells.
Context (k : KvStore) (Hk : kv_ok k).
#[local] Abbreviation c := (k_cfg k).
#[local] Abbreviation w := (kc_window c).

Definition cell_index (ls : Z * Z) : Z := ls.1 * w + ls.2.

Lemma cell_index_inj x y : cell_in c x -> cell_in c y -> cell_index x = cell_index y -> x = y.
Proof.
  destruct x as [l s], y as [l' s']. unfold cell_in, cell_index. cbn [fst snd]. intros [_ Hs] [_ Hs'] He.
  assert (l = l') as -> by nia. f_equal. lia.
Qed.

Lemma cell_index_range x : cell_in c x -> 0 <= cell_index x /\ cell_index x + 1 <= kc_layers c * w.
Proof. unfold cell_in, cell_index. intros [Hl Hs]. nia. Qed.

Lemma val_inside x : cell_in c x -> inside c (k_owners k) (k_cap k) RWinVal (cell_index x * kc_latent_dim c) (kc_latent_dim c).
Proof.
  intros Hx. destruct (kd_latent c (ko_dims k Hk)), (cell_index_range x Hx). unfold inside.
  split_and!; cbn [region_in region_bytes]; [done|nia|lia|nia].
Qed.
Lemma scale_inside x : cell_in c x -> inside c (k_owners k) (k_cap k) RWinScale (cell_index x * window_scales c) (window_scales c).
Proof.
  intros Hx. pose proof (window_scales_pos c (ko_dims k Hk)). destruct (cell_index_range x Hx). unfold inside.
  split_and!; cbn [region_in region_bytes]; [done|nia|lia|nia].
Qed.

Lemma index_apart x y d : 0 < d -> cell_index x <> cell_index y ->
  cell_index x * d + d <= cell_index y * d \/ cell_index y * d + d <= cell_index x * d.
Proof. intros Hd Hne. destruct (Z.lt_total (cell_index x) (cell_index y)) as [?|[?|?]]; [left; nia|done|right; nia]. Qed.

Definition cell_rws (x : Cell) : list RWrite :=
  [(RWinVal, cell_index x.1 * kc_latent_dim c, x.2.1); (RWinScale, cell_index x.1 * window_scales c, x.2.2)].
Lemma cell_flat x : cell_writes k x = kflat k <$> cell_rws x.
Proof. done. Qed.

Lemma cell_rws_inside x : cell_ok c x -> Forall (kv_inside k) (cell_rws x).
Proof.
  intros (Hx & Hv & Hs). repeat (apply Forall_cons; split); [| |done]; unfold kv_inside, rw_inside; cbn [fst snd].
  - rewrite Hv. by apply val_inside.
  - rewrite Hs. by apply scale_inside.
Qed.

(** Writing a cell sets it and no other. *)
Lemma cell_written x : cell_ok c x -> let k' := kv_writes k (cell_writes k x) in
  kv_ok k' /\ ring_cell k' x.1 = x.2 /\ forall y, cell_in c y -> y <> x.1 -> ring_cell k' y = ring_cell k y.
Proof.
  intros Hx k'. pose proof (cell_rws_inside x Hx) as Hin. pose proof Hx as (Hc & Hv & Hs).
  pose proof (window_scales_pos c (ko_dims k Hk)). destruct (kd_latent c (ko_dims k Hk)) as [Hd _].
  assert (Hr : forall off n, kv_read k' off n = kv_read (kv_writes k (kflat k <$> cell_rws x)) off n) by done.
  split_and!.
  - apply bufs_ok; [done|]. apply mem_writes_maps, Hk.
  - unfold ring_cell, ring_val, ring_scale. rewrite !Hr. destruct x as [ls [v sc]]. cbn [fst snd] in *. f_equal.
    + pose proof (kv_written_back k [] (RWinVal, cell_index ls * kc_latent_dim c, v) [(RWinScale, cell_index ls * window_scales c, sc)] Hk Hin) as Hw.
      cbn [fst snd] in Hw. rewrite Hv in Hw. apply Hw. repeat constructor. by apply apart_regions.
    + pose proof (kv_written_back k [(RWinVal, cell_index ls * kc_latent_dim c, v)] (RWinScale, cell_index ls * window_scales c, sc) [] Hk Hin) as Hw.
      cbn [fst snd] in Hw. rewrite Hs in Hw. apply Hw. constructor.
  - intros y Hy Hne. assert (Hi : cell_index x.1 <> cell_index y) by (intros He; by apply Hne, cell_index_inj).
    unfold ring_cell, ring_val, ring_scale. rewrite !Hr. f_equal.
    + apply (kv_read_apart k (cell_rws x) RWinVal (cell_index y * kc_latent_dim c)); [done|done|by apply val_inside|].
      unfold cell_rws. repeat (apply Forall_cons; split); [right| |constructor]; cbn [fst snd]; [rewrite Hv; by apply index_apart|by left].
    + apply (kv_read_apart k (cell_rws x) RWinScale (cell_index y * window_scales c)); [done|done|by apply scale_inside|].
      unfold cell_rws. repeat (apply Forall_cons; split); [by left| |constructor]; cbn [fst snd]. right. rewrite Hs. by apply index_apart.
Qed.
End Cells.

Lemma kv_writes_app k ws ws' : kv_writes k (ws ++ ws') = kv_writes (kv_writes k ws) ws'.
Proof.
  assert (Hm : mem_writes (k_lay k) (k_bufs k) (ws ++ ws') = mem_writes (k_lay k) (mem_writes (k_lay k) (k_bufs k) ws) ws')
    by apply foldl_app.
  change (k <| k_bufs := mem_writes (k_lay k) (k_bufs k) (ws ++ ws') |> =
    k <| k_bufs := mem_writes (k_lay k) (mem_writes (k_lay k) (k_bufs k) ws) ws' |>). by rewrite Hm.
Qed.

(** Cells written one after another. *)
Lemma cells_written xs k : kv_ok k -> Forall (cell_ok (k_cfg k)) xs -> NoDup xs.*1 ->
  let k' := kv_writes k (mjoin (cell_writes k <$> xs)) in
  kv_ok k' /\ (forall x, x ∈ xs -> ring_cell k' x.1 = x.2) /\
  forall y, cell_in (k_cfg k) y -> y ∉ xs.*1 -> ring_cell k' y = ring_cell k y.
Proof.
  revert k. induction xs as [|x xs IH]; intros k Hk Hok Hnd; cbn zeta.
  { assert (Hn : kv_writes k (mjoin (cell_writes k <$> [])) = k) by (by destruct k). rewrite Hn. split_and!; [done| |done].
    intros x Hx. by apply elem_of_nil in Hx. }
  apply Forall_cons in Hok as [Hx Hok]. apply NoDup_cons in Hnd as [Hnx Hnd].
  destruct (cell_written k Hk x Hx) as (Hk1 & Hown & Hoth). set (k1 := kv_writes k (cell_writes k x)) in *.
  destruct (IH k1 Hk1 Hok Hnd) as (Hk' & Hin & Hout).
  assert (Heq : kv_writes k (mjoin (cell_writes k <$> x :: xs)) = kv_writes k1 (mjoin (cell_writes k1 <$> xs))).
  { rewrite fmap_cons. change (mjoin (cell_writes k x :: ?ls)) with (cell_writes k x ++ mjoin ls).
    by rewrite kv_writes_app. }
  rewrite Heq. split_and!; [done| |].
  - intros y [->|Hy]%elem_of_cons; [|by apply Hin]. rewrite Hout; [done|apply Hx|done].
  - intros y Hy Hny. apply not_elem_of_cons in Hny as [Hne Hny]. rewrite Hout by done. by apply Hoth.
Qed.

(** ** Snapshots *)

Lemma cells_elem layers slots x : x ∈ cells layers slots <-> x.1 ∈ layers /\ x.2 ∈ slots.
Proof.
  unfold cells. rewrite list_elem_of_join. split.
  - intros (ls & Hx & (l & -> & Hl)%list_elem_of_fmap). apply list_elem_of_fmap in Hx as (s & -> & Hs). done.
  - intros [Hl Hs]. exists ((fun s => (x.1, s)) <$> slots). split; apply list_elem_of_fmap.
    + exists x.2. by destruct x.
    + by exists x.1.
Qed.

Lemma cells_NoDup layers slots : NoDup layers -> NoDup slots -> NoDup (cells layers slots).
Proof.
  intros Hl Hs. unfold cells. induction Hl as [|l layers Hn _ IH]; [constructor|]. cbn [fmap list_fmap].
  change (mjoin (?x :: ?xs)) with (x ++ mjoin xs). apply NoDup_app. split_and!; [| |exact IH].
  - apply NoDup_fmap_2; [|done]. intros s s' He. by injection He.
  - intros x (s & -> & _)%list_elem_of_fmap Hin. apply (cells_elem layers slots) in Hin as [Hin _]. done.
Qed.

Lemma chunk_join {X} (f : X -> list Z) (xs : list X) d o x : 0 <= d -> (forall x, x ∈ xs -> Z.of_nat (length (f x)) = d) ->
  xs !! o = Some x -> chunk d (Z.of_nat o) (mjoin (f <$> xs)) = f x.
Proof.
  intros Hd Hf Ho. unfold chunk. rewrite Z2Nat.inj_mul, Nat2Z.id by lia. rewrite (subspan_join _ (Z.to_nat d)).
  - by rewrite nth_lookup, list_lookup_fmap, Ho.
  - apply Forall_fmap, Forall_forall. intros y Hy. cbn. rewrite <- (Hf y Hy). lia.
  - rewrite length_fmap. by eapply lookup_lt_Some.
Qed.

Section Snapshot.
Context (k : KvStore) (Hk : kv_ok k).

Lemma ring_val_length x : cell_in (k_cfg k) x -> Z.of_nat (length (ring_val k x.1 x.2)) = kc_latent_dim (k_cfg k).
Proof.
  intros Hx. destruct (kd_latent _ (ko_dims k Hk)).
  assert (Hl : length (ring_val k x.1 x.2) = Z.to_nat (kc_latent_dim (k_cfg k))) by exact (kv_read_length k RWinVal _ _ Hk (val_inside k Hk x Hx)). lia.
Qed.
Lemma ring_scale_length x : cell_in (k_cfg k) x -> Z.of_nat (length (ring_scale k x.1 x.2)) = window_scales (k_cfg k).
Proof.
  intros Hx. pose proof (window_scales_pos _ (ko_dims k Hk)).
  assert (Hl : length (ring_scale k x.1 x.2) = Z.to_nat (window_scales (k_cfg k))) by exact (kv_read_length k RWinScale _ _ Hk (scale_inside k Hk x Hx)). lia.
Qed.

(** The cells of a copy of the ring. *)
Lemma copied_cells (cs : list (Z * Z)) : Forall (cell_in (k_cfg k)) cs ->
  imap (fun o x => (x, (chunk (kc_latent_dim (k_cfg k)) (Z.of_nat o) (mjoin ((fun x => ring_val k x.1 x.2) <$> cs)),
                        chunk (window_scales (k_cfg k)) (Z.of_nat o) (mjoin ((fun x => ring_scale k x.1 x.2) <$> cs))))) cs =
  (fun x => (x, ring_cell k x)) <$> cs.
Proof.
  intros Hcs. rewrite Forall_forall in Hcs. destruct (kd_latent _ (ko_dims k Hk)). pose proof (window_scales_pos _ (ko_dims k Hk)).
  apply list_eq. intros o. rewrite list_lookup_imap, list_lookup_fmap. destruct (cs !! o) as [x|] eqn:E; [|done]. cbn.
  unfold ring_cell. rewrite (chunk_join _ cs _ o x), (chunk_join _ cs _ o x); [done|lia| |done|lia| |done].
  - intros y Hy. by apply ring_scale_length, Hcs.
  - intros y Hy. by apply ring_val_length, Hcs.
Qed.

Lemma cell_of_ok x : cell_in (k_cfg k) x -> cell_ok (k_cfg k) (x, ring_cell k x).
Proof. intros Hx. split_and!; [done|by apply ring_val_length|by apply ring_scale_length]. Qed.
End Snapshot.

(** Slots set from a function of the slot. *)
Lemma slots_set (f : Z -> Z) (slots : list Z) sp s : Forall (fun s => 0 <= s) slots -> 0 <= s < len_Z sp ->
  nth (Z.to_nat s) (foldl (fun sp s => <[Z.to_nat s := f s]> sp) sp slots) 0 =
  if decide (s ∈ slots) then f s else nth (Z.to_nat s) sp 0.
Proof.
  intros Hs. revert sp. induction Hs as [|s' slots Hs' _ IH]; intros sp Hr; [by rewrite decide_False by apply not_elem_of_nil|].
  cbn [foldl]. unfold len_Z in *. rewrite IH by (rewrite length_insert; done).
  destruct (decide (s ∈ slots)) as [Hin|Hout]; [by rewrite decide_True by by apply list_elem_of_further|].
  rewrite !nth_lookup. destruct (decide (s = s')) as [->|Hne].
  - rewrite decide_True by apply list_elem_of_here. rewrite list_lookup_insert_eq by lia. done.
  - rewrite decide_False by (by apply not_elem_of_cons). rewrite list_lookup_insert_ne by lia. done.
Qed.

Lemma zip_slots (g h : Z -> Z) (slots sp : list Z) :
  foldl (fun sp x => <[Z.to_nat x.1 := g x.2]> sp) sp (zip slots (h <$> slots)) = foldl (fun sp s => <[Z.to_nat s := g (h s)]> sp) sp slots.
Proof. revert sp. induction slots as [|s slots IH]; intros sp; [done|]. cbn. apply IH. Qed.

Lemma existsb_bound (l : list Z) n : existsb (fun x => n <=? x) l = false -> forall x, x ∈ l -> x < n.
Proof.
  intros He x Hx. destruct (Z.le_gt_cases n x) as [Hle|Hlt]; [|done]. exfalso.
  assert (existsb (fun x => n <=? x) l = true); [|congruence]. apply existsb_exists. exists x. split; [by apply list_elem_of_In|by apply Z.leb_le].
Qed.

Section Restored.
Context {A : Type} `{Hal : MemoryAllocatorOk A}.

(** What restoring a snapshot of the ring does. *)
Lemma restored_ring k k2 slots layers s (a : A) : kv_ok k -> kv_ok k2 -> k_cfg k2 = k_cfg k ->
  NoDup slots -> NoDup layers -> Forall (fun s => 0 <= s) slots -> Forall (fun l => 0 <= l) layers ->
  snapshot_ring k slots layers = Ret s ->
  exists k3, restore_ring s (a, k2) = (Ret tt, (a, k3)) /\ kv_ok k3 /\
    (forall l s, l ∈ layers -> s ∈ slots -> ring_cell k3 (l, s) = ring_cell k (l, s)) /\
    (forall x, cell_in (k_cfg k) x -> ~ (x.1 ∈ layers /\ x.2 ∈ slots) -> ring_cell k3 x = ring_cell k2 x) /\
    (forall s, 0 <= s < kc_window (k_cfg k) -> nth (Z.to_nat s) (k_slot_pos k3) 0 =
       if decide (s ∈ slots)
       then if forallb (fun l => bool_decide (l ∈ layers)) (layer_ids (kc_layers (k_cfg k))) then nth (Z.to_nat s) (k_slot_pos k) 0 else kSlotEmpty
       else nth (Z.to_nat s) (k_slot_pos k2) 0).
Proof.
  intros Hk Hk2 Hc Hns Hnl Hs0 Hl0. unfold snapshot_ring.
  intros ([] & _ & ([] & [Hsl Hly]%fail_if_Ret%orb_false_iff & ([] & Hlb%fail_if_Ret & ([] & Hsb%fail_if_Ret & [= <-])%bind_Ret)%bind_Ret)%bind_Ret)%bind_Ret.
  set (sn := mkRingSnapshot _ _ _ _ _ _). pose proof (existsb_bound _ _ Hlb) as Hlb'. pose proof (existsb_bound _ _ Hsb) as Hsb'.
  rewrite Forall_forall in Hs0, Hl0.
  assert (Hcs : Forall (cell_in (k_cfg k)) (cells layers slots)).
  { apply Forall_forall. intros x [Hx1 Hx2]%cells_elem. specialize (Hs0 _ Hx2). specialize (Hl0 _ Hx1). specialize (Hlb' _ Hx1). specialize (Hsb' _ Hx2). by split. }
  pose proof (copied_cells k Hk _ Hcs) as Hcopy. set (xs := (fun x => (x, ring_cell k x)) <$> cells layers slots) in *.
  assert (Hwr : ring_writes k2 sn = mjoin (cell_writes k2 <$> xs)).
  { rewrite <- Hcopy, fmap_imap. unfold ring_writes. cbn [rg_layer rg_slot rg_val rg_scale sn]. by rewrite Hc. }
  assert (Hxs : xs.*1 = cells layers slots) by (unfold xs; rewrite <- list_fmap_compose; apply list_fmap_id).
  destruct (cells_written xs k2 Hk2) as (Hk3 & Hin & Hout).
  { rewrite Hc. apply Forall_fmap. eapply Forall_impl; [exact Hcs|]. intros x Hx. by apply cell_of_ok. }
  { rewrite Hxs. by apply cells_NoDup. }
  rewrite <- Hwr in Hk3, Hin, Hout. set (k3 := kv_writes k2 (ring_writes k2 sn)) in *.
  set (all := forallb (fun l => bool_decide (l ∈ layers)) (layer_ids (kc_layers (k_cfg k)))).
  set (f := fun s => if all then nth (Z.to_nat s) (k_slot_pos k) 0 else kSlotEmpty).
  set (k4 := k3 <| k_slot_pos ::= fun sp => foldl (fun sp s => <[Z.to_nat s := f s]> sp) sp slots |>).
  exists k4. split_and!.
  - unfold restore_ring, km_get, km_guard, km_update, mbind, KM_bind. cbn [snd fst sn rg_latent_dim rg_position rg_slot rg_layer].
    assert (Hv : valid k2 = true) by (unfold valid; rewrite bool_decide_false by apply Hk2; done).
    rewrite Hv, Hc, Z.eqb_refl, length_fmap, Nat.eqb_refl, andb_false_r, Hlb, Hsb. cbn [negb orb fail_if].
    rewrite (bool_decide_false (_ <$> slots = [])) by (intros Hn%fmap_nil_inv; by apply bool_decide_eq_false in Hsl).
    fold sn. fold k3. fold all.
    change ((Ret tt, (a, k3 <| k_slot_pos := foldl (fun sp x => <[Z.to_nat x.1 := if all then x.2 else kSlotEmpty]> sp) (k_slot_pos k3)
      (zip slots ((fun s => nth (Z.to_nat s) (k_slot_pos k) 0) <$> slots)) |>)) = (Ret tt, (a, k4))).
    by rewrite (zip_slots (fun p => if all then p else kSlotEmpty)).
  - unfold k4. apply slots_ok; [done|]. apply (foldl_insert_length Z.to_nat f).
  - intros l s' Hl Hs. change (ring_cell k4 (l, s')) with (ring_cell k3 (l, s')).
    apply (Hin ((l, s'), ring_cell k (l, s'))). unfold xs. apply list_elem_of_fmap. exists (l, s'). split; [done|]. by apply cells_elem.
  - intros x Hx Hn. change (ring_cell k4 x) with (ring_cell k3 x). apply Hout; [by rewrite Hc|]. rewrite Hxs. by rewrite cells_elem.
  - intros s' Hs. change (k_slot_pos k4) with (foldl (fun sp s => <[Z.to_nat s := f s]> sp) (k_slot_pos k2) slots).
    apply slots_set; [by apply Forall_forall|]. unfold len_Z. rewrite (ko_slots k2 Hk2), Hc. done.
Qed.

(** A snapshot of some slots of some layers of the window ring, restored into any
    store of the same configuration, gives back exactly those cells, values and scales, and
    touches no other cell.  The host's record of which position a slot holds comes back with
    the bytes when every layer was saved; a partial restore leaves the slot without an owner. *)
Theorem ring_restored k k2 slots layers s (a : A) : kv_ok k -> kv_ok k2 -> k_cfg k2 = k_cfg k ->
  NoDup slots -> NoDup layers -> Forall (fun s => 0 <= s) slots -> Forall (fun l => 0 <= l) layers ->
  snapshot_ring k slots layers = Ret s ->
  exists k3, restore_ring s (a, k2) = (Ret tt, (a, k3)) /\ kv_ok k3 /\
    (forall l s, l ∈ layers -> s ∈ slots -> ring_cell k3 (l, s) = ring_cell k (l, s)) /\
    (forall x, cell_in (k_cfg k) x -> ~ (x.1 ∈ layers /\ x.2 ∈ slots) -> ring_cell k3 x = ring_cell k2 x) /\
    (forall s, 0 <= s < kc_window (k_cfg k) -> nth (Z.to_nat s) (k_slot_pos k3) 0 =
       if decide (s ∈ slots)
       then if forallb (fun l => bool_decide (l ∈ layers)) (layer_ids (kc_layers (k_cfg k))) then nth (Z.to_nat s) (k_slot_pos k) 0 else kSlotEmpty
       else nth (Z.to_nat s) (k_slot_pos k2) 0).
Proof. intros Hk Hk2 Hc Hns Hnl Hs0 Hl0 Hsn. exact (restored_ring k k2 slots layers s a Hk Hk2 Hc Hns Hnl Hs0 Hl0 Hsn). Qed.
End Restored.

(** ** The prompt window *)

Section Prompt.
Context {A : Type} `{Hal : MemoryAllocatorOk A}.

(** Positions within one window are in different slots. *)
Lemma window_slots c keep p q : 0 < kc_window c -> p mod kc_window c = q mod kc_window c ->
  keep - kc_window c < p < keep -> keep - kc_window c < q < keep -> p = q.
Proof.
  intros Hw He Hp Hq. pose proof (Z.div_mod p (kc_window c)). pose proof (Z.div_mod q (kc_window c)).
  assert (p / kc_window c = q / kc_window c) by nia. lia.
Qed.

Lemma retained_spec k keep p : p ∈ retained k keep <->
  prompt_lo k keep <= p < keep /\ nth (slot_index (kc_window (k_cfg k)) p) (k_prompt_slot_pos k) kSlotEmpty = p.
Proof.
  unfold retained. rewrite list_elem_of_filter, list_elem_of_fmap. split.
  - intros (Hn & i & -> & Hi%upto_spec). split; [lia|done].
  - intros [Hr Hn]. split; [done|]. exists (p - prompt_lo k keep). rewrite upto_spec. lia.
Qed.

Lemma prompt_lo_range k keep : 0 < kc_window (k_cfg k) < 2 ^ 31 -> 0 <= keep < 2 ^ 32 ->
  0 <= prompt_lo k keep /\ keep - kc_window (k_cfg k) < prompt_lo k keep.
Proof.
  intros Hw Hk. unfold prompt_lo. destruct (Z.leb_spec (kc_window (k_cfg k)) keep); [rewrite u32_small by lia|]; lia.
Qed.

Lemma retained_NoDup k keep : NoDup (retained k keep).
Proof. apply NoDup_filter, NoDup_fmap_2; [intros x y; lia|apply upto_NoDup]. Qed.

(** The cells a recovery writes. *)
Definition prompt_cells (k : KvStore) (keep : Z) : list Cell :=
  (fun pl => ((pl.2, pl.1 mod kc_window (k_cfg k)), (prompt_val k pl.2 (pl.1 mod kc_window (k_cfg k)), prompt_scale k pl.2 (pl.1 mod kc_window (k_cfg k))))) <$>
  cells (retained k keep) (upto (kc_layers (k_cfg k))).

Lemma mjoin_app {X} (l1 l2 : list (list X)) : mjoin (l1 ++ l2) = mjoin l1 ++ mjoin l2.
Proof. induction l1 as [|x l1 IH]; [done|]. cbn [app]. change (x ++ mjoin (l1 ++ l2) = (x ++ mjoin l1) ++ mjoin l2). by rewrite IH, app_assoc. Qed.

Lemma recover_cells k keep : mjoin (recover_writes k <$> retained k keep) = mjoin (cell_writes k <$> prompt_cells k keep).
Proof.
  unfold prompt_cells, cells. rewrite <- list_fmap_compose. generalize (retained k keep). intros ps.
  set (F := cell_writes k ∘ _). induction ps as [|p ps IH]; [done|]. cbn [fmap list_fmap].
  change (recover_writes k p ++ mjoin (recover_writes k <$> ps) = mjoin (F <$> (((fun s => (p, s)) <$> upto (kc_layers (k_cfg k))) ++
    mjoin ((fun l => (fun s => (l, s)) <$> upto (kc_layers (k_cfg k))) <$> ps)))).
  rewrite IH, fmap_app, mjoin_app. f_equal. unfold recover_writes. by rewrite <- list_fmap_compose.
Qed.

Lemma slots_kept w ps (sp : list Z) s : (forall p, p ∈ ps -> slot_index w p <> s) ->
  foldl (fun sp p => <[slot_index w p := p]> sp) sp ps !! s = sp !! s.
Proof.
  revert sp. induction ps as [|p ps IH]; intros sp Hn; [done|]. cbn [foldl].
  rewrite IH by (intros q Hq; apply Hn; by apply list_elem_of_further). apply list_lookup_insert_ne, Hn, list_elem_of_here.
Qed.
Lemma slots_written w ps (sp : list Z) p : p ∈ ps -> (forall q, q ∈ ps -> slot_index w q = slot_index w p -> q = p) ->
  (slot_index w p < length sp)%nat -> foldl (fun sp p => <[slot_index w p := p]> sp) sp ps !! slot_index w p = Some p.
Proof.
  revert sp. induction ps as [|q ps IH]; intros sp Hp Hq Hl; [by apply elem_of_nil in Hp|]. cbn [foldl].
  destruct (decide (p ∈ ps)) as [Hin|Hout].
  - apply IH; [done| |by rewrite length_insert]. intros r Hr. apply Hq. by apply list_elem_of_further.
  - apply elem_of_cons in Hp as [->|?]; [|done]. rewrite slots_kept; [by apply list_lookup_insert_eq|].
    intros r Hr He. apply Hout. rewrite <- (Hq r); [done|by apply list_elem_of_further|done].
Qed.

(** The retained window covers the ring. *)
Definition prompt_ok (k : KvStore) : Prop :=
  Z.of_nat (length (rg_val (k_prompt_ring k))) = kc_layers (k_cfg k) * kc_window (k_cfg k) * kc_latent_dim (k_cfg k) /\
  Z.of_nat (length (rg_scale (k_prompt_ring k))) = kc_layers (k_cfg k) * kc_window (k_cfg k) * window_scales (k_cfg k).
Definition prompt_cell (k : KvStore) (x : Z * Z) : list Z * list Z := (prompt_val k x.1 x.2, prompt_scale k x.1 x.2).

Lemma prompt_cell_ok k x : kv_ok k -> prompt_ok k -> cell_in (k_cfg k) x -> cell_ok (k_cfg k) (x, prompt_cell k x).
Proof.
  intros Hk [Hv Hs] Hx. destruct (kd_latent _ (ko_dims k Hk)). pose proof (window_scales_pos _ (ko_dims k Hk)).
  destruct (cell_index_range k x Hx) as [Hi0 Hi1]. unfold cell_index in *. split_and!; [done| |]; cbn [fst snd prompt_cell]; unfold prompt_val, prompt_scale, chunk.
  - rewrite subspan_length by nia. lia.
  - rewrite subspan_length by nia. lia.
Qed.

Lemma slot_in k p : kv_ok k -> 0 <= p mod kc_window (k_cfg k) < kc_window (k_cfg k).
Proof. intros Hk. destruct (kd_window _ (ko_dims k Hk)). by apply Z.mod_pos_bound. Qed.

Lemma prompt_cells_elem k keep x : x ∈ prompt_cells k keep <->
  exists p l, p ∈ retained k keep /\ 0 <= l < kc_layers (k_cfg k) /\ x = ((l, p mod kc_window (k_cfg k)), prompt_cell k (l, p mod kc_window (k_cfg k))).
Proof.
  unfold prompt_cells. rewrite list_elem_of_fmap. split.
  - intros ([p l] & -> & [Hp Hl%upto_spec]%cells_elem). by exists p, l.
  - intros (p & l & Hp & Hl & ->). exists (p, l). split; [done|]. apply cells_elem. by rewrite upto_spec.
Qed.

Lemma retained_slot k keep p q : kv_ok k -> 0 <= keep < 2 ^ 32 -> p ∈ retained k keep -> q ∈ retained k keep ->
  p mod kc_window (k_cfg k) = q mod kc_window (k_cfg k) -> p = q.
Proof.
  intros Hk Hkeep [Hp _]%retained_spec [Hq _]%retained_spec He. pose proof (kd_window _ (ko_dims k Hk)) as Hw.
  destruct (prompt_lo_range k keep Hw Hkeep) as [_ Hlo]. apply (window_slots (k_cfg k) keep); [lia|done|lia|lia].
Qed.

Lemma prompt_cells_NoDup k keep : kv_ok k -> 0 <= keep < 2 ^ 32 -> NoDup (prompt_cells k keep).*1.
Proof.
  intros Hk Hkeep. unfold prompt_cells. rewrite <- list_fmap_compose. apply NoDup_fmap_2_strong.
  - intros [p l] [q m] [Hp _]%cells_elem [Hq _]%cells_elem He. injection He as -> He.
    cbn [fst snd] in *. f_equal. by apply (retained_slot k keep).
  - apply cells_NoDup; [apply retained_NoDup|apply upto_NoDup].
Qed.

(** What [recover_prompt_ring] leaves in the ring and in its record. *)
Lemma recovered k keep : kv_ok k -> prompt_ok k -> 0 <= keep < 2 ^ 32 -> let k' := recover_store keep k in
  (forall p l, p ∈ retained k keep -> 0 <= l < kc_layers (k_cfg k) ->
    ring_cell k' (l, p mod kc_window (k_cfg k)) = prompt_cell k (l, p mod kc_window (k_cfg k))) /\
  (forall l s, cell_in (k_cfg k) (l, s) -> (forall p, p ∈ retained k keep -> p mod kc_window (k_cfg k) <> s) ->
    ring_cell k' (l, s) = ring_cell k (l, s)) /\
  (forall p, p ∈ retained k keep -> nth (slot_index (kc_window (k_cfg k)) p) (k_slot_pos k') kSlotEmpty = p) /\
  (forall q, (forall p, p ∈ retained k keep -> slot_index (kc_window (k_cfg k)) p <> slot_index (kc_window (k_cfg k)) q) ->
    nth (slot_index (kc_window (k_cfg k)) q) (k_slot_pos k') kSlotEmpty = nth (slot_index (kc_window (k_cfg k)) q) (k_slot_pos k) kSlotEmpty).
Proof.
  intros Hk Hp Hkeep k'.
  assert (Hmem : forall x, ring_cell k' x = ring_cell (kv_writes k (mjoin (cell_writes k <$> prompt_cells k keep))) x).
  { intros x. unfold k', recover_store. rewrite <- recover_cells. cbn zeta. case_match; done. }
  assert (Hsp : k_slot_pos k' = foldl (fun sp p => <[slot_index (kc_window (k_cfg k)) p := p]> sp) (k_slot_pos k) (retained k keep)).
  { unfold k', recover_store. cbn zeta. case_match; done. }
  destruct (cells_written (prompt_cells k keep) k Hk) as (_ & Hin & Hout).
  { apply Forall_forall. intros x (p & l & _ & Hl & ->)%prompt_cells_elem. apply prompt_cell_ok; [done|done|]. split; [done|by apply slot_in]. }
  { by apply prompt_cells_NoDup. }
  split_and!.
  - intros p l Hpr Hl. rewrite Hmem. apply (Hin (_, prompt_cell k _)). apply prompt_cells_elem. by exists p, l.
  - intros l s Hls Hn. rewrite Hmem. apply Hout; [done|]. intros (x & He & (p & m & Hpr & _ & ->)%prompt_cells_elem)%list_elem_of_fmap.
    injection He as _ ->. by apply (Hn p).
  - intros p Hpr. rewrite nth_lookup, Hsp, slots_written; [done|done| |].
    + intros q Hq He. apply (retained_slot k keep); try done. unfold slot_index in He. pose proof (slot_in k p Hk). pose proof (slot_in k q Hk). lia.
    + pose proof (ko_slots k Hk). pose proof (slot_in k p Hk). unfold slot_index. lia.
  - intros q Hn. rewrite !nth_lookup, Hsp, slots_kept; done.
Qed.

(** The floor after a recovery: lowered to the window's start as soon as one row came back. *)
Lemma recover_floor k keep : k_win_lo (recover_store keep k) =
  if bool_decide (retained k keep = []) then k_win_lo k else Z.min (k_win_lo k) (prompt_lo k keep).
Proof. unfold recover_store. cbn zeta. by case_bool_decide. Qed.

Lemma recover_cfg k keep : k_cfg (recover_store keep k) = k_cfg k.
Proof. unfold recover_store. cbn zeta. by case_match. Qed.

Lemma ring_holds_spec k p : kv_ok k -> ring_holds k p = true <->
  k_win_lo k <= p /\ nth (slot_index (kc_window (k_cfg k)) p) (k_slot_pos k) kSlotEmpty = p.
Proof.
  intros Hk. unfold ring_holds. rewrite bool_decide_false, orb_false_l.
  - destruct (Z.ltb_spec p (k_win_lo k)); rewrite ?Z.eqb_eq; [split; [done|lia]|naive_solver].
  - intros Hn. pose proof (ko_slots k Hk) as Hs. rewrite Hn in Hs. pose proof (kd_window _ (ko_dims k Hk)). cbn in Hs. lia.
Qed.

(** The floor is lowered over positions that were not recovered.  After a recovery that
    restored at least one row, a position below the old floor that the prompt window does not
    retain counts as held if its slot was last marked with it, though every layer's bytes in
    that slot are the ones a replay had declared not rebuilt. *)
Theorem recover_counts_unrestored k keep p : kv_ok k -> prompt_ok k -> 0 <= keep < 2 ^ 32 ->
  retained k keep <> [] -> prompt_lo k keep <= p < keep -> p < k_win_lo k -> p ∉ retained k keep ->
  nth (slot_index (kc_window (k_cfg k)) p) (k_slot_pos k) kSlotEmpty = p ->
  let k' := recover_store keep k in
  ring_holds k p = false /\ ring_holds k' p = true /\
  forall l, 0 <= l < kc_layers (k_cfg k) -> ring_cell k' (l, p mod kc_window (k_cfg k)) = ring_cell k (l, p mod kc_window (k_cfg k)).
Proof.
  intros Hk Hpo Hkeep Hne Hp Hlo Hn Hs k'. pose proof (kd_window _ (ko_dims k Hk)) as Hw.
  destruct (prompt_lo_range k keep Hw Hkeep) as [_ Hplo]. destruct (recovered k keep Hk Hpo Hkeep) as (_ & Hcell & _ & Hslot).
  assert (Hother : forall q, q ∈ retained k keep -> q mod kc_window (k_cfg k) <> p mod kc_window (k_cfg k)).
  { intros q Hq He. apply Hn. replace p with q; [done|]. apply retained_spec in Hq as [Hq _].
    apply (window_slots (k_cfg k) keep); [lia|done|lia|lia]. }
  split_and!.
  - apply not_true_is_false. rewrite ring_holds_spec by done. lia.
  - pose proof (recover_like k keep k (like_refl k Hk)) as [Hk' _]. fold k' in Hk'.
    apply ring_holds_spec; [done|]. unfold k' in *. rewrite recover_cfg, recover_floor, bool_decide_false by done. split; [lia|].
    rewrite Hslot; [done|]. intros q Hq He. apply (Hother q Hq). unfold slot_index in He. pose proof (slot_in k p Hk). pose proof (slot_in k q Hk). lia.
  - intros l Hl. apply Hcell; [|done]. split; [done|by apply slot_in].
Qed.

Lemma cells_lookup (ls slots : list Z) i j l s w : length slots = w -> ls !! i = Some l -> slots !! j = Some s ->
  cells ls slots !! (i * w + j)%nat = Some (l, s).
Proof.
  intros Hw. revert i. unfold cells. induction ls as [|l0 ls IH]; intros i Hl Hs; [done|]. cbn [fmap list_fmap].
  change (mjoin (?x :: ?y)) with (x ++ mjoin y). pose proof (lookup_lt_Some _ _ _ Hs). destruct i as [|i]; cbn in Hl.
  - injection Hl as <-. rewrite lookup_app_l by (rewrite length_fmap; lia). cbn. by rewrite list_lookup_fmap, Hs.
  - rewrite lookup_app_r by (rewrite length_fmap; lia). rewrite length_fmap. rewrite <- (IH i Hl Hs). f_equal. lia.
Qed.

Lemma upto_cells k : Forall (cell_in (k_cfg k)) (cells (upto (kc_layers (k_cfg k))) (upto (kc_window (k_cfg k)))).
Proof. apply Forall_forall. intros x [Hl%upto_spec Hs%upto_spec]%cells_elem. done. Qed.

Lemma upto_cells_length n m : length (cells (upto n) (upto m)) = (Z.to_nat n * Z.to_nat m)%nat.
Proof.
  unfold cells. rewrite (join_length _ (Z.to_nat m)); [by rewrite length_fmap, upto_length|].
  apply Forall_fmap, Forall_forall. intros l _. cbn. by rewrite length_fmap, upto_length.
Qed.

Lemma joined_length {X} (f : X -> list Z) (xs : list X) d n m : length xs = (Z.to_nat n * Z.to_nat m)%nat -> 0 <= n -> 0 <= m -> 0 <= d ->
  (forall x, x ∈ xs -> Z.of_nat (length (f x)) = d) -> Z.of_nat (length (mjoin (f <$> xs))) = n * m * d.
Proof.
  intros Hl Hn Hm Hd Hf. rewrite (join_length _ (Z.to_nat d)).
  - rewrite length_fmap, Hl. nia.
  - apply Forall_fmap, Forall_forall. intros x Hx. cbn. rewrite <- (Hf x Hx). lia.
Qed.

(** What [retain_prompt_ring] keeps is the ring as it stands. *)
Lemma retained_cells k n k' (a a' : A) : kv_ok k -> retain_prompt_ring n (a, k) = (Ret tt, (a', k')) ->
  k_cfg k' = k_cfg k /\ prompt_ok k' /\ has_prompt_ring k' = true /\
  (forall k2 x, k_cfg k2 = k_cfg k -> k_prompt_ring k2 = k_prompt_ring k' -> cell_in (k_cfg k) x -> prompt_cell k2 x = ring_cell k x) /\
  forall keep p, 0 <= keep < 2 ^ 32 -> p ∈ retained k' keep -> ring_holds (resolve_ring_store n k) p = true.
Proof.
  intros Hk. unfold retain_prompt_ring, resolve_ring, km_update, km_get, km_of, mbind, KM_bind. cbn [snd fst].
  set (k0 := resolve_ring_store n k).
  assert (Hk0 : kv_ok k0) by (apply slots_ok; [done|by rewrite length_imap]).
  destruct (snapshot_ring k0 _ _) as [s|e] eqn:E; [|done]. intros <-%km_store. revert E. unfold snapshot_ring.
  intros ([] & _ & ([] & _ & ([] & _ & ([] & _ & [= <-])%bind_Ret)%bind_Ret)%bind_Ret)%bind_Ret.
  change (k_cfg k0) with (k_cfg k) in *. set (cs := cells (upto (kc_layers (k_cfg k))) (upto (kc_window (k_cfg k)))).
  pose proof (upto_cells k) as Hcs. fold cs in Hcs. pose proof Hcs as Hcs'. rewrite Forall_forall in Hcs'. destruct (kd_latent _ (ko_dims k Hk)) as [Hd _]. pose proof (window_scales_pos _ (ko_dims k Hk)) as Hsc.
  pose proof (kd_window _ (ko_dims k Hk)) as Hw.
  assert (Hlen : length cs = (Z.to_nat (kc_layers (k_cfg k)) * Z.to_nat (kc_window (k_cfg k)))%nat) by apply upto_cells_length.
  split_and!; [done| | | |].
  - pose proof (kd_layers _ (ko_dims k Hk)) as [Hl0 _].
    assert (Hw0 : 0 <= kc_window (k_cfg k)) by lia. assert (Hd0 : 0 <= kc_latent_dim (k_cfg k)) by lia. assert (Hs0 : 0 <= window_scales (k_cfg k)) by lia.
    split; cbn [k_prompt_ring rg_val rg_scale].
    + apply joined_length; [exact Hlen|exact Hl0|exact Hw0|exact Hd0|]. intros x Hx. exact (ring_val_length k Hk x (Hcs' x Hx)).
    + apply joined_length; [exact Hlen|exact Hl0|exact Hw0|exact Hs0|]. intros x Hx. exact (ring_scale_length k Hk x (Hcs' x Hx)).
  - unfold has_prompt_ring. apply Z.eqb_eq. transitivity (len_Z (k_slot_pos k0)); [|exact (ko_slots k0 Hk0)]. unfold len_Z. f_equal. apply length_fmap.
  - intros k2 [l s] Hc2 Hr2 [Hl Hs]. cbn [fst snd] in *.
    assert (Hat : cs !! (Z.to_nat l * Z.to_nat (kc_window (k_cfg k)) + Z.to_nat s)%nat = Some (l, s)).
    { apply cells_lookup; [apply upto_length|rewrite upto_lookup by lia; f_equal; lia|rewrite upto_lookup by lia; f_equal; lia]. }
    assert (Hi : l * kc_window (k_cfg k) + s = Z.of_nat (Z.to_nat l * Z.to_nat (kc_window (k_cfg k)) + Z.to_nat s)) by lia.
    unfold prompt_cell, prompt_val, prompt_scale, ring_cell. rewrite Hc2, Hr2. cbn [fst snd k_prompt_ring rg_val rg_scale]. rewrite Hi. f_equal.
    + apply (chunk_join (fun x => ring_val k x.1 x.2) cs _ _ (l, s)); [lia| |done]. intros x Hx. by apply ring_val_length, Hcs'.
    + apply (chunk_join (fun x => ring_scale k x.1 x.2) cs _ _ (l, s)); [lia| |done]. intros x Hx. by apply ring_scale_length, Hcs'.
  - intros keep p Hkeep [Hr Hn]%retained_spec. apply ring_holds_spec; [done|].
    destruct (prompt_lo_range k keep Hw Hkeep) as [Hp0 _]. change (prompt_lo _ keep) with (prompt_lo k keep) in Hr.
    assert (Hn' : nth (slot_index (kc_window (k_cfg k)) p) ((fun p => if (0 <=? p) && (p <? k_win_lo k0) then kSlotEmpty else p) <$> k_slot_pos k0)
      kSlotEmpty = p) by exact Hn.
    clear Hn. change (k_win_lo k0) with (k_win_lo k) in *. change (k_cfg k0) with (k_cfg k). rewrite nth_lookup, list_lookup_fmap in Hn'. rewrite nth_lookup.
    destruct (k_slot_pos k0 !! _) as [q|]; cbn [fmap option_fmap option_map default from_option id] in *; unfold kSlotEmpty in Hn'; [|lia].
    destruct (Z.leb_spec 0 q), (Z.ltb_spec q (k_win_lo k)); cbn [andb] in Hn'; lia.
Qed.

Lemma differing_refl l : differing l l = 0.
Proof.
  unfold differing. assert (Hf : filter (fun xy : Z * Z => xy.1 <> xy.2) (zip l l) = []); [|by rewrite Hf].
  induction l as [|x l IH]; [done|]. cbn [zip zip_with]. by rewrite filter_cons_False by (cbn; tauto).
Qed.

Lemma no_difference k keep : (forall p l, p ∈ retained k keep -> 0 <= l < kc_layers (k_cfg k) ->
    ring_cell k (l, p mod kc_window (k_cfg k)) = prompt_cell k (l, p mod kc_window (k_cfg k))) ->
  compare_prompt_ring k keep = no_ring_diff.
Proof.
  intros Hc. unfold compare_prompt_ring. destruct (negb _); [done|].
  assert (Hin : forall pl, pl ∈ cells (retained k keep) (upto (kc_layers (k_cfg k))) ->
    ring_cell k (pl.2, pl.1 mod kc_window (k_cfg k)) = prompt_cell k (pl.2, pl.1 mod kc_window (k_cfg k))).
  { intros [p l] [Hp Hl%upto_spec]%cells_elem. by apply Hc. }
  generalize no_ring_diff. induction (cells _ _) as [|[p l] cs IH]; intros acc; [done|]. cbn [foldl].
  specialize (Hin (p, l) (list_elem_of_here _ _)) as Hpl. injection Hpl as Hv Hs. cbn [fst snd] in Hv, Hs.
  rewrite Hv, Hs, !differing_refl. cbn. apply IH. intros pl Hin'. apply Hin. by apply list_elem_of_further.
Qed.

(** C29: The prompt window is recovered exactly.  Whatever happened to the store in between (as
    long as the retained copy is still there), after [recover_prompt_ring] every retained
    position's slot holds, in every layer, the values and scales it held when the window was
    retained, is recorded and counts as held, the count answered is the number of positions
    restored, and [compare_prompt_ring] finds no difference.  The positions a fresh retention
    keeps are positions the ring held. *)
Theorem prompt_window_recovered k n k1 (a a1 : A) k2 (a2 : A) keep : kv_ok k -> retain_prompt_ring n (a, k) = (Ret tt, (a1, k1)) ->
  kv_ok k2 -> k_cfg k2 = k_cfg k -> k_prompt_ring k2 = k_prompt_ring k1 -> has_prompt_ring k2 = true -> 0 <= keep < 2 ^ 32 ->
  exists k3, recover_prompt_ring keep (a2, k2) = (Ret (len_Z (retained k2 keep)), (a2, k3)) /\ kv_ok k3 /\
    (forall p l, p ∈ retained k2 keep -> 0 <= l < kc_layers (k_cfg k) ->
       ring_cell k3 (l, p mod kc_window (k_cfg k)) = ring_cell k (l, p mod kc_window (k_cfg k))) /\
    (forall p, p ∈ retained k2 keep -> ring_holds k3 p = true) /\
    compare_prompt_ring k3 keep = no_ring_diff /\
    (forall p, p ∈ retained k1 keep -> ring_holds (resolve_ring_store n k) p = true).
Proof.
  intros Hk Hret Hk2 Hc2 Hr2 Hh2 Hkeep. destruct (retained_cells k n k1 a a1 Hk Hret) as (Hc1 & Hpo1 & _ & Hcell & Hheld).
  assert (Hpo : prompt_ok k2) by (unfold prompt_ok in *; by rewrite Hc2, Hr2, <- Hc1).
  destruct (recovered k2 keep Hk2 Hpo Hkeep) as (Hrec & _ & Hslot & _). set (k3 := recover_store keep k2) in *.
  pose proof (like_ok _ _ (recover_like k2 keep k2 (like_refl k2 Hk2))) as Hk3. fold k3 in Hk3.
  assert (Hc3 : k_cfg k3 = k_cfg k2) by apply recover_cfg.
  assert (Hps : k_prompt_ring k3 = k_prompt_ring k2 /\ k_prompt_slot_pos k3 = k_prompt_slot_pos k2)
    by (unfold k3, recover_store; cbn zeta; by case_match).
  assert (Hret3 : retained k3 keep = retained k2 keep) by (unfold retained, prompt_lo; by rewrite Hc3, (proj2 Hps)).
  assert (Hback : forall p l, p ∈ retained k2 keep -> 0 <= l < kc_layers (k_cfg k) ->
    ring_cell k3 (l, p mod kc_window (k_cfg k)) = prompt_cell k2 (l, p mod kc_window (k_cfg k))).
  { intros p l Hp Hl. rewrite <- Hc2 in *. by apply Hrec. }
  exists k3. split_and!; [|done| | | |].
  - unfold recover_prompt_ring. by rewrite Hh2.
  - intros p l Hp Hl. rewrite Hback by done. apply Hcell; [done|done|]. split; [done|]. by apply slot_in.
  - intros p Hp. apply ring_holds_spec; [done|]. rewrite Hc3. split; [|by apply Hslot].
    unfold k3. rewrite recover_floor, bool_decide_false.
    + apply retained_spec in Hp as [Hp _]. lia.
    + intros Hn. rewrite Hn in Hp. by apply elem_of_nil in Hp.
  - apply no_difference. intros p l Hp Hl. rewrite Hret3, Hc3, Hc2 in *. rewrite Hback by done.
    unfold prompt_cell, prompt_val, prompt_scale. by rewrite (proj1 Hps), ?Hc3, ?Hc2.
  - intros p Hp. by apply (Hheld keep).
Qed.
End Prompt.

(** ** The window a decode step lists *)

(** The window oldest first, as the ring slots of its positions; minus one for a position
    before the sequence or below the floor. *)
Definition window_of (w lo position : Z) : list Z :=
  (fun i => let pos := position - (w - 1) + i in if (pos <? 0) || (pos <? lo) then u32 (-1) else pos mod w) <$> upto w.

Lemma window_list_of w lo position : 0 < w -> window_list w lo position = window_of w lo position.
Proof.
  intros Hw. apply list_fmap_ext. intros j i _. unfold window_entry. cbn zeta.
  replace (position - (w - 1 - i)) with (position - (w - 1) + i) by lia. case_match; [done|].
  replace (position mod w + 1 + i) with (position mod w + (1 + i)) by lia. rewrite Z.add_mod_idemp_l by lia.
  replace (position - (w - 1) + i) with (position + (1 + i) + (-1) * w) by lia. by rewrite Z.mod_add by lia.
Qed.

Lemma km_bind_Ret {A T U} (m : KM (A:=A) T) (f : T -> KM (A:=A) U) s y s' : (m ≫= f) s = (Ret y, s') ->
  exists x s1, m s = (Ret x, s1) /\ f x s1 = (Ret y, s').
Proof. unfold mbind, KM_bind. destruct (m s) as [[x|e] s1]; [|done]. intros Hf. by exists x, s1. Qed.

Section Decode.
Context {A : Type} `{Hal : MemoryAllocatorOk A}.

Lemma keeps_run {T} (m : KM (A:=A) T) k a x a' k' : keeps m -> kv_ok k -> m (a, k) = (Ret x, (a', k')) -> like k k'.
Proof. intros Hm Hk Hr. exact (Hm k a k (Ret x) a' k' (like_refl k Hk) Hr). Qed.

Lemma set_counts_sets l n m (a : A) k a' k' : 0 <= l ->
  set_counts l n m (a, k) = (Ret tt, (a', k')) -> nth (Z.to_nat l) (k_n_cmp k') 0 = n /\ nth (Z.to_nat l) (k_n_kv k') 0 = m.
Proof.
  intros Hl Hrun. do 4 (apply km_bind_Ret in Hrun as (? & [? ?] & _ & Hrun)). apply km_bind_Ret in Hrun as (? & [a4 k4] & Hc & Hv).
  revert Hc Hv. unfold set_n_cmp, set_n_kv, set_at.
  match goal with |- context [l <? len_Z (k_n_cmp ?k)] => destruct (Z.ltb_spec l (len_Z (k_n_cmp k))) as [Hlc|]; [|done] end.
  intros [= _ _ <-]. match goal with |- context [l <? ?n] => destruct (Z.ltb_spec l n) as [Hlv|]; [|done] end.
  intros [= _ <-]. unfold len_Z in *. cbn in *. rewrite !nth_lookup, !list_lookup_insert_eq by lia. done.
Qed.

Lemma layer_top l (a : A) k v a' k' : layer l (a, k) = (Ret v, (a', k')) ->
  (a', k') = (a, k) /\ v_top_idx_host v = host_at (k_lay k) (l_top (k_lay k) + l * (topk_rows (k_cfg k) * 4)).
Proof.
  unfold layer, km_get, km_of, mbind, KM_bind. cbn [snd]. destruct (layer_view k l) as [v'|] eqn:E; [|done]. intros [= <- <- <-]. split; [done|].
  unfold layer_view in E. apply bind_Ret in E as ([] & _ & E). by apply bind_Ret in E as ([] & _ & [= <-]).
Qed.

(** C30: A decode step lists the window of its position, oldest first: entry [i] is the slot of
    position [position - (window - 1) + i], or minus one when that position precedes the
    sequence or lies below the floor.  The list stands in GPU memory at the layer's place, its
    last entry is the step's own slot, which the ring now holds, and the layer's counters are set. *)
Theorem decode_step_lists_window l position n_cmp n_sel (a : A) k a' k' : kv_ok k -> 0 <= l < kc_layers (k_cfg k) ->
  0 <= n_cmp < 2 ^ 32 -> kc_window (k_cfg k) <= topk_rows (k_cfg k) -> k_win_lo k' <= position ->
  set_decode_topk l position n_cmp n_sel (a, k) = (Ret tt, (a', k')) ->
  let w := kc_window (k_cfg k) in
  kv_ok k' /\
  kv_read k' (l_top (k_lay k') + l * (topk_rows (k_cfg k) * 4)) (w * 4) = to_bytes 4 (window_of w (k_win_lo k') position) /\
  ring_holds k' position = true /\
  nth (Z.to_nat l) (k_n_cmp k') 0 = n_cmp /\ nth (Z.to_nat l) (k_n_kv k') 0 = u32 (w + n_sel).
Proof.
  intros Hk Hl Hn Hrows Hlo Hrun w. apply km_bind_Ret in Hrun as ([] & [a0 k0] & Hg & Hrun). injection Hg as _ <- <-.
  apply km_bind_Ret in Hrun as ([] & [a1 k1] & Hres & Hrun).
  pose proof (keeps_run _ _ _ _ _ _ (reserve_keeps_ok (u32 (position + 1))) Hk Hres) as [Hk1 (Hc1 & _)].
  apply km_bind_Ret in Hrun as (k1' & s1 & Hget & Hrun). injection Hget as <- <-. cbn [snd] in Hrun.
  apply km_bind_Ret in Hrun as ([] & [a2 k2] & Hcnt & Hrun).
  pose proof (keeps_run _ _ _ _ _ _ (set_counts_keeps l n_cmp _ (proj1 Hl) Hn) Hk1 Hcnt) as [Hk2 (Hc2 & _)].
  destruct (set_counts_sets l n_cmp _ a1 k1 a2 k2 (proj1 Hl) Hcnt) as [Hcmp Hkv].
  apply km_bind_Ret in Hrun as (v & [a3 k3] & Hlay & Hrun).
  apply layer_top in Hlay as (Hk3 & Htop). injection Hk3 as -> ->.
  rewrite Hc1 in *. fold w in Hrun, Hkv. apply km_bind_Ret in Hrun as ([] & [a3 k3] & Hup & Hrun). injection Hup as <- Hk3.
  assert (Hok3 : kv_ok k3) by (rewrite <- Hk3; apply slots_ok; [done|by rewrite length_insert]).
  assert (Hc3 : k_cfg k3 = k_cfg k) by (by rewrite <- Hk3). set (d := l * (topk_rows (k_cfg k) * 4)).
  apply km_bind_Ret in Hrun as (k3' & s3 & Hget & Hrun). injection Hget as <- <-. cbn [snd] in Hrun.
  set (bs := to_bytes 4 (window_list w (k_win_lo k3) position)) in *.
  assert (Heq : kv_writes k3 [(l_top (k_lay k3) + d, bs)] = k').
  { rewrite Htop, Hc2 in Hrun. apply km_store in Hrun. rewrite <- Hrun. replace (k_lay k2) with (k_lay k3) by (by rewrite <- Hk3). done. }
  clear Hrun. pose proof (kd_window _ (ko_dims k Hk)) as Hw. fold w in Hw.
  assert (Hbs : Z.of_nat (length bs) = w * 4).
  { unfold bs, window_list. rewrite to_bytes_length, length_fmap, upto_length. lia. }
  assert (Hin : inside (k_cfg k3) (k_owners k3) (k_cap k3) RTop d (w * 4)).
  { unfold inside. rewrite Hc3. split_and!; cbn [region_in region_bytes]; [done|unfold d; nia|lia|]. unfold d. nia. }
  assert (Hok : kv_ok k') by (rewrite <- Heq; apply bufs_ok; [done|apply mem_writes_maps, Hok3]).
  assert (Hc' : k_cfg k' = k_cfg k) by (by rewrite <- Heq, <- Hc3).
  split_and!; [done| | | |].
  - rewrite <- window_list_of by lia. rewrite <- Heq. change (k_win_lo _) with (k_win_lo k3). fold bs.
    pose proof (kv_written_back k3 [] (RTop, d, bs) [] Hok3) as Hw'. cbn [fst snd] in Hw'. rewrite Hbs in Hw'. apply Hw'; [|constructor].
    apply Forall_singleton. unfold kv_inside, rw_inside. cbn [fst snd]. by rewrite Hbs.
  - apply ring_holds_spec; [done|]. split; [done|]. rewrite Hc'. fold w. rewrite <- Heq.
    change (k_slot_pos _) with (k_slot_pos k3). rewrite <- Hk3. cbn. rewrite nth_lookup, list_lookup_insert_eq; [done|].
    pose proof (ko_slots k2 Hk2) as Hs. rewrite Hc2 in Hs. fold w in Hs. pose proof (Z.mod_pos_bound position w). unfold slot_index. lia.
  - rewrite <- Heq, <- Hk3. exact Hcmp.
  - rewrite <- Heq, <- Hk3. exact Hkv.
Qed.
End Decode.

(** ** Examples *)

(** Positions 0 to 5 through a ring of four slots, of which a replay from 4 rebuilt two. *)
Definition ring_ops : list KvOp :=
  [OpSeedWindow 0 (replicate 128 (S754_finite false 8388608 (-22))) 2; OpMarkRing 0 6; OpWindowFloor 4].
Definition kv_ring : Z * KvStore := run_ops ring_ops kv_new.
Definition kv_kept : Z * KvStore := run_ops [OpRetainPrompt 6] kv_ring.

Lemma kv_ring_ok : kv_ok kv_ring.2.
Proof. unfold kv_ring. pose proof kv_new_ok as Hk. destruct kv_new as [a k]. apply store_ops_ok; [exact Hk|]. repeat constructor. Qed.
Lemma kv_kept_ok : kv_ok kv_kept.2.
Proof. unfold kv_kept. pose proof kv_ring_ok as Hk. destruct kv_ring as [a k]. apply store_ops_ok; [exact Hk|]. repeat constructor. Qed.
Lemma kv_kept_run : retain_prompt_ring 6 kv_ring = (Ret tt, kv_kept).
Proof. by vm_compute. Qed.

Lemma slots01 : NoDup [0; 1].
Proof. by apply (bool_decide_unpack _). Qed.

Lemma ring_restored_witness : exists s k3, snapshot_ring kv_ring.2 [0; 1] [0; 1] = Ret s /\
  restore_ring s (kv_new.1, kv_new.2) = (Ret tt, (kv_new.1, k3)) /\ ring_cell k3 (0, 1) = ring_cell kv_ring.2 (0, 1) /\
  ring_cell kv_ring.2 (0, 1) <> ring_cell kv_new.2 (0, 1).
Proof.
  destruct (snapshot_ring kv_ring.2 [0; 1] [0; 1]) as [s|e] eqn:E; [|exfalso; revert E; clear; by vm_compute].
  destruct (ring_restored kv_ring.2 kv_new.2 [0; 1] [0; 1] s kv_new.1) as (k3 & Hrun & _ & Hin & _).
  - exact kv_ring_ok.
  - exact kv_new_ok.
  - clear. by vm_compute.
  - exact slots01.
  - exact slots01.
  - repeat constructor; lia.
  - repeat constructor; lia.
  - exact E.
  - exists s, k3. split_and!; [done|exact Hrun|apply Hin; clear; set_solver|clear; by vm_compute].
Defined.

Lemma recover_counts_unrestored_witness :
  retained kv_kept.2 6 = [4; 5] /\ ring_holds kv_kept.2 3 = false /\ ring_holds (recover_store 6 kv_kept.2) 3 = true.
Proof.
  assert (Hr : retained kv_kept.2 6 = [4; 5]) by (clear; by vm_compute). split; [done|].
  destruct (recover_counts_unrestored kv_kept.2 6 3) as (H1 & H2 & _).
  - exact kv_kept_ok.
  - clear. by vm_compute.
  - clear. lia.
  - by rewrite Hr.
  - assert (Hlo : prompt_lo kv_kept.2 6 = 3) by (clear; by vm_compute). rewrite Hlo. clear. lia.
  - clear. by vm_compute.
  - rewrite Hr. clear. set_solver.
  - clear. by vm_compute.
  - by split.
Defined.

Lemma prompt_window_recovered_witness : exists k3,
  recover_prompt_ring 6 (kv_kept.1, clear_store kv_kept.2) = (Ret 0, (kv_kept.1, clear_store kv_kept.2)) /\
  recover_prompt_ring 6 (kv_kept.1, (run_ops [OpSeedTopk 0 [1] 1; OpMarkRing 6 3] kv_kept).2) = (Ret 2, (kv_kept.1, k3)) /\
  ring_holds k3 5 = true /\ ring_cell k3 (0, 1) = ring_cell kv_ring.2 (0, 1).
Proof.
  set (k2 := (run_ops [OpSeedTopk 0 [1] 1; OpMarkRing 6 3] kv_kept).2).
  destruct (prompt_window_recovered kv_ring.2 6 kv_kept.2 kv_ring.1 kv_kept.1 k2 kv_kept.1 6) as (k3 & Hrun & _ & Hcell & Hhold & _).
  - exact kv_ring_ok.
  - rewrite <- !surjective_pairing. exact kv_kept_run.
  - unfold k2. pose proof kv_kept_ok as Hk. destruct kv_kept as [a k]. apply store_ops_ok; [exact Hk|]. repeat constructor.
  - clear. by vm_compute.
  - clear. by vm_compute.
  - clear. by vm_compute.
  - lia.
  - assert (Hr : retained k2 6 = [4; 5]) by (clear; by vm_compute). rewrite Hr in *.
    exists k3. split_and!; [clear; by vm_compute|exact Hrun|apply Hhold; clear; set_solver|].
    exact (Hcell 5 0 ltac:(clear; set_solver) ltac:(clear; by vm_compute)).
Defined.

Lemma decode_step_lists_window_witness : exists k', set_decode_topk 1 5 3 2 kv_ring = (Ret tt, (kv_ring.1, k')) /\
  kv_read k' (l_top (k_lay k') + 1 * (topk_rows kv_shared * 4)) 16 = to_bytes 4 [2 ^ 32 - 1; 2 ^ 32 - 1; 0; 1] /\ ring_holds k' 5 = true.
Proof.
  assert (Hrun : exists k', set_decode_topk 1 5 3 2 kv_ring = (Ret tt, (kv_ring.1, k')) /\ k_win_lo k' = 4).
  { exists (set_decode_topk 1 5 3 2 kv_ring).2.2. split; vm_compute; reflexivity. }
  destruct Hrun as (k' & Hrun & Hlo). exists k'. split; [exact Hrun|].
  destruct (decode_step_lists_window 1 5 3 2 kv_ring.1 kv_ring.2 kv_ring.1 k') as (_ & Hl & Hh & _).
  - exact kv_ring_ok.
  - clear. by vm_compute.
  - clear. lia.
  - clear. by vm_compute.
  - rewrite Hlo. clear. lia.
  - destruct kv_ring. exact Hrun.
  - rewrite Hlo in Hl. split; [exact Hl|exact Hh].
Defined.
