(* ===== verification/Unicode.v ===== *)
(** The character classes of the pre-tokenizer ([src/text/unicode_tables.inc], the tables HF's
    own regex engine answers for): inclusive ranges of code points, sorted. *)

From S2P Require Import Prelude.

Definition kClassN : list (Z * Z) := [
  (0x30, 0x39); (0xB2, 0xB3); (0xB9, 0xB9); (0xBC, 0xBE); (0x660, 0x669); (0x6F0, 0x6F9);
  (0x7C0, 0x7C9); (0x966, 0x96F); (0x9E6, 0x9EF); (0x9F4, 0x9F9); (0xA66, 0xA6F); (0xAE6, 0xAEF);
  (0xB66, 0xB6F); (0xB72, 0xB77); (0xBE6, 0xBF2); (0xC66, 0xC6F); (0xC78, 0xC7E); (0xCE6, 0xCEF);
  (0xD58, 0xD5E); (0xD66, 0xD78); (0xDE6, 0xDEF); (0xE50, 0xE59); (0xED0, 0xED9); (0xF20, 0xF33);
  (0x1040, 0x1049); (0x1090, 0x1099); (0x1369, 0x137C); (0x16EE, 0x16F0); (0x17E0, 0x17E9);
  (0x17F0, 0x17F9); (0x1810, 0x1819); (0x1946, 0x194F); (0x19D0, 0x19DA); (0x1A80, 0x1A89);
  (0x1A90, 0x1A99); (0x1B50, 0x1B59); (0x1BB0, 0x1BB9); (0x1C40, 0x1C49); (0x1C50, 0x1C59);
  (0x2070, 0x2070); (0x2074, 0x2079); (0x2080, 0x2089); (0x2150, 0x2182); (0x2185, 0x2189);
  (0x2460, 0x249B); (0x24EA, 0x24FF); (0x2776, 0x2793); (0x2CFD, 0x2CFD); (0x3007, 0x3007);
  (0x3021, 0x3029); (0x3038, 0x303A); (0x3192, 0x3195); (0x3220, 0x3229); (0x3248, 0x324F);
  (0x3251, 0x325F); (0x3280, 0x3289); (0x32B1, 0x32BF); (0xA620, 0xA629); (0xA6E6, 0xA6EF);
  (0xA830, 0xA835); (0xA8D0, 0xA8D9); (0xA900, 0xA909); (0xA9D0, 0xA9D9); (0xA9F0, 0xA9F9);
  (0xAA50, 0xAA59); (0xABF0, 0xABF9); (0xFF10, 0xFF19); (0x10107, 0x10133); (0x10140, 0x10178);
  (0x1018A, 0x1018B); (0x102E1, 0x102FB); (0x10320, 0x10323); (0x10341, 0x10341);
  (0x1034A, 0x1034A); (0x103D1, 0x103D5); (0x104A0, 0x104A9); (0x10858, 0x1085F);
  (0x10879, 0x1087F); (0x108A7, 0x108AF); (0x108FB, 0x108FF); (0x10916, 0x1091B);
  (0x109BC, 0x109BD); (0x109C0, 0x109CF); (0x109D2, 0x109FF); (0x10A40, 0x10A48);
  (0x10A7D, 0x10A7E); (0x10A9D, 0x10A9F); (0x10AEB, 0x10AEF); (0x10B58, 0x10B5F);
  (0x10B78, 0x10B7F); (0x10BA9, 0x10BAF); (0x10CFA, 0x10CFF); (0x10D30, 0x10D39);
  (0x10D40, 0x10D49); (0x10E60, 0x10E7E); (0x10F1D, 0x10F26); (0x10F51, 0x10F54);
  (0x10FC5, 0x10FCB); (0x11052, 0x1106F); (0x110F0, 0x110F9); (0x11136, 0x1113F);
  (0x111D0, 0x111D9); (0x111E1, 0x111F4); (0x112F0, 0x112F9); (0x11450, 0x11459);
  (0x114D0, 0x114D9); (0x11650, 0x11659); (0x116C0, 0x116C9); (0x116D0, 0x116E3);
  (0x11730, 0x1173B); (0x118E0, 0x118F2); (0x11950, 0x11959); (0x11BF0, 0x11BF9);
  (0x11C50, 0x11C6C); (0x11D50, 0x11D59); (0x11DA0, 0x11DA9); (0x11F50, 0x11F59);
  (0x11FC0, 0x11FD4); (0x12400, 0x1246E); (0x16130, 0x16139); (0x16A60, 0x16A69);
  (0x16AC0, 0x16AC9); (0x16B50, 0x16B59); (0x16B5B, 0x16B61); (0x16D70, 0x16D79);
  (0x16E80, 0x16E96); (0x1CCF0, 0x1CCF9); (0x1D2C0, 0x1D2D3); (0x1D2E0, 0x1D2F3);
  (0x1D360, 0x1D378); (0x1D7CE, 0x1D7FF); (0x1E140, 0x1E149); (0x1E2F0, 0x1E2F9);
  (0x1E4F0, 0x1E4F9); (0x1E5F1, 0x1E5FA); (0x1E8C7, 0x1E8CF); (0x1E950, 0x1E959);
  (0x1EC71, 0x1ECAB); (0x1ECAD, 0x1ECAF); (0x1ECB1, 0x1ECB4); (0x1ED01, 0x1ED2D);
  (0x1ED2F, 0x1ED3D); (0x1F100, 0x1F10C); (0x1FBF0, 0x1FBF9)].

Definition kClassL : list (Z * Z) := [
  (0x41, 0x5A); (0x61, 0x7A); (0xAA, 0xAA); (0xB5, 0xB5); (0xBA, 0xBA); (0xC0, 0xD6); (0xD8, 0xF6);
  (0xF8, 0x2C1); (0x2C6, 0x2D1); (0x2E0, 0x2E4); (0x2EC, 0x2EC); (0x2EE, 0x2EE); (0x370, 0x374);
  (0x376, 0x377); (0x37A, 0x37D); (0x37F, 0x37F); (0x386, 0x386); (0x388, 0x38A); (0x38C, 0x38C);
  (0x38E, 0x3A1); (0x3A3, 0x3F5); (0x3F7, 0x481); (0x48A, 0x52F); (0x531, 0x556); (0x559, 0x559);
  (0x560, 0x588); (0x5D0, 0x5EA); (0x5EF, 0x5F2); (0x620, 0x64A); (0x66E, 0x66F); (0x671, 0x6D3);
  (0x6D5, 0x6D5); (0x6E5, 0x6E6); (0x6EE, 0x6EF); (0x6FA, 0x6FC); (0x6FF, 0x6FF); (0x710, 0x710);
  (0x712, 0x72F); (0x74D, 0x7A5); (0x7B1, 0x7B1); (0x7CA, 0x7EA); (0x7F4, 0x7F5); (0x7FA, 0x7FA);
  (0x800, 0x815); (0x81A, 0x81A); (0x824, 0x824); (0x828, 0x828); (0x840, 0x858); (0x860, 0x86A);
  (0x870, 0x887); (0x889, 0x88E); (0x8A0, 0x8C9); (0x904, 0x939); (0x93D, 0x93D); (0x950, 0x950);
  (0x958, 0x961); (0x971, 0x980); (0x985, 0x98C); (0x98F, 0x990); (0x993, 0x9A8); (0x9AA, 0x9B0);
  (0x9B2, 0x9B2); (0x9B6, 0x9B9); (0x9BD, 0x9BD); (0x9CE, 0x9CE); (0x9DC, 0x9DD); (0x9DF, 0x9E1);
  (0x9F0, 0x9F1); (0x9FC, 0x9FC); (0xA05, 0xA0A); (0xA0F, 0xA10); (0xA13, 0xA28); (0xA2A, 0xA30);
  (0xA32, 0xA33); (0xA35, 0xA36); (0xA38, 0xA39); (0xA59, 0xA5C); (0xA5E, 0xA5E); (0xA72, 0xA74);
  (0xA85, 0xA8D); (0xA8F, 0xA91); (0xA93, 0xAA8); (0xAAA, 0xAB0); (0xAB2, 0xAB3); (0xAB5, 0xAB9);
  (0xABD, 0xABD); (0xAD0, 0xAD0); (0xAE0, 0xAE1); (0xAF9, 0xAF9); (0xB05, 0xB0C); (0xB0F, 0xB10);
  (0xB13, 0xB28); (0xB2A, 0xB30); (0xB32, 0xB33); (0xB35, 0xB39); (0xB3D, 0xB3D); (0xB5C, 0xB5D);
  (0xB5F, 0xB61); (0xB71, 0xB71); (0xB83, 0xB83); (0xB85, 0xB8A); (0xB8E, 0xB90); (0xB92, 0xB95);
  (0xB99, 0xB9A); (0xB9C, 0xB9C); (0xB9E, 0xB9F); (0xBA3, 0xBA4); (0xBA8, 0xBAA); (0xBAE, 0xBB9);
  (0xBD0, 0xBD0); (0xC05, 0xC0C); (0xC0E, 0xC10); (0xC12, 0xC28); (0xC2A, 0xC39); (0xC3D, 0xC3D);
  (0xC58, 0xC5A); (0xC5D, 0xC5D); (0xC60, 0xC61); (0xC80, 0xC80); (0xC85, 0xC8C); (0xC8E, 0xC90);
  (0xC92, 0xCA8); (0xCAA, 0xCB3); (0xCB5, 0xCB9); (0xCBD, 0xCBD); (0xCDD, 0xCDE); (0xCE0, 0xCE1);
  (0xCF1, 0xCF2); (0xD04, 0xD0C); (0xD0E, 0xD10); (0xD12, 0xD3A); (0xD3D, 0xD3D); (0xD4E, 0xD4E);
  (0xD54, 0xD56); (0xD5F, 0xD61); (0xD7A, 0xD7F); (0xD85, 0xD96); (0xD9A, 0xDB1); (0xDB3, 0xDBB);
  (0xDBD, 0xDBD); (0xDC0, 0xDC6); (0xE01, 0xE30); (0xE32, 0xE33); (0xE40, 0xE46); (0xE81, 0xE82);
  (0xE84, 0xE84); (0xE86, 0xE8A); (0xE8C, 0xEA3); (0xEA5, 0xEA5); (0xEA7, 0xEB0); (0xEB2, 0xEB3);
  (0xEBD, 0xEBD); (0xEC0, 0xEC4); (0xEC6, 0xEC6); (0xEDC, 0xEDF); (0xF00, 0xF00); (0xF40, 0xF47);
  (0xF49, 0xF6C); (0xF88, 0xF8C); (0x1000, 0x102A); (0x103F, 0x103F); (0x1050, 0x1055);
  (0x105A, 0x105D); (0x1061, 0x1061); (0x1065, 0x1066); (0x106E, 0x1070); (0x1075, 0x1081);
  (0x108E, 0x108E); (0x10A0, 0x10C5); (0x10C7, 0x10C7); (0x10CD, 0x10CD); (0x10D0, 0x10FA);
  (0x10FC, 0x1248); (0x124A, 0x124D); (0x1250, 0x1256); (0x1258, 0x1258); (0x125A, 0x125D);
  (0x1260, 0x1288); (0x128A, 0x128D); (0x1290, 0x12B0); (0x12B2, 0x12B5); (0x12B8, 0x12BE);
  (0x12C0, 0x12C0); (0x12C2, 0x12C5); (0x12C8, 0x12D6); (0x12D8, 0x1310); (0x1312, 0x1315);
  (0x1318, 0x135A); (0x1380, 0x138F); (0x13A0, 0x13F5); (0x13F8, 0x13FD); (0x1401, 0x166C);
  (0x166F, 0x167F); (0x1681, 0x169A); (0x16A0, 0x16EA); (0x16F1, 0x16F8); (0x1700, 0x1711);
  (0x171F, 0x1731); (0x1740, 0x1751); (0x1760, 0x176C); (0x176E, 0x1770); (0x1780, 0x17B3);
  (0x17D7, 0x17D7); (0x17DC, 0x17DC); (0x1820, 0x1878); (0x1880, 0x1884); (0x1887, 0x18A8);
  (0x18AA, 0x18AA); (0x18B0, 0x18F5); (0x1900, 0x191E); (0x1950, 0x196D); (0x1970, 0x1974);
  (0x1980, 0x19AB); (0x19B0, 0x19C9); (0x1A00, 0x1A16); (0x1A20, 0x1A54); (0x1AA7, 0x1AA7);
  (0x1B05, 0x1B33); (0x1B45, 0x1B4C); (0x1B83, 0x1BA0); (0x1BAE, 0x1BAF); (0x1BBA, 0x1BE5);
  (0x1C00, 0x1C23); (0x1C4D, 0x1C4F); (0x1C5A, 0x1C7D); (0x1C80, 0x1C8A); (0x1C90, 0x1CBA);
  (0x1CBD, 0x1CBF); (0x1CE9, 0x1CEC); (0x1CEE, 0x1CF3); (0x1CF5, 0x1CF6); (0x1CFA, 0x1CFA);
  (0x1D00, 0x1DBF); (0x1E00, 0x1F15); (0x1F18, 0x1F1D); (0x1F20, 0x1F45); (0x1F48, 0x1F4D);
  (0x1F50, 0x1F57); (0x1F59, 0x1F59); (0x1F5B, 0x1F5B); (0x1F5D, 0x1F5D); (0x1F5F, 0x1F7D);
  (0x1F80, 0x1FB4); (0x1FB6, 0x1FBC); (0x1FBE, 0x1FBE); (0x1FC2, 0x1FC4); (0x1FC6, 0x1FCC);
  (0x1FD0, 0x1FD3); (0x1FD6, 0x1FDB); (0x1FE0, 0x1FEC); (0x1FF2, 0x1FF4); (0x1FF6, 0x1FFC);
  (0x2071, 0x2071); (0x207F, 0x207F); (0x2090, 0x209C); (0x2102, 0x2102); (0x2107, 0x2107);
  (0x210A, 0x2113); (0x2115, 0x2115); (0x2119, 0x211D); (0x2124, 0x2124); (0x2126, 0x2126);
  (0x2128, 0x2128); (0x212A, 0x212D); (0x212F, 0x2139); (0x213C, 0x213F); (0x2145, 0x2149);
  (0x214E, 0x214E); (0x2183, 0x2184); (0x2C00, 0x2CE4); (0x2CEB, 0x2CEE); (0x2CF2, 0x2CF3);
  (0x2D00, 0x2D25); (0x2D27, 0x2D27); (0x2D2D, 0x2D2D); (0x2D30, 0x2D67); (0x2D6F, 0x2D6F);
  (0x2D80, 0x2D96); (0x2DA0, 0x2DA6); (0x2DA8, 0x2DAE); (0x2DB0, 0x2DB6); (0x2DB8, 0x2DBE);
  (0x2DC0, 0x2DC6); (0x2DC8, 0x2DCE); (0x2DD0, 0x2DD6); (0x2DD8, 0x2DDE); (0x2E2F, 0x2E2F);
  (0x3005, 0x3006); (0x3031, 0x3035); (0x303B, 0x303C); (0x3041, 0x3096); (0x309D, 0x309F);
  (0x30A1, 0x30FA); (0x30FC, 0x30FF); (0x3105, 0x312F); (0x3131, 0x318E); (0x31A0, 0x31BF);
  (0x31F0, 0x31FF); (0x3400, 0x4DBF); (0x4E00, 0xA48C); (0xA4D0, 0xA4FD); (0xA500, 0xA60C);
  (0xA610, 0xA61F); (0xA62A, 0xA62B); (0xA640, 0xA66E); (0xA67F, 0xA69D); (0xA6A0, 0xA6E5);
  (0xA717, 0xA71F); (0xA722, 0xA788); (0xA78B, 0xA7CD); (0xA7D0, 0xA7D1); (0xA7D3, 0xA7D3);
  (0xA7D5, 0xA7DC); (0xA7F2, 0xA801); (0xA803, 0xA805); (0xA807, 0xA80A); (0xA80C, 0xA822);
  (0xA840, 0xA873); (0xA882, 0xA8B3); (0xA8F2, 0xA8F7); (0xA8FB, 0xA8FB); (0xA8FD, 0xA8FE);
  (0xA90A, 0xA925); (0xA930, 0xA946); (0xA960, 0xA97C); (0xA984, 0xA9B2); (0xA9CF, 0xA9CF);
  (0xA9E0, 0xA9E4); (0xA9E6, 0xA9EF); (0xA9FA, 0xA9FE); (0xAA00, 0xAA28); (0xAA40, 0xAA42);
  (0xAA44, 0xAA4B); (0xAA60, 0xAA76); (0xAA7A, 0xAA7A); (0xAA7E, 0xAAAF); (0xAAB1, 0xAAB1);
  (0xAAB5, 0xAAB6); (0xAAB9, 0xAABD); (0xAAC0, 0xAAC0); (0xAAC2, 0xAAC2); (0xAADB, 0xAADD);
  (0xAAE0, 0xAAEA); (0xAAF2, 0xAAF4); (0xAB01, 0xAB06); (0xAB09, 0xAB0E); (0xAB11, 0xAB16);
  (0xAB20, 0xAB26); (0xAB28, 0xAB2E); (0xAB30, 0xAB5A); (0xAB5C, 0xAB69); (0xAB70, 0xABE2);
  (0xAC00, 0xD7A3); (0xD7B0, 0xD7C6); (0xD7CB, 0xD7FB); (0xF900, 0xFA6D); (0xFA70, 0xFAD9);
  (0xFB00, 0xFB06); (0xFB13, 0xFB17); (0xFB1D, 0xFB1D); (0xFB1F, 0xFB28); (0xFB2A, 0xFB36);
  (0xFB38, 0xFB3C); (0xFB3E, 0xFB3E); (0xFB40, 0xFB41); (0xFB43, 0xFB44); (0xFB46, 0xFBB1);
  (0xFBD3, 0xFD3D); (0xFD50, 0xFD8F); (0xFD92, 0xFDC7); (0xFDF0, 0xFDFB); (0xFE70, 0xFE74);
  (0xFE76, 0xFEFC); (0xFF21, 0xFF3A); (0xFF41, 0xFF5A); (0xFF66, 0xFFBE); (0xFFC2, 0xFFC7);
  (0xFFCA, 0xFFCF); (0xFFD2, 0xFFD7); (0xFFDA, 0xFFDC); (0x10000, 0x1000B); (0x1000D, 0x10026);
  (0x10028, 0x1003A); (0x1003C, 0x1003D); (0x1003F, 0x1004D); (0x10050, 0x1005D);
  (0x10080, 0x100FA); (0x10280, 0x1029C); (0x102A0, 0x102D0); (0x10300, 0x1031F);
  (0x1032D, 0x10340); (0x10342, 0x10349); (0x10350, 0x10375); (0x10380, 0x1039D);
  (0x103A0, 0x103C3); (0x103C8, 0x103CF); (0x10400, 0x1049D); (0x104B0, 0x104D3);
  (0x104D8, 0x104FB); (0x10500, 0x10527); (0x10530, 0x10563); (0x10570, 0x1057A);
  (0x1057C, 0x1058A); (0x1058C, 0x10592); (0x10594, 0x10595); (0x10597, 0x105A1);
  (0x105A3, 0x105B1); (0x105B3, 0x105B9); (0x105BB, 0x105BC); (0x105C0, 0x105F3);
  (0x10600, 0x10736); (0x10740, 0x10755); (0x10760, 0x10767); (0x10780, 0x10785);
  (0x10787, 0x107B0); (0x107B2, 0x107BA); (0x10800, 0x10805); (0x10808, 0x10808);
  (0x1080A, 0x10835); (0x10837, 0x10838); (0x1083C, 0x1083C); (0x1083F, 0x10855);
  (0x10860, 0x10876); (0x10880, 0x1089E); (0x108E0, 0x108F2); (0x108F4, 0x108F5);
  (0x10900, 0x10915); (0x10920, 0x10939); (0x10980, 0x109B7); (0x109BE, 0x109BF);
  (0x10A00, 0x10A00); (0x10A10, 0x10A13); (0x10A15, 0x10A17); (0x10A19, 0x10A35);
  (0x10A60, 0x10A7C); (0x10A80, 0x10A9C); (0x10AC0, 0x10AC7); (0x10AC9, 0x10AE4);
  (0x10B00, 0x10B35); (0x10B40, 0x10B55); (0x10B60, 0x10B72); (0x10B80, 0x10B91);
  (0x10C00, 0x10C48); (0x10C80, 0x10CB2); (0x10CC0, 0x10CF2); (0x10D00, 0x10D23);
  (0x10D4A, 0x10D65); (0x10D6F, 0x10D85); (0x10E80, 0x10EA9); (0x10EB0, 0x10EB1);
  (0x10EC2, 0x10EC4); (0x10F00, 0x10F1C); (0x10F27, 0x10F27); (0x10F30, 0x10F45);
  (0x10F70, 0x10F81); (0x10FB0, 0x10FC4); (0x10FE0, 0x10FF6); (0x11003, 0x11037);
  (0x11071, 0x11072); (0x11075, 0x11075); (0x11083, 0x110AF); (0x110D0, 0x110E8);
  (0x11103, 0x11126); (0x11144, 0x11144); (0x11147, 0x11147); (0x11150, 0x11172);
  (0x11176, 0x11176); (0x11183, 0x111B2); (0x111C1, 0x111C4); (0x111DA, 0x111DA);
  (0x111DC, 0x111DC); (0x11200, 0x11211); (0x11213, 0x1122B); (0x1123F, 0x11240);
  (0x11280, 0x11286); (0x11288, 0x11288); (0x1128A, 0x1128D); (0x1128F, 0x1129D);
  (0x1129F, 0x112A8); (0x112B0, 0x112DE); (0x11305, 0x1130C); (0x1130F, 0x11310);
  (0x11313, 0x11328); (0x1132A, 0x11330); (0x11332, 0x11333); (0x11335, 0x11339);
  (0x1133D, 0x1133D); (0x11350, 0x11350); (0x1135D, 0x11361); (0x11380, 0x11389);
  (0x1138B, 0x1138B); (0x1138E, 0x1138E); (0x11390, 0x113B5); (0x113B7, 0x113B7);
  (0x113D1, 0x113D1); (0x113D3, 0x113D3); (0x11400, 0x11434); (0x11447, 0x1144A);
  (0x1145F, 0x11461); (0x11480, 0x114AF); (0x114C4, 0x114C5); (0x114C7, 0x114C7);
  (0x11580, 0x115AE); (0x115D8, 0x115DB); (0x11600, 0x1162F); (0x11644, 0x11644);
  (0x11680, 0x116AA); (0x116B8, 0x116B8); (0x11700, 0x1171A); (0x11740, 0x11746);
  (0x11800, 0x1182B); (0x118A0, 0x118DF); (0x118FF, 0x11906); (0x11909, 0x11909);
  (0x1190C, 0x11913); (0x11915, 0x11916); (0x11918, 0x1192F); (0x1193F, 0x1193F);
  (0x11941, 0x11941); (0x119A0, 0x119A7); (0x119AA, 0x119D0); (0x119E1, 0x119E1);
  (0x119E3, 0x119E3); (0x11A00, 0x11A00); (0x11A0B, 0x11A32); (0x11A3A, 0x11A3A);
  (0x11A50, 0x11A50); (0x11A5C, 0x11A89); (0x11A9D, 0x11A9D); (0x11AB0, 0x11AF8);
  (0x11BC0, 0x11BE0); (0x11C00, 0x11C08); (0x11C0A, 0x11C2E); (0x11C40, 0x11C40);
  (0x11C72, 0x11C8F); (0x11D00, 0x11D06); (0x11D08, 0x11D09); (0x11D0B, 0x11D30);
  (0x11D46, 0x11D46); (0x11D60, 0x11D65); (0x11D67, 0x11D68); (0x11D6A, 0x11D89);
  (0x11D98, 0x11D98); (0x11EE0, 0x11EF2); (0x11F02, 0x11F02); (0x11F04, 0x11F10);
  (0x11F12, 0x11F33); (0x11FB0, 0x11FB0); (0x12000, 0x12399); (0x12480, 0x12543);
  (0x12F90, 0x12FF0); (0x13000, 0x1342F); (0x13441, 0x13446); (0x13460, 0x143FA);
  (0x14400, 0x14646); (0x16100, 0x1611D); (0x16800, 0x16A38); (0x16A40, 0x16A5E);
  (0x16A70, 0x16ABE); (0x16AD0, 0x16AED); (0x16B00, 0x16B2F); (0x16B40, 0x16B43);
  (0x16B63, 0x16B77); (0x16B7D, 0x16B8F); (0x16D40, 0x16D6C); (0x16E40, 0x16E7F);
  (0x16F00, 0x16F4A); (0x16F50, 0x16F50); (0x16F93, 0x16F9F); (0x16FE0, 0x16FE1);
  (0x16FE3, 0x16FE3); (0x17000, 0x187F7); (0x18800, 0x18CD5); (0x18CFF, 0x18D08);
  (0x1AFF0, 0x1AFF3); (0x1AFF5, 0x1AFFB); (0x1AFFD, 0x1AFFE); (0x1B000, 0x1B122);
  (0x1B132, 0x1B132); (0x1B150, 0x1B152); (0x1B155, 0x1B155); (0x1B164, 0x1B167);
  (0x1B170, 0x1B2FB); (0x1BC00, 0x1BC6A); (0x1BC70, 0x1BC7C); (0x1BC80, 0x1BC88);
  (0x1BC90, 0x1BC99); (0x1D400, 0x1D454); (0x1D456, 0x1D49C); (0x1D49E, 0x1D49F);
  (0x1D4A2, 0x1D4A2); (0x1D4A5, 0x1D4A6); (0x1D4A9, 0x1D4AC); (0x1D4AE, 0x1D4B9);
  (0x1D4BB, 0x1D4BB); (0x1D4BD, 0x1D4C3); (0x1D4C5, 0x1D505); (0x1D507, 0x1D50A);
  (0x1D50D, 0x1D514); (0x1D516, 0x1D51C); (0x1D51E, 0x1D539); (0x1D53B, 0x1D53E);
  (0x1D540, 0x1D544); (0x1D546, 0x1D546); (0x1D54A, 0x1D550); (0x1D552, 0x1D6A5);
  (0x1D6A8, 0x1D6C0); (0x1D6C2, 0x1D6DA); (0x1D6DC, 0x1D6FA); (0x1D6FC, 0x1D714);
  (0x1D716, 0x1D734); (0x1D736, 0x1D74E); (0x1D750, 0x1D76E); (0x1D770, 0x1D788);
  (0x1D78A, 0x1D7A8); (0x1D7AA, 0x1D7C2); (0x1D7C4, 0x1D7CB); (0x1DF00, 0x1DF1E);
  (0x1DF25, 0x1DF2A); (0x1E030, 0x1E06D); (0x1E100, 0x1E12C); (0x1E137, 0x1E13D);
  (0x1E14E, 0x1E14E); (0x1E290, 0x1E2AD); (0x1E2C0, 0x1E2EB); (0x1E4D0, 0x1E4EB);
  (0x1E5D0, 0x1E5ED); (0x1E5F0, 0x1E5F0); (0x1E7E0, 0x1E7E6); (0x1E7E8, 0x1E7EB);
  (0x1E7ED, 0x1E7EE); (0x1E7F0, 0x1E7FE); (0x1E800, 0x1E8C4); (0x1E900, 0x1E943);
  (0x1E94B, 0x1E94B); (0x1EE00, 0x1EE03); (0x1EE05, 0x1EE1F); (0x1EE21, 0x1EE22);
  (0x1EE24, 0x1EE24); (0x1EE27, 0x1EE27); (0x1EE29, 0x1EE32); (0x1EE34, 0x1EE37);
  (0x1EE39, 0x1EE39); (0x1EE3B, 0x1EE3B); (0x1EE42, 0x1EE42); (0x1EE47, 0x1EE47);
  (0x1EE49, 0x1EE49); (0x1EE4B, 0x1EE4B); (0x1EE4D, 0x1EE4F); (0x1EE51, 0x1EE52);
  (0x1EE54, 0x1EE54); (0x1EE57, 0x1EE57); (0x1EE59, 0x1EE59); (0x1EE5B, 0x1EE5B);
  (0x1EE5D, 0x1EE5D); (0x1EE5F, 0x1EE5F); (0x1EE61, 0x1EE62); (0x1EE64, 0x1EE64);
  (0x1EE67, 0x1EE6A); (0x1EE6C, 0x1EE72); (0x1EE74, 0x1EE77); (0x1EE79, 0x1EE7C);
  (0x1EE7E, 0x1EE7E); (0x1EE80, 0x1EE89); (0x1EE8B, 0x1EE9B); (0x1EEA1, 0x1EEA3);
  (0x1EEA5, 0x1EEA9); (0x1EEAB, 0x1EEBB); (0x20000, 0x2A6DF); (0x2A700, 0x2B739);
  (0x2B740, 0x2B81D); (0x2B820, 0x2CEA1); (0x2CEB0, 0x2EBE0); (0x2EBF0, 0x2EE5D);
  (0x2F800, 0x2FA1D); (0x30000, 0x3134A); (0x31350, 0x323AF)].

Definition kClassM : list (Z * Z) := [
  (0x300, 0x36F); (0x483, 0x489); (0x591, 0x5BD); (0x5BF, 0x5BF); (0x5C1, 0x5C2); (0x5C4, 0x5C5);
  (0x5C7, 0x5C7); (0x610, 0x61A); (0x64B, 0x65F); (0x670, 0x670); (0x6D6, 0x6DC); (0x6DF, 0x6E4);
  (0x6E7, 0x6E8); (0x6EA, 0x6ED); (0x711, 0x711); (0x730, 0x74A); (0x7A6, 0x7B0); (0x7EB, 0x7F3);
  (0x7FD, 0x7FD); (0x816, 0x819); (0x81B, 0x823); (0x825, 0x827); (0x829, 0x82D); (0x859, 0x85B);
  (0x897, 0x89F); (0x8CA, 0x8E1); (0x8E3, 0x903); (0x93A, 0x93C); (0x93E, 0x94F); (0x951, 0x957);
  (0x962, 0x963); (0x981, 0x983); (0x9BC, 0x9BC); (0x9BE, 0x9C4); (0x9C7, 0x9C8); (0x9CB, 0x9CD);
  (0x9D7, 0x9D7); (0x9E2, 0x9E3); (0x9FE, 0x9FE); (0xA01, 0xA03); (0xA3C, 0xA3C); (0xA3E, 0xA42);
  (0xA47, 0xA48); (0xA4B, 0xA4D); (0xA51, 0xA51); (0xA70, 0xA71); (0xA75, 0xA75); (0xA81, 0xA83);
  (0xABC, 0xABC); (0xABE, 0xAC5); (0xAC7, 0xAC9); (0xACB, 0xACD); (0xAE2, 0xAE3); (0xAFA, 0xAFF);
  (0xB01, 0xB03); (0xB3C, 0xB3C); (0xB3E, 0xB44); (0xB47, 0xB48); (0xB4B, 0xB4D); (0xB55, 0xB57);
  (0xB62, 0xB63); (0xB82, 0xB82); (0xBBE, 0xBC2); (0xBC6, 0xBC8); (0xBCA, 0xBCD); (0xBD7, 0xBD7);
  (0xC00, 0xC04); (0xC3C, 0xC3C); (0xC3E, 0xC44); (0xC46, 0xC48); (0xC4A, 0xC4D); (0xC55, 0xC56);
  (0xC62, 0xC63); (0xC81, 0xC83); (0xCBC, 0xCBC); (0xCBE, 0xCC4); (0xCC6, 0xCC8); (0xCCA, 0xCCD);
  (0xCD5, 0xCD6); (0xCE2, 0xCE3); (0xCF3, 0xCF3); (0xD00, 0xD03); (0xD3B, 0xD3C); (0xD3E, 0xD44);
  (0xD46, 0xD48); (0xD4A, 0xD4D); (0xD57, 0xD57); (0xD62, 0xD63); (0xD81, 0xD83); (0xDCA, 0xDCA);
  (0xDCF, 0xDD4); (0xDD6, 0xDD6); (0xDD8, 0xDDF); (0xDF2, 0xDF3); (0xE31, 0xE31); (0xE34, 0xE3A);
  (0xE47, 0xE4E); (0xEB1, 0xEB1); (0xEB4, 0xEBC); (0xEC8, 0xECE); (0xF18, 0xF19); (0xF35, 0xF35);
  (0xF37, 0xF37); (0xF39, 0xF39); (0xF3E, 0xF3F); (0xF71, 0xF84); (0xF86, 0xF87); (0xF8D, 0xF97);
  (0xF99, 0xFBC); (0xFC6, 0xFC6); (0x102B, 0x103E); (0x1056, 0x1059); (0x105E, 0x1060);
  (0x1062, 0x1064); (0x1067, 0x106D); (0x1071, 0x1074); (0x1082, 0x108D); (0x108F, 0x108F);
  (0x109A, 0x109D); (0x135D, 0x135F); (0x1712, 0x1715); (0x1732, 0x1734); (0x1752, 0x1753);
  (0x1772, 0x1773); (0x17B4, 0x17D3); (0x17DD, 0x17DD); (0x180B, 0x180D); (0x180F, 0x180F);
  (0x1885, 0x1886); (0x18A9, 0x18A9); (0x1920, 0x192B); (0x1930, 0x193B); (0x1A17, 0x1A1B);
  (0x1A55, 0x1A5E); (0x1A60, 0x1A7C); (0x1A7F, 0x1A7F); (0x1AB0, 0x1ACE); (0x1B00, 0x1B04);
  (0x1B34, 0x1B44); (0x1B6B, 0x1B73); (0x1B80, 0x1B82); (0x1BA1, 0x1BAD); (0x1BE6, 0x1BF3);
  (0x1C24, 0x1C37); (0x1CD0, 0x1CD2); (0x1CD4, 0x1CE8); (0x1CED, 0x1CED); (0x1CF4, 0x1CF4);
  (0x1CF7, 0x1CF9); (0x1DC0, 0x1DFF); (0x20D0, 0x20F0); (0x2CEF, 0x2CF1); (0x2D7F, 0x2D7F);
  (0x2DE0, 0x2DFF); (0x302A, 0x302F); (0x3099, 0x309A); (0xA66F, 0xA672); (0xA674, 0xA67D);
  (0xA69E, 0xA69F); (0xA6F0, 0xA6F1); (0xA802, 0xA802); (0xA806, 0xA806); (0xA80B, 0xA80B);
  (0xA823, 0xA827); (0xA82C, 0xA82C); (0xA880, 0xA881); (0xA8B4, 0xA8C5); (0xA8E0, 0xA8F1);
  (0xA8FF, 0xA8FF); (0xA926, 0xA92D); (0xA947, 0xA953); (0xA980, 0xA983); (0xA9B3, 0xA9C0);
  (0xA9E5, 0xA9E5); (0xAA29, 0xAA36); (0xAA43, 0xAA43); (0xAA4C, 0xAA4D); (0xAA7B, 0xAA7D);
  (0xAAB0, 0xAAB0); (0xAAB2, 0xAAB4); (0xAAB7, 0xAAB8); (0xAABE, 0xAABF); (0xAAC1, 0xAAC1);
  (0xAAEB, 0xAAEF); (0xAAF5, 0xAAF6); (0xABE3, 0xABEA); (0xABEC, 0xABED); (0xFB1E, 0xFB1E);
  (0xFE00, 0xFE0F); (0xFE20, 0xFE2F); (0x101FD, 0x101FD); (0x102E0, 0x102E0); (0x10376, 0x1037A);
  (0x10A01, 0x10A03); (0x10A05, 0x10A06); (0x10A0C, 0x10A0F); (0x10A38, 0x10A3A);
  (0x10A3F, 0x10A3F); (0x10AE5, 0x10AE6); (0x10D24, 0x10D27); (0x10D69, 0x10D6D);
  (0x10EAB, 0x10EAC); (0x10EFC, 0x10EFF); (0x10F46, 0x10F50); (0x10F82, 0x10F85);
  (0x11000, 0x11002); (0x11038, 0x11046); (0x11070, 0x11070); (0x11073, 0x11074);
  (0x1107F, 0x11082); (0x110B0, 0x110BA); (0x110C2, 0x110C2); (0x11100, 0x11102);
  (0x11127, 0x11134); (0x11145, 0x11146); (0x11173, 0x11173); (0x11180, 0x11182);
  (0x111B3, 0x111C0); (0x111C9, 0x111CC); (0x111CE, 0x111CF); (0x1122C, 0x11237);
  (0x1123E, 0x1123E); (0x11241, 0x11241); (0x112DF, 0x112EA); (0x11300, 0x11303);
  (0x1133B, 0x1133C); (0x1133E, 0x11344); (0x11347, 0x11348); (0x1134B, 0x1134D);
  (0x11357, 0x11357); (0x11362, 0x11363); (0x11366, 0x1136C); (0x11370, 0x11374);
  (0x113B8, 0x113C0); (0x113C2, 0x113C2); (0x113C5, 0x113C5); (0x113C7, 0x113CA);
  (0x113CC, 0x113D0); (0x113D2, 0x113D2); (0x113E1, 0x113E2); (0x11435, 0x11446);
  (0x1145E, 0x1145E); (0x114B0, 0x114C3); (0x115AF, 0x115B5); (0x115B8, 0x115C0);
  (0x115DC, 0x115DD); (0x11630, 0x11640); (0x116AB, 0x116B7); (0x1171D, 0x1172B);
  (0x1182C, 0x1183A); (0x11930, 0x11935); (0x11937, 0x11938); (0x1193B, 0x1193E);
  (0x11940, 0x11940); (0x11942, 0x11943); (0x119D1, 0x119D7); (0x119DA, 0x119E0);
  (0x119E4, 0x119E4); (0x11A01, 0x11A0A); (0x11A33, 0x11A39); (0x11A3B, 0x11A3E);
  (0x11A47, 0x11A47); (0x11A51, 0x11A5B); (0x11A8A, 0x11A99); (0x11C2F, 0x11C36);
  (0x11C38, 0x11C3F); (0x11C92, 0x11CA7); (0x11CA9, 0x11CB6); (0x11D31, 0x11D36);
  (0x11D3A, 0x11D3A); (0x11D3C, 0x11D3D); (0x11D3F, 0x11D45); (0x11D47, 0x11D47);
  (0x11D8A, 0x11D8E); (0x11D90, 0x11D91); (0x11D93, 0x11D97); (0x11EF3, 0x11EF6);
  (0x11F00, 0x11F01); (0x11F03, 0x11F03); (0x11F34, 0x11F3A); (0x11F3E, 0x11F42);
  (0x11F5A, 0x11F5A); (0x13440, 0x13440); (0x13447, 0x13455); (0x1611E, 0x1612F);
  (0x16AF0, 0x16AF4); (0x16B30, 0x16B36); (0x16F4F, 0x16F4F); (0x16F51, 0x16F87);
  (0x16F8F, 0x16F92); (0x16FE4, 0x16FE4); (0x16FF0, 0x16FF1); (0x1BC9D, 0x1BC9E);
  (0x1CF00, 0x1CF2D); (0x1CF30, 0x1CF46); (0x1D165, 0x1D169); (0x1D16D, 0x1D172);
  (0x1D17B, 0x1D182); (0x1D185, 0x1D18B); (0x1D1AA, 0x1D1AD); (0x1D242, 0x1D244);
  (0x1DA00, 0x1DA36); (0x1DA3B, 0x1DA6C); (0x1DA75, 0x1DA75); (0x1DA84, 0x1DA84);
  (0x1DA9B, 0x1DA9F); (0x1DAA1, 0x1DAAF); (0x1E000, 0x1E006); (0x1E008, 0x1E018);
  (0x1E01B, 0x1E021); (0x1E023, 0x1E024); (0x1E026, 0x1E02A); (0x1E08F, 0x1E08F);
  (0x1E130, 0x1E136); (0x1E2AE, 0x1E2AE); (0x1E2EC, 0x1E2EF); (0x1E4EC, 0x1E4EF);
  (0x1E5EE, 0x1E5EF); (0x1E8D0, 0x1E8D6); (0x1E944, 0x1E94A); (0xE0100, 0xE01EF)].

Definition kClassP : list (Z * Z) := [
  (0x21, 0x23); (0x25, 0x2A); (0x2C, 0x2F); (0x3A, 0x3B); (0x3F, 0x40); (0x5B, 0x5D); (0x5F, 0x5F);
  (0x7B, 0x7B); (0x7D, 0x7D); (0xA1, 0xA1); (0xA7, 0xA7); (0xAB, 0xAB); (0xB6, 0xB7); (0xBB, 0xBB);
  (0xBF, 0xBF); (0x37E, 0x37E); (0x387, 0x387); (0x55A, 0x55F); (0x589, 0x58A); (0x5BE, 0x5BE);
  (0x5C0, 0x5C0); (0x5C3, 0x5C3); (0x5C6, 0x5C6); (0x5F3, 0x5F4); (0x609, 0x60A); (0x60C, 0x60D);
  (0x61B, 0x61B); (0x61D, 0x61F); (0x66A, 0x66D); (0x6D4, 0x6D4); (0x700, 0x70D); (0x7F7, 0x7F9);
  (0x830, 0x83E); (0x85E, 0x85E); (0x964, 0x965); (0x970, 0x970); (0x9FD, 0x9FD); (0xA76, 0xA76);
  (0xAF0, 0xAF0); (0xC77, 0xC77); (0xC84, 0xC84); (0xDF4, 0xDF4); (0xE4F, 0xE4F); (0xE5A, 0xE5B);
  (0xF04, 0xF12); (0xF14, 0xF14); (0xF3A, 0xF3D); (0xF85, 0xF85); (0xFD0, 0xFD4); (0xFD9, 0xFDA);
  (0x104A, 0x104F); (0x10FB, 0x10FB); (0x1360, 0x1368); (0x1400, 0x1400); (0x166E, 0x166E);
  (0x169B, 0x169C); (0x16EB, 0x16ED); (0x1735, 0x1736); (0x17D4, 0x17D6); (0x17D8, 0x17DA);
  (0x1800, 0x180A); (0x1944, 0x1945); (0x1A1E, 0x1A1F); (0x1AA0, 0x1AA6); (0x1AA8, 0x1AAD);
  (0x1B4E, 0x1B4F); (0x1B5A, 0x1B60); (0x1B7D, 0x1B7F); (0x1BFC, 0x1BFF); (0x1C3B, 0x1C3F);
  (0x1C7E, 0x1C7F); (0x1CC0, 0x1CC7); (0x1CD3, 0x1CD3); (0x2010, 0x2027); (0x2030, 0x2043);
  (0x2045, 0x2051); (0x2053, 0x205E); (0x207D, 0x207E); (0x208D, 0x208E); (0x2308, 0x230B);
  (0x2329, 0x232A); (0x2768, 0x2775); (0x27C5, 0x27C6); (0x27E6, 0x27EF); (0x2983, 0x2998);
  (0x29D8, 0x29DB); (0x29FC, 0x29FD); (0x2CF9, 0x2CFC); (0x2CFE, 0x2CFF); (0x2D70, 0x2D70);
  (0x2E00, 0x2E2E); (0x2E30, 0x2E4F); (0x2E52, 0x2E5D); (0x3001, 0x3003); (0x3008, 0x3011);
  (0x3014, 0x301F); (0x3030, 0x3030); (0x303D, 0x303D); (0x30A0, 0x30A0); (0x30FB, 0x30FB);
  (0xA4FE, 0xA4FF); (0xA60D, 0xA60F); (0xA673, 0xA673); (0xA67E, 0xA67E); (0xA6F2, 0xA6F7);
  (0xA874, 0xA877); (0xA8CE, 0xA8CF); (0xA8F8, 0xA8FA); (0xA8FC, 0xA8FC); (0xA92E, 0xA92F);
  (0xA95F, 0xA95F); (0xA9C1, 0xA9CD); (0xA9DE, 0xA9DF); (0xAA5C, 0xAA5F); (0xAADE, 0xAADF);
  (0xAAF0, 0xAAF1); (0xABEB, 0xABEB); (0xFD3E, 0xFD3F); (0xFE10, 0xFE19); (0xFE30, 0xFE52);
  (0xFE54, 0xFE61); (0xFE63, 0xFE63); (0xFE68, 0xFE68); (0xFE6A, 0xFE6B); (0xFF01, 0xFF03);
  (0xFF05, 0xFF0A); (0xFF0C, 0xFF0F); (0xFF1A, 0xFF1B); (0xFF1F, 0xFF20); (0xFF3B, 0xFF3D);
  (0xFF3F, 0xFF3F); (0xFF5B, 0xFF5B); (0xFF5D, 0xFF5D); (0xFF5F, 0xFF65); (0x10100, 0x10102);
  (0x1039F, 0x1039F); (0x103D0, 0x103D0); (0x1056F, 0x1056F); (0x10857, 0x10857);
  (0x1091F, 0x1091F); (0x1093F, 0x1093F); (0x10A50, 0x10A58); (0x10A7F, 0x10A7F);
  (0x10AF0, 0x10AF6); (0x10B39, 0x10B3F); (0x10B99, 0x10B9C); (0x10D6E, 0x10D6E);
  (0x10EAD, 0x10EAD); (0x10F55, 0x10F59); (0x10F86, 0x10F89); (0x11047, 0x1104D);
  (0x110BB, 0x110BC); (0x110BE, 0x110C1); (0x11140, 0x11143); (0x11174, 0x11175);
  (0x111C5, 0x111C8); (0x111CD, 0x111CD); (0x111DB, 0x111DB); (0x111DD, 0x111DF);
  (0x11238, 0x1123D); (0x112A9, 0x112A9); (0x113D4, 0x113D5); (0x113D7, 0x113D8);
  (0x1144B, 0x1144F); (0x1145A, 0x1145B); (0x1145D, 0x1145D); (0x114C6, 0x114C6);
  (0x115C1, 0x115D7); (0x11641, 0x11643); (0x11660, 0x1166C); (0x116B9, 0x116B9);
  (0x1173C, 0x1173E); (0x1183B, 0x1183B); (0x11944, 0x11946); (0x119E2, 0x119E2);
  (0x11A3F, 0x11A46); (0x11A9A, 0x11A9C); (0x11A9E, 0x11AA2); (0x11B00, 0x11B09);
  (0x11BE1, 0x11BE1); (0x11C41, 0x11C45); (0x11C70, 0x11C71); (0x11EF7, 0x11EF8);
  (0x11F43, 0x11F4F); (0x11FFF, 0x11FFF); (0x12470, 0x12474); (0x12FF1, 0x12FF2);
  (0x16A6E, 0x16A6F); (0x16AF5, 0x16AF5); (0x16B37, 0x16B3B); (0x16B44, 0x16B44);
  (0x16D6D, 0x16D6F); (0x16E97, 0x16E9A); (0x16FE2, 0x16FE2); (0x1BC9F, 0x1BC9F);
  (0x1DA87, 0x1DA8B); (0x1E5FF, 0x1E5FF); (0x1E95E, 0x1E95F)].

Definition kClassS : list (Z * Z) := [
  (0x24, 0x24); (0x2B, 0x2B); (0x3C, 0x3E); (0x5E, 0x5E); (0x60, 0x60); (0x7C, 0x7C); (0x7E, 0x7E);
  (0xA2, 0xA6); (0xA8, 0xA9); (0xAC, 0xAC); (0xAE, 0xB1); (0xB4, 0xB4); (0xB8, 0xB8); (0xD7, 0xD7);
  (0xF7, 0xF7); (0x2C2, 0x2C5); (0x2D2, 0x2DF); (0x2E5, 0x2EB); (0x2ED, 0x2ED); (0x2EF, 0x2FF);
  (0x375, 0x375); (0x384, 0x385); (0x3F6, 0x3F6); (0x482, 0x482); (0x58D, 0x58F); (0x606, 0x608);
  (0x60B, 0x60B); (0x60E, 0x60F); (0x6DE, 0x6DE); (0x6E9, 0x6E9); (0x6FD, 0x6FE); (0x7F6, 0x7F6);
  (0x7FE, 0x7FF); (0x888, 0x888); (0x9F2, 0x9F3); (0x9FA, 0x9FB); (0xAF1, 0xAF1); (0xB70, 0xB70);
  (0xBF3, 0xBFA); (0xC7F, 0xC7F); (0xD4F, 0xD4F); (0xD79, 0xD79); (0xE3F, 0xE3F); (0xF01, 0xF03);
  (0xF13, 0xF13); (0xF15, 0xF17); (0xF1A, 0xF1F); (0xF34, 0xF34); (0xF36, 0xF36); (0xF38, 0xF38);
  (0xFBE, 0xFC5); (0xFC7, 0xFCC); (0xFCE, 0xFCF); (0xFD5, 0xFD8); (0x109E, 0x109F);
  (0x1390, 0x1399); (0x166D, 0x166D); (0x17DB, 0x17DB); (0x1940, 0x1940); (0x19DE, 0x19FF);
  (0x1B61, 0x1B6A); (0x1B74, 0x1B7C); (0x1FBD, 0x1FBD); (0x1FBF, 0x1FC1); (0x1FCD, 0x1FCF);
  (0x1FDD, 0x1FDF); (0x1FED, 0x1FEF); (0x1FFD, 0x1FFE); (0x2044, 0x2044); (0x2052, 0x2052);
  (0x207A, 0x207C); (0x208A, 0x208C); (0x20A0, 0x20C0); (0x2100, 0x2101); (0x2103, 0x2106);
  (0x2108, 0x2109); (0x2114, 0x2114); (0x2116, 0x2118); (0x211E, 0x2123); (0x2125, 0x2125);
  (0x2127, 0x2127); (0x2129, 0x2129); (0x212E, 0x212E); (0x213A, 0x213B); (0x2140, 0x2144);
  (0x214A, 0x214D); (0x214F, 0x214F); (0x218A, 0x218B); (0x2190, 0x2307); (0x230C, 0x2328);
  (0x232B, 0x2429); (0x2440, 0x244A); (0x249C, 0x24E9); (0x2500, 0x2767); (0x2794, 0x27C4);
  (0x27C7, 0x27E5); (0x27F0, 0x2982); (0x2999, 0x29D7); (0x29DC, 0x29FB); (0x29FE, 0x2B73);
  (0x2B76, 0x2B95); (0x2B97, 0x2BFF); (0x2CE5, 0x2CEA); (0x2E50, 0x2E51); (0x2E80, 0x2E99);
  (0x2E9B, 0x2EF3); (0x2F00, 0x2FD5); (0x2FF0, 0x2FFF); (0x3004, 0x3004); (0x3012, 0x3013);
  (0x3020, 0x3020); (0x3036, 0x3037); (0x303E, 0x303F); (0x309B, 0x309C); (0x3190, 0x3191);
  (0x3196, 0x319F); (0x31C0, 0x31E5); (0x31EF, 0x31EF); (0x3200, 0x321E); (0x322A, 0x3247);
  (0x3250, 0x3250); (0x3260, 0x327F); (0x328A, 0x32B0); (0x32C0, 0x33FF); (0x4DC0, 0x4DFF);
  (0xA490, 0xA4C6); (0xA700, 0xA716); (0xA720, 0xA721); (0xA789, 0xA78A); (0xA828, 0xA82B);
  (0xA836, 0xA839); (0xAA77, 0xAA79); (0xAB5B, 0xAB5B); (0xAB6A, 0xAB6B); (0xFB29, 0xFB29);
  (0xFBB2, 0xFBC2); (0xFD40, 0xFD4F); (0xFDCF, 0xFDCF); (0xFDFC, 0xFDFF); (0xFE62, 0xFE62);
  (0xFE64, 0xFE66); (0xFE69, 0xFE69); (0xFF04, 0xFF04); (0xFF0B, 0xFF0B); (0xFF1C, 0xFF1E);
  (0xFF3E, 0xFF3E); (0xFF40, 0xFF40); (0xFF5C, 0xFF5C); (0xFF5E, 0xFF5E); (0xFFE0, 0xFFE6);
  (0xFFE8, 0xFFEE); (0xFFFC, 0xFFFD); (0x10137, 0x1013F); (0x10179, 0x10189); (0x1018C, 0x1018E);
  (0x10190, 0x1019C); (0x101A0, 0x101A0); (0x101D0, 0x101FC); (0x10877, 0x10878);
  (0x10AC8, 0x10AC8); (0x10D8E, 0x10D8F); (0x1173F, 0x1173F); (0x11FD5, 0x11FF1);
  (0x16B3C, 0x16B3F); (0x16B45, 0x16B45); (0x1BC9C, 0x1BC9C); (0x1CC00, 0x1CCEF);
  (0x1CD00, 0x1CEB3); (0x1CF50, 0x1CFC3); (0x1D000, 0x1D0F5); (0x1D100, 0x1D126);
  (0x1D129, 0x1D164); (0x1D16A, 0x1D16C); (0x1D183, 0x1D184); (0x1D18C, 0x1D1A9);
  (0x1D1AE, 0x1D1EA); (0x1D200, 0x1D241); (0x1D245, 0x1D245); (0x1D300, 0x1D356);
  (0x1D6C1, 0x1D6C1); (0x1D6DB, 0x1D6DB); (0x1D6FB, 0x1D6FB); (0x1D715, 0x1D715);
  (0x1D735, 0x1D735); (0x1D74F, 0x1D74F); (0x1D76F, 0x1D76F); (0x1D789, 0x1D789);
  (0x1D7A9, 0x1D7A9); (0x1D7C3, 0x1D7C3); (0x1D800, 0x1D9FF); (0x1DA37, 0x1DA3A);
  (0x1DA6D, 0x1DA74); (0x1DA76, 0x1DA83); (0x1DA85, 0x1DA86); (0x1E14F, 0x1E14F);
  (0x1E2FF, 0x1E2FF); (0x1ECAC, 0x1ECAC); (0x1ECB0, 0x1ECB0); (0x1ED2E, 0x1ED2E);
  (0x1EEF0, 0x1EEF1); (0x1F000, 0x1F02B); (0x1F030, 0x1F093); (0x1F0A0, 0x1F0AE);
  (0x1F0B1, 0x1F0BF); (0x1F0C1, 0x1F0CF); (0x1F0D1, 0x1F0F5); (0x1F10D, 0x1F1AD);
  (0x1F1E6, 0x1F202); (0x1F210, 0x1F23B); (0x1F240, 0x1F248); (0x1F250, 0x1F251);
  (0x1F260, 0x1F265); (0x1F300, 0x1F6D7); (0x1F6DC, 0x1F6EC); (0x1F6F0, 0x1F6FC);
  (0x1F700, 0x1F776); (0x1F77B, 0x1F7D9); (0x1F7E0, 0x1F7EB); (0x1F7F0, 0x1F7F0);
  (0x1F800, 0x1F80B); (0x1F810, 0x1F847); (0x1F850, 0x1F859); (0x1F860, 0x1F887);
  (0x1F890, 0x1F8AD); (0x1F8B0, 0x1F8BB); (0x1F8C0, 0x1F8C1); (0x1F900, 0x1FA53);
  (0x1FA60, 0x1FA6D); (0x1FA70, 0x1FA7C); (0x1FA80, 0x1FA89); (0x1FA8F, 0x1FAC6);
  (0x1FACE, 0x1FADC); (0x1FADF, 0x1FAE9); (0x1FAF0, 0x1FAF8); (0x1FB00, 0x1FB92); (0x1FB94, 0x1FBEF)].

Definition kClassWS : list (Z * Z) := [
  (0x9, 0xD); (0x20, 0x20); (0x85, 0x85); (0xA0, 0xA0); (0x1680, 0x1680); (0x2000, 0x200A);
  (0x2028, 0x2029); (0x202F, 0x202F); (0x205F, 0x205F); (0x3000, 0x3000)].

(** [class_table]: the bits of a code point; the source spreads the ranges over a table of all
    code points. *)
Definition kN : Z := 1.
Definition kL : Z := 2.
Definition kM : Z := 4.
Definition kP : Z := 8.
Definition kS : Z := 16.
Definition kWS : Z := 32.
Definition kCJK : Z := 64.

Definition in_ranges (c : Z) (r : list (Z * Z)) : bool := existsb (fun p => (p.1 <=? c) && (c <=? p.2)) r.

(** The literal class of the second pre-tokenizer. *)
Definition cjk_ranges : list (Z * Z) := [(0x4E00, 0x9FA5); (0x3040, 0x309F); (0x30A0, 0x30FF)].

Definition class_tables : list (list (Z * Z) * Z) :=
  [(kClassN, kN); (kClassL, kL); (kClassM, kM); (kClassP, kP); (kClassS, kS); (kClassWS, kWS); (cjk_ranges, kCJK)].

Definition class_table (c : Z) : Z :=
  foldl (fun v t => if in_ranges c t.1 then Z.lor v t.2 else v) 0 class_tables.

Example class_table_letter : class_table 65 = kL.
Proof. by vm_compute. Qed.
Example class_table_han : class_table 0x4E00 = Z.lor kL kCJK.
Proof. by vm_compute. Qed.
