(* ===== verification/Utf8.v ===== *)
(** UTF-8 as the tokenizer and the server read it ([src/text/tokenizer.cpp]): one code point
    at a time, lossy text, and what a stream holds back. *)

From Stdlib Require Import Ascii.
From S2P Require Import Prelude Json.

Inductive U8 := U8Ok | U8Invalid | U8Incomplete.
#[export] Instance U8_eq_dec : EqDecision U8.
Proof. solve_decision. Defined.

(** The lead byte of a longer sequence: its length, the bits it gives, and the range of the
    byte after it. *)
Definition lead_byte (b0 : Z) : option (nat * Z * Z * Z) :=
  if (0xC2 <=? b0) && (b0 <=? 0xDF) then Some (2%nat, Z.land b0 0x1F, 0x80, 0xBF)
  else if b0 =? 0xE0 then Some (3%nat, Z.land b0 0x0F, 0xA0, 0xBF)
  else if (0xE1 <=? b0) && (b0 <=? 0xEC) then Some (3%nat, Z.land b0 0x0F, 0x80, 0xBF)
  else if b0 =? 0xED then Some (3%nat, Z.land b0 0x0F, 0x80, 0x9F)
  else if (0xEE <=? b0) && (b0 <=? 0xEF) then Some (3%nat, Z.land b0 0x0F, 0x80, 0xBF)
  else if b0 =? 0xF0 then Some (4%nat, Z.land b0 0x07, 0x90, 0xBF)
  else if (0xF1 <=? b0) && (b0 <=? 0xF3) then Some (4%nat, Z.land b0 0x07, 0x80, 0xBF)
  else if b0 =? 0xF4 then Some (4%nat, Z.land b0 0x07, 0x80, 0x8F)
  else None.

(** The loop over the bytes after the lead: [more] to go, [k] read. *)
Fixpoint utf8_cont (more k : nat) (lo hi cp : Z) (t : text) : U8 * Z * nat :=
  match more with
  | O => (U8Ok, cp, k)
  | S more =>
      match t with
      | [] => (U8Incomplete, cp, k)
      | c :: t =>
          let b := byte_of c in
          if (b <? lo) || (hi <? b) then (U8Invalid, cp, k)
          else utf8_cont more (S k) 0x80 0xBF (Z.lor (Z.shiftl cp 6) (Z.land b 0x3F)) t
      end
  end.

(** [utf8_next] at the front of what is left of the text, which its callers keep non-empty. *)
Definition utf8_next (s : text) : U8 * Z * nat :=
  match s with
  | [] => (U8Invalid, 0, 1%nat)
  | c :: t =>
      let b0 := byte_of c in
      if b0 <? 0x80 then (U8Ok, b0, 1%nat)
      else match lead_byte b0 with
           | None => (U8Invalid, 0, 1%nat)
           | Some (n, cp, lo, hi) => utf8_cont (n - 1) 1 lo hi cp t
           end
  end.

Definition utf8_append (cp : Z) : text :=
  if cp <? 0x80 then [byte cp]
  else if cp <? 0x800 then [byte (Z.lor 0xC0 (Z.shiftr cp 6)); byte (Z.lor 0x80 (Z.land cp 0x3F))]
  else if cp <? 0x10000 then
    [byte (Z.lor 0xE0 (Z.shiftr cp 12)); byte (Z.lor 0x80 (Z.land (Z.shiftr cp 6) 0x3F));
     byte (Z.lor 0x80 (Z.land cp 0x3F))]
  else [byte (Z.lor 0xF0 (Z.shiftr cp 18)); byte (Z.lor 0x80 (Z.land (Z.shiftr cp 12) 0x3F));
        byte (Z.lor 0x80 (Z.land (Z.shiftr cp 6) 0x3F)); byte (Z.lor 0x80 (Z.land cp 0x3F))].

Definition kReplacement : text := [byte 0xEF; byte 0xBF; byte 0xBD].

(** [utf8_lossy]: the text and how many bytes at the end are held back.  Every round takes a
    byte at least, so the length of the text is enough fuel. *)
Fixpoint lossy_loop (fuel : nat) (hold : bool) (s : text) : text * nat :=
  match fuel, s with
  | O, _ | _, [] => ([], 0%nat)
  | S fuel, _ =>
      let '(r, _, len) := utf8_next s in
      let rest := lossy_loop fuel hold (drop len s) in
      match r with
      | U8Ok => (take len s ++ rest.1, rest.2)
      | _ => if bool_decide (r = U8Incomplete) && hold then ([], length s)
             else (kReplacement ++ rest.1, rest.2)
      end
  end.
Definition utf8_lossy (s : text) (hold_incomplete : bool) : text * nat := lossy_loop (length s) hold_incomplete s.
Definition lossy (s : text) : text := (utf8_lossy s false).1.

(** [encode_text]'s reading of the code points. *)
Fixpoint code_points_loop (fuel : nat) (s : text) : list Z :=
  match fuel, s with
  | O, _ | _, [] => []
  | S fuel, _ =>
      let '(r, c, len) := utf8_next s in
      (match r with U8Ok => c | _ => 0xFFFD end) :: code_points_loop fuel (drop len s)
  end.
Definition code_points (s : text) : list Z := code_points_loop (length s) s.

(** ** Bytes and bits *)

Lemma byte_of_range c : 0 <= byte_of c < 256.
Proof. unfold byte_of. pose proof (N_ascii_bounded c). lia. Qed.
Lemma byte_byte_of c : byte (byte_of c) = c.
Proof. unfold byte, byte_of. rewrite N2Z.id. apply ascii_N_embedding. Qed.
Lemma byte_of_byte b : 0 <= b < 256 -> byte_of (byte b) = b.
Proof. intros Hb. unfold byte, byte_of. rewrite N_ascii_embedding; lia. Qed.
Lemma byte_of_inj c d : byte_of c = byte_of d -> c = d.
Proof. intros H. by rewrite <- (byte_byte_of c), <- (byte_byte_of d), H. Qed.

Lemma land_mod x k m : 0 <= k -> m = Z.ones k -> Z.land x m = x mod 2 ^ k.
Proof. intros Hk ->. by apply Z.land_ones. Qed.
Lemma land_3F x : Z.land x 0x3F = x mod 64.
Proof. by apply (land_mod x 6). Qed.
Lemma shl6 cp b : Z.lor (Z.shiftl cp 6) (Z.land b 0x3F) = cp * 64 + b mod 64.
Proof. rewrite land_3F, lor_shiftl by lia. lia. Qed.
Lemma lor_high h a k x : h = Z.shiftl a k -> 0 <= k -> 0 <= x < 2 ^ k -> Z.lor h x = h + x.
Proof. intros -> Hk Hx. rewrite lor_shiftl, Z.shiftl_mul_pow2 by lia. lia. Qed.

(** A code point UTF-8 can write. *)
Definition scalar (cp : Z) : Prop := 0 <= cp < 0x110000 /\ ~ (0xD800 <= cp <= 0xDFFF).

(** [utf8_append] by division. *)
Lemma append_div cp : scalar cp ->
  utf8_append cp =
    if cp <? 0x80 then [byte cp]
    else if cp <? 0x800 then [byte (0xC0 + cp / 64); byte (0x80 + cp mod 64)]
    else if cp <? 0x10000 then [byte (0xE0 + cp / 4096); byte (0x80 + cp / 64 mod 64); byte (0x80 + cp mod 64)]
    else [byte (0xF0 + cp / 262144); byte (0x80 + cp / 4096 mod 64); byte (0x80 + cp / 64 mod 64); byte (0x80 + cp mod 64)].
Proof.
  intros [Hc _]. unfold utf8_append. rewrite !Z.shiftr_div_pow2, !land_3F by lia.
  change (2 ^ 6) with 64. change (2 ^ 12) with 4096. change (2 ^ 18) with 262144.
  rewrite !(lor_high 0x80 2 6) by (try done; apply Z.mod_pos_bound; lia).
  destruct (cp <? 0x80) eqn:H1; [done|]. destruct (cp <? 0x800) eqn:H2.
  { rewrite (lor_high 0xC0 6 5); [done|done|lia|]. split; [apply Z.div_pos; lia|apply Z.div_lt_upper_bound; lia]. }
  destruct (cp <? 0x10000) eqn:H3.
  - rewrite (lor_high 0xE0 14 4); [done|done|lia|]. split; [apply Z.div_pos; lia|apply Z.div_lt_upper_bound; lia].
  - rewrite (lor_high 0xF0 30 3); [done|done|lia|]. split; [apply Z.div_pos; lia|apply Z.div_lt_upper_bound; lia].
Qed.

(** [lead_byte] by the length it announces. *)
Lemma lead_byte_eq b : 0 <= b < 256 ->
  lead_byte b =
    if (0xC2 <=? b) && (b <=? 0xDF) then Some (2%nat, b - 0xC0, 0x80, 0xBF)
    else if (0xE0 <=? b) && (b <=? 0xEF) then
      Some (3%nat, b - 0xE0, if b =? 0xE0 then 0xA0 else 0x80, if b =? 0xED then 0x9F else 0xBF)
    else if (0xF0 <=? b) && (b <=? 0xF4) then
      Some (4%nat, b - 0xF0, if b =? 0xF0 then 0x90 else 0x80, if b =? 0xF4 then 0x8F else 0xBF)
    else None.
Proof.
  intros Hb. unfold lead_byte.
  rewrite (land_mod b 5 0x1F), (land_mod b 4 0x0F), (land_mod b 3 0x07) by done.
  change (2 ^ 5) with 32. change (2 ^ 4) with 16. change (2 ^ 3) with 8.
  repeat match goal with |- context [if ?c then _ else _] => destruct c eqn:? end;
    try lia; repeat (f_equal; try lia).
Qed.

Lemma lead_byte_none b : 0x80 <= b < 0xC2 -> lead_byte b = None.
Proof. intros Hb. rewrite lead_byte_eq by lia. repeat case_match; lia || done. Qed.

(** The continuation loop consumes what it reads. *)
Lemma cont_spec more k lo hi cp t r cp' len : utf8_cont more k lo hi cp t = (r, cp', len) ->
  (k <= len <= k + length t)%nat /\ (r = U8Incomplete -> len = (k + length t)%nat) /\ (len <= k + more)%nat.
Proof.
  revert k lo hi cp t. induction more as [|more IH]; intros k lo hi cp t; cbn; [intros [= <- <- <-]; split_and!; done || lia|].
  destruct t as [|c t]; [intros [= <- <- <-]; cbn; split_and!; done || lia|].
  destruct (_ || _); [intros [= <- <- <-]; cbn; split_and!; done || lia|].
  intros H. apply IH in H as (H1 & H2 & H3). cbn. split_and!; [lia..| |lia]. intros Hr. specialize (H2 Hr). lia.
Qed.

Lemma cont_app more k lo hi cp t u r cp' len : utf8_cont more k lo hi cp t = (r, cp', len) -> r <> U8Incomplete ->
  utf8_cont more k lo hi cp (t ++ u) = (r, cp', len).
Proof.
  revert k lo hi cp t. induction more as [|more IH]; intros k lo hi cp t; cbn; [done|].
  destruct t as [|c t]; [intros [= <- <- <-]; done|]. cbn. case_match; [done|]. apply IH.
Qed.

Lemma next_len s r cp len : s <> [] -> utf8_next s = (r, cp, len) ->
  (1 <= len <= length s)%nat /\ (r = U8Incomplete -> len = length s).
Proof.
  destruct s as [|c t]; [done|]. intros _. cbn [utf8_next length].
  destruct (_ <? _); [intros [= <- <- <-]; split; [lia|done]|].
  destruct (lead_byte _) as [[[[n cp0] lo] hi]|]; [|intros [= <- <- <-]; split; [lia|done]].
  intros H. apply cont_spec in H as (H1 & H2 & _). split; [lia|]. intros Hr. specialize (H2 Hr). lia.
Qed.

Lemma next_app s u r cp len : s <> [] -> utf8_next s = (r, cp, len) -> r <> U8Incomplete ->
  utf8_next (s ++ u) = (r, cp, len).
Proof.
  destruct s as [|c t]; [done|]. intros _. cbn [utf8_next app].
  destruct (_ <? _); [done|]. destruct (lead_byte _) as [[[[n cp0] lo] hi]|]; [|done]. apply cont_app.
Qed.

(** What a byte after the lead adds. *)
Lemma cont_step more k lo hi cp c t : 0x80 <= lo -> hi <= 0xBF -> lo <= byte_of c <= hi ->
  utf8_cont (S more) k lo hi cp (c :: t) = utf8_cont more (S k) 0x80 0xBF (cp * 64 + (byte_of c - 0x80)) t.
Proof.
  intros Hlo Hhi Hc. cbn [utf8_cont]. rewrite (proj2 (orb_false_iff _ _)) by (split; lia). rewrite shl6.
  do 2 f_equal. rewrite <- (Z.mod_unique_pos (byte_of c) 64 2 (byte_of c - 128)); lia.
Qed.
Lemma cont_ok_inv more k lo hi cp t cp' len : utf8_cont (S more) k lo hi cp t = (U8Ok, cp', len) ->
  exists c t', t = c :: t' /\ lo <= byte_of c <= hi.
Proof.
  destruct t as [|c t]; [done|]. cbn. destruct (_ || _) eqn:E; [done|]. intros _.
  exists c, t. split; [done|]. apply orb_false_iff in E. lia.
Qed.

(** ** Reading what was written, and writing what was read *)

Ltac split_ifs := repeat match goal with
  | |- context [if ?c then _ else _] => destruct c eqn:?
  | H : context [if ?c then _ else _] |- _ => destruct c eqn:?
  end.

(** The bytes of a sequence of each length. *)
Definition seq2 (a b : Z) : text := [byte (0xC0 + a); byte (0x80 + b)].
Definition seq3 (a b c : Z) : text := [byte (0xE0 + a); byte (0x80 + b); byte (0x80 + c)].
Definition seq4 (a b c d : Z) : text := [byte (0xF0 + a); byte (0x80 + b); byte (0x80 + c); byte (0x80 + d)].

Lemma next_seq2 a b t : 2 <= a < 32 -> 0 <= b < 64 -> utf8_next (seq2 a b ++ t) = (U8Ok, a * 64 + b, 2%nat).
Proof.
  intros Ha Hb. cbn [seq2 app utf8_next]. rewrite byte_of_byte by lia.
  rewrite (proj2 (Z.ltb_ge _ _)) by lia. rewrite lead_byte_eq by lia. split_ifs; try lia.
  cbn [Nat.sub]. rewrite cont_step; rewrite ?byte_of_byte; try lia. cbn. do 2 f_equal. lia.
Qed.
Lemma next_seq3 a b c t : 0 <= a < 16 -> 0 <= b < 64 -> 0 <= c < 64 -> (a = 0 -> 32 <= b) -> (a = 13 -> b < 32) ->
  utf8_next (seq3 a b c ++ t) = (U8Ok, a * 4096 + b * 64 + c, 3%nat).
Proof.
  intros Ha Hb Hc H0 H13. cbn [seq3 app utf8_next]. rewrite byte_of_byte by lia.
  rewrite (proj2 (Z.ltb_ge _ _)) by lia. rewrite lead_byte_eq by lia.
  rewrite (proj2 (andb_false_iff _ _)), (proj2 (andb_true_iff _ _)) by lia.
  cbn [Nat.sub]. rewrite cont_step; [|split_ifs; lia..|rewrite byte_of_byte by lia; split_ifs; lia].
  rewrite cont_step; rewrite ?byte_of_byte; try lia. cbn. do 2 f_equal. lia.
Qed.
Lemma next_seq4 a b c d t : 0 <= a < 5 -> 0 <= b < 64 -> 0 <= c < 64 -> 0 <= d < 64 -> (a = 0 -> 16 <= b) -> (a = 4 -> b < 16) ->
  utf8_next (seq4 a b c d ++ t) = (U8Ok, a * 262144 + b * 4096 + c * 64 + d, 4%nat).
Proof.
  intros Ha Hb Hc Hd H0 H4. cbn [seq4 app utf8_next]. rewrite byte_of_byte by lia.
  rewrite (proj2 (Z.ltb_ge _ _)) by lia. rewrite lead_byte_eq by lia.
  rewrite 2!(proj2 (andb_false_iff _ _)), (proj2 (andb_true_iff _ _)) by lia.
  cbn [Nat.sub]. rewrite cont_step; [|split_ifs; lia..|rewrite byte_of_byte by lia; split_ifs; lia].
  do 2 (rewrite cont_step; rewrite ?byte_of_byte; try lia). cbn. do 2 f_equal. lia.
Qed.

(** [utf8_append] writes one of these. *)
Lemma append_cases cp : scalar cp ->
  (cp < 0x80 /\ utf8_append cp = [byte cp]) \/
  (exists a b, 2 <= a < 32 /\ 0 <= b < 64 /\ cp = a * 64 + b /\ utf8_append cp = seq2 a b) \/
  (exists a b c, 0 <= a < 16 /\ 0 <= b < 64 /\ 0 <= c < 64 /\ (a = 0 -> 32 <= b) /\ (a = 13 -> b < 32) /\
    cp = a * 4096 + b * 64 + c /\ utf8_append cp = seq3 a b c) \/
  (exists a b c d, 0 <= a < 5 /\ 0 <= b < 64 /\ 0 <= c < 64 /\ 0 <= d < 64 /\ (a = 0 -> 16 <= b) /\ (a = 4 -> b < 16) /\
    cp = a * 262144 + b * 4096 + c * 64 + d /\ utf8_append cp = seq4 a b c d).
Proof.
  intros Hs. rewrite (append_div cp Hs). destruct Hs as [Hc Hn]. split_ifs; [left; split; [lia|done]|right..].
  - left. exists (cp / 64), (cp mod 64). split_and!; try done; Z.to_euclidean_division_equations; lia.
  - right. left. exists (cp / 4096), (cp / 64 mod 64), (cp mod 64).
    split_and!; try done; Z.to_euclidean_division_equations; lia.
  - right. right. exists (cp / 262144), (cp / 4096 mod 64), (cp / 64 mod 64), (cp mod 64).
    split_and!; try done; Z.to_euclidean_division_equations; lia.
Qed.

Lemma next_append cp t : scalar cp -> utf8_next (utf8_append cp ++ t) = (U8Ok, cp, length (utf8_append cp)).
Proof.
  intros Hs. destruct (append_cases cp Hs) as [(Hc & ->)|[(a & b & Ha & Hb & -> & ->)|[(a & b & c & Ha & Hb & Hc & H0 & H1 & -> & ->)|
    (a & b & c & d & Ha & Hb & Hc & Hd & H0 & H1 & -> & ->)]]].
  - destruct Hs. cbn. rewrite byte_of_byte by lia. by rewrite (proj2 (Z.ltb_lt _ _)).
  - by rewrite next_seq2.
  - by rewrite next_seq3.
  - by rewrite next_seq4.
Qed.

Lemma append_seq2 a b : 2 <= a < 32 -> 0 <= b < 64 -> utf8_append (a * 64 + b) = seq2 a b.
Proof.
  intros Ha Hb. rewrite append_div by (split; lia). split_ifs; try lia.
  unfold seq2. repeat f_equal; Z.to_euclidean_division_equations; lia.
Qed.
Lemma append_seq3 a b c : 0 <= a < 16 -> 0 <= b < 64 -> 0 <= c < 64 -> (a = 0 -> 32 <= b) -> (a = 13 -> b < 32) ->
  utf8_append (a * 4096 + b * 64 + c) = seq3 a b c.
Proof.
  intros Ha Hb Hc H0 H1. rewrite append_div by (split; lia). split_ifs; try lia.
  unfold seq3. repeat f_equal; Z.to_euclidean_division_equations; lia.
Qed.
Lemma append_seq4 a b c d : 0 <= a < 5 -> 0 <= b < 64 -> 0 <= c < 64 -> 0 <= d < 64 -> (a = 0 -> 16 <= b) -> (a = 4 -> b < 16) ->
  utf8_append (a * 262144 + b * 4096 + c * 64 + d) = seq4 a b c d.
Proof.
  intros Ha Hb Hc Hd H0 H1. rewrite append_div by (split; lia). split_ifs; try lia.
  unfold seq4. repeat f_equal; Z.to_euclidean_division_equations; lia.
Qed.

Lemma as_byte c k : c = byte (k + (byte_of c - k)).
Proof. rewrite <- (byte_byte_of c) at 1. f_equal. lia. Qed.

Lemma next_ok s cp len : s <> [] -> utf8_next s = (U8Ok, cp, len) ->
  scalar cp /\ len = length (utf8_append cp) /\ exists t, s = utf8_append cp ++ t.
Proof.
  destruct s as [|c0 s]; [done|]. intros _. cbn [utf8_next]. pose proof (byte_of_range c0) as H0.
  destruct (byte_of c0 <? 0x80) eqn:E0.
  { intros [= <- <-]. assert (Ha : utf8_append (byte_of c0) = [c0]); [|rewrite Ha; split; [split; lia|split; [done|by exists s]]].
    unfold utf8_append. by rewrite E0, byte_byte_of. }
  rewrite lead_byte_eq by lia.
  destruct ((0xC2 <=? _) && _) eqn:E1; [|destruct ((0xE0 <=? _) && _) eqn:E2; [|destruct ((0xF0 <=? _) && _) eqn:E3; [|done]]];
    cbn [Nat.sub]; intros Hn.
  1: destruct (cont_ok_inv _ _ _ _ _ _ _ _ Hn) as (c1 & s1 & -> & H1); rewrite cont_step in Hn by lia;
     injection Hn as <- <-; rewrite append_seq2 by lia; split; [split; lia|split; [done|]];
     exists s1; unfold seq2; by rewrite <- (as_byte c0), <- (as_byte c1).
  1: assert (Hr : 0x80 <= (if byte_of c0 =? 0xE0 then 0xA0 else 0x80) /\ (if byte_of c0 =? 0xED then 0x9F else 0xBF) <= 0xBF)
       by (split_ifs; lia).
  2: assert (Hr : 0x80 <= (if byte_of c0 =? 0xF0 then 0x90 else 0x80) /\ (if byte_of c0 =? 0xF4 then 0x8F else 0xBF) <= 0xBF)
       by (split_ifs; lia).
  all: destruct (cont_ok_inv _ _ _ _ _ _ _ _ Hn) as (c1 & s1 & -> & H1); rewrite cont_step in Hn by lia.
  all: destruct (cont_ok_inv _ _ _ _ _ _ _ _ Hn) as (c2 & s2 & -> & H2); rewrite cont_step in Hn by lia.
  - injection Hn as <- <-.
    replace (((_ - 224) * 64 + (_ - 128)) * 64 + _) with ((byte_of c0 - 0xE0) * 4096 + (byte_of c1 - 0x80) * 64 + (byte_of c2 - 0x80)) by lia.
    assert (byte_of c0 - 0xE0 = 0 -> 32 <= byte_of c1 - 0x80) by (intros; split_ifs; lia).
    assert (byte_of c0 - 0xE0 = 13 -> byte_of c1 - 0x80 < 32) by (intros; split_ifs; lia).
    rewrite append_seq3 by lia. split; [split; lia|split; [done|]].
    exists s2. unfold seq3. by rewrite <- (as_byte c0), <- (as_byte c1), <- (as_byte c2).
  - destruct (cont_ok_inv _ _ _ _ _ _ _ _ Hn) as (c3 & s3 & -> & H3). rewrite cont_step in Hn by lia.
    injection Hn as <- <-.
    replace ((((_ - 240) * 64 + (_ - 128)) * 64 + (_ - 128)) * 64 + _)
      with ((byte_of c0 - 0xF0) * 262144 + (byte_of c1 - 0x80) * 4096 + (byte_of c2 - 0x80) * 64 + (byte_of c3 - 0x80)) by lia.
    assert (byte_of c0 - 0xF0 = 0 -> 16 <= byte_of c1 - 0x80) by (intros; split_ifs; lia).
    assert (byte_of c0 - 0xF0 = 4 -> byte_of c1 - 0x80 < 16) by (intros; split_ifs; lia).
    rewrite append_seq4 by lia. split; [split; lia|split; [done|]].
    exists s3. unfold seq4. by rewrite <- (as_byte c0), <- (as_byte c1), <- (as_byte c2), <- (as_byte c3).
Qed.

(** ** Lossy text *)

Lemma next_ind (P : text -> Prop) :
  P [] -> (forall s r cp len, s <> [] -> utf8_next s = (r, cp, len) -> P (drop len s) -> P s) -> forall s, P s.
Proof.
  intros H0 Hs s. remember (length s) as n eqn:Hn. revert s Hn. induction (lt_wf n) as [n _ IH]. intros s ->.
  destruct (decide (s = [])) as [->|Hne]; [done|].
  destruct (utf8_next s) as [[r cp] len] eqn:E. apply (Hs s r cp len Hne E).
  destruct (next_len s r cp len Hne E) as [Hl _]. apply (IH (length (drop len s))); [rewrite length_drop; lia|done].
Qed.

Lemma lossy_fuel f hold s : (length s <= f)%nat -> lossy_loop f hold s = lossy_loop (length s) hold s.
Proof.
  revert f. induction s as [|s r cp len Hne E IH] using next_ind; intros f Hf; [by destruct f|].
  destruct (next_len s r cp len Hne E) as [Hl _].
  destruct f as [|f]; [lia|]. destruct s as [|c s]; [done|]. cbn [lossy_loop length].
  rewrite E. rewrite (IH f), (IH (length s)) by (rewrite length_drop; cbn [length] in *; lia). done.
Qed.
Lemma code_points_fuel f s : (length s <= f)%nat -> code_points_loop f s = code_points s.
Proof.
  revert f. induction s as [|s r cp len Hne E IH] using next_ind; intros f Hf; [by destruct f|].
  destruct (next_len s r cp len Hne E) as [Hl _].
  destruct f as [|f]; [lia|]. destruct s as [|c s]; [done|]. unfold code_points. cbn [code_points_loop length].
  rewrite E. rewrite (IH f), (IH (length s)) by (rewrite length_drop; cbn [length] in *; lia). done.
Qed.

(** One round of [utf8_lossy] and of reading code points. *)
Lemma lossy_step s hold r cp len : s <> [] -> utf8_next s = (r, cp, len) ->
  utf8_lossy s hold =
    match r with
    | U8Ok => (take len s ++ (utf8_lossy (drop len s) hold).1, (utf8_lossy (drop len s) hold).2)
    | _ => if bool_decide (r = U8Incomplete) && hold then ([], length s)
           else (kReplacement ++ (utf8_lossy (drop len s) hold).1, (utf8_lossy (drop len s) hold).2)
    end.
Proof.
  intros Hne E. destruct (next_len s r cp len Hne E) as [Hl _].
  unfold utf8_lossy at 1. destruct s as [|c s]; [done|]. cbn [lossy_loop length] in *. rewrite E.
  rewrite (lossy_fuel (length s)) by (rewrite length_drop; cbn [length]; lia). done.
Qed.
Lemma code_points_step s r cp len : s <> [] -> utf8_next s = (r, cp, len) ->
  code_points s = (match r with U8Ok => cp | _ => 0xFFFD end) :: code_points (drop len s).
Proof.
  intros Hne E. destruct (next_len s r cp len Hne E) as [Hl _].
  unfold code_points at 1. destruct s as [|c s]; [done|]. cbn [code_points_loop length] in *. rewrite E.
  rewrite code_points_fuel by (rewrite length_drop; cbn [length]; lia). done.
Qed.

Definition encode_points (cps : list Z) : text := flat_map utf8_append cps.

(** Lossy text is the encoding of the code points read. *)
Lemma lossy_points s : lossy s = encode_points (code_points s) /\ Forall scalar (code_points s).
Proof.
  induction s as [|s r cp len Hne E [IH IHs]] using next_ind; [split; [done|constructor]|].
  unfold lossy in *. rewrite (lossy_step s false r cp len Hne E), (code_points_step s r cp len Hne E).
  assert (Hf : scalar 0xFFFD) by (split; lia).
  destruct r; rewrite ?andb_false_r; cbn [fst encode_points flat_map]; fold (encode_points (code_points (drop len s))); rewrite IH.
  - destruct (next_ok s cp len Hne E) as (Hs & -> & t & Ht). split; [|by constructor].
    rewrite Ht at 1. by rewrite take_app_length.
  - split; [done|by constructor].
  - split; [done|by constructor].
Qed.

Lemma append_nonempty cp : utf8_append cp <> [].
Proof. unfold utf8_append. split_ifs; done. Qed.

Lemma lossy_append cp t : scalar cp -> lossy (utf8_append cp ++ t) = utf8_append cp ++ lossy t.
Proof.
  intros Hs. pose proof (next_append cp t Hs) as E. unfold lossy.
  rewrite (lossy_step _ false _ _ _ (fun H => append_nonempty cp (proj1 (app_eq_nil _ _ H))) E).
  cbn [fst]. by rewrite take_app_length, drop_app_length.
Qed.
Lemma lossy_encoded cps t : Forall scalar cps -> lossy (encode_points cps ++ t) = encode_points cps ++ lossy t.
Proof.
  induction 1 as [|cp cps Hs _ IH]; [done|]. cbn. rewrite <- !app_assoc, lossy_append by done.
  f_equal. apply IH.
Qed.
Lemma lossy_idem s : lossy (lossy s) = lossy s.
Proof.
  destruct (lossy_points s) as [-> Hs]. rewrite <- (app_nil_r (encode_points _)) at 1.
  rewrite lossy_encoded by done. by rewrite app_nil_r.
Qed.
Lemma lossy_valid_app s t : lossy s = s -> lossy (s ++ t) = s ++ lossy t.
Proof.
  intros H. destruct (lossy_points s) as [He Hs]. rewrite <- H at 1 2. rewrite He. by apply lossy_encoded.
Qed.

(** What was decoded with [hold_incomplete] stays decoded, whatever comes next. *)
Lemma lossy_held s : ((utf8_lossy s true).2 <= length s)%nat /\
  forall t, lossy (s ++ t) = (utf8_lossy s true).1 ++ lossy (drop (length s - (utf8_lossy s true).2) s ++ t).
Proof.
  induction s as [|s r cp len Hne E [IHl IH]] using next_ind; [done|].
  destruct (next_len s r cp len Hne E) as [Hl _]. rewrite (lossy_step s true r cp len Hne E).
  assert (Hnil : forall t, s ++ t <> []) by (intros t [H _]%app_eq_nil; done).
  destruct (decide (r = U8Incomplete)) as [->|Hr].
  { cbn [fst snd andb bool_decide]. rewrite (bool_decide_eq_true_2 _ eq_refl). cbn. rewrite Nat.sub_diag. done. }
  assert (Hd : forall t, drop len (s ++ t) = drop len s ++ t).
  { intros t. rewrite drop_app. by replace (len - length s)%nat with 0%nat by lia. }
  assert (Hh : forall h, (h <= length (drop len s))%nat ->
    drop (length s - h) s = drop (length (drop len s) - h) (drop len s)).
  { intros h Hh. rewrite length_drop in *. rewrite drop_drop. f_equal. lia. }
  rewrite length_drop in IHl.
  assert (Hgo : forall t, lossy (s ++ t) = match r with U8Ok => take len s | _ => kReplacement end ++ lossy (drop len s ++ t)).
  { intros t. unfold lossy. rewrite (lossy_step _ false _ _ _ (Hnil t) (next_app s t r cp len Hne E Hr)), Hd, andb_false_r.
    destruct r; cbn [fst]; [|done..]. rewrite take_app_le by lia. done. }
  destruct r; [| |done]; cbn [fst snd andb]; rewrite ?(bool_decide_eq_false_2 _ Hr); cbn [fst snd andb].
  all: split; [lia|]; intros t; rewrite Hgo, (IH t), Hh by (rewrite length_drop; lia); by rewrite !app_assoc.
Qed.

(** A byte no sequence continues with. *)
Definition starts_char (c : ascii) : Prop := byte_of c < 0x80 \/ 0xC0 <= byte_of c.

Lemma cont_cut more k lo hi cp s cp' len c t : 0x80 <= lo -> hi <= 0xBF ->
  utf8_cont more k lo hi cp s = (U8Incomplete, cp', len) -> starts_char c ->
  utf8_cont more k lo hi cp (s ++ c :: t) = (U8Invalid, cp', len).
Proof.
  intros Hlo Hhi H Hc. revert k lo hi cp s Hlo Hhi H. induction more as [|more IH]; intros k lo hi cp s Hlo Hhi; cbn; [done|].
  destruct s as [|d s]; cbn.
  - intros [= <- <-]. rewrite (proj2 (orb_true_iff _ _)); [done|]. destruct Hc; lia.
  - destruct (_ || _); [done|]. by apply IH.
Qed.
Lemma next_cut s cp len c t : s <> [] -> utf8_next s = (U8Incomplete, cp, len) -> starts_char c ->
  utf8_next (s ++ c :: t) = (U8Invalid, cp, len).
Proof.
  destruct s as [|d s]; [done|]. intros _. cbn [utf8_next app].
  destruct (_ <? _); [done|]. rewrite lead_byte_eq by apply byte_of_range.
  split_ifs; try done; intros H Hc; eapply cont_cut; eauto; lia.
Qed.

(** Text cut where a character starts is read in two parts. *)
Lemma lossy_cut s c t : starts_char c -> lossy (s ++ c :: t) = lossy s ++ lossy (c :: t).
Proof.
  intros Hc. induction s as [|s r cp len Hne E IH] using next_ind; [done|].
  destruct (next_len s r cp len Hne E) as [Hl Hi].
  assert (Hnil : s ++ c :: t <> []) by (intros [H _]%app_eq_nil; done).
  assert (Hd : drop len (s ++ c :: t) = drop len s ++ c :: t).
  { rewrite drop_app. by replace (len - length s)%nat with 0%nat by lia. }
  unfold lossy in *. rewrite (lossy_step s false r cp len Hne E).
  destruct (decide (r = U8Incomplete)) as [->|Hr].
  - rewrite (lossy_step _ false _ _ _ Hnil (next_cut s cp len c t Hne E Hc)), Hd, !andb_false_r.
    cbn [fst]. by rewrite IH, app_assoc.
  - rewrite (lossy_step _ false _ _ _ Hnil (next_app s _ r cp len Hne E Hr)), Hd, !andb_false_r.
    destruct r; cbn [fst]; rewrite IH, ?app_assoc; try done. by rewrite take_app_le by lia.
Qed.

Lemma append_starts cp t : scalar cp -> exists c u, utf8_append cp ++ t = c :: u /\ starts_char c.
Proof.
  intros Hs. destruct (append_cases cp Hs) as [(Hc & ->)|[(a & b & Ha & Hb & -> & ->)|[(a & b & c & Ha & Hb & Hc & H0 & H1 & -> & ->)|
    (a & b & c & d & Ha & Hb & Hc & Hd & H0 & H1 & -> & ->)]]]; eexists _, _; (split; [reflexivity|]).
  all: destruct Hs; unfold starts_char; rewrite byte_of_byte by lia; lia.
Qed.

(** Valid text begins where a character starts. *)
Lemma valid_starts s : s <> [] -> lossy s = s -> exists c u, s = c :: u /\ starts_char c.
Proof.
  intros Hne H. destruct (lossy_points s) as [He Hs]. rewrite He in H.
  destruct (code_points s) as [|cp cps]; [by rewrite <- H in Hne|]. apply Forall_cons in Hs as [Hc _].
  rewrite <- H. by apply append_starts.
Qed.
