(* ===== verification/Tokenizer.v ===== *)
(** The tokenizer ([src/text/tokenizer.h], [tokenizer.cpp]): byte-level BPE read from a
    checkpoint's tokenizer.json.

    Texts are lists of bytes, positions are naturals ([size_t] and [uint32_t] in the source:
    texts are shorter than 4 GiB).  A loaded tokenizer is an [Impl]; a default-constructed one
    has none.  A null or failed result dereferenced, or an array written past its end, is the
    error [Internal].  What an unordered map iterates in is a parameter of [load]. *)

From Stdlib Require Import Ascii.
From S2P Require Import Prelude Json Unicode Utf8.

(** ** The byte-level alphabet ([ByteMap]) *)

Definition byte_kept (b : Z) : bool := ((33 <=? b) && (b <=? 126)) || ((161 <=? b) && (b <=? 172)) || (174 <=? b).

Record ByteMap := { to_char : list Z; to_byte : list Z }.
Definition byte_map_step (st : ByteMap * Z) (b : Z) : ByteMap * Z :=
  let '(m, extra) := st in
  let c := if byte_kept b then b else 256 + extra in
  ({| to_char := to_char m ++ [c]; to_byte := <[Z.to_nat c := b]> (to_byte m) |},
   if byte_kept b then extra else extra + 1).
Definition byte_map : ByteMap :=
  Eval vm_compute in (foldl byte_map_step ({| to_char := []; to_byte := replicate 512 (-1) |}, 0) (seqZ 0 256)).1.
Definition char_of_byte (b : Z) : Z := nth (Z.to_nat b) (to_char byte_map) 0.
Definition byte_of_char (cp : Z) : Z := nth (Z.to_nat cp) (to_byte byte_map) 0.

(** The decoder's rule for a token: its bytes, or its own text when a character is not a
    byte-level one. *)
Fixpoint token_bytes_loop (fuel : nat) (s out : text) : option text :=
  match fuel, s with
  | O, _ | _, [] => Some out
  | S fuel, _ =>
      let '(r, cp, len) := utf8_next s in
      if negb (bool_decide (r = U8Ok)) || (512 <=? cp) || (byte_of_char cp <? 0) then None
      else token_bytes_loop fuel (drop len s) (out ++ [byte (byte_of_char cp)])
  end.
Definition bytes_of_token_string (s : text) : text := default s (token_bytes_loop (length s) s []).

(** ** The trie of added tokens *)

Record Trie := { nodes : list Z; edges : gmap Z nat }.
Definition Trie_new : Trie := {| nodes := [-1]; edges := ∅ |}.
Definition i32 (x : Z) : Z := let y := u32 x in if y <? 2 ^ 31 then y else y - 2 ^ 32.
Definition edge_key (n : nat) (b : ascii) : Z := Z.lor (Z.shiftl (Z.of_nat n) 8) (byte_of b).

Definition trie_step (st : Trie * nat) (b : ascii) : Trie * nat :=
  let '(t, n) := st in
  match edges t !! edge_key n b with
  | Some m => (t, m)
  | None => let m := length (nodes t) in
            ({| nodes := nodes t ++ [-1]; edges := <[edge_key n b := m]> (edges t) |}, m)
  end.
Definition trie_insert (t : Trie) (s : text) (id : Z) : Trie :=
  let '(t, n) := foldl trie_step (t, 0%nat) s in
  {| nodes := <[n := i32 id]> (nodes t); edges := edges t |}.

Definition node_id (t : Trie) (n : nat) : Z := nth n (nodes t) (-1).
Fixpoint longest_loop (t : Trie) (n k : nat) (s : text) (best : nat * Z) : nat * Z :=
  match s with
  | [] => best
  | b :: s =>
      match edges t !! edge_key n b with
      | None => best
      | Some m => longest_loop t m (S k) s (if 0 <=? node_id t m then (S k, u32 (node_id t m)) else best)
      end
  end.
(** The longest token at [s[i]]: its length (0 for none) and its id. *)
Definition longest_at (t : Trie) (s : text) (i : nat) : nat * Z := longest_loop t 0 0 (drop i s) (0%nat, 0).
Definition trie_empty (t : Trie) : bool := Nat.eqb (length (nodes t)) 1.

(** ** Segments: added tokens and the text between them *)

Record Segment := { seg_begin : nat; seg_end : nat; seg_id : Z }.
Definition Seg (b e : nat) (id : Z) : Segment := {| seg_begin := b; seg_end := e; seg_id := id |}.

Fixpoint split_seg (fuel : nat) (t : Trie) (sub : text) (stop last i : nat) : list Segment :=
  match fuel with
  | S fuel =>
      if (i <? stop)%nat then
        let '(n, id) := longest_at t sub i in
        if (n =? 0)%nat then split_seg fuel t sub stop last (S i)
        else (if (last <? i)%nat then [Seg last i (-1)] else []) ++
             Seg i (i + n) id :: split_seg fuel t sub stop (i + n) (i + n)
      else if (last <? stop)%nat then [Seg last stop (-1)] else []
  | O => if (last <? stop)%nat then [Seg last stop (-1)] else []
  end.
Definition split_on (t : Trie) (s : text) (segs : list Segment) : list Segment :=
  if trie_empty t then segs
  else flat_map (fun g =>
         if 0 <=? seg_id g then [g]
         else split_seg (seg_end g - seg_begin g) t (take (seg_end g) s) (seg_end g) (seg_begin g) (seg_begin g)) segs.

(** ** Pre-tokenisation *)

Record Piece := { pc_b : nat; pc_e : nat }.
Definition Pc (b e : nat) : Piece := {| pc_b := b; pc_e := e |}.

Fixpoint isolate (fuel : nat) (m : nat -> nat -> nat) (e last i : nat) : list Piece :=
  match fuel with
  | S fuel =>
      if (i <? e)%nat then
        let n := m i e in
        if (n =? 0)%nat then isolate fuel m e last (S i)
        else (if (last <? i)%nat then [Pc last i] else []) ++ Pc i (i + n) :: isolate fuel m e (i + n) (i + n)
      else if (last <? e)%nat then [Pc last e] else []
  | O => if (last <? e)%nat then [Pc last e] else []
  end.
Definition split_isolated (m : nat -> nat -> nat) (ps : list Piece) : list Piece :=
  flat_map (fun p => isolate (pc_e p - pc_b p) m (pc_e p) (pc_b p) (pc_b p)) ps.

Definition is_ascii_punct (c : Z) : bool :=
  ((0x21 <=? c) && (c <=? 0x2F)) || ((0x3A <=? c) && (c <=? 0x40)) ||
  ((0x5B <=? c) && (c <=? 0x60)) || ((0x7B <=? c) && (c <=? 0x7E)).
Definition is_ascii_alpha (c : Z) : bool := ((65 <=? c) && (c <=? 90)) || ((97 <=? c) && (c <=? 122)).

(** [while (j < e && f(j)) ++j]; the fuel is the distance to [e]. *)
Fixpoint run_loop (fuel : nat) (f : nat -> bool) (e j : nat) : nat :=
  match fuel with
  | S fuel => if (j <? e)%nat && f j then run_loop fuel f e (S j) else j
  | O => j
  end.
Definition run (f : nat -> bool) (e j : nat) : nat := run_loop (e - j) f e j.
(** [for (k = j; k > i; --k) if (f(k - 1)) return k] *)
Fixpoint last_such (f : nat -> bool) (i k : nat) : option nat :=
  match k with
  | O => None
  | S k' => if (i <? k)%nat then if f k' then Some k else last_such f i k' else None
  end.

Section Pieces.
Context (cp : list Z).
Definition cp_at (i : nat) : Z := nth i cp 0.
Definition has (i : nat) (bits : Z) : bool := negb (Z.land (class_table (cp_at i)) bits =? 0).
Definition crlf (i : nat) : bool := (cp_at i =? 13) || (cp_at i =? 10).

Definition match_digits (i e : nat) : nat := (run (fun j => (j <? i + 3)%nat && has j kN) e i - i)%nat.
Definition match_cjk (i e : nat) : nat := (run (fun j => has j kCJK) e i - i)%nat.

(** The whitespace alternatives A4 to A6. *)
Definition match_space (i e : nat) : nat :=
  if negb (has i kWS) then 0%nat
  else let j := run (fun j => has j kWS) e i in
       match last_such crlf i j with
       | Some k => (k - i)%nat
       | None => if (j =? e)%nat then (j - i)%nat else if (2 <=? j - i)%nat then (j - 1 - i)%nat else (j - i)%nat
       end.
Definition match_words (i e : nat) : nat :=
  let lm := Z.lor kL kM in
  let ps := Z.lor kP kS in
  if is_ascii_punct (cp_at i) && (i + 1 <? e)%nat && is_ascii_alpha (cp_at (i + 1)) then
    (run (fun j => is_ascii_alpha (cp_at j)) e (i + 1) - i)%nat
  else
    let opt := negb (crlf i) && negb (has i (Z.lor kL ps)) in
    let j2 := if opt && (i + 1 <? e)%nat && has (i + 1) lm then (i + 1)%nat else i in
    if has j2 lm then (run (fun j => has j lm) e j2 - i)%nat
    else
      let j3 := if (cp_at i =? 32) && (i + 1 <? e)%nat && has (i + 1) ps then (i + 1)%nat else i in
      if has j3 ps then (run crlf e (run (fun j => has j ps) e j3) - i)%nat
      else match_space i e.

Definition pieces : list Piece :=
  split_isolated match_words (split_isolated match_cjk (split_isolated match_digits [Pc 0 (length cp)])).
End Pieces.

(** ** Byte-pair encoding ([Word::merge_all]) *)

Abbreviation Merges := (gmap Z (Z * Z)).
Definition pair_of (a b : Z) : Z := Z.lor (Z.shiftl a 32) b.

Record Sym := { y_c : Z; y_prev : Z; y_next : Z; y_len : Z }.
Record M := { m_pos : nat; m_rank : Z; m_id : Z }.

(** The order of the queue: lowest rank, then leftmost.  Entries that tie name the same pair
    of the same word, so which of them comes first makes no difference. *)
Definition m_before (a b : M) : bool :=
  if m_rank a =? m_rank b then (m_pos a <? m_pos b)%nat else m_rank a <? m_rank b.
Fixpoint pop (q : list M) : option (M * list M) :=
  match q with
  | [] => None
  | m :: q' => match pop q' with
               | Some (b, r) => if m_before b m then Some (b, m :: r) else Some (m, q')
               | None => Some (m, [])
               end
  end.

Definition sym0 : Sym := {| y_c := 0; y_prev := -1; y_next := -1; y_len := 0 |}.
Definition sym_at (sym : list Sym) (i : nat) : Sym := nth i sym sym0.
Definition push_pair (ms : Merges) (pos : nat) (a b : Z) (q : list M) : list M :=
  match ms !! pair_of a b with
  | Some (rank, id) => {| m_pos := pos; m_rank := rank; m_id := id |} :: q
  | None => q
  end.
Definition set_prev (p : Z) (s : Sym) : Sym := {| y_c := y_c s; y_prev := p; y_next := y_next s; y_len := y_len s |}.
Definition set_len0 (s : Sym) : Sym := {| y_c := y_c s; y_prev := y_prev s; y_next := y_next s; y_len := 0 |}.

(** The merge of the symbol at [pos] with its successor. *)
Definition merge_at (ms : Merges) (pos : nat) (id : Z) (sym : list Sym) (q : list M) : list Sym * list M :=
  let cur := sym_at sym pos in
  let next_pos := Z.to_nat (y_next cur) in
  let right := sym_at sym next_pos in
  let cur' := {| y_c := id; y_prev := y_prev cur; y_next := y_next right; y_len := u32 (y_len cur + y_len right) |} in
  let has_next := (-1 <? y_next right) && (Z.to_nat (y_next right) <? length sym)%nat in
  let sym := alter set_len0 next_pos (<[pos := cur']> sym) in
  let sym := if has_next then alter (set_prev (Z.of_nat pos)) (Z.to_nat (y_next right)) sym else sym in
  let q := if 0 <=? y_prev cur' then push_pair ms (Z.to_nat (y_prev cur')) (y_c (sym_at sym (Z.to_nat (y_prev cur')))) id q else q in
  (sym, if has_next then push_pair ms pos id (y_c (sym_at sym (Z.to_nat (y_next cur')))) q else q).

Definition bpe_step (ms : Merges) (sym : list Sym) (q : list M) : option (list Sym * list M) :=
  '(top, q) ← pop q;
  let cur := sym_at sym (m_pos top) in
  Some (if (y_len cur =? 0) || (y_next cur =? -1) then (sym, q)
        else match ms !! pair_of (y_c cur) (y_c (sym_at sym (Z.to_nat (y_next cur)))) with
             | Some (_, id) => if id =? m_id top then merge_at ms (m_pos top) id sym q else (sym, q)
             | None => (sym, q)
             end).
(** The loop on the queue, and whether it ran to its end. *)
Fixpoint bpe_loop (fuel : nat) (ms : Merges) (sym : list Sym) (q : list M) : list Sym * bool :=
  match bpe_step ms sym q with
  | None => (sym, true)
  | Some (sym', q') => match fuel with O => (sym, false) | S fuel => bpe_loop fuel ms sym' q' end
  end.

Definition init_sym (n i : nat) (c : Z) : Sym :=
  {| y_c := c; y_prev := Z.of_nat i - 1; y_next := if (i + 1 <? n)%nat then Z.of_nat i + 1 else -1; y_len := 1 |}.
Definition init_queue (ms : Merges) (cs : list Z) : list M :=
  foldl (fun q i => push_pair ms i (nth i cs 0) (nth (i + 1) cs 0) q) [] (seq 0 (length cs - 1)).
(** Each round takes an entry off the queue and each merge, of which there are fewer than
    symbols, puts two on, so three rounds a symbol are enough. *)
Definition bpe_run (ms : Merges) (cs : list Z) : list Sym * bool :=
  bpe_loop (3 * length cs) ms (imap (init_sym (length cs)) cs) (init_queue ms cs).
Definition bpe (ms : Merges) (byte_id : list Z) (word : text) : list Z :=
  let cs := map (fun b => nth (Z.to_nat (byte_of b)) byte_id 0) word in
  match cs with
  | [] => []
  | [c] => [c]
  | _ => omap (fun s => if y_len s =? 0 then None else Some (y_c s)) (bpe_run ms cs).1
  end.

(** ** A loaded tokenizer *)

Record Impl := {
  vocab_size : Z; str : list text; bytes : list text; flags : list Z;
  vocab : gmap string Z; added : gmap string Z; merges : Merges;
  byte_id : list Z; raw_trie : Trie; norm_trie : Trie }.
Abbreviation Tokenizer := (option Impl).

Definition encode_text (im : Impl) (s : text) : list Z :=
  let cp := code_points s in
  flat_map (fun p => bpe (merges im) (byte_id im) (encode_points (subspan cp (pc_b p) (pc_e p - pc_b p)))) (pieces cp).

Definition segments (im : Impl) (s : text) : list Segment :=
  split_on (norm_trie im) s (split_on (raw_trie im) s [Seg 0 (length s) (-1)]).
Definition encode (t : Tokenizer) (s : text) : list Z :=
  match t with
  | None => []
  | Some im => flat_map (fun g => if 0 <=? seg_id g then [u32 (seg_id g)]
                                  else encode_text im (subspan s (seg_begin g) (seg_end g - seg_begin g))) (segments im s)
  end.

Definition flag (im : Impl) (id bit : Z) : bool := negb (Z.land (nth (Z.to_nat id) (flags im) 0) bit =? 0).
Definition raw_bytes (im : Impl) (skip_special : bool) (id : Z) : text :=
  if (vocab_size im <=? id) || negb (flag im id 1) then []
  else if skip_special && flag im id 4 then [] else nth (Z.to_nat id) (bytes im) [].
Definition decode (t : Tokenizer) (ids : list Z) (skip_special : bool) : text :=
  match t with None => [] | Some im => lossy (flat_map (raw_bytes im skip_special) ids) end.

Definition token_bytes (t : Tokenizer) (id : Z) : text :=
  match t with Some im => if vocab_size im <=? id then [] else nth (Z.to_nat id) (bytes im) [] | None => [] end.
Definition token_string (t : Tokenizer) (id : Z) : text :=
  match t with Some im => if vocab_size im <=? id then [] else nth (Z.to_nat id) (str im) [] | None => [] end.
Definition token_id (t : Tokenizer) (content : string) : option Z :=
  im ← t; match added im !! content with Some id => Some id | None => vocab im !! content end.
Definition is_special (t : Tokenizer) (id : Z) : bool :=
  match t with Some im => (id <? vocab_size im) && flag im id 4 | None => false end.
Definition is_added (t : Tokenizer) (id : Z) : bool :=
  match t with Some im => (id <? vocab_size im) && flag im id 2 | None => false end.
Definition tok_vocab_size (t : Tokenizer) : Z := match t with Some im => vocab_size im | None => 0 end.

(** ** [StreamDecoder]: its state is the pending bytes *)

Definition stream_push (t : Tokenizer) (skip_special : bool) (pending : text) (id : Z) : text * text :=
  if tok_vocab_size t <=? id then ([], pending)
  else if skip_special && is_special t id then ([], pending)
  else let pending := pending ++ token_bytes t id in
       let '(out, held) := utf8_lossy pending true in
       (out, drop (length pending - held) pending).
Definition stream_flush (pending : text) : text * text := ((utf8_lossy pending false).1, []).

(** ** Reading tokenizer.json *)

Definition dquote : ascii := byte 34.
Definition text_str (t : text) : string := of_text t.
Definition kWant : list string :=
  ["\p{N}{1,3}";
   text_str (map byte [91; 0xE4; 0xB8; 0x80; 45; 0xE9; 0xBE; 0xA5; 0xE3; 0x81; 0x80; 45; 0xE3; 0x82; 0x9F;
                       0xE3; 0x82; 0xA0; 45; 0xE3; 0x83; 0xBF; 93; 43]);
   text_str (to_text "[!" ++ dquote :: to_text "#$%&'()*+,\-./:;<=>?@\[\\\]^_`{|}~][A-Za-z]+|[^" ++
             [byte 13; byte 10] ++ to_text "\p{L}\p{P}\p{S}]?[\p{L}\p{M}]+| ?[\p{P}\p{S}]+[" ++
             [byte 13; byte 10] ++ to_text "]*|\s*[" ++ [byte 13; byte 10] ++ to_text "]+|\s+(?!\S)|\s+")]%string.

Definition is_null (v : JsonValue) : bool := match v with JNull => true | _ => false end.

(** The model is BPE without the options that are not implemented. *)
Definition check_model (doc : JsonValue) : Result JsonValue :=
  match find doc "model" with
  | None => Fail Corrupt
  | Some model =>
      if negb (bool_decide (string_or model "type" "" = "BPE"%string)) then Fail Corrupt
      else if bool_or model "byte_fallback" false || bool_or model "ignore_merges" false then Fail Unimplemented
      else match find model "dropout" with
           | None => Fail Internal
           | Some d => if is_null d then Ret model else Fail Unimplemented
           end
  end.

(** The pre-tokenizer is the one written out above. *)
Definition check_split (s : JsonValue) (want : string) : Result unit :=
  let rx := match find s "pattern" with Some pat => string_or pat "Regex" "" | None => ""%string end in
  fail_if (negb (bool_decide (string_or s "type" "" = "Split"%string)) ||
           negb (bool_decide (string_or s "behavior" "" = "Isolated"%string)) ||
           bool_or s "invert" false || negb (bool_decide (rx = want))) Unimplemented.
Definition check_byte_level (s : JsonValue) : Result unit :=
  fail_if (negb (bool_decide (string_or s "type" "" = "ByteLevel"%string)) ||
           bool_or s "use_regex" true || bool_or s "add_prefix_space" true) Unimplemented.
Definition check_normalizer (doc : JsonValue) : Result unit :=
  match find doc "normalizer" with
  | None => Ret tt
  | Some norm =>
      if is_null norm then Ret tt
      else fail_if (negb (bool_decide (string_or norm "type" "" = "Sequence"%string)) ||
                    match find norm "normalizers" with Some ns => negb (json_size ns =? 0)%nat | None => true end) Unimplemented
  end.
Definition check_pre_tokenizer (doc : JsonValue) : Result unit :=
  let seq := pt ← find doc "pre_tokenizer"; find pt "pretokenizers" in
  match seq with
  | Some (JArray [s1; s2; s3; s4]) =>
      _ ← foldM (fun _ p => check_split p.1 p.2) tt (zip [s1; s2; s3] kWant);
      _ ← check_byte_level s4;
      check_normalizer doc
  | _ => Fail Corrupt
  end.

Definition emplace {A} `{Countable K} (k : K) (v : A) (m : gmap K A) : gmap K A :=
  match m !! k with Some _ => m | None => <[k := v]> m end.

Definition read_vocab (model : JsonValue) : Result (gmap string Z * Z) :=
  v ← at_key model "vocab";
  o ← as_object v;
  foldM (fun '(m, max_id) kv => id ← as_uint kv.2; Ret (emplace kv.1 (u32 id) m, Z.max max_id (u32 id))) (∅, 0) o.

Definition added_id (a : JsonValue) : Z := u32 (int_or a "id" 0).

(** A write past the end of an array. *)
Definition put {A} (i : Z) (x : A) (l : list A) : Result (list A) :=
  if (Z.to_nat i <? length l)%nat then Ret (<[Z.to_nat i := x]> l) else Fail Internal.
Definition or_flags (i bits : Z) (l : list Z) : list Z := alter (Z.lor bits) (Z.to_nat i) l.

Definition add_vocab (st : list text * list Z) (kv : string * Z) : Result (list text * list Z) :=
  s ← put kv.2 (to_text kv.1) st.1; Ret (s, or_flags kv.2 1 st.2).

Record AddedState := {
  a_str : list text; a_flags : list Z; a_added : gmap string Z; a_raw : Trie; a_norm : Trie }.
Definition add_added (st : AddedState) (a : JsonValue) : Result AddedState :=
  let id := added_id a in
  let content := string_or a "content" "" in
  _ ← fail_if (bool_decide (content = ""%string)) Corrupt;
  _ ← fail_if (bool_or a "lstrip" false || bool_or a "rstrip" false || bool_or a "single_word" false) Unimplemented;
  s ← put id (to_text content) (a_str st);
  let norm := bool_or a "normalized" false in
  let ins (t : Trie) := trie_insert t (to_text content) id in
  Ret {| a_str := s;
         a_flags := or_flags id (Z.lor 3 (if bool_or a "special" false then 4 else 0)) (a_flags st);
         a_added := <[content := id]> (a_added st);
         a_raw := if norm then a_raw st else ins (a_raw st);
         a_norm := if norm then ins (a_norm st) else a_norm st |}.

Definition read_byte_ids (vocab : gmap string Z) : Result (list Z) :=
  mapM_res (fun b => match vocab !! text_str (utf8_append (char_of_byte b)) with Some id => Ret id | None => Fail Corrupt end)
    (seqZ 0 256).

(** The two sides of a merge. *)
Fixpoint split_space (t acc : text) : option (text * text) :=
  match t with
  | [] => None
  | c :: t => if bool_decide (c = byte 32) then Some (rev acc, t) else split_space t (c :: acc)
  end.
Definition merge_sides (m : JsonValue) : Result (string * string) :=
  match m with
  | JString s => match split_space (to_text s) [] with
                 | Some (a, b) => if bool_decide (byte 32 ∈ b) then Fail Corrupt else Ret (text_str a, text_str b)
                 | None => Fail Corrupt
                 end
  | JArray [x; y] => match as_string x, as_string y with Ret a, Ret b => Ret (a, b) | _, _ => Fail Internal end
  | _ => Fail Corrupt
  end.
Definition add_merge (vocab : gmap string Z) (st : Merges * Z) (m : JsonValue) : Result (Merges * Z) :=
  let '(ms, rank) := st in
  '(a, b) ← merge_sides m;
  match vocab !! a, vocab !! b, vocab !! (a +:+ b) with
  | Some ia, Some ib, Some n => Ret (emplace (pair_of ia ib) (rank, n) ms, u32 (rank + 1))
  | _, _, _ => Fail Corrupt
  end.

Section Load.
(** The order in which an [unordered_map] is iterated. *)
Context (iteration : gmap string Z -> list (string * Z)).

(** [load], given what [json_parse_file] answers. *)
Definition load (parsed : Result JsonValue) : Result Impl :=
  doc ← parsed;
  model ← check_model doc;
  _ ← check_pre_tokenizer doc;
  '(vocab, max_id) ← read_vocab model;
  arr ← (v ← at_key doc "added_tokens"; as_array v);
  let size := u32 (foldl (fun m a => Z.max m (added_id a)) max_id arr + 1) in
  let blank := Z.to_nat size in
  '(s, fl) ← foldM add_vocab (replicate blank [], replicate blank 0) (iteration vocab);
  st ← foldM add_added {| a_str := s; a_flags := fl; a_added := ∅; a_raw := Trie_new; a_norm := Trie_new |} arr;
  let bs := zip_with (fun s f => if Z.land f 1 =? 0 then [] else bytes_of_token_string s) (a_str st) (a_flags st) in
  ids ← read_byte_ids vocab;
  marr ← (v ← at_key model "merges"; as_array v);
  '(ms, _) ← foldM (add_merge vocab) (∅, 0) marr;
  Ret {| vocab_size := size; str := a_str st; bytes := bs; flags := a_flags st; vocab := vocab; added := a_added st;
         merges := ms; byte_id := ids; raw_trie := a_raw st; norm_trie := a_norm st |}.
End Load.
