(* ===== verification/BpeProps.v ===== *)
(** The merge loop of byte-pair encoding: its linked list and queue compute what merging the
    lowest-ranked, leftmost pair of a plain list until none is left computes. *)

From Stdlib Require Import ZifyBool.
From S2P Require Import Prelude Json Tokenizer.

(** ** The reference: merges of a list *)

(** The lowest-ranked pair, the leftmost among equals. *)
Fixpoint best_pair (ms : Merges) (k : nat) (cs : list Z) : option M :=
  match cs with
  | a :: (b :: _) as r =>
      match ms !! pair_of a b with
      | None => best_pair ms (S k) r
      | Some (rank, id) =>
          match best_pair ms (S k) r with
          | Some m => if m_rank m <? rank then Some m else Some {| m_pos := k; m_rank := rank; m_id := id |}
          | None => Some {| m_pos := k; m_rank := rank; m_id := id |}
          end
      end
  | _ => None
  end.
Definition merge_list (i : nat) (id : Z) (cs : list Z) : list Z := take i cs ++ id :: drop (i + 2) cs.
Fixpoint merge_all (fuel : nat) (ms : Merges) (cs : list Z) : list Z :=
  match fuel, best_pair ms 0 cs with
  | S fuel, Some m => merge_all fuel ms (merge_list (m_pos m) (m_id m) cs)
  | _, _ => cs
  end.

Section Best.
Context (ms : Merges).

Lemma best_cons k x y cs : best_pair ms k (x :: y :: cs) =
  match ms !! pair_of x y with
  | None => best_pair ms (S k) (y :: cs)
  | Some (rank, id) =>
      match best_pair ms (S k) (y :: cs) with
      | Some m => if m_rank m <? rank then Some m else Some {| m_pos := k; m_rank := rank; m_id := id |}
      | None => Some {| m_pos := k; m_rank := rank; m_id := id |}
      end
  end.
Proof. done. Qed.

Lemma best_none k cs i a b : best_pair ms k cs = None -> cs !! i = Some a -> cs !! S i = Some b -> ms !! pair_of a b = None.
Proof.
  revert k i. induction cs as [|x cs IH]; intros k i; [done|]. destruct cs as [|y cs].
  { intros _ _ H. by destruct i. }
  intros H Hi Hj. rewrite best_cons in H. destruct (ms !! pair_of x y) as [[r id]|] eqn:E.
  - destruct (best_pair ms (S k) (y :: cs)); [case_match|]; done.
  - destruct i as [|i]; [by cbn in Hi, Hj; simplify_eq|]. apply (IH (S k) i H Hi Hj).
Qed.

Lemma best_rank k cs m : best_pair ms k cs = Some m -> exists i a b, cs !! i = Some a /\ cs !! S i = Some b /\
  ms !! pair_of a b = Some (m_rank m, m_id m) /\ m_pos m = (k + i)%nat.
Proof.
  revert k m. induction cs as [|x cs IH]; intros k m; [done|]. destruct cs as [|y cs]; [done|]. intros H.
  assert (Hs : best_pair ms (S k) (y :: cs) = Some m -> exists i a b, (x :: y :: cs) !! i = Some a /\
    (x :: y :: cs) !! S i = Some b /\ ms !! pair_of a b = Some (m_rank m, m_id m) /\ m_pos m = (k + i)%nat).
  { intros (i & a & b & H1 & H2 & H3 & H4)%IH. exists (S i), a, b. split_and!; [done..|lia]. }
  rewrite best_cons in H. destruct (ms !! pair_of x y) as [[r id]|] eqn:E; [|by apply Hs].
  assert (H0 : m = {| m_pos := k; m_rank := r; m_id := id |} -> exists i a b, (x :: y :: cs) !! i = Some a /\
    (x :: y :: cs) !! S i = Some b /\ ms !! pair_of a b = Some (m_rank m, m_id m) /\ m_pos m = (k + i)%nat).
  { intros ->. exists 0%nat, x, y. split_and!; [done..|]. cbn. lia. }
  destruct (best_pair ms (S k) (y :: cs)) as [m'|] eqn:Eb; [destruct (_ <? _)|]; simplify_eq; auto.
Qed.

(** What the reference picks: no pair has a lower rank, none of the same rank is further left. *)
Lemma best_is k cs i a b r id : cs !! i = Some a -> cs !! S i = Some b -> ms !! pair_of a b = Some (r, id) ->
  (forall j a' b' r' id', cs !! j = Some a' -> cs !! S j = Some b' -> ms !! pair_of a' b' = Some (r', id') ->
     r < r' \/ (r = r' /\ (i <= j)%nat)) ->
  best_pair ms k cs = Some {| m_pos := k + i; m_rank := r; m_id := id |}.
Proof.
  revert k i. induction cs as [|x cs IH]; intros k i Ha Hb Hm Hmin; [done|]. destruct cs as [|y cs]; [by destruct i|].
  rewrite best_cons. destruct i as [|i].
  - cbn in Ha, Hb. simplify_eq. rewrite Hm. rewrite Nat.add_0_r. destruct (best_pair ms (S k) (b :: cs)) as [m|] eqn:E; [|done].
    destruct (best_rank _ _ _ E) as (j & a' & b' & H1 & H2 & H3 & _).
    specialize (Hmin (S j) a' b' (m_rank m) (m_id m) H1 H2 H3). by rewrite (proj2 (Z.ltb_ge _ _)) by lia.
  - rewrite (IH (S k) i Ha Hb Hm).
    + cbn [m_rank]. replace (S k + i)%nat with (k + S i)%nat by lia.
      destruct (ms !! pair_of x y) as [[r' id']|] eqn:E; [|done].
      specialize (Hmin 0%nat x y r' id' eq_refl eq_refl E). by rewrite (proj2 (Z.ltb_lt _ _)) by lia.
    + intros j a' b' r' id' H1 H2 H3. specialize (Hmin (S j) a' b' r' id' H1 H2 H3). lia.
Qed.
End Best.

Lemma pop_spec q m r : pop q = Some (m, r) -> q ≡ₚ m :: r /\ forall x, x ∈ r -> m_before x m = false.
Proof.
  revert m r. induction q as [|e q IH]; intros m r; cbn; [done|].
  assert (Hirr : forall x y, m_before x y = true -> m_before y x = false).
  { intros x y. unfold m_before. repeat case_match; lia. }
  assert (Htr : forall x y z, m_before x y = false -> m_before y z = false -> m_before x z = false).
  { intros x y z. unfold m_before. repeat case_match; lia. }
  destruct (pop q) as [[b r']|] eqn:E.
  - destruct (IH b r' eq_refl) as [Hp Hm]. destruct (m_before b e) eqn:Hb; intros [= <- <-].
    + split; [rewrite Hp; apply perm_swap|]. intros x [->|Hx]%elem_of_cons; [by apply Hirr|by apply Hm].
    + split; [done|]. intros x Hx. rewrite Hp in Hx. apply elem_of_cons in Hx as [->|Hx]; [done|].
      apply (Htr x b e); [by apply Hm|done].
  - intros [= <- <-]. assert (q = []) as ->; [|split; [done|]; intros x Hx; by apply elem_of_nil in Hx].
    destruct q as [|e' q]; [done|]. cbn in E. destruct (pop q) as [[b' r'']|]; [by destruct (m_before b' e')|done].
Qed.
Lemma pop_none q : pop q = None -> q = [].
Proof. destruct q as [|e q]; [done|]. cbn. destruct (pop q) as [[b r]|]; [by destruct (m_before b e)|done]. Qed.

(** ** The linked list *)

(** [L] are the positions of the live symbols and [cs] their tokens. *)
Definition next_of (L : list nat) (i : nat) : Z := from_option Z.of_nat (-1) (L !! S i).
Definition prev_of (L : list nat) (i : nat) : Z :=
  match i with O => -1 | S j => from_option Z.of_nat (-1) (L !! j) end.
Definition stop_of (n : nat) (L : list nat) (i : nat) : nat := default n (L !! S i).

Record linked (sym : list Sym) (L : list nat) (cs : list Z) : Prop := {
  lk_length : length cs = length L;
  lk_sorted : forall i j p q, L !! i = Some p -> L !! j = Some q -> (i < j)%nat -> (p < q)%nat;
  lk_sym : forall i p c, L !! i = Some p -> cs !! i = Some c -> sym !! p =
    Some {| y_c := c; y_prev := prev_of L i; y_next := next_of L i; y_len := Z.of_nat (stop_of (length sym) L i - p) |};
  lk_dead : forall p s, sym !! p = Some s -> p ∉ L -> y_len s = 0 }.

Lemma linked_at sym L cs i p : linked sym L cs -> L !! i = Some p ->
  exists c, cs !! i = Some c /\ (p < length sym)%nat /\ sym_at sym p =
    {| y_c := c; y_prev := prev_of L i; y_next := next_of L i; y_len := Z.of_nat (stop_of (length sym) L i - p) |}.
Proof.
  intros Hl Hp. destruct (lookup_lt_is_Some_2 cs i) as [c Hc].
  { rewrite (lk_length _ _ _ Hl). by eapply lookup_lt_Some. }
  pose proof (lk_sym _ _ _ Hl i p c Hp Hc) as Hs. exists c. split; [done|].
  split; [by eapply lookup_lt_Some|]. unfold sym_at. by apply nth_lookup_Some.
Qed.
Lemma linked_stop sym L cs i p : linked sym L cs -> L !! i = Some p -> (p < stop_of (length sym) L i <= length sym)%nat.
Proof.
  intros Hl Hp. unfold stop_of. destruct (L !! S i) as [q|] eqn:Hq; cbn.
  - pose proof (lk_sorted _ _ _ Hl i (S i) p q Hp Hq ltac:(lia)).
    destruct (linked_at _ _ _ _ _ Hl Hq) as (c & _ & H1 & _). lia.
  - destruct (linked_at _ _ _ _ _ Hl Hp) as (c & _ & H1 & _). lia.
Qed.
Lemma linked_inj sym L cs i j p : linked sym L cs -> L !! i = Some p -> L !! j = Some p -> i = j.
Proof.
  intros Hl Hi Hj. destruct (lt_eq_lt_dec i j) as [[H| ->]|H]; [|done|].
  - pose proof (lk_sorted _ _ _ Hl _ _ _ _ Hi Hj H). lia.
  - pose proof (lk_sorted _ _ _ Hl _ _ _ _ Hj Hi H). lia.
Qed.

(** A live symbol has positive length, and a successor exactly when [next] says so. *)
Lemma linked_live sym L cs p : linked sym L cs -> y_len (sym_at sym p) <> 0 ->
  exists i, L !! i = Some p.
Proof.
  intros Hl Hp. destruct (decide (p ∈ L)) as [Hin|Hout]; [by apply list_elem_of_lookup|].
  destruct (sym !! p) as [s|] eqn:Hs.
  - destruct Hp. unfold sym_at. rewrite (nth_lookup_Some _ _ _ _ Hs). by apply (lk_dead _ _ _ Hl p).
  - destruct Hp. unfold sym_at. rewrite nth_overflow; [done|]. by apply lookup_ge_None.
Qed.

(** [merge_list] and the position list without the merged symbol. *)
Lemma merge_list_lookup i id cs j : (S i < length cs)%nat ->
  merge_list i id cs !! j = if (j <? i)%nat then cs !! j else if (j =? i)%nat then Some id else cs !! S j.
Proof.
  intros Hi. unfold merge_list. destruct (j <? i)%nat eqn:E1.
  { rewrite lookup_app_l by (rewrite length_take; lia). apply lookup_take_lt. lia. }
  rewrite lookup_app_r by (rewrite length_take; lia). rewrite length_take, Nat.min_l by lia.
  destruct (j =? i)%nat eqn:E2; [by replace (j - i)%nat with 0%nat by lia|].
  destruct (j - i)%nat as [|k] eqn:Ek; [lia|]. rewrite <- lookup_tail; cbn [tail]. rewrite lookup_drop. f_equal. lia.
Qed.
Lemma merge_list_length i id cs : (S i < length cs)%nat -> S (length (merge_list i id cs)) = length cs.
Proof. intros Hi. unfold merge_list. rewrite length_app, length_take. cbn. rewrite length_drop. lia. Qed.

Lemma delete_lookup {A} (l : list A) i j : delete (S i) l !! j = if (j <=? i)%nat then l !! j else l !! S j.
Proof.
  destruct (j <=? i)%nat eqn:E; [apply list_lookup_delete_lt; lia|apply list_lookup_delete_ge; lia].
Qed.

Section Merge.
Context (ms : Merges) (sym : list Sym) (L : list nat) (cs : list Z) (i p q : nat) (id : Z) (qu : list M).
Hypothesis Hl : linked sym L cs.
Hypothesis Hp : L !! i = Some p.
Hypothesis Hq : L !! S i = Some q.
Hypothesis Hn : Z.of_nat (length sym) < 2 ^ 32.

Local Lemma pq : (p < q)%nat.
Proof. exact (lk_sorted _ _ _ Hl _ _ _ _ Hp Hq ltac:(lia)). Qed.

Definition sym_merged : list Sym := (merge_at ms p id sym qu).1.

Lemma merged_lookup x : sym_merged !! x =
  if (x =? p)%nat then
    Some {| y_c := id; y_prev := prev_of L i; y_next := next_of L (S i); y_len := Z.of_nat (stop_of (length sym) L (S i) - p) |}
  else if (x =? q)%nat then set_len0 <$> sym !! x
  else if bool_decide (L !! S (S i) = Some x) then set_prev (Z.of_nat p) <$> sym !! x
  else sym !! x.
Proof.
  pose proof pq as Hpq. unfold sym_merged, merge_at.
  destruct (linked_at _ _ _ _ _ Hl Hp) as (c & _ & Hpn & Hsp). destruct (linked_at _ _ _ _ _ Hl Hq) as (d & _ & Hqn & Hsq).
  pose proof (linked_stop _ _ _ _ _ Hl Hq) as Hst.
  rewrite Hsp. cbn [y_c y_prev y_next y_len fst].
  assert (next_of L i = Z.of_nat q) as -> by (unfold next_of; by rewrite Hq).
  assert (stop_of (length sym) L i = q) as -> by (unfold stop_of; by rewrite Hq).
  rewrite Nat2Z.id, Hsq. cbn [y_c y_prev y_next y_len].
  assert (u32 (Z.of_nat (q - p) + Z.of_nat (stop_of (length sym) L (S i) - q)) = Z.of_nat (stop_of (length sym) L (S i) - p)) as ->.
  { rewrite u32_small by lia. lia. }
  set (cur := {| y_c := id |}).
  assert (Hin : forall y, alter set_len0 q (<[p := cur]> sym) !! y =
    if (y =? p)%nat then Some cur else if (y =? q)%nat then set_len0 <$> sym !! y else sym !! y).
  { intros y. destruct (y =? p)%nat eqn:E1.
    - apply Nat.eqb_eq in E1 as ->. rewrite list_lookup_alter_ne by lia. by apply list_lookup_insert_eq.
    - destruct (y =? q)%nat eqn:E2.
      + apply Nat.eqb_eq in E2 as ->. rewrite list_lookup_alter_eq, list_lookup_insert_ne by lia. done.
      + by rewrite list_lookup_alter_ne, list_lookup_insert_ne by lia. }
  unfold next_of at 1 2. destruct (L !! S (S i)) as [r|] eqn:Hr; cbn [from_option].
  2: { change (-1 <? -1) with false. cbn [andb]. rewrite Hin. repeat case_match; done. }
  destruct (linked_at _ _ _ _ _ Hl Hr) as (e & _ & Hrn & Hsr).
  pose proof (lk_sorted _ _ _ Hl _ _ _ _ Hq Hr ltac:(lia)) as Hqr.
  rewrite Nat2Z.id, (proj2 (Nat.ltb_lt _ _) Hrn), (proj2 (Z.ltb_lt _ _)) by lia. cbn [andb].
  unfold next_of at 1. rewrite Hr. cbn [from_option]. rewrite Nat2Z.id.
  destruct (decide (x = r)) as [->|Hxr].
  - rewrite list_lookup_alter_eq, Hin. rewrite (proj2 (Nat.eqb_neq _ _)), (proj2 (Nat.eqb_neq r q)) by lia.
    by rewrite bool_decide_eq_true_2.
  - rewrite list_lookup_alter_ne by done. rewrite Hin. rewrite (bool_decide_eq_false_2 (Some r = Some x)) by congruence. done.
Qed.

Lemma merged_length : length sym_merged = length sym.
Proof.
  unfold sym_merged, merge_at. cbn [fst]. case_match; by rewrite ?length_alter, ?length_insert.
Qed.

Lemma merged_pos j x : delete (S i) L !! j = Some x -> exists k, L !! k = Some x /\ k <> S i /\ j = (if (k <=? i)%nat then k else (k - 1)%nat).
Proof.
  rewrite delete_lookup. destruct (j <=? i)%nat eqn:E; intros H.
  - exists j. rewrite E. split_and!; [done|lia|done].
  - exists (S j). split_and!; [done|lia|]. rewrite (proj2 (Nat.leb_gt _ _)) by lia. lia.
Qed.

Lemma linked_merge : linked sym_merged (delete (S i) L) (merge_list i id cs).
Proof.
  pose proof pq as Hpq. pose proof (lookup_lt_Some _ _ _ Hq) as HqL.
  assert (HcL : (S i < length cs)%nat) by (by rewrite (lk_length _ _ _ Hl)).
  assert (Hinj := fun a b x => linked_inj _ _ _ a b x Hl).
  split.
  - pose proof (merge_list_length i id cs HcL). pose proof (length_delete L (S i) ltac:(by eexists)).
    pose proof (lk_length _ _ _ Hl). lia.
  - intros a b x y Hx Hy Hab. rewrite delete_lookup in Hx, Hy.
    destruct (a <=? i)%nat eqn:Ea, (b <=? i)%nat eqn:Eb; eapply (lk_sorted _ _ _ Hl); eauto; lia.
  - intros j x c Hx Hc. rewrite merged_lookup, merged_length. rewrite (merge_list_lookup i id cs j HcL) in Hc.
    rewrite delete_lookup in Hx. unfold next_of, stop_of. rewrite !delete_lookup.
    assert (Hprev : prev_of (delete (S i) L) j = if (j <=? i)%nat then prev_of L j else
                    if (j =? S i)%nat then Z.of_nat p else prev_of L (S j)).
    { destruct j as [|j]; [done|]. cbn [prev_of]. rewrite delete_lookup. destruct (S j <=? i)%nat eqn:Ej.
      - by rewrite (proj2 (Nat.leb_le _ _)) by lia.
      - destruct (S j =? S i)%nat eqn:Ej2.
        + rewrite (proj2 (Nat.leb_le _ _)) by lia. assert (j = i) as -> by lia. by rewrite Hp.
        + by rewrite (proj2 (Nat.leb_gt _ _)) by lia. }
    rewrite Hprev. clear Hprev.
    destruct (decide (j < i)%nat) as [Hji|Hji].
    + rewrite (proj2 (Nat.leb_le j i)), (proj2 (Nat.leb_le (S j) i)) by lia.
      rewrite (proj2 (Nat.leb_le j i)) in Hx by lia. rewrite (proj2 (Nat.ltb_lt _ _)) in Hc by lia.
      pose proof (lk_sorted _ _ _ Hl _ _ _ _ Hx Hp ltac:(lia)).
      rewrite (proj2 (Nat.eqb_neq x p)), (proj2 (Nat.eqb_neq x q)), bool_decide_eq_false_2 by
        first [lia | intros Hr; pose proof (Hinj _ _ _ Hr Hx); lia].
      exact (lk_sym _ _ _ Hl _ _ _ Hx Hc).
    + destruct (decide (j = i)) as [->|Hne].
      * rewrite (proj2 (Nat.leb_le i i)), (proj2 (Nat.leb_gt (S i) i)) by lia. rewrite Nat.leb_refl in Hx. simplify_eq.
        rewrite Nat.eqb_refl. rewrite Nat.ltb_irrefl, Nat.eqb_refl in Hc. by simplify_eq.
      * rewrite (proj2 (Nat.leb_gt j i)), (proj2 (Nat.leb_gt (S j) i)) by lia.
        rewrite (proj2 (Nat.leb_gt j i)) in Hx by lia.
        rewrite (proj2 (Nat.ltb_ge _ _)), (proj2 (Nat.eqb_neq _ _)) in Hc by lia.
        pose proof (lk_sorted _ _ _ Hl _ _ _ _ Hq Hx ltac:(lia)).
        rewrite (proj2 (Nat.eqb_neq x p)), (proj2 (Nat.eqb_neq x q)) by lia.
        rewrite (lk_sym _ _ _ Hl _ _ _ Hx Hc). destruct (j =? S i)%nat eqn:Ej.
        -- assert (j = S i) as -> by lia. rewrite bool_decide_eq_true_2 by done. done.
        -- rewrite bool_decide_eq_false_2; [done|]. intros Hr. pose proof (Hinj _ _ _ Hr Hx). lia.
  - intros x s Hs Hx. rewrite merged_lookup in Hs.
    assert (HxL : x <> q -> x ∉ L).
    { intros Hxq Hin. apply Hx. apply list_elem_of_lookup in Hin as [k Hk]. apply list_elem_of_lookup.
      assert (k <> S i) by congruence. exists (if (k <=? i)%nat then k else (k - 1)%nat). rewrite delete_lookup.
      destruct (k <=? i)%nat eqn:Ek; [by rewrite Ek|]. rewrite (proj2 (Nat.leb_gt _ _)) by lia.
      by replace (S (k - 1)) with k by lia. }
    destruct (x =? p)%nat eqn:E1; [destruct HxL; [lia|]; apply Nat.eqb_eq in E1 as ->; by eapply list_elem_of_lookup_2|].
    destruct (x =? q)%nat eqn:E2; [by apply fmap_Some in Hs as (s' & _ & ->)|].
    rewrite bool_decide_eq_false_2 in Hs; [apply (lk_dead _ _ _ Hl x s Hs), HxL; lia|].
    intros Hr. apply HxL; [lia|]. by eapply list_elem_of_lookup_2.
Qed.

(** The pairs the merge puts on the queue: the one before and the one after. *)
Definition queue_merged : list M :=
  let q1 := match i with O => qu | S j => push_pair ms (nth j L 0%nat) (nth j cs 0) id qu end in
  match cs !! S (S i) with Some c => push_pair ms p id c q1 | None => q1 end.

Lemma merged_queue : (merge_at ms p id sym qu).2 = queue_merged.
Proof.
  pose proof pq as Hpq.
  assert (Hat : forall x s, sym_merged !! x = Some s -> y_c (sym_at sym_merged x) = y_c s).
  { intros x s Hs. unfold sym_at. by rewrite (nth_lookup_Some _ _ _ _ Hs). }
  assert (Hold : forall j x c, L !! j = Some x -> cs !! j = Some c -> x <> p -> x <> q -> y_c (sym_at sym_merged x) = c).
  { intros j x c Hx Hc H1 H2. pose proof (merged_lookup x) as Hm.
    rewrite (proj2 (Nat.eqb_neq x p) H1), (proj2 (Nat.eqb_neq x q) H2), (lk_sym _ _ _ Hl _ _ _ Hx Hc) in Hm.
    case_bool_decide; by rewrite (Hat _ _ Hm). }
  assert (Hcs : forall j x, L !! j = Some x -> exists c, cs !! j = Some c).
  { intros j x Hx. destruct (linked_at _ _ _ _ _ Hl Hx) as (c & Hc & _). by exists c. }
  unfold queue_merged. revert Hat Hold. unfold sym_merged, merge_at. cbn [fst snd y_prev y_next].
  destruct (linked_at _ _ _ _ _ Hl Hp) as (c & _ & _ & Hsp). destruct (linked_at _ _ _ _ _ Hl Hq) as (d & _ & _ & Hsq).
  rewrite Hsp. cbn [y_c y_prev y_next y_len]. assert (next_of L i = Z.of_nat q) as -> by (unfold next_of; by rewrite Hq).
  rewrite Nat2Z.id, Hsq. cbn [y_c y_prev y_next y_len]. set (sym1 := if _ : bool then _ else _). intros Hat Hold.
  assert (Hprev : (if 0 <=? prev_of L i then push_pair ms (Z.to_nat (prev_of L i)) (y_c (sym_at sym1 (Z.to_nat (prev_of L i)))) id qu else qu) =
    match i with O => qu | S j => push_pair ms (nth j L 0%nat) (nth j cs 0) id qu end).
  { clear Hsp Hsq. destruct i as [|j] eqn:Ei; [done|]. cbn [prev_of].
    destruct (lookup_lt_is_Some_2 L j) as [x Hx]; [apply lookup_lt_Some in Hp; lia|]. rewrite Hx. cbn [from_option].
    rewrite (proj2 (Z.leb_le _ _)), Nat2Z.id by lia. destruct (Hcs j x Hx) as [e He].
    pose proof (lk_sorted _ _ _ Hl _ _ _ _ Hx Hp ltac:(lia)).
    rewrite (nth_lookup_Some _ _ _ _ Hx), (nth_lookup_Some _ _ _ _ He), (Hold j x e) by (done || lia). done. }
  rewrite Hprev. clear Hprev. unfold next_of. destruct (L !! S (S i)) as [r|] eqn:Hr; cbn [from_option].
  - destruct (Hcs _ _ Hr) as [e He]. rewrite He. pose proof (lk_sorted _ _ _ Hl _ _ _ _ Hq Hr ltac:(lia)).
    destruct (linked_at _ _ _ _ _ Hl Hr) as (_ & _ & Hrn & _).
    rewrite Nat2Z.id, (proj2 (Nat.ltb_lt _ _) Hrn), (proj2 (Z.ltb_lt _ _)) by lia. cbn [andb].
    by rewrite (Hold _ _ _ Hr He) by lia.
  - change (-1 <? -1) with false. cbn [andb]. destruct (cs !! S (S i)) as [e|] eqn:He; [|done].
    apply lookup_lt_Some in He. apply lookup_ge_None in Hr. pose proof (lk_length _ _ _ Hl). lia.
Qed.
End Merge.

(** ** The queue *)

Lemma elem_of_push ms pos a b q e : e ∈ push_pair ms pos a b q <->
  e ∈ q \/ (m_pos e = pos /\ ms !! pair_of a b = Some (m_rank e, m_id e)).
Proof.
  unfold push_pair. destruct (ms !! pair_of a b) as [[r id]|] eqn:E.
  - rewrite elem_of_cons. split.
    + intros [->|H]; [right; by cbn|by left].
    + intros [H|[Hp H]]; [by right|]. left. destruct e; cbn in *. by simplify_eq.
  - split; [by left|]. by intros [H|[_ H]].
Qed.
Lemma push_length ms pos a b q : (length (push_pair ms pos a b q) <= S (length q))%nat.
Proof. unfold push_pair. case_match; [case_match|]; cbn; lia. Qed.

Section Run.
Context (ms : Merges) (P : Z -> Prop) (w : Z -> Z).
Hypothesis Hm : forall a b r n, P a -> P b -> ms !! pair_of a b = Some (r, n) -> P n /\ w n = w a + w b.
Hypothesis Hw : forall a, P a -> 0 < w a.

(** The pair at [i] is the one entry [e] names. *)
Definition names (cs : list Z) (e : M) (i : nat) : Prop :=
  forall c c', cs !! i = Some c -> cs !! S i = Some c' ->
    ms !! pair_of c c' = Some (m_rank e, m_id e) \/ w (m_id e) < w c + w c'.

(** Every pair that can merge is on the queue, save the one at [skip]; every entry is of its
    pair, or its pair has grown since. *)
Record queued (q : list M) (L : list nat) (cs : list Z) (skip : nat -> Prop) : Prop := {
  qd_tokens : Forall P cs;
  qd_complete : forall i p a b r id, ~ skip i -> L !! i = Some p -> cs !! i = Some a -> cs !! S i = Some b ->
    ms !! pair_of a b = Some (r, id) -> {| m_pos := p; m_rank := r; m_id := id |} ∈ q;
  qd_sound : forall e i, e ∈ q -> L !! i = Some (m_pos e) -> names cs e i }.

Lemma merged_tokens cs i id : Forall P cs -> P id -> Forall P (merge_list i id cs).
Proof. intros Hf Hi. apply Forall_app. split; [by apply Forall_take|]. constructor; [done|by apply Forall_drop]. Qed.

Section QueueMerge.
Context (sym : list Sym) (L : list nat) (cs : list Z) (i p q : nat) (a b r id : Z) (qu : list M).
Hypothesis Hl : linked sym L cs.
Hypothesis Hp : L !! i = Some p.
Hypothesis Hq : L !! S i = Some q.
Hypothesis Ha : cs !! i = Some a.
Hypothesis Hb : cs !! S i = Some b.
Hypothesis Hab : ms !! pair_of a b = Some (r, id).
Hypothesis Hqu : queued qu L cs (.= i).

Local Abbreviation q' := (queue_merged ms L cs i p id qu).
Local Abbreviation L' := (delete (S i) L).
Local Abbreviation cs' := (merge_list i id cs).

Lemma queue_merged_in e : e ∈ q' <-> e ∈ qu \/
  (exists j x c, i = S j /\ L !! j = Some x /\ cs !! j = Some c /\ m_pos e = x /\ ms !! pair_of c id = Some (m_rank e, m_id e)) \/
  (exists c, cs !! S (S i) = Some c /\ m_pos e = p /\ ms !! pair_of id c = Some (m_rank e, m_id e)).
Proof.
  pose proof (lookup_lt_Some _ _ _ Hb) as Hlen. pose proof (lk_length _ _ _ Hl) as Hll. unfold queue_merged.
  assert (Hq1 : e ∈ (match i with O => qu | S j => push_pair ms (nth j L 0%nat) (nth j cs 0) id qu end) <-> e ∈ qu \/
    exists j x c, i = S j /\ L !! j = Some x /\ cs !! j = Some c /\ m_pos e = x /\ ms !! pair_of c id = Some (m_rank e, m_id e)).
  { destruct i as [|j]; [split; [by left|by intros [?|(? & ? & ? & ? & _)]]|].
    destruct (lookup_lt_is_Some_2 L j ltac:(lia)) as [x Hx]. destruct (lookup_lt_is_Some_2 cs j ltac:(lia)) as [c Hcj].
    rewrite (nth_lookup_Some _ _ _ _ Hx), (nth_lookup_Some _ _ _ _ Hcj), elem_of_push. split.
    - intros [H|[H1 H2]]; [by left|]. right. by exists j, x, c.
    - intros [H|(j' & x' & c' & [= <-] & H1 & H2 & H3 & H4)]; [by left|]. simplify_eq. by right. }
  destruct (cs !! S (S i)) as [c|] eqn:E.
  - rewrite elem_of_push, Hq1. split; [intros [[H|H]|H]|intros [H|[H|(c' & [= <-] & H)]]]; auto. right. right. by exists c.
  - rewrite Hq1. split; [intros [H|H]|intros [H|[H|(c' & [=] & _)]]]; auto.
Qed.

(** The pair at an index of the new list: an old pair away from the merge, or the new ones. *)
Lemma merged_pair j x c d : L' !! j = Some x -> cs' !! j = Some c -> cs' !! S j = Some d ->
  (exists k, k <> i /\ S k <> i /\ L !! k = Some x /\ cs !! k = Some c /\ cs !! S k = Some d) \/
  (i = S j /\ L !! j = Some x /\ cs !! j = Some c /\ d = id) \/
  (j = i /\ x = p /\ c = id /\ cs !! S (S i) = Some d).
Proof.
  pose proof (lookup_lt_Some _ _ _ Hb) as Hlen.
  intros Hx Hc Hd. rewrite delete_lookup in Hx. rewrite merge_list_lookup in Hc, Hd by done.
  destruct (decide (S j < i)%nat) as [H1|H1]; [|destruct (decide (S j = i)) as [H2|H2]; [|destruct (decide (j = i)) as [H3|H3]]].
  - left. exists j. rewrite (proj2 (Nat.leb_le _ _)) in Hx by lia. rewrite (proj2 (Nat.ltb_lt j i)) in Hc by lia.
    rewrite (proj2 (Nat.ltb_lt (S j) i)) in Hd by lia. split_and!; [lia|lia|done..].
  - right. left. rewrite (proj2 (Nat.leb_le _ _)) in Hx by lia. rewrite (proj2 (Nat.ltb_lt j i)) in Hc by lia.
    rewrite (proj2 (Nat.ltb_ge (S j) i)), (proj2 (Nat.eqb_eq (S j) i)) in Hd by lia. by simplify_eq.
  - right. right. subst j. rewrite Nat.leb_refl in Hx. rewrite Nat.ltb_irrefl, Nat.eqb_refl in Hc.
    rewrite (proj2 (Nat.ltb_ge (S i) i)), (proj2 (Nat.eqb_neq (S i) i)) in Hd by lia. by simplify_eq.
  - left. exists (S j). rewrite (proj2 (Nat.leb_gt _ _)) in Hx by lia.
    rewrite (proj2 (Nat.ltb_ge j i)), (proj2 (Nat.eqb_neq j i)) in Hc by lia.
    rewrite (proj2 (Nat.ltb_ge (S j) i)), (proj2 (Nat.eqb_neq (S j) i)) in Hd by lia. split_and!; [lia|lia|done..].
Qed.

Lemma queued_merge : queued q' L' cs' (fun _ => False).
Proof.
  destruct Hqu as [Ht Hc Hs].
  assert (Pa : P a) by (by eapply Forall_lookup_1). assert (Pb : P b) by (by eapply Forall_lookup_1).
  destruct (Hm a b r id Pa Pb Hab) as [Pid Wid].
  split; [by apply merged_tokens| |].
  - intros j x c d r' id' _ Hx Hcj Hd Hcd. apply queue_merged_in.
    destruct (merged_pair j x c d Hx Hcj Hd) as [(k & Hk & _ & H1 & H2 & H3)|[(-> & H1 & H2 & ->)|(-> & -> & -> & H3)]].
    + left. by apply (Hc k x c d).
    + right. left. by exists j, x, c.
    + right. right. by exists d.
  - intros e j He Hx c d Hcj Hd. apply queue_merged_in in He.
    assert (Hinj : forall k1 k2 x, L !! k1 = Some x -> L !! k2 = Some x -> k1 = k2) by (intros; by eapply linked_inj).
    destruct (merged_pair j _ c d Hx Hcj Hd) as [(k & Hk & Hk' & H1 & H2 & H3)|[(Hi & H1 & H2 & ->)|(-> & Hpe & -> & H3)]].
    + destruct He as [He|[(j' & x & c' & -> & H4 & H5 & <- & H7)|(c' & H4 & H5 & H6)]]; [by apply (Hs e k)| |].
      * pose proof (Hinj _ _ _ H1 H4). lia.
      * rewrite H5 in H1. pose proof (Hinj _ _ _ H1 Hp). lia.
    + subst i. destruct He as [He|[(j' & x & c' & [= <-] & H4 & H5 & <- & H7)|(c' & H4 & H5 & H6)]].
      * right. pose proof (Hw b Pb) as Hwb. destruct (Hs e j He H1 c a H2 Ha) as [H|H]; [|lia].
        destruct (Hm c a _ _ ltac:(by eapply Forall_lookup_1) Pa H). lia.
      * left. by simplify_eq.
      * rewrite H5 in H1. pose proof (Hinj _ _ _ H1 Hp). lia.
    + destruct He as [He|[(j' & x & c' & -> & H4 & H5 & <- & H7)|(c' & H4 & H5 & H6)]].
      * right. assert (Pd : P d) by (by eapply Forall_lookup_1). pose proof (Hw d Pd) as Hwd. rewrite Hpe in Hx.
        destruct (Hs e i He ltac:(by rewrite Hpe) a b Ha Hb) as [H|H]; [|lia].
        destruct (Hm a b _ _ Pa Pb H). lia.
      * rewrite Hpe in H4. pose proof (Hinj _ _ _ H4 Hp). lia.
      * left. by simplify_eq.
Qed.
End QueueMerge.

(** ** One round of the loop against the reference *)

Abbreviation all_queued q L cs := (queued q L cs (fun _ => False)).

(** An entry that names no pair is dropped without loss. *)
Lemma queued_drop q L cs top r : all_queued q L cs -> q ≡ₚ top :: r ->
  (forall i a b, L !! i = Some (m_pos top) -> cs !! i = Some a -> cs !! S i = Some b ->
     ms !! pair_of a b <> Some (m_rank top, m_id top)) -> all_queued r L cs.
Proof.
  intros [Ht Hc Hs] Hp Hn. split; [done| |].
  - intros i p a b r' id Hsk H1 H2 H3 H4. pose proof (Hc i p a b r' id Hsk H1 H2 H3 H4) as Hin.
    rewrite Hp in Hin. apply elem_of_cons in Hin as [<-|Hin]; [|done]. by destruct (Hn i a b).
  - intros e i He. apply Hs. rewrite Hp. by right.
Qed.

Lemma pair_positions sym L cs i (a b : Z) : linked sym L cs -> cs !! i = Some a -> cs !! S i = Some b ->
  exists p q, L !! i = Some p /\ L !! S i = Some q.
Proof.
  intros Hl Ha Hb. apply lookup_lt_Some in Hb. rewrite (lk_length _ _ _ Hl) in Hb.
  destruct (lookup_lt_is_Some_2 L i ltac:(lia)) as [p ?]. destruct (lookup_lt_is_Some_2 L (S i) ltac:(lia)) as [q ?].
  by exists p, q.
Qed.

(** The entry at the front is the reference's choice when it names a pair at all. *)
Lemma top_is_best sym q L cs top r i a b : linked sym L cs -> all_queued q L cs -> pop q = Some (top, r) ->
  L !! i = Some (m_pos top) -> cs !! i = Some a -> cs !! S i = Some b ->
  ms !! pair_of a b = Some (m_rank top, m_id top) ->
  best_pair ms 0 cs = Some {| m_pos := i; m_rank := m_rank top; m_id := m_id top |}.
Proof.
  intros Hl [_ Hc _] Hpop Hp Ha Hb Hab. destruct (pop_spec _ _ _ Hpop) as [Hperm Hmin].
  apply (best_is ms 0 cs i a b (m_rank top) (m_id top) Ha Hb Hab).
  intros j a' b' r' id' Ha' Hb' Hab'. destruct (pair_positions _ _ _ _ _ _ Hl Ha' Hb') as (p' & q' & Hp' & _).
  pose proof (Hc j p' a' b' r' id' (fun H => H) Hp' Ha' Hb' Hab') as Hin. rewrite Hperm in Hin.
  apply elem_of_cons in Hin as [Heq|Hin].
  - rewrite <- Heq in *. cbn in *. pose proof (linked_inj _ _ _ _ _ _ Hl Hp Hp'). lia.
  - specialize (Hmin _ Hin). unfold m_before in Hmin. cbn [m_rank m_pos] in Hmin.
    destruct (r' =? m_rank top) eqn:E; [|lia]. right. split; [lia|].
    destruct (decide (i <= j)%nat); [done|]. pose proof (lk_sorted _ _ _ Hl j i _ _ Hp' Hp ltac:(lia)). lia.
Qed.

Inductive step_result (sym : list Sym) (q : list M) (L : list nat) (cs : list Z) : option (list Sym * list M) -> Prop :=
| step_done : best_pair ms 0 cs = None -> step_result sym q L cs None
| step_stale q' : all_queued q' L cs -> S (length q') = length q -> step_result sym q L cs (Some (sym, q'))
| step_merge sym' q' L' m : best_pair ms 0 cs = Some m -> linked sym' L' (merge_list (m_pos m) (m_id m) cs) ->
    all_queued q' L' (merge_list (m_pos m) (m_id m) cs) -> length sym' = length sym -> S (length L') = length L ->
    (length q' <= S (length q))%nat -> step_result sym q L cs (Some (sym', q')).

Lemma bpe_step_spec sym q L cs : linked sym L cs -> all_queued q L cs -> Z.of_nat (length sym) < 2 ^ 32 ->
  step_result sym q L cs (bpe_step ms sym q).
Proof.
  intros Hl Hq Hn. unfold bpe_step. destruct (pop q) as [[top r]|] eqn:Hpop; cbn [mbind option_bind].
  2: { apply step_done. apply pop_none in Hpop as ->. destruct (best_pair ms 0 cs) as [m|] eqn:E; [|done].
       destruct (best_rank _ _ _ _ E) as (i & a & b & Ha & Hb & Hab & _).
       destruct (pair_positions _ _ _ _ _ _ Hl Ha Hb) as (p & _ & Hp & _).
       pose proof (qd_complete _ _ _ _ Hq i p a b _ _ (fun H => H) Hp Ha Hb Hab) as Hin. by apply elem_of_nil in Hin. }
  destruct (pop_spec _ _ _ Hpop) as [Hperm _]. pose proof (Permutation_length Hperm) as Hlen. cbn in Hlen.
  destruct ((y_len _ =? 0) || _) eqn:E0.
  { apply step_stale; [|lia]. apply (queued_drop q L cs top r Hq Hperm). intros i a b Hp Ha Hb _.
    destruct (linked_at _ _ _ _ _ Hl Hp) as (c & _ & _ & Hs). rewrite Hs in E0. cbn in E0.
    pose proof (linked_stop _ _ _ _ _ Hl Hp). destruct (pair_positions _ _ _ _ _ _ Hl Ha Hb) as (_ & q' & _ & Hq').
    unfold next_of in E0. rewrite Hq' in E0. cbn in E0. lia. }
  apply orb_false_iff in E0 as [E0 E1].
  destruct (linked_live _ _ _ _ Hl ltac:(by apply Z.eqb_neq)) as [i Hp].
  destruct (linked_at _ _ _ _ _ Hl Hp) as (c & Hc & _ & Hs). rewrite Hs in E1 |- *. cbn [y_next y_c] in E1 |- *.
  unfold next_of in E1 |- *. destruct (L !! S i) as [p'|] eqn:Hq'; [|done]. cbn [from_option]. rewrite Nat2Z.id.
  destruct (linked_at _ _ _ _ _ Hl Hq') as (d & Hd & _ & Hs'). rewrite Hs'. cbn [y_c].
  assert (Hone : forall a b k, L !! k = Some (m_pos top) -> cs !! k = Some a -> cs !! S k = Some b -> a = c /\ b = d).
  { intros a b k Hk Ha Hb. pose proof (linked_inj _ _ _ _ _ _ Hl Hp Hk) as <-. by simplify_eq. }
  assert (Hstale : ms !! pair_of c d <> Some (m_rank top, m_id top) -> step_result sym q L cs (Some (sym, r))).
  { intros Hne. apply step_stale; [|lia]. apply (queued_drop q L cs top r Hq Hperm).
    intros k a b Hk Ha Hb. destruct (Hone a b k Hk Ha Hb) as [-> ->]. done. }
  destruct (ms !! pair_of c d) as [[rk id]|] eqn:Hcd; [|by apply Hstale].
  destruct (id =? m_id top) eqn:Hid; [apply Z.eqb_eq in Hid as ->|apply Hstale; intros [= _ ?]; lia].
  destruct (qd_sound _ _ _ _ Hq top i ltac:(rewrite Hperm; by left) Hp c d Hc Hd) as [Hn'|Hgrown].
  2: { pose proof (qd_tokens _ _ _ _ Hq) as Ht.
       destruct (Hm c d rk (m_id top)) as [_ Hwt]; [by eapply Forall_lookup_1..|done|lia]. }
  rewrite Hcd in Hn'. injection Hn' as ->.
  pose proof (top_is_best _ _ _ _ _ _ _ _ _ Hl Hq Hpop Hp Hc Hd Hcd) as Hbest.
  rewrite (surjective_pairing (merge_at _ _ _ _ _)).
  rewrite (merged_queue ms sym L cs i (m_pos top) p' (m_id top) r Hl Hp Hq' Hn).
  apply (step_merge sym q L cs _ _ (delete (S i) L) _ Hbest); cbn [m_pos m_id].
  - exact (linked_merge ms sym L cs i (m_pos top) p' (m_id top) r Hl Hp Hq' Hn).
  - apply (queued_merge sym L cs i (m_pos top) p' c d (m_rank top) (m_id top) r Hl Hp Hq' Hc Hd Hcd).
    destruct Hq as [Ht Hco Hso]. split; [done| |].
    + intros k p a b r' id' Hk H1 H2 H3 H4. pose proof (Hco k p a b r' id' (fun H => H) H1 H2 H3 H4) as Hin.
      rewrite Hperm in Hin. apply elem_of_cons in Hin as [Heq|Hin]; [|done]. rewrite <- Heq in Hp. cbn in Hp.
      destruct Hk. by eapply linked_inj.
    + intros e k He. apply Hso. rewrite Hperm. by right.
  - exact (merged_length ms sym (m_pos top) (m_id top) r).
  - rewrite (length_delete L (S i)) by (by eexists). apply lookup_lt_Some in Hq'. lia.
  - unfold queue_merged. set (q1 := match i with O => _ | S _ => _ end).
    assert (length q1 <= S (length r))%nat by (unfold q1; destruct i; [lia|apply push_length]).
    destruct (cs !! S (S i)) as [c'|]; [|lia]. pose proof (push_length ms (m_pos top) (m_id top) c' q1). lia.
Qed.

Lemma best_length cs m : best_pair ms 0 cs = Some m -> S (length (merge_list (m_pos m) (m_id m) cs)) = length cs.
Proof.
  intros (i & a & b & _ & Hb & _ & Hi)%best_rank. rewrite Hi. apply merge_list_length.
  by apply lookup_lt_Some in Hb.
Qed.

(** The loop ends with the reference's result. *)
Lemma bpe_loop_spec fuel sym q L cs : linked sym L cs -> all_queued q L cs -> Z.of_nat (length sym) < 2 ^ 32 ->
  (length q + 2 * length L <= fuel)%nat ->
  exists L', linked (bpe_loop fuel ms sym q).1 L' (merge_all (length cs) ms cs) /\ (bpe_loop fuel ms sym q).2 = true.
Proof.
  revert sym q L cs. induction fuel as [|fuel IH]; intros sym q L cs Hl Hq Hn Hf; cbn [bpe_loop].
  all: pose proof (bpe_step_spec sym q L cs Hl Hq Hn) as Hstep; inversion Hstep as [Hb Hs|q' Hq' Hlen Hs|sym' q' L' m Hb Hl' Hq' Hn' HL Hlen Hs].
  1, 4: exists L; split; [|done]; destruct (length cs); cbn [merge_all]; [|rewrite Hb]; done.
  1, 2: exfalso; lia.
  - apply (IH sym q' L cs); [done..|lia].
  - pose proof (best_length _ _ Hb) as Hlc. rewrite <- Hlc. cbn [merge_all]. rewrite Hb.
    apply (IH sym' q' L'); [done..|by rewrite Hn'|lia].
Qed.
End Run.

(** ** Where the loop starts and what it leaves *)

Lemma linked_init cs : linked (imap (init_sym (length cs)) cs) (seq 0 (length cs)) cs.
Proof.
  split.
  - by rewrite length_seq.
  - intros i j p q [-> _]%lookup_seq [-> _]%lookup_seq. lia.
  - intros i p c [-> Hi]%lookup_seq Hc. change (0 + i)%nat with i. rewrite list_lookup_imap, Hc, length_imap. cbn. unfold init_sym, next_of, stop_of. do 2 f_equal.
    + destruct i as [|i]; [done|]. cbn [prev_of]. rewrite lookup_seq_lt by lia. cbn. lia.
    + destruct (i + 1 <? length cs)%nat eqn:E.
      * rewrite lookup_seq_lt by lia. cbn. lia.
      * by rewrite lookup_seq_ge by lia.
    + destruct (decide (S i < length cs)%nat) as [E|E].
      * rewrite lookup_seq_lt by lia. cbn. lia.
      * rewrite lookup_seq_ge by lia. cbn. lia.
  - intros p s Hs Hp. destruct Hp. apply lookup_lt_Some in Hs. rewrite length_imap in Hs. apply elem_of_seq. lia.
Qed.

Lemma init_queue_in ms cs e : e ∈ init_queue ms cs <->
  exists a b, cs !! m_pos e = Some a /\ cs !! S (m_pos e) = Some b /\ ms !! pair_of a b = Some (m_rank e, m_id e).
Proof.
  unfold init_queue.
  assert (Hf : forall l q, e ∈ foldl (fun q i => push_pair ms i (nth i cs 0) (nth (i + 1) cs 0) q) q l <->
    e ∈ q \/ (m_pos e ∈ l /\ ms !! pair_of (nth (m_pos e) cs 0) (nth (S (m_pos e)) cs 0) = Some (m_rank e, m_id e))).
  { induction l as [|i l IH]; intros q; cbn; [rewrite elem_of_nil; tauto|]. rewrite IH, elem_of_push, elem_of_cons, Nat.add_1_r.
    split; [intros [[H|[<- H]]|[H1 H2]]; auto|]. intros [H|[[<-|H1] H2]]; auto. }
  rewrite Hf, elem_of_nil, elem_of_seq. split.
  - intros [[]|[Hi He]]. destruct (lookup_lt_is_Some_2 cs (m_pos e) ltac:(lia)) as [a Ha].
    destruct (lookup_lt_is_Some_2 cs (S (m_pos e)) ltac:(lia)) as [b Hb].
    rewrite (nth_lookup_Some _ _ _ _ Ha), (nth_lookup_Some _ _ _ _ Hb) in He. by exists a, b.
  - intros (a & b & Ha & Hb & He). right. rewrite (nth_lookup_Some _ _ _ _ Ha), (nth_lookup_Some _ _ _ _ Hb).
    apply lookup_lt_Some in Hb. split; [lia|done].
Qed.

Lemma queued_init ms P w cs : Forall P cs -> queued ms P w (init_queue ms cs) (seq 0 (length cs)) cs (fun _ => False).
Proof.
  intros Ht. split; [done| |].
  - intros i p a b r id _ [-> Hi]%lookup_seq Ha Hb Hab. apply init_queue_in. by exists a, b.
  - intros e i (a & b & Ha & Hb & Hab)%init_queue_in [Hi _]%lookup_seq c d Hc Hd. cbn in Hi. subst i. left. by simplify_eq.
Qed.

Definition live_token (s : Sym) : option Z := if y_len s =? 0 then None else Some (y_c s).

Lemma live_positions sym : omap live_token sym =
  (fun p => y_c (sym_at sym p)) <$> filter (fun p => y_len (sym_at sym p) <> 0) (seq 0 (length sym)).
Proof.
  induction sym as [|s sym IH] using rev_ind; [done|]. rewrite omap_app, length_app. cbn [length]. rewrite seq_app, filter_app, fmap_app.
  assert (Hat : forall p, p ∈ seq 0 (length sym) -> sym_at (sym ++ [s]) p = sym_at sym p).
  { intros p [_ Hp]%elem_of_seq. unfold sym_at. by rewrite app_nth1. }
  f_equal.
  - rewrite IH. clear IH. induction (seq 0 (length sym)) as [|p l IHl]; [done|]. rewrite !filter_cons, Hat by (by left).
    destruct (decide _); cbn; [rewrite Hat by (by left); f_equal|]; apply IHl; intros; apply Hat; by right.
  - cbn. unfold live_token. unfold filter, list_filter. unfold sym_at. rewrite nth_middle.
    destruct (y_len s =? 0) eqn:E; [rewrite decide_False by lia|rewrite decide_True by lia]; cbn; [done|].
    by rewrite nth_middle.
Qed.

Lemma lookups_sorted (L : list nat) :
  (forall i j p q, L !! i = Some p -> L !! j = Some q -> (i < j)%nat -> (p < q)%nat) -> StronglySorted lt L.
Proof.
  induction L as [|x L IH]; intros H; constructor.
  - apply IH. intros i j p q Hi Hj Hij. apply (H (S i) (S j) p q Hi Hj). lia.
  - apply Forall_lookup. intros j q Hj. apply (H 0%nat (S j) x q eq_refl Hj). lia.
Qed.
Lemma filter_sorted {A} (R : relation A) (Q : A -> Prop) `{!forall x, Decision (Q x)} l :
  StronglySorted R l -> StronglySorted R (filter Q l).
Proof.
  induction 1 as [|x l Hs IH Hx]; [constructor|]. rewrite filter_cons. destruct (decide _); [|done].
  constructor; [done|]. rewrite Forall_forall in Hx |- *. intros y [_ Hy]%list_elem_of_filter. by apply Hx.
Qed.
Lemma sorted_NoDup (l : list nat) : StronglySorted lt l -> NoDup l.
Proof.
  induction 1 as [|x l Hs IH Hx]; constructor; [|done]. intros Hin. rewrite Forall_forall in Hx. specialize (Hx x Hin). lia.
Qed.
Lemma seq_increasing a n : StronglySorted lt (seq a n).
Proof. apply lookups_sorted. intros i j p q [-> _]%lookup_seq [-> _]%lookup_seq. lia. Qed.

Lemma linked_tokens sym L cs : linked sym L cs -> omap live_token sym = cs.
Proof.
  intros Hl. rewrite live_positions.
  assert (L = filter (fun p => y_len (sym_at sym p) <> 0) (seq 0 (length sym))) as <-.
  { assert (HsL : StronglySorted lt L) by (apply lookups_sorted, (lk_sorted _ _ _ Hl)).
    assert (Hsf := filter_sorted lt (fun p => y_len (sym_at sym p) <> 0) _ (seq_increasing 0 (length sym))).
    apply (StronglySorted_unique_strong lt); [intros; lia|done|done|].
    apply NoDup_Permutation; [by apply sorted_NoDup..|]. intros p. rewrite list_elem_of_filter, elem_of_seq. split.
    - intros [i Hi]%list_elem_of_lookup. destruct (linked_at _ _ _ _ _ Hl Hi) as (c & _ & Hn & Hs).
      pose proof (linked_stop _ _ _ _ _ Hl Hi). rewrite Hs. cbn. lia.
    - intros [Hp _]. destruct (linked_live _ _ _ _ Hl Hp) as [i Hi]. by eapply list_elem_of_lookup_2. }
  apply list_eq. intros i. rewrite list_lookup_fmap. destruct (L !! i) as [p|] eqn:Hi; cbn.
  - destruct (linked_at _ _ _ _ _ Hl Hi) as (c & Hc & _ & Hs). by rewrite Hs, Hc.
  - symmetry. apply lookup_ge_None. rewrite (lk_length _ _ _ Hl). by apply lookup_ge_None.
Qed.

Lemma init_queue_length ms cs : (length (init_queue ms cs) <= length cs - 1)%nat.
Proof.
  unfold init_queue.
  set (f := fun q i => push_pair ms i (nth i cs 0) (nth (i + 1) cs 0) q).
  assert (Hf : forall l q, (length (foldl f q l) <= length q + length l)%nat).
  { induction l as [|i l IH]; intros q; cbn; [lia|]. rewrite IH. unfold f. pose proof (push_length ms i (nth i cs 0) (nth (i + 1) cs 0) q). lia. }
  rewrite Hf, length_seq. done.
Qed.

Lemma merge_all_done f ms cs : (length cs <= f)%nat -> best_pair ms 0 (merge_all f ms cs) = None.
Proof.
  revert cs. induction f as [|f IH]; intros cs Hf; cbn [merge_all]; [by destruct cs; [|cbn in Hf; lia]|].
  destruct (best_pair ms 0 cs) as [m|] eqn:E; [|done]. apply IH. pose proof (best_length ms cs m E). lia.
Qed.

Definition byte_token (byte_id : list Z) (b : Ascii.ascii) : Z := nth (Z.to_nat (Json.byte_of b)) byte_id 0.

Lemma bpe_reference ms (P : Z -> Prop) (w : Z -> Z) byte_id word :
  (forall a b r n, P a -> P b -> ms !! pair_of a b = Some (r, n) -> P n /\ w n = w a + w b) ->
  (forall a, P a -> 0 < w a) -> Forall P (map (byte_token byte_id) word) -> Z.of_nat (length word) < 2 ^ 32 ->
  bpe ms byte_id word = merge_all (length word) ms (map (byte_token byte_id) word) /\
  (bpe_run ms (map (byte_token byte_id) word)).2 = true /\
  best_pair ms 0 (bpe ms byte_id word) = None.
Proof.
  intros Hm Hw Ht Hn. set (cs := map _ _) in *.
  assert (Hlen : length word = length cs) by (unfold cs; by rewrite length_map). rewrite Hlen in *.
  destruct (bpe_loop_spec ms P w Hm Hw (3 * length cs) (imap (init_sym (length cs)) cs) (init_queue ms cs) (seq 0 (length cs)) cs)
    as (L & Hl & He).
  { apply linked_init. } { by apply queued_init. } { by rewrite length_imap. }
  { rewrite length_seq. pose proof (init_queue_length ms cs). lia. }
  assert (Hb : bpe ms byte_id word = merge_all (length cs) ms cs); [|split_and!; [done|done|rewrite Hb; by apply merge_all_done]].
  rewrite <- (linked_tokens _ _ _ Hl). unfold bpe. change (map _ word) with cs.
  destruct cs as [|c [|d cs']] eqn:Ec; done.
Qed.

(** C7: on a word below 4 GiB, with tokens whose lengths add up when they merge, the queue and
    the linked list of [bpe] give what merging the lowest-ranked leftmost pair of a plain list
    until no pair is left gives, and the loop runs to its end. *)
Theorem bpe_merges_best_pairs ms (P : Z -> Prop) (w : Z -> Z) byte_id word :
  (forall a b r n, P a -> P b -> ms !! pair_of a b = Some (r, n) -> P n /\ w n = w a + w b) ->
  (forall a, P a -> 0 < w a) -> Forall P (map (byte_token byte_id) word) -> Z.of_nat (length word) < 2 ^ 32 ->
  bpe ms byte_id word = merge_all (length word) ms (map (byte_token byte_id) word) /\
  (bpe_run ms (map (byte_token byte_id) word)).2 = true /\
  best_pair ms 0 (bpe ms byte_id word) = None.
Proof. apply bpe_reference. Qed.

(** The word [abab] with the merges [ab] (of rank 1), [ba] (0) and [aba] (2). *)
Definition toy_merges : Merges := list_to_map [(pair_of 97 98, (1, 256)); (pair_of 98 97, (0, 257)); (pair_of 97 257, (2, 258))].
Definition toy_word : text := to_text "abab".
Definition toy_width (c : Z) : Z := if c =? 258 then 3 else if c <? 256 then 1 else 2.

Example toy_bpe : bpe toy_merges (seqZ 0 256) toy_word = [258; 98].
Proof. by vm_compute. Qed.

Lemma bpe_merges_best_pairs_witness :
  bpe toy_merges (seqZ 0 256) toy_word = merge_all (length toy_word) toy_merges (map (byte_token (seqZ 0 256)) toy_word) /\
  (bpe_run toy_merges (map (byte_token (seqZ 0 256)) toy_word)).2 = true /\
  best_pair toy_merges 0 (bpe toy_merges (seqZ 0 256) toy_word) = None.
Proof.
  apply (bpe_merges_best_pairs toy_merges (fun c => 0 <= c < 2 ^ 32) toy_width).
  - intros a b r n Ha Hb Hab. unfold toy_merges in Hab. cbn [list_to_map foldr] in Hab.
    assert (Hinj : forall c d, 0 <= c < 2 ^ 32 -> 0 <= d < 2 ^ 32 -> pair_of a b = pair_of c d -> a = c /\ b = d).
    { intros c d Hc Hd. unfold pair_of. rewrite !lor_shiftl by lia. lia. }
    repeat (apply lookup_insert_Some in Hab as [[Hk [= <- <-]]|[_ Hab]];
      [symmetry in Hk; apply Hinj in Hk as [-> ->]; [split; [lia|done]|lia|lia]|]).
    done.
  - intros a Ha. unfold toy_width. repeat case_match; lia.
  - apply Forall_forall. intros x Hx. vm_compute in Hx. repeat (apply elem_of_cons in Hx as [->|Hx]; [lia|]). by apply elem_of_nil in Hx.
  - done.
Defined.
