(* ===== verification/TokenizerTrie.v ===== *)
(** Cutting text for the tokenizer: the trie of added tokens finds the longest one at a
    position, and segments and pieces tile the text. *)

From Stdlib Require Import Ascii ZifyBool.
From S2P Require Import Prelude Json Unicode Utf8 Tokenizer.

(** ** The trie as a map from contents to ids *)

Fixpoint walk (t : Trie) (n : nat) (s : text) : option nat :=
  match s with [] => Some n | b :: s => m ← edges t !! edge_key n b; walk t m s end.
Definition trie_get (t : Trie) (s : text) : option Z :=
  n ← walk t 0 s; if 0 <=? node_id t n then Some (node_id t n) else None.

Lemma walk_app t n s u : walk t n (s ++ u) = m ← walk t n s; walk t m u.
Proof. revert n. induction s as [|b s IH]; intros n; [done|]. cbn. destruct (edges t !! _); cbn; [apply IH|done]. Qed.
Lemma walk_snoc t n s b m : walk t n (s ++ [b]) = Some m <-> exists k, walk t n s = Some k /\ edges t !! edge_key k b = Some m.
Proof.
  rewrite walk_app. split.
  - destruct (walk t n s) as [k|]; [|done]. cbn. destruct (edges t !! edge_key k b) eqn:E; [|done]. intros [= <-]. by exists k.
  - intros (k & -> & H). cbn. by rewrite H.
Qed.

Lemma edge_key_inj n b m c : edge_key n b = edge_key m c -> n = m /\ b = c.
Proof.
  unfold edge_key. pose proof (byte_of_range b). pose proof (byte_of_range c). rewrite !lor_shiftl by lia.
  intros H1. split; [lia|]. apply byte_of_inj. lia.
Qed.

(** Nodes are numbered as they are made, the root has no edge to it and no other node two. *)
Record trie_ok (t : Trie) : Prop := {
  tr_root : (0 < length (nodes t))%nat;
  tr_edge : forall k m, edges t !! k = Some m -> (0 < m < length (nodes t))%nat /\
    exists n b, k = edge_key n b /\ (n < length (nodes t))%nat;
  tr_tree : forall k k' m, edges t !! k = Some m -> edges t !! k' = Some m -> k = k';
  tr_ids : Forall (fun x => -2 ^ 31 <= x < 2 ^ 31) (nodes t) }.

Lemma Trie_new_ok : trie_ok Trie_new.
Proof. split; [cbn; lia|done|done|]. constructor; [lia|done]. Qed.

Lemma walk_inj t p q n : trie_ok t -> walk t 0 p = Some n -> walk t 0 q = Some n -> p = q.
Proof.
  intros Ht. revert q n. induction p as [|b p IH] using rev_ind; intros q n Hp Hq.
  - destruct q as [|c q _] using rev_ind; [done|]. apply walk_snoc in Hq as (k & _ & He).
    destruct (tr_edge _ Ht _ _ He) as [? _]. injection Hp as <-. lia.
  - apply walk_snoc in Hp as (k & Hk & He). destruct q as [|c q _] using rev_ind.
    + injection Hq as <-. destruct (tr_edge _ Ht _ _ He) as [? _]. lia.
    + apply walk_snoc in Hq as (k' & Hk' & He'). destruct (edge_key_inj _ _ _ _ (tr_tree _ Ht _ _ _ He He')) as [-> ->].
      by rewrite (IH _ _ Hk Hk').
Qed.

(** [t] grew out of [t0]: its new edges lead to new nodes, which carry no token. *)
Record grown (t0 t : Trie) : Prop := {
  gr_nodes : exists k, nodes t = nodes t0 ++ replicate k (-1);
  gr_old : forall k m, edges t0 !! k = Some m -> edges t !! k = Some m;
  gr_new : forall k m, edges t !! k = Some m -> edges t0 !! k = Some m \/ (length (nodes t0) <= m)%nat }.

Lemma grown_length t0 t : grown t0 t -> (length (nodes t0) <= length (nodes t))%nat.
Proof. intros [[k ->] _ _]. rewrite length_app. lia. Qed.
Lemma grown_refl t : grown t t.
Proof. split; [exists 0%nat; by rewrite app_nil_r|done|auto]. Qed.
Lemma grown_trans t1 t2 t3 : grown t1 t2 -> grown t2 t3 -> grown t1 t3.
Proof.
  intros H12 H23. pose proof (grown_length _ _ H12). destruct H12 as [[k Hk] O1 N1], H23 as [[j Hj] O2 N2]. split; [|auto|].
  - exists (k + j)%nat. by rewrite Hj, Hk, replicate_add, app_assoc.
  - intros x m [H1|H1]%N2; [auto|right; lia].
Qed.

Lemma walk_old t0 t n s m : grown t0 t -> walk t0 n s = Some m -> walk t n s = Some m.
Proof.
  intros Hg. revert n. induction s as [|b s IH]; intros n; [done|]. cbn.
  destruct (edges t0 !! edge_key n b) as [k|] eqn:E; [|done]. cbn. rewrite (gr_old _ _ Hg _ _ E). cbn. apply IH.
Qed.
Lemma walk_back t0 t s m : trie_ok t0 -> grown t0 t -> walk t 0 s = Some m -> (m < length (nodes t0))%nat -> walk t0 0 s = Some m.
Proof.
  intros Ht Hg. revert m. induction s as [|b s IH] using rev_ind; intros m Hm Hlt; [done|].
  apply walk_snoc in Hm as (k & Hk & He). apply walk_snoc. destruct (gr_new _ _ Hg _ _ He) as [He0|]; [|lia].
  exists k. split; [|done]. apply (IH k Hk). destruct (tr_edge _ Ht _ _ He0) as [_ (n & c & Hn & Hlt')].
  by destruct (edge_key_inj _ _ _ _ Hn) as [-> _].
Qed.

Lemma trie_step_grown t n b t' m : trie_ok t -> (n < length (nodes t))%nat -> trie_step (t, n) b = (t', m) ->
  trie_ok t' /\ grown t t' /\ edges t' !! edge_key n b = Some m.
Proof.
  intros Ht Hn. cbn. destruct (edges t !! edge_key n b) as [k|] eqn:E; intros [= <- <-].
  { split; [done|]. split; [apply grown_refl|done]. }
  assert (Hold : forall k m, edges t !! k = Some m -> k <> edge_key n b) by congruence.
  split; [split; cbn|split; [split; cbn|]].
  - rewrite length_app. cbn. lia.
  - intros k m [[<- <-]|[_ H]]%lookup_insert_Some; rewrite length_app; cbn.
    + split; [pose proof (tr_root _ Ht); lia|]. exists n, b. split; [done|lia].
    + destruct (tr_edge _ Ht _ _ H) as [? (n' & b' & ? & ?)]. split; [lia|]. exists n', b'. split; [done|lia].
  - intros k k' m [[<- <-]|[_ H]]%lookup_insert_Some [[<- Hm]|[_ H']]%lookup_insert_Some; [done|..].
    + destruct (tr_edge _ Ht _ _ H') as [? _]. lia.
    + subst m. destruct (tr_edge _ Ht _ _ H) as [? _]. lia.
    + by apply (tr_tree _ Ht _ _ _ H H').
  - apply Forall_app. split; [apply (tr_ids _ Ht)|]. constructor; [lia|done].
  - by exists 1%nat.
  - intros k m H. rewrite lookup_insert_ne by (symmetry; by eapply Hold). done.
  - intros k m [[<- <-]|[_ H]]%lookup_insert_Some; [by right|by left].
  - cbn. apply lookup_insert_eq.
Qed.

Lemma trie_path s : forall t p n, trie_ok t -> walk t 0 p = Some n -> (n < length (nodes t))%nat ->
  exists t' m, foldl trie_step (t, n) s = (t', m) /\ trie_ok t' /\ grown t t' /\ walk t' 0 (p ++ s) = Some m /\
    (m < length (nodes t'))%nat.
Proof.
  induction s as [|b s IH]; intros t p n Ht Hp Hn.
  { exists t, n. rewrite app_nil_r. split_and!; [done|done|apply grown_refl|done|done]. }
  destruct (trie_step (t, n) b) as [t1 k] eqn:E. destruct (trie_step_grown t n b t1 k Ht Hn E) as (Ht1 & Hg & He).
  destruct (IH t1 (p ++ [b]) k Ht1) as (t' & m & Hf & Ht' & Hg' & Hw & Hm).
  { apply walk_snoc. exists n. split; [by eapply walk_old|done]. }
  { by destruct (tr_edge _ Ht1 _ _ He) as [[_ ?] _]. }
  exists t', m. cbn [foldl]. rewrite E, <- app_assoc in *. split_and!; [done|done|by eapply grown_trans|done|done].
Qed.

Lemma i32_range x : -2 ^ 31 <= i32 x < 2 ^ 31.
Proof. unfold i32. pose proof (u32_range x). case_match; lia. Qed.

Lemma node_id_app t0 t k m : nodes t = nodes t0 ++ replicate k (-1) -> node_id t m = if (m <? length (nodes t0))%nat then node_id t0 m else -1.
Proof.
  intros Hk. unfold node_id. rewrite Hk. destruct (m <? length (nodes t0))%nat eqn:E.
  - by rewrite app_nth1 by lia.
  - rewrite app_nth2 by lia. destruct (decide (m - length (nodes t0) < k)%nat).
    + apply (nth_lookup_Some _ _ _ (-1)). by apply lookup_replicate_2.
    + apply nth_overflow. rewrite length_replicate. lia.
Qed.

Lemma trie_get_grown t0 t s : trie_ok t0 -> grown t0 t -> trie_get t s = trie_get t0 s.
Proof.
  intros Ht Hg. unfold trie_get. destruct (gr_nodes _ _ Hg) as [k Hk].
  destruct (walk t 0 s) as [m|] eqn:E; cbn.
  - rewrite (node_id_app t0 t k m Hk). destruct (m <? length (nodes t0))%nat eqn:Em.
    + by rewrite (walk_back t0 t s m Ht Hg E) by lia.
    + destruct (walk t0 0 s) as [m'|] eqn:E'; [|done]. cbn.
      assert (Hm' : m' = m) by (pose proof (walk_old _ _ _ _ _ Hg E'); congruence). subst m'.
      unfold node_id. rewrite (nth_overflow (nodes t0)) by lia. done.
  - destruct (walk t0 0 s) as [m'|] eqn:E'; [|done]. by rewrite (walk_old _ _ _ _ _ Hg E') in E.
Qed.

(** Inserting sets the id of one content and of no other. *)
Lemma trie_insert_spec t s id : trie_ok t -> trie_ok (trie_insert t s id) /\
  forall p, trie_get (trie_insert t s id) p = if decide (p = s) then (if 0 <=? i32 id then Some (i32 id) else None) else trie_get t p.
Proof.
  intros Ht. destruct (trie_path s t [] 0%nat Ht eq_refl (tr_root _ Ht)) as (t' & m & Hf & Ht' & Hg & Hw & Hm).
  unfold trie_insert. rewrite Hf. cbn [app] in Hw.
  assert (Hwalk : forall n p, walk {| nodes := <[m := i32 id]> (nodes t'); edges := edges t' |} n p = walk t' n p).
  { intros n p. revert n. induction p as [|b p IH]; intros n; [done|]. cbn. destruct (edges t' !! edge_key n b); cbn; [apply IH|done]. }
  split.
  - split; cbn; rewrite ?length_insert.
    + by apply Ht'.
    + apply (tr_edge _ Ht').
    + apply (tr_tree _ Ht').
    + apply Forall_insert; [apply (tr_ids _ Ht')|apply i32_range].
  - intros p. unfold trie_get at 1. rewrite Hwalk. destruct (decide (p = s)) as [->|Hne].
    + rewrite Hw. cbn. unfold node_id. cbn. rewrite (nth_lookup_Some _ _ _ _ (list_lookup_insert_eq _ _ _ Hm)). done.
    + rewrite <- (trie_get_grown t t' p Ht Hg). unfold trie_get. destruct (walk t' 0 p) as [k|] eqn:E; [|done]. cbn.
      assert (k <> m) by (intros ->; by pose proof (walk_inj _ _ _ _ Ht' E Hw)).
      unfold node_id. cbn. rewrite !nth_lookup, list_lookup_insert_ne; done.
Qed.

(** ** The longest token at a position *)

(** [n] bytes of [s] are a token with this id, and no more bytes are one. *)
Definition longest (t : Trie) (s : text) (n : nat) (id : Z) : Prop :=
  (n <= length s)%nat /\ (n = 0%nat \/ trie_get t (take n s) = Some id) /\
  forall k, (0 < k <= length s)%nat -> is_Some (trie_get t (take k s)) -> (k <= n)%nat.

Lemma trie_get_range t s id : trie_ok t -> trie_get t s = Some id -> 0 <= id < 2 ^ 31.
Proof.
  intros Ht. unfold trie_get. destruct (walk t 0 s) as [n|]; [|done]. cbn. destruct (0 <=? _) eqn:E; [|done]. intros [= <-].
  destruct (nodes t !! n) as [x|] eqn:Hx.
  - unfold node_id in *. rewrite (nth_lookup_Some _ _ _ _ Hx) in *. pose proof (tr_ids _ Ht) as Hf.
    rewrite Forall_forall in Hf. specialize (Hf x ltac:(by eapply list_elem_of_lookup_2)). lia.
  - unfold node_id in *. rewrite nth_overflow in E by (by apply lookup_ge_None). lia.
Qed.

Lemma longest_loop_spec t p u n best : trie_ok t -> walk t 0 p = Some n ->
  ((best.1 <= length p)%nat /\ (best.1 = 0%nat \/ trie_get t (take best.1 p) = Some best.2) /\
   forall k, (0 < k <= length p)%nat -> is_Some (trie_get t (take k p)) -> (k <= best.1)%nat) ->
  longest t (p ++ u) (longest_loop t n (length p) u best).1 (longest_loop t n (length p) u best).2.
Proof.
  intros Ht. revert p n best. induction u as [|b u IH]; intros p n best Hp (H1 & H2 & H3); cbn [longest_loop].
  { rewrite app_nil_r. split_and!; done. }
  destruct (edges t !! edge_key n b) as [m|] eqn:E.
  - assert (Hw : walk t 0 (p ++ [b]) = Some m) by (apply walk_snoc; by exists n).
    replace (p ++ b :: u) with ((p ++ [b]) ++ u) by (by rewrite <- app_assoc).
    replace (S (length p)) with (length (p ++ [b])) by (rewrite length_app; cbn; lia).
    apply IH; [done|]. rewrite length_app. cbn [length].
    assert (Hget : trie_get t (p ++ [b]) = if 0 <=? node_id t m then Some (node_id t m) else None) by (unfold trie_get; by rewrite Hw).
    destruct (0 <=? node_id t m) eqn:Em; cbn [fst snd].
    + split; [lia|]. split.
      * right. rewrite take_ge by (rewrite length_app; cbn; lia). rewrite Hget. f_equal.
        pose proof (trie_get_range _ _ _ Ht Hget). rewrite u32_small; lia.
      * intros k Hk _. lia.
    + split; [lia|]. split; [destruct H2 as [|H2]; [by left|right; by rewrite take_app_le by lia]|].
      intros k Hk Hs. destruct (decide (k <= length p)%nat); [apply H3; [lia|by rewrite take_app_le in Hs]|].
      rewrite take_ge in Hs by (rewrite length_app; cbn; lia). rewrite Hget in Hs. by destruct Hs.
  - split_and!; [rewrite length_app; lia|destruct H2 as [|H2]; [by left|right; by rewrite take_app_le by lia]|].
    intros k Hk Hs. destruct (decide (k <= length p)%nat) as [|Hkp]; [apply H3; [lia|by rewrite take_app_le in Hs]|].
    exfalso. destruct Hs as [x Hx]. unfold trie_get in Hx.
    replace (take k (p ++ b :: u)) with ((p ++ [b]) ++ take (k - length p - 1) u) in Hx.
    2: { rewrite take_app. rewrite (take_ge p) by lia. destruct (k - length p)%nat as [|j] eqn:Ek; [lia|].
         cbn. rewrite Nat.sub_0_r, <- app_assoc. done. }
    rewrite walk_app in Hx. destruct (walk t 0 (p ++ [b])) as [k'|] eqn:E'; [|done].
    apply walk_snoc in E' as (k2 & Hk2 & He). rewrite Hp in Hk2. by simplify_eq.
Qed.

Lemma longest_at_spec t s i : trie_ok t -> longest t (drop i s) (longest_at t s i).1 (longest_at t s i).2.
Proof.
  intros Ht. apply (longest_loop_spec t [] (drop i s) 0%nat (0%nat, 0) Ht eq_refl).
  split; [done|]. split; [by left|]. cbn. lia.
Qed.

(** ** Segments and pieces tile what they cut *)

Fixpoint seg_tiles (a : nat) (gs : list Segment) (b : nat) : Prop :=
  match gs with
  | [] => a = b
  | g :: gs => seg_begin g = a /\ (a < seg_end g)%nat /\ seg_tiles (seg_end g) gs b
  end.
Fixpoint tiles (a : nat) (ps : list Piece) (b : nat) : Prop :=
  match ps with
  | [] => a = b
  | p :: ps => pc_b p = a /\ (a < pc_e p)%nat /\ tiles (pc_e p) ps b
  end.

Lemma seg_tiles_le a gs b : seg_tiles a gs b -> (a <= b)%nat.
Proof. revert a. induction gs as [|g gs IH]; intros a; cbn; [lia|]. intros (_ & H1 & H2%IH). lia. Qed.
Lemma segs_le a ps b : tiles a ps b -> (a <= b)%nat.
Proof. revert a. induction ps as [|g gs IH]; intros a; cbn; [lia|]. intros (_ & H1 & H2%IH). lia. Qed.
Lemma seg_tiles_app a gs b hs c : seg_tiles a gs b -> seg_tiles b hs c -> seg_tiles a (gs ++ hs) c.
Proof. revert a. induction gs as [|g gs IH]; intros a; cbn; [by intros <-|]. intros (-> & H1 & H2) H3. eauto. Qed.
Lemma tiles_app a ps b qs c : tiles a ps b -> tiles b qs c -> tiles a (ps ++ qs) c.
Proof. revert a. induction ps as [|g gs IH]; intros a; cbn; [by intros <-|]. intros (-> & H1 & H2) H3. eauto. Qed.

(** A segment cut out of [sub] is the longest token where it begins, or text in which no
    token begins, up to the next token or the end. *)
Definition cut_right (t : Trie) (sub : text) (g : Segment) : Prop :=
  (0 <= seg_id g /\ seg_end g = (seg_begin g + (longest_at t sub (seg_begin g)).1)%nat /\
   trie_get t (subspan sub (seg_begin g) (seg_end g - seg_begin g)) = Some (seg_id g)) \/
  (seg_id g = -1 /\ (forall i, (seg_begin g <= i < seg_end g)%nat -> (longest_at t sub i).1 = 0%nat) /\
   (seg_end g = length sub \/ (longest_at t sub (seg_end g)).1 <> 0%nat)).

Lemma split_seg_spec t s stop fuel last i : trie_ok t -> (last <= i <= stop)%nat -> (stop - i <= fuel)%nat ->
  length s = stop -> (forall k, (last <= k < i)%nat -> (longest_at t s k).1 = 0%nat) ->
  seg_tiles last (split_seg fuel t s stop last i) stop /\ Forall (cut_right t s) (split_seg fuel t s stop last i).
Proof.
  intros Ht. revert last i. induction fuel as [|fuel IH]; intros last i Hi Hf Hs Hk; cbn [split_seg].
  all: assert (Hrest : forall e, (i <= e)%nat -> (e = length s \/ (longest_at t s e).1 <> 0%nat) ->
         (forall k, (i <= k < e)%nat -> (longest_at t s k).1 = 0%nat) ->
         seg_tiles last (if (last <? e)%nat then [Seg last e (-1)] else []) e /\
         Forall (cut_right t s) (if (last <? e)%nat then [Seg last e (-1)] else []))
       by (intros e He Hend Hz; destruct (last <? e)%nat eqn:E; cbn; split; [split_and!; [done|lia|done]|
             constructor; [right; split; [done|]; cbn; split; [|done]; intros k Hk'; destruct (decide (k < i)%nat); [apply Hk|apply Hz]; lia|done]|lia|done]).
  { apply Hrest; [lia|by left|lia]. }
  destruct (i <? stop)%nat eqn:E; [|apply Hrest; [lia|by left|lia]].
  pose proof (longest_at_spec t s i Ht) as Hl. destruct (longest_at t s i) as [n id] eqn:En. destruct Hl as (Hn & Hg & _). cbn [fst snd] in *.
  rewrite length_drop in Hn. destruct (n =? 0)%nat eqn:E0.
  - apply IH; [lia|lia|done|]. intros k Hki. destruct (decide (k = i)) as [->|]; [rewrite En; cbn; lia|apply Hk; lia].
  - destruct Hg as [|Hg]; [lia|]. destruct (IH (i + n)%nat (i + n)%nat ltac:(lia) ltac:(lia) Hs) as [IH1 IH2]; [lia|].
    assert (Hi' : (i <= i)%nat) by done. destruct (Hrest i Hi') as [R1 R2]; [right; rewrite En; cbn; lia|lia|]. split.
    + eapply seg_tiles_app; [exact R1|]. cbn. split_and!; [done|lia|done].
    + apply Forall_app. split; [exact R2|]. constructor; [|done]. left. cbn [seg_begin seg_end seg_id Seg]. rewrite En.
      pose proof (trie_get_range _ _ _ Ht Hg). split_and!; [lia|done|]. by replace (i + n - i)%nat with n by lia.
Qed.

Lemma isolate_tiles m e fuel last i : (last <= i <= e)%nat -> (e - i <= fuel)%nat ->
  (forall k, (i <= k < e)%nat -> (m k e <= e - k)%nat) -> tiles last (isolate fuel m e last i) e.
Proof.
  revert last i. induction fuel as [|fuel IH]; intros last i Hi Hf Hm; cbn [isolate].
  { destruct (last <? e)%nat eqn:E; cbn; [split_and!; [done|lia|done]|lia]. }
  destruct (i <? e)%nat eqn:E.
  - destruct (m i e =? 0)%nat eqn:E0; [apply IH; [lia|lia|]; intros; apply Hm; lia|].
    pose proof (Hm i ltac:(lia)). eapply tiles_app with (b := i).
    + destruct (last <? i)%nat eqn:E1; cbn; [split_and!; [done|lia|done]|lia].
    + cbn. split_and!; [done|lia|]. apply IH; [lia|lia|]. intros. apply Hm. lia.
  - destruct (last <? e)%nat eqn:E1; cbn; [split_and!; [done|lia|done]|lia].
Qed.
Lemma split_isolated_tiles m a ps b : (forall i e, (i < e <= b)%nat -> (m i e <= e - i)%nat) -> tiles a ps b ->
  tiles a (split_isolated m ps) b.
Proof.
  intros Hm. revert a. induction ps as [|p ps IH]; intros a; cbn; [done|]. intros (<- & H1 & H2).
  pose proof (segs_le _ _ _ H2). eapply tiles_app; [|by apply IH]. apply isolate_tiles; [lia|lia|]. intros. apply Hm. lia.
Qed.

Lemma run_bounds f e j : (j <= e)%nat -> (j <= run f e j <= e)%nat.
Proof.
  intros Hj. unfold run. remember (e - j)%nat as d eqn:Hd.
  revert j Hj Hd. induction d as [|d IH]; intros j Hj Hd; cbn; [lia|]. destruct (_ && _); [|lia].
  specialize (IH (S j) ltac:(lia) ltac:(lia)). lia.
Qed.
Lemma last_such_bounds f i k n : last_such f i k = Some n -> (i < n <= k)%nat.
Proof.
  induction k as [|k IH]; cbn [last_such]; [done|]. destruct (i <? S k)%nat eqn:E; [|done].
  destruct (f k); [intros [= <-]; lia|]. intros H%IH. lia.
Qed.

Lemma optional_next a b i e : (i < e)%nat -> ((if a && (i + 1 <? e)%nat && b then i + 1 else i) <= e)%nat.
Proof. intros Hi. destruct a, (i + 1 <? e)%nat eqn:E, b; cbn; lia. Qed.

Lemma match_bounds cp i e : (i < e)%nat ->
  (match_digits cp i e <= e - i)%nat /\ (match_cjk cp i e <= e - i)%nat /\ (match_words cp i e <= e - i)%nat.
Proof.
  intros Hi. assert (Hr : forall f j, (j <= e)%nat -> (run f e j <= e)%nat) by (intros f j Hj; by apply run_bounds).
  unfold match_digits, match_cjk, match_words, match_space.
  split_and!; [specialize (Hr (fun j => (j <? i + 3)%nat && has cp j kN) i); lia|specialize (Hr (fun j => has cp j kCJK) i); lia|].
  destruct (_ && _ && _) eqn:E1; [pose proof (Hr (fun j => is_ascii_alpha (cp_at cp j)) (i + 1)%nat); lia|].
  set (j2 := if _ && _ && has cp (i + 1) (Z.lor kL kM) then _ else _). assert (j2 <= e)%nat by by apply optional_next.
  destruct (has cp j2 _); [pose proof (Hr (fun j => has cp j (Z.lor kL kM)) j2); lia|].
  set (j3 := if _ && _ && has cp (i + 1) (Z.lor kP kS) then _ else _). assert (j3 <= e)%nat by by apply optional_next.
  destruct (has cp j3 _).
  { pose proof (Hr (fun j => has cp j (Z.lor kP kS)) j3 ltac:(done)). pose proof (Hr (crlf cp) (run (fun j => has cp j (Z.lor kP kS)) e j3)). lia. }
  destruct (negb (has cp i kWS)); [lia|]. pose proof (Hr (fun j => has cp j kWS) i ltac:(lia)) as Hrw.
  destruct (last_such _ _ _) as [k|] eqn:Ek; [apply last_such_bounds in Ek; lia|]. repeat case_match; lia.
Qed.

Lemma pieces_tile cp : tiles 0 (pieces cp) (length cp).
Proof.
  destruct (decide (cp = [])) as [->|Hne]; [done|]. unfold pieces.
  do 3 (apply split_isolated_tiles; [intros i e H; by destruct (match_bounds cp i e) as (? & ? & ?); [lia|]|]).
  destruct cp as [|c cp]; [done|]. cbn. split_and!; [done|lia|done].
Qed.
