(* ===== verification/TokenizerProps.v ===== *)
(** Properties of the tokenizer: a stream of tokens decodes as the whole does, and what is
    encoded decodes to the text that was read. *)

From Stdlib Require Import Ascii ZifyBool.
From S2P Require Import Prelude Json Unicode Utf8 Tokenizer BpeProps TokenizerTrie.

(** ** Streaming *)

Fixpoint stream_run (t : Tokenizer) (skip_special : bool) (pending : text) (ids : list Z) : text :=
  match ids with
  | [] => (stream_flush pending).1
  | id :: ids => let '(out, pending) := stream_push t skip_special pending id in out ++ stream_run t skip_special pending ids
  end.

(** Ids without a token have no bytes. *)
Definition blank_unused (im : Impl) : Prop := forall id, flag im id 1 = false -> nth (Z.to_nat id) (bytes im) [] = [].

Lemma push_appends im skip pending id : blank_unused im ->
  exists h, (h <= length (pending ++ raw_bytes im skip id))%nat /\
  (forall t, lossy ((pending ++ raw_bytes im skip id) ++ t) =
     (stream_push (Some im) skip pending id).1 ++ lossy ((stream_push (Some im) skip pending id).2 ++ t)).
Proof.
  intros Hb. unfold stream_push, raw_bytes, tok_vocab_size, is_special, token_bytes.
  assert (Hnone : exists h, (h <= length (pending ++ []))%nat /\ forall t, lossy ((pending ++ []) ++ t) = [] ++ lossy (pending ++ t)).
  { exists 0%nat. split; [lia|]. intros t. by rewrite app_nil_r. }
  destruct (vocab_size im <=? id) eqn:E1; cbn [orb]; [done|].
  rewrite (proj2 (Z.ltb_lt _ _)) by lia. cbn [andb].
  assert (Hpush : forall bs, exists h, (h <= length (pending ++ bs))%nat /\
    forall t, lossy ((pending ++ bs) ++ t) =
      (let '(out, held) := utf8_lossy (pending ++ bs) true in (out, drop (length (pending ++ bs) - held) (pending ++ bs))).1 ++
      lossy ((let '(out, held) := utf8_lossy (pending ++ bs) true in (out, drop (length (pending ++ bs) - held) (pending ++ bs))).2 ++ t)).
  { intros bs. destruct (lossy_held (pending ++ bs)) as [Hl Ht]. destruct (utf8_lossy (pending ++ bs) true) as [out held].
    exists held. split; [done|]. exact Ht. }
  destruct (skip && flag im id 4) eqn:E2.
  - destruct (flag im id 1); cbn [negb orb]; exact Hnone.
  - destruct (flag im id 1) eqn:E3; cbn [negb]; [apply Hpush|]. rewrite (Hb id E3). apply (Hpush []).
Qed.

Lemma stream_decodes im skip_special ids : blank_unused im ->
  stream_run (Some im) skip_special [] ids = decode (Some im) ids skip_special.
Proof.
  intros Hb. unfold decode.
  assert (Hgo : forall pending, stream_run (Some im) skip_special pending ids = lossy (pending ++ flat_map (raw_bytes im skip_special) ids)).
  { induction ids as [|id ids IH]; intros pending; cbn [stream_run flat_map]; [by rewrite app_nil_r|].
    destruct (push_appends im skip_special pending id Hb) as (h & _ & Hp). rewrite app_assoc, Hp.
    destruct (stream_push _ _ _ _) as [out pending']. cbn [fst snd]. by rewrite IH. }
  apply Hgo.
Qed.

(** ** A sound tokenizer *)

(** [id] is the vocabulary's token for the bytes [bs]. *)
Definition byte_text (bs : text) : text := flat_map (fun b => utf8_append (char_of_byte (byte_of b))) bs.
Definition plain (im : Impl) (id : Z) (bs : text) : Prop := bs <> [] /\ vocab im !! text_str (byte_text bs) = Some id.

Record tok_sound (im : Impl) : Prop := {
  ts_plain : forall id bs, plain im id bs -> raw_bytes im false id = bs;
  ts_byte : forall b, plain im (byte_token (byte_id im) b) [b];
  ts_merge : forall a b r n bs1 bs2, plain im a bs1 -> plain im b bs2 -> merges im !! pair_of a b = Some (r, n) ->
    plain im n (bs1 ++ bs2);
  ts_raw : trie_ok (raw_trie im);
  ts_norm : trie_ok (norm_trie im);
  ts_added : forall s id, trie_get (raw_trie im) s = Some id \/ trie_get (norm_trie im) s = Some id ->
    s <> [] /\ lossy s = s /\ raw_bytes im false id = s }.

Section Sound.
Context (im : Impl) (Hs : tok_sound im).

Abbreviation bytes_of := (flat_map (raw_bytes im false)).

(** The merges keep the bytes. *)
Lemma merge_all_bytes f cs : Forall (fun id => exists bs, plain im id bs) cs ->
  bytes_of (merge_all f (merges im) cs) = bytes_of cs.
Proof.
  revert cs. induction f as [|f IH]; intros cs Hc; cbn [merge_all]; [done|].
  destruct (best_pair (merges im) 0 cs) as [m|] eqn:E; [|done].
  destruct (best_rank _ _ _ _ E) as (i & a & b & Ha & Hb & Hm & Hi). cbn in Hi.
  destruct (Forall_lookup_1 _ _ _ _ Hc Ha) as [bs1 H1]. destruct (Forall_lookup_1 _ _ _ _ Hc Hb) as [bs2 H2].
  pose proof (ts_merge _ Hs _ _ _ _ _ _ H1 H2 Hm) as H12.
  rewrite IH; rewrite Hi; unfold merge_list.
  - assert (Hcs : take i cs ++ a :: b :: drop (i + 2) cs = cs).
    { transitivity (take i cs ++ a :: drop (S i) cs); [|by apply take_drop_middle]. do 2 f_equal.
      transitivity (b :: drop (S (S i)) cs); [do 2 f_equal; lia|]. symmetry. by apply drop_S. }
    rewrite <- Hcs at 3. rewrite !flat_map_app. cbn [flat_map].
    by rewrite (ts_plain _ Hs _ _ H12), (ts_plain _ Hs _ _ H1), (ts_plain _ Hs _ _ H2), <- app_assoc.
  - apply Forall_app. split; [by apply Forall_take|]. constructor; [by eexists|by apply Forall_drop].
Qed.

Lemma bpe_bytes word : Z.of_nat (length word) < 2 ^ 32 -> bytes_of (bpe (merges im) (byte_id im) word) = word.
Proof.
  intros Hn.
  destruct (bpe_reference (merges im) (fun id => exists bs, plain im id bs) (fun id => Z.of_nat (length (raw_bytes im false id)))
    (byte_id im) word) as [Hb _]; [| | |done|].
  - intros a b r n [bs1 H1] [bs2 H2] Hm. pose proof (ts_merge _ Hs _ _ _ _ _ _ H1 H2 Hm) as H12. split; [by eexists|].
    rewrite (ts_plain _ Hs _ _ H1), (ts_plain _ Hs _ _ H2), (ts_plain _ Hs _ _ H12), length_app. lia.
  - intros a [bs [Hne H]]. rewrite (ts_plain _ Hs a bs) by done. destruct bs; [done|]. cbn. lia.
  - apply Forall_map, Forall_true. intros b. exists [b]. apply (ts_byte _ Hs).
  - rewrite Hb, merge_all_bytes.
    + clear Hn Hb. induction word as [|b word IH]; [done|]. cbn. rewrite (ts_plain _ Hs _ [b]) by apply (ts_byte _ Hs). cbn. by rewrite IH.
    + apply Forall_map, Forall_true. intros b. exists [b]. apply (ts_byte _ Hs).
Qed.

Lemma bytes_flat_map {A} (f : A -> list Z) xs : bytes_of (flat_map f xs) = flat_map (fun x => bytes_of (f x)) xs.
Proof. induction xs as [|x xs IH]; [done|]. cbn. by rewrite flat_map_app, IH. Qed.

Lemma subspan_split {A} (l : list A) a e b : (a <= e <= b)%nat ->
  subspan l a (b - a) = subspan l a (e - a) ++ subspan l e (b - e).
Proof.
  intros H. unfold subspan. replace (b - a)%nat with ((e - a) + (b - e))%nat by lia.
  rewrite <- take_take_drop, drop_drop. do 3 f_equal. lia.
Qed.

Lemma encode_points_app a b : encode_points (a ++ b) = encode_points a ++ encode_points b.
Proof. apply flat_map_app. Qed.

Lemma tiles_encode l a ps b : tiles a ps b ->
  flat_map (fun p => encode_points (subspan l (pc_b p) (pc_e p - pc_b p))) ps = encode_points (subspan l a (b - a)).
Proof.
  revert a. induction ps as [|p ps IH]; intros a; cbn; [intros <-; by rewrite Nat.sub_diag|].
  intros (<- & H1 & H2). pose proof (segs_le _ _ _ H2).
  rewrite (subspan_split l _ (pc_e p) b) by lia. rewrite encode_points_app. f_equal. by apply IH.
Qed.

Lemma lossy_length s : (length (lossy s) <= 3 * length s)%nat.
Proof.
  induction s as [|s r cp len Hne E IH] using next_ind; [done|]. destruct (next_len s r cp len Hne E) as [Hl _].
  unfold lossy in *. rewrite (lossy_step s false r cp len Hne E). rewrite length_drop in IH.
  destruct r; rewrite ?andb_false_r; cbn [fst]; rewrite length_app, ?length_take; unfold kReplacement; cbn [length]; lia.
Qed.

Lemma encode_text_bytes s : 3 * Z.of_nat (length s) < 2 ^ 32 -> bytes_of (encode_text im s) = lossy s.
Proof.
  intros Hn. destruct (lossy_points s) as [-> _]. unfold encode_text. rewrite bytes_flat_map.
  assert (Hword : forall b e, (b <= e <= length (code_points s))%nat ->
    Z.of_nat (length (encode_points (subspan (code_points s) b (e - b)))) < 2 ^ 32).
  { intros b e Hbe. pose proof (lossy_length s) as Hl. destruct (lossy_points s) as [He _]. rewrite He in Hl.
    assert (Hall : subspan (code_points s) 0 (length (code_points s) - 0) = code_points s)
      by (unfold subspan; rewrite drop_0; apply take_ge; lia).
    rewrite <- Hall, (subspan_split _ 0 b), (subspan_split _ b e) in Hl by lia.
    rewrite !encode_points_app, !length_app in Hl. lia. }
  pose proof (pieces_tile (code_points s)) as Ht.
  assert (Hgo : forall a ps b, (b <= length (code_points s))%nat -> tiles a ps b ->
    flat_map (fun p => bytes_of (bpe (merges im) (byte_id im) (encode_points (subspan (code_points s) (pc_b p) (pc_e p - pc_b p))))) ps =
    flat_map (fun p => encode_points (subspan (code_points s) (pc_b p) (pc_e p - pc_b p))) ps).
  { intros a ps b Hb. revert a. induction ps as [|p ps IH]; intros a; cbn; [done|]. intros (<- & H1 & H2).
    pose proof (segs_le _ _ _ H2). rewrite bpe_bytes by (apply Hword; lia). f_equal. by apply (IH (pc_e p)). }
  rewrite (Hgo 0%nat _ _ (le_n _) Ht), (tiles_encode _ _ _ _ Ht). unfold subspan. rewrite drop_0, take_ge by lia. done.
Qed.

(** ** Segments *)

(** A position where the text ends or a character starts. *)
Definition boundary (s : text) (e : nat) : Prop := e = length s \/ exists c, s !! e = Some c /\ starts_char c.
Definition seg_right (s : text) (g : Segment) : Prop :=
  (seg_id g = -1 /\ boundary s (seg_end g)) \/
  (0 <= seg_id g < 2 ^ 31 /\ lossy (subspan s (seg_begin g) (seg_end g - seg_begin g)) = subspan s (seg_begin g) (seg_end g - seg_begin g) /\
   raw_bytes im false (seg_id g) = subspan s (seg_begin g) (seg_end g - seg_begin g)).

Definition added_ok (t : Trie) : Prop := trie_ok t /\
  forall s id, trie_get t s = Some id -> s <> [] /\ lossy s = s /\ raw_bytes im false id = s.

Lemma subspan_take {A} (l : list A) e a n : (a + n <= e)%nat -> subspan (take e l) a n = subspan l a n.
Proof. intros H. unfold subspan. rewrite skipn_firstn_comm, take_take. f_equal. lia. Qed.

(** A token begins and ends where characters do. *)
Lemma token_starts t sub i : added_ok t -> (longest_at t sub i).1 <> 0%nat -> exists c, sub !! i = Some c /\ starts_char c.
Proof.
  intros [Ht Hv] Hi. destruct (longest_at_spec t sub i Ht) as (Hn & [?|Hg] & _); [done|].
  destruct (Hv _ _ Hg) as (Hne & Hl & _). destruct (valid_starts _ Hne Hl) as (c & u & Hc & Hst).
  exists c. split; [|done]. rewrite <- (Nat.add_0_r i), <- lookup_drop.
  rewrite <- (lookup_take_lt _ (longest_at t sub i).1) by lia. by rewrite Hc.
Qed.

Lemma cut_seg_right t s stop g : added_ok t -> (stop <= length s)%nat -> boundary s stop ->
  (seg_begin g < seg_end g <= stop)%nat -> cut_right t (take stop s) g -> seg_right s g.
Proof.
  intros Ha Hst Hb Hg [(H1 & H2 & H3)|(H1 & H2 & H3)].
  - right. destruct (proj2 Ha _ _ H3) as (_ & Hl & Hr). rewrite subspan_take in * by lia.
    pose proof (trie_get_range _ _ _ (proj1 Ha) H3). split_and!; [lia|lia|done|done].
  - left. split; [done|]. rewrite length_take, Nat.min_l in H3 by done. destruct H3 as [->|H3]; [done|].
    destruct (token_starts _ _ _ Ha H3) as (c & Hc & Hsc). right. exists c. split; [|done].
    apply lookup_take_Some in Hc as [? _]. done.
Qed.

Lemma seg_tiles_in a gs b g : seg_tiles a gs b -> g ∈ gs -> (a <= seg_begin g < seg_end g)%nat /\ (seg_end g <= b)%nat.
Proof.
  revert a. induction gs as [|h gs IH]; intros a Ht Hg; [by apply elem_of_nil in Hg|]. destruct Ht as (<- & H1 & H2).
  pose proof (seg_tiles_le _ _ _ H2). apply elem_of_cons in Hg as [->|Hg]; [lia|]. destruct (IH _ H2 Hg). lia.
Qed.

Lemma split_on_right t s a gs b : added_ok t -> (b <= length s)%nat -> seg_tiles a gs b -> Forall (seg_right s) gs ->
  seg_tiles a (split_on t s gs) b /\ Forall (seg_right s) (split_on t s gs).
Proof.
  intros Ha Hb. unfold split_on. destruct (trie_empty t); [done|]. revert a. induction gs as [|g gs IH]; intros a; cbn; [done|].
  intros (<- & H1 & H2) [Hg Hgs]%Forall_cons. pose proof (seg_tiles_le _ _ _ H2). destruct (IH _ H2 Hgs) as [IH1 IH2].
  destruct (0 <=? seg_id g) eqn:E.
  { split; [split_and!; done|by constructor]. }
  destruct Hg as [[Hid Hbo]|[? _]]; [|lia].
  destruct (split_seg_spec t (take (seg_end g) s) (seg_end g) (seg_end g - seg_begin g) (seg_begin g) (seg_begin g)) as [S1 S2];
    [by apply Ha|lia|lia|rewrite length_take; lia|lia|].
  split; [by eapply seg_tiles_app|]. apply Forall_app. split; [|done]. rewrite Forall_forall in S2 |- *. intros h Hh.
  destruct (seg_tiles_in _ _ _ _ S1 Hh). apply (cut_seg_right t s (seg_end g)); [done|lia|done|lia|by apply S2].
Qed.

Definition seg_ids (s : text) (g : Segment) : list Z :=
  if 0 <=? seg_id g then [u32 (seg_id g)] else encode_text im (subspan s (seg_begin g) (seg_end g - seg_begin g)).

Lemma seg_bytes s a gs : 3 * Z.of_nat (length s) < 2 ^ 32 -> seg_tiles a gs (length s) -> Forall (seg_right s) gs ->
  bytes_of (flat_map (seg_ids s) gs) = lossy (drop a s).
Proof.
  intros Hn. revert a. induction gs as [|g gs IH]; intros a; cbn; [intros -> _; by rewrite drop_all|].
  intros (<- & H1 & H2) [Hg Hgs]%Forall_cons. pose proof (seg_tiles_le _ _ _ H2).
  rewrite flat_map_app, (IH _ H2 Hgs).
  assert (Hd : drop (seg_begin g) s = subspan s (seg_begin g) (seg_end g - seg_begin g) ++ drop (seg_end g) s).
  { unfold subspan. rewrite <- (take_drop (seg_end g - seg_begin g) (drop (seg_begin g) s)) at 1. rewrite drop_drop. do 2 f_equal. lia. }
  rewrite Hd. unfold seg_ids. destruct Hg as [[-> Hb]|(Hid & Hl & Hr)].
  - cbn [Z.leb Z.compare]. change (0 <=? -1) with false. cbn iota. rewrite encode_text_bytes.
    2: { unfold subspan. rewrite length_take, length_drop. lia. }
    destruct Hb as [Hb|(c & Hc & Hst)].
    + rewrite Hb, drop_all, app_nil_r. by rewrite app_nil_r.
    + rewrite (drop_S s c _ Hc). by rewrite lossy_cut.
  - rewrite (proj2 (Z.leb_le _ _)) by lia. cbn. rewrite u32_small by lia. rewrite app_nil_r, Hr. by rewrite lossy_valid_app.
Qed.

Lemma encode_bytes s : 3 * Z.of_nat (length s) < 2 ^ 32 -> bytes_of (encode (Some im) s) = lossy s.
Proof.
  intros Hn. assert (Hraw : added_ok (raw_trie im)).
  { split; [apply (ts_raw _ Hs)|]. intros p id Hp. apply (ts_added _ Hs). by left. }
  assert (Hnorm : added_ok (norm_trie im)).
  { split; [apply (ts_norm _ Hs)|]. intros p id Hp. apply (ts_added _ Hs). by right. }
  destruct (decide (s = [])) as [->|Hne].
  { unfold encode, segments, split_on. destruct (trie_empty _), (trie_empty _); done. }
  assert (H0 : seg_tiles 0 [Seg 0 (length s) (-1)] (length s) /\ Forall (seg_right s) [Seg 0 (length s) (-1)]).
  { split; [cbn; split_and!; [done|destruct s; cbn; [done|lia]|done]|]. constructor; [|done]. left. split; [done|by left]. }
  destruct H0 as [T0 R0]. destruct (split_on_right _ s _ _ _ Hraw (le_n _) T0 R0) as [T1 R1].
  destruct (split_on_right _ s _ _ _ Hnorm (le_n _) T1 R1) as [T2 R2].
  exact (seg_bytes s 0 _ Hn T2 R2).
Qed.
End Sound.
