(* ===== verification/TokenizerLoad.v ===== *)
(** A tokenizer read from a sane file is sound: what it encodes, it decodes. *)

From Stdlib Require Import Ascii ZifyBool.
From S2P Require Import Prelude Json JsonProps Unicode Utf8 Tokenizer BpeProps TokenizerTrie TokenizerProps.

(** ** The byte-level alphabet *)

Lemma bytes_all (Q : Z -> bool) : forallb Q (seqZ 0 256) = true -> forall b, 0 <= b < 256 -> Q b = true.
Proof. rewrite forallb_forall. intros H b Hb. apply H, list_elem_of_In, elem_of_seqZ. lia. Qed.

Lemma byte_char b : 0 <= b < 256 -> byte_of_char (char_of_byte b) = b /\ 0 <= char_of_byte b < 512.
Proof.
  intros Hb. pose proof (bytes_all (fun b => (byte_of_char (char_of_byte b) =? b) && (0 <=? char_of_byte b) && (char_of_byte b <? 512))
    ltac:(by vm_compute) b Hb). lia.
Qed.

Lemma byte_text_app a b : byte_text (a ++ b) = byte_text a ++ byte_text b.
Proof. apply flat_map_app. Qed.

Lemma token_bytes_text bs : forall f out, (length (byte_text bs) <= f)%nat ->
  token_bytes_loop f (byte_text bs) out = Some (out ++ bs).
Proof.
  induction bs as [|b bs IH]; intros f out Hf; [destruct f; cbn; by rewrite app_nil_r|].
  pose proof (byte_of_range b) as Hb. destruct (byte_char _ Hb) as [Hback Hr].
  assert (Hsc : scalar (char_of_byte (byte_of b))) by (split; lia).
  pose proof (next_append _ (byte_text bs) Hsc) as Hn. pose proof (append_nonempty (char_of_byte (byte_of b))) as Hne.
  cbn [byte_text flat_map] in *. fold (byte_text bs) in *. rewrite length_app in Hf.
  destruct (utf8_append (char_of_byte (byte_of b)) ++ byte_text bs) as [|c s] eqn:E.
  { by apply app_eq_nil in E as [? _]. }
  destruct f as [|f]; [destruct (utf8_append _); [done|cbn in Hf; lia]|]. cbn [token_bytes_loop].
  rewrite Hn, <- E, drop_app_length. rewrite bool_decide_eq_true_2 by done. cbn [negb orb].
  rewrite (proj2 (Z.leb_gt _ _)), (proj2 (Z.ltb_ge _ _)) by lia. cbn [orb].
  rewrite IH; [|destruct (utf8_append _); [done|cbn in Hf; lia]]. by rewrite Hback, byte_byte_of, <- app_assoc.
Qed.
Lemma bytes_of_byte_text bs : bytes_of_token_string (byte_text bs) = bs.
Proof. unfold bytes_of_token_string. by rewrite token_bytes_text. Qed.
Lemma byte_text_inj a b : byte_text a = byte_text b -> a = b.
Proof. intros H. by rewrite <- (bytes_of_byte_text a), H, bytes_of_byte_text. Qed.

Lemma text_of_text t : to_text (of_text t) = t.
Proof. apply String.list_ascii_of_string_of_list_ascii. Qed.
Lemma to_text_app a b : to_text (a +:+ b) = to_text a ++ to_text b.
Proof. induction a as [|c a IH]; [done|]. change (c :: to_text (a +:+ b) = c :: to_text a ++ to_text b). by rewrite IH. Qed.

(** ** Filling the tables *)

Lemma put_Ret {A} i (x : A) l l' : put i x l = Ret l' -> (Z.to_nat i < length l)%nat /\ l' = <[Z.to_nat i := x]> l.
Proof. unfold put. destruct (_ <? _)%nat eqn:E; [intros [= <-]; split; [lia|done]|done]. Qed.

(** Some key written to this index is what the index holds. *)
Definition filled (l : list (string * Z)) (s : list text) (fl : list Z) : Prop :=
  forall k id, (k, id) ∈ l -> (exists k' id', (k', id') ∈ l /\ Z.to_nat id' = Z.to_nat id /\ s !! Z.to_nat id = Some (to_text k')) /\
    exists f, fl !! Z.to_nat id = Some f /\ Z.testbit f 0 = true.

Lemma or_flags_lookup i bits fl j : or_flags i bits fl !! j = if (j =? Z.to_nat i)%nat then Z.lor bits <$> fl !! j else fl !! j.
Proof.
  unfold or_flags. destruct (j =? Z.to_nat i)%nat eqn:E.
  - assert (j = Z.to_nat i) as -> by lia. by rewrite list_lookup_alter_eq.
  - by rewrite list_lookup_alter_ne by lia.
Qed.
Lemma testbit_or b f i : Z.testbit f i = true -> Z.testbit (Z.lor b f) i = true.
Proof. intros H. by rewrite Z.lor_spec, H, orb_true_r. Qed.

Lemma add_vocab_filled l s0 fl0 s fl : foldM add_vocab (s0, fl0) l = Ret (s, fl) -> length fl0 = length s0 ->
  filled l s fl /\ length s = length s0 /\ length fl = length fl0.
Proof.
  intros H Hlen.
  apply (foldM_done _ (fun done st => filled done st.1 st.2 /\ length st.1 = length s0 /\ length st.2 = length fl0)) in H; [exact H| |].
  - intros done [k id] [s1 fl1] st' _ (Hf & H1 & H2) (s2 & [Hlt ->]%put_Ret & [= <-])%bind_Ret. cbn [fst snd] in *.
    split; [|split; [by rewrite length_insert|unfold or_flags; by rewrite length_alter]].
    intros k' id' [Hin|Hin%list_elem_of_singleton]%elem_of_app.
    + destruct (Hf _ _ Hin) as [(k2 & id2 & H3 & H4 & H5) (f & H6 & H7)]. split.
      * destruct (decide (Z.to_nat id' = Z.to_nat id)) as [He|He].
        -- exists k, id. split_and!; [apply elem_of_app; right; by left|done|]. rewrite He. by apply list_lookup_insert_eq.
        -- exists k2, id2. split_and!; [apply elem_of_app; by left|done|]. by rewrite list_lookup_insert_ne.
      * rewrite or_flags_lookup, H6. case_match; cbn [fmap option_fmap option_map]; eexists; (split; [done|]); [by apply testbit_or|done].
    + injection Hin as -> ->. split.
      * exists k, id. split_and!; [apply elem_of_app; right; by left|done|by apply list_lookup_insert_eq].
      * rewrite or_flags_lookup, Nat.eqb_refl. destruct (lookup_lt_is_Some_2 fl1 (Z.to_nat id) ltac:(lia)) as [f Hf1].
        rewrite Hf1. cbn [fmap option_fmap option_map]. eexists. split; [done|]. by rewrite Z.lor_spec.
  - split; [|done]. intros k id Hin. by apply elem_of_nil in Hin.
Qed.

Definition content_of (a : JsonValue) : text := to_text (string_or a "content" "").
Definition marked (fl : list Z) (j : nat) : Prop := exists f, fl !! j = Some f /\ Z.testbit f 0 = true.

Lemma marked_or fl j i bits : marked fl j -> marked (or_flags i bits fl) j.
Proof.
  intros (f & Hf & Hb). unfold marked. rewrite or_flags_lookup, Hf. case_match; cbn [fmap option_fmap option_map]; eexists;
    (split; [done|]); [by apply testbit_or|done].
Qed.

(** What [add_added] has made of the tables: an index holds what it held, or the content of an
    added token; the tries hold added tokens. *)
Record added_filled (s0 : list text) (fl0 : list Z) (seen : list JsonValue) (st : AddedState) : Prop := {
  af_length : length (a_str st) = length s0 /\ length (a_flags st) = length fl0;
  af_str : forall j t, a_str st !! j = Some t ->
    (s0 !! j = Some t /\ forall a, a ∈ seen -> Z.to_nat (added_id a) <> j) \/
    exists a, a ∈ seen /\ Z.to_nat (added_id a) = j /\ t = content_of a;
  af_old : forall j, marked fl0 j -> marked (a_flags st) j;
  af_new : forall a, a ∈ seen -> (Z.to_nat (added_id a) < length s0)%nat /\ marked (a_flags st) (Z.to_nat (added_id a));
  af_tries : trie_ok (a_raw st) /\ trie_ok (a_norm st);
  af_get : forall p x, trie_get (a_raw st) p = Some x \/ trie_get (a_norm st) p = Some x ->
    exists a, a ∈ seen /\ p = content_of a /\ p <> [] /\ x = i32 (added_id a) }.

Lemma to_text_nil s : to_text s = [] -> s = ""%string.
Proof. by destruct s. Qed.

Lemma add_added_filled s0 fl0 arr st : length fl0 = length s0 ->
  foldM add_added {| a_str := s0; a_flags := fl0; a_added := ∅; a_raw := Trie_new; a_norm := Trie_new |} arr = Ret st ->
  added_filled s0 fl0 arr st.
Proof.
  intros Hlen H. apply (foldM_done _ (added_filled s0 fl0)) in H; [done| |].
  - intros seen a st1 st2 _ [[L1 L2] Hstr Hold Hnew [Tr Tn] Hget] Hadd. unfold add_added in Hadd.
    apply bind_Ret in Hadd as ([] & Hne%fail_if_Ret & Hadd). apply bind_Ret in Hadd as ([] & _ & Hadd).
    apply bind_Ret in Hadd as (s & [Hlt ->]%put_Ret & [= <-]). apply bool_decide_eq_false_1 in Hne.
    assert (Hins : forall t, trie_ok t -> trie_ok (trie_insert t (content_of a) (added_id a)) /\
      forall p x, trie_get (trie_insert t (content_of a) (added_id a)) p = Some x ->
        trie_get t p = Some x \/ (p = content_of a /\ x = i32 (added_id a))).
    { intros t Ht. destruct (trie_insert_spec t (content_of a) (added_id a) Ht) as [H1 H2]. split; [done|].
      intros p x. rewrite H2. destruct (decide (p = content_of a)) as [->|]; [|auto]. destruct (0 <=? _); [intros [= <-]; auto|done]. }
    assert (Hin : forall a', a' ∈ seen -> a' ∈ seen ++ [a]) by (intros; apply elem_of_app; auto).
    assert (Hlast : a ∈ seen ++ [a]) by (apply elem_of_app; right; by left).
    assert (Hcn : content_of a <> []) by (intros Hc%to_text_nil; done).
    split; cbn [a_str a_flags a_raw a_norm].
    + split; [by rewrite length_insert|unfold or_flags; by rewrite length_alter].
    + intros j t Hj. apply list_lookup_insert_Some in Hj as [(<- & <- & _)|[Hne' Hj]]; [right; by exists a|].
      destruct (Hstr j t Hj) as [[H1 H2]|(a' & H1 & H2 & H3)]; [left|right; exists a'; auto].
      split; [done|]. intros a' [Ha'|Ha'%list_elem_of_singleton]%elem_of_app; [auto|by subst a'].
    + intros j Hj. by apply marked_or, Hold.
    + intros a' [Ha'|Ha'%list_elem_of_singleton]%elem_of_app.
      * destruct (Hnew a' Ha'). split; [done|by apply marked_or].
      * subst a'. split; [lia|]. unfold marked. rewrite or_flags_lookup, Nat.eqb_refl.
        destruct (lookup_lt_is_Some_2 (a_flags st1) (Z.to_nat (added_id a)) ltac:(lia)) as [f Hf]. rewrite Hf.
        cbn [fmap option_fmap option_map]. eexists. split; [done|]. rewrite !Z.lor_spec. done.
    + destruct (bool_or a "normalized" false); split; try done; by apply Hins.
    + intros p x Hp.
      assert (Hback : (trie_get (a_raw st1) p = Some x \/ trie_get (a_norm st1) p = Some x) \/ (p = content_of a /\ x = i32 (added_id a))).
      { fold (content_of a) in Hp. destruct (bool_or a "normalized" false); destruct Hp as [Hp|Hp]; auto;
          [destruct (proj2 (Hins _ Tn) p x Hp)|destruct (proj2 (Hins _ Tr) p x Hp)]; auto. }
      destruct Hback as [Hb|[-> ->]]; [|by exists a].
      destruct (Hget p x Hb) as (a' & H1 & H2). exists a'. auto.
  - split; cbn [a_str a_flags a_raw a_norm].
    + done.
    + intros j t Hj. left. split; [done|]. intros a Ha. by apply elem_of_nil in Ha.
    + done.
    + intros a Ha. by apply elem_of_nil in Ha.
    + split; apply Trie_new_ok.
    + intros p x Hp. assert (Hnone : trie_get Trie_new p = None); [|rewrite Hnone in Hp; by destruct Hp].
      destruct p as [|b p]; [done|]. unfold trie_get. cbn. by rewrite lookup_empty.
Qed.

(** ** The merges and the byte tokens *)

Lemma add_merge_spec vocab marr ms rank : foldM (add_merge vocab) (∅, 0) marr = Ret (ms, rank) ->
  forall key r n, ms !! key = Some (r, n) -> exists a b ia ib,
    vocab !! a = Some ia /\ vocab !! b = Some ib /\ vocab !! (a +:+ b) = Some n /\ key = pair_of ia ib.
Proof.
  intros H. refine (foldM_inv _ (fun st => forall key r n, st.1 !! key = Some (r, n) -> exists a b ia ib,
    vocab !! a = Some ia /\ vocab !! b = Some ib /\ vocab !! (a +:+ b) = Some n /\ key = pair_of ia ib) _ _ _ _ _ H); [|done].
  intros [ms1 rk] m st2 Hi Hadd key r n Hk. unfold add_merge in Hadd.
  apply bind_Ret in Hadd as ([a b] & _ & Hadd).
  destruct (vocab !! a) as [ia|] eqn:Ea; [|done]. destruct (vocab !! b) as [ib|] eqn:Eb; [|done].
  destruct (vocab !! (a +:+ b)) as [n'|] eqn:En; [|done]. injection Hadd as <-. cbn [fst] in Hk.
  unfold emplace in Hk. destruct (ms1 !! pair_of ia ib) eqn:Em; [by apply (Hi key r n)|].
  apply lookup_insert_Some in Hk as [[<- [= <- <-]]|[_ Hk]]; [|by apply (Hi key r n)]. by exists a, b, ia, ib.
Qed.

Lemma mapM_res_lookup {A B} (f : A -> Result B) l ys i x : mapM_res f l = Ret ys -> l !! i = Some x ->
  exists y, ys !! i = Some y /\ f x = Ret y.
Proof.
  revert ys i. induction l as [|a l IH]; intros ys i; cbn; [done|].
  intros (y & Hy & (zs & Hzs & [= <-])%bind_Ret)%bind_Ret. destruct i as [|i]; cbn; [intros [= ->]; by exists y|]. by apply IH.
Qed.

Lemma read_byte_ids_spec vocab ids b : read_byte_ids vocab = Ret ids ->
  vocab !! text_str (byte_text [b]) = Some (byte_token ids b).
Proof.
  intros H. pose proof (byte_of_range b) as Hb.
  assert (Hl : seqZ 0 256 !! Z.to_nat (byte_of b) = Some (byte_of b)) by (apply lookup_seqZ; lia).
  destruct (mapM_res_lookup _ _ _ _ _ H Hl) as (id & Hid & Hv). cbn in Hv. unfold byte_text. cbn [flat_map]. rewrite app_nil_r.
  destruct (vocab !! _) as [id'|] eqn:E; [|done]. injection Hv as ->. f_equal. symmetry. by apply nth_lookup_Some.
Qed.

Lemma read_vocab_range model v mx : read_vocab model = Ret (v, mx) -> forall k id, v !! k = Some id -> 0 <= id < 2 ^ 32.
Proof.
  unfold read_vocab. intros (j & _ & H)%bind_Ret. apply bind_Ret in H as (o & _ & H).
  refine (foldM_inv _ (fun st => forall k id, st.1 !! k = Some id -> 0 <= id < 2 ^ 32) _ _ _ _ _ H); [|done].
  intros [m1 x1] [k1 v1] [m2 x2] Hi (id & _ & [= <- <-])%bind_Ret k id' Hk. cbn [fst] in *. unfold emplace in Hk.
  destruct (m1 !! k1); [by eapply Hi|]. apply lookup_insert_Some in Hk as [[_ <-]|[_ Hk]]; [apply u32_range|by eapply Hi].
Qed.

(** ** What [load] answers *)

Definition added_tokens (doc : JsonValue) : list JsonValue :=
  match (v ← at_key doc "added_tokens"; as_array v) with Ret a => a | Fail _ => [] end.
Definition decoded (s : text) (f : Z) : text := if Z.land f 1 =? 0 then [] else bytes_of_token_string s.

Record loaded (it : gmap string Z -> list (string * Z)) (doc : JsonValue) (im : Impl) : Prop := {
  ld_vocab : forall k id, vocab im !! k = Some id -> 0 <= id < 2 ^ 32;
  ld_size : 0 <= vocab_size im;
  ld_tables : exists s fl st, let n := Z.to_nat (vocab_size im) in
    length s = n /\ length fl = n /\ filled (it (vocab im)) s fl /\ added_filled s fl (added_tokens doc) st /\
    str im = a_str st /\ flags im = a_flags st /\ bytes im = zip_with decoded (a_str st) (a_flags st) /\
    raw_trie im = a_raw st /\ norm_trie im = a_norm st;
  ld_byte : forall b, vocab im !! text_str (byte_text [b]) = Some (byte_token (byte_id im) b);
  ld_merge : forall key r n, merges im !! key = Some (r, n) -> exists a b ia ib, vocab im !! a = Some ia /\
    vocab im !! b = Some ib /\ vocab im !! (a +:+ b) = Some n /\ key = pair_of ia ib }.

Lemma load_loaded it doc im : load it (Ret doc) = Ret im -> loaded it doc im.
Proof.
  unfold load. intros (doc' & [= <-] & H)%bind_Ret. apply bind_Ret in H as (model & _ & H).
  apply bind_Ret in H as ([] & _ & H). apply bind_Ret in H as ([v mx] & Hv & H).
  apply bind_Ret in H as (arr & Harr & H). set (size := u32 _) in H.
  apply bind_Ret in H as ([s fl] & Hs & H). apply bind_Ret in H as (st & Hst & H).
  apply bind_Ret in H as (ids & Hids & H). apply bind_Ret in H as (marr & _ & H).
  apply bind_Ret in H as ([ms rank] & Hms & [= <-]).
  assert (Ha : added_tokens doc = arr) by (unfold added_tokens; by rewrite Harr).
  destruct (add_vocab_filled _ _ _ _ _ Hs) as (Hf & L1 & L2); [by rewrite !length_replicate|]. rewrite length_replicate in L1. rewrite length_replicate in L2.
  split; cbn [vocab vocab_size byte_id merges].
  - by apply (read_vocab_range model v mx).
  - apply u32_range.
  - exists s, fl, st. rewrite Ha. split_and!; try done. apply add_added_filled; [by rewrite L1, L2|done].
  - intros b. by apply read_byte_ids_spec.
  - intros key r n Hk. by apply (add_merge_spec v marr ms rank Hms key r n).
Qed.

(** What a tokenizer file has to say for its tokens to mean their bytes: every vocabulary id is
    of one token; an added token is valid text that the byte-level rule leaves as it is, its id
    is its own, or that of the vocabulary's token of the same text. *)
Record sane_file (it : gmap string Z -> list (string * Z)) (doc : JsonValue) (im : Impl) : Prop := {
  sn_order : forall m : gmap string Z, it m ≡ₚ map_to_list m;
  sn_vocab : forall k k' id, vocab im !! k = Some id -> vocab im !! k' = Some id -> k = k';
  sn_text : forall a, a ∈ added_tokens doc -> lossy (content_of a) = content_of a /\
    bytes_of_token_string (content_of a) = content_of a /\ added_id a < 2 ^ 31;
  sn_shared : forall a k, a ∈ added_tokens doc -> vocab im !! k = Some (added_id a) -> to_text k = content_of a;
  sn_ids : forall a b, a ∈ added_tokens doc -> b ∈ added_tokens doc -> added_id a = added_id b -> content_of a = content_of b }.

Section Loaded.
Context (it : gmap string Z -> list (string * Z)) (doc : JsonValue) (im : Impl).
Hypothesis Hl : loaded it doc im.
Hypothesis Hs : sane_file it doc im.

Lemma added_id_range a : 0 <= added_id a < 2 ^ 32.
Proof. apply u32_range. Qed.

(** A table entry that is marked decodes to its string's bytes. *)
Lemma raw_bytes_of id t : 0 <= id < vocab_size im -> marked (flags im) (Z.to_nat id) -> str im !! Z.to_nat id = Some t ->
  raw_bytes im false id = bytes_of_token_string t.
Proof.
  intros Hid (f & Hf & Hb) Ht. destruct (ld_tables _ _ _ Hl) as (s & fl & st & _ & _ & _ & _ & Es & Ef & Eb & _).
  rewrite Es in Ht. rewrite Ef in Hf. assert (Hodd : (Z.land f 1 =? 0) = false).
  { apply Z.eqb_neq. intros H0. assert (Hx : Z.testbit (Z.land f 1) 0 = false) by (by rewrite H0).
    by rewrite Z.land_spec, Hb in Hx. }
  unfold raw_bytes, flag. rewrite (proj2 (Z.leb_gt _ _)) by lia. rewrite Ef, (nth_lookup_Some _ _ _ _ Hf), Hodd. cbn [negb orb andb].
  apply nth_lookup_Some. rewrite Eb, lookup_zip_with, Ht, Hf. cbn. unfold decoded. by rewrite Hodd.
Qed.

Lemma vocab_bytes k id : vocab im !! k = Some id -> raw_bytes im false id = bytes_of_token_string (to_text k).
Proof.
  intros Hk. destruct (ld_tables _ _ _ Hl) as (s & fl & st & L1 & L2 & Hf & Ha & Es & Ef & _).
  pose proof (ld_vocab _ _ _ Hl k id Hk) as Hr.
  assert (Hin : forall k id, (k, id) ∈ it (vocab im) <-> vocab im !! k = Some id)
    by (intros; rewrite (sn_order _ _ _ Hs); apply elem_of_map_to_list).
  destruct (Hf k id ltac:(by apply Hin)) as [(k' & id' & Hk' & Hid' & Hstr) Hm].
  apply Hin in Hk'. pose proof (ld_vocab _ _ _ Hl k' id' Hk'). assert (id' = id) as -> by lia.
  rewrite (sn_vocab _ _ _ Hs k' k id Hk' Hk) in Hstr.
  assert (Hlt : (Z.to_nat id < length s)%nat) by (by eapply lookup_lt_Some).
  apply raw_bytes_of; [lia|rewrite Ef; by apply (af_old _ _ _ _ Ha)|]. rewrite Es.
  destruct (lookup_lt_is_Some_2 (a_str st) (Z.to_nat id)) as [t Ht]; [destruct (af_length _ _ _ _ Ha); lia|]. rewrite Ht. f_equal.
  destruct (af_str _ _ _ _ Ha _ _ Ht) as [[Ht' _]|(a & Hain & Hai & ->)]; [congruence|].
  pose proof (added_id_range a). assert (He : added_id a = id) by lia. symmetry. apply (sn_shared _ _ _ Hs a k Hain). by rewrite He.
Qed.

Lemma plain_vocab id bs : plain im id bs <-> bs <> [] /\ vocab im !! text_str (byte_text bs) = Some id.
Proof. done. Qed.

Lemma load_sound : tok_sound im.
Proof.
  destruct (ld_tables _ _ _ Hl) as (s & fl & st & L1 & L2 & _ & Ha & Es & Ef & Eb & Er & En).
  assert (Hplain : forall id bs, plain im id bs -> raw_bytes im false id = bs).
  { intros id bs [_ Hv]. rewrite (vocab_bytes _ _ Hv). unfold text_str. by rewrite text_of_text, bytes_of_byte_text. }
  split.
  - exact Hplain.
  - intros b. split; [done|]. apply (ld_byte _ _ _ Hl).
  - intros a b r n bs1 bs2 [Hn1 H1] [Hn2 H2] Hm. split; [by destruct bs1|].
    destruct (ld_merge _ _ _ Hl _ _ _ Hm) as (ka & kb & ia & ib & Ka & Kb & Kn & Hp).
    pose proof (ld_vocab _ _ _ Hl _ _ H1). pose proof (ld_vocab _ _ _ Hl _ _ H2).
    pose proof (ld_vocab _ _ _ Hl _ _ Ka). pose proof (ld_vocab _ _ _ Hl _ _ Kb).
    unfold pair_of in Hp. rewrite !lor_shiftl in Hp by lia. assert (ia = a /\ ib = b) as [-> ->] by lia.
    rewrite (sn_vocab _ _ _ Hs _ _ _ Ka H1), (sn_vocab _ _ _ Hs _ _ _ Kb H2) in Kn. rewrite <- Kn. f_equal.
    rewrite byte_text_app. unfold text_str. rewrite <- (to_of_text (of_text (byte_text bs1) +:+ _)), to_text_app, !text_of_text. done.
  - rewrite Er. by apply (af_tries _ _ _ _ Ha).
  - rewrite En. by apply (af_tries _ _ _ _ Ha).
  - intros p x Hp. rewrite Er, En in Hp. destruct (af_get _ _ _ _ Ha p x Hp) as (a & Hin & -> & Hne & ->).
    destruct (sn_text _ _ _ Hs a Hin) as (Hv & Hb & Hlt). split_and!; [done|done|].
    pose proof (added_id_range a). assert (Hi : i32 (added_id a) = added_id a).
    { unfold i32. rewrite u32_small by lia. by rewrite (proj2 (Z.ltb_lt _ _)). }
    rewrite Hi. destruct (af_new _ _ _ _ Ha a Hin) as [Hlen Hm]. transitivity (bytes_of_token_string (content_of a)); [|done].
    apply raw_bytes_of; [lia|by rewrite Ef|]. rewrite Es.
    destruct (lookup_lt_is_Some_2 (a_str st) (Z.to_nat (added_id a))) as [t Ht]; [destruct (af_length _ _ _ _ Ha); lia|].
    rewrite Ht. f_equal. destruct (af_str _ _ _ _ Ha _ _ Ht) as [[_ Hno]|(a' & Hin' & Hid & ->)]; [by destruct (Hno a Hin)|].
    pose proof (added_id_range a'). apply (sn_ids _ _ _ Hs a' a Hin' Hin). lia.
Qed.

Lemma load_blank : blank_unused im.
Proof.
  intros id Hf. destruct (ld_tables _ _ _ Hl) as (s & fl & st & _ & _ & _ & _ & _ & Ef & Eb & _).
  unfold flag in Hf. rewrite Ef in Hf. rewrite Eb, nth_lookup, lookup_zip_with. rewrite nth_lookup in Hf.
  destruct (a_str st !! Z.to_nat id); cbn; [|done]. destruct (a_flags st !! Z.to_nat id) as [f|]; cbn; [|done].
  cbn in Hf. unfold decoded. by destruct (Z.land f 1 =? 0).
Qed.
End Loaded.

(** C6: a tokenizer loaded from a sane file decodes what it encodes to the text as it was read:
    each maximal invalid sequence of bytes becomes U+FFFD, and valid text comes back as it was. *)
Theorem decode_encode it doc im s : load it (Ret doc) = Ret im -> sane_file it doc im -> 3 * Z.of_nat (length s) < 2 ^ 32 ->
  decode (Some im) (encode (Some im) s) false = lossy s /\
  (forall cps, Forall scalar cps -> s = encode_points cps -> decode (Some im) (encode (Some im) s) false = s).
Proof.
  intros Hld Hs Hn. pose proof (load_sound it doc im (load_loaded _ _ _ Hld) Hs) as Hsound.
  assert (Hd : decode (Some im) (encode (Some im) s) false = lossy s).
  { unfold decode. by rewrite (encode_bytes im Hsound s Hn), lossy_idem. }
  split; [done|]. intros cps Hc Hcps. rewrite Hd, Hcps. transitivity (lossy (encode_points cps ++ [])); [by rewrite app_nil_r|].
  rewrite lossy_encoded by done. apply app_nil_r.
Qed.

(** C8: whatever the ids, the pieces of text a [StreamDecoder] gives out, with its final flush,
    are together the text [decode] gives for the same ids. *)
Theorem stream_is_decode it doc im skip_special ids : load it (Ret doc) = Ret im ->
  stream_run (Some im) skip_special [] ids = decode (Some im) ids skip_special.
Proof. intros Hld. apply stream_decodes, (load_blank it doc), load_loaded, Hld. Qed.

(** ** A small tokenizer *)

Definition jnum (n : Z) : JsonValue := JNumber (Floats.f64_of_Z n) (u_to_string n).
Definition jobj (kvs : list (string * JsonValue)) : JsonValue := JObject (foldl (fun o kv => obj_insert kv.1 kv.2 o) [] kvs).
Definition jstr (s : string) : JsonValue := JString s.

Definition toy_vocab : list (string * JsonValue) :=
  map (fun b => (text_str (utf8_append (char_of_byte b)), jnum b)) (seqZ 0 256) ++ [("ab", jnum 256); ("aba", jnum 257)]%string.
Definition toy_split (rx : string) : JsonValue :=
  jobj [("type", jstr "Split"); ("behavior", jstr "Isolated"); ("invert", JBool false); ("pattern", jobj [("Regex", jstr rx)])]%string.
Definition toy_added (id : Z) (content : string) (special normalized : bool) : JsonValue :=
  jobj [("id", jnum id); ("content", jstr content); ("special", JBool special); ("normalized", JBool normalized)]%string.
Definition toy_added_tokens : list JsonValue := [toy_added 258 "<s>" true false; toy_added 259 "<think>" false true]%string.
Definition toy_doc : JsonValue :=
  jobj [("model", jobj [("type", jstr "BPE"); ("dropout", JNull); ("vocab", jobj toy_vocab);
                        ("merges", JArray [jstr "a b"; JArray [jstr "ab"; jstr "a"]])]);
        ("pre_tokenizer", jobj [("pretokenizers", JArray (map toy_split kWant ++
          [jobj [("type", jstr "ByteLevel"); ("use_regex", JBool false); ("add_prefix_space", JBool false)]]))]);
        ("added_tokens", JArray toy_added_tokens)]%string.

Example toy_loads : is_ok (load map_to_list (Ret toy_doc)) = true.
Proof. by vm_compute. Qed.

Definition no_impl : Impl :=
  {| vocab_size := 0; str := []; bytes := []; flags := []; vocab := ∅; added := ∅; merges := ∅; byte_id := [];
     raw_trie := Trie_new; norm_trie := Trie_new |}.
Definition toy_im : Impl := match load map_to_list (Ret toy_doc) with Ret im => im | Fail _ => no_impl end.

Lemma toy_loaded : load map_to_list (Ret toy_doc) = Ret toy_im.
Proof. pose proof toy_loads as H. unfold toy_im. by destruct (load _ _). Qed.

Lemma distinct_values (m : gmap string Z) : NoDup (map_to_list m).*2 ->
  forall k k' id, m !! k = Some id -> m !! k' = Some id -> k = k'.
Proof.
  intros Hn k k' id Hk%elem_of_map_to_list Hk'%elem_of_map_to_list.
  apply list_elem_of_lookup in Hk as [i Hi], Hk' as [j Hj].
  assert (i = j) as ->; [|congruence].
  apply (NoDup_lookup _ i j id Hn); by rewrite list_lookup_fmap, ?Hi, ?Hj.
Qed.

Lemma toy_sane : sane_file map_to_list toy_doc toy_im.
Proof.
  assert (Ha : added_tokens toy_doc = toy_added_tokens) by (by vm_compute).
  split.
  - done.
  - apply distinct_values. apply (bool_decide_eq_true_1 _). by vm_compute.
  - rewrite Ha. intros a Hin. repeat (apply elem_of_cons in Hin as [->|Hin]; [by vm_compute|]). destruct (not_elem_of_nil _ Hin).
  - rewrite Ha. intros a k Hin Hk.
    assert (Hno : ~ (exists k, vocab toy_im !! k = Some (added_id a))); [|by destruct Hno; exists k].
    clear k Hk. intros (k & Hk%elem_of_map_to_list). apply (list_elem_of_fmap_2 snd) in Hk. cbn in Hk.
    assert (Hout : bool_decide (added_id a ∈ (map_to_list (vocab toy_im)).*2) = false); [|by apply bool_decide_eq_false_1 in Hout].
    clear Hk. repeat (apply elem_of_cons in Hin as [->|Hin]; [by vm_compute|]). destruct (not_elem_of_nil _ Hin).
  - rewrite Ha. intros a b Hin Hin'.
    repeat (apply elem_of_cons in Hin as [->|Hin]; [repeat (apply elem_of_cons in Hin' as [->|Hin']; [by vm_compute|]); destruct (not_elem_of_nil _ Hin')|]).
    destruct (not_elem_of_nil _ Hin).
Qed.

Definition toy_text : text := to_text "<s>abab a123<think>" ++ [byte 0xC3; byte 0x28].
Lemma decode_encode_witness :
  decode (Some toy_im) (encode (Some toy_im) toy_text) false = lossy toy_text /\
  (forall cps, Forall scalar cps -> toy_text = encode_points cps -> decode (Some toy_im) (encode (Some toy_im) toy_text) false = toy_text).
Proof. apply (decode_encode map_to_list toy_doc toy_im toy_text toy_loaded toy_sane). done. Defined.

Lemma stream_is_decode_witness :
  stream_run (Some toy_im) false [] [258; 195; 169; 256; 9999] = decode (Some toy_im) [258; 195; 169; 256; 9999] false.
Proof. apply (stream_is_decode map_to_list toy_doc toy_im false _ toy_loaded). Defined.

(** A file whose model has no [dropout] key makes [load] dereference a null pointer. *)
Example missing_dropout : load map_to_list (Ret (jobj [("model", jobj [("type", jstr "BPE")])]%string)) = Fail Internal.
Proof. by vm_compute. Qed.
(** An added token with the id [2^32 - 1] makes the table sizes wrap to zero. *)
Example added_id_wraps : u32 (Z.max 0 (added_id (toy_added (2 ^ 32 - 1) "x" false false)) + 1) = 0.
Proof. by vm_compute. Qed.
