(* ===== verification/EngramNorm.v ===== *)
(** The normaliser's tables ([src/runtime/engram_norm.inc], generated off HF tokenizers'
    NFKC, NFD, StripAccents, Lowercase, one code point at a time). *)

From S2P Require Import Prelude.

Definition kNormDelete : list (Z * Z) := [
  (0x300, 0x36F); (0x483, 0x489); (0x591, 0x5BD); (0x5BF, 0x5BF); (0x5C1, 0x5C2); (0x5C4, 0x5C5);
  (0x5C7, 0x5C7); (0x610, 0x61A); (0x64B, 0x65F); (0x670, 0x670); (0x6D6, 0x6DC); (0x6DF, 0x6E4);
  (0x6E7, 0x6E8); (0x6EA, 0x6ED); (0x711, 0x711); (0x730, 0x74A); (0x7A6, 0x7B0); (0x7EB, 0x7F3);
  (0x816, 0x819); (0x81B, 0x823); (0x825, 0x827); (0x829, 0x82D); (0x859, 0x85B); (0x8D4, 0x8E1);
  (0x8E3, 0x903); (0x93A, 0x93C); (0x93E, 0x94F); (0x951, 0x957); (0x962, 0x963); (0x981, 0x983);
  (0x9BC, 0x9BC); (0x9BE, 0x9C4); (0x9C7, 0x9C8); (0x9CB, 0x9CD); (0x9D7, 0x9D7); (0x9E2, 0x9E3);
  (0xA01, 0xA03); (0xA3C, 0xA3C); (0xA3E, 0xA42); (0xA47, 0xA48); (0xA4B, 0xA4D); (0xA51, 0xA51);
  (0xA70, 0xA71); (0xA75, 0xA75); (0xA81, 0xA83); (0xABC, 0xABC); (0xABE, 0xAC5); (0xAC7, 0xAC9);
  (0xACB, 0xACD); (0xAE2, 0xAE3); (0xB01, 0xB03); (0xB3C, 0xB3C); (0xB3E, 0xB44); (0xB47, 0xB48);
  (0xB4B, 0xB4D); (0xB56, 0xB57); (0xB62, 0xB63); (0xB82, 0xB82); (0xBBE, 0xBC2); (0xBC6, 0xBC8);
  (0xBCA, 0xBCD); (0xBD7, 0xBD7); (0xC00, 0xC03); (0xC3E, 0xC44); (0xC46, 0xC48); (0xC4A, 0xC4D);
  (0xC55, 0xC56); (0xC62, 0xC63); (0xC81, 0xC83); (0xCBC, 0xCBC); (0xCBE, 0xCC4); (0xCC6, 0xCC8);
  (0xCCA, 0xCCD); (0xCD5, 0xCD6); (0xCE2, 0xCE3); (0xD01, 0xD03); (0xD3E, 0xD44); (0xD46, 0xD48);
  (0xD4A, 0xD4D); (0xD57, 0xD57); (0xD62, 0xD63); (0xD82, 0xD83); (0xDCA, 0xDCA); (0xDCF, 0xDD4);
  (0xDD6, 0xDD6); (0xDD8, 0xDDF); (0xDF2, 0xDF3); (0xE31, 0xE31); (0xE34, 0xE3A); (0xE47, 0xE4E);
  (0xEB1, 0xEB1); (0xEB4, 0xEB9); (0xEBB, 0xEBC); (0xEC8, 0xECD); (0xF18, 0xF19); (0xF35, 0xF35);
  (0xF37, 0xF37); (0xF39, 0xF39); (0xF3E, 0xF3F); (0xF71, 0xF84); (0xF86, 0xF87); (0xF8D, 0xF97);
  (0xF99, 0xFBC); (0xFC6, 0xFC6); (0x102B, 0x103E); (0x1056, 0x1059); (0x105E, 0x1060); (0x1062, 0x1064);
  (0x1067, 0x106D); (0x1071, 0x1074); (0x1082, 0x108D); (0x108F, 0x108F); (0x109A, 0x109D);
  (0x135D, 0x135F); (0x1712, 0x1714); (0x1732, 0x1734); (0x1752, 0x1753); (0x1772, 0x1773);
  (0x17B4, 0x17D3); (0x17DD, 0x17DD); (0x180B, 0x180D); (0x1885, 0x1886); (0x18A9, 0x18A9);
  (0x1920, 0x192B); (0x1930, 0x193B); (0x1A17, 0x1A1B); (0x1A55, 0x1A5E); (0x1A60, 0x1A7C);
  (0x1A7F, 0x1A7F); (0x1AB0, 0x1ABE); (0x1B00, 0x1B04); (0x1B34, 0x1B44); (0x1B6B, 0x1B73);
  (0x1B80, 0x1B82); (0x1BA1, 0x1BAD); (0x1BE6, 0x1BF3); (0x1C24, 0x1C37); (0x1CD0, 0x1CD2);
  (0x1CD4, 0x1CE8); (0x1CED, 0x1CED); (0x1CF2, 0x1CF4); (0x1CF8, 0x1CF9); (0x1DC0, 0x1DF5);
  (0x1DFB, 0x1DFF); (0x20D0, 0x20F0); (0x2CEF, 0x2CF1); (0x2D7F, 0x2D7F); (0x2DE0, 0x2DFF);
  (0x302A, 0x302F); (0x3099, 0x309A); (0xA66F, 0xA672); (0xA674, 0xA67D); (0xA69E, 0xA69F);
  (0xA6F0, 0xA6F1); (0xA802, 0xA802); (0xA806, 0xA806); (0xA80B, 0xA80B); (0xA823, 0xA827);
  (0xA880, 0xA881); (0xA8B4, 0xA8C5); (0xA8E0, 0xA8F1); (0xA926, 0xA92D); (0xA947, 0xA953);
  (0xA980, 0xA983); (0xA9B3, 0xA9C0); (0xA9E5, 0xA9E5); (0xAA29, 0xAA36); (0xAA43, 0xAA43);
  (0xAA4C, 0xAA4D); (0xAA7B, 0xAA7D); (0xAAB0, 0xAAB0); (0xAAB2, 0xAAB4); (0xAAB7, 0xAAB8);
  (0xAABE, 0xAABF); (0xAAC1, 0xAAC1); (0xAAEB, 0xAAEF); (0xAAF5, 0xAAF6); (0xABE3, 0xABEA);
  (0xABEC, 0xABED); (0xFB1E, 0xFB1E); (0xFE00, 0xFE0F); (0xFE20, 0xFE2F); (0xFF9E, 0xFF9F);
  (0x101FD, 0x101FD); (0x102E0, 0x102E0); (0x10376, 0x1037A); (0x10A01, 0x10A03); (0x10A05, 0x10A06);
  (0x10A0C, 0x10A0F); (0x10A38, 0x10A3A); (0x10A3F, 0x10A3F); (0x10AE5, 0x10AE6); (0x11000, 0x11002);
  (0x11038, 0x11046); (0x1107F, 0x11082); (0x110B0, 0x110BA); (0x11100, 0x11102); (0x11127, 0x11134);
  (0x11173, 0x11173); (0x11180, 0x11182); (0x111B3, 0x111C0); (0x111CA, 0x111CC); (0x1122C, 0x11237);
  (0x1123E, 0x1123E); (0x112DF, 0x112EA); (0x11300, 0x11303); (0x1133C, 0x1133C); (0x1133E, 0x11344);
  (0x11347, 0x11348); (0x1134B, 0x1134D); (0x11357, 0x11357); (0x11362, 0x11363); (0x11366, 0x1136C);
  (0x11370, 0x11374); (0x11435, 0x11446); (0x114B0, 0x114C3); (0x115AF, 0x115B5); (0x115B8, 0x115C0);
  (0x115DC, 0x115DD); (0x11630, 0x11640); (0x116AB, 0x116B7); (0x1171D, 0x1172B); (0x11C2F, 0x11C36);
  (0x11C38, 0x11C3F); (0x11C92, 0x11CA7); (0x11CA9, 0x11CB6); (0x16AF0, 0x16AF4); (0x16B30, 0x16B36);
  (0x16F51, 0x16F7E); (0x16F8F, 0x16F92); (0x1BC9D, 0x1BC9E); (0x1D165, 0x1D169); (0x1D16D, 0x1D172);
  (0x1D17B, 0x1D182); (0x1D185, 0x1D18B); (0x1D1AA, 0x1D1AD); (0x1D242, 0x1D244); (0x1DA00, 0x1DA36);
  (0x1DA3B, 0x1DA6C); (0x1DA75, 0x1DA75); (0x1DA84, 0x1DA84); (0x1DA9B, 0x1DA9F); (0x1DAA1, 0x1DAAF);
  (0x1E000, 0x1E006); (0x1E008, 0x1E018); (0x1E01B, 0x1E021); (0x1E023, 0x1E024); (0x1E026, 0x1E02A);
  (0x1E8D0, 0x1E8D6); (0x1E944, 0x1E94A); (0xE0100, 0xE01EF)].

Definition kNormRuns : list (Z * Z * Z * Z) := [
  (0x41, 0x5A, 0x1, 0x20); (0xA0, 0xA0, 0x1, -128); (0xA8, 0xA8, 0x1, -136); (0xAA, 0xAA, 0x1, -73);
  (0xAF, 0xAF, 0x1, -143); (0xB2, 0xB3, 0x1, -128); (0xB4, 0xB4, 0x1, -148); (0xB5, 0xB5, 0x1, 0x307);
  (0xB8, 0xB8, 0x1, -152); (0xB9, 0xB9, 0x1, -136); (0xBA, 0xBA, 0x1, -75); (0xC0, 0xC0, 0x1, -95);
  (0xC1, 0xC1, 0x1, -96); (0xC2, 0xC2, 0x1, -97); (0xC3, 0xC3, 0x1, -98); (0xC4, 0xC4, 0x1, -99);
  (0xC5, 0xC5, 0x1, -100); (0xC6, 0xC6, 0x1, 0x20); (0xC7, 0xC7, 0x1, -100); (0xC8, 0xC8, 0x1, -99);
  (0xC9, 0xC9, 0x1, -100); (0xCA, 0xCA, 0x1, -101); (0xCB, 0xCB, 0x1, -102); (0xCC, 0xCC, 0x1, -99);
  (0xCD, 0xCD, 0x1, -100); (0xCE, 0xCE, 0x1, -101); (0xCF, 0xCF, 0x1, -102); (0xD0, 0xD0, 0x1, 0x20);
  (0xD1, 0xD2, 0x1, -99); (0xD3, 0xD3, 0x1, -100); (0xD4, 0xD4, 0x1, -101); (0xD5, 0xD5, 0x1, -102);
  (0xD6, 0xD6, 0x1, -103); (0xD8, 0xD8, 0x1, 0x20); (0xD9, 0xD9, 0x1, -100); (0xDA, 0xDA, 0x1, -101);
  (0xDB, 0xDB, 0x1, -102); (0xDC, 0xDC, 0x1, -103); (0xDD, 0xDD, 0x1, -100); (0xDE, 0xDE, 0x1, 0x20);
  (0xE0, 0xE0, 0x1, -127); (0xE1, 0xE1, 0x1, -128); (0xE2, 0xE2, 0x1, -129); (0xE3, 0xE3, 0x1, -130);
  (0xE4, 0xE4, 0x1, -131); (0xE5, 0xE7, 0x2, -132); (0xE8, 0xE8, 0x1, -131); (0xE9, 0xE9, 0x1, -132);
  (0xEA, 0xEA, 0x1, -133); (0xEB, 0xEB, 0x1, -134); (0xEC, 0xEC, 0x1, -131); (0xED, 0xED, 0x1, -132);
  (0xEE, 0xEE, 0x1, -133); (0xEF, 0xEF, 0x1, -134); (0xF1, 0xF2, 0x1, -131); (0xF3, 0xF3, 0x1, -132);
  (0xF4, 0xF4, 0x1, -133); (0xF5, 0xF5, 0x1, -134); (0xF6, 0xF6, 0x1, -135); (0xF9, 0xF9, 0x1, -132);
  (0xFA, 0xFA, 0x1, -133); (0xFB, 0xFB, 0x1, -134); (0xFC, 0xFC, 0x1, -135); (0xFD, 0xFD, 0x1, -132);
  (0xFF, 0xFF, 0x1, -134); (0x100, 0x100, 0x1, -159); (0x101, 0x101, 0x1, -160); (0x102, 0x102, 0x1, -161);
  (0x103, 0x103, 0x1, -162); (0x104, 0x104, 0x1, -163); (0x105, 0x105, 0x1, -164);
  (0x106, 0x106, 0x1, -163); (0x107, 0x107, 0x1, -164); (0x108, 0x108, 0x1, -165);
  (0x109, 0x109, 0x1, -166); (0x10A, 0x10A, 0x1, -167); (0x10B, 0x10B, 0x1, -168);
  (0x10C, 0x10C, 0x1, -169); (0x10D, 0x10E, 0x1, -170); (0x10F, 0x10F, 0x1, -171); (0x110, 0x110, 0x1, 0x1);
  (0x112, 0x112, 0x1, -173); (0x113, 0x113, 0x1, -174); (0x114, 0x114, 0x1, -175);
  (0x115, 0x115, 0x1, -176); (0x116, 0x116, 0x1, -177); (0x117, 0x117, 0x1, -178);
  (0x118, 0x118, 0x1, -179); (0x119, 0x119, 0x1, -180); (0x11A, 0x11A, 0x1, -181);
  (0x11B, 0x11B, 0x1, -182); (0x11C, 0x11C, 0x1, -181); (0x11D, 0x11D, 0x1, -182);
  (0x11E, 0x11E, 0x1, -183); (0x11F, 0x11F, 0x1, -184); (0x120, 0x120, 0x1, -185);
  (0x121, 0x121, 0x1, -186); (0x122, 0x122, 0x1, -187); (0x123, 0x124, 0x1, -188);
  (0x125, 0x125, 0x1, -189); (0x126, 0x126, 0x1, 0x1); (0x128, 0x128, 0x1, -191); (0x129, 0x129, 0x1, -192);
  (0x12A, 0x12A, 0x1, -193); (0x12B, 0x12B, 0x1, -194); (0x12C, 0x12C, 0x1, -195);
  (0x12D, 0x12D, 0x1, -196); (0x12E, 0x12E, 0x1, -197); (0x12F, 0x12F, 0x1, -198);
  (0x130, 0x130, 0x1, -199); (0x134, 0x134, 0x1, -202); (0x135, 0x136, 0x1, -203);
  (0x137, 0x137, 0x1, -204); (0x139, 0x139, 0x1, -205); (0x13A, 0x13A, 0x1, -206);
  (0x13B, 0x13B, 0x1, -207); (0x13C, 0x13C, 0x1, -208); (0x13D, 0x13D, 0x1, -209);
  (0x13E, 0x13E, 0x1, -210); (0x141, 0x141, 0x1, 0x1); (0x143, 0x143, 0x1, -213); (0x144, 0x144, 0x1, -214);
  (0x145, 0x145, 0x1, -215); (0x146, 0x146, 0x1, -216); (0x147, 0x147, 0x1, -217);
  (0x148, 0x148, 0x1, -218); (0x14A, 0x14A, 0x1, 0x1); (0x14C, 0x14C, 0x1, -221); (0x14D, 0x14D, 0x1, -222);
  (0x14E, 0x14E, 0x1, -223); (0x14F, 0x14F, 0x1, -224); (0x150, 0x150, 0x1, -225);
  (0x151, 0x151, 0x1, -226); (0x152, 0x152, 0x1, 0x1); (0x154, 0x154, 0x1, -226); (0x155, 0x155, 0x1, -227);
  (0x156, 0x156, 0x1, -228); (0x157, 0x157, 0x1, -229); (0x158, 0x158, 0x1, -230);
  (0x159, 0x15A, 0x1, -231); (0x15B, 0x15B, 0x1, -232); (0x15C, 0x15C, 0x1, -233);
  (0x15D, 0x15D, 0x1, -234); (0x15E, 0x15E, 0x1, -235); (0x15F, 0x15F, 0x1, -236);
  (0x160, 0x160, 0x1, -237); (0x161, 0x162, 0x1, -238); (0x163, 0x163, 0x1, -239);
  (0x164, 0x164, 0x1, -240); (0x165, 0x165, 0x1, -241); (0x166, 0x166, 0x1, 0x1); (0x168, 0x168, 0x1, -243);
  (0x169, 0x169, 0x1, -244); (0x16A, 0x16A, 0x1, -245); (0x16B, 0x16B, 0x1, -246);
  (0x16C, 0x16C, 0x1, -247); (0x16D, 0x16D, 0x1, -248); (0x16E, 0x16E, 0x1, -249);
  (0x16F, 0x16F, 0x1, -250); (0x170, 0x170, 0x1, -251); (0x171, 0x171, 0x1, -252);
  (0x172, 0x172, 0x1, -253); (0x173, 0x173, 0x1, -254); (0x174, 0x174, 0x1, -253);
  (0x175, 0x175, 0x1, -254); (0x176, 0x176, 0x1, -253); (0x177, 0x177, 0x1, -254);
  (0x178, 0x179, 0x1, -255); (0x17A, 0x17A, 0x1, -256); (0x17B, 0x17B, 0x1, -257);
  (0x17C, 0x17C, 0x1, -258); (0x17D, 0x17D, 0x1, -259); (0x17E, 0x17E, 0x1, -260);
  (0x17F, 0x17F, 0x1, -268); (0x181, 0x181, 0x1, 0xD2); (0x182, 0x184, 0x2, 0x1); (0x186, 0x186, 0x1, 0xCE);
  (0x187, 0x187, 0x1, 0x1); (0x189, 0x18A, 0x1, 0xCD); (0x18B, 0x18B, 0x1, 0x1); (0x18E, 0x18E, 0x1, 0x4F);
  (0x18F, 0x18F, 0x1, 0xCA); (0x190, 0x190, 0x1, 0xCB); (0x191, 0x191, 0x1, 0x1); (0x193, 0x193, 0x1, 0xCD);
  (0x194, 0x194, 0x1, 0xCF); (0x196, 0x196, 0x1, 0xD3); (0x197, 0x197, 0x1, 0xD1); (0x198, 0x198, 0x1, 0x1);
  (0x19C, 0x19C, 0x1, 0xD3); (0x19D, 0x19D, 0x1, 0xD5); (0x19F, 0x19F, 0x1, 0xD6);
  (0x1A0, 0x1A0, 0x1, -305); (0x1A1, 0x1A1, 0x1, -306); (0x1A2, 0x1A4, 0x2, 0x1); (0x1A6, 0x1A6, 0x1, 0xDA);
  (0x1A7, 0x1A7, 0x1, 0x1); (0x1A9, 0x1A9, 0x1, 0xDA); (0x1AC, 0x1AC, 0x1, 0x1); (0x1AE, 0x1AE, 0x1, 0xDA);
  (0x1AF, 0x1AF, 0x1, -314); (0x1B0, 0x1B0, 0x1, -315); (0x1B1, 0x1B2, 0x1, 0xD9); (0x1B3, 0x1B5, 0x2, 0x1);
  (0x1B7, 0x1B7, 0x1, 0xDB); (0x1B8, 0x1B8, 0x1, 0x1); (0x1BC, 0x1BC, 0x1, 0x1); (0x1CD, 0x1CD, 0x1, -364);
  (0x1CE, 0x1CE, 0x1, -365); (0x1CF, 0x1CF, 0x1, -358); (0x1D0, 0x1D0, 0x1, -359);
  (0x1D1, 0x1D1, 0x1, -354); (0x1D2, 0x1D2, 0x1, -355); (0x1D3, 0x1D3, 0x1, -350);
  (0x1D4, 0x1D4, 0x1, -351); (0x1D5, 0x1D5, 0x1, -352); (0x1D6, 0x1D6, 0x1, -353);
  (0x1D7, 0x1D7, 0x1, -354); (0x1D8, 0x1D8, 0x1, -355); (0x1D9, 0x1D9, 0x1, -356);
  (0x1DA, 0x1DA, 0x1, -357); (0x1DB, 0x1DB, 0x1, -358); (0x1DC, 0x1DC, 0x1, -359);
  (0x1DE, 0x1DE, 0x1, -381); (0x1DF, 0x1DF, 0x1, -382); (0x1E0, 0x1E0, 0x1, -383);
  (0x1E1, 0x1E1, 0x1, -384); (0x1E2, 0x1E2, 0x1, -252); (0x1E3, 0x1E3, 0x1, -253); (0x1E4, 0x1E4, 0x1, 0x1);
  (0x1E6, 0x1E6, 0x1, -383); (0x1E7, 0x1E7, 0x1, -384); (0x1E8, 0x1E8, 0x1, -381);
  (0x1E9, 0x1E9, 0x1, -382); (0x1EA, 0x1EA, 0x1, -379); (0x1EB, 0x1EB, 0x1, -380);
  (0x1EC, 0x1EC, 0x1, -381); (0x1ED, 0x1ED, 0x1, -382); (0x1EE, 0x1EE, 0x1, 0xA4);
  (0x1EF, 0x1EF, 0x1, 0xA3); (0x1F0, 0x1F0, 0x1, -390); (0x1F4, 0x1F4, 0x1, -397);
  (0x1F5, 0x1F5, 0x1, -398); (0x1F6, 0x1F6, 0x1, -97); (0x1F7, 0x1F7, 0x1, -56); (0x1F8, 0x1F8, 0x1, -394);
  (0x1F9, 0x1F9, 0x1, -395); (0x1FA, 0x1FA, 0x1, -409); (0x1FB, 0x1FB, 0x1, -410);
  (0x1FC, 0x1FC, 0x1, -278); (0x1FD, 0x1FD, 0x1, -279); (0x1FE, 0x1FE, 0x1, -262);
  (0x1FF, 0x1FF, 0x1, -263); (0x200, 0x200, 0x1, -415); (0x201, 0x201, 0x1, -416);
  (0x202, 0x202, 0x1, -417); (0x203, 0x203, 0x1, -418); (0x204, 0x204, 0x1, -415);
  (0x205, 0x205, 0x1, -416); (0x206, 0x206, 0x1, -417); (0x207, 0x207, 0x1, -418);
  (0x208, 0x208, 0x1, -415); (0x209, 0x209, 0x1, -416); (0x20A, 0x20A, 0x1, -417);
  (0x20B, 0x20B, 0x1, -418); (0x20C, 0x20C, 0x1, -413); (0x20D, 0x20D, 0x1, -414);
  (0x20E, 0x20E, 0x1, -415); (0x20F, 0x20F, 0x1, -416); (0x210, 0x210, 0x1, -414);
  (0x211, 0x211, 0x1, -415); (0x212, 0x212, 0x1, -416); (0x213, 0x213, 0x1, -417);
  (0x214, 0x214, 0x1, -415); (0x215, 0x215, 0x1, -416); (0x216, 0x216, 0x1, -417);
  (0x217, 0x217, 0x1, -418); (0x218, 0x218, 0x1, -421); (0x219, 0x21A, 0x1, -422);
  (0x21B, 0x21B, 0x1, -423); (0x21C, 0x21C, 0x1, 0x1); (0x21E, 0x21E, 0x1, -438); (0x21F, 0x21F, 0x1, -439);
  (0x220, 0x220, 0x1, -130); (0x222, 0x224, 0x2, 0x1); (0x226, 0x226, 0x1, -453); (0x227, 0x227, 0x1, -454);
  (0x228, 0x228, 0x1, -451); (0x229, 0x229, 0x1, -452); (0x22A, 0x22A, 0x1, -443);
  (0x22B, 0x22B, 0x1, -444); (0x22C, 0x22C, 0x1, -445); (0x22D, 0x22D, 0x1, -446);
  (0x22E, 0x22E, 0x1, -447); (0x22F, 0x22F, 0x1, -448); (0x230, 0x230, 0x1, -449);
  (0x231, 0x231, 0x1, -450); (0x232, 0x232, 0x1, -441); (0x233, 0x233, 0x1, -442);
  (0x23A, 0x23A, 0x1, 0x2A2B); (0x23B, 0x23B, 0x1, 0x1); (0x23D, 0x23D, 0x1, -163);
  (0x23E, 0x23E, 0x1, 0x2A28); (0x241, 0x241, 0x1, 0x1); (0x243, 0x243, 0x1, -195);
  (0x244, 0x244, 0x1, 0x45); (0x245, 0x245, 0x1, 0x47); (0x246, 0x24E, 0x2, 0x1); (0x2B0, 0x2B0, 0x1, -584);
  (0x2B1, 0x2B1, 0x1, -75); (0x2B2, 0x2B2, 0x1, -584); (0x2B3, 0x2B3, 0x1, -577); (0x2B4, 0x2B4, 0x1, -59);
  (0x2B5, 0x2B5, 0x1, -58); (0x2B6, 0x2B6, 0x1, -53); (0x2B7, 0x2B7, 0x1, -576); (0x2B8, 0x2B8, 0x1, -575);
  (0x2D8, 0x2D8, 0x1, -696); (0x2D9, 0x2D9, 0x1, -697); (0x2DA, 0x2DA, 0x1, -698);
  (0x2DB, 0x2DB, 0x1, -699); (0x2DC, 0x2DC, 0x1, -700); (0x2DD, 0x2DD, 0x1, -701);
  (0x2E0, 0x2E0, 0x1, -125); (0x2E1, 0x2E1, 0x1, -629); (0x2E2, 0x2E2, 0x1, -623);
  (0x2E3, 0x2E3, 0x1, -619); (0x2E4, 0x2E4, 0x1, -79); (0x370, 0x372, 0x2, 0x1); (0x374, 0x374, 0x1, -187);
  (0x376, 0x376, 0x1, 0x1); (0x37A, 0x37A, 0x1, -858); (0x37E, 0x37E, 0x1, -835); (0x37F, 0x37F, 0x1, 0x74);
  (0x384, 0x384, 0x1, -868); (0x385, 0x385, 0x1, -869); (0x386, 0x386, 0x1, 0x2B);
  (0x387, 0x387, 0x1, -720); (0x388, 0x388, 0x1, 0x2D); (0x389, 0x389, 0x1, 0x2E);
  (0x38A, 0x38A, 0x1, 0x2F); (0x38C, 0x38C, 0x1, 0x33); (0x38E, 0x38E, 0x1, 0x37);
  (0x38F, 0x38F, 0x1, 0x3A); (0x390, 0x390, 0x1, 0x29); (0x391, 0x3A1, 0x1, 0x20);
  (0x3A3, 0x3A9, 0x1, 0x20); (0x3AA, 0x3AA, 0x1, 0xF); (0x3AB, 0x3AB, 0x1, 0x1A); (0x3AC, 0x3AC, 0x1, 0x5);
  (0x3AD, 0x3AD, 0x1, 0x8); (0x3AE, 0x3AE, 0x1, 0x9); (0x3AF, 0x3AF, 0x1, 0xA); (0x3B0, 0x3B0, 0x1, 0x15);
  (0x3CA, 0x3CA, 0x1, -17); (0x3CB, 0x3CB, 0x1, -6); (0x3CC, 0x3CC, 0x1, -13); (0x3CD, 0x3CD, 0x1, -8);
  (0x3CE, 0x3CE, 0x1, -5); (0x3CF, 0x3CF, 0x1, 0x8); (0x3D0, 0x3D0, 0x1, -30); (0x3D1, 0x3D1, 0x1, -25);
  (0x3D2, 0x3D2, 0x1, -13); (0x3D3, 0x3D3, 0x1, -14); (0x3D4, 0x3D5, 0x1, -15); (0x3D6, 0x3D6, 0x1, -22);
  (0x3D8, 0x3EE, 0x2, 0x1); (0x3F0, 0x3F0, 0x1, -54); (0x3F1, 0x3F2, 0x1, -48); (0x3F4, 0x3F4, 0x1, -60);
  (0x3F5, 0x3F5, 0x1, -64); (0x3F7, 0x3F7, 0x1, 0x1); (0x3F9, 0x3F9, 0x1, -54); (0x3FA, 0x3FA, 0x1, 0x1);
  (0x3FD, 0x3FF, 0x1, -130); (0x400, 0x400, 0x1, 0x35); (0x401, 0x401, 0x1, 0x34);
  (0x402, 0x402, 0x1, 0x50); (0x403, 0x403, 0x1, 0x30); (0x404, 0x406, 0x1, 0x50);
  (0x407, 0x407, 0x1, 0x4F); (0x408, 0x40B, 0x1, 0x50); (0x40C, 0x40C, 0x1, 0x2E);
  (0x40D, 0x40D, 0x1, 0x2B); (0x40E, 0x40E, 0x1, 0x35); (0x40F, 0x40F, 0x1, 0x50);
  (0x410, 0x418, 0x1, 0x20); (0x419, 0x419, 0x1, 0x1F); (0x41A, 0x42F, 0x1, 0x20); (0x439, 0x439, 0x1, -1);
  (0x450, 0x450, 0x1, -27); (0x451, 0x451, 0x1, -28); (0x453, 0x453, 0x1, -32); (0x457, 0x457, 0x1, -1);
  (0x45C, 0x45C, 0x1, -34); (0x45D, 0x45D, 0x1, -37); (0x45E, 0x45E, 0x1, -27); (0x460, 0x474, 0x2, 0x1);
  (0x476, 0x476, 0x1, -1); (0x477, 0x477, 0x1, -2); (0x478, 0x480, 0x2, 0x1); (0x48A, 0x4BE, 0x2, 0x1);
  (0x4C0, 0x4C0, 0x1, 0xF); (0x4C1, 0x4C1, 0x1, -139); (0x4C2, 0x4C2, 0x1, -140); (0x4C3, 0x4CD, 0x2, 0x1);
  (0x4D0, 0x4D0, 0x1, -160); (0x4D1, 0x4D1, 0x1, -161); (0x4D2, 0x4D2, 0x1, -162);
  (0x4D3, 0x4D3, 0x1, -163); (0x4D4, 0x4D4, 0x1, 0x1); (0x4D6, 0x4D6, 0x1, -161); (0x4D7, 0x4D7, 0x1, -162);
  (0x4D8, 0x4D8, 0x1, 0x1); (0x4DA, 0x4DA, 0x1, -1); (0x4DB, 0x4DB, 0x1, -2); (0x4DC, 0x4DC, 0x1, -166);
  (0x4DD, 0x4DE, 0x1, -167); (0x4DF, 0x4DF, 0x1, -168); (0x4E0, 0x4E0, 0x1, 0x1); (0x4E2, 0x4E2, 0x1, -170);
  (0x4E3, 0x4E3, 0x1, -171); (0x4E4, 0x4E4, 0x1, -172); (0x4E5, 0x4E5, 0x1, -173);
  (0x4E6, 0x4E6, 0x1, -168); (0x4E7, 0x4E7, 0x1, -169); (0x4E8, 0x4E8, 0x1, 0x1); (0x4EA, 0x4EA, 0x1, -1);
  (0x4EB, 0x4EB, 0x1, -2); (0x4EC, 0x4EC, 0x1, -159); (0x4ED, 0x4ED, 0x1, -160); (0x4EE, 0x4EE, 0x1, -171);
  (0x4EF, 0x4EF, 0x1, -172); (0x4F0, 0x4F0, 0x1, -173); (0x4F1, 0x4F1, 0x1, -174);
  (0x4F2, 0x4F2, 0x1, -175); (0x4F3, 0x4F3, 0x1, -176); (0x4F4, 0x4F4, 0x1, -173);
  (0x4F5, 0x4F5, 0x1, -174); (0x4F6, 0x4F6, 0x1, 0x1); (0x4F8, 0x4F8, 0x1, -173); (0x4F9, 0x4F9, 0x1, -174);
  (0x4FA, 0x52E, 0x2, 0x1); (0x531, 0x556, 0x1, 0x30); (0x622, 0x622, 0x1, 0x5); (0x623, 0x623, 0x1, 0x4);
  (0x624, 0x624, 0x1, 0x24); (0x625, 0x625, 0x1, 0x2); (0x626, 0x626, 0x1, 0x24); (0x6C0, 0x6C0, 0x1, 0x15);
  (0x6C2, 0x6C2, 0x1, -1); (0x6D3, 0x6D3, 0x1, -1); (0x929, 0x929, 0x1, -1); (0x931, 0x931, 0x1, -1);
  (0x934, 0x934, 0x1, -1); (0x958, 0x95A, 0x1, -67); (0x95B, 0x95B, 0x1, -63); (0x95C, 0x95D, 0x1, -59);
  (0x95E, 0x95E, 0x1, -51); (0x95F, 0x95F, 0x1, -48); (0x9DC, 0x9DD, 0x1, -59); (0x9DF, 0x9DF, 0x1, -48);
  (0xA33, 0xA33, 0x1, -1); (0xA36, 0xA36, 0x1, 0x2); (0xA59, 0xA5A, 0x1, -67); (0xA5B, 0xA5B, 0x1, -63);
  (0xA5E, 0xA5E, 0x1, -51); (0xB5C, 0xB5D, 0x1, -59); (0xB94, 0xB94, 0x1, -2); (0xE33, 0xE33, 0x1, -1);
  (0xEB3, 0xEB3, 0x1, -1); (0xF0C, 0xF0C, 0x1, -1); (0xF43, 0xF43, 0x1, -1); (0xF4D, 0xF4D, 0x1, -1);
  (0xF52, 0xF52, 0x1, -1); (0xF57, 0xF57, 0x1, -1); (0xF5C, 0xF5C, 0x1, -1); (0xF69, 0xF69, 0x1, -41);
  (0x1026, 0x1026, 0x1, -1); (0x10A0, 0x10C5, 0x1, 0x1C60); (0x10C7, 0x10C7, 0x1, 0x1C60);
  (0x10CD, 0x10CD, 0x1, 0x1C60); (0x10FC, 0x10FC, 0x1, -32); (0x13A0, 0x13EF, 0x1, 0x97D0);
  (0x13F0, 0x13F5, 0x1, 0x8); (0x1B06, 0x1B0E, 0x2, -1); (0x1B12, 0x1B12, 0x1, -1);
  (0x1C89, 0x1C89, 0x1, 0x1); (0x1C90, 0x1CBA, 0x1, -3008); (0x1CBD, 0x1CBF, 0x1, -3008);
  (0x1D2C, 0x1D2C, 0x1, -7371); (0x1D2D, 0x1D2D, 0x1, -7239); (0x1D2E, 0x1D30, 0x2, -7372);
  (0x1D31, 0x1D31, 0x1, -7372); (0x1D32, 0x1D32, 0x1, -6997); (0x1D33, 0x1D3A, 0x1, -7372);
  (0x1D3C, 0x1D3C, 0x1, -7373); (0x1D3D, 0x1D3D, 0x1, -6938); (0x1D3E, 0x1D3E, 0x1, -7374);
  (0x1D3F, 0x1D3F, 0x1, -7373); (0x1D40, 0x1D41, 0x1, -7372); (0x1D42, 0x1D42, 0x1, -7371);
  (0x1D43, 0x1D43, 0x1, -7394); (0x1D44, 0x1D45, 0x1, -6900); (0x1D46, 0x1D46, 0x1, -68);
  (0x1D47, 0x1D47, 0x1, -7397); (0x1D48, 0x1D49, 0x1, -7396); (0x1D4A, 0x1D4A, 0x1, -6897);
  (0x1D4B, 0x1D4C, 0x1, -6896); (0x1D4D, 0x1D4D, 0x1, -7398); (0x1D4F, 0x1D4F, 0x1, -7396);
  (0x1D50, 0x1D50, 0x1, -7395); (0x1D51, 0x1D51, 0x1, -7174); (0x1D52, 0x1D52, 0x1, -7395);
  (0x1D53, 0x1D53, 0x1, -6911); (0x1D54, 0x1D55, 0x1, -62); (0x1D56, 0x1D56, 0x1, -7398);
  (0x1D57, 0x1D58, 0x1, -7395); (0x1D59, 0x1D59, 0x1, -60); (0x1D5A, 0x1D5A, 0x1, -6891);
  (0x1D5B, 0x1D5B, 0x1, -7397); (0x1D5C, 0x1D5C, 0x1, -55); (0x1D5D, 0x1D5F, 0x1, -6571);
  (0x1D60, 0x1D61, 0x1, -6554); (0x1D62, 0x1D62, 0x1, -7417); (0x1D63, 0x1D63, 0x1, -7409);
  (0x1D64, 0x1D65, 0x1, -7407); (0x1D66, 0x1D67, 0x1, -6580); (0x1D68, 0x1D68, 0x1, -6567);
  (0x1D69, 0x1D6A, 0x1, -6563); (0x1D78, 0x1D78, 0x1, -6459); (0x1D9B, 0x1D9B, 0x1, -6985);
  (0x1D9C, 0x1D9C, 0x1, -7481); (0x1D9D, 0x1D9D, 0x1, -6984); (0x1D9E, 0x1D9E, 0x1, -7342);
  (0x1D9F, 0x1D9F, 0x1, -6979); (0x1DA0, 0x1DA0, 0x1, -7482); (0x1DA1, 0x1DA1, 0x1, -6978);
  (0x1DA2, 0x1DA2, 0x1, -6977); (0x1DA3, 0x1DA3, 0x1, -6974); (0x1DA4, 0x1DA6, 0x1, -6972);
  (0x1DA7, 0x1DA7, 0x1, -44); (0x1DA8, 0x1DA8, 0x1, -6923); (0x1DA9, 0x1DA9, 0x1, -6972);
  (0x1DAA, 0x1DAA, 0x1, -37); (0x1DAB, 0x1DAB, 0x1, -6924); (0x1DAC, 0x1DAC, 0x1, -6971);
  (0x1DAD, 0x1DAD, 0x1, -6973); (0x1DAE, 0x1DB1, 0x1, -6972); (0x1DB2, 0x1DB2, 0x1, -6970);
  (0x1DB3, 0x1DB4, 0x1, -6961); (0x1DB5, 0x1DB5, 0x1, -7178); (0x1DB6, 0x1DB7, 0x1, -6957);
  (0x1DB8, 0x1DB8, 0x1, -156); (0x1DB9, 0x1DBA, 0x1, -6958); (0x1DBB, 0x1DBB, 0x1, -7489);
  (0x1DBC, 0x1DBE, 0x1, -6956); (0x1DBF, 0x1DBF, 0x1, -6663); (0x1E00, 0x1E00, 0x1, -7583);
  (0x1E01, 0x1E02, 0x1, -7584); (0x1E03, 0x1E03, 0x1, -7585); (0x1E04, 0x1E04, 0x1, -7586);
  (0x1E05, 0x1E05, 0x1, -7587); (0x1E06, 0x1E06, 0x1, -7588); (0x1E07, 0x1E08, 0x1, -7589);
  (0x1E09, 0x1E0A, 0x1, -7590); (0x1E0B, 0x1E0B, 0x1, -7591); (0x1E0C, 0x1E0C, 0x1, -7592);
  (0x1E0D, 0x1E0D, 0x1, -7593); (0x1E0E, 0x1E0E, 0x1, -7594); (0x1E0F, 0x1E0F, 0x1, -7595);
  (0x1E10, 0x1E10, 0x1, -7596); (0x1E11, 0x1E11, 0x1, -7597); (0x1E12, 0x1E12, 0x1, -7598);
  (0x1E13, 0x1E14, 0x1, -7599); (0x1E15, 0x1E15, 0x1, -7600); (0x1E16, 0x1E16, 0x1, -7601);
  (0x1E17, 0x1E17, 0x1, -7602); (0x1E18, 0x1E18, 0x1, -7603); (0x1E19, 0x1E19, 0x1, -7604);
  (0x1E1A, 0x1E1A, 0x1, -7605); (0x1E1B, 0x1E1B, 0x1, -7606); (0x1E1C, 0x1E1C, 0x1, -7607);
  (0x1E1D, 0x1E1E, 0x1, -7608); (0x1E1F, 0x1E20, 0x1, -7609); (0x1E21, 0x1E22, 0x1, -7610);
  (0x1E23, 0x1E23, 0x1, -7611); (0x1E24, 0x1E24, 0x1, -7612); (0x1E25, 0x1E25, 0x1, -7613);
  (0x1E26, 0x1E26, 0x1, -7614); (0x1E27, 0x1E27, 0x1, -7615); (0x1E28, 0x1E28, 0x1, -7616);
  (0x1E29, 0x1E29, 0x1, -7617); (0x1E2A, 0x1E2A, 0x1, -7618); (0x1E2B, 0x1E2C, 0x1, -7619);
  (0x1E2D, 0x1E2D, 0x1, -7620); (0x1E2E, 0x1E2E, 0x1, -7621); (0x1E2F, 0x1E2F, 0x1, -7622);
  (0x1E30, 0x1E30, 0x1, -7621); (0x1E31, 0x1E31, 0x1, -7622); (0x1E32, 0x1E32, 0x1, -7623);
  (0x1E33, 0x1E33, 0x1, -7624); (0x1E34, 0x1E34, 0x1, -7625); (0x1E35, 0x1E36, 0x1, -7626);
  (0x1E37, 0x1E37, 0x1, -7627); (0x1E38, 0x1E38, 0x1, -7628); (0x1E39, 0x1E39, 0x1, -7629);
  (0x1E3A, 0x1E3A, 0x1, -7630); (0x1E3B, 0x1E3B, 0x1, -7631); (0x1E3C, 0x1E3C, 0x1, -7632);
  (0x1E3D, 0x1E3E, 0x1, -7633); (0x1E3F, 0x1E3F, 0x1, -7634); (0x1E40, 0x1E40, 0x1, -7635);
  (0x1E41, 0x1E41, 0x1, -7636); (0x1E42, 0x1E42, 0x1, -7637); (0x1E43, 0x1E44, 0x1, -7638);
  (0x1E45, 0x1E45, 0x1, -7639); (0x1E46, 0x1E46, 0x1, -7640); (0x1E47, 0x1E47, 0x1, -7641);
  (0x1E48, 0x1E48, 0x1, -7642); (0x1E49, 0x1E49, 0x1, -7643); (0x1E4A, 0x1E4A, 0x1, -7644);
  (0x1E4B, 0x1E4C, 0x1, -7645); (0x1E4D, 0x1E4D, 0x1, -7646); (0x1E4E, 0x1E4E, 0x1, -7647);
  (0x1E4F, 0x1E4F, 0x1, -7648); (0x1E50, 0x1E50, 0x1, -7649); (0x1E51, 0x1E51, 0x1, -7650);
  (0x1E52, 0x1E52, 0x1, -7651); (0x1E53, 0x1E54, 0x1, -7652); (0x1E55, 0x1E55, 0x1, -7653);
  (0x1E56, 0x1E56, 0x1, -7654); (0x1E57, 0x1E57, 0x1, -7655); (0x1E58, 0x1E58, 0x1, -7654);
  (0x1E59, 0x1E59, 0x1, -7655); (0x1E5A, 0x1E5A, 0x1, -7656); (0x1E5B, 0x1E5B, 0x1, -7657);
  (0x1E5C, 0x1E5C, 0x1, -7658); (0x1E5D, 0x1E5D, 0x1, -7659); (0x1E5E, 0x1E5E, 0x1, -7660);
  (0x1E5F, 0x1E60, 0x1, -7661); (0x1E61, 0x1E61, 0x1, -7662); (0x1E62, 0x1E62, 0x1, -7663);
  (0x1E63, 0x1E63, 0x1, -7664); (0x1E64, 0x1E64, 0x1, -7665); (0x1E65, 0x1E65, 0x1, -7666);
  (0x1E66, 0x1E66, 0x1, -7667); (0x1E67, 0x1E67, 0x1, -7668); (0x1E68, 0x1E68, 0x1, -7669);
  (0x1E69, 0x1E6A, 0x1, -7670); (0x1E6B, 0x1E6B, 0x1, -7671); (0x1E6C, 0x1E6C, 0x1, -7672);
  (0x1E6D, 0x1E6D, 0x1, -7673); (0x1E6E, 0x1E6E, 0x1, -7674); (0x1E6F, 0x1E6F, 0x1, -7675);
  (0x1E70, 0x1E70, 0x1, -7676); (0x1E71, 0x1E72, 0x1, -7677); (0x1E73, 0x1E73, 0x1, -7678);
  (0x1E74, 0x1E74, 0x1, -7679); (0x1E75, 0x1E75, 0x1, -7680); (0x1E76, 0x1E76, 0x1, -7681);
  (0x1E77, 0x1E77, 0x1, -7682); (0x1E78, 0x1E78, 0x1, -7683); (0x1E79, 0x1E79, 0x1, -7684);
  (0x1E7A, 0x1E7A, 0x1, -7685); (0x1E7B, 0x1E7C, 0x1, -7686); (0x1E7D, 0x1E7D, 0x1, -7687);
  (0x1E7E, 0x1E7E, 0x1, -7688); (0x1E7F, 0x1E80, 0x1, -7689); (0x1E81, 0x1E81, 0x1, -7690);
  (0x1E82, 0x1E82, 0x1, -7691); (0x1E83, 0x1E83, 0x1, -7692); (0x1E84, 0x1E84, 0x1, -7693);
  (0x1E85, 0x1E85, 0x1, -7694); (0x1E86, 0x1E86, 0x1, -7695); (0x1E87, 0x1E87, 0x1, -7696);
  (0x1E88, 0x1E88, 0x1, -7697); (0x1E89, 0x1E8A, 0x1, -7698); (0x1E8B, 0x1E8B, 0x1, -7699);
  (0x1E8C, 0x1E8C, 0x1, -7700); (0x1E8D, 0x1E8E, 0x1, -7701); (0x1E8F, 0x1E90, 0x1, -7702);
  (0x1E91, 0x1E91, 0x1, -7703); (0x1E92, 0x1E92, 0x1, -7704); (0x1E93, 0x1E93, 0x1, -7705);
  (0x1E94, 0x1E94, 0x1, -7706); (0x1E95, 0x1E95, 0x1, -7707); (0x1E96, 0x1E96, 0x1, -7726);
  (0x1E97, 0x1E97, 0x1, -7715); (0x1E98, 0x1E98, 0x1, -7713); (0x1E99, 0x1E99, 0x1, -7712);
  (0x1E9B, 0x1E9B, 0x1, -7720); (0x1E9E, 0x1E9E, 0x1, -7615); (0x1EA0, 0x1EA0, 0x1, -7743);
  (0x1EA1, 0x1EA1, 0x1, -7744); (0x1EA2, 0x1EA2, 0x1, -7745); (0x1EA3, 0x1EA3, 0x1, -7746);
  (0x1EA4, 0x1EA4, 0x1, -7747); (0x1EA5, 0x1EA5, 0x1, -7748); (0x1EA6, 0x1EA6, 0x1, -7749);
  (0x1EA7, 0x1EA7, 0x1, -7750); (0x1EA8, 0x1EA8, 0x1, -7751); (0x1EA9, 0x1EA9, 0x1, -7752);
  (0x1EAA, 0x1EAA, 0x1, -7753); (0x1EAB, 0x1EAB, 0x1, -7754); (0x1EAC, 0x1EAC, 0x1, -7755);
  (0x1EAD, 0x1EAD, 0x1, -7756); (0x1EAE, 0x1EAE, 0x1, -7757); (0x1EAF, 0x1EAF, 0x1, -7758);
  (0x1EB0, 0x1EB0, 0x1, -7759); (0x1EB1, 0x1EB1, 0x1, -7760); (0x1EB2, 0x1EB2, 0x1, -7761);
  (0x1EB3, 0x1EB3, 0x1, -7762); (0x1EB4, 0x1EB4, 0x1, -7763); (0x1EB5, 0x1EB5, 0x1, -7764);
  (0x1EB6, 0x1EB6, 0x1, -7765); (0x1EB7, 0x1EB7, 0x1, -7766); (0x1EB8, 0x1EB8, 0x1, -7763);
  (0x1EB9, 0x1EB9, 0x1, -7764); (0x1EBA, 0x1EBA, 0x1, -7765); (0x1EBB, 0x1EBB, 0x1, -7766);
  (0x1EBC, 0x1EBC, 0x1, -7767); (0x1EBD, 0x1EBD, 0x1, -7768); (0x1EBE, 0x1EBE, 0x1, -7769);
  (0x1EBF, 0x1EBF, 0x1, -7770); (0x1EC0, 0x1EC0, 0x1, -7771); (0x1EC1, 0x1EC1, 0x1, -7772);
  (0x1EC2, 0x1EC2, 0x1, -7773); (0x1EC3, 0x1EC3, 0x1, -7774); (0x1EC4, 0x1EC4, 0x1, -7775);
  (0x1EC5, 0x1EC5, 0x1, -7776); (0x1EC6, 0x1EC6, 0x1, -7777); (0x1EC7, 0x1EC7, 0x1, -7778);
  (0x1EC8, 0x1EC8, 0x1, -7775); (0x1EC9, 0x1EC9, 0x1, -7776); (0x1ECA, 0x1ECA, 0x1, -7777);
  (0x1ECB, 0x1ECB, 0x1, -7778); (0x1ECC, 0x1ECC, 0x1, -7773); (0x1ECD, 0x1ECD, 0x1, -7774);
  (0x1ECE, 0x1ECE, 0x1, -7775); (0x1ECF, 0x1ECF, 0x1, -7776); (0x1ED0, 0x1ED0, 0x1, -7777);
  (0x1ED1, 0x1ED1, 0x1, -7778); (0x1ED2, 0x1ED2, 0x1, -7779); (0x1ED3, 0x1ED3, 0x1, -7780);
  (0x1ED4, 0x1ED4, 0x1, -7781); (0x1ED5, 0x1ED5, 0x1, -7782); (0x1ED6, 0x1ED6, 0x1, -7783);
  (0x1ED7, 0x1ED7, 0x1, -7784); (0x1ED8, 0x1ED8, 0x1, -7785); (0x1ED9, 0x1ED9, 0x1, -7786);
  (0x1EDA, 0x1EDA, 0x1, -7787); (0x1EDB, 0x1EDB, 0x1, -7788); (0x1EDC, 0x1EDC, 0x1, -7789);
  (0x1EDD, 0x1EDD, 0x1, -7790); (0x1EDE, 0x1EDE, 0x1, -7791); (0x1EDF, 0x1EDF, 0x1, -7792);
  (0x1EE0, 0x1EE0, 0x1, -7793); (0x1EE1, 0x1EE1, 0x1, -7794); (0x1EE2, 0x1EE2, 0x1, -7795);
  (0x1EE3, 0x1EE3, 0x1, -7796); (0x1EE4, 0x1EE4, 0x1, -7791); (0x1EE5, 0x1EE5, 0x1, -7792);
  (0x1EE6, 0x1EE6, 0x1, -7793); (0x1EE7, 0x1EE7, 0x1, -7794); (0x1EE8, 0x1EE8, 0x1, -7795);
  (0x1EE9, 0x1EE9, 0x1, -7796); (0x1EEA, 0x1EEA, 0x1, -7797); (0x1EEB, 0x1EEB, 0x1, -7798);
  (0x1EEC, 0x1EEC, 0x1, -7799); (0x1EED, 0x1EED, 0x1, -7800); (0x1EEE, 0x1EEE, 0x1, -7801);
  (0x1EEF, 0x1EEF, 0x1, -7802); (0x1EF0, 0x1EF0, 0x1, -7803); (0x1EF1, 0x1EF1, 0x1, -7804);
  (0x1EF2, 0x1EF2, 0x1, -7801); (0x1EF3, 0x1EF3, 0x1, -7802); (0x1EF4, 0x1EF4, 0x1, -7803);
  (0x1EF5, 0x1EF5, 0x1, -7804); (0x1EF6, 0x1EF6, 0x1, -7805); (0x1EF7, 0x1EF7, 0x1, -7806);
  (0x1EF8, 0x1EF8, 0x1, -7807); (0x1EF9, 0x1EF9, 0x1, -7808); (0x1EFA, 0x1EFE, 0x2, 0x1);
  (0x1F00, 0x1F00, 0x1, -6991); (0x1F01, 0x1F01, 0x1, -6992); (0x1F02, 0x1F02, 0x1, -6993);
  (0x1F03, 0x1F03, 0x1, -6994); (0x1F04, 0x1F04, 0x1, -6995); (0x1F05, 0x1F05, 0x1, -6996);
  (0x1F06, 0x1F06, 0x1, -6997); (0x1F07, 0x1F07, 0x1, -6998); (0x1F08, 0x1F08, 0x1, -6999);
  (0x1F09, 0x1F09, 0x1, -7000); (0x1F0A, 0x1F0A, 0x1, -7001); (0x1F0B, 0x1F0B, 0x1, -7002);
  (0x1F0C, 0x1F0C, 0x1, -7003); (0x1F0D, 0x1F0D, 0x1, -7004); (0x1F0E, 0x1F0E, 0x1, -7005);
  (0x1F0F, 0x1F0F, 0x1, -7006); (0x1F10, 0x1F10, 0x1, -7003); (0x1F11, 0x1F11, 0x1, -7004);
  (0x1F12, 0x1F12, 0x1, -7005); (0x1F13, 0x1F13, 0x1, -7006); (0x1F14, 0x1F14, 0x1, -7007);
  (0x1F15, 0x1F15, 0x1, -7008); (0x1F18, 0x1F18, 0x1, -7011); (0x1F19, 0x1F19, 0x1, -7012);
  (0x1F1A, 0x1F1A, 0x1, -7013); (0x1F1B, 0x1F1B, 0x1, -7014); (0x1F1C, 0x1F1C, 0x1, -7015);
  (0x1F1D, 0x1F1D, 0x1, -7016); (0x1F20, 0x1F20, 0x1, -7017); (0x1F21, 0x1F21, 0x1, -7018);
  (0x1F22, 0x1F22, 0x1, -7019); (0x1F23, 0x1F23, 0x1, -7020); (0x1F24, 0x1F24, 0x1, -7021);
  (0x1F25, 0x1F25, 0x1, -7022); (0x1F26, 0x1F26, 0x1, -7023); (0x1F27, 0x1F27, 0x1, -7024);
  (0x1F28, 0x1F28, 0x1, -7025); (0x1F29, 0x1F29, 0x1, -7026); (0x1F2A, 0x1F2A, 0x1, -7027);
  (0x1F2B, 0x1F2B, 0x1, -7028); (0x1F2C, 0x1F2C, 0x1, -7029); (0x1F2D, 0x1F2D, 0x1, -7030);
  (0x1F2E, 0x1F2E, 0x1, -7031); (0x1F2F, 0x1F2F, 0x1, -7032); (0x1F30, 0x1F30, 0x1, -7031);
  (0x1F31, 0x1F31, 0x1, -7032); (0x1F32, 0x1F32, 0x1, -7033); (0x1F33, 0x1F33, 0x1, -7034);
  (0x1F34, 0x1F34, 0x1, -7035); (0x1F35, 0x1F35, 0x1, -7036); (0x1F36, 0x1F36, 0x1, -7037);
  (0x1F37, 0x1F37, 0x1, -7038); (0x1F38, 0x1F38, 0x1, -7039); (0x1F39, 0x1F39, 0x1, -7040);
  (0x1F3A, 0x1F3A, 0x1, -7041); (0x1F3B, 0x1F3B, 0x1, -7042); (0x1F3C, 0x1F3C, 0x1, -7043);
  (0x1F3D, 0x1F3D, 0x1, -7044); (0x1F3E, 0x1F3E, 0x1, -7045); (0x1F3F, 0x1F3F, 0x1, -7046);
  (0x1F40, 0x1F40, 0x1, -7041); (0x1F41, 0x1F41, 0x1, -7042); (0x1F42, 0x1F42, 0x1, -7043);
  (0x1F43, 0x1F43, 0x1, -7044); (0x1F44, 0x1F44, 0x1, -7045); (0x1F45, 0x1F45, 0x1, -7046);
  (0x1F48, 0x1F48, 0x1, -7049); (0x1F49, 0x1F49, 0x1, -7050); (0x1F4A, 0x1F4A, 0x1, -7051);
  (0x1F4B, 0x1F4B, 0x1, -7052); (0x1F4C, 0x1F4C, 0x1, -7053); (0x1F4D, 0x1F4D, 0x1, -7054);
  (0x1F50, 0x1F50, 0x1, -7051); (0x1F51, 0x1F51, 0x1, -7052); (0x1F52, 0x1F52, 0x1, -7053);
  (0x1F53, 0x1F53, 0x1, -7054); (0x1F54, 0x1F54, 0x1, -7055); (0x1F55, 0x1F55, 0x1, -7056);
  (0x1F56, 0x1F56, 0x1, -7057); (0x1F57, 0x1F57, 0x1, -7058); (0x1F59, 0x1F59, 0x1, -7060);
  (0x1F5B, 0x1F5B, 0x1, -7062); (0x1F5D, 0x1F5D, 0x1, -7064); (0x1F5F, 0x1F5F, 0x1, -7066);
  (0x1F60, 0x1F60, 0x1, -7063); (0x1F61, 0x1F61, 0x1, -7064); (0x1F62, 0x1F62, 0x1, -7065);
  (0x1F63, 0x1F63, 0x1, -7066); (0x1F64, 0x1F64, 0x1, -7067); (0x1F65, 0x1F65, 0x1, -7068);
  (0x1F66, 0x1F66, 0x1, -7069); (0x1F67, 0x1F67, 0x1, -7070); (0x1F68, 0x1F68, 0x1, -7071);
  (0x1F69, 0x1F69, 0x1, -7072); (0x1F6A, 0x1F6A, 0x1, -7073); (0x1F6B, 0x1F6B, 0x1, -7074);
  (0x1F6C, 0x1F6C, 0x1, -7075); (0x1F6D, 0x1F6D, 0x1, -7076); (0x1F6E, 0x1F6E, 0x1, -7077);
  (0x1F6F, 0x1F6F, 0x1, -7078); (0x1F70, 0x1F70, 0x1, -7103); (0x1F71, 0x1F71, 0x1, -7104);
  (0x1F72, 0x1F72, 0x1, -7101); (0x1F73, 0x1F73, 0x1, -7102); (0x1F74, 0x1F74, 0x1, -7101);
  (0x1F75, 0x1F75, 0x1, -7102); (0x1F76, 0x1F76, 0x1, -7101); (0x1F77, 0x1F77, 0x1, -7102);
  (0x1F78, 0x1F78, 0x1, -7097); (0x1F79, 0x1F79, 0x1, -7098); (0x1F7A, 0x1F7A, 0x1, -7093);
  (0x1F7B, 0x1F7B, 0x1, -7094); (0x1F7C, 0x1F7C, 0x1, -7091); (0x1F7D, 0x1F7D, 0x1, -7092);
  (0x1F80, 0x1F80, 0x1, -7119); (0x1F81, 0x1F81, 0x1, -7120); (0x1F82, 0x1F82, 0x1, -7121);
  (0x1F83, 0x1F83, 0x1, -7122); (0x1F84, 0x1F84, 0x1, -7123); (0x1F85, 0x1F85, 0x1, -7124);
  (0x1F86, 0x1F86, 0x1, -7125); (0x1F87, 0x1F87, 0x1, -7126); (0x1F88, 0x1F88, 0x1, -7127);
  (0x1F89, 0x1F89, 0x1, -7128); (0x1F8A, 0x1F8A, 0x1, -7129); (0x1F8B, 0x1F8B, 0x1, -7130);
  (0x1F8C, 0x1F8C, 0x1, -7131); (0x1F8D, 0x1F8D, 0x1, -7132); (0x1F8E, 0x1F8E, 0x1, -7133);
  (0x1F8F, 0x1F8F, 0x1, -7134); (0x1F90, 0x1F90, 0x1, -7129); (0x1F91, 0x1F91, 0x1, -7130);
  (0x1F92, 0x1F92, 0x1, -7131); (0x1F93, 0x1F93, 0x1, -7132); (0x1F94, 0x1F94, 0x1, -7133);
  (0x1F95, 0x1F95, 0x1, -7134); (0x1F96, 0x1F96, 0x1, -7135); (0x1F97, 0x1F97, 0x1, -7136);
  (0x1F98, 0x1F98, 0x1, -7137); (0x1F99, 0x1F99, 0x1, -7138); (0x1F9A, 0x1F9A, 0x1, -7139);
  (0x1F9B, 0x1F9B, 0x1, -7140); (0x1F9C, 0x1F9C, 0x1, -7141); (0x1F9D, 0x1F9D, 0x1, -7142);
  (0x1F9E, 0x1F9E, 0x1, -7143); (0x1F9F, 0x1F9F, 0x1, -7144); (0x1FA0, 0x1FA0, 0x1, -7127);
  (0x1FA1, 0x1FA1, 0x1, -7128); (0x1FA2, 0x1FA2, 0x1, -7129); (0x1FA3, 0x1FA3, 0x1, -7130);
  (0x1FA4, 0x1FA4, 0x1, -7131); (0x1FA5, 0x1FA5, 0x1, -7132); (0x1FA6, 0x1FA6, 0x1, -7133);
  (0x1FA7, 0x1FA7, 0x1, -7134); (0x1FA8, 0x1FA8, 0x1, -7135); (0x1FA9, 0x1FA9, 0x1, -7136);
  (0x1FAA, 0x1FAA, 0x1, -7137); (0x1FAB, 0x1FAB, 0x1, -7138); (0x1FAC, 0x1FAC, 0x1, -7139);
  (0x1FAD, 0x1FAD, 0x1, -7140); (0x1FAE, 0x1FAE, 0x1, -7141); (0x1FAF, 0x1FAF, 0x1, -7142);
  (0x1FB0, 0x1FB0, 0x1, -7167); (0x1FB1, 0x1FB1, 0x1, -7168); (0x1FB2, 0x1FB2, 0x1, -7169);
  (0x1FB3, 0x1FB3, 0x1, -7170); (0x1FB4, 0x1FB4, 0x1, -7171); (0x1FB6, 0x1FB6, 0x1, -7173);
  (0x1FB7, 0x1FB7, 0x1, -7174); (0x1FB8, 0x1FB8, 0x1, -7175); (0x1FB9, 0x1FB9, 0x1, -7176);
  (0x1FBA, 0x1FBA, 0x1, -7177); (0x1FBB, 0x1FBB, 0x1, -7178); (0x1FBC, 0x1FBC, 0x1, -7179);
  (0x1FBD, 0x1FBD, 0x1, -8093); (0x1FBE, 0x1FBE, 0x1, -7173); (0x1FBF, 0x1FBF, 0x1, -8095);
  (0x1FC0, 0x1FC0, 0x1, -8096); (0x1FC1, 0x1FC1, 0x1, -8097); (0x1FC2, 0x1FC2, 0x1, -7179);
  (0x1FC3, 0x1FC3, 0x1, -7180); (0x1FC4, 0x1FC4, 0x1, -7181); (0x1FC6, 0x1FC6, 0x1, -7183);
  (0x1FC7, 0x1FC7, 0x1, -7184); (0x1FC8, 0x1FC8, 0x1, -7187); (0x1FC9, 0x1FC9, 0x1, -7188);
  (0x1FCA, 0x1FCA, 0x1, -7187); (0x1FCB, 0x1FCB, 0x1, -7188); (0x1FCC, 0x1FCC, 0x1, -7189);
  (0x1FCD, 0x1FCD, 0x1, -8109); (0x1FCE, 0x1FCE, 0x1, -8110); (0x1FCF, 0x1FCF, 0x1, -8111);
  (0x1FD0, 0x1FD0, 0x1, -7191); (0x1FD1, 0x1FD1, 0x1, -7192); (0x1FD2, 0x1FD2, 0x1, -7193);
  (0x1FD3, 0x1FD3, 0x1, -7194); (0x1FD6, 0x1FD6, 0x1, -7197); (0x1FD7, 0x1FD7, 0x1, -7198);
  (0x1FD8, 0x1FD8, 0x1, -7199); (0x1FD9, 0x1FD9, 0x1, -7200); (0x1FDA, 0x1FDA, 0x1, -7201);
  (0x1FDB, 0x1FDB, 0x1, -7202); (0x1FDD, 0x1FDD, 0x1, -8125); (0x1FDE, 0x1FDE, 0x1, -8126);
  (0x1FDF, 0x1FDF, 0x1, -8127); (0x1FE0, 0x1FE0, 0x1, -7195); (0x1FE1, 0x1FE1, 0x1, -7196);
  (0x1FE2, 0x1FE2, 0x1, -7197); (0x1FE3, 0x1FE3, 0x1, -7198); (0x1FE4, 0x1FE4, 0x1, -7203);
  (0x1FE5, 0x1FE5, 0x1, -7204); (0x1FE6, 0x1FE6, 0x1, -7201); (0x1FE7, 0x1FE7, 0x1, -7202);
  (0x1FE8, 0x1FE8, 0x1, -7203); (0x1FE9, 0x1FE9, 0x1, -7204); (0x1FEA, 0x1FEA, 0x1, -7205);
  (0x1FEB, 0x1FEB, 0x1, -7206); (0x1FEC, 0x1FEC, 0x1, -7211); (0x1FED, 0x1FED, 0x1, -8141);
  (0x1FEE, 0x1FEE, 0x1, -8142); (0x1FEF, 0x1FEF, 0x1, -8079); (0x1FF2, 0x1FF2, 0x1, -7209);
  (0x1FF3, 0x1FF3, 0x1, -7210); (0x1FF4, 0x1FF4, 0x1, -7211); (0x1FF6, 0x1FF6, 0x1, -7213);
  (0x1FF7, 0x1FF7, 0x1, -7214); (0x1FF8, 0x1FF8, 0x1, -7225); (0x1FF9, 0x1FF9, 0x1, -7226);
  (0x1FFA, 0x1FFA, 0x1, -7217); (0x1FFB, 0x1FFB, 0x1, -7218); (0x1FFC, 0x1FFC, 0x1, -7219);
  (0x1FFD, 0x1FFD, 0x1, -8157); (0x1FFE, 0x1FFE, 0x1, -8158); (0x2000, 0x2000, 0x1, -8160);
  (0x2001, 0x2001, 0x1, -8161); (0x2002, 0x2002, 0x1, -8162); (0x2003, 0x2003, 0x1, -8163);
  (0x2004, 0x2004, 0x1, -8164); (0x2005, 0x2005, 0x1, -8165); (0x2006, 0x2006, 0x1, -8166);
  (0x2007, 0x2007, 0x1, -8167); (0x2008, 0x2008, 0x1, -8168); (0x2009, 0x2009, 0x1, -8169);
  (0x200A, 0x200A, 0x1, -8170); (0x2011, 0x2011, 0x1, -1); (0x2017, 0x2017, 0x1, -8183);
  (0x2024, 0x2024, 0x1, -8182); (0x202F, 0x202F, 0x1, -8207); (0x203E, 0x203E, 0x1, -8222);
  (0x205F, 0x205F, 0x1, -8255); (0x2070, 0x2070, 0x1, -8256); (0x2071, 0x2071, 0x1, -8200);
  (0x2074, 0x2079, 0x1, -8256); (0x207A, 0x207A, 0x1, -8271); (0x207B, 0x207B, 0x1, 0x197);
  (0x207C, 0x207C, 0x1, -8255); (0x207D, 0x207E, 0x1, -8277); (0x207F, 0x207F, 0x1, -8209);
  (0x2080, 0x2089, 0x1, -8272); (0x208A, 0x208A, 0x1, -8287); (0x208B, 0x208B, 0x1, 0x187);
  (0x208C, 0x208C, 0x1, -8271); (0x208D, 0x208E, 0x1, -8293); (0x2090, 0x2090, 0x1, -8239);
  (0x2091, 0x2091, 0x1, -8236); (0x2092, 0x2092, 0x1, -8227); (0x2093, 0x2093, 0x1, -8219);
  (0x2094, 0x2094, 0x1, -7739); (0x2095, 0x2095, 0x1, -8237); (0x2096, 0x2099, 0x1, -8235);
  (0x209A, 0x209A, 0x1, -8234); (0x209B, 0x209C, 0x1, -8232); (0x2102, 0x2102, 0x1, -8351);
  (0x2107, 0x2107, 0x1, -7852); (0x210A, 0x210B, 0x1, -8355); (0x210C, 0x210C, 0x1, -8356);
  (0x210D, 0x210D, 0x1, -8357); (0x210E, 0x210E, 0x1, -8358); (0x210F, 0x210F, 0x1, -8168);
  (0x2110, 0x2110, 0x1, -8359); (0x2111, 0x2111, 0x1, -8360); (0x2112, 0x2112, 0x1, -8358);
  (0x2113, 0x2115, 0x2, -8359); (0x2119, 0x211B, 0x1, -8361); (0x211C, 0x211C, 0x1, -8362);
  (0x211D, 0x211D, 0x1, -8363); (0x2124, 0x2124, 0x1, -8362); (0x2126, 0x2126, 0x1, -7517);
  (0x2128, 0x2128, 0x1, -8366); (0x212A, 0x212A, 0x1, -8383); (0x212B, 0x212D, 0x1, -8394);
  (0x212F, 0x212F, 0x1, -8394); (0x2130, 0x2131, 0x1, -8395); (0x2132, 0x2132, 0x1, 0x1C);
  (0x2133, 0x2133, 0x1, -8390); (0x2134, 0x2134, 0x1, -8389); (0x2135, 0x2138, 0x1, -7013);
  (0x2139, 0x2139, 0x1, -8400); (0x213C, 0x213C, 0x1, -7548); (0x213D, 0x213D, 0x1, -7562);
  (0x213E, 0x213E, 0x1, -7563); (0x213F, 0x213F, 0x1, -7551); (0x2140, 0x2140, 0x1, 0xD1);
  (0x2145, 0x2145, 0x1, -8417); (0x2146, 0x2147, 0x1, -8418); (0x2148, 0x2149, 0x1, -8415);
  (0x2160, 0x2160, 0x1, -8439); (0x2164, 0x2164, 0x1, -8430); (0x2169, 0x2169, 0x1, -8433);
  (0x216C, 0x216C, 0x1, -8448); (0x216D, 0x216E, 0x1, -8458); (0x216F, 0x216F, 0x1, -8450);
  (0x2170, 0x2170, 0x1, -8455); (0x2174, 0x2174, 0x1, -8446); (0x2179, 0x2179, 0x1, -8449);
  (0x217C, 0x217C, 0x1, -8464); (0x217D, 0x217E, 0x1, -8474); (0x217F, 0x217F, 0x1, -8466);
  (0x2183, 0x2183, 0x1, 0x1); (0x219A, 0x219A, 0x1, -10); (0x219B, 0x219B, 0x1, -9);
  (0x21AE, 0x21AE, 0x1, -26); (0x21CD, 0x21CD, 0x1, 0x3); (0x21CE, 0x21CE, 0x1, 0x6);
  (0x21CF, 0x21CF, 0x1, 0x3); (0x2204, 0x2204, 0x1, -1); (0x2209, 0x2209, 0x1, -1);
  (0x220C, 0x220C, 0x1, -1); (0x2224, 0x2226, 0x2, -1); (0x2241, 0x2241, 0x1, -5);
  (0x2244, 0x2244, 0x1, -1); (0x2247, 0x2247, 0x1, -2); (0x2249, 0x2249, 0x1, -1);
  (0x2260, 0x2260, 0x1, -8739); (0x2262, 0x2262, 0x1, -1); (0x226D, 0x226D, 0x1, -32);
  (0x226E, 0x226E, 0x1, -8754); (0x226F, 0x226F, 0x1, -8753); (0x2270, 0x2271, 0x1, -12);
  (0x2274, 0x2275, 0x1, -2); (0x2278, 0x2279, 0x1, -2); (0x2280, 0x2281, 0x1, -6);
  (0x2284, 0x2285, 0x1, -2); (0x2288, 0x2289, 0x1, -2); (0x22AC, 0x22AC, 0x1, -10);
  (0x22AD, 0x22AE, 0x1, -5); (0x22AF, 0x22AF, 0x1, -4); (0x22E0, 0x22E1, 0x1, -100);
  (0x22E2, 0x22E3, 0x1, -81); (0x22EA, 0x22ED, 0x1, -56); (0x2329, 0x232A, 0x1, 0xCDF);
  (0x2460, 0x2468, 0x1, -9263); (0x24B6, 0x24CF, 0x1, -9301); (0x24D0, 0x24E9, 0x1, -9327);
  (0x24EA, 0x24EA, 0x1, -9402); (0x2ADC, 0x2ADC, 0x1, 0x1); (0x2C00, 0x2C2F, 0x1, 0x30);
  (0x2C60, 0x2C60, 0x1, 0x1); (0x2C62, 0x2C62, 0x1, -10743); (0x2C63, 0x2C63, 0x1, -3814);
  (0x2C64, 0x2C64, 0x1, -10727); (0x2C67, 0x2C6B, 0x2, 0x1); (0x2C6D, 0x2C6D, 0x1, -10780);
  (0x2C6E, 0x2C6E, 0x1, -10749); (0x2C6F, 0x2C6F, 0x1, -10783); (0x2C70, 0x2C70, 0x1, -10782);
  (0x2C72, 0x2C72, 0x1, 0x1); (0x2C75, 0x2C75, 0x1, 0x1); (0x2C7C, 0x2C7C, 0x1, -11282);
  (0x2C7D, 0x2C7D, 0x1, -11271); (0x2C7E, 0x2C7F, 0x1, -10815); (0x2C80, 0x2CE2, 0x2, 0x1);
  (0x2CEB, 0x2CED, 0x2, 0x1); (0x2CF2, 0x2CF2, 0x1, 0x1); (0x2D6F, 0x2D6F, 0x1, -14);
  (0x2E9F, 0x2E9F, 0x1, 0x3D2E); (0x2EF3, 0x2EF3, 0x1, 0x70AC); (0x2F00, 0x2F00, 0x1, 0x1F00);
  (0x2F01, 0x2F01, 0x1, 0x1F27); (0x2F02, 0x2F02, 0x1, 0x1F34); (0x2F03, 0x2F03, 0x1, 0x1F3C);
  (0x2F04, 0x2F04, 0x1, 0x1F55); (0x2F05, 0x2F05, 0x1, 0x1F80); (0x2F06, 0x2F06, 0x1, 0x1F86);
  (0x2F07, 0x2F07, 0x1, 0x1F99); (0x2F08, 0x2F08, 0x1, 0x1FB2); (0x2F09, 0x2F09, 0x1, 0x2236);
  (0x2F0A, 0x2F0A, 0x1, 0x225B); (0x2F0B, 0x2F0B, 0x1, 0x2260); (0x2F0C, 0x2F0C, 0x1, 0x2276);
  (0x2F0D, 0x2F0D, 0x1, 0x2289); (0x2F0E, 0x2F0E, 0x1, 0x229D); (0x2F0F, 0x2F0F, 0x1, 0x22D1);
  (0x2F10, 0x2F10, 0x1, 0x22E5); (0x2F11, 0x2F11, 0x1, 0x22EF); (0x2F12, 0x2F12, 0x1, 0x2389);
  (0x2F13, 0x2F13, 0x1, 0x23E6); (0x2F14, 0x2F14, 0x1, 0x2401); (0x2F15, 0x2F15, 0x1, 0x2405);
  (0x2F16, 0x2F16, 0x1, 0x2422); (0x2F17, 0x2F17, 0x1, 0x242A); (0x2F18, 0x2F18, 0x1, 0x2444);
  (0x2F19, 0x2F19, 0x1, 0x2450); (0x2F1A, 0x2F1A, 0x1, 0x2468); (0x2F1B, 0x2F1B, 0x1, 0x249B);
  (0x2F1C, 0x2F1C, 0x1, 0x24AC); (0x2F1D, 0x2F1D, 0x1, 0x24C6); (0x2F1E, 0x2F1E, 0x1, 0x27B9);
  (0x2F1F, 0x2F1F, 0x1, 0x2800); (0x2F20, 0x2F20, 0x1, 0x29CB); (0x2F21, 0x2F21, 0x1, 0x29E1);
  (0x2F22, 0x2F22, 0x1, 0x29E8); (0x2F23, 0x2F23, 0x1, 0x29F2); (0x2F24, 0x2F24, 0x1, 0x2A03);
  (0x2F25, 0x2F25, 0x1, 0x2A4E); (0x2F26, 0x2F26, 0x1, 0x2C2A); (0x2F27, 0x2F27, 0x1, 0x2C59);
  (0x2F28, 0x2F28, 0x1, 0x2CD0); (0x2F29, 0x2F29, 0x1, 0x2CE6); (0x2F2A, 0x2F2A, 0x1, 0x2CF8);
  (0x2F2B, 0x2F2B, 0x1, 0x2D0D); (0x2F2C, 0x2F2C, 0x1, 0x2D42); (0x2F2D, 0x2F2D, 0x1, 0x2D44);
  (0x2F2E, 0x2F2E, 0x1, 0x2EAD); (0x2F2F, 0x2F2F, 0x1, 0x2EB6); (0x2F30, 0x2F30, 0x1, 0x2EC1);
  (0x2F31, 0x2F31, 0x1, 0x2ECD); (0x2F32, 0x2F32, 0x1, 0x2F40); (0x2F33, 0x2F33, 0x1, 0x2F47);
  (0x2F34, 0x2F34, 0x1, 0x2F4B); (0x2F35, 0x2F35, 0x1, 0x2FBF); (0x2F36, 0x2F36, 0x1, 0x2FC8);
  (0x2F37, 0x2F37, 0x1, 0x2FD4); (0x2F38, 0x2F38, 0x1, 0x2FDB); (0x2F39, 0x2F39, 0x1, 0x3017);
  (0x2F3A, 0x2F3A, 0x1, 0x3027); (0x2F3B, 0x2F3B, 0x1, 0x3038); (0x2F3C, 0x2F3C, 0x1, 0x3087);
  (0x2F3D, 0x2F3D, 0x1, 0x32CB); (0x2F3E, 0x2F3E, 0x1, 0x32F8); (0x2F3F, 0x2F3F, 0x1, 0x330C);
  (0x2F40, 0x2F40, 0x1, 0x35EF); (0x2F41, 0x2F41, 0x1, 0x35F3); (0x2F42, 0x2F42, 0x1, 0x3645);
  (0x2F43, 0x2F43, 0x1, 0x3654); (0x2F44, 0x2F44, 0x1, 0x3660); (0x2F45, 0x2F45, 0x1, 0x3674);
  (0x2F46, 0x2F46, 0x1, 0x369A); (0x2F47, 0x2F47, 0x1, 0x369E); (0x2F48, 0x2F48, 0x1, 0x37A8);
  (0x2F49, 0x2F49, 0x1, 0x37BF); (0x2F4A, 0x2F4A, 0x1, 0x37DE); (0x2F4B, 0x2F4B, 0x1, 0x3BD5);
  (0x2F4C, 0x2F4C, 0x1, 0x3C16); (0x2F4D, 0x2F4D, 0x1, 0x3C2C); (0x2F4E, 0x2F4E, 0x1, 0x3C65);
  (0x2F4F, 0x2F4F, 0x1, 0x3C7C); (0x2F50, 0x2F50, 0x1, 0x3C84); (0x2F51, 0x2F51, 0x1, 0x3C8A);
  (0x2F52, 0x2F52, 0x1, 0x3CBD); (0x2F53, 0x2F53, 0x1, 0x3CC1); (0x2F54, 0x2F54, 0x1, 0x3CE0);
  (0x2F55, 0x2F55, 0x1, 0x4116); (0x2F56, 0x2F56, 0x1, 0x42D4); (0x2F57, 0x2F57, 0x1, 0x42DF);
  (0x2F58, 0x2F58, 0x1, 0x42E3); (0x2F59, 0x2F59, 0x1, 0x42E6); (0x2F5A, 0x2F5A, 0x1, 0x42ED);
  (0x2F5B, 0x2F5B, 0x1, 0x42FE); (0x2F5C, 0x2F5C, 0x1, 0x42FF); (0x2F5D, 0x2F5D, 0x1, 0x434F);
  (0x2F5E, 0x2F5E, 0x1, 0x4426); (0x2F5F, 0x2F5F, 0x1, 0x442A); (0x2F60, 0x2F60, 0x1, 0x457C);
  (0x2F61, 0x2F61, 0x1, 0x4585); (0x2F62, 0x2F62, 0x1, 0x45B6); (0x2F63, 0x2F63, 0x1, 0x45BC);
  (0x2F64, 0x2F64, 0x1, 0x45C4); (0x2F65, 0x2F65, 0x1, 0x45CB); (0x2F66, 0x2F66, 0x1, 0x4625);
  (0x2F67, 0x2F67, 0x1, 0x462B); (0x2F68, 0x2F68, 0x1, 0x470E); (0x2F69, 0x2F69, 0x1, 0x4714);
  (0x2F6A, 0x2F6A, 0x1, 0x4744); (0x2F6B, 0x2F6B, 0x1, 0x4754); (0x2F6C, 0x2F6C, 0x1, 0x4782);
  (0x2F6D, 0x2F6D, 0x1, 0x486E); (0x2F6E, 0x2F6E, 0x1, 0x4874); (0x2F6F, 0x2F6F, 0x1, 0x4884);
  (0x2F70, 0x2F70, 0x1, 0x49CA); (0x2F71, 0x2F71, 0x1, 0x4A47); (0x2F72, 0x2F72, 0x1, 0x4A4C);
  (0x2F73, 0x2F73, 0x1, 0x4B01); (0x2F74, 0x2F74, 0x1, 0x4B57); (0x2F75, 0x2F75, 0x1, 0x4B84);
  (0x2F76, 0x2F76, 0x1, 0x4CFD); (0x2F77, 0x2F77, 0x1, 0x4D81); (0x2F78, 0x2F78, 0x1, 0x4FBE);
  (0x2F79, 0x2F79, 0x1, 0x4FD8); (0x2F7A, 0x2F7A, 0x1, 0x5010); (0x2F7B, 0x2F7B, 0x1, 0x5042);
  (0x2F7C, 0x2F7C, 0x1, 0x5085); (0x2F7D, 0x2F7D, 0x1, 0x508F); (0x2F7E, 0x2F7E, 0x1, 0x5094);
  (0x2F7F, 0x2F7F, 0x1, 0x50B4); (0x2F80, 0x2F80, 0x1, 0x50FF); (0x2F81, 0x2F81, 0x1, 0x5108);
  (0x2F82, 0x2F82, 0x1, 0x5261); (0x2F83, 0x2F83, 0x1, 0x5267); (0x2F84, 0x2F84, 0x1, 0x526F);
  (0x2F85, 0x2F85, 0x1, 0x5277); (0x2F86, 0x2F86, 0x1, 0x5286); (0x2F87, 0x2F87, 0x1, 0x5294);
  (0x2F88, 0x2F88, 0x1, 0x5297); (0x2F89, 0x2F89, 0x1, 0x52E5); (0x2F8A, 0x2F8A, 0x1, 0x52E8);
  (0x2F8B, 0x2F8B, 0x1, 0x52ED); (0x2F8C, 0x2F8C, 0x1, 0x56C1); (0x2F8D, 0x2F8D, 0x1, 0x56DE);
  (0x2F8E, 0x2F8E, 0x1, 0x58B2); (0x2F8F, 0x2F8F, 0x1, 0x58BD); (0x2F90, 0x2F90, 0x1, 0x58D3);
  (0x2F91, 0x2F91, 0x1, 0x59ED); (0x2F92, 0x2F92, 0x1, 0x59F9); (0x2F93, 0x2F93, 0x1, 0x5A3F);
  (0x2F94, 0x2F94, 0x1, 0x5A6C); (0x2F95, 0x2F95, 0x1, 0x5CA2); (0x2F96, 0x2F96, 0x1, 0x5CB0);
  (0x2F97, 0x2F97, 0x1, 0x5CBE); (0x2F98, 0x2F98, 0x1, 0x5CE0); (0x2F99, 0x2F99, 0x1, 0x5D04);
  (0x2F9A, 0x2F9A, 0x1, 0x5DCA); (0x2F9B, 0x2F9B, 0x1, 0x5DD5); (0x2F9C, 0x2F9C, 0x1, 0x5E17);
  (0x2F9D, 0x2F9D, 0x1, 0x5F0E); (0x2F9E, 0x2F9E, 0x1, 0x5F2C); (0x2F9F, 0x2F9F, 0x1, 0x5FFC);
  (0x2FA0, 0x2FA0, 0x1, 0x6010); (0x2FA1, 0x2FA1, 0x1, 0x6014); (0x2FA2, 0x2FA2, 0x1, 0x60EF);
  (0x2FA3, 0x2FA3, 0x1, 0x61A6); (0x2FA4, 0x2FA4, 0x1, 0x6222); (0x2FA5, 0x2FA5, 0x1, 0x6227);
  (0x2FA6, 0x2FA6, 0x1, 0x622B); (0x2FA7, 0x2FA7, 0x1, 0x65D0); (0x2FA8, 0x2FA8, 0x1, 0x65D8);
  (0x2FA9, 0x2FA9, 0x1, 0x6673); (0x2FAA, 0x2FAA, 0x1, 0x670C); (0x2FAB, 0x2FAB, 0x1, 0x670E);
  (0x2FAC, 0x2FAC, 0x1, 0x673C); (0x2FAD, 0x2FAD, 0x1, 0x67A4); (0x2FAE, 0x2FAE, 0x1, 0x67B0);
  (0x2FAF, 0x2FAF, 0x1, 0x67B3); (0x2FB0, 0x2FB0, 0x1, 0x67B9); (0x2FB1, 0x2FB1, 0x1, 0x681A);
  (0x2FB2, 0x2FB2, 0x1, 0x683B); (0x2FB3, 0x2FB3, 0x1, 0x6840); (0x2FB4, 0x2FB4, 0x1, 0x684D);
  (0x2FB5, 0x2FB5, 0x1, 0x68F3); (0x2FB6, 0x2FB6, 0x1, 0x6925); (0x2FB7, 0x2FB7, 0x1, 0x6928);
  (0x2FB8, 0x2FB8, 0x1, 0x69DE); (0x2FB9, 0x2FB9, 0x1, 0x69E0); (0x2FBA, 0x2FBA, 0x1, 0x69F2);
  (0x2FBB, 0x2FBB, 0x1, 0x6AED); (0x2FBC, 0x2FBC, 0x1, 0x6B1C); (0x2FBD, 0x2FBD, 0x1, 0x6B22);
  (0x2FBE, 0x2FBE, 0x1, 0x6B67); (0x2FBF, 0x2FBF, 0x1, 0x6B70); (0x2FC0, 0x2FC0, 0x1, 0x6B72);
  (0x2FC1, 0x2FC1, 0x1, 0x6B7B); (0x2FC2, 0x2FC2, 0x1, 0x6B98); (0x2FC3, 0x2FC3, 0x1, 0x6D22);
  (0x2FC4, 0x2FC4, 0x1, 0x6EB1); (0x2FC5, 0x2FC5, 0x1, 0x6EBA); (0x2FC6, 0x2FC6, 0x1, 0x6EDF);
  (0x2FC7, 0x2FC7, 0x1, 0x6EF4); (0x2FC8, 0x2FC8, 0x1, 0x6EFB); (0x2FC9, 0x2FC9, 0x1, 0x6F04);
  (0x2FCA, 0x2FCA, 0x1, 0x6F07); (0x2FCB, 0x2FCB, 0x1, 0x6F2E); (0x2FCC, 0x2FCC, 0x1, 0x6F31);
  (0x2FCD, 0x2FCD, 0x1, 0x6F41); (0x2FCE, 0x2FCE, 0x1, 0x6F45); (0x2FCF, 0x2FCF, 0x1, 0x6F51);
  (0x2FD0, 0x2FD0, 0x1, 0x6F6B); (0x2FD1, 0x2FD1, 0x1, 0x6F79); (0x2FD2, 0x2FD2, 0x1, 0x6F80);
  (0x2FD3, 0x2FD3, 0x1, 0x6FBA); (0x2FD4, 0x2FD4, 0x1, 0x6FC8); (0x2FD5, 0x2FD5, 0x1, 0x6FCB);
  (0x3000, 0x3000, 0x1, -12256); (0x3036, 0x3036, 0x1, -36); (0x3038, 0x3038, 0x1, 0x2309);
  (0x3039, 0x303A, 0x1, 0x230B); (0x304C, 0x3062, 0x2, -1); (0x3065, 0x3069, 0x2, -1);
  (0x3070, 0x3070, 0x1, -1); (0x3071, 0x3071, 0x1, -2); (0x3073, 0x3073, 0x1, -1);
  (0x3074, 0x3074, 0x1, -2); (0x3076, 0x3076, 0x1, -1); (0x3077, 0x3077, 0x1, -2);
  (0x3079, 0x3079, 0x1, -1); (0x307A, 0x307A, 0x1, -2); (0x307C, 0x307C, 0x1, -1);
  (0x307D, 0x307D, 0x1, -2); (0x3094, 0x3094, 0x1, -78); (0x309B, 0x309B, 0x1, -12411);
  (0x309C, 0x309C, 0x1, -12412); (0x309E, 0x309E, 0x1, -1); (0x30AC, 0x30C2, 0x2, -1);
  (0x30C5, 0x30C9, 0x2, -1); (0x30D0, 0x30D0, 0x1, -1); (0x30D1, 0x30D1, 0x1, -2);
  (0x30D3, 0x30D3, 0x1, -1); (0x30D4, 0x30D4, 0x1, -2); (0x30D6, 0x30D6, 0x1, -1);
  (0x30D7, 0x30D7, 0x1, -2); (0x30D9, 0x30D9, 0x1, -1); (0x30DA, 0x30DA, 0x1, -2);
  (0x30DC, 0x30DC, 0x1, -1); (0x30DD, 0x30DD, 0x1, -2); (0x30F4, 0x30F4, 0x1, -78);
  (0x30F7, 0x30FA, 0x1, -8); (0x30FE, 0x30FE, 0x1, -1); (0x3131, 0x3132, 0x1, -8241);
  (0x3133, 0x3133, 0x1, -8073); (0x3134, 0x3134, 0x1, -8242); (0x3135, 0x3136, 0x1, -8073);
  (0x3137, 0x3139, 0x1, -8244); (0x313A, 0x313F, 0x1, -8074); (0x3140, 0x3140, 0x1, -8230);
  (0x3141, 0x3143, 0x1, -8251); (0x3144, 0x3144, 0x1, -8227); (0x3145, 0x314E, 0x1, -8252);
  (0x314F, 0x3163, 0x1, -8174); (0x3164, 0x3164, 0x1, -8196); (0x3165, 0x3166, 0x1, -8273);
  (0x3167, 0x3168, 0x1, -8096); (0x3169, 0x3169, 0x1, -8093); (0x316A, 0x316A, 0x1, -8092);
  (0x316B, 0x316B, 0x1, -8088); (0x316C, 0x316C, 0x1, -8085); (0x316D, 0x316D, 0x1, -8084);
  (0x316E, 0x316E, 0x1, -8274); (0x316F, 0x316F, 0x1, -8082); (0x3170, 0x3170, 0x1, -8081);
  (0x3171, 0x3172, 0x1, -8276); (0x3173, 0x3173, 0x1, -8275); (0x3174, 0x3175, 0x1, -8274);
  (0x3176, 0x3176, 0x1, -8271); (0x3177, 0x3177, 0x1, -8270); (0x3178, 0x317C, 0x1, -8269);
  (0x317D, 0x317D, 0x1, -8267); (0x317E, 0x317E, 0x1, -8264); (0x317F, 0x317F, 0x1, -8255);
  (0x3180, 0x3180, 0x1, -8249); (0x3181, 0x3181, 0x1, -8245); (0x3182, 0x3183, 0x1, -8081);
  (0x3184, 0x3186, 0x1, -8237); (0x3187, 0x3188, 0x1, -8195); (0x3189, 0x3189, 0x1, -8193);
  (0x318A, 0x318B, 0x1, -8185); (0x318C, 0x318C, 0x1, -8184); (0x318D, 0x318D, 0x1, -8175);
  (0x318E, 0x318E, 0x1, -8173); (0x3192, 0x3192, 0x1, 0x1C6E); (0x3193, 0x3193, 0x1, 0x1CF9);
  (0x3194, 0x3194, 0x1, 0x1C75); (0x3195, 0x3195, 0x1, 0x2546); (0x3196, 0x3196, 0x1, 0x1C74);
  (0x3197, 0x3197, 0x1, 0x1C96); (0x3198, 0x3198, 0x1, 0x1C73); (0x3199, 0x3199, 0x1, 0x4399);
  (0x319A, 0x319A, 0x1, 0x1CBF); (0x319B, 0x319B, 0x1, 0x1C7E); (0x319C, 0x319C, 0x1, 0x1C65);
  (0x319D, 0x319D, 0x1, 0x278C); (0x319E, 0x319E, 0x1, 0x2592); (0x319F, 0x319F, 0x1, 0x1D1B);
  (0x3244, 0x3244, 0x1, 0x230B); (0x3245, 0x3245, 0x1, 0x2C37); (0x3246, 0x3246, 0x1, 0x3341);
  (0x3247, 0x3247, 0x1, 0x4948); (0x3260, 0x3260, 0x1, -8544); (0x3261, 0x3262, 0x1, -8543);
  (0x3263, 0x3265, 0x1, -8542); (0x3266, 0x3266, 0x1, -8541); (0x3267, 0x3268, 0x1, -8540);
  (0x3269, 0x326D, 0x1, -8539); (0x3280, 0x3280, 0x1, 0x1B80); (0x3281, 0x3281, 0x1, 0x1C0B);
  (0x3282, 0x3282, 0x1, 0x1B87); (0x3283, 0x3283, 0x1, 0x2458); (0x3284, 0x3284, 0x1, 0x1C10);
  (0x3285, 0x3285, 0x1, 0x1EE8); (0x3286, 0x3286, 0x1, 0x1B7D); (0x3287, 0x3287, 0x1, 0x1EE4);
  (0x3288, 0x3288, 0x1, 0x1BD5); (0x3289, 0x3289, 0x1, 0x20B8); (0x328A, 0x328A, 0x1, 0x347E);
  (0x328B, 0x328B, 0x1, 0x3DE0); (0x328C, 0x328C, 0x1, 0x39A8); (0x328D, 0x328D, 0x1, 0x349B);
  (0x328E, 0x328E, 0x1, 0x5F43); (0x328F, 0x328F, 0x1, 0x2490); (0x3290, 0x3290, 0x1, 0x3355);
  (0x3291, 0x3291, 0x1, 0x3599); (0x3292, 0x3292, 0x1, 0x3477); (0x3293, 0x3293, 0x1, 0x46AB);
  (0x3294, 0x3294, 0x1, 0x2179); (0x3295, 0x3295, 0x1, 0x3FE4); (0x3296, 0x3296, 0x1, 0x5A0B);
  (0x3297, 0x3297, 0x1, 0x46C6); (0x3298, 0x3298, 0x1, 0x201C); (0x3299, 0x3299, 0x1, 0x473F);
  (0x329A, 0x329A, 0x1, 0x429D); (0x329B, 0x329B, 0x1, 0x26D8); (0x329C, 0x329C, 0x1, 0x5DCD);
  (0x329D, 0x329D, 0x1, 0x1E8D); (0x329E, 0x329E, 0x1, 0x20D2); (0x329F, 0x329F, 0x1, 0x3A49);
  (0x32A0, 0x32A0, 0x1, 0x6565); (0x32A1, 0x32A1, 0x1, 0x1C70); (0x32A2, 0x32A2, 0x1, 0x1EF7);
  (0x32A3, 0x32A3, 0x1, 0x38C0); (0x32A4, 0x32A4, 0x1, 0x1B66); (0x32A5, 0x32A5, 0x1, 0x1B88);
  (0x32A6, 0x32A6, 0x1, 0x1B65); (0x32A7, 0x32A7, 0x1, 0x2B3F); (0x32A8, 0x32A8, 0x1, 0x214B);
  (0x32A9, 0x32A9, 0x1, 0x2092); (0x32AA, 0x32AA, 0x1, 0x28ED); (0x32AB, 0x32AB, 0x1, 0x28BB);
  (0x32AC, 0x32AC, 0x1, 0x4437); (0x32AD, 0x32AD, 0x1, 0x1C54); (0x32AE, 0x32AE, 0x1, 0x5A19);
  (0x32AF, 0x32AF, 0x1, 0x20A5); (0x32B0, 0x32B0, 0x1, 0x266C); (0x32D0, 0x32D0, 0x1, -558);
  (0x32D1, 0x32D1, 0x1, -557); (0x32D2, 0x32D2, 0x1, -556); (0x32D3, 0x32D3, 0x1, -555);
  (0x32D4, 0x32D5, 0x1, -554); (0x32D6, 0x32D6, 0x1, -553); (0x32D7, 0x32D7, 0x1, -552);
  (0x32D8, 0x32D8, 0x1, -551); (0x32D9, 0x32D9, 0x1, -550); (0x32DA, 0x32DA, 0x1, -549);
  (0x32DB, 0x32DB, 0x1, -548); (0x32DC, 0x32DC, 0x1, -547); (0x32DD, 0x32DD, 0x1, -546);
  (0x32DE, 0x32DE, 0x1, -545); (0x32DF, 0x32DF, 0x1, -544); (0x32E0, 0x32E0, 0x1, -543);
  (0x32E1, 0x32E1, 0x1, -541); (0x32E2, 0x32E2, 0x1, -540); (0x32E3, 0x32E3, 0x1, -539);
  (0x32E4, 0x32E9, 0x1, -538); (0x32EA, 0x32EA, 0x1, -536); (0x32EB, 0x32EB, 0x1, -534);
  (0x32EC, 0x32EC, 0x1, -532); (0x32ED, 0x32ED, 0x1, -530); (0x32EE, 0x32F2, 0x1, -528);
  (0x32F3, 0x32F3, 0x1, -527); (0x32F4, 0x32F4, 0x1, -526); (0x32F5, 0x32FA, 0x1, -525);
  (0x32FB, 0x32FE, 0x1, -524); (0xA640, 0xA66C, 0x2, 0x1); (0xA680, 0xA69A, 0x2, 0x1);
  (0xA69C, 0xA69C, 0x1, -41554); (0xA69D, 0xA69D, 0x1, -41553); (0xA722, 0xA72E, 0x2, 0x1);
  (0xA732, 0xA76E, 0x2, 0x1); (0xA770, 0xA770, 0x1, -1); (0xA779, 0xA77B, 0x2, 0x1);
  (0xA77D, 0xA77D, 0x1, -35332); (0xA77E, 0xA786, 0x2, 0x1); (0xA78B, 0xA78B, 0x1, 0x1);
  (0xA78D, 0xA78D, 0x1, -42280); (0xA790, 0xA792, 0x2, 0x1); (0xA796, 0xA7A8, 0x2, 0x1);
  (0xA7AA, 0xA7AA, 0x1, -42308); (0xA7AB, 0xA7AB, 0x1, -42319); (0xA7AC, 0xA7AC, 0x1, -42315);
  (0xA7AD, 0xA7AD, 0x1, -42305); (0xA7AE, 0xA7AE, 0x1, -42308); (0xA7B0, 0xA7B0, 0x1, -42258);
  (0xA7B1, 0xA7B1, 0x1, -42282); (0xA7B2, 0xA7B2, 0x1, -42261); (0xA7B3, 0xA7B3, 0x1, 0x3A0);
  (0xA7B4, 0xA7C2, 0x2, 0x1); (0xA7C4, 0xA7C4, 0x1, -48); (0xA7C5, 0xA7C5, 0x1, -42307);
  (0xA7C6, 0xA7C6, 0x1, -35384); (0xA7C7, 0xA7C9, 0x2, 0x1); (0xA7CB, 0xA7CB, 0x1, -42343);
  (0xA7CC, 0xA7DA, 0x2, 0x1); (0xA7DC, 0xA7DC, 0x1, -42561); (0xA7F5, 0xA7F5, 0x1, 0x1);
  (0xA7F8, 0xA7F8, 0x1, -42705); (0xA7F9, 0xA7F9, 0x1, -42662); (0xAB5C, 0xAB5C, 0x1, -1077);
  (0xAB5D, 0xAB5D, 0x1, -38); (0xAB5E, 0xAB5E, 0x1, -43251); (0xAB5F, 0xAB5F, 0x1, -13);
  (0xF900, 0xF900, 0x1, -27832); (0xF901, 0xF901, 0x1, -37389); (0xF902, 0xF902, 0x1, -27192);
  (0xF903, 0xF903, 0x1, -27707); (0xF904, 0xF904, 0x1, -35379); (0xF905, 0xF905, 0x1, -43731);
  (0xF906, 0xF906, 0x1, -42273); (0xF907, 0xF907, 0x1, -22891); (0xF908, 0xF908, 0x1, -22892);
  (0xF909, 0xF909, 0x1, -40888); (0xF90A, 0xF90A, 0x1, -26425); (0xF90B, 0xF90B, 0x1, -41860);
  (0xF90C, 0xF90C, 0x1, -40900); (0xF90D, 0xF90D, 0x1, -38679); (0xF90E, 0xF90E, 0x1, -33445);
  (0xF90F, 0xF90F, 0x1, -31114); (0xF910, 0xF910, 0x1, -29393); (0xF911, 0xF911, 0x1, -29015);
  (0xF912, 0xF912, 0x1, -28698); (0xF913, 0xF913, 0x1, -26756); (0xF914, 0xF914, 0x1, -36626);
  (0xF915, 0xF915, 0x1, -35834); (0xF916, 0xF916, 0x1, -34877); (0xF917, 0xF917, 0x1, -34105);
  (0xF918, 0xF918, 0x1, -29915); (0xF919, 0xF919, 0x1, -26543); (0xF91A, 0xF91A, 0x1, -24361);
  (0xF91B, 0xF91B, 0x1, -43673); (0xF91C, 0xF91C, 0x1, -42407); (0xF91D, 0xF91D, 0x1, -36377);
  (0xF91E, 0xF91E, 0x1, -34563); (0xF91F, 0xF91F, 0x1, -29426); (0xF920, 0xF920, 0x1, -23298);
  (0xF921, 0xF921, 0x1, -39889); (0xF922, 0xF922, 0x1, -35127); (0xF923, 0xF923, 0x1, -29526);
  (0xF924, 0xF924, 0x1, -28608); (0xF925, 0xF925, 0x1, -38492); (0xF926, 0xF926, 0x1, -30542);
  (0xF927, 0xF927, 0x1, -28936); (0xF928, 0xF928, 0x1, -39518); (0xF929, 0xF929, 0x1, -37394);
  (0xF92A, 0xF92A, 0x1, -35776); (0xF92B, 0xF92B, 0x1, -34351); (0xF92C, 0xF92C, 0x1, -26718);
  (0xF92D, 0xF92D, 0x1, -43431); (0xF92E, 0xF92E, 0x1, -42871); (0xF92F, 0xF92F, 0x1, -42577);
  (0xF930, 0xF930, 0x1, -37996); (0xF931, 0xF931, 0x1, -36446); (0xF932, 0xF932, 0x1, -34594);
  (0xF933, 0xF933, 0x1, -33356); (0xF934, 0xF934, 0x1, -31027); (0xF935, 0xF935, 0x1, -29487);
  (0xF936, 0xF936, 0x1, -29402); (0xF937, 0xF937, 0x1, -27464); (0xF938, 0xF938, 0x1, -25094);
  (0xF939, 0xF939, 0x1, -24010); (0xF93A, 0xF93A, 0x1, -23360); (0xF93B, 0xF93B, 0x1, -32943);
  (0xF93C, 0xF93C, 0x1, -32701); (0xF93D, 0xF93D, 0x1, -31645); (0xF93E, 0xF93E, 0x1, -30069);
  (0xF93F, 0xF93F, 0x1, -26171); (0xF940, 0xF940, 0x1, -23233); (0xF941, 0xF941, 0x1, -28267);
  (0xF942, 0xF942, 0x1, -41059); (0xF943, 0xF943, 0x1, -39487); (0xF944, 0xF944, 0x1, -31972);
  (0xF945, 0xF945, 0x1, -30919); (0xF946, 0xF946, 0x1, -34532); (0xF947, 0xF947, 0x1, -32893);
  (0xF948, 0xF948, 0x1, -27782); (0xF949, 0xF949, 0x1, -25170); (0xF94A, 0xF94A, 0x1, -41074);
  (0xF94B, 0xF94B, 0x1, -40169); (0xF94C, 0xF94C, 0x1, -36665); (0xF94D, 0xF94D, 0x1, -35699);
  (0xF94E, 0xF94E, 0x1, -35391); (0xF94F, 0xF94F, 0x1, -31776); (0xF950, 0xF950, 0x1, -31513);
  (0xF951, 0xF951, 0x1, -25350); (0xF952, 0xF952, 0x1, -42624); (0xF953, 0xF953, 0x1, -30920);
  (0xF954, 0xF954, 0x1, -42872); (0xF955, 0xF955, 0x1, -42889); (0xF956, 0xF956, 0x1, -32570);
  (0xF957, 0xF957, 0x1, -31641); (0xF958, 0xF958, 0x1, -30055); (0xF959, 0xF959, 0x1, -25316);
  (0xF95A, 0xF95A, 0x1, -28122); (0xF95B, 0xF95B, 0x1, -38540); (0xF95C, 0xF95C, 0x1, -36698);
  (0xF95D, 0xF95D, 0x1, -28255); (0xF95E, 0xF95E, 0x1, -43813); (0xF95F, 0xF95F, 0x1, -40312);
  (0xF960, 0xF960, 0x1, -39246); (0xF961, 0xF961, 0x1, -34266); (0xF962, 0xF962, 0x1, -33778);
  (0xF963, 0xF963, 0x1, -42572); (0xF964, 0xF964, 0x1, -32873); (0xF965, 0xF965, 0x1, -43430);
  (0xF966, 0xF966, 0x1, -39357); (0xF967, 0xF967, 0x1, -43866); (0xF968, 0xF968, 0x1, -35996);
  (0xF969, 0xF969, 0x1, -37873); (0xF96A, 0xF96A, 0x1, -31816); (0xF96B, 0xF96B, 0x1, -42408);
  (0xF96C, 0xF96C, 0x1, -41230); (0xF96D, 0xF96D, 0x1, -33388); (0xF96E, 0xF96E, 0x1, -29989);
  (0xF96F, 0xF96F, 0x1, -28357); (0xF970, 0xF970, 0x1, -36278); (0xF971, 0xF971, 0x1, -27073);
  (0xF972, 0xF972, 0x1, -36074); (0xF973, 0xF973, 0x1, -38517); (0xF974, 0xF974, 0x1, -30351);
  (0xF975, 0xF975, 0x1, -38357); (0xF976, 0xF976, 0x1, -33809); (0xF977, 0xF977, 0x1, -43721);
  (0xF978, 0xF978, 0x1, -43023); (0xF979, 0xF979, 0x1, -42928); (0xF97A, 0xF97A, 0x1, -37113);
  (0xF97B, 0xF97B, 0x1, -31892); (0xF97C, 0xF97C, 0x1, -30477); (0xF97D, 0xF97D, 0x1, -28331);
  (0xF97E, 0xF97E, 0x1, -26543); (0xF97F, 0xF97F, 0x1, -42634); (0xF980, 0xF980, 0x1, -42302);
  (0xF981, 0xF981, 0x1, -40974); (0xF982, 0xF982, 0x1, -39574); (0xF983, 0xF983, 0x1, -37822);
  (0xF984, 0xF984, 0x1, -35206); (0xF985, 0xF985, 0x1, -32859); (0xF986, 0xF986, 0x1, -25561);
  (0xF987, 0xF987, 0x1, -24349); (0xF988, 0xF988, 0x1, -23281); (0xF989, 0xF989, 0x1, -23227);
  (0xF98A, 0xF98A, 0x1, -42735); (0xF98B, 0xF98B, 0x1, -37573); (0xF98C, 0xF98C, 0x1, -36373);
  (0xF98D, 0xF98D, 0x1, -27179); (0xF98E, 0xF98E, 0x1, -39706); (0xF98F, 0xF98F, 0x1, -38911);
  (0xF990, 0xF990, 0x1, -38800); (0xF991, 0xF991, 0x1, -38135); (0xF992, 0xF992, 0x1, -35439);
  (0xF993, 0xF993, 0x1, -34890); (0xF994, 0xF994, 0x1, -34059); (0xF995, 0xF995, 0x1, -32715);
  (0xF996, 0xF996, 0x1, -31650); (0xF997, 0xF997, 0x1, -31016); (0xF998, 0xF998, 0x1, -27250);
  (0xF999, 0xF999, 0x1, -29867); (0xF99A, 0xF99A, 0x1, -26999); (0xF99B, 0xF99B, 0x1, -26193);
  (0xF99C, 0xF99C, 0x1, -42885); (0xF99D, 0xF99D, 0x1, -42746); (0xF99E, 0xF99E, 0x1, -42209);
  (0xF99F, 0xF99F, 0x1, -35031); (0xF9A0, 0xF9A0, 0x1, -28894); (0xF9A1, 0xF9A1, 0x1, -28407);
  (0xF9A2, 0xF9A2, 0x1, -39641); (0xF9A3, 0xF9A3, 0x1, -39342); (0xF9A4, 0xF9A4, 0x1, -38441);
  (0xF9A5, 0xF9A5, 0x1, -36343); (0xF9A6, 0xF9A6, 0x1, -32104); (0xF9A7, 0xF9A7, 0x1, -34354);
  (0xF9A8, 0xF9A8, 0x1, -43716); (0xF9A9, 0xF9A9, 0x1, -41648); (0xF9AA, 0xF9AA, 0x1, -40387);
  (0xF9AB, 0xF9AB, 0x1, -39921); (0xF9AC, 0xF9AC, 0x1, -39312); (0xF9AD, 0xF9AD, 0x1, -34299);
  (0xF9AE, 0xF9AE, 0x1, -34117); (0xF9AF, 0xF9AF, 0x1, -31253); (0xF9B0, 0xF9B0, 0x1, -31082);
  (0xF9B1, 0xF9B1, 0x1, -26493); (0xF9B2, 0xF9B2, 0x1, -25276); (0xF9B3, 0xF9B3, 0x1, -25195);
  (0xF9B4, 0xF9B4, 0x1, -24988); (0xF9B5, 0xF9B5, 0x1, -43562); (0xF9B6, 0xF9B6, 0x1, -32776);
  (0xF9B7, 0xF9B7, 0x1, -26627); (0xF9B8, 0xF9B8, 0x1, -25344); (0xF9B9, 0xF9B9, 0x1, -39128);
  (0xF9BA, 0xF9BA, 0x1, -43828); (0xF9BB, 0xF9BB, 0x1, -43233); (0xF9BC, 0xF9BC, 0x1, -40398);
  (0xF9BD, 0xF9BD, 0x1, -40318); (0xF9BE, 0xF9BE, 0x1, -37925); (0xF9BF, 0xF9BF, 0x1, -36797);
  (0xF9C0, 0xF9C0, 0x1, -34802); (0xF9C1, 0xF9C1, 0x1, -33663); (0xF9C2, 0xF9C2, 0x1, -29894);
  (0xF9C3, 0xF9C3, 0x1, -26951); (0xF9C4, 0xF9C4, 0x1, -23095); (0xF9C5, 0xF9C5, 0x1, -37693);
  (0xF9C6, 0xF9C6, 0x1, -25496); (0xF9C7, 0xF9C7, 0x1, -42814); (0xF9C8, 0xF9C8, 0x1, -37453);
  (0xF9C9, 0xF9C9, 0x1, -37334); (0xF9CA, 0xF9CA, 0x1, -35977); (0xF9CB, 0xF9CB, 0x1, -35631);
  (0xF9CC, 0xF9CC, 0x1, -34243); (0xF9CD, 0xF9CD, 0x1, -33908); (0xF9CE, 0xF9CE, 0x1, -33123);
  (0xF9CF, 0xF9CF, 0x1, -31935); (0xF9D0, 0xF9D0, 0x1, -24946); (0xF9D1, 0xF9D1, 0x1, -43108);
  (0xF9D2, 0xF9D2, 0x1, -38820); (0xF9D3, 0xF9D3, 0x1, -25435); (0xF9D4, 0xF9D4, 0x1, -43433);
  (0xF9D5, 0xF9D5, 0x1, -40124); (0xF9D6, 0xF9D6, 0x1, -35820); (0xF9D7, 0xF9D7, 0x1, -27309);
  (0xF9D8, 0xF9D8, 0x1, -39501); (0xF9D9, 0xF9D9, 0x1, -39061); (0xF9DA, 0xF9DA, 0x1, -37315);
  (0xF9DB, 0xF9DB, 0x1, -34388); (0xF9DC, 0xF9DC, 0x1, -25430); (0xF9DD, 0xF9DD, 0x1, -42932);
  (0xF9DE, 0xF9DE, 0x1, -42447); (0xF9DF, 0xF9DF, 0x1, -40314); (0xF9E0, 0xF9E0, 0x1, -37837);
  (0xF9E1, 0xF9E1, 0x1, -37523); (0xF9E2, 0xF9E2, 0x1, -37178); (0xF9E3, 0xF9E3, 0x1, -36094);
  (0xF9E4, 0xF9E4, 0x1, -34270); (0xF9E5, 0xF9E5, 0x1, -33795); (0xF9E6, 0xF9E6, 0x1, -31341);
  (0xF9E7, 0xF9E7, 0x1, -28952); (0xF9E8, 0xF9E8, 0x1, -28935); (0xF9E9, 0xF9E9, 0x1, -26653);
  (0xF9EA, 0xF9EA, 0x1, -25352); (0xF9EB, 0xF9EB, 0x1, -42668); (0xF9EC, 0xF9EC, 0x1, -35634);
  (0xF9ED, 0xF9ED, 0x1, -42448); (0xF9EE, 0xF9EE, 0x1, -34846); (0xF9EF, 0xF9EF, 0x1, -34135);
  (0xF9F0, 0xF9F0, 0x1, -29686); (0xF9F1, 0xF9F1, 0x1, -25422); (0xF9F2, 0xF9F2, 0x1, -23963);
  (0xF9F3, 0xF9F3, 0x1, -23380); (0xF9F4, 0xF9F4, 0x1, -37469); (0xF9F5, 0xF9F5, 0x1, -35882);
  (0xF9F6, 0xF9F6, 0x1, -30734); (0xF9F7, 0xF9F7, 0x1, -32556); (0xF9F8, 0xF9F8, 0x1, -32472);
  (0xF9F9, 0xF9F9, 0x1, -32103); (0xF9FA, 0xF9FA, 0x1, -34618); (0xF9FB, 0xF9FB, 0x1, -35170);
  (0xF9FC, 0xF9FC, 0x1, -28324); (0xF9FD, 0xF9FD, 0x1, -43837); (0xF9FE, 0xF9FE, 0x1, -30408);
  (0xF9FF, 0xF9FF, 0x1, -42949); (0xFA00, 0xFA00, 0x1, -43001); (0xFA01, 0xFA01, 0x1, -39771);
  (0xFA02, 0xFA02, 0x1, -38703); (0xFA03, 0xFA03, 0x1, -32045); (0xFA04, 0xFA04, 0x1, -40575);
  (0xFA05, 0xFA05, 0x1, -36071); (0xFA06, 0xFA06, 0x1, -37714); (0xFA07, 0xFA07, 0x1, -27340);
  (0xFA08, 0xFA08, 0x1, -29116); (0xFA09, 0xFA09, 0x1, -25532); (0xFA0A, 0xFA0A, 0x1, -28799);
  (0xFA0B, 0xFA0B, 0x1, -39736); (0xFA0C, 0xFA0C, 0x1, -43212); (0xFA0D, 0xFA0D, 0x1, -42061);
  (0xFA10, 0xFA10, 0x1, -41398); (0xFA12, 0xFA12, 0x1, -37790); (0xFA15, 0xFA15, 0x1, -43063);
  (0xFA16, 0xFA16, 0x1, -34540); (0xFA17, 0xFA17, 0x1, -33613); (0xFA18, 0xFA18, 0x1, -32988);
  (0xFA19, 0xFA19, 0x1, -32955); (0xFA1A, 0xFA1A, 0x1, -32949); (0xFA1B, 0xFA1B, 0x1, -32908);
  (0xFA1C, 0xFA1C, 0x1, -25286); (0xFA1D, 0xFA1D, 0x1, -32095); (0xFA1E, 0xFA1E, 0x1, -31329);
  (0xFA20, 0xFA20, 0x1, -29710); (0xFA22, 0xFA22, 0x1, -28458); (0xFA25, 0xFA25, 0x1, -27117);
  (0xFA26, 0xFA26, 0x1, -26921); (0xFA2A, 0xFA2A, 0x1, -24891); (0xFA2B, 0xFA2B, 0x1, -24879);
  (0xFA2C, 0xFA2C, 0x1, -24836); (0xFA2D, 0xFA2D, 0x1, -23673); (0xFA2E, 0xFA2E, 0x1, -26960);
  (0xFA2F, 0xFA2F, 0x1, -25464); (0xFA30, 0xFA30, 0x1, -43650); (0xFA31, 0xFA31, 0x1, -43338);
  (0xFA32, 0xFA32, 0x1, -43237); (0xFA33, 0xFA33, 0x1, -42858); (0xFA34, 0xFA34, 0x1, -42832);
  (0xFA35, 0xFA35, 0x1, -42724); (0xFA36, 0xFA36, 0x1, -42137); (0xFA37, 0xFA37, 0x1, -42033);
  (0xFA38, 0xFA38, 0x1, -41936); (0xFA39, 0xFA39, 0x1, -41465); (0xFA3A, 0xFA3A, 0x1, -41362);
  (0xFA3B, 0xFA3B, 0x1, -40407); (0xFA3C, 0xFA3C, 0x1, -40398); (0xFA3D, 0xFA3D, 0x1, -39337);
  (0xFA3E, 0xFA3E, 0x1, -39126); (0xFA3F, 0xFA3F, 0x1, -39089); (0xFA40, 0xFA40, 0x1, -38990);
  (0xFA41, 0xFA41, 0x1, -38130); (0xFA42, 0xFA42, 0x1, -37984); (0xFA43, 0xFA43, 0x1, -37810);
  (0xFA44, 0xFA44, 0x1, -37311); (0xFA45, 0xFA45, 0x1, -36046); (0xFA46, 0xFA46, 0x1, -35884);
  (0xFA47, 0xFA47, 0x1, -35621); (0xFA48, 0xFA48, 0x1, -35034); (0xFA49, 0xFA49, 0x1, -34846);
  (0xFA4A, 0xFA4A, 0x1, -34344); (0xFA4B, 0xFA4B, 0x1, -33210); (0xFA4C, 0xFA4C, 0x1, -33038);
  (0xFA4D, 0xFA4D, 0x1, -33028); (0xFA4E, 0xFA4E, 0x1, -33030); (0xFA4F, 0xFA4F, 0x1, -33023);
  (0xFA50, 0xFA50, 0x1, -33018); (0xFA51, 0xFA51, 0x1, -33012); (0xFA52, 0xFA53, 0x1, -32965);
  (0xFA54, 0xFA54, 0x1, -32788); (0xFA55, 0xFA55, 0x1, -32724); (0xFA56, 0xFA56, 0x1, -32406);
  (0xFA57, 0xFA57, 0x1, -31843); (0xFA58, 0xFA58, 0x1, -31823); (0xFA59, 0xFA59, 0x1, -31768);
  (0xFA5A, 0xFA5A, 0x1, -31464); (0xFA5B, 0xFA5B, 0x1, -31318); (0xFA5C, 0xFA5C, 0x1, -30831);
  (0xFA5D, 0xFA5D, 0x1, -30692); (0xFA5E, 0xFA5E, 0x1, -30693); (0xFA5F, 0xFA5F, 0x1, -30216);
  (0xFA60, 0xFA60, 0x1, -29008); (0xFA61, 0xFA61, 0x1, -28875); (0xFA62, 0xFA62, 0x1, -28513);
  (0xFA63, 0xFA63, 0x1, -28458); (0xFA64, 0xFA64, 0x1, -28049); (0xFA65, 0xFA65, 0x1, -27997);
  (0xFA66, 0xFA66, 0x1, -27312); (0xFA67, 0xFA67, 0x1, -27183); (0xFA68, 0xFA68, 0x1, -25477);
  (0xFA69, 0xFA69, 0x1, -25194); (0xFA6A, 0xFA6A, 0x1, -25135); (0xFA6B, 0xFA6B, 0x1, -39414);
  (0xFA6C, 0xFA6C, 0x1, 0x14882); (0xFA6D, 0xFA6D, 0x1, -30805); (0xFA70, 0xFA70, 0x1, -44106);
  (0xFA71, 0xFA71, 0x1, -43196); (0xFA72, 0xFA72, 0x1, -43274); (0xFA73, 0xFA73, 0x1, -43763);
  (0xFA74, 0xFA74, 0x1, -43311); (0xFA75, 0xFA75, 0x1, -43253); (0xFA76, 0xFA76, 0x1, -42927);
  (0xFA77, 0xFA77, 0x1, -42877); (0xFA78, 0xFA78, 0x1, -42203); (0xFA79, 0xFA79, 0x1, -42276);
  (0xFA7A, 0xFA7A, 0x1, -42209); (0xFA7B, 0xFA7B, 0x1, -42137); (0xFA7C, 0xFA7C, 0x1, -41506);
  (0xFA7D, 0xFA7D, 0x1, -41418); (0xFA7E, 0xFA7E, 0x1, -41274); (0xFA7F, 0xFA7F, 0x1, -41259);
  (0xFA80, 0xFA80, 0x1, -40990); (0xFA81, 0xFA81, 0x1, -40793); (0xFA82, 0xFA82, 0x1, -39856);
  (0xFA83, 0xFA83, 0x1, -39850); (0xFA84, 0xFA84, 0x1, -39707); (0xFA85, 0xFA85, 0x1, -39640);
  (0xFA86, 0xFA86, 0x1, -39342); (0xFA87, 0xFA87, 0x1, -39225); (0xFA88, 0xFA88, 0x1, -39296);
  (0xFA89, 0xFA89, 0x1, -39163); (0xFA8A, 0xFA8A, 0x1, -39210); (0xFA8B, 0xFA8B, 0x1, -39065);
  (0xFA8C, 0xFA8C, 0x1, -39000); (0xFA8D, 0xFA8D, 0x1, -38601); (0xFA8E, 0xFA8E, 0x1, -38514);
  (0xFA8F, 0xFA8F, 0x1, -38461); (0xFA90, 0xFA90, 0x1, -38202); (0xFA91, 0xFA91, 0x1, -37917);
  (0xFA92, 0xFA92, 0x1, -37755); (0xFA93, 0xFA93, 0x1, -37752); (0xFA94, 0xFA94, 0x1, -37694);
  (0xFA95, 0xFA95, 0x1, -36636); (0xFA96, 0xFA96, 0x1, -36572); (0xFA97, 0xFA97, 0x1, -36182);
  (0xFA98, 0xFA98, 0x1, -35773); (0xFA99, 0xFA99, 0x1, -35790); (0xFA9A, 0xFA9A, 0x1, -35704);
  (0xFA9B, 0xFA9B, 0x1, -35453); (0xFA9C, 0xFA9C, 0x1, -35118); (0xFA9D, 0xFA9D, 0x1, -33526);
  (0xFA9E, 0xFA9E, 0x1, -34921); (0xFA9F, 0xFA9F, 0x1, -34800); (0xFAA0, 0xFAA0, 0x1, -34678);
  (0xFAA1, 0xFAA1, 0x1, -34352); (0xFAA2, 0xFAA2, 0x1, -34204); (0xFAA3, 0xFAA3, 0x1, -34152);
  (0xFAA4, 0xFAA4, 0x1, -33927); (0xFAA5, 0xFAA5, 0x1, -33926); (0xFAA6, 0xFAA6, 0x1, -33756);
  (0xFAA7, 0xFAA7, 0x1, -33740); (0xFAA8, 0xFAA8, 0x1, -33716); (0xFAA9, 0xFAA9, 0x1, -33631);
  (0xFAAA, 0xFAAA, 0x1, -33642); (0xFAAB, 0xFAAB, 0x1, -33247); (0xFAAC, 0xFAAC, 0x1, -32763);
  (0xFAAD, 0xFAAD, 0x1, -32493); (0xFAAE, 0xFAAE, 0x1, -32307); (0xFAAF, 0xFAAF, 0x1, -32084);
  (0xFAB0, 0xFAB0, 0x1, -31932); (0xFAB1, 0xFAB1, 0x1, -31603); (0xFAB2, 0xFAB2, 0x1, -31405);
  (0xFAB3, 0xFAB3, 0x1, -30561); (0xFAB4, 0xFAB4, 0x1, -30405); (0xFAB5, 0xFAB5, 0x1, -29500);
  (0xFAB6, 0xFAB6, 0x1, -29045); (0xFAB7, 0xFAB7, 0x1, -28977); (0xFAB8, 0xFAB8, 0x1, -28962);
  (0xFAB9, 0xFAB9, 0x1, -28666); (0xFABA, 0xFABA, 0x1, -28610); (0xFABB, 0xFABB, 0x1, -28656);
  (0xFABC, 0xFABC, 0x1, -28603); (0xFABD, 0xFABD, 0x1, -28607); (0xFABE, 0xFABE, 0x1, -28625);
  (0xFABF, 0xFABF, 0x1, -28550); (0xFAC0, 0xFAC0, 0x1, -28470); (0xFAC1, 0xFAC1, 0x1, -28089);
  (0xFAC2, 0xFAC2, 0x1, -27530); (0xFAC3, 0xFAC3, 0x1, -27217); (0xFAC4, 0xFAC4, 0x1, -26923);
  (0xFAC5, 0xFAC5, 0x1, -26703); (0xFAC6, 0xFAC6, 0x1, -25674); (0xFAC7, 0xFAC7, 0x1, -25572);
  (0xFAC8, 0xFAC8, 0x1, -25458); (0xFAC9, 0xFAC9, 0x1, -25326); (0xFACA, 0xFACA, 0x1, -25291);
  (0xFACB, 0xFACB, 0x1, -25280); (0xFACC, 0xFACC, 0x1, -25233); (0xFACD, 0xFACD, 0x1, -24507);
  (0xFACE, 0xFACE, 0x1, -23346); (0xFACF, 0xFACF, 0x1, 0x12D7B); (0xFAD0, 0xFAD0, 0x1, 0x12D74);
  (0xFAD1, 0xFAD1, 0x1, 0x13904); (0xFAD2, 0xFAD2, 0x1, -48949); (0xFAD3, 0xFAD3, 0x1, -47803);
  (0xFAD4, 0xFAD4, 0x1, -47771); (0xFAD5, 0xFAD5, 0x1, 0x15774); (0xFAD6, 0xFAD6, 0x1, 0x161FA);
  (0xFAD7, 0xFAD7, 0x1, 0x183FC); (0xFAD8, 0xFAD8, 0x1, -23445); (0xFAD9, 0xFAD9, 0x1, -23371);
  (0xFB1D, 0xFB1D, 0x1, -62788); (0xFB1F, 0xFB1F, 0x1, -62765); (0xFB20, 0xFB20, 0x1, -62782);
  (0xFB21, 0xFB21, 0x1, -62801); (0xFB22, 0xFB23, 0x1, -62799); (0xFB24, 0xFB26, 0x1, -62793);
  (0xFB27, 0xFB27, 0x1, -62783); (0xFB28, 0xFB28, 0x1, -62782); (0xFB29, 0xFB29, 0x1, -64254);
  (0xFB2A, 0xFB2A, 0x1, -62785); (0xFB2B, 0xFB2B, 0x1, -62786); (0xFB2C, 0xFB2C, 0x1, -62787);
  (0xFB2D, 0xFB2D, 0x1, -62788); (0xFB2E, 0xFB2E, 0x1, -62814); (0xFB2F, 0xFB2F, 0x1, -62815);
  (0xFB30, 0xFB36, 0x1, -62816); (0xFB38, 0xFB3C, 0x1, -62816); (0xFB3E, 0xFB40, 0x2, -62816);
  (0xFB41, 0xFB43, 0x2, -62816); (0xFB44, 0xFB46, 0x2, -62816); (0xFB47, 0xFB4A, 0x1, -62816);
  (0xFB4B, 0xFB4B, 0x1, -62838); (0xFB4C, 0xFB4C, 0x1, -62843); (0xFB4D, 0xFB4D, 0x1, -62834);
  (0xFB4E, 0xFB4E, 0x1, -62826); (0xFB50, 0xFB50, 0x1, -62687); (0xFB51, 0xFB51, 0x1, -62688);
  (0xFB52, 0xFB52, 0x1, -62679); (0xFB53, 0xFB53, 0x1, -62680); (0xFB54, 0xFB54, 0x1, -62681);
  (0xFB55, 0xFB55, 0x1, -62682); (0xFB56, 0xFB56, 0x1, -62680); (0xFB57, 0xFB57, 0x1, -62681);
  (0xFB58, 0xFB58, 0x1, -62682); (0xFB59, 0xFB59, 0x1, -62683); (0xFB5A, 0xFB5A, 0x1, -62682);
  (0xFB5B, 0xFB5B, 0x1, -62683); (0xFB5C, 0xFB5C, 0x1, -62684); (0xFB5D, 0xFB5D, 0x1, -62685);
  (0xFB5E, 0xFB5E, 0x1, -62692); (0xFB5F, 0xFB5F, 0x1, -62693); (0xFB60, 0xFB60, 0x1, -62694);
  (0xFB61, 0xFB61, 0x1, -62695); (0xFB62, 0xFB62, 0x1, -62691); (0xFB63, 0xFB63, 0x1, -62692);
  (0xFB64, 0xFB64, 0x1, -62693); (0xFB65, 0xFB65, 0x1, -62694); (0xFB66, 0xFB66, 0x1, -62701);
  (0xFB67, 0xFB67, 0x1, -62702); (0xFB68, 0xFB68, 0x1, -62703); (0xFB69, 0xFB69, 0x1, -62704);
  (0xFB6A, 0xFB6A, 0x1, -62662); (0xFB6B, 0xFB6B, 0x1, -62663); (0xFB6C, 0xFB6C, 0x1, -62664);
  (0xFB6D, 0xFB6D, 0x1, -62665); (0xFB6E, 0xFB6E, 0x1, -62664); (0xFB6F, 0xFB6F, 0x1, -62665);
  (0xFB70, 0xFB70, 0x1, -62666); (0xFB71, 0xFB71, 0x1, -62667); (0xFB72, 0xFB72, 0x1, -62702);
  (0xFB73, 0xFB73, 0x1, -62703); (0xFB74, 0xFB74, 0x1, -62704); (0xFB75, 0xFB75, 0x1, -62705);
  (0xFB76, 0xFB76, 0x1, -62707); (0xFB77, 0xFB77, 0x1, -62708); (0xFB78, 0xFB78, 0x1, -62709);
  (0xFB79, 0xFB79, 0x1, -62710); (0xFB7A, 0xFB7A, 0x1, -62708); (0xFB7B, 0xFB7B, 0x1, -62709);
  (0xFB7C, 0xFB7C, 0x1, -62710); (0xFB7D, 0xFB7E, 0x1, -62711); (0xFB7F, 0xFB7F, 0x1, -62712);
  (0xFB80, 0xFB80, 0x1, -62713); (0xFB81, 0xFB81, 0x1, -62714); (0xFB82, 0xFB82, 0x1, -62709);
  (0xFB83, 0xFB83, 0x1, -62710); (0xFB84, 0xFB84, 0x1, -62712); (0xFB85, 0xFB85, 0x1, -62713);
  (0xFB86, 0xFB86, 0x1, -62712); (0xFB87, 0xFB87, 0x1, -62713); (0xFB88, 0xFB88, 0x1, -62720);
  (0xFB89, 0xFB89, 0x1, -62721); (0xFB8A, 0xFB8A, 0x1, -62706); (0xFB8B, 0xFB8B, 0x1, -62707);
  (0xFB8C, 0xFB8C, 0x1, -62715); (0xFB8D, 0xFB8D, 0x1, -62716); (0xFB8E, 0xFB8E, 0x1, -62693);
  (0xFB8F, 0xFB8F, 0x1, -62694); (0xFB90, 0xFB90, 0x1, -62695); (0xFB91, 0xFB91, 0x1, -62696);
  (0xFB92, 0xFB92, 0x1, -62691); (0xFB93, 0xFB93, 0x1, -62692); (0xFB94, 0xFB94, 0x1, -62693);
  (0xFB95, 0xFB95, 0x1, -62694); (0xFB96, 0xFB96, 0x1, -62691); (0xFB97, 0xFB97, 0x1, -62692);
  (0xFB98, 0xFB98, 0x1, -62693); (0xFB99, 0xFB99, 0x1, -62694); (0xFB9A, 0xFB9A, 0x1, -62697);
  (0xFB9B, 0xFB9B, 0x1, -62698); (0xFB9C, 0xFB9C, 0x1, -62699); (0xFB9D, 0xFB9D, 0x1, -62700);
  (0xFB9E, 0xFB9E, 0x1, -62692); (0xFB9F, 0xFBA0, 0x1, -62693); (0xFBA1, 0xFBA1, 0x1, -62694);
  (0xFBA2, 0xFBA2, 0x1, -62695); (0xFBA3, 0xFBA3, 0x1, -62696); (0xFBA4, 0xFBA4, 0x1, -62671);
  (0xFBA5, 0xFBA5, 0x1, -62672); (0xFBA6, 0xFBA6, 0x1, -62693); (0xFBA7, 0xFBA7, 0x1, -62694);
  (0xFBA8, 0xFBA8, 0x1, -62695); (0xFBA9, 0xFBA9, 0x1, -62696); (0xFBAA, 0xFBAA, 0x1, -62700);
  (0xFBAB, 0xFBAB, 0x1, -62701); (0xFBAC, 0xFBAC, 0x1, -62702); (0xFBAD, 0xFBAD, 0x1, -62703);
  (0xFBAE, 0xFBAE, 0x1, -62684); (0xFBAF, 0xFBAF, 0x1, -62685); (0xFBB0, 0xFBB0, 0x1, -62686);
  (0xFBB1, 0xFBB1, 0x1, -62687); (0xFBD3, 0xFBD3, 0x1, -62758); (0xFBD4, 0xFBD4, 0x1, -62759);
  (0xFBD5, 0xFBD5, 0x1, -62760); (0xFBD6, 0xFBD6, 0x1, -62761); (0xFBD7, 0xFBD7, 0x1, -62736);
  (0xFBD8, 0xFBD8, 0x1, -62737); (0xFBD9, 0xFBD9, 0x1, -62739); (0xFBDA, 0xFBDA, 0x1, -62740);
  (0xFBDB, 0xFBDB, 0x1, -62739); (0xFBDC, 0xFBDC, 0x1, -62740); (0xFBDE, 0xFBDE, 0x1, -62739);
  (0xFBDF, 0xFBDF, 0x1, -62740); (0xFBE0, 0xFBE0, 0x1, -62747); (0xFBE1, 0xFBE1, 0x1, -62748);
  (0xFBE2, 0xFBE2, 0x1, -62745); (0xFBE3, 0xFBE3, 0x1, -62746); (0xFBE4, 0xFBE4, 0x1, -62740);
  (0xFBE5, 0xFBE5, 0x1, -62741); (0xFBE6, 0xFBE6, 0x1, -62742); (0xFBE7, 0xFBE7, 0x1, -62743);
  (0xFBE8, 0xFBE8, 0x1, -62879); (0xFBE9, 0xFBE9, 0x1, -62880); (0xFBFC, 0xFBFC, 0x1, -62768);
  (0xFBFD, 0xFBFD, 0x1, -62769); (0xFBFE, 0xFBFE, 0x1, -62770); (0xFBFF, 0xFBFF, 0x1, -62771);
  (0xFC5B, 0xFC5C, 0x1, -63019); (0xFC5D, 0xFC5D, 0x1, -62996); (0xFC5E, 0xFC5E, 0x1, -64574);
  (0xFC5F, 0xFC5F, 0x1, -64575); (0xFC60, 0xFC60, 0x1, -64576); (0xFC61, 0xFC61, 0x1, -64577);
  (0xFC62, 0xFC62, 0x1, -64578); (0xFC63, 0xFC63, 0x1, -64579); (0xFC90, 0xFC90, 0x1, -63047);
  (0xFCD9, 0xFCD9, 0x1, -63122); (0xFCF2, 0xFCF2, 0x1, -63154); (0xFCF3, 0xFCF3, 0x1, -63155);
  (0xFCF4, 0xFCF4, 0x1, -63156); (0xFD3C, 0xFD3C, 0x1, -63253); (0xFD3D, 0xFD3D, 0x1, -63254);
  (0xFE10, 0xFE10, 0x1, -64996); (0xFE11, 0xFE12, 0x1, -52752); (0xFE13, 0xFE14, 0x1, -64985);
  (0xFE15, 0xFE15, 0x1, -65012); (0xFE16, 0xFE16, 0x1, -64983); (0xFE17, 0xFE18, 0x1, -52737);
  (0xFE31, 0xFE31, 0x1, -56861); (0xFE32, 0xFE32, 0x1, -56863); (0xFE33, 0xFE33, 0x1, -64980);
  (0xFE34, 0xFE34, 0x1, -64981); (0xFE35, 0xFE36, 0x1, -65037); (0xFE37, 0xFE37, 0x1, -64956);
  (0xFE38, 0xFE38, 0x1, -64955); (0xFE39, 0xFE3A, 0x1, -52773); (0xFE3B, 0xFE3C, 0x1, -52779);
  (0xFE3D, 0xFE3E, 0x1, -52787); (0xFE3F, 0xFE40, 0x1, -52791); (0xFE41, 0xFE44, 0x1, -52789);
  (0xFE47, 0xFE47, 0x1, -65004); (0xFE48, 0xFE48, 0x1, -65003); (0xFE49, 0xFE49, 0x1, -65065);
  (0xFE4A, 0xFE4A, 0x1, -65066); (0xFE4B, 0xFE4B, 0x1, -65067); (0xFE4C, 0xFE4C, 0x1, -65068);
  (0xFE4D, 0xFE4D, 0x1, -65006); (0xFE4E, 0xFE4E, 0x1, -65007); (0xFE4F, 0xFE4F, 0x1, -65008);
  (0xFE50, 0xFE50, 0x1, -65060); (0xFE51, 0xFE51, 0x1, -52816); (0xFE52, 0xFE52, 0x1, -65060);
  (0xFE54, 0xFE54, 0x1, -65049); (0xFE55, 0xFE55, 0x1, -65051); (0xFE56, 0xFE56, 0x1, -65047);
  (0xFE57, 0xFE57, 0x1, -65078); (0xFE58, 0xFE58, 0x1, -56900); (0xFE59, 0xFE5A, 0x1, -65073);
  (0xFE5B, 0xFE5B, 0x1, -64992); (0xFE5C, 0xFE5C, 0x1, -64991); (0xFE5D, 0xFE5E, 0x1, -52809);
  (0xFE5F, 0xFE5F, 0x1, -65084); (0xFE60, 0xFE60, 0x1, -65082); (0xFE61, 0xFE62, 0x1, -65079);
  (0xFE63, 0xFE63, 0x1, -65078); (0xFE64, 0xFE64, 0x1, -65064); (0xFE65, 0xFE65, 0x1, -65063);
  (0xFE66, 0xFE66, 0x1, -65065); (0xFE68, 0xFE68, 0x1, -65036); (0xFE69, 0xFE6A, 0x1, -65093);
  (0xFE6B, 0xFE6B, 0x1, -65067); (0xFE70, 0xFE70, 0x1, -65104); (0xFE71, 0xFE71, 0x1, -63537);
  (0xFE72, 0xFE72, 0x1, -65106); (0xFE74, 0xFE74, 0x1, -65108); (0xFE76, 0xFE76, 0x1, -65110);
  (0xFE77, 0xFE77, 0x1, -63543); (0xFE78, 0xFE78, 0x1, -65112); (0xFE79, 0xFE79, 0x1, -63545);
  (0xFE7A, 0xFE7A, 0x1, -65114); (0xFE7B, 0xFE7B, 0x1, -63547); (0xFE7C, 0xFE7C, 0x1, -65116);
  (0xFE7D, 0xFE7D, 0x1, -63549); (0xFE7E, 0xFE7E, 0x1, -65118); (0xFE7F, 0xFE7F, 0x1, -63551);
  (0xFE80, 0xFE80, 0x1, -63583); (0xFE81, 0xFE81, 0x1, -63578); (0xFE82, 0xFE82, 0x1, -63579);
  (0xFE83, 0xFE83, 0x1, -63580); (0xFE84, 0xFE84, 0x1, -63581); (0xFE85, 0xFE85, 0x1, -63549);
  (0xFE86, 0xFE86, 0x1, -63550); (0xFE87, 0xFE87, 0x1, -63584); (0xFE88, 0xFE88, 0x1, -63585);
  (0xFE89, 0xFE89, 0x1, -63551); (0xFE8A, 0xFE8A, 0x1, -63552); (0xFE8B, 0xFE8B, 0x1, -63553);
  (0xFE8C, 0xFE8C, 0x1, -63554); (0xFE8D, 0xFE8D, 0x1, -63590); (0xFE8E, 0xFE8F, 0x1, -63591);
  (0xFE90, 0xFE90, 0x1, -63592); (0xFE91, 0xFE91, 0x1, -63593); (0xFE92, 0xFE93, 0x1, -63594);
  (0xFE94, 0xFE95, 0x1, -63595); (0xFE96, 0xFE96, 0x1, -63596); (0xFE97, 0xFE97, 0x1, -63597);
  (0xFE98, 0xFE99, 0x1, -63598); (0xFE9A, 0xFE9A, 0x1, -63599); (0xFE9B, 0xFE9B, 0x1, -63600);
  (0xFE9C, 0xFE9D, 0x1, -63601); (0xFE9E, 0xFE9E, 0x1, -63602); (0xFE9F, 0xFE9F, 0x1, -63603);
  (0xFEA0, 0xFEA1, 0x1, -63604); (0xFEA2, 0xFEA2, 0x1, -63605); (0xFEA3, 0xFEA3, 0x1, -63606);
  (0xFEA4, 0xFEA5, 0x1, -63607); (0xFEA6, 0xFEA6, 0x1, -63608); (0xFEA7, 0xFEA7, 0x1, -63609);
  (0xFEA8, 0xFEA9, 0x1, -63610); (0xFEAA, 0xFEAB, 0x1, -63611); (0xFEAC, 0xFEAD, 0x1, -63612);
  (0xFEAE, 0xFEAF, 0x1, -63613); (0xFEB0, 0xFEB1, 0x1, -63614); (0xFEB2, 0xFEB2, 0x1, -63615);
  (0xFEB3, 0xFEB3, 0x1, -63616); (0xFEB4, 0xFEB5, 0x1, -63617); (0xFEB6, 0xFEB6, 0x1, -63618);
  (0xFEB7, 0xFEB7, 0x1, -63619); (0xFEB8, 0xFEB9, 0x1, -63620); (0xFEBA, 0xFEBA, 0x1, -63621);
  (0xFEBB, 0xFEBB, 0x1, -63622); (0xFEBC, 0xFEBD, 0x1, -63623); (0xFEBE, 0xFEBE, 0x1, -63624);
  (0xFEBF, 0xFEBF, 0x1, -63625); (0xFEC0, 0xFEC1, 0x1, -63626); (0xFEC2, 0xFEC2, 0x1, -63627);
  (0xFEC3, 0xFEC3, 0x1, -63628); (0xFEC4, 0xFEC5, 0x1, -63629); (0xFEC6, 0xFEC6, 0x1, -63630);
  (0xFEC7, 0xFEC7, 0x1, -63631); (0xFEC8, 0xFEC9, 0x1, -63632); (0xFECA, 0xFECA, 0x1, -63633);
  (0xFECB, 0xFECB, 0x1, -63634); (0xFECC, 0xFECD, 0x1, -63635); (0xFECE, 0xFECE, 0x1, -63636);
  (0xFECF, 0xFECF, 0x1, -63637); (0xFED0, 0xFED0, 0x1, -63638); (0xFED1, 0xFED1, 0x1, -63632);
  (0xFED2, 0xFED2, 0x1, -63633); (0xFED3, 0xFED3, 0x1, -63634); (0xFED4, 0xFED5, 0x1, -63635);
  (0xFED6, 0xFED6, 0x1, -63636); (0xFED7, 0xFED7, 0x1, -63637); (0xFED8, 0xFED9, 0x1, -63638);
  (0xFEDA, 0xFEDA, 0x1, -63639); (0xFEDB, 0xFEDB, 0x1, -63640); (0xFEDC, 0xFEDD, 0x1, -63641);
  (0xFEDE, 0xFEDE, 0x1, -63642); (0xFEDF, 0xFEDF, 0x1, -63643); (0xFEE0, 0xFEE1, 0x1, -63644);
  (0xFEE2, 0xFEE2, 0x1, -63645); (0xFEE3, 0xFEE3, 0x1, -63646); (0xFEE4, 0xFEE5, 0x1, -63647);
  (0xFEE6, 0xFEE6, 0x1, -63648); (0xFEE7, 0xFEE7, 0x1, -63649); (0xFEE8, 0xFEE9, 0x1, -63650);
  (0xFEEA, 0xFEEA, 0x1, -63651); (0xFEEB, 0xFEEB, 0x1, -63652); (0xFEEC, 0xFEED, 0x1, -63653);
  (0xFEEE, 0xFEEF, 0x1, -63654); (0xFEF0, 0xFEF1, 0x1, -63655); (0xFEF2, 0xFEF2, 0x1, -63656);
  (0xFEF3, 0xFEF3, 0x1, -63657); (0xFEF4, 0xFEF4, 0x1, -63658); (0xFF01, 0xFF20, 0x1, -65248);
  (0xFF21, 0xFF3A, 0x1, -65216); (0xFF3B, 0xFF5E, 0x1, -65248); (0xFF5F, 0xFF60, 0x1, -54746);
  (0xFF61, 0xFF61, 0x1, -53087); (0xFF62, 0xFF63, 0x1, -53078); (0xFF64, 0xFF64, 0x1, -53091);
  (0xFF65, 0xFF65, 0x1, -52842); (0xFF66, 0xFF66, 0x1, -52852); (0xFF67, 0xFF67, 0x1, -52934);
  (0xFF68, 0xFF68, 0x1, -52933); (0xFF69, 0xFF69, 0x1, -52932); (0xFF6A, 0xFF6A, 0x1, -52931);
  (0xFF6B, 0xFF6B, 0x1, -52930); (0xFF6C, 0xFF6C, 0x1, -52873); (0xFF6D, 0xFF6D, 0x1, -52872);
  (0xFF6E, 0xFF6E, 0x1, -52871); (0xFF6F, 0xFF6F, 0x1, -52908); (0xFF70, 0xFF70, 0x1, -52852);
  (0xFF71, 0xFF71, 0x1, -52943); (0xFF72, 0xFF72, 0x1, -52942); (0xFF73, 0xFF73, 0x1, -52941);
  (0xFF74, 0xFF74, 0x1, -52940); (0xFF75, 0xFF76, 0x1, -52939); (0xFF77, 0xFF77, 0x1, -52938);
  (0xFF78, 0xFF78, 0x1, -52937); (0xFF79, 0xFF79, 0x1, -52936); (0xFF7A, 0xFF7A, 0x1, -52935);
  (0xFF7B, 0xFF7B, 0x1, -52934); (0xFF7C, 0xFF7C, 0x1, -52933); (0xFF7D, 0xFF7D, 0x1, -52932);
  (0xFF7E, 0xFF7E, 0x1, -52931); (0xFF7F, 0xFF7F, 0x1, -52930); (0xFF80, 0xFF80, 0x1, -52929);
  (0xFF81, 0xFF81, 0x1, -52928); (0xFF82, 0xFF82, 0x1, -52926); (0xFF83, 0xFF83, 0x1, -52925);
  (0xFF84, 0xFF84, 0x1, -52924); (0xFF85, 0xFF8A, 0x1, -52923); (0xFF8B, 0xFF8B, 0x1, -52921);
  (0xFF8C, 0xFF8C, 0x1, -52919); (0xFF8D, 0xFF8D, 0x1, -52917); (0xFF8E, 0xFF8E, 0x1, -52915);
  (0xFF8F, 0xFF93, 0x1, -52913); (0xFF94, 0xFF94, 0x1, -52912); (0xFF95, 0xFF95, 0x1, -52911);
  (0xFF96, 0xFF9B, 0x1, -52910); (0xFF9C, 0xFF9C, 0x1, -52909); (0xFF9D, 0xFF9D, 0x1, -52906);
  (0xFFA0, 0xFFA0, 0x1, -60992); (0xFFA1, 0xFFA2, 0x1, -61089); (0xFFA3, 0xFFA3, 0x1, -60921);
  (0xFFA4, 0xFFA4, 0x1, -61090); (0xFFA5, 0xFFA6, 0x1, -60921); (0xFFA7, 0xFFA9, 0x1, -61092);
  (0xFFAA, 0xFFAF, 0x1, -60922); (0xFFB0, 0xFFB0, 0x1, -61078); (0xFFB1, 0xFFB3, 0x1, -61099);
  (0xFFB4, 0xFFB4, 0x1, -61075); (0xFFB5, 0xFFBE, 0x1, -61100); (0xFFC2, 0xFFC7, 0x1, -61025);
  (0xFFCA, 0xFFCF, 0x1, -61027); (0xFFD2, 0xFFD7, 0x1, -61029); (0xFFDA, 0xFFDC, 0x1, -61031);
  (0xFFE0, 0xFFE1, 0x1, -65342); (0xFFE2, 0xFFE2, 0x1, -65334); (0xFFE3, 0xFFE3, 0x1, -65475);
  (0xFFE4, 0xFFE4, 0x1, -65342); (0xFFE5, 0xFFE5, 0x1, -65344); (0xFFE6, 0xFFE6, 0x1, -57149);
  (0xFFE8, 0xFFE8, 0x1, -56038); (0xFFE9, 0xFFEC, 0x1, -56921); (0xFFED, 0xFFED, 0x1, -55885);
  (0xFFEE, 0xFFEE, 0x1, -55843); (0x10400, 0x10427, 0x1, 0x28); (0x104B0, 0x104D3, 0x1, 0x28);
  (0x10570, 0x1057A, 0x1, 0x27); (0x1057C, 0x1058A, 0x1, 0x27); (0x1058C, 0x10592, 0x1, 0x27);
  (0x10594, 0x10595, 0x1, 0x27); (0x10C80, 0x10CB2, 0x1, 0x40); (0x10D50, 0x10D65, 0x1, 0x20);
  (0x1109A, 0x1109C, 0x2, -1); (0x110AB, 0x110AB, 0x1, -6); (0x118A0, 0x118BF, 0x1, 0x20);
  (0x16E40, 0x16E5F, 0x1, 0x20); (0x16EA0, 0x16EB8, 0x1, 0x1B); (0x1D15E, 0x1D15F, 0x1, -7);
  (0x1D160, 0x1D160, 0x1, -8); (0x1D161, 0x1D161, 0x1, -9); (0x1D162, 0x1D162, 0x1, -10);
  (0x1D163, 0x1D163, 0x1, -11); (0x1D164, 0x1D164, 0x1, -12); (0x1D1BB, 0x1D1BC, 0x1, -2);
  (0x1D1BD, 0x1D1BE, 0x1, -4); (0x1D1BF, 0x1D1C0, 0x1, -6); (0x1D400, 0x1D419, 0x1, -119711);
  (0x1D41A, 0x1D433, 0x1, -119737); (0x1D434, 0x1D44D, 0x1, -119763); (0x1D44E, 0x1D454, 0x1, -119789);
  (0x1D456, 0x1D467, 0x1, -119789); (0x1D468, 0x1D481, 0x1, -119815); (0x1D482, 0x1D49B, 0x1, -119841);
  (0x1D49C, 0x1D49E, 0x2, -119867); (0x1D49F, 0x1D49F, 0x1, -119867); (0x1D4A2, 0x1D4A2, 0x1, -119867);
  (0x1D4A5, 0x1D4A6, 0x1, -119867); (0x1D4A9, 0x1D4AC, 0x1, -119867); (0x1D4AE, 0x1D4B5, 0x1, -119867);
  (0x1D4B6, 0x1D4B9, 0x1, -119893); (0x1D4BB, 0x1D4BD, 0x2, -119893); (0x1D4BE, 0x1D4C3, 0x1, -119893);
  (0x1D4C5, 0x1D4CF, 0x1, -119893); (0x1D4D0, 0x1D4E9, 0x1, -119919); (0x1D4EA, 0x1D503, 0x1, -119945);
  (0x1D504, 0x1D505, 0x1, -119971); (0x1D507, 0x1D50A, 0x1, -119971); (0x1D50D, 0x1D514, 0x1, -119971);
  (0x1D516, 0x1D51C, 0x1, -119971); (0x1D51E, 0x1D537, 0x1, -119997); (0x1D538, 0x1D539, 0x1, -120023);
  (0x1D53B, 0x1D53E, 0x1, -120023); (0x1D540, 0x1D544, 0x1, -120023); (0x1D546, 0x1D546, 0x1, -120023);
  (0x1D54A, 0x1D550, 0x1, -120023); (0x1D552, 0x1D56B, 0x1, -120049); (0x1D56C, 0x1D585, 0x1, -120075);
  (0x1D586, 0x1D59F, 0x1, -120101); (0x1D5A0, 0x1D5B9, 0x1, -120127); (0x1D5BA, 0x1D5D3, 0x1, -120153);
  (0x1D5D4, 0x1D5ED, 0x1, -120179); (0x1D5EE, 0x1D607, 0x1, -120205); (0x1D608, 0x1D621, 0x1, -120231);
  (0x1D622, 0x1D63B, 0x1, -120257); (0x1D63C, 0x1D655, 0x1, -120283); (0x1D656, 0x1D66F, 0x1, -120309);
  (0x1D670, 0x1D689, 0x1, -120335); (0x1D68A, 0x1D6A3, 0x1, -120361); (0x1D6A4, 0x1D6A4, 0x1, -120179);
  (0x1D6A5, 0x1D6A5, 0x1, -119918); (0x1D6A8, 0x1D6B8, 0x1, -119543); (0x1D6B9, 0x1D6B9, 0x1, -119553);
  (0x1D6BA, 0x1D6C0, 0x1, -119543); (0x1D6C1, 0x1D6C1, 0x1, -111802); (0x1D6C2, 0x1D6DA, 0x1, -119569);
  (0x1D6DB, 0x1D6DB, 0x1, -111833); (0x1D6DC, 0x1D6DC, 0x1, -119591); (0x1D6DD, 0x1D6DD, 0x1, -119589);
  (0x1D6DE, 0x1D6DE, 0x1, -119588); (0x1D6DF, 0x1D6DF, 0x1, -119577); (0x1D6E0, 0x1D6E0, 0x1, -119583);
  (0x1D6E1, 0x1D6E1, 0x1, -119585); (0x1D6E2, 0x1D6F2, 0x1, -119601); (0x1D6F3, 0x1D6F3, 0x1, -119611);
  (0x1D6F4, 0x1D6FA, 0x1, -119601); (0x1D6FB, 0x1D6FB, 0x1, -111860); (0x1D6FC, 0x1D714, 0x1, -119627);
  (0x1D715, 0x1D715, 0x1, -111891); (0x1D716, 0x1D716, 0x1, -119649); (0x1D717, 0x1D717, 0x1, -119647);
  (0x1D718, 0x1D718, 0x1, -119646); (0x1D719, 0x1D719, 0x1, -119635); (0x1D71A, 0x1D71A, 0x1, -119641);
  (0x1D71B, 0x1D71B, 0x1, -119643); (0x1D71C, 0x1D72C, 0x1, -119659); (0x1D72D, 0x1D72D, 0x1, -119669);
  (0x1D72E, 0x1D734, 0x1, -119659); (0x1D735, 0x1D735, 0x1, -111918); (0x1D736, 0x1D74E, 0x1, -119685);
  (0x1D74F, 0x1D74F, 0x1, -111949); (0x1D750, 0x1D750, 0x1, -119707); (0x1D751, 0x1D751, 0x1, -119705);
  (0x1D752, 0x1D752, 0x1, -119704); (0x1D753, 0x1D753, 0x1, -119693); (0x1D754, 0x1D754, 0x1, -119699);
  (0x1D755, 0x1D755, 0x1, -119701); (0x1D756, 0x1D766, 0x1, -119717); (0x1D767, 0x1D767, 0x1, -119727);
  (0x1D768, 0x1D76E, 0x1, -119717); (0x1D76F, 0x1D76F, 0x1, -111976); (0x1D770, 0x1D788, 0x1, -119743);
  (0x1D789, 0x1D789, 0x1, -112007); (0x1D78A, 0x1D78A, 0x1, -119765); (0x1D78B, 0x1D78B, 0x1, -119763);
  (0x1D78C, 0x1D78C, 0x1, -119762); (0x1D78D, 0x1D78D, 0x1, -119751); (0x1D78E, 0x1D78E, 0x1, -119757);
  (0x1D78F, 0x1D78F, 0x1, -119759); (0x1D790, 0x1D7A0, 0x1, -119775); (0x1D7A1, 0x1D7A1, 0x1, -119785);
  (0x1D7A2, 0x1D7A8, 0x1, -119775); (0x1D7A9, 0x1D7A9, 0x1, -112034); (0x1D7AA, 0x1D7C2, 0x1, -119801);
  (0x1D7C3, 0x1D7C3, 0x1, -112065); (0x1D7C4, 0x1D7C4, 0x1, -119823); (0x1D7C5, 0x1D7C5, 0x1, -119821);
  (0x1D7C6, 0x1D7C6, 0x1, -119820); (0x1D7C7, 0x1D7C7, 0x1, -119809); (0x1D7C8, 0x1D7C8, 0x1, -119815);
  (0x1D7C9, 0x1D7C9, 0x1, -119817); (0x1D7CA, 0x1D7CA, 0x1, -119789); (0x1D7CB, 0x1D7CB, 0x1, -119790);
  (0x1D7CE, 0x1D7D7, 0x1, -120734); (0x1D7D8, 0x1D7E1, 0x1, -120744); (0x1D7E2, 0x1D7EB, 0x1, -120754);
  (0x1D7EC, 0x1D7F5, 0x1, -120764); (0x1D7F6, 0x1D7FF, 0x1, -120774); (0x1E900, 0x1E921, 0x1, 0x22);
  (0x1EE00, 0x1EE01, 0x1, -124889); (0x1EE02, 0x1EE02, 0x1, -124886); (0x1EE03, 0x1EE03, 0x1, -124884);
  (0x1EE05, 0x1EE05, 0x1, -124861); (0x1EE06, 0x1EE06, 0x1, -124884); (0x1EE07, 0x1EE07, 0x1, -124890);
  (0x1EE08, 0x1EE08, 0x1, -124881); (0x1EE09, 0x1EE09, 0x1, -124863); (0x1EE0A, 0x1EE0D, 0x1, -124871);
  (0x1EE0E, 0x1EE0E, 0x1, -124891); (0x1EE0F, 0x1EE0F, 0x1, -124886); (0x1EE10, 0x1EE10, 0x1, -124879);
  (0x1EE11, 0x1EE11, 0x1, -124892); (0x1EE12, 0x1EE12, 0x1, -124880); (0x1EE13, 0x1EE13, 0x1, -124898);
  (0x1EE14, 0x1EE14, 0x1, -124896); (0x1EE15, 0x1EE16, 0x1, -124907); (0x1EE17, 0x1EE17, 0x1, -124905);
  (0x1EE18, 0x1EE18, 0x1, -124904); (0x1EE19, 0x1EE19, 0x1, -124899); (0x1EE1A, 0x1EE1A, 0x1, -124898);
  (0x1EE1B, 0x1EE1B, 0x1, -124897); (0x1EE1C, 0x1EE1C, 0x1, -124846); (0x1EE1D, 0x1EE1D, 0x1, -124771);
  (0x1EE1E, 0x1EE1E, 0x1, -124797); (0x1EE1F, 0x1EE1F, 0x1, -124848); (0x1EE21, 0x1EE21, 0x1, -124921);
  (0x1EE22, 0x1EE22, 0x1, -124918); (0x1EE24, 0x1EE24, 0x1, -124893); (0x1EE27, 0x1EE27, 0x1, -124922);
  (0x1EE29, 0x1EE29, 0x1, -124895); (0x1EE2A, 0x1EE2D, 0x1, -124903); (0x1EE2E, 0x1EE2E, 0x1, -124923);
  (0x1EE2F, 0x1EE2F, 0x1, -124918); (0x1EE30, 0x1EE30, 0x1, -124911); (0x1EE31, 0x1EE31, 0x1, -124924);
  (0x1EE32, 0x1EE32, 0x1, -124912); (0x1EE34, 0x1EE34, 0x1, -124928); (0x1EE35, 0x1EE36, 0x1, -124939);
  (0x1EE37, 0x1EE37, 0x1, -124937); (0x1EE39, 0x1EE39, 0x1, -124931); (0x1EE3B, 0x1EE3B, 0x1, -124929);
  (0x1EE42, 0x1EE42, 0x1, -124950); (0x1EE47, 0x1EE47, 0x1, -124954); (0x1EE49, 0x1EE49, 0x1, -124927);
  (0x1EE4B, 0x1EE4D, 0x2, -124935); (0x1EE4E, 0x1EE4E, 0x1, -124955); (0x1EE4F, 0x1EE4F, 0x1, -124950);
  (0x1EE51, 0x1EE51, 0x1, -124956); (0x1EE52, 0x1EE52, 0x1, -124944); (0x1EE54, 0x1EE54, 0x1, -124960);
  (0x1EE57, 0x1EE57, 0x1, -124969); (0x1EE59, 0x1EE59, 0x1, -124963); (0x1EE5B, 0x1EE5B, 0x1, -124961);
  (0x1EE5D, 0x1EE5D, 0x1, -124835); (0x1EE5F, 0x1EE5F, 0x1, -124912); (0x1EE61, 0x1EE61, 0x1, -124985);
  (0x1EE62, 0x1EE62, 0x1, -124982); (0x1EE64, 0x1EE64, 0x1, -124957); (0x1EE67, 0x1EE67, 0x1, -124986);
  (0x1EE68, 0x1EE68, 0x1, -124977); (0x1EE69, 0x1EE69, 0x1, -124959); (0x1EE6A, 0x1EE6C, 0x2, -124967);
  (0x1EE6D, 0x1EE6D, 0x1, -124967); (0x1EE6E, 0x1EE6E, 0x1, -124987); (0x1EE6F, 0x1EE6F, 0x1, -124982);
  (0x1EE70, 0x1EE70, 0x1, -124975); (0x1EE71, 0x1EE71, 0x1, -124988); (0x1EE72, 0x1EE72, 0x1, -124976);
  (0x1EE74, 0x1EE74, 0x1, -124992); (0x1EE75, 0x1EE76, 0x1, -125003); (0x1EE77, 0x1EE77, 0x1, -125001);
  (0x1EE79, 0x1EE79, 0x1, -124995); (0x1EE7A, 0x1EE7A, 0x1, -124994); (0x1EE7B, 0x1EE7B, 0x1, -124993);
  (0x1EE7C, 0x1EE7C, 0x1, -124942); (0x1EE7E, 0x1EE7E, 0x1, -124893); (0x1EE80, 0x1EE81, 0x1, -125017);
  (0x1EE82, 0x1EE82, 0x1, -125014); (0x1EE83, 0x1EE83, 0x1, -125012); (0x1EE84, 0x1EE85, 0x1, -124989);
  (0x1EE86, 0x1EE86, 0x1, -125012); (0x1EE87, 0x1EE87, 0x1, -125018); (0x1EE88, 0x1EE88, 0x1, -125009);
  (0x1EE89, 0x1EE89, 0x1, -124991); (0x1EE8B, 0x1EE8D, 0x1, -124999); (0x1EE8E, 0x1EE8E, 0x1, -125019);
  (0x1EE8F, 0x1EE8F, 0x1, -125014); (0x1EE90, 0x1EE90, 0x1, -125007); (0x1EE91, 0x1EE91, 0x1, -125020);
  (0x1EE92, 0x1EE92, 0x1, -125008); (0x1EE93, 0x1EE93, 0x1, -125026); (0x1EE94, 0x1EE94, 0x1, -125024);
  (0x1EE95, 0x1EE96, 0x1, -125035); (0x1EE97, 0x1EE97, 0x1, -125033); (0x1EE98, 0x1EE98, 0x1, -125032);
  (0x1EE99, 0x1EE99, 0x1, -125027); (0x1EE9A, 0x1EE9A, 0x1, -125026); (0x1EE9B, 0x1EE9B, 0x1, -125025);
  (0x1EEA1, 0x1EEA1, 0x1, -125049); (0x1EEA2, 0x1EEA2, 0x1, -125046); (0x1EEA3, 0x1EEA3, 0x1, -125044);
  (0x1EEA5, 0x1EEA5, 0x1, -125021); (0x1EEA6, 0x1EEA6, 0x1, -125044); (0x1EEA7, 0x1EEA7, 0x1, -125050);
  (0x1EEA8, 0x1EEA8, 0x1, -125041); (0x1EEA9, 0x1EEA9, 0x1, -125023); (0x1EEAB, 0x1EEAD, 0x1, -125031);
  (0x1EEAE, 0x1EEAE, 0x1, -125051); (0x1EEAF, 0x1EEAF, 0x1, -125046); (0x1EEB0, 0x1EEB0, 0x1, -125039);
  (0x1EEB1, 0x1EEB1, 0x1, -125052); (0x1EEB2, 0x1EEB2, 0x1, -125040); (0x1EEB3, 0x1EEB3, 0x1, -125058);
  (0x1EEB4, 0x1EEB4, 0x1, -125056); (0x1EEB5, 0x1EEB6, 0x1, -125067); (0x1EEB7, 0x1EEB7, 0x1, -125065);
  (0x1EEB8, 0x1EEB8, 0x1, -125064); (0x1EEB9, 0x1EEB9, 0x1, -125059); (0x1EEBA, 0x1EEBA, 0x1, -125058);
  (0x1EEBB, 0x1EEBB, 0x1, -125057); (0x1F12B, 0x1F12B, 0x1, -127176); (0x1F12C, 0x1F12C, 0x1, -127162);
  (0x1F130, 0x1F149, 0x1, -127183); (0x1F202, 0x1F202, 0x1, -115021); (0x1F210, 0x1F210, 0x1, -102341);
  (0x1F211, 0x1F211, 0x1, -104122); (0x1F212, 0x1F212, 0x1, -106054); (0x1F213, 0x1F213, 0x1, -115021);
  (0x1F214, 0x1F214, 0x1, -107400); (0x1F215, 0x1F215, 0x1, -104699); (0x1F216, 0x1F216, 0x1, -92211);
  (0x1F217, 0x1F217, 0x1, -104686); (0x1F218, 0x1F218, 0x1, -107380); (0x1F219, 0x1F219, 0x1, -101369);
  (0x1F21A, 0x1F21A, 0x1, -98553); (0x1F21B, 0x1F21B, 0x1, -101506); (0x1F21C, 0x1F21C, 0x1, -106447);
  (0x1F21D, 0x1F21D, 0x1, -103057); (0x1F21E, 0x1F21E, 0x1, -106641); (0x1F21F, 0x1F21F, 0x1, -101487);
  (0x1F220, 0x1F220, 0x1, -106499); (0x1F221, 0x1F221, 0x1, -95455); (0x1F222, 0x1F222, 0x1, -97539);
  (0x1F223, 0x1F223, 0x1, -91514); (0x1F224, 0x1F224, 0x1, -104756); (0x1F225, 0x1F225, 0x1, -105964);
  (0x1F226, 0x1F226, 0x1, -99090); (0x1F227, 0x1F227, 0x1, -102290); (0x1F228, 0x1F228, 0x1, -102099);
  (0x1F229, 0x1F229, 0x1, -107561); (0x1F22A, 0x1F22A, 0x1, -107553); (0x1F22B, 0x1F22B, 0x1, -90593);
  (0x1F22C, 0x1F22C, 0x1, -103494); (0x1F22D, 0x1F22D, 0x1, -107520); (0x1F22E, 0x1F22E, 0x1, -106043);
  (0x1F22F, 0x1F22F, 0x1, -102184); (0x1F230, 0x1F230, 0x1, -91328); (0x1F231, 0x1F231, 0x1, -102366);
  (0x1F232, 0x1F232, 0x1, -96433); (0x1F233, 0x1F233, 0x1, -96185); (0x1F234, 0x1F234, 0x1, -106028);
  (0x1F235, 0x1F235, 0x1, -99253); (0x1F236, 0x1F236, 0x1, -101165); (0x1F237, 0x1F237, 0x1, -101167);
  (0x1F238, 0x1F238, 0x1, -97541); (0x1F239, 0x1F239, 0x1, -106439); (0x1F23A, 0x1F23A, 0x1, -105604);
  (0x1F23B, 0x1F23B, 0x1, -90350); (0x1F250, 0x1F250, 0x1, -103097); (0x1F251, 0x1F251, 0x1, -106082);
  (0x2F800, 0x2F800, 0x1, -174531); (0x2F801, 0x2F801, 0x1, -174537); (0x2F802, 0x2F802, 0x1, -174529);
  (0x2F803, 0x2F803, 0x1, -63201); (0x2F804, 0x2F804, 0x1, -174244); (0x2F805, 0x2F805, 0x1, -174167);
  (0x2F806, 0x2F806, 0x1, -174155); (0x2F807, 0x2F807, 0x1, -174085); (0x2F808, 0x2F808, 0x1, -173966);
  (0x2F809, 0x2F809, 0x1, -173936); (0x2F80A, 0x2F80A, 0x1, -173859); (0x2F80B, 0x2F80B, 0x1, -173884);
  (0x2F80C, 0x2F80C, 0x1, -181102); (0x2F80D, 0x2F80D, 0x1, -61907); (0x2F80E, 0x2F80E, 0x1, -173761);
  (0x2F80F, 0x2F80F, 0x1, -173755); (0x2F810, 0x2F810, 0x1, -173740); (0x2F811, 0x2F811, 0x1, -173722);
  (0x2F812, 0x2F812, 0x1, -62198); (0x2F813, 0x2F813, 0x1, -181082); (0x2F814, 0x2F814, 0x1, -173741);
  (0x2F815, 0x2F815, 0x1, -173704); (0x2F816, 0x2F816, 0x1, -62155); (0x2F817, 0x2F817, 0x1, -173696);
  (0x2F818, 0x2F818, 0x1, -173684); (0x2F819, 0x2F819, 0x1, -174413); (0x2F81A, 0x2F81A, 0x1, -173678);
  (0x2F81B, 0x2F81B, 0x1, -173670); (0x2F81C, 0x2F81C, 0x1, -26173); (0x2F81D, 0x2F81D, 0x1, -173608);
  (0x2F81E, 0x2F81E, 0x1, -173595); (0x2F81F, 0x2F81F, 0x1, -181056); (0x2F820, 0x2F820, 0x1, -173541);
  (0x2F821, 0x2F821, 0x1, -173531); (0x2F822, 0x2F822, 0x1, -173488); (0x2F823, 0x2F823, 0x1, -173484);
  (0x2F824, 0x2F824, 0x1, -181007); (0x2F825, 0x2F825, 0x1, -173406); (0x2F826, 0x2F826, 0x1, -173405);
  (0x2F827, 0x2F827, 0x1, -173379); (0x2F828, 0x2F828, 0x1, -173358); (0x2F829, 0x2F82A, 0x1, -173348);
  (0x2F82B, 0x2F82B, 0x1, -173332); (0x2F82C, 0x2F82C, 0x1, -173283); (0x2F82D, 0x2F82D, 0x1, -173276);
  (0x2F82E, 0x2F82E, 0x1, -173268); (0x2F82F, 0x2F82F, 0x1, -173244); (0x2F830, 0x2F830, 0x1, -173235);
  (0x2F831, 0x2F831, 0x1, -173234); (0x2F832, 0x2F832, 0x1, -173235); (0x2F833, 0x2F833, 0x1, -173236);
  (0x2F834, 0x2F834, 0x1, -60936); (0x2F835, 0x2F835, 0x1, -165829); (0x2F836, 0x2F836, 0x1, -173164);
  (0x2F837, 0x2F837, 0x1, -173144); (0x2F838, 0x2F838, 0x1, -60629); (0x2F839, 0x2F839, 0x1, -173134);
  (0x2F83A, 0x2F83A, 0x1, -173129); (0x2F83B, 0x2F83B, 0x1, -173109); (0x2F83C, 0x2F83C, 0x1, -172958);
  (0x2F83D, 0x2F83D, 0x1, -173061); (0x2F83E, 0x2F83E, 0x1, -173046); (0x2F83F, 0x2F83F, 0x1, -173015);
  (0x2F840, 0x2F840, 0x1, -172958); (0x2F841, 0x2F841, 0x1, -172875); (0x2F842, 0x2F842, 0x1, -172850);
  (0x2F843, 0x2F843, 0x1, -172784); (0x2F844, 0x2F844, 0x1, -172769); (0x2F845, 0x2F845, 0x1, -172737);
  (0x2F846, 0x2F846, 0x1, -172738); (0x2F847, 0x2F847, 0x1, -172718); (0x2F848, 0x2F848, 0x1, -172701);
  (0x2F849, 0x2F849, 0x1, -172694); (0x2F84A, 0x2F84A, 0x1, -172680); (0x2F84B, 0x2F84B, 0x1, -172341);
  (0x2F84C, 0x2F84C, 0x1, -172614); (0x2F84D, 0x2F84D, 0x1, -172342); (0x2F84E, 0x2F84E, 0x1, -172541);
  (0x2F84F, 0x2F84F, 0x1, -172507); (0x2F850, 0x2F850, 0x1, -173641); (0x2F851, 0x2F851, 0x1, -171875);
  (0x2F852, 0x2F852, 0x1, -172164); (0x2F853, 0x2F853, 0x1, -172127); (0x2F854, 0x2F854, 0x1, -172103);
  (0x2F855, 0x2F855, 0x1, -172234); (0x2F856, 0x2F856, 0x1, -172068); (0x2F857, 0x2F857, 0x1, -172070);
  (0x2F858, 0x2F858, 0x1, -171948); (0x2F859, 0x2F859, 0x1, -58229); (0x2F85A, 0x2F85A, 0x1, -171880);
  (0x2F85B, 0x2F85B, 0x1, -171876); (0x2F85C, 0x2F85C, 0x1, -171862); (0x2F85D, 0x2F85D, 0x1, -171843);
  (0x2F85E, 0x2F85E, 0x1, -171836); (0x2F85F, 0x2F85F, 0x1, -171773); (0x2F860, 0x2F860, 0x1, -57784);
  (0x2F861, 0x2F861, 0x1, -57719); (0x2F862, 0x2F862, 0x1, -171638); (0x2F863, 0x2F863, 0x1, -171592);
  (0x2F864, 0x2F864, 0x1, -171581); (0x2F865, 0x2F865, 0x1, -171661); (0x2F866, 0x2F866, 0x1, -171520);
  (0x2F867, 0x2F867, 0x1, -180601); (0x2F868, 0x2F868, 0x1, -180588); (0x2F869, 0x2F869, 0x1, -171361);
  (0x2F86A, 0x2F86A, 0x1, -171308); (0x2F86B, 0x2F86B, 0x1, -171309); (0x2F86C, 0x2F86C, 0x1, -56996);
  (0x2F86D, 0x2F86D, 0x1, -171178); (0x2F86E, 0x2F86E, 0x1, -171158); (0x2F86F, 0x2F86F, 0x1, -171144);
  (0x2F870, 0x2F870, 0x1, -171133); (0x2F871, 0x2F871, 0x1, -56665); (0x2F872, 0x2F872, 0x1, -171123);
  (0x2F873, 0x2F873, 0x1, -171117); (0x2F874, 0x2F874, 0x1, -170273); (0x2F875, 0x2F875, 0x1, -171091);
  (0x2F876, 0x2F876, 0x1, -180469); (0x2F877, 0x2F877, 0x1, -171031); (0x2F878, 0x2F878, 0x1, -171018);
  (0x2F879, 0x2F879, 0x1, -170937); (0x2F87A, 0x2F87A, 0x1, -170989); (0x2F87B, 0x2F87B, 0x1, -55959);
  (0x2F87C, 0x2F87C, 0x1, -170809); (0x2F87D, 0x2F87D, 0x1, -55959); (0x2F87E, 0x2F87E, 0x1, -170768);
  (0x2F87F, 0x2F87F, 0x1, -170772); (0x2F880, 0x2F880, 0x1, -170756); (0x2F881, 0x2F882, 0x1, -170656);
  (0x2F883, 0x2F883, 0x1, -180308); (0x2F884, 0x2F884, 0x1, -170631); (0x2F885, 0x2F885, 0x1, -170589);
  (0x2F886, 0x2F886, 0x1, -170569); (0x2F887, 0x2F887, 0x1, -170526); (0x2F888, 0x2F888, 0x1, -180262);
  (0x2F889, 0x2F889, 0x1, -55046); (0x2F88A, 0x2F88A, 0x1, -180238); (0x2F88B, 0x2F88B, 0x1, -170459);
  (0x2F88C, 0x2F88C, 0x1, -170457); (0x2F88D, 0x2F88D, 0x1, -170455); (0x2F88E, 0x2F88E, 0x1, -170436);
  (0x2F88F, 0x2F88F, 0x1, -21757); (0x2F890, 0x2F890, 0x1, -170386); (0x2F891, 0x2F891, 0x1, -54624);
  (0x2F892, 0x2F892, 0x1, -54625); (0x2F893, 0x2F893, 0x1, -161426); (0x2F894, 0x2F894, 0x1, -170354);
  (0x2F895, 0x2F895, 0x1, -170355); (0x2F896, 0x2F896, 0x1, -180175); (0x2F897, 0x2F897, 0x1, -50655);
  (0x2F898, 0x2F898, 0x1, -38590); (0x2F899, 0x2F899, 0x1, -170295); (0x2F89A, 0x2F89A, 0x1, -170287);
  (0x2F89B, 0x2F89B, 0x1, -180152); (0x2F89C, 0x2F89C, 0x1, -170242); (0x2F89D, 0x2F89D, 0x1, -170192);
  (0x2F89E, 0x2F89E, 0x1, -170183); (0x2F89F, 0x2F89F, 0x1, -170150); (0x2F8A0, 0x2F8A0, 0x1, -170015);
  (0x2F8A1, 0x2F8A1, 0x1, -180071); (0x2F8A2, 0x2F8A2, 0x1, -180102); (0x2F8A3, 0x2F8A3, 0x1, -169999);
  (0x2F8A4, 0x2F8A4, 0x1, -53712); (0x2F8A5, 0x2F8A5, 0x1, -169950); (0x2F8A6, 0x2F8A6, 0x1, -169822);
  (0x2F8A7, 0x2F8A7, 0x1, -169819); (0x2F8A8, 0x2F8A8, 0x1, -169818); (0x2F8A9, 0x2F8A9, 0x1, -169821);
  (0x2F8AA, 0x2F8AA, 0x1, -169776); (0x2F8AB, 0x2F8AB, 0x1, -169757); (0x2F8AC, 0x2F8AC, 0x1, -169722);
  (0x2F8AD, 0x2F8AD, 0x1, -169737); (0x2F8AE, 0x2F8AE, 0x1, -169727); (0x2F8AF, 0x2F8AF, 0x1, -169681);
  (0x2F8B0, 0x2F8B0, 0x1, -169662); (0x2F8B1, 0x2F8B1, 0x1, -169659); (0x2F8B2, 0x2F8B2, 0x1, -169634);
  (0x2F8B3, 0x2F8B3, 0x1, -169624); (0x2F8B4, 0x2F8B4, 0x1, -169559); (0x2F8B5, 0x2F8B5, 0x1, -169476);
  (0x2F8B6, 0x2F8B6, 0x1, -169442); (0x2F8B7, 0x2F8B7, 0x1, -169319); (0x2F8B8, 0x2F8B8, 0x1, -52652);
  (0x2F8B9, 0x2F8B9, 0x1, -169340); (0x2F8BA, 0x2F8BA, 0x1, -169406); (0x2F8BB, 0x2F8BB, 0x1, -169299);
  (0x2F8BC, 0x2F8BC, 0x1, -169273); (0x2F8BD, 0x2F8BD, 0x1, -169177); (0x2F8BE, 0x2F8BE, 0x1, -52429);
  (0x2F8BF, 0x2F8BF, 0x1, -169117); (0x2F8C0, 0x2F8C0, 0x1, -169211); (0x2F8C1, 0x2F8C1, 0x1, -169240);
  (0x2F8C2, 0x2F8C2, 0x1, -179860); (0x2F8C3, 0x2F8C3, 0x1, -169050); (0x2F8C4, 0x2F8C4, 0x1, -169030);
  (0x2F8C5, 0x2F8C5, 0x1, -169000); (0x2F8C6, 0x2F8C6, 0x1, -169039); (0x2F8C7, 0x2F8C7, 0x1, -179803);
  (0x2F8C8, 0x2F8C8, 0x1, -168825); (0x2F8C9, 0x2F8C9, 0x1, -168797); (0x2F8CA, 0x2F8CA, 0x1, -51392);
  (0x2F8CB, 0x2F8CB, 0x1, -168680); (0x2F8CC, 0x2F8CC, 0x1, -168404); (0x2F8CD, 0x2F8CD, 0x1, -168580);
  (0x2F8CE, 0x2F8CE, 0x1, -179637); (0x2F8CF, 0x2F8CF, 0x1, -168510); (0x2F8D0, 0x2F8D0, 0x1, -179656);
  (0x2F8D1, 0x2F8D1, 0x1, -179693); (0x2F8D2, 0x2F8D2, 0x1, -173888); (0x2F8D3, 0x2F8D3, 0x1, -173886);
  (0x2F8D4, 0x2F8D4, 0x1, -168404); (0x2F8D5, 0x2F8D5, 0x1, -168505); (0x2F8D6, 0x2F8D6, 0x1, -161833);
  (0x2F8D7, 0x2F8D7, 0x1, -177406); (0x2F8D8, 0x2F8D8, 0x1, -168385); (0x2F8D9, 0x2F8D9, 0x1, -168382);
  (0x2F8DA, 0x2F8DA, 0x1, -168377); (0x2F8DB, 0x2F8DB, 0x1, -168317); (0x2F8DC, 0x2F8DC, 0x1, -168329);
  (0x2F8DD, 0x2F8DD, 0x1, -50458); (0x2F8DE, 0x2F8DE, 0x1, -179605); (0x2F8DF, 0x2F8DF, 0x1, -168165);
  (0x2F8E0, 0x2F8E0, 0x1, -168283); (0x2F8E1, 0x2F8E1, 0x1, -168079); (0x2F8E2, 0x2F8E2, 0x1, -168029);
  (0x2F8E3, 0x2F8E3, 0x1, -50294); (0x2F8E4, 0x2F8E4, 0x1, -168022); (0x2F8E5, 0x2F8E5, 0x1, -168134);
  (0x2F8E6, 0x2F8E6, 0x1, -167890); (0x2F8E7, 0x2F8E7, 0x1, -179530); (0x2F8E8, 0x2F8E8, 0x1, -167846);
  (0x2F8E9, 0x2F8E9, 0x1, -167750); (0x2F8EA, 0x2F8EA, 0x1, -167680); (0x2F8EB, 0x2F8EB, 0x1, -167491);
  (0x2F8EC, 0x2F8EC, 0x1, -49737); (0x2F8ED, 0x2F8ED, 0x1, -167442); (0x2F8EE, 0x2F8EE, 0x1, -179414);
  (0x2F8EF, 0x2F8EF, 0x1, -167374); (0x2F8F0, 0x2F8F0, 0x1, -49225); (0x2F8F1, 0x2F8F1, 0x1, -167325);
  (0x2F8F2, 0x2F8F2, 0x1, -179364); (0x2F8F3, 0x2F8F3, 0x1, -167297); (0x2F8F4, 0x2F8F4, 0x1, -167253);
  (0x2F8F5, 0x2F8F6, 0x1, -167227); (0x2F8F7, 0x2F8F7, 0x1, -48746); (0x2F8F8, 0x2F8F8, 0x1, -56301);
  (0x2F8F9, 0x2F8F9, 0x1, -48639); (0x2F8FA, 0x2F8FA, 0x1, -167084); (0x2F8FB, 0x2F8FB, 0x1, -48191);
  (0x2F8FC, 0x2F8FC, 0x1, -166973); (0x2F8FD, 0x2F8FD, 0x1, -166960); (0x2F8FE, 0x2F8FE, 0x1, -167063);
  (0x2F8FF, 0x2F8FF, 0x1, -166889); (0x2F900, 0x2F900, 0x1, -166850); (0x2F901, 0x2F901, 0x1, -166794);
  (0x2F902, 0x2F902, 0x1, -166849); (0x2F903, 0x2F903, 0x1, -166810); (0x2F904, 0x2F904, 0x1, -166796);
  (0x2F905, 0x2F905, 0x1, -166784); (0x2F906, 0x2F906, 0x1, -48104); (0x2F907, 0x2F907, 0x1, -166867);
  (0x2F908, 0x2F908, 0x1, -166617); (0x2F909, 0x2F909, 0x1, -166555); (0x2F90A, 0x2F90A, 0x1, -179159);
  (0x2F90B, 0x2F90B, 0x1, -166464); (0x2F90C, 0x2F90C, 0x1, -166469); (0x2F90D, 0x2F90D, 0x1, -47676);
  (0x2F90E, 0x2F90E, 0x1, -166677); (0x2F90F, 0x2F90F, 0x1, -166305); (0x2F910, 0x2F910, 0x1, -47538);
  (0x2F911, 0x2F911, 0x1, -47491); (0x2F912, 0x2F912, 0x1, -166220); (0x2F913, 0x2F913, 0x1, -166106);
  (0x2F914, 0x2F914, 0x1, -166134); (0x2F915, 0x2F915, 0x1, -166138); (0x2F916, 0x2F916, 0x1, -179072);
  (0x2F917, 0x2F917, 0x1, -166093); (0x2F918, 0x2F918, 0x1, -166043); (0x2F919, 0x2F919, 0x1, -166050);
  (0x2F91A, 0x2F91A, 0x1, -165997); (0x2F91B, 0x2F91B, 0x1, -62454); (0x2F91C, 0x2F91C, 0x1, -165847);
  (0x2F91D, 0x2F91D, 0x1, -46778); (0x2F91E, 0x2F91E, 0x1, -165762); (0x2F91F, 0x2F91F, 0x1, -46452);
  (0x2F920, 0x2F920, 0x1, -165624); (0x2F921, 0x2F921, 0x1, -165612); (0x2F922, 0x2F922, 0x1, -165586);
  (0x2F923, 0x2F923, 0x1, -45851); (0x2F924, 0x2F924, 0x1, -165540); (0x2F925, 0x2F925, 0x1, -165520);
  (0x2F926, 0x2F926, 0x1, -45553); (0x2F927, 0x2F927, 0x1, -45331); (0x2F928, 0x2F928, 0x1, -165294);
  (0x2F929, 0x2F929, 0x1, -165278); (0x2F92A, 0x2F92A, 0x1, -178814); (0x2F92B, 0x2F92B, 0x1, -165254);
  (0x2F92C, 0x2F92C, 0x1, -178804); (0x2F92D, 0x2F92D, 0x1, -178805); (0x2F92E, 0x2F92E, 0x1, -165095);
  (0x2F92F, 0x2F92F, 0x1, -165075); (0x2F930, 0x2F930, 0x1, -165055); (0x2F931, 0x2F931, 0x1, -165036);
  (0x2F932, 0x2F932, 0x1, -164968); (0x2F933, 0x2F933, 0x1, -178712); (0x2F934, 0x2F934, 0x1, -164880);
  (0x2F935, 0x2F935, 0x1, -44287); (0x2F936, 0x2F936, 0x1, -164856); (0x2F937, 0x2F937, 0x1, -44197);
  (0x2F938, 0x2F938, 0x1, -164808); (0x2F939, 0x2F939, 0x1, -55194); (0x2F93A, 0x2F93A, 0x1, -164650);
  (0x2F93B, 0x2F93B, 0x1, -43418); (0x2F93C, 0x2F93C, 0x1, -43396); (0x2F93D, 0x2F93D, 0x1, -43257);
  (0x2F93E, 0x2F93E, 0x1, -178498); (0x2F93F, 0x2F93F, 0x1, -178487); (0x2F940, 0x2F940, 0x1, -164428);
  (0x2F941, 0x2F941, 0x1, -43086); (0x2F942, 0x2F942, 0x1, -43088); (0x2F943, 0x2F943, 0x1, -43050);
  (0x2F944, 0x2F944, 0x1, -43025); (0x2F945, 0x2F946, 0x1, -164391); (0x2F947, 0x2F947, 0x1, -164392);
  (0x2F948, 0x2F948, 0x1, -164350); (0x2F949, 0x2F949, 0x1, -178448); (0x2F94A, 0x2F94A, 0x1, -164287);
  (0x2F94B, 0x2F94B, 0x1, -178437); (0x2F94C, 0x2F94C, 0x1, -178358); (0x2F94D, 0x2F94D, 0x1, -42288);
  (0x2F94E, 0x2F94E, 0x1, -164096); (0x2F94F, 0x2F94F, 0x1, -164035); (0x2F950, 0x2F950, 0x1, -163972);
  (0x2F951, 0x2F951, 0x1, -178286); (0x2F952, 0x2F952, 0x1, -41772); (0x2F953, 0x2F953, 0x1, -163837);
  (0x2F954, 0x2F954, 0x1, -41658); (0x2F955, 0x2F955, 0x1, -41616); (0x2F956, 0x2F956, 0x1, -163783);
  (0x2F957, 0x2F957, 0x1, -163692); (0x2F958, 0x2F958, 0x1, -178217); (0x2F959, 0x2F959, 0x1, -163609);
  (0x2F95A, 0x2F95A, 0x1, -163600); (0x2F95B, 0x2F95B, 0x1, -163596); (0x2F95C, 0x2F95C, 0x1, -40928);
  (0x2F95D, 0x2F95D, 0x1, -40630); (0x2F95E, 0x2F95E, 0x1, -40631); (0x2F95F, 0x2F95F, 0x1, -163441);
  (0x2F960, 0x2F960, 0x1, -178014); (0x2F961, 0x2F961, 0x1, -40374); (0x2F962, 0x2F962, 0x1, -163228);
  (0x2F963, 0x2F963, 0x1, -163226); (0x2F964, 0x2F964, 0x1, -177981); (0x2F965, 0x2F965, 0x1, -40165);
  (0x2F966, 0x2F966, 0x1, -162964); (0x2F967, 0x2F967, 0x1, -177863); (0x2F968, 0x2F968, 0x1, -162944);
  (0x2F969, 0x2F969, 0x1, -162950); (0x2F96A, 0x2F96A, 0x1, -162922); (0x2F96B, 0x2F96B, 0x1, -39397);
  (0x2F96C, 0x2F96C, 0x1, -162825); (0x2F96D, 0x2F96D, 0x1, -177772); (0x2F96E, 0x2F96E, 0x1, -162727);
  (0x2F96F, 0x2F96F, 0x1, -162669); (0x2F970, 0x2F970, 0x1, -162603); (0x2F971, 0x2F971, 0x1, -177725);
  (0x2F972, 0x2F972, 0x1, -38730); (0x2F973, 0x2F973, 0x1, -38700); (0x2F974, 0x2F974, 0x1, -177691);
  (0x2F975, 0x2F975, 0x1, -38556); (0x2F976, 0x2F976, 0x1, -162300); (0x2F977, 0x2F977, 0x1, -38457);
  (0x2F978, 0x2F978, 0x1, -162275); (0x2F979, 0x2F979, 0x1, -162175); (0x2F97A, 0x2F97A, 0x1, -162165);
  (0x2F97B, 0x2F97B, 0x1, -38049); (0x2F97C, 0x2F97C, 0x1, -37977); (0x2F97D, 0x2F97D, 0x1, -162077);
  (0x2F97E, 0x2F97E, 0x1, -37846); (0x2F97F, 0x2F97F, 0x1, -162063); (0x2F980, 0x2F980, 0x1, -50721);
  (0x2F981, 0x2F981, 0x1, -177580); (0x2F982, 0x2F982, 0x1, -162000); (0x2F983, 0x2F983, 0x1, -161920);
  (0x2F984, 0x2F984, 0x1, -177529); (0x2F985, 0x2F985, 0x1, -161863); (0x2F986, 0x2F986, 0x1, -171729);
  (0x2F987, 0x2F987, 0x1, -37344); (0x2F988, 0x2F988, 0x1, -37331); (0x2F989, 0x2F989, 0x1, -50678);
  (0x2F98A, 0x2F98A, 0x1, -50670); (0x2F98B, 0x2F98B, 0x1, -161674); (0x2F98C, 0x2F98C, 0x1, -161672);
  (0x2F98D, 0x2F98D, 0x1, -158191); (0x2F98E, 0x2F98E, 0x1, -177443); (0x2F98F, 0x2F98F, 0x1, -161534);
  (0x2F990, 0x2F990, 0x1, -161541); (0x2F991, 0x2F991, 0x1, -161524); (0x2F992, 0x2F992, 0x1, -173791);
  (0x2F993, 0x2F993, 0x1, -161506); (0x2F994, 0x2F994, 0x1, -161505); (0x2F995, 0x2F995, 0x1, -161496);
  (0x2F996, 0x2F996, 0x1, -161456); (0x2F997, 0x2F997, 0x1, -36443); (0x2F998, 0x2F998, 0x1, -161459);
  (0x2F999, 0x2F999, 0x1, -161404); (0x2F99A, 0x2F99A, 0x1, -161335); (0x2F99B, 0x2F99B, 0x1, -161262);
  (0x2F99C, 0x2F99C, 0x1, -161401); (0x2F99D, 0x2F99D, 0x1, -161248); (0x2F99E, 0x2F99E, 0x1, -161207);
  (0x2F99F, 0x2F99F, 0x1, -161096); (0x2F9A0, 0x2F9A0, 0x1, -161357); (0x2F9A1, 0x2F9A1, 0x1, -161239);
  (0x2F9A2, 0x2F9A2, 0x1, -161238); (0x2F9A3, 0x2F9A3, 0x1, -161223); (0x2F9A4, 0x2F9A4, 0x1, -36206);
  (0x2F9A5, 0x2F9A5, 0x1, -35898); (0x2F9A6, 0x2F9A6, 0x1, -36049); (0x2F9A7, 0x2F9A7, 0x1, -177276);
  (0x2F9A8, 0x2F9A8, 0x1, -160951); (0x2F9A9, 0x2F9A9, 0x1, -160950); (0x2F9AA, 0x2F9AA, 0x1, -160916);
  (0x2F9AB, 0x2F9AB, 0x1, -34273); (0x2F9AC, 0x2F9AC, 0x1, -160840); (0x2F9AD, 0x2F9AD, 0x1, -35457);
  (0x2F9AE, 0x2F9AE, 0x1, -177233); (0x2F9AF, 0x2F9AF, 0x1, -177230); (0x2F9B0, 0x2F9B0, 0x1, -35327);
  (0x2F9B1, 0x2F9B1, 0x1, -35039); (0x2F9B2, 0x2F9B2, 0x1, -177223); (0x2F9B3, 0x2F9B3, 0x1, -160611);
  (0x2F9B4, 0x2F9B4, 0x1, -160600); (0x2F9B5, 0x2F9B5, 0x1, -160590); (0x2F9B6, 0x2F9B6, 0x1, -160589);
  (0x2F9B7, 0x2F9B7, 0x1, -160526); (0x2F9B8, 0x2F9B8, 0x1, -160560); (0x2F9B9, 0x2F9B9, 0x1, -160427);
  (0x2F9BA, 0x2F9BA, 0x1, -160472); (0x2F9BB, 0x2F9BB, 0x1, -160322); (0x2F9BC, 0x2F9BC, 0x1, -160404);
  (0x2F9BD, 0x2F9BD, 0x1, -160338); (0x2F9BE, 0x2F9BE, 0x1, -160312); (0x2F9BF, 0x2F9BF, 0x1, -177128);
  (0x2F9C0, 0x2F9C0, 0x1, -160223); (0x2F9C1, 0x2F9C1, 0x1, -160192); (0x2F9C2, 0x2F9C2, 0x1, -177097);
  (0x2F9C3, 0x2F9C3, 0x1, -160099); (0x2F9C4, 0x2F9C4, 0x1, -160097); (0x2F9C5, 0x2F9C5, 0x1, -33630);
  (0x2F9C6, 0x2F9C6, 0x1, -159983); (0x2F9C7, 0x2F9C7, 0x1, -159977); (0x2F9C8, 0x2F9C8, 0x1, -177043);
  (0x2F9C9, 0x2F9C9, 0x1, -159951); (0x2F9CA, 0x2F9CA, 0x1, -181519); (0x2F9CB, 0x2F9CB, 0x1, -33053);
  (0x2F9CC, 0x2F9CC, 0x1, -32870); (0x2F9CD, 0x2F9CD, 0x1, -176911); (0x2F9CE, 0x2F9CE, 0x1, -176903);
  (0x2F9CF, 0x2F9CF, 0x1, -159535); (0x2F9D0, 0x2F9D0, 0x1, -159459); (0x2F9D1, 0x2F9D1, 0x1, -159303);
  (0x2F9D2, 0x2F9D2, 0x1, -159101); (0x2F9D3, 0x2F9D3, 0x1, -32043); (0x2F9D4, 0x2F9D4, 0x1, -159017);
  (0x2F9D5, 0x2F9D5, 0x1, -158996); (0x2F9D6, 0x2F9D6, 0x1, -158907); (0x2F9D7, 0x2F9D7, 0x1, -158816);
  (0x2F9D8, 0x2F9D8, 0x1, -31401); (0x2F9D9, 0x2F9D9, 0x1, -61909); (0x2F9DA, 0x2F9DA, 0x1, -158735);
  (0x2F9DB, 0x2F9DB, 0x1, -158751); (0x2F9DC, 0x2F9DC, 0x1, -158700); (0x2F9DD, 0x2F9DD, 0x1, -61695);
  (0x2F9DE, 0x2F9DE, 0x1, -158474); (0x2F9DF, 0x2F9DF, 0x1, -158375); (0x2F9E0, 0x2F9E0, 0x1, -29710);
  (0x2F9E1, 0x2F9E1, 0x1, -29684); (0x2F9E2, 0x2F9E2, 0x1, -158030); (0x2F9E3, 0x2F9E3, 0x1, -157938);
  (0x2F9E4, 0x2F9E4, 0x1, -157907); (0x2F9E5, 0x2F9E5, 0x1, -29367); (0x2F9E6, 0x2F9E6, 0x1, -157899);
  (0x2F9E7, 0x2F9E7, 0x1, -157615); (0x2F9E8, 0x2F9E9, 0x1, -157457); (0x2F9EA, 0x2F9EA, 0x1, -157550);
  (0x2F9EB, 0x2F9EB, 0x1, -157170); (0x2F9EC, 0x2F9EC, 0x1, -157143); (0x2F9ED, 0x2F9ED, 0x1, -28147);
  (0x2F9EE, 0x2F9EE, 0x1, -156771); (0x2F9EF, 0x2F9EF, 0x1, -176218); (0x2F9F0, 0x2F9F0, 0x1, -156729);
  (0x2F9F1, 0x2F9F1, 0x1, -27770); (0x2F9F2, 0x2F9F2, 0x1, -176140); (0x2F9F3, 0x2F9F3, 0x1, -156464);
  (0x2F9F4, 0x2F9F4, 0x1, -171074); (0x2F9F5, 0x2F9F5, 0x1, -156370); (0x2F9F6, 0x2F9F6, 0x1, -26801);
  (0x2F9F7, 0x2F9F7, 0x1, -26589); (0x2F9F8, 0x2F9F8, 0x1, -176010); (0x2F9F9, 0x2F9F9, 0x1, -176003);
  (0x2F9FA, 0x2F9FA, 0x1, -156186); (0x2F9FB, 0x2F9FB, 0x1, -26097); (0x2F9FC, 0x2F9FC, 0x1, -175946);
  (0x2F9FD, 0x2F9FD, 0x1, -25959); (0x2F9FE, 0x2F9FE, 0x1, -156147); (0x2F9FF, 0x2F9FF, 0x1, -156148);
  (0x2FA00, 0x2FA00, 0x1, -156119); (0x2FA01, 0x2FA01, 0x1, -25675); (0x2FA02, 0x2FA02, 0x1, -155936);
  (0x2FA03, 0x2FA03, 0x1, -175824); (0x2FA04, 0x2FA04, 0x1, -155867); (0x2FA05, 0x2FA05, 0x1, -155742);
  (0x2FA06, 0x2FA06, 0x1, -155716); (0x2FA07, 0x2FA07, 0x1, -155657); (0x2FA08, 0x2FA08, 0x1, -175674);
  (0x2FA09, 0x2FA09, 0x1, -24281); (0x2FA0A, 0x2FA0A, 0x1, -155384); (0x2FA0B, 0x2FA0B, 0x1, -155083);
  (0x2FA0C, 0x2FA0C, 0x1, -154895); (0x2FA0D, 0x2FA0D, 0x1, -175423); (0x2FA0E, 0x2FA0E, 0x1, -175393);
  (0x2FA0F, 0x2FA0F, 0x1, -154792); (0x2FA10, 0x2FA10, 0x1, -22850); (0x2FA11, 0x2FA11, 0x1, -175385);
  (0x2FA12, 0x2FA12, 0x1, -22797); (0x2FA13, 0x2FA13, 0x1, -22533); (0x2FA14, 0x2FA14, 0x1, -22403);
  (0x2FA15, 0x2FA15, 0x1, -154458); (0x2FA16, 0x2FA16, 0x1, -175296); (0x2FA17, 0x2FA17, 0x1, -154398);
  (0x2FA18, 0x2FA18, 0x1, -154394); (0x2FA19, 0x2FA19, 0x1, -154388); (0x2FA1A, 0x2FA1A, 0x1, -154379);
  (0x2FA1B, 0x2FA1B, 0x1, -154373); (0x2FA1C, 0x2FA1C, 0x1, -154337); (0x2FA1D, 0x2FA1D, 0x1, -21533)].

Definition kNormMulti : list (Z * Z * Z) := [
  (0xBC, 0x0, 0x3); (0xBD, 0x3, 0x3); (0xBE, 0x6, 0x3); (0x132, 0x9, 0x2); (0x133, 0xB, 0x2);
  (0x13F, 0xD, 0x2); (0x140, 0xF, 0x2); (0x149, 0x11, 0x2); (0x1C4, 0x13, 0x2); (0x1C5, 0x15, 0x2);
  (0x1C6, 0x17, 0x2); (0x1C7, 0x19, 0x2); (0x1C8, 0x1B, 0x2); (0x1C9, 0x1D, 0x2); (0x1CA, 0x1F, 0x2);
  (0x1CB, 0x21, 0x2); (0x1CC, 0x23, 0x2); (0x1F1, 0x25, 0x2); (0x1F2, 0x27, 0x2); (0x1F3, 0x29, 0x2);
  (0x587, 0x2B, 0x2); (0x675, 0x2D, 0x2); (0x676, 0x2F, 0x2); (0x677, 0x31, 0x2); (0x678, 0x33, 0x2);
  (0xEDC, 0x35, 0x2); (0xEDD, 0x37, 0x2); (0x1E9A, 0x39, 0x2); (0x2025, 0x3B, 0x2); (0x2026, 0x3D, 0x3);
  (0x2033, 0x40, 0x2); (0x2034, 0x42, 0x3); (0x2036, 0x45, 0x2); (0x2037, 0x47, 0x3); (0x203C, 0x4A, 0x2);
  (0x2047, 0x4C, 0x2); (0x2048, 0x4E, 0x2); (0x2049, 0x50, 0x2); (0x2057, 0x52, 0x4); (0x20A8, 0x56, 0x2);
  (0x2100, 0x58, 0x3); (0x2101, 0x5B, 0x3); (0x2103, 0x5E, 0x2); (0x2105, 0x60, 0x3); (0x2106, 0x63, 0x3);
  (0x2109, 0x66, 0x2); (0x2116, 0x68, 0x2); (0x2120, 0x6A, 0x2); (0x2121, 0x6C, 0x3); (0x2122, 0x6F, 0x2);
  (0x213B, 0x71, 0x3); (0x2150, 0x74, 0x3); (0x2151, 0x77, 0x3); (0x2152, 0x7A, 0x4); (0x2153, 0x7E, 0x3);
  (0x2154, 0x81, 0x3); (0x2155, 0x84, 0x3); (0x2156, 0x87, 0x3); (0x2157, 0x8A, 0x3); (0x2158, 0x8D, 0x3);
  (0x2159, 0x90, 0x3); (0x215A, 0x93, 0x3); (0x215B, 0x96, 0x3); (0x215C, 0x99, 0x3); (0x215D, 0x9C, 0x3);
  (0x215E, 0x9F, 0x3); (0x215F, 0xA2, 0x2); (0x2161, 0xA4, 0x2); (0x2162, 0xA6, 0x3); (0x2163, 0xA9, 0x2);
  (0x2165, 0xAB, 0x2); (0x2166, 0xAD, 0x3); (0x2167, 0xB0, 0x4); (0x2168, 0xB4, 0x2); (0x216A, 0xB6, 0x2);
  (0x216B, 0xB8, 0x3); (0x2171, 0xBB, 0x2); (0x2172, 0xBD, 0x3); (0x2173, 0xC0, 0x2); (0x2175, 0xC2, 0x2);
  (0x2176, 0xC4, 0x3); (0x2177, 0xC7, 0x4); (0x2178, 0xCB, 0x2); (0x217A, 0xCD, 0x2); (0x217B, 0xCF, 0x3);
  (0x2189, 0xD2, 0x3); (0x222C, 0xD5, 0x2); (0x222D, 0xD7, 0x3); (0x222F, 0xDA, 0x2); (0x2230, 0xDC, 0x3);
  (0x2469, 0xDF, 0x2); (0x246A, 0xE1, 0x2); (0x246B, 0xE3, 0x2); (0x246C, 0xE5, 0x2); (0x246D, 0xE7, 0x2);
  (0x246E, 0xE9, 0x2); (0x246F, 0xEB, 0x2); (0x2470, 0xED, 0x2); (0x2471, 0xEF, 0x2); (0x2472, 0xF1, 0x2);
  (0x2473, 0xF3, 0x2); (0x2474, 0xF5, 0x3); (0x2475, 0xF8, 0x3); (0x2476, 0xFB, 0x3); (0x2477, 0xFE, 0x3);
  (0x2478, 0x101, 0x3); (0x2479, 0x104, 0x3); (0x247A, 0x107, 0x3); (0x247B, 0x10A, 0x3);
  (0x247C, 0x10D, 0x3); (0x247D, 0x110, 0x4); (0x247E, 0x114, 0x4); (0x247F, 0x118, 0x4);
  (0x2480, 0x11C, 0x4); (0x2481, 0x120, 0x4); (0x2482, 0x124, 0x4); (0x2483, 0x128, 0x4);
  (0x2484, 0x12C, 0x4); (0x2485, 0x130, 0x4); (0x2486, 0x134, 0x4); (0x2487, 0x138, 0x4);
  (0x2488, 0x13C, 0x2); (0x2489, 0x13E, 0x2); (0x248A, 0x140, 0x2); (0x248B, 0x142, 0x2);
  (0x248C, 0x144, 0x2); (0x248D, 0x146, 0x2); (0x248E, 0x148, 0x2); (0x248F, 0x14A, 0x2);
  (0x2490, 0x14C, 0x2); (0x2491, 0x14E, 0x3); (0x2492, 0x151, 0x3); (0x2493, 0x154, 0x3);
  (0x2494, 0x157, 0x3); (0x2495, 0x15A, 0x3); (0x2496, 0x15D, 0x3); (0x2497, 0x160, 0x3);
  (0x2498, 0x163, 0x3); (0x2499, 0x166, 0x3); (0x249A, 0x169, 0x3); (0x249B, 0x16C, 0x3);
  (0x249C, 0x16F, 0x3); (0x249D, 0x172, 0x3); (0x249E, 0x175, 0x3); (0x249F, 0x178, 0x3);
  (0x24A0, 0x17B, 0x3); (0x24A1, 0x17E, 0x3); (0x24A2, 0x181, 0x3); (0x24A3, 0x184, 0x3);
  (0x24A4, 0x187, 0x3); (0x24A5, 0x18A, 0x3); (0x24A6, 0x18D, 0x3); (0x24A7, 0x190, 0x3);
  (0x24A8, 0x193, 0x3); (0x24A9, 0x196, 0x3); (0x24AA, 0x199, 0x3); (0x24AB, 0x19C, 0x3);
  (0x24AC, 0x19F, 0x3); (0x24AD, 0x1A2, 0x3); (0x24AE, 0x1A5, 0x3); (0x24AF, 0x1A8, 0x3);
  (0x24B0, 0x1AB, 0x3); (0x24B1, 0x1AE, 0x3); (0x24B2, 0x1B1, 0x3); (0x24B3, 0x1B4, 0x3);
  (0x24B4, 0x1B7, 0x3); (0x24B5, 0x1BA, 0x3); (0x2A0C, 0x1BD, 0x4); (0x2A74, 0x1C1, 0x3);
  (0x2A75, 0x1C4, 0x2); (0x2A76, 0x1C6, 0x3); (0x309F, 0x1C9, 0x2); (0x30FF, 0x1CB, 0x2);
  (0x3200, 0x1CD, 0x3); (0x3201, 0x1D0, 0x3); (0x3202, 0x1D3, 0x3); (0x3203, 0x1D6, 0x3);
  (0x3204, 0x1D9, 0x3); (0x3205, 0x1DC, 0x3); (0x3206, 0x1DF, 0x3); (0x3207, 0x1E2, 0x3);
  (0x3208, 0x1E5, 0x3); (0x3209, 0x1E8, 0x3); (0x320A, 0x1EB, 0x3); (0x320B, 0x1EE, 0x3);
  (0x320C, 0x1F1, 0x3); (0x320D, 0x1F4, 0x3); (0x320E, 0x1F7, 0x4); (0x320F, 0x1FB, 0x4);
  (0x3210, 0x1FF, 0x4); (0x3211, 0x203, 0x4); (0x3212, 0x207, 0x4); (0x3213, 0x20B, 0x4);
  (0x3214, 0x20F, 0x4); (0x3215, 0x213, 0x4); (0x3216, 0x217, 0x4); (0x3217, 0x21B, 0x4);
  (0x3218, 0x21F, 0x4); (0x3219, 0x223, 0x4); (0x321A, 0x227, 0x4); (0x321B, 0x22B, 0x4);
  (0x321C, 0x22F, 0x4); (0x321D, 0x233, 0x7); (0x321E, 0x23A, 0x6); (0x3220, 0x240, 0x3);
  (0x3221, 0x243, 0x3); (0x3222, 0x246, 0x3); (0x3223, 0x249, 0x3); (0x3224, 0x24C, 0x3);
  (0x3225, 0x24F, 0x3); (0x3226, 0x252, 0x3); (0x3227, 0x255, 0x3); (0x3228, 0x258, 0x3);
  (0x3229, 0x25B, 0x3); (0x322A, 0x25E, 0x3); (0x322B, 0x261, 0x3); (0x322C, 0x264, 0x3);
  (0x322D, 0x267, 0x3); (0x322E, 0x26A, 0x3); (0x322F, 0x26D, 0x3); (0x3230, 0x270, 0x3);
  (0x3231, 0x273, 0x3); (0x3232, 0x276, 0x3); (0x3233, 0x279, 0x3); (0x3234, 0x27C, 0x3);
  (0x3235, 0x27F, 0x3); (0x3236, 0x282, 0x3); (0x3237, 0x285, 0x3); (0x3238, 0x288, 0x3);
  (0x3239, 0x28B, 0x3); (0x323A, 0x28E, 0x3); (0x323B, 0x291, 0x3); (0x323C, 0x294, 0x3);
  (0x323D, 0x297, 0x3); (0x323E, 0x29A, 0x3); (0x323F, 0x29D, 0x3); (0x3240, 0x2A0, 0x3);
  (0x3241, 0x2A3, 0x3); (0x3242, 0x2A6, 0x3); (0x3243, 0x2A9, 0x3); (0x3250, 0x2AC, 0x3);
  (0x3251, 0x2AF, 0x2); (0x3252, 0x2B1, 0x2); (0x3253, 0x2B3, 0x2); (0x3254, 0x2B5, 0x2);
  (0x3255, 0x2B7, 0x2); (0x3256, 0x2B9, 0x2); (0x3257, 0x2BB, 0x2); (0x3258, 0x2BD, 0x2);
  (0x3259, 0x2BF, 0x2); (0x325A, 0x2C1, 0x2); (0x325B, 0x2C3, 0x2); (0x325C, 0x2C5, 0x2);
  (0x325D, 0x2C7, 0x2); (0x325E, 0x2C9, 0x2); (0x325F, 0x2CB, 0x2); (0x326E, 0x2CD, 0x2);
  (0x326F, 0x2CF, 0x2); (0x3270, 0x2D1, 0x2); (0x3271, 0x2D3, 0x2); (0x3272, 0x2D5, 0x2);
  (0x3273, 0x2D7, 0x2); (0x3274, 0x2D9, 0x2); (0x3275, 0x2DB, 0x2); (0x3276, 0x2DD, 0x2);
  (0x3277, 0x2DF, 0x2); (0x3278, 0x2E1, 0x2); (0x3279, 0x2E3, 0x2); (0x327A, 0x2E5, 0x2);
  (0x327B, 0x2E7, 0x2); (0x327C, 0x2E9, 0x5); (0x327D, 0x2EE, 0x4); (0x327E, 0x2F2, 0x2);
  (0x32B1, 0x2F4, 0x2); (0x32B2, 0x2F6, 0x2); (0x32B3, 0x2F8, 0x2); (0x32B4, 0x2FA, 0x2);
  (0x32B5, 0x2FC, 0x2); (0x32B6, 0x2FE, 0x2); (0x32B7, 0x300, 0x2); (0x32B8, 0x302, 0x2);
  (0x32B9, 0x304, 0x2); (0x32BA, 0x306, 0x2); (0x32BB, 0x308, 0x2); (0x32BC, 0x30A, 0x2);
  (0x32BD, 0x30C, 0x2); (0x32BE, 0x30E, 0x2); (0x32BF, 0x310, 0x2); (0x32C0, 0x312, 0x2);
  (0x32C1, 0x314, 0x2); (0x32C2, 0x316, 0x2); (0x32C3, 0x318, 0x2); (0x32C4, 0x31A, 0x2);
  (0x32C5, 0x31C, 0x2); (0x32C6, 0x31E, 0x2); (0x32C7, 0x320, 0x2); (0x32C8, 0x322, 0x2);
  (0x32C9, 0x324, 0x3); (0x32CA, 0x327, 0x3); (0x32CB, 0x32A, 0x3); (0x32CC, 0x32D, 0x2);
  (0x32CD, 0x32F, 0x3); (0x32CE, 0x332, 0x2); (0x32CF, 0x334, 0x3); (0x3300, 0x337, 0x4);
  (0x3301, 0x33B, 0x4); (0x3302, 0x33F, 0x4); (0x3303, 0x343, 0x3); (0x3304, 0x346, 0x4);
  (0x3305, 0x34A, 0x3); (0x3306, 0x34D, 0x3); (0x3307, 0x350, 0x5); (0x3308, 0x355, 0x4);
  (0x3309, 0x359, 0x3); (0x330A, 0x35C, 0x3); (0x330B, 0x35F, 0x3); (0x330C, 0x362, 0x4);
  (0x330D, 0x366, 0x4); (0x330E, 0x36A, 0x3); (0x330F, 0x36D, 0x3); (0x3310, 0x370, 0x2);
  (0x3311, 0x372, 0x3); (0x3312, 0x375, 0x4); (0x3313, 0x379, 0x4); (0x3314, 0x37D, 0x2);
  (0x3315, 0x37F, 0x5); (0x3316, 0x384, 0x6); (0x3317, 0x38A, 0x5); (0x3318, 0x38F, 0x3);
  (0x3319, 0x392, 0x5); (0x331A, 0x397, 0x5); (0x331B, 0x39C, 0x4); (0x331C, 0x3A0, 0x3);
  (0x331D, 0x3A3, 0x3); (0x331E, 0x3A6, 0x3); (0x331F, 0x3A9, 0x4); (0x3320, 0x3AD, 0x5);
  (0x3321, 0x3B2, 0x4); (0x3322, 0x3B6, 0x3); (0x3323, 0x3B9, 0x3); (0x3324, 0x3BC, 0x3);
  (0x3325, 0x3BF, 0x2); (0x3326, 0x3C1, 0x2); (0x3327, 0x3C3, 0x2); (0x3328, 0x3C5, 0x2);
  (0x3329, 0x3C7, 0x3); (0x332A, 0x3CA, 0x3); (0x332B, 0x3CD, 0x5); (0x332C, 0x3D2, 0x3);
  (0x332D, 0x3D5, 0x4); (0x332E, 0x3D9, 0x5); (0x332F, 0x3DE, 0x3); (0x3330, 0x3E1, 0x2);
  (0x3331, 0x3E3, 0x2); (0x3332, 0x3E5, 0x5); (0x3333, 0x3EA, 0x4); (0x3334, 0x3EE, 0x5);
  (0x3335, 0x3F3, 0x3); (0x3336, 0x3F6, 0x5); (0x3337, 0x3FB, 0x2); (0x3338, 0x3FD, 0x3);
  (0x3339, 0x400, 0x3); (0x333A, 0x403, 0x3); (0x333B, 0x406, 0x3); (0x333C, 0x409, 0x3);
  (0x333D, 0x40C, 0x4); (0x333E, 0x410, 0x3); (0x333F, 0x413, 0x2); (0x3340, 0x415, 0x3);
  (0x3341, 0x418, 0x3); (0x3342, 0x41B, 0x3); (0x3343, 0x41E, 0x4); (0x3344, 0x422, 0x3);
  (0x3345, 0x425, 0x3); (0x3346, 0x428, 0x3); (0x3347, 0x42B, 0x5); (0x3348, 0x430, 0x4);
  (0x3349, 0x434, 0x2); (0x334A, 0x436, 0x5); (0x334B, 0x43B, 0x2); (0x334C, 0x43D, 0x4);
  (0x334D, 0x441, 0x4); (0x334E, 0x445, 0x3); (0x334F, 0x448, 0x3); (0x3350, 0x44B, 0x3);
  (0x3351, 0x44E, 0x4); (0x3352, 0x452, 0x2); (0x3353, 0x454, 0x3); (0x3354, 0x457, 0x4);
  (0x3355, 0x45B, 0x2); (0x3356, 0x45D, 0x5); (0x3357, 0x462, 0x3); (0x3358, 0x465, 0x2);
  (0x3359, 0x467, 0x2); (0x335A, 0x469, 0x2); (0x335B, 0x46B, 0x2); (0x335C, 0x46D, 0x2);
  (0x335D, 0x46F, 0x2); (0x335E, 0x471, 0x2); (0x335F, 0x473, 0x2); (0x3360, 0x475, 0x2);
  (0x3361, 0x477, 0x2); (0x3362, 0x479, 0x3); (0x3363, 0x47C, 0x3); (0x3364, 0x47F, 0x3);
  (0x3365, 0x482, 0x3); (0x3366, 0x485, 0x3); (0x3367, 0x488, 0x3); (0x3368, 0x48B, 0x3);
  (0x3369, 0x48E, 0x3); (0x336A, 0x491, 0x3); (0x336B, 0x494, 0x3); (0x336C, 0x497, 0x3);
  (0x336D, 0x49A, 0x3); (0x336E, 0x49D, 0x3); (0x336F, 0x4A0, 0x3); (0x3370, 0x4A3, 0x3);
  (0x3371, 0x4A6, 0x3); (0x3372, 0x4A9, 0x2); (0x3373, 0x4AB, 0x2); (0x3374, 0x4AD, 0x3);
  (0x3375, 0x4B0, 0x2); (0x3376, 0x4B2, 0x2); (0x3377, 0x4B4, 0x2); (0x3378, 0x4B6, 0x3);
  (0x3379, 0x4B9, 0x3); (0x337A, 0x4BC, 0x2); (0x337B, 0x4BE, 0x2); (0x337C, 0x4C0, 0x2);
  (0x337D, 0x4C2, 0x2); (0x337E, 0x4C4, 0x2); (0x337F, 0x4C6, 0x4); (0x3380, 0x4CA, 0x2);
  (0x3381, 0x4CC, 0x2); (0x3382, 0x4CE, 0x2); (0x3383, 0x4D0, 0x2); (0x3384, 0x4D2, 0x2);
  (0x3385, 0x4D4, 0x2); (0x3386, 0x4D6, 0x2); (0x3387, 0x4D8, 0x2); (0x3388, 0x4DA, 0x3);
  (0x3389, 0x4DD, 0x4); (0x338A, 0x4E1, 0x2); (0x338B, 0x4E3, 0x2); (0x338C, 0x4E5, 0x2);
  (0x338D, 0x4E7, 0x2); (0x338E, 0x4E9, 0x2); (0x338F, 0x4EB, 0x2); (0x3390, 0x4ED, 0x2);
  (0x3391, 0x4EF, 0x3); (0x3392, 0x4F2, 0x3); (0x3393, 0x4F5, 0x3); (0x3394, 0x4F8, 0x3);
  (0x3395, 0x4FB, 0x2); (0x3396, 0x4FD, 0x2); (0x3397, 0x4FF, 0x2); (0x3398, 0x501, 0x2);
  (0x3399, 0x503, 0x2); (0x339A, 0x505, 0x2); (0x339B, 0x507, 0x2); (0x339C, 0x509, 0x2);
  (0x339D, 0x50B, 0x2); (0x339E, 0x50D, 0x2); (0x339F, 0x50F, 0x3); (0x33A0, 0x512, 0x3);
  (0x33A1, 0x515, 0x2); (0x33A2, 0x517, 0x3); (0x33A3, 0x51A, 0x3); (0x33A4, 0x51D, 0x3);
  (0x33A5, 0x520, 0x2); (0x33A6, 0x522, 0x3); (0x33A7, 0x525, 0x3); (0x33A8, 0x528, 0x4);
  (0x33A9, 0x52C, 0x2); (0x33AA, 0x52E, 0x3); (0x33AB, 0x531, 0x3); (0x33AC, 0x534, 0x3);
  (0x33AD, 0x537, 0x3); (0x33AE, 0x53A, 0x5); (0x33AF, 0x53F, 0x6); (0x33B0, 0x545, 0x2);
  (0x33B1, 0x547, 0x2); (0x33B2, 0x549, 0x2); (0x33B3, 0x54B, 0x2); (0x33B4, 0x54D, 0x2);
  (0x33B5, 0x54F, 0x2); (0x33B6, 0x551, 0x2); (0x33B7, 0x553, 0x2); (0x33B8, 0x555, 0x2);
  (0x33B9, 0x557, 0x2); (0x33BA, 0x559, 0x2); (0x33BB, 0x55B, 0x2); (0x33BC, 0x55D, 0x2);
  (0x33BD, 0x55F, 0x2); (0x33BE, 0x561, 0x2); (0x33BF, 0x563, 0x2); (0x33C0, 0x565, 0x2);
  (0x33C1, 0x567, 0x2); (0x33C2, 0x569, 0x4); (0x33C3, 0x56D, 0x2); (0x33C4, 0x56F, 0x2);
  (0x33C5, 0x571, 0x2); (0x33C6, 0x573, 0x4); (0x33C7, 0x577, 0x3); (0x33C8, 0x57A, 0x2);
  (0x33C9, 0x57C, 0x2); (0x33CA, 0x57E, 0x2); (0x33CB, 0x580, 0x2); (0x33CC, 0x582, 0x2);
  (0x33CD, 0x584, 0x2); (0x33CE, 0x586, 0x2); (0x33CF, 0x588, 0x2); (0x33D0, 0x58A, 0x2);
  (0x33D1, 0x58C, 0x2); (0x33D2, 0x58E, 0x3); (0x33D3, 0x591, 0x2); (0x33D4, 0x593, 0x2);
  (0x33D5, 0x595, 0x3); (0x33D6, 0x598, 0x3); (0x33D7, 0x59B, 0x2); (0x33D8, 0x59D, 0x4);
  (0x33D9, 0x5A1, 0x3); (0x33DA, 0x5A4, 0x2); (0x33DB, 0x5A6, 0x2); (0x33DC, 0x5A8, 0x2);
  (0x33DD, 0x5AA, 0x2); (0x33DE, 0x5AC, 0x3); (0x33DF, 0x5AF, 0x3); (0x33E0, 0x5B2, 0x2);
  (0x33E1, 0x5B4, 0x2); (0x33E2, 0x5B6, 0x2); (0x33E3, 0x5B8, 0x2); (0x33E4, 0x5BA, 0x2);
  (0x33E5, 0x5BC, 0x2); (0x33E6, 0x5BE, 0x2); (0x33E7, 0x5C0, 0x2); (0x33E8, 0x5C2, 0x2);
  (0x33E9, 0x5C4, 0x3); (0x33EA, 0x5C7, 0x3); (0x33EB, 0x5CA, 0x3); (0x33EC, 0x5CD, 0x3);
  (0x33ED, 0x5D0, 0x3); (0x33EE, 0x5D3, 0x3); (0x33EF, 0x5D6, 0x3); (0x33F0, 0x5D9, 0x3);
  (0x33F1, 0x5DC, 0x3); (0x33F2, 0x5DF, 0x3); (0x33F3, 0x5E2, 0x3); (0x33F4, 0x5E5, 0x3);
  (0x33F5, 0x5E8, 0x3); (0x33F6, 0x5EB, 0x3); (0x33F7, 0x5EE, 0x3); (0x33F8, 0x5F1, 0x3);
  (0x33F9, 0x5F4, 0x3); (0x33FA, 0x5F7, 0x3); (0x33FB, 0x5FA, 0x3); (0x33FC, 0x5FD, 0x3);
  (0x33FD, 0x600, 0x3); (0x33FE, 0x603, 0x3); (0x33FF, 0x606, 0x3); (0xFB00, 0x609, 0x2);
  (0xFB01, 0x60B, 0x2); (0xFB02, 0x60D, 0x2); (0xFB03, 0x60F, 0x3); (0xFB04, 0x612, 0x3);
  (0xFB05, 0x615, 0x2); (0xFB06, 0x617, 0x2); (0xFB13, 0x619, 0x2); (0xFB14, 0x61B, 0x2);
  (0xFB15, 0x61D, 0x2); (0xFB16, 0x61F, 0x2); (0xFB17, 0x621, 0x2); (0xFB4F, 0x623, 0x2);
  (0xFBDD, 0x625, 0x2); (0xFBEA, 0x627, 0x2); (0xFBEB, 0x629, 0x2); (0xFBEC, 0x62B, 0x2);
  (0xFBED, 0x62D, 0x2); (0xFBEE, 0x62F, 0x2); (0xFBEF, 0x631, 0x2); (0xFBF0, 0x633, 0x2);
  (0xFBF1, 0x635, 0x2); (0xFBF2, 0x637, 0x2); (0xFBF3, 0x639, 0x2); (0xFBF4, 0x63B, 0x2);
  (0xFBF5, 0x63D, 0x2); (0xFBF6, 0x63F, 0x2); (0xFBF7, 0x641, 0x2); (0xFBF8, 0x643, 0x2);
  (0xFBF9, 0x645, 0x2); (0xFBFA, 0x647, 0x2); (0xFBFB, 0x649, 0x2); (0xFC00, 0x64B, 0x2);
  (0xFC01, 0x64D, 0x2); (0xFC02, 0x64F, 0x2); (0xFC03, 0x651, 0x2); (0xFC04, 0x653, 0x2);
  (0xFC05, 0x655, 0x2); (0xFC06, 0x657, 0x2); (0xFC07, 0x659, 0x2); (0xFC08, 0x65B, 0x2);
  (0xFC09, 0x65D, 0x2); (0xFC0A, 0x65F, 0x2); (0xFC0B, 0x661, 0x2); (0xFC0C, 0x663, 0x2);
  (0xFC0D, 0x665, 0x2); (0xFC0E, 0x667, 0x2); (0xFC0F, 0x669, 0x2); (0xFC10, 0x66B, 0x2);
  (0xFC11, 0x66D, 0x2); (0xFC12, 0x66F, 0x2); (0xFC13, 0x671, 0x2); (0xFC14, 0x673, 0x2);
  (0xFC15, 0x675, 0x2); (0xFC16, 0x677, 0x2); (0xFC17, 0x679, 0x2); (0xFC18, 0x67B, 0x2);
  (0xFC19, 0x67D, 0x2); (0xFC1A, 0x67F, 0x2); (0xFC1B, 0x681, 0x2); (0xFC1C, 0x683, 0x2);
  (0xFC1D, 0x685, 0x2); (0xFC1E, 0x687, 0x2); (0xFC1F, 0x689, 0x2); (0xFC20, 0x68B, 0x2);
  (0xFC21, 0x68D, 0x2); (0xFC22, 0x68F, 0x2); (0xFC23, 0x691, 0x2); (0xFC24, 0x693, 0x2);
  (0xFC25, 0x695, 0x2); (0xFC26, 0x697, 0x2); (0xFC27, 0x699, 0x2); (0xFC28, 0x69B, 0x2);
  (0xFC29, 0x69D, 0x2); (0xFC2A, 0x69F, 0x2); (0xFC2B, 0x6A1, 0x2); (0xFC2C, 0x6A3, 0x2);
  (0xFC2D, 0x6A5, 0x2); (0xFC2E, 0x6A7, 0x2); (0xFC2F, 0x6A9, 0x2); (0xFC30, 0x6AB, 0x2);
  (0xFC31, 0x6AD, 0x2); (0xFC32, 0x6AF, 0x2); (0xFC33, 0x6B1, 0x2); (0xFC34, 0x6B3, 0x2);
  (0xFC35, 0x6B5, 0x2); (0xFC36, 0x6B7, 0x2); (0xFC37, 0x6B9, 0x2); (0xFC38, 0x6BB, 0x2);
  (0xFC39, 0x6BD, 0x2); (0xFC3A, 0x6BF, 0x2); (0xFC3B, 0x6C1, 0x2); (0xFC3C, 0x6C3, 0x2);
  (0xFC3D, 0x6C5, 0x2); (0xFC3E, 0x6C7, 0x2); (0xFC3F, 0x6C9, 0x2); (0xFC40, 0x6CB, 0x2);
  (0xFC41, 0x6CD, 0x2); (0xFC42, 0x6CF, 0x2); (0xFC43, 0x6D1, 0x2); (0xFC44, 0x6D3, 0x2);
  (0xFC45, 0x6D5, 0x2); (0xFC46, 0x6D7, 0x2); (0xFC47, 0x6D9, 0x2); (0xFC48, 0x6DB, 0x2);
  (0xFC49, 0x6DD, 0x2); (0xFC4A, 0x6DF, 0x2); (0xFC4B, 0x6E1, 0x2); (0xFC4C, 0x6E3, 0x2);
  (0xFC4D, 0x6E5, 0x2); (0xFC4E, 0x6E7, 0x2); (0xFC4F, 0x6E9, 0x2); (0xFC50, 0x6EB, 0x2);
  (0xFC51, 0x6ED, 0x2); (0xFC52, 0x6EF, 0x2); (0xFC53, 0x6F1, 0x2); (0xFC54, 0x6F3, 0x2);
  (0xFC55, 0x6F5, 0x2); (0xFC56, 0x6F7, 0x2); (0xFC57, 0x6F9, 0x2); (0xFC58, 0x6FB, 0x2);
  (0xFC59, 0x6FD, 0x2); (0xFC5A, 0x6FF, 0x2); (0xFC64, 0x701, 0x2); (0xFC65, 0x703, 0x2);
  (0xFC66, 0x705, 0x2); (0xFC67, 0x707, 0x2); (0xFC68, 0x709, 0x2); (0xFC69, 0x70B, 0x2);
  (0xFC6A, 0x70D, 0x2); (0xFC6B, 0x70F, 0x2); (0xFC6C, 0x711, 0x2); (0xFC6D, 0x713, 0x2);
  (0xFC6E, 0x715, 0x2); (0xFC6F, 0x717, 0x2); (0xFC70, 0x719, 0x2); (0xFC71, 0x71B, 0x2);
  (0xFC72, 0x71D, 0x2); (0xFC73, 0x71F, 0x2); (0xFC74, 0x721, 0x2); (0xFC75, 0x723, 0x2);
  (0xFC76, 0x725, 0x2); (0xFC77, 0x727, 0x2); (0xFC78, 0x729, 0x2); (0xFC79, 0x72B, 0x2);
  (0xFC7A, 0x72D, 0x2); (0xFC7B, 0x72F, 0x2); (0xFC7C, 0x731, 0x2); (0xFC7D, 0x733, 0x2);
  (0xFC7E, 0x735, 0x2); (0xFC7F, 0x737, 0x2); (0xFC80, 0x739, 0x2); (0xFC81, 0x73B, 0x2);
  (0xFC82, 0x73D, 0x2); (0xFC83, 0x73F, 0x2); (0xFC84, 0x741, 0x2); (0xFC85, 0x743, 0x2);
  (0xFC86, 0x745, 0x2); (0xFC87, 0x747, 0x2); (0xFC88, 0x749, 0x2); (0xFC89, 0x74B, 0x2);
  (0xFC8A, 0x74D, 0x2); (0xFC8B, 0x74F, 0x2); (0xFC8C, 0x751, 0x2); (0xFC8D, 0x753, 0x2);
  (0xFC8E, 0x755, 0x2); (0xFC8F, 0x757, 0x2); (0xFC91, 0x759, 0x2); (0xFC92, 0x75B, 0x2);
  (0xFC93, 0x75D, 0x2); (0xFC94, 0x75F, 0x2); (0xFC95, 0x761, 0x2); (0xFC96, 0x763, 0x2);
  (0xFC97, 0x765, 0x2); (0xFC98, 0x767, 0x2); (0xFC99, 0x769, 0x2); (0xFC9A, 0x76B, 0x2);
  (0xFC9B, 0x76D, 0x2); (0xFC9C, 0x76F, 0x2); (0xFC9D, 0x771, 0x2); (0xFC9E, 0x773, 0x2);
  (0xFC9F, 0x775, 0x2); (0xFCA0, 0x777, 0x2); (0xFCA1, 0x779, 0x2); (0xFCA2, 0x77B, 0x2);
  (0xFCA3, 0x77D, 0x2); (0xFCA4, 0x77F, 0x2); (0xFCA5, 0x781, 0x2); (0xFCA6, 0x783, 0x2);
  (0xFCA7, 0x785, 0x2); (0xFCA8, 0x787, 0x2); (0xFCA9, 0x789, 0x2); (0xFCAA, 0x78B, 0x2);
  (0xFCAB, 0x78D, 0x2); (0xFCAC, 0x78F, 0x2); (0xFCAD, 0x791, 0x2); (0xFCAE, 0x793, 0x2);
  (0xFCAF, 0x795, 0x2); (0xFCB0, 0x797, 0x2); (0xFCB1, 0x799, 0x2); (0xFCB2, 0x79B, 0x2);
  (0xFCB3, 0x79D, 0x2); (0xFCB4, 0x79F, 0x2); (0xFCB5, 0x7A1, 0x2); (0xFCB6, 0x7A3, 0x2);
  (0xFCB7, 0x7A5, 0x2); (0xFCB8, 0x7A7, 0x2); (0xFCB9, 0x7A9, 0x2); (0xFCBA, 0x7AB, 0x2);
  (0xFCBB, 0x7AD, 0x2); (0xFCBC, 0x7AF, 0x2); (0xFCBD, 0x7B1, 0x2); (0xFCBE, 0x7B3, 0x2);
  (0xFCBF, 0x7B5, 0x2); (0xFCC0, 0x7B7, 0x2); (0xFCC1, 0x7B9, 0x2); (0xFCC2, 0x7BB, 0x2);
  (0xFCC3, 0x7BD, 0x2); (0xFCC4, 0x7BF, 0x2); (0xFCC5, 0x7C1, 0x2); (0xFCC6, 0x7C3, 0x2);
  (0xFCC7, 0x7C5, 0x2); (0xFCC8, 0x7C7, 0x2); (0xFCC9, 0x7C9, 0x2); (0xFCCA, 0x7CB, 0x2);
  (0xFCCB, 0x7CD, 0x2); (0xFCCC, 0x7CF, 0x2); (0xFCCD, 0x7D1, 0x2); (0xFCCE, 0x7D3, 0x2);
  (0xFCCF, 0x7D5, 0x2); (0xFCD0, 0x7D7, 0x2); (0xFCD1, 0x7D9, 0x2); (0xFCD2, 0x7DB, 0x2);
  (0xFCD3, 0x7DD, 0x2); (0xFCD4, 0x7DF, 0x2); (0xFCD5, 0x7E1, 0x2); (0xFCD6, 0x7E3, 0x2);
  (0xFCD7, 0x7E5, 0x2); (0xFCD8, 0x7E7, 0x2); (0xFCDA, 0x7E9, 0x2); (0xFCDB, 0x7EB, 0x2);
  (0xFCDC, 0x7ED, 0x2); (0xFCDD, 0x7EF, 0x2); (0xFCDE, 0x7F1, 0x2); (0xFCDF, 0x7F3, 0x2);
  (0xFCE0, 0x7F5, 0x2); (0xFCE1, 0x7F7, 0x2); (0xFCE2, 0x7F9, 0x2); (0xFCE3, 0x7FB, 0x2);
  (0xFCE4, 0x7FD, 0x2); (0xFCE5, 0x7FF, 0x2); (0xFCE6, 0x801, 0x2); (0xFCE7, 0x803, 0x2);
  (0xFCE8, 0x805, 0x2); (0xFCE9, 0x807, 0x2); (0xFCEA, 0x809, 0x2); (0xFCEB, 0x80B, 0x2);
  (0xFCEC, 0x80D, 0x2); (0xFCED, 0x80F, 0x2); (0xFCEE, 0x811, 0x2); (0xFCEF, 0x813, 0x2);
  (0xFCF0, 0x815, 0x2); (0xFCF1, 0x817, 0x2); (0xFCF5, 0x819, 0x2); (0xFCF6, 0x81B, 0x2);
  (0xFCF7, 0x81D, 0x2); (0xFCF8, 0x81F, 0x2); (0xFCF9, 0x821, 0x2); (0xFCFA, 0x823, 0x2);
  (0xFCFB, 0x825, 0x2); (0xFCFC, 0x827, 0x2); (0xFCFD, 0x829, 0x2); (0xFCFE, 0x82B, 0x2);
  (0xFCFF, 0x82D, 0x2); (0xFD00, 0x82F, 0x2); (0xFD01, 0x831, 0x2); (0xFD02, 0x833, 0x2);
  (0xFD03, 0x835, 0x2); (0xFD04, 0x837, 0x2); (0xFD05, 0x839, 0x2); (0xFD06, 0x83B, 0x2);
  (0xFD07, 0x83D, 0x2); (0xFD08, 0x83F, 0x2); (0xFD09, 0x841, 0x2); (0xFD0A, 0x843, 0x2);
  (0xFD0B, 0x845, 0x2); (0xFD0C, 0x847, 0x2); (0xFD0D, 0x849, 0x2); (0xFD0E, 0x84B, 0x2);
  (0xFD0F, 0x84D, 0x2); (0xFD10, 0x84F, 0x2); (0xFD11, 0x851, 0x2); (0xFD12, 0x853, 0x2);
  (0xFD13, 0x855, 0x2); (0xFD14, 0x857, 0x2); (0xFD15, 0x859, 0x2); (0xFD16, 0x85B, 0x2);
  (0xFD17, 0x85D, 0x2); (0xFD18, 0x85F, 0x2); (0xFD19, 0x861, 0x2); (0xFD1A, 0x863, 0x2);
  (0xFD1B, 0x865, 0x2); (0xFD1C, 0x867, 0x2); (0xFD1D, 0x869, 0x2); (0xFD1E, 0x86B, 0x2);
  (0xFD1F, 0x86D, 0x2); (0xFD20, 0x86F, 0x2); (0xFD21, 0x871, 0x2); (0xFD22, 0x873, 0x2);
  (0xFD23, 0x875, 0x2); (0xFD24, 0x877, 0x2); (0xFD25, 0x879, 0x2); (0xFD26, 0x87B, 0x2);
  (0xFD27, 0x87D, 0x2); (0xFD28, 0x87F, 0x2); (0xFD29, 0x881, 0x2); (0xFD2A, 0x883, 0x2);
  (0xFD2B, 0x885, 0x2); (0xFD2C, 0x887, 0x2); (0xFD2D, 0x889, 0x2); (0xFD2E, 0x88B, 0x2);
  (0xFD2F, 0x88D, 0x2); (0xFD30, 0x88F, 0x2); (0xFD31, 0x891, 0x2); (0xFD32, 0x893, 0x2);
  (0xFD33, 0x895, 0x2); (0xFD34, 0x897, 0x2); (0xFD35, 0x899, 0x2); (0xFD36, 0x89B, 0x2);
  (0xFD37, 0x89D, 0x2); (0xFD38, 0x89F, 0x2); (0xFD39, 0x8A1, 0x2); (0xFD3A, 0x8A3, 0x2);
  (0xFD3B, 0x8A5, 0x2); (0xFD50, 0x8A7, 0x3); (0xFD51, 0x8AA, 0x3); (0xFD52, 0x8AD, 0x3);
  (0xFD53, 0x8B0, 0x3); (0xFD54, 0x8B3, 0x3); (0xFD55, 0x8B6, 0x3); (0xFD56, 0x8B9, 0x3);
  (0xFD57, 0x8BC, 0x3); (0xFD58, 0x8BF, 0x3); (0xFD59, 0x8C2, 0x3); (0xFD5A, 0x8C5, 0x3);
  (0xFD5B, 0x8C8, 0x3); (0xFD5C, 0x8CB, 0x3); (0xFD5D, 0x8CE, 0x3); (0xFD5E, 0x8D1, 0x3);
  (0xFD5F, 0x8D4, 0x3); (0xFD60, 0x8D7, 0x3); (0xFD61, 0x8DA, 0x3); (0xFD62, 0x8DD, 0x3);
  (0xFD63, 0x8E0, 0x3); (0xFD64, 0x8E3, 0x3); (0xFD65, 0x8E6, 0x3); (0xFD66, 0x8E9, 0x3);
  (0xFD67, 0x8EC, 0x3); (0xFD68, 0x8EF, 0x3); (0xFD69, 0x8F2, 0x3); (0xFD6A, 0x8F5, 0x3);
  (0xFD6B, 0x8F8, 0x3); (0xFD6C, 0x8FB, 0x3); (0xFD6D, 0x8FE, 0x3); (0xFD6E, 0x901, 0x3);
  (0xFD6F, 0x904, 0x3); (0xFD70, 0x907, 0x3); (0xFD71, 0x90A, 0x3); (0xFD72, 0x90D, 0x3);
  (0xFD73, 0x910, 0x3); (0xFD74, 0x913, 0x3); (0xFD75, 0x916, 0x3); (0xFD76, 0x919, 0x3);
  (0xFD77, 0x91C, 0x3); (0xFD78, 0x91F, 0x3); (0xFD79, 0x922, 0x3); (0xFD7A, 0x925, 0x3);
  (0xFD7B, 0x928, 0x3); (0xFD7C, 0x92B, 0x3); (0xFD7D, 0x92E, 0x3); (0xFD7E, 0x931, 0x3);
  (0xFD7F, 0x934, 0x3); (0xFD80, 0x937, 0x3); (0xFD81, 0x93A, 0x3); (0xFD82, 0x93D, 0x3);
  (0xFD83, 0x940, 0x3); (0xFD84, 0x943, 0x3); (0xFD85, 0x946, 0x3); (0xFD86, 0x949, 0x3);
  (0xFD87, 0x94C, 0x3); (0xFD88, 0x94F, 0x3); (0xFD89, 0x952, 0x3); (0xFD8A, 0x955, 0x3);
  (0xFD8B, 0x958, 0x3); (0xFD8C, 0x95B, 0x3); (0xFD8D, 0x95E, 0x3); (0xFD8E, 0x961, 0x3);
  (0xFD8F, 0x964, 0x3); (0xFD92, 0x967, 0x3); (0xFD93, 0x96A, 0x3); (0xFD94, 0x96D, 0x3);
  (0xFD95, 0x970, 0x3); (0xFD96, 0x973, 0x3); (0xFD97, 0x976, 0x3); (0xFD98, 0x979, 0x3);
  (0xFD99, 0x97C, 0x3); (0xFD9A, 0x97F, 0x3); (0xFD9B, 0x982, 0x3); (0xFD9C, 0x985, 0x3);
  (0xFD9D, 0x988, 0x3); (0xFD9E, 0x98B, 0x3); (0xFD9F, 0x98E, 0x3); (0xFDA0, 0x991, 0x3);
  (0xFDA1, 0x994, 0x3); (0xFDA2, 0x997, 0x3); (0xFDA3, 0x99A, 0x3); (0xFDA4, 0x99D, 0x3);
  (0xFDA5, 0x9A0, 0x3); (0xFDA6, 0x9A3, 0x3); (0xFDA7, 0x9A6, 0x3); (0xFDA8, 0x9A9, 0x3);
  (0xFDA9, 0x9AC, 0x3); (0xFDAA, 0x9AF, 0x3); (0xFDAB, 0x9B2, 0x3); (0xFDAC, 0x9B5, 0x3);
  (0xFDAD, 0x9B8, 0x3); (0xFDAE, 0x9BB, 0x3); (0xFDAF, 0x9BE, 0x3); (0xFDB0, 0x9C1, 0x3);
  (0xFDB1, 0x9C4, 0x3); (0xFDB2, 0x9C7, 0x3); (0xFDB3, 0x9CA, 0x3); (0xFDB4, 0x9CD, 0x3);
  (0xFDB5, 0x9D0, 0x3); (0xFDB6, 0x9D3, 0x3); (0xFDB7, 0x9D6, 0x3); (0xFDB8, 0x9D9, 0x3);
  (0xFDB9, 0x9DC, 0x3); (0xFDBA, 0x9DF, 0x3); (0xFDBB, 0x9E2, 0x3); (0xFDBC, 0x9E5, 0x3);
  (0xFDBD, 0x9E8, 0x3); (0xFDBE, 0x9EB, 0x3); (0xFDBF, 0x9EE, 0x3); (0xFDC0, 0x9F1, 0x3);
  (0xFDC1, 0x9F4, 0x3); (0xFDC2, 0x9F7, 0x3); (0xFDC3, 0x9FA, 0x3); (0xFDC4, 0x9FD, 0x3);
  (0xFDC5, 0xA00, 0x3); (0xFDC6, 0xA03, 0x3); (0xFDC7, 0xA06, 0x3); (0xFDF0, 0xA09, 0x3);
  (0xFDF1, 0xA0C, 0x3); (0xFDF2, 0xA0F, 0x4); (0xFDF3, 0xA13, 0x4); (0xFDF4, 0xA17, 0x4);
  (0xFDF5, 0xA1B, 0x4); (0xFDF6, 0xA1F, 0x4); (0xFDF7, 0xA23, 0x4); (0xFDF8, 0xA27, 0x4);
  (0xFDF9, 0xA2B, 0x3); (0xFDFA, 0xA2E, 0x12); (0xFDFB, 0xA40, 0x8); (0xFDFC, 0xA48, 0x4);
  (0xFE19, 0xA4C, 0x3); (0xFE30, 0xA4F, 0x2); (0xFEF5, 0xA51, 0x2); (0xFEF6, 0xA53, 0x2);
  (0xFEF7, 0xA55, 0x2); (0xFEF8, 0xA57, 0x2); (0xFEF9, 0xA59, 0x2); (0xFEFA, 0xA5B, 0x2);
  (0xFEFB, 0xA5D, 0x2); (0xFEFC, 0xA5F, 0x2); (0x1F100, 0xA61, 0x2); (0x1F101, 0xA63, 0x2);
  (0x1F102, 0xA65, 0x2); (0x1F103, 0xA67, 0x2); (0x1F104, 0xA69, 0x2); (0x1F105, 0xA6B, 0x2);
  (0x1F106, 0xA6D, 0x2); (0x1F107, 0xA6F, 0x2); (0x1F108, 0xA71, 0x2); (0x1F109, 0xA73, 0x2);
  (0x1F10A, 0xA75, 0x2); (0x1F110, 0xA77, 0x3); (0x1F111, 0xA7A, 0x3); (0x1F112, 0xA7D, 0x3);
  (0x1F113, 0xA80, 0x3); (0x1F114, 0xA83, 0x3); (0x1F115, 0xA86, 0x3); (0x1F116, 0xA89, 0x3);
  (0x1F117, 0xA8C, 0x3); (0x1F118, 0xA8F, 0x3); (0x1F119, 0xA92, 0x3); (0x1F11A, 0xA95, 0x3);
  (0x1F11B, 0xA98, 0x3); (0x1F11C, 0xA9B, 0x3); (0x1F11D, 0xA9E, 0x3); (0x1F11E, 0xAA1, 0x3);
  (0x1F11F, 0xAA4, 0x3); (0x1F120, 0xAA7, 0x3); (0x1F121, 0xAAA, 0x3); (0x1F122, 0xAAD, 0x3);
  (0x1F123, 0xAB0, 0x3); (0x1F124, 0xAB3, 0x3); (0x1F125, 0xAB6, 0x3); (0x1F126, 0xAB9, 0x3);
  (0x1F127, 0xABC, 0x3); (0x1F128, 0xABF, 0x3); (0x1F129, 0xAC2, 0x3); (0x1F12A, 0xAC5, 0x3);
  (0x1F12D, 0xAC8, 0x2); (0x1F12E, 0xACA, 0x2); (0x1F14A, 0xACC, 0x2); (0x1F14B, 0xACE, 0x2);
  (0x1F14C, 0xAD0, 0x2); (0x1F14D, 0xAD2, 0x2); (0x1F14E, 0xAD4, 0x3); (0x1F14F, 0xAD7, 0x2);
  (0x1F16A, 0xAD9, 0x2); (0x1F16B, 0xADB, 0x2); (0x1F190, 0xADD, 0x2); (0x1F200, 0xADF, 0x2);
  (0x1F201, 0xAE1, 0x2); (0x1F240, 0xAE3, 0x3); (0x1F241, 0xAE6, 0x3); (0x1F242, 0xAE9, 0x3);
  (0x1F243, 0xAEC, 0x3); (0x1F244, 0xAEF, 0x3); (0x1F245, 0xAF2, 0x3); (0x1F246, 0xAF5, 0x3);
  (0x1F247, 0xAF8, 0x3); (0x1F248, 0xAFB, 0x3)].

Definition kNormMultiOut : list Z := [
  0x31; 0x2044; 0x34; 0x31; 0x2044; 0x32; 0x33; 0x2044; 0x34; 0x69; 0x6A; 0x69; 0x6A; 0x6C; 0xB7; 0x6C;
  0xB7; 0x2BC; 0x6E; 0x64; 0x7A; 0x64; 0x7A; 0x64; 0x7A; 0x6C; 0x6A; 0x6C; 0x6A; 0x6C; 0x6A; 0x6E; 0x6A;
  0x6E; 0x6A; 0x6E; 0x6A; 0x64; 0x7A; 0x64; 0x7A; 0x64; 0x7A; 0x565; 0x582; 0x627; 0x674; 0x648; 0x674;
  0x6C7; 0x674; 0x64A; 0x674; 0xEAB; 0xE99; 0xEAB; 0xEA1; 0x61; 0x2BE; 0x2E; 0x2E; 0x2E; 0x2E; 0x2E; 0x2032;
  0x2032; 0x2032; 0x2032; 0x2032; 0x2035; 0x2035; 0x2035; 0x2035; 0x2035; 0x21; 0x21; 0x3F; 0x3F; 0x3F;
  0x21; 0x21; 0x3F; 0x2032; 0x2032; 0x2032; 0x2032; 0x72; 0x73; 0x61; 0x2F; 0x63; 0x61; 0x2F; 0x73; 0xB0;
  0x63; 0x63; 0x2F; 0x6F; 0x63; 0x2F; 0x75; 0xB0; 0x66; 0x6E; 0x6F; 0x73; 0x6D; 0x74; 0x65; 0x6C; 0x74;
  0x6D; 0x66; 0x61; 0x78; 0x31; 0x2044; 0x37; 0x31; 0x2044; 0x39; 0x31; 0x2044; 0x31; 0x30; 0x31; 0x2044;
  0x33; 0x32; 0x2044; 0x33; 0x31; 0x2044; 0x35; 0x32; 0x2044; 0x35; 0x33; 0x2044; 0x35; 0x34; 0x2044; 0x35;
  0x31; 0x2044; 0x36; 0x35; 0x2044; 0x36; 0x31; 0x2044; 0x38; 0x33; 0x2044; 0x38; 0x35; 0x2044; 0x38; 0x37;
  0x2044; 0x38; 0x31; 0x2044; 0x69; 0x69; 0x69; 0x69; 0x69; 0x69; 0x76; 0x76; 0x69; 0x76; 0x69; 0x69; 0x76;
  0x69; 0x69; 0x69; 0x69; 0x78; 0x78; 0x69; 0x78; 0x69; 0x69; 0x69; 0x69; 0x69; 0x69; 0x69; 0x69; 0x76;
  0x76; 0x69; 0x76; 0x69; 0x69; 0x76; 0x69; 0x69; 0x69; 0x69; 0x78; 0x78; 0x69; 0x78; 0x69; 0x69; 0x30;
  0x2044; 0x33; 0x222B; 0x222B; 0x222B; 0x222B; 0x222B; 0x222E; 0x222E; 0x222E; 0x222E; 0x222E; 0x31; 0x30;
  0x31; 0x31; 0x31; 0x32; 0x31; 0x33; 0x31; 0x34; 0x31; 0x35; 0x31; 0x36; 0x31; 0x37; 0x31; 0x38; 0x31;
  0x39; 0x32; 0x30; 0x28; 0x31; 0x29; 0x28; 0x32; 0x29; 0x28; 0x33; 0x29; 0x28; 0x34; 0x29; 0x28; 0x35;
  0x29; 0x28; 0x36; 0x29; 0x28; 0x37; 0x29; 0x28; 0x38; 0x29; 0x28; 0x39; 0x29; 0x28; 0x31; 0x30; 0x29;
  0x28; 0x31; 0x31; 0x29; 0x28; 0x31; 0x32; 0x29; 0x28; 0x31; 0x33; 0x29; 0x28; 0x31; 0x34; 0x29; 0x28;
  0x31; 0x35; 0x29; 0x28; 0x31; 0x36; 0x29; 0x28; 0x31; 0x37; 0x29; 0x28; 0x31; 0x38; 0x29; 0x28; 0x31;
  0x39; 0x29; 0x28; 0x32; 0x30; 0x29; 0x31; 0x2E; 0x32; 0x2E; 0x33; 0x2E; 0x34; 0x2E; 0x35; 0x2E; 0x36;
  0x2E; 0x37; 0x2E; 0x38; 0x2E; 0x39; 0x2E; 0x31; 0x30; 0x2E; 0x31; 0x31; 0x2E; 0x31; 0x32; 0x2E; 0x31;
  0x33; 0x2E; 0x31; 0x34; 0x2E; 0x31; 0x35; 0x2E; 0x31; 0x36; 0x2E; 0x31; 0x37; 0x2E; 0x31; 0x38; 0x2E;
  0x31; 0x39; 0x2E; 0x32; 0x30; 0x2E; 0x28; 0x61; 0x29; 0x28; 0x62; 0x29; 0x28; 0x63; 0x29; 0x28; 0x64;
  0x29; 0x28; 0x65; 0x29; 0x28; 0x66; 0x29; 0x28; 0x67; 0x29; 0x28; 0x68; 0x29; 0x28; 0x69; 0x29; 0x28;
  0x6A; 0x29; 0x28; 0x6B; 0x29; 0x28; 0x6C; 0x29; 0x28; 0x6D; 0x29; 0x28; 0x6E; 0x29; 0x28; 0x6F; 0x29;
  0x28; 0x70; 0x29; 0x28; 0x71; 0x29; 0x28; 0x72; 0x29; 0x28; 0x73; 0x29; 0x28; 0x74; 0x29; 0x28; 0x75;
  0x29; 0x28; 0x76; 0x29; 0x28; 0x77; 0x29; 0x28; 0x78; 0x29; 0x28; 0x79; 0x29; 0x28; 0x7A; 0x29; 0x222B;
  0x222B; 0x222B; 0x222B; 0x3A; 0x3A; 0x3D; 0x3D; 0x3D; 0x3D; 0x3D; 0x3D; 0x3088; 0x308A; 0x30B3; 0x30C8;
  0x28; 0x1100; 0x29; 0x28; 0x1102; 0x29; 0x28; 0x1103; 0x29; 0x28; 0x1105; 0x29; 0x28; 0x1106; 0x29; 0x28;
  0x1107; 0x29; 0x28; 0x1109; 0x29; 0x28; 0x110B; 0x29; 0x28; 0x110C; 0x29; 0x28; 0x110E; 0x29; 0x28;
  0x110F; 0x29; 0x28; 0x1110; 0x29; 0x28; 0x1111; 0x29; 0x28; 0x1112; 0x29; 0x28; 0x1100; 0x1161; 0x29;
  0x28; 0x1102; 0x1161; 0x29; 0x28; 0x1103; 0x1161; 0x29; 0x28; 0x1105; 0x1161; 0x29; 0x28; 0x1106; 0x1161;
  0x29; 0x28; 0x1107; 0x1161; 0x29; 0x28; 0x1109; 0x1161; 0x29; 0x28; 0x110B; 0x1161; 0x29; 0x28; 0x110C;
  0x1161; 0x29; 0x28; 0x110E; 0x1161; 0x29; 0x28; 0x110F; 0x1161; 0x29; 0x28; 0x1110; 0x1161; 0x29; 0x28;
  0x1111; 0x1161; 0x29; 0x28; 0x1112; 0x1161; 0x29; 0x28; 0x110C; 0x116E; 0x29; 0x28; 0x110B; 0x1169;
  0x110C; 0x1165; 0x11AB; 0x29; 0x28; 0x110B; 0x1169; 0x1112; 0x116E; 0x29; 0x28; 0x4E00; 0x29; 0x28;
  0x4E8C; 0x29; 0x28; 0x4E09; 0x29; 0x28; 0x56DB; 0x29; 0x28; 0x4E94; 0x29; 0x28; 0x516D; 0x29; 0x28;
  0x4E03; 0x29; 0x28; 0x516B; 0x29; 0x28; 0x4E5D; 0x29; 0x28; 0x5341; 0x29; 0x28; 0x6708; 0x29; 0x28;
  0x706B; 0x29; 0x28; 0x6C34; 0x29; 0x28; 0x6728; 0x29; 0x28; 0x91D1; 0x29; 0x28; 0x571F; 0x29; 0x28;
  0x65E5; 0x29; 0x28; 0x682A; 0x29; 0x28; 0x6709; 0x29; 0x28; 0x793E; 0x29; 0x28; 0x540D; 0x29; 0x28;
  0x7279; 0x29; 0x28; 0x8CA1; 0x29; 0x28; 0x795D; 0x29; 0x28; 0x52B4; 0x29; 0x28; 0x4EE3; 0x29; 0x28;
  0x547C; 0x29; 0x28; 0x5B66; 0x29; 0x28; 0x76E3; 0x29; 0x28; 0x4F01; 0x29; 0x28; 0x8CC7; 0x29; 0x28;
  0x5354; 0x29; 0x28; 0x796D; 0x29; 0x28; 0x4F11; 0x29; 0x28; 0x81EA; 0x29; 0x28; 0x81F3; 0x29; 0x70; 0x74;
  0x65; 0x32; 0x31; 0x32; 0x32; 0x32; 0x33; 0x32; 0x34; 0x32; 0x35; 0x32; 0x36; 0x32; 0x37; 0x32; 0x38;
  0x32; 0x39; 0x33; 0x30; 0x33; 0x31; 0x33; 0x32; 0x33; 0x33; 0x33; 0x34; 0x33; 0x35; 0x1100; 0x1161;
  0x1102; 0x1161; 0x1103; 0x1161; 0x1105; 0x1161; 0x1106; 0x1161; 0x1107; 0x1161; 0x1109; 0x1161; 0x110B;
  0x1161; 0x110C; 0x1161; 0x110E; 0x1161; 0x110F; 0x1161; 0x1110; 0x1161; 0x1111; 0x1161; 0x1112; 0x1161;
  0x110E; 0x1161; 0x11B7; 0x1100; 0x1169; 0x110C; 0x116E; 0x110B; 0x1174; 0x110B; 0x116E; 0x33; 0x36; 0x33;
  0x37; 0x33; 0x38; 0x33; 0x39; 0x34; 0x30; 0x34; 0x31; 0x34; 0x32; 0x34; 0x33; 0x34; 0x34; 0x34; 0x35;
  0x34; 0x36; 0x34; 0x37; 0x34; 0x38; 0x34; 0x39; 0x35; 0x30; 0x31; 0x6708; 0x32; 0x6708; 0x33; 0x6708;
  0x34; 0x6708; 0x35; 0x6708; 0x36; 0x6708; 0x37; 0x6708; 0x38; 0x6708; 0x39; 0x6708; 0x31; 0x30; 0x6708;
  0x31; 0x31; 0x6708; 0x31; 0x32; 0x6708; 0x68; 0x67; 0x65; 0x72; 0x67; 0x65; 0x76; 0x6C; 0x74; 0x64;
  0x30A2; 0x30CF; 0x30FC; 0x30C8; 0x30A2; 0x30EB; 0x30D5; 0x30A1; 0x30A2; 0x30F3; 0x30D8; 0x30A2; 0x30A2;
  0x30FC; 0x30EB; 0x30A4; 0x30CB; 0x30F3; 0x30AF; 0x30A4; 0x30F3; 0x30C1; 0x30A6; 0x30A9; 0x30F3; 0x30A8;
  0x30B9; 0x30AF; 0x30FC; 0x30C8; 0x30A8; 0x30FC; 0x30AB; 0x30FC; 0x30AA; 0x30F3; 0x30B9; 0x30AA; 0x30FC;
  0x30E0; 0x30AB; 0x30A4; 0x30EA; 0x30AB; 0x30E9; 0x30C3; 0x30C8; 0x30AB; 0x30ED; 0x30EA; 0x30FC; 0x30AB;
  0x30ED; 0x30F3; 0x30AB; 0x30F3; 0x30DE; 0x30AD; 0x30AB; 0x30AD; 0x30CB; 0x30FC; 0x30AD; 0x30E5; 0x30EA;
  0x30FC; 0x30AD; 0x30EB; 0x30BF; 0x30FC; 0x30AD; 0x30ED; 0x30AD; 0x30ED; 0x30AF; 0x30E9; 0x30E0; 0x30AD;
  0x30ED; 0x30E1; 0x30FC; 0x30C8; 0x30EB; 0x30AD; 0x30ED; 0x30EF; 0x30C3; 0x30C8; 0x30AF; 0x30E9; 0x30E0;
  0x30AF; 0x30E9; 0x30E0; 0x30C8; 0x30F3; 0x30AF; 0x30EB; 0x30BB; 0x30A4; 0x30ED; 0x30AF; 0x30ED; 0x30FC;
  0x30CD; 0x30B1; 0x30FC; 0x30B9; 0x30B3; 0x30EB; 0x30CA; 0x30B3; 0x30FC; 0x30DB; 0x30B5; 0x30A4; 0x30AF;
  0x30EB; 0x30B5; 0x30F3; 0x30C1; 0x30FC; 0x30E0; 0x30B7; 0x30EA; 0x30F3; 0x30AF; 0x30BB; 0x30F3; 0x30C1;
  0x30BB; 0x30F3; 0x30C8; 0x30BF; 0x30FC; 0x30B9; 0x30C6; 0x30B7; 0x30C8; 0x30EB; 0x30C8; 0x30F3; 0x30CA;
  0x30CE; 0x30CE; 0x30C3; 0x30C8; 0x30CF; 0x30A4; 0x30C4; 0x30CF; 0x30FC; 0x30BB; 0x30F3; 0x30C8; 0x30CF;
  0x30FC; 0x30C4; 0x30CF; 0x30FC; 0x30EC; 0x30EB; 0x30D2; 0x30A2; 0x30B9; 0x30C8; 0x30EB; 0x30D2; 0x30AF;
  0x30EB; 0x30D2; 0x30B3; 0x30D2; 0x30EB; 0x30D5; 0x30A1; 0x30E9; 0x30C3; 0x30C8; 0x30D5; 0x30A3; 0x30FC;
  0x30C8; 0x30D5; 0x30C3; 0x30B7; 0x30A7; 0x30EB; 0x30D5; 0x30E9; 0x30F3; 0x30D8; 0x30AF; 0x30BF; 0x30FC;
  0x30EB; 0x30D8; 0x30BD; 0x30D8; 0x30CB; 0x30D2; 0x30D8; 0x30EB; 0x30C4; 0x30D8; 0x30F3; 0x30B9; 0x30D8;
  0x30FC; 0x30B7; 0x30D8; 0x30FC; 0x30BF; 0x30DB; 0x30A4; 0x30F3; 0x30C8; 0x30DB; 0x30EB; 0x30C8; 0x30DB;
  0x30F3; 0x30DB; 0x30F3; 0x30C8; 0x30DB; 0x30FC; 0x30EB; 0x30DB; 0x30FC; 0x30F3; 0x30DE; 0x30A4; 0x30AF;
  0x30ED; 0x30DE; 0x30A4; 0x30EB; 0x30DE; 0x30C3; 0x30CF; 0x30DE; 0x30EB; 0x30AF; 0x30DE; 0x30F3; 0x30B7;
  0x30E7; 0x30F3; 0x30DF; 0x30AF; 0x30ED; 0x30F3; 0x30DF; 0x30EA; 0x30DF; 0x30EA; 0x30CF; 0x30FC; 0x30EB;
  0x30E1; 0x30AB; 0x30E1; 0x30AB; 0x30C8; 0x30F3; 0x30E1; 0x30FC; 0x30C8; 0x30EB; 0x30E4; 0x30FC; 0x30C8;
  0x30E4; 0x30FC; 0x30EB; 0x30E6; 0x30A2; 0x30F3; 0x30EA; 0x30C3; 0x30C8; 0x30EB; 0x30EA; 0x30E9; 0x30EB;
  0x30D2; 0x30FC; 0x30EB; 0x30FC; 0x30D5; 0x30EB; 0x30EC; 0x30E0; 0x30EC; 0x30F3; 0x30C8; 0x30B1; 0x30F3;
  0x30EF; 0x30C3; 0x30C8; 0x30; 0x70B9; 0x31; 0x70B9; 0x32; 0x70B9; 0x33; 0x70B9; 0x34; 0x70B9; 0x35;
  0x70B9; 0x36; 0x70B9; 0x37; 0x70B9; 0x38; 0x70B9; 0x39; 0x70B9; 0x31; 0x30; 0x70B9; 0x31; 0x31; 0x70B9;
  0x31; 0x32; 0x70B9; 0x31; 0x33; 0x70B9; 0x31; 0x34; 0x70B9; 0x31; 0x35; 0x70B9; 0x31; 0x36; 0x70B9; 0x31;
  0x37; 0x70B9; 0x31; 0x38; 0x70B9; 0x31; 0x39; 0x70B9; 0x32; 0x30; 0x70B9; 0x32; 0x31; 0x70B9; 0x32; 0x32;
  0x70B9; 0x32; 0x33; 0x70B9; 0x32; 0x34; 0x70B9; 0x68; 0x70; 0x61; 0x64; 0x61; 0x61; 0x75; 0x62; 0x61;
  0x72; 0x6F; 0x76; 0x70; 0x63; 0x64; 0x6D; 0x64; 0x6D; 0x32; 0x64; 0x6D; 0x33; 0x69; 0x75; 0x5E73; 0x6210;
  0x662D; 0x548C; 0x5927; 0x6B63; 0x660E; 0x6CBB; 0x682A; 0x5F0F; 0x4F1A; 0x793E; 0x70; 0x61; 0x6E; 0x61;
  0x3BC; 0x61; 0x6D; 0x61; 0x6B; 0x61; 0x6B; 0x62; 0x6D; 0x62; 0x67; 0x62; 0x63; 0x61; 0x6C; 0x6B; 0x63;
  0x61; 0x6C; 0x70; 0x66; 0x6E; 0x66; 0x3BC; 0x66; 0x3BC; 0x67; 0x6D; 0x67; 0x6B; 0x67; 0x68; 0x7A; 0x6B;
  0x68; 0x7A; 0x6D; 0x68; 0x7A; 0x67; 0x68; 0x7A; 0x74; 0x68; 0x7A; 0x3BC; 0x6C; 0x6D; 0x6C; 0x64; 0x6C;
  0x6B; 0x6C; 0x66; 0x6D; 0x6E; 0x6D; 0x3BC; 0x6D; 0x6D; 0x6D; 0x63; 0x6D; 0x6B; 0x6D; 0x6D; 0x6D; 0x32;
  0x63; 0x6D; 0x32; 0x6D; 0x32; 0x6B; 0x6D; 0x32; 0x6D; 0x6D; 0x33; 0x63; 0x6D; 0x33; 0x6D; 0x33; 0x6B;
  0x6D; 0x33; 0x6D; 0x2215; 0x73; 0x6D; 0x2215; 0x73; 0x32; 0x70; 0x61; 0x6B; 0x70; 0x61; 0x6D; 0x70; 0x61;
  0x67; 0x70; 0x61; 0x72; 0x61; 0x64; 0x72; 0x61; 0x64; 0x2215; 0x73; 0x72; 0x61; 0x64; 0x2215; 0x73; 0x32;
  0x70; 0x73; 0x6E; 0x73; 0x3BC; 0x73; 0x6D; 0x73; 0x70; 0x76; 0x6E; 0x76; 0x3BC; 0x76; 0x6D; 0x76; 0x6B;
  0x76; 0x6D; 0x76; 0x70; 0x77; 0x6E; 0x77; 0x3BC; 0x77; 0x6D; 0x77; 0x6B; 0x77; 0x6D; 0x77; 0x6B; 0x3C9;
  0x6D; 0x3C9; 0x61; 0x2E; 0x6D; 0x2E; 0x62; 0x71; 0x63; 0x63; 0x63; 0x64; 0x63; 0x2215; 0x6B; 0x67; 0x63;
  0x6F; 0x2E; 0x64; 0x62; 0x67; 0x79; 0x68; 0x61; 0x68; 0x70; 0x69; 0x6E; 0x6B; 0x6B; 0x6B; 0x6D; 0x6B;
  0x74; 0x6C; 0x6D; 0x6C; 0x6E; 0x6C; 0x6F; 0x67; 0x6C; 0x78; 0x6D; 0x62; 0x6D; 0x69; 0x6C; 0x6D; 0x6F;
  0x6C; 0x70; 0x68; 0x70; 0x2E; 0x6D; 0x2E; 0x70; 0x70; 0x6D; 0x70; 0x72; 0x73; 0x72; 0x73; 0x76; 0x77;
  0x62; 0x76; 0x2215; 0x6D; 0x61; 0x2215; 0x6D; 0x31; 0x65E5; 0x32; 0x65E5; 0x33; 0x65E5; 0x34; 0x65E5;
  0x35; 0x65E5; 0x36; 0x65E5; 0x37; 0x65E5; 0x38; 0x65E5; 0x39; 0x65E5; 0x31; 0x30; 0x65E5; 0x31; 0x31;
  0x65E5; 0x31; 0x32; 0x65E5; 0x31; 0x33; 0x65E5; 0x31; 0x34; 0x65E5; 0x31; 0x35; 0x65E5; 0x31; 0x36;
  0x65E5; 0x31; 0x37; 0x65E5; 0x31; 0x38; 0x65E5; 0x31; 0x39; 0x65E5; 0x32; 0x30; 0x65E5; 0x32; 0x31;
  0x65E5; 0x32; 0x32; 0x65E5; 0x32; 0x33; 0x65E5; 0x32; 0x34; 0x65E5; 0x32; 0x35; 0x65E5; 0x32; 0x36;
  0x65E5; 0x32; 0x37; 0x65E5; 0x32; 0x38; 0x65E5; 0x32; 0x39; 0x65E5; 0x33; 0x30; 0x65E5; 0x33; 0x31;
  0x65E5; 0x67; 0x61; 0x6C; 0x66; 0x66; 0x66; 0x69; 0x66; 0x6C; 0x66; 0x66; 0x69; 0x66; 0x66; 0x6C; 0x73;
  0x74; 0x73; 0x74; 0x574; 0x576; 0x574; 0x565; 0x574; 0x56B; 0x57E; 0x576; 0x574; 0x56D; 0x5D0; 0x5DC;
  0x6C7; 0x674; 0x64A; 0x627; 0x64A; 0x627; 0x64A; 0x6D5; 0x64A; 0x6D5; 0x64A; 0x648; 0x64A; 0x648; 0x64A;
  0x6C7; 0x64A; 0x6C7; 0x64A; 0x6C6; 0x64A; 0x6C6; 0x64A; 0x6C8; 0x64A; 0x6C8; 0x64A; 0x6D0; 0x64A; 0x6D0;
  0x64A; 0x6D0; 0x64A; 0x649; 0x64A; 0x649; 0x64A; 0x649; 0x64A; 0x62C; 0x64A; 0x62D; 0x64A; 0x645; 0x64A;
  0x649; 0x64A; 0x64A; 0x628; 0x62C; 0x628; 0x62D; 0x628; 0x62E; 0x628; 0x645; 0x628; 0x649; 0x628; 0x64A;
  0x62A; 0x62C; 0x62A; 0x62D; 0x62A; 0x62E; 0x62A; 0x645; 0x62A; 0x649; 0x62A; 0x64A; 0x62B; 0x62C; 0x62B;
  0x645; 0x62B; 0x649; 0x62B; 0x64A; 0x62C; 0x62D; 0x62C; 0x645; 0x62D; 0x62C; 0x62D; 0x645; 0x62E; 0x62C;
  0x62E; 0x62D; 0x62E; 0x645; 0x633; 0x62C; 0x633; 0x62D; 0x633; 0x62E; 0x633; 0x645; 0x635; 0x62D; 0x635;
  0x645; 0x636; 0x62C; 0x636; 0x62D; 0x636; 0x62E; 0x636; 0x645; 0x637; 0x62D; 0x637; 0x645; 0x638; 0x645;
  0x639; 0x62C; 0x639; 0x645; 0x63A; 0x62C; 0x63A; 0x645; 0x641; 0x62C; 0x641; 0x62D; 0x641; 0x62E; 0x641;
  0x645; 0x641; 0x649; 0x641; 0x64A; 0x642; 0x62D; 0x642; 0x645; 0x642; 0x649; 0x642; 0x64A; 0x643; 0x627;
  0x643; 0x62C; 0x643; 0x62D; 0x643; 0x62E; 0x643; 0x644; 0x643; 0x645; 0x643; 0x649; 0x643; 0x64A; 0x644;
  0x62C; 0x644; 0x62D; 0x644; 0x62E; 0x644; 0x645; 0x644; 0x649; 0x644; 0x64A; 0x645; 0x62C; 0x645; 0x62D;
  0x645; 0x62E; 0x645; 0x645; 0x645; 0x649; 0x645; 0x64A; 0x646; 0x62C; 0x646; 0x62D; 0x646; 0x62E; 0x646;
  0x645; 0x646; 0x649; 0x646; 0x64A; 0x647; 0x62C; 0x647; 0x645; 0x647; 0x649; 0x647; 0x64A; 0x64A; 0x62C;
  0x64A; 0x62D; 0x64A; 0x62E; 0x64A; 0x645; 0x64A; 0x649; 0x64A; 0x64A; 0x64A; 0x631; 0x64A; 0x632; 0x64A;
  0x645; 0x64A; 0x646; 0x64A; 0x649; 0x64A; 0x64A; 0x628; 0x631; 0x628; 0x632; 0x628; 0x645; 0x628; 0x646;
  0x628; 0x649; 0x628; 0x64A; 0x62A; 0x631; 0x62A; 0x632; 0x62A; 0x645; 0x62A; 0x646; 0x62A; 0x649; 0x62A;
  0x64A; 0x62B; 0x631; 0x62B; 0x632; 0x62B; 0x645; 0x62B; 0x646; 0x62B; 0x649; 0x62B; 0x64A; 0x641; 0x649;
  0x641; 0x64A; 0x642; 0x649; 0x642; 0x64A; 0x643; 0x627; 0x643; 0x644; 0x643; 0x645; 0x643; 0x649; 0x643;
  0x64A; 0x644; 0x645; 0x644; 0x649; 0x644; 0x64A; 0x645; 0x627; 0x645; 0x645; 0x646; 0x631; 0x646; 0x632;
  0x646; 0x645; 0x646; 0x646; 0x646; 0x649; 0x646; 0x64A; 0x64A; 0x631; 0x64A; 0x632; 0x64A; 0x645; 0x64A;
  0x646; 0x64A; 0x649; 0x64A; 0x64A; 0x64A; 0x62C; 0x64A; 0x62D; 0x64A; 0x62E; 0x64A; 0x645; 0x64A; 0x647;
  0x628; 0x62C; 0x628; 0x62D; 0x628; 0x62E; 0x628; 0x645; 0x628; 0x647; 0x62A; 0x62C; 0x62A; 0x62D; 0x62A;
  0x62E; 0x62A; 0x645; 0x62A; 0x647; 0x62B; 0x645; 0x62C; 0x62D; 0x62C; 0x645; 0x62D; 0x62C; 0x62D; 0x645;
  0x62E; 0x62C; 0x62E; 0x645; 0x633; 0x62C; 0x633; 0x62D; 0x633; 0x62E; 0x633; 0x645; 0x635; 0x62D; 0x635;
  0x62E; 0x635; 0x645; 0x636; 0x62C; 0x636; 0x62D; 0x636; 0x62E; 0x636; 0x645; 0x637; 0x62D; 0x638; 0x645;
  0x639; 0x62C; 0x639; 0x645; 0x63A; 0x62C; 0x63A; 0x645; 0x641; 0x62C; 0x641; 0x62D; 0x641; 0x62E; 0x641;
  0x645; 0x642; 0x62D; 0x642; 0x645; 0x643; 0x62C; 0x643; 0x62D; 0x643; 0x62E; 0x643; 0x644; 0x643; 0x645;
  0x644; 0x62C; 0x644; 0x62D; 0x644; 0x62E; 0x644; 0x645; 0x644; 0x647; 0x645; 0x62C; 0x645; 0x62D; 0x645;
  0x62E; 0x645; 0x645; 0x646; 0x62C; 0x646; 0x62D; 0x646; 0x62E; 0x646; 0x645; 0x646; 0x647; 0x647; 0x62C;
  0x647; 0x645; 0x64A; 0x62C; 0x64A; 0x62D; 0x64A; 0x62E; 0x64A; 0x645; 0x64A; 0x647; 0x64A; 0x645; 0x64A;
  0x647; 0x628; 0x645; 0x628; 0x647; 0x62A; 0x645; 0x62A; 0x647; 0x62B; 0x645; 0x62B; 0x647; 0x633; 0x645;
  0x633; 0x647; 0x634; 0x645; 0x634; 0x647; 0x643; 0x644; 0x643; 0x645; 0x644; 0x645; 0x646; 0x645; 0x646;
  0x647; 0x64A; 0x645; 0x64A; 0x647; 0x637; 0x649; 0x637; 0x64A; 0x639; 0x649; 0x639; 0x64A; 0x63A; 0x649;
  0x63A; 0x64A; 0x633; 0x649; 0x633; 0x64A; 0x634; 0x649; 0x634; 0x64A; 0x62D; 0x649; 0x62D; 0x64A; 0x62C;
  0x649; 0x62C; 0x64A; 0x62E; 0x649; 0x62E; 0x64A; 0x635; 0x649; 0x635; 0x64A; 0x636; 0x649; 0x636; 0x64A;
  0x634; 0x62C; 0x634; 0x62D; 0x634; 0x62E; 0x634; 0x645; 0x634; 0x631; 0x633; 0x631; 0x635; 0x631; 0x636;
  0x631; 0x637; 0x649; 0x637; 0x64A; 0x639; 0x649; 0x639; 0x64A; 0x63A; 0x649; 0x63A; 0x64A; 0x633; 0x649;
  0x633; 0x64A; 0x634; 0x649; 0x634; 0x64A; 0x62D; 0x649; 0x62D; 0x64A; 0x62C; 0x649; 0x62C; 0x64A; 0x62E;
  0x649; 0x62E; 0x64A; 0x635; 0x649; 0x635; 0x64A; 0x636; 0x649; 0x636; 0x64A; 0x634; 0x62C; 0x634; 0x62D;
  0x634; 0x62E; 0x634; 0x645; 0x634; 0x631; 0x633; 0x631; 0x635; 0x631; 0x636; 0x631; 0x634; 0x62C; 0x634;
  0x62D; 0x634; 0x62E; 0x634; 0x645; 0x633; 0x647; 0x634; 0x647; 0x637; 0x645; 0x633; 0x62C; 0x633; 0x62D;
  0x633; 0x62E; 0x634; 0x62C; 0x634; 0x62D; 0x634; 0x62E; 0x637; 0x645; 0x638; 0x645; 0x62A; 0x62C; 0x645;
  0x62A; 0x62D; 0x62C; 0x62A; 0x62D; 0x62C; 0x62A; 0x62D; 0x645; 0x62A; 0x62E; 0x645; 0x62A; 0x645; 0x62C;
  0x62A; 0x645; 0x62D; 0x62A; 0x645; 0x62E; 0x62C; 0x645; 0x62D; 0x62C; 0x645; 0x62D; 0x62D; 0x645; 0x64A;
  0x62D; 0x645; 0x649; 0x633; 0x62D; 0x62C; 0x633; 0x62C; 0x62D; 0x633; 0x62C; 0x649; 0x633; 0x645; 0x62D;
  0x633; 0x645; 0x62D; 0x633; 0x645; 0x62C; 0x633; 0x645; 0x645; 0x633; 0x645; 0x645; 0x635; 0x62D; 0x62D;
  0x635; 0x62D; 0x62D; 0x635; 0x645; 0x645; 0x634; 0x62D; 0x645; 0x634; 0x62D; 0x645; 0x634; 0x62C; 0x64A;
  0x634; 0x645; 0x62E; 0x634; 0x645; 0x62E; 0x634; 0x645; 0x645; 0x634; 0x645; 0x645; 0x636; 0x62D; 0x649;
  0x636; 0x62E; 0x645; 0x636; 0x62E; 0x645; 0x637; 0x645; 0x62D; 0x637; 0x645; 0x62D; 0x637; 0x645; 0x645;
  0x637; 0x645; 0x64A; 0x639; 0x62C; 0x645; 0x639; 0x645; 0x645; 0x639; 0x645; 0x645; 0x639; 0x645; 0x649;
  0x63A; 0x645; 0x645; 0x63A; 0x645; 0x64A; 0x63A; 0x645; 0x649; 0x641; 0x62E; 0x645; 0x641; 0x62E; 0x645;
  0x642; 0x645; 0x62D; 0x642; 0x645; 0x645; 0x644; 0x62D; 0x645; 0x644; 0x62D; 0x64A; 0x644; 0x62D; 0x649;
  0x644; 0x62C; 0x62C; 0x644; 0x62C; 0x62C; 0x644; 0x62E; 0x645; 0x644; 0x62E; 0x645; 0x644; 0x645; 0x62D;
  0x644; 0x645; 0x62D; 0x645; 0x62D; 0x62C; 0x645; 0x62D; 0x645; 0x645; 0x62D; 0x64A; 0x645; 0x62C; 0x62D;
  0x645; 0x62C; 0x645; 0x645; 0x62E; 0x62C; 0x645; 0x62E; 0x645; 0x645; 0x62C; 0x62E; 0x647; 0x645; 0x62C;
  0x647; 0x645; 0x645; 0x646; 0x62D; 0x645; 0x646; 0x62D; 0x649; 0x646; 0x62C; 0x645; 0x646; 0x62C; 0x645;
  0x646; 0x62C; 0x649; 0x646; 0x645; 0x64A; 0x646; 0x645; 0x649; 0x64A; 0x645; 0x645; 0x64A; 0x645; 0x645;
  0x628; 0x62E; 0x64A; 0x62A; 0x62C; 0x64A; 0x62A; 0x62C; 0x649; 0x62A; 0x62E; 0x64A; 0x62A; 0x62E; 0x649;
  0x62A; 0x645; 0x64A; 0x62A; 0x645; 0x649; 0x62C; 0x645; 0x64A; 0x62C; 0x62D; 0x649; 0x62C; 0x645; 0x649;
  0x633; 0x62E; 0x649; 0x635; 0x62D; 0x64A; 0x634; 0x62D; 0x64A; 0x636; 0x62D; 0x64A; 0x644; 0x62C; 0x64A;
  0x644; 0x645; 0x64A; 0x64A; 0x62D; 0x64A; 0x64A; 0x62C; 0x64A; 0x64A; 0x645; 0x64A; 0x645; 0x645; 0x64A;
  0x642; 0x645; 0x64A; 0x646; 0x62D; 0x64A; 0x642; 0x645; 0x62D; 0x644; 0x62D; 0x645; 0x639; 0x645; 0x64A;
  0x643; 0x645; 0x64A; 0x646; 0x62C; 0x62D; 0x645; 0x62E; 0x64A; 0x644; 0x62C; 0x645; 0x643; 0x645; 0x645;
  0x644; 0x62C; 0x645; 0x646; 0x62C; 0x62D; 0x62C; 0x62D; 0x64A; 0x62D; 0x62C; 0x64A; 0x645; 0x62C; 0x64A;
  0x641; 0x645; 0x64A; 0x628; 0x62D; 0x64A; 0x643; 0x645; 0x645; 0x639; 0x62C; 0x645; 0x635; 0x645; 0x645;
  0x633; 0x62E; 0x64A; 0x646; 0x62C; 0x64A; 0x635; 0x644; 0x6D2; 0x642; 0x644; 0x6D2; 0x627; 0x644; 0x644;
  0x647; 0x627; 0x643; 0x628; 0x631; 0x645; 0x62D; 0x645; 0x62F; 0x635; 0x644; 0x639; 0x645; 0x631; 0x633;
  0x648; 0x644; 0x639; 0x644; 0x64A; 0x647; 0x648; 0x633; 0x644; 0x645; 0x635; 0x644; 0x649; 0x635; 0x644;
  0x649; 0x20; 0x627; 0x644; 0x644; 0x647; 0x20; 0x639; 0x644; 0x64A; 0x647; 0x20; 0x648; 0x633; 0x644;
  0x645; 0x62C; 0x644; 0x20; 0x62C; 0x644; 0x627; 0x644; 0x647; 0x631; 0x6CC; 0x627; 0x644; 0x2E; 0x2E;
  0x2E; 0x2E; 0x2E; 0x644; 0x627; 0x644; 0x627; 0x644; 0x627; 0x644; 0x627; 0x644; 0x627; 0x644; 0x627;
  0x644; 0x627; 0x644; 0x627; 0x30; 0x2E; 0x30; 0x2C; 0x31; 0x2C; 0x32; 0x2C; 0x33; 0x2C; 0x34; 0x2C; 0x35;
  0x2C; 0x36; 0x2C; 0x37; 0x2C; 0x38; 0x2C; 0x39; 0x2C; 0x28; 0x61; 0x29; 0x28; 0x62; 0x29; 0x28; 0x63;
  0x29; 0x28; 0x64; 0x29; 0x28; 0x65; 0x29; 0x28; 0x66; 0x29; 0x28; 0x67; 0x29; 0x28; 0x68; 0x29; 0x28;
  0x69; 0x29; 0x28; 0x6A; 0x29; 0x28; 0x6B; 0x29; 0x28; 0x6C; 0x29; 0x28; 0x6D; 0x29; 0x28; 0x6E; 0x29;
  0x28; 0x6F; 0x29; 0x28; 0x70; 0x29; 0x28; 0x71; 0x29; 0x28; 0x72; 0x29; 0x28; 0x73; 0x29; 0x28; 0x74;
  0x29; 0x28; 0x75; 0x29; 0x28; 0x76; 0x29; 0x28; 0x77; 0x29; 0x28; 0x78; 0x29; 0x28; 0x79; 0x29; 0x28;
  0x7A; 0x29; 0x3014; 0x73; 0x3015; 0x63; 0x64; 0x77; 0x7A; 0x68; 0x76; 0x6D; 0x76; 0x73; 0x64; 0x73; 0x73;
  0x70; 0x70; 0x76; 0x77; 0x63; 0x6D; 0x63; 0x6D; 0x64; 0x64; 0x6A; 0x307B; 0x304B; 0x30B3; 0x30B3; 0x3014;
  0x672C; 0x3015; 0x3014; 0x4E09; 0x3015; 0x3014; 0x4E8C; 0x3015; 0x3014; 0x5B89; 0x3015; 0x3014; 0x70B9;
  0x3015; 0x3014; 0x6253; 0x3015; 0x3014; 0x76D7; 0x3015; 0x3014; 0x52DD; 0x3015; 0x3014; 0x6557; 0x3015].
