(* ===== verification/Engram.v ===== *)
(** The engram tables ([src/runtime/engram.h], [engram.cpp]): the constants of the n-gram hash,
    reading them from an export, the resident scale planes, and the rows of a token.

    Signed overflow and a remainder by zero are undefined in the source: the model answers
    [Internal] there.  The operating system's files are parameters. *)

From S2P Require Import Prelude Types Json V41Config Manifest ShardSet.

Definition kEngramRowsPerToken : nat := 24.

(** One engram layer's constants; [row] arrays have 24 entries, [multipliers] four. *)
Record LayerTable := {
  lt_layer : Z; lt_num_embeddings : Z; lt_multipliers : list Z; lt_primes : list Z; lt_offsets : list Z }.

Record EngramTables := {
  et_compressed_vocab_size : Z; et_max_ngram : Z; et_n_heads : Z; et_head_dim : Z; et_pad_id : Z;
  et_token_map : list Z; et_layers : list LayerTable; et_scales : option (gmap Z (list Z)) }.

Definition et_valid (t : EngramTables) : bool :=
  negb (Nat.eqb (length (et_token_map t)) 0) && negb (Nat.eqb (length (et_layers t)) 0).
Definition for_layer (t : EngramTables) (layer : Z) : option LayerTable :=
  List.find (fun l => lt_layer l =? layer) (et_layers t).

(** The eight scale bytes of a row held in host memory. *)
Definition scale_row (t : EngramTables) (layer row : Z) : option (list Z) :=
  planes ← et_scales t; plane ← planes !! layer;
  Some (subspan plane (Z.to_nat (row * kEngramScaleRowBytes)) (Z.to_nat kEngramScaleRowBytes)).

(** ** The hash *)

(** A signed 64-bit result, or overflow. *)
Definition checked (x : Z) : Result Z := if (- 2 ^ 63 <=? x) && (x <? 2 ^ 63) then Ret x else Fail Internal.
Definition rem64 (a b : Z) : Result Z := if b =? 0 then Fail Internal else Ret (Z.rem a b).

(** The compressed id a lookback of [shift] tokens reads: padding before the sequence. *)
Definition compressed_at (t : EngramTables) (history : list Z) (position shift : Z) : Result Z :=
  if position <? shift then Ret (et_pad_id t)
  else match history !! Z.to_nat (position - shift) with
       | None => Fail Internal
       | Some tok => match et_token_map t !! Z.to_nat tok with Some c => Ret c | None => Fail OutOfRange end
       end.
Definition lookback (t : EngramTables) (lt : LayerTable) (history : list Z) (position shift : Z) : Result Z :=
  c ← compressed_at t history position shift;
  checked (c * nth (Z.to_nat shift) (lt_multipliers lt) 0).

(** The row of column [col] for a hash. *)
Definition row_of (lt : LayerTable) (rolling : Z) (col : nat) : Result Z :=
  r ← rem64 rolling (nth col (lt_primes lt) 0);
  row ← checked (r + nth col (lt_offsets lt) 0);
  if (row <? 0) || (lt_num_embeddings lt <=? row) then Fail Internal else Ret row.

(** The running XOR: after each lookback, one row per head. *)
Fixpoint hash_orders (lt : LayerTable) (heads i : nat) (rolling : Z) (prods : list Z) : Result (list Z) :=
  match prods with
  | [] => Ret []
  | p :: prods =>
      let rolling := Z.lxor rolling p in
      rows ← mapM_res (row_of lt rolling) (seq (i * heads) heads);
      rest ← hash_orders lt heads (S i) rolling prods;
      Ret (rows ++ rest)
  end.

Definition hash_rows (t : EngramTables) (layer : Z) (history : list Z) (position : Z) (slots : nat) : Result (list Z) :=
  match for_layer t layer with
  | None => Fail NotFound
  | Some lt =>
      if negb (Nat.eqb slots kEngramRowsPerToken) then Fail InvalidArgument
      else if Z.of_nat (length history) <=? position then Fail OutOfRange
      else
        prods ← mapM_res (lookback t lt history position) (seqZ 0 (et_max_ngram t));
        match prods with
        | [] => Ret []
        | p :: prods => hash_orders lt (Z.to_nat (et_n_heads t)) 0 p prods
        end
  end.

(** ** Reading an export *)

Definition engram_int_array (v : JsonValue) (key : string) (want : nat) : Result (list Z) :=
  a ← at_key v key;
  arr ← as_array a;
  _ ← fail_if (negb (Nat.eqb (length arr) want)) Corrupt;
  mapM_res as_int arr.

Definition load_layer_table (max_ngram : Z) (lv : JsonValue) : Result LayerTable :=
  m ← engram_int_array lv "multipliers" (Z.to_nat max_ngram);
  p ← engram_int_array lv "primes" kEngramRowsPerToken;
  o ← engram_int_array lv "offsets" kEngramRowsPerToken;
  Ret {| lt_layer := u32 (int_or lv "layer" 0); lt_num_embeddings := u64 (int_or lv "num_embeddings" 0);
         lt_multipliers := m; lt_primes := p; lt_offsets := o |}.

Section Load.
(** The 32-bit entries of a binary file, [None] when it cannot be opened. *)
Context (read_i32s : string -> option (list Z)).

Definition load_tables (dir : string) (parsed : Result JsonValue) : Result EngramTables :=
  doc ← parsed;
  e ← at_key doc "engram";
  let max_ngram := u32 (int_or e "max_ngram_size" kEngramMaxNgram) in
  let n_heads := u32 (int_or e "n_heads" kEngramHeads) in
  let head_dim := u32 (int_or e "head_dim" kEngramHeadDim) in
  _ ← fail_if (negb (max_ngram =? kEngramMaxNgram) || negb (n_heads =? kEngramHeads) || negb (head_dim =? kEngramHeadDim)) Corrupt;
  let entries := Z.to_nat (u64 (int_or e "token_map_entries" 0)) in
  match read_i32s (dir +:+ "/" +:+ string_or e "token_map_file" "engram_token_map.bin") with
  | None => Fail NotFound
  | Some data =>
      _ ← fail_if (Nat.ltb (length data) entries) Io;
      ls ← at_key e "layers";
      la ← as_array ls;
      layers ← mapM_res (load_layer_table max_ngram) la;
      Ret {| et_compressed_vocab_size := u32 (int_or e "compressed_vocab_size" 0); et_max_ngram := max_ngram;
             et_n_heads := n_heads; et_head_dim := head_dim; et_pad_id := int_or e "pad_id" 0;
             et_token_map := take entries data; et_layers := layers; et_scales := None |}
  end.
End Load.

(** ** The resident scale planes *)

Section Scales.
(** A read of a shard: the bytes it got, fewer than asked for at the end of the file. *)
Context (read_at : File -> Z -> Z -> Result (list Z)).

Definition kPiece : Z := 2 ^ 23.

(** One piece of the plane at [done]: a sector-aligned read around it. *)
Definition scale_piece (f : File) (base bytes done : Z) : Result (list Z) :=
  let off := u64 (base + done) in
  let a0 := align_down off kPageSize in
  let want := Z.min kPiece (bytes - done) in
  let a1 := Z.land (u64 (off + want + kPageSize - 1)) (not64 (kPageSize - 1)) in
  got ← read_at f a0 (u64 (a1 - a0));
  _ ← fail_if (Z.of_nat (length got) <? off - a0 + want) Io;
  Ret (subspan got (Z.to_nat (off - a0)) (Z.to_nat want)).

Fixpoint scale_pieces (fuel : nat) (f : File) (base bytes done : Z) : Result (list Z) :=
  match fuel with
  | O => Ret []
  | S fuel =>
      if done <? bytes then
        p ← scale_piece f base bytes done;
        rest ← scale_pieces fuel f base bytes (done + Z.min kPiece (bytes - done));
        Ret (p ++ rest)
      else Ret []
  end.
(** As many pieces as the plane is long in pieces, and one round to see the end. *)
Definition scale_plane (f : File) (base bytes : Z) : Result (list Z) :=
  scale_pieces (S (Z.to_nat (bytes / kPiece + 1))) f base bytes 0.

Definition load_scales (m : Manifest) (s : ShardSet) (layers : list Z) : Result (gmap Z (list Z)) :=
  foldM (fun planes L =>
    match engram_for_layer m (u32 L) with
    | None => Fail NotFound
    | Some e =>
        f ← require s (ep_file (eg_scale e));
        plane ← scale_plane f (ep_offset (eg_scale e)) (u64 (eg_rows e * kEngramScaleRowBytes));
        Ret (match planes !! u32 L with Some _ => planes | None => <[u32 L := plane]> planes end)
    end) ∅ layers.
End Scales.
