(* ===== verification/EngramTables.v ===== *)
(** Deriving the engram tables from the tokenizer and the configuration
    ([src/runtime/engram_tables.h], [engram_tables.cpp]): the normaliser, numpy's seeded
    generator and bounded draw, the primes of the buckets, and the compressed token map. *)

From Stdlib Require Import Ascii.
From S2P Require Import Prelude Floats Json V41Config Utf8 Tokenizer EngramNorm Engram.

(** ** The normaliser *)

(** The last entry of a table that writes a code point. *)
Definition last_some {A B} (f : A -> option B) (l : list A) : option B :=
  foldl (fun acc x => match f x with Some b => Some b | None => acc end) None l.

(** [NormMap]: what a code point becomes; later tables overwrite earlier ones. *)
Definition norm_multi (c : Z) : option (list Z) :=
  last_some (fun r => if r.1.1 =? c then Some (subspan kNormMultiOut (Z.to_nat r.1.2) (Z.to_nat r.2)) else None) kNormMulti.
Definition norm_run (c : Z) : option (list Z) :=
  last_some (fun r => let '(lo, hi, step, delta) := r in
    if (lo <=? c) && (c <=? hi) && ((c - lo) mod step =? 0) then Some [u32 (c + delta)] else None) kNormRuns.
Definition norm_delete (c : Z) : option (list Z) :=
  last_some (fun r => if (r.1 <=? c) && (c <=? r.2) then Some [] else None) kNormDelete.
Definition norm_map (c : Z) : option (list Z) :=
  match norm_multi c with
  | Some o => Some o
  | None => match norm_run c with Some o => Some o | None => norm_delete c end
  end.

(** [utf8_to_u32]: no check of the bytes after the lead. *)
Definition low6 (c : ascii) : Z := Z.land (byte_of c) 0x3F.
Fixpoint utf8_to_u32 (fuel : nat) (s : text) : list Z :=
  match fuel, s with
  | O, _ | _, [] => []
  | S fuel, c0 :: s1 =>
      let b := byte_of c0 in
      if b <? 0x80 then b :: utf8_to_u32 fuel s1
      else match Z.shiftr b 5 =? 0x6, Z.shiftr b 4 =? 0xE, Z.shiftr b 3 =? 0x1E, s1 with
           | true, _, _, c1 :: s2 => Z.lor (Z.shiftl (Z.land b 0x1F) 6) (low6 c1) :: utf8_to_u32 fuel s2
           | _, true, _, c1 :: c2 :: s3 =>
               Z.lor (Z.lor (Z.shiftl (Z.land b 0x0F) 12) (Z.shiftl (low6 c1) 6)) (low6 c2) :: utf8_to_u32 fuel s3
           | _, _, true, c1 :: c2 :: c3 :: s4 =>
               Z.lor (Z.lor (Z.lor (Z.shiftl (Z.land b 0x07) 18) (Z.shiftl (low6 c1) 12)) (Z.shiftl (low6 c2) 6)) (low6 c3)
               :: utf8_to_u32 fuel s4
           | _, _, _, _ => 0xFFFD :: utf8_to_u32 fuel s1
           end
  end.

Definition rust_whitespace (c : Z) : bool :=
  bool_decide (c ∈ [0x09; 0x0A; 0x0B; 0x0C; 0x0D; 0x20; 0x85; 0xA0; 0x1680; 0x2028; 0x2029; 0x202F; 0x205F; 0x3000])
  || ((0x2000 <=? c) && (c <=? 0x200A)).

Definition norm_char (c : Z) : list Z :=
  if (0xAC00 <=? c) && (c <=? 0xD7A3) then
    let k := c - 0xAC00 in
    [0x1100 + k / 588; 0x1161 + (k mod 588) / 28] ++ (if k mod 28 =? 0 then [] else [0x11A7 + k mod 28])
  else default [c] (norm_map c).

Definition is_blank (c : Z) : bool := bool_decide (c ∈ [32; 9; 13; 10]).
(** Runs of blanks become one space. *)
Fixpoint squeeze (inside : bool) (s : list Z) : list Z :=
  match s with
  | [] => []
  | c :: s => if is_blank c then (if inside then squeeze true s else 32 :: squeeze true s) else c :: squeeze false s
  end.
Definition kSentinel : Z := 0xE000.
Fixpoint drop_while (f : Z -> bool) (s : list Z) : list Z :=
  match s with c :: s' => if f c then drop_while f s' else s | [] => [] end.
Definition strip (s : list Z) : list Z := rev (drop_while rust_whitespace (rev (drop_while rust_whitespace s))).

Definition engram_normalize (utf8 : text) : text :=
  let s := flat_map norm_char (utf8_to_u32 (length utf8) utf8) in
  let w := squeeze false s in
  let w := match w with [c] => if c =? 32 then [kSentinel] else w | _ => w end in
  flat_map (fun c => utf8_append (if c =? kSentinel then 32 else c)) (strip w).

(** ** numpy's SeedSequence, PCG64 and bounded draw *)

Definition u128 (x : Z) : Z := x mod 2 ^ 128.

Definition kInitA : Z := 0x43b0d7e5.
Definition kMultA : Z := 0x931e8875.
Definition kInitB : Z := 0x8b51f9dd.
Definition kMultB : Z := 0x58f38ded.
Definition kMixL : Z := 0xca01f9dd.
Definition kMixR : Z := 0x4973f715.

(** [hashmix] with its running constant. *)
Definition hashmix (mult hc v : Z) : Z * Z :=
  let v := Z.lxor v hc in
  let hc := u32 (hc * mult) in
  let v := u32 (v * hc) in
  (Z.lxor v (Z.shiftr v 16), hc).
Definition mix (x y : Z) : Z :=
  let r := u32 (u32 (kMixL * x) - u32 (kMixR * y)) in Z.lxor r (Z.shiftr r 16).

(** The 32-bit words of the seed: one or two. *)
Definition entropy_words (e : Z) : list Z :=
  let hi := Z.shiftr e 32 in u32 e :: (if hi =? 0 then [] else [hi]).

Definition seed_init (ent : list Z) : list Z * Z :=
  foldl (fun '(pool, hc) i => let '(v, hc) := hashmix kMultA hc (nth i ent 0) in (pool ++ [v], hc)) ([], kInitA) (seq 0 4).
Definition pool_mix (st : list Z * Z) (sd : nat * nat) : list Z * Z :=
  let '(pool, hc) := st in
  let '(s, d) := sd in
  if Nat.eqb s d then st
  else let '(v, hc) := hashmix kMultA hc (nth s pool 0) in (<[d := mix (nth d pool 0) v]> pool, hc).
(** A seed of 64 bits has no words beyond the pool, so the source's last mixing loop is empty. *)
Definition seed_pool (ent : list Z) : list Z :=
  (foldl pool_mix (seed_init ent) (flat_map (fun s => map (pair s) (seq 0 4)) (seq 0 4))).1.

Definition seed_sequence_state (entropy : Z) (n_words64 : nat) : list Z :=
  let pool := seed_pool (entropy_words entropy) in
  let '(words, _) := foldl (fun '(ws, h) i =>
    let '(v, h) := hashmix kMultB h (nth (i mod 4) pool 0) in (ws ++ [v], h)) ([], kInitB) (seq 0 (n_words64 * 2)) in
  map (fun i => Z.lor (nth (2 * i) words 0) (Z.shiftl (nth (2 * i + 1) words 0) 32)) (seq 0 n_words64).

Record Pcg64 := { pcg_state : Z; pcg_inc : Z }.
Definition kPcgMult : Z := Z.lor (Z.shiftl 2549297995355413924 64) 4865540595714422341.
Definition pcg_step (g : Pcg64) : Pcg64 := {| pcg_state := u128 (pcg_state g * kPcgMult + pcg_inc g); pcg_inc := pcg_inc g |}.
Definition pcg_seed (seed : Z) : Pcg64 :=
  let v := seed_sequence_state seed 4 in
  let at' i := nth i v 0 in
  let inc := Z.lor (u128 (Z.shiftl (Z.lor (Z.shiftl (at' 2%nat) 64) (at' 3%nat)) 1)) 1 in
  let g := pcg_step {| pcg_state := 0; pcg_inc := inc |} in
  pcg_step {| pcg_state := u128 (pcg_state g + Z.lor (Z.shiftl (at' 0%nat) 64) (at' 1%nat)); pcg_inc := inc |}.
Definition next64 (g : Pcg64) : Z * Pcg64 :=
  let g := pcg_step g in
  let x := Z.lxor (Z.shiftr (pcg_state g) 64) (u64 (pcg_state g)) in
  let rot := Z.shiftr (pcg_state g) 122 in
  (Z.lor (Z.shiftr x rot) (u64 (Z.shiftl x (Z.land (64 - rot) 63))), g).

(** Lemire's rejection; [None] when [fuel] draws were all rejected. *)
Fixpoint reject (fuel : nat) (ex threshold : Z) (g : Pcg64) (m : Z) : option (Z * Pcg64) :=
  if u64 m <? threshold then
    match fuel with
    | O => None
    | S fuel => let '(x, g) := next64 g in reject fuel ex threshold g (x * ex)
    end
  else Some (m, g).
Definition bounded_draw (fuel : nat) (rng : Z) (g : Pcg64) : option (Z * Pcg64) :=
  let ex := rng + 1 in
  let '(x, g) := next64 g in
  let m := x * ex in
  '(m, g) ← (if u64 m <? ex then reject fuel ex ((2 ^ 64 - 1 - rng) mod ex) g m else Some (m, g));
  Some (Z.shiftr m 64, g).
Fixpoint integer_draws (fuel : nat) (rng : Z) (n : nat) (g : Pcg64) : option (list Z) :=
  match n with
  | O => Some []
  | S n => '(x, g) ← bounded_draw fuel rng g; xs ← integer_draws fuel rng n g; Some (x :: xs)
  end.
Definition numpy_rng_integers (fuel : nat) (seed high : Z) (n : nat) : option (list Z) :=
  if high <=? 1 then Some (replicate n 0)
  else let rng := high - 1 in
       if rng <=? 0xFFFFFFFF then Some (replicate n (-1)) else integer_draws fuel rng n (pcg_seed seed).

(** What numpy prints for the two engram layers of the shipped model. *)
Example numpy_layer_1 : numpy_rng_integers 0 10007 ((2 ^ 63 - 1) / 99092 / 2) 4 =
  Some [38316048023122; 2419938046656; 17979836159674; 36993668729195].
Proof. by vm_compute. Qed.

(** ** Primes *)

Definition kWitnesses : list Z := [2; 3; 5; 7; 11; 13; 17; 19; 23; 29; 31; 37].

Definition mulmod (a b m : Z) : Z := (a * b) mod m.
(** [while (e)]: a 64-bit exponent has at most 64 binary digits. *)
Fixpoint pow_loop (fuel : nat) (r a e m : Z) : Z :=
  match fuel with
  | O => r
  | S fuel =>
      if e =? 0 then r
      else pow_loop fuel (if Z.land e 1 =? 0 then r else mulmod r a m) (mulmod a a m) (Z.shiftr e 1) m
  end.
Definition powmod (a e m : Z) : Z := pow_loop 64 1 (a mod m) e m.

(** [while ((d & 1) == 0) { d >>= 1; ++s; }] *)
Fixpoint halve_loop (fuel : nat) (d : Z) (s : nat) : Z * nat :=
  match fuel with
  | O => (d, s)
  | S fuel => if Z.land d 1 =? 0 then halve_loop fuel (Z.shiftr d 1) (S s) else (d, s)
  end.

(** The squarings of one witness: [true] when none of them reaches [n - 1]. *)
Fixpoint squarings (rounds : nat) (x n : Z) : bool :=
  match rounds with
  | O => true
  | S rounds => let x := mulmod x x n in if x =? n - 1 then false else squarings rounds x n
  end.
Definition composite_by (n d : Z) (s : nat) (a : Z) : bool :=
  let x := powmod a d n in
  if (x =? 1) || (x =? n - 1) then false else squarings (s - 1) x n.

Definition is_prime (n : Z) : bool :=
  if n <? 2 then false
  else match List.find (fun p => n mod p =? 0) kWitnesses with
       | Some p => n =? p
       | None => let '(d, s) := halve_loop 64 (n - 1) 0 in negb (existsb (composite_by n d s) kWitnesses)
       end.

(** [while (!is_prime(c) || seen.count(c)) ++c]: [2 ^ k] candidates, the number found or the
    next candidate. *)
Fixpoint prime_search (k : nat) (seen : list Z) (c : Z) : Z + Z :=
  match k with
  | O => if negb (is_prime c) || bool_decide (c ∈ seen) then inr (u64 (c + 1)) else inl c
  | S k => match prime_search k seen c with inl p => inl p | inr c => prime_search k seen c end
  end.
(** All [2 ^ 64] candidates. *)
Definition next_prime (seen : list Z) (c : Z) : option Z :=
  match prime_search 64 seen c with inl p => Some p | inr _ => None end.

(** The bucket sizes of one n-gram order: [heads] primes after [current]. *)
Fixpoint order_primes (heads : nat) (seen : list Z) (current : Z) : option (list Z * list Z) :=
  match heads with
  | O => Some ([], seen)
  | S heads =>
      c ← next_prime seen (u64 (current + 1));
      '(ps, seen) ← order_primes heads (c :: seen) c;
      Some (c :: ps, seen)
  end.
Fixpoint layer_primes (orders heads : nat) (vocab : Z) (seen : list Z) : option (list Z * list Z) :=
  match orders with
  | O => Some ([], seen)
  | S orders =>
      '(ps, seen) ← order_primes heads seen (u64 (vocab - 1));
      '(qs, seen) ← layer_primes orders heads vocab seen;
      Some (ps ++ qs, seen)
  end.
(** The running sums of the bucket sizes. *)
Fixpoint running (off : Z) (ps : list Z) : list Z :=
  match ps with [] => [] | p :: ps => off :: running (off + p) ps end.

(** ** The compressed token map *)

Definition replacement_in (s : text) : bool := existsb (fun i => bool_decide (take 3 (drop i s) = kReplacement)) (seq 0 (length s)).

Definition token_key (t : Tokenizer) (id : Z) : string :=
  let text := decode t [id] false in
  if replacement_in text then text_str (token_string t id)
  else let key := engram_normalize text in
       text_str (match key with [] => text | _ => key end).

(** [try_emplace]: a new key gets the next number. *)
Definition number_key (st : gmap string Z * list Z) (key : string) : gmap string Z * list Z :=
  let '(keys, ids) := st in
  match keys !! key with
  | Some k => (keys, ids ++ [k])
  | None => let k := Z.of_nat (size keys) in (<[key := k]> keys, ids ++ [k])
  end.
Definition build_token_map (t : Tokenizer) : gmap string Z * list Z :=
  foldl number_key (∅, []) (map (token_key t) (seqZ 0 (tok_vocab_size t))).

(** ** [derive_engram_tables] *)

Definition of_fuel {A} (o : option A) : Result A := match o with Some a => Ret a | None => Fail Internal end.

Definition derive_layer (fuel : nat) (cfg : TextConfig) (orders heads : nat) (bound : Z)
    (st : list LayerTable * list Z) (entry : Z * Z) : Result (list LayerTable * list Z) :=
  let '(lts, seen) := st in
  let layer := u32 entry.1 in
  let num := u64 entry.2 in
  m ← of_fuel (numpy_rng_integers fuel (u64 (10007 * layer)) bound (S orders));
  _ ← fail_if (existsb (fun x => x <? 0) m) Internal;
  '(ps, seen) ← of_fuel (layer_primes orders heads (tc_engram_vocab_size cfg) seen);
  let qs := map i64 ps in
  off ← foldM (fun o p => checked (o + p)) 0 qs;
  _ ← fail_if (negb (u64 off =? num)) Corrupt;
  Ret (lts ++ [{| lt_layer := layer; lt_num_embeddings := num; lt_multipliers := map (fun x => x * 2 + 1) m;
                  lt_primes := qs; lt_offsets := running 0 qs |}], seen).

Definition derive_engram_tables (fuel : nat) (t : Tokenizer) (cfg : TextConfig) : Result EngramTables :=
  let max_ngram := tc_engram_max_ngram_size cfg in
  let n_heads := tc_engram_n_heads cfg in
  _ ← fail_if (negb (max_ngram =? kEngramMaxNgram) || negb (n_heads =? kEngramHeads) ||
               negb (tc_engram_head_dim cfg =? kEngramHeadDim)) Corrupt;
  _ ← fail_if (negb (Nat.eqb (length (tc_engram_layer_ids cfg)) (length (tc_engram_num_embeddings cfg)))) Corrupt;
  let '(keys, ids) := build_token_map t in
  let compressed := u32 (Z.of_nat (size keys)) in
  _ ← fail_if (negb (tc_engram_compressed_vocab_size cfg =? 0) && negb (compressed =? tc_engram_compressed_vocab_size cfg)) Corrupt;
  _ ← fail_if (tok_vocab_size t <=? tc_engram_pad_token_id cfg) Corrupt;
  _ ← fail_if (compressed =? 0) Internal;
  let bound := Z.max 1 ((2 ^ 63 - 1) / compressed / 2) in
  '(lts, _) ← foldM (derive_layer fuel cfg (Z.to_nat (max_ngram - 1)) (Z.to_nat n_heads) bound) ([], [])
    (zip (tc_engram_layer_ids cfg) (tc_engram_num_embeddings cfg));
  Ret {| et_compressed_vocab_size := compressed; et_max_ngram := max_ngram; et_n_heads := n_heads;
         et_head_dim := tc_engram_head_dim cfg; et_pad_id := nth (Z.to_nat (tc_engram_pad_token_id cfg)) ids 0;
         et_token_map := ids; et_layers := lts; et_scales := None |}.

(** ** The shipped model's tables

    [tests/data/l3/index.json] holds what the reference
    implementation derived. *)

(** A configuration of which only the engram part matters. *)
Definition engram_config (layer_ids num_embeddings : list Z) (vocab pad : Z) : TextConfig :=
  mkTextConfig EmptyString 0 0 0 0 0 0 0 0 0 0 0 EmptyString f64_zero f64_zero false f64_zero
    f64_zero false false 0 f64_zero RopeScaling_default 0 0 0 EmptyString EmptyString false f64_zero
    0 [] f64_zero [] [] 0 0 0 0 0 0 0 0 f64_zero layer_ids num_embeddings kEngramMaxNgram vocab
    kEngramHeads kEngramHeadDim pad 0 0 0 0 [] 0 0 0.

Definition exported_layer_1 : LayerTable :=
  {| lt_layer := 1; lt_num_embeddings := 384006168; lt_multipliers := [76632096046245; 4839876093313;
    35959672319349; 73987337458391]; lt_primes := [16000057; 16000079; 16000081; 16000097; 16000121;
    16000129; 16000133; 16000183; 16000189; 16000207; 16000211; 16000253; 16000277; 16000289;
    16000307; 16000321; 16000339; 16000381; 16000393; 16000399; 16000403; 16000409; 16000447;
    16000463]; lt_offsets := [0; 16000057; 32000136; 48000217; 64000314; 80000435; 96000564;
    112000697; 128000880; 144001069; 160001276; 176001487; 192001740; 208002017; 224002306;
    240002613; 256002934; 272003273; 288003654; 304004047; 320004446; 336004849; 352005258;
    368005705] |}.

Example derives_the_export :
  derive_layer 0 (engram_config [1; 14] [384006168; 384016682] 16000000 2) 3 8 ((2 ^ 63 - 1) / 99092 / 2) ([], []) (1, 384006168) =
  Ret ([exported_layer_1], rev (lt_primes exported_layer_1)).
Proof. by vm_compute. Qed.
Example numpy_layer_14 : numpy_rng_integers 0 (10007 * 14) ((2 ^ 63 - 1) / 99092 / 2) 4 =
  Some [33858405369630; 25755403400457; 15460673601360; 41309613242795].
Proof. by vm_compute. Qed.

Example normalizes :
  map (fun s => engram_normalize s) [to_text " The"; to_text " "; [byte 10; byte 10]; map byte [0xC3; 0xA9; 116; 0xC3; 0xA9];
    map byte [0xEF; 0xBC; 0xA1]; map byte [0xE2; 0x80; 0x83; 120; 32]; map byte [0xEF; 0xAC; 0x81]] =
  [to_text "the"; to_text " "; to_text " "; to_text "ete"; to_text "a"; to_text "x"; to_text "fi"].
Proof. by vm_compute. Qed.
