(* ===== verification/EngramProps.v ===== *)
(** Properties of the engram tables: the draws are in range, the prime search ends at the next
    unused prime, token ids are compressed by first appearance, and on derived tables the rows
    of a token always exist. *)

From Stdlib Require Import Ascii ZifyBool.
From S2P Require Import Prelude Types Json V41Config Utf8 Tokenizer TokenizerLoad Engram EngramNorm EngramTables.

(** ** Bits *)

Lemma bits_lt n f a b : 0 <= n -> 0 <= a < 2 ^ n -> 0 <= b < 2 ^ n ->
  (forall i, 0 <= i -> Z.testbit (f a b) i = true -> Z.testbit a i = true \/ Z.testbit b i = true) -> 0 <= f a b ->
  f a b < 2 ^ n.
Proof.
  intros Hn Ha Hb Hf H0. destruct (decide (f a b = 0)) as [->|Hne]; [apply Z.pow_pos_nonneg; lia|].
  apply Z.log2_lt_pow2; [lia|].
  destruct (Hf (Z.log2 (f a b)) (Z.log2_nonneg _) ltac:(apply Z.bit_log2; lia)) as [Ht|Ht].
  - destruct (decide (n <= Z.log2 (f a b))) as [Hle|]; [|lia]. exfalso.
    destruct (decide (a = 0)) as [->|]; [by rewrite Z.bits_0 in Ht|].
    rewrite Z.bits_above_log2 in Ht; [done|lia|]. assert (Z.log2 a < n) by (apply Z.log2_lt_pow2; lia). lia.
  - destruct (decide (n <= Z.log2 (f a b))) as [Hle|]; [|lia]. exfalso.
    destruct (decide (b = 0)) as [->|]; [by rewrite Z.bits_0 in Ht|].
    rewrite Z.bits_above_log2 in Ht; [done|lia|]. assert (Z.log2 b < n) by (apply Z.log2_lt_pow2; lia). lia.
Qed.
Lemma lxor_range n a b : 0 <= n -> 0 <= a < 2 ^ n -> 0 <= b < 2 ^ n -> 0 <= Z.lxor a b < 2 ^ n.
Proof.
  intros Hn Ha Hb. assert (0 <= Z.lxor a b) by (apply Z.lxor_nonneg; lia). split; [done|].
  apply (bits_lt n Z.lxor); [done..| |done]. intros i _. rewrite Z.lxor_spec. destruct (Z.testbit a i), (Z.testbit b i); auto.
Qed.
Lemma lor_range n a b : 0 <= n -> 0 <= a < 2 ^ n -> 0 <= b < 2 ^ n -> 0 <= Z.lor a b < 2 ^ n.
Proof.
  intros Hn Ha Hb. assert (0 <= Z.lor a b) by (apply Z.lor_nonneg; lia). split; [done|].
  apply (bits_lt n Z.lor); [done..| |done]. intros i _. rewrite Z.lor_spec. destruct (Z.testbit a i), (Z.testbit b i); auto.
Qed.

(** ** The generator *)

Lemma pcg_step_range g : 0 <= pcg_state (pcg_step g) < 2 ^ 128.
Proof. apply Z.mod_pos_bound. lia. Qed.
Lemma next64_range g : 0 <= (next64 g).1 < 2 ^ 64.
Proof.
  unfold next64. cbn [fst]. set (s := pcg_state (pcg_step g)). pose proof (pcg_step_range g) as Hs. fold s in Hs.
  assert (Hx : 0 <= Z.lxor (Z.shiftr s 64) (u64 s) < 2 ^ 64).
  { apply lxor_range; [lia| |apply u64_range]. rewrite Z.shiftr_div_pow2 by lia.
    split; [apply Z.div_pos; lia|apply Z.div_lt_upper_bound; lia]. }
  assert (0 <= Z.shiftr s 122) by (apply Z.shiftr_nonneg; lia).
  apply lor_range; [lia| |apply u64_range]. rewrite Z.shiftr_div_pow2 by lia.
  assert (1 <= 2 ^ Z.shiftr s 122) by (pose proof (pow2_pos (Z.shiftr s 122)); lia).
  split; [apply Z.div_pos; lia|]. apply Z.div_lt_upper_bound; nia.
Qed.

Lemma reject_range fuel ex t g m r g' : 0 < ex -> 0 <= m < 2 ^ 64 * ex -> reject fuel ex t g m = Some (r, g') -> 0 <= r < 2 ^ 64 * ex.
Proof.
  intros He. revert g m. induction fuel as [|fuel IH]; intros g m Hm; cbn [reject].
  - case_match; [done|]. by intros [= <- _].
  - case_match; [|by intros [= <- _]]. pose proof (next64_range g) as Hx. destruct (next64 g) as [x g1]. cbn [fst] in Hx.
    apply IH. nia.
Qed.

(** A draw is below its bound. *)
Lemma bounded_draw_range fuel rng g x g' : 0 <= rng -> bounded_draw fuel rng g = Some (x, g') -> 0 <= x <= rng.
Proof.
  intros Hr. unfold bounded_draw. pose proof (next64_range g) as Hx. destruct (next64 g) as [y g1]. cbn [fst] in Hx.
  assert (Hm : 0 <= y * (rng + 1) < 2 ^ 64 * (rng + 1)) by nia.
  assert (Hsh : forall m, 0 <= m < 2 ^ 64 * (rng + 1) -> 0 <= Z.shiftr m 64 <= rng).
  { intros m Hm'. rewrite Z.shiftr_div_pow2 by lia. split; [apply Z.div_pos; lia|].
    assert (m / 2 ^ 64 < rng + 1) by (apply Z.div_lt_upper_bound; lia). lia. }
  case_match.
  - destruct (reject _ _ _ _ _) as [[m g2]|] eqn:E; [|done]. cbn. intros [= <- <-].
    apply Hsh. eapply reject_range; [|exact Hm|exact E]. lia.
  - cbn. intros [= <- <-]. by apply Hsh.
Qed.

Lemma integer_draws_range fuel rng n g xs : 0 <= rng -> integer_draws fuel rng n g = Some xs -> length xs = n /\ Forall (fun x => 0 <= x <= rng) xs.
Proof.
  intros Hr. revert g xs. induction n as [|n IH]; intros g xs; cbn [integer_draws]; [by intros [= <-]|].
  destruct (bounded_draw fuel rng g) as [[x g1]|] eqn:E; [|done]. cbn.
  destruct (integer_draws fuel rng n g1) as [ys|] eqn:E'; [|done]. cbn. intros [= <-].
  destruct (IH _ _ E'). split; [cbn; lia|]. constructor; [by eapply bounded_draw_range|done].
Qed.

Lemma numpy_range fuel seed high n xs : numpy_rng_integers fuel seed high n = Some xs ->
  length xs = n /\ Forall (fun x => x = -1 \/ 0 <= x < Z.max 1 high) xs.
Proof.
  unfold numpy_rng_integers. destruct (high <=? 1) eqn:E1; [|destruct (high - 1 <=? 0xFFFFFFFF) eqn:E2].
  - intros [= <-]. rewrite length_replicate. split; [done|]. apply Forall_replicate. lia.
  - intros [= <-]. rewrite length_replicate. split; [done|]. apply Forall_replicate. lia.
  - intros (H1 & H2)%integer_draws_range; [|lia]. split; [done|]. eapply Forall_impl; [done|]. cbn. lia.
Qed.

(** ** The prime search *)

Definition rejected (seen : list Z) (c : Z) : Prop := is_prime c = false \/ c ∈ seen.
Definition taken (seen : list Z) (c : Z) : Prop := is_prime c = true /\ c ∉ seen.

Lemma search_step seen c :
  (taken seen c /\ prime_search 0 seen c = inl c) \/ (rejected seen c /\ prime_search 0 seen c = inr (u64 (c + 1))).
Proof.
  cbn [prime_search]. unfold taken, rejected. destruct (is_prime c); cbn [negb orb]; [|by auto].
  destruct (bool_decide (c ∈ seen)) eqn:E; [apply bool_decide_eq_true_1 in E; by auto|apply bool_decide_eq_false_1 in E; by auto].
Qed.

(** The candidates [c .. c + 2^k - 1] in order, while they do not wrap. *)
Lemma prime_search_range k seen c : 0 <= c -> c + 2 ^ Z.of_nat k < 2 ^ 64 ->
  match prime_search k seen c with
  | inl q => c <= q < c + 2 ^ Z.of_nat k /\ taken seen q /\ forall x, c <= x < q -> rejected seen x
  | inr c' => c' = c + 2 ^ Z.of_nat k /\ forall x, c <= x < c' -> rejected seen x
  end.
Proof.
  revert c. induction k as [|k IH]; intros c Hc Hb.
  - destruct (search_step seen c) as [[Ht ->]|[Hr ->]]; change (2 ^ Z.of_nat 0) with 1 in *.
    + split_and!; [lia|lia|done|]. lia.
    + rewrite u64_small by lia. split; [done|]. intros x Hx. by replace x with c by lia.
  - rewrite Nat2Z.inj_succ, Z.pow_succ_r in Hb |- * by lia. pose proof (pow2_pos (Z.of_nat k)) as Hp.
    cbn [prime_search]. pose proof (IH c Hc ltac:(lia)) as H1. destruct (prime_search k seen c) as [q|c1].
    + destruct H1 as (H1 & H2 & H3). split_and!; [lia|lia|done|done].
    + destruct H1 as [-> H1]. pose proof (IH (c + 2 ^ Z.of_nat k) ltac:(lia) ltac:(lia)) as H2.
      destruct (prime_search k seen (c + 2 ^ Z.of_nat k)) as [q|c2].
      * destruct H2 as (H2 & H3 & H4). split_and!; [lia|lia|done|]. intros x Hx.
        destruct (decide (x < c + 2 ^ Z.of_nat k)); [apply H1; lia|apply H4; lia].
      * destruct H2 as [-> H2]. split; [lia|]. intros x Hx.
        destruct (decide (x < c + 2 ^ Z.of_nat k)); [apply H1; lia|apply H2; lia].
Qed.

(** A usable number ahead stops the search at it or before it. *)
Lemma prime_search_finds k seen c p : 0 <= c <= p -> p < c + 2 ^ Z.of_nat k -> p < 2 ^ 64 -> taken seen p ->
  exists q, prime_search k seen c = inl q /\ c <= q <= p /\ taken seen q /\ forall x, c <= x < q -> rejected seen x.
Proof.
  intros Hc Hk Hp Ht. revert c Hc Hk. induction k as [|k IH]; intros c Hc Hk.
  - change (2 ^ Z.of_nat 0) with 1 in Hk. assert (p = c) as -> by lia.
    destruct (search_step seen c) as [[_ E]|[Hr _]].
    + exists c. split_and!; [done|lia|lia|done|lia].
    + destruct Ht as [H1 H2]. destruct Hr as [H|H]; [by rewrite H1 in H|done].
  - rewrite Nat2Z.inj_succ, Z.pow_succ_r in Hk by lia. cbn [prime_search].
    destruct (decide (p < c + 2 ^ Z.of_nat k)) as [Hlt|Hge].
    + destruct (IH c Hc Hlt) as (q & -> & H). by exists q.
    + pose proof (prime_search_range k seen c ltac:(lia)) as H1. specialize (H1 ltac:(lia)).
      pose proof (pow2_pos (Z.of_nat k)) as Hpk.
      destruct (prime_search k seen c) as [q|c1].
      * destruct H1 as (H1 & H2 & H3). exists q. split_and!; [done|lia|lia|done|done].
      * destruct H1 as [-> H1]. destruct (IH (c + 2 ^ Z.of_nat k)) as (q & -> & H2 & H3 & H4); [lia|lia|].
        exists q. split_and!; [done|lia|lia|done|]. intros x Hx.
        destruct (decide (x < c + 2 ^ Z.of_nat k)); [apply H1; lia|apply H4; lia].
Qed.

Lemma next_prime_finds seen c p : 0 <= c <= p -> p < 2 ^ 64 -> taken seen p ->
  exists q, next_prime seen c = Some q /\ c <= q <= p /\ taken seen q /\ forall x, c <= x < q -> rejected seen x.
Proof.
  intros Hc Hp Ht. destruct (prime_search_finds 64 seen c p Hc ltac:(lia) Hp Ht) as (q & E & H).
  exists q. split; [|done]. unfold next_prime. by rewrite E.
Qed.

(** ** The bucket sizes of a layer *)

Lemma is_prime_ge_2 n : is_prime n = true -> 2 <= n.
Proof. unfold is_prime. destruct (n <? 2) eqn:E; [done|]. apply Z.ltb_ge in E. lia. Qed.

(** Numbers above every 32-bit start that the test accepts: enough for the two engram layers of
    the model, so the search never runs out. *)
Definition above_u32 : list Z := map (Z.add (2 ^ 32)) [15; 61; 75; 81; 91; 93; 163; 181; 201; 217; 243; 247; 253;
  265; 267; 273; 301; 331; 343; 357; 385; 391; 405; 427; 463; 483; 487; 495; 501; 525; 561; 565; 571; 595; 673; 681;
  687; 705; 721; 723; 727; 763; 805; 831; 847; 853; 877; 891].
Lemma above_u32_prime p : p ∈ above_u32 -> is_prime p = true /\ 2 ^ 32 <= p < 2 ^ 33.
Proof.
  assert (H : forallb (fun p => is_prime p && (2 ^ 32 <=? p) && (p <? 2 ^ 33)) above_u32 = true) by by vm_compute.
  rewrite forallb_forall in H. intros Hp%list_elem_of_In%H. lia.
Qed.
Lemma above_u32_NoDup : NoDup above_u32.
Proof.
  assert (H : bool_decide (NoDup above_u32) = true) by by vm_compute. by apply bool_decide_eq_true_1 in H.
Qed.
Lemma above_u32_left seen : (length seen < 48)%nat -> exists p, p ∈ above_u32 /\ p ∉ seen.
Proof.
  intros Hl. destruct (decide (Exists (fun p => p ∉ seen) above_u32)) as [(p & H1 & H2)%Exists_exists|Hn]; [by exists p|].
  exfalso. assert (Hs : above_u32 ⊆+ seen).
  { apply NoDup_submseteq; [apply above_u32_NoDup|]. intros p Hp. destruct (decide (p ∈ seen)) as [|Hns]; [done|].
    exfalso. apply Hn, Exists_exists. by exists p. }
  apply submseteq_length in Hs. change (length above_u32) with 48%nat in Hs. lia.
Qed.

(** The search has not passed any unused number of the list. *)
Definition ahead (seen : list Z) (start : Z) : Prop := forall p, p ∈ above_u32 -> p ∉ seen -> start <= p.

(** The smallest unused candidates from [start], one after the other. *)
Fixpoint smallest_from (start : Z) (seen ps : list Z) : Prop :=
  match ps with
  | [] => True
  | p :: ps => start <= p /\ taken seen p /\ (forall x, start <= x < p -> rejected seen x) /\ smallest_from (p + 1) (p :: seen) ps
  end.

Lemma order_primes_total heads seen current : (length seen + heads <= 48)%nat -> ahead seen (u64 (current + 1)) ->
  exists ps, order_primes heads seen current = Some (ps, rev ps ++ seen) /\ length ps = heads /\
    Forall (fun p => p < 2 ^ 33) ps /\ smallest_from (u64 (current + 1)) seen ps.
Proof.
  revert seen current. induction heads as [|heads IH]; intros seen current Hl Ha; [by exists []|].
  cbn [order_primes]. destruct (above_u32_left seen) as (p & Hp & Hns); [lia|].
  pose proof (above_u32_prime p Hp) as [Hpp Hpr]. pose proof (u64_range (current + 1)) as Hu.
  destruct (next_prime_finds seen (u64 (current + 1)) p) as (q & Eq & Hq & Ht & Hsm); [split; [lia|by apply Ha]|lia|done|].
  rewrite Eq. cbn [mbind option_bind]. assert (Hq1 : u64 (q + 1) = q + 1) by (apply u64_small; lia).
  destruct (IH (q :: seen) q) as (ps & -> & Hlen & Hb & Hs).
  - cbn [length]. lia.
  - intros k Hk [Hkq Hks']%not_elem_of_cons. rewrite Hq1.
    destruct (decide (k < q)) as [Hlt|]; [|lia]. exfalso. pose proof (Ha k Hk Hks').
    destruct (Hsm k) as [Hf|Hf]; [lia| |done]. by rewrite (proj1 (above_u32_prime k Hk)) in Hf.
  - cbn [mbind option_bind]. exists (q :: ps). rewrite Hq1 in Hs. split_and!; [|cbn; lia|constructor; [lia|done]|].
    + do 2 f_equal. cbn [rev]. by rewrite <- app_assoc.
    + cbn [smallest_from]. split_and!; [lia|done|done|done].
Qed.

(** Every order of the layer starts over at the vocabulary. *)
Fixpoint layer_smallest (vocab : Z) (seen : list Z) (orders : list (list Z)) : Prop :=
  match orders with
  | [] => True
  | ps :: orders => smallest_from vocab seen ps /\ layer_smallest vocab (rev ps ++ seen) orders
  end.

Lemma layer_primes_found orders heads vocab seen : 0 <= vocab < 2 ^ 32 -> (length seen + orders * heads <= 48)%nat ->
  exists pss, layer_primes orders heads vocab seen = Some (concat pss, rev (concat pss) ++ seen) /\ length pss = orders /\
    Forall (fun ps => length ps = heads /\ Forall (fun p => p < 2 ^ 33) ps) pss /\ layer_smallest vocab seen pss.
Proof.
  intros Hv. revert seen. induction orders as [|orders IH]; intros seen Hl; [by exists []|]. cbn [layer_primes].
  assert (Hu : u64 (u64 (vocab - 1) + 1) = vocab).
  { unfold u64. rewrite Zplus_mod_idemp_l. replace (vocab - 1 + 1) with vocab by lia. apply Z.mod_small. lia. }
  destruct (order_primes_total heads seen (u64 (vocab - 1))) as (ps & -> & Hlen & Hb & Hs); [lia| |].
  { intros p Hp _. rewrite Hu. pose proof (above_u32_prime p Hp). lia. }
  rewrite Hu in Hs. cbn [mbind option_bind]. destruct (IH (rev ps ++ seen)) as (pss & -> & Hl2 & Hb2 & Hs2).
  { rewrite length_app, length_rev. lia. }
  cbn [mbind option_bind]. exists (ps :: pss). split_and!; [|cbn; lia|by constructor|done].
  cbn [concat]. by rewrite rev_app_distr, <- app_assoc.
Qed.

Lemma smallest_from_ge start seen ps : smallest_from start seen ps ->
  Forall (fun p => start <= p /\ 2 <= p) ps /\ NoDup ps /\ forall p, p ∈ ps -> p ∉ seen.
Proof.
  revert start seen. induction ps as [|p ps IH]; intros start seen; cbn [smallest_from].
  - intros _. split_and!; [constructor|constructor|]. intros p H. destruct (not_elem_of_nil _ H).
  - intros (H1 & [H2 H3] & _ & H4). destruct (IH _ _ H4) as (G1 & G2 & G3). pose proof (is_prime_ge_2 p H2).
    split_and!.
    + constructor; [lia|]. eapply Forall_impl; [exact G1|]. cbn. lia.
    + constructor; [|done]. intros Hin. apply (G3 p Hin). by left.
    + intros q [->|Hq]%elem_of_cons; [done|]. intros Hs. apply (G3 q Hq). by right.
Qed.

Lemma layer_smallest_NoDup vocab seen pss : layer_smallest vocab seen pss -> NoDup seen -> NoDup (rev (concat pss) ++ seen).
Proof.
  revert seen. induction pss as [|ps pss IH]; intros seen; cbn [layer_smallest concat]; [done|].
  intros [H1 H2] Hs. rewrite rev_app_distr, <- app_assoc. apply IH; [done|].
  destruct (smallest_from_ge _ _ _ H1) as (_ & G2 & G3). apply NoDup_app. split_and!; [| |done].
  - by rewrite <- Permutation_rev.
  - intros p Hp. apply G3. by rewrite <- Permutation_rev in Hp.
Qed.
Lemma layer_smallest_ge vocab seen pss : layer_smallest vocab seen pss -> Forall (fun p => vocab <= p /\ 2 <= p) (concat pss).
Proof.
  revert seen. induction pss as [|ps pss IH]; intros seen; cbn [layer_smallest concat]; [constructor|].
  intros [H1 H2]. apply Forall_app. split; [by destruct (smallest_from_ge _ _ _ H1)|by eapply IH].
Qed.

(** ** The compressed token map *)

Definition map_ok (st : gmap string Z * list Z) : Prop :=
  (forall k v, st.1 !! k = Some v -> 0 <= v < Z.of_nat (size st.1)) /\ (size st.1 <= length st.2)%nat /\
  Forall (fun c => 0 <= c < Z.of_nat (size st.1)) st.2.
Lemma number_key_ok st key : map_ok st -> map_ok (number_key st key) /\ length (number_key st key).2 = S (length st.2).
Proof.
  destruct st as [keys ids]. intros (H1 & H2 & H3). unfold number_key, map_ok in *. cbn [fst snd] in *.
  destruct (keys !! key) as [k|] eqn:E; cbn [fst snd]; rewrite length_app; cbn [length].
  - split; [|lia]. split_and!; [done|lia|]. apply Forall_app. split; [done|]. constructor; [by apply (H1 key)|done].
  - split; [|lia]. rewrite map_size_insert_None by done. split_and!; [|lia|].
    + intros k v [[<- <-]|[_ Hk]]%lookup_insert_Some; [lia|]. specialize (H1 k v Hk). lia.
    + apply Forall_app. split; [|constructor; [lia|done]]. eapply Forall_impl; [exact H3|]. cbn. lia.
Qed.
Lemma number_keys_ok l st : map_ok st -> map_ok (foldl number_key st l) /\ length (foldl number_key st l).2 = (length st.2 + length l)%nat.
Proof.
  revert st. induction l as [|k l IH]; intros st Hs; cbn [foldl length]; [by rewrite Nat.add_0_r|].
  destruct (number_key_ok st k Hs) as [H1 H2]. destruct (IH _ H1) as [H3 H4]. split; [done|]. lia.
Qed.
Lemma build_token_map_ok t : map_ok (build_token_map t) /\ length (build_token_map t).2 = Z.to_nat (tok_vocab_size t).
Proof.
  unfold build_token_map. destruct (number_keys_ok (map (token_key t) (seqZ 0 (tok_vocab_size t))) (∅, [])) as [H1 H2].
  - split_and!; [intros k v; cbn; by rewrite lookup_empty|cbn; by rewrite map_size_empty|constructor].
  - split; [done|]. rewrite H2, length_map, length_seqZ. done.
Qed.

(** Two tokens share a compressed id exactly when they share a key. *)
Definition numbered (l : list string) (st : gmap string Z * list Z) : Prop :=
  (forall a b v, st.1 !! a = Some v -> st.1 !! b = Some v -> a = b) /\
  Forall2 (fun k c => st.1 !! k = Some c) l st.2 /\ (forall k, is_Some (st.1 !! k) -> k ∈ l).
Lemma number_key_numbered l st key : map_ok st -> numbered l st -> numbered (l ++ [key]) (number_key st key).
Proof.
  destruct st as [keys ids]. intros (M1 & _) (H1 & H2 & H3). unfold number_key, numbered in *. cbn [fst snd] in *.
  destruct (keys !! key) as [k|] eqn:E; cbn [fst snd].
  - split_and!; [done| |].
    + apply Forall2_app; [done|]. by constructor.
    + intros x Hx. apply elem_of_app. left. by apply H3.
  - split_and!.
    + intros a b v [[<- Ha]|[Ha1 Ha]]%lookup_insert_Some [[<- Hb]|[Hb1 Hb]]%lookup_insert_Some.
      * done.
      * apply M1 in Hb. lia.
      * apply M1 in Ha. lia.
      * by eapply H1.
    + apply Forall2_app; [|constructor; [by rewrite lookup_insert_eq|done]].
      eapply Forall2_impl; [exact H2|]. cbn. intros x c Hx. rewrite lookup_insert_ne; [done|]. intros ->. by rewrite E in Hx.
    + intros x [v [[<- _]|[_ Hx]]%lookup_insert_Some]; apply elem_of_app; [right; by left|left]. apply H3. by exists v.
Qed.
Lemma number_keys_numbered l l0 st : map_ok st -> numbered l0 st -> numbered (l0 ++ l) (foldl number_key st l).
Proof.
  revert l0 st. induction l as [|k l IH]; intros l0 st Hm Hn; cbn [foldl]; [by rewrite app_nil_r|].
  rewrite (cons_middle k l0 l). rewrite app_assoc. apply IH; [by apply number_key_ok|by apply number_key_numbered].
Qed.
Lemma token_map_classes t i j : 0 <= i < tok_vocab_size t -> 0 <= j < tok_vocab_size t ->
  exists a b, (build_token_map t).2 !! Z.to_nat i = Some a /\ (build_token_map t).2 !! Z.to_nat j = Some b /\
    (a = b <-> token_key t i = token_key t j).
Proof.
  intros Hi Hj. unfold build_token_map.
  destruct (number_keys_numbered (map (token_key t) (seqZ 0 (tok_vocab_size t))) [] (∅, [])) as (H1 & H2 & _).
  - split_and!; [intros k v; cbn; by rewrite lookup_empty|cbn; by rewrite map_size_empty|constructor].
  - split_and!; [intros a b v; cbn; by rewrite lookup_empty|constructor|]. intros k [v Hv]. cbn in Hv. by rewrite lookup_empty in Hv.
  - cbn [app] in H2. set (ids := (foldl _ _ _).2) in *. set (keys := (foldl _ _ _).1) in *.
    assert (Hget : forall k, 0 <= k < tok_vocab_size t -> exists c, ids !! Z.to_nat k = Some c /\ keys !! token_key t k = Some c).
    { intros k Hk. apply (Forall2_lookup_l _ _ _ (Z.to_nat k) (token_key t k) H2).
      rewrite list_lookup_fmap, (lookup_seqZ_lt 0) by lia. cbn. do 2 f_equal. lia. }
    destruct (Hget i Hi) as (a & A1 & A2). destruct (Hget j Hj) as (b & B1 & B2). exists a, b. split_and!; [done|done|].
    split; [intros ->; by eapply H1|]. intros E. rewrite E, B2 in A2. by injection A2.
Qed.

(** ** The hash on good tables *)

(** The columns tile the layer: each bucket follows the one before. *)
Definition tiled (lt : LayerTable) : Prop :=
  lt_offsets lt = running 0 (lt_primes lt) /\ sum_Z (lt_primes lt) = lt_num_embeddings lt.
Record layer_ok (compressed : Z) (lt : LayerTable) : Prop := {
  lo_tiled : tiled lt;
  lo_primes : Forall (fun p => 2 <= p) (lt_primes lt);
  lo_count : length (lt_primes lt) = kEngramRowsPerToken;
  lo_small : lt_num_embeddings lt < 2 ^ 63;
  lo_mults : length (lt_multipliers lt) = 4%nat;
  lo_fits : Forall (fun m => 0 <= m /\ compressed * m < 2 ^ 63) (lt_multipliers lt) }.

Lemma running_lookup off ps col p : ps !! col = Some p -> running off ps !! col = Some (off + sum_Z (take col ps)).
Proof.
  revert off col. induction ps as [|q ps IH]; intros off col Hp; [done|]. destruct col as [|col]; cbn in *.
  - f_equal. lia.
  - rewrite (IH _ _ Hp). f_equal. unfold sum_Z. lia.
Qed.
Lemma sum_take_le ps col p : Forall (fun p => 2 <= p) ps -> ps !! col = Some p -> 0 <= sum_Z (take col ps) /\ sum_Z (take col ps) + p <= sum_Z ps.
Proof.
  intros Hf Hp. pose proof (take_drop_middle ps col p Hp) as E. rewrite <- E in Hf.
  assert (Es : sum_Z ps = sum_Z (take col ps) + (p + sum_Z (drop (S col) ps))) by (rewrite <- E at 1; by rewrite sum_Z_app).
  apply Forall_app in Hf as [H1 [H2 H3]%Forall_cons].
  assert (0 <= sum_Z (take col ps)) by (apply sum_Z_nonneg; eapply Forall_impl; [exact H1|cbn; lia]).
  assert (0 <= sum_Z (drop (S col) ps)) by (apply sum_Z_nonneg; eapply Forall_impl; [exact H3|cbn; lia]). lia.
Qed.

(** A column's bucket: where it starts and how long it is. *)
Definition bucket (lt : LayerTable) (col : nat) (row : Z) : Prop :=
  exists off p, lt_offsets lt !! col = Some off /\ lt_primes lt !! col = Some p /\ off <= row < off + p.

(** The row a hash selects in a column. *)
Definition row_at (lt : LayerTable) (rolling : Z) (col : nat) (row : Z) : Prop :=
  bucket lt col row /\ 0 <= row < lt_num_embeddings lt /\ row = nth col (lt_offsets lt) 0 + rolling mod nth col (lt_primes lt) 0.

Lemma row_of_good c lt rolling col : layer_ok c lt -> (col < kEngramRowsPerToken)%nat -> 0 <= rolling ->
  exists row, row_of lt rolling col = Ret row /\ row_at lt rolling col row.
Proof.
  intros Hok Hcol Hr. destruct Hok as [[Ho Hs] Hp Hc Hsm _ _].
  destruct (lookup_lt_is_Some_2 (lt_primes lt) col ltac:(lia)) as [p Hpc].
  pose proof (running_lookup 0 _ _ _ Hpc) as Hoc. rewrite <- Ho in Hoc. set (off := 0 + sum_Z (take col (lt_primes lt))) in *.
  destruct (sum_take_le _ _ _ Hp Hpc) as [S1 S2]. pose proof (proj1 (Forall_lookup _ _) Hp col p Hpc) as Hp2. cbn in Hp2.
  pose proof (Z.mod_pos_bound rolling p ltac:(lia)) as Hm. unfold row_of, row_at.
  rewrite (nth_lookup_Some _ _ _ _ Hpc), (nth_lookup_Some _ _ _ _ Hoc). exists (off + rolling mod p). split_and!; [|by exists off, p; split_and!; [..|lia|lia]|lia|lia|done].
  unfold rem64. replace (p =? 0) with false by lia. cbn [mbind Result_bind]. rewrite Z.rem_mod_nonneg by lia.
  unfold checked. replace (_ && _) with true by lia. cbn [mbind Result_bind].
  replace (_ || _) with false by lia. f_equal. lia.
Qed.

Lemma mapM_res_total {A B} (f : A -> Result B) (Q : A -> B -> Prop) l : (forall x, x ∈ l -> exists y, f x = Ret y /\ Q x y) ->
  exists ys, mapM_res f l = Ret ys /\ Forall2 Q l ys.
Proof.
  induction l as [|x l IH]; intros H; [exists []; by split|]. destruct (H x) as (y & E & Hy); [by left|].
  destruct IH as (ys & E2 & Hys); [intros; apply H; by right|]. exists (y :: ys). cbn. rewrite E. cbn. rewrite E2. by split; [|constructor].
Qed.

Lemma Forall2_impl_in {A B} (P Q : A -> B -> Prop) l k :
  Forall2 P l k -> (forall x y, x ∈ l -> y ∈ k -> P x y -> Q x y) -> Forall2 Q l k.
Proof.
  induction 1 as [|x y l k Hxy Hl IH]; intros H; constructor; [apply H; [by left..|done]|].
  apply IH. intros a b Ha Hb. apply H; by right.
Qed.

Lemma hash_orders_good c lt heads i rolling prods : layer_ok c lt -> ((i + length prods) * heads <= kEngramRowsPerToken)%nat ->
  0 <= rolling < 2 ^ 63 -> Forall (fun p => 0 <= p < 2 ^ 63) prods ->
  exists rows, hash_orders lt heads i rolling prods = Ret rows /\
    Forall2 (fun col => row_at lt (foldl Z.lxor rolling (take (S (col / heads - i)) prods)) col) (seq (i * heads) (length prods * heads)) rows.
Proof.
  intros Hok. revert i rolling. induction prods as [|p prods IH]; intros i rolling Hi Hr Hp; cbn [hash_orders length]; [exists []; by split|].
  apply Forall_cons in Hp as [Hp Hps]. pose proof (lxor_range 63 rolling p ltac:(lia) Hr Hp) as Hx. cbn [length] in Hi.
  destruct (mapM_res_total (row_of lt (Z.lxor rolling p)) (fun col => row_at lt (Z.lxor rolling p) col)
    (seq (i * heads) heads)) as (rows & E & Hrows).
  { intros col Hcol%elem_of_seq. apply (row_of_good c); [done|nia|lia]. }
  rewrite E. cbn [mbind Result_bind]. destruct (IH (S i) (Z.lxor rolling p)) as (rest & E2 & Hrest); [lia|done|done|].
  rewrite E2. cbn [mbind Result_bind]. exists (rows ++ rest). split; [done|].
  replace (S (length prods) * heads)%nat with (heads + length prods * heads)%nat by lia. rewrite seq_app.
  apply Forall2_app.
  - eapply Forall2_impl_in; [exact Hrows|]. cbn. intros col row Hcol%elem_of_seq _ H.
    replace (col / heads - i)%nat with 0%nat; [exact H|].
    assert (col / heads < S i)%nat by (apply Nat.Div0.div_lt_upper_bound; nia). lia.
  - replace (i * heads + heads)%nat with (S i * heads)%nat by lia. eapply Forall2_impl_in; [exact Hrest|]. cbn.
    intros col row Hcol%elem_of_seq _ H. replace (col / heads - i)%nat with (S (col / heads - S i)); [exact H|].
    assert (S i <= col / heads)%nat by (apply Nat.div_le_lower_bound; nia). lia.
Qed.

(** What [hash_rows] needs of the tables. *)
Record tables_ok (t : EngramTables) : Prop := {
  to_shape : et_max_ngram t = 4 /\ et_n_heads t = 8;
  to_map : Forall (fun c => 0 <= c < et_compressed_vocab_size t) (et_token_map t);
  to_pad : 0 <= et_pad_id t < et_compressed_vocab_size t;
  to_layers : Forall (layer_ok (et_compressed_vocab_size t)) (et_layers t) }.

Lemma lookback_good t lt history position shift : tables_ok t -> layer_ok (et_compressed_vocab_size t) lt ->
  Forall (fun tok => 0 <= tok < Z.of_nat (length (et_token_map t))) history -> 0 <= position < Z.of_nat (length history) ->
  0 <= shift < 4 -> exists p, lookback t lt history position shift = Ret p /\ 0 <= p < 2 ^ 63.
Proof.
  intros Ht Hl Hh Hpos Hs. assert (Hc : exists c, compressed_at t history position shift = Ret c /\ 0 <= c < et_compressed_vocab_size t).
  { unfold compressed_at. destruct (position <? shift) eqn:E; [eexists; split; [done|apply Ht]|].
    destruct (lookup_lt_is_Some_2 history (Z.to_nat (position - shift)) ltac:(lia)) as [tok Htok]. rewrite Htok.
    pose proof (proj1 (Forall_lookup _ _) Hh _ _ Htok) as Hr. cbn in Hr.
    destruct (lookup_lt_is_Some_2 (et_token_map t) (Z.to_nat tok) ltac:(lia)) as [c Hc]. rewrite Hc. exists c. split; [done|].
    exact (proj1 (Forall_lookup _ _) (to_map t Ht) _ _ Hc). }
  destruct Hc as (c & Ec & Hc). unfold lookback. rewrite Ec. cbn [mbind Result_bind].
  destruct (lookup_lt_is_Some_2 (lt_multipliers lt) (Z.to_nat shift)) as [m Hm]; [rewrite (lo_mults _ _ Hl); lia|].
  rewrite (nth_lookup_Some _ _ _ _ Hm). destruct (proj1 (Forall_lookup _ _) (lo_fits _ _ Hl) _ _ Hm) as [Hm0 Hm1].
  assert (0 <= c * m < 2 ^ 63) by nia. exists (c * m). split; [|done]. unfold checked. by replace (_ && _) with true by lia.
Qed.

Lemma hash_rows_good t layer lt history position : tables_ok t -> for_layer t layer = Some lt ->
  Forall (fun tok => 0 <= tok < Z.of_nat (length (et_token_map t))) history -> 0 <= position < Z.of_nat (length history) ->
  exists prods rows, mapM_res (lookback t lt history position) (seqZ 0 4) = Ret prods /\
    hash_rows t layer history position kEngramRowsPerToken = Ret rows /\
    Forall2 (fun col => row_at lt (foldl Z.lxor 0 (take (col / 8 + 2) prods)) col) (seq 0 kEngramRowsPerToken) rows.
Proof.
  intros Ht Hf Hh Hp. assert (Hl : layer_ok (et_compressed_vocab_size t) lt).
  { apply find_some in Hf as [Hin _]. apply list_elem_of_In in Hin. exact (proj1 (Forall_forall _ _) (to_layers t Ht) lt Hin). }
  unfold hash_rows. rewrite Hf. cbn [Nat.eqb negb kEngramRowsPerToken]. replace (_ <=? position) with false by lia.
  destruct (to_shape t Ht) as [-> ->].
  destruct (mapM_res_total (lookback t lt history position) (fun _ p => 0 <= p < 2 ^ 63) (seqZ 0 4)) as (prods & -> & Hprods).
  { intros s Hs%elem_of_seqZ. by apply lookback_good. }
  cbn [mbind Result_bind]. pose proof (Forall2_length _ _ _ Hprods) as Hlen. change (length (seqZ 0 4)) with 4%nat in Hlen.
  destruct prods as [|p prods]; [done|]. cbn in Hlen.
  apply (Forall2_Forall_r _ (fun p => 0 <= p < 2 ^ 63)) in Hprods; [|by apply Forall_true].
  apply Forall_cons in Hprods as [H1 H2]. destruct (hash_orders_good (et_compressed_vocab_size t) lt 8 0 p prods) as (rows & E & Hr); [done| |done|done|].
  - change kEngramRowsPerToken with 24%nat. lia.
  - exists (p :: prods), rows. split_and!; [done|exact E|]. replace (length prods) with 3%nat in Hr by lia.
    eapply Forall2_impl; [exact Hr|]. intros col row H. replace (col / 8 + 2)%nat with (S (S (col / 8))) by lia.
    cbn [take foldl] in *. rewrite Z.lxor_0_l. replace (col / 8 - 0)%nat with (col / 8)%nat in H by lia. exact H.
Qed.

(** ** The derived tables *)

Lemma checked_Ret x y : checked x = Ret y -> y = x /\ - 2 ^ 63 <= x < 2 ^ 63.
Proof. unfold checked. destruct (_ && _) eqn:E; [|done]. intros [= <-]. lia. Qed.
Lemma checked_sum qs off r : off < 2 ^ 63 -> foldM (fun o p => checked (o + p)) off qs = Ret r -> r = off + sum_Z qs /\ r < 2 ^ 63.
Proof.
  revert off. induction qs as [|q qs IH]; intros off Ho; cbn [foldM sum_Z foldr]; [intros [= <-]; lia|].
  intros (o & [-> Hb]%checked_Ret & H)%bind_Ret. apply IH in H as [-> H]; [|lia]. split; [|lia]. unfold sum_Z. lia.
Qed.

Lemma of_fuel_Ret {A} (o : option A) a : of_fuel o = Ret a -> o = Some a.
Proof. destruct o; cbn; [by intros [= ->]|done]. Qed.
Lemma i64_small x : 0 <= x < 2 ^ 63 -> i64 x = x.
Proof. intros H. unfold i64. rewrite u64_small by lia. cbn zeta. by replace (x <? 2 ^ 63) with true by lia. Qed.

(** Products of compressed ids and multipliers fit a signed 64-bit integer. *)
Definition mult_bound (compressed : Z) : Z := Z.max 1 ((2 ^ 63 - 1) / compressed / 2).
Lemma mult_bound_fits c x : 0 < c < 2 ^ 32 -> 0 <= x < Z.max 1 (mult_bound c) -> 0 <= x * 2 + 1 /\ c * (x * 2 + 1) < 2 ^ 63.
Proof.
  unfold mult_bound. intros Hc Hx. split; [lia|]. set (q := (2 ^ 63 - 1) / c) in *.
  assert (Hq : 2 ^ 31 - 1 <= q) by (apply Z.div_le_lower_bound; lia).
  assert (Hcq : c * q <= 2 ^ 63 - 1) by (apply Z.mul_div_le; lia).
  assert (x * 2 + 1 <= q); [|nia]. assert (x < q / 2) by (clear Hcq Hc; assert (1 <= q / 2) by (apply Z.div_le_lower_bound; lia); lia).
  pose proof (Z.mul_div_le q 2). lia.
Qed.

Lemma derive_layer_ok fuel cfg c lts seen e lts' seen' : 0 <= tc_engram_vocab_size cfg < 2 ^ 32 -> 0 < c < 2 ^ 32 ->
  (length seen + 24 <= 48)%nat -> derive_layer fuel cfg 3 8 (mult_bound c) (lts, seen) e = Ret (lts', seen') ->
  exists lt pss, lts' = lts ++ [lt] /\ layer_ok c lt /\ lt_layer lt = u32 e.1 /\ lt_num_embeddings lt = u64 e.2 /\
    lt_primes lt = concat pss /\ layer_smallest (tc_engram_vocab_size cfg) seen pss /\ seen' = rev (lt_primes lt) ++ seen.
Proof.
  intros Hv Hc Hl. unfold derive_layer. intros (m & [Hm Hmr]%of_fuel_Ret%numpy_range & H)%bind_Ret.
  apply bind_Ret in H as ([] & Hneg%fail_if_Ret & H). apply bind_Ret in H as ([ps seen1] & Hps%of_fuel_Ret & H).
  apply bind_Ret in H as (off & Hoff & H). apply bind_Ret in H as ([] & Hnum%fail_if_Ret & H).
  destruct (layer_primes_found 3 8 (tc_engram_vocab_size cfg) seen Hv ltac:(lia)) as (pss & E & Hlen & Hall & Hsm).
  rewrite E in Hps. injection Hps as <- <-. injection H as <- <-.
  pose proof (layer_smallest_ge _ _ _ Hsm) as Hge.
  assert (Hlt : Forall (fun p => p < 2 ^ 33) (concat pss)).
  { apply Forall_concat. eapply Forall_impl; [exact Hall|]. by intros ps [_ H]. }
  assert (Hmap : map i64 (concat pss) = concat pss).
  { transitivity (map id (concat pss)); [|by rewrite map_id]. apply map_ext_in. intros p Hp%list_elem_of_In. apply i64_small.
    pose proof (proj1 (Forall_forall _ _) Hge p Hp) as H1. pose proof (proj1 (Forall_forall _ _) Hlt p Hp) as H2. cbn beta in H1, H2. unfold id. lia. }
  rewrite Hmap in *. apply checked_sum in Hoff as [Hoff Hoffb]; [|lia].
  assert (Hpos : 0 <= sum_Z (concat pss)) by (apply sum_Z_nonneg; eapply Forall_impl; [exact Hge|cbn; lia]).
  apply negb_false_iff, Z.eqb_eq in Hnum. rewrite (u64_small off) in Hnum by lia.
  eexists _, pss. split; [done|]. cbn [lt_layer lt_num_embeddings lt_primes]. split_and!; [|done|done|done|done|done].
  constructor; cbn [lt_primes lt_offsets lt_num_embeddings lt_multipliers].
  - split; [done|]. cbn [lt_primes lt_num_embeddings]. lia.
  - eapply Forall_impl; [exact Hge|]. cbn. lia.
  - assert (Hcl : forall l : list (list Z), Forall (fun ps => length ps = 8%nat /\ Forall (fun p => p < 2 ^ 33) ps) l -> length (concat l) = (length l * 8)%nat).
    { induction 1 as [|x l [Hx _] _ IH]; [done|]. cbn. rewrite length_app, IH, Hx. lia. }
    rewrite (Hcl _ Hall), Hlen. done.
  - lia.
  - by rewrite length_map.
  - apply Forall_map. apply Forall_forall. intros x Hx. apply mult_bound_fits; [done|].
    pose proof (proj1 (Forall_forall _ _) Hmr x Hx) as [->|Hr]; [|done].
    exfalso. assert (existsb (fun x => x <? 0) m = true); [|congruence]. apply existsb_exists. exists (-1). by apply list_elem_of_In in Hx.
Qed.

Lemma derive_layers_ok fuel cfg c entries lts seen : 0 <= tc_engram_vocab_size cfg < 2 ^ 32 -> 0 < c < 2 ^ 32 ->
  (length entries <= 2)%nat -> foldM (derive_layer fuel cfg 3 8 (mult_bound c)) ([], []) entries = Ret (lts, seen) ->
  Forall (layer_ok c) lts /\ NoDup seen /\ map lt_layer lts = map (fun e => u32 e.1) entries /\
  concat (map lt_primes lts) ≡ₚ seen.
Proof.
  intros Hv Hc Hl H.
  set (P := fun (done : list (Z * Z)) (st : list LayerTable * list Z) => (length done <= 2)%nat -> Forall (layer_ok c) st.1 /\ NoDup st.2 /\
    map lt_layer st.1 = map (fun e => u32 e.1) done /\ length st.2 = (24 * length done)%nat /\ concat (map lt_primes st.1) ≡ₚ st.2).
  assert (HP : P entries (lts, seen)).
  { refine (foldM_done _ P _ _ _ _ _ H); [|intros _; split_and!; [constructor|constructor|done..]].
    intros done e [l1 s1] [l2 s2] _ IH He Hd. rewrite length_app in Hd. cbn [length] in Hd.
    destruct IH as (I1 & I2 & I3 & I4 & I5); [lia|]. cbn [fst snd] in *.
    apply derive_layer_ok in He as (lt & pss & -> & Hok & Hly & _ & Hps & Hsm & ->); [|done|done|rewrite I4; lia].
    split_and!.
    - apply Forall_app. split; [done|]. by constructor.
    - rewrite Hps. by eapply layer_smallest_NoDup.
    - rewrite !map_app, I3. cbn. by rewrite Hly.
    - rewrite !length_app, length_rev, (lo_count _ _ Hok), I4. cbn [length]. unfold kEngramRowsPerToken. lia.
    - rewrite map_app, concat_app, I5. cbn. rewrite app_nil_r, <- Permutation_rev. apply Permutation_app_comm. }
  destruct (HP Hl) as (H1 & H2 & H3 & _ & H5). done.
Qed.

Lemma derive_ok fuel t cfg et : derive_engram_tables fuel t cfg = Ret et -> tok_vocab_size t < 2 ^ 32 ->
  0 <= tc_engram_vocab_size cfg < 2 ^ 32 -> (length (tc_engram_layer_ids cfg) <= 2)%nat ->
  tables_ok et /\ et_token_map et = (build_token_map t).2 /\ length (et_token_map et) = Z.to_nat (tok_vocab_size t) /\
  NoDup (concat (map lt_primes (et_layers et))) /\ map lt_layer (et_layers et) = map u32 (tc_engram_layer_ids cfg).
Proof.
  unfold derive_engram_tables. intros H Ht Hv Hl. apply bind_Ret in H as ([] & Hshape%fail_if_Ret & H).
  apply bind_Ret in H as ([] & Hlen%fail_if_Ret & H). destruct (build_token_map_ok t) as [(_ & M2 & M3) M4].
  destruct (build_token_map t) as [keys ids] eqn:Emap. cbn [fst snd] in *.
  apply bind_Ret in H as ([] & Hcomp%fail_if_Ret & H). apply bind_Ret in H as ([] & Hpad%fail_if_Ret & H).
  apply bind_Ret in H as ([] & Hzero%fail_if_Ret & H). apply bind_Ret in H as ([lts seen] & Hls & H). injection H as <-.
  apply orb_false_iff in Hshape as [[Hmn%negb_false_iff Hnh%negb_false_iff]%orb_false_iff Hhd].
  apply Z.eqb_eq in Hmn, Hnh. rewrite Hmn, Hnh in *. change (Z.to_nat (kEngramMaxNgram - 1)) with 3%nat in Hls.
  change (Z.to_nat kEngramHeads) with 8%nat in Hls. apply negb_false_iff, Nat.eqb_eq in Hlen. apply Z.eqb_neq in Hzero.
  assert (Hu : u32 (Z.of_nat (size keys)) = Z.of_nat (size keys)) by (apply u32_small; lia). rewrite Hu in *.
  apply derive_layers_ok in Hls as (L1 & L2 & L3 & L4); [|done|lia|rewrite length_zip_with; lia].
  split_and!; cbn [et_token_map et_layers]; [|done|done| |].
  - constructor; cbn; [done|done| |done]. destruct (ids !! Z.to_nat (tc_engram_pad_token_id cfg)) as [x|] eqn:Ex.
    + rewrite (nth_lookup_Some _ _ _ _ Ex). exact (proj1 (Forall_lookup _ _) M3 _ _ Ex).
    + rewrite nth_overflow; [lia|]. by apply lookup_ge_None_1.
  - by rewrite L4.
  - rewrite L3. rewrite <- (map_map fst u32). f_equal. apply (fst_zip (tc_engram_layer_ids cfg)). lia.
Qed.

(** ** The rows of a token *)

Lemma bucket_column lt c i j row : layer_ok c lt -> bucket lt i row -> bucket lt j row -> i = j.
Proof.
  intros Hok (o1 & p1 & A1 & A2 & A3) (o2 & p2 & B1 & B2 & B3). destruct (lo_tiled _ _ Hok) as [Ht _]. rewrite Ht in A1, B1.
  rewrite (running_lookup 0 _ _ _ A2) in A1. rewrite (running_lookup 0 _ _ _ B2) in B1. injection A1 as <-. injection B1 as <-.
  assert (Hgo : forall i j p q, (i < j)%nat -> lt_primes lt !! i = Some p -> lt_primes lt !! j = Some q ->
    sum_Z (take i (lt_primes lt)) + p <= sum_Z (take j (lt_primes lt))).
  { intros i' j' p q Hij Hp Hq. assert (Hp' : take j' (lt_primes lt) !! i' = Some p) by (by rewrite lookup_take_lt).
    destruct (sum_take_le (take j' (lt_primes lt)) i' p) as [_ H]; [by apply Forall_take, Hok|done|].
    by rewrite take_take, Nat.min_l in H by lia. }
  destruct (Nat.lt_trichotomy i j) as [H|[H|H]]; [|done|].
  - specialize (Hgo i j _ _ H A2 B2). lia.
  - specialize (Hgo j i _ _ H B2 A2). lia.
Qed.

Lemma rows_NoDup lt c f rows : layer_ok c lt -> Forall2 (fun col row => row_at lt (f col) col row) (seq 0 kEngramRowsPerToken) rows -> NoDup rows.
Proof.
  intros Hok Hr. apply NoDup_alt. intros i j x Hi Hj.
  destruct (Forall2_lookup_r _ _ _ _ _ Hr Hi) as (a & Ha & (B1 & _)). destruct (Forall2_lookup_r _ _ _ _ _ Hr Hj) as (b & Hb & (B2 & _)).
  apply lookup_seq in Ha as [-> _], Hb as [-> _]. exact (bucket_column _ _ _ _ _ Hok B1 B2).
Qed.

Definition rows_of_token (et : EngramTables) (lt : LayerTable) (history : list Z) (position : Z) (rows : list Z) : Prop :=
  exists prods, mapM_res (lookback et lt history position) (seqZ 0 4) = Ret prods /\
    Forall2 (fun col => row_at lt (foldl Z.lxor 0 (take (col / 8 + 2) prods)) col) (seq 0 kEngramRowsPerToken) rows.

(** A small instance: the toy tokenizer with two layers of 24 buckets each. *)
Definition toy_engram_config : TextConfig := engram_config [1; 14] [963; 3698] 2 0.
Definition tables_of (r : Result EngramTables) : EngramTables :=
  match r with
  | Ret t => t
  | Fail _ => {| et_compressed_vocab_size := 0; et_max_ngram := 0; et_n_heads := 0; et_head_dim := 0; et_pad_id := 0;
                 et_token_map := []; et_layers := []; et_scales := None |}
  end.
Definition toy_engram : EngramTables := tables_of (derive_engram_tables 0 (Some toy_im) toy_engram_config).
Example toy_derives_ok : match derive_engram_tables 0 (Some toy_im) toy_engram_config with
  | Ret t => bool_decide (is_Some (for_layer t 14)) | Fail _ => false end = true.
Proof. vm_cast_no_check (eq_refl true). Qed.
Lemma toy_derives : derive_engram_tables 0 (Some toy_im) toy_engram_config = Ret toy_engram.
Proof. pose proof toy_derives_ok as H. unfold toy_engram. by destruct (derive_engram_tables _ _ _). Qed.
Definition toy_layer : LayerTable := default exported_layer_1 (for_layer toy_engram 14).
Lemma toy_layer_found : for_layer toy_engram 14 = Some toy_layer.
Proof.
  pose proof toy_derives_ok as H. unfold toy_layer. rewrite toy_derives in H. apply bool_decide_eq_true_1 in H as [lt E].
  rewrite E. reflexivity.
Qed.

(** C37: on tables derived from a tokenizer of fewer than [2^32] entries for up to two layers, the
    hash of any token of a history always answers, for every layer of the tables, 24 different
    rows of the layer: column [col] of order [col / 8 + 2] reads the row of its own bucket that
    the XOR of the order's products selects.  No product or sum overflows. *)
Theorem derived_rows fuel t cfg et layer lt history position :
  derive_engram_tables fuel t cfg = Ret et -> tok_vocab_size t < 2 ^ 32 -> 0 <= tc_engram_vocab_size cfg < 2 ^ 32 ->
  (length (tc_engram_layer_ids cfg) <= 2)%nat -> for_layer et layer = Some lt ->
  Forall (fun tok => 0 <= tok < tok_vocab_size t) history -> 0 <= position < Z.of_nat (length history) ->
  exists rows, hash_rows et layer history position kEngramRowsPerToken = Ret rows /\
    rows_of_token et lt history position rows /\ NoDup rows /\ Forall (fun row => 0 <= row < lt_num_embeddings lt) rows.
Proof.
  intros H Ht Hv Hl Hf Hh Hp. destruct (derive_ok _ _ _ _ H Ht Hv Hl) as (Hok & _ & Hlen & _).
  destruct (hash_rows_good et layer lt history position Hok Hf) as (prods & rows & Hprods & Hrows & Hr); [|done|].
  { eapply Forall_impl; [exact Hh|]. cbn. lia. }
  assert (Hlt : layer_ok (et_compressed_vocab_size et) lt).
  { apply find_some in Hf as [Hin%list_elem_of_In _]. exact (proj1 (Forall_forall _ _) (to_layers _ Hok) lt Hin). }
  exists rows. split_and!; [done|by exists prods|by apply (rows_NoDup lt _ _ rows Hlt Hr)|].
  eapply Forall2_Forall_r; [exact Hr|]. apply Forall_true. intros col row H1. apply H1.
Qed.

Lemma derived_rows_witness : exists rows, hash_rows toy_engram 14 [258; 97; 98; 256; 0] 3 kEngramRowsPerToken = Ret rows /\
  rows_of_token toy_engram toy_layer [258; 97; 98; 256; 0] 3 rows /\ NoDup rows /\
  Forall (fun row => 0 <= row < lt_num_embeddings toy_layer) rows.
Proof.
  apply (derived_rows 0 (Some toy_im) toy_engram_config); [exact toy_derives|done|done|cbn; lia|exact toy_layer_found| |cbn; lia].
  assert (E : tok_vocab_size (Some toy_im) = 260) by (vm_compute; reflexivity). rewrite E. repeat (constructor; [lia|]). constructor.
Defined.

(** For the up to two engram layers of the model the prime search always ends: the bucket
    sizes of each order are the smallest numbers from [engram_vocab_size] on that the primality
    test accepts and no earlier bucket has. *)
Theorem bucket_sizes_found orders vocab seen : 0 <= vocab < 2 ^ 32 -> (length seen + orders * 8 <= 48)%nat ->
  exists pss, layer_primes orders 8 vocab seen = Some (concat pss, rev (concat pss) ++ seen) /\
    length pss = orders /\ Forall (fun ps => length ps = 8%nat) pss /\ layer_smallest vocab seen pss.
Proof.
  intros Hv Hl. destruct (layer_primes_found orders 8 vocab seen Hv Hl) as (pss & H1 & H2 & H3 & H4).
  exists pss. split_and!; [done|done| |done]. eapply Forall_impl; [exact H3|]. by intros ps [H _].
Qed.
Lemma bucket_sizes_found_witness : (length (rev (lt_primes exported_layer_1)) + 3 * 8 <= 48)%nat /\
  exists pss, layer_primes 3 8 16000000 (rev (lt_primes exported_layer_1)) =
    Some (concat pss, rev (concat pss) ++ rev (lt_primes exported_layer_1)) /\
    length pss = 3%nat /\ Forall (fun ps => length ps = 8%nat) pss /\ layer_smallest 16000000 (rev (lt_primes exported_layer_1)) pss.
Proof. split; [vm_compute; lia|]. apply bucket_sizes_found; [lia|vm_compute; lia]. Defined.

(** Two tokens get the same compressed id exactly when their normalised texts, the keys, are
    equal. *)
Theorem compressed_by_key t i j : 0 <= i < tok_vocab_size t -> 0 <= j < tok_vocab_size t ->
  exists a b, (build_token_map t).2 !! Z.to_nat i = Some a /\ (build_token_map t).2 !! Z.to_nat j = Some b /\
    (a = b <-> token_key t i = token_key t j).
Proof. apply token_map_classes. Qed.
Lemma compressed_by_key_witness : tok_vocab_size (Some toy_im) = 260 /\ exists a b,
  (build_token_map (Some toy_im)).2 !! Z.to_nat 97 = Some a /\ (build_token_map (Some toy_im)).2 !! Z.to_nat 65 = Some b /\
  (a = b <-> token_key (Some toy_im) 97 = token_key (Some toy_im) 65).
Proof.
  assert (E : tok_vocab_size (Some toy_im) = 260) by (vm_compute; reflexivity).
  split; [exact E|]. apply compressed_by_key; rewrite E; lia.
Defined.
