(* ===== verification/SessionDisk.v ===== *)
(** Parked contexts and their copies on disk ([src/runtime/session.h], [session.cpp], the
    second block): file names, the [.pkv] format, saving by a temporary file and renaming,
    loading, and the byte budget of the directory.

    A file is its bytes and the time it was last written; what the operating system answers is
    an argument. *)

From Stdlib Require Import Ascii.
From S2P Require Import Prelude Types Json KvStore.

(** A context without its window: the token ids and the packed state. *)
Record ParkedContext := { pc_tokens : list Z; pc_kv : KvPacked }.
Definition parked_bytes (p : ParkedContext) : Z := packed_size (pc_kv p) + len_Z (pc_tokens p) * 4.

Record KvDiskOptions := { od_dir : string; od_model_tag : string; od_max_bytes : Z }.

(** ** Names *)

Definition fnv1a_tag (s : string) : Z :=
  foldl (fun h c => u64 (Z.lxor h (byte_of c) * 1099511628211)) 1469598103934665603 (to_text s).

Definition name_char (c : ascii) : bool :=
  let b := byte_of c in
  ((97 <=? b) && (b <=? 122)) || ((65 <=? b) && (b <=? 90)) || ((48 <=? b) && (b <=? 57)) ||
  (b =? 95) || (b =? 45) || (b =? 46).
Definition session_file_name (name : string) : string :=
  let out := map (fun c => if name_char c then c else ascii_of_N 95) (to_text name) in
  let out := match out with [] => to_text "default" | _ => out end in
  (String.string_of_list_ascii (take 96 out) +:+ ".pkv")%string.

(** ** Paths *)

Definition slash : ascii := ascii_of_N 47.
Definition dot : ascii := ascii_of_N 46.
(** [fs::path(dir) / name] for a relative name. *)
Definition path_join (dir name : string) : string :=
  match rev (to_text dir) with
  | c :: _ => if bool_decide (c = slash) then (dir +:+ name)%string else (dir +:+ "/" +:+ name)%string
  | [] => name
  end.
(** The text after the last [c], and whether there is one. *)
Fixpoint after_last (c : ascii) (s : list ascii) : option (list ascii) :=
  match s with
  | [] => None
  | x :: s => match after_last c s with Some r => Some r | None => if bool_decide (x = c) then Some s else None end
  end.
Definition file_name (path : list ascii) : list ascii := default path (after_last slash path).
(** [path::extension]: a leading dot does not start one. *)
Definition extension (path : string) : list ascii :=
  match file_name (to_text path) with
  | [] => []
  | _ :: f => match after_last dot f with Some e => dot :: e | None => [] end
  end.
Definition in_dir (dir path : string) : bool := String.prefix (path_join dir "") path.
(** Paths compare component by component. *)
Fixpoint components (s : list ascii) : list (list ascii) :=
  match s with
  | [] => [[]]
  | c :: s => if bool_decide (c = slash) then [] :: components s
              else match components s with [] => [[c]] | x :: xs => (c :: x) :: xs end
  end.
Fixpoint lex_ltb {A} (ltb : A -> A -> bool) (a b : list A) : bool :=
  match a, b with
  | _, [] => false
  | [], _ => true
  | x :: a, y :: b => if ltb x y then true else if ltb y x then false else lex_ltb ltb a b
  end.
Definition path_ltb (a b : string) : bool :=
  lex_ltb (lex_ltb (fun x y => byte_of x <? byte_of y)) (components (to_text a)) (components (to_text b)).

(** ** The [.pkv] format *)

Definition kKvMagic : list Z := [0x44; 0x4D; 0x4F; 0x45; 0x4B; 0x56; 0x30; 0x31].
Definition kKvEnd : list Z := [0x4B; 0x56; 0x45; 0x4E; 0x44; 0x30; 0x30; 0x31].
Definition kKvVersion : Z := 1.
Definition kKvVectorCap : Z := 2 ^ 34.

Definition wr_u32 (v : Z) : list Z := le_bytes 4 v.
Definition wr_u64 (v : Z) : list Z := le_bytes 8 v.
(** The size in bytes, then the elements of [w] bytes each. *)
Definition wr_vec (w : nat) (v : list Z) : list Z := wr_u64 (len_Z v * Z.of_nat w) ++ to_bytes w v.

Definition write_plane (p : KvPackedPlane) : list Z :=
  wr_u32 (pp_layer p) ++ wr_u32 (pp_ratio p) ++ wr_u32 (pp_rows p) ++
  wr_vec 1 (pp_cmp_fp4 p) ++ wr_vec 1 (pp_cmp_scale p) ++ wr_vec 1 (pp_key_fp4 p) ++ wr_vec 1 (pp_key_scale p) ++
  wr_vec 4 (pp_raw_rows p) ++ wr_vec 2 (pp_raw_cmp p) ++ wr_vec 2 (pp_raw_key p) ++
  wr_vec 4 (pp_carry_kv p) ++ wr_vec 4 (pp_carry_score p).
Definition write_parked (tag : string) (p : ParkedContext) : list Z :=
  kKvMagic ++ wr_u32 kKvVersion ++ wr_u64 (fnv1a_tag tag) ++
  wr_u32 (len_Z (pc_tokens p)) ++ to_bytes 4 (pc_tokens p) ++
  wr_u32 (kp_positions (pc_kv p)) ++ wr_u32 (len_Z (kp_planes (pc_kv p))) ++
  flat_map write_plane (kp_planes (pc_kv p)) ++ kKvEnd.

(** Reading: what is left of the file after each value; a short file fails the stream. *)
Definition Reader (A : Type) : Type := list Z -> Result (A * list Z).
Definition rd_bind {A B} (m : Reader A) (k : A -> Reader B) : Reader B := fun bs => '(a, bs) ← m bs; k a bs.
Definition rd_ret {A} (a : A) : Reader A := fun bs => Ret (a, bs).
Definition rd_check (bad : bool) (e : Err) : Reader unit := fun bs => _ ← fail_if bad e; Ret (tt, bs).

Definition rd_bytes (n : nat) : Reader (list Z) := fun bs =>
  if (length bs <? n)%nat then Fail Corrupt else Ret (take n bs, drop n bs).
Definition rd_num (w : nat) : Reader Z := rd_bind (rd_bytes w) (fun b => rd_ret (le_value b)).
Definition rd_u32 : Reader Z := rd_num 4.
Definition rd_u64 : Reader Z := rd_num 8.
Definition rd_words (w n : nat) : Reader (list Z) := rd_bind (rd_bytes (n * w)) (fun b => rd_ret (of_bytes w n b)).
Definition rd_vec (w : nat) : Reader (list Z) :=
  rd_bind rd_u64 (fun bytes =>
  rd_bind (rd_check ((kKvVectorCap <? bytes) || negb (bytes mod Z.of_nat w =? 0)) Corrupt) (fun _ =>
  rd_words w (Z.to_nat (bytes / Z.of_nat w)))).

Definition read_plane : Reader KvPackedPlane :=
  rd_bind rd_u32 (fun layer => rd_bind rd_u32 (fun ratio => rd_bind rd_u32 (fun rows =>
  rd_bind (rd_vec 1) (fun cmp_fp4 => rd_bind (rd_vec 1) (fun cmp_scale =>
  rd_bind (rd_vec 1) (fun key_fp4 => rd_bind (rd_vec 1) (fun key_scale =>
  rd_bind (rd_vec 4) (fun raw_rows => rd_bind (rd_vec 2) (fun raw_cmp => rd_bind (rd_vec 2) (fun raw_key =>
  rd_bind (rd_vec 4) (fun carry_kv => rd_bind (rd_vec 4) (fun carry_score =>
  rd_ret (mkPackedPlane layer ratio rows cmp_fp4 cmp_scale key_fp4 key_scale raw_rows raw_cmp raw_key carry_kv carry_score))))))))))))).
Fixpoint read_planes (n : nat) : Reader (list KvPackedPlane) :=
  match n with
  | O => rd_ret []
  | S n => rd_bind read_plane (fun p => rd_bind (read_planes n) (fun ps => rd_ret (p :: ps)))
  end.
Definition rd_magic (want : list Z) : Reader unit :=
  rd_bind (rd_bytes 8) (fun b => rd_check (negb (bool_decide (map (fun x => x mod 256) b = want))) Corrupt).

Definition read_parked (tag : string) : Reader ParkedContext :=
  rd_bind (rd_magic kKvMagic) (fun _ =>
  rd_bind rd_u32 (fun ver => rd_bind (rd_check (negb (ver =? kKvVersion)) Corrupt) (fun _ =>
  rd_bind rd_u64 (fun fp =>
  rd_bind (rd_check (negb (bool_decide (tag = EmptyString)) && negb (fp =? fnv1a_tag tag)) NotFound) (fun _ =>
  rd_bind rd_u32 (fun nt => rd_bind (rd_check (2 ^ 24 <? nt) Corrupt) (fun _ =>
  rd_bind (rd_words 4 (Z.to_nat nt)) (fun tokens =>
  rd_bind rd_u32 (fun positions =>
  rd_bind rd_u32 (fun planes => rd_bind (rd_check (64 <? planes) Corrupt) (fun _ =>
  rd_bind (read_planes (Z.to_nat planes)) (fun ps =>
  rd_bind (rd_magic kKvEnd) (fun _ =>
  rd_ret {| pc_tokens := tokens; pc_kv := mkKvPacked positions ps |}))))))))))))).

(** ** The directory *)

Record DiskFile := { df_bytes : list Z; df_time : Z }.
Abbreviation Disk := (gmap string DiskFile).

(** The files the budget counts, oldest first. *)
Definition budget_ext (path : string) : bool :=
  bool_decide (extension path = to_text ".pkv") || bool_decide (extension path = to_text ".bkv").
Definition older (a b : string * DiskFile) : bool :=
  if df_time a.2 <? df_time b.2 then true else if df_time b.2 <? df_time a.2 then false else path_ltb a.1 b.1.
Definition file_size (f : DiskFile) : Z := len_Z (df_bytes f).
Definition counted (dir : string) (d : Disk) : list (string * DiskFile) :=
  std_sort older (filter (fun f => in_dir dir f.1 && budget_ext f.1 = true) (map_to_list d)).
Definition total_size (fs : list (string * DiskFile)) : Z := sum_Z (map (fun f => file_size f.2) fs).

Section Budget.
(** Whether the operating system lets a file go. *)
Context (removable : string -> bool).
Fixpoint evict_files (max total : Z) (fs : list (string * DiskFile)) (d : Disk) : Disk :=
  match fs with
  | [] => d
  | f :: fs =>
      if total <=? max then d
      else if removable f.1 then evict_files max (total - file_size f.2) fs (delete f.1 d)
      else evict_files max total fs d
  end.
Definition enforce_disk_budget (opt : KvDiskOptions) (d : Disk) : Disk :=
  if od_max_bytes opt =? 0 then d
  else let fs := counted (od_dir opt) d in evict_files (od_max_bytes opt) (total_size fs) fs d.
End Budget.

(** ** Saving, loading, dropping *)

(** What the operating system answers to one save. *)
Record SaveEnv := { sv_mkdir : bool; sv_open : bool; sv_write : bool; sv_rename : bool; sv_now : Z; sv_removable : string -> bool }.

Definition save_parked_context (env : SaveEnv) (p : ParkedContext) (opt : KvDiskOptions) (name : string) (d : Disk) : Result unit * Disk :=
  if bool_decide (od_dir opt = EmptyString) then (Fail InvalidArgument, d)
  else if negb (sv_mkdir env) then (Fail Io, d)
  else
    let final_path := path_join (od_dir opt) (session_file_name name) in
    let tmp_path := (final_path +:+ ".tmp")%string in
    if negb (sv_open env) then (Fail Io, d)
    else if negb (sv_write env) then (Fail Io, delete tmp_path d)
    else
      let d := if sv_removable env final_path then delete final_path d else d in
      if negb (sv_rename env) then (Fail Io, delete tmp_path d)
      else
        let d := <[final_path := {| df_bytes := write_parked (od_model_tag opt) p; df_time := sv_now env |}]> (delete tmp_path d) in
        (Ret tt, enforce_disk_budget (sv_removable env) opt d).

Definition load_parked_context (opt : KvDiskOptions) (name : string) (d : Disk) : Result ParkedContext :=
  if bool_decide (od_dir opt = EmptyString) then Fail InvalidArgument
  else match d !! path_join (od_dir opt) (session_file_name name) with
       | None => Fail NotFound
       | Some f => '(p, _) ← read_parked (od_model_tag opt) (df_bytes f); Ret p
       end.

Definition drop_parked_context (removable : string -> bool) (opt : KvDiskOptions) (name : string) (d : Disk) : bool * Disk :=
  if bool_decide (od_dir opt = EmptyString) then (false, d)
  else let path := path_join (od_dir opt) (session_file_name name) in
       match d !! path with
       | Some _ => if removable path then (true, delete path d) else (false, d)
       | None => (false, d)
       end.

(** ** A saved context reads back *)

(** [m] reads [x] from exactly the bytes [enc], and no proper prefix of them satisfies it. *)
Definition reads {A} (m : Reader A) (enc : list Z) (x : A) : Prop :=
  (forall rest, m (enc ++ rest) = Ret (x, rest)) /\
  (forall pre b post, enc = pre ++ b :: post -> m pre = Fail Corrupt).

Lemma reads_ret {A} (x : A) : reads (rd_ret x) [] x.
Proof. split; [done|]. intros pre b post H. by destruct pre. Qed.
Lemma reads_bind {A B} (m : Reader A) (k : A -> Reader B) e1 e2 x y :
  reads m e1 x -> reads (k x) e2 y -> reads (rd_bind m k) (e1 ++ e2) y.
Proof.
  intros [H1 H2] [K1 K2]. unfold rd_bind. split.
  - intros rest. rewrite <- app_assoc, H1. cbn. apply K1.
  - intros pre b post E. destruct (app_eq_inv _ _ _ _ E) as [(k' & -> & E2)|(k' & -> & E2)].
    + destruct k' as [|b' k']; cbn in E2.
      * rewrite app_nil_r in *. specialize (H1 []). rewrite app_nil_r in H1. rewrite H1. cbn. by apply (K2 [] b post).
      * injection E2 as <- ->. by rewrite (H2 pre b k').
    + rewrite H1. cbn. by apply (K2 k' b post).
Qed.
Lemma reads_check bad e : bad = false -> reads (rd_check bad e) [] tt.
Proof. intros ->. split; [done|]. intros pre b post H. by destruct pre. Qed.
Lemma reads_bytes n bs : length bs = n -> reads (rd_bytes n) bs bs.
Proof.
  intros Hn. unfold rd_bytes. split.
  - intros rest. rewrite length_app, guard_ltb by lia. by rewrite take_app_length', drop_app_length' by done.
  - intros pre b post ->. rewrite length_app in Hn. cbn in Hn. by replace (_ <? _)%nat with true by (symmetry; apply Nat.ltb_lt; lia).
Qed.
Lemma reads_num w v : 0 <= v < 256 ^ Z.of_nat w -> reads (rd_num w) (le_bytes w v) v.
Proof.
  intros Hv. rewrite <- (app_nil_r (le_bytes w v)). eapply reads_bind; [apply reads_bytes, le_bytes_length|].
  rewrite le_value_bytes by done. apply reads_ret.
Qed.
Lemma reads_words w n xs : length xs = n -> Forall (fun x => 0 <= x < 256 ^ Z.of_nat w) xs -> reads (rd_words w n) (to_bytes w xs) xs.
Proof.
  intros Hn Hx. rewrite <- (app_nil_r (to_bytes w xs)). eapply reads_bind; [apply reads_bytes; rewrite to_bytes_length; lia|].
  replace (of_bytes w n (to_bytes w xs)) with xs; [apply reads_ret|].
  rewrite <- (app_nil_r (to_bytes w xs)), <- Hn. by rewrite of_to_bytes.
Qed.

(** The elements fit [w] bytes and the vector its cap. *)
Definition vec_ok (w : nat) (v : list Z) : Prop :=
  Forall (fun x => 0 <= x < 256 ^ Z.of_nat w) v /\ len_Z v * Z.of_nat w <= kKvVectorCap.
Definition word_ok (v : Z) : Prop := 0 <= v < 2 ^ 32.
Record plane_ok (p : KvPackedPlane) : Prop := {
  wp_words : word_ok (pp_layer p) /\ word_ok (pp_ratio p) /\ word_ok (pp_rows p);
  wp_fp4 : vec_ok 1 (pp_cmp_fp4 p) /\ vec_ok 1 (pp_cmp_scale p) /\ vec_ok 1 (pp_key_fp4 p) /\ vec_ok 1 (pp_key_scale p);
  wp_raw : vec_ok 4 (pp_raw_rows p) /\ vec_ok 2 (pp_raw_cmp p) /\ vec_ok 2 (pp_raw_key p);
  wp_carry : vec_ok 4 (pp_carry_kv p) /\ vec_ok 4 (pp_carry_score p) }.
(** What the format can hold. *)
Record parked_ok (p : ParkedContext) : Prop := {
  po_tokens : Forall word_ok (pc_tokens p) /\ len_Z (pc_tokens p) <= 2 ^ 24;
  po_positions : word_ok (kp_positions (pc_kv p));
  po_planes : Forall plane_ok (kp_planes (pc_kv p)) /\ len_Z (kp_planes (pc_kv p)) <= 64 }.

Lemma reads_vec w v : (0 < w)%nat -> vec_ok w v -> reads (rd_vec w) (wr_vec w v) v.
Proof.
  intros Hw [Hv Hc]. unfold rd_vec, wr_vec, len_Z in *. rewrite <- (app_nil_l (to_bytes w v)).
  unfold kKvVectorCap in Hc. eapply reads_bind; [apply (reads_num 8); change (256 ^ Z.of_nat 8) with (2 ^ 64); nia|].
  eapply reads_bind; [apply reads_check|].
  - apply orb_false_iff. split; [apply Z.ltb_ge; exact Hc|]. apply negb_false_iff, Z.eqb_eq, Z.mod_mul. lia.
  - rewrite Z.div_mul by lia. rewrite Nat2Z.id. by apply reads_words.
Qed.

Ltac reads_step := (eapply reads_bind; [first [apply (reads_num 4); assumption | apply reads_vec; [lia|assumption]]|]).
Lemma reads_plane p : plane_ok p -> reads read_plane (write_plane p) p.
Proof.
  intros [(W1 & W2 & W3) (F1 & F2 & F3 & F4) (R1 & R2 & R3) (C1 & C2)]. unfold read_plane, write_plane.
  rewrite <- (app_nil_r (wr_vec 4 (pp_carry_score p))). repeat reads_step. destruct p. apply reads_ret.
Qed.
Lemma reads_planes ps : Forall plane_ok ps -> reads (read_planes (length ps)) (flat_map write_plane ps) ps.
Proof.
  induction 1 as [|p ps Hp _ IH]; [apply reads_ret|]. cbn [length read_planes flat_map].
  eapply reads_bind; [by apply reads_plane|]. rewrite <- (app_nil_r (flat_map _ ps)).
  eapply reads_bind; [exact IH|]. apply reads_ret.
Qed.
Lemma reads_magic m : length m = 8%nat -> map (fun x => x mod 256) m = m -> reads (rd_magic m) m tt.
Proof.
  intros Hl Hm. rewrite <- (app_nil_r m) at 2. eapply reads_bind; [by apply reads_bytes|]. apply reads_check.
  by rewrite Hm, bool_decide_true.
Qed.

Lemma fnv1a_range s : 0 <= fnv1a_tag s < 2 ^ 64.
Proof.
  unfold fnv1a_tag. apply (foldl_invariant (fun h => 0 <= h < 2 ^ 64)); [lia|]. intros. apply u64_range.
Qed.

Lemma reads_parked tag p : parked_ok p -> reads (read_parked tag) (write_parked tag p) p.
Proof.
  intros [(T1 & T2) P (L1 & L2)]. unfold read_parked, write_parked.
  eapply reads_bind; [by apply reads_magic|].
  eapply reads_bind; [apply (reads_num 4); unfold kKvVersion; cbn; lia|].
  rewrite <- (app_nil_l (wr_u64 _ ++ _)). eapply reads_bind; [by apply reads_check|].
  eapply reads_bind; [apply (reads_num 8), fnv1a_range|].
  rewrite <- (app_nil_l (wr_u32 (len_Z (pc_tokens p)) ++ _)).
  eapply reads_bind; [apply reads_check; by rewrite Z.eqb_refl, andb_false_r|].
  unfold len_Z in *.
  eapply reads_bind; [apply (reads_num 4); change (256 ^ Z.of_nat 4) with (2 ^ 32); lia|].
  rewrite <- (app_nil_l (to_bytes 4 (pc_tokens p) ++ _)). eapply reads_bind; [apply reads_check, Z.ltb_ge; exact T2|].
  rewrite Nat2Z.id. eapply reads_bind; [by apply reads_words|].
  eapply reads_bind; [by apply (reads_num 4)|].
  eapply reads_bind; [apply (reads_num 4); change (256 ^ Z.of_nat 4) with (2 ^ 32); lia|].
  rewrite <- (app_nil_l (flat_map _ _ ++ _)). eapply reads_bind; [apply reads_check, Z.ltb_ge; exact L2|].
  rewrite Nat2Z.id. eapply reads_bind; [by apply reads_planes|].
  rewrite <- (app_nil_r kKvEnd) at 2. eapply reads_bind; [by apply reads_magic|].
  destruct p as [tokens [positions planes]]. apply reads_ret.
Qed.

(** ** The byte budget *)

Lemma sort_insert_last {A} (lt : A -> A -> bool) x l f : lt f x = false -> sort_insert lt x (l ++ [f]) = sort_insert lt x l ++ [f].
Proof.
  intros Hf. induction l as [|y l IH]; cbn; [by rewrite Hf|]. destruct (lt y x); [|done]. cbn. by rewrite IH.
Qed.
Lemma sort_insert_end {A} (lt : A -> A -> bool) f l : (forall x, x ∈ l -> lt x f = true) -> sort_insert lt f l = l ++ [f].
Proof.
  induction l as [|y l IH]; intros H; [done|]. cbn. rewrite H by left. rewrite IH; [done|]. intros. apply H. by right.
Qed.
Lemma std_sort_last {A} (lt : A -> A -> bool) l1 f l2 : (forall x, x ∈ l1 ++ l2 -> lt x f = true /\ lt f x = false) ->
  std_sort lt (l1 ++ f :: l2) = std_sort lt (l1 ++ l2) ++ [f].
Proof.
  induction l1 as [|x l1 IH]; intros H.
  - apply sort_insert_end. intros x Hx. change (x ∈ std_sort lt l2) in Hx. rewrite (std_sort_perm lt l2) in Hx. by apply H.
  - change (sort_insert lt x (std_sort lt (l1 ++ f :: l2)) = sort_insert lt x (std_sort lt (l1 ++ l2)) ++ [f]).
    rewrite IH by (intros; apply H; by right). apply sort_insert_last, H. by left.
Qed.

Lemma total_size_app a b : total_size (a ++ b) = total_size a + total_size b.
Proof. unfold total_size. rewrite map_app. apply sum_Z_app. Qed.
Lemma total_size_nonneg fs : 0 <= total_size fs.
Proof. apply sum_Z_nonneg, Forall_map, Forall_true. intros f. unfold file_size, len_Z. cbn. lia. Qed.

(** Without a file the system keeps, the budget removes the oldest files, no more than needed. *)
Lemma evict_files_spec removable max fs d : (forall f, f ∈ fs -> removable f.1 = true) ->
  exists n, evict_files removable max (total_size fs) fs d = foldl (fun d f => delete f.1 d) d (take n fs) /\
    (total_size (drop n fs) <= max \/ drop n fs = []) /\ forall m, (m < n)%nat -> max < total_size (drop m fs).
Proof.
  revert d. induction fs as [|f fs IH]; intros d Hr.
  - exists O. split_and!; [done|by right|lia].
  - cbn [evict_files]. assert (Et : total_size (f :: fs) = file_size f.2 + total_size fs) by done.
    destruct (total_size (f :: fs) <=? max) eqn:E.
    + exists O. apply Z.leb_le in E. split_and!; [done|by left|lia].
    + apply Z.leb_gt in E. rewrite (Hr f) by left. replace (total_size (f :: fs) - file_size f.2) with (total_size fs) by lia.
      destruct (IH (delete f.1 d)) as (n & -> & H1 & H2); [intros; apply Hr; by right|].
      exists (S n). split_and!; [done|done|]. intros [|m] Hm; [exact E|]. apply H2. lia.
Qed.

Lemma foldl_delete_other (fs : list (string * DiskFile)) (d : Disk) k : k ∉ fs.*1 -> foldl (fun d f => delete f.1 d) d fs !! k = d !! k.
Proof.
  revert d. induction fs as [|f fs IH]; intros d Hk; [done|]. cbn in *. apply not_elem_of_cons in Hk as [Hk1 Hk2].
  rewrite IH by done. by apply lookup_delete_ne.
Qed.
Lemma evict_files_other removable max total fs d k : k ∉ fs.*1 -> evict_files removable max total fs d !! k = d !! k.
Proof.
  revert total d. induction fs as [|f fs IH]; intros total d Hk; [done|]. cbn in *. apply not_elem_of_cons in Hk as [Hk1 Hk2].
  destruct (total <=? max); [done|]. destruct (removable f.1); rewrite IH by done; [by apply lookup_delete_ne|done].
Qed.
Lemma evict_files_sub removable max total fs d k f : evict_files removable max total fs d !! k = Some f -> d !! k = Some f.
Proof.
  revert total d. induction fs as [|g fs IH]; intros total d; [done|]. cbn.
  destruct (total <=? max); [done|]. destruct (removable g.1); intros H%IH; [by apply lookup_delete_Some in H as [_ H]|done].
Qed.

(** The newest file stays when it fits the budget by itself. *)
Lemma newest_stays removable opt d k f : d !! k = Some f ->
  (forall k' f', k' <> k -> d !! k' = Some f' -> df_time f' < df_time f) -> (forall k, removable k = true) ->
  file_size f <= od_max_bytes opt -> enforce_disk_budget removable opt d !! k = Some f.
Proof.
  intros Hk Hnew Hrm Hsz. unfold enforce_disk_budget. destruct (od_max_bytes opt =? 0); [done|].
  destruct (in_dir (od_dir opt) k && budget_ext k) eqn:Ec.
  - assert (Hin : (k, f) ∈ filter (fun f => in_dir (od_dir opt) f.1 && budget_ext f.1 = true) (map_to_list d)).
    { apply list_elem_of_filter. split; [done|]. by apply elem_of_map_to_list. }
    apply list_elem_of_split in Hin as (l1 & l2 & El).
    assert (Hnd : NoDup (l1 ++ (k, f) :: l2).*1).
    { rewrite <- El. eapply sublist_NoDup; [apply (NoDup_fst_map_to_list d)|apply fmap_sublist, sublist_filter]. }
    assert (Hothers : forall x, x ∈ l1 ++ l2 -> x.1 <> k /\ df_time x.2 < df_time f).
    { intros [k' f'] Hx. assert (Hne : k' <> k).
      { intros ->. rewrite fmap_app in Hnd. cbn in Hnd. apply NoDup_app in Hnd as (_ & N2 & N3). apply NoDup_cons in N3 as [N3 _].
        apply elem_of_app in Hx as [Hx|Hx].
        - apply (N2 k); [apply list_elem_of_fmap; by exists (k, f')|by left].
        - apply N3, list_elem_of_fmap. by exists (k, f'). }
      split; [done|]. apply (Hnew k'); [done|]. apply elem_of_map_to_list.
      assert (Hf : (k', f') ∈ l1 ++ (k, f) :: l2) by (apply elem_of_app in Hx as [?|?]; apply elem_of_app; [by left|right; by right]).
      rewrite <- El in Hf. by apply list_elem_of_filter in Hf as [_ Hf]. }
    unfold counted. rewrite El, std_sort_last.
    2: { intros x Hx. destruct (Hothers x Hx) as [_ Ht]. unfold older. cbn.
      replace (df_time x.2 <? df_time f) with true by (symmetry; by apply Z.ltb_lt).
      by replace (df_time f <? df_time x.2) with false by (symmetry; apply Z.ltb_ge; lia). }
    set (fs := std_sort older (l1 ++ l2)). destruct (evict_files_spec removable (od_max_bytes opt) (fs ++ [(k, f)]) d) as (n & -> & _ & Hn); [by auto|].
    assert (Hle : (n <= length fs)%nat).
    { destruct (decide (n <= length fs)%nat) as [|Hgt]; [done|]. exfalso. specialize (Hn (length fs) ltac:(lia)).
      rewrite drop_app_length in Hn. unfold total_size in Hn. cbn in Hn. lia. }
    rewrite take_app_le by done. rewrite foldl_delete_other; [done|]. intros Hin%list_elem_of_fmap.
    destruct Hin as (x & Ex & Hx). apply elem_of_take in Hx as (i & Hi & _). apply list_elem_of_lookup_2 in Hi.
    unfold fs in Hi. rewrite (std_sort_perm older) in Hi. by destruct (Hothers x Hi) as [Hne _].
  - rewrite evict_files_other; [done|]. intros Hin%list_elem_of_fmap. destruct Hin as ([k' f'] & -> & Hx). cbn in *.
    unfold counted in Hx. rewrite (std_sort_perm older) in Hx. apply list_elem_of_filter in Hx as [Hx _]. cbn in Hx. by rewrite Ec in Hx.
Qed.

(** ** What a save leaves *)

Definition pkv_path (opt : KvDiskOptions) (name : string) : string := path_join (od_dir opt) (session_file_name name).

Lemma save_Ret env p opt name d d' : save_parked_context env p opt name d = (Ret tt, d') ->
  od_dir opt <> EmptyString /\ d' = enforce_disk_budget (sv_removable env) opt
    (<[pkv_path opt name := {| df_bytes := write_parked (od_model_tag opt) p; df_time := sv_now env |}]>
      (delete (pkv_path opt name +:+ ".tmp")%string (if sv_removable env (pkv_path opt name) then delete (pkv_path opt name) d else d))).
Proof.
  unfold save_parked_context. destruct (bool_decide _) eqn:Ed; [done|]. apply bool_decide_eq_false_1 in Ed.
  destruct (sv_mkdir env); [|done]. destruct (sv_open env); [|done]. destruct (sv_write env); [|done].
  destruct (sv_rename env); [|done]. cbn [negb]. intros [= <-]. done.
Qed.

Lemma load_written opt name d f p rest : od_dir opt <> EmptyString -> d !! pkv_path opt name = Some f ->
  df_bytes f = write_parked (od_model_tag opt) p ++ rest -> parked_ok p -> load_parked_context opt name d = Ret p.
Proof.
  intros Hd Hf Hb Hp. unfold load_parked_context. rewrite bool_decide_false by done. fold (pkv_path opt name). rewrite Hf, Hb.
  by rewrite (proj1 (reads_parked (od_model_tag opt) p Hp) rest).
Qed.

Lemma parked_loads env p opt name d d' :
  parked_ok p -> save_parked_context env p opt name d = (Ret tt, d') ->
  od_max_bytes opt = 0 \/ (len_Z (write_parked (od_model_tag opt) p) <= od_max_bytes opt /\
    (forall k f, d !! k = Some f -> df_time f < sv_now env) /\ forall k, sv_removable env k = true) ->
  load_parked_context opt name d' = Ret p.
Proof.
  intros Hp [Hd ->]%save_Ret Hb. set (f := {| df_bytes := _; df_time := _ |}). set (d0 := delete _ _).
  apply (load_written _ _ _ f p []); [done| |cbn; by rewrite app_nil_r|done]. destruct Hb as [H0|(Hs & Hnew & Hrm)].
  - unfold enforce_disk_budget. rewrite H0. apply lookup_insert_eq.
  - apply newest_stays; [apply lookup_insert_eq| |done|exact Hs].
    intros k' f' Hne Hk'. rewrite lookup_insert_ne in Hk' by done. apply (Hnew k').
    unfold d0 in Hk'. apply lookup_delete_Some in Hk' as [_ Hk']. rewrite Hrm in Hk'. by apply lookup_delete_Some in Hk' as [_ Hk'].
Qed.

(** C20: a context the format can hold that was saved without an error loads back as it was, when
    the byte budget does not take the new file away again: there is no budget, or the file fits
    it and is the newest. *)
Theorem saved_context_loads env p opt name d d' :
  parked_ok p -> save_parked_context env p opt name d = (Ret tt, d') ->
  od_max_bytes opt = 0 \/ (len_Z (write_parked (od_model_tag opt) p) <= od_max_bytes opt /\
    (forall k f, d !! k = Some f -> df_time f < sv_now env) /\ forall k, sv_removable env k = true) ->
  load_parked_context opt name d' = Ret p.
Proof. apply parked_loads. Qed.

(** C40: a copy cut off anywhere is refused as [Corrupt], never read as another context. *)
Theorem torn_copy_refused opt name d p f b rest :
  parked_ok p -> od_dir opt <> EmptyString -> d !! pkv_path opt name = Some f ->
  write_parked (od_model_tag opt) p = df_bytes f ++ b :: rest -> load_parked_context opt name d = Fail Corrupt.
Proof.
  intros Hp Hd Hf Hb. unfold load_parked_context. rewrite bool_decide_false by done. fold (pkv_path opt name). rewrite Hf.
  by rewrite (proj2 (reads_parked (od_model_tag opt) p Hp) _ _ _ Hb).
Qed.

(** The old copy is removed before the new one is renamed over it: when the renaming fails, no
    copy is left. *)
Lemma failed_rename_loses_copy env p opt name d d' : sv_mkdir env = true -> sv_open env = true -> sv_write env = true ->
  sv_removable env (pkv_path opt name) = true -> sv_rename env = false -> od_dir opt <> EmptyString ->
  save_parked_context env p opt name d = (Fail Io, d') -> load_parked_context opt name d' = Fail NotFound.
Proof.
  intros E1 E2 E3 E4 E5 Hd. unfold save_parked_context, load_parked_context. rewrite !bool_decide_false by done.
  fold (pkv_path opt name). rewrite E1, E2, E3, E4, E5. cbn [negb]. intros [= <-].
  destruct (decide (pkv_path opt name = pkv_path opt name +:+ ".tmp")%string) as [Eq|Hne].
  - rewrite <- Eq. by rewrite lookup_delete_eq.
  - by rewrite lookup_delete_ne, lookup_delete_eq by done.
Qed.

(** ** Whose file it is *)

(** A name that only it can have as its file's: short, and of letters, digits, [-] and [.]. *)
Definition plain_char (c : ascii) : bool := name_char c && negb (bool_decide (c = ascii_of_N 95)).
Definition plain_name (n : string) : bool :=
  forallb plain_char (to_text n) && negb (bool_decide (n = EmptyString)) && (length (to_text n) <? 96)%nat &&
  negb (bool_decide (n = "default"%string)).

Lemma to_text_inj a b : to_text a = to_text b -> a = b.
Proof. unfold to_text. intros H. rewrite <- (String.string_of_list_ascii_of_string a), H. apply String.string_of_list_ascii_of_string. Qed.
Lemma to_text_cat a b : to_text (a +:+ b)%string = to_text a ++ to_text b.
Proof. unfold to_text. induction a as [|c a IH]; [done|]. exact (f_equal (cons c) IH). Qed.
Lemma to_text_of l : to_text (String.string_of_list_ascii l) = l.
Proof. apply String.list_ascii_of_string_of_list_ascii. Qed.

Lemma path_join_text dir name : exists pre, to_text (path_join dir name) = pre ++ to_text name /\
  forall other, to_text (path_join dir other) = pre ++ to_text other.
Proof.
  unfold path_join. destruct (rev (to_text dir)) as [|c l]; [by exists []|]. destruct (bool_decide (c = slash)).
  - exists (to_text dir). split; [|intros other]; apply to_text_cat.
  - exists (to_text dir ++ to_text "/"). split; [|intros other]; by rewrite !to_text_cat, <- ?app_assoc.
Qed.
Lemma path_join_inj dir a b : path_join dir a = path_join dir b -> a = b.
Proof.
  intros H. destruct (path_join_text dir a) as (pre & H1 & H2). rewrite H, H2 in H1. apply app_inv_head in H1. by apply to_text_inj.
Qed.

Lemma file_name_shape n : exists l, to_text (session_file_name n) = l ++ to_text ".pkv" /\
  l = take 96 (match map (fun c => if name_char c then c else ascii_of_N 95) (to_text n) with [] => to_text "default" | out => out end).
Proof.
  unfold session_file_name. eexists. split; [|done]. rewrite to_text_cat, to_text_of. f_equal.
  by destruct (map _ (to_text n)).
Qed.
Lemma plain_file m n : plain_name n = true -> session_file_name m = session_file_name n -> m = n.
Proof.
  unfold plain_name. intros [[[H1 H2]%andb_true_iff H3%Nat.ltb_lt]%andb_true_iff H4]%andb_true_iff H.
  apply negb_true_iff, bool_decide_eq_false_1 in H2, H4.
  destruct (file_name_shape m) as (lm & Em & Hm). destruct (file_name_shape n) as (ln & En & Hn).
  rewrite H, En in Em. apply app_inv_tail in Em. subst lm.
  rewrite forallb_forall in H1.
  assert (Hid : map (fun c => if name_char c then c else ascii_of_N 95) (to_text n) = to_text n).
  { transitivity (map id (to_text n)); [|by rewrite map_id]. apply map_ext_in. intros c Hc%H1. unfold plain_char in Hc.
    apply andb_true_iff in Hc as [-> _]. done. }
  rewrite Hid in Hn. assert (Hne : to_text n <> []) by (intros E; apply H2, to_text_inj; by rewrite E).
  destruct (to_text n) as [|c0 t0] eqn:Et; [done|]. rewrite <- Et in *. rewrite Hn in Hm. rewrite (take_ge (to_text n)) in Hm by lia.
  apply to_text_inj. destruct (to_text m) as [|c m'] eqn:Etm.
  { exfalso. apply H4, to_text_inj. rewrite Hm. done. }
  rewrite <- Etm in *. assert (Hlen : length (to_text n) = Nat.min 96 (length (to_text m))).
  { rewrite Hm, length_take. destruct (map _ (to_text m)) eqn:E; [by rewrite Etm in E|]. rewrite <- E. by rewrite length_map. }
  assert (Hmap : to_text n = map (fun c => if name_char c then c else ascii_of_N 95) (to_text m)).
  { rewrite Hm. destruct (map _ (to_text m)) eqn:E; [by rewrite Etm in E|]. rewrite <- E. apply take_ge. rewrite length_map. lia. }
  clear -H1 Hmap. revert Hmap H1. generalize (to_text n). induction (to_text m) as [|a l IH]; intros [|b k]; cbn; intros E Hpl; try done.
  injection E as E1 E2. f_equal; [|by apply IH; auto]. specialize (Hpl b (or_introl eq_refl)). unfold plain_char in Hpl.
  apply andb_true_iff in Hpl as [_ Hpl]. apply negb_true_iff, bool_decide_eq_false_1 in Hpl. by destruct (name_char a).
Qed.

(** Different sessions can have the same file. *)
Example names_collide : session_file_name "a b" = session_file_name "a_b".
Proof. by vm_compute. Qed.

(** ** A small context *)

Definition tiny_parked : ParkedContext :=
  {| pc_tokens := [7; 8; 9];
     pc_kv := mkKvPacked 3 [mkPackedPlane 0 2 1 [1; 2] [127] [3] [126] [0] [0x3F80] [0x4000] [5; 6] [7; 8]] |}.
Definition tiny_disk : KvDiskOptions := {| od_dir := "kv"; od_model_tag := "m"; od_max_bytes := 4096 |}.
Definition fine_env (now : Z) : SaveEnv :=
  {| sv_mkdir := true; sv_open := true; sv_write := true; sv_rename := true; sv_now := now; sv_removable := fun _ => true |}.
Lemma tiny_ok : parked_ok tiny_parked.
Proof.
  assert (Hv : forall w v, forallb (fun x => (0 <=? x) && (x <? 256 ^ Z.of_nat w)) v = true -> len_Z v * Z.of_nat w <= kKvVectorCap -> vec_ok w v).
  { intros w v Hv Hl. split; [|done]. apply Forall_forall. intros x Hx. rewrite forallb_forall in Hv.
    apply list_elem_of_In, Hv in Hx. apply andb_true_iff in Hx as [H1%Z.leb_le H2%Z.ltb_lt]. done. }
  assert (Hw : forall v, (0 <=? v) && (v <? 2 ^ 32) = true -> word_ok v) by (intros v [H1%Z.leb_le H2%Z.ltb_lt]%andb_true_iff; done).
  constructor; cbn.
  - split; [repeat (constructor; [by apply Hw|]); constructor|done].
  - by apply Hw.
  - split; [|done]. constructor; [|constructor]. constructor; cbn; split_and!; (by apply Hw) || (by apply Hv).
Qed.
Lemma saved_context_loads_witness : exists d', save_parked_context (fine_env 5) tiny_parked tiny_disk "chat" ∅ = (Ret tt, d') /\
  load_parked_context tiny_disk "chat" d' = Ret tiny_parked.
Proof.
  destruct (save_parked_context (fine_env 5) tiny_parked tiny_disk "chat" ∅) as [r d'] eqn:E.
  exists d'. assert (Er : r = Ret tt) by (change r with (r, d').1; rewrite <- E; by vm_compute). subst r. split; [done|].
  apply (saved_context_loads (fine_env 5) tiny_parked tiny_disk "chat" ∅ d'); [apply tiny_ok|exact E|].
  right. split_and!; [by vm_compute| |done]. intros k f. by rewrite lookup_empty.
Defined.
Lemma torn_copy_refused_witness :
  load_parked_context tiny_disk "chat" {[pkv_path tiny_disk "chat" := {| df_bytes := take 100 (write_parked "m" tiny_parked); df_time := 0 |}]} =
  Fail Corrupt.
Proof.
  apply (torn_copy_refused _ _ _ tiny_parked {| df_bytes := take 100 (write_parked "m" tiny_parked); df_time := 0 |}
    (nth 100 (write_parked "m" tiny_parked) 0) (drop 101 (write_parked "m" tiny_parked))).
  - apply tiny_ok.
  - done.
  - apply lookup_singleton_eq.
  - vm_compute. reflexivity.
Defined.
