(* ===== verification/SessionWriter.v ===== *)
(** The background writer of parked contexts ([KvDiskWriter] of [src/runtime/session.cpp]): one
    thread writes the snapshots that callers queue, a newer snapshot of a name replacing the one
    still pending, under a byte budget of the queue.

    Every step below is one critical section of the code's mutex, or the write that runs between
    two of them; callers and the writer's thread interleave between steps.  A caller that has to
    wait is a step that is not enabled. *)

From S2P Require Import Prelude Types KvStore SessionDisk.

(** ** State *)

Record PendingSnap := { ps_snapshot : ParkedContext; ps_order : Z; ps_completions : list nat }.
Record WriterStats := { ws_queued : Z; ws_written : Z; ws_coalesced : Z; ws_skipped : Z; ws_errors : Z; ws_backpressure : Z }.
#[export] Instance WriterStats_eta : Eta WriterStats := fun s =>
  {| ws_queued := ws_queued s; ws_written := ws_written s; ws_coalesced := ws_coalesced s; ws_skipped := ws_skipped s;
     ws_errors := ws_errors s; ws_backpressure := ws_backpressure s |}.
(** What the thread took ([busy_], [writing_] and its locals); the result once it has written. *)
Record Job := { j_name : string; j_snapshot : ParkedContext; j_completions : list nat; j_result : option (Result unit) }.
#[export] Instance Job_eta : Eta Job := fun j =>
  {| j_name := j_name j; j_snapshot := j_snapshot j; j_completions := j_completions j; j_result := j_result j |}.
(** Completions are numbered; [w_done] holds the results of those that are done. *)
Record Writer := {
  w_budget : Z; w_pending : gmap string PendingSnap; w_bytes : Z; w_stats : WriterStats; w_job : option Job;
  w_stopping : bool; w_disk : Disk; w_writes : nat; w_issued : nat; w_done : gmap nat (Result unit) }.
#[export] Instance Writer_eta : Eta Writer := fun w =>
  {| w_budget := w_budget w; w_pending := w_pending w; w_bytes := w_bytes w; w_stats := w_stats w; w_job := w_job w;
     w_stopping := w_stopping w; w_disk := w_disk w; w_writes := w_writes w; w_issued := w_issued w; w_done := w_done w |}.

Definition writer_new (budget : Z) (d : Disk) : Writer :=
  {| w_budget := budget; w_pending := ∅; w_bytes := 0;
     w_stats := {| ws_queued := 0; ws_written := 0; ws_coalesced := 0; ws_skipped := 0; ws_errors := 0; ws_backpressure := 0 |};
     w_job := None; w_stopping := false; w_disk := d; w_writes := 0; w_issued := 0; w_done := ∅ |}.

(** ** Callers *)

Definition previous_bytes (w : Writer) (name : string) : Z :=
  match w_pending w !! name with Some p => parked_bytes (ps_snapshot p) | None => 0 end.
Definition has_space (w : Writer) (name : string) (bytes : Z) : bool :=
  let other := u64 (w_bytes w - previous_bytes w name) in
  (other =? 0) || ((bytes <=? w_budget w) && (other <=? w_budget w - bytes)).

(** [queue] once it has space; [wait] is [save]'s completion, numbered by [w_issued]. *)
Definition queue_now (name : string) (s : ParkedContext) (wait : bool) (w : Writer) : Writer :=
  let old := w_pending w !! name in
  let bytes0 := match old with Some p => u64 (w_bytes w - parked_bytes (ps_snapshot p)) | None => w_bytes w end in
  let completions := match old with Some p => ps_completions p | None => [] end ++ (if wait then [w_issued w] else []) in
  let queued := ws_queued (w_stats w) + 1 in
  w <| w_bytes := u64 (bytes0 + parked_bytes s) |>
    <| w_stats ::= fun st => st <| ws_coalesced ::= Z.add (if old then 1 else 0) |> <| ws_queued := queued |> |>
    <| w_pending ::= fun m => <[name := {| ps_snapshot := s; ps_order := queued; ps_completions := completions |}]> m |>
    <| w_issued ::= fun n => if wait then S n else n |>.
Definition queue (name : string) (s : ParkedContext) (wait : bool) (w : Writer) : option Writer :=
  if has_space w name (parked_bytes s) then Some (queue_now name s wait w) else None.
(** The notice of a caller that finds no space. *)
Definition note_backpressure (name : string) (s : ParkedContext) (w : Writer) : Writer :=
  if has_space w name (parked_bytes s) then w else w <| w_stats ::= fun st => st <| ws_backpressure ::= Z.add 1 |> |>.

(** Marks completions as done. *)
Definition complete (r : Result unit) (cs : list nat) (m : gmap nat (Result unit)) : gmap nat (Result unit) :=
  foldl (fun m c => <[c := r]> m) m cs.

(** [discard] up to its wait, and the condition it waits for. *)
Definition discard (name : string) (w : Writer) : Writer :=
  match w_pending w !! name with
  | Some p => w <| w_bytes := u64 (w_bytes w - parked_bytes (ps_snapshot p)) |>
                <| w_done ::= complete (Fail Cancelled) (ps_completions p) |> <| w_pending ::= delete name |>
  | None => w
  end.
Definition not_writing (name : string) (w : Writer) : bool :=
  match w_job w with Some j => negb (bool_decide (j_name j = name)) | None => true end.
(** The condition [flush] waits for. *)
Definition idle (w : Writer) : bool :=
  bool_decide (w_pending w = ∅) && match w_job w with Some _ => false | None => true end.
Definition stop (w : Writer) : Writer := w <| w_stopping := true |>.

(** ** The thread *)

(** [min_element] by order; no two pending snapshots have the same. *)
Definition earlier (a b : string * PendingSnap) : string * PendingSnap := if ps_order b.2 <? ps_order a.2 then b else a.
Definition oldest (m : gmap string PendingSnap) : option (string * PendingSnap) :=
  match map_to_list m with [] => None | x :: xs => Some (foldl earlier x xs) end.

Section Thread.
(** [write_] of the [n]-th write: its result and what it leaves on disk. *)
Context (write_ : nat -> ParkedContext -> string -> Disk -> Result unit * Disk).

Definition take_next (w : Writer) : option Writer :=
  match w_job w, oldest (w_pending w) with
  | None, Some (name, p) =>
      Some (w <| w_bytes := u64 (w_bytes w - parked_bytes (ps_snapshot p)) |> <| w_pending ::= delete name |>
              <| w_job := Some {| j_name := name; j_snapshot := ps_snapshot p; j_completions := ps_completions p; j_result := None |} |>)
  | _, _ => None
  end.
Definition write_job (w : Writer) : option Writer :=
  match w_job w with
  | Some j =>
      match j_result j with
      | None => let '(r, d) := write_ (w_writes w) (j_snapshot j) (j_name j) (w_disk w) in
                Some (w <| w_disk := d |> <| w_writes ::= S |> <| w_job := Some (j <| j_result := Some r |>) |>)
      | Some _ => None
      end
  | None => None
  end.
Definition finish_job (w : Writer) : option Writer :=
  match w_job w with
  | Some j =>
      match j_result j with
      | Some r => Some (w <| w_stats ::= fun st => if is_ok r then st <| ws_written ::= Z.add 1 |> else st <| ws_errors ::= Z.add 1 |> |>
                          <| w_done ::= complete r (j_completions j) |> <| w_job := None |>)
      | None => None
      end
  | None => None
  end.
(** The thread's next step: finish, write or take. *)
Definition thread_step (w : Writer) : option Writer :=
  match finish_job w with
  | Some w' => Some w'
  | None => match write_job w with Some w' => Some w' | None => take_next w end
  end.
(** The thread alone, until it has nothing to do. *)
Fixpoint drain (fuel : nat) (w : Writer) : Writer :=
  match fuel with
  | O => w
  | S fuel => match thread_step w with Some w' => drain fuel w' | None => w end
  end.

Inductive WOp :=
| WQueue (name : string) (s : ParkedContext) (wait : bool)
| WBlocked (name : string) (s : ParkedContext)
| WDiscard (name : string)
| WThread
| WStop.
Definition writer_step (w : Writer) (o : WOp) : option Writer :=
  match o with
  | WQueue name s wait => queue name s wait w
  | WBlocked name s => Some (note_backpressure name s w)
  | WDiscard name => Some (discard name w)
  | WThread => thread_step w
  | WStop => Some (stop w)
  end.
End Thread.
