(* ===== verification/SessionWriterProps.v ===== *)
(** Properties of the background writer: its queue keeps its byte budget, the thread alone
    empties it and answers every waiting caller, and once it is idle the last write of a name is
    of the last snapshot queued under it. *)

From S2P Require Import Prelude Types KvStore SessionDisk SessionWriter.

(** ** The queue *)

Definition pending_bytes (m : gmap string PendingSnap) : Z := msum (fun p => parked_bytes (ps_snapshot p)) m.
Definition answered (w : Writer) (c : nat) : Prop :=
  is_Some (w_done w !! c) \/ (exists k p, w_pending w !! k = Some p /\ c ∈ ps_completions p) \/
  (exists j, w_job w = Some j /\ c ∈ j_completions j).

(** Every completion handed out is in exactly one of these places or done. *)
Record writer_ok (w : Writer) : Prop := {
  wo_bytes : w_bytes w = pending_bytes (w_pending w) /\ w_bytes w < 2 ^ 64;
  wo_budget : w_bytes w <= w_budget w \/ (size (w_pending w) <= 1)%nat;
  wo_orders : forall k p, w_pending w !! k = Some p -> ps_order p <= ws_queued (w_stats w);
  wo_distinct : forall k1 p1 k2 p2, w_pending w !! k1 = Some p1 -> w_pending w !! k2 = Some p2 -> ps_order p1 = ps_order p2 -> k1 = k2;
  wo_waiting : forall c, answered w c <-> (c < w_issued w)%nat }.

Lemma plane_packed_nonneg p : 0 <= plane_packed_bytes p.
Proof. unfold plane_packed_bytes, len_Z. lia. Qed.
Lemma parked_bytes_pos p : 32 <= parked_bytes p.
Proof.
  unfold parked_bytes, packed_size, len_Z. pose proof (sum_Z_nonneg (plane_packed_bytes <$> kp_planes (pc_kv p))) as H.
  assert (0 <= sum_Z (plane_packed_bytes <$> kp_planes (pc_kv p))); [|lia]. apply H, Forall_fmap, Forall_true. apply plane_packed_nonneg.
Qed.
Lemma pending_nonneg m : 0 <= pending_bytes m.
Proof. apply msum_nonneg. intros k p _. pose proof (parked_bytes_pos (ps_snapshot p)). lia. Qed.
Lemma pending_delete m k p : m !! k = Some p -> pending_bytes m = parked_bytes (ps_snapshot p) + pending_bytes (delete k m).
Proof. apply (msum_delete (fun p => parked_bytes (ps_snapshot p))). Qed.
Lemma pending_size m : 32 * Z.of_nat (size m) <= pending_bytes m.
Proof.
  unfold pending_bytes. induction m as [|k p m Hk IH] using map_ind; [by rewrite map_size_empty, msum_empty|].
  rewrite map_size_insert_None, msum_insert by done. pose proof (parked_bytes_pos (ps_snapshot p)). lia.
Qed.
Lemma pending_zero m : pending_bytes m = 0 -> m = ∅.
Proof. intros H. apply map_size_empty_inv. pose proof (pending_size m). lia. Qed.

(** What is left when a name's snapshot is taken out. *)
Lemma without_name w name : writer_ok w ->
  u64 (w_bytes w - previous_bytes w name) = pending_bytes (delete name (w_pending w)).
Proof.
  intros Hw. destruct (wo_bytes w Hw) as [Hb Hl]. unfold previous_bytes. destruct (w_pending w !! name) as [p|] eqn:E.
  - pose proof (pending_delete _ _ _ E) as Hd. pose proof (pending_nonneg (delete name (w_pending w))).
    pose proof (parked_bytes_pos (ps_snapshot p)). rewrite u64_small by lia. lia.
  - rewrite delete_id by done. rewrite u64_small; [lia|]. pose proof (pending_nonneg (w_pending w)). lia.
Qed.

Lemma complete_lookup r cs m c : complete r cs m !! c = if bool_decide (c ∈ cs) then Some r else m !! c.
Proof.
  unfold complete. revert m. induction cs as [|a cs IH]; intros m; cbn [foldl]; [done|]. rewrite IH.
  destruct (decide (c ∈ cs)) as [H|H]; [rewrite !bool_decide_true by (done || by right); done|].
  rewrite (bool_decide_false (c ∈ cs)) by done. destruct (decide (c = a)) as [->|Hne].
  - rewrite lookup_insert_eq, bool_decide_true by left. done.
  - rewrite lookup_insert_ne, bool_decide_false; [done| |done]. intros [?|?]%elem_of_cons; done.
Qed.

Lemma pending_in (m : gmap string PendingSnap) name p c : m !! name = Some p -> (exists k q, m !! k = Some q /\ c ∈ ps_completions q) <->
  c ∈ ps_completions p \/ exists k q, delete name m !! k = Some q /\ c ∈ ps_completions q.
Proof.
  intros Hp. split.
  - intros (k & q & Hk & Hc). destruct (decide (k = name)) as [->|Hne]; [left; congruence|].
    right. exists k, q. by rewrite lookup_delete_ne.
  - intros [Hc|(k & q & [_ Hk]%lookup_delete_Some & Hc)]; [by exists name, p|by exists k, q].
Qed.
Lemma answered_in w name p c : w_pending w !! name = Some p -> answered w c <-> c ∈ ps_completions p \/
  is_Some (w_done w !! c) \/ (exists k q, delete name (w_pending w) !! k = Some q /\ c ∈ ps_completions q) \/
  (exists j, w_job w = Some j /\ c ∈ j_completions j).
Proof. intros Hp. unfold answered. rewrite (pending_in _ _ _ _ Hp). tauto. Qed.
Lemma complete_done r cs m c : is_Some (complete r cs m !! c) <-> c ∈ cs \/ is_Some (m !! c).
Proof. rewrite complete_lookup. case_bool_decide; [|tauto]. split; [by left|]. by eexists. Qed.

Lemma queue_now_ok name s wait w : writer_ok w -> parked_bytes s < 2 ^ 64 -> w_budget w < 2 ^ 64 ->
  has_space w name (parked_bytes s) = true -> writer_ok (queue_now name s wait w).
Proof.
  intros Hw Hs Hbud Hsp. pose proof (without_name w name Hw) as Hrest. unfold has_space in Hsp. rewrite Hrest in Hsp.
  pose proof (pending_nonneg (delete name (w_pending w))) as H0. pose proof (parked_bytes_pos s) as Hp.
  assert (Hb0 : match w_pending w !! name with Some p => u64 (w_bytes w - parked_bytes (ps_snapshot p)) | None => w_bytes w end =
    pending_bytes (delete name (w_pending w))).
  { unfold previous_bytes in Hrest. destruct (w_pending w !! name) eqn:E; [done|]. rewrite Z.sub_0_r in Hrest.
    destruct (wo_bytes w Hw) as [-> ?]. by rewrite delete_id. }
  assert (Hcase : pending_bytes (delete name (w_pending w)) = 0 \/
    pending_bytes (delete name (w_pending w)) + parked_bytes s <= w_budget w).
  { apply orb_true_iff in Hsp as [H%Z.eqb_eq|[H1%Z.leb_le H2%Z.leb_le]%andb_true_iff]; [by left|right; lia]. }
  assert (Hsmall : 0 <= pending_bytes (delete name (w_pending w)) + parked_bytes s < 2 ^ 64) by lia.
  assert (Hins : forall p, parked_bytes (ps_snapshot p) = parked_bytes s ->
    pending_bytes (<[name := p]> (w_pending w)) = pending_bytes (delete name (w_pending w)) + parked_bytes s).
  { intros p Hps. rewrite <- insert_delete_eq. unfold pending_bytes. rewrite msum_insert by (by rewrite lookup_delete_eq). lia. }
  unfold queue_now. split; cbn [w_bytes w_pending w_stats w_budget w_job w_done w_issued update_field Writer_eta].
  all: cbn.
  - rewrite Hb0, u64_small by lia. rewrite Hins by done. split; [done|lia].
  - rewrite Hb0, u64_small by lia. destruct Hcase as [Hz|Hle]; [right|left; lia].
    rewrite <- insert_delete_eq, (pending_zero _ Hz). rewrite map_size_insert_None by apply lookup_empty. by rewrite map_size_empty.
  - intros k p [[<- <-]|[_ Hk]]%lookup_insert_Some; cbn; [lia|]. pose proof (wo_orders w Hw k p Hk). lia.
  - intros k1 p1 k2 p2 [[<- <-]|[Hn1 Hk1]]%lookup_insert_Some [[<- <-]|[Hn2 Hk2]]%lookup_insert_Some; cbn.
    + done.
    + pose proof (wo_orders w Hw _ _ Hk2). lia.
    + pose proof (wo_orders w Hw _ _ Hk1). lia.
    + by apply (wo_distinct w Hw).
  - intros c. rewrite (answered_in _ name _ c (lookup_insert_eq _ _ _)). cbn. rewrite delete_insert_eq, elem_of_app.
    assert (Hold : answered w c <-> c ∈ match w_pending w !! name with Some p => ps_completions p | None => [] end \/
      is_Some (w_done w !! c) \/ (exists k p, delete name (w_pending w) !! k = Some p /\ c ∈ ps_completions p) \/
      (exists j, w_job w = Some j /\ c ∈ j_completions j)).
    { destruct (w_pending w !! name) as [q|] eqn:E; [by apply answered_in|]. rewrite delete_id by done. unfold answered.
      split; [by right|]. intros [H|H]; [destruct (not_elem_of_nil _ H)|done]. }
    pose proof (wo_waiting w Hw c) as Hw'. rewrite Hold in Hw'.
    assert (Hnew : c ∈ (if wait then [w_issued w] else []) <-> wait = true /\ c = w_issued w).
    { destruct wait; [rewrite list_elem_of_singleton; naive_solver|]. split; [intros H; destruct (not_elem_of_nil _ H)|by intros []]. }
    set (here := c ∈ match w_pending w !! name with Some p => ps_completions p | None => [] end) in *.
    set (elsewhere := is_Some (w_done w !! c) \/ _) in *. rewrite Hnew.
    assert (Hor : (here \/ wait = true /\ c = w_issued w) \/ elsewhere <-> (c < w_issued w)%nat \/ wait = true /\ c = w_issued w) by tauto.
    rewrite Hor. destruct wait; [lia|]. split; [by intros [?|[? _]]|by left].
Qed.

Lemma foldl_earlier_in xs x : foldl earlier x xs ∈ x :: xs.
Proof.
  revert x. induction xs as [|y ys IH]; intros x; cbn [foldl]; [by left|].
  pose proof (IH (earlier x y)) as H. apply elem_of_cons in H as [->|H]; [|by right; right].
  unfold earlier. destruct (_ <? _); [right; by left|by left].
Qed.
Lemma oldest_spec m : match oldest m with
  | Some (k, p) => m !! k = Some p
  | None => m = ∅
  end.
Proof.
  unfold oldest. destruct (map_to_list m) as [|x xs] eqn:E; [by apply map_to_list_empty_iff|].
  assert (Hin : forall y, y ∈ x :: xs -> m !! y.1 = Some y.2) by (intros [k p] Hy; rewrite <- E in Hy; by apply elem_of_map_to_list).
  pose proof (foldl_earlier_in xs x) as H.
  destruct (foldl earlier x xs) as [k p]. exact (Hin _ H).
Qed.

(** Taking a pending snapshot out of the queue. *)
Lemma removed_ok w name p w' : writer_ok w -> w_pending w !! name = Some p ->
  w_budget w' = w_budget w -> w_pending w' = delete name (w_pending w) ->
  w_bytes w' = u64 (w_bytes w - parked_bytes (ps_snapshot p)) -> ws_queued (w_stats w') = ws_queued (w_stats w) ->
  w_issued w' = w_issued w -> (forall c, answered w' c <-> answered w c) -> writer_ok w'.
Proof.
  intros Hw Hp E1 E2 E3 Hst E6 Ha. pose proof (without_name w name Hw) as Hrest.
  unfold previous_bytes in Hrest. rewrite Hp in Hrest. destruct (wo_bytes w Hw) as [Hb Hl].
  pose proof (pending_delete _ _ _ Hp) as Hdel. pose proof (parked_bytes_pos (ps_snapshot p)).
  split.
  - rewrite E3, E2, Hrest. split; [done|]. lia.
  - rewrite E3, E2, E1, Hrest. destruct (wo_budget w Hw) as [Hle|Hs]; [left; lia|right].
    rewrite map_size_delete_Some by done. lia.
  - rewrite E2, Hst. intros k q [_ Hk]%lookup_delete_Some. by apply (wo_orders w Hw k).
  - rewrite E2. intros k1 p1 k2 p2 [_ H1]%lookup_delete_Some [_ H2]%lookup_delete_Some. by apply (wo_distinct w Hw).
  - intros c. rewrite E6, Ha. apply (wo_waiting w Hw).
Qed.

Lemma discard_ok name w : writer_ok w -> writer_ok (discard name w).
Proof.
  intros Hw. unfold discard. destruct (w_pending w !! name) as [p|] eqn:E; [|done].
  eapply (removed_ok w name p); [done..|]. intros c. rewrite (answered_in w _ _ _ E). unfold answered. cbn.
  rewrite complete_done. tauto.
Qed.

(** Steps that leave the queue alone. *)
Lemma same_queue_ok w w' : writer_ok w -> w_budget w' = w_budget w -> w_pending w' = w_pending w -> w_bytes w' = w_bytes w ->
  ws_queued (w_stats w') = ws_queued (w_stats w) -> w_issued w' = w_issued w ->
  (forall c, is_Some (w_done w' !! c) \/ (exists j, w_job w' = Some j /\ c ∈ j_completions j) <->
    is_Some (w_done w !! c) \/ (exists j, w_job w = Some j /\ c ∈ j_completions j)) -> writer_ok w'.
Proof.
  intros Hw E1 E2 E3 E4 E5 Ha. split; rewrite ?E1, ?E2, ?E3, ?E4, ?E5; try apply Hw.
  intros c. rewrite <- (wo_waiting w Hw c). unfold answered. rewrite E2. specialize (Ha c). tauto.
Qed.

Section Thread.
Context (write_ : nat -> ParkedContext -> string -> Disk -> Result unit * Disk).

Lemma job_in (j : Job) c : (exists j', Some j = Some j' /\ c ∈ j_completions j') <-> c ∈ j_completions j.
Proof. split; [by intros (j' & [= <-] & H)|]. intros H. by exists j. Qed.
Lemma no_job c : (exists j' : Job, None = Some j' /\ c ∈ j_completions j') <-> False.
Proof. split; [by intros (j' & H & _)|done]. Qed.

Lemma take_ok w w' : writer_ok w -> take_next w = Some w' -> writer_ok w'.
Proof.
  intros Hw. unfold take_next. destruct (w_job w) eqn:Ej; [done|]. pose proof (oldest_spec (w_pending w)) as Ho.
  destruct (oldest (w_pending w)) as [[name p]|]; [|done]. intros [= <-].
  eapply (removed_ok w name p); [done..|]. intros c. rewrite (answered_in w _ _ _ Ho), Ej. unfold answered. cbn.
  rewrite job_in, no_job. cbn. tauto.
Qed.
Lemma write_ok w w' : writer_ok w -> write_job write_ w = Some w' -> writer_ok w'.
Proof.
  intros Hw. unfold write_job. destruct (w_job w) as [j|] eqn:Ej; [|done]. destruct (j_result j); [done|].
  destruct (write_ _ _ _ _) as [r d]. intros [= <-]. eapply same_queue_ok; [done..|]. cbn. intros c. by rewrite Ej, !job_in.
Qed.
Lemma finish_ok w w' : writer_ok w -> finish_job w = Some w' -> writer_ok w'.
Proof.
  intros Hw. unfold finish_job. destruct (w_job w) as [j|] eqn:Ej; [|done]. destruct (j_result j) as [r|]; [|done].
  intros [= <-]. eapply same_queue_ok; [done|done|done|done| |done|].
  - cbn. by destruct (is_ok r).
  - cbn. intros c. rewrite Ej, job_in, no_job, complete_done. tauto.
Qed.
Lemma thread_ok w w' : writer_ok w -> thread_step write_ w = Some w' -> writer_ok w'.
Proof.
  intros Hw. unfold thread_step. destruct (finish_job w) eqn:E1; [intros [= <-]; by eapply finish_ok|].
  destruct (write_job write_ w) eqn:E2; [intros [= <-]; by eapply write_ok|]. by apply take_ok.
Qed.

(** Snapshots are smaller than the address space. *)
Definition op_small (o : WOp) : Prop := match o with WQueue _ s _ => parked_bytes s < 2 ^ 64 | _ => True end.
Lemma thread_budget w w' : thread_step write_ w = Some w' -> w_budget w' = w_budget w.
Proof.
  unfold thread_step, finish_job, write_job, take_next.
  destruct (w_job w) as [j|].
  - destruct (j_result j); [by intros [= <-]|]. destruct (write_ _ _ _ _). by intros [= <-].
  - destruct (oldest _) as [[name p]|]; [by intros [= <-]|done].
Qed.
Lemma writer_step_ok w o w' : writer_ok w -> w_budget w < 2 ^ 64 -> op_small o -> writer_step write_ w o = Some w' ->
  writer_ok w' /\ w_budget w' = w_budget w.
Proof.
  intros Hw Hb Ho. destruct o as [name s wait|name s|name| |]; cbn.
  - unfold queue. destruct (has_space _ _ _) eqn:E; [|done]. intros [= <-]. split; [by apply queue_now_ok|done].
  - intros [= <-]. unfold note_backpressure. destruct (has_space _ _ _); [done|]. split; [|done].
    by eapply same_queue_ok.
  - intros [= <-]. split; [by apply discard_ok|]. unfold discard. by destruct (w_pending w !! name).
  - intros H. split; [by eapply thread_ok|by eapply thread_budget].
  - intros [= <-]. split; [|done]. by eapply same_queue_ok.
Qed.

(** ** The thread empties the queue *)

Definition work (w : Writer) : nat :=
  3 * size (w_pending w) + match w_job w with Some j => match j_result j with Some _ => 1 | None => 2 end | None => 0 end.
Lemma thread_progress w : match thread_step write_ w with Some w' => (work w' < work w)%nat | None => idle w = true end.
Proof.
  unfold thread_step, finish_job, write_job, take_next, idle, work.
  destruct (w_job w) as [j|] eqn:Ej.
  - destruct (j_result j) as [r|] eqn:Er; [cbn; lia|]. destruct (write_ _ _ _ _) as [r d]. cbn. lia.
  - pose proof (oldest_spec (w_pending w)) as Ho. destruct (oldest (w_pending w)) as [[name p]|].
    + cbn. rewrite map_size_delete_Some by done. assert (size (w_pending w) <> 0)%nat; [|lia].
      intros H0. apply map_size_empty_inv in H0. by rewrite H0, lookup_empty in Ho.
    + by rewrite Ho, bool_decide_true.
Qed.
Lemma drain_idle fuel w : (work w <= fuel)%nat -> idle (drain write_ fuel w) = true.
Proof.
  revert w. induction fuel as [|fuel IH]; intros w Hf; cbn [drain]; pose proof (thread_progress w) as Hp.
  - destruct (thread_step write_ w); [lia|done].
  - destruct (thread_step write_ w) as [w'|]; [apply IH; lia|done].
Qed.
Lemma drain_ok fuel w : writer_ok w -> writer_ok (drain write_ fuel w) /\ w_issued (drain write_ fuel w) = w_issued w.
Proof.
  revert w. induction fuel as [|fuel IH]; intros w Hw; cbn [drain]; [done|].
  destruct (thread_step write_ w) as [w'|] eqn:E; [|done].
  assert (Hi : w_issued w' = w_issued w).
  { revert E. unfold thread_step, finish_job, write_job, take_next. destruct (w_job w) as [j|].
    - destruct (j_result j); [by intros [= <-]|]. destruct (write_ _ _ _ _). by intros [= <-].
    - destruct (oldest _) as [[name p]|]; [by intros [= <-]|done]. }
  rewrite <- Hi. apply IH. by eapply thread_ok.
Qed.
Lemma idle_empty w : idle w = true -> w_pending w = ∅ /\ w_job w = None.
Proof. unfold idle. intros [H1 H2]%andb_true_iff. apply bool_decide_eq_true_1 in H1. by destruct (w_job w). Qed.
Lemma idle_answered w c : writer_ok w -> idle w = true -> (c < w_issued w)%nat -> is_Some (w_done w !! c).
Proof.
  intros Hw [Hp Hj]%idle_empty Hc. destruct (proj2 (wo_waiting w Hw c) Hc) as [H|[(k & p & H & _)|(j & H & _)]]; [done| |].
  - by rewrite Hp, lookup_empty in H.
  - by rewrite Hj in H.
Qed.
End Thread.

(** ** The last snapshot wins *)

(** A run of the writer beside what its callers asked for: the last snapshot queued under each
    name and not discarded, and every write the thread made, oldest first. *)
Record Watched := { wt_w : Writer; wt_latest : gmap string ParkedContext; wt_log : list (string * ParkedContext) }.
Definition last_of (name : string) (log : list (string * ParkedContext)) : option ParkedContext :=
  snd <$> last (filter (fun e => e.1 = name) log).

Section Watched.
Context (write_ : nat -> ParkedContext -> string -> Disk -> Result unit * Disk).

Definition logged (w : Writer) (o : WOp) : list (string * ParkedContext) :=
  match o, w_job w with
  | WThread, Some j => match j_result j with None => [(j_name j, j_snapshot j)] | Some _ => [] end
  | _, _ => []
  end.
Definition watch (t : Watched) (o : WOp) : option Watched :=
  w' ← writer_step write_ (wt_w t) o;
  Some {| wt_w := w';
          wt_latest := match o with WQueue name s _ => <[name := s]> (wt_latest t) | WDiscard name => delete name (wt_latest t) | _ => wt_latest t end;
          wt_log := wt_log t ++ logged (wt_w t) o |}.
Fixpoint watch_all (t : Watched) (ops : list WOp) : option Watched :=
  match ops with [] => Some t | o :: ops => t' ← watch t o; watch_all t' ops end.

Definition unwritten (j : Job) : bool := match j_result j with None => true | Some _ => false end.
(** Where the last snapshot of a name is. *)
Definition held (t : Watched) (name : string) (s : ParkedContext) : Prop :=
  match w_pending (wt_w t) !! name with
  | Some p => ps_snapshot p = s
  | None =>
      match w_job (wt_w t) with
      | Some j => if bool_decide (j_name j = name) && unwritten j then j_snapshot j = s
                  else last_of name (wt_log t) = Some s
      | None => last_of name (wt_log t) = Some s
      end
  end.
Definition watched_ok (t : Watched) : Prop := forall name s, wt_latest t !! name = Some s -> held t name s.

Lemma last_of_snoc name log k s : last_of name (log ++ [(k, s)]) = if bool_decide (k = name) then Some s else last_of name log.
Proof.
  unfold last_of. rewrite filter_app. unfold filter at 2. cbn. case_bool_decide as H.
  - rewrite decide_True by done. by rewrite last_snoc.
  - rewrite decide_False by done. by rewrite app_nil_r.
Qed.

Lemma watch_thread t t' : watched_ok t -> watch t WThread = Some t' -> watched_ok t'.
Proof.
  intros Ht. unfold watch. cbn [writer_step]. destruct (thread_step write_ (wt_w t)) as [w'|] eqn:E; [|done].
  cbn [mbind option_bind]. intros [= <-] name s Hs. cbn in Hs. specialize (Ht name s Hs). revert E Ht.
  unfold thread_step, finish_job, write_job, take_next, held, logged, unwritten. cbn [wt_w wt_log].
  destruct (w_job (wt_w t)) as [j|] eqn:Ej.
  - destruct (j_result j) as [r|] eqn:Er.
    + intros [= <-]. cbn. rewrite app_nil_r. destruct (w_pending (wt_w t) !! name); [done|].
      by rewrite andb_false_r.
    + destruct (write_ _ _ _ _) as [r d]. intros [= <-]. cbn. destruct (w_pending (wt_w t) !! name); [done|].
      rewrite andb_true_r, andb_false_r, last_of_snoc. case_bool_decide; [by intros ->|done].
  - pose proof (oldest_spec (w_pending (wt_w t))) as Ho. destruct (oldest _) as [[k p]|]; [|done].
    intros [= <-]. cbn. rewrite app_nil_r, andb_true_r.
    destruct (decide (name = k)) as [->|Hne].
    + rewrite lookup_delete_eq, Ho, bool_decide_true by done. done.
    + rewrite lookup_delete_ne by done. rewrite (bool_decide_false (k = name)) by done. done.
Qed.
Lemma watch_ok t o t' : watched_ok t -> watch t o = Some t' -> watched_ok t'.
Proof.
  intros Ht. destruct o as [name s wait|name s|name| |]; [| | |by apply watch_thread|]; unfold watch; cbn [writer_step].
  - unfold queue. destruct (has_space _ _ _); [|done]. cbn. rewrite app_nil_r. intros [= <-] k s' Hk. cbn in Hk. unfold held. cbn.
    apply lookup_insert_Some in Hk as [[<- <-]|[Hne Hk]]; [by rewrite lookup_insert_eq|]. rewrite lookup_insert_ne by done. exact (Ht k s' Hk).
  - cbn. rewrite app_nil_r. intros [= <-] k s' Hk. specialize (Ht k s' Hk). unfold held, note_backpressure in *. cbn.
    destruct (has_space _ _ _); exact Ht.
  - cbn. rewrite app_nil_r. intros [= <-] k s' Hk. cbn in Hk. apply lookup_delete_Some in Hk as [Hne Hk]. specialize (Ht k s' Hk).
    unfold held, discard in *. cbn. destruct (w_pending (wt_w t) !! name) as [p|]; [|exact Ht]. cbn. by rewrite lookup_delete_ne by done.
  - cbn. rewrite app_nil_r. intros [= <-] k s' Hk. exact (Ht k s' Hk).
Qed.
Lemma watch_all_ok ops t t' : watched_ok t -> watch_all t ops = Some t' -> watched_ok t'.
Proof.
  revert t. induction ops as [|o ops IH]; intros t Ht; cbn [watch_all]; [by intros [= <-]|].
  destruct (watch t o) as [t1|] eqn:E; [|done]. cbn. apply IH. by eapply watch_ok.
Qed.

Definition watch_new (budget : Z) (d : Disk) : Watched := {| wt_w := writer_new budget d; wt_latest := ∅; wt_log := [] |}.

Lemma writer_new_ok budget d : writer_ok (writer_new budget d).
Proof.
  split; cbn.
  - unfold pending_bytes. by rewrite msum_empty.
  - right. rewrite map_size_empty. lia.
  - intros k p. by rewrite lookup_empty.
  - intros k1 p1 k2 p2. by rewrite lookup_empty.
  - intros c. unfold answered. cbn. rewrite no_job, lookup_empty. split; [|lia].
    intros [[r H]|[(k & p & H & _)|[]]]; [done|by rewrite lookup_empty in H].
Qed.
Lemma watch_all_writer ops t t' : writer_ok (wt_w t) -> w_budget (wt_w t) < 2 ^ 64 -> Forall op_small ops -> watch_all t ops = Some t' ->
  writer_ok (wt_w t') /\ w_budget (wt_w t') = w_budget (wt_w t).
Proof.
  revert t. induction ops as [|o ops IH]; intros t Hw Hb Hs; cbn [watch_all]; [by intros [= <-]|].
  apply Forall_cons in Hs as [Ho Hs]. destruct (watch t o) as [t1|] eqn:E; [|done]. cbn. intros H.
  unfold watch in E. destruct (writer_step write_ (wt_w t) o) as [w1|] eqn:Ew; [|done]. cbn in E. injection E as E.
  destruct (writer_step_ok write_ _ _ _ Hw Hb Ho Ew) as [H1 H2]. assert (Et : wt_w t1 = w1) by (by rewrite <- E).
  rewrite <- H2, <- Et. apply IH; [by rewrite Et|by rewrite Et, H2|done|done].
Qed.

(** C19: however callers and the writer's thread interleave, once the writer is idle, which is
    what [flush] waits for, the last write made under a name was of the last snapshot queued
    under it and not discarded since: no newer snapshot is lost behind an older one. *)
Theorem flush_has_written_latest budget d ops t name s : watch_all (watch_new budget d) ops = Some t ->
  idle (wt_w t) = true -> wt_latest t !! name = Some s -> last_of name (wt_log t) = Some s.
Proof.
  intros H Hi Hs. assert (Ht : watched_ok t).
  { eapply watch_all_ok; [|exact H]. intros k s' Hk. cbn in Hk. by rewrite lookup_empty in Hk. }
  specialize (Ht name s Hs). unfold held in Ht. destruct (idle_empty _ Hi) as [Hp Hj]. by rewrite Hp, lookup_empty, Hj in Ht.
Qed.

(** C38: in every reachable state the queued bytes are exactly what is pending, within the budget
    unless a single snapshot is pending, and the thread alone, taking at most three steps for
    each pending snapshot, brings the writer to rest with every caller of [save] answered. *)
Theorem writer_always_drains budget d ops t : watch_all (watch_new budget d) ops = Some t -> budget < 2 ^ 64 -> Forall op_small ops ->
  w_bytes (wt_w t) = pending_bytes (w_pending (wt_w t)) /\
  (w_bytes (wt_w t) <= budget \/ (size (w_pending (wt_w t)) <= 1)%nat) /\
  let w' := drain write_ (3 * size (w_pending (wt_w t)) + 2) (wt_w t) in
  idle w' = true /\ forall c, (c < w_issued (wt_w t))%nat -> is_Some (w_done w' !! c).
Proof.
  intros H Hb Hs. destruct (watch_all_writer _ (watch_new budget d) _ (writer_new_ok budget d) Hb Hs H) as [Hw Hbud]. cbn in Hbud.
  split_and!; [apply Hw|rewrite <- Hbud; apply Hw|]. cbv zeta.
  assert (Hi : idle (drain write_ (3 * size (w_pending (wt_w t)) + 2) (wt_w t)) = true).
  { apply drain_idle. unfold work. destruct (w_job (wt_w t)) as [j|]; [destruct (j_result j); lia|lia]. }
  split; [done|]. intros c Hc. destruct (drain_ok write_ (3 * size (w_pending (wt_w t)) + 2) (wt_w t) Hw) as [H1 H2].
  apply idle_answered; [done|done|by rewrite H2].
Qed.
End Watched.

(** ** Two snapshots of one chat, the second queued while the first is being written *)

Definition tiny_later : ParkedContext := {| pc_tokens := [7; 8; 9; 10]; pc_kv := pc_kv tiny_parked |}.
Definition disk_write (n : nat) (p : ParkedContext) (name : string) (d : Disk) : Result unit * Disk :=
  save_parked_context (fine_env (Z.of_nat n)) p tiny_disk name d.
Definition two_saves : list WOp :=
  [WQueue "chat" tiny_parked true; WThread; WQueue "chat" tiny_later true; WThread; WThread; WThread; WThread; WThread].
Definition watched_end : Watched := default (watch_new 0 ∅) (watch_all disk_write (watch_new 1024 ∅) two_saves).
Lemma two_saves_run : watch_all disk_write (watch_new 1024 ∅) two_saves = Some watched_end.
Proof.
  assert (H : bool_decide (is_Some (watch_all disk_write (watch_new 1024 ∅) two_saves)) = true) by by vm_compute.
  apply bool_decide_eq_true_1 in H as [t E]. unfold watched_end. by rewrite E.
Qed.
Lemma flush_has_written_latest_witness : last_of "chat" (wt_log watched_end) = Some tiny_later.
Proof. apply (flush_has_written_latest disk_write 1024 ∅ two_saves); [apply two_saves_run|by vm_compute|by vm_compute]. Defined.
Lemma writer_always_drains_witness : exists t, watch_all disk_write (watch_new 1024 ∅) (take 3 two_saves) = Some t /\
  size (w_pending (wt_w t)) = 1%nat /\ idle (drain disk_write (3 * size (w_pending (wt_w t)) + 2) (wt_w t)) = true.
Proof.
  destruct (watch_all disk_write (watch_new 1024 ∅) (take 3 two_saves)) as [t|] eqn:E.
  - exists t. split; [done|]. split.
    + assert (H : (fun o => match o with Some t => size (w_pending (wt_w t)) | None => O end) (watch_all disk_write (watch_new 1024 ∅) (take 3 two_saves)) = 1%nat)
        by by vm_compute. by rewrite E in H.
    + apply (writer_always_drains disk_write 1024 ∅ (take 3 two_saves)); [exact E|done|]. repeat constructor; by vm_compute.
  - exfalso. assert (H : bool_decide (is_Some (watch_all disk_write (watch_new 1024 ∅) (take 3 two_saves))) = true) by by vm_compute.
    by rewrite E in H.
Defined.
