(* ===== verification/SessionPool.v ===== *)
(** Named sessions over one engine ([SessionPool] of [src/runtime/session.cpp]): one is live in
    the engine, the others are parked in memory or, past the pool's limits, on disk only.

    The engine is an interface: what the pool needs of it is the length of its context and the
    operations that empty it, pack it and put a packed one back.  The pool's calls come from one
    thread; between two of them the writer's thread may have made any number of steps. *)

From S2P Require Import Prelude Types KvStore SessionDisk SessionWriter.

(** ** The engine *)

(** What a restore reports: how many positions it replayed, and whether it was refused. *)
Record ReplayStats := { rp_keep : Z; rp_first : Z; rp_end : Z; rp_dropped : Z; rp_cold_fallback : bool }.
Definition ReplayStats_default : ReplayStats := {| rp_keep := 0; rp_first := 0; rp_end := 0; rp_dropped := 0; rp_cold_fallback := false |}.
Definition rp_steps (st : ReplayStats) : Z := if rp_first st <? rp_end st then rp_end st - rp_first st else 0.

Class ContextEngine (E : Type) := {
  context_length : E -> Z;
  reset_context : E -> E;
  park_context : E -> Result ParkedContext;
  restore_context : ParkedContext -> E -> Result ReplayStats * E }.

(** What the pool may count on: of the engines that are [sound], what one packs fits the file
    format, and restoring it into another, when it is not refused, gives the same conversation. *)
Class ContextEngineLaws (E : Type) `{!ContextEngine E} := {
  sound : E -> Prop;
  same_conversation : E -> E -> Prop;
  parked_fits : forall e s, sound e -> park_context e = Ret s -> parked_ok s;
  restored_same : forall e1 e2 s st e', sound e1 -> sound e2 -> park_context e1 = Ret s ->
    restore_context s e2 = (Ret st, e') -> same_conversation e1 e' }.

Section Pool.
Context {E : Type} `{!ContextEngine E}.

(** A restore that is refused leaves an empty context; it never fails. *)
Definition restore_or_cold (restore : E -> Result ReplayStats * E) (cold : E -> E) (e : E) : ReplayStats * E :=
  match restore e with
  | (Ret st, e) => (st, e)
  | (Fail _, e) => ({| rp_keep := 0; rp_first := 0; rp_end := 0; rp_dropped := 0; rp_cold_fallback := true |}, cold e)
  end.

(** ** State *)

Record SessionPoolOptions := { po_max_parked : Z; po_max_parked_bytes : Z; po_disk : KvDiskOptions }.
Record Pool := {
  sp_engine : E; sp_active : string; sp_parked : gmap string ParkedContext; sp_lru : list string; sp_evicted : Z;
  sp_writer : Writer }.
#[export] Instance Pool_eta : Eta Pool := fun p =>
  {| sp_engine := sp_engine p; sp_active := sp_active p; sp_parked := sp_parked p; sp_lru := sp_lru p; sp_evicted := sp_evicted p;
     sp_writer := sp_writer p |}.

Context (opt : SessionPoolOptions).
(** The writer's effect on the disk, and which files the system lets go. *)
Context (write_ : nat -> ParkedContext -> string -> Disk -> Result unit * Disk).
Context (removable : string -> bool).

Definition has_disk : bool := negb (bool_decide (od_dir (po_disk opt) = EmptyString)).

Definition pool_new (e : E) (budget : Z) (d : Disk) : Pool :=
  {| sp_engine := e; sp_active := "default"; sp_parked := ∅; sp_lru := []; sp_evicted := 0; sp_writer := writer_new budget d |}.

(** ** The writer from the caller's side *)

(** The thread runs until the caller's condition holds. *)
Fixpoint run_until (fuel : nat) (ok : Writer -> bool) (w : Writer) : Writer :=
  match fuel with
  | O => w
  | S fuel => if ok w then w else match thread_step write_ w with Some w' => run_until fuel ok w' | None => w end
  end.
(** Enough for the thread to come to rest. *)
Definition rest_fuel (w : Writer) : nat := 3 * size (w_pending w) + 3.
Definition await (ok : Writer -> bool) (w : Writer) : Writer := run_until (rest_fuel w) ok w.

Definition enqueue (name : string) (s : ParkedContext) (w : Writer) : Writer :=
  queue_now name s false (await (fun w => has_space w name (parked_bytes s)) (note_backpressure name s w)).
(** [save] returns when the write of its snapshot is done. *)
Definition save (name : string) (s : ParkedContext) (w : Writer) : Result unit * Writer :=
  let w := await (fun w => has_space w name (parked_bytes s)) (note_backpressure name s w) in
  let id := w_issued w in
  let w := queue_now name s true w in
  let w := await (fun w => bool_decide (is_Some (w_done w !! id))) w in
  (match w_done w !! id with Some r => r | None => Fail Internal end, w).
Definition flush (w : Writer) : Writer := await idle w.
Definition discard_wait (name : string) (w : Writer) : Writer := await (not_writing name) (discard name w).

Definition on_disk {A} (f : Disk -> A * Disk) (w : Writer) : A * Writer :=
  let '(a, d) := f (w_disk w) in (a, w <| w_disk := d |>).

(** ** Operations *)

Definition lru_remove (name : string) (l : list string) : list string := filter (fun n => n <> name) l.
Definition lru_touch (name : string) (l : list string) : list string := name :: lru_remove name l.
Definition park_as (name : string) (s : ParkedContext) (p : Pool) : Pool :=
  p <| sp_parked ::= <[name := s]> |> <| sp_lru ::= lru_touch name |>.
Definition unpark (name : string) (p : Pool) : Pool :=
  p <| sp_parked ::= delete name |> <| sp_lru ::= lru_remove name |>.

Definition total_parked (p : Pool) : Z := u64 (msum parked_bytes (sp_parked p)).
Definition over_budget (p : Pool) : bool :=
  negb (Nat.eqb (length (sp_lru p)) 0) &&
  ((po_max_parked opt <? Z.of_nat (size (sp_parked p))) || (po_max_parked_bytes opt <? total_parked p)).

(** One round of the loop drops the least recently used session. *)
Fixpoint enforce_budget (fuel : nat) (p : Pool) : Result unit * Pool :=
  match fuel with
  | O => (Ret tt, p)
  | S fuel =>
      if over_budget p then
        match last (sp_lru p) with
        | None => (Ret tt, p)
        | Some victim =>
            let '(r, w) := if has_disk
                           then match sp_parked p !! victim with
                                | Some s => save victim s (sp_writer p)
                                | None => (Fail Internal, sp_writer p)
                                end
                           else (Ret tt, sp_writer p) in
            let p := p <| sp_writer := w |> in
            match r with
            | Fail e => (Fail e, p)
            | Ret _ =>
                enforce_budget fuel (p <| sp_lru ::= fun l => take (length l - 1) l |> <| sp_parked ::= delete victim |>
                                       <| sp_evicted ::= fun n => u32 (n + 1) |>)
            end
        end
      else (Ret tt, p)
  end.
(** Every round shortens the list. *)
Definition enforce (p : Pool) : Result unit * Pool := enforce_budget (S (length (sp_lru p))) p.

(** The live context moves into the pool; an empty one is forgotten. *)
Definition park_live (p : Pool) : Result Pool :=
  if 0 <? context_length (sp_engine p) then
    s ← park_context (sp_engine p);
    let p := park_as (sp_active p) s p in
    Ret (if has_disk then p <| sp_writer ::= enqueue (sp_active p) s |> else p)
  else Ret p.

(** A parked copy, or the one on disk. *)
Definition find_parked (name : string) (exact : bool) (p : Pool) : Pool :=
  match sp_parked p !! name with
  | Some _ => p
  | None =>
      if negb exact && has_disk then
        let w := flush (sp_writer p) in
        let p := p <| sp_writer := w |> in
        match load_parked_context (po_disk opt) name (w_disk w) with
        | Ret s => park_as name s p
        | Fail _ => p
        end
      else p
  end.

Definition install (name : string) (p : Pool) : ReplayStats * Pool :=
  match sp_parked p !! name with
  | None => (ReplayStats_default, p <| sp_engine ::= reset_context |>)
  | Some s =>
      let '(st, e) := restore_or_cold (restore_context s) reset_context (sp_engine p) in
      let p := unpark name (p <| sp_engine := e |>) in
      if rp_cold_fallback st then
        let w := if has_disk then discard_wait name (sp_writer p) else sp_writer p in
        let '(_, w) := on_disk (drop_parked_context removable (po_disk opt) name) w in
        (st, p <| sp_writer := w |>)
      else (st, p)
  end.

Definition activate (name : string) (exact : bool) (p : Pool) : Result ReplayStats * Pool :=
  if bool_decide (name = sp_active p) then (Ret ReplayStats_default, p)
  else match park_live p with
       | Fail e => (Fail e, p)
       | Ret p =>
           let p := if exact then unpark name p else p in
           let '(st, p) := install name (find_parked name exact p) in
           let '(r, p) := enforce (p <| sp_active := name |>) in
           (match r with Ret _ => Ret st | Fail e => Fail e end, p)
       end.

Definition park_active (p : Pool) : Result unit * Pool :=
  if context_length (sp_engine p) =? 0 then (Ret tt, p)
  else match park_context (sp_engine p) with
       | Fail e => (Fail e, p)
       | Ret s =>
           let p := park_as (sp_active p) s p in
           if has_disk then let '(r, w) := save (sp_active p) s (sp_writer p) in (r, p <| sp_writer := w |>) else (Ret tt, p)
       end.

Definition checkpoint_active (p : Pool) : Result unit * Pool :=
  if negb has_disk || (context_length (sp_engine p) =? 0) then (Ret tt, p)
  else match park_context (sp_engine p) with
       | Fail e => (Fail e, p)
       | Ret s => (Ret tt, p <| sp_writer ::= enqueue (sp_active p) s |>)
       end.

Definition flush_disk (p : Pool) : Pool := if has_disk then p <| sp_writer ::= flush |> else p.

Definition restore_active_from_disk (p : Pool) : Result ReplayStats * Pool :=
  if negb has_disk then (Fail InvalidArgument, p)
  else if 0 <? context_length (sp_engine p) then (Ret ReplayStats_default, p)
  else
    let w := flush (sp_writer p) in
    let p := p <| sp_writer := w |> in
    let drop_copy (p : Pool) := p <| sp_writer := (on_disk (drop_parked_context removable (po_disk opt) (sp_active p)) (sp_writer p)).2 |> in
    let cold := {| rp_keep := 0; rp_first := 0; rp_end := 0; rp_dropped := 0; rp_cold_fallback := true |} in
    match load_parked_context (po_disk opt) (sp_active p) (w_disk w) with
    | Fail NotFound => (Fail NotFound, p)
    | Fail _ => (Ret cold, drop_copy (p <| sp_engine ::= reset_context |>))
    | Ret s =>
        let '(st, e) := restore_or_cold (restore_context s) reset_context (sp_engine p) in
        let p := p <| sp_engine := e |> in
        (Ret st, if rp_cold_fallback st then drop_copy p else p)
    end.

Definition drop (name : string) (p : Pool) : bool * Pool :=
  let p := if has_disk then p <| sp_writer ::= discard_wait name |> else p in
  let drop_copy (p : Pool) := p <| sp_writer := (on_disk (drop_parked_context removable (po_disk opt) name) (sp_writer p)).2 |> in
  if bool_decide (name = sp_active p) then (true, drop_copy (p <| sp_engine ::= reset_context |>))
  else match sp_parked p !! name with
       | Some _ => (true, drop_copy (unpark name p))
       | None => (false, p <| sp_lru ::= lru_remove name |>)
       end.

Definition reset_live (p : Pool) : Pool := p <| sp_engine ::= reset_context |>.

Definition list_sessions (p : Pool) : list (string * Z * Z * bool) :=
  (sp_active p, context_length (sp_engine p), 0, true) ::
  flat_map (fun n => match sp_parked p !! n with
                     | Some s => [(n, u32 (len_Z (pc_tokens s)), parked_bytes s, false)]
                     | None => []
                     end) (sp_lru p).

(** The engine changes on its own between calls (turns run on it). *)
Inductive PoolOp :=
| PActivate (name : string) (exact : bool)
| PPark
| PCheckpoint
| PFlush
| PRestoreFromDisk
| PDrop (name : string)
| PReset
| PTurn (e : E)
| PThread.
Definition pool_step (p : Pool) (o : PoolOp) : Pool :=
  match o with
  | PActivate name exact => (activate name exact p).2
  | PPark => (park_active p).2
  | PCheckpoint => (checkpoint_active p).2
  | PFlush => flush_disk p
  | PRestoreFromDisk => (restore_active_from_disk p).2
  | PDrop name => (drop name p).2
  | PReset => reset_live p
  | PTurn e => p <| sp_engine := e |>
  | PThread => match thread_step write_ (sp_writer p) with Some w => p <| sp_writer := w |> | None => p end
  end.
End Pool.
Arguments Pool : clear implicits.
Arguments PoolOp : clear implicits.
