(* ===== verification/SessionPoolProps.v ===== *)
(** Properties of the session pool: its list of parked sessions, its limits, and that switching
    back to a session restores exactly the context it was left with, from memory or from disk. *)

From Stdlib Require Import Ascii.
From S2P Require Import Prelude Types Json KvStore SessionDisk SessionWriter SessionWriterProps SessionPool.

(** ** The writer seen from a caller *)

Section Caller.
Context (write_ : nat -> ParkedContext -> string -> Disk -> Result unit * Disk).

Lemma run_until_inv (P : Writer -> Prop) fuel ok w : (forall w w', P w -> ok w = false -> thread_step write_ w = Some w' -> P w') -> P w ->
  P (run_until write_ fuel ok w).
Proof.
  intros Hs. revert w. induction fuel as [|fuel IH]; intros w Hw; cbn [run_until]; [done|].
  destruct (ok w) eqn:Eo; [done|]. destruct (thread_step write_ w) as [w'|] eqn:E; [|done]. apply IH. by eapply Hs.
Qed.
Lemma run_until_ends (P : Writer -> Prop) fuel ok w : (forall w w', P w -> thread_step write_ w = Some w' -> P w') ->
  (forall w, P w -> idle w = true -> ok w = true) -> P w -> (work w < fuel)%nat -> ok (run_until write_ fuel ok w) = true.
Proof.
  intros Hs Hok. revert w. induction fuel as [|fuel IH]; intros w Hw Hf; [lia|]. cbn [run_until].
  destruct (ok w) eqn:Eo; [done|]. pose proof (thread_progress write_ w) as Hp.
  destruct (thread_step write_ w) as [w'|] eqn:E; [|by rewrite (Hok w Hw Hp) in Eo]. apply IH; [by eapply Hs|lia].
Qed.
Lemma work_rest w : (work w < rest_fuel w)%nat.
Proof. unfold work, rest_fuel. destruct (w_job w) as [j|]; [destruct (j_result j); lia|lia]. Qed.

(** Waiting ends, and the writer is well-formed when it does. *)
Lemma await_ok ok w : writer_ok w -> (forall w, writer_ok w -> idle w = true -> ok w = true) ->
  writer_ok (await write_ ok w) /\ ok (await write_ ok w) = true.
Proof.
  intros Hw Hok. split.
  - apply (run_until_inv writer_ok); [|done]. intros w1 w2 H1 _ H2. by eapply thread_ok.
  - apply (run_until_ends writer_ok); [|exact Hok|exact Hw|apply work_rest]. intros w1 w2 H1 H2. by eapply thread_ok.
Qed.
Lemma await_budget ok w : w_budget (await write_ ok w) = w_budget w.
Proof.
  apply (run_until_inv (fun w' => w_budget w' = w_budget w)); [|done]. intros w1 w2 H1 _ H2. by rewrite (thread_budget _ _ _ H2).
Qed.
Lemma idle_space name s w : writer_ok w -> idle w = true -> has_space w name s = true.
Proof.
  intros Hw [Hp _]%idle_empty. unfold has_space. rewrite (without_name w name Hw), Hp, delete_empty.
  unfold pending_bytes. by rewrite msum_empty.
Qed.
Lemma note_ok name s w : writer_ok w -> writer_ok (note_backpressure name s w).
Proof. intros Hw. unfold note_backpressure. destruct (has_space _ _ _); [done|]. by eapply same_queue_ok. Qed.

Definition wok (w : Writer) : Prop := writer_ok w /\ w_budget w < 2 ^ 64.
Lemma wok_await ok w : wok w -> (forall w, writer_ok w -> idle w = true -> ok w = true) -> wok (await write_ ok w) /\ ok (await write_ ok w) = true.
Proof.
  intros [H1 H2] Hok. destruct (await_ok ok w H1 Hok) as [H3 H4]. split; [|done]. split; [done|]. by rewrite await_budget.
Qed.
Lemma wok_space name s w : wok w -> let w' := await write_ (fun w => has_space w name (parked_bytes s)) (note_backpressure name s w) in
  wok w' /\ has_space w' name (parked_bytes s) = true.
Proof.
  intros [H1 H2]. apply (wok_await (fun w => has_space w name (parked_bytes s))).
  - split; [by apply note_ok|]. unfold note_backpressure. by destruct (has_space _ _ _).
  - intros. by apply idle_space.
Qed.
Lemma wok_queue name s wait w : wok w -> parked_bytes s < 2 ^ 64 -> has_space w name (parked_bytes s) = true -> wok (queue_now name s wait w).
Proof. intros [H1 H2] Hs Hsp. split; [by apply queue_now_ok|done]. Qed.
Lemma wok_enqueue name s w : wok w -> parked_bytes s < 2 ^ 64 -> wok (enqueue write_ name s w).
Proof. intros Hw Hs. destruct (wok_space name s w Hw). by apply wok_queue. Qed.
Lemma idle_done c w : writer_ok w -> idle w = true -> (c < w_issued w)%nat -> bool_decide (is_Some (w_done w !! c)) = true.
Proof. intros Hw Hi Hc. by apply bool_decide_eq_true_2, idle_answered. Qed.

Lemma thread_issued w w' : thread_step write_ w = Some w' -> w_issued w' = w_issued w.
Proof.
  unfold thread_step, finish_job, write_job, take_next. destruct (w_job w) as [j|].
  - destruct (j_result j); [by intros [= <-]|]. destruct (write_ _ _ _ _). by intros [= <-].
  - destruct (oldest _) as [[name p]|]; [by intros [= <-]|done].
Qed.

(** [save] always returns, with the writer well-formed. *)
Lemma wok_save name s w : wok w -> parked_bytes s < 2 ^ 64 -> wok (save write_ name s w).2 /\
  exists r, w_done (save write_ name s w).2 !! w_issued (await write_ (fun w => has_space w name (parked_bytes s)) (note_backpressure name s w)) = Some r /\
    (save write_ name s w).1 = r.
Proof.
  intros Hw Hs. destruct (wok_space name s w Hw) as [H1 H2]. unfold save. cbn [fst snd].
  set (w1 := await write_ _ (note_backpressure name s w)) in *. pose proof (wok_queue name s true w1 H1 Hs H2) as [H3 H4].
  set (id := w_issued w1). set (w2 := queue_now name s true w1) in *. set (ok := fun w => bool_decide (is_Some (w_done w !! id))).
  set (P := fun w' => writer_ok w' /\ w_issued w' = w_issued w2).
  assert (Hst : forall a b, P a -> thread_step write_ a = Some b -> P b).
  { intros a b [Ha Hi] Hb. split; [by eapply thread_ok|]. by rewrite (thread_issued _ _ Hb). }
  assert (Hend : ok (await write_ ok w2) = true).
  { apply (run_until_ends P); [done| |done|apply work_rest]. intros a [Ha Hi] Hidle. apply idle_done; [done|done|].
    assert (Eid : w_issued w2 = S id) by done. lia. }
  assert (Hfin : P (await write_ ok w2)) by (apply (run_until_inv P); [intros a b Ha _ Hb; by eapply Hst|done]).
  split; [split; [apply Hfin|by rewrite await_budget]|]. unfold ok in Hend at 1. apply bool_decide_eq_true_1 in Hend as [r Hr].
  exists r. fold ok. rewrite Hr. done.
Qed.

(** ** What the writer does to one name *)

(** Nothing of the name is in the writer's hands. *)
Definition settled (n : string) (w : Writer) : Prop := w_pending w !! n = None /\ not_writing n w = true.

(** A property of a name's file that writes under other names keep. *)
Context (n : string) (Q : Disk -> Prop).
Context (Hwrite : forall i s m d, m <> n -> Q d -> Q (write_ i s m d).2).

Lemma settled_step w w' : settled n w -> Q (w_disk w) -> thread_step write_ w = Some w' -> settled n w' /\ Q (w_disk w').
Proof.
  intros [Hp Hn] HQ. unfold thread_step, finish_job, write_job, take_next, settled, not_writing in *.
  destruct (w_job w) as [j|].
  - apply negb_true_iff, bool_decide_eq_false_1 in Hn. destruct (j_result j); [by intros [= <-]|].
    pose proof (Hwrite (w_writes w) (j_snapshot j) (j_name j) (w_disk w) Hn HQ) as HQ'.
    destruct (write_ _ _ _ _) as [r d]. intros [= <-]. cbn in *. rewrite bool_decide_false by done. done.
  - pose proof (oldest_spec (w_pending w)) as Ho. destruct (oldest (w_pending w)) as [[k p]|]; [|done]. intros [= <-]. cbn.
    assert (k <> n) by (intros ->; by rewrite Hp in Ho). rewrite bool_decide_false by done. split; [|done]. split; [|done].
    by rewrite lookup_delete_ne.
Qed.
Lemma settled_await ok w : settled n w -> Q (w_disk w) -> settled n (await write_ ok w) /\ Q (w_disk (await write_ ok w)).
Proof.
  intros H1 H2. apply (run_until_inv (fun w => settled n w /\ Q (w_disk w))); [|done].
  intros w1 w2 [? ?] _ ?. by eapply settled_step.
Qed.
Lemma settled_note m s w : settled n w -> Q (w_disk w) -> settled n (note_backpressure m s w) /\ Q (w_disk (note_backpressure m s w)).
Proof. unfold note_backpressure. by destruct (has_space w m (parked_bytes s)). Qed.
Lemma settled_queue m s wait w : m <> n -> settled n w -> Q (w_disk w) ->
  settled n (queue_now m s wait w) /\ Q (w_disk (queue_now m s wait w)).
Proof. intros Hm [H1 H2] HQ. split; [|done]. split; [|done]. cbn. by rewrite lookup_insert_ne. Qed.
Lemma settled_discard m w : settled n w -> Q (w_disk w) -> settled n (discard m w) /\ Q (w_disk (discard m w)).
Proof.
  intros [H1 H2] HQ. unfold discard. destruct (w_pending w !! m) eqn:E; [|done]. split; [|done]. split; [|done]. cbn.
  apply lookup_delete_None. by right.
Qed.
Lemma settled_enqueue m s w : m <> n -> settled n w -> Q (w_disk w) ->
  settled n (enqueue write_ m s w) /\ Q (w_disk (enqueue write_ m s w)).
Proof.
  intros Hm H1 H2. destruct (settled_note m s w H1 H2) as [H3 H4]. unfold enqueue.
  destruct (settled_await (fun w => has_space w m (parked_bytes s)) _ H3 H4). by apply settled_queue.
Qed.
Lemma settled_save m s w : m <> n -> settled n w -> Q (w_disk w) ->
  settled n (save write_ m s w).2 /\ Q (w_disk (save write_ m s w).2).
Proof.
  intros Hm H1 H2. destruct (settled_note m s w H1 H2) as [H3 H4]. unfold save. cbn [snd].
  destruct (settled_await (fun w => has_space w m (parked_bytes s)) _ H3 H4) as [H5 H6].
  destruct (settled_queue m s true _ Hm H5 H6). by apply settled_await.
Qed.

(** The writes of the name itself. *)
Context (s0 : ParkedContext).
Context (Hsaved : forall i d d', write_ i s0 n d = (Ret tt, d') -> Q d').

(** Where the snapshot that [save] waits for is. *)
Definition saving (id : nat) (w : Writer) : Prop :=
  (forall k p, k <> n -> w_pending w !! k = Some p -> id ∉ ps_completions p) /\
  match w_pending w !! n, w_job w with
  | Some p, job => ps_snapshot p = s0 /\ id ∈ ps_completions p /\ w_done w !! id = None /\
                   (forall j, job = Some j -> id ∉ j_completions j)
  | None, Some j =>
      j_name j = n /\ id ∈ j_completions j /\ w_done w !! id = None /\
      match j_result j with None => j_snapshot j = s0 | Some r => r = Ret tt -> Q (w_disk w) end
  | None, None => exists r, w_done w !! id = Some r /\ (r = Ret tt -> Q (w_disk w))
  end.
Lemma saving_step id w w' : saving id w -> w_done w !! id = None -> thread_step write_ w = Some w' -> saving id w'.
Proof.
  unfold saving, thread_step, finish_job, write_job, take_next. intros [Hoth H] Hd.
  destruct (w_job w) as [j|] eqn:Ej.
  - destruct (j_result j) as [r|] eqn:Er.
    + intros [= <-]. cbn. split; [done|]. destruct (w_pending w !! n) as [p|].
      * destruct H as (H1 & H2 & _ & H4). split_and!; [done|done| |done]. rewrite complete_lookup, bool_decide_false; [done|exact (H4 j eq_refl)].
      * destruct H as (H1 & H2 & _ & H4). exists r. by rewrite complete_lookup, bool_decide_true.
    + destruct (write_ (w_writes w) (j_snapshot j) (j_name j) (w_disk w)) as [r d] eqn:Ew. intros [= <-]. cbn. split; [done|].
      destruct (w_pending w !! n) as [p|].
      * destruct H as (H1 & H2 & H3 & H4). split_and!; [done..|]. intros j' [= <-]. exact (H4 j eq_refl).
      * destruct H as (H1 & H2 & H3 & H4). split_and!; [done..|]. intros ->. rewrite H1, H4 in Ew. by eapply Hsaved.
  - pose proof (oldest_spec (w_pending w)) as Ho. destruct (oldest (w_pending w)) as [[k p]|]; [|done]. intros [= <-]. cbn.
    split; [intros k' p' Hk' [_ Hp']%lookup_delete_Some; by eapply Hoth|]. destruct (decide (k = n)) as [->|Hne].
    + rewrite lookup_delete_eq. rewrite Ho in H. destruct H as (H1 & H2 & H3 & _). by split_and!.
    + rewrite lookup_delete_ne by done. destruct (w_pending w !! n) as [q|].
      * destruct H as (H1 & H2 & H3 & _). split_and!; [done..|]. intros j [= <-]. cbn. by eapply Hoth.
      * destruct H as (r & Hr & _). by rewrite Hd in Hr.
Qed.

(** A [save] that reports success has settled the name with its snapshot on disk. *)
Lemma save_settles w w' : wok w -> parked_bytes s0 < 2 ^ 64 -> save write_ n s0 w = (Ret tt, w') -> settled n w' /\ Q (w_disk w').
Proof.
  intros Hw Hs Hsv. destruct (wok_space n s0 w Hw) as [[H1 _] H2]. destruct (wok_save n s0 w Hw Hs) as (_ & r & Hr & Er).
  assert (Ew : w' = (save write_ n s0 w).2) by (by rewrite Hsv). rewrite Hsv in Er. cbn [fst] in Er. subst r.
  rewrite Ew. clear Ew Hsv. unfold save in *. cbn [fst snd] in *.
  set (w1 := await write_ _ (note_backpressure n s0 w)) in *. set (w2 := queue_now n s0 true w1) in *. set (id := w_issued w1) in *.
  set (ok := fun w => bool_decide (is_Some (w_done w !! id))) in *.
  assert (Hfresh : forall c, answered w1 c -> c <> id) by (intros c Hc; apply (wo_waiting w1 H1) in Hc; unfold id; lia).
  assert (Hstart : saving id w2).
  { unfold saving, w2, queue_now. cbn. rewrite lookup_insert_eq. split; [|split_and!].
    - intros k p Hk. rewrite lookup_insert_ne by done. intros Hp Hin. apply (Hfresh id); [|done]. right. left. by exists k, p.
    - done.
    - cbn. apply elem_of_app. right. by left.
    - destruct (w_done w1 !! id) eqn:E; [|done]. exfalso. apply (Hfresh id); [|done]. left. by eexists.
    - intros j Hj Hin. apply (Hfresh id); [|done]. right. right. by exists j. }
  assert (Hend : saving id (await write_ ok w2)).
  { apply (run_until_inv (saving id)); [|done]. intros a b Ha Hoa Hb. eapply saving_step; [done| |done].
    apply bool_decide_eq_false_1 in Hoa. by destruct (w_done a !! id); [destruct Hoa; eexists|]. }
  destruct Hend as [_ Hend]. unfold settled, not_writing.
  destruct (w_pending (await write_ ok w2) !! n) as [p|].
  - destruct Hend as (_ & _ & H & _). by rewrite Hr in H.
  - destruct (w_job (await write_ ok w2)) as [j|].
    + destruct Hend as (_ & _ & H & _). by rewrite Hr in H.
    + destruct Hend as (r & H & HQ). rewrite Hr in H. injection H as <-. split; [done|]. by apply HQ.
Qed.

Lemma settled_discard_wait m w : settled n w -> Q (w_disk w) -> settled n (discard_wait write_ m w) /\ Q (w_disk (discard_wait write_ m w)).
Proof. intros H1 H2. destruct (settled_discard m w H1 H2). by apply settled_await. Qed.
End Caller.

(** ** Sizes *)

Lemma vec_bytes w v : vec_ok w v -> len_Z v * Z.of_nat w <= 2 ^ 34.
Proof. by intros [_ H]. Qed.
Lemma parked_small s : parked_ok s -> parked_bytes s < 2 ^ 64.
Proof.
  intros [(_ & T) _ (P & L)]. unfold parked_bytes, packed_size.
  assert (H : forall ps, Forall plane_ok ps -> sum_Z (plane_packed_bytes <$> ps) <= len_Z ps * (9 * 2 ^ 34)); [|specialize (H _ P); lia].
  induction 1 as [|p ps [_ (F1 & F2 & F3 & F4) (R1 & R2 & R3) (C1 & C2)] _ IH]; [done|].
  apply vec_bytes in F1, F2, F3, F4, R1, R2, R3, C1, C2. cbn [fmap list_fmap]. unfold sum_Z in *. cbn [foldr].
  unfold plane_packed_bytes at 1. unfold len_Z in *. cbn [length]. lia.
Qed.

(** ** One session's way through the pool *)

Section Comes_back.
Context {E : Type} `{!ContextEngine E, !ContextEngineLaws E} (opt : SessionPoolOptions) (env : nat -> SaveEnv) (removable : string -> bool).
Context (Hdir : od_dir (po_disk opt) <> EmptyString) (Hmax : od_max_bytes (po_disk opt) = 0).
Context (n : string) (Hn : plain_name n = true).

Definition disk_writes (i : nat) (s : ParkedContext) (m : string) (d : Disk) : Result unit * Disk :=
  save_parked_context (env i) s (po_disk opt) m d.
Definition loads (s : ParkedContext) (d : Disk) : Prop := load_parked_context (po_disk opt) n d = Ret s.

Lemma other_path m : m <> n -> pkv_path (po_disk opt) m <> pkv_path (po_disk opt) n.
Proof. intros Hm H. apply Hm. apply path_join_inj in H. by apply plain_file. Qed.
Lemma tmp_path m : (pkv_path (po_disk opt) m +:+ ".tmp")%string <> pkv_path (po_disk opt) n.
Proof.
  intros H. apply (f_equal to_text) in H. rewrite to_text_cat in H.
  destruct (path_join_text (od_dir (po_disk opt)) (session_file_name n)) as (pre & Epre & _).
  destruct (file_name_shape n) as (l & El & _). unfold pkv_path in H at 2. rewrite Epre, El in H.
  apply (f_equal (last)) in H. rewrite app_assoc in H. change (to_text ".tmp") with ([ascii_of_N 46; ascii_of_N 116; ascii_of_N 109] ++ [ascii_of_N 112]) in H.
  change (to_text ".pkv") with ([ascii_of_N 46; ascii_of_N 112; ascii_of_N 107] ++ [ascii_of_N 118]) in H.
  rewrite !app_assoc, !last_snoc in H. by injection H.
Qed.
Lemma writes_others s i s' m d : m <> n -> loads s d -> loads s (disk_writes i s' m d).2.
Proof.
  intros Hm%other_path H. unfold loads, disk_writes, load_parked_context, save_parked_context in *.
  rewrite !bool_decide_false in * by done. pose proof (tmp_path m) as Ht.
  fold (pkv_path (po_disk opt) n) in *. fold (pkv_path (po_disk opt) m) in *.
  assert (Hdel : forall d : Disk, delete (pkv_path (po_disk opt) m +:+ ".tmp")%string d !! pkv_path (po_disk opt) n = d !! pkv_path (po_disk opt) n)
    by (intros; by apply lookup_delete_ne).
  assert (Hrm : (if sv_removable (env i) (pkv_path (po_disk opt) m) then delete (pkv_path (po_disk opt) m) d else d) !! pkv_path (po_disk opt) n =
    d !! pkv_path (po_disk opt) n) by (destruct (sv_removable _ _); [by apply lookup_delete_ne|done]).
  destruct (sv_mkdir (env i)); [|exact H]. destruct (sv_open (env i)); [|exact H]. cbn [negb].
  destruct (sv_write (env i)); cbn [negb snd]; [|by rewrite Hdel].
  destruct (sv_rename (env i)); cbn [negb snd]; [|by rewrite Hdel, Hrm].
  unfold enforce_disk_budget. rewrite Hmax. cbn [Z.eqb]. by rewrite lookup_insert_ne, Hdel, Hrm by done.
Qed.
Lemma writes_itself s i d d' : parked_ok s -> disk_writes i s n d = (Ret tt, d') -> loads s d'.
Proof. intros Hs H. eapply parked_loads; [done|exact H|by left]. Qed.
Lemma drops_others s m d : m <> n -> loads s d -> loads s (drop_parked_context removable (po_disk opt) m d).2.
Proof.
  intros Hm%other_path H. unfold loads, drop_parked_context, load_parked_context in *. rewrite !bool_decide_false in * by done.
  fold (pkv_path (po_disk opt) n) in *. fold (pkv_path (po_disk opt) m) in *.
  destruct (d !! pkv_path (po_disk opt) m); [|exact H]. destruct (removable _); [|exact H]. cbn [snd]. by rewrite lookup_delete_ne.
Qed.

(** Where the context [s] that [n] was left with is while another session is live. *)
Definition kept (s : ParkedContext) (p : Pool E) : Prop :=
  sp_parked p !! n = Some s \/
  (sp_parked p !! n = None /\ settled n (sp_writer p) /\ loads s (w_disk (sp_writer p))).
(** What every state of the pool satisfies. *)
Definition pool_ok (p : Pool E) : Prop := wok (sp_writer p) /\ forall k s, sp_parked p !! k = Some s -> parked_ok s.

Lemma has_disk_true : has_disk opt = true.
Proof. unfold has_disk. by rewrite bool_decide_false. Qed.

(** An operation on the writer under another name. *)
Lemma kept_writer s p w : kept s p -> (settled n (sp_writer p) -> loads s (w_disk (sp_writer p)) -> settled n w /\ loads s (w_disk w)) ->
  kept s (p <| sp_writer := w |>).
Proof. intros [H|(H1 & H2 & H3)] Hw; [by left|right]. destruct (Hw H2 H3). by split_and!. Qed.

Lemma wok_disk w d : wok w -> wok (w <| w_disk := d |>).
Proof. intros [H1 H2]. split; [by eapply same_queue_ok|done]. Qed.
Lemma wok_flush w : wok w -> wok (flush disk_writes w).
Proof. intros Hw. by apply wok_await. Qed.
Lemma wok_discard_wait m w : wok w -> wok (discard_wait disk_writes m w).
Proof.
  intros [H1 H2]. apply wok_await.
  - split; [by apply discard_ok|]. unfold discard. by destruct (w_pending w !! m).
  - intros w' _ [_ Hj]%idle_empty. unfold not_writing. by rewrite Hj.
Qed.

(** The pool apart from one session's parked context. *)
Definition ok_but (m : string) (p : Pool E) : Prop :=
  wok (sp_writer p) /\ forall k s, k <> m -> sp_parked p !! k = Some s -> parked_ok s.
Lemma ok_but_ok m p : pool_ok p -> ok_but m p.
Proof. intros [H1 H2]. split; [done|]. intros k s _. apply H2. Qed.

Lemma enforce_ok fuel p : pool_ok p ->
  let p' := (enforce_budget opt disk_writes fuel p).2 in pool_ok p' /\ sp_active p' = sp_active p /\ sp_engine p' = sp_engine p.
Proof.
  revert p. induction fuel as [|fuel IH]; intros p Hp; cbn [enforce_budget]; [done|].
  destruct (over_budget opt p); [|done]. destruct (last (sp_lru p)) as [v|]; [|done]. rewrite has_disk_true.
  destruct Hp as [Hw Hs]. destruct (sp_parked p !! v) as [sv|] eqn:Ev; [|done].
  destruct (wok_save disk_writes v sv (sp_writer p) Hw (parked_small _ (Hs v sv Ev))) as [Hw' _].
  destruct (save disk_writes v sv (sp_writer p)) as [[[]|e] w'].
  - match goal with |- context [enforce_budget opt disk_writes fuel ?q] => destruct (IH q) as (G1 & G2 & G3) end; [|done].
    split; [done|]. cbn. intros k s' [_ Hk']%lookup_delete_Some. by eapply Hs.
  - done.
Qed.
Lemma enforce_kept s fuel p : pool_ok p -> kept s p -> kept s (enforce_budget opt disk_writes fuel p).2.
Proof.
  revert p. induction fuel as [|fuel IH]; intros p Hp Hk; cbn [enforce_budget]; [done|].
  destruct (over_budget opt p); [|done]. destruct (last (sp_lru p)) as [v|]; [|done]. rewrite has_disk_true.
  destruct Hp as [Hw Hs]. destruct (sp_parked p !! v) as [sv|] eqn:Ev; [|done].
  pose proof (Hs v sv Ev) as Hsv. pose proof (parked_small _ Hsv) as Hsm.
  destruct (wok_save disk_writes v sv (sp_writer p) Hw Hsm) as [Hw' _].
  assert (Hpend : v = n -> sv = s) by (intros ->; destruct Hk as [Hk|(Hk & _)]; congruence).
  pose proof (settled_save disk_writes n (loads s) (writes_others s) v sv (sp_writer p)) as Hset.
  destruct (save disk_writes v sv (sp_writer p)) as [r w'] eqn:Esv. cbn [snd] in Hw', Hset. destruct r as [[]|e].
  - apply IH; [split; [done|]; cbn; intros k s' [_ Hk']%lookup_delete_Some; by eapply Hs|].
    unfold kept in *. cbn. destruct (decide (v = n)) as [->|Hv].
    + right. rewrite lookup_delete_eq. split; [done|]. rewrite (Hpend eq_refl) in *.
      apply (save_settles disk_writes n (loads s) s) with (w := sp_writer p); [|done|done|exact Esv]. intros i d d'. by apply writes_itself.
    + rewrite lookup_delete_ne by done. destruct Hk as [Hk|(Hk & H1 & H2)]; [by left|right]. destruct (Hset Hv H1 H2). by split_and!.
  - cbn [snd]. destruct Hk as [Hk|(Hk & H1 & H2)]; [by left|right].
    destruct (decide (v = n)) as [->|Hv]; [congruence|]. destruct (Hset Hv H1 H2). by split_and!.
Qed.

Lemma park_live_ok p p' : pool_ok p -> sound (sp_engine p) -> park_live opt disk_writes p = Ret p' -> pool_ok p' /\ sp_active p' = sp_active p /\ sp_engine p' = sp_engine p.
Proof.
  intros [Hw Hs] He. unfold park_live. destruct (0 <? _); [|by intros [= <-]]. rewrite has_disk_true.
  intros (s & Hp & [= <-])%bind_Ret. pose proof (parked_fits _ _ He Hp) as Hok. split; [|done]. split; cbn.
  - apply wok_enqueue; [done|by apply parked_small].
  - intros k s' [[<- <-]|[_ Hk]]%lookup_insert_Some; [done|by eapply Hs].
Qed.
Lemma park_live_kept s p p' : sp_active p <> n -> kept s p -> park_live opt disk_writes p = Ret p' -> kept s p'.
Proof.
  intros Ha Hk. unfold park_live. destruct (0 <? _); [|by intros [= <-]]. rewrite has_disk_true.
  intros (s' & Hp & [= <-])%bind_Ret. unfold kept in *. cbn. rewrite lookup_insert_ne by done.
  destruct Hk as [Hk|(Hk & H1 & H2)]; [by left|right]. split; [done|].
  by apply (settled_enqueue disk_writes n (loads s) (writes_others s)).
Qed.

Lemma find_kept s m exact p : m <> n -> kept s p -> kept s (find_parked opt disk_writes m exact p).
Proof.
  intros Hm Hk. unfold find_parked. destruct (sp_parked p !! m); [done|]. destruct (negb exact && has_disk opt); [|done].
  assert (Hf : kept s (p <| sp_writer := flush disk_writes (sp_writer p) |>)).
  { apply kept_writer; [done|]. intros H1 H2. by apply (settled_await disk_writes n (loads s) (writes_others s)). }
  destruct (load_parked_context _ _ _) as [s'|]; [|done]. unfold kept in *. cbn in *. by rewrite lookup_insert_ne.
Qed.
Lemma find_ok m exact p : pool_ok p -> ok_but m (find_parked opt disk_writes m exact p).
Proof.
  intros Hp. unfold find_parked. destruct (sp_parked p !! m); [by apply ok_but_ok|]. destruct (negb exact && has_disk opt); [|by apply ok_but_ok].
  destruct Hp as [Hw Hs]. destruct (load_parked_context _ _ _) as [s'|]; (split; [by apply wok_flush|]); cbn.
  - intros k s Hk. rewrite lookup_insert_ne by done. by apply Hs.
  - intros k s _. by apply Hs.
Qed.

Lemma install_ok m p : ok_but m p -> pool_ok (install opt disk_writes removable m p).2.
Proof.
  intros [Hw Hs]. unfold install. destruct (sp_parked p !! m) as [sm|] eqn:Em.
  - destruct (restore_or_cold _ _ _) as [st e]. rewrite has_disk_true. unfold on_disk.
    assert (Hpk : forall k s', delete m (sp_parked p) !! k = Some s' -> parked_ok s').
    { intros k s' [Hk1 Hk2]%lookup_delete_Some. by eapply Hs. }
    destruct (rp_cold_fallback st); [|by split]. destruct (drop_parked_context _ _ _ _) as [b d]. cbn [snd].
    split; [|exact Hpk]. by apply wok_disk, wok_discard_wait.
  - split; [done|]. cbn. intros k s' Hk'. apply (Hs k); [|done]. intros ->. by rewrite Em in Hk'.
Qed.
(** The writer drops another session's file. *)
Lemma dropped_ok m w : wok w -> wok (on_disk (drop_parked_context removable (po_disk opt) m) w).2.
Proof. intros Hw. unfold on_disk. destruct (drop_parked_context _ _ _ _) as [b d]. by apply wok_disk. Qed.
Lemma dropped s m w : m <> n -> settled n w -> loads s (w_disk w) -> let d := (on_disk (drop_parked_context removable (po_disk opt) m) w).2 in
  settled n d /\ loads s (w_disk d).
Proof.
  intros Hm H1 H2. unfold on_disk. destruct (drop_parked_context _ _ _ _) as [b d] eqn:Ed. cbn [snd].
  split; [exact H1|]. pose proof (drops_others s m _ Hm H2) as H3. by rewrite Ed in H3.
Qed.
(** A change that keeps the session's parked copy and does not touch its file. *)
Lemma away s p q : kept s p -> sp_parked q !! n = sp_parked p !! n ->
  (settled n (sp_writer p) -> loads s (w_disk (sp_writer p)) -> settled n (sp_writer q) /\ loads s (w_disk (sp_writer q))) -> kept s q.
Proof.
  intros Hk Hpn Hf. unfold kept in *. rewrite Hpn. destruct Hk as [Hk|(K1 & K2 & K3)]; [by left|right]. destruct (Hf K2 K3). by split_and!.
Qed.
Lemma install_kept s m p : m <> n -> kept s p -> kept s (install opt disk_writes removable m p).2.
Proof.
  intros Hm Hk. unfold install. destruct (sp_parked p !! m) as [sm|] eqn:Em; [|exact Hk].
  destruct (restore_or_cold _ _ _) as [st e]. rewrite has_disk_true. destruct (rp_cold_fallback st).
  - pose proof (dropped s m (discard_wait disk_writes m (sp_writer p)) Hm) as Hd.
    destruct (on_disk _ _) as [b d] eqn:Ed in |- *. change (on_disk _ (discard_wait disk_writes m (sp_writer p))) with
      (on_disk (drop_parked_context removable (po_disk opt) m) (discard_wait disk_writes m (sp_writer (unpark m (p <| sp_engine := e |>))))) in Hd.
    rewrite Ed in Hd. cbn [snd] in *. apply (away s p); [done|cbn; by rewrite lookup_delete_ne|]. intros H1 H2.
    destruct (settled_discard_wait disk_writes n (loads s) (writes_others s) m (sp_writer p) H1 H2). by apply Hd.
  - apply (away s p); [done|cbn; by rewrite lookup_delete_ne|done].
Qed.

(** The pool turns to another session. *)
Definition switched (m : string) (exact : bool) (p : Pool E) : Result unit * Pool E :=
  enforce opt disk_writes ((install opt disk_writes removable m (find_parked opt disk_writes m exact (if exact then unpark m p else p))).2 <| sp_active := m |>).
Lemma activate_switched m exact p : (activate opt disk_writes removable m exact p).2 =
  if bool_decide (m = sp_active p) then p
  else match park_live opt disk_writes p with Ret p1 => (switched m exact p1).2 | Fail _ => p end.
Proof.
  unfold activate, switched. destruct (bool_decide _); [done|]. destruct (park_live opt disk_writes p) as [p1|]; [|done].
  destruct (install _ _ _ _ _) as [st p2]. cbn [snd]. by destruct (enforce _ _ _).
Qed.
Lemma unpark_ok m p : pool_ok p -> pool_ok (unpark m p).
Proof. intros [Hw Hs]. split; [done|]. cbn. intros k s [_ Hk]%lookup_delete_Some. by eapply Hs. Qed.
Lemma switched_ok m exact p : pool_ok p -> pool_ok (switched m exact p).2 /\ sp_active (switched m exact p).2 = m.
Proof.
  intros Hp. assert (H1 : pool_ok (if exact then unpark m p else p)) by (destruct exact; [by apply unpark_ok|done]).
  pose proof (install_ok m _ (find_ok m exact _ H1)) as H2. unfold switched, enforce. set (q := (install _ _ _ _ _).2) in *.
  assert (H3 : pool_ok (q <| sp_active := m |>)) by exact H2.
  by destruct (enforce_ok (S (length (sp_lru (q <| sp_active := m |>)))) _ H3) as (H4 & H5 & _).
Qed.
Lemma switched_kept s m exact p : m <> n -> pool_ok p -> kept s p -> kept s (switched m exact p).2.
Proof.
  intros Hm Hp Hk. assert (H1 : pool_ok (if exact then unpark m p else p)) by (destruct exact; [by apply unpark_ok|done]).
  assert (H2 : kept s (if exact then unpark m p else p)).
  { destruct exact; [|done]. apply (away s p); [done|cbn; by rewrite lookup_delete_ne|done]. }
  apply enforce_kept; [exact (install_ok m _ (find_ok m exact _ H1))|]. exact (install_kept s m _ Hm (find_kept s m exact _ Hm H2)).
Qed.

(** ** Every reachable pool is well-formed *)

Lemma writer_only_ok p q : pool_ok p -> wok (sp_writer q) -> sp_parked q = sp_parked p -> pool_ok q.
Proof. intros [_ Hs] Hw Hpk. split; [done|]. by rewrite Hpk. Qed.
Lemma step_ok o p : pool_ok p -> sound (sp_engine p) -> pool_ok (pool_step opt disk_writes removable p o).
Proof.
  intros Hp He. pose proof Hp as [Hw Hs]. destruct o as [m exact| | | | |m| |e|]; cbn [pool_step]; try done.
  - rewrite activate_switched. destruct (bool_decide _); [done|]. destruct (park_live opt disk_writes p) as [p1|] eqn:Epl; [|done].
    apply switched_ok. by eapply park_live_ok.
  - unfold park_active. destruct (_ =? 0); [done|]. destruct (park_context (sp_engine p)) as [s|] eqn:Es; [|done]. pose proof (parked_fits _ _ He Es) as Hok.
    rewrite has_disk_true. destruct (wok_save disk_writes (sp_active p) s (sp_writer p) Hw (parked_small _ Hok)) as [Hw' _].
    cbn [park_as sp_writer sp_active update_field Pool_eta]. destruct (save _ _ _ _) as [r w']. cbn [snd] in *. split; [done|].
    cbn. intros k s' [[<- <-]|[_ Hk']]%lookup_insert_Some; [done|by eapply Hs].
  - unfold checkpoint_active. rewrite has_disk_true. cbn [negb orb]. destruct (_ =? 0); [done|].
    destruct (park_context (sp_engine p)) as [s|] eqn:Es; [|done]. eapply writer_only_ok; [done| |done].
    apply wok_enqueue; [done|]. by eapply parked_small, parked_fits.
  - unfold flush_disk. rewrite has_disk_true. eapply writer_only_ok; [done|by apply wok_flush|done].
  - unfold restore_active_from_disk. rewrite has_disk_true. cbn [negb]. destruct (0 <? _); [done|].
    assert (Hwf : wok (flush disk_writes (sp_writer p))) by by apply wok_flush.
    destruct (load_parked_context _ _ _) as [s|er]; [|destruct er; (eapply writer_only_ok; [exact Hp|first [exact Hwf|by apply dropped_ok]|done])].
    destruct (restore_or_cold _ _ _) as [st e]. cbn [snd]. destruct (rp_cold_fallback st); (eapply writer_only_ok; [exact Hp| |done]); [by apply dropped_ok|done].
  - unfold drop. rewrite has_disk_true. assert (Hwf : wok (discard_wait disk_writes m (sp_writer p))) by by apply wok_discard_wait.
    destruct (bool_decide _); [eapply writer_only_ok; [exact Hp|by apply dropped_ok|done]|].
    destruct (sp_parked _ !! m); cbn [snd].
    + eapply (writer_only_ok (unpark m p)); [by apply unpark_ok|by apply dropped_ok|done].
    + by eapply writer_only_ok.
  - destruct (thread_step disk_writes (sp_writer p)) as [w'|] eqn:Et; [|done]. eapply writer_only_ok; [done| |done].
    destruct Hw as [H1 H2]. split; [by eapply thread_ok|]. cbn. by rewrite (thread_budget _ _ _ Et).
Qed.
(** Every engine met on the way is sound. *)
Fixpoint sound_run (ops : list (PoolOp E)) (p : Pool E) : Prop :=
  sound (sp_engine p) /\ match ops with [] => True | o :: ops => sound_run ops (pool_step opt disk_writes removable p o) end.
Lemma sound_run_app ops1 ops2 p : sound_run (ops1 ++ ops2) p ->
  sound_run ops1 p /\ sound_run ops2 (foldl (pool_step opt disk_writes removable) p ops1).
Proof.
  revert p. induction ops1 as [|o ops1 IH]; intros p; cbn; [intros H; split; [|done]; by destruct ops2; destruct H|].
  intros [H1 H2]. destruct (IH _ H2). done.
Qed.
Lemma sound_run_first ops p : sound_run ops p -> sound (sp_engine p).
Proof. by destruct ops as [|o ops]; intros []. Qed.
Lemma sound_run_last ops p : sound_run ops p -> sound (sp_engine (foldl (pool_step opt disk_writes removable) p ops)).
Proof. intros H. rewrite <- (app_nil_r ops) in H. apply sound_run_app in H as [_ H]. by apply (sound_run_first []). Qed.
Lemma steps_ok ops p : pool_ok p -> sound_run ops p -> pool_ok (foldl (pool_step opt disk_writes removable) p ops).
Proof. revert p. induction ops as [|o ops IH]; intros p Hp; [done|]. cbn. intros [H1 H2]. apply IH; [by apply step_ok|done]. Qed.
Lemma pool_new_ok e budget d : budget < 2 ^ 64 -> pool_ok (pool_new e budget d).
Proof.
  intros Hb. split.
  - split; [eapply writer_new_ok; exact disk_writes|done].
  - intros k s. cbn. by rewrite lookup_empty.
Qed.

(** ** While the session is away *)

Lemma away_activate s m exact p : m <> n -> pool_ok p -> sound (sp_engine p) -> kept s p -> sp_active p <> n ->
  let p' := (activate opt disk_writes removable m exact p).2 in kept s p' /\ sp_active p' <> n.
Proof.
  intros Hm Hp He Hk Ha. rewrite activate_switched. destruct (bool_decide _); [done|]. destruct (park_live opt disk_writes p) as [p1|e] eqn:E1; [|done].
  destruct (park_live_ok _ _ Hp He E1) as (H1 & _ & _). split; [by apply switched_kept; [..|eapply park_live_kept]|].
  by destruct (switched_ok m exact p1 H1) as [_ ->].
Qed.
Lemma away_park s p : kept s p -> sp_active p <> n ->
  let p' := (park_active opt disk_writes p).2 in kept s p' /\ sp_active p' = sp_active p.
Proof.
  intros Hk Ha. unfold park_active. destruct (_ =? 0); [done|]. destruct (park_context (sp_engine p)) as [s'|]; [|done].
  rewrite has_disk_true. cbn [park_as sp_writer sp_active update_field Pool_eta].
  pose proof (settled_save disk_writes n (loads s) (writes_others s) (sp_active p) s' (sp_writer p) Ha) as Hsv.
  destruct (save disk_writes (sp_active p) s' (sp_writer p)) as [r w']. cbn [snd] in *. split; [|done].
  apply (away s p); [done|cbn; by rewrite lookup_insert_ne|exact Hsv].
Qed.
Lemma away_checkpoint s p : kept s p -> sp_active p <> n ->
  let p' := (checkpoint_active opt disk_writes p).2 in kept s p' /\ sp_active p' = sp_active p.
Proof.
  intros Hk Ha. unfold checkpoint_active. rewrite has_disk_true. cbn [negb orb]. destruct (_ =? 0); [done|].
  destruct (park_context (sp_engine p)) as [s'|]; [|done]. split; [|done].
  apply (away s p); [done|done|]. intros H1 H2. by apply (settled_enqueue disk_writes n (loads s) (writes_others s)).
Qed.
Lemma settled_flush s w : settled n w -> loads s (w_disk w) -> settled n (flush disk_writes w) /\ loads s (w_disk (flush disk_writes w)).
Proof. apply (settled_await disk_writes n (loads s) (writes_others s)). Qed.
Lemma away_restore s p : kept s p -> sp_active p <> n ->
  let p' := (restore_active_from_disk opt disk_writes removable p).2 in kept s p' /\ sp_active p' = sp_active p.
Proof.
  intros Hk Ha. unfold restore_active_from_disk. rewrite has_disk_true. cbn [negb]. destruct (0 <? _); [done|].
  set (w := flush disk_writes (sp_writer p)). pose proof (settled_flush s (sp_writer p)) as Hf. fold w in Hf.
  pose proof (dropped s (sp_active p) w Ha) as Hd. set (d := (on_disk _ w).2) in *.
  assert (Hq : forall q : Pool E, sp_parked q = sp_parked p -> sp_active q = sp_active p -> sp_writer q = w \/ sp_writer q = d ->
    kept s q /\ sp_active q = sp_active p).
  { intros q Q1 Q2 Q3. split; [|done]. apply (away s p); [done|by rewrite Q1|].
    intros H1 H2. destruct (Hf H1 H2) as [H3 H4]. destruct Q3 as [->| ->]; [done|by apply Hd]. }
  destruct (load_parked_context _ _ _) as [s'|er].
  - destruct (restore_or_cold _ _ _) as [st e']. cbn [snd]. destruct (rp_cold_fallback st); apply Hq; [done|done|by right|done|done|by left].
  - destruct er; (apply Hq; [done|done|first [by right|by left]]).
Qed.
Lemma away_drop s m p : m <> n -> kept s p -> let p' := (drop opt disk_writes removable m p).2 in kept s p' /\ sp_active p' = sp_active p.
Proof.
  intros Hm Hk. unfold drop. rewrite has_disk_true. set (w := discard_wait disk_writes m (sp_writer p)).
  pose proof (settled_discard_wait disk_writes n (loads s) (writes_others s) m (sp_writer p)) as Hf. fold w in Hf.
  pose proof (dropped s m w Hm) as Hd.
  assert (Hq : forall q : Pool E, sp_parked q = sp_parked p \/ sp_parked q = delete m (sp_parked p) -> sp_active q = sp_active p ->
    sp_writer q = w \/ sp_writer q = (on_disk (drop_parked_context removable (po_disk opt) m) w).2 -> kept s q /\ sp_active q = sp_active p).
  { intros q Q1 Q2 Q3. split; [|done]. apply (away s p); [done| |].
    - destruct Q1 as [->| ->]; [done|]. by rewrite lookup_delete_ne.
    - intros H1 H2. destruct (Hf H1 H2) as [H3 H4]. destruct Q3 as [->| ->]; [done|by apply Hd]. }
  destruct (bool_decide _); [apply Hq; [by left|done|by right]|].
  destruct (sp_parked _ !! m); apply Hq; [by right|done|by right|by left|done|by left].
Qed.

(** What may happen while the session is away. *)
Definition leaves_alone (o : PoolOp E) : Prop :=
  match o with PActivate m _ => m <> n | PDrop m => m <> n | _ => True end.

Lemma away_step s o p : leaves_alone o -> pool_ok p -> sound (sp_engine p) -> kept s p -> sp_active p <> n ->
  let p' := pool_step opt disk_writes removable p o in kept s p' /\ sp_active p' <> n.
Proof.
  intros Ho Hp He Hk Ha. destruct o as [m exact| | | | |m| |e|]; cbn [pool_step]; cbv zeta; try done.
  - by apply away_activate.
  - destruct (away_park s p Hk Ha) as (H2 & ->). done.
  - destruct (away_checkpoint s p Hk Ha) as (H2 & ->). done.
  - split; [|by unfold flush_disk; rewrite has_disk_true]. unfold flush_disk. rewrite has_disk_true.
    apply (away s p); [done|done|]. apply settled_flush.
  - destruct (away_restore s p Hk Ha) as (H2 & ->). done.
  - destruct (away_drop s m p Ho Hk) as (H2 & ->). done.
  - destruct (thread_step disk_writes (sp_writer p)) as [w'|] eqn:Et; [|done]. split; [|done].
    apply (away s p); [done|done|]. intros H1 H2. by eapply (settled_step disk_writes n (loads s) (writes_others s)).
Qed.
Lemma away_steps s ops p : Forall leaves_alone ops -> pool_ok p -> sound_run ops p -> kept s p -> sp_active p <> n ->
  let p' := foldl (pool_step opt disk_writes removable) p ops in kept s p' /\ sp_active p' <> n.
Proof.
  intros Ho. revert p. induction Ho as [|o ops Ho _ IH]; intros p Hp Hr Hk Ha; cbn [foldl]; [done|]. destruct Hr as [He Hr].
  destruct (away_step s o p Ho Hp He Hk Ha) as (H2 & H3). apply IH; [by apply step_ok|done..].
Qed.

(** ** Leaving and coming back *)

Lemma leave_kept s m exact p : pool_ok p -> sound (sp_engine p) -> sp_active p = n -> m <> n -> 0 < context_length (sp_engine p) ->
  park_context (sp_engine p) = Ret s ->
  let p' := (activate opt disk_writes removable m exact p).2 in kept s p' /\ sp_active p' <> n.
Proof.
  intros Hp He Ha Hm Hl Hs. rewrite activate_switched. rewrite bool_decide_false by congruence.
  destruct (park_live opt disk_writes p) as [p1|] eqn:E1.
  - destruct (park_live_ok _ _ Hp He E1) as (H1 & _ & _). assert (Hk : kept s p1).
    { unfold park_live in E1. replace (0 <? _) with true in E1 by (symmetry; by apply Z.ltb_lt). rewrite Hs, has_disk_true in E1.
      cbn [mbind Result_bind] in E1. injection E1 as <-. left. cbn. by rewrite Ha, lookup_insert_eq. }
    split; [by apply switched_kept|]. by destruct (switched_ok m exact p1 H1) as [_ ->].
  - exfalso. unfold park_live in E1. replace (0 <? _) with true in E1 by (symmetry; by apply Z.ltb_lt). by rewrite Hs in E1.
Qed.

Lemma found_again s p : kept s p ->
  sp_parked (find_parked opt disk_writes n false p) !! n = Some s /\ sp_engine (find_parked opt disk_writes n false p) = sp_engine p.
Proof.
  intros Hk. unfold find_parked. destruct (sp_parked p !! n) as [s'|] eqn:En.
  - destruct Hk as [Hk|(Hk & _)]; [|congruence]. split; [congruence|done].
  - rewrite has_disk_true. cbn [negb andb]. destruct Hk as [Hk|(_ & H1 & H2)]; [congruence|].
    destruct (settled_flush s (sp_writer p) H1 H2) as [_ ->]. split; [|done]. cbn. by rewrite lookup_insert_eq.
Qed.
Lemma come_back s p p1 : pool_ok p -> sound (sp_engine p) -> kept s p -> sp_active p <> n -> park_live opt disk_writes p = Ret p1 ->
  let r := activate opt disk_writes removable n false p in let back := restore_or_cold (restore_context s) reset_context (sp_engine p) in
  sp_active r.2 = n /\ sp_engine r.2 = back.2 /\ forall st, r.1 = Ret st -> st = back.1.
Proof.
  intros Hp He Hk Ha E1. unfold activate. rewrite bool_decide_false, E1 by congruence.
  destruct (park_live_ok _ _ Hp He E1) as (H1 & _ & <-). pose proof (park_live_kept s _ _ Ha Hk E1) as H2.
  destruct (found_again s p1 H2) as [F1 F2]. pose proof (install_ok n _ (find_ok n false p1 H1)) as H3.
  assert (Hi : (install opt disk_writes removable n (find_parked opt disk_writes n false p1)).1 = (restore_or_cold (restore_context s) reset_context (sp_engine p1)).1 /\
    sp_engine (install opt disk_writes removable n (find_parked opt disk_writes n false p1)).2 = (restore_or_cold (restore_context s) reset_context (sp_engine p1)).2).
  { unfold install. rewrite F1, F2. destruct (restore_or_cold _ _ _) as [st e]. destruct (rp_cold_fallback st); [|done]. by destruct (on_disk _ _). }
  destruct (install _ _ _ _ _) as [st q]. cbn [fst snd] in *. destruct Hi as [-> Hi]. assert (H4 : pool_ok (q <| sp_active := n |>)) by exact H3.
  unfold enforce. pose proof (enforce_ok (S (length (sp_lru (q <| sp_active := n |>)))) _ H4) as (_ & G1 & G2).
  destruct (enforce_budget _ _ _ _) as [[u|err] p2]; cbn [fst snd] in *; (split; [exact G1|split; [by rewrite G2|]]); [by intros st0 [= <-]|done].
Qed.

(** C18: a session that was left with a context and is neither dropped nor entered again comes
    back with exactly that context, whatever other sessions do in between: switching back to it
    hands the engine the very context it was left with, from memory or, if its memory copy was
    evicted, from the file its eviction saved.  If the engine accepts it, the conversation is
    the one that was left; if the engine refuses it, the context is empty and the answer says
    so; and if the session now live cannot be parked, nothing changes and the answer is that
    error.  (The directory has no byte budget, the session's name is a plain one, so that its
    file is its own, and every engine met on the way is sound.) *)
Theorem session_comes_back budget d e0 ops1 m exact ops2 s :
  let p1 := foldl (pool_step opt disk_writes removable) (pool_new e0 budget d) ops1 in
  let p2 := foldl (pool_step opt disk_writes removable) p1 (PActivate m exact :: ops2) in
  let r := activate opt disk_writes removable n false p2 in
  budget < 2 ^ 64 -> sound_run (ops1 ++ PActivate m exact :: ops2) (pool_new e0 budget d) ->
  sp_active p1 = n -> m <> n -> 0 < context_length (sp_engine p1) -> park_context (sp_engine p1) = Ret s ->
  Forall leaves_alone ops2 ->
  match park_live opt disk_writes p2 with
  | Fail err => r = (Fail err, p2)
  | Ret _ =>
      sp_active r.2 = n /\
      match restore_context s (sp_engine p2) with
      | (Ret st, e') => sp_engine r.2 = e' /\ same_conversation (sp_engine p1) (sp_engine r.2) /\ forall st', r.1 = Ret st' -> st' = st
      | (Fail _, e') => sp_engine r.2 = reset_context e' /\ forall st', r.1 = Ret st' -> rp_cold_fallback st' = true
      end
  end.
Proof.
  intros p1 p2 r Hb Hr Ha Hm Hl Hs Ho. apply sound_run_app in Hr as [Hr1 Hr2]. fold p1 in Hr2.
  assert (H1 : pool_ok p1) by (apply steps_ok; [apply pool_new_ok, Hb|done]). pose proof (sound_run_last _ _ Hr2) as Hs2. fold p2 in Hs2.
  destruct Hr2 as [He1 Hr2]. destruct (leave_kept s m exact p1 H1 He1 Ha Hm Hl Hs) as [H2 H3]. pose proof (step_ok (PActivate m exact) p1 H1 He1) as H4.
  destruct (away_steps s ops2 _ Ho H4 Hr2 H2 H3) as [H5 H6]. pose proof (steps_ok ops2 _ H4 Hr2) as H7.
  destruct (park_live opt disk_writes p2) as [p3|err] eqn:E3.
  - destruct (come_back s p2 p3 H7 Hs2 H5 H6 E3) as (G1 & G2 & G3). fold r in G1, G2, G3. split; [done|]. unfold restore_or_cold in G2, G3.
    destruct (restore_context s (sp_engine p2)) as [[st|err] e'] eqn:Er; cbn [fst snd] in *.
    + rewrite G2. split; [done|]. split; [by apply (restored_same _ (sp_engine p2) s st)|done].
    + split; [done|]. intros st' Hst. by rewrite (G3 st' Hst).
  - unfold r, activate. rewrite bool_decide_false by (intros Hx; by apply H6). by rewrite E3.
Qed.
End Comes_back.

(** ** The list of parked sessions and the limits *)

Section Limits.
Context {E : Type} `{!ContextEngine E} (opt : SessionPoolOptions).
Context (write_ : nat -> ParkedContext -> string -> Disk -> Result unit * Disk) (removable : string -> bool).

(** The list names exactly the parked sessions, each once. *)
Definition lru_ok (p : Pool E) : Prop := NoDup (sp_lru p) /\ forall k, k ∈ sp_lru p <-> is_Some (sp_parked p !! k).
Definition in_limits (p : Pool E) : Prop :=
  sp_parked p = ∅ \/ (Z.of_nat (size (sp_parked p)) <= po_max_parked opt /\ total_parked p <= po_max_parked_bytes opt).

Lemma lru_park name s p : lru_ok p -> lru_ok (park_as name s p).
Proof.
  intros [H1 H2]. split; cbn; unfold lru_touch, lru_remove.
  - constructor; [by intros [? _]%list_elem_of_filter|]. by apply NoDup_filter.
  - intros k. rewrite elem_of_cons, list_elem_of_filter, H2, lookup_insert_is_Some. destruct (decide (name = k)); naive_solver.
Qed.
Lemma lru_unpark name p : lru_ok p -> lru_ok (unpark name p).
Proof.
  intros [H1 H2]. split; cbn; unfold lru_remove; [by apply NoDup_filter|].
  intros k. rewrite list_elem_of_filter, H2, lookup_delete_is_Some. naive_solver.
Qed.
Lemma lru_same p q : lru_ok p -> sp_lru q = sp_lru p -> sp_parked q = sp_parked p -> lru_ok q.
Proof. intros [H1 H2] E1 E2. split; [by rewrite E1|]. intros k. by rewrite E1, E2. Qed.
Lemma lru_find name exact p : lru_ok p -> lru_ok (find_parked opt write_ name exact p).
Proof.
  intros Hp. unfold find_parked. destruct (sp_parked p !! name); [done|]. destruct (_ && _); [|done].
  destruct (load_parked_context _ _ _); [|by apply (lru_same p)]. apply lru_park. by apply (lru_same p).
Qed.
Lemma lru_install name p : lru_ok p -> lru_ok (install opt write_ removable name p).2.
Proof.
  intros Hp. unfold install. destruct (sp_parked p !! name); [|by apply (lru_same p)].
  destruct (restore_or_cold _ _ _) as [st e]. assert (H : lru_ok (unpark name (p <| sp_engine := e |>))) by (apply lru_unpark; by apply (lru_same p)).
  destruct (rp_cold_fallback st); [|done]. destruct (on_disk _ _) as [b d]. exact H.
Qed.

Lemma last_snoc_take {A} (l : list A) x : last l = Some x -> exists l', l = l' ++ [x] /\ take (length l - 1) l = l'.
Proof.
  intros H. apply last_Some in H as [l' ->]. exists l'. split; [done|]. rewrite length_app. cbn.
  replace (length l' + 1 - 1)%nat with (length l') by lia. by rewrite take_app_length.
Qed.
(** The loop ends within the limits, or with the error of a save, and drops nothing it need not. *)
Lemma enforce_limits fuel p : lru_ok p -> (length (sp_lru p) < fuel)%nat ->
  lru_ok (enforce_budget opt write_ fuel p).2 /\ sp_active (enforce_budget opt write_ fuel p).2 = sp_active p /\
  (is_ok (enforce_budget opt write_ fuel p).1 = true -> in_limits (enforce_budget opt write_ fuel p).2).
Proof.
  revert p. induction fuel as [|fuel IH]; intros p Hp Hf; [lia|]. cbn [enforce_budget]. destruct (over_budget opt p) eqn:Eo.
  - destruct (last (sp_lru p)) as [v|] eqn:El.
    + destruct (last_snoc_take _ _ El) as (l' & E1 & E2). destruct (if has_disk opt then _ else _) as [r w].
      destruct r as [[]|e]; [|by split_and!; [apply (lru_same p)|..]].
      match goal with |- context [enforce_budget opt write_ fuel ?q] => destruct (IH q) as (G1 & G2 & G3) end; [| |by split_and!].
      * destruct Hp as [H1 H2]. split; cbn; rewrite E2.
        -- rewrite E1 in H1. by apply NoDup_app in H1 as (H1 & _).
        -- intros k. rewrite lookup_delete_is_Some, <- H2, E1, elem_of_app, list_elem_of_singleton. rewrite E1 in H1.
           apply NoDup_app in H1 as (_ & H1 & _). specialize (H1 k). rewrite list_elem_of_singleton in H1. naive_solver.
      * cbn. rewrite E2. rewrite E1, length_app in Hf. cbn in Hf. lia.
    + apply last_None in El. unfold over_budget in Eo. by rewrite El in Eo.
  - split_and!; [done|done|]. intros _. unfold over_budget in Eo. apply andb_false_iff in Eo as [Eo|Eo].
    + left. apply negb_false_iff, Nat.eqb_eq, length_zero_iff_nil in Eo. apply map_empty. intros k.
      destruct (sp_parked p !! k) eqn:Ek; [|done]. exfalso. assert (Hk : k ∈ sp_lru p) by (apply Hp; by eexists).
      rewrite Eo in Hk. destruct (not_elem_of_nil _ Hk).
    + right. apply orb_false_iff in Eo as [E1%Z.ltb_ge E2%Z.ltb_ge]. done.
Qed.

Lemma lru_live p p' : lru_ok p -> park_live opt write_ p = Ret p' -> lru_ok p'.
Proof.
  intros Hp. unfold park_live. destruct (0 <? _); [|by intros [= <-]]. intros (s & _ & [= <-])%bind_Ret.
  pose proof (lru_park (sp_active p) s p Hp) as H. destruct (has_disk opt); [by eapply lru_same|done].
Qed.
Lemma activate_limits name exact p : lru_ok p -> lru_ok (activate opt write_ removable name exact p).2 /\
  (forall st p', activate opt write_ removable name exact p = (Ret st, p') -> sp_active p' = name /\ (name <> sp_active p -> in_limits p')).
Proof.
  intros Hp. unfold activate. case_bool_decide as Hn; [split; [done|by intros st p' [= <- <-]]|].
  destruct (park_live opt write_ p) as [p1|] eqn:E1; [|by split].
  assert (H1 : lru_ok (if exact then unpark name p1 else p1)) by (pose proof (lru_live _ _ Hp E1); destruct exact; [by apply lru_unpark|done]).
  pose proof (lru_install name _ (lru_find name exact _ H1)) as H2.
  destruct (install _ _ _ _ _) as [st2 p2]. cbn [snd] in H2. unfold enforce.
  assert (H3 : lru_ok (p2 <| sp_active := name |>)) by by apply (lru_same p2).
  destruct (enforce_limits (S (length (sp_lru (p2 <| sp_active := name |>)))) _ H3 ltac:(lia)) as (G1 & G2 & G3).
  destruct (enforce_budget _ _ _ _) as [r p3]. cbn [fst snd] in *. split; [done|]. intros st p'. destruct r as [[]|e]; [|done].
  intros [= <- <-]. split; [exact G2|]. intros _. by apply G3.
Qed.

Lemma lru_step o p : lru_ok p -> lru_ok (pool_step opt write_ removable p o).
Proof.
  intros Hp. destruct o as [m exact| | | | |m| |e|]; cbn [pool_step].
  - by apply activate_limits.
  - unfold park_active. destruct (_ =? 0); [done|]. destruct (park_context _) as [s|]; [|done].
    pose proof (lru_park (sp_active p) s p Hp) as H. destruct (has_disk opt); [|done]. destruct (save _ _ _ _) as [r w]. by eapply lru_same.
  - unfold checkpoint_active. destruct (_ || _); [done|]. destruct (park_context _); [|done]. by eapply lru_same.
  - unfold flush_disk. destruct (has_disk opt); [|done]. by eapply lru_same.
  - unfold restore_active_from_disk. destruct (negb _); [done|]. destruct (0 <? _); [done|].
    destruct (load_parked_context _ _ _) as [s|er]; [|by destruct er; apply (lru_same p)].
    destruct (restore_or_cold _ _ _) as [st e]. destruct (rp_cold_fallback st); by apply (lru_same p).
  - unfold drop. set (p0 := if has_disk opt then _ else p). assert (H0 : lru_ok p0) by (unfold p0; destruct (has_disk opt); [by apply (lru_same p)|done]).
    clearbody p0. destruct (bool_decide _); [by apply (lru_same p0)|]. destruct (sp_parked p0 !! m) eqn:Em.
    + pose proof (lru_unpark m p0 H0) as H. by eapply lru_same.
    + destruct H0 as [H1 H2]. split; cbn; unfold lru_remove; [by apply NoDup_filter|]. intros k. rewrite list_elem_of_filter, H2.
      split; [by intros [_ ?]|]. intros Hk. split; [|done]. intros ->. rewrite Em in Hk. by destruct Hk.
  - by apply (lru_same p).
  - by apply (lru_same p).
  - destruct (thread_step _ _); [by apply (lru_same p)|done].
Qed.
Lemma lru_steps ops p : lru_ok p -> lru_ok (foldl (pool_step opt write_ removable) p ops).
Proof. revert p. induction ops as [|o ops IH]; intros p Hp; [done|]. cbn. by apply IH, lru_step. Qed.

(** C39: in every reachable state of the pool the list of least recent use names exactly the
    parked sessions, each once; and switching to another session, when it reports success,
    leaves it live with the parked ones within both limits, whatever had to be evicted. *)
Theorem pool_within_limits budget d e0 ops name exact :
  let p := foldl (pool_step opt write_ removable) (pool_new e0 budget d) ops in
  lru_ok p /\ forall st p', activate opt write_ removable name exact p = (Ret st, p') ->
    lru_ok p' /\ sp_active p' = name /\ (name <> sp_active p -> in_limits p').
Proof.
  intros p. assert (Hp : lru_ok p).
  { apply lru_steps. split; [constructor|]. intros k. cbn. rewrite lookup_empty. split; [intros H; destruct (not_elem_of_nil _ H)|by intros []]. }
  split; [done|]. intros st p' E1. destruct (activate_limits name exact p Hp) as [H1 H2]. rewrite E1 in H1. split; [done|]. by apply (H2 st).
Qed.
End Limits.

(** ** A small engine: its context is its token ids *)

Definition toy_park (e : list Z) : Result ParkedContext :=
  if forallb (fun t => (0 <=? t) && (t <? 2 ^ 32)) e && (len_Z e <=? 2 ^ 24)
  then Ret {| pc_tokens := e; pc_kv := mkKvPacked (len_Z e) [] |} else Fail Internal.
#[export] Instance toy_engine : ContextEngine (list Z) := {|
  context_length := len_Z;
  reset_context := fun _ => [];
  park_context := toy_park;
  restore_context := fun s _ => (Ret ReplayStats_default, pc_tokens s) |}.
Lemma toy_park_ok (e : list Z) s : park_context e = Ret s -> parked_ok s.
Proof.
  cbn. unfold toy_park. destruct (forallb _ _) eqn:E1; [|done]. destruct (_ <=? _) eqn:E2; [|done]. intros [= <-]. apply Z.leb_le in E2.
  constructor; cbn.
  - split; [|done]. apply Forall_forall. intros x Hx. rewrite forallb_forall in E1. apply list_elem_of_In, E1 in Hx.
    apply andb_true_iff in Hx as [H1%Z.leb_le H2%Z.ltb_lt]. done.
  - unfold word_ok, len_Z in *. lia.
  - split; [constructor|done].
Qed.
(** No session stays in memory: every one is evicted to disk when it is left. *)
Definition toy_pool : SessionPoolOptions :=
  {| po_max_parked := 0; po_max_parked_bytes := 2 ^ 30; po_disk := {| od_dir := "kv"; od_model_tag := "m"; od_max_bytes := 0 |} |}.
Definition toy_env (i : nat) : SaveEnv := fine_env (Z.of_nat i).
#[local] Abbreviation toy_step := (pool_step toy_pool (disk_writes toy_pool toy_env) (fun _ => true)).
Definition toy_before : list (PoolOp (list Z)) := [PActivate "chat" false; PTurn [1; 2]; PCheckpoint].
Definition toy_away : list (PoolOp (list Z)) := [PTurn [3]; PThread; PActivate "third" false; PTurn [5; 6]; PCheckpoint; PActivate "other" false].
#[export] Instance toy_laws : ContextEngineLaws (list Z).
Proof.
  refine {| sound := fun _ => True; same_conversation := eq |}; [by intros e s _; apply toy_park_ok|].
  intros e1 e2 s st e' _ _. cbn. unfold toy_park. destruct (_ && _); [|done]. intros [= <-] [= _ <-]. done.
Defined.
Lemma toy_sound_run ops p : sound_run toy_pool toy_env (fun _ => true) ops p.
Proof. revert p. induction ops as [|o ops IH]; intros p; split; [done|done|done|apply IH]. Qed.
Lemma session_comes_back_witness :
  sp_engine (activate toy_pool (disk_writes toy_pool toy_env) (fun _ => true) "chat" false
    (foldl toy_step (foldl toy_step (pool_new [] 4096 ∅) toy_before) (PActivate "other" false :: toy_away))).2 = [1; 2].
Proof.
  pose proof (session_comes_back toy_pool toy_env (fun _ => true) ltac:(done) eq_refl "chat" ltac:(by vm_compute) 4096 ∅ [] toy_before "other" false toy_away
    {| pc_tokens := [1; 2]; pc_kv := mkKvPacked 2 [] |}) as H. cbv zeta in H.
  assert (Hok : is_ok (park_live toy_pool (disk_writes toy_pool toy_env)
    (foldl toy_step (foldl toy_step (pool_new [] 4096 ∅) toy_before) (PActivate "other" false :: toy_away))) = true) by by vm_compute.
  assert (Hl : Forall (leaves_alone (E := list Z) "chat") toy_away) by (repeat constructor; done).
  specialize (H ltac:(done) (toy_sound_run _ _) ltac:(by vm_compute) ltac:(done) ltac:(by vm_compute) ltac:(by vm_compute) Hl).
  destruct (park_live _ _ _) as [q|] in H, Hok; [|done]. by destruct H as (_ & -> & _).
Defined.

(** A session whose memory copy was evicted keeps its file when it is dropped, and the next use
    of its name brings it back. *)
Example dropped_session_comes_back :
  let p := foldl toy_step (pool_new [] 4096 ∅) [PActivate "chat" false; PTurn [1; 2]; PActivate "other" false] in
  (drop toy_pool (disk_writes toy_pool toy_env) (fun _ => true) "chat" p).1 = false /\
  sp_engine (foldl toy_step p [PDrop "chat"; PActivate "chat" false]) = [1; 2].
Proof. by vm_compute. Qed.
(** Resetting the live session leaves its checkpoint on disk: after a visit to another session
    the old context is back. *)
Example reset_session_comes_back :
  sp_engine (foldl toy_step (pool_new [] 4096 ∅)
    [PActivate "chat" false; PTurn [1; 2]; PCheckpoint; PReset; PActivate "other" false; PActivate "chat" false]) = [1; 2].
Proof. by vm_compute. Qed.
Lemma pool_within_limits_witness :
  in_limits toy_pool (activate toy_pool (disk_writes toy_pool toy_env) (fun _ => true) "other" false (foldl toy_step (pool_new [] 4096 ∅) toy_before)).2.
Proof.
  destruct (pool_within_limits toy_pool (disk_writes toy_pool toy_env) (fun _ => true) 4096 ∅ [] toy_before "other" false) as [_ H].
  assert (Hok : is_ok (activate toy_pool (disk_writes toy_pool toy_env) (fun _ => true) "other" false
    (foldl toy_step (pool_new [] 4096 ∅) toy_before)).1 = true) by by vm_compute.
  destruct (activate _ _ _ _ _ _) as [[st|e] p']; [|done]. apply (H st p'); [reflexivity|by vm_compute].
Defined.
