(* ===== verification/Sampling.v ===== *)
(** Temperature and top-p sampling ([src/runtime/sampling.h], [sampling.cpp], and the argmax of
    [sampler.h]): the nucleus cut out of the GPU's top set, out of the whole logit vector or out
    of an exported list, the draw from it, the counter-based random numbers, and the host's
    emulation of the kernel that collects the top set.

    [std::exp] and [std::log] of the C++ library are parameters; everything else is the code's own
    rounded arithmetic, in its order. *)

From S2P Require Import Prelude Types Floats.

(** ** Data *)

Record SamplingParams := { sp_temperature : float; sp_top_p : float; sp_seed : Z }.
Definition greedy (p : SamplingParams) : bool := negb (f_gtb (sp_temperature p) f32_zero).

(** A token with its logit, as the code sorts them. *)
Abbreviation Cand := (float * Z)%type.

Record TopKLogits := mkTopK {
  tk_cand : list Cand; tk_max_logit : float; tk_tail : float; tk_bin : Z; tk_rows : Z; tk_overflow : bool }.

Record Nucleus := mkNucleus {
  nu_ids : list Z; nu_p : list float; nu_cdf : list float; nu_retained : float; nu_kept : float; nu_logsumexp : float;
  nu_exact : bool }.
Definition Nucleus_default : Nucleus := mkNucleus [] [] [] f64_zero f64_zero f64_zero false.

Definition kTopKBins : Z := 256.
Definition kTopKBinsPerLogit : float := Eval compute in f32_of_Z 16.
Definition kTopKCapPerThread : Z := 32.
Definition kTopKThreads : Z := 256.

(** ** Random numbers *)

Definition splitmix64 (x : Z) : Z :=
  let x := u64 (x + 0x9E3779B97F4A7C15) in
  let x := u64 (Z.lxor x (Z.shiftr x 30) * 0xBF58476D1CE4E5B9) in
  let x := u64 (Z.lxor x (Z.shiftr x 27) * 0x94D049BB133111EB) in
  Z.lxor x (Z.shiftr x 31).
Definition uniform01 (seed counter : Z) : float :=
  let x := splitmix64 (Z.lxor seed (splitmix64 (u64 (counter + 0x632BE59BD9B4E019)))) in
  f64_mul (f64_of_Z (Z.shiftr x 11)) (f64_lit 1 (-53)).

(** ** The nucleus *)

Definition by_logit (a b : Cand) : bool :=
  if negb (f_eqb a.1 b.1) then f_gtb a.1 b.1 else a.2 <? b.2.

(** Whether the mass taken so far is enough. *)
Definition enough (top_p cum : float) : bool := f_ltb top_p f32_one && f_geb cum (f32_to_f64 top_p).

(** The loop of [cut]: tokens with their probabilities until they are enough. *)
Fixpoint cut_loop (by_ : list Cand) (w : list float) (s top_p cum : float) : list (Z * float) * float :=
  match by_, w with
  | c :: by_, x :: w =>
      let p := f64_div x s in
      let cum := f64_add cum p in
      if enough top_p cum then ([(c.2, p)], cum)
      else let '(out, cum) := cut_loop by_ w s top_p cum in ((c.2, p) :: out, cum)
  | _, _ => ([], cum)
  end.
Fixpoint cdf_from (c cum : float) (p : list float) : list float :=
  match p with [] => [] | x :: p => let c := f64_add c x in f64_div c cum :: cdf_from c cum p end.
Definition set_last {A} (x : A) (l : list A) : list A := <[(length l - 1)%nat := x]> l.

Definition cut (by_ : list Cand) (w : list float) (s retained lse top_p : float) (whole_vocab : bool) : Nucleus :=
  let '(out, cum) := cut_loop by_ w s top_p f64_zero in
  mkNucleus out.*1 out.*2 (set_last f64_one (cdf_from f64_zero cum out.*2)) retained cum lse
    (enough top_p cum || whole_vocab).

(** [1e-12] *)
Definition kMinWeight : float := Eval vm_compute in f64_div (f64_of_Z 1) (f64_of_Z (10 ^ 12)).

Section Exp.
Context (std_exp std_log : float -> float).

Definition sum64 (l : list float) : float := foldl f64_add f64_zero l.
Definition inverse (temperature : float) : float := f64_div f64_one (f32_to_f64 temperature).

Definition nucleus_from_topk (tk : TopKLogits) (temperature top_p : float) : Nucleus :=
  if tk_overflow tk || bool_decide (tk_cand tk = []) || negb (f_gtb temperature f32_zero) then Nucleus_default
  else
    let by_ := std_sort by_logit (tk_cand tk) in
    let inv_t := inverse temperature in
    let m := f32_to_f64 (tk_max_logit tk) in
    let w := (fun c => std_exp (f64_mul (f64_sub (f32_to_f64 c.1) m) inv_t)) <$> by_ in
    let sum := sum64 w in
    let s := f64_add sum (f_max f64_zero (tk_tail tk)) in
    cut by_ w s (f64_div sum s) (f64_add (f64_mul m inv_t) (std_log s)) top_p
      (negb (tk_rows tk =? 0) && (Z.of_nat (length by_) =? tk_rows tk)).

Definition nucleus_from_full (logits : list float) (temperature top_p : float) : Nucleus :=
  if bool_decide (logits = []) || negb (f_gtb temperature f32_zero) then Nucleus_default
  else
    let inv_t := inverse temperature in
    let m := foldl f_max f_neg_infinity logits in
    let weight v := std_exp (f64_mul (f64_sub (f32_to_f64 v) (f32_to_f64 m)) inv_t) in
    let s := sum64 (weight <$> logits) in
    let all := f_geb top_p f32_one in
    let by_ := std_sort by_logit
      (filter (fun c => all = true \/ f_geb (weight c.1) (f64_mul s kMinWeight) = true)
              (imap (fun i v => (v, Z.of_nat i)) logits)) in
    let w := (fun c => weight c.1) <$> by_ in
    let n := cut by_ w s f64_one (f64_add (f64_mul (f32_to_f64 m) inv_t) (std_log s)) top_p true in
    mkNucleus (nu_ids n) (nu_p n) (nu_cdf n) (nu_retained n) (nu_kept n) (nu_logsumexp n) true.

Definition nucleus_from_partial (ids : list Z) (logits : list float) (logsumexp temperature top_p : float) : Nucleus :=
  if bool_decide (ids = []) || negb (length ids =? length logits)%nat || negb (f_gtb temperature f32_zero) then Nucleus_default
  else
    let by_ := std_sort by_logit (zip logits ids) in
    let inv_t := inverse temperature in
    let w := (fun c => std_exp (f64_sub (f64_mul (f32_to_f64 c.1) inv_t) logsumexp)) <$> by_ in
    cut by_ w f64_one (sum64 w) logsumexp top_p false.

(** [std::upper_bound]: the first entry above [u]; past the end the last one is taken. *)
Definition upper_bound (cdf : list float) (u : float) : nat :=
  match list_find (fun x => f_ltb u x = true) cdf with Some (i, _) => i | None => length cdf end.
Definition sample_nucleus (n : Nucleus) (u : float) : Z :=
  if bool_decide (nu_ids n = []) then 0
  else
    let i := upper_bound (nu_cdf n) u in
    nth (if (i =? length (nu_cdf n))%nat then (i - 1)%nat else i) (nu_ids n) 0.

(** ** The kernel on the host *)

(** The tokens of one thread. *)
Definition thread_tokens (t : Z) (logits : list float) : list (Z * float) :=
  filter (fun il => il.1 mod kTopKThreads = t) (imap (fun i v => (Z.of_nat i, v)) logits).
Definition threads : list Z := Z.of_nat <$> seq 0 (Z.to_nat kTopKThreads).
Definition lowest : float := Eval compute in f32_lit (- (3 * 10 ^ 38)) 0.

Definition topk_max (logits : list float) : float :=
  foldl (fun m t => foldl (fun m il => f_max m il.2) m (thread_tokens t logits)) lowest threads.
(** [uint32_t(fb)] of a [fb] below the number of bins. *)
Definition histogram (m : float) (logits : list float) : list Z :=
  foldl (fun h v =>
    let fb := f32_mul (f32_sub m v) kTopKBinsPerLogit in
    if f_ltb fb (f32_of_Z kTopKBins) then alter (fun n => u32 (n + 1)) (Z.to_nat (f_trunc fb)) h else h)
    (replicate (Z.to_nat kTopKBins) 0) logits.
Fixpoint find_bin (b cum k : Z) (hist : list Z) : Z :=
  match hist with
  | [] => kTopKBins - 1
  | n :: hist => let cum := u32 (cum + n) in if k <=? cum then b else find_bin (b + 1) cum k hist
  end.

(** One thread: its candidates, whether it had too many, and its part of the tail. *)
Definition in_bins (m v : float) (j : Z) : bool := f_ltb (f32_mul (f32_sub m v) kTopKBinsPerLogit) (f32_of_Z (j + 1)).
Definition collect_thread (m inv_t : float) (j : Z) (mine : list (Z * float)) : list Cand * bool * float :=
  let '(cand, over, acc, _) := foldl (fun '(cand, over, acc, n) '(i, v) =>
      if in_bins m v j
      then if n <? kTopKCapPerThread then (cand ++ [(v, i)], over, acc, n + 1) else (cand, true, acc, n + 1)
      else (cand, over, f32_add acc (std_exp (f32_mul (f_neg (f32_sub m v)) inv_t)), n))
    ([], false, f32_zero, 0) mine in
  (cand, over, acc).

Definition emulate_topk (logits : list float) (k : Z) (temperature : float) : TopKLogits :=
  let m := topk_max logits in
  let j := find_bin 0 0 k (histogram m logits) in
  let inv_t := f32_div f32_one temperature in
  let '(cand, over, tail) := foldl (fun '(cand, over, tail) t =>
      let '(c, o, acc) := collect_thread m inv_t j (thread_tokens t logits) in (cand ++ c, over || o, f32_add tail acc))
    ([], false, f32_zero) threads in
  mkTopK cand m (f32_to_f64 tail) j (u32 (Z.of_nat (length logits))) over.
End Exp.

(** ** The greedy choice *)

Record SampleResult := { sr_token : Z; sr_logprob : float; sr_margin : float }.
Definition argmax (logits : list float) : Result SampleResult :=
  match logits with
  | [] => Fail InvalidArgument
  | v0 :: rest =>
      let '(best, best_v, second, _) := foldl (fun '(best, best_v, second, i) v =>
          if f_gtb v best_v then (i, v, best_v, i + 1)
          else if f_gtb v second then (best, best_v, v, i + 1) else (best, best_v, second, i + 1))
        (0, v0, f_neg_infinity, 1) rest in
      Ret {| sr_token := best; sr_logprob := best_v;
             sr_margin := if (1 <? length logits)%nat then f32_sub best_v second else f32_zero |}
  end.
