(* ===== verification/SamplingProps.v ===== *)
(** What sampling promises: the order of the tokens is a strict weak ordering, a nucleus cut out
    of the GPU's top set is the beginning of the whole vocabulary in that order, cut off at the
    first token that brings the mass to top-p, and a draw is always one of its tokens. *)

From S2P Require Import Prelude Types Floats FloatRound Sampling.

(** ** The order *)

Definition ranked (c : Cand) : Prop := f_isnan c.1 = false.

Lemma by_logit_asym a b : ranked a -> ranked b -> by_logit a b = true -> by_logit b a = false.
Proof.
  unfold by_logit, f_gtb. intros Ha Hb. assert (E : f_eqb b.1 a.1 = f_eqb a.1 b.1) by (apply eq_true_iff_eq; split; apply f_eqb_sym).
  rewrite E.
  destruct (f_eqb a.1 b.1); cbn [negb]; [lia|apply f_ltb_asym].
Qed.

(** Not behind: ahead of it, or level with no larger id. *)
Lemma by_logit_false a b : ranked a -> ranked b ->
  by_logit a b = false <-> f_ltb a.1 b.1 = true \/ (f_eqb a.1 b.1 = true /\ b.2 <= a.2).
Proof.
  unfold by_logit, f_gtb. intros Ha Hb. destruct (f_trichotomy a.1 b.1 Ha Hb) as [H|[H|H]].
  - assert (Hne : f_eqb a.1 b.1 = false) by (destruct (f_eqb a.1 b.1) eqn:E; [apply f_eqb_not_ltb in E; congruence|done]).
    rewrite Hne. cbn [negb]. rewrite (f_ltb_asym _ _ H). split; [by left|done].
  - rewrite H, (f_eqb_not_ltb _ _ H). cbn [negb]. rewrite Z.ltb_ge. split; [by right|by intros [?|[_ ?]]].
  - assert (Hne : f_eqb a.1 b.1 = false)
      by (destruct (f_eqb a.1 b.1) eqn:E; [apply f_eqb_sym, f_eqb_not_ltb in E; congruence|done]).
    rewrite Hne, H, (f_ltb_asym _ _ H). cbn [negb]. split; [done|by intros [?|[? _]]].
Qed.

Lemma by_logit_neg_trans a b c : ranked a -> ranked b -> ranked c ->
  by_logit a b = false -> by_logit b c = false -> by_logit a c = false.
Proof.
  intros Ha Hb Hc. rewrite !by_logit_false by done. intros [H1|[H1 H1']] [H2|[H2 H2']].
  - left. by eapply f_ltb_trans.
  - left. by rewrite <- (f_eqb_ltb_r _ _ _ H2).
  - left. by rewrite (f_eqb_ltb_l _ _ _ H1).
  - right. split; [by eapply f_eqb_trans|lia].
Qed.

Lemma sort_ranked l : Forall ranked l -> sorted_by by_logit (std_sort by_logit l).
Proof. apply std_sort_sorted; [exact by_logit_neg_trans|exact by_logit_asym]. Qed.

(** A top set sorted is the beginning of everything sorted. *)
Lemma top_set_first (all top rest : list Cand) : Forall ranked all -> NoDup all.*2 -> top ++ rest ≡ₚ all ->
  (forall c x, c ∈ top -> x ∈ rest -> by_logit c x = true) ->
  std_sort by_logit all = std_sort by_logit top ++ std_sort by_logit rest.
Proof.
  intros Hr Hn Hp Ht. assert (Hr' : Forall ranked (top ++ rest)) by (by rewrite Hp).
  apply Forall_app in Hr' as [Hr1 Hr2]. rewrite Forall_forall in Hr.
  apply (StronglySorted_unique_strong (fun x y => by_logit y x = false)).
  - intros x y Hx%(elem_of_Permutation_proper _ _ _ (std_sort_perm by_logit all)) Hy Hxy Hyx.
    rewrite !std_sort_perm, Hp in Hy. rewrite by_logit_false in Hxy, Hyx by auto.
    assert (Hid : x.2 = y.2).
    { destruct Hxy as [H|[H H']], Hyx as [G|[G G']]; [apply f_ltb_asym in H; congruence| | |lia].
      - apply f_eqb_sym, f_eqb_not_ltb in G. congruence.
      - apply f_eqb_sym, f_eqb_not_ltb in H. congruence. }
    clear -Hn Hx Hy Hid. induction all as [|z all IH]; [by apply not_elem_of_nil in Hx|].
    apply NoDup_cons in Hn as [Hz Hn]. apply elem_of_cons in Hx as [->|Hx]; apply elem_of_cons in Hy as [->|Hy]; [done| | |by apply IH].
    + destruct Hz. apply list_elem_of_fmap. by exists y.
    + destruct Hz. apply list_elem_of_fmap. by exists x.
  - apply sort_ranked, Forall_forall, Hr.
  - apply StronglySorted_app_2; [|by apply sort_ranked..].
    intros c x Hc Hx. rewrite std_sort_perm in Hc, Hx. rewrite Forall_forall in Hr1, Hr2. apply by_logit_asym; auto.
  - by rewrite !std_sort_perm.
Qed.

(** ** The cut *)

(** The masses after each token, added in the loop's order. *)
Fixpoint masses (w : list float) (s cum : float) : list float :=
  match w with [] => [] | x :: w => let cum := f64_add cum (f64_div x s) in cum :: masses w s cum end.

Lemma masses_length w s cum : length (masses w s cum) = length w.
Proof. revert cum. induction w as [|x w IH]; intros cum; [done|]. cbn [masses length]. f_equal. apply IH. Qed.

Lemma cut_loop_spec by_ w s top_p cum : length by_ = length w ->
  let '(out, cum') := cut_loop by_ w s top_p cum in
  exists n, (n <= length by_)%nat /\ out = zip (take n by_).*2 (take n ((fun x => f64_div x s) <$> w)) /\
    cum' = default cum (last (take n (masses w s cum))) /\
    (forall i m, (S i < n)%nat -> masses w s cum !! i = Some m -> enough top_p m = false) /\
    (n = length by_ \/ enough top_p cum' = true) /\ (by_ <> [] -> (0 < n)%nat).
Proof.
  revert w cum. induction by_ as [|c by_ IH]; intros [|x w] cum Hl; try done.
  - exists 0%nat. split_and!; [done|done|done|lia|by left|done].
  - cbn [cut_loop masses]. destruct (enough top_p (f64_add cum (f64_div x s))) eqn:E.
    + exists 1%nat. cbn. split_and!; [lia|done|done|lia|by right|lia].
    + specialize (IH w (f64_add cum (f64_div x s)) ltac:(cbn in Hl; lia)).
      destruct (cut_loop by_ w s top_p (f64_add cum (f64_div x s))) as [out cum'].
      destruct IH as (n & Hn & -> & Hc & Hs & He & Hp). exists (S n). cbn [length take fmap list_fmap zip].
      split_and!; [lia|done| | | |lia].
      * rewrite last_cons. rewrite Hc. by destruct (last (take n _)).
      * intros [|i] m Hi Hm; cbn in Hm; [by injection Hm as <-|]. apply (Hs i m); [lia|done].
      * destruct He as [->|He]; [by left|by right].
Qed.

Lemma cdf_length c cum p : length (cdf_from c cum p) = length p.
Proof. revert c. induction p as [|x p IH]; intros c; [done|]. cbn [cdf_from length]. f_equal. apply IH. Qed.

(** What a nucleus is: the first [n] tokens of a sorted list, with a bound for every one. *)
Record nucleus_of (by_ : list Cand) (w : list float) (s top_p : float) (u : Nucleus) (n : nat) : Prop := {
  no_some : by_ <> [] -> (0 < n)%nat;
  no_bound : (n <= length by_)%nat;
  no_ids : nu_ids u = (take n by_).*2;
  no_cdf : length (nu_cdf u) = length (nu_ids u);
  no_shortest : forall i m, (S i < n)%nat -> masses w s f64_zero !! i = Some m -> enough top_p m = false;
  no_kept : nu_kept u = default f64_zero (last (take n (masses w s f64_zero)));
  no_enough : n = length by_ \/ enough top_p (nu_kept u) = true }.

Lemma cut_nucleus by_ w s retained lse top_p whole : length by_ = length w ->
  exists n, nucleus_of by_ w s top_p (cut by_ w s retained lse top_p whole) n /\
    nu_exact (cut by_ w s retained lse top_p whole) = enough top_p (nu_kept (cut by_ w s retained lse top_p whole)) || whole.
Proof.
  intros Hl. unfold cut. pose proof (cut_loop_spec by_ w s top_p f64_zero Hl) as H.
  destruct (cut_loop by_ w s top_p f64_zero) as [out cum]. destruct H as (n & Hn & -> & -> & Hs & He & Hp).
  exists n. split; [|done]. split; cbn [nu_ids nu_cdf nu_kept]; try done.
  - rewrite fst_zip by (rewrite !length_fmap, !length_take, !length_fmap; lia). done.
  - unfold set_last. rewrite length_insert, cdf_length, !length_fmap. done.
Qed.

(** ** A draw *)

Lemma drawn_in by_ w s top_p u n x : nucleus_of by_ w s top_p u n -> by_ <> [] -> sample_nucleus u x ∈ nu_ids u.
Proof.
  intros [Hp Hn Hi Hc _ _ _] Hb. assert (Hlen : length (nu_ids u) = n) by (rewrite Hi, length_fmap, length_take; lia).
  specialize (Hp Hb). unfold sample_nucleus. rewrite bool_decide_false by (intros E; rewrite E in Hlen; cbn in Hlen; lia).
  assert (Hu : (upper_bound (nu_cdf u) x <= length (nu_cdf u))%nat).
  { unfold upper_bound. destruct (list_find _ (nu_cdf u)) as [[i y]|] eqn:E; [|done].
    apply list_find_Some in E as (E & _). apply lookup_lt_Some in E. lia. }
  assert (Hlt : forall i, (i < length (nu_ids u))%nat -> nth i (nu_ids u) 0 ∈ nu_ids u).
  { intros i Hi'. destruct (lookup_lt_is_Some_2 _ _ Hi') as [y Hy]. rewrite (nth_lookup_Some _ _ _ _ Hy). by eapply list_elem_of_lookup_2. }
  apply Hlt. destruct (Nat.eqb_spec (upper_bound (nu_cdf u) x) (length (nu_cdf u))); lia.
Qed.

(** ** The kernel's top set *)

Lemma filter_disjoint {X} (P Q R : X -> Prop) `{!forall x, Decision (P x), !forall x, Decision (Q x), !forall x, Decision (R x)} (l : list X) :
  (forall x, R x <-> P x \/ Q x) -> (forall x, P x -> ~ Q x) -> filter P l ++ filter Q l ≡ₚ filter R l.
Proof.
  intros Hr Hd. induction l as [|x l IH]; [done|]. rewrite !filter_cons.
  destruct (decide (P x)) as [Hp|Hp], (decide (Q x)) as [Hq|Hq], (decide (R x)) as [Hx|Hx];
    try (by destruct (Hd x Hp)); try (by destruct Hx; apply Hr; auto); try (by apply Hr in Hx as []).
  - cbn. by constructor.
  - rewrite <- IH. symmetry. apply Permutation_middle.
  - done.
Qed.

Lemma split_classes {X} (f : X -> Z) (l : list X) ts : NoDup ts ->
  mjoin ((fun t => filter (fun x => f x = t) l) <$> ts) ≡ₚ filter (fun x => f x ∈ ts) l.
Proof.
  induction ts as [|t ts IH]; intros Hn.
  - cbn. induction l as [|x l IHl]; [done|]. rewrite filter_cons. destruct (decide (f x ∈ [])) as [H|]; [by apply not_elem_of_nil in H|done].
  - apply NoDup_cons in Hn as [Ht Hn]. cbn [fmap list_fmap mjoin list_join]. rewrite IH by done. apply filter_disjoint.
    + intros x. apply elem_of_cons.
    + by intros x <-.
Qed.

Lemma filter_all {X} (P : X -> Prop) `{!forall x, Decision (P x)} (l : list X) : (forall x, P x) -> filter P l = l.
Proof. intros Hp. induction l as [|x l IH]; [done|]. by rewrite filter_cons, decide_True, IH by done. Qed.

Lemma filter_map {X Y} (f : X -> Y) (P : Y -> Prop) (Q : X -> Prop) `{!forall y, Decision (P y), !forall x, Decision (Q x)} (l : list X) :
  (forall x, x ∈ l -> Q x <-> P (f x)) -> filter P (f <$> l) = f <$> filter Q l.
Proof.
  induction l as [|x l IH]; intros Hpq; [done|]. rewrite fmap_cons, !filter_cons, IH by (intros y Hy; apply Hpq; by constructor).
  pose proof (Hpq x ltac:(by constructor)). destruct (decide (P (f x))), (decide (Q x)); intuition.
Qed.

Definition vocabulary (logits : list float) : list Cand := imap (fun i v => (v, Z.of_nat i)) logits.

Section Collected.
Context (std_exp : float -> float) (m inv_t : float) (j : Z).
Definition top_of (mine : list (Z * float)) : list Cand :=
  (fun il => (il.2, il.1)) <$> filter (fun il => in_bins m il.2 j = true) mine.

Lemma collect_all mine cand over acc n : let '(cand', over', _, _) := foldl (fun '(cand, over, acc, n) '(i, v) =>
      if in_bins m v j
      then if n <? kTopKCapPerThread then (cand ++ [(v, i)], over, acc, n + 1) else (cand, true, acc, n + 1)
      else (cand, over, f32_add acc (std_exp (f32_mul (f_neg (f32_sub m v)) inv_t)), n)) (cand, over, acc, n) mine in
  over' = false -> over = false /\ cand' = cand ++ top_of mine.
Proof.
  revert cand over acc n. induction mine as [|[i v] mine IH]; intros cand over acc n; [by rewrite app_nil_r|].
  cbn [foldl]. unfold top_of. rewrite filter_cons. cbn [fst snd]. destruct (in_bins m v j) eqn:E.
  - rewrite decide_True by done. destruct (n <? kTopKCapPerThread).
    + specialize (IH (cand ++ [(v, i)]) over acc (n + 1)). destruct (foldl _ _ mine) as [[[c o] a] n']. intros Ho.
      destruct (IH Ho) as [Hover Hc]. split; [exact Hover|]. rewrite Hc, <- app_assoc. done.
    + specialize (IH cand true acc (n + 1)). destruct (foldl _ _ mine) as [[[c o] a] n']. intros Ho. by destruct (IH Ho).
  - rewrite decide_False by done. exact (IH cand over (f32_add acc (std_exp (f32_mul (f_neg (f32_sub m v)) inv_t))) n).
Qed.

Lemma threads_all logits ts cand over tail : let '(cand', over', _) := foldl (fun '(cand, over, tail) t =>
      let '(c, o, acc) := collect_thread std_exp m inv_t j (thread_tokens t logits) in (cand ++ c, over || o, f32_add tail acc))
    (cand, over, tail) ts in
  over' = false -> over = false /\ cand' = cand ++ mjoin ((fun t => top_of (thread_tokens t logits)) <$> ts).
Proof.
  revert cand over tail. induction ts as [|t ts IH]; intros cand over tail; [by rewrite app_nil_r|].
  cbn [foldl]. unfold collect_thread.
  pose proof (collect_all (thread_tokens t logits) [] false f32_zero 0) as Hc. destruct (foldl _ _ (thread_tokens t logits)) as [[[c o] acc] n].
  specialize (IH (cand ++ c) (over || o) (f32_add tail acc)). destruct (foldl _ _ ts) as [[c' o'] t']. intros Ho.
  destruct (IH Ho) as [Hover Hcat]. apply orb_false_iff in Hover as [H1 H2]. destruct (Hc H2) as [_ ->]. split; [done|].
  rewrite Hcat. cbn. by rewrite <- app_assoc.
Qed.
End Collected.

Lemma threads_spec t : t ∈ threads <-> 0 <= t < kTopKThreads.
Proof.
  unfold threads, kTopKThreads. rewrite list_elem_of_fmap. split.
  - intros (n & -> & Hn%elem_of_seq). lia.
  - intros Ht. exists (Z.to_nat t). split; [lia|]. apply elem_of_seq. lia.
Qed.

Lemma threads_NoDup : NoDup threads.
Proof. unfold threads. apply NoDup_fmap; [intros x y; lia|apply NoDup_seq]. Qed.

(** When no thread has too many, the candidates are exactly the tokens of the first bins. *)
Lemma emulate_collects std_exp logits k temperature : let tk := emulate_topk std_exp logits k temperature in
  tk_overflow tk = false ->
  tk_cand tk ≡ₚ filter (fun c => in_bins (tk_max_logit tk) c.1 (tk_bin tk) = true) (vocabulary logits).
Proof.
  unfold emulate_topk. set (m := topk_max logits). set (j := find_bin _ _ _ _). set (inv_t := f32_div _ _).
  pose proof (threads_all std_exp m inv_t j logits threads [] false f32_zero) as H.
  destruct (foldl _ _ threads) as [[cand over] tail]. cbn. intros Ho. destruct (H Ho) as [_ ->]. cbn [app].
  set (toks := imap (fun i v => (Z.of_nat i, v)) logits).
  assert (Hv : vocabulary logits = (fun il => (il.2, il.1)) <$> toks).
  { unfold vocabulary, toks. clear. generalize 0%nat. rewrite fmap_imap. done. }
  rewrite Hv. change (fun t => top_of m j (thread_tokens t logits)) with
    (fun t => (fun il : Z * float => (il.2, il.1)) <$> filter (fun il => in_bins m il.2 j = true) (filter (fun il => il.1 mod kTopKThreads = t) toks)).
  transitivity ((fun il : Z * float => (il.2, il.1)) <$> filter (fun il => in_bins m il.2 j = true)
     (mjoin ((fun t => filter (fun il => il.1 mod kTopKThreads = t) toks) <$> threads))).
  - clear. induction threads as [|t ts IH]; [done|]. cbn [fmap list_fmap mjoin list_join]. by rewrite filter_app, fmap_app, IH.
  - rewrite (filter_map _ _ (fun il => in_bins m il.2 j = true)) by done.
    apply fmap_Permutation. rewrite (split_classes (fun il : Z * float => il.1 mod kTopKThreads) toks threads threads_NoDup).
    rewrite (filter_all (fun il : Z * float => il.1 mod kTopKThreads ∈ threads)); [done|].
    intros [i v]. apply threads_spec. by apply (Z.mod_pos_bound i kTopKThreads).
Qed.

Lemma vocabulary_ids logits : (vocabulary logits).*2 = Z.of_nat <$> seq 0 (length logits).
Proof.
  unfold vocabulary. rewrite fmap_imap. apply list_eq. intros i. rewrite list_lookup_imap, list_lookup_fmap.
  destruct (logits !! i) as [v|] eqn:E.
  - apply lookup_lt_Some in E. by rewrite lookup_seq_lt by done.
  - apply lookup_ge_None in E. by rewrite lookup_seq_ge by done.
Qed.

Lemma vocabulary_elem logits c : c ∈ vocabulary logits -> c.1 ∈ logits.
Proof. intros (i & v & -> & Hv)%elem_of_lookup_imap. cbn. by eapply list_elem_of_lookup_2. Qed.

(** *** The kernel's bins follow the order of the logits *)

Lemma number_isnan v : number32 v -> f_isnan v = false.
Proof. by intros []. Qed.
Lemma topk_max_number logits : Forall number32 logits -> number32 (topk_max logits).
Proof.
  intros Hn. unfold topk_max. apply (foldl_invariant number32); [by split|]. intros m t _ Hm.
  apply (foldl_invariant number32); [done|]. intros m' [i v] Hin Hm'. cbn. unfold f_max. destruct (f_ltb m' v); [|done].
  unfold thread_tokens in Hin. apply list_elem_of_filter in Hin as [_ Hin]. apply elem_of_lookup_imap in Hin as (j & x & [= -> ->] & Hx).
  by eapply Forall_lookup_1.
Qed.
Lemma find_bin_range b cum k hist : 0 <= b -> b + Z.of_nat (length hist) <= kTopKBins -> 0 <= find_bin b cum k hist < kTopKBins.
Proof.
  revert b cum. induction hist as [|n hist IH]; intros b cum Hb Hl; cbn [find_bin length] in *; [unfold kTopKBins; lia|].
  destruct (k <=? _); [lia|]. apply IH; lia.
Qed.
Lemma histogram_length m logits : length (histogram m logits) = 256%nat.
Proof.
  unfold histogram. apply (foldl_invariant (fun h => length h = 256%nat)); [by vm_compute|].
  intros h v _ Hh. destruct (f_ltb _ _); [by rewrite length_alter|done].
Qed.
Lemma bin_bound j : 0 <= j < kTopKBins -> number32 (f32_of_Z (j + 1)) /\ within (f32_of_Z (j + 1)) = true.
Proof.
  intros Hj. split; [by apply (normalize_spec (j + 1) 0 false)|].
  assert (Hall : forallb (fun n => within (f32_of_Z (Z.of_nat n))) (seq 0 257) = true) by (by vm_compute).
  rewrite forallb_forall in Hall. replace (j + 1) with (Z.of_nat (Z.to_nat (j + 1))) by lia. apply Hall, list_elem_of_In, elem_of_seq. unfold kTopKBins in *. lia.
Qed.

(** A token in the bins kept has every token that is not below it in them too. *)
Lemma in_bins_order m a b j : number32 m -> number32 a -> number32 b -> 0 <= j < kTopKBins -> f_ltb a b = false ->
  in_bins m b j = true -> in_bins m a j = true.
Proof. intros Hm Ha Hb [Hj Wj]%bin_bound Hab. apply (difference_order m a b); done. Qed.

Lemma emulate_bins std_exp logits k temperature : let tk := emulate_topk std_exp logits k temperature in
  tk_max_logit tk = topk_max logits /\ 0 <= tk_bin tk < kTopKBins.
Proof.
  unfold emulate_topk. destruct (foldl _ _ threads) as [[cand over] tail]. cbn. split; [done|].
  apply find_bin_range; [lia|]. by rewrite histogram_length.
Qed.

Section Top.
Context (std_exp std_log : float -> float) (logits : list float) (k : Z) (temperature top_p : float).
#[local] Abbreviation tk := (emulate_topk std_exp logits k temperature).

(** C28: for logits that are numbers of the 32-bit format, at a positive temperature, and when
    no thread of the kernel ran out of room, the nucleus cut out of the kernel's top set is the beginning of the whole
    vocabulary sorted by logit and id: no token the kernel left out could precede one that was
    kept, because its rounded test of a token's bin follows the order of the logits.  It is
    marked exact only when it is the whole vocabulary or its mass reached top-p, and every draw
    from it is one of its tokens. *)
Theorem nucleus_is_best_prefix : Forall number32 logits -> f_gtb temperature f32_zero = true ->
  tk_overflow tk = false -> tk_cand tk <> [] -> Z.of_nat (length logits) < 2 ^ 32 ->
  let u := nucleus_from_topk std_exp std_log tk temperature top_p in
  exists n, (0 < n <= length (tk_cand tk))%nat /\ nu_ids u = (take n (std_sort by_logit (vocabulary logits))).*2 /\
    (nu_exact u = true -> n = length logits \/ enough top_p (nu_kept u) = true) /\
    forall x, sample_nucleus u x ∈ nu_ids u.
Proof.
  intros Hnum Ht Hover Hne Hlen. cbv zeta. pose proof (Forall_impl _ _ _ Hnum number_isnan) as Hnan.
  assert (Hord : forall a b, a ∈ logits -> b ∈ logits -> f_ltb a b = false ->
    in_bins (tk_max_logit tk) b (tk_bin tk) = true -> in_bins (tk_max_logit tk) a (tk_bin tk) = true).
  { intros a b Ha Hb. destruct (emulate_bins std_exp logits k temperature) as [-> Hj]. rewrite Forall_forall in Hnum.
    apply in_bins_order; auto. by apply topk_max_number, Forall_forall. }
  pose proof (emulate_collects std_exp logits k temperature Hover) as Hc.
  set (t := tk) in *. unfold nucleus_from_topk. rewrite Hover, Ht, bool_decide_false by done. cbn [orb negb].
  set (by_ := std_sort by_logit (tk_cand t)). set (w := _ <$> by_).
  assert (Hb : by_ <> []) by (intros E; pose proof (std_sort_perm by_logit (tk_cand t)) as Hp; fold by_ in Hp; rewrite E in Hp;
    by apply Permutation_nil_l in Hp).
  assert (Hl : length by_ = length (tk_cand t)) by (unfold by_; by rewrite std_sort_perm).
  destruct (cut_nucleus by_ w (f64_add (sum64 w) (f_max f64_zero (tk_tail t))) (f64_div (sum64 w) (f64_add (sum64 w) (f_max f64_zero (tk_tail t))))
    (f64_add (f64_mul (f32_to_f64 (tk_max_logit t)) (inverse temperature)) (std_log (f64_add (sum64 w) (f_max f64_zero (tk_tail t))))) top_p
    (negb (tk_rows t =? 0) && (Z.of_nat (length by_) =? tk_rows t)) ltac:(unfold w; by rewrite length_fmap)) as (n & Hn & He).
  set (u := cut _ _ _ _ _ _ _) in *. exists n. pose proof Hn as [H1 H2 H3 H4 H5 H6 H7]. split_and!.
  - auto.
  - lia.
  - rewrite H3. f_equal. rewrite (top_set_first (vocabulary logits) (tk_cand t)
      (filter (fun c => in_bins (tk_max_logit t) c.1 (tk_bin t) <> true) (vocabulary logits))).
    + fold by_. by rewrite take_app_le by lia.
    + apply Forall_forall. intros c Hcv%vocabulary_elem. rewrite Forall_forall in Hnan. by apply Hnan.
    + rewrite vocabulary_ids. apply NoDup_fmap; [intros x y; lia|apply NoDup_seq].
    + rewrite Hc. transitivity (filter (fun _ : Cand => True) (vocabulary logits)); [|by rewrite filter_all].
      apply filter_disjoint; [|by intros c H H']. intros c. destruct (in_bins (tk_max_logit t) c.1 (tk_bin t)); [split; [by left|done]|split; [by right|done]].
    + intros c x Hct Hx. rewrite Hc in Hct. apply list_elem_of_filter in Hct as [Hcb Hcv]. apply list_elem_of_filter in Hx as [Hxb Hxv].
      apply vocabulary_elem in Hcv, Hxv. rewrite Forall_forall in Hnan.
      destruct (by_logit c x) eqn:E; [done|]. apply by_logit_false in E; [|by apply Hnan..]. destruct Hxb.
      apply (Hord x.1 c.1); [done..| |done]. destruct E as [E|[E _]]; [by apply f_ltb_asym|].
      apply f_eqb_not_ltb. by apply f_eqb_sym.
  - rewrite He. intros [E|E]%orb_true_iff; [by right|]. apply andb_true_iff in E as [_ E%Z.eqb_eq]. destruct H7 as [H7|H7]; [left|by right].
    assert (Hr : tk_rows t = u32 (Z.of_nat (length logits))).
    { unfold t, emulate_topk. by destruct (foldl _ _ threads) as [[? ?] ?]. }
    rewrite Hr, u32_small in E by lia. lia.
  - intros x. exact (drawn_in by_ w _ top_p u n x Hn Hb).
Qed.
End Top.

(** Five tokens, two of them level; the best two reach half the mass. *)
Definition five_logits : list float := [f32_one; f32_of_Z 3; f32_of_Z 2; f32_of_Z 3; f32_of_Z (-100)].
Lemma nucleus_is_best_prefix_witness : exists n, (0 < n <= 4)%nat /\
  nu_ids (nucleus_from_topk (fun _ => f64_one) (fun x => x) (emulate_topk (fun _ => f64_one) five_logits 4 f32_one) f32_one (f32_lit 1 (-1))) =
    (take n (std_sort by_logit (vocabulary five_logits))).*2.
Proof.
  destruct (nucleus_is_best_prefix (fun _ => f64_one) (fun x => x) five_logits 4 f32_one (f32_lit 1 (-1))) as (n & Hn & Hi & _).
  - by repeat constructor.
  - by vm_compute.
  - by vm_compute.
  - by vm_compute.
  - by vm_compute.
  - exists n. split; [|exact Hi]. assert (E : length (tk_cand (emulate_topk (fun _ => f64_one) five_logits 4 f32_one)) = 4%nat) by by vm_compute.
    by rewrite E in Hn.
Defined.
