(* ===== verification/Routing.v ===== *)
(** Choosing experts: the reference matrix-vector products ([src/cpu/gemv_avx512.cpp]), the
    router's scores and top-k ([src/cpu/gate.cpp]), resident-only routing
    ([src/runtime/resident_route.h]) and which misses are worth waiting for
    ([src/runtime/mask_wait.h]).

    The AVX-512 kernels and the lookahead gate are stubs of the source that answer
    [Unimplemented]; [std::exp] and [std::log1p] of the C++ library are parameters. *)

From S2P Require Import Prelude Types Floats Dequant Sampling.

(** ** Matrix times vector *)

Record GemvShape := { gs_rows : Z; gs_K : Z; gs_M : Z }.
Definition check_shape (s : GemvShape) (x_len y_len : Z) : Result unit :=
  _ ← fail_if (gs_M s =? 0) InvalidArgument;
  _ ← fail_if ((gs_K s =? 0) || negb (gs_K s mod 32 =? 0)) InvalidArgument;
  _ ← fail_if (x_len <? u64 (gs_K s * gs_M s)) InvalidArgument;
  fail_if (y_len <? u64 (gs_rows s * gs_M s)) InvalidArgument.

Definition zs (n : Z) : list Z := Z.of_nat <$> seq 0 (Z.to_nat n).
Definition f_nth (l : list float) (i : Z) : float := nth (Z.to_nat i) l f32_zero.
Definition z_nth (l : list Z) (i : Z) : Z := nth (Z.to_nat i) l 0.
Definition z_len {A} (l : list A) : Z := Z.of_nat (length l).

(** One output: the blocks of a row in turn, each scaled by its shared exponent. *)
Definition block_part (elem : Z -> float) (x : list float) (x0 base : Z) : float :=
  foldl (fun part j => f32_add part (f32_mul (elem (base + j)) (f_nth x (x0 + base + j)))) f32_zero (zs 32).
Definition gemv_cell (elem : Z -> float) (scale : Z -> Z) (x : list float) (x0 blocks : Z) : Result float :=
  foldM (fun acc blk =>
    let e := scale blk in
    _ ← fail_if (e8m0_is_nan e) Corrupt;
    Ret (f32_add acc (f32_ldexp (block_part elem x x0 (blk * 32)) (e - 127)))) f32_zero (zs blocks).
(** Rows, and within a row the columns of the batch: [y[m * rows + r]]. *)
Definition gemv_fill (s : GemvShape) (cell : Z -> Z -> Result float) (y : list float) : Result (list float) :=
  foldM (fun y rm => v ← cell rm.1 rm.2; Ret (<[Z.to_nat (rm.2 * gs_rows s + rm.1) := v]> y)) y
    (mjoin ((fun r => (fun m => (r, m)) <$> zs (gs_M s)) <$> zs (gs_rows s))).

Definition gemv_fp4_ref (weights scales : list Z) (x : list float) (s : GemvShape) (y : list float) : Result (list float) :=
  _ ← check_shape s (z_len x) (z_len y);
  let row_bytes := gs_K s / 2 in let row_scales := gs_K s / 32 in
  _ ← fail_if (z_len weights <? u64 (gs_rows s * row_bytes)) InvalidArgument;
  _ ← fail_if (z_len scales <? u64 (gs_rows s * row_scales)) InvalidArgument;
  gemv_fill s (fun r m =>
    let elem i := let b := z_nth weights (r * row_bytes + i / 2) in
                  nth (Z.to_nat (if Z.odd i then u8 (Z.shiftr b 4) else Z.land b 0x0F)) kFp4E2M1Table f32_zero in
    gemv_cell elem (fun blk => z_nth scales (r * row_scales + blk)) x (m * gs_K s) row_scales) y.

Definition gemv_fp8_ref (weights scales : list Z) (x : list float) (s : GemvShape) (y : list float) : Result (list float) :=
  _ ← check_shape s (z_len x) (z_len y);
  let kblocks := gs_K s / 32 in
  _ ← fail_if (z_len weights <? u64 (gs_rows s * gs_K s)) InvalidArgument;
  let scale_rows := u64 (gs_rows s + 31) / 32 in
  _ ← fail_if (z_len scales <? u64 (scale_rows * kblocks)) InvalidArgument;
  gemv_fill s (fun r m =>
    let elem i := nth (Z.to_nat (z_nth weights (r * gs_K s + i))) kFp8E4M3Table f32_zero in
    gemv_cell elem (fun blk => z_nth scales (r / 32 * kblocks + blk)) x (m * gs_K s) kblocks) y.

Definition gemv_bf16_ref (weights : list Z) (x : list float) (s : GemvShape) (y : list float) : Result (list float) :=
  _ ← check_shape s (z_len x) (z_len y);
  _ ← fail_if (z_len weights <? u64 (gs_rows s * gs_K s)) InvalidArgument;
  gemv_fill s (fun r m =>
    Ret (foldl (fun acc k => f32_add acc (f32_mul (bf16_to_float (z_nth weights (r * gs_K s + k))) (f_nth x (m * gs_K s + k))))
           f32_zero (zs (gs_K s)))) y.

Definition gemv_fp4_avx512 (weights scales : list Z) (x : list float) (s : GemvShape) (y : list float) : Result (list float) :=
  Fail Unimplemented.
(** The dispatcher: [vnni] is what the processor says of itself. *)
Definition gemv_fp4 (vnni : bool) (weights scales : list Z) (x : list float) (s : GemvShape) (y : list float) : Result (list float) :=
  let ref := gemv_fp4_ref weights scales x s y in
  if vnni then
    match gemv_fp4_avx512 weights scales x s y with
    | Ret y => Ret y
    | Fail e => if bool_decide (e = Unimplemented) then ref else Fail e
    end
  else ref.

(** ** The router *)

Definition kMaxTopK : Z := 16.
Record GateResult := { gr_k : Z; gr_ids : list Z; gr_weights : list float; gr_raw_scores : list float }.

Section Gate.
Context (std_exp std_log1p : float -> float).
Definition f32_sqrt : float -> float := SFsqrt 24 128.
Definition sqrt_softplus (v : float) : float :=
  f32_sqrt (f32_add (std_log1p (std_exp (f_neg (f_abs v)))) (f_max v f32_zero)).
Definition gate_scores (w : list Z) (x : list float) (n_experts k : Z) (scores_out : list float) : Result (list float) :=
  _ ← fail_if (z_len scores_out <? n_experts) InvalidArgument;
  y ← gemv_bf16_ref w x {| gs_rows := n_experts; gs_K := k; gs_M := 1 |} scores_out;
  Ret ((sqrt_softplus <$> take (Z.to_nat n_experts) y) ++ drop (Z.to_nat n_experts) y).

(** [1e-20f] *)
Definition kTinySum : float := f32_of_bits 0x1E3CE508.
Definition kRoutedScaling : float := Eval compute in f32_lit 3 (-1).

(** The experts ranked by biased score, ties by the lower id. *)
Definition biased (scores bias : list float) (i : Z) : float :=
  if bool_decide (bias = []) then f_nth scores i else f32_add (f_nth scores i) (f_nth bias i).
Definition ranking (scores bias : list float) : list Cand :=
  std_sort by_logit ((fun i => (biased scores bias i, i)) <$> zs (z_len scores)).

Definition gate_topk (scores bias : list float) (k report : Z) (scaling : float) : Result GateResult :=
  let n := u32 (z_len scores) in
  _ ← fail_if ((k =? 0) || (n <? k)) InvalidArgument;
  _ ← fail_if (negb (bool_decide (bias = [])) && (z_len bias <? n)) InvalidArgument;
  let want := Z.min (Z.max report k) kMaxTopK in
  (* [partial_sort] over fewer than [want] experts reads past the end. *)
  _ ← fail_if (n <? want) Internal;
  let idx := (take (Z.to_nat want) (ranking scores bias)).*2 in
  let raw := f_nth scores <$> idx in
  let denom := f32_add (foldl f32_add f32_zero (take (Z.to_nat k) raw)) kTinySum in
  Ret {| gr_k := want; gr_ids := u16 <$> idx;
         gr_weights := imap (fun i s => if Z.of_nat i <? k then f32_mul (f32_div s denom) scaling else f32_zero) raw;
         gr_raw_scores := raw |}.

Definition gate (w : list Z) (bias x : list float) (n_experts K k report : Z) : Result GateResult :=
  scores ← gate_scores w x n_experts K (replicate (Z.to_nat n_experts) f32_zero);
  gate_topk scores bias k report kRoutedScaling.
Definition gate_lookahead : Result GateResult := Fail Unimplemented.
End Gate.

(** ** Routing to what is resident *)

Record ResidentRoute := { rt_kept : Z; rt_mass_lost : float; rt_shared_only : bool }.
Definition is_res (resident : list bool) (s : nat) : bool := nth s resident false.

(** The loop over the slots: both sums, the first kept slot and how many are kept. *)
Definition route_sums (w_in : list float) (resident : list bool) : float * float * option nat * Z :=
  foldl (fun '(all, kept, first, n) '(s, w) =>
      let all := f64_add all (f32_to_f64 w) in
      if is_res resident s
      then (all, f64_add kept (f32_to_f64 w), match first with None => Some s | Some _ => first end, n + 1)
      else (all, kept, first, n))
    (f64_zero, f64_zero, None, 0) (imap pair w_in).
Definition resident_route (ids_in : list Z) (w_in : list float) (resident : list bool) (fill_id : Z)
  : ResidentRoute * list Z * list float :=
  let '(all, kept, first, n) := route_sums w_in resident in
  match first with
  | None => ({| rt_kept := 0; rt_mass_lost := f32_one; rt_shared_only := true |},
             (fun _ => fill_id) <$> w_in, (fun _ => f32_zero) <$> w_in)
  | Some f =>
      let pos := f_gtb all f64_zero in
      let scale := if pos then f64_div all kept else f64_one in
      let borrow := nth f ids_in 0 in
      ({| rt_kept := n; rt_mass_lost := if pos then f64_to_f32 (f64_sub f64_one (f64_div kept all)) else f32_zero;
          rt_shared_only := false |},
       imap (fun s _ => if is_res resident s then nth s ids_in 0 else borrow) w_in,
       imap (fun s w => if is_res resident s then f64_to_f32 (f64_mul (f32_to_f64 w) scale) else f32_zero) w_in)
  end.

(** The oldest step whose queued misses are still worth reading. *)
Definition resident_queue_cutoff (now_step keep_steps : Z) : Z :=
  let keep := if keep_steps =? 0 then 1 else keep_steps in
  if keep <=? now_step then now_step - keep + 1 else 0.

(** ** Which misses to wait for *)

Definition misses (weights effective : list float) : list (float * nat) * float * float :=
  foldl (fun '(miss, total, lost) '(i, (w, e)) =>
      let total := f64_add total (f32_to_f64 w) in
      if f_gtb w f32_zero && f_eqb e f32_zero then (miss ++ [(w, i)], total, f64_add lost (f32_to_f64 w)) else (miss, total, lost))
    ([], f64_zero, f64_zero) (imap pair (zip weights effective)).
Definition heavier (a b : float * nat) : bool := f_gtb a.1 b.1.
(** How many of the sorted misses have to be waited for. *)
Fixpoint wait_prefix (miss : list (float * nat)) (lost bound : float) (shared_only : bool) : list (float * nat) :=
  match miss with
  | [] => []
  | x :: miss =>
      if f_leb lost bound && negb shared_only then []
      else x :: wait_prefix miss (f64_sub lost (f32_to_f64 x.1)) bound false
  end.
Definition mask_wait_candidates (weights effective : list float) (tau : float) : list nat :=
  let '(miss, total, lost) := misses weights effective in
  if f_geb tau f64_one || f_leb total f64_zero then []
  else
    let shared_only := (length miss =? length weights)%nat in
    snd <$> wait_prefix (std_sort heavier miss) lost (f64_mul tau total) shared_only.
