(* ===== verification/RoutingProps.v ===== *)
(** What choosing experts promises: the router's choice is the best experts in a fixed order,
    resident-only routing never sends the GPU to an expert that is not there, and what is waited
    for is the heaviest misses, no more of them than the bound on lost mass asks for. *)

From S2P Require Import Prelude Types Floats Dequant Sampling SamplingProps Routing.

(** ** The router's choice *)

Lemma zs_elem n i : i ∈ zs n <-> 0 <= i < n.
Proof.
  unfold zs. rewrite list_elem_of_fmap. split.
  - intros (j & -> & Hj%elem_of_seq). lia.
  - intros Hi. exists (Z.to_nat i). split; [lia|]. apply elem_of_seq. lia.
Qed.
Lemma zs_NoDup n : NoDup (zs n).
Proof. apply NoDup_fmap; [intros x y; lia|apply NoDup_seq]. Qed.
Lemma zs_length n : length (zs n) = Z.to_nat n.
Proof. unfold zs. by rewrite length_fmap, length_seq. Qed.

Definition candidates (scores bias : list float) : list Cand := (fun i => (biased scores bias i, i)) <$> zs (z_len scores).
Lemma ranking_perm scores bias : ranking scores bias ≡ₚ candidates scores bias.
Proof. apply std_sort_perm. Qed.
Lemma candidates_ids scores bias : (candidates scores bias).*2 = zs (z_len scores).
Proof. unfold candidates. rewrite <- list_fmap_compose. apply list_fmap_id. Qed.

Lemma sorted_ahead (l : list Cand) n a b : sorted_by by_logit l -> a ∈ take n l -> b ∈ drop n l -> by_logit b a = false.
Proof. intros Hs Ha Hb. rewrite <- (take_drop n l) in Hs. by eapply (StronglySorted_app_1_elem_of _ _ _ _ _ Hs). Qed.

(** Of two different experts the one that is not behind is ahead. *)
Lemma ahead_strict a b : ranked a -> ranked b -> a.2 <> b.2 -> by_logit b a = false -> by_logit a b = true.
Proof.
  intros Ra Rb Hne Hb. destruct (by_logit a b) eqn:E; [done|]. apply by_logit_false in E; [|done..]. apply by_logit_false in Hb; [|done..].
  destruct E as [E|[E E']], Hb as [Hb|[Hb Hb']]; [apply f_ltb_asym in E; congruence| | |lia].
  - apply f_eqb_sym, f_eqb_not_ltb in Hb. congruence.
  - apply f_eqb_sym, f_eqb_not_ltb in E. congruence.
Qed.

(** The first of the ranking are different experts. *)
Lemma gate_best_NoDup scores bias n : NoDup (take n (ranking scores bias)).*2.
Proof. rewrite fmap_take. eapply sublist_NoDup; [|apply sublist_take]. rewrite ranking_perm, candidates_ids. apply zs_NoDup. Qed.

Section Ranking.
Context (scores bias : list float) (Hnan : Forall (fun i => f_isnan (biased scores bias i) = false) (zs (z_len scores))).

Lemma ranking_ids : (ranking scores bias).*2 ≡ₚ zs (z_len scores).
Proof. by rewrite ranking_perm, candidates_ids. Qed.
Lemma ranking_length : length (ranking scores bias) = length scores.
Proof. rewrite ranking_perm. unfold candidates. rewrite length_fmap, zs_length. unfold z_len. lia. Qed.
Lemma ranking_of c : c ∈ ranking scores bias -> c = (biased scores bias c.2, c.2) /\ ranked c /\ 0 <= c.2 < z_len scores.
Proof.
  rewrite ranking_perm. unfold candidates. intros (i & -> & Hi)%list_elem_of_fmap. split; [done|].
  split; [by apply (proj1 (Forall_forall _ _) Hnan)|by apply zs_elem].
Qed.
Lemma ranking_sorted : sorted_by by_logit (ranking scores bias).
Proof. apply sort_ranked, Forall_fmap. exact Hnan. Qed.

(** An earlier one is strictly ahead of a later one. *)
Lemma ranking_ahead i j a b : (i < j)%nat -> ranking scores bias !! i = Some a -> ranking scores bias !! j = Some b ->
  by_logit a b = true /\ a.2 <> b.2.
Proof.
  intros Hij Ha Hb. assert (Hne : a.2 <> b.2).
  { intros E. assert (i = j); [|lia]. apply (NoDup_lookup (ranking scores bias).*2 _ _ a.2);
      [rewrite ranking_ids; apply zs_NoDup|by rewrite list_lookup_fmap, Ha|by rewrite list_lookup_fmap, Hb, E]. }
  split; [|done]. apply ahead_strict; [by eapply ranking_of, list_elem_of_lookup_2..|done|].
  apply (sorted_ahead (ranking scores bias) j); [apply ranking_sorted| |].
  - apply list_elem_of_lookup. exists i. by rewrite lookup_take_lt.
  - apply list_elem_of_lookup. exists 0%nat. by rewrite lookup_drop, Nat.add_0_r.
Qed.
End Ranking.

(** C26: the router answers exactly when the experts asked for and a bias for each are there, and
    as many as it reports.  It ranks different experts best first, each strictly ahead of every
    later one and of every expert left out (by biased score, then by the lower number); reports
    their numbers in 16 bits, which are the numbers themselves for up to 65536 experts, and
    their unbiased scores; weighs each of the first [k] by its unbiased score divided by the
    rounded sum of the unbiased scores of the first [k] plus 1e-20, times the scaling; and
    gives the rest weight zero. *)
Theorem gate_topk_best scores bias k report scaling : z_len scores < 2 ^ 32 -> 0 <= k ->
  Forall (fun i => f_isnan (biased scores bias i) = false) (zs (z_len scores)) ->
  let want := Z.min (Z.max report k) kMaxTopK in
  (is_ok (gate_topk scores bias k report scaling) = true <->
     0 < k <= z_len scores /\ (bias = [] \/ z_len scores <= z_len bias) /\ want <= z_len scores) /\
  forall g, gate_topk scores bias k report scaling = Ret g -> exists best : list Z,
    z_len best = want /\ NoDup best /\ Forall (fun i => 0 <= i < z_len scores) best /\
    (forall i j x y, (i < j)%nat -> best !! i = Some x -> best !! j = Some y ->
       by_logit (biased scores bias x, x) (biased scores bias y, y) = true) /\
    (forall x y, x ∈ best -> 0 <= y < z_len scores -> y ∉ best ->
       by_logit (biased scores bias x, x) (biased scores bias y, y) = true) /\
    gr_k g = want /\ gr_ids g = u16 <$> best /\ (z_len scores <= 2 ^ 16 -> gr_ids g = best) /\
    gr_raw_scores g = f_nth scores <$> best /\ length (gr_weights g) = length best /\
    let denom := f32_add (foldl f32_add f32_zero (f_nth scores <$> take (Z.to_nat k) best)) kTinySum in
    forall i x, best !! i = Some x -> gr_weights g !! i =
      Some (if decide (Z.of_nat i < k) then f32_mul (f32_div (f_nth scores x) denom) scaling else f32_zero).
Proof.
  intros Hlen Hk0 Hnan want. assert (0 <= z_len scores) by (unfold z_len; lia).
  unfold gate_topk. rewrite (u32_small (z_len scores)) by lia. fold want.
  split.
  - destruct (Z.eqb_spec k 0), (Z.ltb_spec (z_len scores) k); cbn; try (split; [done|intros (? & _); lia]).
    destruct (bool_decide_reflect (bias = [])), (Z.ltb_spec (z_len bias) (z_len scores)); cbn;
      try (split; [done|intros (_ & [?|?] & _); [done|lia]]);
      destruct (Z.ltb_spec (z_len scores) want); cbn; (split; [try done|intros (_ & _ & ?); lia]); intros _; split_and!; (lia || tauto).
  - intros g ([] & _ & ([] & _ & ([] & Hw%fail_if_Ret%Z.ltb_ge & [= <-])%bind_Ret)%bind_Ret)%bind_Ret.
    set (best := (take (Z.to_nat want) (ranking scores bias)).*2). exists best. cbn [gr_k gr_ids gr_raw_scores gr_weights].
    assert (Hw0 : 0 <= want) by (unfold want, kMaxTopK; lia). pose proof (ranking_length scores bias) as Hl.
    assert (Hb : forall i x, best !! i = Some x -> (i < Z.to_nat want)%nat /\ exists a, ranking scores bias !! i = Some a /\ a = (biased scores bias x, x) /\ 0 <= x < z_len scores).
    { intros i x Hi. unfold best in Hi. rewrite list_lookup_fmap in Hi. apply fmap_Some in Hi as (a & Ha & ->).
      apply lookup_take_Some in Ha as [Ha Hi]. split; [done|]. exists a. split; [done|].
      by destruct (ranking_of scores bias Hnan a ltac:(by eapply list_elem_of_lookup_2)) as (E & _ & Hr). }
    assert (Hin : Forall (fun i => 0 <= i < z_len scores) best).
    { apply Forall_lookup. intros i x Hi. by destruct (Hb i x Hi) as (_ & a & _ & _ & Hr). }
    split_and!; [|by apply (gate_best_NoDup scores bias)|done| | |done|done| |done|by rewrite length_imap, length_fmap|].
    + unfold best, z_len in *. rewrite length_fmap, length_take. lia.
    + intros i j x y Hij Hi Hj. destruct (Hb i x Hi) as (_ & a & Ha & -> & _), (Hb j y Hj) as (_ & b & Hb' & -> & _).
      by apply (ranking_ahead scores bias Hnan i j).
    + intros x y [i Hi]%list_elem_of_lookup Hy Hny. destruct (Hb i x Hi) as (Hlt & a & Ha & -> & _).
      assert (Hyr : y ∈ (ranking scores bias).*2) by (rewrite ranking_ids; by apply zs_elem).
      apply list_elem_of_lookup in Hyr as [j Hj]. rewrite list_lookup_fmap in Hj. apply fmap_Some in Hj as (c & Hc & ->).
      destruct (ranking_of scores bias Hnan c ltac:(by eapply list_elem_of_lookup_2)) as (<- & _ & _).
      apply (ranking_ahead scores bias Hnan i j); [|done|done]. destruct (decide (i < j)%nat) as [|Hge]; [done|].
      destruct Hny. apply list_elem_of_lookup. exists j. unfold best. by rewrite list_lookup_fmap, lookup_take_lt, Hc by lia.
    + intros Hsmall. rewrite <- (list_fmap_id best) at 2. apply list_fmap_ext. intros i x Hi. apply u16_small.
      apply (proj1 (Forall_lookup _ _) Hin) in Hi. cbn in Hi |- *. lia.
    + intros i x Hi. rewrite list_lookup_imap, list_lookup_fmap, Hi. cbn. rewrite fmap_take.
      destruct (Z.ltb_spec (Z.of_nat i) k), (decide (Z.of_nat i < k)); (done || lia).
Qed.

Lemma gate_topk_best_witness : let scores := [f32_one; f32_of_Z 3; f32_of_Z 2; f32_of_Z 3] in
  exists g, gate_topk scores [] 2 3 kRoutedScaling = Ret g /\ NoDup (gr_ids g) /\ gr_ids g = [1; 3; 2].
Proof.
  cbv zeta. destruct (gate_topk [f32_one; f32_of_Z 3; f32_of_Z 2; f32_of_Z 3] [] 2 3 kRoutedScaling) as [g|] eqn:E;
    [|exfalso; revert E; by vm_compute].
  destruct (gate_topk_best [f32_one; f32_of_Z 3; f32_of_Z 2; f32_of_Z 3] [] 2 3 kRoutedScaling) as [_ H].
  - done.
  - lia.
  - repeat (constructor; [by vm_compute|]). constructor.
  - exists g. split; [done|]. destruct (H g E) as (best & _ & Hn & _ & _ & _ & _ & _ & Hid & _). rewrite (Hid ltac:(by vm_compute)).
    split; [exact Hn|]. rewrite <- (Hid ltac:(by vm_compute)).
    assert (Hg : match gate_topk [f32_one; f32_of_Z 3; f32_of_Z 2; f32_of_Z 3] [] 2 3 kRoutedScaling with Ret g => gr_ids g = [1; 3; 2] | Fail _ => False end)
      by by vm_compute.
    by rewrite E in Hg.
Defined.

(** Asking for a report longer than there are experts reads past the end. *)
Lemma report_past_experts : gate_topk [f32_one; f32_one] [] 1 16 kRoutedScaling = Fail Internal.
Proof. by vm_compute. Qed.

(** ** Resident-only routing *)

Lemma route_sums_first w_in resident : let '(_, _, first, n) := route_sums w_in resident in
  n = z_len (filter (fun s => is_res resident s = true) (seq 0 (length w_in))) /\
  match first with
  | Some f => (f < length w_in)%nat /\ is_res resident f = true
  | None => forall s, (s < length w_in)%nat -> is_res resident s = false
  end.
Proof.
  unfold route_sums.
  assert (Hg : forall (l : list float) b all kept first n,
    match first with Some f => (f < b + length l)%nat /\ is_res resident f = true | None => forall s, (s < b)%nat -> is_res resident s = false end ->
    let '(_, _, first', n') := foldl (fun '(all, kept, first, n) '(s, w) =>
        let all := f64_add all (f32_to_f64 w) in
        if is_res resident s
        then (all, f64_add kept (f32_to_f64 w), match first with None => Some s | Some _ => first end, n + 1)
        else (all, kept, first, n)) (all, kept, first, n) (imap (fun i w => ((b + i)%nat, w)) l) in
    n' = n + z_len (filter (fun s => is_res resident s = true) (seq b (length l))) /\
    match first' with Some f => (f < b + length l)%nat /\ is_res resident f = true | None => forall s, (s < b + length l)%nat -> is_res resident s = false end).
  { induction l as [|w l IH]; intros b all kept first n Hf.
    - cbn. unfold z_len. cbn. split; [lia|]. destruct first; [done|]. intros s Hs. apply Hf. lia.
    - cbn [imap]. rewrite (imap_ext _ (fun i w => ((S b + i)%nat, w))) by (intros; cbn; f_equal; lia).
      cbn [foldl length seq]. rewrite filter_cons, Nat.add_0_r. destruct (is_res resident b) eqn:Eb.
      + rewrite decide_True by done. specialize (IH (S b) (f64_add all (f32_to_f64 w)) (f64_add kept (f32_to_f64 w))
          (match first with None => Some b | Some _ => first end) (n + 1)).
        replace (b + S (length l))%nat with (S b + length l)%nat by lia.
        destruct (foldl _ _ _) as [[[a c] f'] n']. destruct IH as [-> Hf']; [|split; [unfold z_len; cbn; lia|exact Hf']].
        destruct first; [destruct Hf; split; [cbn in *; lia|done]|split; [lia|done]].
      + rewrite decide_False by done. specialize (IH (S b) (f64_add all (f32_to_f64 w)) kept first n).
        replace (b + S (length l))%nat with (S b + length l)%nat by lia.
        destruct (foldl _ _ _) as [[[a c] f'] n']. apply IH. destruct first; [destruct Hf; split; [cbn in *; lia|done]|].
        intros s Hs. destruct (decide (s = b)) as [->|]; [done|]. apply Hf. lia. }
  specialize (Hg w_in 0%nat f64_zero f64_zero None 0 ltac:(cbn; intros; lia)).
  change (imap pair w_in) with (imap (fun i w => ((0 + i)%nat, w)) w_in). destruct (foldl _ _ _) as [[[a c] f'] n']. exact Hg.
Qed.

(** C27: resident-only routing keeps one entry per slot; a resident slot keeps its expert, a slot
    that is not has weight exactly zero, and when any slot is resident every id handed to the GPU
    is the id of a resident slot; when none is, every weight is zero and every id is the one the
    caller vouched for. *)
Theorem resident_route_safe ids_in w_in resident fill_id : length ids_in = length w_in ->
  let '(r, ids, w) := resident_route ids_in w_in resident fill_id in
  length ids = length w_in /\ length w = length w_in /\
  rt_kept r = z_len (filter (fun s => is_res resident s = true) (seq 0 (length w_in))) /\
  (rt_shared_only r = true <-> forall s, (s < length w_in)%nat -> is_res resident s = false) /\
  (forall s, (s < length w_in)%nat -> is_res resident s = false -> nth s w f32_one = f32_zero) /\
  (rt_shared_only r = true -> Forall (fun i => i = fill_id) ids) /\
  (rt_shared_only r = false ->
     (forall s, (s < length w_in)%nat -> is_res resident s = true -> nth s ids 0 = nth s ids_in 0) /\
     forall i, i ∈ ids -> exists s, (s < length w_in)%nat /\ is_res resident s = true /\ nth s ids_in 0 = i).
Proof.
  intros Hl. pose proof (route_sums_first w_in resident) as H. unfold resident_route.
  destruct (route_sums w_in resident) as [[[all kept] first] n]. destruct H as [-> Hf]. destruct first as [f|].
  - destruct Hf as [Hlt Hr]. cbn. split_and!.
    + by rewrite length_imap.
    + by rewrite length_imap.
    + done.
    + split; [done|]. intros Hn. rewrite Hn in Hr by done. done.
    + intros s Hs Hres. apply nth_lookup_Some. rewrite list_lookup_imap.
      destruct (lookup_lt_is_Some_2 w_in s Hs) as [x ->]. cbn. by rewrite Hres.
    + done.
    + intros _. split.
      * intros s Hs Hres. apply nth_lookup_Some. rewrite list_lookup_imap.
        destruct (lookup_lt_is_Some_2 w_in s Hs) as [x ->]. cbn. by rewrite Hres.
      * intros i (s & x & -> & Hs)%elem_of_lookup_imap. apply lookup_lt_Some in Hs. destruct (is_res resident s) eqn:Es; [by exists s|by exists f].
  - cbn. split_and!.
    + by rewrite length_fmap.
    + by rewrite length_fmap.
    + unfold z_len. assert (E : filter (fun s => is_res resident s = true) (seq 0 (length w_in)) = []); [|by rewrite E].
      apply elem_of_nil_inv. intros s (Hs & Hin%elem_of_seq)%list_elem_of_filter. rewrite Hf in Hs by lia. done.
    + done.
    + intros s Hs _. apply nth_lookup_Some. rewrite list_lookup_fmap. by destruct (lookup_lt_is_Some_2 w_in s Hs) as [x ->].
    + intros _. by apply Forall_fmap, Forall_true.
    + done.
Qed.

Lemma resident_route_safe_witness : let w := [f32_one; f32_of_Z 2; f32_one] in
  length [10; 11; 12] = length w /\ (resident_route [10; 11; 12] w [false; true; false] 0).1.2 = [11; 11; 11] /\
  let '(r, ids, w') := resident_route [10; 11; 12] w [false; true; false] 0 in length w' = 3%nat.
Proof.
  cbv zeta. split_and!; [done|by vm_compute|].
  pose proof (resident_route_safe [10; 11; 12] [f32_one; f32_of_Z 2; f32_one] [false; true; false] 0 eq_refl) as H.
  destruct (resident_route _ _ _ _) as [[r ids] w']. apply H.
Defined.

(** ** What is waited for *)

Definition is_miss (weights effective : list float) (i : nat) : Prop :=
  exists w e, weights !! i = Some w /\ effective !! i = Some e /\ f_gtb w f32_zero = true /\ f_eqb e f32_zero = true.

Lemma misses_spec weights effective : length effective = length weights ->
  let '(miss, _, _) := misses weights effective in NoDup miss.*2 /\
  forall w i, (w, i) ∈ miss <-> weights !! i = Some w /\ is_miss weights effective i.
Proof.
  intros Hl. unfold misses.
  assert (Hg : forall (l : list (float * float)) b miss total lost, NoDup miss.*2 -> (forall i, i ∈ miss.*2 -> (i < b)%nat) ->
    let '(miss', _, _) := foldl (fun '(miss, total, lost) '(i, (w, e)) =>
      let total := f64_add total (f32_to_f64 w) in
      if f_gtb w f32_zero && f_eqb e f32_zero then (miss ++ [(w, i)], total, f64_add lost (f32_to_f64 w)) else (miss, total, lost))
      (miss, total, lost) (imap (fun i x => ((b + i)%nat, x)) l) in
    NoDup miss'.*2 /\ forall w i, (w, i) ∈ miss' <-> (w, i) ∈ miss \/
      exists j e, i = (b + j)%nat /\ l !! j = Some (w, e) /\ f_gtb w f32_zero = true /\ f_eqb e f32_zero = true).
  { induction l as [|[w e] l IH]; intros b miss total lost Hn Hb.
    - cbn. split; [done|]. intros w i. split; [by left|intros [?|(j & e & _ & [=] & _)]; done].
    - cbn [imap]. rewrite (imap_ext _ (fun i x => ((S b + i)%nat, x))) by (intros; cbn; f_equal; lia). cbn [foldl]. rewrite Nat.add_0_r.
      destruct (f_gtb w f32_zero && f_eqb e f32_zero) eqn:E.
      + specialize (IH (S b) (miss ++ [(w, b)]) (f64_add total (f32_to_f64 w)) (f64_add lost (f32_to_f64 w))).
        destruct (foldl _ _ _) as [[miss' t'] l']. destruct IH as [Hn' Hin].
        * rewrite fmap_app. apply NoDup_app. split_and!; [done| |apply NoDup_singleton].
          intros i Hi ->%list_elem_of_singleton. specialize (Hb _ Hi). cbn in Hb. lia.
        * intros i. rewrite fmap_app, elem_of_app. intros [Hi| ->%list_elem_of_singleton]; [specialize (Hb _ Hi)|cbn]; lia.
        * split; [done|]. intros w' i. rewrite Hin, elem_of_app, list_elem_of_singleton. apply andb_true_iff in E as [E1 E2]. split.
          -- intros [[Hi|[= -> ->]]|(j & e' & -> & Hj & ?)]; [by left| |]; right; [exists 0%nat, e|exists (S j), e']; (split; [lia|done]).
          -- intros [Hi|([|j] & e' & -> & Hj & H1 & H2)]; [by left; left| |].
             ++ injection Hj as <- <-. left. right. f_equal. lia.
             ++ right. exists j, e'. split; [lia|done].
      + specialize (IH (S b) miss (f64_add total (f32_to_f64 w)) lost). destruct (foldl _ _ _) as [[miss' t'] l'].
        destruct IH as [Hn' Hin]; [done|intros i Hi; specialize (Hb _ Hi); lia|]. split; [done|]. intros w' i. rewrite Hin. split.
        * intros [Hi|(j & e' & -> & Hj & ?)]; [by left|right; exists (S j), e'; split; [lia|done]].
        * intros [Hi|([|j] & e' & -> & Hj & H1 & H2)]; [by left| |right; exists j, e'; split; [lia|done]].
          injection Hj as -> ->. by rewrite H1, H2 in E. }
  specialize (Hg (zip weights effective) 0%nat [] f64_zero f64_zero (NoDup_nil_2 : NoDup ([] : list (float * nat)).*2)
    ltac:(intros i Hi; by apply not_elem_of_nil in Hi)).
  change (imap pair (zip weights effective)) with (imap (fun i x => ((0 + i)%nat, x)) (zip weights effective)).
  destruct (foldl _ _ _) as [[miss t] l]. destruct Hg as [Hn Hin]. split; [done|]. intros w i. rewrite Hin. unfold is_miss. split.
  - intros [Hi|(j & e & -> & Hj & H1 & H2)]; [by apply not_elem_of_nil in Hi|]. apply lookup_zip_with_Some in Hj as (w' & e' & [= -> ->] & Hw & He).
    cbn. split; [done|]. by exists w', e'.
  - intros [Hw (w' & e & Hw' & He & H1 & H2)]. right. exists i, e. rewrite Hw in Hw'. injection Hw' as <-.
    split_and!; [lia| |done|done]. apply lookup_zip_with_Some. by exists w, e.
Qed.

Lemma heavier_neg_trans a b c : f_isnan a.1 = false -> f_isnan b.1 = false -> f_isnan c.1 = false ->
  heavier a b = false -> heavier b c = false -> heavier a c = false.
Proof. unfold heavier, f_gtb. intros Ha Hb Hc H1 H2. by apply (f_ltb_neg_trans c.1 b.1 a.1). Qed.

Lemma wait_prefix_take miss lost bound so : exists n, wait_prefix miss lost bound so = take n miss /\
  (n = length miss \/ f_leb (foldl (fun l x => f64_sub l (f32_to_f64 x.1)) lost (take n miss)) bound = true) /\
  (so = true -> miss <> [] -> (0 < n)%nat).
Proof.
  revert lost so. induction miss as [|x miss IH]; intros lost so; [by exists 0%nat; split_and!; [|left|]|]. cbn [wait_prefix].
  destruct (f_leb lost bound && negb so) eqn:E.
  - apply andb_true_iff in E as [E1 E2]. exists 0%nat. split_and!; [done|by right|]. by intros ->.
  - destruct (IH (f64_sub lost (f32_to_f64 x.1)) false) as (n & -> & Hn & _). exists (S n). split_and!; [done| |lia].
    destruct Hn as [->|Hn]; [by left|by right].
Qed.

(** What is waited for are misses of the mask, each once, and no miss passed over is heavier
    than one waited for; with nothing resident at all and a bound below 1, at least one expert is
    waited for. *)
Theorem waits_for_heaviest weights effective tau : length effective = length weights ->
  Forall (fun w => f_isnan w = false) weights -> let out := mask_wait_candidates weights effective tau in
  NoDup out /\ Forall (is_miss weights effective) out /\
  (out <> [] -> forall i j w v, i ∈ out -> is_miss weights effective j -> j ∉ out ->
     weights !! i = Some w -> weights !! j = Some v -> f_gtb v w = false) /\
  (f_geb tau f64_one = false -> f_gtb (misses weights effective).1.2 f64_zero = true -> weights <> [] ->
     (forall i, (i < length weights)%nat -> is_miss weights effective i) -> out <> []).
Proof.
  intros Hl Hnan. unfold mask_wait_candidates. pose proof (misses_spec weights effective Hl) as H.
  destruct (misses weights effective) as [[miss total] lost]. destruct H as [Hn Hin]. cbv zeta.
  destruct (f_geb tau f64_one || f_leb total f64_zero) eqn:Eg.
  { split_and!; [constructor|constructor|done|]. intros Ht Htot. rewrite Ht in Eg. cbn in Eg, Htot.
    destruct total as [[]|[]| |[] ? ?]; done. }
  set (sorted := std_sort heavier miss). assert (Hp : sorted ≡ₚ miss) by apply std_sort_perm.
  destruct (wait_prefix_take sorted lost (f64_mul tau total) (length miss =? length weights)%nat) as (n & -> & _ & Hfirst).
  assert (Hfm : Forall (fun x : float * nat => f_isnan x.1 = false) miss).
  { apply Forall_forall. intros [w i] Hx. apply Hin in Hx as [Hw _]. rewrite Forall_forall in Hnan. apply Hnan. by eapply list_elem_of_lookup_2. }
  assert (Hs : sorted_by heavier sorted).
  { apply (std_sort_sorted heavier (fun x => f_isnan x.1 = false)); [|intros a b _ _; apply f_ltb_asym|done]. exact heavier_neg_trans. }
  assert (Hnd : NoDup sorted.*2) by (by rewrite Hp).
  assert (Ht : snd <$> take n sorted = take n sorted.*2) by (by rewrite fmap_take).
  split_and!.
  - rewrite Ht. by eapply sublist_NoDup, sublist_take.
  - rewrite Forall_fmap. apply Forall_forall. intros [w i] Hx. apply (subseteq_take n sorted) in Hx. rewrite Hp in Hx. by apply Hin in Hx as [_ ?].
  - intros _ i j w v ([w' i'] & -> & Hi)%list_elem_of_fmap Hj Hnj Hw Hv.
    assert (Hjs : (v, j) ∈ sorted) by (rewrite Hp; by apply Hin).
    assert (Hiw : w' = w).
    { apply (subseteq_take n sorted) in Hi. rewrite Hp in Hi. apply Hin in Hi as [Hi _]. cbn in Hw. congruence. }
    subst w'. rewrite <- (take_drop n sorted) in Hjs, Hs. apply elem_of_app in Hjs as [Hjs|Hjs].
    { destruct Hnj. apply list_elem_of_fmap. by exists (v, j). }
    exact (StronglySorted_app_1_elem_of _ _ _ _ _ Hs Hi Hjs).
  - intros _ _ Hne Hall E. assert (Hm : length miss = length weights).
    { apply Nat.le_antisymm.
      - assert (Hsub : miss.*2 ⊆+ seq 0 (length weights)); [|apply submseteq_length in Hsub; by rewrite length_fmap, length_seq in Hsub].
        apply NoDup_submseteq; [done|]. intros i ([w j] & -> & Hx)%list_elem_of_fmap. apply Hin in Hx as [Hx%lookup_lt_Some _].
        apply elem_of_seq. cbn. lia.
      - assert (Hsub : seq 0 (length weights) ⊆+ miss.*2); [|apply submseteq_length in Hsub; by rewrite length_fmap, length_seq in Hsub].
        apply NoDup_submseteq; [apply NoDup_seq|]. intros i Hi%elem_of_seq. destruct (Hall i ltac:(lia)) as (w & e & Hw & He).
        apply list_elem_of_fmap. exists (w, i). split; [done|]. apply Hin. split; [done|]. by exists w, e. }
    assert (Hn0 : (0 < n)%nat).
    { apply Hfirst; [by apply Nat.eqb_eq|]. intros En. apply Permutation_length in Hp. rewrite En, Hm in Hp. by destruct weights. }
    destruct sorted as [|x sorted]; [|destruct n; [lia|discriminate]]. apply Permutation_length in Hp. rewrite Hm in Hp. by destruct weights.
Qed.

Lemma waits_for_heaviest_witness : let w := [f32_one; f32_of_Z 4; f32_of_Z 2] in
  let e := [f32_zero; f32_zero; f32_of_Z 2] in
  mask_wait_candidates w e (f64_lit 1 (-1)) = [1%nat] /\ Forall (is_miss w e) [1%nat].
Proof.
  cbv zeta. assert (E : mask_wait_candidates [f32_one; f32_of_Z 4; f32_of_Z 2] [f32_zero; f32_zero; f32_of_Z 2] (f64_lit 1 (-1)) = [1%nat])
    by by vm_compute.
  split; [done|]. rewrite <- E.
  refine (proj1 (proj2 (waits_for_heaviest [f32_one; f32_of_Z 4; f32_of_Z 2] [f32_zero; f32_zero; f32_of_Z 2] (f64_lit 1 (-1)) eq_refl _))).
  by repeat constructor.
Defined.
