(* ===== verification/EngineContext.v ===== *)
(** What the engine ([src/runtime/engine.cpp], [engine.h]) keeps of one conversation, and the
    operations on it: a decode step's bookkeeping around the device's work, feeding tokens,
    declaring, resetting and prefilling a context, and the retained prompt boundary.

    The device is the interface [Device]: the layers of a step ([run_layer] to
    [collapse_and_sample]) and a prefill run over the prompt's tokens, which only read and write
    memory the host has pointed them at.  Its state, and the drafter's, are threaded.  Wall-clock
    fields, the profiler and the logs are omitted. *)

From S2P Require Import Prelude Types Floats Dequant V41Config KvLayout KvStore Sampling.

Definition kMaxIndexPositions : Z := 1048576.
Definition kDsparkCaptureWidth : Z := 3 * kHiddenSize.

(** The bit pattern of a [double]. *)
Definition bits_of_f64 (x : float) : Z :=
  let sgn (s : bool) := if s then 2 ^ 63 else 0 in
  match x with
  | S754_zero s => sgn s
  | S754_infinity s => sgn s + 2047 * 2 ^ 52
  | S754_nan => 0x7FF8000000000000
  | S754_finite s m e =>
      if Zpos m <? 2 ^ 52 then sgn s + Zpos m else sgn s + (e + 1075) * 2 ^ 52 + (Zpos m - 2 ^ 52)
  end.

(** ** Data *)

(** A step's result; floats are their bit patterns. *)
Record DecodeStepResult := mkStep {
  dr_token : Z; dr_position : Z; dr_top1 : Z; dr_top2 : Z; dr_greedy_token : Z;
  dr_sampled : bool; dr_topk_fallback : bool; dr_topk_checked : bool; dr_topk_mismatch : bool;
  dr_candidates : Z; dr_nucleus_size : Z; dr_p_token : Z; dr_retained : Z; dr_kept : Z;
  dr_requests : Z; dr_hits : Z; dr_miss_bytes : Z }.
#[export] Instance DecodeStepResult_eta : Eta DecodeStepResult := fun r =>
  mkStep (dr_token r) (dr_position r) (dr_top1 r) (dr_top2 r) (dr_greedy_token r)
    (dr_sampled r) (dr_topk_fallback r) (dr_topk_checked r) (dr_topk_mismatch r)
    (dr_candidates r) (dr_nucleus_size r) (dr_p_token r) (dr_retained r) (dr_kept r) (dr_requests r) (dr_hits r) (dr_miss_bytes r).
Definition DecodeStepResult_default : DecodeStepResult :=
  mkStep 0 0 0 0 0 false false false false 0 0 0 0 0 0 0 0.

(** The hidden means kept for the drafter: a window of rows, the position each holds and which
    layers were captured. *)
Record DraftWindow := mkDraft { dw_hidden : list Z; dw_position : list Z; dw_mask : list Z }.
Definition draft_empty : DraftWindow :=
  mkDraft [] (replicate (Z.to_nat kSlidingWindow) (-1)) (replicate (Z.to_nat kSlidingWindow) 0).

Record HandoffLayer := mkHandoff {
  hl_win_kv : list float; hl_cmp_cache : list float; hl_index_k : list float;
  hl_cmp_state_kv : list Z; hl_cmp_state_score : list Z; hl_n_cmp : Z; hl_ratio : Z }.
Record PrefillHandoff := mkPrefill {
  ph_prompt : list Z; ph_first_token : Z; ph_top1 : Z; ph_top2 : Z; ph_logits : list float; ph_layers : list HandoffLayer }.

(** Which source a layer reads its compressed rows and its top-k list from. *)
Record CedPlan := { cd_ratio : Z; cd_is_kv_source : bool; cd_is_index_source : bool; cd_cmp_src : Z; cd_idx_src : Z }.

(** ** The device *)

Class Device (W : Type) := {
  (** sampling?, token, position, history; leaves memory, the captured means and itself. *)
  run_layers : bool -> Z -> Z -> list Z -> DraftWindow -> KvStore -> W -> Result DecodeStepResult * DraftWindow * KvStore * W;
  run_prefill : list Z -> Z -> DraftWindow -> W -> Result PrefillHandoff * DraftWindow * W;
  drafter_reset : W -> W }.

Record Engine {A W : Type} := mkEngine {
  en_alloc : A; en_kvs : KvStore; en_device : W;
  en_history : list Z; en_draft : DraftWindow;
  en_prompt_draft : DraftWindow; en_prompt_tokens : list Z; en_prompt_carry : KvRowBackup; en_prompt_first : option DecodeStepResult;
  en_sampling : SamplingParams; en_gpu_ready : bool; en_produce_ced : bool; en_prefill_loaded : bool }.
Arguments Engine : clear implicits.
#[export] Instance Engine_eta A W : Eta (Engine A W) := fun e =>
  mkEngine A W (en_alloc e) (en_kvs e) (en_device e) (en_history e) (en_draft e) (en_prompt_draft e) (en_prompt_tokens e)
    (en_prompt_carry e) (en_prompt_first e) (en_sampling e) (en_gpu_ready e) (en_produce_ced e) (en_prefill_loaded e).

Section Context_.
Context {A W : Type} `{MemoryAllocator A, Device W}.
Context (c : TextConfig) (std_exp std_log : float -> float).
#[local] Abbreviation Engine := (Engine A W).

(** ** Operations: what they answer and the engine they leave *)

Definition EM (T : Type) : Type := Engine -> Result T * Engine.
#[export] Instance EM_ret : MRet EM := fun T x e => (Ret x, e).
#[export] Instance EM_bind : MBind EM := fun T U f m e => match m e with (Ret x, e) => f x e | (Fail r, e) => (Fail r, e) end.
Definition em_guard (bad : bool) (r : Err) : EM unit := fun e => (fail_if bad r, e).
Definition em_of {T} (r : Result T) : EM T := fun e => (r, e).
Definition em_get : EM Engine := fun e => (Ret e, e).
Definition em_update (f : Engine -> Engine) : EM unit := fun e => (Ret tt, f e).
(** An operation on the KV store. *)
Definition on_kvs {T} (m : KM (A:=A) T) : EM T := fun e =>
  let '(r, (a, k)) := m (en_alloc e, en_kvs e) in (r, (e <| en_alloc := a |>) <| en_kvs := k |>).
Fixpoint em_for {X} (l : list X) (body : X -> EM unit) : EM unit :=
  match l with [] => mret tt | x :: l => _ ← body x; em_for l body end.

Definition context_length (e : Engine) : Z := u32 (len_Z (en_history e)).
Definition max_context (e : Engine) : Z := Z.min (kc_max_context (k_cfg (en_kvs e))) kMaxIndexPositions.

(** ** Which rows a step may read *)

Fixpoint ced_from (cmp idx : Z) (ls : list Z) : list CedPlan :=
  match ls with
  | [] => []
  | l :: ls =>
      let cmp := if is_kv_source c l then l else cmp in
      let idx := if is_index_source c l then l else idx in
      {| cd_ratio := compress_ratio c l; cd_is_kv_source := is_kv_source c l; cd_is_index_source := is_index_source c l;
         cd_cmp_src := cmp; cd_idx_src := idx |} :: ced_from cmp idx ls
  end.
Definition build_ced_plan : list CedPlan := ced_from 0 0 (layer_ids (tc_num_hidden_layers c)).

Definition layer_rows (position : Z) (p : CedPlan) : Z :=
  if cd_ratio p =? 0 then 0 else u32 (position + 1) / cd_ratio p.
Definition prepare_layer (position : Z) (lp : Z * CedPlan) : KM (A:=A) unit :=
  let '(l, p) := lp in
  let n_cmp := layer_rows position p in
  _ ← km_guard (kMaxIndexPositions <? n_cmp) ResourceExhausted;
  let n_sel := Z.min n_cmp (tc_index_topk c) in
  if (cd_ratio p =? 0) || cd_is_index_source p then set_decode_topk l position n_cmp n_sel
  else set_counts l n_cmp (u32 (tc_sliding_window c + n_sel)).
Definition prepare_ced (position : Z) : KM (A:=A) unit :=
  km_for (imap (fun i p => (Z.of_nat i, p)) build_ced_plan) (prepare_layer position).

(** ** A decode step *)

(** [history_[position] = token], the gap filled with zeros. *)
Definition record_token (token position : Z) (h : list Z) : list Z :=
  <[Z.to_nat position := token]> (h ++ replicate (Z.to_nat (position + 1) - length h) 0).
Definition run_on_device (sample : bool) (token position : Z) : EM DecodeStepResult := fun e =>
  let '(r, d, k, w) := run_layers sample token position (en_history e) (en_draft e) (en_kvs e) (en_device e) in
  (r, ((e <| en_draft := d |>) <| en_kvs := k |>) <| en_device := w |>).
Definition decode_step (sample : bool) (token position : Z) : EM DecodeStepResult :=
  e ← em_get;
  _ ← em_guard (negb (en_gpu_ready e)) FailedPrecondition;
  _ ← em_update (fun e => e <| en_history ::= record_token token position |>);
  _ ← (if en_produce_ced e then on_kvs (prepare_ced position) else mret tt);
  run_on_device sample token position.

(** [feed]: one step a token, only the last of which samples. *)
Fixpoint feed_from (base : Z) (tokens : list Z) (last : DecodeStepResult) : EM DecodeStepResult :=
  match tokens with
  | [] => mret last
  | t :: rest => r ← decode_step (bool_decide (rest = [])) t base; feed_from (u32 (base + 1)) rest r
  end.
Definition feed (tokens : list Z) : EM DecodeStepResult :=
  e ← em_get;
  _ ← em_guard (negb (en_gpu_ready e)) FailedPrecondition;
  _ ← em_guard (negb (en_produce_ced e)) FailedPrecondition;
  _ ← em_guard (bool_decide (tokens = [])) InvalidArgument;
  _ ← em_guard (max_context e <? context_length e + len_Z tokens) ResourceExhausted;
  feed_from (context_length e) tokens DecodeStepResult_default.

(** ** Declaring and emptying the context *)

(** [common_context_prefix], and the loop of [set_context_tokens]. *)
Fixpoint common_prefix (a b : list Z) : nat :=
  match a, b with x :: a, y :: b => if x =? y then S (common_prefix a b) else 0 | _, _ => 0 end.

Definition set_context_tokens (tokens : list Z) : EM unit :=
  e ← em_get;
  _ ← em_guard (negb (en_gpu_ready e)) FailedPrecondition;
  _ ← em_guard (max_context e <? len_Z tokens) ResourceExhausted;
  let common := Z.of_nat (common_prefix tokens (en_history e)) in
  _ ← on_kvs (truncate_prompt_ring (u32 common));
  em_update (fun e => ((e <| en_prompt_first ::= fun p => if common <? len_Z (en_prompt_tokens e) then None else p |>)
    <| en_prompt_draft ::= fun d => mkDraft (dw_hidden d) ((fun p => if common <=? p then -1 else p) <$> dw_position d) (dw_mask d) |>)
    <| en_history := tokens |>).

Definition reset_context (e : Engine) : Engine :=
  (((((((e <| en_prompt_draft ::= fun d => mkDraft [] (dw_position d) (dw_mask d) |>) <| en_prompt_first := None |>)
    <| en_kvs ::= clear_store |>) <| en_history := [] |>) <| en_draft := draft_empty |>) <| en_device ::= drafter_reset |>)
    <| en_prefill_loaded := false |>).

(** ** The context a prefill leaves *)

Definition seed_layer (lh : Z * HandoffLayer) : KM (A:=A) unit :=
  let '(l, h) := lh in
  let rows := u32 (len_Z (hl_win_kv h) / tc_head_dim c) in
  _ ← (if rows =? 0 then mret tt else seed_window l (hl_win_kv h) rows);
  _ ← (if bool_decide (hl_cmp_cache h = []) || (hl_n_cmp h =? 0) then mret tt
       else _ ← seed_compressed l (hl_cmp_cache h) (hl_n_cmp h); seed_index_k l (hl_index_k h) (hl_n_cmp h));
  if bool_decide (hl_cmp_state_kv h = []) || (hl_ratio h =? 0) then mret tt
  else seed_cmp_state l (hl_cmp_state_kv h) (hl_cmp_state_score h) (hl_ratio h).
Definition forget_boundary (e : Engine) : Engine :=
  (e <| en_prompt_draft ::= fun d => mkDraft [] (dw_position d) (dw_mask d) |>) <| en_prompt_first := None |>.
Definition seed_from_prefill (h : PrefillHandoff) : EM unit :=
  _ ← em_update forget_boundary;
  e ← em_get;
  _ ← em_guard (negb (en_gpu_ready e)) FailedPrecondition;
  _ ← em_guard (negb (len_Z (ph_layers h) =? tc_num_hidden_layers c)) InvalidArgument;
  _ ← em_guard (max_context e <? len_Z (ph_prompt h)) ResourceExhausted;
  _ ← on_kvs clear;
  _ ← on_kvs (km_for (imap (fun i l => (Z.of_nat i, l)) (ph_layers h)) seed_layer);
  em_update (fun e => ((e <| en_history := ph_prompt h |>) <| en_produce_ced := true |>) <| en_prefill_loaded := false |>).

(** The first token: the prefill's argmax, or a draw from its logits. *)
Definition prefill_result (p : SamplingParams) (n : Z) (h : PrefillHandoff) : DecodeStepResult :=
  let position := u32 (n - 1) in
  let r := mkStep (ph_first_token h) position (ph_top1 h) (ph_top2 h) (ph_first_token h) false false false false 0 0 0 0 0 0 0 0 in
  if greedy p || negb (len_Z (ph_logits h) =? tc_vocab_size c) then r
  else
    let nuc := nucleus_from_full std_exp std_log (ph_logits h) (sp_temperature p) (sp_top_p p) in
    if bool_decide (nu_ids nuc = []) then r
    else
      let t := sample_nucleus nuc (uniform01 (sp_seed p) (position + 1)) in
      let p_token := match list_find (fun ip => ip.1 = t) (zip (nu_ids nuc) (nu_p nuc)) with
                     | Some (_, ip) => bits_of_f64 ip.2 | None => 0 end in
      mkStep t position (ph_top1 h) (ph_top2 h) (ph_first_token h) true true false false 0 (u32 (len_Z (nu_ids nuc)))
        p_token (bits_of_f64 f64_one) (bits_of_f64 (nu_kept nuc)) 0 0 0.
Definition gpu_prefill (prompt : list Z) (replay : Z) : EM DecodeStepResult :=
  e ← em_get;
  _ ← em_guard (negb (en_gpu_ready e)) FailedPrecondition;
  _ ← em_guard (bool_decide (prompt = [])) InvalidArgument;
  h ← (fun e => let '(r, d, w) := run_prefill prompt replay (en_draft e) (en_device e) in
                (r, (e <| en_draft := d |>) <| en_device := w |>));
  _ ← seed_from_prefill h;
  e ← em_get;
  mret (prefill_result (en_sampling e) (len_Z prompt) h).

(** ** The retained prompt boundary *)

Definition retain_prompt_state (first : option DecodeStepResult) : EM unit :=
  _ ← em_update (fun e => e <| en_prompt_first := None |>);
  e ← em_get;
  match first with
  | None => mret tt
  | Some f =>
      if negb (greedy (en_sampling e)) || (8192 <? context_length e) then mret tt
      else
        carry ← em_of (backup_rows (en_kvs e) (context_length e) (context_length e));
        _ ← on_kvs (retain_prompt_ring (context_length e));
        em_update (fun e => (((e <| en_prompt_draft := en_draft e |>) <| en_prompt_carry := carry |>)
                               <| en_prompt_tokens := en_history e |>) <| en_prompt_first := Some f |>)
  end.

(** The rows of the draft window the boundary kept, put back. *)
Definition recover_draft (keep : Z) (p d : DraftWindow) : DraftWindow :=
  let lo := if kSlidingWindow <=? keep then keep - kSlidingWindow else 0 in
  let w := Z.to_nat kDsparkCaptureWidth in
  foldl (fun d s =>
    let pos := nth s (dw_position p) (-1) in
    if (pos <? lo) || (keep <=? pos) then d
    else mkDraft (overlay (s * w) (subspan (dw_hidden p) (s * w) w) (dw_hidden d))
           (<[s := pos]> (dw_position d)) (<[s := nth s (dw_mask p) 0]> (dw_mask d)))
    d (seq 0 (Z.to_nat kSlidingWindow)).
Definition recover_prompt_state (keep : Z) : EM Z :=
  _ ← em_update (fun e =>
        if bool_decide (dw_hidden (en_prompt_draft e) = []) then e
        else (e <| en_draft ::= recover_draft keep (en_prompt_draft e) |>) <| en_device ::= drafter_reset |>);
  on_kvs (recover_prompt_ring keep).

(** Whether the boundary is of exactly these tokens and the history still begins with them. *)
Definition boundary_matches (tokens : list Z) (sampling : SamplingParams) (e : Engine) : bool :=
  greedy sampling && has_prompt_ring (en_kvs e) && bool_decide (tokens = en_prompt_tokens e) &&
  (length tokens <=? length (en_history e))%nat && bool_decide (tokens = take (length tokens) (en_history e)).
Definition reuse_prompt (tokens : list Z) (sampling : SamplingParams) : EM (option DecodeStepResult) :=
  e ← em_get;
  match en_prompt_first e with
  | Some first =>
      if boundary_matches tokens sampling e
      then
        _ ← recover_prompt_state (u32 (len_Z tokens));
        e ← em_get;
        _ ← on_kvs (restore_carry (en_prompt_carry e));
        _ ← set_context_tokens tokens;
        mret (Some first)
      else mret None
  | None => mret None
  end.
End Context_.
