(* ===== verification/SessionReplay.v ===== *)
(** Rolling a context back, parking it and putting it back ([src/runtime/session.cpp]): which
    positions of the window ring have to be run again, and the replay that runs them with the
    rest of the state put back after every step.

    Times and the log are omitted, and with them [backup_bytes]. *)

From S2P Require Import Prelude Types Floats Dequant V41Config KvLayout KvStore Sampling EngineContext SessionDisk SessionPool.

Definition PREFILL_REPLAY : Z := 128.

(** What keeping [rl_keep] tokens replays: positions [[rl_first, rl_end)]. *)
Record ReplayPlan := mkPlan { rl_keep : Z; rl_first : Z; rl_end : Z }.
Definition plan_steps (p : ReplayPlan) : Z := if rl_first p <? rl_end p then rl_end p - rl_first p else 0.
Definition replay_stats (p : ReplayPlan) (dropped : Z) : ReplayStats :=
  {| rp_keep := rl_keep p; rp_first := rl_first p; rp_end := rl_end p; rp_dropped := dropped; rp_cold_fallback := false |}.

(** ** What the ring lacks *)

Definition need_lo (k : KvStore) (keep : Z) : Z :=
  let w := kc_window (k_cfg k) in if u32 (w - 1) <? keep then keep - u32 (w - 1) else 0.
(** The positions of [[lo, keep)] the ring does not hold, in order. *)
Definition ring_missing (k : KvStore) (lo keep : Z) : list Z :=
  filter (fun x => ring_holds k x = false) ((fun i => lo + i) <$> upto (keep - lo)).
Definition clamp_u32 (x lo hi : Z) : Z := if x <? lo then lo else if hi <? x then hi else x.
Definition even_down (x : Z) : Z := if Z.odd x then x - 1 else x.
Definition plan_ring (k : KvStore) (keep replay_max : Z) : ReplayPlan :=
  let p := mkPlan keep 0 0 in
  if keep =? 0 then p
  else
    let xs := ring_missing k (need_lo k keep) keep in
    match xs, last xs with
    | lo :: _, Some hi =>
        let end_ := hi + 1 in
        let r := clamp_u32 replay_max 1 (kc_window (k_cfg k)) in
        let first := if r <? end_ - lo then end_ - r else lo in
        mkPlan keep (even_down first) end_
    | _, _ => p
    end.

Section Replay.
Context {A W : Type} `{MemoryAllocator A, Device W}.
Context (c : TextConfig).
#[local] Abbreviation Engine := (Engine A W).
#[local] Abbreviation EM := (EM (A:=A) (W:=W)).

(** ** The replay *)

(** One replayed step, and the rows it completed put back. *)
Definition replay_step (hist : list Z) (b : KvRowBackup) (q : Z) : EM unit :=
  token ← em_of (match hist !! Z.to_nat q with Some t => Ret t | None => Fail Internal end);
  _ ← decode_step c false token q;
  on_kvs (restore_rows b q).
Definition run_replay (plan : ReplayPlan) : EM ReplayStats :=
  if plan_steps plan =? 0 then mret (replay_stats plan 0)
  else
    e ← em_get;
    b ← em_of (backup_rows (en_kvs e) (rl_first plan) (rl_end plan));
    _ ← on_kvs (set_window_floor (rl_first plan));
    _ ← em_for ((fun i => rl_first plan + i) <$> upto (plan_steps plan)) (replay_step (en_history e) b);
    _ ← on_kvs (restore_carry b);
    mret (replay_stats plan 0).

(** ** Rolling back *)

Definition plan_rollback (keep replay_max : Z) : EM ReplayPlan :=
  e ← em_get;
  _ ← on_kvs (resolve_ring (EngineContext.context_length e));
  e ← em_get;
  mret (plan_ring (en_kvs e) keep replay_max).
Definition rollback_context (keep replay_max : Z) : EM ReplayStats :=
  e ← em_get;
  let n := EngineContext.context_length e in
  _ ← em_guard (n <? keep) InvalidArgument;
  _ ← em_guard (Z.odd keep) InvalidArgument;
  if keep =? n then mret (replay_stats (mkPlan keep 0 0) 0)
  else
    plan ← plan_rollback keep replay_max;
    _ ← set_context_tokens (take (Z.to_nat keep) (en_history e));
    _ ← run_replay plan;
    mret (replay_stats plan (n - keep)).

(** ** Parking and restoring *)

Definition engine_park_context (e : Engine) : Result ParkedContext :=
  kv ← pack (en_kvs e) (EngineContext.context_length e);
  Ret ({| pc_tokens := en_history e; pc_kv := kv |}).
Definition engine_restore_context (p : ParkedContext) (replay_max : Z) : EM ReplayStats :=
  _ ← em_guard (negb (kp_positions (pc_kv p) =? len_Z (pc_tokens p))) InvalidArgument;
  _ ← em_update EngineContext.reset_context;
  if bool_decide (pc_tokens p = []) then mret ReplayStats_default
  else
    _ ← on_kvs (unpack (pc_kv p));
    _ ← set_context_tokens (pc_tokens p);
    e ← em_get;
    run_replay (plan_ring (en_kvs e) (u32 (len_Z (pc_tokens p))) replay_max).

(** What the pool of sessions asks of its engine. *)
#[export] Instance engine_contexts : ContextEngine Engine := {|
  SessionPool.context_length := EngineContext.context_length;
  SessionPool.reset_context := EngineContext.reset_context;
  SessionPool.park_context := engine_park_context;
  SessionPool.restore_context := fun p => engine_restore_context p PREFILL_REPLAY |}.
End Replay.
