(* ===== verification/ReplayRows.v ===== *)
(** Rows of the KV store's planes one at a time: what reading, overwriting and putting back one
    row does to the others. *)

From S2P Require Import Prelude Types Floats Dequant KvPack V41Config KvLayout KvStore KvRows KvStoreProps KvInv KvContext.

(** ** A row *)

(** Latent rows ([false]) or index keys ([true]) of an owner's plane. *)
Definition plane_reg (key : bool) (i : nat) : Region := if key then RIdx i else RCmp i.
Definition plane_dim (key : bool) (c : KvStoreConfig) : Z := if key then kc_index_dim c else kc_latent_dim c.
Definition plane_rows (k : KvStore) (key : bool) (i : nat) (first rows : Z) : list Z :=
  if key then key_rows k i first rows else cmp_rows k i first rows.

Lemma plane_rows_at k key i first rows : let d := plane_dim key (k_cfg k) in
  plane_rows k key i first rows = of_bytes 2 (Z.to_nat (rows * d)) (kv_read k (region_off (k_lay k) (plane_reg key i) + first * d * 2) (rows * d * 2)).
Proof. by destruct key. Qed.

Lemma plane_inside k i o key first rows : kv_ok k -> k_owners k !! i = Some o -> 0 <= first -> 0 <= rows -> first + rows <= rows_for (k_cfg k) o (k_cap k) ->
  let d := plane_dim key (k_cfg k) in
  inside (k_cfg k) (k_owners k) (k_cap k) (plane_reg key i) (first * d * 2) (rows * d * 2).
Proof. intros Hk Ho ? ? ?. destruct key; [by eapply idx_inside|by eapply cmp_inside]. Qed.

Lemma plane_dim_pos k key : kv_ok k -> 0 < plane_dim key (k_cfg k).
Proof. intros Hk. destruct key; [apply (kd_index _ (ko_dims k Hk))|apply (kd_latent _ (ko_dims k Hk))]. Qed.

Lemma of_bytes_lookup w n bs j : (j < n)%nat -> of_bytes w n bs !! j = Some (le_value (subspan bs (w * j) w)).
Proof.
  revert bs j. induction n as [|n IH]; intros bs j Hj; [lia|]. destruct j as [|j]; cbn [of_bytes lookup list_lookup].
  - by rewrite Nat.mul_0_r.
  - cbn. rewrite IH by lia. unfold subspan. rewrite drop_drop. do 4 f_equal. lia.
Qed.
Lemma subspan_subspan {X} (l : list X) a n b m : (b + m <= n)%nat -> subspan (subspan l a n) b m = subspan l (a + b) m.
Proof. intros Hb. unfold subspan. rewrite skipn_firstn_comm, take_take, drop_drop. f_equal. lia. Qed.
Lemma subspan_of_bytes w n bs a m : (a + m <= n)%nat -> subspan (of_bytes w n bs) a m = of_bytes w m (subspan bs (w * a) (w * m)).
Proof.
  intros Ha. apply list_eq. intros j. destruct (decide (j < m)%nat) as [Hj|Hj].
  - rewrite subspan_lookup by done. rewrite !of_bytes_lookup by lia. rewrite subspan_subspan by nia. do 3 f_equal. lia.
  - rewrite !lookup_ge_None_2; [done|rewrite of_bytes_length; lia|]. unfold subspan. rewrite length_take. lia.
Qed.

Lemma kv_read_sub k r d n x m : kv_ok k -> inside (k_cfg k) (k_owners k) (k_cap k) r d n -> 0 <= x -> 0 <= m -> x + m <= n ->
  subspan (kv_read k (region_off (k_lay k) r + d) n) (Z.to_nat x) (Z.to_nat m) = kv_read k (region_off (k_lay k) r + (d + x)) m.
Proof.
  intros Hk Hin Hx Hm Hxm.
  assert (Hin' : inside (k_cfg k) (k_owners k) (k_cap k) r (d + x) m) by (destruct Hin as (? & ? & ? & ?); split_and!; [done|lia..]).
  pose proof (kv_read_length k r d n Hk Hin) as Hl. pose proof (kv_read_length k r (d + x) m Hk Hin') as Hl'.
  apply list_eq. intros j. destruct (decide (j < Z.to_nat m)%nat) as [Hj|Hj].
  - rewrite subspan_lookup by done. replace (Z.to_nat x + j)%nat with (Z.to_nat (x + Z.of_nat j)) by lia.
    rewrite kv_read_lookup by (done || lia). rewrite <- (Nat2Z.id j) at 2. rewrite kv_read_lookup by (done || lia). f_equal. lia.
  - rewrite !lookup_ge_None_2; [done|lia|]. unfold subspan. rewrite length_take. lia.
Qed.

(** One row out of many. *)
Lemma row_of_rows k i o key first rows j : kv_ok k -> k_owners k !! i = Some o -> 0 <= first -> 0 <= j < rows ->
  first + rows <= rows_for (k_cfg k) o (k_cap k) ->
  chunk (plane_dim key (k_cfg k)) j (plane_rows k key i first rows) = plane_rows k key i (first + j) 1.
Proof.
  intros Hk Ho Hf Hj Hr. pose proof (plane_dim_pos k key Hk) as Hd. rewrite !plane_rows_at. set (d := plane_dim key (k_cfg k)) in *.
  unfold chunk. rewrite subspan_of_bytes by nia. rewrite Z.mul_1_l.
  replace (2 * Z.to_nat (j * d))%nat with (Z.to_nat (j * d * 2)) by lia. replace (2 * Z.to_nat d)%nat with (Z.to_nat (d * 2)) by lia.
  f_equal. rewrite (kv_read_sub k _ _ _ _ _ Hk (plane_inside k i o key first rows Hk Ho Hf ltac:(lia) Hr)) by nia. do 2 f_equal. fold d. lia.
Qed.

Lemma plane_rows_length k key i first rows : kv_ok k -> 0 <= rows ->
  length (plane_rows k key i first rows) = (Z.to_nat rows * Z.to_nat (plane_dim key (k_cfg k)))%nat.
Proof. intros Hk Hr. pose proof (plane_dim_pos k key Hk). rewrite plane_rows_at, of_bytes_length. lia. Qed.

(** Rows that agree one by one agree together. *)
Lemma rows_agree k k' i o key rows : kv_ok k -> kv_ok k' -> k_cfg k' = k_cfg k -> k_cap k' = k_cap k -> k_owners k !! i = Some o ->
  0 <= rows <= rows_for (k_cfg k) o (k_cap k) -> (forall x, 0 <= x < rows -> plane_rows k' key i x 1 = plane_rows k key i x 1) ->
  plane_rows k' key i 0 rows = plane_rows k key i 0 rows.
Proof.
  intros Hk Hk' Hc Hcap Ho Hr Hx. assert (Ho' : k_owners k' !! i = Some o) by (by rewrite (ko_owners k' Hk'), Hc, <- (ko_owners k Hk)).
  pose proof (plane_dim_pos k key Hk) as Hd.
  apply (pieces_eq _ _ (Z.to_nat (plane_dim key (k_cfg k))) (Z.to_nat rows)); [rewrite <- Hc; apply plane_rows_length; [done|lia]|apply plane_rows_length; [done|lia]|].
  intros r Hr'. pose proof (row_of_rows k i o key 0 rows (Z.of_nat r) Hk Ho ltac:(lia) ltac:(lia) ltac:(lia)) as H1.
  pose proof (row_of_rows k' i o key 0 rows (Z.of_nat r) Hk' Ho' ltac:(lia) ltac:(lia) ltac:(rewrite Hc, Hcap; lia)) as H2.
  rewrite Hc in H2. unfold chunk in H1, H2. rewrite Z2Nat.inj_mul, Nat2Z.id in H1, H2 by lia. rewrite H1, H2. apply Hx. lia.
Qed.

(** ** Writing rows *)

(** A write that leaves row [x] of plane [i] alone. *)
Definition misses (k : KvStore) (key : bool) (i : nat) (x : Z) (w : RWrite) : Prop :=
  let d := plane_dim key (k_cfg k) in
  w.1.1 <> plane_reg key i \/ w.1.2 + Z.of_nat (length w.2) <= x * d * 2 \/ x * d * 2 + 1 * d * 2 <= w.1.2.

Lemma row_kept k ws key i o x : kv_ok k -> k_owners k !! i = Some o -> 0 <= x < rows_for (k_cfg k) o (k_cap k) ->
  Forall (kv_inside k) ws -> Forall (misses k key i x) ws ->
  plane_rows (kv_writes k (kflat k <$> ws)) key i x 1 = plane_rows k key i x 1.
Proof.
  intros Hk Ho Hx Hin Hm. pose proof (plane_inside k i o key x 1 Hk Ho ltac:(lia) ltac:(lia) ltac:(lia)) as Hp.
  pose proof (kv_read_apart k ws _ _ _ Hk Hin Hp Hm) as Hr. rewrite !plane_rows_at. f_equal. exact Hr.
Qed.

(** Row [x] of plane [i] written back from a copy. *)
Definition row_rws (c : KvStoreConfig) (i : nat) (x : Z) (cmp key : list Z) : list RWrite :=
  [(RCmp i, x * kc_latent_dim c * 2, to_bytes 2 cmp); (RIdx i, x * kc_index_dim c * 2, to_bytes 2 key)].

Section PutBack.
Context (k : KvStore) (Hk : kv_ok k) (i : nat) (o : Z) (Ho : k_owners k !! i = Some o) (x : Z).
Context (Hx : 0 <= x < rows_for (k_cfg k) o (k_cap k)) (cmp key : list Z).
Context (Hcmp : length cmp = Z.to_nat (kc_latent_dim (k_cfg k)) /\ u16_list cmp) (Hkey : length key = Z.to_nat (kc_index_dim (k_cfg k)) /\ u16_list key).
#[local] Abbreviation ws := (row_rws (k_cfg k) i x cmp key).

Lemma row_rws_inside : Forall (kv_inside k) ws.
Proof.
  pose proof (plane_inside k i o false x 1 Hk Ho ltac:(lia) ltac:(lia) ltac:(lia)) as H1.
  pose proof (plane_inside k i o true x 1 Hk Ho ltac:(lia) ltac:(lia) ltac:(lia)) as H2. cbn in H1, H2.
  pose proof (plane_dim_pos k false Hk). pose proof (plane_dim_pos k true Hk). cbn [plane_dim] in *. destruct Hcmp as [Hc _], Hkey as [Hy _].
  repeat (apply Forall_cons; split); [| |done]; unfold kv_inside, rw_inside; cbn [fst snd]; rewrite to_bytes_length.
  - replace (Z.of_nat (length cmp * 2)) with (1 * kc_latent_dim (k_cfg k) * 2) by lia. exact H1.
  - replace (Z.of_nat (length key * 2)) with (1 * kc_index_dim (k_cfg k) * 2) by lia. exact H2.
Qed.

Lemma row_put_back b : plane_rows (kv_writes k (kflat k <$> ws)) b i x 1 = if b then key else cmp.
Proof.
  pose proof row_rws_inside as Hin. pose proof (plane_dim_pos k false Hk). pose proof (plane_dim_pos k true Hk). cbn [plane_dim] in *.
  destruct Hcmp as [Hc Hcr], Hkey as [Hy Hyr]. rewrite plane_rows_at. change (k_cfg (kv_writes _ _)) with (k_cfg k). change (k_lay (kv_writes _ _)) with (k_lay k).
  destruct b; cbn [plane_dim plane_reg] in *.
  - pose proof (kv_written_back k [(RCmp i, x * kc_latent_dim (k_cfg k) * 2, to_bytes 2 cmp)] (RIdx i, x * kc_index_dim (k_cfg k) * 2, to_bytes 2 key) [] Hk Hin
      (Forall_nil_2 _)) as Hw. cbn [fst snd] in Hw. rewrite to_bytes_length in Hw.
    replace (Z.of_nat (length key * 2)) with (1 * kc_index_dim (k_cfg k) * 2) in Hw by lia. 
    transitivity (of_bytes 2 (length key) (to_bytes 2 key)); [f_equal; [lia|exact Hw]|]. rewrite <- (app_nil_r (to_bytes 2 key)). by apply of_to_bytes.
  - pose proof (kv_written_back k [] (RCmp i, x * kc_latent_dim (k_cfg k) * 2, to_bytes 2 cmp) [(RIdx i, x * kc_index_dim (k_cfg k) * 2, to_bytes 2 key)] Hk Hin
      ltac:(repeat constructor; by apply apart_regions)) as Hw. cbn [fst snd] in Hw. rewrite to_bytes_length in Hw.
    replace (Z.of_nat (length cmp * 2)) with (1 * kc_latent_dim (k_cfg k) * 2) in Hw by lia. 
    transitivity (of_bytes 2 (length cmp) (to_bytes 2 cmp)); [f_equal; [lia|exact Hw]|]. rewrite <- (app_nil_r (to_bytes 2 cmp)). by apply of_to_bytes.
Qed.

(** Every other row of every plane stays. *)
Lemma other_row_kept b j o' y : k_owners k !! j = Some o' -> 0 <= y < rows_for (k_cfg k) o' (k_cap k) -> j <> i \/ y <> x ->
  plane_rows (kv_writes k (kflat k <$> ws)) b j y 1 = plane_rows k b j y 1.
Proof.
  intros Ho' Hy' Hne. apply (row_kept k ws b j o' y); [done|done|done|exact row_rws_inside|].
  pose proof (plane_dim_pos k false Hk). pose proof (plane_dim_pos k true Hk). destruct Hcmp as [Hc _], Hkey as [Hy _]. cbn [plane_dim] in *.
  repeat (apply Forall_cons; split); [| |done]; unfold misses; cbn [fst snd]; rewrite to_bytes_length; destruct b; cbn [plane_reg plane_dim].
  - by left.
  - destruct (decide (j = i)) as [->|Hj]; [right|left; congruence]. destruct Hne as [?|Hne]; [done|]. nia.
  - destruct (decide (j = i)) as [->|Hj]; [right|left; congruence]. destruct Hne as [?|Hne]; [done|]. nia.
  - by left.
Qed.
End PutBack.

(** ** The carried state *)

Definition carry_len (c : KvStoreConfig) : Z := kc_max_ratio c * kc_latent_dim c.
(** An owner's carried values ([h = 0]) or scores ([h = 1]), every slot of them. *)
Definition state_words (k : KvStore) (h : Z) (i : nat) : list Z :=
  of_bytes 4 (Z.to_nat (carry_len (k_cfg k))) (kv_read k (region_off (k_lay k) RState + state_at k i h) (carry_len (k_cfg k) * 4)).
Definition state_rws (k : KvStore) (i : nat) (kv score : list Z) : list RWrite :=
  [(RState, state_at k i 0, to_bytes 4 kv); (RState, state_at k i 1, to_bytes 4 score)].

Section State.
Context (k : KvStore) (Hk : kv_ok k) (i : nat) (o : Z) (Ho : k_owners k !! i = Some o).
#[local] Abbreviation n := (carry_len (k_cfg k)).

Lemma carry_len_stride : 0 <= n /\ n * 4 = state_stride k.
Proof using Hk Ho.
  destruct (kd_latent _ (ko_dims k Hk)). pose proof (owner_in k Hk i o Ho) as Hin. destruct (kd_ratio _ (ko_dims k Hk) o Hin).
  unfold carry_len, state_stride. split; [nia|done].
Qed.

Lemma whole_state_inside h : 0 <= h <= 1 -> inside (k_cfg k) (k_owners k) (k_cap k) RState (state_at k i h) (n * 4).
Proof.
  intros Hh. pose proof (owner_in k Hk i o Ho) as Hin. destruct (kd_ratio _ (ko_dims k Hk) o Hin).
  apply (state_inside k Hk i o Ho); lia.
Qed.

(** Fewer words are the first of them. *)
Lemma carry_prefix m : 0 <= m <= n ->
  carry_words k (l_state (k_lay k)) i m = subspan (state_words k 0 i) 0 (Z.to_nat m) /\
  carry_words k (score_base k) i m = subspan (state_words k 1 i) 0 (Z.to_nat m).
Proof.
  intros Hm. rewrite carry_kv_at, carry_score_at. unfold state_words.
  assert (Hp : forall h, 0 <= h <= 1 -> of_bytes 4 (Z.to_nat m) (kv_read k (region_off (k_lay k) RState + state_at k i h) (m * 4)) =
    subspan (of_bytes 4 (Z.to_nat n) (kv_read k (region_off (k_lay k) RState + state_at k i h) (n * 4))) 0 (Z.to_nat m)).
  { intros h Hh. rewrite subspan_of_bytes by lia. rewrite Nat.mul_0_r. f_equal.
    pose proof (kv_read_sub k RState (state_at k i h) (n * 4) 0 (m * 4) Hk (whole_state_inside h Hh) ltac:(lia) ltac:(lia) ltac:(lia)) as Hs.
    rewrite Z.add_0_r in Hs. rewrite <- Hs. unfold subspan. rewrite !drop_0. f_equal. lia. }
  split; apply Hp; lia.
Qed.

Lemma state_words_length h : length (state_words k h i) = Z.to_nat n.
Proof. apply of_bytes_length. Qed.

(** Slices of different owners, or of the two halves, lie apart. *)
Lemma slices_apart j h h' : (j < length (k_owners k))%nat -> 0 <= h <= 1 -> 0 <= h' <= 1 -> j <> i \/ h <> h' ->
  state_at k i h + n * 4 <= state_at k j h' \/ state_at k j h' + n * 4 <= state_at k i h.
Proof.
  intros Hj Hh Hh' Hne. pose proof (lookup_lt_Some _ _ _ Ho) as Hi. destruct carry_len_stride as [Hn ->]. unfold state_at.
  assert (0 <= state_stride k) by (destruct carry_len_stride; lia).
  set (x := h * len_Z (k_owners k) + Z.of_nat i). set (y := h' * len_Z (k_owners k) + Z.of_nat j).
  assert (x < y \/ y < x) as [Hxy|Hxy].
  { assert (h = 0 \/ h = 1) as [->| ->] by lia; assert (h' = 0 \/ h' = 1) as [->| ->] by lia; unfold x, y, len_Z; lia. }
  - left. assert ((x + 1) * state_stride k <= y * state_stride k) by (apply Z.mul_le_mono_nonneg_r; lia). lia.
  - right. assert ((y + 1) * state_stride k <= x * state_stride k) by (apply Z.mul_le_mono_nonneg_r; lia). lia.
Qed.

Context (kv score : list Z) (Hkv : length kv = Z.to_nat n /\ u32_list kv) (Hsc : length score = Z.to_nat n /\ u32_list score).
#[local] Abbreviation ws := (state_rws k i kv score).

Lemma state_rws_inside : Forall (kv_inside k) ws.
Proof.
  pose proof carry_len_stride as [Hn _]. destruct Hkv as [Hl _], Hsc as [Hl' _].
  repeat (apply Forall_cons; split); [| |done]; unfold kv_inside, rw_inside; cbn [fst snd]; rewrite to_bytes_length.
  - replace (Z.of_nat (length kv * 4)) with (n * 4) by lia. apply whole_state_inside. lia.
  - replace (Z.of_nat (length score * 4)) with (n * 4) by lia. apply whole_state_inside. lia.
Qed.

Lemma state_put_back : state_words (kv_writes k (kflat k <$> ws)) 0 i = kv /\ state_words (kv_writes k (kflat k <$> ws)) 1 i = score.
Proof.
  pose proof state_rws_inside as Hin. destruct Hkv as [Hl Hr], Hsc as [Hl' Hr']. pose proof carry_len_stride as [Hn _].
  assert (Hi : (i < length (k_owners k))%nat) by by eapply lookup_lt_Some. unfold state_words. split.
  - pose proof (kv_written_back k [] (RState, state_at k i 0, to_bytes 4 kv) [(RState, state_at k i 1, to_bytes 4 score)] Hk Hin) as Hw.
    cbn [fst snd] in Hw. rewrite to_bytes_length in Hw. replace (Z.of_nat (length kv * 4)) with (n * 4) in Hw by lia.
    transitivity (of_bytes 4 (length kv) (to_bytes 4 kv)); [f_equal; [done|apply Hw]|rewrite <- (app_nil_r (to_bytes 4 kv)); by apply of_to_bytes].
    repeat constructor. apply apart_ranges. cbn [fst snd]. rewrite !to_bytes_length.
    destruct (slices_apart i 0 1 Hi ltac:(lia) ltac:(lia) ltac:(by right)); [left|right]; lia.
  - pose proof (kv_written_back k [(RState, state_at k i 0, to_bytes 4 kv)] (RState, state_at k i 1, to_bytes 4 score) [] Hk Hin (Forall_nil_2 _)) as Hw.
    cbn [fst snd] in Hw. rewrite to_bytes_length in Hw. replace (Z.of_nat (length score * 4)) with (n * 4) in Hw by lia.
    transitivity (of_bytes 4 (length score) (to_bytes 4 score)); [f_equal; [done|apply Hw]|rewrite <- (app_nil_r (to_bytes 4 score)); by apply of_to_bytes].
Qed.

Lemma other_state_kept h j o' : 0 <= h <= 1 -> k_owners k !! j = Some o' -> j <> i ->
  state_words (kv_writes k (kflat k <$> ws)) h j = state_words k h j.
Proof.
  intros Hh Ho' Hne. destruct Hkv as [Hl _], Hsc as [Hl' _]. assert (Hj : (j < length (k_owners k))%nat) by by eapply lookup_lt_Some.
  pose proof (owner_in k Hk j o' Ho') as Hin. destruct (kd_ratio _ (ko_dims k Hk) o' Hin). pose proof carry_len_stride as [Hn _].
  unfold state_words. change (k_cfg (kv_writes _ _)) with (k_cfg k). f_equal.
  apply (kv_read_apart k ws RState (state_at k j h) (n * 4) Hk state_rws_inside); [apply (state_inside k Hk j o' Ho'); lia|].
  repeat (apply Forall_cons; split); [| |done]; right; cbn [fst snd]; rewrite to_bytes_length;
    [destruct (slices_apart j 0 h Hj)|destruct (slices_apart j 1 h Hj)]; try lia; by left.
Qed.
End State.
