(* ===== verification/ReplayProps.v ===== *)
(** Replaying part of a context: what a plan covers, and that the replay leaves everything but
    the window ring as it was. *)

From S2P Require Import Prelude Types Floats Dequant KvPack V41Config KvLayout KvStore KvRows KvStoreProps KvInv KvContext KvRing ReplayRows Sampling EngineContext SessionDisk SessionPool SessionReplay.

(** ** What a plan covers *)

Section Plan.
Context (k : KvStore) (w : Z) (Hw : kc_window (k_cfg k) = w) (Hrange : 0 < w < 2 ^ 31).

Lemma need_lo_range keep : 0 <= keep -> 0 <= need_lo k keep <= keep /\ keep - need_lo k keep <= w - 1 /\ (keep - w < need_lo k keep).
Proof. intros Hk. unfold need_lo. rewrite Hw. unfold u32. rewrite Z.mod_small by lia. case_match; lia. Qed.

Lemma missing_spec lo keep x : x ∈ ring_missing k lo keep <-> lo <= x < keep /\ ring_holds k x = false.
Proof.
  unfold ring_missing. rewrite list_elem_of_filter, list_elem_of_fmap. split.
  - intros [Hf (i & -> & Hi%upto_spec)]. split; [lia|done].
  - intros [Hx Hf]. split; [done|]. exists (x - lo). rewrite upto_spec. lia.
Qed.

Lemma offsets_sorted lo n : StronglySorted Z.lt ((fun i => lo + Z.of_nat i) <$> seq 0 n).
Proof.
  generalize 0%nat as m. induction n as [|n IH]; intros m; cbn; [constructor|]. constructor; [apply IH|].
  apply Forall_fmap, Forall_forall. intros i [Hi _]%elem_of_seq. cbn. lia.
Qed.
Lemma sorted_filter (P : Z -> Prop) `{forall x, Decision (P x)} l : StronglySorted Z.lt l -> StronglySorted Z.lt (filter P l).
Proof.
  induction 1 as [|x l Hs IH Hx]; [constructor|]. rewrite filter_cons. case_decide; [|exact IH]. constructor; [exact IH|].
  apply Forall_forall. intros y [_ Hy]%list_elem_of_filter. by eapply Forall_forall in Hx.
Qed.
Lemma missing_sorted lo keep : StronglySorted Z.lt (ring_missing k lo keep).
Proof.
  apply sorted_filter. unfold upto, layer_ids. rewrite <- list_fmap_compose. apply offsets_sorted.
Qed.
Lemma sorted_ends (x y : Z) l : StronglySorted Z.lt (x :: l) -> last (x :: l) = Some y -> forall z, z ∈ x :: l -> x <= z <= y.
Proof.
  revert x. induction l as [|x' l IH]; intros x Hs Hy z Hz.
  - cbn in Hy. injection Hy as <-. apply list_elem_of_singleton in Hz. lia.
  - apply StronglySorted_inv in Hs as [Hs Hx]. pose proof (IH x' Hs Hy) as Hr. apply elem_of_cons in Hz as [->|Hz].
    + specialize (Hr x' (list_elem_of_here _ _)). apply Forall_cons in Hx as [Hx _]. lia.
    + specialize (Hr z Hz). apply Forall_cons in Hx as [Hx _]. specialize (IH x' Hs Hy x' (list_elem_of_here _ _)). specialize (Hr). destruct Hr. lia.
Qed.

Lemma even_down_spec x : 0 <= x -> 0 <= even_down x <= x /\ x - 1 <= even_down x /\ Z.even (even_down x) = true.
Proof.
  intros Hx. unfold even_down. destruct (Z.odd x) eqn:E.
  - split_and!; [|lia..|]; [destruct x; [done|lia..]|]. by rewrite Z.even_sub, <- Z.negb_odd, E.
  - split_and!; [lia..|]. by rewrite <- Z.negb_odd, E.
Qed.

(** A plan is empty when the ring holds everything a step at [keep] lists, or it runs from an
    even position to the last one missing. *)
Lemma plan_ring_cases keep rm : 0 <= keep ->
  let p := plan_ring k keep rm in let r := clamp_u32 rm 1 w in
  rl_keep p = keep /\
  ((plan_steps p = 0 /\ forall x, need_lo k keep <= x < keep -> ring_holds k x = true) \/
   (exists lo, rl_first p = even_down (Z.max lo (rl_end p - r)) /\ need_lo k keep <= lo < rl_end p /\ rl_end p <= keep /\
      ring_holds k (rl_end p - 1) = false /\
      forall x, need_lo k keep <= x < keep -> ring_holds k x = false -> lo <= x < rl_end p)).
Proof.
  intros Hk p r. pose proof (need_lo_range keep Hk) as Hlo. unfold p, plan_ring. rewrite Hw. fold r.
  destruct (Z.eqb_spec keep 0) as [->|Hne]; [split; [done|]; left; split; [done|]; intros; lia|].
  pose proof (missing_sorted (need_lo k keep) keep) as Hs. pose proof (missing_spec (need_lo k keep) keep) as Hm.
  destruct (ring_missing k (need_lo k keep) keep) as [|lo xs] eqn:Ex.
  { split; [done|]. left. split; [done|]. intros x Hx. apply not_false_iff_true. intros Hf. specialize (Hm x).
    rewrite elem_of_nil in Hm. by apply Hm. }
  destruct (last (lo :: xs)) as [hi|] eqn:El; [|by apply last_None in El].
  pose proof (sorted_ends lo hi xs Hs El) as Hr.
  assert (Hhi : hi ∈ lo :: xs) by by apply last_Some_elem_of.
  destruct (proj1 (Hm lo) (list_elem_of_here _ _)) as [Hlo1 _]. destruct (proj1 (Hm hi) Hhi) as [Hhi1 Hhi2].
  pose proof (Hr hi Hhi). split; [done|]. right. exists lo. cbn [rl_first rl_end]. split_and!; try lia.
  - f_equal. destruct (Z.ltb_spec r (hi + 1 - lo)); lia.
  - by replace (hi + 1 - 1) with hi by lia.
  - intros x Hx Hf. pose proof (Hr x (proj2 (Hm x) (conj Hx Hf))). lia.
Qed.

(** What a plan replays: at most [replay_max] positions (at least one, at most the window) and
    one more when the first is odd, never more than the window holds, from an even position. *)
Lemma plan_ring_range keep rm : 0 <= keep -> let p := plan_ring k keep rm in
  0 < plan_steps p -> Z.even (rl_first p) = true /\ 0 <= rl_first p < rl_end p /\ rl_end p <= keep /\
  keep - w <= rl_first p /\ plan_steps p <= clamp_u32 rm 1 w + 1 /\ plan_steps p <= w.
Proof.
  intros Hk p Hs. pose proof (need_lo_range keep Hk) as Hlo.
  destruct (plan_ring_cases keep rm Hk) as (_ & [[H0 _]|(lo & Hf & Hl & He & _)]); [fold p in H0; lia|]. fold p in Hf, Hl, He.
  assert (Hr : 1 <= clamp_u32 rm 1 w <= w) by (unfold clamp_u32; repeat case_match; lia).
  destruct (even_down_spec (Z.max lo (rl_end p - clamp_u32 rm 1 w)) ltac:(lia)) as (? & ? & Hev). rewrite <- Hf in *.
  unfold plan_steps in *. case_match; [|lia]. split_and!; [exact Hev|lia..].
Qed.
End Plan.

(** ** What the steps of a replay may touch *)

(** Stores of one shape and capacity, with the same rows counted as written. *)
Definition shape (k0 k : KvStore) : Prop :=
  kv_ok k /\ k_cfg k = k_cfg k0 /\ k_owners k = k_owners k0 /\ k_owner_of k = k_owner_of k0 /\ k_cap k = k_cap k0 /\ k_rows_hw k = k_rows_hw k0.
(** Every row but the [bad] ones reads the same. *)
Definition rows_same (bad : nat -> Z -> Prop) (k0 k : KvStore) : Prop :=
  forall b i o x, k_owners k0 !! i = Some o -> 0 <= x < rows_for (k_cfg k0) o (k_cap k0) -> ~ bad i x ->
    plane_rows k b i x 1 = plane_rows k0 b i x 1.
Definition no_row (i : nat) (x : Z) : Prop := False.
(** A step at [q] marks its own slot of the ring, or none. *)
Definition slots_step (q : Z) (k0 k : KvStore) : Prop :=
  k_win_lo k = k_win_lo k0 /\
  (k_slot_pos k = k_slot_pos k0 \/ k_slot_pos k = <[slot_index (kc_window (k_cfg k0)) q := q]> (k_slot_pos k0)).
Definition quiet (q : Z) (k0 k : KvStore) : Prop := shape k0 k /\ rows_same no_row k0 k /\ slots_step q k0 k.

Lemma shape_refl k : kv_ok k -> shape k k.
Proof. done. Qed.
Lemma shape_trans k0 k1 k2 : shape k0 k1 -> shape k1 k2 -> shape k0 k2.
Proof. intros (_ & H1 & H2 & H3 & H4 & H5) (Hk & H1' & H2' & H3' & H4' & H5'). split_and!; congruence. Qed.
Lemma rows_same_trans bad k0 k1 k2 : shape k0 k1 -> rows_same bad k0 k1 -> rows_same no_row k1 k2 -> rows_same bad k0 k2.
Proof.
  intros (_ & Hc & Ho & _ & Hcap & _) H1 H2 b i o x Hi Hx Hb. rewrite (H2 b i o x); [by apply (H1 b i o x)|by rewrite Ho|by rewrite Hc, Hcap|by intros []].
Qed.
Lemma slots_step_refl q k : slots_step q k k.
Proof. split; [done|by left]. Qed.
Lemma slots_step_trans q k0 k1 k2 : k_cfg k1 = k_cfg k0 -> slots_step q k0 k1 -> slots_step q k1 k2 -> slots_step q k0 k2.
Proof.
  intros Hc [H1 H2] [H1' H2']. split; [congruence|]. rewrite Hc in H2'.
  destruct H2 as [H2|H2], H2' as [H2'|H2']; rewrite ?H2 in H2'; [by left|by right|by right|].
  right. rewrite list_insert_insert_eq in H2'. done.
Qed.
Lemma quiet_refl q k : kv_ok k -> quiet q k k.
Proof. intros Hk. split; [by apply shape_refl|split; [by intros b i o x|apply slots_step_refl]]. Qed.
Lemma quiet_trans q k0 k1 k2 : quiet q k0 k1 -> quiet q k1 k2 -> quiet q k0 k2.
Proof.
  intros (Hs & Hr & Hl) (Hs' & Hr' & Hl'). split; [by eapply shape_trans|]. split; [by eapply rows_same_trans|].
  eapply slots_step_trans; [|done|done]. apply Hs.
Qed.

(** ** The host's part of a step *)

Section Prepare.
Context {A : Type} `{Hal : MemoryAllocatorOk A}.

Lemma reserve_quiet n (a : A) k r a' k' : kv_ok k -> n <= k_cap k -> reserve n (a, k) = (r, (a', k')) -> k' = k.
Proof. intros Hk Hn Hr. destruct (reserve_cases _ _ _ _ _ _ Hk Hr) as [(_ & _ & ->)|[(_ & ? & _)|(e & _ & -> & _)]]; [done|lia|done]. Qed.

Lemma raise_noop oi n k : n <= nth (Z.to_nat oi) (k_rows_hw k) 0 -> raise_hw oi n k = k.
Proof.
  intros Hn. assert (Ha : alter (Z.max n) (Z.to_nat oi) (k_rows_hw k) = k_rows_hw k).
  { apply list_eq. intros j. destruct (decide (j = Z.to_nat oi)) as [->|Hne]; [|by rewrite list_lookup_alter_ne by done].
    rewrite list_lookup_alter_eq. rewrite nth_lookup in Hn. destruct (k_rows_hw k !! Z.to_nat oi) as [h|]; [|done].
    cbn in *. f_equal. lia. }
  transitivity (k <| k_rows_hw := alter (Z.max n) (Z.to_nat oi) (k_rows_hw k) |>); [done|]. rewrite Ha. by destruct k.
Qed.

(** The rows a layer counts are there. *)
Definition counted (k : KvStore) (l n : Z) : Prop :=
  0 <= l < kc_layers (k_cfg k) -> owner_index k l <> kNoPlane ->
  n * plane_ratio (k_cfg k) (nth (Z.to_nat (owner_index k l)) (k_owners k) kNoPlane) <= k_cap k /\
  n <= nth (Z.to_nat (owner_index k l)) (k_rows_hw k) 0.

Lemma set_counts_quiet l n m (a : A) k a' k' : kv_ok k -> 0 <= l -> 0 <= n < 2 ^ 32 -> counted k l n ->
  set_counts l n m (a, k) = (Ret tt, (a', k')) -> l < kc_layers (k_cfg k) /\ exists v v', k' = k <| k_n_cmp := v |> <| k_n_kv := v' |>.
Proof.
  intros Hk Hl Hn Hc Hrun. apply km_bind_Ret in Hrun as (k0 & s0 & [= <- <-] & Hrun). cbn [snd] in Hrun.
  apply km_bind_Ret in Hrun as ([] & [a0 k0] & Hg & Hrun). unfold km_guard in Hg. injection Hg as Hg <- <-.
  destruct (Z.leb_spec (kc_layers (k_cfg k)) l) as [|Hlt]; [done|]. split; [done|]. cbn zeta in Hrun.
  apply km_bind_Ret in Hrun as ([] & [a1 k1] & Hg1 & Hrun). injection Hg1 as Hmax <- <-.
  apply km_bind_Ret in Hrun as ([] & [a2 k2] & Hr & Hrun). assert (k2 = k) as ->.
  { destruct (Z.eqb_spec (owner_index k l) kNoPlane) as [Hno|Hne]; [by injection Hr as _ <-|].
    destruct (Hc ltac:(lia) Hne) as [Hcap Hhw]. apply km_bind_Ret in Hr as ([] & [a3 k3] & Hres & Hup).
    destruct (found_owner k l Hk ltac:(lia) Hne) as (_ & Ho & _). pose proof (ko_cap k Hk). pose proof (kd_context _ (ko_dims k Hk)).
    apply reserve_quiet in Hres as ->; [|done|].
    2: { unfold u32. etransitivity; [apply Z.mod_le; [|lia]|exact Hcap]. destruct (Z.le_gt_cases 0 (plane_ratio (k_cfg k) (nth (Z.to_nat (owner_index k l)) (k_owners k) kNoPlane))); [nia|].
         destruct (ko_owner_of k Hk l ltac:(lia)) as [?|Hoi]; [done|]. destruct (lookup_lt_is_Some_2 (k_owners k) (Z.to_nat (owner_index k l)) ltac:(lia)) as [o Hoo].
         pose proof (owner_in k Hk _ _ Hoo) as Hin. destruct (kd_ratio _ (ko_dims k Hk) o Hin). rewrite nth_lookup, Hoo in *. cbn in *. lia. }
    injection Hup as _ <-. by apply raise_noop. }
  apply km_bind_Ret in Hrun as ([] & [a3 k3] & Hc3 & Hrun). unfold set_n_cmp in Hc3. unfold set_n_kv in Hrun.
  destruct (set_at l n (k_n_cmp k)) as [v|]; [|done]. injection Hc3 as <- <-. cbn in Hrun.
  destruct (set_at l m _) as [v'|]; [|done]. injection Hrun as _ <-. by exists v, v'.
Qed.

Lemma counts_quiet q k v v' : kv_ok k -> kv_ok (k <| k_n_cmp := v |> <| k_n_kv := v' |>) -> quiet q k (k <| k_n_cmp := v |> <| k_n_kv := v' |>).
Proof. intros Hk Hk'. split; [by split_and!|split; [by intros [] i o x _ _ _|split; [done|by left]]]. Qed.

Lemma top_misses k l bs b i x : Forall (misses k b i x) [(RTop, l, bs)].
Proof. repeat constructor. by destruct b. Qed.

Lemma set_decode_topk_quiet l q n_cmp n_sel (a : A) k a' k' : kv_ok k -> 0 <= l -> 0 <= n_cmp < 2 ^ 32 -> 0 <= q -> q + 1 <= k_cap k ->
  counted k l n_cmp -> kc_window (k_cfg k) <= topk_rows (k_cfg k) -> set_decode_topk l q n_cmp n_sel (a, k) = (Ret tt, (a', k')) ->
  quiet q k k' /\ k_slot_pos k' = <[slot_index (kc_window (k_cfg k)) q := q]> (k_slot_pos k).
Proof.
  intros Hk Hl Hn Hq Hcap Hcnt Htop Hrun. pose proof (ko_cap k Hk). pose proof (kd_context _ (ko_dims k Hk)). pose proof (kd_window _ (ko_dims k Hk)) as Hw.
  apply km_bind_Ret in Hrun as ([] & [a0 k0] & [= _ <- <-] & Hrun). apply km_bind_Ret in Hrun as ([] & [a1 k1] & Hres & Hrun).
  apply reserve_quiet in Hres as ->; [|done|unfold u32; rewrite Z.mod_small; lia].
  apply km_bind_Ret in Hrun as (k1 & s1 & [= <- <-] & Hrun). cbn [snd] in Hrun. apply km_bind_Ret in Hrun as ([] & [a2 k2] & Hc & Hrun).
  pose proof (keeps_run _ _ _ _ _ _ (set_counts_keeps l n_cmp _ Hl Hn) Hk Hc) as [Hk2 _].
  apply set_counts_quiet in Hc as [Hlt (v & v' & ->)]; [|done..]. set (k2 := k <| k_n_cmp := v |> <| k_n_kv := v' |>) in *.
  apply km_bind_Ret in Hrun as (vw & [a3 k3] & Hlay & Hrun). apply layer_top in Hlay as ([= -> ->] & Htv).
  apply km_bind_Ret in Hrun as ([] & [a3 k3] & [= <- Hk3] & Hrun). apply km_bind_Ret in Hrun as (k3' & s3 & [= <- <-] & Hrun). cbn [snd] in Hrun.
  assert (Hok3 : kv_ok k3) by (rewrite <- Hk3; apply slots_ok; [done|by rewrite length_insert]).
  set (d := l * (topk_rows (k_cfg k) * 4)). set (bs := to_bytes 4 (window_list (kc_window (k_cfg k)) (k_win_lo k3) q)) in *.
  assert (Heq : kv_writes k3 [(l_top (k_lay k3) + d, bs)] = k').
  { rewrite Htv in Hrun. apply km_store in Hrun. rewrite <- Hrun. replace (k_lay k2) with (k_lay k3) by (by rewrite <- Hk3). done. }
  assert (Hbs : Z.of_nat (length bs) = kc_window (k_cfg k) * 4).
  { unfold bs, window_list. rewrite to_bytes_length, length_fmap, upto_length. lia. }
  assert (Hin : Forall (kv_inside k3) [(RTop, d, bs)]).
  { apply Forall_singleton. unfold kv_inside, rw_inside, inside. cbn [fst snd]. rewrite Hbs, <- Hk3. cbn [region_in region_bytes].
    change (k_cfg _) with (k_cfg k). split_and!; [done|unfold d; nia|lia|unfold d; nia]. }
  assert (Hok : kv_ok k') by (rewrite <- Heq; apply bufs_ok; [done|apply mem_writes_maps, Hok3]).
  assert (Hsl : k_slot_pos k' = <[slot_index (kc_window (k_cfg k)) q := q]> (k_slot_pos k)) by (by rewrite <- Heq, <- Hk3).
  split; [|exact Hsl]. split; [|split; [|split; [by rewrite <- Heq, <- Hk3|by right]]].
  - rewrite <- Heq, <- Hk3. split_and!; [by rewrite Hk3, Heq|done..].
  - intros b i o x Ho Hx _. rewrite <- Heq. change [(l_top (k_lay k3) + d, bs)] with (kflat k3 <$> [(RTop, d, bs)]).
    rewrite (row_kept k3 _ b i o x Hok3); [by rewrite <- Hk3|by rewrite <- Hk3|by rewrite <- Hk3|exact Hin|apply top_misses].
Qed.

(** What the configurations of the engine and of its store have in common. *)
Record replay_ok (c : TextConfig) (k : KvStore) : Prop := {
  ro_top : kc_window (k_cfg k) <= topk_rows (k_cfg k);
  ro_ratio : forall l, owner_index k l <> kNoPlane -> compress_ratio c l = 0 \/
    compress_ratio c l = plane_ratio (k_cfg k) (nth (Z.to_nat (owner_index k l)) (k_owners k) kNoPlane);
  ro_lists : exists p, p ∈ build_ced_plan c /\ (cd_ratio p =? 0) || cd_is_index_source p = true }.
(** The rows of the first [n] positions count as written. *)
Definition rows_counted (k : KvStore) (n : Z) : Prop :=
  forall i o, k_owners k !! i = Some o -> n / plane_ratio (k_cfg k) o <= nth i (k_rows_hw k) 0.

Lemma ced_from_lookup c cmp idx ls i p : ced_from c cmp idx ls !! i = Some p -> exists l, ls !! i = Some l /\ cd_ratio p = compress_ratio c l.
Proof.
  revert cmp idx i. induction ls as [|l ls IH]; intros cmp idx i Hi; [done|]. destruct i as [|i]; cbn in Hi.
  - injection Hi as <-. by exists l.
  - exact (IH _ _ _ Hi).
Qed.
Lemma ced_plan_lookup c i p : build_ced_plan c !! i = Some p -> cd_ratio p = compress_ratio c (Z.of_nat i).
Proof.
  intros (l & Hl & ->)%ced_from_lookup. unfold layer_ids in Hl. rewrite list_lookup_fmap in Hl.
  destruct (seq _ _ !! i) as [m|] eqn:Hm; [|done]. apply lookup_seq in Hm as [-> _]. by injection Hl as <-.
Qed.

Lemma layer_counted c k q i p : kv_ok k -> replay_ok c k -> 0 <= q -> q + 1 <= k_cap k -> rows_counted k (q + 1) ->
  cd_ratio p = compress_ratio c i -> 0 <= layer_rows q p < 2 ^ 32 /\ counted k i (layer_rows q p).
Proof.
  intros Hk Hok Hq Hcap Hrows Hp. pose proof (ko_cap k Hk). pose proof (kd_context _ (ko_dims k Hk)).
  assert (Hcr : 0 <= compress_ratio c i) by (unfold compress_ratio; repeat case_match; unfold u32; lia || apply Z.mod_pos_bound; lia).
  unfold layer_rows. rewrite Hp. unfold u32. rewrite Z.mod_small by lia. destruct (Z.eqb_spec (compress_ratio c i) 0) as [Hz|Hnz].
  - split; [lia|]. intros Hi Hne. destruct (ko_owner_of k Hk i Hi) as [?|Hoi]; [done|].
    destruct (lookup_lt_is_Some_2 (k_owners k) (Z.to_nat (owner_index k i)) ltac:(lia)) as [o Ho]. specialize (Hrows _ _ Ho).
    pose proof (owner_in k Hk _ _ Ho) as Hin. destruct (kd_ratio _ (ko_dims k Hk) o Hin). pose proof (Z.div_pos (q + 1) (plane_ratio (k_cfg k) o)). lia.
  - split; [split; [apply Z.div_pos; lia|]|].
    + apply Z.le_lt_trans with (q + 1); [|lia]. apply Z.div_le_upper_bound; nia.
    + intros Hi Hne. destruct (ko_owner_of k Hk i Hi) as [?|Hoi]; [done|].
      destruct (lookup_lt_is_Some_2 (k_owners k) (Z.to_nat (owner_index k i)) ltac:(lia)) as [o Ho]. specialize (Hrows _ _ Ho).
      destruct (ro_ratio c k Hok i Hne) as [?|Hr]; [done|]. rewrite nth_lookup, Ho in Hr |- *. cbn in Hr |- *. rewrite <- Hr in *.
      split; [|exact Hrows]. pose proof (Z.mul_div_le (q + 1) (compress_ratio c i)). lia.
Qed.

(** What a step at [q] needs is stable under stores of one shape. *)
Definition step_ready (c : TextConfig) (q : Z) (k : KvStore) : Prop :=
  kv_ok k /\ replay_ok c k /\ 0 <= q /\ q + 1 <= k_cap k /\ rows_counted k (q + 1).
Lemma ready_shape c q k k' : step_ready c q k -> shape k k' -> step_ready c q k'.
Proof.
  intros (_ & Hok & Hq & Hcap & Hrows) (Hk' & Hc & Hos & Hoo & Hcp & Hhw). split_and!; [done| |done|by rewrite Hcp|].
  - destruct Hok as [H1 H2 H3]. split; [by rewrite Hc| |done]. unfold owner_index in *. by rewrite Hc, Hos, Hoo.
  - unfold rows_counted. by rewrite Hc, Hos, Hhw.
Qed.

Definition lists (p : CedPlan) : bool := (cd_ratio p =? 0) || cd_is_index_source p.
Lemma prepare_layer_quiet c q l p (a : A) k a' k' : step_ready c q k -> 0 <= l -> cd_ratio p = compress_ratio c l ->
  prepare_layer c q (l, p) (a, k) = (Ret tt, (a', k')) ->
  quiet q k k' /\ (lists p = true -> k_slot_pos k' = <[slot_index (kc_window (k_cfg k)) q := q]> (k_slot_pos k)).
Proof.
  intros (Hk & Hok & Hq & Hcap & Hrows) Hl Hp Hrun. destruct (layer_counted c k q l p Hk Hok Hq Hcap Hrows Hp) as [Hn Hcnt].
  apply km_bind_Ret in Hrun as ([] & [a0 k0] & [= _ <- <-] & Hrun). unfold lists. destruct ((cd_ratio p =? 0) || cd_is_index_source p).
  - pose proof (set_decode_topk_quiet _ _ _ _ _ _ _ _ Hk Hl Hn Hq Hcap Hcnt (ro_top c k Hok) Hrun) as [Hqu Hs]. done.
  - pose proof (keeps_run _ _ _ _ _ _ (set_counts_keeps l _ _ Hl Hn) Hk Hrun) as [Hk' _].
    apply set_counts_quiet in Hrun as [_ (v & v' & ->)]; [|done..]. split; [by apply counts_quiet|done].
Qed.

Lemma prepare_layers_quiet c q (lps : list (Z * CedPlan)) (a : A) k a' k' : step_ready c q k ->
  Forall (fun lp => 0 <= lp.1 /\ cd_ratio lp.2 = compress_ratio c lp.1) lps ->
  km_for lps (prepare_layer c q) (a, k) = (Ret tt, (a', k')) ->
  quiet q k k' /\ (Exists (fun lp => lists lp.2 = true) lps -> k_slot_pos k' = <[slot_index (kc_window (k_cfg k)) q := q]> (k_slot_pos k)).
Proof.
  revert a k. induction lps as [|[l p] lps IH]; intros a k Hr Hall Hrun.
  { injection Hrun as _ <-. split; [apply quiet_refl, Hr|]. by intros ?%Exists_nil. }
  apply Forall_cons in Hall as [[Hl Hp] Hall]. cbn [km_for] in Hrun. apply km_bind_Ret in Hrun as ([] & [a1 k1] & H1 & Hrun).
  destruct (prepare_layer_quiet _ _ _ _ _ _ _ _ Hr Hl Hp H1) as [Hq1 Hs1]. cbn [fst snd] in *.
  destruct (IH a1 k1 (ready_shape _ _ _ _ Hr (proj1 Hq1)) Hall Hrun) as [Hq2 Hs2]. pose proof (proj1 Hq1) as (_ & Hc & _).
  rewrite Hc in Hs2. split; [by eapply quiet_trans|]. intros [He|He]%Exists_cons.
  - rewrite <- (Hs1 He). destruct Hq2 as (_ & _ & _ & [H2|H2]); [done|]. rewrite H2, Hc, (Hs1 He). apply list_insert_insert_eq.
  - rewrite (Hs2 He). destruct Hq1 as (_ & _ & _ & [H2|H2]); rewrite H2; [done|]. apply list_insert_insert_eq.
Qed.

Lemma prepare_ced_quiet c q (a : A) k a' k' : step_ready c q k -> prepare_ced c q (a, k) = (Ret tt, (a', k')) ->
  quiet q k k' /\ k_slot_pos k' = <[slot_index (kc_window (k_cfg k)) q := q]> (k_slot_pos k).
Proof.
  intros Hr Hrun. pose proof Hr as (_ & Hok & _). destruct (ro_lists c k Hok) as (p & Hp & Hl).
  assert (Hall : Forall (fun lp : Z * CedPlan => 0 <= lp.1 /\ cd_ratio lp.2 = compress_ratio c lp.1) (imap (fun i p => (Z.of_nat i, p)) (build_ced_plan c))).
  { apply Forall_lookup. intros i lp Hi. apply list_lookup_imap_Some in Hi as (p' & Hp' & ->). cbn. split; [lia|]. by apply ced_plan_lookup. }
  destruct (prepare_layers_quiet c q _ a k a' k' Hr Hall Hrun) as [Hq Hs]. split; [exact Hq|]. apply Hs. apply Exists_exists.
  apply list_elem_of_lookup in Hp as [i Hi]. exists (Z.of_nat i, p). split; [|exact Hl]. apply list_elem_of_lookup. exists i. by rewrite list_lookup_imap, Hi.
Qed.
End Prepare.

(** ** The device's part of a step *)

(** Row [x] of an owner's planes is the one position [q] completes. *)
Definition completes (k : KvStore) (q : Z) (i : nat) (x : Z) : Prop :=
  exists o, k_owners k !! i = Some o /\ (q + 1) mod plane_ratio (k_cfg k) o = 0 /\ x = (q + 1) / plane_ratio (k_cfg k) o - 1.
(** What the kernels of a step at [q] write: anything but the rows of the planes, of which only
    the row the step completes. *)
Definition step_write (k : KvStore) (q : Z) (w : RWrite) : Prop :=
  forall b i x, 0 <= x -> misses k b i x w \/ completes k q i x.
Class DeviceWrites (W : Type) `{Device W} : Prop :=
  step_writes : forall sample t q h d k w r d' k' w', kv_ok k -> run_layers sample t q h d k w = (r, d', k', w') ->
    exists ws, k' = kv_writes k (kflat k <$> ws) /\ Forall (kv_inside k) ws /\ Forall (step_write k q) ws.

Lemma writes_shape k ws : kv_ok k -> Forall (kv_inside k) ws -> shape k (kv_writes k (kflat k <$> ws)).
Proof. intros Hk Hin. split_and!; [|done..]. apply bufs_ok; [done|]. apply mem_writes_maps, Hk. Qed.

Lemma device_step k q ws : kv_ok k -> Forall (kv_inside k) ws -> Forall (step_write k q) ws ->
  let k' := kv_writes k (kflat k <$> ws) in shape k k' /\ rows_same (completes k q) k k' /\ k_win_lo k' = k_win_lo k /\ k_slot_pos k' = k_slot_pos k.
Proof.
  intros Hk Hin Hw k'. split_and!; [by apply writes_shape| |done|done]. intros b i o x Ho Hx Hc.
  apply (row_kept k ws b i o x Hk Ho Hx Hin). eapply Forall_impl; [exact Hw|]. intros w Hsw. by destruct (Hsw b i x ltac:(lia)).
Qed.

(** ** Putting the rows back *)

(** The copy taken of an owner's planes before the replay. *)
Definition copy_of (k0 : KvStore) (first end_ : Z) (i : nat) (p : BackupPlane) : Prop :=
  exists o, k_owners k0 !! i = Some o /\ backup_plane k0 first end_ i o = Ret p.
Lemma backup_planes k0 first end_ b : backup_rows k0 first end_ = Ret b ->
  length (kb_planes b) = length (k_owners k0) /\ forall i p, kb_planes b !! i = Some p -> copy_of k0 first end_ i p.
Proof.
  unfold backup_rows. intros ([] & _ & (ps & Hps & [= <-])%bind_Ret)%bind_Ret. cbn [kb_planes].
  pose proof (fun res => collect_Ret (backup_plane k0 first end_) (k_owners k0) 0 [] res) as Hc. cbn [Nat.add app] in Hc.
  apply Hc in Hps as (ys & -> & Hl & Hf). split; [done|]. intros i p Hp.
  destruct (lookup_lt_is_Some_2 (k_owners k0) i ltac:(rewrite <- Hl; by eapply lookup_lt_Some)) as [o Ho]. exists o. split; [done|]. by apply Hf.
Qed.

Section PutRows.
Context {A : Type} `{MemoryAllocator A}.
Context (k0 : KvStore) (Hk0 : kv_ok k0) (first end_ q : Z).
Context (Hfirst : 0 <= first <= q) (Hq : q < end_) (Hend : end_ <= k_cap k0).
Context (Hratio : forall o, o ∈ owners (k_cfg k0) -> (plane_ratio (k_cfg k0) o | first)).

Definition left_from (m : nat) (j : nat) (y : Z) : Prop := completes k0 q j y /\ (m <= j)%nat.

Lemma copied_row i o p x b : k_owners k0 !! i = Some o -> backup_plane k0 first end_ i o = Ret p -> bp_first_row p <= x < bp_first_row p + bp_rows p ->
  chunk (plane_dim b (k_cfg k0)) (x - bp_first_row p) (if b then bp_key p else bp_cmp p) = plane_rows k0 b i x 1.
Proof.
  intros Ho (u & _ & [= <-])%bind_Ret Hx. cbn [bp_first_row bp_rows bp_key bp_cmp] in *.
  pose proof (owner_in k0 Hk0 i o Ho) as Hin. destruct (kd_ratio _ (ko_dims k0 Hk0) o Hin) as [Hr _]. pose proof (ko_cap k0 Hk0).
  set (r := plane_ratio (k_cfg k0) o) in *. assert (Hf : 0 <= first / r) by (apply Z.div_pos; lia).
  case_match; [|lia].
  pose proof (row_of_rows k0 i o b (first / r) (end_ / r - first / r) (x - first / r) Hk0 Ho Hf ltac:(lia)) as Hrow.
  replace (first / r + (x - first / r)) with x in Hrow by lia. rewrite <- Hrow; [by destruct b|].
  replace (first / r + (end_ / r - first / r)) with (end_ / r) by lia. apply (rows_below _ (ko_dims k0 Hk0)); [done|lia|]. apply Z.div_le_mono; lia.
Qed.

(** A row of the planes is in the copy when a replayed position completes it. *)
Lemma completed_row i o p x : k_owners k0 !! i = Some o -> backup_plane k0 first end_ i o = Ret p -> completes k0 q i x ->
  bp_first_row p <= x < bp_first_row p + bp_rows p /\ 0 <= x < rows_for (k_cfg k0) o (k_cap k0) /\ (q + 1) mod bp_ratio p = 0 /\ x = (q + 1) / bp_ratio p - 1 /\
  bp_layer p = o /\ bp_first_row p + bp_rows p < 2 ^ 32.
Proof.
  intros Ho (u & _ & [= <-])%bind_Ret (o' & Ho' & Hm & Hx). rewrite Ho in Ho'. injection Ho' as <-. cbn [bp_first_row bp_rows bp_ratio bp_layer] in *.
  pose proof (owner_in k0 Hk0 i o Ho) as Hin. destruct (kd_ratio _ (ko_dims k0 Hk0) o Hin) as [Hr _]. pose proof (ko_cap k0 Hk0).
  pose proof (kd_context _ (ko_dims k0 Hk0)). destruct (Hratio o Hin) as [f Hf]. set (r := plane_ratio (k_cfg k0) o) in *.
  assert (Hfr : first / r = f) by (rewrite Hf; apply Z.div_mul; lia). rewrite Hfr.
  pose proof (Z.div_mod (q + 1) r ltac:(lia)) as Hdm. rewrite Hm in Hdm. set (y := (q + 1) / r) in *.
  assert (Hfy : f + 1 <= y) by nia. assert (Hye : y <= end_ / r) by (apply Z.div_le_lower_bound; lia).
  assert (end_ / r <= end_) by (apply Z.div_le_upper_bound; nia). assert (0 <= f) by nia.
  assert (end_ / r <= rows_for (k_cfg k0) o (k_cap k0)) by (apply (rows_below _ (ko_dims k0 Hk0)); [done|lia|]; apply Z.div_le_mono; lia).
  case_match; split_and!; try done; lia.
Qed.

Lemma restore_plane_row_puts k i p (a : A) a' k' : shape k0 k -> rows_same (left_from i) k0 k -> copy_of k0 first end_ i p ->
  restore_plane_row q p (a, k) = (Ret tt, (a', k')) ->
  shape k0 k' /\ rows_same (left_from (S i)) k0 k' /\ k_win_lo k' = k_win_lo k /\ k_slot_pos k' = k_slot_pos k.
Proof.
  intros Hsh Hrows (o & Ho & Hp) Hrun. pose proof Hsh as (Hk & Hc & Hos & Hoo & Hcap & Hhw). pose proof (ko_cap k0 Hk0). pose proof (kd_context _ (ko_dims k0 Hk0)).
  apply km_bind_Ret in Hrun as (k1 & s1 & [= <- <-] & Hrun). cbn [snd] in Hrun. unfold u32 in Hrun. rewrite (Z.mod_small (q + 1)) in Hrun by lia.
  assert (Hbad : forall x, completes k0 q i x -> (_ : Prop)) by (intros x Hx; exact (completed_row i o p x Ho Hp Hx)).
  destruct (Z.eqb_spec ((q + 1) mod bp_ratio p) 0) as [Hm|Hm]; cbn [negb orb] in Hrun.
  2: { injection Hrun as _ <-. split_and!; try done. intros b j o' y Ho' Hy Hn. apply (Hrows b j o' y Ho' Hy). intros [Hcp Hj].
       apply Hn. split; [done|]. destruct (decide (j = i)) as [->|]; [|lia]. destruct (Hbad y Hcp) as (_ & _ & ? & _). done. }
  set (x := (q + 1) / bp_ratio p - 1) in *.
  assert (Hratio' : bp_ratio p = plane_ratio (k_cfg k0) o /\ bp_layer p = o) by (apply bind_Ret in Hp as (u & _ & [= <-]); done).
  assert (Hcx : completes k0 q i x) by (exists o; destruct Hratio' as [<- _]; done).
  destruct (Hbad x Hcx) as (Hxr & Hxc & _ & _ & Hly & Hlt).
  rewrite !(Z.mod_small x), (Z.mod_small (_ + _)) in Hrun by (destruct (kd_ratio _ (ko_dims k0 Hk0) o (owner_in k0 Hk0 i o Ho));
    assert (0 <= bp_first_row p) by (apply bind_Ret in Hp as (u & _ & [= <-]); cbn; apply Z.div_pos; lia); lia).
  rewrite (proj2 (Z.ltb_ge _ _)), (proj2 (Z.leb_gt _ _)) in Hrun by lia. cbn [orb] in Hrun.
  apply km_bind_Ret in Hrun as ([] & [a1 k1] & [= _ <- <-] & Hrun). injection Hrun as _ Hk'.
  assert (Hoi : owner_index k (bp_layer p) = Z.of_nat i) by (apply (ko_own k Hk); rewrite Hos, Hly; done). rewrite Hoi, Nat2Z.id in Hk'.
  assert (Hok : k_owners k !! i = Some o) by by rewrite Hos.
  pose proof (copied_row i o p x false Ho Hp Hxr) as Hcmp. pose proof (copied_row i o p x true Ho Hp Hxr) as Hkey. cbn [plane_dim] in Hcmp, Hkey.
  rewrite Hc, Hcmp, Hkey in Hk'. set (cmp := plane_rows k0 false i x 1) in *. set (key := plane_rows k0 true i x 1) in *.
  assert (Hxk : 0 <= x < rows_for (k_cfg k) o (k_cap k)) by (by rewrite Hc, Hcap).
  assert (Hcl : length cmp = Z.to_nat (kc_latent_dim (k_cfg k)) /\ u16_list cmp).
  { unfold cmp. rewrite plane_rows_length, Hc by (done || lia). cbn [plane_dim]. split; [lia|]. rewrite plane_rows_at. apply of_bytes_range. }
  assert (Hyl : length key = Z.to_nat (kc_index_dim (k_cfg k)) /\ u16_list key).
  { unfold key. rewrite plane_rows_length, Hc by (done || lia). cbn [plane_dim]. split; [lia|]. rewrite plane_rows_at. apply of_bytes_range. }
  assert (Hkw : k' = kv_writes k (kflat k <$> row_rws (k_cfg k) i x cmp key)) by (rewrite <- Hk', Hc; done). clear Hk'.
  pose proof (writes_shape k _ Hk (row_rws_inside k Hk i o Hok x Hxk cmp key Hcl Hyl)) as Hs1. rewrite <- Hkw in Hs1.
  split_and!; [by eapply shape_trans| |by rewrite Hkw|by rewrite Hkw].
  intros b j o' y Ho' Hy Hn. destruct (decide (j = i /\ y = x)) as [[-> ->]|Hne].
  - rewrite Hkw, (row_put_back k Hk i o Hok x Hxk cmp key Hcl Hyl b). by destruct b.
  - rewrite Hkw, (other_row_kept k Hk i o Hok x Hxk cmp key Hcl Hyl b j o' y); [|by rewrite Hos|by rewrite Hc, Hcap|destruct (decide (j = i)); naive_solver].
    apply (Hrows b j o' y Ho' Hy). intros [Hcp Hj]. apply Hn. split; [done|]. destruct (decide (j = i)) as [->|]; [|lia].
    exfalso. apply Hne. split; [done|]. destruct (Hbad y Hcp) as (_ & _ & _ & -> & _). done.
Qed.

Lemma restore_rows_puts b k (a : A) a' k' : backup_rows k0 first end_ = Ret b -> shape k0 k -> rows_same (completes k0 q) k0 k ->
  restore_rows b q (a, k) = (Ret tt, (a', k')) ->
  shape k0 k' /\ rows_same no_row k0 k' /\ k_win_lo k' = k_win_lo k /\ k_slot_pos k' = k_slot_pos k.
Proof.
  intros Hb Hsh Hrows Hrun. apply backup_planes in Hb as [Hl Hcp].
  apply km_bind_Ret in Hrun as (k1 & s1 & [= <- <-] & Hrun). apply km_bind_Ret in Hrun as ([] & [a1 k1] & [= _ <- <-] & Hrun).
  assert (Hgen : forall ps m k (a : A), shape k0 k -> rows_same (left_from m) k0 k -> (forall n p, ps !! n = Some p -> copy_of k0 first end_ (m + n) p) ->
    foldr (fun p rest => _ ← restore_plane_row q p; rest) (mret tt) ps (a, k) = (Ret tt, (a', k')) ->
    shape k0 k' /\ rows_same (left_from (m + length ps)) k0 k' /\ k_win_lo k' = k_win_lo k /\ k_slot_pos k' = k_slot_pos k).
  { clear k Hsh Hrows Hrun Hl Hcp. intros ps. induction ps as [|p ps IH]; intros m k2 a0 Hs Hr Hcp Hrun.
    { injection Hrun as _ <-. rewrite Nat.add_0_r. done. }
    cbn [foldr] in Hrun. apply km_bind_Ret in Hrun as ([] & [a1' k1'] & H1 & Hrun).
    destruct (restore_plane_row_puts k2 m p a0 a1' k1' Hs Hr) as (Hs1 & Hr1 & Hlo1 & Hsl1); [rewrite <- (Nat.add_0_r m); by apply Hcp|exact H1|].
    destruct (IH (S m) k1' a1' Hs1 Hr1) as (Hs2 & Hr2 & Hlo2 & Hsl2); [|exact Hrun|].
    { intros n p' Hp'. rewrite Nat.add_succ_l, <- Nat.add_succ_r. by apply Hcp. }
    cbn [length]. rewrite Nat.add_succ_r. split_and!; [done|exact Hr2|congruence|congruence]. }
  destruct (Hgen (kb_planes b) 0%nat k a Hsh) as (Hs & Hr & Hlo & Hsl); [|exact Hcp|exact Hrun|].
  { intros b0 j o y Ho Hy Hn. apply (Hrows b0 j o y Ho Hy). intros Hc. apply Hn. split; [done|lia]. }
  split_and!; [done| |done|done]. intros b0 j o y Ho Hy _. apply (Hr b0 j o y Ho Hy). intros [_ Hj]. apply lookup_lt_Some in Ho. lia.
Qed.
End PutRows.

(** ** Putting the carried state back *)

Definition states_same (m : nat) (k0 k : KvStore) : Prop :=
  forall h i o, 0 <= h <= 1 -> (i < m)%nat -> k_owners k0 !! i = Some o -> state_words k h i = state_words k0 h i.

Section PutState.
Context {A : Type} `{MemoryAllocator A}.
Context (k0 : KvStore) (first end_ : Z).

Lemma restore_plane_carry_puts k i p (a : A) a' k' : shape k0 k -> rows_same no_row k0 k -> states_same i k0 k -> copy_of k0 first end_ i p ->
  restore_plane_carry p (a, k) = (Ret tt, (a', k')) ->
  shape k0 k' /\ rows_same no_row k0 k' /\ states_same (S i) k0 k' /\ k_win_lo k' = k_win_lo k /\ k_slot_pos k' = k_slot_pos k.
Proof.
  intros Hsh Hrows Hst (o & Ho & Hp) Hrun. pose proof Hsh as (Hk & Hc & Hos & Hoo & Hcap & Hhw).
  apply km_bind_Ret in Hrun as (k1 & s1 & [= <- <-] & Hrun). cbn [snd] in Hrun. apply km_bind_Ret in Hrun as ([] & [a1 k1] & [= _ <- <-] & Hrun).
  apply bind_Ret in Hp as (u & _ & [= <-]). cbn [bp_layer bp_carry_kv bp_carry_score] in Hrun.
  assert (Hok : k_owners k !! i = Some o) by by rewrite Hos. rewrite (ko_own k Hk i o Hok) in Hrun.
  set (kv := carry_words k0 (l_state (k_lay k0)) i _) in Hrun. set (sc := carry_words k0 (score_base k0) i _) in Hrun.
  assert (Hkv : kv = state_words k0 0 i) by (unfold kv; rewrite carry_kv_at; done).
  assert (Hsc : sc = state_words k0 1 i) by (unfold sc; rewrite carry_score_at; done).
  assert (Hlk : length kv = Z.to_nat (carry_len (k_cfg k)) /\ u32_list kv) by (rewrite Hkv, Hc; split; [apply state_words_length|apply of_bytes_range]).
  assert (Hls : length sc = Z.to_nat (carry_len (k_cfg k)) /\ u32_list sc) by (rewrite Hsc, Hc; split; [apply state_words_length|apply of_bytes_range]).
  assert (Hkw : k' = kv_writes k (kflat k <$> state_rws k i kv sc)).
  { injection Hrun as _ <-. f_equal. unfold state_rws, kflat, state_at, score_base. cbn. rewrite (Z.mul_add_distr_r (1 * _)), Z.mul_1_l, Z.add_assoc. done. }
  clear Hrun. pose proof (state_rws_inside k Hk i o Hok kv sc Hlk Hls) as Hin.
  pose proof (writes_shape k _ Hk Hin) as Hs1. rewrite <- Hkw in Hs1. destruct (state_put_back k Hk i o Hok kv sc Hlk Hls) as [Hb0 Hb1].
  split_and!; [by eapply shape_trans| | |by rewrite Hkw|by rewrite Hkw].
  - eapply rows_same_trans; [exact Hsh|exact Hrows|]. intros b j o' y Ho' Hy _. rewrite Hkw. apply (row_kept k _ b j o' y Hk Ho' Hy Hin).
    repeat constructor; by destruct b.
  - intros h j o' Hh Hj Ho'. destruct (decide (j = i)) as [->|Hne].
    + rewrite Hkw. assert (h = 0 \/ h = 1) as [->| ->] by lia; congruence.
    + rewrite Hkw, (other_state_kept k Hk i o Hok kv sc Hlk Hls h j o' Hh) by (by rewrite ?Hos). apply (Hst h j o'); [done|lia|done].
Qed.

Lemma restore_carry_puts b k (a : A) a' k' : backup_rows k0 first end_ = Ret b -> shape k0 k -> rows_same no_row k0 k ->
  restore_carry b (a, k) = (Ret tt, (a', k')) ->
  shape k0 k' /\ rows_same no_row k0 k' /\ states_same (length (k_owners k0)) k0 k' /\ k_win_lo k' = k_win_lo k /\ k_slot_pos k' = k_slot_pos k.
Proof.
  intros Hb Hsh Hrows Hrun. apply backup_planes in Hb as [Hl Hcp].
  apply km_bind_Ret in Hrun as (k1 & s1 & [= <- <-] & Hrun). apply km_bind_Ret in Hrun as ([] & [a1 k1] & [= _ <- <-] & Hrun).
  assert (Hgen : forall ps m k (a : A), shape k0 k -> rows_same no_row k0 k -> states_same m k0 k -> (forall n p, ps !! n = Some p -> copy_of k0 first end_ (m + n) p) ->
    foldr (fun p rest => _ ← restore_plane_carry p; rest) (mret tt) ps (a, k) = (Ret tt, (a', k')) ->
    shape k0 k' /\ rows_same no_row k0 k' /\ states_same (m + length ps) k0 k' /\ k_win_lo k' = k_win_lo k /\ k_slot_pos k' = k_slot_pos k).
  { clear k Hsh Hrows Hrun Hl Hcp. intros ps. induction ps as [|p ps IH]; intros m k2 a0 Hs Hr Hst Hcp Hrun.
    { injection Hrun as _ <-. rewrite Nat.add_0_r. done. }
    cbn [foldr] in Hrun. apply km_bind_Ret in Hrun as ([] & [a1' k1'] & H1 & Hrun).
    destruct (restore_plane_carry_puts k2 m p a0 a1' k1' Hs Hr Hst) as (Hs1 & Hr1 & Hst1 & Hlo1 & Hsl1); [rewrite <- (Nat.add_0_r m); by apply Hcp|exact H1|].
    destruct (IH (S m) k1' a1' Hs1 Hr1 Hst1) as (Hs2 & Hr2 & Hst2 & Hlo2 & Hsl2); [|exact Hrun|].
    { intros n p' Hp'. rewrite Nat.add_succ_l, <- Nat.add_succ_r. by apply Hcp. }
    cbn [length]. rewrite Nat.add_succ_r. split_and!; [done|done|exact Hst2|congruence|congruence]. }
  rewrite <- Hl. apply (Hgen (kb_planes b) 0%nat k a Hsh Hrows); [|exact Hcp|exact Hrun]. intros h i o _ Hi. lia.
Qed.
End PutState.

(** ** The replay *)

Lemma em_bind_Ret {A W} `{MemoryAllocator A} `{Device W} {T U} (m : EM (A:=A) (W:=W) T) (f : T -> EM (A:=A) (W:=W) U) e y e' : (m ≫= f) e = (Ret y, e') ->
  exists x e1, m e = (Ret x, e1) /\ f x e1 = (Ret y, e').
Proof. unfold mbind, EM_bind. destruct (m e) as [[x|r] e1]; [|done]. intros Hf. by exists x, e1. Qed.
Lemma on_kvs_Ret {A W} `{MemoryAllocator A} `{Device W} {T} (m : KM (A:=A) T) (e : Engine A W) x e' : on_kvs m e = (Ret x, e') ->
  exists a' k', m (en_alloc e, en_kvs e) = (Ret x, (a', k')) /\ e' = (e <| en_alloc := a' |>) <| en_kvs := k' |>.
Proof. unfold on_kvs. destruct (m _) as [r [a k]] eqn:E. intros [= -> <-]. by exists a, k. Qed.

Section Run.
Context {A W : Type} `{Hal : MemoryAllocatorOk A} `{Hdw : DeviceWrites W} (c : TextConfig).
Context (k0 : KvStore) (first end_ : Z) (b : KvRowBackup) (hist : list Z).
Context (Hb : backup_rows k0 first end_ = Ret b) (Hfirst : 0 <= first) (Hend : end_ <= k_cap k0).
Context (Hratio : forall o, o ∈ owners (k_cfg k0) -> (plane_ratio (k_cfg k0) o | first)).
Context (Hk0 : kv_ok k0) (Hro : replay_ok c k0) (Hrc : forall q, q < end_ -> rows_counted k0 (q + 1)).

(** An engine in the middle of the replay, with the slots [sp] in its ring. *)
Definition replaying (lo : Z) (sp : list Z) (e : Engine A W) : Prop :=
  shape k0 (en_kvs e) /\ rows_same no_row k0 (en_kvs e) /\ en_history e = hist /\ en_produce_ced e = true /\
  k_win_lo (en_kvs e) = lo /\ k_slot_pos (en_kvs e) = sp.
Definition mark (sp : list Z) (q : Z) : list Z := <[slot_index (kc_window (k_cfg k0)) q := q]> sp.

Lemma record_same t q : 0 <= q -> hist !! Z.to_nat q = Some t -> record_token t q hist = hist.
Proof.
  intros Hq Ht. unfold record_token. pose proof (lookup_lt_Some _ _ _ Ht). replace (Z.to_nat (q + 1) - length hist)%nat with 0%nat by lia.
  rewrite app_nil_r. by apply list_insert_id.
Qed.

Lemma replay_step_keeps q lo sp e e' : first <= q < end_ -> replaying lo sp e -> replay_step c hist b q e = (Ret tt, e') -> replaying lo (mark sp q) e'.
Proof.
  intros Hq (Hsh & Hrows & Hh & Hpc & Hlo & Hsp) Hrun.
  apply em_bind_Ret in Hrun as (t & e1 & H1 & Hrun). unfold em_of in H1. injection H1 as Ht <-.
  destruct (hist !! Z.to_nat q) as [t'|] eqn:Eq; [|done]. injection Ht as ->.
  apply em_bind_Ret in Hrun as (r & e2 & Hstep & Hput).
  apply em_bind_Ret in Hstep as (e0 & e0' & [= <- <-] & Hstep). apply em_bind_Ret in Hstep as ([] & e3 & [= _ <-] & Hstep).
  apply em_bind_Ret in Hstep as ([] & e4 & [= <-] & Hstep). rewrite Hpc in Hstep.
  apply em_bind_Ret in Hstep as ([] & e5 & Hced & Hdev). apply on_kvs_Ret in Hced as (a5 & k5 & Hced & ->). cbn [en_kvs en_alloc] in Hced.
  assert (Hready : step_ready c q (en_kvs e)).
  { apply (ready_shape c q k0); [|done]. split_and!; [done|done|lia|lia|]. apply Hrc. lia. }
  destruct (prepare_ced_quiet c q _ _ _ _ Hready Hced) as [(Hs5 & Hr5 & [Hlo5 _]) Hsl5]. unfold run_on_device in Hdev.
  match type of Hdev with context [run_layers ?s ?t ?p ?h ?d ?k ?w] => destruct (run_layers s t p h d k w) as [[[r0 dr6] kr6] w6] eqn:Edev end.
  injection Hdev as -> <-. cbn in Edev. apply (step_writes (W:=W)) in Edev as (ws & -> & Hin & Hws); [|exact (proj1 Hs5)].
  destruct (device_step _ q ws (proj1 Hs5) Hin Hws) as (Hs6 & Hr6 & Hlo6 & Hsl6). set (k6 := kv_writes k5 (kflat k5 <$> ws)) in *.
  apply on_kvs_Ret in Hput as (a7 & k7 & Hput & ->). cbn in Hput.
  assert (Hs06 : shape k0 k6) by exact (shape_trans _ _ _ Hsh (shape_trans _ _ _ Hs5 Hs6)).
  assert (Hr06 : rows_same (completes k0 q) k0 k6).
  { assert (Hs05 : shape k0 k5) by exact (shape_trans _ _ _ Hsh Hs5). pose proof Hs05 as (_ & Hc & Ho & _ & Hcap & _).
    intros b0 i o x Ho' Hx Hn. rewrite (Hr6 b0 i o x); [|by rewrite Ho|by rewrite Hc, Hcap|].
    - apply (rows_same_trans no_row k0 (en_kvs e) k5 Hsh Hrows Hr5 b0 i o x Ho' Hx). by intros [].
    - unfold completes in Hn |- *. by rewrite Ho, Hc. }
  destruct (restore_rows_puts k0 Hk0 first end_ q ltac:(lia) (proj2 Hq) Hend Hratio b k6 _ _ _ Hb Hs06 Hr06 Hput) as (Hs7 & Hr7 & Hlo7 & Hsl7).
  split_and!; cbn; [done|done| |done|congruence|].
  - rewrite Hh. apply record_same; [lia|done].
  - rewrite Hsl7, Hsl6, Hsl5, Hsp. unfold mark. by destruct Hsh as (_ & -> & _).
Qed.

Lemma replay_steps_keep qs lo sp e e' : Forall (fun q => first <= q < end_) qs -> replaying lo sp e ->
  em_for qs (replay_step c hist b) e = (Ret tt, e') -> replaying lo (foldl mark sp qs) e'.
Proof.
  revert sp e. induction qs as [|q qs IH]; intros sp e Hqs Hr Hrun; [by injection Hrun as <-|].
  apply Forall_cons in Hqs as [Hq Hqs]. cbn [em_for] in Hrun. apply em_bind_Ret in Hrun as ([] & e1 & H1 & Hrun).
  cbn [foldl]. apply (IH _ e1 Hqs); [|exact Hrun]. by eapply replay_step_keeps.
Qed.
End Run.

(** ** The whole of it *)

Lemma mod_eq_close w p q : 0 < w -> - w < p - q < w -> p mod w = q mod w -> p = q.
Proof. intros Hw Hd Hm. pose proof (Z.div_mod p w) as Hp. pose proof (Z.div_mod q w) as Hq. rewrite Hm in Hp. assert (He : p - q = w * (p / w - q / w)) by lia. assert (p / w - q / w = 0) by nia. nia. Qed.

Lemma slot_close w p q : 0 < w -> - w < p - q < w -> slot_index w p = slot_index w q -> p = q.
Proof.
  intros Hw Hd Hs. apply (mod_eq_close w); [done..|]. unfold slot_index in Hs.
  pose proof (Z.mod_pos_bound p w Hw). pose proof (Z.mod_pos_bound q w Hw). lia.
Qed.

Lemma same_context_of k k' positions : kv_ok k -> shape k k' -> rows_same no_row k k' -> states_same (length (k_owners k)) k k' ->
  0 <= positions <= k_cap k -> rows_counted k positions -> same_context k k' positions.
Proof.
  intros Hk (Hk' & Hc & Hos & _ & Hcap & Hhw) Hrows Hst Hpos Hcnt i o Ho. cbn zeta. pose proof (ko_cap k Hk).
  pose proof (owner_in k Hk i o Ho) as Hin. destruct (kd_ratio _ (ko_dims k Hk) o Hin) as [Hr _]. destruct (kd_latent _ (ko_dims k Hk)) as [Hl _].
  set (r := plane_ratio (k_cfg k) o) in *. assert (H0 : 0 <= positions / r) by (apply Z.div_pos; lia).
  assert (Hle : positions / r <= rows_for (k_cfg k) o (k_cap k)) by (apply (rows_below _ (ko_dims k Hk)); [done|lia|]; apply Z.div_le_mono; lia).
  assert (Hall : forall b, plane_rows k' b i 0 (positions / r) = plane_rows k b i 0 (positions / r)).
  { intros b. apply (rows_agree k k' i o b); try done. intros x Hx. apply (Hrows b i o x Ho); [lia|by intros []]. }
  split_and!; [exact (Hall false)|exact (Hall true)|rewrite Hhw; by apply Hcnt|]. intros _.
  assert (Hn : 0 <= r * kc_latent_dim (k_cfg k) <= carry_len (k_cfg k)) by (unfold carry_len; nia).
  destruct (carry_prefix k Hk i o Ho _ Hn) as [-> ->]. rewrite <- Hos in Ho. rewrite <- Hc in Hn.
  destruct (carry_prefix k' Hk' i o Ho _ Hn) as [H1 H2]. rewrite Hc in H1, H2. rewrite H1, H2. rewrite Hos in Ho.
  rewrite (Hst 0 i o), (Hst 1 i o) by (lia || done || by eapply lookup_lt_Some). done.
Qed.

Section Whole.
Context {A W : Type} `{Hal : MemoryAllocatorOk A} `{Hdw : DeviceWrites W} (c : TextConfig).

Lemma counted_from_backup k first end_ b : kv_ok k -> 0 <= first <= end_ -> end_ <= k_cap k -> backup_rows k first end_ = Ret b -> rows_counted k end_.
Proof.
  intros Hk Hf He Hb i o Ho. apply backup_planes in Hb as [Hl Hcp].
  destruct (lookup_lt_is_Some_2 (kb_planes b) i ltac:(rewrite Hl; by eapply lookup_lt_Some)) as [p Hp]. apply Hcp in Hp as (o' & Ho' & Hp).
  rewrite Ho in Ho'. injection Ho' as <-. unfold backup_plane in Hp. apply bind_Ret in Hp as ([] & Hg%fail_if_Ret%Z.ltb_ge & _).
  pose proof (owner_in k Hk i o Ho) as Hin. destruct (kd_ratio _ (ko_dims k Hk) o Hin) as [Hr _]. pose proof (ko_cap k Hk). pose proof (kd_context _ (ko_dims k Hk)).
  set (r := plane_ratio (k_cfg k) o) in *. assert (0 <= first / r) by (apply Z.div_pos; lia).
  assert (first / r <= end_ / r) by (apply Z.div_le_mono; lia). assert (end_ / r <= end_) by (apply Z.div_le_upper_bound; nia).
  unfold u32 in Hg. destruct (Z.ltb_spec (first / r) (end_ / r)); rewrite Z.mod_small in Hg by lia; lia.
Qed.

Lemma rows_counted_mono k n m : kv_ok k -> m <= n -> rows_counted k n -> rows_counted k m.
Proof.
  intros Hk Hm Hn i o Ho. pose proof (owner_in k Hk i o Ho) as Hin. destruct (kd_ratio _ (ko_dims k Hk) o Hin) as [Hr _].
  etransitivity; [apply Z.div_le_mono; [lia|exact Hm]|by apply Hn].
Qed.

Lemma floor_shape lo k : kv_ok k -> shape k (k <| k_win_lo := lo |>) /\ rows_same no_row k (k <| k_win_lo := lo |>).
Proof. intros Hk. split; [split_and!; [by apply (floor_like k k lo), like_refl|done..]|by intros [] i o x _ _ _]. Qed.

Lemma replay_runs plan (e : Engine A W) st e' : let k := en_kvs e in
  kv_ok k -> replay_ok c k -> (forall o, o ∈ owners (k_cfg k) -> (plane_ratio (k_cfg k) o | rl_first plan)) -> en_produce_ced e = true ->
  0 <= rl_first plan < rl_end plan -> rl_end plan <= k_cap k -> run_replay c plan e = (Ret st, e') ->
  let k' := en_kvs e' in
  shape k k' /\ rows_same no_row k k' /\ states_same (length (k_owners k)) k k' /\ en_history e' = en_history e /\
  k_win_lo k' = rl_first plan /\
  k_slot_pos k' = foldl (fun sp q => <[slot_index (kc_window (k_cfg k)) q := q]> sp) (k_slot_pos k)
    ((fun i => rl_first plan + i) <$> upto (plan_steps plan)).
Proof.
  intros k Hk Hro Hratio Hpc Hfirst Hcap Hrun. unfold run_replay in Hrun.
  assert (Hst : plan_steps plan = rl_end plan - rl_first plan) by (unfold plan_steps; destruct (Z.ltb_spec (rl_first plan) (rl_end plan)); lia).
  rewrite (proj2 (Z.eqb_neq _ _)) in Hrun by lia. apply em_bind_Ret in Hrun as (e0 & e1 & [= <- <-] & Hrun).
  apply em_bind_Ret in Hrun as (b & e1 & Hb & Hrun). injection Hb as Hb <-.
  apply em_bind_Ret in Hrun as ([] & e1 & Hfl & Hrun). apply on_kvs_Ret in Hfl as (a1 & k1 & [= <- <-] & ->).
  apply em_bind_Ret in Hrun as ([] & e2 & Hloop & Hrun). apply em_bind_Ret in Hrun as ([] & e3 & Hc & [= _ <-]).
  destruct (floor_shape (rl_first plan) k Hk) as [Hs1 Hr1].
  pose proof (counted_from_backup k (rl_first plan) (rl_end plan) b Hk ltac:(lia) Hcap Hb) as Hcnt.
  assert (Hrc : forall q, q < rl_end plan -> rows_counted k (q + 1)) by (intros q Hq; apply (rows_counted_mono k (rl_end plan)); [done|lia|done]).
  assert (Hqs : Forall (fun q => rl_first plan <= q < rl_end plan) ((fun i => rl_first plan + i) <$> upto (plan_steps plan))).
  { apply Forall_fmap, Forall_forall. intros i Hi%upto_spec. cbn. lia. }
  match type of Hloop with em_for _ _ ?e1 = _ => assert (Hrep : replaying k (en_history e) (rl_first plan) (k_slot_pos k) e1) by done end.
  pose proof (replay_steps_keep c k _ _ b _ Hb (proj1 Hfirst) Hcap Hratio Hk Hro Hrc _ _ _ _ _ Hqs Hrep Hloop) as (Hs2 & Hr2 & Hh2 & _ & Hlo2 & Hsl2).
  apply on_kvs_Ret in Hc as (a3 & k3 & Hc & ->). cbn.
  destruct (restore_carry_puts k _ _ b _ _ _ _ Hb Hs2 Hr2 Hc) as (Hs3 & Hr3 & Hst3 & Hlo3 & Hsl3).
  split_and!; [done|done|done|done|congruence|]. rewrite Hsl3, Hsl2. done.
Qed.

(** What a replay of a plan of the store's own ring leaves. *)
Lemma replayed_context keep rm (e : Engine A W) st e' : let k := en_kvs e in
  kv_ok k -> replay_ok c k -> (forall o, o ∈ owners (k_cfg k) -> (plane_ratio (k_cfg k) o | 2)) -> en_produce_ced e = true ->
  0 <= keep <= k_cap k -> rows_counted k keep -> run_replay c (plan_ring k keep rm) e = (Ret st, e') ->
  let k' := en_kvs e' in let p := plan_ring k keep rm in
  kv_ok k' /\ en_history e' = en_history e /\ same_context k k' keep /\
  (0 < plan_steps p -> Z.even (rl_first p) = true /\ plan_steps p <= Z.min (clamp_u32 rm 1 (kc_window (k_cfg k)) + 1) (kc_window (k_cfg k)) /\
    k_win_lo k' = rl_first p /\ forall x, rl_first p <= x < keep -> ring_holds k' x = true).
Proof.
  intros k Hk Hro Hratio Hpc Hkeep Hcnt Hrun k' p. pose proof (kd_window _ (ko_dims k Hk)) as Hw.
  destruct (Z.ltb_spec 0 (plan_steps p)) as [Hs|Hs].
  2: { assert (Hz : plan_steps p = 0) by (unfold plan_steps in *; destruct (Z.ltb_spec (rl_first p) (rl_end p)); lia).
       unfold run_replay in Hrun. fold p in Hrun. rewrite Hz in Hrun. injection Hrun as _ He. unfold k'. rewrite <- He. split_and!; [done|done| |lia].
       intros i o Ho. split_and!; [done|done|by apply Hcnt|done]. }
  destruct (plan_ring_range k (kc_window (k_cfg k)) eq_refl Hw keep rm ltac:(lia) Hs) as (Hev & Hfe & Hek & Hkw & Hsr & Hsw). fold p in Hev, Hfe, Hek, Hkw, Hsr, Hsw.
  assert (Hdiv : forall o, o ∈ owners (k_cfg k) -> (plane_ratio (k_cfg k) o | rl_first p)).
  { intros o Ho. apply (Z.divide_trans _ 2); [by apply Hratio|]. apply Zeven_bool_iff in Hev. apply Zeven_ex in Hev as [m Hm]. exists m. lia. }
  destruct (replay_runs p e st e' Hk Hro Hdiv Hpc Hfe ltac:(fold k; lia) Hrun) as (Hsh & Hrows & Hst & Hh & Hlo & Hsl). fold k k' in Hsh, Hrows, Hst, Hlo, Hsl.
  split_and!; [by destruct Hsh|done|by apply same_context_of|]. intros _. split_and!; [done|lia|done|]. intros x Hx.
  apply ring_holds_spec; [by destruct Hsh|]. split; [lia|]. rewrite (proj1 (proj2 Hsh)), nth_lookup, Hsl.
  assert (Hin : forall q, q ∈ (fun i => rl_first p + i) <$> upto (plan_steps p) <-> rl_first p <= q < rl_end p).
  { assert (plan_steps p = rl_end p - rl_first p) as -> by (unfold plan_steps; destruct (Z.ltb_spec (rl_first p) (rl_end p)); lia).
    intros q. rewrite list_elem_of_fmap. setoid_rewrite upto_spec. split; [intros (i & -> & ?); lia|intros; exists (q - rl_first p); lia]. }
  assert (Hsw' : rl_end p - rl_first p <= kc_window (k_cfg k)) by (unfold plan_steps in Hsw; destruct (Z.ltb_spec (rl_first p) (rl_end p)); lia).
  destruct (Z.lt_ge_cases x (rl_end p)) as [Hxe|Hxe].
  - rewrite slots_written; [done|apply Hin; lia| |].
    + intros q Hq%Hin Hs'. apply (slot_close (kc_window (k_cfg k))); [lia..|done].
    + pose proof (ko_slots k Hk). pose proof (Z.mod_pos_bound x (kc_window (k_cfg k))). unfold slot_index. lia.
  - rewrite slots_kept.
    + destruct (plan_ring_cases k (kc_window (k_cfg k)) eq_refl Hw keep rm ltac:(lia)) as (_ & [[Hz _]|(lo & _ & Hl & _ & _ & Hm)]); fold p in Hz || fold p in Hl, Hm; [lia|].
      assert (Hh' : ring_holds k x = true) by (apply not_false_iff_true; intros Hf; pose proof (Hm x ltac:(lia) Hf); lia).
      apply ring_holds_spec in Hh' as [_ Hh']; [|done]. by rewrite nth_lookup in Hh'.
    + intros q Hq%Hin Hs'. enough (q = x) by lia. apply (slot_close (kc_window (k_cfg k))); [lia..|done].
Qed.
(** C2: Rebuilding the window ring leaves the rest of a context exactly as it was: whatever the
    replayed steps write over the rows they complete and over the compressor's carried state,
    after the replay every owner's latent rows, index keys and carried state read the same, the
    history is the same, and the ring holds every position from the plan's first on.  The replay
    starts on an even position and runs at most one step more than it was allowed, never more
    than the window has slots. *)
Theorem replay_keeps_context keep rm (e : Engine A W) st e' : let k := en_kvs e in
  kv_ok k -> replay_ok c k -> (forall o, o ∈ owners (k_cfg k) -> (plane_ratio (k_cfg k) o | 2)) -> en_produce_ced e = true ->
  0 <= keep <= k_cap k -> rows_counted k keep -> run_replay c (plan_ring k keep rm) e = (Ret st, e') ->
  let k' := en_kvs e' in let p := plan_ring k keep rm in
  kv_ok k' /\ en_history e' = en_history e /\ same_context k k' keep /\
  (0 < plan_steps p -> Z.even (rl_first p) = true /\ plan_steps p <= Z.min (clamp_u32 rm 1 (kc_window (k_cfg k)) + 1) (kc_window (k_cfg k)) /\
    k_win_lo k' = rl_first p /\ forall x, rl_first p <= x < keep -> ring_holds k' x = true).
Proof. exact (replayed_context keep rm e st e'). Qed.
End Whole.

(** ** An example: a device that scribbles *)

(** Every step overwrites the carried state and the row it completes. *)
Definition scribbles (q : Z) (k : KvStore) : list RWrite :=
  match k_owners k with
  | [] => []
  | o :: _ =>
      let c := k_cfg k in
      let n := Z.to_nat (carry_len c) in
      let x := (q + 1) / plane_ratio c o - 1 in
      state_rws k 0 (replicate n 5) (replicate n 6) ++
      if ((q + 1) mod plane_ratio c o =? 0) && (0 <=? x) && (x <? rows_for c o (k_cap k))
      then row_rws c 0 x (replicate (Z.to_nat (kc_latent_dim c)) 7) (replicate (Z.to_nat (kc_index_dim c)) 9)
      else []
  end.
#[export] Instance scribbler : Device unit := {|
  run_layers := fun _ t q h d k w =>
    (Ret DecodeStepResult_default, d, kv_writes k (kflat k <$> scribbles q k), w);
  run_prefill := fun _ _ d w => (Fail Unimplemented, d, w);
  drafter_reset := fun w => w |}.

Lemma replicated_words w n x : 0 <= x < 256 ^ Z.of_nat w -> Forall (fun x => 0 <= x < 256 ^ Z.of_nat w) (replicate n x).
Proof. intros Hx. by apply Forall_replicate. Qed.

#[export] Instance scribbler_writes : DeviceWrites unit.
Proof.
  intros sample t q h d k w r d' k' w' Hk [= <- <- <- <-]. exists (scribbles q k). split; [done|]. unfold scribbles.
  destruct (k_owners k) as [|o os] eqn:Eo; [done|]. assert (Ho : k_owners k !! 0%nat = Some o) by by rewrite Eo.
  set (n := Z.to_nat (carry_len (k_cfg k))).
  assert (H5 : length (replicate n 5) = n /\ u32_list (replicate n 5)) by (split; [by apply length_replicate|by apply replicated_words]).
  assert (H6 : length (replicate n 6) = n /\ u32_list (replicate n 6)) by (split; [by apply length_replicate|by apply replicated_words]).
  assert (Hst : Forall (step_write k q) (state_rws k 0 (replicate n 5) (replicate n 6))).
  { repeat (apply Forall_cons; split); [| |done]; intros b i x _; left; left; by destruct b. }
  set (x := (q + 1) / plane_ratio (k_cfg k) o - 1). pose proof (state_rws_inside k Hk 0 o Ho _ _ H5 H6) as Hin.
  destruct (Z.eqb_spec ((q + 1) mod plane_ratio (k_cfg k) o) 0) as [Hm|]; [|by rewrite app_nil_r].
  destruct (Z.leb_spec 0 x) as [Hx0|]; [|by rewrite app_nil_r]. destruct (Z.ltb_spec x (rows_for (k_cfg k) o (k_cap k))) as [Hx1|]; [|by rewrite app_nil_r].
  cbn [andb]. set (cmp := replicate _ 7). set (key := replicate _ 9).
  assert (Hc : length cmp = Z.to_nat (kc_latent_dim (k_cfg k)) /\ u16_list cmp) by (split; [by apply length_replicate|by apply replicated_words]).
  assert (Hy : length key = Z.to_nat (kc_index_dim (k_cfg k)) /\ u16_list key) by (split; [by apply length_replicate|by apply replicated_words]).
  pose proof (row_rws_inside k Hk 0 o Ho x (conj Hx0 Hx1) cmp key Hc Hy) as Hin'.
  pose proof (plane_dim_pos k false Hk). pose proof (plane_dim_pos k true Hk). cbn [plane_dim] in *.
  split; [by apply Forall_app_2|]. apply Forall_app_2; [done|].
  assert (Hcomp : completes k q 0 x) by (by exists o). clearbody x cmp key.
  destruct Hc as [Hc _], Hy as [Hy _].
  repeat (apply Forall_cons; split); [| |done]; intros b i y Hy0; (destruct (decide (i = 0%nat)) as [->|Hi]; [|left; left; destruct b; cbn; congruence]);
    (destruct (decide (y = x)) as [->|Hne]; [by right|left]); destruct b; unfold misses; cbn [fst snd plane_reg plane_dim]; rewrite to_bytes_length;
    rewrite ?Hc, ?Hy; first [left; discriminate|right; nia].
Qed.

(** Two layers that share one plane of ratio two; the engine of [kv_seeded]'s six positions. *)
Definition toy_text : TextConfig :=
  mkTextConfig EmptyString 0 0 0 2 0 0 64 0 0 0 0 EmptyString f64_zero f64_zero false f64_zero
    f64_zero false false 0 f64_zero RopeScaling_default 0 0 0 EmptyString EmptyString false f64_zero
    4 [2; 2] f64_zero [0] [0] 0 32 2 0 0 0 0 0 f64_zero [] [] 0 0 0 0 0 0 0 0 0 [] 0 0 0.
Definition toy_engine : Engine Z unit :=
  mkEngine Z unit kv_seeded.1 kv_seeded.2 tt [11; 12; 13; 14; 15; 16] draft_empty draft_empty [] (mkKvRowBackup 0 0 []) None
    {| sp_temperature := f64_zero; sp_top_p := f64_zero; sp_seed := 0 |} true true false.

Lemma seeded_shape : k_cfg kv_seeded.2 = kv_shared /\ k_owners kv_seeded.2 = [0] /\ k_owner_of kv_seeded.2 = [0; 0] /\
  k_cap kv_seeded.2 = 16 /\ k_rows_hw kv_seeded.2 = [3] /\ k_slot_pos kv_seeded.2 = [-1; -1; -1; -1] /\
  plan_ring kv_seeded.2 6 PREFILL_REPLAY = mkPlan 6 2 6.
Proof. vm_compute. split_and!; reflexivity. Qed.
Lemma toy_replay_ok : replay_ok toy_text kv_seeded.2.
Proof.
  destruct seeded_shape as (Hc & Hos & Hoo & _). split.
  - rewrite Hc. by vm_compute.
  - intros l _. rewrite Hc. unfold owner_index. rewrite Hos, Hoo. unfold compress_ratio. cbn [tc_compress_ratios toy_text].
    destruct (Z.to_nat l) as [|[|n]]; [right; by vm_compute..|by left].
  - eexists. split; [apply list_elem_of_here|by vm_compute].
Qed.
Lemma toy_rows_counted : rows_counted kv_seeded.2 6.
Proof.
  destruct seeded_shape as (Hc & Hos & _ & _ & Hhw & _). intros i o Ho. rewrite Hos in Ho. rewrite Hc, Hhw.
  destruct i as [|i]; [|done]. injection Ho as <-. by vm_compute.
Qed.
Lemma toy_replay_runs : (fun r => rp_steps r) <$> match (run_replay toy_text (mkPlan 6 2 6) toy_engine).1 with Ret r => Some r | Fail _ => None end = Some 4.
Proof. vm_compute. reflexivity. Qed.

Lemma toy_kvs : en_kvs toy_engine = kv_seeded.2.
Proof. vm_compute. reflexivity. Qed.
Lemma toy_ratios o : o ∈ owners kv_shared -> (plane_ratio kv_shared o | 2).
Proof.
  assert (Hown : owners kv_shared = [0]) by (vm_compute; reflexivity). rewrite Hown. intros ->%list_elem_of_singleton.
  exists 1. vm_compute. reflexivity.
Qed.

Lemma replay_keeps_context_witness : exists st e', run_replay toy_text (mkPlan 6 2 6) toy_engine = (Ret st, e') /\ rp_steps st = 4 /\
  same_context kv_seeded.2 (en_kvs e') 6 /\ (forall x, 2 <= x < 6 -> ring_holds (en_kvs e') x = true) /\ k_slot_pos kv_seeded.2 = [-1; -1; -1; -1].
Proof.
  destruct seeded_shape as (Hc & Hos & _ & Hcap & _ & Hsl & Hp). pose proof toy_replay_runs as Hrun.
  destruct (run_replay toy_text (mkPlan 6 2 6) toy_engine) as [[st|r] e'] eqn:Er; [|done]. injection Hrun as Hst.
  pose proof (replay_keeps_context toy_text 6 PREFILL_REPLAY toy_engine st e') as Ht. cbv zeta in Ht. rewrite toy_kvs, Hp, Hc, Hcap in Ht.
  destruct (Ht kv_seeded_ok toy_replay_ok toy_ratios eq_refl ltac:(lia) toy_rows_counted Er) as (_ & _ & Hs & Hr).
  exists st, e'. split; [reflexivity|]. split; [exact Hst|]. split; [exact Hs|]. split; [|exact Hsl]. apply Hr. cbn. lia.
Defined.

(** One position is allowed, two are replayed. *)
Lemma replay_max_exceeded : plan_ring kv_seeded.2 6 1 = mkPlan 6 4 6.
Proof. vm_compute. reflexivity. Qed.
