(* ===== verification/SessionContext.v ===== *)
(** What rolling back, parking and restoring a context keep: the first tokens of the history and
    the compressed state of exactly those. *)

From S2P Require Import Prelude Types Floats Dequant KvPack V41Config KvLayout KvStore KvRows KvStoreProps KvInv KvContext KvRing ReplayRows Sampling EngineContext SessionDisk SessionPool SessionReplay ReplayProps.

Lemma same_context_trans k0 k1 k2 n : k_cfg k1 = k_cfg k0 -> k_owners k1 = k_owners k0 -> same_context k0 k1 n -> same_context k1 k2 n -> same_context k0 k2 n.
Proof.
  intros Hc Ho H1 H2 i o Hi. rewrite <- Ho in Hi. destruct (H2 i o Hi) as (Ha & Hb & Hr & Hs). rewrite Ho in Hi. destruct (H1 i o Hi) as (Ha' & Hb' & _ & Hs').
  rewrite Hc in *. cbn zeta in *. split_and!; [congruence|congruence|done|]. intros Hr1. destruct (Hs Hr1), (Hs' Hr1). split; congruence.
Qed.
Lemma same_context_counted k0 k n : k_cfg k = k_cfg k0 -> k_owners k = k_owners k0 -> same_context k0 k n -> rows_counted k n.
Proof. intros Hc Ho Hs i o Hi. rewrite Ho in Hi. destruct (Hs i o Hi) as (_ & _ & Hr & _). by rewrite Hc. Qed.

(** Whether the engine fits its store depends on the store's configuration only. *)
Lemma replay_ok_like c k k' : k_cfg k' = k_cfg k -> k_owners k' = k_owners k -> k_owner_of k' = k_owner_of k -> replay_ok c k -> replay_ok c k'.
Proof. intros Hc Ho Hoo [H1 H2 H3]. split; [by rewrite Hc| |done]. unfold owner_index in *. by rewrite Hc, Ho, Hoo. Qed.

(** A store with only other slots, floor and prompt window. *)
Definition slots_only (k k' : KvStore) : Prop :=
  k' = k <| k_slot_pos := k_slot_pos k' |> <| k_win_lo := k_win_lo k' |> <| k_prompt_slot_pos := k_prompt_slot_pos k' |>.
Lemma slots_only_same k k' : slots_only k k' -> kv_ok k' -> shape k k' /\ rows_same no_row k k' /\ states_same (length (k_owners k)) k k'.
Proof.
  intros He Hk'. split_and!; [|by rewrite He; intros [] i o x _ _ _|by rewrite He; intros h i o _ _ _]. split_and!; [done|by rewrite He..].
Qed.

Lemma resolve_slots_only n k : slots_only k (resolve_ring_store n k).
Proof. unfold slots_only. by destruct k. Qed.
Lemma plan_same k k' keep rm : k_cfg k' = k_cfg k -> k_slot_pos k' = k_slot_pos k -> k_win_lo k' = k_win_lo k -> plan_ring k' keep rm = plan_ring k keep rm.
Proof. intros Hc Hs Hl. unfold plan_ring, need_lo, ring_missing, ring_holds. by rewrite Hc, Hs, Hl. Qed.

Section Sessions.
Context {A W : Type} `{Hal : MemoryAllocatorOk A} `{Hdw : DeviceWrites W} (c : TextConfig).
#[local] Abbreviation Engine := (Engine A W).

(** Declaring the context changes the ring's retained window and the drafter's at most. *)
Lemma set_tokens_sets tokens (e e' : Engine) : kv_ok (en_kvs e) -> set_context_tokens tokens e = (Ret tt, e') ->
  kv_ok (en_kvs e') /\ slots_only (en_kvs e) (en_kvs e') /\ en_history e' = tokens /\ en_produce_ced e' = en_produce_ced e /\
  k_slot_pos (en_kvs e') = k_slot_pos (en_kvs e) /\ k_win_lo (en_kvs e') = k_win_lo (en_kvs e).
Proof.
  intros Hk Hrun. apply em_bind_Ret in Hrun as (e0 & e1 & [= <- <-] & Hrun).
  apply em_bind_Ret in Hrun as ([] & e1 & [= _ <-] & Hrun). apply em_bind_Ret in Hrun as ([] & e1 & [= _ <-] & Hrun).
  apply em_bind_Ret in Hrun as ([] & e2 & Ht & [= <-]). apply on_kvs_Ret in Ht as (a' & k' & Ht & ->).
  pose proof (keeps_run _ _ _ _ _ _ (truncate_keeps _) Hk Ht) as [Hk' _]. injection Ht as _ <-.
  split_and!; [done| |done..]. cbn. unfold slots_only. by destruct (en_kvs e).
Qed.

(** C3: Rolling back leaves a context of exactly the kept tokens: the history is their prefix, the
    compressed rows, index keys and carried state of the store read as before, and the ring
    holds every position from the replay's first up to the kept length.  A rollback past the
    end or to an odd length is refused, and one to the whole length changes nothing. *)
Theorem rollback_keeps_prefix keep rm (e : Engine) st e' : let k := en_kvs e in let n := EngineContext.context_length e in
  kv_ok k -> replay_ok c k -> (forall o, o ∈ owners (k_cfg k) -> (plane_ratio (k_cfg k) o | 2)) -> en_produce_ced e = true ->
  len_Z (en_history e) <= k_cap k -> rows_counted k n -> 0 <= keep -> rollback_context c keep rm e = (Ret st, e') ->
  let k' := en_kvs e' in
  keep <= n /\ Z.even keep = true /\ rp_dropped st = n - keep /\ kv_ok k' /\
  en_history e' = take (Z.to_nat keep) (en_history e) /\ same_context k k' keep /\
  (keep = n -> e' = e) /\ (0 < rp_steps st -> forall x, rp_first st <= x < keep -> ring_holds k' x = true).
Proof.
  intros k n Hk Hro Hratio Hpc Hlen Hcnt Hkeep Hrun k'. pose proof (ko_cap k Hk). pose proof (kd_context _ (ko_dims k Hk)).
  assert (Hn : n = len_Z (en_history e)) by (unfold n, EngineContext.context_length, u32; apply Z.mod_small; unfold len_Z in *; fold k in Hlen; lia).
  apply em_bind_Ret in Hrun as (e0 & e1 & [= <- <-] & Hrun). cbn zeta in Hrun. fold n in Hrun.
  apply em_bind_Ret in Hrun as ([] & e1 & Hg & Hrun). injection Hg as Hg%fail_if_Ret%Z.ltb_ge <-.
  apply em_bind_Ret in Hrun as ([] & e1 & Ho & Hrun). injection Ho as Ho%fail_if_Ret <-.
  assert (Hev : Z.even keep = true) by by rewrite <- Z.negb_odd, Ho.
  assert (Hcntk : rows_counted k keep) by (by apply (rows_counted_mono k n)).
  destruct (Z.eqb_spec keep n) as [->|Hne].
  { injection Hrun as <- <-. cbn. split_and!; [done|done|lia|done| |by intros i o Hi; split_and!; [done|done|by apply Hcntk|done]|done|lia].
    rewrite Hn. unfold len_Z. by rewrite Nat2Z.id, firstn_all. }
  apply em_bind_Ret in Hrun as (p & e1 & Hplan & Hrun). apply em_bind_Ret in Hplan as (e0 & e0' & [= <- <-] & Hplan).
  apply em_bind_Ret in Hplan as ([] & e2 & Hres & Hplan). apply on_kvs_Ret in Hres as (a2 & k2 & Hres & ->).
  pose proof (keeps_run _ _ _ _ _ _ (resolve_keeps _) Hk Hres) as [Hk2 _]. injection Hres as <- Hres.
  injection Hplan as Hp <-. cbn [en_kvs] in Hp. assert (Hso2 : slots_only k k2) by (rewrite <- Hres; apply resolve_slots_only).
  apply em_bind_Ret in Hrun as ([] & e3 & Hset & Hrun). apply set_tokens_sets in Hset as (Hk3 & Hso3 & Hh3 & Hpc3 & Hsl3 & Hlo3); [|exact Hk2].
  cbn in Hso3, Hpc3, Hsl3, Hlo3.
  apply em_bind_Ret in Hrun as (st0 & e4 & Hrep & [= <- <-]).
  destruct (slots_only_same _ _ Hso2 Hk2) as (Hs2 & Hr2 & Hst2).
  destruct (slots_only_same _ _ Hso3 Hk3) as (Hs3 & Hr3 & Hst3).
  assert (Hs : shape k (en_kvs e3)) by exact (shape_trans _ _ _ Hs2 Hs3).
  pose proof Hs as (_ & Hc & Hos & Hoo & Hcp & Hhw). pose proof Hs2 as (_ & Hc2 & Hos2 & _ & Hcp2 & _).
  assert (Hplan : plan_ring (en_kvs e3) keep rm = p) by (rewrite <- Hp; apply plan_same; [apply Hs3|exact Hsl3|exact Hlo3]).
  assert (Hr : rows_same no_row k (en_kvs e3)) by (eapply rows_same_trans; [exact Hs2|exact Hr2|exact Hr3]).
  assert (Hst' : states_same (length (k_owners k)) k (en_kvs e3)).
  { intros h i o Hh Hi Hio. rewrite (Hst3 h i o) by (rewrite ?Hos2; done). by apply (Hst2 h i o). }
  assert (Hsame : same_context k (en_kvs e3) keep) by (apply same_context_of; [done..|lia|done]).
  destruct (replayed_context c keep rm e3 st0 e4) as (Hk4 & Hh4 & Hsame4 & Hring); rewrite ?Hc, ?Hcp; [done| | |congruence|lia| |by rewrite Hplan|].
  { by apply (replay_ok_like c k). }
  { done. }
  { by apply (same_context_counted k). }
  rewrite Hplan in Hring.
  assert (Hsteps : rp_steps (replay_stats p (n - keep)) = plan_steps p) by done.
  split_and!; [done|done|done|done|by rewrite Hh4|by apply (same_context_trans k (en_kvs e3))|lia|].
  rewrite Hsteps. intros Hpos. by apply Hring.
Qed.

Lemma unpack_reserves pk (a : A) k a' k' : unpack pk (a, k) = (Ret tt, (a', k')) ->
  exists a1 k1, reserve (Z.max (kp_positions pk) 1) (a, forget_prompt k) = (Ret tt, (a1, k1)).
Proof.
  intros Hrun. apply km_bind_Ret in Hrun as ([] & [a0 k0] & [= <- <-] & Hrun). apply km_bind_Ret in Hrun as (k0 & s0 & [= <- <-] & Hrun).
  apply km_bind_Ret in Hrun as ([] & [a1 k1] & [= _ <- <-] & Hrun). apply km_bind_Ret in Hrun as ([] & [a1 k1] & Hr & _). by exists a1, k1.
Qed.

Lemma parked_restored (e1 e2 : Engine) p rm st e' : let k := en_kvs e1 in let n := len_Z (en_history e1) in
  kv_ok k -> kv_ok (en_kvs e2) -> k_cfg (en_kvs e2) = k_cfg k -> replay_ok c (en_kvs e2) -> en_produce_ced e2 = true ->
  (forall o, o ∈ owners (k_cfg k) -> (plane_ratio (k_cfg k) o | 2)) ->
  engine_park_context e1 = Ret p -> engine_restore_context c p rm e2 = (Ret st, e') ->
  en_history e' = en_history e1 /\ kv_ok (en_kvs e') /\
  (en_history e1 <> [] -> same_context k (en_kvs e') n /\
    (0 < rp_steps st -> Z.even (rp_first st) = true /\ forall x, rp_first st <= x < n -> ring_holds (en_kvs e') x = true)).
Proof.
  intros k n Hk Hk2 Hc Hro Hpc Hratio Hpark Hrun. apply bind_Ret in Hpark as (kv & Hpack & [= <-]).
  apply em_bind_Ret in Hrun as ([] & e0 & Hg & Hrun). injection Hg as Hg%fail_if_Ret%negb_false_iff%Z.eqb_eq <-. cbn [pc_kv pc_tokens] in Hg, Hrun. fold n in Hg.
  apply em_bind_Ret in Hrun as ([] & e0 & [= <-] & Hrun). set (e0 := EngineContext.reset_context e2) in *.
  assert (Hk0 : kv_ok (en_kvs e0)) by (apply (clear_like (en_kvs e2)), like_refl, Hk2).
  pose proof (clear_like (en_kvs e2) _ (like_refl _ Hk2)) as [_ (Hc0 & Ho0 & Hoo0 & _)]. change (clear_store (en_kvs e2)) with (en_kvs e0) in Hc0, Ho0, Hoo0.
  case_bool_decide as Ht; [by injection Hrun as _ <-|].
  assert (Hpk : kp_positions kv = EngineContext.context_length e1).
  { unfold pack in Hpack. apply bind_Ret in Hpack as (? & _ & (ps & _ & [= <-])%bind_Ret). done. }
  assert (Hn : EngineContext.context_length e1 = n /\ 0 <= n < 2 ^ 32).
  { split; [congruence|]. rewrite <- Hg, Hpk. apply Z.mod_pos_bound. lia. }
  destruct Hn as [Hn Hnr]. rewrite Hn in Hpack, Hpk.
  apply em_bind_Ret in Hrun as ([] & e3 & Hun & Hrun). apply on_kvs_Ret in Hun as (a3 & k3 & Hun & ->).
  destruct (unpack_reserves _ _ _ _ _ Hun) as (a1 & k1' & Hres). rewrite Hpk in Hres.
  destruct (context_unpacked k (en_kvs e0) n kv (en_alloc e0) a1 k1' Hk Hk0) as (k3' & Hun' & Hk3 & Hsame & _ & _ & Hcap & Hc3 & Hoo3); [congruence|lia|done|done|].
  rewrite Hun in Hun'. injection Hun' as -> <-.
  apply em_bind_Ret in Hrun as ([] & e4 & Hset & Hrun). apply set_tokens_sets in Hset as (Hk4 & Hso4 & Hh4 & Hpc4 & _ & _); [|exact Hk3].
  cbn in Hso4, Hpc4. destruct (slots_only_same _ _ Hso4 Hk4) as (Hs4 & Hr4 & Hst4).
  apply em_bind_Ret in Hrun as (e4' & e5 & [= <- <-] & Hrun).
  assert (Hu : u32 (len_Z (en_history e1)) = n) by (fold n; unfold u32; by apply Z.mod_small). rewrite Hu in Hrun.
  pose proof Hs4 as (_ & Hc4 & Ho4 & Hoo4 & Hcp4 & _).
  assert (Ho3 : k_owners k3 = k_owners k) by (by rewrite (ko_owners _ Hk3), Hc3, <- (ko_owners _ Hk)).
  assert (Hcnt3 : rows_counted k3 n) by (by apply (same_context_counted k)).
  assert (Hsame4 : same_context k3 (en_kvs e4) n) by (apply same_context_of; [done..|lia|done]).
  assert (Hro4 : replay_ok c (en_kvs e4)).
  { apply (replay_ok_like c (en_kvs e2)); [congruence| |congruence|done]. by rewrite Ho4, Ho3, (ko_owners _ Hk), (ko_owners _ Hk2), Hc. }
  destruct (replayed_context c n rm e4 st e') as (Hk5 & Hh5 & Hsame5 & Hring); rewrite ?Hc4, ?Hcp4; [done|done|by rewrite Hc3|by rewrite Hpc4|lia| |done|].
  { by apply (same_context_counted k3). }
  split_and!; [by rewrite Hh5|done|]. intros _. split.
  - apply (same_context_trans k k3); [done|done|done|]. by apply (same_context_trans k3 (en_kvs e4)).
  - assert (Hst : st = replay_stats (plan_ring (en_kvs e4) n rm) 0).
    { unfold run_replay in Hrun. destruct (_ =? 0) in Hrun; [by injection Hrun|]. do 5 (apply em_bind_Ret in Hrun as (? & ? & _ & Hrun)). by injection Hrun. }
    rewrite Hst. intros Hpos. destruct (Hring Hpos) as (Hev & _ & _ & Hx). by split.
Qed.
(** C4: A conversation parked out of one engine and restored into another of the same
    configuration comes back: the same tokens, and a store that reads the same compressed rows,
    index keys and carried state bit for bit, with the window ring rebuilt by a replay from an
    even position on.  Whatever the second engine held before is gone. *)
Theorem parked_context_restored (e1 e2 : Engine) p rm st e' : let k := en_kvs e1 in let n := len_Z (en_history e1) in
  kv_ok k -> kv_ok (en_kvs e2) -> k_cfg (en_kvs e2) = k_cfg k -> replay_ok c (en_kvs e2) -> en_produce_ced e2 = true ->
  (forall o, o ∈ owners (k_cfg k) -> (plane_ratio (k_cfg k) o | 2)) ->
  engine_park_context e1 = Ret p -> engine_restore_context c p rm e2 = (Ret st, e') ->
  en_history e' = en_history e1 /\ kv_ok (en_kvs e') /\
  (en_history e1 <> [] -> same_context k (en_kvs e') n /\
    (0 < rp_steps st -> Z.even (rp_first st) = true /\ forall x, rp_first st <= x < n -> ring_holds (en_kvs e') x = true)).
Proof. apply parked_restored. Qed.

(** ** The engine keeps the pool's laws *)

Context (cfg : KvStoreConfig) (Hratio : forall o, o ∈ owners cfg -> (plane_ratio cfg o | 2)).

(** A whole engine of the pool's configuration, with a context the file format can hold. *)
Record engine_sound (e : Engine) : Prop := {
  es_store : kv_ok (en_kvs e);
  es_cfg : k_cfg (en_kvs e) = cfg;
  es_replay : replay_ok c (en_kvs e);
  es_ced : en_produce_ced e = true;
  es_fits : forall p, engine_park_context e = Ret p -> parked_ok p }.

#[export] Instance engine_laws : @ContextEngineLaws Engine (engine_contexts c).
Proof.
  refine {| sound := engine_sound;
            same_conversation e1 e2 := en_history e2 = en_history e1 /\
              (en_history e1 <> [] -> same_context (en_kvs e1) (en_kvs e2) (len_Z (en_history e1))) |}.
  - intros e s He. apply (es_fits e He).
  - intros e1 e2 s st e' [] [] Hpark Hrun.
    destruct (parked_restored e1 e2 s PREFILL_REPLAY st e') as (Hh & _ & Hsame); try done; try congruence.
    + intros o Ho. rewrite es_cfg0 in *. by apply Hratio.
    + split; [done|]. intros Hne. by destruct (Hsame Hne).
Defined.
End Sessions.

(** ** Examples *)

Lemma toy_rollback_runs : let r := rollback_context toy_text 4 PREFILL_REPLAY toy_engine in
  match r.1 with Ret st => Some (rp_first st, rp_dropped st, rp_steps st) | Fail _ => None end = Some (0, 2, 4).
Proof. vm_compute. reflexivity. Qed.

Lemma rollback_keeps_prefix_witness : exists st e', rollback_context toy_text 4 PREFILL_REPLAY toy_engine = (Ret st, e') /\ rp_dropped st = 2 /\
  en_history e' = [11; 12; 13; 14] /\ same_context kv_seeded.2 (en_kvs e') 4 /\ (forall x, 0 <= x < 4 -> ring_holds (en_kvs e') x = true).
Proof.
  destruct seeded_shape as (Hc & _ & _ & Hcap & _). pose proof toy_rollback_runs as Hrun. cbv zeta in Hrun.
  destruct (rollback_context toy_text 4 PREFILL_REPLAY toy_engine) as [[st|r] e'] eqn:Er; [|done]. injection Hrun as Hf Hd Hs.
  pose proof (rollback_keeps_prefix toy_text 4 PREFILL_REPLAY toy_engine st e') as Ht. cbv zeta in Ht. rewrite toy_kvs, Hc, Hcap in Ht.
  destruct (Ht kv_seeded_ok toy_replay_ok toy_ratios eq_refl ltac:(vm_compute; discriminate) toy_rows_counted ltac:(lia) Er) as (_ & _ & _ & _ & Hh & Hsame & _ & Hr).
  exists st, e'. rewrite Hs, Hf in Hr. split; [reflexivity|]. split; [exact Hd|]. split; [exact Hh|]. split; [exact Hsame|]. apply Hr. lia.
Defined.

(** Another engine, over a fresh store. *)
Definition toy_engine2 : Engine Z unit := (toy_engine <| en_alloc := kv_new.1 |>) <| en_kvs := kv_new.2 |>.
Lemma toy_kvs2 : en_kvs toy_engine2 = kv_new.2.
Proof. vm_compute. reflexivity. Qed.
Lemma fresh_shape : k_cfg kv_new.2 = kv_shared /\ k_owners kv_new.2 = [0] /\ k_owner_of kv_new.2 = [0; 0].
Proof. vm_compute. split_and!; reflexivity. Qed.
Lemma fresh_replay_ok : replay_ok toy_text kv_new.2.
Proof.
  destruct seeded_shape as (Hc & Ho & Hoo & _), fresh_shape as (Hc' & Ho' & Hoo').
  apply (replay_ok_like toy_text kv_seeded.2); [congruence..|exact toy_replay_ok].
Qed.
Lemma toy_restore_runs : match engine_park_context toy_engine with
  | Ret p => let r := engine_restore_context toy_text p PREFILL_REPLAY toy_engine2 in
             match r.1 with Ret st => Some (len_Z (pc_tokens p), rp_first st, rp_steps st) | Fail _ => None end
  | Fail _ => None end = Some (6, 2, 4).
Proof. vm_compute. reflexivity. Qed.

Lemma parked_context_restored_witness : exists p st e', engine_park_context toy_engine = Ret p /\ engine_restore_context toy_text p PREFILL_REPLAY toy_engine2 = (Ret st, e') /\
  en_history e' = [11; 12; 13; 14; 15; 16] /\ same_context kv_seeded.2 (en_kvs e') 6 /\ (forall x, 2 <= x < 6 -> ring_holds (en_kvs e') x = true).
Proof.
  destruct seeded_shape as (Hc & _), fresh_shape as (Hc' & _). pose proof toy_restore_runs as Hrun.
  destruct (engine_park_context toy_engine) as [p|r] eqn:Ep; [|done]. cbv zeta in Hrun.
  destruct (engine_restore_context toy_text p PREFILL_REPLAY toy_engine2) as [[st|r] e'] eqn:Er; [|done]. injection Hrun as _ Hf Hs.
  pose proof (parked_context_restored toy_text toy_engine toy_engine2 p PREFILL_REPLAY st e') as Ht. cbv zeta in Ht. rewrite toy_kvs, toy_kvs2, Hc, Hc' in Ht.
  destruct (Ht kv_seeded_ok kv_new_ok eq_refl fresh_replay_ok eq_refl toy_ratios Ep Er) as (Hh & _ & Hsame).
  destruct Hsame as [Hsame Hr]; [discriminate|]. rewrite Hs, Hf in Hr. destruct Hr as [_ Hr]; [lia|].
  exists p, st, e'. split; [reflexivity|]. split; [exact Er|]. split; [exact Hh|]. split; [exact Hsame|]. exact Hr.
Defined.

Lemma parked_okb p : Forall word_ok (pc_tokens p) /\ word_ok (kp_positions (pc_kv p)) /\
  Forall (fun p => (word_ok (pp_layer p) /\ word_ok (pp_ratio p) /\ word_ok (pp_rows p)) /\
    (vec_ok 1 (pp_cmp_fp4 p) /\ vec_ok 1 (pp_cmp_scale p) /\ vec_ok 1 (pp_key_fp4 p) /\ vec_ok 1 (pp_key_scale p)) /\
    (vec_ok 4 (pp_raw_rows p) /\ vec_ok 2 (pp_raw_cmp p) /\ vec_ok 2 (pp_raw_key p)) /\
    (vec_ok 4 (pp_carry_kv p) /\ vec_ok 4 (pp_carry_score p))) (kp_planes (pc_kv p)) ->
  len_Z (pc_tokens p) <= 2 ^ 24 -> len_Z (kp_planes (pc_kv p)) <= 64 -> parked_ok p.
Proof.
  intros (H1 & H2 & H3) H4 H5. split; [done|done|]. split; [|done].
  eapply Forall_impl; [exact H3|]. by intros q (? & ? & ? & ?).
Qed.

(** The example engine is one the laws speak of. *)
Lemma toy_engine_sound : @sound _ _ (engine_laws toy_text kv_shared toy_ratios) toy_engine.
Proof.
  destruct seeded_shape as (Hc & _). split; rewrite ?toy_kvs; [exact kv_seeded_ok|exact Hc|exact toy_replay_ok|reflexivity|].
  assert (Hb : match engine_park_context toy_engine with Ret p => parked_ok p | Fail _ => True end).
  { vm_compute engine_park_context. apply parked_okb; [|vm_compute; discriminate..].
    apply (bool_decide_unpack _). vm_compute. exact I. }
  intros p Hp. by rewrite Hp in Hb.
Qed.
