(* ===== verification/BakedPrompt.v ===== *)
(** Prompt states kept on disk ([src/runtime/baked_prompt.cpp]): the exact rows, ring and first
    result of a prompt, in a file bound to the build by an identity and to the prompt by its
    hash.  How the identity is computed ([configure_baked_prompts]) is not modelled: it is an
    argument. *)

From Stdlib Require Import Ascii.
From S2P Require Import Prelude Types Floats V41Config KvLayout KvStore Sampling EngineContext SessionDisk.

Record BakedPrompt := { bk_tokens : list Z; bk_rows : KvRowBackup; bk_ring : RingSnapshot; bk_first : DecodeStepResult }.

(** ** The payload *)

Definition kBakedLimit : Z := 64 * 2 ^ 20.
Definition kBakedMagic : Z := 0x31444e554f424d43.
Definition fnv_hash (bytes : list Z) : Z := foldl (fun h b => u64 (Z.lxor h b * 1099511628211)) 1469598103934665603 bytes.

(** A vector: how many elements, then their bytes. *)
Definition bk_vec (w : nat) (v : list Z) : list Z := wr_u64 (len_Z v) ++ to_bytes w v.
Definition vec_fits (w : nat) (v : list Z) : bool := len_Z v <=? kBakedLimit / Z.of_nat w.
Definition i64_words (v : list Z) : list Z := u64 <$> v.
Definition s64 (x : Z) : Z := if x <? 2 ^ 63 then x else x - 2 ^ 64.

Definition bk_plane (p : BackupPlane) : list Z :=
  wr_u32 (bp_layer p) ++ wr_u32 (bp_ratio p) ++ wr_u32 (bp_first_row p) ++ wr_u32 (bp_rows p) ++
  bk_vec 2 (bp_cmp p) ++ bk_vec 2 (bp_key p) ++ bk_vec 4 (bp_carry_kv p) ++ bk_vec 4 (bp_carry_score p).
Definition plane_fits (p : BackupPlane) : bool :=
  vec_fits 2 (bp_cmp p) && vec_fits 2 (bp_key p) && vec_fits 4 (bp_carry_kv p) && vec_fits 4 (bp_carry_score p).
Definition bk_step (r : DecodeStepResult) : list Z :=
  wr_u32 (dr_token r) ++ wr_u32 (dr_position r) ++ wr_u32 (dr_greedy_token r) ++ wr_u32 (dr_top1 r) ++ wr_u32 (dr_top2 r) ++
  wr_u32 (dr_candidates r) ++ wr_u32 (dr_nucleus_size r) ++ wr_u64 (dr_p_token r) ++ wr_u64 (dr_retained r) ++ wr_u64 (dr_kept r).
Definition bk_ring_bytes (s : RingSnapshot) : list Z :=
  wr_u32 (rg_latent_dim s) ++ bk_vec 4 (rg_layer s) ++ bk_vec 4 (rg_slot s) ++ bk_vec 8 (i64_words (rg_position s)) ++
  bk_vec 1 (rg_val s) ++ bk_vec 1 (rg_scale s).
Definition ring_fits (s : RingSnapshot) : bool :=
  vec_fits 4 (rg_layer s) && vec_fits 4 (rg_slot s) && vec_fits 8 (rg_position s) && vec_fits 1 (rg_val s) && vec_fits 1 (rg_scale s).

Definition bk_state (p : BakedPrompt) : list Z :=
  bk_vec 4 (bk_tokens p) ++ bk_step (bk_first p) ++
  wr_u32 (kb_first_pos (bk_rows p)) ++ wr_u32 (kb_end_pos (bk_rows p)) ++ wr_u64 (len_Z (kb_planes (bk_rows p))) ++
  flat_map bk_plane (kb_planes (bk_rows p)) ++ bk_ring_bytes (bk_ring p).
Definition bk_valid (p : BakedPrompt) : bool :=
  vec_fits 4 (bk_tokens p) && (len_Z (kb_planes (bk_rows p)) <=? 64) && forallb plane_fits (kb_planes (bk_rows p)) && ring_fits (bk_ring p).

(** Reading, into a result whose other fields keep their defaults. *)
Definition rd_baked_vec (w : nat) : Reader (list Z) :=
  rd_bind rd_u64 (fun n => rd_bind (rd_check (kBakedLimit / Z.of_nat w <? n) Corrupt) (fun _ => rd_words w (Z.to_nat n))).
Definition rd_baked_plane : Reader BackupPlane :=
  rd_bind rd_u32 (fun layer => rd_bind rd_u32 (fun ratio => rd_bind rd_u32 (fun first_row => rd_bind rd_u32 (fun rows =>
  rd_bind (rd_baked_vec 2) (fun cmp => rd_bind (rd_baked_vec 2) (fun key =>
  rd_bind (rd_baked_vec 4) (fun carry_kv => rd_bind (rd_baked_vec 4) (fun carry_score =>
  rd_ret (mkBackupPlane layer ratio first_row rows cmp key carry_kv carry_score))))))))).
Fixpoint rd_baked_planes (n : nat) : Reader (list BackupPlane) :=
  match n with
  | O => rd_ret []
  | S n => rd_bind rd_baked_plane (fun p => rd_bind (rd_baked_planes n) (fun ps => rd_ret (p :: ps)))
  end.
Definition rd_step : Reader DecodeStepResult :=
  rd_bind rd_u32 (fun token => rd_bind rd_u32 (fun position => rd_bind rd_u32 (fun greedy_token =>
  rd_bind rd_u32 (fun top1 => rd_bind rd_u32 (fun top2 => rd_bind rd_u32 (fun candidates => rd_bind rd_u32 (fun nucleus =>
  rd_bind rd_u64 (fun p_token => rd_bind rd_u64 (fun retained => rd_bind rd_u64 (fun kept =>
  rd_ret (mkStep token position top1 top2 greedy_token false false false false candidates nucleus p_token retained kept 0 0 0))))))))))).
Definition rd_ring : Reader RingSnapshot :=
  rd_bind rd_u32 (fun latent => rd_bind (rd_baked_vec 4) (fun layer => rd_bind (rd_baked_vec 4) (fun slot =>
  rd_bind (rd_baked_vec 8) (fun position => rd_bind (rd_baked_vec 1) (fun val => rd_bind (rd_baked_vec 1) (fun scale =>
  rd_ret (mkRingSnapshot layer slot (s64 <$> position) val scale latent))))))).
Definition rd_state : Reader BakedPrompt :=
  rd_bind (rd_baked_vec 4) (fun tokens => rd_bind rd_step (fun first =>
  rd_bind rd_u32 (fun first_pos => rd_bind rd_u32 (fun end_pos => rd_bind rd_u64 (fun n => rd_bind (rd_check (64 <? n) Corrupt) (fun _ =>
  rd_bind (rd_baked_planes (Z.to_nat n)) (fun planes => rd_bind rd_ring (fun ring =>
  rd_ret {| bk_tokens := tokens; bk_rows := mkKvRowBackup first_pos end_pos planes; bk_ring := ring; bk_first := first |})))))))).

(** ** The file *)

Definition baked_bytes (identity : Z) (p : BakedPrompt) : list Z :=
  let data := bk_state p in
  wr_u64 kBakedMagic ++ wr_u64 identity ++ wr_u64 (len_Z data) ++ wr_u64 (fnv_hash data) ++ data.
Definition rd_header : Reader (Z * Z * Z * Z) :=
  rd_bind rd_u64 (fun magic => rd_bind rd_u64 (fun identity => rd_bind rd_u64 (fun size => rd_bind rd_u64 (fun sum =>
  rd_ret (magic, identity, size, sum))))).
Definition read_baked_bytes (identity : Z) (file : list Z) : Result BakedPrompt :=
  '(magic, ident, size, sum, bs) ← rd_header file;
  _ ← fail_if (negb (magic =? kBakedMagic) || negb (ident =? identity) || (kBakedLimit <? size)) Corrupt;
  '(data, rest) ← rd_bytes (Z.to_nat size) bs;
  _ ← fail_if (negb (bool_decide (rest = [])) || negb (fnv_hash data =? sum)) Corrupt;
  '(p, rest) ← rd_state data;
  _ ← fail_if (negb (bool_decide (rest = [])) || bool_decide (bk_tokens p = []) || (8192 <? len_Z (bk_tokens p))) Corrupt;
  Ret p.

(** What the operating system answers to one write; a write that fails leaves part of the file. *)
Record BakeEnv := { be_mkdir : bool; be_open : bool; be_write : bool; be_partial : list Z; be_rename : bool; be_now : Z; be_removable : string -> bool }.

Definition write_baked_prompt (env : BakeEnv) (path : string) (identity : Z) (p : BakedPrompt) (d : Disk) : Result unit * Disk :=
  let data := bk_state p in
  if negb (bk_valid p) || (kBakedLimit <? len_Z data) then (Fail InvalidArgument, d)
  else if negb (be_mkdir env) then (Fail Io, d)
  else
    let tmp := (path +:+ ".tmp")%string in
    if negb (be_open env) then (Fail Io, d)
    else if negb (be_write env) then (Fail Io, <[tmp := {| df_bytes := be_partial env; df_time := be_now env |}]> d)
    else
      let f := {| df_bytes := baked_bytes identity p; df_time := be_now env |} in
      if negb (be_rename env) then (Fail Io, <[tmp := f]> d)
      else (Ret tt, <[path := f]> (delete tmp d)).
Definition read_baked_prompt (path : string) (identity : Z) (d : Disk) : Result BakedPrompt :=
  match d !! path with None => Fail NotFound | Some f => read_baked_bytes identity (df_bytes f) end.

(** ** The engine's use of it *)

(** What of the configuration decides: the directory above [boundaries], the byte budget, the
    identity of this build and whether the engine runs plain single-stream decoding. *)
Record BakedOptions := { bo_root : string; bo_budget : Z; bo_identity : Z; bo_resident_off : bool; bo_speculating : bool; bo_streams : Z }.
Definition baked_dir (o : BakedOptions) : string :=
  if bool_decide (bo_root o = EmptyString) then EmptyString else path_join (bo_root o) "boundaries".

Definition hex_digit (x : Z) : ascii := ascii_of_N (Z.to_N (if x <? 10 then 48 + x else 87 + x)).
Definition hex16 (x : Z) : string :=
  String.string_of_list_ascii ((fun i => hex_digit (Z.shiftr x (4 * i) mod 16)) <$> rev (layer_ids 16)).
Definition baked_path (o : BakedOptions) (tokens : list Z) : string :=
  path_join (baked_dir o) (hex16 (bo_identity o) +:+ "-" +:+ hex16 (fnv_hash (to_bytes 4 tokens)) +:+ ".bkv").

Definition bakeable (o : BakedOptions) (s : SamplingParams) (n : Z) : bool :=
  negb (bool_decide (bo_root o = EmptyString)) && greedy s && (512 <=? n) && (n <=? 8192) &&
  bo_resident_off o && negb (bo_speculating o) && (bo_streams o =? 1).
Definition has_baked_prompt (o : BakedOptions) (tokens : list Z) (s : SamplingParams) (d : Disk) : bool :=
  bakeable o s (len_Z tokens) && bool_decide (is_Some (d !! baked_path o tokens)).

Section Engine_.
Context {A W : Type} `{MemoryAllocator A, Device W}.
Context (c : TextConfig) (o : BakedOptions).
#[local] Abbreviation Engine := (Engine A W).

Definition boundary_of (e : Engine) (first : DecodeStepResult) : Result BakedPrompt :=
  let k := en_kvs e in
  rows ← backup_rows k 0 (context_length e);
  ring ← snapshot_ring k (upto (kc_window (k_cfg k))) (upto (kc_layers (k_cfg k)));
  Ret {| bk_tokens := en_history e; bk_rows := rows; bk_ring := ring; bk_first := first |}.
Definition bake_prompt (env : BakeEnv) (first : DecodeStepResult) (e : Engine) (d : Disk) : Result unit * Disk :=
  let path := baked_path o (en_history e) in
  if negb (bakeable o (en_sampling e) (context_length e)) || bool_decide (is_Some (d !! path)) then (Ret tt, d)
  else
    match boundary_of e first with
    | Fail r => (Fail r, d)
    | Ret p =>
        match write_baked_prompt env path (bo_identity o) p d with
        | (Fail r, d) => (Fail r, d)
        | (Ret _, d) =>
            (Ret tt, enforce_disk_budget (be_removable env) {| od_dir := bo_root o; od_model_tag := EmptyString; od_max_bytes := bo_budget o |} d)
        end
    end.

(** Every shape, before the live state is touched. *)
Definition baked_shapes (k : KvStore) (n : Z) (p : BakedPrompt) : bool :=
  let kc := k_cfg k in let s := bk_ring p in
  (kb_first_pos (bk_rows p) =? 0) && (kb_end_pos (bk_rows p) =? n) && (rg_latent_dim s =? kc_latent_dim kc) &&
  (len_Z (rg_layer s) =? kc_layers kc) && (len_Z (rg_slot s) =? kc_window kc) && (len_Z (rg_position s) =? kc_window kc) &&
  (len_Z (rg_val s) =? kc_layers kc * kc_window kc * kc_latent_dim kc) &&
  (len_Z (rg_scale s) =? kc_layers kc * kc_window kc * window_scales kc) &&
  (u32 (dr_position (bk_first p) + 1) =? n) && (dr_token (bk_first p) <? tc_vocab_size c) &&
  bool_decide (rg_layer s = upto (kc_layers kc)) && bool_decide (rg_slot s = upto (kc_window kc)).
Definition install_baked (tokens : list Z) (p : BakedPrompt) : EM (A:=A) (W:=W) (option DecodeStepResult) :=
  e ← em_get;
  _ ← em_guard (negb (baked_shapes (en_kvs e) (len_Z tokens) p)) Corrupt;
  _ ← em_update reset_context;
  _ ← on_kvs (restore_exact_rows (bk_rows p) (u32 (len_Z tokens)));
  _ ← on_kvs (restore_ring (bk_ring p));
  _ ← set_context_tokens tokens;
  mret (Some (bk_first p)).
Definition restore_baked_prompt (removable : string -> bool) (tokens : list Z) (s : SamplingParams) (e : Engine) (d : Disk)
  : Result (option DecodeStepResult) * Engine * Disk :=
  let path := baked_path o tokens in
  if negb (bakeable o s (len_Z tokens)) then (Ret None, e, d)
  else
    match read_baked_prompt path (bo_identity o) d with
    | Fail NotFound => (Ret None, e, d)
    | Fail _ => (Ret None, e, if removable path then delete path d else d)
    | Ret p => if negb (bool_decide (bk_tokens p = tokens)) then (Ret None, e, d) else (install_baked tokens p e, d)
    end.
End Engine_.
