(* ===== verification/BakedProps.v ===== *)
(** A baked prompt reads back exactly, and only from exactly the bytes written. *)

From S2P Require Import Prelude Types Floats V41Config KvLayout KvStore Sampling EngineContext SessionDisk BakedPrompt.

(** ** What the format holds *)

Definition words_ok (w : nat) (v : list Z) : Prop := Forall (fun x => 0 <= x < 256 ^ Z.of_nat w) v.
Definition i64_ok (v : list Z) : Prop := Forall (fun x => - 2 ^ 63 <= x < 2 ^ 63) v.
Record backup_ok (p : BackupPlane) : Prop := {
  bo_words : word_ok (bp_layer p) /\ word_ok (bp_ratio p) /\ word_ok (bp_first_row p) /\ word_ok (bp_rows p);
  bo_rows : words_ok 2 (bp_cmp p) /\ words_ok 2 (bp_key p);
  bo_carry : words_ok 4 (bp_carry_kv p) /\ words_ok 4 (bp_carry_score p) }.
(** A step's result as the file keeps it: the rest of it at its defaults. *)
Record step_ok (r : DecodeStepResult) : Prop := {
  so_words : word_ok (dr_token r) /\ word_ok (dr_position r) /\ word_ok (dr_greedy_token r) /\ word_ok (dr_top1 r) /\ word_ok (dr_top2 r) /\
    word_ok (dr_candidates r) /\ word_ok (dr_nucleus_size r);
  so_longs : 0 <= dr_p_token r < 2 ^ 64 /\ 0 <= dr_retained r < 2 ^ 64 /\ 0 <= dr_kept r < 2 ^ 64 }.
Definition plain_step (r : DecodeStepResult) : DecodeStepResult :=
  mkStep (dr_token r) (dr_position r) (dr_top1 r) (dr_top2 r) (dr_greedy_token r) false false false false
    (dr_candidates r) (dr_nucleus_size r) (dr_p_token r) (dr_retained r) (dr_kept r) 0 0 0.
Record baked_ok (p : BakedPrompt) : Prop := {
  ba_tokens : words_ok 4 (bk_tokens p) /\ 0 < len_Z (bk_tokens p) <= 8192;
  ba_rows : word_ok (kb_first_pos (bk_rows p)) /\ word_ok (kb_end_pos (bk_rows p)) /\ Forall backup_ok (kb_planes (bk_rows p));
  ba_ring : word_ok (rg_latent_dim (bk_ring p)) /\ words_ok 4 (rg_layer (bk_ring p)) /\ words_ok 4 (rg_slot (bk_ring p)) /\
    i64_ok (rg_position (bk_ring p)) /\ words_ok 1 (rg_val (bk_ring p)) /\ words_ok 1 (rg_scale (bk_ring p));
  ba_first : step_ok (bk_first p);
  ba_valid : bk_valid p = true }.

(** ** Reading what was written *)

Lemma reads_baked_vec w v : (0 < w)%nat -> words_ok w v -> vec_fits w v = true -> reads (rd_baked_vec w) (bk_vec w v) v.
Proof.
  intros Hw Hv Hf%Z.leb_le. unfold rd_baked_vec, bk_vec, len_Z in *. rewrite <- (app_nil_l (to_bytes w v)).
  assert (Hl : kBakedLimit / Z.of_nat w <= kBakedLimit) by (change kBakedLimit with 67108864; apply Z.div_le_upper_bound; nia). change kBakedLimit with 67108864 in *.
  eapply reads_bind; [apply (reads_num 8); change (256 ^ Z.of_nat 8) with (2 ^ 64); lia|].
  eapply reads_bind; [apply reads_check, Z.ltb_ge; exact Hf|]. rewrite Nat2Z.id. by apply reads_words.
Qed.

Ltac baked_step := (eapply reads_bind; [first [apply (reads_num 4); assumption | apply (reads_num 8); assumption | apply reads_baked_vec; [lia|assumption|assumption]]|]).

Lemma reads_baked_plane p : backup_ok p -> plane_fits p = true -> reads rd_baked_plane (bk_plane p) p.
Proof.
  intros [(W1 & W2 & W3 & W4) (R1 & R2) (C1 & C2)] [[[F1 F2]%andb_true_iff F3]%andb_true_iff F4]%andb_true_iff.
  unfold rd_baked_plane, bk_plane. rewrite <- (app_nil_r (bk_vec 4 (bp_carry_score p))). repeat baked_step. destruct p. apply reads_ret.
Qed.
Lemma reads_baked_planes ps : Forall backup_ok ps -> forallb plane_fits ps = true -> reads (rd_baked_planes (length ps)) (flat_map bk_plane ps) ps.
Proof.
  induction 1 as [|p ps Hp _ IH]; intros Hf; [apply reads_ret|]. cbn in Hf. apply andb_true_iff in Hf as [Hf Hfs]. cbn [length rd_baked_planes flat_map].
  eapply reads_bind; [by apply reads_baked_plane|]. rewrite <- (app_nil_r (flat_map _ ps)). eapply reads_bind; [by apply IH|]. apply reads_ret.
Qed.
Lemma reads_baked_first r : step_ok r -> reads rd_step (bk_step r) (plain_step r).
Proof.
  intros [(W1 & W2 & W3 & W4 & W5 & W6 & W7) (L1 & L2 & L3)]. unfold rd_step, bk_step. rewrite <- (app_nil_r (wr_u64 (dr_kept r))).
  repeat baked_step. apply reads_ret.
Qed.

Lemma s64_back v : i64_ok v -> s64 <$> i64_words v = v.
Proof.
  intros Hv. unfold i64_words. rewrite <- list_fmap_compose. rewrite <- (list_fmap_id v) at 2. apply list_fmap_ext. intros i x Hx.
  eapply Forall_lookup_1 in Hx; [|exact Hv]. cbn in *. unfold s64, u64. destruct (Z.lt_ge_cases x 0).
  - replace (x mod 2 ^ 64) with (x + 2 ^ 64); [case_match; lia|]. apply (Zmod_unique _ _ (-1)); lia.
  - rewrite Z.mod_small by lia. case_match; lia.
Qed.
Lemma reads_baked_ring s : word_ok (rg_latent_dim s) -> words_ok 4 (rg_layer s) -> words_ok 4 (rg_slot s) -> i64_ok (rg_position s) ->
  words_ok 1 (rg_val s) -> words_ok 1 (rg_scale s) -> ring_fits s = true -> reads rd_ring (bk_ring_bytes s) s.
Proof.
  intros W V1 V2 V3 V4 V5 [[[[F1 F2]%andb_true_iff F3]%andb_true_iff F4]%andb_true_iff F5]%andb_true_iff.
  assert (V3' : words_ok 8 (i64_words (rg_position s))) by (apply Forall_fmap, Forall_forall; intros x _; apply u64_range).
  assert (F3' : vec_fits 8 (i64_words (rg_position s)) = true) by (unfold vec_fits, i64_words, len_Z; by rewrite length_fmap).
  unfold rd_ring, bk_ring_bytes. rewrite <- (app_nil_r (bk_vec 1 (rg_scale s))). repeat baked_step. rewrite s64_back by done. destruct s. apply reads_ret.
Qed.

(** The result with the fields the file does not hold at their defaults. *)
Definition baked_back (p : BakedPrompt) : BakedPrompt :=
  {| bk_tokens := bk_tokens p; bk_rows := bk_rows p; bk_ring := bk_ring p; bk_first := plain_step (bk_first p) |}.
Lemma reads_baked_state p : baked_ok p -> reads rd_state (bk_state p) (baked_back p).
Proof.
  intros [(T1 & T2) (W1 & W2 & Hpl) (R1 & R2 & R3 & R4 & R5 & R6) Hs Hv].
  apply andb_true_iff in Hv as [[[F1 F2%Z.leb_le]%andb_true_iff F3]%andb_true_iff F4]. unfold rd_state, bk_state.
  baked_step. eapply reads_bind; [by apply reads_baked_first|]. repeat baked_step. unfold len_Z in *.
  eapply reads_bind; [apply (reads_num 8); change (256 ^ Z.of_nat 8) with (2 ^ 64); lia|].
  rewrite <- (app_nil_l (flat_map _ _ ++ _)). eapply reads_bind; [apply reads_check, Z.ltb_ge; exact F2|]. rewrite Nat2Z.id.
  eapply reads_bind; [by apply reads_baked_planes|]. rewrite <- (app_nil_r (bk_ring_bytes _)).
  eapply reads_bind; [by apply reads_baked_ring|]. destruct p as [? [] ? ?]. apply reads_ret.
Qed.

(** ** The file *)

Lemma fnv_range bs : 0 <= fnv_hash bs < 2 ^ 64.
Proof. unfold fnv_hash. apply (foldl_invariant (fun h => 0 <= h < 2 ^ 64)); [lia|]. intros. apply u64_range. Qed.

Definition header_bytes (identity : Z) (data : list Z) : list Z :=
  wr_u64 kBakedMagic ++ wr_u64 identity ++ wr_u64 (len_Z data) ++ wr_u64 (fnv_hash data).
Lemma baked_bytes_split identity p : baked_bytes identity p = header_bytes identity (bk_state p) ++ bk_state p.
Proof. unfold baked_bytes, header_bytes. by rewrite <- !app_assoc. Qed.
Lemma reads_header identity data : 0 <= identity < 2 ^ 64 -> len_Z data <= kBakedLimit ->
  reads rd_header (header_bytes identity data) (kBakedMagic, identity, len_Z data, fnv_hash data).
Proof.
  intros Hi Hl. change kBakedLimit with 67108864 in Hl. unfold rd_header, header_bytes. rewrite <- (app_nil_r (wr_u64 (fnv_hash data))).
  repeat (eapply reads_bind; [apply (reads_num 8); change (256 ^ Z.of_nat 8) with (2 ^ 64)|]).
  - unfold kBakedMagic. lia.
  - exact Hi.
  - unfold len_Z in *. lia.
  - apply fnv_range.
  - apply reads_ret.
Qed.

Lemma read_after_header identity identity' data rest : 0 <= identity < 2 ^ 64 -> len_Z data <= kBakedLimit ->
  read_baked_bytes identity' (header_bytes identity data ++ rest) =
    (_ ← fail_if (negb (identity =? identity')) Corrupt;
     '(d, r) ← rd_bytes (length data) rest;
     _ ← fail_if (negb (bool_decide (r = [])) || negb (fnv_hash d =? fnv_hash data)) Corrupt;
     '(p, r) ← rd_state d;
     _ ← fail_if (negb (bool_decide (r = [])) || bool_decide (bk_tokens p = []) || (8192 <? len_Z (bk_tokens p))) Corrupt;
     Ret p).
Proof.
  intros Hi Hl. unfold read_baked_bytes. rewrite (proj1 (reads_header identity data Hi Hl)). cbn [mbind Result_bind].
  rewrite Z.eqb_refl, (proj2 (Z.ltb_ge _ _) Hl), orb_false_r. cbn [negb orb]. unfold len_Z. by rewrite Nat2Z.id.
Qed.

Lemma read_whole identity p : baked_ok p -> 0 <= identity < 2 ^ 64 -> len_Z (bk_state p) <= kBakedLimit ->
  read_baked_bytes identity (baked_bytes identity p) = Ret (baked_back p).
Proof.
  intros Hp Hi Hl. rewrite baked_bytes_split, read_after_header by done. rewrite Z.eqb_refl. cbn [negb fail_if mbind Result_bind].
  pose proof (proj1 (reads_bytes (length (bk_state p)) (bk_state p) eq_refl) []) as Hb. rewrite app_nil_r in Hb. rewrite Hb. cbn [mbind Result_bind].
  rewrite bool_decide_true, Z.eqb_refl by done. cbn [negb orb fail_if mbind Result_bind].
  pose proof (proj1 (reads_baked_state p Hp) []) as Hs. rewrite app_nil_r in Hs. rewrite Hs. cbn [mbind Result_bind baked_back bk_tokens].
  destruct (ba_tokens p Hp) as [_ [Ht0 Ht]]. rewrite (bool_decide_true (_ = [])), bool_decide_false by (done || intros He; rewrite He in Ht0; done).
  by rewrite (proj2 (Z.ltb_ge _ _) Ht).
Qed.

Lemma rd_bytes_more (data : list Z) b rest : rd_bytes (length data) (data ++ b :: rest) = Ret (data, b :: rest).
Proof. exact (proj1 (reads_bytes (length data) data eq_refl) (b :: rest)). Qed.

(** C24: A baked prompt reads back exactly: the file written reads as the tokens, rows, ring and
    result that were given (the result's fields the file does not keep at their defaults), a
    build with another identity refuses it, and so is every file that stops short of it or goes
    on after it. *)
Theorem baked_prompt_reads_back env path identity p d d' : baked_ok p -> 0 <= identity < 2 ^ 64 ->
  write_baked_prompt env path identity p d = (Ret tt, d') ->
  read_baked_prompt path identity d' = Ret (baked_back p) /\
  (forall other, other <> identity -> read_baked_prompt path other d' = Fail Corrupt) /\
  (forall pre b post, baked_bytes identity p = pre ++ b :: post -> read_baked_bytes identity pre = Fail Corrupt) /\
  (forall b rest, read_baked_bytes identity (baked_bytes identity p ++ b :: rest) = Fail Corrupt).
Proof.
  intros Hp Hi Hw. assert (Hl : len_Z (bk_state p) <= kBakedLimit /\ d' !! path = Some {| df_bytes := baked_bytes identity p; df_time := be_now env |}).
  { unfold write_baked_prompt in Hw. rewrite (ba_valid p Hp) in Hw. cbn [negb orb] in Hw.
    destruct (Z.ltb_spec kBakedLimit (len_Z (bk_state p))); [done|]. split; [done|].
    destruct (be_mkdir env), (be_open env), (be_write env), (be_rename env); try done. injection Hw as <-. apply lookup_insert_eq. }
  destruct Hl as [Hl Hf]. unfold read_baked_prompt. rewrite Hf. cbn [df_bytes]. split_and!.
  - by apply read_whole.
  - intros other Hne. rewrite baked_bytes_split, read_after_header by done. rewrite (proj2 (Z.eqb_neq identity other)) by done. done.
  - clear Hf. intros pre b post E. rewrite baked_bytes_split in E. revert E Hl. generalize (bk_state p) as data. intros data E Hl. destruct (app_eq_inv _ _ _ _ E) as [(k' & E1 & E2)|(k' & E1 & E2)].
    + destruct k' as [|b' k']; cbn in E2.
      * rewrite app_nil_r in E1. subst pre. rewrite <- (app_nil_r (header_bytes _ _)), read_after_header by done. rewrite Z.eqb_refl, <- E2. done.
      * injection E2 as <- _. unfold read_baked_bytes. by rewrite (proj2 (reads_header identity _ Hi Hl) pre b k' E1).
    + subst pre. rewrite read_after_header by done. rewrite Z.eqb_refl, E2. cbn [negb fail_if mbind Result_bind].
      rewrite (proj2 (reads_bytes (length (k' ++ b :: post)) _ eq_refl) k' b post eq_refl). done.
  - intros b rest. rewrite baked_bytes_split, <- app_assoc, read_after_header by done. rewrite Z.eqb_refl. cbn [negb fail_if mbind Result_bind].
    rewrite rd_bytes_more. done.
Qed.

(** ** Example *)

Definition toy_baked : BakedPrompt :=
  {| bk_tokens := [7; 8; 9]; bk_rows := mkKvRowBackup 0 3 [mkBackupPlane 2 2 0 1 [258; 3] [5] [1; 2] [4286578688; 0]];
     bk_ring := mkRingSnapshot [0] [0; 1] [-1; 2] [1; 2; 3] [4] 3; bk_first := DecodeStepResult_default |}.
Definition toy_bake_env : BakeEnv :=
  {| be_mkdir := true; be_open := true; be_write := true; be_partial := []; be_rename := true; be_now := 5; be_removable := fun _ => true |}.
Lemma within x n : (0 <=? x) && (x <? n) = true -> 0 <= x < n.
Proof. intros [H1%Z.leb_le H2%Z.ltb_lt]%andb_true_iff. done. Qed.
Lemma all_within (v : list Z) n : forallb (fun x => (0 <=? x) && (x <? n)) v = true -> Forall (fun x => 0 <= x < n) v.
Proof. intros Hv. apply Forall_forall. intros x Hx. apply within. rewrite forallb_forall in Hv. apply Hv. by apply list_elem_of_In. Qed.
Lemma toy_baked_ok : baked_ok toy_baked.
Proof.
  assert (Hp : Forall backup_ok (kb_planes (bk_rows toy_baked))).
  { apply Forall_singleton. split; [do 3 (split; [by apply within|]); by apply within|split; by apply all_within|split; by apply all_within]. }
  split; [split; [by apply all_within|done]|split; [by apply within|split; [by apply within|exact Hp]]| | |vm_compute; reflexivity].
  - split; [by apply within|]. split; [by apply all_within|]. split; [by apply all_within|]. split; [|split; by apply all_within].
    apply Forall_cons; split; [lia|]. apply Forall_cons; split; [lia|apply Forall_nil_2].
  - split; [do 6 (split; [by apply within|]); by apply within|do 2 (split; [by apply within|]); by apply within].
Qed.

Lemma baked_prompt_reads_back_witness : exists d', write_baked_prompt toy_bake_env "a/b.bkv" 77 toy_baked ∅ = (Ret tt, d') /\
  read_baked_prompt "a/b.bkv" 77 d' = Ret toy_baked /\ read_baked_prompt "a/b.bkv" 78 d' = Fail Corrupt.
Proof.
  eexists. split; [vm_compute; reflexivity|].
  destruct (baked_prompt_reads_back toy_bake_env "a/b.bkv" 77 toy_baked ∅ _ toy_baked_ok ltac:(lia) ltac:(vm_compute; reflexivity)) as (H1 & H2 & _).
  split; [exact H1|]. apply H2. lia.
Defined.
