(* ===== verification/SessionTurn.v ===== *)
(** One turn of a conversation ([Session::generate] of [src/runtime/session.cpp]): how much of
    the context the prompt reuses, the prefill of the rest, and the generation loop.

    The cancel callback is a function of how often it has been asked.  The request's decode
    policy guard, the heat pass at the turn's end and the clocks and cache counters of the
    statistics are omitted.  A speculative step is the interface [SpeculativeStep]. *)

From S2P Require Import SessionPool Prelude Types Floats Json V41Config KvLayout KvStore Utf8 Tokenizer Sampling SessionDisk EngineContext SessionReplay BakedPrompt.

(** ** Requests and their statistics *)

Record GenerateRequest := {
  gr_prompt_ids : list Z; gr_max_tokens : Z; gr_sampling : SamplingParams; gr_stop_ids : list Z; gr_reuse : bool;
  gr_cancel : option (nat -> bool) }.
Record SessionOptions := {
  so_gpu_prefill_min : Z; so_gpu_prefill_speedup : float; so_replay : Z; so_progress_every : Z; so_rollback : bool }.
Record TokenEvent := { te_id : Z; te_text : text; te_p : Z; te_nucleus : Z; te_fallback : bool }.

Inductive PrefillMode := ModeNone | ModeDecode | ModeGpu | ModeSnapshot.
Inductive Finish := FinStop | FinLength | FinContext | FinCancel.
#[export] Instance PrefillMode_eq : EqDecision PrefillMode.
Proof. solve_decision. Defined.
#[export] Instance Finish_eq : EqDecision Finish.
Proof. solve_decision. Defined.

Record GenerateStats := mkGenStats {
  gs_prompt_tokens : Z; gs_reused_tokens : Z; gs_prefilled_tokens : Z; gs_generated : Z;
  gs_prefill_mode : PrefillMode; gs_finish : Finish; gs_rollback_dropped : Z; gs_replay_steps : Z;
  gs_decode_steps : Z; gs_sampled_steps : Z; gs_topk_fallbacks : Z; gs_topk_checked : Z; gs_topk_mismatches : Z;
  gs_nucleus_sum : Z; gs_context_after : Z }.
#[export] Instance GenerateStats_eta : Eta GenerateStats := fun s =>
  mkGenStats (gs_prompt_tokens s) (gs_reused_tokens s) (gs_prefilled_tokens s) (gs_generated s) (gs_prefill_mode s) (gs_finish s)
    (gs_rollback_dropped s) (gs_replay_steps s) (gs_decode_steps s) (gs_sampled_steps s) (gs_topk_fallbacks s) (gs_topk_checked s)
    (gs_topk_mismatches s) (gs_nucleus_sum s) (gs_context_after s).
Definition GenerateStats_default : GenerateStats := mkGenStats 0 0 0 0 ModeNone FinLength 0 0 0 0 0 0 0 0 0.

Definition b2z (b : bool) : Z := if b then 1 else 0.
Definition account_sample (r : DecodeStepResult) (s : GenerateStats) : GenerateStats :=
  if negb (dr_sampled r) then s
  else ((((s <| gs_sampled_steps ::= fun n => u32 (n + 1) |>) <| gs_topk_fallbacks ::= fun n => u32 (n + b2z (dr_topk_fallback r)) |>)
         <| gs_topk_checked ::= fun n => u32 (n + b2z (dr_topk_checked r)) |>)
        <| gs_topk_mismatches ::= fun n => u32 (n + b2z (dr_topk_mismatch r)) |>)
       <| gs_nucleus_sum ::= fun n => u64 (n + dr_nucleus_size r) |>.

(** A turn: its statistics, the step whose token comes next, the pending bytes of the text
    decoder and the events sent so far. *)
Record TurnState := mkTurn {
  ts_st : GenerateStats; ts_cur : DecodeStepResult; ts_pending : text; ts_live : bool; ts_emitted_token : Z; ts_events : list TokenEvent }.
#[export] Instance TurnState_eta : Eta TurnState := fun t =>
  mkTurn (ts_st t) (ts_cur t) (ts_pending t) (ts_live t) (ts_emitted_token t) (ts_events t).
Definition turn_new : TurnState := mkTurn GenerateStats_default DecodeStepResult_default [] false 0 [].

(** ** The world a turn runs in *)

Record World {A W : Type} := mkWorld { wo_engine : Engine A W; wo_disk : Disk; wo_polls : nat }.
Arguments World : clear implicits.

(** [Engine::speculative_step]: root token, tokens wanted and stop ids; the rows it emitted. *)
Class SpeculativeStep (A W : Type) `{MemoryAllocator A, Device W} :=
  speculative_step : Z -> Z -> list Z -> EM (A:=A) (W:=W) (list DecodeStepResult).

Section Turn.
Context {A W : Type} `{MemoryAllocator A, Device W, !SpeculativeStep A W}.
Context (c : TextConfig) (std_exp std_log : float -> float) (tok : Tokenizer) (o : BakedOptions) (env : BakeEnv) (opt : SessionOptions).
#[local] Abbreviation Engine := (Engine A W).
#[local] Abbreviation World := (World A W).

Definition TM (T : Type) : Type := World -> Result T * World.
#[export] Instance TM_ret : MRet TM := fun T x w => (Ret x, w).
#[export] Instance TM_bind : MBind TM := fun T U f m w => match m w with (Ret x, w) => f x w | (Fail r, w) => (Fail r, w) end.
Definition tm_guard (bad : bool) (r : Err) : TM unit := fun w => (fail_if bad r, w).
Definition tm_engine : TM Engine := fun w => (Ret (wo_engine w), w).
Definition on_engine {T} (m : EM (A:=A) (W:=W) T) : TM T := fun w =>
  let '(r, e) := m (wo_engine w) in (r, mkWorld _ _ e (wo_disk w) (wo_polls w)).
(** The answer instead of the failure. *)
Definition attempt {T} (m : TM T) : TM (Result T) := fun w => let '(r, w) := m w in (Ret r, w).
Definition tm_update (f : Engine -> Engine) : TM unit := on_engine (em_update f).
Definition poll (req : GenerateRequest) : TM bool := fun w =>
  match gr_cancel req with
  | None => (Ret false, w)
  | Some f => (Ret (f (wo_polls w)), mkWorld _ _ (wo_engine w) (wo_disk w) (S (wo_polls w)))
  end.
Definition restore_baked (tokens : list Z) (s : SamplingParams) : TM (option DecodeStepResult) := fun w =>
  let '(r, e, d) := restore_baked_prompt c o (be_removable env) tokens s (wo_engine w) (wo_disk w) in (r, mkWorld _ _ e d (wo_polls w)).
Definition bake (first : DecodeStepResult) : TM unit := fun w =>
  let '(r, d) := bake_prompt o env first (wo_engine w) (wo_disk w) in (r, mkWorld _ _ (wo_engine w) d (wo_polls w)).

(** ** What of the context the prompt reuses *)

(** The boundary kept in memory, or the one on disk; a disk restore that fails leaves nothing. *)
Definition cached_prompt (req : GenerateRequest) : TM (option DecodeStepResult) :=
  if negb (gr_reuse req && so_rollback opt) then mret None
  else
    r ← on_engine (reuse_prompt (gr_prompt_ids req) (gr_sampling req));
    match r with
    | Some first => mret (Some first)
    | None =>
        d ← attempt (restore_baked (gr_prompt_ids req) (gr_sampling req));
        match d with Ret r => mret r | Fail _ => _ ← tm_update reset_context; mret None end
    end.

(** Whether prefilling all [n] tokens on the GPU beats feeding all but [cand] of them. *)
Definition cold_wins (n cand : Z) : bool :=
  (0 <? cand) && (negb (so_gpu_prefill_min opt =? 0) && (so_gpu_prefill_min opt <=? n)) &&
  f_gtb (so_gpu_prefill_speedup opt) f32_one &&
  f_ltb (f64_div (f64_of_Z n) (f32_to_f64 (so_gpu_prefill_speedup opt))) (f64_of_Z (n - cand)).

(** How many tokens of the context stay, what a rollback dropped and how many steps it ran. *)
Definition choose_reuse (req : GenerateRequest) : TM (Z * Z * Z) :=
  e ← tm_engine;
  let hist := en_history e in let prompt := gr_prompt_ids req in
  let common := Z.of_nat (common_prefix hist prompt) in
  let hist_n := len_Z hist in let n := len_Z prompt in
  let extend := gr_reuse req && negb (hist_n =? 0) && (common =? hist_n) && (hist_n <? n) in
  let keep := if extend || (hist_n =? 0) then 0 else even_down (u32 (Z.min common (n - 1))) in
  let try_rb := negb extend && negb (hist_n =? 0) && gr_reuse req && so_rollback opt && (0 <? keep) in
  plan ← (if try_rb then on_engine (plan_rollback keep (so_replay opt)) else mret (mkPlan 0 0 0));
  let do_rb := try_rb && (plan_steps plan <? keep) in
  let cand := if extend then u32 hist_n else if do_rb then keep else 0 in
  if cold_wins n cand then _ ← tm_update reset_context; mret (0, 0, 0)
  else if extend then mret (u32 hist_n, 0, 0)
  else if do_rb then
    rb ← on_engine (rollback_context c keep (so_replay opt));
    mret (keep, rp_dropped rb, rp_steps rb)
  else if negb (hist_n =? 0) then _ ← tm_update reset_context; mret (0, 0, 0)
  else mret (0, 0, 0).

(** ** The prefill *)

(** Chunks of the suffix through the decode path; how many tokens a cancel left it at. *)
Fixpoint feed_chunks (fuel : nat) (req : GenerateRequest) (suffix : list Z) (at_ : Z) (first : DecodeStepResult) : TM (Z * option DecodeStepResult) :=
  match fuel with
  | O => mret (at_, Some first)
  | S fuel =>
      let total := u32 (len_Z suffix) in
      if total <=? at_ then mret (at_, Some first)
      else
        stop ← poll req;
        if stop : bool then mret (at_, None)
        else
          let n := Z.min (Z.max 1 (so_progress_every opt)) (total - at_) in
          r ← on_engine (feed c (subspan suffix (Z.to_nat at_) (Z.to_nat n)));
          feed_chunks fuel req suffix (at_ + n) r
  end.
Definition prefill (req : GenerateRequest) (reuse : Z) : TM (PrefillMode * Z * option DecodeStepResult) :=
  let suffix := drop (Z.to_nat reuse) (gr_prompt_ids req) in
  gpu ← (if (reuse =? 0) && negb (so_gpu_prefill_min opt =? 0) && (so_gpu_prefill_min opt <=? len_Z suffix)
         then
           r ← attempt (on_engine (gpu_prefill c std_exp std_log suffix (so_replay opt)));
           match r with Ret first => mret (Some first) | Fail _ => _ ← tm_update reset_context; mret None end
         else mret None);
  match gpu with
  | Some first => mret (ModeGpu, u32 (len_Z suffix), Some first)
  | None =>
      '(at_, first) ← feed_chunks (S (length suffix)) req suffix 0 DecodeStepResult_default;
      mret (ModeDecode, if first is None then at_ else u32 (len_Z suffix), first)
  end.

(** ** [turn_prepare] *)

Definition turn_prepare (req : GenerateRequest) : TM TurnState :=
  let prompt := gr_prompt_ids req in let n := len_Z prompt in
  _ ← tm_guard (bool_decide (prompt = [])) InvalidArgument;
  _ ← tm_guard (existsb (fun id => tok_vocab_size tok <=? id) prompt) InvalidArgument;
  e ← tm_engine;
  _ ← tm_guard (max_context e <=? n) ResourceExhausted;
  let history_before := context_length e in
  cached ← cached_prompt req;
  '(reuse, dropped, steps) ← (match cached with
     | Some _ => mret (u32 n, if u32 n <? history_before then history_before - u32 n else 0, 0)
     | None => choose_reuse req end);
  _ ← tm_update (fun e => e <| en_sampling := gr_sampling req |>);
  let st := ((((GenerateStats_default <| gs_prompt_tokens := u32 n |>) <| gs_reused_tokens := reuse |>)
             <| gs_rollback_dropped := dropped |>) <| gs_replay_steps := steps |>) <| gs_prefilled_tokens := u32 (n - reuse) |> in
  '(mode, fed, first) ← (match cached with
     | Some first => mret (ModeSnapshot, u32 (n - reuse), Some first)
     | None => prefill req reuse end);
  let st := (st <| gs_prefill_mode := mode |>) <| gs_prefilled_tokens := fed |> in
  match first with
  | None =>
      e ← tm_engine;
      mret (turn_new <| ts_st := ((st <| gs_finish := FinCancel |>) <| gs_context_after := context_length e |>) |>)
  | Some first =>
      _ ← attempt (on_engine (retain_prompt_state (Some first)));
      _ ← (match cached with Some _ => mret (Ret tt) | None => attempt (bake first) end);
      mret (mkTurn (account_sample first st) first [] true 0 [])
  end.

(** ** Emitting *)

Definition event_of (id : Z) (txt : text) (r : DecodeStepResult) : TokenEvent :=
  {| te_id := id; te_text := txt; te_p := dr_p_token r; te_nucleus := dr_nucleus_size r; te_fallback := dr_topk_fallback r |}.
(** The event of [ts_cur], and whether another step is wanted. *)
Definition turn_emit (req : GenerateRequest) (burst : bool) (ts : TurnState) : TM (TurnState * bool) :=
  let id := dr_token (ts_cur ts) in
  let st := (ts_st ts) <| gs_generated ::= fun n => u32 (n + 1) |> in
  let '(txt, pending) := stream_push tok true (ts_pending ts) id in
  let stop := bool_decide (id ∈ gr_stop_ids req) in
  let '(txt, pending) := if stop then let '(rest, p) := stream_flush pending in (txt ++ rest, p) else (txt, pending) in
  let ts := mkTurn st (ts_cur ts) pending (ts_live ts) id (ts_events ts ++ [event_of id txt (ts_cur ts)]) in
  let ended f := (ts <| ts_st := (st <| gs_finish := f |>) |>, false) in
  if stop then mret (ended FinStop)
  else if gr_max_tokens req <=? gs_generated st then mret (ended FinLength)
  else
    e ← tm_engine;
    if negb burst && (max_context e <=? context_length e + 1) then mret (ended FinContext)
    else if burst then mret (ts, true)
    else
      cancelled ← poll req;
      mret (if cancelled : bool then ended FinCancel else (ts, true)).

Definition turn_account (r : DecodeStepResult) (ts : TurnState) : TurnState :=
  (ts <| ts_st := account_sample r ((ts_st ts) <| gs_decode_steps ::= fun n => u32 (n + 1) |>) |>) <| ts_cur := r |>.

(** ** The generation loop *)

(** The rows of one speculative step, until one ends the turn. *)
Fixpoint emit_rows (req : GenerateRequest) (rows : list DecodeStepResult) (ts : TurnState) (more : bool) : TM (TurnState * bool) :=
  match rows with
  | [] => mret (ts, more)
  | r :: rest =>
      '(ts, more) ← turn_emit req (negb (bool_decide (rest = []))) (turn_account r ts);
      if more : bool then emit_rows req rest ts more else mret (ts, false)
  end.
Definition turn_step (speculative : bool) (req : GenerateRequest) (ts : TurnState) : TM (TurnState * bool) :=
  if speculative then
    rows ← on_engine (speculative_step (ts_emitted_token ts) (u32 (gr_max_tokens req - gs_generated (ts_st ts))) (gr_stop_ids req));
    emit_rows req rows ts true
  else
    r ← on_engine (feed c [ts_emitted_token ts]);
    turn_emit req false (turn_account r ts).
(** [None]: the fuel ran out. *)
Fixpoint turn_loop (fuel : nat) (speculative : bool) (req : GenerateRequest) (ts : TurnState) (more : bool) (w : World) : option (Result TurnState * World) :=
  if negb more then Some (Ret ts, w)
  else
    match fuel with
    | O => None
    | S fuel =>
        match turn_step speculative req ts w with
        | (Ret (ts, more), w) => turn_loop fuel speculative req ts more w
        | (Fail r, w) => Some (Fail r, w)
        end
    end.
Definition turn_finish (ts : TurnState) (e : Engine) : TurnState := ts <| ts_st ::= fun st => st <| gs_context_after := context_length e |> |>.

(** Every step emits a token, and at [max_tokens] the turn is over. *)
Definition turn_fuel (req : GenerateRequest) : nat := Z.to_nat (gr_max_tokens req).
Definition generate (speculative : bool) (req : GenerateRequest) (w : World) : option (Result TurnState * World) :=
  match turn_prepare req w with
  | (Fail r, w) => Some (Fail r, w)
  | (Ret ts, w) =>
      if negb (ts_live ts) then Some (Ret ts, w)
      else
        match turn_emit req false ts w with
        | (Fail r, w) => Some (Fail r, w)
        | (Ret (ts, more), w) =>
            match turn_loop (turn_fuel req) speculative req ts more w with
            | Some (Ret ts, w) => Some (Ret (turn_finish ts (wo_engine w)), w)
            | x => x
            end
        end
  end.
End Turn.
