(* ===== verification/TurnProps.v ===== *)
(** What a turn leaves: the context is the prompt and the tokens emitted but the last, and the
    turn ends for the reason it gives. *)

From S2P Require Import SessionPool Prelude Types Floats Json V41Config KvLayout KvStore KvInv ReplayProps Utf8 Tokenizer Sampling SessionDisk EngineContext SessionReplay BakedPrompt SessionTurn.

(** ** Which operations leave the history alone *)

Section History.
Context {A W : Type} `{MemoryAllocator A, Device W}.
#[local] Abbreviation Engine := (Engine A W).
#[local] Abbreviation EM := (EM (A:=A) (W:=W)).

Definition same_history {T} (m : EM T) : Prop := forall e r e', m e = (r, e') -> en_history e' = en_history e.

Lemma same_ret {T} (x : T) : same_history (mret x).
Proof. by intros e r e' [= <- <-]. Qed.
Lemma same_bind {T U} (m : EM T) (f : T -> EM U) : same_history m -> (forall x, same_history (f x)) -> same_history (m ≫= f).
Proof.
  intros Hm Hf e r e'. unfold mbind, EM_bind. destruct (m e) as [[x|err] e1] eqn:E; intros Hr.
  - rewrite (Hf x _ _ _ Hr). exact (Hm _ _ _ E).
  - injection Hr as _ <-. exact (Hm _ _ _ E).
Qed.
Lemma same_guard b r : same_history (em_guard b r).
Proof. by intros e x e' [= <- <-]. Qed.
Lemma same_of {T} (r : Result T) : same_history (em_of r).
Proof. by intros e x e' [= <- <-]. Qed.
Lemma same_get : same_history em_get.
Proof. by intros e x e' [= <- <-]. Qed.
Lemma same_update f : (forall e, en_history (f e) = en_history e) -> same_history (em_update f).
Proof. intros Hf e x e' [= <- <-]. apply Hf. Qed.
Lemma same_kvs {T} (m : KM (A:=A) T) : same_history (on_kvs m).
Proof. intros e r e'. unfold on_kvs. destruct (m _) as [x [a k]]. by intros [= <- <-]. Qed.
Lemma same_device sample t q : same_history (run_on_device sample t q).
Proof. intros e r e'. unfold run_on_device. destruct (run_layers _ _ _ _ _ _ _) as [[[x d] k] w]. by intros [= <- <-]. Qed.
#[local] Hint Resolve same_ret same_bind same_guard same_of same_get same_kvs same_device : history.

Context (c : TextConfig) (std_exp std_log : float -> float).

(** ** A step and a feed *)

Lemma step_history sample t q (e : Engine) r e' : decode_step c sample t q e = (Ret r, e') -> en_history e' = record_token t q (en_history e).
Proof.
  intros Hr. apply em_bind_Ret in Hr as (e0 & e1 & [= <- <-] & Hr). apply em_bind_Ret in Hr as ([] & e1 & [= _ <-] & Hr).
  apply em_bind_Ret in Hr as ([] & e1 & [= <-] & Hr). apply em_bind_Ret in Hr as ([] & e2 & Hp & Hr). apply same_device in Hr.
  rewrite Hr. assert (Hs : same_history (if en_produce_ced e then on_kvs (prepare_ced c q) else mret tt)) by (destruct (en_produce_ced e); auto with history).
  by rewrite (Hs _ _ _ Hp).
Qed.
Lemma record_end t h : record_token t (len_Z h) h = h ++ [t].
Proof.
  unfold record_token, len_Z. replace (Z.to_nat (Z.of_nat (length h) + 1) - length h)%nat with 1%nat by lia.
  rewrite Nat2Z.id. cbn [replicate]. rewrite insert_app_r_alt by lia. by rewrite Nat.sub_diag.
Qed.
Lemma record_again t q h : h !! Z.to_nat q = Some t -> record_token t q h = h.
Proof.
  intros Ht. unfold record_token. pose proof (lookup_lt_Some _ _ _ Ht). replace (Z.to_nat (q + 1) - length h)%nat with 0%nat by lia.
  rewrite app_nil_r. by apply list_insert_id.
Qed.

(** The context's length fits its 32-bit counter. *)
Definition short (e : Engine) : Prop := len_Z (en_history e) < 2 ^ 32.
Lemma short_length e : short e -> context_length e = len_Z (en_history e).
Proof. unfold short, context_length, u32, len_Z. intros Hs. apply Z.mod_small. lia. Qed.
Lemma fits_short e : len_Z (en_history e) <= kMaxIndexPositions -> short e.
Proof. unfold short, kMaxIndexPositions. lia. Qed.
Lemma context_fits (e : Engine) : max_context e <= kMaxIndexPositions.
Proof. unfold max_context. lia. Qed.

Lemma feed_from_history base ts last e r e' : base = len_Z (en_history e) -> base + len_Z ts < 2 ^ 32 ->
  feed_from c base ts last e = (Ret r, e') -> en_history e' = en_history e ++ ts.
Proof.
  revert base last e. induction ts as [|t ts IH]; intros base last e Hb Hl Hr.
  { injection Hr as _ <-. by rewrite app_nil_r. }
  apply em_bind_Ret in Hr as (r1 & e1 & H1 & Hr). apply step_history in H1. rewrite Hb, record_end in H1.
  unfold len_Z in *. cbn [length] in Hl. apply IH in Hr.
  - by rewrite Hr, H1, <- app_assoc.
  - rewrite H1, length_app. unfold u32. rewrite Z.mod_small by lia. cbn. lia.
  - unfold u32. rewrite Z.mod_small by lia. lia.
Qed.
Lemma feed_history ts e r e' : short e -> feed c ts e = (Ret r, e') ->
  en_history e' = en_history e ++ ts /\ len_Z (en_history e') <= kMaxIndexPositions.
Proof.
  intros Hs Hr. pose proof (context_fits e).
  apply em_bind_Ret in Hr as (e0 & e1 & [= <- <-] & Hr). do 3 (apply em_bind_Ret in Hr as ([] & ? & [= _ <-] & Hr)).
  apply em_bind_Ret in Hr as ([] & e1 & [= Hg <-] & Hr). apply fail_if_Ret, Z.ltb_ge in Hg. rewrite short_length in * by done.
  apply feed_from_history in Hr; [|done|unfold kMaxIndexPositions in *; lia]. rewrite Hr. split; [done|].
  unfold len_Z in *. rewrite length_app. lia.
Qed.

(** ** Declaring a context and coming back to one *)

Lemma set_tokens_history ts (e : Engine) e' : set_context_tokens ts e = (Ret tt, e') ->
  en_history e' = ts /\ len_Z ts <= kMaxIndexPositions.
Proof.
  intros Hr. pose proof (context_fits e). apply em_bind_Ret in Hr as (e0 & e1 & [= <- <-] & Hr). apply em_bind_Ret in Hr as ([] & ? & [= _ <-] & Hr).
  apply em_bind_Ret in Hr as ([] & ? & [= Hg <-] & Hr). apply fail_if_Ret, Z.ltb_ge in Hg.
  apply em_bind_Ret in Hr as ([] & e1 & _ & [= <-]). split; [done|lia].
Qed.
Lemma replay_step_history hist b q e e' : en_history e = hist -> replay_step c hist b q e = (Ret tt, e') -> en_history e' = hist.
Proof.
  intros Hh Hr. apply em_bind_Ret in Hr as (t & e1 & [= Ht <-] & Hr). destruct (hist !! Z.to_nat q) as [t'|] eqn:El; [|done]. injection Ht as ->.
  apply em_bind_Ret in Hr as (x & e1 & H1 & Hr). apply step_history in H1. apply same_kvs in Hr. rewrite Hr, H1, Hh. by apply record_again.
Qed.
Lemma replay_history plan e st e' : run_replay c plan e = (Ret st, e') -> en_history e' = en_history e.
Proof.
  unfold run_replay. destruct (plan_steps plan =? 0); [by intros [= _ <-]|]. intros Hr.
  apply em_bind_Ret in Hr as (e0 & e1 & [= <- <-] & Hr). apply em_bind_Ret in Hr as (b & e1 & [= _ <-] & Hr).
  apply em_bind_Ret in Hr as ([] & e1 & H1 & Hr). apply same_kvs in H1. apply em_bind_Ret in Hr as ([] & e2 & H2 & Hr).
  apply em_bind_Ret in Hr as ([] & e3 & H3 & [= _ <-]). apply same_kvs in H3. rewrite H3. clear H3.
  set (qs := _ <$> upto _) in H2. clearbody qs. revert e1 H1 H2. induction qs as [|q qs IH]; intros e1 H1 H2; [by injection H2 as <-|].
  apply em_bind_Ret in H2 as ([] & e4 & H4 & H2). apply replay_step_history in H4; [|done]. by apply (IH e4).
Qed.
Lemma plan_rollback_same keep rm : same_history (plan_rollback (A:=A) keep rm).
Proof. unfold plan_rollback. repeat (apply same_bind; [|intros]); auto with history. Qed.
Lemma rollback_history keep rm e st e' : short e -> rollback_context c keep rm e = (Ret st, e') -> en_history e' = take (Z.to_nat keep) (en_history e).
Proof.
  intros Hs Hr. apply em_bind_Ret in Hr as (e0 & e1 & [= <- <-] & Hr). do 2 (apply em_bind_Ret in Hr as ([] & ? & [= _ <-] & Hr)).
  rewrite short_length in Hr by done. destruct (Z.eqb_spec keep (len_Z (en_history e))) as [->|_].
  - injection Hr as _ <-. unfold len_Z. by rewrite Nat2Z.id, firstn_all.
  - apply em_bind_Ret in Hr as (p & e1 & _ & Hr). apply em_bind_Ret in Hr as ([] & e2 & H2 & Hr). apply set_tokens_history in H2 as [H2 _].
    apply em_bind_Ret in Hr as (x & e3 & H3 & [= _ <-]). apply replay_history in H3. congruence.
Qed.
Lemma retain_same first : same_history (retain_prompt_state (A:=A) first).
Proof.
  unfold retain_prompt_state. apply same_bind; [by apply same_update|intros _]. apply same_bind; [apply same_get|intros e]. destruct first as [f|]; [|auto with history].
  destruct (_ || _); [auto with history|]. repeat (apply same_bind; [auto with history|intros]). by apply same_update.
Qed.
Lemma reset_history (e : Engine) : en_history (reset_context e) = [].
Proof. done. Qed.
Lemma reuse_history ts s (e : Engine) r e' : reuse_prompt ts s e = (Ret r, e') ->
  match r with Some _ => en_history e' = ts /\ len_Z ts <= kMaxIndexPositions | None => e' = e end.
Proof.
  intros Hr. apply em_bind_Ret in Hr as (e0 & e1 & [= <- <-] & Hr). destruct (en_prompt_first e); [|by injection Hr as <- <-].
  destruct (boundary_matches ts s e); [|by injection Hr as <- <-].
  apply em_bind_Ret in Hr as (x & e1 & _ & Hr). apply em_bind_Ret in Hr as (e0 & e2 & [= <- <-] & Hr). apply em_bind_Ret in Hr as ([] & e3 & _ & Hr).
  apply em_bind_Ret in Hr as ([] & e4 & H4 & [= <- <-]). by apply set_tokens_history in H4.
Qed.
Lemma restore_baked_history o removable ts s (e : Engine) d r e' d' : restore_baked_prompt c o removable ts s e d = (Ret r, e', d') ->
  match r with Some _ => en_history e' = ts /\ len_Z ts <= kMaxIndexPositions | None => e' = e end.
Proof.
  unfold restore_baked_prompt. destruct (negb _); [by intros [= <- <- _]|]. destruct (read_baked_prompt _ _ _) as [p|[]]; try by intros [= <- <- _].
  destruct (negb _); [by intros [= <- <- _]|]. destruct (install_baked c ts p e) as [x e1] eqn:E. intros [= -> <- _]. rename E into Hr. unfold install_baked in Hr.
  apply em_bind_Ret in Hr as (e0 & e2 & [= <- <-] & Hr). apply em_bind_Ret in Hr as ([] & ? & [= _ <-] & Hr). apply em_bind_Ret in Hr as ([] & e2 & _ & Hr).
  apply em_bind_Ret in Hr as ([] & e3 & _ & Hr). apply em_bind_Ret in Hr as ([] & e4 & _ & Hr).
  apply em_bind_Ret in Hr as ([] & e5 & H5 & [= <- <-]). by apply set_tokens_history in H5.
Qed.
End History.

(** ** What a device and a speculative step owe a turn *)

(** A prefill hands over the prompt it was given. *)
Class DevicePrefills (W : Type) `{Device W} : Prop :=
  prefill_prompt : forall prompt n d w h d' w', run_prefill prompt n d w = (Ret h, d', w') -> ph_prompt h = prompt.
(** A speculative step emits between one and [n] rows, none before the last of which stops, and
    leaves the root and the rows but the last in a context that fits. *)
Class SpeculationOk (A W : Type) `{MemoryAllocator A, Device W, !SpeculativeStep A W} : Prop :=
  speculation_ok : forall root n stops (e : Engine A W) rows e', short e -> 0 <= n -> speculative_step root n stops e = (Ret rows, e') ->
    rows <> [] /\ len_Z rows <= n /\ len_Z (en_history e') <= kMaxIndexPositions /\
    en_history e' = en_history e ++ root :: take (length rows - 1) (dr_token <$> rows) /\
    (forall i r, rows !! i = Some r -> (S i < length rows)%nat -> dr_token r ∉ stops).

Lemma common_prefix_spec a b : take (common_prefix a b) a = take (common_prefix a b) b /\ (common_prefix a b <= length a)%nat /\ (common_prefix a b <= length b)%nat.
Proof.
  revert b. induction a as [|x a IH]; intros [|y b]; [split_and!; [done|cbn; lia..]..|]. cbn [common_prefix]. destruct (Z.eqb_spec x y) as [->|]; [|split_and!; [done|cbn; lia..]].
  destruct (IH b) as (He & Ha & Hb). cbn. rewrite He. split_and!; [done|lia..].
Qed.
Lemma even_down_le x : 0 <= x -> 0 <= even_down x <= x.
Proof. intros Hx. by destruct (even_down_spec x Hx). Qed.

(** ** Turns *)

Section Turns.
Context {A W : Type} {HA : MemoryAllocator A} {HD : Device W} {HP : DevicePrefills W} {HS : SpeculativeStep A W} {HK : SpeculationOk A W}.
Context (c : TextConfig) (std_exp std_log : float -> float) (tok : Tokenizer) (o : BakedOptions) (env : BakeEnv) (opt : SessionOptions).
#[local] Abbreviation Engine := (Engine A W).
#[local] Abbreviation World := (World A W).
#[local] Abbreviation TM := (TM (A:=A) (W:=W)).
#[local] Abbreviation wh w := (en_history (wo_engine w)).
#[local] Abbreviation wshort w := (short (wo_engine w)).

Lemma bind_Ret_tm {T U} (m : TM T) (f : T -> TM U) w y w' : (m ≫= f) w = (Ret y, w') -> exists x w1, m w = (Ret x, w1) /\ f x w1 = (Ret y, w').
Proof. unfold mbind, TM_bind. destruct (m w) as [[x|r] w1]; [|done]. intros Hf. by exists x, w1. Qed.
Lemma on_engine_run {T} (m : EM (A:=A) (W:=W) T) w r w' : on_engine m w = (r, w') -> m (wo_engine w) = (r, wo_engine w').
Proof. unfold on_engine. destruct (m _) as [x e]. by intros [= -> <-]. Qed.
Lemma attempt_Ret {T} (m : TM T) w r w' : attempt m w = (Ret r, w') -> m w = (r, w').
Proof. unfold attempt. destruct (m w) as [x w1]. by intros [= -> <-]. Qed.
Lemma update_run f (w w' : World) x : tm_update f w = (x, w') -> wo_engine w' = f (wo_engine w).
Proof. intros Hr. apply on_engine_run in Hr. by injection Hr as _ <-. Qed.
Lemma restore_run ts s (w w' : World) r : restore_baked c o env ts s w = (r, w') ->
  exists d d', restore_baked_prompt c o (be_removable env) ts s (wo_engine w) d = (r, wo_engine w', d').
Proof. unfold restore_baked. destruct (restore_baked_prompt _ _ _ _ _ _ _) as [[x e] d] eqn:E. intros [= -> <-]. by exists (wo_disk w), d. Qed.

Lemma gpu_prefill_history prompt replay (e : Engine) r e' : gpu_prefill c std_exp std_log prompt replay e = (Ret r, e') ->
  en_history e' = prompt /\ len_Z prompt <= kMaxIndexPositions.
Proof.
  intros Hr. apply em_bind_Ret in Hr as (e0 & e1 & [= <- <-] & Hr). do 2 (apply em_bind_Ret in Hr as ([] & ? & [= _ <-] & Hr)).
  apply em_bind_Ret in Hr as (h & e1 & H1 & Hr). destruct (run_prefill _ _ _ _) as [[x d] w] eqn:E. injection H1 as -> <-. apply prefill_prompt in E.
  apply em_bind_Ret in Hr as ([] & e2 & H2 & Hr). apply em_bind_Ret in Hr as (e0 & e3 & [= <- <-] & [= _ <-]).
  apply em_bind_Ret in H2 as ([] & e3 & [= <-] & H2). apply em_bind_Ret in H2 as (e0 & e4 & [= <- <-] & H2).
  do 2 (apply em_bind_Ret in H2 as ([] & ? & [= _ <-] & H2)). apply em_bind_Ret in H2 as ([] & ? & [= Hg <-] & H2). apply fail_if_Ret, Z.ltb_ge in Hg.
  do 2 (apply em_bind_Ret in H2 as ([] & ? & _ & H2)). injection H2 as <-. cbn [en_history]. rewrite <- E.
  match type of Hg with _ <= max_context ?x => pose proof (context_fits x) end. split; [done|lia].
Qed.

(** ** What the prefill starts from *)

Lemma choose_reuse_history req (w : World) x w' : wshort w -> gr_prompt_ids req <> [] -> len_Z (gr_prompt_ids req) < 2 ^ 32 ->
  choose_reuse c opt req w = (Ret x, w') ->
  0 <= x.1.1 <= len_Z (gr_prompt_ids req) /\ wh w' = take (Z.to_nat x.1.1) (gr_prompt_ids req).
Proof.
  intros Hs Hne Hlen Hr. set (prompt := gr_prompt_ids req) in *.
  apply bind_Ret_tm in Hr as (e0 & w1 & [= <- <-] & Hr). cbv zeta in Hr. fold prompt in Hr. set (hist := wh w) in *.
  destruct (common_prefix_spec hist prompt) as (Hcp & Hca & Hcb). set (common := common_prefix hist prompt) in *.
  assert (Hn : 0 < len_Z prompt) by (destruct prompt; [done|unfold len_Z; cbn; lia]).
  set (extend := gr_reuse req && _ && _ && _) in Hr. set (keep := if extend || _ then 0 else _) in Hr.
  assert (Hkeep : 0 <= keep <= Z.of_nat common).
  { unfold keep. destruct (extend || _); [lia|]. assert (Hb : 0 <= Z.min (Z.of_nat common) (len_Z prompt - 1) < 2 ^ 32) by lia.
    pose proof (even_down_le (u32 (Z.min (Z.of_nat common) (len_Z prompt - 1)))) as He. assert (Hu : u32 (Z.min (Z.of_nat common) (len_Z prompt - 1)) = Z.min (Z.of_nat common) (len_Z prompt - 1)) by (apply Z.mod_small; lia).
    rewrite Hu in *. lia. }
  assert (Hext : extend = true -> take (Z.to_nat (u32 (len_Z hist))) prompt = hist /\ 0 <= u32 (len_Z hist) <= len_Z prompt).
  { unfold extend. intros [[_ He%Z.eqb_eq]%andb_true_iff Hl%Z.ltb_lt]%andb_true_iff. unfold short in Hs. fold hist in Hs. assert (Hu : u32 (len_Z hist) = len_Z hist) by (apply Z.mod_small; unfold len_Z in *; lia). rewrite Hu.
    unfold len_Z in *. rewrite Nat2Z.id. assert (Hlc : length hist = common) by lia. split; [|lia]. rewrite Hlc, <- Hcp, <- Hlc. by apply firstn_all. }
  assert (Hkeepw : take (Z.to_nat keep) hist = take (Z.to_nat keep) prompt).
  { replace (Z.to_nat keep) with (Z.to_nat keep `min` common)%nat by lia. by rewrite <- !take_take, Hcp. }
  clearbody keep extend. apply bind_Ret_tm in Hr as (plan & w1 & Hp & Hr).
  assert (Hw1 : wh w1 = hist).
  { destruct (_ && (0 <? keep)); [|by injection Hp as _ <-]. apply on_engine_run in Hp. exact (plan_rollback_same _ _ _ _ _ Hp). }
  assert (Hreset : forall w2, tm_update reset_context w1 = (Ret tt, w2) -> wh w2 = []) by (intros w2 H2; by rewrite (update_run _ _ _ _ H2)).
  destruct (cold_wins _ _ _).
  { apply bind_Ret_tm in Hr as ([] & w2 & H2 & [= <- <-]). cbn. rewrite (Hreset _ H2). split; [unfold len_Z; lia|done]. }
  destruct extend.
  { injection Hr as <- <-. cbn [fst]. destruct (Hext eq_refl) as [-> Hb]. by rewrite Hw1. }
  destruct (_ && (plan_steps plan <? keep)).
  { apply bind_Ret_tm in Hr as (rb & w2 & H2 & [= <- <-]). cbn [fst]. apply on_engine_run, rollback_history in H2; [|unfold short in *; by rewrite Hw1].
    rewrite H2, Hw1, Hkeepw. unfold len_Z. split; [lia|done]. }
  destruct (negb (len_Z hist =? 0)) eqn:E.
  { apply bind_Ret_tm in Hr as ([] & w2 & H2 & [= <- <-]). cbn. rewrite (Hreset _ H2). split; [unfold len_Z; lia|done]. }
  injection Hr as <- <-. cbn. apply negb_false_iff, Z.eqb_eq in E. rewrite Hw1. split; [unfold len_Z; lia|]. by apply nil_length_inv; unfold len_Z in E; lia.
Qed.

Lemma cached_history req (w : World) r w' : cached_prompt c o env opt req w = (Ret r, w') ->
  match r with Some _ => wh w' = gr_prompt_ids req | None => wh w' = wh w \/ wh w' = [] end.
Proof.
  unfold cached_prompt. destruct (negb _); [intros [= <- <-]; by left|]. intros Hr. apply bind_Ret_tm in Hr as (r1 & w1 & H1 & Hr).
  apply on_engine_run, reuse_history in H1. destruct r1; [injection Hr as <- <-; by destruct H1|].
  apply bind_Ret_tm in Hr as (d & w2 & H2 & Hr). apply attempt_Ret in H2. apply restore_run in H2 as (d0 & d1 & H2). destruct d as [r2|err].
  - injection Hr as <- <-. apply restore_baked_history in H2. destruct r2; [by destruct H2|]. left. congruence.
  - apply bind_Ret_tm in Hr as ([] & w3 & H3 & [= <- <-]). right. by rewrite (update_run _ _ _ _ H3).
Qed.

Lemma poll_engine req (w : World) r w' : poll req w = (r, w') -> wo_engine w' = wo_engine w.
Proof. unfold poll. destruct (gr_cancel req); by intros [= _ <-]. Qed.
Lemma poll_cases req (w : World) r w' : poll req w = (r, w') -> wo_engine w' = wo_engine w /\ exists b, r = Ret b /\ (b = true -> exists f n, gr_cancel req = Some f /\ f n = true).
Proof.
  intros Hp. split; [exact (poll_engine _ _ _ _ Hp)|]. revert Hp. unfold poll. destruct (gr_cancel req) as [f|]; intros [= <- _].
  - exists (f (wo_polls w)). split; [done|]. intros Ht. by exists f, (wo_polls w).
  - by exists false.
Qed.

(** ** The prefill *)

Lemma feed_chunks_history fuel req suffix at_ first (w : World) x w' pre : wshort w -> len_Z suffix < 2 ^ 32 -> 0 <= at_ <= len_Z suffix ->
  len_Z suffix - at_ < Z.of_nat fuel -> wh w = pre ++ take (Z.to_nat at_) suffix -> feed_chunks c opt fuel req suffix at_ first w = (Ret x, w') ->
  wshort w' /\ 0 <= x.1 <= len_Z suffix /\ wh w' = pre ++ take (Z.to_nat x.1) suffix /\ (x.2 <> None -> x.1 = len_Z suffix).
Proof.
  revert at_ first w. induction fuel as [|fuel IH]; intros at_ first w Hs Hlen Hat Hf Hw Hr; [lia|]. cbn [feed_chunks] in Hr.
  assert (Hu : u32 (len_Z suffix) = len_Z suffix) by (apply Z.mod_small; unfold len_Z in *; lia). rewrite Hu in Hr.
  destruct (Z.leb_spec (len_Z suffix) at_); [injection Hr as <- <-; cbn; split_and!; try done; lia|].
  apply bind_Ret_tm in Hr as (stop & w1 & Hp & Hr). apply poll_engine in Hp. destruct stop; [injection Hr as <- <-; cbn; rewrite Hp; split_and!; [done|lia|lia|done|done]|].
  set (n := Z.min (Z.max 1 (so_progress_every opt)) (len_Z suffix - at_)) in Hr. assert (Hn : 1 <= n <= len_Z suffix - at_) by lia. clearbody n.
  apply bind_Ret_tm in Hr as (r & w2 & H2 & Hr). apply on_engine_run, feed_history in H2 as [H2 Hfit]; [|by rewrite Hp]. rewrite Hp in H2.
  apply IH in Hr; [done|by apply fits_short|done|lia|lia|]. rewrite H2, Hw, <- app_assoc. f_equal. unfold subspan.
  rewrite Z2Nat.inj_add by lia. apply take_take_drop.
Qed.
Lemma prefill_history req reuse (w : World) x w' : wshort w -> len_Z (gr_prompt_ids req) < 2 ^ 32 -> 0 <= reuse <= len_Z (gr_prompt_ids req) ->
  wh w = take (Z.to_nat reuse) (gr_prompt_ids req) -> prefill c std_exp std_log opt req reuse w = (Ret x, w') ->
  wshort w' /\ 0 <= x.1.2 <= len_Z (gr_prompt_ids req) - reuse /\ wh w' = take (Z.to_nat (reuse + x.1.2)) (gr_prompt_ids req) /\
  (x.2 <> None -> x.1.2 = len_Z (gr_prompt_ids req) - reuse).
Proof.
  intros Hs Hlen Hre Hw Hr. set (prompt := gr_prompt_ids req) in *. set (suffix := drop (Z.to_nat reuse) prompt).
  assert (Hsl : len_Z suffix = len_Z prompt - reuse) by (unfold suffix, len_Z in *; rewrite length_drop; lia).
  assert (Hu : u32 (len_Z suffix) = len_Z suffix) by (apply Z.mod_small; unfold len_Z in *; lia).
  unfold prefill in Hr. fold prompt suffix in Hr. apply bind_Ret_tm in Hr as (gpu & w1 & Hg & Hr).
  assert (Hw1 : if gpu is Some _ then reuse = 0 /\ wh w1 = prompt /\ wshort w1 else wh w1 = take (Z.to_nat reuse) prompt /\ wshort w1).
  { destruct ((reuse =? 0) && _ && _) eqn:Eg; [|by injection Hg as <- <-]. apply andb_true_iff in Eg as [[Er%Z.eqb_eq _]%andb_true_iff _].
    apply bind_Ret_tm in Hg as (r & w2 & H2 & Hg). apply attempt_Ret, on_engine_run in H2. destruct r as [first|err].
    - injection Hg as <- <-. apply gpu_prefill_history in H2 as [H2 Hfit]. split_and!; [done| |]; unfold suffix in *; rewrite Er in *; [done|].
      apply fits_short. by rewrite H2.
    - apply bind_Ret_tm in Hg as ([] & w3 & H3 & [= <- <-]). rewrite (update_run _ _ _ _ H3), Er. by split; [|unfold short, len_Z; cbn; lia]. }
  destruct gpu as [first|].
  - injection Hr as <- <-. destruct Hw1 as (-> & Hw1 & Hs1). cbn [fst snd]. rewrite Hu, Hsl. split_and!; [done|lia|lia| |lia].
    rewrite Hw1. symmetry. apply take_ge. unfold len_Z. lia.
  - destruct Hw1 as [Hw1 Hs1]. apply bind_Ret_tm in Hr as ([at_ first] & w2 & H2 & Hr). injection Hr as <- <-.
    apply feed_chunks_history with (pre := take (Z.to_nat reuse) prompt) in H2; [|done|lia|unfold len_Z; lia|unfold len_Z; lia|by rewrite app_nil_r].
    destruct H2 as (Hs2 & Hb & Hw2 & Hfull). cbn [fst snd] in *.
    assert (Hat : (if first is None then at_ else u32 (len_Z suffix)) = at_) by (destruct first; [rewrite Hu; symmetry; by apply Hfull|done]).
    rewrite Hat, <- Hsl. split_and!; [done|lia|lia| |done]. rewrite Hw2, Z2Nat.inj_add by lia. unfold suffix. apply take_take_drop.
Qed.

Lemma account_generated r s : gs_generated (account_sample r s) = gs_generated s /\ gs_finish (account_sample r s) = gs_finish s.
Proof. unfold account_sample. by destruct (negb _). Qed.

(** ** [turn_prepare] *)

Definition prepared (req : GenerateRequest) (ts : TurnState) (w : World) : Prop :=
  wshort w /\ ts_events ts = [] /\ gs_generated (ts_st ts) = 0 /\
  if ts_live ts then wh w = gr_prompt_ids req
  else gs_finish (ts_st ts) = FinCancel /\ wh w = take (Z.to_nat (gs_reused_tokens (ts_st ts) + gs_prefilled_tokens (ts_st ts))) (gr_prompt_ids req).

Lemma turn_prepare_history req (w : World) ts w' : wshort w -> turn_prepare c std_exp std_log tok o env opt req w = (Ret ts, w') -> prepared req ts w'.
Proof.
  intros Hs Hr. set (prompt := gr_prompt_ids req). apply bind_Ret_tm in Hr as ([] & ? & [= Hne <-] & Hr). apply fail_if_Ret, bool_decide_eq_false in Hne.
  apply bind_Ret_tm in Hr as ([] & ? & [= _ <-] & Hr). apply bind_Ret_tm in Hr as (e0 & ? & [= <- <-] & Hr).
  apply bind_Ret_tm in Hr as ([] & ? & [= Hg <-] & Hr). apply fail_if_Ret, Z.leb_gt in Hg. cbv zeta in Hr. fold prompt in Hne, Hg, Hr.
  pose proof (context_fits (wo_engine w)). assert (Hlen : len_Z prompt < 2 ^ 32) by (unfold kMaxIndexPositions in *; lia).
  assert (Hu : u32 (len_Z prompt) = len_Z prompt) by (apply Z.mod_small; unfold len_Z in *; lia).
  apply bind_Ret_tm in Hr as (cached & w1 & H1 & Hr). apply cached_history in H1. fold prompt in H1.
  apply bind_Ret_tm in Hr as ([[reuse dropped] steps] & w2 & H2 & Hr). apply bind_Ret_tm in Hr as ([] & w3 & H3 & Hr).
  assert (Hw3 : wh w3 = wh w2) by (by rewrite (update_run _ _ _ _ H3)).
  assert (Hstart : wshort w3 /\ 0 <= reuse <= len_Z prompt /\ wh w3 = take (Z.to_nat reuse) prompt /\ (cached <> None -> reuse = len_Z prompt)).
  { unfold short. rewrite Hw3. destruct cached as [f|].
    - injection H2 as <- _ _ <-. rewrite Hu, H1. split_and!; [lia|unfold len_Z; lia|lia| |done]. symmetry. apply take_ge. unfold len_Z. lia.
    - apply choose_reuse_history in H2; [|destruct H1 as [H1|H1]; unfold short; rewrite H1; [done|unfold len_Z; cbn; lia]|done|done]. cbn [fst] in H2. fold prompt in H2.
      destruct H2 as [Hb H2]. split_and!; [|lia|lia|done|done]. rewrite H2. unfold len_Z in *. rewrite length_take. lia. }
  clear H1 H2 H3 Hw3. destruct Hstart as (Hs3 & Hb & Hw3 & Hc). apply bind_Ret_tm in Hr as ([[mode fed] first] & w4 & H4 & Hr).
  assert (Hw4 : wshort w4 /\ wh w4 = take (Z.to_nat (reuse + fed)) prompt /\ (first <> None -> reuse + fed = len_Z prompt)).
  { destruct cached as [f|].
    - injection H4 as _ <- <- <-. specialize (Hc ltac:(done)). rewrite Hc, Z.sub_diag. change (u32 0) with 0. rewrite Z.add_0_r, <- Hc. by split_and!.
    - apply prefill_history in H4; [|done..]. destruct H4 as (Hs4 & Hf & Hw4 & Hfull). cbn [fst snd] in *. fold prompt in Hf, Hw4, Hfull. split_and!; [done..|]. intros Hn. specialize (Hfull Hn). lia. }
  destruct Hw4 as (Hs4 & Hw4 & Hfull). destruct first as [f|].
  - apply bind_Ret_tm in Hr as (x & w5 & H5 & Hr). apply attempt_Ret, on_engine_run, retain_same in H5.
    apply bind_Ret_tm in Hr as (y & w6 & H6 & Hr). injection Hr as <- <-.
    assert (H7 : wo_engine w6 = wo_engine w5).
    { destruct cached; [by injection H6 as _ <-|]. apply attempt_Ret in H6. revert H6. unfold bake. destruct (bake_prompt _ _ _ _ _). by intros [= _ <-]. }
    unfold prepared. cbn [ts_live ts_events ts_st]. unfold short. rewrite H7, H5. split_and!; [done|done|by rewrite (proj1 (account_generated _ _))|].
    rewrite Hw4, Hfull by done. apply take_ge. unfold len_Z, prompt. lia.
  - apply bind_Ret_tm in Hr as (e1 & ? & [= <- <-] & [= <- <-]). unfold prepared. by split_and!.
Qed.

(** ** Emitting *)

Definition ids (ts : TurnState) : list Z := te_id <$> ts_events ts.
(** Why a turn is over. *)
Definition ended (req : GenerateRequest) (ts : TurnState) (w : World) : Prop :=
  match gs_finish (ts_st ts) with
  | FinStop => ts_emitted_token ts ∈ gr_stop_ids req
  | FinLength => ts_emitted_token ts ∉ gr_stop_ids req /\ gr_max_tokens req <= gs_generated (ts_st ts)
  | FinContext => max_context (wo_engine w) <= context_length (wo_engine w) + 1
  | FinCancel => exists f n, gr_cancel req = Some f /\ f n = true
  end.
(** After a token: the context and it are the prompt and all the tokens, nothing before it
    stopped the turn, and neither did it while more are wanted. *)
Record emitted (req : GenerateRequest) (ts : TurnState) (more : bool) (w : World) : Prop := {
  em_short : wshort w;
  em_count : gs_generated (ts_st ts) = len_Z (ids ts) /\ 1 <= len_Z (ids ts) <= Z.max 1 (gr_max_tokens req);
  em_hist : wh w ++ [ts_emitted_token ts] = gr_prompt_ids req ++ ids ts;
  em_stops : forall i id, ids ts !! i = Some id -> more = true \/ (S i < length (ids ts))%nat -> id ∉ gr_stop_ids req;
  em_end : if more then gs_generated (ts_st ts) < gr_max_tokens req else ended req ts w }.

Lemma turn_emit_run req burst ts (w : World) r w' : 0 <= gs_generated (ts_st ts) < 2 ^ 32 - 1 -> turn_emit tok req burst ts w = (r, w') ->
  let id := dr_token (ts_cur ts) in let n := gs_generated (ts_st ts) + 1 in
  wo_engine w' = wo_engine w /\ exists ts' more, r = Ret (ts', more) /\
  ids ts' = ids ts ++ [id] /\ gs_generated (ts_st ts') = n /\ ts_emitted_token ts' = id /\ ts_live ts' = ts_live ts /\
  (if more then id ∉ gr_stop_ids req /\ n < gr_max_tokens req else ended req ts' w') /\
  (burst = true -> id ∉ gr_stop_ids req -> n < gr_max_tokens req -> more = true).
Proof.
  intros Hg Hr id n. assert (Hn : u32 (gs_generated (ts_st ts) + 1) = n) by (apply Z.mod_small; lia). revert Hr. unfold turn_emit. fold id.
  destruct (stream_push tok true (ts_pending ts) id) as [txt pending].
  set (flushed := if bool_decide (id ∈ gr_stop_ids req) then _ else _). destruct flushed as [txt' pending']. cbn zeta.
  set (st := _ <| gs_generated ::= _ |>). assert (Hst : gs_generated st = n) by exact Hn.
  set (ts0 := mkTurn _ _ _ _ _ _). assert (Hi : ids ts0 = ids ts ++ [id]) by (unfold ids; cbn [ts0 ts_events]; by rewrite fmap_app).
  assert (Hends : forall f w1, (match f with
      | FinStop => id ∈ gr_stop_ids req | FinLength => id ∉ gr_stop_ids req /\ gr_max_tokens req <= n
      | FinContext => max_context (wo_engine w1) <= context_length (wo_engine w1) + 1
      | FinCancel => exists f n, gr_cancel req = Some f /\ f n = true end) -> ended req (ts0 <| ts_st := st <| gs_finish := f |> |>) w1).
  { intros f w1 Hf. unfold ended. cbn [ts_st gs_finish ts_emitted_token gs_generated]. destruct f; try exact Hf. unfold ts0, st in *. cbn. cbn in Hst. rewrite Hst. exact Hf. }
  case_bool_decide as Hstop.
  { intros [= <- <-]. split; [done|]. eexists _, false. split_and!; try done; by apply Hends. }
  rewrite Hst. destruct (Z.leb_spec (gr_max_tokens req) n).
  { intros [= <- <-]. split; [done|]. eexists _, false. split_and!; try done; first [by apply Hends|lia]. }
  intros Hr. unfold mbind, TM_bind, tm_engine in Hr. destruct (negb burst && _) eqn:Ec.
  { apply andb_true_iff in Ec as [Hb%negb_true_iff Hc%Z.leb_le]. injection Hr as <- <-. split; [done|]. eexists _, false. split_and!; try done; first [by apply Hends|by rewrite Hb]. }
  destruct burst.
  { injection Hr as <- <-. split; [done|]. exists ts0, true. split_and!; done. }
  destruct (poll req w) as [p w1] eqn:Ep. apply poll_cases in Ep as (He & b & -> & Hb). destruct b; injection Hr as <- <-; (split; [done|]).
  - eexists _, false. split_and!; try done; apply Hends; by apply Hb.
  - exists ts0, true. by split_and!.
Qed.
Lemma ended_engine req ts (w w' : World) : wo_engine w' = wo_engine w -> ended req ts w -> ended req ts w'.
Proof. unfold ended. by intros ->. Qed.

(** One token, after a step that left it the next of the prompt and the tokens. *)
Lemma emit_one req burst ts (w : World) r w' : wshort w -> gr_max_tokens req < 2 ^ 32 ->
  gs_generated (ts_st ts) = len_Z (ids ts) -> len_Z (ids ts) < Z.max 1 (gr_max_tokens req) ->
  (forall i id, ids ts !! i = Some id -> id ∉ gr_stop_ids req) ->
  wh w = gr_prompt_ids req ++ ids ts ->
  turn_emit tok req burst ts w = (r, w') ->
  exists ts' more, r = Ret (ts', more) /\ emitted req ts' more w' /\ ts_live ts' = ts_live ts /\ gs_generated (ts_st ts') = gs_generated (ts_st ts) + 1.
Proof.
  intros Hs Hmax Hg Hlt Hst Hh Hr. apply turn_emit_run in Hr; [|unfold len_Z in *; lia].
  destruct Hr as (He & ts' & more & -> & Hi & Hg' & Het & Hl & Hend & _). exists ts', more. split_and!; try done. split.
  - by rewrite He.
  - rewrite Hg', Hg, Hi. unfold len_Z in *. rewrite length_app. cbn [length]. lia.
  - rewrite He, Hh, Hi, Het. by rewrite app_assoc.
  - intros i id Hid Hor. rewrite Hi in Hid, Hor. apply lookup_app_Some in Hid as [Hid|[Hge Hid]]; [by apply (Hst i)|].
    apply list_lookup_singleton_Some in Hid as [Hz <-]. destruct Hor as [->|Hc]; [by destruct Hend|]. rewrite length_app in Hc. cbn in Hc. lia.
  - rewrite Hg'. destruct more; [by destruct Hend|done].
Qed.

(** The rows of a speculative step: [rows] are still to come, and the step has already put all
    but the last of them in the context. *)
Lemma emit_rows_inv req rows ts (w : World) r w' : wshort w -> gr_max_tokens req < 2 ^ 32 -> rows <> [] ->
  gs_generated (ts_st ts) = len_Z (ids ts) -> len_Z (ids ts) + len_Z rows <= gr_max_tokens req ->
  (forall i id, ids ts !! i = Some id -> id ∉ gr_stop_ids req) ->
  (forall i r, rows !! i = Some r -> (S i < length rows)%nat -> dr_token r ∉ gr_stop_ids req) ->
  wh w = gr_prompt_ids req ++ ids ts ++ take (length rows - 1) (dr_token <$> rows) ->
  emit_rows tok req rows ts true w = (r, w') ->
  exists ts' more, r = Ret (ts', more) /\ emitted req ts' more w' /\ ts_live ts' = ts_live ts /\ gs_generated (ts_st ts) < gs_generated (ts_st ts').
Proof.
  revert ts w. induction rows as [|x rows IH]; intros ts w Hs Hmax Hne Hg Hlen Hst Hrows Hh Hr; [done|]. clear Hne.
  cbn [emit_rows] in Hr. set (ts1 := turn_account x ts) in Hr.
  assert (Hg1 : gs_generated (ts_st ts1) = len_Z (ids ts1) /\ ids ts1 = ids ts).
  { split; [|done]. unfold ts1, turn_account. cbn. by rewrite (proj1 (account_generated _ _)). }
  destruct Hg1 as [Hg1 Hi1]. assert (Hcur : dr_token (ts_cur ts1) = dr_token x) by done. assert (Hl1 : ts_live ts1 = ts_live ts) by done. clearbody ts1.
  unfold len_Z in Hlen. cbn [length] in Hlen. destruct rows as [|y rows].
  - cbn in Hh. rewrite app_nil_r in Hh. unfold mbind, TM_bind in Hr. destruct (turn_emit _ _ _ _ _) as [r1 w1] eqn:E.
    apply emit_one in E; [|done|done|done|rewrite Hi1; unfold len_Z; cbn in Hlen; lia|by rewrite Hi1|by rewrite Hi1].
    destruct E as (ts' & more & -> & Hem & Hl & Hgn). cbn in Hr.
    assert (Hr' : (Ret (ts', more), w1) = (r, w')) by by destruct more. injection Hr' as <- <-.
    exists ts', more. split_and!; [done|done|congruence|]. rewrite Hgn, Hg1, Hi1. unfold len_Z in *. lia.
  - rewrite bool_decide_eq_false_2 in Hr by done. cbn [negb] in Hr. unfold mbind, TM_bind in Hr. destruct (turn_emit _ _ _ _ _) as [r1 w1] eqn:E.
    apply turn_emit_run in E; [|rewrite Hg1, Hi1; unfold len_Z in *; cbn in Hlen; lia]. rewrite Hcur, Hg1, Hi1 in E.
    destruct E as (He & ts' & more & -> & Hi & Hg' & Het & Hl & Hend & Hmore).
    assert (Hns : dr_token x ∉ gr_stop_ids req) by (apply (Hrows 0%nat x); [done|cbn; lia]).
    rewrite Hmore in Hr by (try done; unfold len_Z; cbn in Hlen; lia). cbv beta iota in Hr.
    apply IH in Hr; [|by rewrite He|done|done| | | | |].
    + destruct Hr as (ts2 & more2 & -> & Hem & Hl2 & Hlt). exists ts2, more2. split_and!; [done|done|congruence|]. unfold len_Z in *. lia.
    + rewrite Hg', Hi. unfold len_Z. rewrite length_app. cbn. lia.
    + rewrite Hi. unfold len_Z. rewrite length_app. cbn in *. lia.
    + intros i id Hid. rewrite Hi in Hid. apply lookup_app_Some in Hid as [Hid|[_ Hid]]; [by apply (Hst i)|].
      by apply list_lookup_singleton_Some in Hid as [_ <-].
    + intros i z Hz Hlt. apply (Hrows (S i) z Hz). cbn in *. lia.
    + rewrite He, Hh, Hi. rewrite <- app_assoc. f_equal. cbn [length]. by rewrite !Nat.sub_succ, !Nat.sub_0_r.
Qed.

(** ** The loop *)

Lemma turn_step_inv spec req ts (w : World) r w' : gr_max_tokens req < 2 ^ 32 -> emitted req ts true w -> turn_step c tok spec req ts w = (r, w') ->
  match r with
  | Ret (ts', more) => emitted req ts' more w' /\ ts_live ts' = ts_live ts /\ gs_generated (ts_st ts) < gs_generated (ts_st ts')
  | Fail _ => True
  end.
Proof.
  intros Hmax [Hs [Hg Hb] Hh Hst Hlt] Hr. destruct r as [[ts' more]|]; [|done]. unfold turn_step in Hr. destruct spec.
  - apply bind_Ret_tm in Hr as (rows & w1 & H1 & Hr). apply on_engine_run in H1.
    assert (Hu : u32 (gr_max_tokens req - gs_generated (ts_st ts)) = gr_max_tokens req - gs_generated (ts_st ts)) by (apply Z.mod_small; lia).
    rewrite Hu in H1. apply speculation_ok in H1; [|done|lia]. destruct H1 as (Hne & Hle & Hfit & Hh1 & Hns).
    apply emit_rows_inv in Hr; [|by apply fits_short|done|done|done|lia|intros i id Hid; apply (Hst i id Hid); by left|done|].
    + destruct Hr as (ts2 & more2 & [= <- <-] & Hr). exact Hr.
    + rewrite Hh1. rewrite cons_middle, app_assoc, Hh. by rewrite <- app_assoc.
  - apply bind_Ret_tm in Hr as (x & w1 & H1 & Hr). apply on_engine_run, feed_history in H1 as [Hh1 Hfit]; [|done].
    set (ts1 := turn_account x ts) in Hr. assert (Hg1 : gs_generated (ts_st ts1) = gs_generated (ts_st ts)).
    { unfold ts1, turn_account. cbn. by rewrite (proj1 (account_generated _ _)). }
    assert (Hi1 : ids ts1 = ids ts) by done. apply emit_one in Hr; [|by apply fits_short|done|by rewrite Hg1, Hi1|rewrite Hi1; lia| |by rewrite Hi1, Hh1].
    + destruct Hr as (ts2 & more2 & [= <- <-] & Hem & Hl & Hgn). split_and!; [done|done|]. rewrite Hgn, Hg1. lia.
    + rewrite Hi1. intros i id Hid. apply (Hst i id Hid). by left.
Qed.
Lemma turn_loop_inv fuel spec req ts more (w : World) : gr_max_tokens req < 2 ^ 32 -> emitted req ts more w ->
  (more = true -> gr_max_tokens req - gs_generated (ts_st ts) <= Z.of_nat fuel) ->
  exists r w', turn_loop c tok fuel spec req ts more w = Some (r, w') /\
    match r with Ret ts' => emitted req ts' false w' /\ ts_live ts' = ts_live ts | Fail _ => True end.
Proof.
  revert ts more w. induction fuel as [|fuel IH]; intros ts [|] w Hmax Hem Hf.
  - pose proof (em_end _ _ _ _ Hem) as Hlt. cbn in Hlt. specialize (Hf eq_refl). lia.
  - by exists (Ret ts), w.
  - cbn [turn_loop negb]. destruct (turn_step c tok spec req ts w) as [[[ts' more]|x] w1] eqn:E; [|by exists (Fail x), w1].
    pose proof (turn_step_inv _ _ _ _ _ _ Hmax Hem E) as (Hem' & Hl & Hlt). specialize (Hf eq_refl).
    destruct (IH ts' more w1 Hmax Hem') as (r & w' & Hrun & Hr); [intros; lia|]. exists r, w'. split; [done|]. destruct r; [|done]. by rewrite <- Hl.
  - by exists (Ret ts), w.
Qed.

Lemma generate_inv spec req (w : World) : wshort w -> 0 <= gr_max_tokens req < 2 ^ 32 ->
  exists r w', generate c std_exp std_log tok o env opt spec req w = Some (r, w') /\
    match r with Ret ts => if ts_live ts then emitted req ts false w' else prepared req ts w' | Fail _ => True end.
Proof.
  intros Hs Hmax. unfold generate. destruct (turn_prepare c std_exp std_log tok o env opt req w) as [[ts|x] w1] eqn:E; [|by exists (Fail x), w1].
  apply turn_prepare_history in E; [|done]. destruct (ts_live ts) eqn:El; [|exists (Ret ts), w1; by rewrite El].
  cbn [negb]. destruct E as (Hs1 & Hev & Hgen & Hl). rewrite El in Hl. assert (Hi : ids ts = []) by (unfold ids; by rewrite Hev).
  destruct (turn_emit tok req false ts w1) as [r1 w2] eqn:E2.
  apply emit_one in E2; [|done|lia|by rewrite Hi|rewrite Hi; unfold len_Z; cbn; lia|by rewrite Hi|by rewrite Hi, app_nil_r].
  destruct E2 as (ts2 & more & -> & Hem & Hl2 & Hg2).
  destruct (turn_loop_inv (turn_fuel req) spec req ts2 more w2) as (r & w3 & -> & Hr); [lia|done|intros _; unfold turn_fuel; lia|].
  destruct r as [ts3|x]; [|by exists (Fail x), w3]. destruct Hr as [Hem3 Hl3]. eexists (Ret _), w3. split; [done|].
  change (ts_live (turn_finish _ _)) with (ts_live ts3). rewrite Hl3, Hl2, El. destruct Hem3 as [H1 H2 H3 H4 H5]. by split.
Qed.

(** C1: A turn leaves a context the next one can continue.  When it ends, the context is the
    prompt followed by every token emitted but the last, the count of generated tokens is the
    number of events and at most [max_tokens] (one, when none were asked for), no token before
    the last is a stop id, and the finish reason is true: a stop id, the limit, a full context
    or the request's cancel.  A cancel during the prefill leaves exactly the tokens reused and
    fed.  It holds plain and speculative, whatever the prompt shared with the context before. *)
Theorem turn_transcript spec req (w : World) ts w' : short (wo_engine w) -> 0 <= gr_max_tokens req < 2 ^ 32 ->
  generate c std_exp std_log tok o env opt spec req w = Some (Ret ts, w') ->
  let st := ts_st ts in let out := te_id <$> ts_events ts in
  if ts_live ts then
    wh w' = gr_prompt_ids req ++ take (length out - 1) out /\
    gs_generated st = len_Z out /\ 1 <= len_Z out <= Z.max 1 (gr_max_tokens req) /\
    (forall i id, out !! i = Some id -> (S i < length out)%nat -> id ∉ gr_stop_ids req) /\
    exists id, last out = Some id /\
      match gs_finish st with
      | FinStop => id ∈ gr_stop_ids req
      | FinLength => id ∉ gr_stop_ids req /\ gr_max_tokens req <= len_Z out
      | FinContext => max_context (wo_engine w') <= context_length (wo_engine w') + 1
      | FinCancel => exists f n, gr_cancel req = Some f /\ f n = true
      end
  else out = [] /\ gs_finish st = FinCancel /\ wh w' = take (Z.to_nat (gs_reused_tokens st + gs_prefilled_tokens st)) (gr_prompt_ids req).
Proof.
  intros Hs Hmax Hg. destruct (generate_inv spec req w Hs Hmax) as (r & w1 & Hg' & Hr). rewrite Hg in Hg'. injection Hg' as <- <-. cbv zeta. destruct (ts_live ts) eqn:El.
  - destruct Hr as [_ [Hgen Hb] Hh Hn Hend]. fold (ids ts). destruct (ids ts) as [|x l _] eqn:E using rev_ind; [unfold len_Z in Hb; cbn in Hb; lia|].
    rewrite app_assoc in Hh. apply app_inj_tail in Hh as [Hw Hx]. rewrite length_app. cbn [length].
    replace (length l + 1 - 1)%nat with (length l) by lia. rewrite take_app_length. split_and!; [done|done|lia|lia|intros i id Hi Hlt; apply (Hn i id Hi); right; rewrite length_app; exact Hlt|].
    exists x. rewrite last_snoc. split; [done|]. unfold ended in Hend. rewrite Hx, Hgen in Hend. exact Hend.
  - destruct Hr as (_ & Hev & _ & Hl). rewrite El in Hl. rewrite Hev. by destruct Hl.
Qed.

(** C25: Every turn ends: the generation loop emits a token a round, so [max_tokens] rounds are
    enough to come to an answer or an error. *)
Theorem turn_ends spec req (w : World) : short (wo_engine w) -> 0 <= gr_max_tokens req < 2 ^ 32 ->
  exists r w', generate c std_exp std_log tok o env opt spec req w = Some (r, w').
Proof. intros Hs Hmax. destruct (generate_inv spec req w Hs Hmax) as (r & w' & Hg & _). by exists r, w'. Qed.
End Turns.

(** ** An example: a device that counts *)

(** Every step answers the next number; two rows a speculative step, one before a stop. *)
#[export] Instance counter : Device nat := {|
  run_layers := fun _ t q h d k w => (Ret (DecodeStepResult_default <| dr_token := t + 1 |>), d, k, S w);
  run_prefill := fun prompt _ d w =>
    (Ret (mkPrefill prompt (default 0 (last prompt) + 1) 0 0 [] []), d, w);
  drafter_reset := fun w => w |}.
#[export] Instance counter_prefills : DevicePrefills nat.
Proof. by intros prompt n d w h d' w' [= <- _ _]. Qed.
#[export] Instance count_two : SpeculativeStep Z nat := fun root n stops e =>
  let row t := DecodeStepResult_default <| dr_token := t |> in
  let rows := if (n =? 1) || bool_decide (root + 1 ∈ stops) then [row (root + 1)] else [row (root + 1); row (root + 2)] in
  if (n =? 0) || (kMaxIndexPositions <? context_length e + 2) then (Fail FailedPrecondition, e)
  else (Ret rows, e <| en_history ::= fun h => h ++ root :: take (length rows - 1) (dr_token <$> rows) |>).
#[export] Instance count_two_ok : SpeculationOk Z nat.
Proof.
  intros root n stops e rows e' Hs Hn. unfold speculative_step, count_two. destruct (_ || (kMaxIndexPositions <? _)) eqn:Eg; [done|].
  apply orb_false_iff in Eg as [H0%Z.eqb_neq Hm%Z.ltb_ge]. unfold short in Hs. unfold context_length, u32 in Hm. rewrite Z.mod_small in Hm by (unfold len_Z in *; lia).
  assert (Hlen : forall l, (length l <= 1)%nat -> len_Z (en_history e ++ root :: l) <= kMaxIndexPositions) by (intros l Hl; unfold len_Z in *; rewrite length_app; cbn; lia).
  destruct ((n =? 1) || _) eqn:E1; intros [= <- <-].
  - split_and!; [done|unfold len_Z; cbn; lia|apply Hlen; cbn; lia|done|]. intros i r Hi Hlt. cbn in Hlt. lia.
  - apply orb_false_iff in E1 as [H1%Z.eqb_neq H2%bool_decide_eq_false]. split_and!; [done|unfold len_Z; cbn; lia|apply Hlen; cbn; lia|done|].
    intros [|i] r Hi Hlt; [|cbn in Hlt; lia]. by injection Hi as <-.
Qed.

Definition count_engine (h : list Z) : Engine Z nat :=
  mkEngine Z nat 0 KvStore_default 0%nat h draft_empty draft_empty [] (mkKvRowBackup 0 0 []) None
    {| sp_temperature := f64_zero; sp_top_p := f64_zero; sp_seed := 0 |} true true false.
Definition count_tok : Tokenizer :=
  Some {| vocab_size := 1000; str := []; bytes := []; flags := []; vocab := ∅; added := ∅; merges := ∅; byte_id := [];
          raw_trie := Trie_new; norm_trie := Trie_new |}.
Definition count_request (max : Z) (stops : list Z) : GenerateRequest :=
  {| gr_prompt_ids := [5; 6; 7]; gr_max_tokens := max; gr_sampling := {| sp_temperature := f64_zero; sp_top_p := f64_zero; sp_seed := 0 |};
     gr_stop_ids := stops; gr_reuse := true; gr_cancel := None |}.
Definition no_bake : BakedOptions :=
  {| bo_root := ""; bo_budget := 0; bo_identity := 0; bo_resident_off := true; bo_speculating := true; bo_streams := 1 |}.
Definition no_env : BakeEnv :=
  {| be_mkdir := true; be_open := true; be_write := true; be_partial := []; be_rename := true; be_now := 0; be_removable := fun _ => true |}.
Definition count_options : SessionOptions :=
  {| so_gpu_prefill_min := 0; so_gpu_prefill_speedup := f32_zero; so_replay := 128; so_progress_every := 2; so_rollback := true |}.
Definition layerless : TextConfig :=
  mkTextConfig EmptyString 0 0 0 0 0 0 64 0 0 0 0 EmptyString f64_zero f64_zero false f64_zero
    f64_zero false false 0 f64_zero RopeScaling_default 0 0 0 EmptyString EmptyString false f64_zero
    4 [] f64_zero [] [] 0 32 2 0 0 0 0 0 f64_zero [] [] 0 0 0 0 0 0 0 0 0 [] 0 0 0.
#[local] Abbreviation count_turn spec h max stops :=
  (generate layerless id id count_tok no_bake no_env count_options spec (count_request max stops) (mkWorld _ _ (count_engine h) ∅ 0%nat)).
Definition summary (r : option (Result TurnState * World Z nat)) : option (list Z * Finish * Z * list Z) :=
  match r with Some (Ret ts, w) => Some (te_id <$> ts_events ts, gs_finish (ts_st ts), gs_reused_tokens (ts_st ts), en_history (wo_engine w)) | _ => None end.

(** A speculative turn that continues a context of two tokens: what it emits, and that the
    context it leaves is what the theorem says. *)
Lemma count_turn_run : summary (count_turn true [5; 6] 5 [20]) = Some ([8; 9; 10; 11; 12], FinLength, 2, [5; 6; 7; 8; 9; 10; 11]).
Proof. vm_compute. reflexivity. Qed.
Lemma count_turn_live : match count_turn true [5; 6] 5 [20] with Some (Ret ts, _) => ts_live ts = true | _ => False end.
Proof. vm_compute. reflexivity. Qed.
Lemma turn_transcript_witness : exists ts w', count_turn true [5; 6] 5 [20] = Some (Ret ts, w') /\
  if ts_live ts then en_history (wo_engine w') = [5; 6; 7] ++ take (length (te_id <$> ts_events ts) - 1) (te_id <$> ts_events ts) else False.
Proof.
  pose proof (turn_transcript layerless id id count_tok no_bake no_env count_options true (count_request 5 [20])
    (mkWorld _ _ (count_engine [5; 6]) ∅ 0%nat)) as Ht.
  pose proof count_turn_live as Hl. destruct (generate _ _ _ _ _ _ _ _ _ _) as [[[ts|r] w']|]; [|done..].
  exists ts, w'. split; [reflexivity|]. specialize (Ht ts w' ltac:(vm_compute; reflexivity) ltac:(vm_compute; split; [discriminate|reflexivity]) eq_refl).
  cbv zeta in Ht. rewrite Hl in *. exact (proj1 Ht).
Defined.

Lemma turn_ends_witness : exists r w', count_turn false [5; 6; 9] 4 [10] = Some (r, w').
Proof.
  apply turn_ends; [vm_compute; reflexivity|vm_compute; split; [discriminate|reflexivity]].
Defined.
