(* ===== verification/EngineSpeculate.v ===== *)
(** The engine's speculative step ([Engine::speculative_step], [seed_draft], [forward_batch],
    [snapshot_batch_ring], [restore_batch_ring] and [sample_into] of [src/runtime/engine.cpp]):
    a draft, one verify batch over the root and the draft, the rows it accepts, and a rollback
    of everything the rejected rows wrote.

    The draft head and the batch on the device are the interface [Verifier]; what they read and
    write is threaded.  Clocks, traces, profiler counters, the opt-in diagnostics and the
    copies of logits kept for scoring are omitted. *)

From S2P Require Import Speculate Prelude Types Floats Dequant V41Config KvLayout KvStore Sampling EngineContext SessionReplay.

Definition kDsparkCaptureMask : Z := 7.
Definition kMgtMaxM : Z := kDsparkBlockSize + 1.
Definition kTopKHeaderWords : Z := 8.
Definition kTopKDefaultK : Z := 1024.

(** ** Data *)

Record RankOut := mkRank { ro_rows : Z; ro_better : Z; ro_error : Z; ro_token : Z }.
Record BatchRow := mkBatchRow { br_argmax : Z; br_top1 : Z; br_top2 : Z; br_rank : RankOut }.
Definition BatchRow_default : BatchRow := mkBatchRow 0 0 0 (mkRank 0 0 0 0).
(** What the compressor of a layer produced for each row, as bit patterns. *)
Record BatchCarry := mkBatchCarry { bc_layer : Z; bc_kv : list Z; bc_score : list Z }.
(** What a batch leaves for the host to read: the rows, the logits, a top-k record a row. *)
Record BatchOut := mkBatchOut { bo_rows : list BatchRow; bo_logits : list float; bo_topk : list (list Z); bo_carry : list BatchCarry }.

Record SpecOptions := mkSpecOptions {
  so_dspark : bool; so_stream : Z; so_streams : Z; so_max_draft : Z; so_accept_topk : Z; so_min_confidence : option float;
  so_trim_tail : bool; so_gpu_readout : bool; so_gpu_route : bool; so_resident_mask : bool; so_mask_wait : bool; so_check_topk : bool }.

(** The draft chain and the batched forward. *)
Class Verifier (W : Type) `{Device W} := {
  next_position : W -> Z;
  append_hidden : Z -> list Z -> W -> Result unit * W;
  draft_tokens : Z -> Z -> Z -> W -> Result (list Z * list float) * W;
  (** The attention candidates of a batch no longer stand. *)
  invalidate_candidates : W -> W;
  (** The rows the batch was built for, and building it; zero before. *)
  batch_cap : W -> Z;
  build_batch : Z -> W -> Result unit * W;
  run_batch : Z -> list Z -> list Z -> DraftWindow -> KvStore -> W -> Result BatchOut * DraftWindow * KvStore * W }.

(** ** Sampling from a row *)

Definition word (w : list Z) (i : Z) : Z := nth (Z.to_nat i) w 0.
Definition thread_cands (w : list Z) (t : Z) : list Cand :=
  let n := Z.min (word w (kTopKHeaderWords + t)) kTopKCapPerThread in
  let seg := kTopKHeaderWords + kTopKThreads + 2 * t * kTopKCapPerThread in
  (fun j => (f32_of_bits (word w (seg + 2 * j + 1)), word w (seg + 2 * j))) <$> upto n.
Definition topk_of_words (w : list Z) : TopKLogits :=
  let overflow := negb (word w 5 =? 0) in
  mkTopK (if overflow then [] else mjoin (thread_cands w <$> threads)) (f32_of_bits (word w 1))
    (f32_to_f64 (f32_of_bits (word w 2))) (word w 3) (word w 0) overflow.
Definition cand_keys (tk : TopKLogits) : list Z :=
  std_sort Z.ltb ((fun c => Z.lor (Z.shiftl c.2 32) (bits_of_f32 c.1)) <$> tk_cand tk).
(** [1e-4] *)
Definition kTailTolerance : float := Eval vm_compute in f64_div (f64_of_Z 1) (f64_of_Z (10 ^ 4)).
Definition topk_differs (emu tk : TopKLogits) : bool :=
  negb (f_eqb (tk_max_logit emu) (tk_max_logit tk)) || negb (tk_bin emu =? tk_bin tk) ||
  negb (Bool.eqb (tk_overflow emu) (tk_overflow tk)) ||
  (negb (tk_overflow tk) && negb (bool_decide (cand_keys emu = cand_keys tk))) ||
  f_gtb (f_abs (f64_sub (tk_tail emu) (tk_tail tk))) (f64_mul kTailTolerance (f_max f64_one (tk_tail emu))).
(** The probability of a token of the nucleus. *)
Definition nucleus_p (nuc : Nucleus) (t : Z) : option Z :=
  (fun x => bits_of_f64 x.2.2) <$> list_find (fun ip => ip.1 = t) (zip (nu_ids nuc) (nu_p nuc)).

Section Speculate_.
Context {A W : Type} `{MemoryAllocator A, Verifier W}.
Context (c : TextConfig) (std_exp std_log : float -> float) (o : SpecOptions).
#[local] Abbreviation Engine := (Engine A W).
#[local] Abbreviation EM := (EM (A:=A) (W:=W)).

Definition sample_into (p : SamplingParams) (position : Z) (w : list Z) (full : list float) (r : DecodeStepResult) : Result DecodeStepResult :=
  _ ← fail_if (negb (word w 0 =? tc_vocab_size c) || negb (word w 4 =? kTopKCapPerThread) || negb (word w 6 =? kTopKBins)) Internal;
  let tk := topk_of_words w in
  let nuc := nucleus_from_topk std_exp std_log tk (sp_temperature p) (sp_top_p p) in
  let r := r <| dr_candidates := u32 (len_Z (tk_cand tk)) |> in
  let r := if so_check_topk o
           then (r <| dr_topk_checked := true |>)
                  <| dr_topk_mismatch := topk_differs (emulate_topk std_exp full kTopKDefaultK (sp_temperature p)) tk |>
           else r in
  let '(nuc, r) := if nu_exact nuc then (nuc, r)
                   else (nucleus_from_full std_exp std_log full (sp_temperature p) (sp_top_p p), r <| dr_topk_fallback := true |>) in
  _ ← fail_if (bool_decide (nu_ids nuc = [])) Internal;
  let t := sample_nucleus nuc (uniform01 (sp_seed p) (position + 1)) in
  Ret ((((((r <| dr_token := t |>) <| dr_sampled := true |>) <| dr_nucleus_size := u32 (len_Z (nu_ids nuc)) |>)
         <| dr_retained := bits_of_f64 (nu_retained nuc) |>) <| dr_kept := bits_of_f64 (nu_kept nuc) |>)
       <| dr_p_token ::= fun p => default p (nucleus_p nuc t) |>).
(** Without the top-k record: from the whole row. *)
Definition sample_full (p : SamplingParams) (position : Z) (full : list float) (r : DecodeStepResult) : DecodeStepResult :=
  let nuc := nucleus_from_full std_exp std_log full (sp_temperature p) (sp_top_p p) in
  let t := sample_nucleus nuc (uniform01 (sp_seed p) (position + 1)) in
  ((((r <| dr_token := t |>) <| dr_sampled := true |>) <| dr_topk_fallback := true |>) <| dr_nucleus_size := u32 (len_Z (nu_ids nuc)) |>)
  <| dr_p_token ::= fun p => default p (nucleus_p nuc t) |>.

(** ** The draft *)

(** An operation of the device that only changes the device. *)
Definition on_device {T} (m : W -> Result T * W) : EM T := fun e =>
  let '(r, w) := m (en_device e) in (r, e <| en_device := w |>).

Definition draft_slot (p : Z) : nat := Z.to_nat (p mod kSlidingWindow).
Definition hidden_row (d : DraftWindow) (s : nat) : list Z :=
  subspan (dw_hidden d) (s * Z.to_nat kDsparkCaptureWidth) (Z.to_nat kDsparkCaptureWidth).
(** The captured means of positions [[first, first + n)]. *)
Definition hidden_rows (d : DraftWindow) (first n : Z) : list Z :=
  mjoin ((fun i => hidden_row d (draft_slot (first + i))) <$> upto n).
Definition captured (d : DraftWindow) (p : Z) : bool :=
  (nth (draft_slot p) (dw_position d) (-1) =? p) && (nth (draft_slot p) (dw_mask d) 0 =? kDsparkCaptureMask).

Definition seed_draft (pos : Z) : EM unit :=
  e ← em_get;
  if next_position (en_device e) =? u32 (pos + 1) then mret tt
  else
    let first := if kSlidingWindow - 1 <=? pos then pos - (kSlidingWindow - 1) else 0 in
    let n := pos - first + 1 in
    _ ← em_guard (existsb (fun i => negb (captured (en_draft e) (first + i))) (upto n)) FailedPrecondition;
    on_device (fun w => append_hidden first (hidden_rows (en_draft e) first n) (drafter_reset w)).

(** The tokens to verify after the root. *)
Definition propose (p0 root k : Z) : EM (list Z) :=
  if k =? 0 then mret []
  else
    '(tokens, confidence) ← on_device (draft_tokens (p0 - 1) root (if so_trim_tail o then k else kDsparkBlockSize));
    match so_min_confidence o with
    | None => mret (take (Z.to_nat k) tokens)
    | Some m =>
        k ← em_of (draft_prefix_from_confidence (take (Z.to_nat k) confidence) m);
        mret (take k tokens)
    end.

(** ** The verify batch *)

Definition init_batch (m_cap : Z) : EM unit :=
  e ← em_get;
  _ ← em_guard (negb (en_gpu_ready e)) FailedPrecondition;
  _ ← em_guard (negb (so_stream o =? 0)) FailedPrecondition;
  _ ← em_guard ((m_cap <? 1) || (kMgtMaxM <? m_cap)) InvalidArgument;
  if negb (batch_cap (en_device e) =? 0)
  then em_guard (batch_cap (en_device e) <? m_cap) FailedPrecondition
  else on_device (build_batch m_cap).

(** The history with the batch's tokens at [p0]. *)
Definition record_tokens (p0 : Z) (tokens h : list Z) : list Z :=
  overlay (Z.to_nat p0) tokens (h ++ replicate (Z.to_nat p0 + length tokens - length h) 0).
Definition forward_batch (p0 : Z) (tokens : list Z) : EM BatchOut :=
  let m := len_Z tokens in
  _ ← em_guard (so_mask_wait o) FailedPrecondition;
  e ← em_get;
  _ ← em_guard (negb (en_gpu_ready e)) FailedPrecondition;
  _ ← em_guard ((m =? 0) || (kMgtMaxM <? m)) InvalidArgument;
  _ ← em_guard (negb (en_produce_ced e)) FailedPrecondition;
  _ ← em_guard (so_gpu_route o && (1 <? so_streams o)) FailedPrecondition;
  _ ← init_batch (Z.max m (batch_cap (en_device e)));
  _ ← em_guard (max_context e <? p0 + m) ResourceExhausted;
  _ ← em_guard (so_gpu_route o && negb (so_resident_mask o)) FailedPrecondition;
  _ ← em_update (fun e => e <| en_history ::= record_tokens p0 tokens |>);
  out ← (fun e => let '(r, d, k, w) := run_batch p0 tokens (en_history e) (en_draft e) (en_kvs e) (en_device e) in
                  (r, ((e <| en_draft := d |>) <| en_kvs := k |>) <| en_device := w |>));
  _ ← on_kvs (mark_ring_written p0 m);
  mret out.

(** ** What the batch may overwrite, saved and put back *)

Record BatchSnap := mkSnap { bs_ring : RingSnapshot; bs_p0 : Z; bs_m : Z }.
Definition snapshot_batch_ring (p0 m : Z) : EM BatchSnap :=
  _ ← em_guard ((m =? 0) || (kMgtMaxM <? m)) InvalidArgument;
  _ ← on_kvs (resolve_ring p0);
  e ← em_get;
  s ← em_of (snapshot_ring (en_kvs e) ((fun i => (p0 + i) mod tc_sliding_window c) <$> upto m) (upto (tc_num_hidden_layers c)));
  mret (mkSnap s p0 m).

(** The snapshot's slots from number [first] on. *)
Definition sub_ring (s : RingSnapshot) (first : nat) : RingSnapshot :=
  let row := Z.to_nat (rg_latent_dim s) in let srow := Z.to_nat (rg_latent_dim s / 32) in
  let m := length (rg_slot s) in
  let part (row : nat) (l : list Z) :=
    mjoin ((fun li => subspan l ((li * m + first) * row) ((m - first) * row)) <$> seq 0 (length (rg_layer s))) in
  mkRingSnapshot (rg_layer s) (drop first (rg_slot s)) (drop first (rg_position s)) (part row (rg_val s)) (part srow (rg_scale s)) (rg_latent_dim s).
Definition restore_batch_ring (b : BatchSnap) (p0 accepted m : Z) : EM unit :=
  _ ← em_guard ((bs_m b =? 0) || negb (bs_p0 b =? p0) || negb (bs_m b =? m)) FailedPrecondition;
  if m <=? accepted + 1 then mret tt
  else
    _ ← on_kvs (restore_ring (sub_ring (bs_ring b) (Z.to_nat (accepted + 1))));
    em_update (fun e => (e <| en_history ::= fun h => if p0 + accepted + 2 <? len_Z h then take (Z.to_nat (p0 + accepted + 2)) h else h |>)
                      <| en_device ::= invalidate_candidates |>).

(** The drafter's rows of [p0 + j], [j] from [lo] to [hi - 1], as they were. *)
Definition put_back (p0 lo hi : Z) (was d : DraftWindow) : DraftWindow :=
  foldl (fun d j =>
    let s := draft_slot (p0 + j) in
    mkDraft (overlay (s * Z.to_nat kDsparkCaptureWidth) (hidden_row was s) (dw_hidden d))
      (<[s := nth s (dw_position was) (-1)]> (dw_position d)) (<[s := nth s (dw_mask was) 0]> (dw_mask d)))
    d ((fun i => lo + i) <$> upto (hi - lo)).

(** The accepted rows' part of a layer's carried group. *)
Definition carry_row (ratio p0 : Z) (v : KvLayerView) (b : BatchCarry) (j : Z) : KM (A:=A) unit :=
  let d := Z.to_nat (tc_head_dim c) in
  let at_ := 4 * ((p0 + j) mod ratio * tc_head_dim c) in
  let put (p : option HostPtr) (l : list Z) :=
    write_opt ((fun p => ptr_add p at_) <$> p) (to_bytes 4 (subspan l (Z.to_nat j * d) d)) in
  _ ← put (v_state_kv_host v) (bc_kv b); put (v_state_score_host v) (bc_score b).
Definition put_carry (p0 n : Z) (b : BatchCarry) : KM (A:=A) unit :=
  v ← layer (bc_layer b);
  km_for (upto n) (carry_row (compress_ratio c (bc_layer b)) p0 v b).

(** ** Acceptance *)

(** How many drafts the device ranked within the top k, from number [j] on. *)
Fixpoint accept_ranks (draft : list Z) (rows : list BatchRow) (acc : nat) : Result nat :=
  match draft, rows with
  | d :: draft, r :: rows =>
      let rank := br_rank r in
      _ ← fail_if (negb (ro_rows rank =? tc_vocab_size c) || negb (ro_token rank =? d)) Internal;
      _ ← fail_if (negb (ro_error rank =? 0)) InvalidArgument;
      if so_accept_topk o <=? ro_better rank then Ret acc else accept_ranks draft rows (S acc)
  | _, _ => Ret acc
  end.
Definition accepted_drafts (draft : list Z) (out : BatchOut) : Result nat :=
  if so_gpu_readout o then accept_ranks draft (bo_rows out) 0
  else accept_topk_prefix draft (bo_logits out) (tc_vocab_size c) (so_accept_topk o).

Definition logit_row (out : BatchOut) (j : nat) : list float :=
  subspan (bo_logits out) (j * Z.to_nat (tc_vocab_size c)) (Z.to_nat (tc_vocab_size c)).
(** Row [j] of [a] accepted drafts: the draft's next token, or the model's own after the last. *)
Definition step_row (p : SamplingParams) (p0 : Z) (draft : list Z) (out : BatchOut) (a j : nat) : Result DecodeStepResult :=
  let row := nth j (bo_rows out) BatchRow_default in
  let position := p0 + Z.of_nat j in
  let token := if (j <? a)%nat then nth j draft 0 else br_argmax row in
  let r := mkStep token position (br_top1 row) (br_top2 row) (br_argmax row) false false false false 0 0 0 0 0 0 0 0 in
  if (j =? a)%nat && negb (greedy p)
  then if so_gpu_readout o then sample_into p position (nth j (bo_topk out) []) (logit_row out j) r
       else Ret (sample_full p position (logit_row out j) r)
  else Ret r.
(** Rows from [j] on, [n] of them, until one stops. *)
Fixpoint step_rows (p : SamplingParams) (p0 : Z) (draft : list Z) (out : BatchOut) (stops : list Z) (a j n : nat) : Result (list DecodeStepResult) :=
  match n with
  | O => Ret []
  | S n =>
      r ← step_row p p0 draft out a j;
      if bool_decide (dr_token r ∈ stops) then Ret [r]
      else rest ← step_rows p p0 draft out stops a (S j) n; Ret (r :: rest)
  end.

(** ** The step *)

(** A failure once the batch has run empties the context. *)
Definition or_reset {T} (m : EM T) : EM T := fun e => match m e with (Fail r, e) => (Fail r, reset_context e) | x => x end.

(** Undoes what the rows past [n] wrote and commits the first [n]. *)
Definition commit_rows (p0 n k : Z) (snap : BatchSnap) (was : DraftWindow) (carry : KvRowBackup) (out : BatchOut) : EM unit :=
  _ ← restore_batch_ring snap p0 (n - 1) (k + 1);
  _ ← em_update (fun e => e <| en_draft ::= put_back p0 n (k + 1) was |>);
  _ ← on_kvs (restore_carry carry);
  _ ← on_kvs (km_for (bo_carry out) (put_carry p0 n));
  _ ← em_update (fun e => e <| en_history ::= fun h => take (Z.to_nat (p0 + n)) h ++ replicate (Z.to_nat (p0 + n) - length h) 0 |>);
  _ ← on_kvs (resolve_ring (p0 + n));
  _ ← on_kvs (prepare_ced c (p0 + n - 1));
  e ← em_get;
  on_device (append_hidden p0 (hidden_rows (en_draft e) p0 n)).
Definition verify_rows (p0 root : Z) (draft : list Z) (stops : list Z) (snap : BatchSnap) (was : DraftWindow) (carry : KvRowBackup)
  : EM (list DecodeStepResult) :=
  out ← forward_batch p0 (root :: draft);
  a ← em_of (accepted_drafts draft out);
  e ← em_get;
  rows ← em_of (step_rows (en_sampling e) p0 draft out stops a 0 (S a));
  _ ← commit_rows p0 (len_Z rows) (len_Z draft) snap was carry out;
  mret rows.
Definition engine_speculative_step (root max_new : Z) (stops : list Z) : EM (list DecodeStepResult) :=
  e ← em_get;
  let p0 := context_length e in
  _ ← em_guard (negb (so_dspark o) || negb (en_produce_ced e) || negb (so_stream o =? 0) || (p0 =? 0) || (max_new =? 0)) FailedPrecondition;
  _ ← em_guard (max_context e <=? u32 (p0 + 1)) FailedPrecondition;
  let k := Z.min (Z.min (so_max_draft o) (max_new - 1)) (u32 (max_context e - p0 - 1)) in
  _ ← seed_draft (p0 - 1);
  draft ← propose p0 root k;
  _ ← init_batch (u32 (so_max_draft o + 1));
  snap ← snapshot_batch_ring p0 (len_Z draft + 1);
  e ← em_get;
  carry ← em_of (backup_rows (en_kvs e) p0 p0);
  or_reset (verify_rows p0 root draft stops snap (en_draft e) carry).
End Speculate_.
