(* ===== verification/EngineSpeculateProps.v ===== *)
(** What a speculative step leaves: the rows it answers, the context it commits, and that it
    keeps its promise to a turn. *)

From S2P Require Import Speculate SessionPool Prelude Types Floats Dequant V41Config KvPack KvLayout KvStore KvRows KvStoreProps KvInv KvContext KvRing ReplayRows ReplayProps Sampling SessionDisk EngineContext SessionReplay BakedPrompt SessionTurn TurnProps EngineSpeculate.

(** ** Acceptance *)

Lemma accept_topk_bound draft matrix vocab topk j acc a : accept_topk_from draft matrix vocab topk j acc = Ret a -> (acc <= a <= acc + length draft)%nat.
Proof.
  revert j acc. induction draft as [|d draft IH]; intros j acc Ha; cbn [accept_topk_from length] in *; [injection Ha as <-; lia|].
  apply bind_Ret in Ha as ([] & _ & Ha). apply bind_Ret in Ha as ([] & _ & Ha). apply bind_Ret in Ha as (b & _ & Ha).
  destruct (topk <=? b); [injection Ha as <-; lia|]. apply IH in Ha. lia.
Qed.

Section Rows.
Context (c : TextConfig) (std_exp std_log : float -> float) (o : SpecOptions).

Lemma accept_ranks_bound draft rows acc a : accept_ranks c o draft rows acc = Ret a -> (acc <= a <= acc + length draft)%nat.
Proof.
  revert rows acc. induction draft as [|d draft IH]; intros [|r rows] acc Ha; cbn [accept_ranks length] in *; try (injection Ha as <-; lia).
  apply bind_Ret in Ha as ([] & _ & Ha). apply bind_Ret in Ha as ([] & _ & Ha).
  destruct (so_accept_topk o <=? _); [injection Ha as <-; lia|]. apply IH in Ha. lia.
Qed.
Lemma accepted_bound draft out a : accepted_drafts c o draft out = Ret a -> (a <= length draft)%nat.
Proof.
  unfold accepted_drafts. destruct (so_gpu_readout o); intros Ha.
  - apply accept_ranks_bound in Ha. lia.
  - unfold accept_topk_prefix in Ha. apply bind_Ret in Ha as ([] & _ & Ha). apply accept_topk_bound in Ha. lia.
Qed.

Lemma step_row_token p p0 draft out a j r : step_row c std_exp std_log o p p0 draft out a j = Ret r -> (j < a)%nat -> dr_token r = nth j draft 0.
Proof.
  intros Hr Hj. unfold step_row in Hr. rewrite (proj2 (Nat.eqb_neq j a)) in Hr by lia. cbn [andb] in Hr.
  rewrite (proj2 (Nat.ltb_lt j a) Hj) in Hr. by injection Hr as <-.
Qed.
Lemma step_row_greedy p p0 draft out a r : greedy p = true -> step_row c std_exp std_log o p p0 draft out a a = Ret r ->
  dr_token r = br_argmax (nth a (bo_rows out) BatchRow_default).
Proof. intros Hg Hr. unfold step_row in Hr. rewrite Hg, andb_false_r, Nat.ltb_irrefl in Hr. by injection Hr as <-. Qed.

(** The rows: between one and [n], each what its number says, none stopping but the last. *)
Lemma step_rows_spec p p0 draft out stops a j n rows : (0 < n)%nat -> step_rows c std_exp std_log o p p0 draft out stops a j n = Ret rows ->
  (0 < length rows <= n)%nat /\
  (forall i r, rows !! i = Some r -> step_row c std_exp std_log o p p0 draft out a (j + i) = Ret r) /\
  (forall i r, rows !! i = Some r -> (S i < length rows)%nat -> dr_token r ∉ stops) /\
  ((length rows < n)%nat -> exists r, last rows = Some r /\ dr_token r ∈ stops).
Proof.
  revert j rows. induction n as [|n IH]; intros j rows Hn Hr; [lia|]. cbn [step_rows] in Hr. apply bind_Ret in Hr as (r & H1 & Hr).
  case_bool_decide as Hs.
  { injection Hr as <-. cbn [length]. split_and!; [lia|lia| | |].
    - intros [|i] x Hi; [|done]. injection Hi as <-. by rewrite Nat.add_0_r.
    - intros i x _ Hi. lia.
    - intros _. by exists r. }
  destruct n as [|n].
  { cbn [step_rows] in Hr. injection Hr as <-. cbn [length]. split_and!; [lia|lia| | |lia].
    - intros [|i] x Hi; [|done]. injection Hi as <-. by rewrite Nat.add_0_r.
    - intros i x _ Hi. lia. }
  apply bind_Ret in Hr as (rest & Hrest & [= <-]). apply IH in Hrest as (Hl & Hrow & Hns & Hlast); [|lia]. cbn [length]. split_and!; [lia|lia| | |].
  - intros [|i] x Hi; cbn in Hi; [injection Hi as <-; by rewrite Nat.add_0_r|]. apply Hrow in Hi. by rewrite Nat.add_succ_r.
  - intros [|i] x Hi Hlt; cbn in Hi; [by injection Hi as <-|]. apply (Hns i x Hi). lia.
  - intros Hlt. destruct (Hlast ltac:(lia)) as (x & Hx & Hin). exists x. split; [|done]. destruct rest; [cbn in Hl; lia|]. exact Hx.
Qed.
End Rows.

(** ** The history *)

Section History.
Context {A W : Type} {HA : MemoryAllocator A} {HD : Device W} {HV : Verifier W}.
Context (c : TextConfig) (std_exp std_log : float -> float) (o : SpecOptions).
#[local] Abbreviation Engine := (Engine A W).
#[local] Abbreviation EM := (EM (A:=A) (W:=W)).
#[local] Hint Resolve same_ret same_bind same_guard same_of same_get same_kvs same_device : history.

Lemma same_on_device {T} (m : W -> Result T * W) : same_history (A:=A) (on_device m).
Proof. intros e r e'. unfold on_device. destruct (m _) as [x w]. by intros [= <- <-]. Qed.
#[local] Hint Resolve same_on_device : history.
Lemma seed_same pos : same_history (A:=A) (W:=W) (seed_draft pos).
Proof. unfold seed_draft. apply same_bind; [auto with history|]. intros e. destruct (_ =? _); [auto with history|]. apply same_bind; auto with history. Qed.
Lemma propose_same p0 root k : same_history (A:=A) (W:=W) (propose o p0 root k).
Proof.
  unfold propose. destruct (k =? 0); [auto with history|]. apply same_bind; [auto with history|]. intros [t x].
  destruct (so_min_confidence o); [apply same_bind|]; auto with history.
Qed.
Lemma init_batch_same m : same_history (A:=A) (W:=W) (init_batch o m).
Proof. unfold init_batch. repeat (apply same_bind; [auto with history|intros]). destruct (negb _); auto with history. Qed.
Lemma snapshot_same p0 m : same_history (A:=A) (W:=W) (snapshot_batch_ring c p0 m).
Proof. unfold snapshot_batch_ring. repeat (apply same_bind; [auto with history|intros]). auto with history. Qed.

(** A proposal is no longer than it was asked to be. *)
Lemma propose_bound p0 root k (e : Engine) draft e' : 0 <= k -> propose o p0 root k e = (Ret draft, e') -> len_Z draft <= k.
Proof.
  intros Hk. unfold propose. destruct (k =? 0); [intros [= <- _]; unfold len_Z; cbn; lia|]. intros Hr. apply em_bind_Ret in Hr as ([t x] & e1 & _ & Hr).
  destruct (so_min_confidence o) as [m|].
  - apply em_bind_Ret in Hr as (k' & e2 & [= Hp <-] & [= <- _]). unfold draft_prefix_from_confidence in Hp.
    apply bind_Ret in Hp as ([] & _ & Hp). apply bind_Ret in Hp as ([] & _ & [= <-]). unfold len_Z. rewrite length_take.
    assert (Hl : forall (l : list float) f, (Speculate.prefix_length f l <= length l)%nat) by (intros l f; induction l as [|y l IH]; cbn; [lia|]; destruct (f y); lia).
    specialize (Hl (take (Z.to_nat k) x) (fun y => f_geb y m)). rewrite length_take in Hl. lia.
  - injection Hr as <- _. unfold len_Z. rewrite length_take. lia.
Qed.

Lemma record_tokens_end h tokens : record_tokens (len_Z h) tokens h = h ++ tokens.
Proof.
  unfold record_tokens, overlay, len_Z. rewrite Nat2Z.id. replace (length h + length tokens - length h)%nat with (length tokens) by lia.
  rewrite length_app, length_replicate, Nat.leb_refl. rewrite take_app_length.
  rewrite (drop_ge (h ++ _)) by (rewrite length_app, length_replicate; lia). by rewrite app_nil_r.
Qed.
Lemma forward_history tokens (e : Engine) out e' : forward_batch o (len_Z (en_history e)) tokens e = (Ret out, e') ->
  en_history e' = en_history e ++ tokens /\ len_Z (en_history e) + len_Z tokens <= kMaxIndexPositions.
Proof.
  intros Hr. apply em_bind_Ret in Hr as ([] & ? & [= _ <-] & Hr). apply em_bind_Ret in Hr as (e0 & ? & [= <- <-] & Hr).
  do 4 (apply em_bind_Ret in Hr as ([] & ? & [= _ <-] & Hr)). apply em_bind_Ret in Hr as ([] & e1 & H1 & Hr). apply init_batch_same in H1.
  apply em_bind_Ret in Hr as ([] & ? & [= Hg <-] & Hr). apply fail_if_Ret, Z.ltb_ge in Hg. pose proof (context_fits e).
  apply em_bind_Ret in Hr as ([] & ? & [= _ <-] & Hr). apply em_bind_Ret in Hr as ([] & e2 & [= <-] & Hr).
  apply em_bind_Ret in Hr as (out' & e3 & H3 & Hr). destruct (run_batch _ _ _ _ _ _) as [[[x d] k] w]. injection H3 as -> <-.
  apply em_bind_Ret in Hr as ([] & e4 & H4 & [= _ <-]). apply same_kvs in H4. rewrite H4. cbn [en_history]. split; [|lia].
  change (record_tokens (len_Z (en_history e)) tokens (en_history e1) = en_history e ++ tokens). rewrite H1. apply record_tokens_end.
Qed.

Lemma restore_batch_history b p0 accepted m (e : Engine) e' : restore_batch_ring b p0 accepted m e = (Ret tt, e') ->
  en_history e' = en_history e \/ en_history e' = take (Z.to_nat (p0 + accepted + 2)) (en_history e).
Proof.
  intros Hr. apply em_bind_Ret in Hr as ([] & ? & [= _ <-] & Hr). destruct (m <=? accepted + 1); [injection Hr as <-; by left|].
  apply em_bind_Ret in Hr as ([] & e1 & H1 & [= <-]). apply same_kvs in H1. change (let h := en_history e1 in
    (if p0 + accepted + 2 <? len_Z h then take (Z.to_nat (p0 + accepted + 2)) h else h) = en_history e \/
    (if p0 + accepted + 2 <? len_Z h then take (Z.to_nat (p0 + accepted + 2)) h else h) = take (Z.to_nat (p0 + accepted + 2)) (en_history e)).
  cbv zeta. rewrite H1. destruct (_ <? _); [by right|by left].
Qed.
Lemma commit_history p0 n k snap was carry out (e : Engine) e' : 0 <= p0 -> 1 <= n -> p0 + n <= len_Z (en_history e) ->
  commit_rows c p0 n k snap was carry out e = (Ret tt, e') -> en_history e' = take (Z.to_nat (p0 + n)) (en_history e).
Proof.
  intros Hp Hn Hl Hr. unfold len_Z in Hl. apply em_bind_Ret in Hr as ([] & e1 & H1 & Hr). apply restore_batch_history in H1.
  assert (Ht : take (Z.to_nat (p0 + n)) (en_history e1) = take (Z.to_nat (p0 + n)) (en_history e) /\ (Z.to_nat (p0 + n) <= length (en_history e1))%nat).
  { destruct H1 as [->| ->]; [split; [done|lia]|]. rewrite take_take, length_take. split; [f_equal; lia|lia]. }
  clear H1. destruct Ht as [Ht Hlen]. apply em_bind_Ret in Hr as ([] & e2 & [= <-] & Hr). apply em_bind_Ret in Hr as ([] & e3 & H3 & Hr). apply same_kvs in H3.
  apply em_bind_Ret in Hr as ([] & e4 & H4 & Hr). apply same_kvs in H4. apply em_bind_Ret in Hr as ([] & e5 & [= <-] & Hr).
  apply em_bind_Ret in Hr as ([] & e6 & H6 & Hr). apply same_kvs in H6. apply em_bind_Ret in Hr as ([] & e7 & H7 & Hr). apply same_kvs in H7.
  apply em_bind_Ret in Hr as (e0 & ? & [= <- <-] & Hr). apply same_on_device in Hr. rewrite Hr, H7, H6.
  change (take (Z.to_nat (p0 + n)) (en_history e4) ++ replicate (Z.to_nat (p0 + n) - length (en_history e4)) 0 = take (Z.to_nat (p0 + n)) (en_history e)).
  rewrite H4, H3. change (en_history (e1 <| en_draft ::= put_back p0 n (k + 1) was |>)) with (en_history e1). rewrite Ht.
  replace (Z.to_nat (p0 + n) - length (en_history e1))%nat with 0%nat by lia. by rewrite app_nil_r.
Qed.

(** ** The step *)

Lemma step_row_position p p0 draft out a j r : step_row c std_exp std_log o p p0 draft out a j = Ret r -> dr_position r = p0 + Z.of_nat j.
Proof.
  unfold step_row. destruct ((j =? a)%nat && _); [|by intros [= <-]]. destruct (so_gpu_readout o); [|by intros [= <-]].
  unfold sample_into. intros Hr. apply bind_Ret in Hr as ([] & _ & Hr). cbv zeta in Hr. destruct (nu_exact _), (so_check_topk o);
    apply bind_Ret in Hr as ([] & _ & [= <-]); done.
Qed.

Lemma em_of_Ret {T} (r : Result T) (e : Engine) x e' : em_of r e = (Ret x, e') -> r = Ret x /\ e' = e.
Proof. by intros [= -> <-]. Qed.
Definition step_answer (root n : Z) (stops : list Z) (e e' : Engine) (rows : list DecodeStepResult) : Prop :=
  1 <= len_Z rows <= n /\
  en_history e' = en_history e ++ root :: take (length rows - 1) (dr_token <$> rows) /\ len_Z (en_history e') <= kMaxIndexPositions /\
  (forall i r, rows !! i = Some r -> dr_position r = len_Z (en_history e) + Z.of_nat i) /\
  (forall i r, rows !! i = Some r -> (S i < length rows)%nat -> dr_token r ∉ stops).

Lemma verify_rows_history root draft stops snap was carry (e : Engine) rows e' :
  verify_rows c std_exp std_log o (len_Z (en_history e)) root draft stops snap was carry e = (Ret rows, e') ->
  step_answer root (len_Z draft + 1) stops e e' rows.
Proof.
  intros Hr. set (h := en_history e) in *.
  apply em_bind_Ret in Hr as (out & e1 & H1 & Hr). apply forward_history in H1 as [H1 Hfit]. fold h in H1, Hfit.
  apply em_bind_Ret in Hr as (a & ? & [= Ha <-] & Hr). apply accepted_bound in Ha. apply em_bind_Ret in Hr as (e0 & ? & [= <- <-] & Hr).
  apply em_bind_Ret in Hr as (rows' & e3 & [Hrows ->]%em_of_Ret & Hr). apply em_bind_Ret in Hr as ([] & e2 & H2 & [= -> <-]).
  apply step_rows_spec in Hrows as (Hl & Hrow & Hns & _); [|lia]. cbn [Nat.add] in Hrow.
  apply commit_history in H2; [|unfold len_Z; lia|unfold len_Z; lia|rewrite H1; unfold len_Z; rewrite length_app; cbn [length]; lia].
  assert (Hh : en_history e2 = h ++ root :: take (length rows - 1) (dr_token <$> rows)).
  { rewrite H2, H1. unfold len_Z. rewrite <- Nat2Z.inj_add, Nat2Z.id, firstn_app. rewrite take_ge by lia. f_equal.
    replace (length h + length rows - length h)%nat with (S (length rows - 1)) by lia. cbn [take]. f_equal.
    apply list_eq. intros i. destruct (decide (i < length rows - 1)%nat) as [Hi|Hi].
    - rewrite !lookup_take_lt by done. rewrite list_lookup_fmap. destruct (lookup_lt_is_Some_2 rows i ltac:(lia)) as [r Hri]. rewrite Hri. cbn.
      rewrite (step_row_token _ _ _ _ _ _ _ _ _ _ _ (Hrow _ _ Hri)) by lia. rewrite nth_lookup. by destruct (lookup_lt_is_Some_2 draft i ltac:(lia)) as [x ->].
    - by rewrite !lookup_take_ge by lia. }
  unfold step_answer. fold h. split_and!; [unfold len_Z; lia|unfold len_Z in *; lia|exact Hh| | |exact Hns].
  - rewrite Hh. unfold len_Z in *. rewrite length_app. cbn [length]. rewrite length_take, length_fmap. cbn [length] in Hfit. lia.
  - intros i r Hi. exact (step_row_position _ _ _ _ _ _ _ (Hrow i r Hi)).
Qed.

Lemma or_reset_run {T} (m : EM T) (e : Engine) r e' : or_reset m e = (r, e') ->
  match r with Ret _ => m e = (r, e') | Fail _ => en_history e' = [] end.
Proof. unfold or_reset. destruct (m e) as [[x|err] e1]; by intros [= <- <-]. Qed.

(** A failed step left the context alone, or emptied it. *)
Lemma same_then {T U} (m : EM T) (f : T -> EM U) (P : Engine -> Prop) e r e' : same_history m ->
  (forall x e1, en_history e1 = en_history e -> m e = (Ret x, e1) -> f x e1 = (r, e') -> P e') -> (en_history e' = en_history e -> P e') ->
  (m ≫= f) e = (r, e') -> P e'.
Proof.
  intros Hm Hf Hfail. unfold mbind, EM_bind. destruct (m e) as [[x|err] e1] eqn:E; intros Hr.
  - exact (Hf x e1 (Hm _ _ _ E) eq_refl Hr).
  - injection Hr as _ <-. apply Hfail, (Hm _ _ _ E).
Qed.

Lemma engine_step_ret root max_new stops (e : Engine) rows e' : short e -> 0 <= max_new -> 0 <= so_max_draft o ->
  engine_speculative_step c std_exp std_log o root max_new stops e = (Ret rows, e') ->
  step_answer root (Z.min max_new (so_max_draft o + 1)) stops e e' rows.
Proof.
  intros Hs Hnew Hmd Hr. apply em_bind_Ret in Hr as (e0 & ? & [= <- <-] & Hr). cbv zeta in Hr. rewrite short_length in Hr by done.
  apply em_bind_Ret in Hr as ([] & ? & [= Hg <-] & Hr). apply fail_if_Ret, orb_false_iff in Hg as [_ Hg%Z.eqb_neq].
  apply em_bind_Ret in Hr as ([] & ? & [= _ <-] & Hr). set (k := Z.min _ (u32 _)) in Hr.
  assert (Hk : 0 <= k /\ k <= so_max_draft o /\ k <= max_new - 1).
  { unfold k, u32. pose proof (Z.mod_pos_bound (max_context e - len_Z (en_history e) - 1) (2 ^ 32)). lia. }
  clearbody k. apply em_bind_Ret in Hr as ([] & e1 & H1 & Hr). apply seed_same in H1. apply em_bind_Ret in Hr as (draft & e2 & H2 & Hr).
  pose proof (propose_bound _ _ _ _ _ _ (proj1 Hk) H2) as Hd. apply propose_same in H2.
  apply em_bind_Ret in Hr as ([] & e3 & H3 & Hr). apply init_batch_same in H3. apply em_bind_Ret in Hr as (snap & e4 & H4 & Hr). apply snapshot_same in H4.
  apply em_bind_Ret in Hr as (e5 & ? & [= <- <-] & Hr). apply em_bind_Ret in Hr as (carry & ? & [_ ->]%em_of_Ret & Hr).
  apply or_reset_run in Hr. assert (Hh : en_history e4 = en_history e) by congruence. rewrite <- Hh in Hr. apply verify_rows_history in Hr.
  unfold step_answer in *. rewrite Hh in Hr. destruct Hr as (Hl & Hr). split; [lia|exact Hr].
Qed.
Lemma engine_step_fail root max_new stops (e : Engine) err e' : engine_speculative_step c std_exp std_log o root max_new stops e = (Fail err, e') ->
  en_history e' = en_history e \/ en_history e' = [].
Proof.
  intros Hr. unfold engine_speculative_step in Hr. apply same_then with (P := fun e' => en_history e' = en_history e \/ en_history e' = []) in Hr; [done|apply same_get| |by left].
  clear Hr. intros e0 e1 He _ Hr. rewrite <- He. clear e He. rename e1 into e. cbv zeta in Hr. revert Hr.
  set (P := fun e' : Engine => en_history e' = en_history e \/ en_history e' = []). change (en_history e' = en_history e \/ en_history e' = []) with (P e').
  assert (Hsame : forall e2, en_history e2 = en_history e -> P e2) by (intros e2 H2; by left).
  assert (Hstep : forall (T : Type) (m : EM T) f e1, same_history m -> en_history e1 = en_history e ->
    (forall x e2, en_history e2 = en_history e -> f x e2 = (Fail err, e') -> P e') -> (m ≫= f) e1 = (Fail (A:=list DecodeStepResult) err, e') -> P e').
  { intros T m f e1 Hm He1 Hf Hr. eapply same_then; [exact Hm| | |exact Hr].
    - intros x e2 He2 _. apply Hf. congruence.
    - intros He2. apply Hsame. congruence. }
  apply Hstep; [apply same_guard|done|]. intros _ e1 H1. apply Hstep; [apply same_guard|done|]. intros _ e2 H2.
  apply Hstep; [apply seed_same|done|]. intros _ e3 H3. apply Hstep; [apply propose_same|done|]. intros draft e4 H4.
  apply Hstep; [apply init_batch_same|done|]. intros _ e5 H5. apply Hstep; [apply snapshot_same|done|]. intros snap e6 H6.
  apply Hstep; [apply same_get|done|]. intros e7 e8 H8. apply Hstep; [apply same_of|done|]. intros carry e9 H9 Hr.
  apply or_reset_run in Hr. by right.
Qed.

(** C5: A speculative step commits exactly what it answers.  On success the answer holds between
    one row and as many as were wanted (and one more than the longest draft), the context has
    grown by the root and every answered token but the last and still fits, the rows stand at
    the consecutive positions after the old context, and none but the last is a stop id.  A
    step that fails leaves the context it found, or, once the batch has run, an empty one. *)
Theorem speculative_step_commits root max_new stops (e : Engine) r e' : short e -> 0 <= max_new -> 0 <= so_max_draft o ->
  engine_speculative_step c std_exp std_log o root max_new stops e = (r, e') ->
  match r with
  | Ret rows =>
      1 <= len_Z rows <= Z.min max_new (so_max_draft o + 1) /\
      en_history e' = en_history e ++ root :: take (length rows - 1) (dr_token <$> rows) /\ len_Z (en_history e') <= kMaxIndexPositions /\
      (forall i x, rows !! i = Some x -> dr_position x = len_Z (en_history e) + Z.of_nat i) /\
      (forall i x, rows !! i = Some x -> (S i < length rows)%nat -> dr_token x ∉ stops)
  | Fail _ => en_history e' = en_history e \/ en_history e' = []
  end.
Proof.
  intros Hs Hnew Hmd Hr. destruct r as [rows|err]; [exact (engine_step_ret root max_new stops e rows e' Hs Hnew Hmd Hr)|exact (engine_step_fail root max_new stops e err e' Hr)].
Qed.

(** The engine's step keeps what a turn asks of one. *)
Lemma engine_speculation_ok : 0 <= so_max_draft o -> @SpeculationOk A W HA HD (engine_speculative_step c std_exp std_log o).
Proof.
  intros Hmd root n stops e rows e' Hs Hn Hr. destruct (engine_step_ret root n stops e rows e' Hs Hn Hmd Hr) as (Hl & Hh & Hf & _ & Hns).
  split_and!; [intros ->; unfold len_Z in Hl; cbn in Hl; lia|lia|exact Hf|exact Hh|exact Hns].
Qed.
End History.

(** ** The ring after a rejection *)

(** The cells of the slots from number [first] on, cut out of all of them. *)
Lemma cut_cells {X} (f : X * Z -> list Z) (layers : list X) (slots : list Z) d first : 
  (forall l s, l ∈ layers -> s ∈ slots -> length (f (l, s)) = d) -> (first <= length slots)%nat ->
  let m := length slots in let all := mjoin ((fun l => mjoin ((fun s => f (l, s)) <$> slots)) <$> layers) in
  mjoin ((fun li => subspan all ((li * m + first) * d) ((m - first) * d)) <$> seq 0 (length layers)) =
  mjoin ((fun l => mjoin ((fun s => f (l, s)) <$> drop first slots)) <$> layers).
Proof.
  intros Hd Hf m all. set (block l := mjoin ((fun s => f (l, s)) <$> slots)).
  assert (Hrow : forall l, l ∈ layers -> Forall (fun x => length x = d) ((fun s => f (l, s)) <$> slots)).
  { intros l Hl. apply Forall_fmap, Forall_forall. intros s Hs. by apply Hd. }
  assert (Hblock : Forall (fun x => length x = (m * d)%nat) (block <$> layers)).
  { apply Forall_fmap, Forall_forall. intros l Hl. cbn. unfold block. rewrite (join_length _ d) by auto. by rewrite length_fmap. }
  f_equal. apply list_eq. intros i. rewrite !list_lookup_fmap. destruct (layers !! i) as [l|] eqn:El.
  - assert (Hi : (i < length layers)%nat) by by eapply lookup_lt_Some.
    rewrite (lookup_seq_lt 0 _ i Hi). cbn [fmap option_fmap option_map Nat.add]. f_equal.
    pose proof (subspan_join _ (m * d) i Hblock ltac:(by rewrite length_fmap)) as Hj. rewrite nth_lookup, list_lookup_fmap, El in Hj. cbn in Hj.
    replace ((i * m + first) * d)%nat with (i * (m * d) + first * d)%nat by nia.
    rewrite <- (subspan_subspan all (i * (m * d)) (m * d) (first * d) ((m - first) * d)) by nia. unfold all. fold block. rewrite Hj.
    assert (Hbl : length (block l) = (m * d)%nat) by (rewrite Forall_forall in Hblock; apply Hblock, list_elem_of_fmap_2, list_elem_of_lookup_2 with i; exact El).
    unfold subspan. rewrite take_ge by (rewrite length_drop; nia). unfold block at 1.
    pose proof (Hrow l ltac:(by eapply list_elem_of_lookup_2)) as Hr. rewrite <- (take_drop first slots) at 1. rewrite fmap_app, join_app. apply drop_app_length'.
    rewrite (join_length _ d); [rewrite length_fmap, length_take; f_equal; unfold m in *; lia|]. rewrite fmap_take. by apply Forall_take.
  - rewrite lookup_ge_None in El. by rewrite (lookup_seq_ge 0 _ i El).
Qed.

Lemma cells_join {X} (f : Z * Z -> list X) layers slots :
  mjoin (f <$> cells layers slots) = mjoin ((fun l => mjoin ((fun s => f (l, s)) <$> slots)) <$> layers).
Proof.
  unfold cells. induction layers as [|l layers IH]; [done|]. cbn. rewrite fmap_app, join_app. f_equal; [|exact IH]. by rewrite <- list_fmap_compose.
Qed.

(** Part of a snapshot is the snapshot of those slots. *)
Lemma sub_ring_snapshot k slots layers s first : kv_ok k -> kc_scale_block (k_cfg k) = 32 ->
  Forall (fun s => 0 <= s) slots -> Forall (fun l => 0 <= l) layers -> (first < length slots)%nat ->
  snapshot_ring k slots layers = Ret s -> snapshot_ring k (drop first slots) layers = Ret (sub_ring s first).
Proof.
  intros Hk H32 Hs0 Hl0 Hf. unfold snapshot_ring. destruct (negb (valid k)); [done|]. cbn [fail_if].
  intros ([] & _ & ([] & [Hsl Hly]%fail_if_Ret%orb_false_iff & ([] & Hlb%fail_if_Ret & ([] & Hsb%fail_if_Ret & [= <-])%bind_Ret)%bind_Ret)%bind_Ret)%bind_Ret.
  pose proof (existsb_bound _ _ Hlb) as Hlb'. pose proof (existsb_bound _ _ Hsb) as Hsb'. rewrite Forall_forall in Hs0, Hl0.
  assert (Hcell : forall l s, l ∈ layers -> s ∈ slots -> cell_in (k_cfg k) (l, s)).
  { intros l s Hl Hs. specialize (Hl0 _ Hl). specialize (Hs0 _ Hs). specialize (Hlb' _ Hl). specialize (Hsb' _ Hs). by split. }
  destruct (kd_latent _ (ko_dims k Hk)) as [Hd _]. pose proof (window_scales_pos _ (ko_dims k Hk)) as Hw.
  rewrite (bool_decide_false (drop first slots = [])) by (intros Hn%(f_equal length); rewrite length_drop in Hn; cbn in Hn; lia).
  rewrite Hly, Hlb. replace (existsb _ (drop first slots)) with false.
  2:{ symmetry. apply not_true_is_false. intros (x & Hx & Hlt)%existsb_exists. apply list_elem_of_In in Hx. assert (Hx' : x ∈ slots) by (rewrite <- (take_drop first slots); apply elem_of_app; by right).
      specialize (Hsb' x Hx'). apply Z.leb_le in Hlt. lia. }
  cbn [orb fail_if]. unfold mbind, Result_bind. f_equal. unfold sub_ring. cbn [rg_layer rg_slot rg_position rg_val rg_scale rg_latent_dim]. f_equal.
  - by rewrite fmap_drop.
  - rewrite !cells_join. pose proof (cut_cells (fun ls => ring_val k ls.1 ls.2) layers slots (Z.to_nat (kc_latent_dim (k_cfg k))) first) as Hcut. cbn zeta in Hcut.
    symmetry. apply Hcut; [|lia]. intros l s Hl Hs. pose proof (ring_val_length k Hk (l, s) (Hcell l s Hl Hs)) as Hlen. cbn [fst snd] in *. lia.
  - rewrite !cells_join. assert (H32' : kc_latent_dim (k_cfg k) / 32 = window_scales (k_cfg k)) by (unfold window_scales; by rewrite H32). rewrite H32'.
    pose proof (cut_cells (fun ls => ring_scale k ls.1 ls.2) layers slots (Z.to_nat (window_scales (k_cfg k))) first) as Hcut. cbn zeta in Hcut.
    symmetry. apply Hcut; [|lia]. intros l s Hl Hs. pose proof (ring_scale_length k Hk (l, s) (Hcell l s Hl Hs)) as Hlen. cbn [fst snd] in *. lia.
Qed.

Section Rejected.
Context {A W : Type} {HA : MemoryAllocator A} {HD : Device W} {HV : Verifier W} {Hal : MemoryAllocatorOk A}.
Context (c : TextConfig).
#[local] Abbreviation Engine := (Engine A W).

Definition batch_slots (w p0 m : Z) : list Z := (fun i => (p0 + i) mod w) <$> upto m.
Lemma batch_slots_NoDup w p0 m : 0 < w -> m <= w -> NoDup (batch_slots w p0 m).
Proof.
  intros Hw Hm. apply NoDup_fmap_2_strong; [|apply upto_NoDup]. intros x y Hx%upto_spec Hy%upto_spec He.
  pose proof (mod_eq_close w (p0 + x) (p0 + y) Hw). assert (p0 + x = p0 + y) by (apply H; [lia|exact He]). lia.
Qed.

(** C23: Rejected rows leave no trace in the ring.  Whatever the verify batch made of the store,
    restoring after it puts back, at the slot of every position past the accepted ones, the cell
    of every layer and the position the slot held when the batch began, and leaves every other
    cell and slot, the accepted rows' among them, as the batch left it. *)
Theorem rejected_slots_restored p0 m accepted (e e1 e2 : Engine) b : let w := kc_window (k_cfg (en_kvs e)) in
  kv_ok (en_kvs e) -> kv_ok (en_kvs e2) -> k_cfg (en_kvs e2) = k_cfg (en_kvs e) -> kc_scale_block (k_cfg (en_kvs e)) = 32 ->
  tc_sliding_window c = w -> tc_num_hidden_layers c = kc_layers (k_cfg (en_kvs e)) -> 0 <= p0 -> m <= w -> 0 <= accepted -> accepted + 1 < m ->
  snapshot_batch_ring c p0 m e = (Ret b, e1) ->
  exists e3, restore_batch_ring b p0 accepted m e2 = (Ret tt, e3) /\ kv_ok (en_kvs e3) /\
    (forall l q, 0 <= l < kc_layers (k_cfg (en_kvs e)) -> p0 + accepted < q < p0 + m ->
       ring_cell (en_kvs e3) (l, q mod w) = ring_cell (en_kvs e) (l, q mod w)) /\
    (forall q, p0 + accepted < q < p0 + m -> nth (slot_index w q) (k_slot_pos (en_kvs e3)) 0 = nth (slot_index w q) (k_slot_pos (en_kvs e1)) 0) /\
    (forall l s, 0 <= l < kc_layers (k_cfg (en_kvs e)) -> 0 <= s < w -> (forall q, p0 + accepted < q < p0 + m -> s <> q mod w) ->
       ring_cell (en_kvs e3) (l, s) = ring_cell (en_kvs e2) (l, s) /\
       nth (Z.to_nat s) (k_slot_pos (en_kvs e3)) 0 = nth (Z.to_nat s) (k_slot_pos (en_kvs e2)) 0).
Proof.
  intros w Hk Hk2 Hc2 H32 Hcw Hcl Hp0 Hm Ha Ham Hsnap. pose proof (kd_window _ (ko_dims _ Hk)) as Hw. fold w in Hw.
  pose proof (kd_layers _ (ko_dims _ Hk)) as Hlay.
  apply em_bind_Ret in Hsnap as ([] & ? & [= Hg <-] & Hsnap). apply em_bind_Ret in Hsnap as ([] & e1' & H1 & Hsnap).
  apply on_kvs_Ret in H1 as (a' & k1 & [= <- <-] & ->). apply em_bind_Ret in Hsnap as (e0 & ? & [= <- <-] & Hsnap).
  apply em_bind_Ret in Hsnap as (s & ? & [Hs ->]%em_of_Ret & [= <- <-]). cbn [en_kvs] in Hs. rewrite Hcw, Hcl in Hs.
  set (k1 := resolve_ring_store p0 (en_kvs e)) in *.
  assert (Hk1 : kv_ok k1) by (apply slots_ok; [done|by rewrite length_imap]). change (kc_layers (k_cfg (en_kvs e))) with (kc_layers (k_cfg k1)) in *.
  change (snapshot_ring k1 (batch_slots w p0 m) (upto (kc_layers (k_cfg k1))) = Ret s) in Hs.
  set (first := Z.to_nat (accepted + 1)). set (layers := upto (kc_layers (k_cfg k1))) in *.
  assert (Hbl : length (batch_slots w p0 m) = Z.to_nat m) by (unfold batch_slots; by rewrite length_fmap, upto_length).
  assert (Hpos : Forall (fun s => 0 <= s) (batch_slots w p0 m)).
  { apply Forall_fmap, Forall_forall. intros i _. apply Z.mod_pos_bound. lia. }
  assert (Hlpos : Forall (fun l => 0 <= l) layers) by (apply Forall_forall; intros l Hl%upto_spec; lia).
  apply (sub_ring_snapshot k1 _ _ s first Hk1 H32 Hpos Hlpos) in Hs; [|unfold first; lia].
  destruct (restored_ring k1 (en_kvs e2) (drop first (batch_slots w p0 m)) layers (sub_ring s first) (en_alloc e2)) as (k3 & Hrun & Hk3 & Hin & Hout & Hslot);
    [done|done|exact Hc2|apply (sublist_NoDup _ (batch_slots w p0 m)); [apply batch_slots_NoDup; lia|apply sublist_drop]|apply upto_NoDup|by apply Forall_drop|done|exact Hs|].
  assert (Hmem : forall q, p0 + accepted < q < p0 + m -> q mod w ∈ drop first (batch_slots w p0 m)).
  { intros q Hq. apply list_elem_of_lookup. exists (Z.to_nat (q - p0 - accepted - 1)). rewrite lookup_drop. unfold batch_slots. rewrite list_lookup_fmap, upto_lookup by (unfold first; lia).
    cbn. do 2 f_equal. unfold first. lia. }
  assert (Hmem' : forall s, s ∈ drop first (batch_slots w p0 m) -> exists q, p0 + accepted < q < p0 + m /\ s = q mod w).
  { intros x Hx. apply list_elem_of_lookup in Hx as [i Hi]. rewrite lookup_drop in Hi. unfold batch_slots in Hi. rewrite list_lookup_fmap in Hi.
    destruct (upto m !! (first + i)%nat) as [j|] eqn:Ej; [|done]. injection Hi as <-.
    assert (Hlt : (first + i < Z.to_nat m)%nat) by (apply lookup_lt_Some in Ej; by rewrite upto_length in Ej). rewrite upto_lookup in Ej by done. injection Ej as <-.
    exists (p0 + Z.of_nat (first + i)). split; [unfold first in *; lia|done]. }
  assert (Hall : forallb (fun l => bool_decide (l ∈ layers)) (layer_ids (kc_layers (k_cfg k1))) = true).
  { apply forallb_forall. intros l Hl. apply bool_decide_eq_true. by apply list_elem_of_In. }
  eexists. split.
  { unfold restore_batch_ring. cbn [bs_m bs_p0 bs_ring]. rewrite !Z.eqb_refl, (proj2 (Z.eqb_neq m 0)), (proj2 (Z.leb_gt m (accepted + 1))) by lia.
    unfold mbind, EM_bind, em_guard. cbn [negb orb fail_if]. unfold on_kvs. fold first. rewrite Hrun. reflexivity. }
  match goal with |- context [en_kvs ?x] => match x with context [k3] => change (en_kvs x) with k3 end end. split_and!; [done| | |].
  - intros l q Hl Hq. change (ring_cell (en_kvs e) (l, q mod w)) with (ring_cell k1 (l, q mod w)). apply Hin; [by apply upto_spec|by apply Hmem].
  - intros q Hq. unfold slot_index. rewrite (Hslot (q mod w)) by (exact (Z.mod_pos_bound q w (proj1 Hw))). rewrite decide_True by by apply Hmem. by rewrite Hall.
  - intros l x Hl Hx Hne. assert (Hn : x ∉ drop first (batch_slots w p0 m)) by (intros (q & Hq & ->)%Hmem'; by apply (Hne q)).
    split; [apply Hout; [by split|]; by intros [_ ?]|]. rewrite (Hslot x Hx). by rewrite decide_False.
Qed.
End Rejected.

(** ** An example: two drafts, the second refused *)

#[export] Instance toy_verifier : Verifier unit := {|
  next_position := fun _ => 6;
  append_hidden := fun _ _ w => (Ret tt, w);
  draft_tokens := fun _ root _ w => (Ret ([root + 1; root + 2; root + 3; root + 4; root + 5], replicate 5 f32_zero), w);
  invalidate_candidates := fun w => w;
  batch_cap := fun _ => 0;
  build_batch := fun _ w => (Ret tt, w);
  run_batch := fun p0 ts h d k w =>
    (Ret (mkBatchOut (imap (fun i t => mkBatchRow (90 + Z.of_nat i) 0 0 (mkRank (tc_vocab_size toy_text) (Z.of_nat i) 0 (t + 1))) ts) [] [] []),
     d, kv_writes k (kflat k <$> scribbles p0 k), w) |}.
Definition toy_spec : SpecOptions := mkSpecOptions true 0 1 2 1 None false true false false false false.
#[local] Abbreviation toy_step := (engine_speculative_step toy_text id id toy_spec 20 5 [] toy_engine).

Lemma toy_step_runs : match toy_step with (Ret rows, e') => (dr_token <$> rows) = [21; 91] /\ en_history e' = [11; 12; 13; 14; 15; 16; 20; 21] | _ => False end.
Proof. vm_compute. split; reflexivity. Qed.
Lemma toy_short : short toy_engine.
Proof. vm_compute. reflexivity. Qed.
Lemma speculative_step_commits_witness : exists rows e', toy_step = (Ret rows, e') /\ (dr_token <$> rows) = [21; 91] /\
  en_history e' = [11; 12; 13; 14; 15; 16] ++ 20 :: take (length rows - 1) (dr_token <$> rows).
Proof.
  pose proof toy_step_runs as Hrun. pose proof (fun r e' => speculative_step_commits toy_text id id toy_spec 20 5 [] toy_engine r e' toy_short ltac:(lia) ltac:(cbn; lia)) as Ht.
  destruct (engine_speculative_step _ _ _ _ _ _ _ _) as [[rows|err] e']; [|done]. exists rows, e'. split; [reflexivity|].
  split; [exact (proj1 Hrun)|]. exact (proj1 (proj2 (Ht (Ret rows) e' eq_refl))).
Defined.

(** A batch of three at position 6 over a ring of four, of which one is kept. *)
Definition toy_after : Engine Z unit := toy_engine <| en_kvs := kv_ring.2 |>.
Lemma toy_after_kvs : en_kvs toy_after = kv_ring.2 /\ k_cfg kv_ring.2 = kv_shared.
Proof. vm_compute. split; reflexivity. Qed.
Lemma toy_snapshot : match snapshot_batch_ring toy_text 6 3 toy_engine with (Ret b, e1) => bs_m b = 3 | _ => False end.
Proof. vm_compute. reflexivity. Qed.
Lemma rejected_slots_restored_witness : exists b e1 e3, snapshot_batch_ring toy_text 6 3 toy_engine = (Ret b, e1) /\
  restore_batch_ring b 6 0 3 toy_after = (Ret tt, e3) /\ ring_cell (en_kvs e3) (0, 7 mod 4) = ring_cell kv_seeded.2 (0, 7 mod 4) /\
  ring_cell (en_kvs e3) (0, 6 mod 4) = ring_cell kv_ring.2 (0, 6 mod 4).
Proof.
  pose proof toy_snapshot as Hs. destruct seeded_shape as (Hc & _). destruct toy_after_kvs as [Ha Hca].
  pose proof (fun b e1 => rejected_slots_restored toy_text 6 3 0 toy_engine e1 toy_after b) as Ht. cbv zeta in Ht. rewrite toy_kvs, Hc, Ha in Ht.
  destruct (snapshot_batch_ring toy_text 6 3 toy_engine) as [[b|err] e1]; [|destruct Hs]. exists b, e1.
  destruct (Ht b e1 kv_seeded_ok kv_ring_ok Hca eq_refl eq_refl eq_refl) as (e3 & Hrun & _ & Hin & _ & Hout); [lia|cbn; lia|lia|lia|reflexivity|].
  exists e3. split; [reflexivity|]. split; [exact Hrun|]. split; [apply Hin; cbn; lia|]. apply Hout; [cbn; lia|cbn; lia|]. intros q Hq.
  assert (q = 7 \/ q = 8) as [->| ->] by lia; vm_compute; discriminate.
Defined.
