(* ===== verification/CacheSizing.v ===== *)
(** How big the expert cache is made ([src/runtime/engine.h], [engine.cpp]): the caps on an
    automatic budget, the sizes tried one after the other, the backing that fills path A before
    path B, and building the cache with a probe submit after each try.

    The probe and the graphics allocators are parameters: path A and path B are any
    [SlabBacking]. *)

From S2P Require Import Prelude Types Manifest Slab ShardSet ExpertStore Planner.

(** ** Budgets *)

Definition kAutoSlotCap : Z := 5000.
Definition kCacheBackoffSlots : Z := 200.
Definition kCacheBackoffTries : nat := 5.
Definition kCacheBackoffFloor : Z := 200.

Definition budget_slots (budget_bytes slot_bytes : Z) : Z :=
  if slot_bytes =? 0 then 0 else budget_bytes / slot_bytes.
Definition cap_auto_budget (budget_bytes slot_bytes slot_cap : Z) : Z :=
  if (slot_cap =? 0) || (slot_bytes =? 0) then budget_bytes
  else
    let cap_bytes := u64 (slot_cap * slot_bytes) in
    if cap_bytes <? budget_bytes then cap_bytes else budget_bytes.

(** The loop: the sizes from [n] on, at most [attempts] of them. *)
Fixpoint backoff_from (n step floor_slots : Z) (attempts : nat) : list Z :=
  match attempts with
  | O => []
  | S attempts =>
      n :: if n <=? floor_slots then []
           else backoff_from (if u32 (step + floor_slots) <? n then u32 (n - step) else floor_slots) step floor_slots attempts
  end.
Definition cache_backoff_slots (start step : Z) (attempts : nat) (floor_slots : Z) : list Z :=
  if start =? 0 then []
  else backoff_from start (if step =? 0 then kCacheBackoffSlots else step) floor_slots attempts.

(** ** Two memory paths *)

(** [owner_]: the host pointer of each slab that is out, and whether path B gave it. *)
Record DualPathBacking (A B : Type) := mkDual {
  dp_a : option A; dp_b : option B; dp_owner : list (Z * bool);
  dp_a_cap : Z; dp_a_bytes : Z; dp_a_slabs : Z; dp_b_slabs : Z; dp_a_done : bool }.
Arguments mkDual {A B}. Arguments dp_a {A B}. Arguments dp_b {A B}. Arguments dp_owner {A B}.
Arguments dp_a_cap {A B}. Arguments dp_a_bytes {A B}. Arguments dp_a_slabs {A B}.
Arguments dp_b_slabs {A B}. Arguments dp_a_done {A B}.
#[export] Instance DualPathBacking_eta {A B} : Eta (DualPathBacking A B) := fun d =>
  mkDual (dp_a d) (dp_b d) (dp_owner d) (dp_a_cap d) (dp_a_bytes d) (dp_a_slabs d) (dp_b_slabs d) (dp_a_done d).

Section Dual.
Context {A B : Type} `{SlabBacking A, SlabBacking B}.
#[local] Abbreviation D := (DualPathBacking A B).

Definition dual_path (a : option A) (b : option B) (a_cap : Z) : D := mkDual a b [] a_cap 0 0 0 false.

Definition allocate_b (d : D) (bytes : Z) : D * Result SlabMemory :=
  match dp_b d with
  | None => (d, Fail ResourceExhausted)
  | Some b =>
      match allocate b bytes with
      | (b, Fail e) => (d <| dp_b := Some b |>, Fail e)
      | (b, Ret m) => (d <| dp_b := Some b |> <| dp_owner ::= fun o => o ++ [(sm_host_ptr m, true)] |>
                         <| dp_b_slabs ::= inc32 |>, Ret m)
      end
  end.
Definition dual_allocate (d : D) (bytes : Z) : D * Result SlabMemory :=
  match dp_a d with
  | Some a =>
      let capped := negb (dp_a_cap d =? 0) && (dp_a_cap d <? u64 (dp_a_bytes d + bytes)) in
      if dp_a_done d || capped then allocate_b (d <| dp_a_done := true |>) bytes
      else
        match allocate a bytes with
        | (a, Ret m) => (d <| dp_a := Some a |> <| dp_owner ::= fun o => o ++ [(sm_host_ptr m, false)] |>
                           <| dp_a_slabs ::= inc32 |> <| dp_a_bytes ::= fun x => u64 (x + bytes) |>, Ret m)
        | (a, Fail _) => allocate_b (d <| dp_a := Some a |> <| dp_a_done := true |>) bytes
        end
  | None => allocate_b d bytes
  end.

(** The first slab with that pointer, which is returned to the path that gave it. *)
Fixpoint take_owner (p : Z) (o : list (Z * bool)) : option (bool * list (Z * bool)) :=
  match o with
  | [] => None
  | x :: o => if x.1 =? p then Some (x.2, o) else '(b, o) ← take_owner p o; Some (b, x :: o)
  end.
Definition dual_release (d : D) (m : SlabMemory) : D :=
  match take_owner (sm_host_ptr m) (dp_owner d) with
  | None => d
  | Some (true, o) => d <| dp_b ::= fmap (fun b => release b m) |> <| dp_owner := o |>
  | Some (false, o) => d <| dp_a ::= fmap (fun a => release a m) |> <| dp_owner := o |>
  end.
End Dual.

#[export] Instance DualPath_backing {A B} `{SlabBacking A, SlabBacking B} : SlabBacking (DualPathBacking A B) :=
  { allocate := dual_allocate; release := dual_release }.

(** ** Building the cache *)

Definition kPathAReserve : Z := 4 * 2 ^ 30.
Definition kReservePiece : Z := 2 * 2 ^ 30.

Section Build.
Context {A B E : Type} `{SlabBacking A, SlabBacking B}.

(** What is held back of path A: pieces until one is refused. *)
Fixpoint hold_reserve (pieces : nat) (held : Z) (a : A) : A * list SlabMemory :=
  match pieces with
  | O => (a, [])
  | S pieces =>
      match allocate a (Z.min kReservePiece (kPathAReserve - held)) with
      | (a, Fail _) => (a, [])
      | (a, Ret m) => let '(a, ms) := hold_reserve pieces (held + kReservePiece) a in (a, m :: ms)
      end
  end.
Definition reserve_pieces : nat := Z.to_nat (kPathAReserve / kReservePiece).

(** [headroom] is what the heap of path A reports as left and as its whole budget, if it has
    one; [path_a_cap] and [evict] come from the environment. *)
Definition path_a_cap_bytes (path_a_cap : bool) (headroom : option (Z * Z)) (b : option B) : Z :=
  match path_a_cap && bool_decide (is_Some b), headroom with
  | true, Some (room, budget) => if budget =? 0 then 0 else if room =? 0 then 1 else room
  | _, _ => 0
  end.

(** The backing as the store's pool leaves it, whose counters are read afterwards. *)
Definition pool_backing (dual : DualPathBacking A B) (sc : SlabConfig) : DualPathBacking A B :=
  default dual (backing (pool_init (mkSlabPool None sc [] 0 0) (Some dual) sc).1).
Definition build_expert_cache (a : A) (b : option B) (headroom : A -> option (Z * Z)) (path_a_cap : bool)
    (evict : option EvictPath) (slots_per_slab cache_budget n_layers n_experts : Z) (policy : CachePolicy)
    (st : ExpertStore) (io : E) (m : Manifest) (ss : ShardSet) : Result (Planner E * DualPathBacking A B) :=
  let '(a, reserve) := hold_reserve reserve_pieces 0 a in
  let dual := dual_path (Some a) b (path_a_cap_bytes path_a_cap (headroom a) b) in
  let made := pool_backing dual (mkSlabConfig slots_per_slab kExpertSlotBytes cache_budget) in
  st ← store_init st (Some dual) slots_per_slab cache_budget n_layers n_experts;
  p ← planner_init st io m ss policy;
  let p := p <| ps_store ::= fun st => st <| path_b_first_slab := dp_a_slabs made |> |> in
  let p := match evict with
           | Some v => p <| ps_store ::= fun st => st <| ExpertStore.evict_path := v |> |>
           | None => p
           end in
  Ret (p, made <| dp_a ::= fmap (fun a => foldl release a reserve) |>).
End Build.

(** What an empty submit says about a cache of this size. *)
Inductive Probe := ProbePassed | ProbeRefused | ProbeLost.

Section Probed.
Context {X : Type} (build : Z -> X -> Result unit * X) (probe : X -> Probe * X) (undo : X -> X).

(** The sizes of the plan in turn; the budget is the last one set. *)
Fixpoint probe_plan (backoff : bool) (slot_bytes budget : Z) (plan : list Z) (x : X) : Result unit * Z * X :=
  match plan with
  | [] => (Fail ResourceExhausted, budget, x)
  | n :: plan =>
      let budget := u64 (n * slot_bytes) in
      match build budget x with
      | (Fail e, x) => (Fail e, budget, x)
      | (Ret _, x) =>
          match probe x with
          | (ProbePassed, x) => (Ret tt, budget, x)
          | (ProbeLost, x) => (Fail ResourceExhausted, budget, x)
          | (ProbeRefused, x) =>
              let x := undo x in
              if backoff then probe_plan backoff slot_bytes budget plan x else (Fail ResourceExhausted, budget, x)
          end
      end
  end.
Definition build_expert_cache_probed (backoff : bool) (step budget : Z) (x : X) : Result unit * Z * X :=
  let want := u32 (budget_slots budget kExpertSlotBytes) in
  let plan := if backoff then cache_backoff_slots want step kCacheBackoffTries kCacheBackoffFloor else [want] in
  if bool_decide (plan = []) then (Fail InvalidArgument, budget, x)
  else probe_plan backoff kExpertSlotBytes budget plan x.
End Probed.
