(* ===== verification/CacheSizingProps.v ===== *)
(** Theorems about sizing the expert cache: the sizes tried go strictly down, only a size that
    passed its probe is kept, and the store tells the two memory paths apart as the backing
    filled them. *)

From S2P Require Import Prelude Types Floats Manifest Slab ShardSet ExpertStore Planner CacheSizing.

(** ** The sizes tried *)

Definition descending : list Z -> Prop := StronglySorted Z.gt.

Lemma backoff_from_spec step floor_slots : 0 < step -> 0 <= floor_slots -> step + floor_slots < 2 ^ 32 ->
  forall attempts n, 0 < n < 2 ^ 32 ->
  descending (backoff_from n step floor_slots attempts) /\ (length (backoff_from n step floor_slots attempts) <= attempts)%nat /\
  Forall (fun x => Z.min n floor_slots <= x <= n) (backoff_from n step floor_slots attempts) /\
  (attempts <> 0%nat -> head (backoff_from n step floor_slots attempts) = Some n).
Proof.
  intros Hs Hf Hsum. induction attempts as [|k IH]; intros n Hn; [split_and!; [constructor|done|constructor|done]|].
  cbn [backoff_from length head]. rewrite (u32_small (step + floor_slots)) by lia.
  destruct (Z.leb_spec n floor_slots) as [Hle|Hgt]; [split_and!; [repeat constructor|cbn; lia|repeat constructor; lia|done]|].
  set (n' := if step + floor_slots <? n then u32 (n - step) else floor_slots).
  assert (Hn' : floor_slots <= n' < n) by (unfold n'; destruct (Z.ltb_spec (step + floor_slots) n); [rewrite u32_small by lia|]; lia).
  destruct (Z.eq_dec n' 0) as [E0|].
  - rewrite E0. assert (floor_slots = 0) as -> by lia. destruct k; cbn; rewrite ?Z.leb_refl.
    + split_and!; [repeat constructor|lia|repeat constructor; lia|done].
    + split_and!; [repeat constructor; lia|lia|repeat constructor; lia|done].
  - destruct (IH n') as (Hd & Hl & Hr & _); [lia|]. split_and!; [|lia| |done].
    + constructor; [done|]. eapply Forall_impl; [exact Hr|]. cbn. lia.
    + constructor; [lia|]. eapply Forall_impl; [exact Hr|]. cbn. lia.
Qed.

(** The plan of a backoff: it starts with the size wanted and goes strictly down, never below
    the floor (or below the start, when that is smaller already). *)
Lemma cache_backoff_descends start step attempts floor_slots : 0 < start < 2 ^ 32 -> 0 <= step -> 0 <= floor_slots ->
  (if step =? 0 then kCacheBackoffSlots else step) + floor_slots < 2 ^ 32 -> attempts <> 0%nat ->
  let l := cache_backoff_slots start step attempts floor_slots in
  head l = Some start /\ descending l /\ (length l <= attempts)%nat /\ Forall (fun n => Z.min start floor_slots <= n <= start) l.
Proof.
  intros Hst Hs Hf Hsum Ha l. unfold l, cache_backoff_slots. rewrite (proj2 (Z.eqb_neq start 0)) by lia.
  destruct (backoff_from_spec (if step =? 0 then kCacheBackoffSlots else step) floor_slots) with (attempts := attempts) (n := start)
    as (? & ? & ? & Hh); [destruct (Z.eqb_spec step 0); [done|lia]|done..|]. split_and!; auto.
Qed.

(** A step near [2^32] wraps the sum it is compared with, and the next size is larger. *)
Lemma backoff_step_wraps : cache_backoff_slots 300 (2 ^ 32 - 100) 2 200 = [300; 400].
Proof. vm_compute. reflexivity. Qed.

(** ** Only a probed size is kept *)

Section Probed.
Context {X : Type} (build : Z -> X -> Result unit * X) (probe : X -> Probe * X) (undo : X -> X).

Lemma probe_plan_kept backoff slot_bytes plan : forall budget x budget' x',
  probe_plan build probe undo backoff slot_bytes budget plan x = (Ret tt, budget', x') ->
  exists pre n post y z, plan = pre ++ n :: post /\ budget' = u64 (n * slot_bytes) /\ build budget' y = (Ret tt, z) /\ probe z = (ProbePassed, x') /\
    (backoff = false -> pre = []).
Proof.
  induction plan as [|n plan IH]; intros budget x budget' x' Hp; [done|]. cbn [probe_plan] in Hp.
  destruct (build (u64 (n * slot_bytes)) x) as [[[]|e] y] eqn:Eb; [|done]. destruct (probe y) as [[| |] z] eqn:Ep.
  - injection Hp as <- <-. by exists [], n, plan, x, y.
  - destruct backoff; [|done]. destruct (IH _ _ _ _ Hp) as (pre & n' & post & y' & z' & -> & ? & ? & ? & _).
    by exists (n :: pre), n', post, y', z'.
  - done.
Qed.

(** A cache that is built has passed its probe at the size its budget says.  An explicit size is
    built as asked or not at all; an automatic one is never larger than wanted. *)
Lemma probed_size_kept backoff step budget x budget' x' : 0 <= step -> step + kCacheBackoffFloor < 2 ^ 32 ->
  let want := u32 (budget_slots budget kExpertSlotBytes) in
  build_expert_cache_probed build probe undo backoff step budget x = (Ret tt, budget', x') ->
  exists n y z, budget' = n * kExpertSlotBytes /\ build budget' y = (Ret tt, z) /\ probe z = (ProbePassed, x') /\
    0 <= n <= want /\ (backoff = false -> n = want) /\ (kCacheBackoffFloor <= want -> kCacheBackoffFloor <= n).
Proof.
  intros Hs Hsum want Hb. unfold build_expert_cache_probed in Hb. fold want in Hb. case_bool_decide as Hne; [done|].
  pose proof (u32_range (budget_slots budget kExpertSlotBytes)) as Hw. fold want in Hw.
  destruct (probe_plan_kept _ _ _ _ _ _ _ Hb) as (pre & n & post & y & z & Hpl & Hbud & Hbuild & Hprobe & Hpre).
  assert (Hn : 0 <= n <= want /\ (backoff = false -> n = want) /\ (kCacheBackoffFloor <= want -> kCacheBackoffFloor <= n)).
  { destruct backoff.
    - unfold cache_backoff_slots in Hpl. destruct (Z.eqb_spec want 0) as [E|]; [by destruct pre|].
      destruct (cache_backoff_descends want step kCacheBackoffTries kCacheBackoffFloor) as (_ & _ & _ & Hall);
        [lia|done|done|destruct (Z.eqb_spec step 0); [done|lia]|done|].
      unfold cache_backoff_slots in Hall. rewrite (proj2 (Z.eqb_neq want 0)) in Hall by done.
      rewrite Hpl, Forall_app, Forall_cons in Hall. destruct Hall as (_ & Hr & _). unfold kCacheBackoffFloor in *. split_and!; [lia..|done|lia].
    - rewrite Hpre in Hpl by done. injection Hpl as Hpl <-. subst n. split_and!; [lia..|done|done]. }
  exists n, y, z. split_and!; try apply Hn; try done. rewrite Hbud. apply u64_small. unfold kExpertSlotBytes in *. lia.
Qed.
End Probed.

(** ** The two memory paths *)

Section Paths.
Context {A B : Type} `{SlabBacking A, SlabBacking B}.
#[local] Abbreviation D := (DualPathBacking A B).

(** The slabs out in order of allocation: those of path A come first. *)
Record dual_ok (d : D) (ms : list SlabMemory) : Prop := {
  du_owner : dp_owner d = imap (fun i m => (sm_host_ptr m, dp_a_slabs d <=? Z.of_nat i)) ms;
  du_count : Z.of_nat (length ms) = dp_a_slabs d + dp_b_slabs d;
  du_pos : 0 <= dp_a_slabs d /\ 0 <= dp_b_slabs d;
  du_order : dp_b_slabs d <> 0 -> dp_a d = None \/ dp_a_done d = true }.

Lemma owner_snoc (ms : list SlabMemory) (m : SlabMemory) a a' (b : bool) :
  (forall i, (i < length ms)%nat -> (a <=? Z.of_nat i) = (a' <=? Z.of_nat i)) -> (a' <=? Z.of_nat (length ms)) = b ->
  imap (fun i m => (sm_host_ptr m, a <=? Z.of_nat i)) ms ++ [(sm_host_ptr m, b)] = imap (fun i m => (sm_host_ptr m, a' <=? Z.of_nat i)) (ms ++ [m]).
Proof.
  intros Hi Hb. rewrite imap_app. cbn. rewrite Nat.add_0_r, Hb. f_equal. apply imap_ext. intros i x Hx. cbn.
  f_equal. apply Hi. by eapply lookup_lt_Some.
Qed.

Lemma allocate_b_ok (d d' : D) bytes ms r : dual_ok d ms -> Z.of_nat (length ms) + 1 < 2 ^ 32 -> dp_a d = None \/ dp_a_done d = true ->
  allocate_b d bytes = (d', r) -> match r with Ret m => dual_ok d' (ms ++ [m]) | Fail _ => dual_ok d' ms end.
Proof.
  intros [Ho Hc [Ha Hb] Hord] Hlt Hdone. unfold allocate_b. destruct (dp_b d) as [b|]; [|intros [= <- <-]; by split].
  destruct (allocate b bytes) as [b' [m|e]]; intros [= <- <-].
  - unfold inc32. split; cbn; rewrite ?(u32_small (dp_b_slabs d + 1)) by lia.
    + rewrite Ho. apply owner_snoc; [done|]. apply Z.leb_le. lia.
    + rewrite length_app. cbn. lia.
    + lia.
    + done.
  - by split.
Qed.
Lemma dual_allocate_ok (d d' : D) bytes ms r : dual_ok d ms -> Z.of_nat (length ms) + 1 < 2 ^ 32 ->
  allocate d bytes = (d', r) -> match r with Ret m => dual_ok d' (ms ++ [m]) | Fail _ => dual_ok d' ms end.
Proof.
  intros Hok Hlt. pose proof Hok as [Ho Hc [Ha Hb] Hord]. cbn [allocate DualPath_backing]. unfold dual_allocate.
  destruct (dp_a d) as [a|] eqn:Ea; [|apply allocate_b_ok; auto].
  destruct (dp_a_done d || _) eqn:Ed.
  { apply allocate_b_ok; [|done|by right]. split; try done. by right. }
  apply orb_false_iff in Ed as [Ed _]. destruct (allocate a bytes) as [a' [m|e]].
  - intros [= <- <-]. assert (Hb0 : dp_b_slabs d = 0) by (destruct (Z.eq_dec (dp_b_slabs d) 0) as [|Hn]; [done|]; destruct (Hord Hn); congruence).
    unfold inc32. split; cbn; rewrite ?(u32_small (dp_a_slabs d + 1)) by lia.
    + rewrite Ho. apply owner_snoc; [intros i Hi|]; [|apply Z.leb_gt; lia].
      rewrite !(proj2 (Z.leb_gt _ _)) by lia. done.
    + rewrite length_app. cbn. lia.
    + lia.
    + lia.
  - apply allocate_b_ok; [|done|by right]. split; try done. by right.
Qed.

Lemma alloc_slabs_dual n bytes : forall (d d' : D) acc ms e, dual_ok d acc -> Z.of_nat (length acc) + Z.of_nat n < 2 ^ 32 ->
  alloc_slabs n bytes d acc = (d', ms, e) -> dual_ok d' ms.
Proof.
  induction n as [|n IH]; intros d d' acc ms e Hok Hlt; cbn [alloc_slabs]; [by intros [= <- <- <-]|].
  destruct (allocate d bytes) as [d1 r] eqn:Ea. pose proof (dual_allocate_ok _ _ _ _ _ Hok ltac:(lia) Ea) as H1.
  destruct r as [m|err]; [|by intros [= <- <- <-]]. apply IH; [done|]. rewrite length_app. cbn. lia.
Qed.

Lemma pool_init_dual (p p' : SlabPool D) (a : option A) (b : option B) cap cfg :
  pool_init p (Some (dual_path a b cap)) cfg = (p', Ret tt) ->
  exists d, backing p' = Some d /\ dual_ok d (slabs p').
Proof.
  unfold pool_init. destruct (_ || _); [done|]. destruct (negb _); [done|]. destruct (kMaxSlab <? _); [done|].
  set (want := u32 _). pose proof (u32_range (budget_bytes cfg / u64 (slot_bytes cfg * slots_per_slab cfg))) as Hw. fold want in Hw.
  destruct (want =? 0); [done|]. destruct (alloc_slabs _ _ _ []) as [[d ms] e] eqn:Ea.
  assert (Hd : dual_ok d ms).
  { refine (alloc_slabs_dual _ _ _ _ [] _ _ _ _ Ea); [by split|]. rewrite Z2Nat.id by lia. cbn [length]. lia. }
  intros E. assert (p' = mkSlabPool (Some d) cfg ms (u64 (slot_bytes cfg * slots_per_slab cfg))
    (u32 (u32 (Z.of_nat (length ms)) * slots_per_slab cfg))) as -> by (destruct ms, e; congruence). by exists d.
Qed.

Lemma init_slots_slab {C} `{SlabBacking C} (p : SlabPool C) n ss : init_slots p n = Ret ss ->
  forall i s, ss !! i = Some s -> is_Some (slabs p !! Z.to_nat (s_slab s)).
Proof.
  revert ss. induction n as [|n IH]; intros ss E; cbn [init_slots] in E; [by injection E as <-|].
  apply bind_Ret in E as (before & Hb & (a & Ha & [= <-])%bind_Ret). intros i s [Hi|[_ Hi]]%lookup_app_Some; [by eapply IH|].
  apply list_lookup_singleton_Some in Hi as [_ <-]. cbn. unfold address in Ha. destruct (slot_count p <=? _); [done|].
  cbn [decompose] in Ha. unfold decompose in Ha. cbn [fst] in Ha. destruct (slabs p !! Z.to_nat (u16 _)); [by eexists|discriminate Ha].
Qed.
Lemma init_slots_slab_pos {C} `{SlabBacking C} (p : SlabPool C) n ss : init_slots p n = Ret ss ->
  forall i s, ss !! i = Some s -> 0 <= s_slab s.
Proof.
  revert ss. induction n as [|n IH]; intros ss E; cbn [init_slots] in E; [by injection E as <-|].
  apply bind_Ret in E as (before & Hb & (a & Ha & [= <-])%bind_Ret). intros i s [Hi|[_ Hi]]%lookup_app_Some; [by eapply IH|].
  apply list_lookup_singleton_Some in Hi as [_ <-]. cbn. apply u16_range.
Qed.
End Paths.

(** Once the cache is built, the store calls a slot's slab one of path B exactly when path B gave
    that slab: the backing fills path A first and never goes back to it. *)
Lemma cache_paths_match {A B E} `{SlabBacking A, SlabBacking B} (a : A) (b : option B) headroom cap evict spp budget ls es policy st (io : E) m ss p d :
  build_expert_cache a b headroom cap evict spp budget ls es policy st io m ss = Ret (p, d) ->
  forall i s, slots (ps_store p) !! i = Some s ->
  exists ptr path_b, dp_owner d !! Z.to_nat (s_slab s) = Some (ptr, path_b) /\ on_path_b (ps_store p) s = path_b.
Proof.
  unfold build_expert_cache. destruct (hold_reserve _ _ _) as [a' held].
  set (dual := dual_path _ _ _). set (sc := mkSlabConfig _ _ _). set (made := pool_backing dual sc). intros Hb i s Hs.
  apply bind_Ret in Hb as (st' & Hst & Hb). apply bind_Ret in Hb as (p' & Hp & E1). injection E1 as <- <-.
  unfold store_init in Hst. destruct (_ || _); [done|]. fold sc in Hst.
  destruct (pool_init _ _ sc) as [q [[]|]] eqn:Hq; [|done]. destruct (pool_init_dual _ _ _ _ _ _ Hq) as (dq & Hdq & [Ho Hc _ _]).
  assert (Hmade : made = dq) by (unfold made, pool_backing; rewrite Hq; cbn [fst]; by rewrite Hdq). rewrite Hmade in Hs |- *. clear Hmade made.
  apply bind_Ret in Hst as (sl & Hsl & E1). injection E1 as <-. unfold planner_init in Hp. destruct (bool_decide _); [done|]. destruct (negb _); [done|]. injection Hp as <-.
  assert (Hs' : sl !! i = Some s) by (destruct evict; exact Hs). destruct (init_slots_slab _ _ _ Hsl i s Hs') as [x Hx].
  pose proof (init_slots_slab_pos _ _ _ Hsl i s Hs') as Hpos.
  exists (sm_host_ptr x), (dp_a_slabs dq <=? s_slab s). split; [|destruct evict; reflexivity].
  change (dp_owner (dq <| dp_a ::= fmap (fun a => foldl release a held) |>)) with (dp_owner dq).
  rewrite Ho, list_lookup_imap, Hx. cbn. by rewrite Z2Nat.id.
Qed.
