(* ===== verification/CacheHeat.v ===== *)
(** Policies over the expert cache between requests ([src/runtime/decode_boundary.h] and
    [Engine::reheat], [warm_cache_from_heat] of [engine.cpp]): how many slots a layer could be
    admitted to, waiting until there are enough, and the turn-boundary pass that trades the
    coldest residents for candidates of the static heat order.

    The code asks the store one locked question at a time.  What other threads do in between is
    an argument: a list of store operations at each such point. *)

From S2P Require Import Prelude Types Floats Manifest Slab ShardSet ExpertStore Planner.

(** ** Capacity at a decode boundary *)

Record DecodeBoundaryCapacity := mkCapacity {
  db_free : Z; db_filling : Z; db_pinned : Z; db_evictable : Z; db_guarded : Z; db_completed : Z; db_max_guard : Z }.
#[export] Instance DecodeBoundaryCapacity_eta : Eta DecodeBoundaryCapacity := fun c =>
  mkCapacity (db_free c) (db_filling c) (db_pinned c) (db_evictable c) (db_guarded c) (db_completed c) (db_max_guard c).
Definition available (c : DecodeBoundaryCapacity) : Z := u32 (db_free c + db_evictable c).

Definition count_slot (completed : Z) (c : DecodeBoundaryCapacity) (s : ExpertSlot) : DecodeBoundaryCapacity :=
  if bool_decide (s_state s = Free) then c <| db_free ::= inc32 |>
  else if bool_decide (s_state s = Filling) then c <| db_filling ::= inc32 |>
  else if bool_decide (s_tier s = Pinned) then c <| db_pinned ::= inc32 |>
  else
    let c := c <| db_max_guard ::= Z.max (s_guard_timeline s) |> in
    if s_guard_timeline s <=? completed then c <| db_evictable ::= inc32 |> else c <| db_guarded ::= inc32 |>.
Definition decode_boundary_capacity (st : ExpertStore) : DecodeBoundaryCapacity :=
  foldl (count_slot (completed_timeline st)) (mkCapacity 0 0 0 0 0 (completed_timeline st) 0) (slots st).

(** The first fill whose slot could become evictable. *)
Definition mutable_fill (st : ExpertStore) : option ExpertKey :=
  s_key <$> List.find (fun s => bool_decide (s_state s = Filling) && negb (bool_decide (s_tier s = Pinned))) (slots st).

Record DecodeBoundaryWait := mkWait { bw_before : DecodeBoundaryCapacity; bw_after : DecodeBoundaryCapacity; bw_waits : Z }.

(** Each element of [slices] is what other threads do while one slice of the wait lasts; when
    the list ends the time is up. *)
Fixpoint settle_loop (required : Z) (before after : DecodeBoundaryCapacity) (waits : Z) (slices : list (list StoreOp)) (st : ExpertStore)
  : Result DecodeBoundaryWait * ExpertStore :=
  if required <=? available after then (Ret (mkWait before after waits), st)
  else
    let again := decode_boundary_capacity st in
    let measured := if required <=? available again then Ret (mkWait before again waits) else Fail ResourceExhausted in
    match mutable_fill st with
    | None => (measured, st)
    | Some k =>
        match slices with
        | [] => (measured, st)
        | others :: slices =>
            let st := (wait_settled k others st).2 in
            settle_loop required before (decode_boundary_capacity st) (u32 (waits + 1)) slices st
        end
    end.
Definition settle_decode_boundary (required timeout_ms : Z) (before : DecodeBoundaryCapacity) (slices : list (list StoreOp)) (st : ExpertStore)
  : Result DecodeBoundaryWait * ExpertStore :=
  if timeout_ms <? 0 then (Fail InvalidArgument, st) else settle_loop required before before 0 slices st.

(** ** Reheating at a turn boundary *)

Record HeatOrder := mkHeatOrder {
  ho_turn : Z; ho_slots : Z; ho_warm : Z; ho_evicted : Z; ho_free_slots : Z; ho_passed : Z; ho_decay : float }.

(** [0.05f] and [0.1f] *)
Definition kWarmFloor : float := f32_lit 13421773 (-28).
Definition kWarmShare : float := f32_lit 13421773 (-27).
Definition floor_heat (head : float) : float := f_max kWarmFloor (f32_mul kWarmShare head).

(** [store_.slot_for(k)->heat]: nothing when the key is no longer there, which the code does
    not ask. *)
Definition heat_of (st : ExpertStore) (k : ExpertKey) : option float := s_heat <$> slot_for k st.
Fixpoint warm_prefix (st : ExpertStore) (floor : float) (heat : list ExpertKey) : Result nat :=
  match heat with
  | [] => Ret O
  | k :: heat =>
      match heat_of st k with
      | None => Fail Internal
      | Some h => if f_geb h floor then n ← warm_prefix st floor heat; Ret (S n) else Ret O
      end
  end.

(** The candidates: the first keys of the static order that are not resident, [limit] at most. *)
Definition absent (st : ExpertStore) (table : list ExpertKey) (limit : nat) : list ExpertKey :=
  take limit (filter (fun k => resident st k = false) table).

(** Evicts the last [n] keys of the order, coldest first, and counts the ones that went. *)
Fixpoint evict_coldest (others : nat -> list StoreOp) (victims : list ExpertKey) (st : ExpertStore) : nat * ExpertStore :=
  match victims with
  | [] => (O, st)
  | k :: victims =>
      let '(r, st) := evict_key k (others (length victims)) st in
      let '(n, st) := evict_coldest others victims st in
      ((if is_ok r then 1 else 0) + n, st)%nat
  end.

(** What other threads do: after the decay, after the order is read, while each victim goes. *)
Record Interference := mkInterference { if_decay : list StoreOp; if_order : list StoreOp; if_evict : nat -> list StoreOp }.
Definition no_interference : Interference := mkInterference [] [] (fun _ => []).

(** The pass up to the backfill: the report and the keys to fetch. *)
Definition reheat_evict (others : Interference) (table : list ExpertKey) (decay : float) (turn : Z) (st : ExpertStore)
  : Result (HeatOrder * list ExpertKey) * ExpertStore :=
  let free := u32 (free_slots st) in
  let st := run_ops (if_decay others) (decay_heat decay st) in
  let heat := heat_order st in
  let n := u32 (Z.of_nat (length heat)) in
  let st := run_ops (if_order others) st in
  match (match heat with [] => Ret f32_zero | k :: _ => match heat_of st k with Some h => Ret h | None => Fail Internal end end) with
  | Fail e => (Fail e, st)
  | Ret head =>
      match warm_prefix st (floor_heat head) heat with
      | Fail e => (Fail e, st)
      | Ret warm =>
          let want := Z.min (if free =? 0 then Z.max 4 (n / 32) else free) (n - Z.of_nat warm) in
          let order := absent st table (Z.to_nat (want + free)) in
          let have := u32 (Z.of_nat (length order)) in
          let want := if have <=? free then 0 else Z.min want (have - free) in
          let '(evicted, st) := evict_coldest (if_evict others) (take (Z.to_nat want) (rev heat)) st in
          let order := take (Z.to_nat (u32 (free + Z.of_nat evicted))) order in
          (Ret (mkHeatOrder turn n (Z.of_nat warm) (Z.of_nat evicted) free (u32 (Z.of_nat (length order))) decay, order), st)
      end
  end.

Section Heat.
Context {E : Type} `{IoEngine E}.
#[local] Abbreviation P := (Planner E).

(** [turn] is [reheat_turn_]; [table] the static heat order. *)
Definition reheat (env : nat -> P -> P) (others : Interference) (gpu_ready : bool) (table : list ExpertKey) (decay : float) (turn : Z) (p : P)
  : Result HeatOrder * Z * P :=
  if negb gpu_ready then (Fail FailedPrecondition, turn, p)
  else if f_ltb decay f32_zero || f_gtb decay f32_one then (Fail InvalidArgument, turn, p)
  else
    let turn := u32 (turn + 1) in
    match reheat_evict others table decay turn (ps_store p) with
    | (Fail e, st) => (Fail e, turn, p <| ps_store := st |>)
    | (Ret (ho, order), st) =>
        let p := p <| ps_store := st |> in
        match order with
        | [] => (Ret ho, turn, p)
        | _ :: _ => match start_backfill env order 2 true p with
                    | (Fail e, p) => (Fail e, turn, p)
                    | (Ret _, p) => (Ret ho, turn, p)
                    end
        end
    end.

(** Fills the cache from the static order; [polls] is what other threads do between two looks
    at the statistics, and the time is up when it ends. *)
Fixpoint warm_loop (polls : list (P -> P)) (p : P) : P :=
  let s := get_stats (ps_store p) in
  if Z.of_nat (length (slots (ps_store p))) <=? st_resident s then p
  else match polls with
       | [] => p
       | step :: polls => if (0 <? st_free s) && negb (backfill_active p) then p else warm_loop polls (step p)
       end.
Definition warm_cache_from_heat (env : nat -> P -> P) (table : list ExpertKey) (polls : list (P -> P)) (p : P) : Result Z * P :=
  let s := get_stats (ps_store p) in
  if (st_free s =? 0) && (st_filling s =? 0) then (Ret (st_resident s), p)
  else
    match start_backfill env table 8 false p with
    | (Fail e, p) => (Fail e, p)
    | (Ret _, p) =>
        let p := stop_backfill (warm_loop polls p) in
        (Ret (st_resident (get_stats (ps_store p))), p)
    end.
End Heat.
