(* ===== verification/CacheHeatProps.v ===== *)
(** Theorems about the cache between requests: a settled boundary has the slots the next layer
    needs, and a turn-boundary pass evicts only cold experts for which it has a replacement. *)

From S2P Require Import Prelude Types Floats Manifest Slab ShardSet ExpertStore StoreInv StoreProps Planner PlannerInv PlannerProps CacheHeat.

(** ** Capacity *)

(** The slots that are free or could be evicted now. *)
Definition spare (st : ExpertStore) : Z := count (in_state Free) (slots st) + count (is_evictable st) (slots st).

Lemma spare_one st s : 0 <= Z.b2z (in_state Free s) + Z.b2z (is_evictable st s) <= 1.
Proof. unfold in_state, is_evictable. destruct (s_state s); eval_states; cbn; try lia; destruct (_ && _); cbn; lia. Qed.
Lemma spare_range ss (st : ExpertStore) : 0 <= count (in_state Free) ss + count (is_evictable st) ss <= Z.of_nat (length ss).
Proof. induction ss as [|s ss IH]; [done|]. cbn [count length]. pose proof (spare_one st s). lia. Qed.

Lemma count_slot_fold st ss : forall c, 0 <= db_free c -> 0 <= db_evictable c -> db_free c + db_evictable c + Z.of_nat (length ss) < 2 ^ 32 ->
  let c' := foldl (count_slot (completed_timeline st)) c ss in
  db_free c' = db_free c + count (in_state Free) ss /\ db_evictable c' = db_evictable c + count (is_evictable st) ss.
Proof.
  induction ss as [|s ss IH]; intros c Hf He Hlen; cbn [foldl count length] in *; [lia|].
  set (c1 := count_slot (completed_timeline st) c s).
  assert (Hc : db_free c1 = db_free c + Z.b2z (in_state Free s) /\ db_evictable c1 = db_evictable c + Z.b2z (is_evictable st s)).
  { unfold c1, count_slot, in_state, is_evictable, inc32. destruct (s_state s); eval_states; cbn; [|lia|].
    - rewrite u32_small by lia. lia.
    - destruct (bool_decide (s_tier s = Pinned)); cbn; [lia|]. destruct (_ <=? _); cbn; [rewrite u32_small by lia|]; lia. }
  pose proof (spare_one st s) as Hb.
  assert (0 <= Z.b2z (in_state Free s) /\ 0 <= Z.b2z (is_evictable st s)) by (split; match goal with |- _ <= Z.b2z ?b => by destruct b end).
  destruct (IH c1) as [-> ->]; lia.
Qed.
Lemma capacity_is_spare st : store_core st -> available (decode_boundary_capacity st) = spare st.
Proof.
  intros Hok. pose proof (ok_size _ Hok). pose proof (spare_range (slots st) st). unfold available, decode_boundary_capacity.
  destruct (count_slot_fold st (slots st) (mkCapacity 0 0 0 0 0 (completed_timeline st) 0)) as [-> ->]; cbn; [lia..|].
  unfold spare in *. apply u32_small. lia.
Qed.

(** ** Settling *)

Lemma settle_loop_spec required before slices : forall after waits st, after = decode_boundary_capacity st ->
  exists ops, Forall (fun o => o ∈ mjoin slices) ops /\
  match settle_loop required before after waits slices st with
  | (Ret w, st') => st' = run_ops ops st /\ bw_before w = before /\ bw_after w = decode_boundary_capacity st' /\ required <= available (bw_after w)
  | (Fail e, st') => st' = run_ops ops st /\ e = ResourceExhausted /\ available (decode_boundary_capacity st') < required
  end.
Proof.
  induction slices as [|others slices IH]; intros after waits st ->; cbn [settle_loop];
    destruct (Z.leb_spec required (available (decode_boundary_capacity st))) as [Hle|Hlt]; try (by exists []);
    (destruct (mutable_fill st) as [k|]; [|by exists []]).
  - by exists [].
  - destruct (wait_settled_spec k others st) as (b & a & -> & -> & _). cbn [snd].
    destruct (IH _ (u32 (waits + 1)) (run_ops b st) eq_refl) as (ops & Hops & H). exists (b ++ ops). split.
    + apply Forall_app. split; [apply Forall_forall; intros o Ho; apply elem_of_app; left; apply elem_of_app; by left|].
      eapply Forall_impl; [exact Hops|]. intros o Ho. apply elem_of_app. by right.
    + rewrite run_ops_app. exact H.
Qed.

(** ** What a layer can be admitted to *)

Section Admit.
Context {E : Type} `{IoEngine E}.
#[local] Abbreviation P := (Planner E).

(** Nothing stops the planner from giving [k] a slot once there is one. *)
Definition placeable (st : ExpertStore) (k : ExpertKey) (e : ExpertEntry) : Prop :=
  key_ok k /\ key_in_range st k = true /\ index st !! k = None /\ ee_runs e <> [] /\ (length (ee_runs e) <= kMaxExpertRuns)%nat /\
  ee_slot_bytes e <= store_slot_bytes st.

Lemma reserve_fields k t st i a st1 : reserve_locked k t st = Ret (i, a, st1) ->
  fixed_cache st1 = fixed_cache st /\ cache_frozen st1 = cache_frozen st /\ completed_timeline st1 = completed_timeline st /\
  layers st1 = layers st /\ experts_per_layer st1 = experts_per_layer st /\ store_slot_bytes st1 = store_slot_bytes st /\
  index st1 = <[k := i]> (index st).
Proof.
  unfold reserve_locked. destruct (cache_frozen st) eqn:Hz; [done|]. destruct (key_in_range st k); [|done]. destruct (bool_decide _); [done|].
  destruct (free_list st) as [|j rest]; [done|]. cbn [negb]. intros [= <- <- <-]. by rewrite <- Hz.
Qed.
Lemma evictable_same st st' s : completed_timeline st' = completed_timeline st -> is_evictable st' s = is_evictable st s.
Proof. unfold is_evictable. by intros ->. Qed.
Lemma spare_move st st' i s t : slots st !! i = Some s -> slots st' = <[i := t]> (slots st) -> completed_timeline st' = completed_timeline st ->
  spare st' = spare st - (Z.b2z (in_state Free s) + Z.b2z (is_evictable st s)) + (Z.b2z (in_state Free t) + Z.b2z (is_evictable st t)).
Proof.
  intros Hs Hsl Hc. unfold spare. rewrite Hsl, !(count_insert _ _ _ _ _ Hs).
  rewrite !(count_ext (is_evictable st') (is_evictable st)) by (intros; by apply evictable_same). rewrite !(evictable_same st st') by done. lia.
Qed.

Lemma fill_free_slot k e st : store_ok st -> cache_frozen st = false -> free_list st <> [] -> placeable st k e ->
  exists r st', begin_fill k e Cached st = Ret (r, st') /\ store_ok st' /\ fixed_cache st' = fixed_cache st /\ cache_frozen st' = false /\
    spare st' = spare st - 1 /\ completed_timeline st' = completed_timeline st /\
    forall k' e', k' <> k -> placeable st k' e' -> placeable st' k' e'.
Proof.
  intros Hok Hfz Hfree (Hk & Hin & Hix & Hne & Hlen & Hsz).
  destruct (begin_fill k e Cached st) as [[r st']|err] eqn:Eb.
  - exists r, st'. split; [done|]. pose proof (begin_fill_ok k e Cached st Hk Hok) as Hok'. rewrite Eb in Hok'. split; [done|].
    apply begin_fill_inv in Eb as (i & a & st1 & Hr & _ & _ & _ & ->).
    destruct (reserve_fields _ _ _ _ _ _ Hr) as (F1 & F2 & F3 & F4 & F5 & F6 & F7).
    destruct (reserve_move _ _ _ _ _ _ Hok Hk Hr) as (s & Hs & Hf & _ & _ & _ & _ & Hmv).
    split_and!; [done|by cbn; rewrite F2| |done|].
    + set (f := fun s : ExpertSlot => s <| s_runs_total := Z.of_nat (length (ee_runs e)) |> <| s_part_offset := ee_part_offset e |> <| s_part_bytes := ee_part_bytes e |>).
      rewrite (spare_move st (upd_stats _ (upd_slot i f st1)) i s (f (reserved_slot k Cached s))); [|done| |done].
      * unfold in_state, is_evictable. cbn. rewrite Hf. eval_states. cbn. lia.
      * cbn. rewrite (mv_slots _ _ _ _ _ Hmv), (alter_insert_slot f i _ (reserved_slot k Cached s)), list_insert_insert_eq; [done|].
        apply list_lookup_insert_eq. by eapply lookup_lt_Some.
    + intros k' e' Hk' (A1 & A2 & A3 & A4 & A5 & A6). unfold placeable, key_in_range in *. cbn. rewrite F4, F5, F6, F7.
      by rewrite lookup_insert_ne.
  - exfalso. unfold begin_fill in Eb. rewrite bool_decide_false in Eb by done. destruct (Nat.ltb_spec kMaxExpertRuns (length (ee_runs e))); [lia|].
    destruct (Z.ltb_spec (store_slot_bytes st) (ee_slot_bytes e)); [lia|]. cbn [fail_if mbind Result_bind] in Eb.
    unfold reserve_locked in Eb. rewrite Hfz, Hin, Hix in Eb. cbn [negb] in Eb. rewrite bool_decide_false in Eb by (by intros []).
    by destruct (free_list st).
Qed.
Lemma drop_fields st i s : slots st !! i = Some s -> let st' := drop_resident i st in
  fixed_cache st' = fixed_cache st /\ cache_frozen st' = cache_frozen st /\ completed_timeline st' = completed_timeline st /\
  layers st' = layers st /\ experts_per_layer st' = experts_per_layer st /\ store_slot_bytes st' = store_slot_bytes st /\
  index st' = delete (s_key s) (index st) /\ free_list st' = i :: free_list st.
Proof. intros Hs. unfold drop_resident, unpublish_locked, release_locked. rewrite Hs. cbn. rewrite Hs. by split_and!. Qed.

Lemma filter_count (p : ExpertSlot -> bool) ss : filter (fun s => p s = true) ss = [] -> count p ss = 0.
Proof. induction ss as [|s ss IH]; [done|]. rewrite filter_cons. cbn [count]. case_decide as Hp; [done|]. intros He. rewrite IH by done. by destruct (p s). Qed.

Lemma first_victim c n : c <> [] -> (0 < n)%nat -> exists u vs, u ∈ c /\ choose_victims c n = s_slot u :: vs.
Proof.
  intros Hc Hn. pose proof (std_sort_perm worse c) as Hp. unfold choose_victims. destruct (std_sort worse c) as [|u us].
  - apply Permutation_nil_l in Hp. congruence.
  - exists u. destruct n as [|n]; [lia|]. eexists. split; [rewrite <- Hp; left|done].
Qed.

Lemma reclaim_one (p : P) : store_ok (ps_store p) -> fixed_cache (ps_store p) = false -> free_list (ps_store p) = [] -> 0 < spare (ps_store p) ->
  exists p', reclaim 1 p = (1%nat, p') /\ store_ok (ps_store p') /\ fixed_cache (ps_store p') = false /\ cache_frozen (ps_store p') = cache_frozen (ps_store p) /\
    free_list (ps_store p') <> [] /\ spare (ps_store p') = spare (ps_store p) /\
    forall k e, placeable (ps_store p) k e -> placeable (ps_store p') k e.
Proof.
  set (st := ps_store p). intros Hok Hfx Hfree Hsp.
  assert (Hev : evictable st <> []).
  { unfold evictable. rewrite Hfx. intros He%filter_count. unfold spare in Hsp. rewrite He in Hsp.
    pose proof (free_list_length st Hok) as Hl. rewrite Hfree in Hl. cbn in Hl. lia. }
  destruct (first_victim (evictable st) (Nat.min (length (evictable st)) (1 * 2))) as (u & vs & Hu & Hvs); [done|destruct (evictable st); [done|cbn; lia]|].
  unfold evictable in Hu. rewrite Hfx in Hu. apply list_elem_of_filter in Hu as [Hue Hin]. apply list_elem_of_lookup in Hin as [i Hi].
  rewrite (ok_id _ Hok _ _ Hi) in Hvs. pose proof (proj1 (is_evictable_spec st u) Hue) as (Hres & Ht & Hg).
  assert (Hdrop : evict i st = (Ret tt, drop_resident i st)).
  { unfold evict. rewrite Hfx, Hi, bool_decide_true by done. cbn [negb]. rewrite bool_decide_false by done. destruct (Z.ltb_spec (completed_timeline st) (s_guard_timeline u)); [lia|done]. }
  pose proof (drop_resident_move i u st Hok Hi Hres Ht Hfx) as Hmv.
  assert (Hrec : exists p', reclaim 1 p = (1%nat, p') /\ ps_store p' = drop_resident i st).
  { unfold reclaim. fold st. cbn [Nat.eqb]. rewrite bool_decide_false by done. rewrite Hvs. cbn [evict_all Nat.leb]. fold st. rewrite Hdrop.
    destruct vs as [|v vs]; cbn; by eexists. }
  destruct Hrec as (p' & Hrec & Hst). exists p'. rewrite Hst.
  destruct (drop_fields st i u Hi) as (F1 & F2 & F3 & F4 & F5 & F6 & F7 & F8).
  split_and!; [done|by apply (drop_resident_ok i u)|by rewrite F1|done|by rewrite F8| |].
  - rewrite (spare_move st _ i u (released_slot u) Hi (mv_slots _ _ _ _ _ Hmv) F3). unfold in_state at 1. rewrite Hue, Hres.
    unfold in_state, is_evictable. cbn. eval_states. cbn. lia.
  - intros k e (A1 & A2 & A3 & A4 & A5 & A6). unfold placeable, key_in_range in *. rewrite F4, F5, F6, F7. split_and!; try done.
    by apply lookup_delete_None; right.
Qed.
Lemma reserve_for_spare k e (p : P) : store_ok (ps_store p) -> fixed_cache (ps_store p) = false -> 0 < spare (ps_store p) -> placeable (ps_store p) k e ->
  exists r p', reserve_for k e p = (Ret r, p') /\ store_ok (ps_store p') /\ fixed_cache (ps_store p') = false /\
    spare (ps_store p') = spare (ps_store p) - 1 /\
    forall k' e', k' <> k -> placeable (ps_store p) k' e' -> placeable (ps_store p') k' e'.
Proof.
  intros Hok Hfx Hsp Hpl.
  assert (Hfz : forall st, store_ok st -> fixed_cache st = false -> cache_frozen st = false).
  { intros st Ho Hf. destruct (cache_frozen st) eqn:Hz; [|done]. destruct (ok_frozen _ Ho Hz) as [? _]. congruence. }
  destruct (decide (free_list (ps_store p) = [])) as [Hfree|Hfree].
  - destruct (reclaim_one p Hok Hfx Hfree Hsp) as (p1 & Hrec & Ho1 & Hf1 & _ & Hfree1 & Hsp1 & Hpl1).
    destruct (fill_free_slot k e (ps_store p1) Ho1 (Hfz _ Ho1 Hf1) Hfree1 (Hpl1 _ _ Hpl)) as (r & st' & Hb & Ho' & Hf' & _ & Hs' & _ & Hpl').
    exists r, (p1 <| ps_store := st' |>). unfold reserve_for.
    assert (Hfull : begin_fill k e Cached (ps_store p) = Fail ResourceExhausted).
    { destruct Hpl as (_ & Hin & Hix & Hne & Hlen & Hsz). unfold begin_fill. rewrite bool_decide_false by done.
      destruct (Nat.ltb_spec kMaxExpertRuns (length (ee_runs e))); [lia|]. destruct (Z.ltb_spec (store_slot_bytes (ps_store p)) (ee_slot_bytes e)); [lia|].
      cbn [fail_if mbind Result_bind]. unfold reserve_locked. rewrite (Hfz _ Hok Hfx), Hin, Hix. cbn [negb]. rewrite bool_decide_false by (by intros []). by rewrite Hfree. }
    rewrite Hfull, Hrec, Hb. cbn. split_and!; [done|done|congruence|lia|]. intros k' e' Hk' Hp'. apply Hpl'; auto.
  - destruct (fill_free_slot k e (ps_store p) Hok (Hfz _ Hok Hfx) Hfree Hpl) as (r & st' & Hb & Ho' & Hf' & _ & Hs' & _ & Hpl').
    exists r, (p <| ps_store := st' |>). unfold reserve_for. rewrite Hb. cbn. split_and!; [done|done|congruence|done|done].
Qed.

(** A layer's misses, reserved one after the other. *)
Fixpoint reserve_each (misses : list (ExpertKey * ExpertEntry)) (p : P) : list (Result Reservation) * P :=
  match misses with
  | [] => ([], p)
  | (k, e) :: misses => let '(r, p) := reserve_for k e p in let '(rs, p) := reserve_each misses p in (r :: rs, p)
  end.
Lemma reserve_each_spare misses : forall p : P, store_ok (ps_store p) -> fixed_cache (ps_store p) = false -> NoDup misses.*1 ->
  Forall (fun x => placeable (ps_store p) x.1 x.2) misses -> Z.of_nat (length misses) <= spare (ps_store p) ->
  Forall (fun r => is_ok r = true) (reserve_each misses p).1.
Proof.
  induction misses as [|[k e] misses IH]; intros p Hok Hfx Hnd Hall Hlen; [constructor|]. cbn in Hnd, Hlen |- *.
  apply NoDup_cons in Hnd as [Hni Hnd]. apply Forall_cons in Hall as [Hpl Hall]. cbn in Hpl.
  destruct (reserve_for_spare k e p Hok Hfx ltac:(lia) Hpl) as (r & p' & -> & Hok' & Hfx' & Hsp' & Hpl').
  specialize (IH p' Hok' Hfx' Hnd). destruct (reserve_each misses p') as [rs p2]. constructor; [done|]. apply IH; [|lia].
  apply Forall_forall. intros [k' e'] Hin. rewrite Forall_forall in Hall. change (placeable (ps_store p') k' e'). apply Hpl'; [|exact (Hall _ Hin)].
  intros ->. apply Hni. apply list_elem_of_fmap. by exists (k, e').
Qed.
End Admit.

(** A boundary that settles has room for the layer behind it.  Waiting changes nothing itself, so
    the store is where the other threads' operations left it.  On success the planner can
    reserve a slot for any set of absent experts of up to the size asked for, evicting where no
    slot is free; on failure fewer slots than that are free or evictable. *)
Theorem settled_boundary_admits {E} `{IoEngine E} (p : Planner E) required timeout_ms slices : let st := ps_store p in
  store_ok st -> 0 <= timeout_ms -> Forall op_typed (mjoin slices) ->
  let '(r, st') := settle_decode_boundary required timeout_ms (decode_boundary_capacity st) slices st in
  (exists ops, Forall (fun o => o ∈ mjoin slices) ops /\ st' = run_ops ops st) /\
  match r with
  | Ret w => forall misses, Z.of_nat (length misses) <= required -> fixed_cache st' = false -> NoDup misses.*1 ->
      Forall (fun x => placeable st' x.1 x.2) misses ->
      Forall (fun r => is_ok r = true) (reserve_each misses (p <| ps_store := st' |>)).1
  | Fail e => e = ResourceExhausted /\ spare st' < required
  end.
Proof.
  intros st Hok Ht Hty. unfold settle_decode_boundary. rewrite (proj2 (Z.ltb_ge _ _)) by done.
  destruct (settle_loop_spec required (decode_boundary_capacity st) slices _ 0 st eq_refl) as (ops & Hops & Hr).
  assert (Hok' : store_ok (run_ops ops st)).
  { apply run_ops_ok; [|done]. eapply Forall_impl; [exact Hops|]. rewrite Forall_forall in Hty. exact Hty. }
  destruct (settle_loop _ _ _ _ _ _) as [[w|e] st'].
  - destruct Hr as (-> & _ & Hw & Hreq). split; [by exists ops|]. intros misses Hlen Hfx Hnd Hall.
    apply reserve_each_spare; [done..|]. rewrite Hw, capacity_is_spare in Hreq by apply Hok'. cbn. lia.
  - destruct Hr as (-> & -> & Hlt). split; [by exists ops|]. rewrite capacity_is_spare in Hlt by apply Hok'. done.
Qed.

(** Slot 0 is still being filled when the wait begins, and its fill ends in the second slice. *)
Definition boundary_store : ExpertStore :=
  run_ops [OpBeginFillPlanar exA Cached; OpBeginFillPlanar exB Cached; OpFinishFill 1 true 7] example_store.
Definition boundary_planner : Planner CountingIo := (example_planner []) <| ps_store := boundary_store |>.
Definition boundary_misses : list (ExpertKey * ExpertEntry) :=
  [(mkKey 0 0, example_entry); (mkKey 0 2, example_entry); (mkKey 0 3, example_entry); (mkKey 1 0, example_entry)].
Lemma boundary_settles : (settle_decode_boundary 4 5000 (decode_boundary_capacity boundary_store) [[]; [OpFinishFill 0 true 9]] boundary_store).1
  = Ret (mkWait (mkCapacity 2 1 0 1 0 0 0) (mkCapacity 2 0 0 2 0 0 0) 2).
Proof. vm_compute. reflexivity. Qed.
Lemma boundary_misses_placeable :
  let st' := (settle_decode_boundary 4 5000 (decode_boundary_capacity boundary_store) [[]; [OpFinishFill 0 true 9]] boundary_store).2 in
  fixed_cache st' = false /\ Forall (fun x => placeable st' x.1 x.2) boundary_misses.
Proof.
  intros st'. assert (Hb : (fixed_cache st', store_slot_bytes st', (fun x => (key_in_range st' x.1, index st' !! x.1)) <$> boundary_misses)
    = (false, kExpertSlotBytes, replicate 4 (true, None))) by (vm_compute; reflexivity).
  clearbody st'. injection Hb as H1 H2 A1 B1 A2 B2 A3 B3 A4 B4. cbn [fst snd] in *. split; [done|].
  repeat constructor; cbn [fst snd]; rewrite ?H2; try done; cbn; unfold kMaxExpertRuns; lia.
Qed.

Lemma boundary_misses_distinct : NoDup boundary_misses.*1.
Proof. apply (bool_decide_unpack _). vm_compute. exact I. Qed.
Lemma boundary_store_ok : store_ok boundary_store.
Proof. apply run_ops_ok; [typed_ops|apply example_store_ok]. Qed.

Lemma settled_boundary_admits_witness :
  let st' := (settle_decode_boundary 4 5000 (decode_boundary_capacity boundary_store) [[]; [OpFinishFill 0 true 9]] boundary_store).2 in
  Forall (fun r => is_ok r = true) (reserve_each boundary_misses (boundary_planner <| ps_store := st' |>)).1.
Proof.
  pose proof (settled_boundary_admits boundary_planner 4 5000 [[]; [OpFinishFill 0 true 9]]) as Hs.
  pose proof boundary_settles as Hw. pose proof boundary_misses_placeable as Hp. cbv zeta in *.
  change (ps_store boundary_planner) with boundary_store in Hs.
  destruct (settle_decode_boundary _ _ _ _ _) as [r st']. cbn [fst snd] in *. subst r. destruct Hp as [Hf Hp].
  refine (proj2 (Hs _ _ _) boundary_misses _ Hf _ Hp); [|lia| |by cbn|].
  - exact boundary_store_ok.
  - cbn. typed_ops.
  - exact boundary_misses_distinct.
Defined.

(** ** Reheating *)

Lemma resident_spec st k : resident st k = true <-> exists i s, index st !! k = Some i /\ slots st !! i = Some s /\ s_state s = Resident.
Proof.
  unfold resident, find_resident, find_slot. destruct (index st !! k) as [i|]; cbn; [|split; [done|intros (? & ? & ? & _); done]].
  destruct (slots st !! i) as [s|] eqn:Hs; cbn; [|split; [done|intros (? & ? & [= <-] & ? & _); congruence]].
  destruct (decide (s_state s = Resident)); cbn; split; try done; [by exists i, s|intros (? & ? & [= <-] & Hs' & ?); congruence].
Qed.

Lemma evict_key_resident st k r st' : store_ok st -> evict_key k [] st = (r, st') ->
  store_ok st' /\ forall k', resident st' k' = if is_ok r then resident st k' && negb (bool_decide (k' = k)) else resident st k'.
Proof.
  intros Hok. unfold evict_key, evict_key_find. destruct (index st !! k) as [i|] eqn:Hi; [|by intros [= <- <-]]. cbn [run_ops foldl].
  destruct (ok_index _ Hok _ _ Hi) as (s & Hs & Hk & Hn). destruct (evict i st) as [[[]|e] st1] eqn:Ev; intros [= <- <-].
  - apply evict_inv in Ev as (u & Hu & He & Hfx & ->). simplify_eq. apply is_evictable_spec in He as (Hres & Ht & _). split; [by apply (drop_resident_ok i s)|].
    pose proof (drop_resident_move i s st Hok Hs Hres Ht Hfx) as Hmv. destruct (drop_fields st i s Hs) as (_ & _ & _ & _ & _ & _ & Hix & _).
    intros k'. cbn [is_ok]. apply eq_true_iff_eq. rewrite andb_true_iff, negb_true_iff, bool_decide_eq_false, !resident_spec, Hix.
    rewrite (mv_slots _ _ _ _ _ Hmv). split.
    + intros (j & t & [Hne Hj]%lookup_delete_Some & Ht' & Hst). split; [|congruence]. exists j, t. split_and!; [done| |done].
      rewrite list_lookup_insert_ne in Ht'; [done|]. intros ->. destruct (ok_index _ Hok _ _ Hj) as (? & ? & ? & _). congruence.
    + intros [(j & t & Hj & Htj & Hst) Hne]. exists j, t. rewrite lookup_delete_ne by congruence. split_and!; [done| |done].
      rewrite list_lookup_insert_ne; [done|]. intros ->. destruct (ok_index _ Hok _ _ Hj) as (? & ? & ? & _). congruence.
  - pose proof (evict_ok i st Hok) as Ho. rewrite Ev in Ho. split; [done|]. apply evict_fail in Ev as (f & _ & ->). done.
Qed.

Lemma evict_coldest_quiet victims : forall st n st', store_ok st -> evict_coldest (fun _ => []) victims st = (n, st') ->
  store_ok st' /\ (n <= length victims)%nat /\
  forall k, (resident st' k = true -> resident st k = true) /\ (resident st k = true -> resident st' k = false -> k ∈ victims).
Proof.
  induction victims as [|v victims IH]; intros st n st' Hok He; cbn [evict_coldest] in He.
  - injection He as <- <-. split_and!; [done|done|]. intros k. split; [done|congruence].
  - destruct (evict_key v [] st) as [r st1] eqn:Ev. destruct (evict_coldest _ victims st1) as [m st2] eqn:Er. injection He as <- <-.
    destruct (evict_key_resident _ _ _ _ Hok Ev) as [Hok1 Hres]. destruct (IH _ _ _ Hok1 Er) as (Hok2 & Hm & Hall).
    split_and!; [done|cbn; destruct (is_ok r); lia|]. intros k. specialize (Hres k). destruct (Hall k) as [H1 H2]. split.
    + intros Hk%H1. destruct (is_ok r); [|congruence]. rewrite Hres in Hk. by apply andb_true_iff in Hk as [? _].
    + intros Hk Hk'. rewrite elem_of_cons. destruct (decide (k = v)) as [|Hne]; [by left|right]. apply H2; [|done].
      rewrite Hres, Hk. rewrite bool_decide_false by done. by destruct (is_ok r).
Qed.

Lemma heat_order_resident st k : store_ok st -> k ∈ heat_order st -> resident st k = true /\ exists s, slot_for k st = Some s /\ heat_of st k = Some (s_heat s).
Proof.
  intros Hok Hk. unfold heat_order in Hk. apply list_elem_of_fmap in Hk as (s & -> & Hs).
  rewrite (std_sort_perm hotter) in Hs. apply list_elem_of_filter in Hs as [Hl Hin]. apply list_elem_of_lookup in Hin as [i Hi].
  unfold is_live in Hl. apply andb_true_iff in Hl as [Hr%bool_decide_eq_true _]. assert (Hx : index st !! s_key s = Some i) by (apply (ok_held _ Hok i s Hi); by rewrite Hr).
  split; [apply resident_spec; by exists i, s|]. exists s. unfold heat_of, slot_for, find_slot. rewrite Hx. cbn. by rewrite Hi.
Qed.

(** The prefix of the order that is still warm: as long as every key has a heat. *)
Lemma warm_prefix_spec st floor heat : (forall k, k ∈ heat -> is_Some (heat_of st k)) ->
  exists n, warm_prefix st floor heat = Ret n /\ (n <= length heat)%nat /\
    (forall k, k ∈ take n heat -> exists h, heat_of st k = Some h /\ f_geb h floor = true) /\
    (forall k, heat !! n = Some k -> exists h, heat_of st k = Some h /\ f_geb h floor = false).
Proof.
  induction heat as [|k heat IH]; intros Hall; [by exists O; split_and!; [done|done|intros k Hk; by apply not_elem_of_nil in Hk|done]|].
  cbn [warm_prefix]. destruct (Hall k) as [h Hh]; [left|]. rewrite Hh. destruct (f_geb h floor) eqn:Hg.
  - destruct IH as (n & -> & Hn & Hw & Hc); [intros k' Hk'; apply Hall; by right|]. exists (S n). split_and!; [done|cbn; lia| |exact Hc].
    intros k' [->|Hk']%elem_of_cons; [by exists h|by apply Hw].
  - exists O. split_and!; [done|lia|intros k' Hk'; by apply not_elem_of_nil in Hk'|]. intros k' [= <-]. by exists h.
Qed.

(** The order names each of them once, and leaves out the free slots. *)
Lemma live_keys_nodup ss :
  (forall i j s t, ss !! i = Some s -> ss !! j = Some t -> is_live s = true -> is_live t = true -> s_key s = s_key t -> i = j) ->
  NoDup (s_key <$> filter (fun s => is_live s = true) ss).
Proof.
  induction ss as [|s ss IH]; intros Hinj; [constructor|]. rewrite filter_cons.
  assert (NoDup (s_key <$> filter (fun s => is_live s = true) ss)) by (apply IH; intros i j x y Hi Hj Hx Hy Hk; by apply (inj S), (Hinj (S i) (S j) x y)).
  case_decide as Hs; [|done]. constructor; [|done]. intros (t & Hk & [Ht [j Hj]%list_elem_of_lookup]%list_elem_of_filter)%list_elem_of_fmap.
  discriminate (Hinj O (S j) s t eq_refl Hj Hs Ht Hk).
Qed.
Lemma heat_order_nodup st : store_ok st -> NoDup (heat_order st).
Proof.
  intros Hok. unfold heat_order. rewrite (std_sort_perm hotter). apply live_keys_nodup. unfold is_live.
  intros i j s t Hi Hj [Hs%bool_decide_eq_true _]%andb_true_iff [Ht%bool_decide_eq_true _]%andb_true_iff Hk.
  pose proof (ok_held _ Hok i s Hi ltac:(congruence)). pose proof (ok_held _ Hok j t Hj ltac:(congruence)). congruence.
Qed.
Lemma heat_order_length st : store_ok st -> Z.of_nat (length (heat_order st)) + free_slots st <= Z.of_nat (length (slots st)).
Proof.
  intros Hok. unfold heat_order, free_slots. rewrite (free_list_length st Hok), length_fmap, (std_sort_perm hotter).
  clear Hok. induction (slots st) as [|s ss IH]; [done|]. cbn [count length]. rewrite filter_cons. case_decide as Hl; cbn [length].
  - apply andb_true_iff in Hl as [Hl%bool_decide_eq_true _]. unfold in_state at 1. rewrite Hl, bool_decide_false by done. cbn [Z.b2z]. lia.
  - destruct (in_state Free s); cbn [Z.b2z]; lia.
Qed.

Lemma take_absent st table n m : (n <= m)%nat -> take n (absent st table m) = absent st table (length (take n (absent st table m))).
Proof.
  intros Hle. unfold absent. rewrite take_take, Nat.min_l by done. set (l := filter _ _). rewrite length_take.
  destruct (Nat.le_ge_cases n (length l)); [by rewrite Nat.min_l|]. by rewrite Nat.min_r, !take_ge.
Qed.

(** What the pass evicts when the order has [n] keys, [w] of them warm. *)
Lemma coldest_below {A} (l : list A) want w x : 0 <= want <= Z.of_nat (length l) - Z.of_nat w ->
  x ∈ take (Z.to_nat want) (rev l) -> x ∈ drop w l.
Proof.
  intros Hw [i Hi]%list_elem_of_lookup. apply lookup_take_Some in Hi as [Hi Hlt]. rewrite rev_alt in Hi.
  change (rev_append l []) with (reverse l) in Hi. pose proof (lookup_lt_Some _ _ _ Hi) as Hlen. rewrite length_reverse in Hlen.
  rewrite reverse_lookup in Hi by done. apply list_elem_of_lookup. exists (length l - S i - w)%nat. rewrite lookup_drop.
  rewrite <- Hi. f_equal. lia.
Qed.

(** A pass over a cache no other thread touches meanwhile comes to a report.  It evicts only
    residents below the warm prefix of the order of heat, and only when it has a replacement for
    each: whenever it evicts, exactly the free slots and the evicted ones get a key to fetch.  The
    keys to fetch are the first of the static order that are not resident, and no resident goes
    when the candidates fit into the free slots. *)
Theorem reheat_trades_cold_experts table decay turn st : store_ok st ->
  let st1 := decay_heat decay st in let heat := heat_order st1 in let free := free_slots st in
  exists ho order st', reheat_evict no_interference table decay turn st = (Ret (ho, order), st') /\ store_ok st' /\
    ho_slots ho = Z.of_nat (length heat) /\ ho_free_slots ho = free /\ 0 <= ho_warm ho <= ho_slots ho /\
    (forall k, k ∈ take (Z.to_nat (ho_warm ho)) heat -> resident st' k = true) /\
    (forall k, resident st1 k = true -> resident st' k = false -> k ∈ drop (Z.to_nat (ho_warm ho)) heat) /\
    (forall k, resident st' k = true -> resident st1 k = true) /\
    order = absent st1 table (length order) /\ ho_passed ho = Z.of_nat (length order) /\ ho_passed ho <= free + ho_evicted ho /\
    (0 < ho_evicted ho -> ho_passed ho = free + ho_evicted ho) /\
    (Z.of_nat (length (filter (fun k => resident st1 k = false) table)) <= free -> ho_evicted ho = 0).
Proof.
  intros Hok st1 heat free. pose proof (decay_heat_ok decay st Hok) as Hok1. fold st1 in Hok1.
  pose proof (ok_size _ Hok1) as Hsz. pose proof (heat_order_length st1 Hok1) as Hn. fold heat in Hn.
  assert (Hfree : free_slots st1 = free) by (unfold st1, decay_heat; by repeat case_match).
  assert (Hall : forall k, k ∈ heat -> resident st1 k = true /\ is_Some (heat_of st1 k)).
  { intros k Hk. destruct (heat_order_resident st1 k Hok1 Hk) as (Hr & x & _ & Hh). by rewrite Hh. }
  unfold reheat_evict. fold free. change (run_ops (if_decay no_interference) (decay_heat decay st)) with st1. fold heat.
  change (run_ops (if_order no_interference) st1) with st1. cbv zeta.
  assert (exists hd, match heat with [] => Ret f32_zero | k :: _ => match heat_of st1 k with Some h => Ret h | None => Fail Internal end end = Ret hd) as [hd ->].
  { destruct heat as [|k l] eqn:E; [by eexists|]. destruct (Hall k) as [_ [h Hh]]; [left|]. exists h. by rewrite Hh. }
  destruct (warm_prefix_spec st1 (floor_heat hd) heat) as (w & -> & Hw & _); [intros k Hk; by apply Hall|].
  assert (0 <= free) by (unfold free, free_slots; lia). rewrite (u32_small free), (u32_small (Z.of_nat (length heat))) by lia.
  set (want0 := Z.min _ (Z.of_nat (length heat) - Z.of_nat w)).
  assert (Hw0 : 0 <= want0 <= Z.of_nat (length heat) - Z.of_nat w).
  { unfold want0. pose proof (Z.div_pos (Z.of_nat (length heat)) 32 ltac:(lia) ltac:(lia)). destruct (free =? 0); lia. }
  set (order0 := absent st1 table _).
  assert (Hlen : (length order0 <= Z.to_nat (want0 + free))%nat) by (unfold order0, absent; rewrite length_take; lia).
  rewrite (u32_small (Z.of_nat (length order0))) by lia. set (want := if _ <=? free then 0 else _).
  assert (Hwant : 0 <= want <= want0 /\ (0 < want -> free + want <= Z.of_nat (length order0)) /\ (Z.of_nat (length order0) <= free -> want = 0)).
  { unfold want. destruct (Z.leb_spec (Z.of_nat (length order0)) free); lia. }
  destruct (evict_coldest _ _ _) as [m st'] eqn:Ev. destruct (evict_coldest_quiet _ _ _ _ Hok1 Ev) as (Hok' & Hm & Hk).
  rewrite length_take in Hm. assert (Hm' : 0 <= Z.of_nat m <= want) by lia. rewrite (u32_small (free + Z.of_nat m)) by lia.
  set (order := take _ order0).
  assert (Hord : length order = (Z.to_nat (free + Z.of_nat m) `min` length order0)%nat) by (unfold order; by rewrite length_take).
  rewrite (u32_small (Z.of_nat (length order))) by lia.
  assert (Hgone : forall k, resident st1 k = true -> resident st' k = false -> k ∈ drop w heat).
  { intros k H1 H2. eapply (coldest_below _ want); [lia|]. by apply Hk. }
  do 3 eexists. split; [reflexivity|]. cbn [ho_slots ho_free_slots ho_warm ho_passed ho_evicted]. rewrite Nat2Z.id.
  split_and!; try done; try lia; try (intros; by apply Hk).
  - intros k Hin. destruct (resident st' k) eqn:Er; [done|]. exfalso.
    assert (Hr : resident st1 k = true) by (apply Hall; rewrite <- (take_drop w heat); apply elem_of_app; by left).
    pose proof (heat_order_nodup st1 Hok1) as Hnd. fold heat in Hnd. rewrite <- (take_drop w heat) in Hnd.
    apply NoDup_app in Hnd as (_ & Hdis & _). exact (Hdis k Hin (Hgone k Hr Er)).
  - apply take_absent. lia.
  - intros Hf. enough (want = 0) by lia. apply Hwant. unfold order0, absent. rewrite length_take. lia.
Qed.
